(* ===== verification/_CoqProject ===== *)
-Q . S2P
Prelude.v
Runs.v
F64.v
Duration.v
Clock.v
FrameClock.v
Gesture.v
Animation.v
AnimTotal.v
OutputName.v
LayoutTypes.v
F64Sign.v
Tile.v
TileInv.v
TileGeometry.v
Column.v
ColumnHeights.v
ColumnInv.v
ColumnOps.v
Scrolling.v
ScrollingSpec.v
ScrollingInv.v
ScrollingOps.v
ScrollingTiles.v
ScrollingRemove.v
ScrollingMoves.v
ScrollingConsume.v
ScrollingSwap.v
ScrollingModes.v
ScrollingViews.v
ScrollingGrid.v
ScrollingThms.v
Floating.v
FloatingStack.v
FloatingInv.v
FloatingOps.v
FloatingThms.v
Positions.v
Workspace.v
WorkspaceInv.v
WorkspaceSpec.v
WorkspaceOps.v
WorkspaceTiling.v
WorkspaceRoutes.v
WorkspaceThms.v
WorkspaceLabels.v
Interface.v
Monitor.v
MonitorIds.v
MonitorInv.v
MonitorOps.v
MonitorOps2.v
MonitorThms.v
MonitorGeometry.v
Layout.v
LayoutInv.v
LayoutHotplug.v
LayoutWindows.v
LayoutMoves.v
LayoutRest.v
LayoutNames.v
LayoutThms.v
LayoutReal.v
LayoutActions.v
LayoutPlaces.v
OrOutput.v
LayoutActionsThms.v
LayoutDrag.v
LayoutDragThms.v
LayoutDrop.v
HitTest.v
LayoutFrame.v
LayoutFrameThms.v
Activation.v
LayoutWhole.v
IpcTypes.v
IpcState.v
IpcServer.v
IpcStreams.v
WindowMru.v
