(* ===== verification/Prelude.v ===== *)
(** * niri in Rocq: the library root

    niri is a scrollable-tiling Wayland compositor.  This library models the
    parts of it that decide where windows are, when frames are shown, how things
    move and what IPC clients are told, and proves that they do what they promise.
    Paths are relative to the repository; [src/layout/...] is the compositor crate,
    [niri-ipc/], [niri-config/] the crates it uses.

    ** How the program is built

    A [Layout] (src/layout/mod.rs) owns the monitors.  A [Monitor]
    (src/layout/monitor.rs) owns a vertical stack of workspaces and the switch
    between them.  A [Workspace] (src/layout/workspace.rs) owns a [ScrollingSpace]
    (src/layout/scrolling.rs), a strip of [Column]s of [Tile]s (src/layout/tile.rs),
    each with a window, and a [FloatingSpace] (src/layout/floating.rs), a stack of
    tiles; it moves windows between the two and knows which of them is active.
    Everything that moves is an [Animation] (src/animation/) timed by the shared
    [Clock]; gestures accumulate in a [SwipeTracker] (src/input/swipe_tracker.rs).
    [FrameClock] and [VBlankThrottle] time presentation.  The IPC server
    (src/ipc/server.rs) compares the layout with the state it last sent
    (niri-ipc/src/state.rs) and sends the difference to its clients.

    ** Conventions

    Rust code that panics (indexing, [unwrap], [assert!], unsigned underflow,
    [f64::clamp] with crossed bounds, [NotNan]) returns [res] (this file): [Panic]
    is a value, and that an operation does not panic is a theorem about it.
    Operations pass their state explicitly; [&mut self] is an argument and a
    result.  [f64] is IEEE binary64 ([F64]), NaN and infinities included;
    [Duration] is a bounded number of nanoseconds; [u64] ids wrap.  [Vec]s are lists
    with the bounds checks written out.  The clock is shared by reference in the
    source and constant within an event loop cycle: operations take what they read
    of it, a [ClockView].  Global counters are threaded as fields.

    Code that is not in the repository is a parameter: the math library ([Libm]),
    the keyframe crate ([Keyframe]), Smithay's outputs, windows and rectangles ([Rectangles]), hash map order
    ([HashOrder]).  Windows are used by the layout through the [LayoutElement] trait, a
    class here too ([Tile.LayoutElement]), whose laws are what the trait promises.

    ** Files

    - [Prelude], [Runs]: panics and bounds-checked vectors; [runs m Q], the
      computation [m] returns with a result in [Q], with one rule per construct, the
      tactics [step], [runs], [finish] and [returns] that walk through an operation.
    - [F64], [F64Sign], [Duration]: numbers.
    - [Clock] (animation/clock.rs), [FrameClock] (frame_clock.rs,
      utils/vblank_throttle.rs), [Gesture] (input/swipe_tracker.rs, rubber_band.rs,
      input/scroll_swipe_gesture.rs), [Animation], [AnimTotal] (animation/mod.rs,
      spring.rs, bezier.rs).
    - [OutputName] (niri-config/src/output.rs).
    - [LayoutTypes]: requests for placing windows; [Interface]: the options of the
      layout, and the class [WorkspaceOps] of the workspace operations a monitor calls,
      with [WorkspaceLaws], what monitors rely on.
    - [Monitor] has the state and operations of monitor.rs; [MonitorIds],
      [MonitorInv], [MonitorOps], [MonitorOps2] prove what they keep; [MonitorThms] has
      the theorems, and a small workspace that satisfies the laws.
    - [Layout] has the state and operations of layout/mod.rs over monitors;
      [LayoutInv], [LayoutHotplug], [LayoutWindows], [LayoutMoves],
      [LayoutRest], [LayoutNames] are the proofs, [LayoutThms] the theorems.
    - [MonitorGeometry]: where the workspaces of a monitor are drawn, the one under a
      point, and where a dropped window goes (monitor.rs).
    - [LayoutReal] puts the workspaces of [Workspace] into the layout: they satisfy the
      laws ([real_laws], [real_layout_laws]; [WorkspaceLabels] has what no operation of
      a workspace changes).  [LayoutActions] has the functions of layout/mod.rs that act
      on the contents of one workspace, over these; [LayoutPlaces] says what changing
      one workspace does to a layout, [OrOutput] when a workspace tells that it did
      something, [LayoutActionsThms] what actions do.  [LayoutDrag] has the interactive moves of layout/mod.rs: a window is
      grabbed, follows the pointer and is dropped; [LayoutDragThms], [LayoutDrop] their
      proofs.  [HitTest] has what is under a point, from the tabs and tiles of a column
      (tab_indicator.rs, tile.rs) to the monitors.  [LayoutFrame] has what the event loop
      does all the time: animations that advance, windows that are told their state, views
      that scroll under a drag, drags that are held, commits; [LayoutFrameThms] its
      proofs, and [Activation] who is told to be activated.  [LayoutWhole] has the theorems
      about everything together.
    - [Tile], [Column], [Scrolling] have the state and operations of tile.rs, of the
      columns and of the space of scrolling.rs.  [TileInv], [ColumnInv], [ColumnHeights],
      [ColumnOps] prove the invariants of tiles and columns.
      [ScrollingSpec] is the abstract state, a grid of windows, with one function per
      operation; [ScrollingInv] relates a space to its grid; [ScrollingOps],
      [ScrollingTiles], [ScrollingRemove], [ScrollingMoves], [ScrollingConsume],
      [ScrollingSwap], [ScrollingModes] and [ScrollingViews] show that each operation runs, keeps the invariant and
      refines its specification; [ScrollingGrid] proves what the specification keeps;
      [ScrollingThms] has the theorems, concrete runs and two findings.
    - [Floating] has the state and operations of floating.rs.  [FloatingStack] is the
      order of windows, children above their parents; [FloatingInv] the invariant and
      the abstract state, a pile of windows; [FloatingOps] shows that
      each operation refines its specification on the pile; [FloatingThms] has the
      theorems.
    - [TileGeometry]: where the window of a tile is drawn (tile.rs).
    - [Positions]: where tiles are drawn, sizes of windows about to open, and the area
      of the insert hint (scrolling.rs, floating.rs).
    - [Workspace] has the state and operations of workspace.rs over both layouts, and
      the options of a workspace.  [WorkspaceInv] has the invariant and the abstract
      state, a [View] of a grid, a pile and which is active; [WorkspaceSpec] one
      function on views per operation; [WorkspaceOps], [WorkspaceTiling],
      [WorkspaceRoutes] the refinement; [WorkspaceThms] the
      theorems.
    - [WindowMru]: the window switcher (src/ui/mru.rs), its theorems with it.
    - [IpcTypes], [IpcState] (niri-ipc/src/lib.rs, state.rs), [IpcServer], [IpcStreams]
      (src/ipc/server.rs).

    ** What the theorems show

    The whole: from every layout that can be reached over real workspaces, each step
    runs without panicking under the conditions of [LayoutWhole.step_pre], accounts for
    every window, and leaves each workspace in order; an action does on one workspace
    what the specification of that workspace's operation says and nothing elsewhere; a
    window that is dragged is on its workspace or held by the pointer, and when it is
    dropped it is where it landed; the keyboard focus is on a window of the workspace in
    front whenever it has one, and after a refresh that window is the one that has been
    told to be activated; hit testing finds windows that are there.

    Layout: from every layout that can be reached, each operation under the conditions
    of [LayoutThms.layout_op_pre] runs without panicking, keeps [layout_ok] (most of
    [Layout::verify_invariants]; see [LayoutInv]) and accounts for every window; naming
    is covered except for the workspace at the end of a monitor that is not active,
    where the invariant breaks ([set_name_elsewhere_breaks]).  An output unplugged and
    plugged back gets back the workspaces with windows or a name, if they were all its
    own.  Monitors: each operation keeps [monitor_ok] ([MonitorInv] lists what of
    [Monitor::verify_invariants] it has and leaves out); clean-up, moves of workspaces
    and switching do what they say; gestures end inside the stack.

    Scrolling layout: each of its operations refines its specification on the grid of
    windows and keeps [space_ok] ([ScrollingInv] lists what of
    [ScrollingSpace::verify_invariants] it has; the offset to restore is left out, and
    [expel_keeps_restore_offset] shows that assertion broken); no window is lost, focus
    stays with its window in the operations that should keep it, closing a new window
    and consuming and expelling undo each other, the loop over heights ends with every
    constraint met, and drop positions are valid.  Floating layout: each operation
    refines its specification on the stack of windows; children stay above their parents
    while clients change them; activation and directional focus do what they say.
    Workspaces: the same for all operations over the two layouts together; a workspace
    with windows has an active one, its options are always the merged ones, and a
    floating window that becomes fullscreen floats again afterwards.

    Window switcher: from every state it can reach no operation panics, the selected
    window is one of those shown, and stepping goes round all of them.

    IPC: every client that stays connected is exactly one queue behind the server, which
    mirrors the layout after each refresh; replication and application are inverse.
    The two searches of a spring end ([spring_searches_end]); the clock is monotone and
    frozen within a cycle; predicted presentation times lie on the refresh grid; swipe
    trackers keep their window of history.  Some theorems show where the code departs
    from its comments; they are listed as findings in the manifest.

    ** Fuel and bounds

    The loops over floats have no structural measure.  The spring's Newton search
    has fuel [NEWTON_FUEL], more than its own iteration cap, and the sampling
    search [SAMPLE_FUEL], enough for the three seconds it looks at;
    [spring_searches_end] shows that the rounds the loops go through reach a result,
    or a panic of the arithmetic, before either runs out.  The loop over heights gets as much
    fuel as the column has tiles and one more: each round fixes a height
    ([ColumnHeights]).  Operations of gestures assume that what they sort and clamp is
    not NaN ([gesture_finite], [scroll_finite], [pointer_finite]), that time stays
    within [Duration], and, for a window being dragged, that some workspace is on the
    screen ([visible]); the source panics otherwise.  Numbers of windows are natural
    numbers: a [usize] would have to overflow first.

    ** Not modelled

    Rendering and the drawing of decorations and previews; closing animations, which
    are textures; the other user interface panels (src/ui); Wayland, D-Bus, backend and event loop callbacks (src/niri.rs,
    src/handlers, src/backend); input dispatch; configuration parsing (derive macros
    over KDL); process and file system utilities.  Which window is the parent of which
    is told by clients: operations take [kin], the relation at that time, acyclic as
    xdg-shell demands; [st] likewise stands for the scales and sizes of outputs.
*)

From stdpp Require Import base list numbers option.

(** ** Panics

    Rust code that indexes out of bounds, unwraps [None], fails an [assert!]
    or subtracts below zero on an unsigned type panics.  Every operation whose
    source can do so returns [res]; [Panic] is the value of a panicking run. *)
Inductive res (A : Type) : Type :=
| Ok (a : A)
| Panic.
Arguments Ok {A} a.
Arguments Panic {A}.

#[export] Instance res_ret : MRet res := fun A a => Ok a.
#[export] Instance res_bind : MBind res := fun A B f m =>
  match m with Ok a => f a | Panic => Panic end.
#[export] Instance res_fmap : FMap res := fun A B f m =>
  match m with Ok a => Ok (f a) | Panic => Panic end.

(** [assert!(b)] *)
Definition rassert (b : bool) : res unit := if b then Ok tt else Panic.

(** [Option::unwrap] and [Option::expect] *)
Definition unwrap {A} (o : option A) : res A :=
  match o with Some a => Ok a | None => Panic end.

(** [v[i]] on a [Vec] *)
Definition index {A} (l : list A) (i : nat) : res A := unwrap (l !! i).

(** [usize] subtraction: underflow panics. *)
Definition usub (a b : nat) : res nat := if decide (b <= a) then Ok (a - b) else Panic.

(** ** [Vec] operations with their bounds checks *)
Definition insert_at {A} (i : nat) (x : A) (l : list A) : list A :=
  take i l ++ x :: drop i l.

(** [Vec::insert] panics when [i > len]. *)
Definition vec_insert {A} (i : nat) (x : A) (l : list A) : res (list A) :=
  if decide (i <= length l) then Ok (insert_at i x l) else Panic.

(** [Vec::remove] panics when [i >= len]. *)
Definition vec_remove {A} (i : nat) (l : list A) : res (A * list A) :=
  match l !! i with Some x => Ok (x, delete i l) | None => Panic end.

(** [slice::swap] panics when an index is out of bounds. *)
Definition vec_swap {A} (i j : nat) (l : list A) : res (list A) :=
  match l !! i, l !! j with
  | Some x, Some y => Ok (<[i := y]> (<[j := x]> l))
  | _, _ => Panic
  end.

(** [==] on options, given [==] on their contents. *)
Definition option_eqb {A} (eqb : A -> A -> bool) (a b : option A) : bool :=
  match a, b with Some x, Some y => eqb x y | None, None => true | _, _ => false end.

(** [Iterator::position] *)
Fixpoint position {A} (p : A -> bool) (l : list A) : option nat :=
  match l with
  | [] => None
  | x :: l' => if p x then Some 0 else S <$> position p l'
  end.

(** ** Automation *)

(** Inverts one [res] bind or test in the hypotheses. *)
Ltac res_step :=
  match goal with
  | H : mbind _ ?m = Ok _ |- _ =>
      let E := fresh "E" in destruct m eqn:E; cbn [mbind res_bind] in H; [|discriminate H]
  | H : mret _ = Ok _ |- _ => unfold mret, res_ret in H
  | H : Ok _ = Ok _ |- _ => progress simplify_eq
  | H : Panic = Ok _ |- _ => discriminate H
  | H : rassert ?b = Ok _ |- _ =>
      let E := fresh "E" in destruct b eqn:E; cbn [rassert] in H; [|discriminate H]; clear H
  end.
Ltac res_inv := repeat res_step.

(** Names the result of the first operation of a [res] computation. *)
Tactic Notation "bind" hyp(H) "as" simple_intropattern(p) "eqn" ident(E) :=
  cbv beta in H; match type of H with
  | mbind _ ?r = Ok _ => destruct r as p eqn:E; cbn [mbind res_bind] in H; [|discriminate H]
  end.

Create HintDb niri.

(** ** Lemmas shared by the components *)
Section vec.
Context {A : Type}.
Implicit Types (l : list A) (x y : A) (i j : nat).

Lemma length_insert_at i x l : i <= length l -> length (insert_at i x l) = S (length l).
Proof. intros. unfold insert_at. rewrite length_app, length_take; cbn; rewrite length_drop. lia. Qed.

Lemma lookup_insert_at_lt i j x l :
  i <= length l -> j < i -> insert_at i x l !! j = l !! j.
Proof.
  intros. unfold insert_at. rewrite lookup_app_l by (rewrite length_take; lia).
  by rewrite lookup_take_lt.
Qed.

Lemma lookup_insert_at_eq i x l : i <= length l -> insert_at i x l !! i = Some x.
Proof.
  intros. unfold insert_at. rewrite lookup_app_r; rewrite length_take; [|lia].
  by replace (i - i `min` length l) with 0 by lia.
Qed.

Lemma lookup_insert_at_gt i j x l :
  i <= length l -> i <= j -> insert_at i x l !! S j = l !! j.
Proof.
  intros. unfold insert_at. rewrite lookup_app_r; rewrite length_take; [|lia].
  replace (S j - i `min` length l) with (S (j - i)) by lia. simpl.
  rewrite lookup_drop. f_equal. lia.
Qed.

Lemma elem_of_insert_at i x y l : y ∈ insert_at i x l <-> y = x \/ y ∈ l.
Proof.
  unfold insert_at. rewrite elem_of_app, elem_of_cons.
  rewrite <- (take_drop i l) at 3. rewrite elem_of_app. tauto.
Qed.

Lemma insert_at_perm i x l : insert_at i x l ≡ₚ x :: l.
Proof. unfold insert_at. rewrite <- (take_drop i l) at 3. by rewrite Permutation_middle. Qed.

Lemma delete_perm i x l : l !! i = Some x -> l ≡ₚ x :: delete i l.
Proof.
  intros H. rewrite <- (take_drop_middle l i x H) at 1.
  by rewrite delete_take_drop, Permutation_middle.
Qed.

Lemma lookup_delete_at_lt i j l : j < i -> delete i l !! j = l !! j.
Proof. intros. by apply list_lookup_delete_lt. Qed.

Lemma lookup_delete_at_ge i j l : i <= j -> delete i l !! j = l !! S j.
Proof. intros. by apply list_lookup_delete_ge. Qed.

Lemma vec_insert_ok i x l : i <= length l -> vec_insert i x l = Ok (insert_at i x l).
Proof. intros. unfold vec_insert. by rewrite decide_True. Qed.

Lemma vec_remove_ok i x l : l !! i = Some x -> vec_remove i l = Ok (x, delete i l).
Proof. intros H. unfold vec_remove. by rewrite H. Qed.

Lemma index_ok i x l : l !! i = Some x -> index l i = Ok x.
Proof. intros H. unfold index. by rewrite H. Qed.

Lemma position_Some (p : A -> bool) l i :
  position p l = Some i ->
  exists x, l !! i = Some x /\ p x = true /\ forall j y, j < i -> l !! j = Some y -> p y = false.
Proof.
  revert i. induction l as [|a l IH]; intros i; cbn; [done|].
  destruct (p a) eqn:Ea.
  - intros [= <-]. exists a. repeat split; [done|]. intros; lia.
  - destruct (position p l) as [k|]; [|done]. intros [= <-].
    destruct (IH k eq_refl) as (x & ? & ? & Hlt). exists x. repeat split; try done.
    intros [|j] y Hj Hy; cbn in Hy; [congruence|]. eapply Hlt; [|done]. lia.
Qed.

Lemma position_None (p : A -> bool) l :
  position p l = None <-> forall x, x ∈ l -> p x = false.
Proof.
  induction l as [|a l IH]; cbn.
  - split; [intros _ x H; inversion H | done].
  - destruct (p a) eqn:Ea.
    + split; [done|]. intros H. specialize (H a). rewrite H in Ea; [done|left].
    + rewrite fmap_None, IH. split.
      * intros H x [->|Hx]%elem_of_cons; auto.
      * intros H x Hx. apply H. by right.
Qed.
End vec.

Lemma concat_fmap_bind {A B} (f : A -> list B) (l : list A) : concat (f <$> l) = l ≫= f.
Proof. induction l as [|a l IH]; cbn; [done|]. by rewrite IH. Qed.
