(* ===== verification/Runs.v ===== *)
(** * Runs that do not panic

    [runs m Q]: the computation [m] returns, with a result that satisfies [Q].
    The rules below follow the binds of an operation, so that the proof that an
    operation is safe reads like its code. *)

From stdpp Require Import base list numbers option.
From S2P Require Import Prelude.

Definition runs {A} (m : res A) (Q : A -> Prop) : Prop := match m with Ok x => Q x | Panic => False end.
Arguments runs : simpl never.

Section runs.
Context {A B : Type}.
Implicit Types (m : res A).

Lemma runs_ok m (Q : A -> Prop) : runs m Q <-> exists x, m = Ok x /\ Q x.
Proof. unfold runs. destruct m as [x|]; split; [eauto|by intros (? & [= <-] & ?)|done|by intros (? & ? & ?)]. Qed.

Lemma runs_ret (x : A) (Q : A -> Prop) : Q x -> runs (mret x) Q.
Proof. done. Qed.

Lemma runs_bind m (f : A -> res B) (R : A -> Prop) (Q : B -> Prop) :
  runs m R -> (forall x, m = Ok x -> R x -> runs (f x) Q) -> runs (m ≫= f) Q.
Proof. unfold runs. destruct m as [x|]; cbn; [|done]. intros HR H. by apply H. Qed.

Lemma runs_bind_ok m (f : A -> res B) x (Q : B -> Prop) : m = Ok x -> runs (f x) Q -> runs (m ≫= f) Q.
Proof. by intros ->. Qed.

Lemma runs_mono m (R Q : A -> Prop) : runs m R -> (forall x, m = Ok x -> R x -> Q x) -> runs m Q.
Proof. unfold runs. destruct m as [x|]; cbn; [|done]. intros HR H. by apply H. Qed.

Lemma runs_and m (R Q : A -> Prop) : runs m R -> (forall x, m = Ok x -> Q x) -> runs m (fun x => R x /\ Q x).
Proof. unfold runs. destruct m as [x|]; cbn; [|done]. auto. Qed.

Lemma runs_if (b : bool) m1 m2 (Q : A -> Prop) :
  (b = true -> runs m1 Q) -> (b = false -> runs m2 Q) -> runs (if b then m1 else m2) Q.
Proof. destruct b; auto. Qed.

Lemma unwrap_ok (o : option A) x : o = Some x -> unwrap o = Ok x.
Proof. by intros ->. Qed.
Lemma vec_swap_ok i j (x y : A) l : l !! i = Some x -> l !! j = Some y -> vec_swap i j l = Ok (<[i := y]> (<[j := x]> l)).
Proof. unfold vec_swap. by intros -> ->. Qed.
Lemma runs_index (l : list A) i : i < length l -> runs (index l i) (fun x => l !! i = Some x).
Proof. intros Hi. destruct (lookup_lt_is_Some_2 l i Hi) as [x Hx]. by rewrite (index_ok i x). Qed.
End runs.

Lemma runs_mapM {A B} (f : A -> res B) (R : A -> B -> Prop) l :
  (forall x, x ∈ l -> runs (f x) (R x)) -> runs (mapM f l) (Forall2 R l).
Proof.
  induction l as [|x l IH]; cbn [mapM]; intros H; [constructor|].
  eapply runs_bind; [apply H; left|]. intros y _ Hy.
  eapply runs_bind; [apply IH; intros z Hz; apply H; by right|]. intros ys _ Hys. by constructor.
Qed.
(** The first two operations of a computation as one. *)
Lemma runs_bind2 {A B C} (m : res A) (f : A -> res B) (g : B -> res C) (R : B -> Prop) (Q : C -> Prop) :
  runs (m ≫= f) R -> (forall x, R x -> runs (g x) Q) -> runs (m ≫= fun a => f a ≫= g) Q.
Proof. destruct m as [x|]; [|done]. cbn. intros H1 H2. eapply runs_bind; [exact H1|]. intros y _. apply H2. Qed.

Lemma usub_ok a b : b <= a -> usub a b = Ok (a - b).
Proof. intros Hb. unfold usub. by rewrite decide_True. Qed.
Lemma rassert_ok b : b = true -> rassert b = Ok tt.
Proof. by intros ->. Qed.

(** Enters the first operation of a computation with a lemma about it. *)
Tactic Notation "runs" uconstr(H) := eapply runs_bind; [eapply H|cbv beta].
Tactic Notation "step" uconstr(H) := eapply runs_bind_ok; [eapply H|cbv beta].
Tactic Notation "finish" uconstr(H) := eapply runs_mono; [eapply H|cbv beta].
Ltac returns := apply runs_ret; cbv beta iota.
