(* ===== verification/F64.v ===== *)
(** * IEEE 754 binary64 as Rust's [f64] uses it.

    A float is SpecFloat's sign, mantissa and exponent (or zero, infinity,
    NaN).  Arithmetic is SpecFloat's, at 53 bits of precision: the exact result
    rounded once to nearest even.  Comparison is exact comparison of the
    represented values, with the unordered answer on NaN.  Rounding functions
    and casts are computed on the exact value too. *)

From stdpp Require Import base numbers.
From Stdlib Require Import ZArith Lia.
From Stdlib Require Import SpecFloat.
From S2P Require Import Prelude.

Local Open Scope Z_scope.

Definition f64 : Type := spec_float.

(** ** Arithmetic *)
Definition fadd (x y : f64) : f64 := SFadd 53 1024 x y.
Definition fsub (x y : f64) : f64 := SFsub 53 1024 x y.
Definition fmul (x y : f64) : f64 := SFmul 53 1024 x y.
Definition fdiv (x y : f64) : f64 := SFdiv 53 1024 x y.
Definition fsqrt (x : f64) : f64 := SFsqrt 53 1024 x.
Definition fopp (x : f64) : f64 := SFopp x.
Definition fabs (x : f64) : f64 := SFabs x.
Definition fnegative (x : f64) : bool := match x with S754_zero s | S754_infinity s | S754_finite s _ _ => s | S754_nan => false end.
Definition fcopysign (x y : f64) : f64 := if fnegative y then fopp (fabs x) else fabs x.

(** An integer cast to [f64] ([as f64], [f64::from]): rounded to nearest even. *)
Definition of_Z (z : Z) : f64 := binary_normalize 53 1024 z 0 false.
Definition of_nat (n : nat) : f64 := of_Z (Z.of_nat n).

(** A decimal literal [n / d] with [n], [d] below 2^53: one correctly rounded
    division, which is how the literal is read. *)
Definition lit (n d : Z) : f64 := fdiv (of_Z n) (of_Z d).

(** ** The exact value: [mant * 2 ^ expo] *)
Definition signed (s : bool) (m : positive) : Z := if s then Zneg m else Zpos m.

Definition exact (x : f64) : option (Z * Z) :=
  match x with
  | S754_zero _ => Some (0, 0)
  | S754_finite s m e => Some (signed s m, e)
  | _ => None
  end.

Definition cmp_exact (a b : Z * Z) : comparison :=
  let e := Z.min a.2 b.2 in
  Z.compare (Z.shiftl a.1 (a.2 - e)) (Z.shiftl b.1 (b.2 - e)).

Definition fcompare (x y : f64) : option comparison :=
  match x, y with
  | S754_nan, _ | _, S754_nan => None
  | S754_infinity s, S754_infinity t =>
      Some (if s then (if t then Eq else Lt) else (if t then Gt else Eq))
  | S754_infinity s, _ => Some (if s then Lt else Gt)
  | _, S754_infinity t => Some (if t then Gt else Lt)
  | _, _ =>
      match exact x, exact y with
      | Some a, Some b => Some (cmp_exact a b)
      | _, _ => None
      end
  end.

Definition feqb (x y : f64) : bool :=
  match fcompare x y with Some Eq => true | _ => false end.
Definition fltb (x y : f64) : bool :=
  match fcompare x y with Some Lt => true | _ => false end.
Definition fleb (x y : f64) : bool :=
  match fcompare x y with Some (Lt | Eq) => true | _ => false end.
Definition fgtb (x y : f64) : bool := fltb y x.
Definition fgeb (x y : f64) : bool := fleb y x.
Definition fneb (x y : f64) : bool := negb (feqb x y).

Definition is_nan (x : f64) : bool := match x with S754_nan => true | _ => false end.
Definition is_finite (x : f64) : bool :=
  match x with S754_zero _ | S754_finite _ _ _ => true | _ => false end.

(** [f64::max] and [f64::min] ignore a NaN operand. *)
Definition fmax (x y : f64) : f64 :=
  if is_nan x then y else if is_nan y then x else if fltb x y then y else x.
Definition fmin (x y : f64) : f64 :=
  if is_nan x then y else if is_nan y then x else if fltb y x then y else x.

(** [f64::clamp] asserts [min <= max], which a NaN bound fails. *)
Definition fclamp (x lo hi : f64) : res f64 :=
  if fleb lo hi then
    let x := if fltb x lo then lo else x in
    let x := if fgtb x hi then hi else x in
    Ok x
  else Panic.

(** ** Rounding to an integer and casts *)
Definition floorZ (a : Z * Z) : Z :=
  if 0 <=? a.2 then Z.shiftl a.1 a.2 else a.1 / 2 ^ (- a.2).
Definition ceilZ (a : Z * Z) : Z := - floorZ (- a.1, a.2).
Definition truncZ (a : Z * Z) : Z := if 0 <=? a.1 then floorZ a else ceilZ a.
(** Half away from zero. *)
Definition roundZ (a : Z * Z) : Z :=
  if 0 <=? a.2 then Z.shiftl a.1 a.2
  else let d := 2 ^ (- a.2) in
       Z.sgn a.1 * ((2 * Z.abs a.1 + d) / (2 * d)).

(** The integer-valued float, keeping the operand's sign on zero. *)
Definition int_float (s : bool) (z : Z) : f64 :=
  if z =? 0 then S754_zero s else of_Z z.
Definition round_with (r : Z * Z -> Z) (x : f64) : f64 :=
  match x with
  | S754_finite s m e => if 0 <=? e then x else int_float s (r (signed s m, e))
  | _ => x
  end.
Definition ffloor : f64 -> f64 := round_with floorZ.
Definition fceil : f64 -> f64 := round_with ceilZ.
Definition fround : f64 -> f64 := round_with roundZ.

(** [as] casts saturate and send NaN to zero. *)
Definition as_int (lo hi : Z) (x : f64) : Z :=
  match x with
  | S754_nan | S754_zero _ => 0
  | S754_infinity s => if s then lo else hi
  | S754_finite s m e => Z.max lo (Z.min hi (truncZ (signed s m, e)))
  end.
Definition as_usize (x : f64) : nat := Z.to_nat (as_int 0 (2 ^ 64 - 1) x).
Definition as_i32 : f64 -> Z := as_int (- 2 ^ 31) (2 ^ 31 - 1).
Definition as_i16 : f64 -> Z := as_int (- 2 ^ 15) (2 ^ 15 - 1).

(** [x % y]: exact, with the sign of [x]. *)
Definition frem (x y : f64) : f64 :=
  match x, y with
  | S754_nan, _ | _, S754_nan | S754_infinity _, _ | _, S754_zero _ => S754_nan
  | _, S754_infinity _ => x
  | S754_zero _, _ => x
  | S754_finite s m e, S754_finite t n f =>
      let g := Z.min e f in
      let r := Z.rem (Z.shiftl (signed s m) (e - g)) (Z.shiftl (signed t n) (f - g)) in
      if r =? 0 then S754_zero s else binary_normalize 53 1024 r g s
  end.

(** Constants *)
Definition f0 : f64 := S754_zero false.
Definition f1 : f64 := of_Z 1.
Definition EPSILON : f64 := S754_finite false (2 ^ 52)%positive (-104).

Declare Scope f64_scope.
Delimit Scope f64_scope with F.
Infix "+" := fadd : f64_scope.
Infix "-" := fsub : f64_scope.
Infix "*" := fmul : f64_scope.
Infix "/" := fdiv : f64_scope.
Notation "- x" := (fopp x) : f64_scope.

(** ** Small integers are represented exactly *)
Section of_Z_exact.

Lemma digits2_pos_log2 p : Zpos (digits2_pos p) = Z.log2 (Zpos p) + 1.
Proof.
  induction p as [p IH|p IH|]; cbn [digits2_pos]; [| |reflexivity].
  - rewrite Pos2Z.inj_succ, IH. change (Z.pos p~1) with (2 * Z.pos p + 1).
    rewrite Z.log2_succ_double by lia. lia.
  - rewrite Pos2Z.inj_succ, IH. change (Z.pos p~0) with (2 * Z.pos p).
    rewrite Z.log2_double by lia. lia.
Qed.

Lemma iter_xO p d : Zpos (Pos.iter xO p d) = Zpos p * 2 ^ Zpos d.
Proof.
  induction d as [|d IH] using Pos.peano_ind; [cbn; lia|].
  rewrite Pos.iter_succ, Pos2Z.inj_xO, IH, Pos2Z.inj_succ, Z.pow_succ_r by lia. lia.
Qed.

(** Rounding a 53-bit mantissa at an exponent in range changes nothing. *)
Lemma round_aux_exact s m e :
  Zpos (digits2_pos m) = 53 -> -1074 <= e -> e <= 971 ->
  binary_round_aux 53 1024 s (Zpos m) e loc_Exact = S754_finite s m e.
Proof.
  intros Hd H1 H2.
  assert (Hs : shr_fexp 53 1024 (Zpos m) e loc_Exact = (Build_shr_record (Zpos m) false false, e)).
  { unfold shr_fexp, fexp, emin. cbn [Zdigits2 shr_record_of_loc].
    rewrite Hd. replace (Z.max (53 + e - 53) (3 - 1024 - 53) - e) with 0 by lia. reflexivity. }
  unfold binary_round_aux. rewrite Hs. cbn [shr_m loc_of_shr_record round_nearest_even].
  rewrite Hs. cbn [shr_m]. by rewrite (proj2 (Z.leb_le e (1024 - 53)) ltac:(lia)).
Qed.

Lemma of_Z_pos p :
  Zpos p < 2 ^ 53 ->
  exists m e, of_Z (Zpos p) = S754_finite false m e /\ e <= 0 /\ Zpos m = Zpos p * 2 ^ (- e).
Proof.
  intros Hp. pose proof (digits2_pos_log2 p) as Hd.
  assert (Hl : 0 <= Z.log2 (Zpos p) < 53).
  { split; [apply Z.log2_nonneg|]. by apply Z.log2_lt_pow2. }
  set (d := Z.log2 (Zpos p)) in *.
  unfold of_Z, binary_normalize, binary_round, shl_align, fexp, emin.
  rewrite Hd. replace (Z.max (d + 1 + 0 - 53) (3 - 1024 - 53)) with (d - 52) by lia.
  destruct (d - 52 - 0) as [|q|q] eqn:Eq; [|lia|].
  - rewrite round_aux_exact by lia. exists p, 0. repeat split; cbn; lia.
  - rewrite round_aux_exact; [| |lia|lia].
    + exists (Pos.iter xO p q), (d - 52). repeat split; [lia|].
      rewrite iter_xO. do 2 f_equal. lia.
    + rewrite digits2_pos_log2, iter_xO, Z.log2_mul_pow2 by lia. lia.
Qed.

(** The float of a small non-negative integer denotes that integer. *)
Lemma of_Z_exact z :
  0 <= z < 2 ^ 53 ->
  exists m e, exact (of_Z z) = Some (m, e) /\ e <= 0 /\ m = z * 2 ^ (- e).
Proof.
  intros Hz. destruct z as [|p|p]; [exists 0, 0; repeat split; cbn; lia| |lia].
  destruct (of_Z_pos p ltac:(lia)) as (m & e & -> & ? & ?).
  exists (Zpos m), e. by repeat split.
Qed.

Lemma of_Z_is_finite z : 0 <= z < 2 ^ 53 -> is_finite (of_Z z) = true.
Proof.
  intros Hz. destruct z as [|p|p]; [done| |lia].
  by destruct (of_Z_pos p ltac:(lia)) as (m & e & -> & _).
Qed.
End of_Z_exact.

(** ** Order on exact values *)
Section order.
Implicit Types (a b c : Z * Z).

(** Comparison at any common exponent gives the same answer. *)
Lemma cmp_exact_scale a b e :
  e <= a.2 -> e <= b.2 ->
  cmp_exact a b = Z.compare (a.1 * 2 ^ (a.2 - e)) (b.1 * 2 ^ (b.2 - e)).
Proof.
  intros Ha Hb. unfold cmp_exact. set (g := Z.min a.2 b.2).
  rewrite !Z.shiftl_mul_pow2 by lia.
  replace (a.2 - e) with ((a.2 - g) + (g - e)) by lia.
  replace (b.2 - e) with ((b.2 - g) + (g - e)) by lia.
  rewrite !Z.pow_add_r, !Z.mul_assoc by lia.
  assert (0 < 2 ^ (g - e)) by (apply Z.pow_pos_nonneg; lia).
  by rewrite <- Zmult_compare_compat_r by lia.
Qed.

Definition le_exact a b : Prop := cmp_exact a b <> Gt.

Lemma le_exact_scale a b e :
  e <= a.2 -> e <= b.2 -> (le_exact a b <-> a.1 * 2 ^ (a.2 - e) <= b.1 * 2 ^ (b.2 - e)).
Proof. intros. unfold le_exact. rewrite (cmp_exact_scale a b e) by done. reflexivity. Qed.

Lemma le_exact_trans a b c : le_exact a b -> le_exact b c -> le_exact a c.
Proof.
  set (e := Z.min a.2 (Z.min b.2 c.2)).
  rewrite (le_exact_scale a b e), (le_exact_scale b c e), (le_exact_scale a c e) by lia. lia.
Qed.

Lemma le_exact_total a b : le_exact a b \/ le_exact b a.
Proof.
  set (e := Z.min a.2 b.2).
  rewrite (le_exact_scale a b e), (le_exact_scale b a e) by lia. lia.
Qed.

(** [floorZ a] is the largest integer not above the value of [a]. *)
Lemma floorZ_spec a e z :
  e <= a.2 -> e <= 0 -> (z <= floorZ a <-> z * 2 ^ (- e) <= a.1 * 2 ^ (a.2 - e)).
Proof.
  intros Ha He. unfold floorZ. destruct (Z.leb_spec 0 a.2).
  - rewrite Z.shiftl_mul_pow2 by lia.
    replace (a.2 - e) with (a.2 + - e) by lia.
    rewrite Z.pow_add_r, Z.mul_assoc by lia.
    apply Z.mul_le_mono_pos_r with (p := 2 ^ (- e)). apply Z.pow_pos_nonneg; lia.
  - assert (0 < 2 ^ (- a.2)) by (apply Z.pow_pos_nonneg; lia).
    assert (0 < 2 ^ (a.2 - e)) by (apply Z.pow_pos_nonneg; lia).
    replace (- e) with (- a.2 + (a.2 - e)) by lia.
    rewrite Z.pow_add_r, Z.mul_assoc by lia.
    rewrite <- Z.mul_le_mono_pos_r by done.
    rewrite (Z.mul_comm z). split; intros Hq.
    + pose proof (Z.mul_div_le a.1 (2 ^ (- a.2)) ltac:(lia)). nia.
    + apply Z.div_le_lower_bound; lia.
Qed.

Lemma floorZ_mono a b : le_exact a b -> floorZ a <= floorZ b.
Proof.
  intros H. set (e := Z.min 0 (Z.min a.2 b.2)).
  rewrite (le_exact_scale a b e) in H by lia.
  apply (floorZ_spec b e); [lia..|].
  etransitivity; [|exact H]. apply (floorZ_spec a e); lia.
Qed.

(** The exact value of an integer. *)
Lemma floorZ_int z e : e <= 0 -> floorZ (z * 2 ^ (- e), e) = z.
Proof.
  intros He. unfold floorZ; cbn [fst snd]. destruct (Z.leb_spec 0 e).
  - replace e with 0 by lia. rewrite Z.shiftl_0_r. cbn; lia.
  - rewrite Z.div_mul; [done|]. pose proof (Z.pow_pos_nonneg 2 (- e)). lia.
Qed.

Lemma roundZ_int z e : 0 <= z -> e <= 0 -> roundZ (z * 2 ^ (- e), e) = z.
Proof.
  intros Hz He. unfold roundZ; cbn [fst snd]. destruct (Z.leb_spec 0 e).
  - replace e with 0 by lia. rewrite Z.shiftl_0_r. cbn; lia.
  - set (d := 2 ^ (- e)). assert (0 < d) by (apply Z.pow_pos_nonneg; lia).
    destruct (Z.eq_dec z 0) as [->|]; [done|].
    rewrite Z.sgn_pos, Z.abs_eq, Z.mul_1_l by nia.
    symmetry. apply (Z.div_unique _ _ _ d); lia.
Qed.

Lemma ceilZ_mono a b : le_exact a b -> ceilZ a <= ceilZ b.
Proof.
  intros H. unfold ceilZ. rewrite <- Z.opp_le_mono. apply floorZ_mono.
  set (e := Z.min a.2 b.2). rewrite (le_exact_scale a b e) in H by lia.
  apply (le_exact_scale _ _ e); cbn [fst snd]; lia.
Qed.

Lemma truncZ_mono a b : le_exact a b -> truncZ a <= truncZ b.
Proof.
  intros H. unfold truncZ. destruct (Z.leb_spec 0 a.1), (Z.leb_spec 0 b.1).
  - by apply floorZ_mono.
  - exfalso. set (e := Z.min a.2 b.2). rewrite (le_exact_scale a b e) in H by lia.
    assert (0 < 2 ^ (a.2 - e)) by (apply Z.pow_pos_nonneg; lia).
    assert (0 < 2 ^ (b.2 - e)) by (apply Z.pow_pos_nonneg; lia). nia.
  - transitivity 0.
    + unfold ceilZ. enough (0 <= floorZ (- a.1, a.2)) by lia.
      apply (floorZ_spec _ (Z.min 0 a.2)); cbn [fst snd]; [lia..|].
      assert (0 < 2 ^ (a.2 - Z.min 0 a.2)) by (apply Z.pow_pos_nonneg; lia). nia.
    + apply (floorZ_spec _ (Z.min 0 b.2)); [lia..|].
      assert (0 < 2 ^ (b.2 - Z.min 0 b.2)) by (apply Z.pow_pos_nonneg; lia). nia.
  - by apply ceilZ_mono.
Qed.
End order.

(** ** Clamping and casting back to an index *)
Section clamp.
Implicit Types (x y : f64) (n : nat).

Lemma fleb_exact x y a b :
  exact x = Some a -> exact y = Some b -> (fleb x y = true <-> le_exact a b).
Proof.
  unfold fleb, le_exact. intros Hx Hy.
  assert (Hc : fcompare x y = Some (cmp_exact a b)).
  { destruct x, y; cbn in *; try done; rewrite ?Hx, ?Hy; congruence. }
  rewrite Hc. by destruct (cmp_exact a b).
Qed.

Lemma cmp_exact_antisym a b : cmp_exact b a = CompOpp (cmp_exact a b).
Proof. unfold cmp_exact. rewrite (Z.min_comm b.2). apply Z.compare_antisym. Qed.

Lemma fcompare_antisym x y : fcompare y x = CompOpp <$> fcompare x y.
Proof.
  destruct x as [sx|sx| |sx mx ex], y as [sy|sy| |sy my ey];
    cbn; try (destruct sx); try (destruct sy); try done;
    f_equal; apply (cmp_exact_antisym (_, _) (_, _)).
Qed.

Lemma fcompare_None x y : fcompare x y = None -> is_nan x = true \/ is_nan y = true.
Proof. destruct x, y; cbn; auto; done. Qed.

Lemma fltb_false_fleb x y :
  fltb x y = false -> is_nan x = true \/ is_nan y = true \/ fleb y x = true.
Proof.
  unfold fltb, fleb. rewrite (fcompare_antisym x y). intros H.
  destruct (fcompare x y) as [[]|] eqn:E; cbn in *; try done; auto.
  destruct (fcompare_None _ _ E); auto.
Qed.

Lemma fleb_not_nan x y : fleb x y = true -> is_nan x = false /\ is_nan y = false.
Proof. by destruct x, y. Qed.

Lemma fleb_refl x : is_nan x = false -> fleb x x = true.
Proof.
  intros H. destruct x as [s|s| |s m e]; [done|by destruct s|done|].
  apply (fleb_exact _ _ (signed s m, e) (signed s m, e)); [done..|].
  unfold le_exact, cmp_exact. by rewrite Z.compare_refl.
Qed.

(** A clamped value is NaN (when the argument is) or lies within the bounds. *)
Lemma fclamp_bounds x lo hi y :
  fclamp x lo hi = Ok y ->
  (is_nan x = true /\ y = x) \/ (fleb lo y = true /\ fleb y hi = true).
Proof.
  unfold fclamp, fgtb. destruct (fleb lo hi) eqn:Eb; [|done].
  destruct (fleb_not_nan _ _ Eb) as [Hl Hh].
  destruct (fltb x lo) eqn:E1; intros [= <-].
  - right. destruct (fltb hi lo) eqn:E2; split; rewrite ?fleb_refl; auto.
  - destruct (fltb hi x) eqn:E2.
    + right. by rewrite fleb_refl.
    + destruct (fltb_false_fleb _ _ E1) as [?|[?|?]]; [auto|congruence|].
      destruct (fltb_false_fleb _ _ E2) as [?|[?|?]]; [congruence|auto|auto].
Qed.

Lemma fclamp_ok x lo hi : fleb lo hi = true -> exists y, fclamp x lo hi = Ok y.
Proof. intros H. unfold fclamp. rewrite H. eauto. Qed.

(** The bounds used for indices: integers below 2^53 compare as integers. *)
Lemma fleb_of_nat m n :
  Z.of_nat n < 2 ^ 53 -> (m <= n)%nat -> fleb (of_nat m) (of_nat n) = true.
Proof.
  intros Hn Hmn. unfold of_nat.
  destruct (of_Z_exact (Z.of_nat m)) as (a & e & Ea & He & Ha); [lia|].
  destruct (of_Z_exact (Z.of_nat n)) as (b & f & Eb & Hf & Hb); [lia|].
  apply (fleb_exact _ _ _ _ Ea Eb). subst.
  rewrite (le_exact_scale _ _ (Z.min e f)) by (cbn; lia). cbn [fst snd].
  rewrite <- !Z.mul_assoc, <- !Z.pow_add_r by lia.
  replace (- e + (e - Z.min e f)) with (- Z.min e f) by lia.
  replace (- f + (f - Z.min e f)) with (- Z.min e f) by lia.
  apply Z.mul_le_mono_nonneg_r; [|lia]. apply Z.pow_nonneg; lia.
Qed.

(** An upper bound that is the float of [n] bounds every monotone rounding. *)
Lemma le_of_nat_floor y n a :
  Z.of_nat n < 2 ^ 53 -> exact y = Some a -> fleb y (of_nat n) = true ->
  exists b, le_exact a b /\ floorZ b = Z.of_nat n.
Proof.
  intros Hn Ha Hle.
  destruct (of_Z_exact (Z.of_nat n)) as (b & f & Eb & Hf & Hb); [lia|].
  exists (b, f). split; [by apply (fleb_exact _ _ _ _ Ha Eb)|]. subst b.
  by apply floorZ_int.
Qed.

Lemma truncZ_nonpos b : b.1 <= 0 -> truncZ b <= 0.
Proof.
  intros Hb. unfold truncZ, ceilZ. destruct (Z.leb_spec 0 b.1).
  - destruct b as [m e]; cbn [fst snd] in *. replace m with 0 by lia.
    unfold floorZ; cbn [fst snd]. destruct (Z.leb_spec 0 e); [by rewrite Z.shiftl_0_l|].
    by rewrite Z.div_0_l by (apply Z.pow_nonzero; lia).
  - apply Z.opp_nonpos_nonneg.
    apply (floorZ_spec _ (Z.min 0 b.2)); cbn [fst snd]; [lia..|].
    assert (0 < 2 ^ (b.2 - Z.min 0 b.2)) by (apply Z.pow_pos_nonneg; lia). nia.
Qed.

Lemma as_usize_sign m e : as_usize (S754_finite true m e) = 0%nat.
Proof.
  unfold as_usize; cbn [as_int signed].
  pose proof (truncZ_nonpos (Z.neg m, e) ltac:(cbn; lia)). lia.
Qed.

(** Casting a value bounded by the float of [n] gives an index of at most [n]. *)
Lemma as_usize_le y n :
  Z.of_nat n < 2 ^ 53 -> is_nan y = true \/ fleb y (of_nat n) = true -> (as_usize y <= n)%nat.
Proof.
  intros Hn [Hy|Hy]; [destruct y; try done; apply Nat.le_0_l|].
  unfold as_usize. destruct y as [s|s| |s m e]; cbn [as_int]; try lia.
  - destruct s; [cbn; lia|]. exfalso. unfold of_nat in Hy.
    destruct (of_Z_exact (Z.of_nat n)) as (b & f & Eb & _); [lia|].
    destruct (of_Z (Z.of_nat n)); done.
  - destruct (le_of_nat_floor (S754_finite s m e) n (signed s m, e) Hn eq_refl Hy) as (b & Hle & Hf).
    apply truncZ_mono in Hle.
    assert (truncZ b <= Z.of_nat n).
    { destruct (Z.leb_spec 0 b.1); [by unfold truncZ; rewrite (proj2 (Z.leb_le 0 b.1)), Hf|].
      pose proof (truncZ_nonpos b ltac:(lia)). lia. }
    lia.
Qed.

(** [roundZ] does not step over an integer bound. *)
Lemma roundZ_le a b z :
  le_exact a b -> floorZ b = z -> roundZ b = z -> 0 <= z -> (forall e, b.1 * 2 ^ (b.2 - e) = z * 2 ^ (- e) \/ b.2 < e \/ 0 < e) -> roundZ a <= z.
Proof.
  intros Hle Hf Hr Hz Hint. unfold roundZ. destruct (Z.leb_spec 0 a.2).
  - rewrite <- Hf. replace (Z.shiftl a.1 a.2) with (floorZ a); [by apply floorZ_mono|].
    unfold floorZ. by rewrite (proj2 (Z.leb_le 0 a.2)).
  - set (d := 2 ^ (- a.2)). assert (0 < d) by (apply Z.pow_pos_nonneg; lia).
    set (e := Z.min a.2 (Z.min 0 b.2)).
    rewrite (le_exact_scale a b e) in Hle by lia.
    destruct (Hint e) as [Hi|[?|?]]; [|lia..]. rewrite Hi in Hle.
    replace (- e) with (- a.2 + (a.2 - e)) in Hle by lia.
    rewrite Z.pow_add_r, Z.mul_assoc in Hle by lia.
    assert (0 < 2 ^ (a.2 - e)) by (apply Z.pow_pos_nonneg; lia).
    apply Z.mul_le_mono_pos_r in Hle; [|done]. fold d in Hle.
    destruct (Z.leb_spec 0 a.1) as [Ha|Ha].
    + destruct (Z.eq_dec a.1 0) as [->|]; [done|].
      rewrite Z.sgn_pos, Z.abs_eq, Z.mul_1_l by lia.
      enough ((2 * a.1 + d) / (2 * d) < z + 1) by lia.
      apply Z.div_lt_upper_bound; nia.
    + rewrite Z.sgn_neg by lia.
      assert (0 <= (2 * Z.abs a.1 + d) / (2 * d)) by (apply Z.div_pos; lia). lia.
Qed.

Lemma of_Z_neg_as_usize p : as_usize (of_Z (Zneg p)) = 0%nat.
Proof.
  unfold of_Z, binary_normalize, binary_round.
  destruct (shl_align _ _ _) as [mz ez]. unfold binary_round_aux.
  destruct (shr_fexp _ _ _ _ _) as [r1 e1]. destruct (shr_fexp _ _ _ _ _) as [r2 e2].
  destruct (shr_m r2); [done| |done]. destruct (_ <=? _); [apply as_usize_sign|done].
Qed.

(** The same bound after rounding to the nearest integer. *)
Lemma as_usize_round_le y n :
  Z.of_nat n < 2 ^ 53 -> is_nan y = true \/ fleb y (of_nat n) = true ->
  (as_usize (fround y) <= n)%nat.
Proof.
  intros Hn Hy. destruct y as [s|s| |s m e]; try by apply (as_usize_le _ n).
  unfold fround, round_with. destruct (Z.leb_spec 0 e); [by apply as_usize_le|].
  destruct Hy as [?|Hy]; [done|].
  destruct (of_Z_exact (Z.of_nat n)) as (b & f & Eb & Hf & Hb); [lia|].
  assert (roundZ (signed s m, e) <= Z.of_nat n) as Hr.
  { apply (roundZ_le _ (b, f)); try lia.
    - by apply (fleb_exact (S754_finite s m e) (of_nat n)).
    - subst b. by apply floorZ_int.
    - subst b. apply roundZ_int; lia.
    - cbn [fst snd]. intros g. destruct (Z.lt_ge_cases f g); [auto|].
      destruct (Z.lt_ge_cases 0 g); [auto|]. left. subst b.
      rewrite <- Z.mul_assoc, <- Z.pow_add_r by lia. do 2 f_equal. lia. }
  unfold int_float. destruct (Z.eqb_spec (roundZ (signed s m, e)) 0); [apply Nat.le_0_l|].
  destruct (roundZ (signed s m, e)) as [|p|p]; [done| |rewrite of_Z_neg_as_usize; lia].
  apply as_usize_le; [done|]. right.
  pose proof (fleb_of_nat (Pos.to_nat p) n Hn ltac:(lia)) as Hp.
  unfold of_nat in Hp. by rewrite positive_nat_Z in Hp.
Qed.
End clamp.

(** ** The platform's math library

    [f64::ln], [exp], [sin], ... are the C library's; their results are not
    specified to the last bit, so they are a parameter of the code that uses
    them. *)
Class Libm := {
  fln : f64 -> f64;
  fexp' : f64 -> f64;
  fsin : f64 -> f64;
  fcos : f64 -> f64;
  fsinh : f64 -> f64;
  fcosh : f64 -> f64;
  fpowf : f64 -> f64 -> f64
}.

(** ** Exact cancellation and neutral zeros *)
Section arith.
Implicit Types (x y : f64).

Lemma fsub_diag x : is_finite x = true -> fabs (fsub x x) = f0.
Proof.
  destruct x as [s|s| |s m e]; try done; intros _; [by destruct s|].
  unfold fsub, SFsub. by rewrite Z.sub_diag.
Qed.

Lemma feqb_refl x : is_nan x = false -> feqb x x = true.
Proof.
  destruct x as [s|s| |s m e]; try done; intros _; [by destruct s|].
  unfold feqb, fcompare, exact, cmp_exact. by rewrite Z.compare_refl.
Qed.

Lemma fadd_zero_r x s : is_finite x = true -> feqb (fadd x (S754_zero s)) x = true.
Proof.
  destruct x as [u|u| |u m e]; try done; intros _; [by destruct u, s|].
  by apply feqb_refl.
Qed.

Lemma fleb_fltb x y : fleb x y = true -> fltb y x = false.
Proof.
  unfold fleb, fltb. rewrite (fcompare_antisym x y).
  by destruct (fcompare x y) as [[]|].
Qed.

(** Clamping is the identity between the bounds. *)
Lemma fclamp_id x lo hi :
  fleb lo hi = true -> fleb lo x = true -> fleb x hi = true -> fclamp x lo hi = Ok x.
Proof.
  intros H H1 H2. unfold fclamp, fgtb. by rewrite H, (fleb_fltb _ _ H1), (fleb_fltb _ _ H2).
Qed.
End arith.
