(* ===== verification/Duration.v ===== *)
(** * [std::time::Duration]

    A duration is a number of nanoseconds, at most [DURATION_MAX].  Plain
    arithmetic panics on overflow and underflow, the [saturating_] versions
    stop at the bounds.  Conversions through [f64] follow the standard library:
    [as_secs_f64] adds the rounded parts, [from_secs_f64] rounds the exact
    value to the nearest nanosecond, ties to even. *)

From stdpp Require Import base numbers.
From Stdlib Require Import ZArith Lia SpecFloat.
From S2P Require Import Prelude.
From S2P Require Import F64.

Local Open Scope Z_scope.

Definition Duration : Type := Z.
Definition NANOS : Z := 1000000000.
Definition DURATION_MAX : Duration := (2 ^ 64 - 1) * NANOS + (NANOS - 1).
Definition duration_wf (d : Duration) : Prop := 0 <= d <= DURATION_MAX.

Definition from_nanos (n : Z) : Duration := n.
Definition from_millis (n : Z) : Duration := n * 1000000.
Definition as_secs (d : Duration) : Z := d / NANOS.
Definition subsec_nanos (d : Duration) : Z := d mod NANOS.
Definition as_millis (d : Duration) : Z := d / 1000000.

Definition dadd (a b : Duration) : res Duration :=
  if decide (a + b <= DURATION_MAX) then Ok (a + b) else Panic.
Definition dsub (a b : Duration) : res Duration :=
  if decide (b <= a) then Ok (a - b) else Panic.
Definition saturating_add (a b : Duration) : Duration := Z.min (a + b) DURATION_MAX.
Definition saturating_sub (a b : Duration) : Duration := Z.max (a - b) 0.

Definition as_secs_f64 (d : Duration) : f64 :=
  fadd (of_Z (as_secs d)) (fdiv (of_Z (subsec_nanos d)) (of_Z NANOS)).

(** Nearest integer to [p / q], ties to even, for [0 <= p] and [0 < q]. *)
Definition div_nearest_even (p q : Z) : Z :=
  let d := p / q in
  let r := p mod q in
  match Z.compare (2 * r) q with
  | Lt => d
  | Gt => d + 1
  | Eq => if Z.even d then d else d + 1
  end.

(** Panics on a negative value, on NaN and when the seconds do not fit in a
    [u64]. *)
Definition from_secs_f64 (x : f64) : res Duration :=
  match x with
  | S754_zero _ => Ok 0
  | S754_finite false m e =>
      if 64 <=? Z.log2 (Zpos m) + e then Panic
      else if 0 <=? e then Ok (Z.shiftl (Zpos m) e * NANOS)
      else Ok (div_nearest_even (Zpos m * NANOS) (2 ^ (- e)))
  | _ => Panic
  end.

Definition mul_f64 (d : Duration) (r : f64) : res Duration :=
  from_secs_f64 (fmul r (as_secs_f64 d)).

(** ** Facts *)
Section facts.
Implicit Types (a b d : Duration).

Lemma dadd_ok a b : a + b <= DURATION_MAX -> dadd a b = Ok (a + b).
Proof. intros. unfold dadd. by rewrite decide_True. Qed.

Lemma dsub_ok a b : b <= a -> dsub a b = Ok (a - b).
Proof. intros. unfold dsub. by rewrite decide_True. Qed.

Lemma div_nearest_even_nonneg p q : 0 <= p -> 0 < q -> 0 <= div_nearest_even p q.
Proof.
  intros. unfold div_nearest_even.
  assert (0 <= p / q) by (apply Z.div_pos; lia).
  destruct (Z.compare _ _); [destruct (Z.even _)| |]; lia.
Qed.

(** The rounding error is at most half a unit. *)
Lemma div_nearest_even_err p q :
  0 <= p -> 0 < q -> 2 * Z.abs (q * div_nearest_even p q - p) <= q.
Proof.
  intros Hp Hq. unfold div_nearest_even.
  pose proof (Z.div_mod p q ltac:(lia)) as Hdm. pose proof (Z.mod_pos_bound p q Hq).
  set (d := p / q) in *. set (r := p mod q) in *.
  destruct (Z.compare_spec (2 * r) q); [destruct (Z.even d)| |]; nia.
Qed.

Lemma from_secs_f64_nonneg x d : from_secs_f64 x = Ok d -> 0 <= d.
Proof.
  destruct x as [| | |[] m e]; cbn; try done; [intros [= <-]; lia|].
  destruct (64 <=? _); [done|]. destruct (Z.leb_spec 0 e); intros [= <-].
  - apply Z.mul_nonneg_nonneg; [|unfold NANOS; lia]. by apply Z.shiftl_nonneg.
  - apply div_nearest_even_nonneg; [unfold NANOS; lia|]. apply Z.pow_pos_nonneg; lia.
Qed.

Lemma saturating_add_ge a b : duration_wf a -> 0 <= b -> a <= saturating_add a b.
Proof. unfold duration_wf, saturating_add. lia. Qed.

Lemma saturating_sub_le a b : 0 <= a -> 0 <= b -> saturating_sub a b <= a.
Proof. unfold saturating_sub. lia. Qed.
End facts.
