(* ===== verification/Clock.v ===== *)
(** * The animation clock (src/animation/clock.rs)

    [LazyClock] fetches the monotonic time once and keeps it until cleared;
    [AdjustableClock] turns it into a time that runs at an adjustable rate.
    The system clock is the argument [monotonic], its reading at the moment of
    the call.  A [Clock] is a shared handle to one [AdjustableClock]; sharing is
    the explicit passing of that one state, and [ClockView] is what a component
    reads of it within one event loop cycle. *)

From stdpp Require Import base numbers option.
From Stdlib Require Import ZArith Lia.
From S2P Require Import Prelude.
From S2P Require Import F64.
From S2P Require Import Duration.

Local Open Scope Z_scope.

Module LazyClock.
Record LazyClock := { time : option Duration }.

Definition with_time (t : Duration) : LazyClock := {| time := Some t |}.
Definition clear (c : LazyClock) : LazyClock := {| time := None |}.
Definition set (t : Duration) (c : LazyClock) : LazyClock := {| time := Some t |}.
Definition now (monotonic : Duration) (c : LazyClock) : Duration * LazyClock :=
  match time c with
  | Some t => (t, c)
  | None => (monotonic, {| time := Some monotonic |})
  end.
End LazyClock.

Module AdjustableClock.
Record AdjustableClock := {
  inner : LazyClock.LazyClock;
  current_time : Duration;
  last_seen_time : Duration;
  rate : f64;
  complete_instantly : bool
}.

Definition new (monotonic : Duration) (c : LazyClock.LazyClock) : AdjustableClock :=
  let '(t, c) := LazyClock.now monotonic c in
  {| inner := c; current_time := t; last_seen_time := t; rate := f1; complete_instantly := false |}.

Definition set_rate (r : f64) (c : AdjustableClock) : res AdjustableClock :=
  r ← fclamp r f0 (of_Z 1000);
  mret {| inner := inner c; current_time := current_time c; last_seen_time := last_seen_time c;
          rate := r; complete_instantly := complete_instantly c |}.

Definition set_complete_instantly (b : bool) (c : AdjustableClock) : AdjustableClock :=
  {| inner := inner c; current_time := current_time c; last_seen_time := last_seen_time c;
     rate := rate c; complete_instantly := b |}.

Definition now (monotonic : Duration) (c : AdjustableClock) : res (Duration * AdjustableClock) :=
  let '(t, i) := LazyClock.now monotonic (inner c) in
  let c := {| inner := i; current_time := current_time c; last_seen_time := last_seen_time c;
              rate := rate c; complete_instantly := complete_instantly c |} in
  if decide (last_seen_time c = t) then Ok (current_time c, c)
  else
    cur ← (if decide (last_seen_time c < t) then
             delta ← dsub t (last_seen_time c);
             delta ← mul_f64 delta (rate c);
             mret (saturating_add (current_time c) delta)
           else
             delta ← dsub (last_seen_time c) t;
             delta ← mul_f64 delta (rate c);
             mret (saturating_sub (current_time c) delta));
    mret (cur, {| inner := inner c; current_time := cur; last_seen_time := t;
                  rate := rate c; complete_instantly := complete_instantly c |}).
End AdjustableClock.

(** ** [Clock]: the operations of the shared handle *)
Module Clock.
Import AdjustableClock.

Definition with_time (monotonic t : Duration) : AdjustableClock :=
  AdjustableClock.new monotonic (LazyClock.with_time t).

Definition map_inner (f : LazyClock.LazyClock -> LazyClock.LazyClock) (c : AdjustableClock) : AdjustableClock :=
  {| inner := f (inner c); current_time := current_time c; last_seen_time := last_seen_time c;
     rate := rate c; complete_instantly := complete_instantly c |}.

Definition now_unadjusted (monotonic : Duration) (c : AdjustableClock) : Duration * AdjustableClock :=
  let '(t, i) := LazyClock.now monotonic (inner c) in (t, map_inner (fun _ => i) c).
Definition set_unadjusted (t : Duration) : AdjustableClock -> AdjustableClock := map_inner (LazyClock.set t).
Definition clear : AdjustableClock -> AdjustableClock := map_inner LazyClock.clear.
End Clock.

(** What the layout code reads of the clock within one event loop cycle. *)
Record ClockView := {
  cv_now : Duration;
  cv_now_unadjusted : Duration;
  cv_rate : f64;
  cv_complete_instantly : bool
}.

Definition view (monotonic : Duration) (c : AdjustableClock.AdjustableClock) : res ClockView :=
  '(t, c) ← AdjustableClock.now monotonic c;
  mret {| cv_now := t;
          cv_now_unadjusted := (Clock.now_unadjusted monotonic c).1;
          cv_rate := AdjustableClock.rate c;
          cv_complete_instantly := AdjustableClock.complete_instantly c |}.

(** ** Theorems *)
Section theorems.
Implicit Types (c : AdjustableClock.AdjustableClock).

(** Within an event loop cycle (until [clear] or [set_unadjusted]) the
    clock is frozen: once read, every later reading, whatever the system clock
    says by then, returns the same time and leaves the clock unchanged. *)
Theorem clock_frozen_within_cycle m m' c t c' :
  AdjustableClock.now m c = Ok (t, c') -> AdjustableClock.now m' c' = Ok (t, c').
Proof.
  unfold AdjustableClock.now, LazyClock.now. destruct c as [[[i|]] cur seen r ci]; cbn;
    (destruct (decide _) as [->|]; [intros [= <- <-]; cbn; by rewrite decide_True|]);
    (intros H; res_inv; cbn; by rewrite decide_True).
Qed.

Lemma clock_frozen_within_cycle_witness :
  AdjustableClock.now 0 (Clock.set_unadjusted 100 (Clock.with_time 0 0))
  = Ok (100, {| AdjustableClock.inner := {| LazyClock.time := Some 100 |};
                AdjustableClock.current_time := 100; AdjustableClock.last_seen_time := 100;
                AdjustableClock.rate := f1; AdjustableClock.complete_instantly := false |})
  /\ exists c, AdjustableClock.now 777 c = Ok (100, c).
Proof.
  assert (H : AdjustableClock.now 0 (Clock.set_unadjusted 100 (Clock.with_time 0 0))
    = Ok (100, {| AdjustableClock.inner := {| LazyClock.time := Some 100 |};
                AdjustableClock.current_time := 100; AdjustableClock.last_seen_time := 100;
                AdjustableClock.rate := f1; AdjustableClock.complete_instantly := false |}))
    by (vm_compute; reflexivity).
  split; [exact H|]. eexists. exact (clock_frozen_within_cycle 0 777 _ _ _ H).
Defined.

(** The adjusted clock never runs against the underlying clock: when the
    underlying time has not gone back since the last reading, neither has the
    adjusted time, at any rate (including rates changed in between). *)
Theorem clock_now_monotone m c t c' :
  duration_wf (AdjustableClock.current_time c) ->
  AdjustableClock.last_seen_time c <= (LazyClock.now m (AdjustableClock.inner c)).1 ->
  AdjustableClock.now m c = Ok (t, c') ->
  AdjustableClock.current_time c <= t <= DURATION_MAX /\ AdjustableClock.current_time c' = t.
Proof.
  intros Hwf Hle. unfold AdjustableClock.now.
  destruct (LazyClock.now m (AdjustableClock.inner c)) as [u i]; cbn in *.
  destruct (decide _) as [->|Hne].
  { intros [= <- <-]; cbn. unfold duration_wf in Hwf. lia. }
  rewrite decide_True by lia. intros H. res_inv; cbn.
  unfold mul_f64 in *. pose proof (from_secs_f64_nonneg _ _ E1).
  split; [|done]. split; [by apply saturating_add_ge|]. unfold saturating_add. lia.
Qed.

Lemma clock_now_monotone_witness :
  exists t c', AdjustableClock.now 0 (Clock.set_unadjusted 100 (Clock.with_time 0 0)) = Ok (t, c')
    /\ 0 <= t.
Proof.
  do 2 eexists. split; [vm_compute; reflexivity|].
  refine (proj1 (proj1 (clock_now_monotone 0 (Clock.set_unadjusted 100 (Clock.with_time 0 0)) 100 _ _ _ _))).
  - split; vm_compute; discriminate.
  - vm_compute; discriminate.
  - vm_compute; reflexivity.
Defined.
End theorems.
