(* ===== verification/FrameClock.v ===== *)
(** * Presentation timing (src/frame_clock.rs, src/utils/vblank_throttle.rs)

    [FrameClock] predicts the next presentation time of an output from the last
    one; [VBlankThrottle] delays vblanks that come too early.  The system clock
    is the argument [monotonic]; the event loop (a library) is seen through the
    list of calls made on it, with the token it hands out as an argument. *)

From stdpp Require Import base numbers option list.
From Stdlib Require Import ZArith Lia.
From S2P Require Import Prelude.
From S2P Require Import F64.
From S2P Require Import Duration.

Local Open Scope Z_scope.

(** [u64] arithmetic with overflow checks *)
Definition u64_checked (z : Z) : res Z :=
  if decide (0 <= z < 2 ^ 64) then Ok z else Panic.

Module FrameClock.
Record FrameClock := {
  last_presentation_time : option Duration;
  refresh_interval_ns : option Z;
  vrr : bool
}.

Definition new (refresh_interval : option Duration) (v : bool) : res FrameClock :=
  ns ← match refresh_interval with
       | Some interval =>
           _ ← rassert (as_secs interval =? 0);
           (* NonZeroU64::new(..).unwrap() *)
           if decide (subsec_nanos interval = 0) then Panic else Ok (Some (subsec_nanos interval))
       | None => Ok None
       end;
  mret {| last_presentation_time := None; refresh_interval_ns := ns; vrr := v |}.

Definition refresh_interval (c : FrameClock) : option Duration := from_nanos <$> refresh_interval_ns c.

Definition set_vrr (v : bool) (c : FrameClock) : FrameClock :=
  if Bool.eqb (vrr c) v then c
  else {| last_presentation_time := None; refresh_interval_ns := refresh_interval_ns c; vrr := v |}.

Definition presented (t : Duration) (c : FrameClock) : FrameClock :=
  if t =? 0 then c
  else {| last_presentation_time := Some t; refresh_interval_ns := refresh_interval_ns c; vrr := vrr c |}.

Definition next_presentation_time (monotonic : Duration) (c : FrameClock) : res Duration :=
  match refresh_interval_ns c, last_presentation_time c with
  | Some interval, Some last =>
      now ← (if monotonic <=? last then
               now ← dadd monotonic (from_nanos interval);
               if now <? last then dadd last (from_nanos interval) else Ok now
             else Ok monotonic);
      since_last ← dsub now last;
      since_last_ns ← (s ← u64_checked (as_secs since_last * 1000000000);
                       u64_checked (s + subsec_nanos since_last));
      to_next_ns ← (k ← u64_checked (since_last_ns / interval + 1); u64_checked (k * interval));
      if vrr c && (interval <? to_next_ns) then Ok now
      else dadd last (from_nanos to_next_ns)
  | _, _ => Ok monotonic
  end.
End FrameClock.

Module VBlankThrottle.
(** Calls on the event loop. *)
Inductive LoopCall := RemoveSource (token : Z) | InsertTimer (after : Duration) (token : Z).

Record VBlankThrottle := {
  last_vblank_timestamp : option Duration;
  throttle_timer_token : option Z;
  printed_warning : bool
}.

Definition new : VBlankThrottle :=
  {| last_vblank_timestamp := None; throttle_timer_token := None; printed_warning := false |}.

(** [fresh] is the token the event loop returns for an inserted timer. *)
Definition throttle (refresh_interval : option Duration) (timestamp : Duration) (fresh : Z)
    (c : VBlankThrottle) : bool * VBlankThrottle * list LoopCall :=
  let calls := match throttle_timer_token c with Some t => [RemoveSource t] | None => [] end in
  let pass := (false, {| last_vblank_timestamp := Some timestamp; throttle_timer_token := None;
                         printed_warning := printed_warning c |}, calls) in
  match last_vblank_timestamp c, refresh_interval with
  | Some last, Some refresh =>
      let passed := saturating_sub timestamp last in
      if passed <? refresh / 2 then
        let remaining := refresh - passed in
        (true, {| last_vblank_timestamp := last_vblank_timestamp c;
                  throttle_timer_token := Some fresh; printed_warning := true |},
         calls ++ [InsertTimer remaining fresh])
      else pass
  | _, _ => pass
  end.

(** The timers of this throttle that are still in the event loop. *)
Definition loop_step (live : list Z) (c : LoopCall) : list Z :=
  match c with
  | RemoveSource t => filter (fun x => x <> t) live
  | InsertTimer _ t => t :: live
  end.
End VBlankThrottle.

(** ** Theorems *)
Section theorems.
Import FrameClock.

Lemma split_secs n : as_secs n * 1000000000 + subsec_nanos n = n.
Proof. unfold as_secs, subsec_nanos, NANOS. pose proof (Z.div_mod n 1000000000 ltac:(lia)). lia. Qed.

(** C38: without VRR, for times within 2^62 ns of boot (146 years), predicting
    does not overflow, and the predicted presentation time lies on the refresh
    grid through the last presentation, is later than the current time, and is
    the first such point whenever the current time is past the last
    presentation. *)
Theorem next_presentation_on_grid m c interval last :
  refresh_interval_ns c = Some interval -> 0 < interval < NANOS ->
  last_presentation_time c = Some last -> 0 <= last < 2 ^ 62 -> 0 <= m < 2 ^ 62 ->
  vrr c = false ->
  exists t, next_presentation_time m c = Ok t /\
  last < t /\ m < t /\ (t - last) mod interval = 0 /\ (last < m -> t <= m + interval).
Proof.
  intros Hi Hpos Hl Hl0 Hm Hv. unfold next_presentation_time. rewrite Hi, Hl, Hv. cbn [andb].
  assert (HM : 2 ^ 64 <= DURATION_MAX) by (vm_compute; discriminate).
  set (M := DURATION_MAX) in *. unfold NANOS in Hpos.
  match goal with |- exists t, mbind _ ?n = _ /\ _ =>
    assert (exists now, n = Ok now /\ last <= now < 2 ^ 63 /\ m <= now /\ (last < m -> now = m))
      as (now & -> & Hln & Hmn & Heq) end.
  { unfold from_nanos. destruct (Z.leb_spec m last); [|exists m; repeat split; lia].
    rewrite (dadd_ok m) by lia. cbn [mbind res_bind].
    destruct (Z.lt_ge_cases (m + interval) last) as [Hc|Hc].
    - rewrite (proj2 (Z.ltb_lt _ _) Hc), dadd_ok by lia.
      exists (last + interval). repeat split; lia.
    - rewrite (proj2 (Z.ltb_ge _ _) Hc). exists (m + interval). repeat split; lia. }
  cbn [mbind res_bind]. rewrite dsub_ok by lia. cbn [mbind res_bind].
  pose proof (Z.div_mod (now - last) interval ltac:(lia)).
  pose proof (Z.mod_pos_bound (now - last) interval ltac:(lia)).
  assert (0 <= as_secs (now - last) * 1000000000 <= now - last).
  { unfold as_secs, NANOS. pose proof (Z.div_mod (now - last) 1000000000 ltac:(lia)).
    pose proof (Z.mod_pos_bound (now - last) 1000000000 ltac:(lia)). lia. }
  unfold u64_checked, dadd, from_nanos.
  rewrite decide_True by lia. cbn [mbind res_bind]. rewrite split_secs.
  set (q := (now - last) / interval) in *. set (r := (now - last) mod interval) in *.
  do 4 (rewrite decide_True by nia; cbn [mbind res_bind]).
  eexists. split; [reflexivity|].
  fold q. repeat split; try nia.
  replace (last + (q + 1) * interval - last) with ((q + 1) * interval) by lia.
  apply Z.mod_mul. lia.
Qed.

Lemma next_presentation_on_grid_witness :
  let c := {| last_presentation_time := Some 1000; refresh_interval_ns := Some 100; vrr := false |} in
  exists t, next_presentation_time 1250 c = Ok t /\ (t - 1000) mod 100 = 0.
Proof.
  intros c.
  destruct (next_presentation_on_grid 1250 c 100 1000 eq_refl ltac:(unfold NANOS; lia) eq_refl
    ltac:(lia) ltac:(lia) eq_refl) as (t & H & _ & _ & Hg & _).
  exists t. exact (conj H Hg).
Defined.

Import VBlankThrottle.

(** C39: a vblank is held back exactly when it comes less than half a refresh
    after the last one let through; holding back keeps that reference time and
    re-arms one timer for the rest of the refresh, letting through moves the
    reference to the new timestamp.  Whatever the history, at most the one timer
    whose token is stored is left in the event loop. *)
Theorem throttle_spec refresh ts fresh c live b c' calls :
  throttle (Some refresh) ts fresh c = (b, c', calls) ->
  (forall x, x ∈ live -> throttle_timer_token c = Some x) ->
  (b = true <-> exists last, last_vblank_timestamp c = Some last /\ saturating_sub ts last < refresh / 2)
  /\ last_vblank_timestamp c' = (if b then last_vblank_timestamp c else Some ts)
  /\ (forall x, x ∈ foldl loop_step live calls -> throttle_timer_token c' = Some x)
  /\ (throttle_timer_token c' = if b then Some fresh else None).
Proof.
  intros H Hlive.
  assert (Hrm : forall x, x ∈ foldl loop_step live
      (match throttle_timer_token c with Some t => [RemoveSource t] | None => [] end) -> False).
  { intros x Hx. destruct (throttle_timer_token c) as [t|]; cbn in Hx.
    - apply list_elem_of_filter in Hx as [Hne Hx]. apply Hlive in Hx. congruence.
    - by apply Hlive in Hx. }
  unfold throttle in H. destruct (last_vblank_timestamp c) as [last|] eqn:El.
  - destruct (Z.ltb_spec (saturating_sub ts last) (refresh / 2)); injection H as <- <- <-; cbn.
    + repeat split; eauto. intros x. rewrite foldl_app. cbn.
      intros [->|Hx]%elem_of_cons; [done|]. by apply Hrm in Hx.
    + repeat split; try done.
      * intros (? & [= <-] & ?). lia.
      * intros x Hx. by apply Hrm in Hx.
  - injection H as <- <- <-; cbn. repeat split; try done.
    + by intros (? & ? & ?).
    + intros x Hx. by apply Hrm in Hx.
Qed.

Lemma throttle_spec_witness :
  exists c' calls,
    throttle (Some 16) 105 7 {| last_vblank_timestamp := Some 100; throttle_timer_token := Some 3;
                                printed_warning := true |} = (true, c', calls)
    /\ throttle_timer_token c' = Some 7.
Proof.
  do 2 eexists. split; [vm_compute; reflexivity|].
  refine (proj2 (proj2 (proj2 (throttle_spec 16 105 7
    {| last_vblank_timestamp := Some 100; throttle_timer_token := Some 3; printed_warning := true |}
    [3] true _ _ eq_refl _)))).
  intros x Hx. apply list_elem_of_singleton in Hx. by subst.
Defined.
End theorems.
