(* ===== verification/Gesture.v ===== *)
(** * Gesture tracking (src/input/swipe_tracker.rs, src/rubber_band.rs,
    src/input/scroll_swipe_gesture.rs)

    [SwipeTracker] keeps the recent motion of a swipe and projects where it
    would stop; [RubberBand] bends values outside a range back towards it;
    [ScrollSwipeGesture] finds the begin, update and end of a swipe in pointer
    axis events. *)

From stdpp Require Import base numbers option list sorting.
From Stdlib Require Import ZArith Lia SpecFloat.
From S2P Require Import Prelude.
From S2P Require Import F64.
From S2P Require Import Duration.

Local Open Scope Z_scope.

Module SwipeTracker.
Definition HISTORY_LIMIT : Duration := from_millis 150.
Definition DECELERATION_TOUCHPAD : f64 := lit 997 1000.

Record Event := { delta : f64; timestamp : Duration }.
(** The front of the deque is the head of the list. *)
Record SwipeTracker := { history : list Event; pos : f64 }.

Definition new : SwipeTracker := {| history := []; pos := f0 |}.

(** Pops from the front while the event is older than the limit. *)
Fixpoint trim (ts : Duration) (h : list Event) : res (list Event) :=
  match h with
  | [] => Ok []
  | first :: h' =>
      lim ← dadd (timestamp first) HISTORY_LIMIT;
      if ts <=? lim then Ok h else trim ts h'
  end.

Definition trim_history (t : SwipeTracker) : res SwipeTracker :=
  match last (history t) with
  | None => Ok t
  | Some e => h ← trim (timestamp e) (history t); mret {| history := h; pos := pos t |}
  end.

Definition push (d : f64) (ts : Duration) (t : SwipeTracker) : res SwipeTracker :=
  let go := trim_history {| history := history t ++ [{| delta := d; timestamp := ts |}];
                            pos := fadd (pos t) d |} in
  match last (history t) with
  | Some e => if ts <? timestamp e then Ok t else go
  | None => go
  end.

Definition velocity (t : SwipeTracker) : res f64 :=
  match head (history t), last (history t) with
  | Some first, Some last =>
      d ← dsub (timestamp last) (timestamp first);
      let total_time := as_secs_f64 d in
      if feqb total_time f0 then Ok f0
      else
        let total_delta := foldl (fun acc e => fadd acc (delta e)) f0 (history t) in
        mret (fdiv total_delta total_time)
  | _, _ => Ok f0
  end.

Definition projected_end_pos `{!Libm} (t : SwipeTracker) : res f64 :=
  vel ← velocity t;
  mret (fsub (pos t) (fdiv vel (fmul (of_Z 1000) (fln DECELERATION_TOUCHPAD)))).

(** The history is ordered by time and spans at most the limit. *)
Definition tracker_ok (t : SwipeTracker) : Prop :=
  Forall (fun e => 0 <= timestamp e /\ timestamp e + HISTORY_LIMIT <= DURATION_MAX) (history t)
  /\ StronglySorted (fun a b => timestamp a <= timestamp b) (history t)
  /\ forall e l, e ∈ history t -> last (history t) = Some l -> timestamp l <= timestamp e + HISTORY_LIMIT.
End SwipeTracker.

Module RubberBand.
Record RubberBand := { stiffness : f64; limit : f64 }.

Definition band (r : RubberBand) (x : f64) : f64 :=
  let c := stiffness r in
  let d := limit r in
  ((f1 - (f1 / (x * c / d + f1))) * d)%F.

Definition derivative (r : RubberBand) (x : f64) : f64 :=
  let c := stiffness r in
  let d := limit r in
  let y := (c * x + d)%F in
  (c * d * d / (y * y))%F.

Definition clamp (r : RubberBand) (min max x : f64) : res f64 :=
  clamped ← fclamp x min max;
  let sign := if fltb x clamped then of_Z (-1) else f1 in
  let diff := fabs (x - clamped)%F in
  mret (clamped + sign * band r diff)%F.

Definition clamp_derivative (r : RubberBand) (min max x : f64) : res f64 :=
  if fleb min x && fleb x max then Ok f1
  else
    clamped ← fclamp x min max;
    let diff := fabs (x - clamped)%F in
    mret (derivative r diff).
End RubberBand.

Module ScrollSwipeGesture.
Record ScrollSwipeGesture := { ongoing : bool; vertical : bool }.
Inductive Action := BeginUpdate | Update | End_.

Definition new : ScrollSwipeGesture := {| ongoing := false; vertical := false |}.

Definition update (dx dy : f64) (g : ScrollSwipeGesture) : Action * ScrollSwipeGesture :=
  if feqb dx f0 && feqb dy f0 then (End_, {| ongoing := false; vertical := vertical g |})
  else if negb (ongoing g) then (BeginUpdate, {| ongoing := true; vertical := fneb dy f0 |})
  else (Update, g).

Definition reset (g : ScrollSwipeGesture) : bool * ScrollSwipeGesture :=
  if ongoing g then (true, {| ongoing := false; vertical := vertical g |}) else (false, g).

(** What the caller observes: the actions of [update], and the resets that
    ended a swipe. *)
Inductive Obs := ObsAction (a : Action) | ObsReset.

(** Runs of the gesture from its initial state, most recent observation first. *)
Inductive run : ScrollSwipeGesture -> list Obs -> Prop :=
| run_new : run new []
| run_update g tr dx dy a g' :
    run g tr -> update dx dy g = (a, g') -> run g' (ObsAction a :: tr)
| run_reset g tr g' : run g tr -> reset g = (true, g') -> run g' (ObsReset :: tr)
| run_reset_idle g tr g' : run g tr -> reset g = (false, g') -> run g' tr.

(** A swipe is open when its [BeginUpdate] has no later end or reset. *)
Fixpoint open (tr : list Obs) : bool :=
  match tr with
  | [] => false
  | ObsAction BeginUpdate :: _ => true
  | ObsAction Update :: tr' => open tr'
  | ObsAction End_ :: _ => false
  | ObsReset :: _ => false
  end.

(** Every update continues an open swipe, every begin starts from a closed one. *)
Fixpoint well_bracketed (tr : list Obs) : bool :=
  match tr with
  | [] => true
  | ObsAction BeginUpdate :: tr' => negb (open tr') && well_bracketed tr'
  | ObsAction Update :: tr' => open tr' && well_bracketed tr'
  | ObsAction End_ :: tr' => well_bracketed tr'
  | ObsReset :: tr' => open tr' && well_bracketed tr'
  end.
End ScrollSwipeGesture.

(** ** Theorems *)
Section swipe.
Import SwipeTracker.
Implicit Types (t : SwipeTracker).

Lemma trim_suffix ts h h' : trim ts h = Ok h' -> exists k, h' = drop k h.
Proof.
  revert h'. induction h as [|e h IH]; intros h'; cbn; [intros [= <-]; by exists O|].
  destruct (dadd _ _) as [lim|]; cbn; [|done].
  destruct (ts <=? lim); [intros [= <-]; by exists O|].
  intros [k ->]%IH. by exists (S k).
Qed.

Lemma trim_ok ts h l :
  Forall (fun e => timestamp e + HISTORY_LIMIT <= DURATION_MAX) h ->
  StronglySorted (fun a b => timestamp a <= timestamp b) h ->
  last h = Some l -> ts = timestamp l ->
  exists h', trim ts h = Ok h' /\ last h' = Some l
    /\ Forall (fun e => ts <= timestamp e + HISTORY_LIMIT) h'.
Proof.
  induction h as [|e h IH]; intros Hb Hs Hl ->; [done|]. cbn [trim].
  inversion Hb as [|? ? Hb1 Hb2]; subst. rewrite dadd_ok by done. cbn [mbind res_bind].
  destruct (Z.leb_spec (timestamp l) (timestamp e + HISTORY_LIMIT)).
  - eexists. split; [done|]. split; [done|].
    inversion Hs as [|? ? Hs1 Hs2]; subst. constructor; [done|].
    eapply Forall_impl; [exact Hs2|]. cbn. intros; lia.
  - inversion Hs as [|? ? Hs1 Hs2]; subst. destruct h as [|e' h].
    + injection Hl as <-. unfold HISTORY_LIMIT, from_millis in *. lia.
    + by apply IH.
Qed.

Lemma push_ok d ts t :
  tracker_ok t -> 0 <= ts -> ts + HISTORY_LIMIT <= DURATION_MAX ->
  exists t', push d ts t = Ok t' /\ tracker_ok t'
    /\ (forall l, last (history t) = Some l -> ts < timestamp l -> t' = t).
Proof.
  intros (Hb & Hs & Hw) H0 Hmax. unfold push.
  set (e := {| delta := d; timestamp := ts |}).
  assert (Hgo : (forall l, last (history t) = Some l -> timestamp l <= ts) ->
    exists t', trim_history {| history := history t ++ [e]; pos := fadd (pos t) d |} = Ok t' /\ tracker_ok t').
  { intros Hle. unfold trim_history; cbn [history]. rewrite last_snoc; cbn [timestamp e].
    assert (Hsn : StronglySorted (fun a b => timestamp a <= timestamp b) (history t ++ [e])).
    { apply StronglySorted_app_2; [|done|repeat constructor].
      intros a b Ha ->%list_elem_of_singleton. cbn.
      destruct (last (history t)) as [l|] eqn:El.
      - transitivity (timestamp l); [|by apply Hle].
        apply last_Some in El as [h' Hh]. rewrite Hh in Hs, Ha. apply StronglySorted_app in Hs as (Hs & _ & _).
        apply elem_of_app in Ha as [Ha| ->%list_elem_of_singleton]; [|done].
        apply Hs; [done|]. by apply list_elem_of_singleton.
      - apply last_None in El. rewrite El in Ha. by apply elem_of_nil in Ha. }
    assert (Hbn : Forall (fun e => 0 <= timestamp e /\ timestamp e + HISTORY_LIMIT <= DURATION_MAX) (history t ++ [e])).
    { apply Forall_app. split; [done|]. by repeat constructor. }
    destruct (trim_ok ts (history t ++ [e]) e) as (h' & Ht & Hl' & Hf); try done.
    { eapply Forall_impl; [exact Hbn|]. cbn; tauto. }
    { apply last_snoc. }
    change (timestamp e) with ts. rewrite Ht. cbn. eexists. split; [done|].
    destruct (trim_suffix _ _ _ Ht) as [k ->]. unfold tracker_ok; cbn [history].
    rewrite <- (take_drop k (history t ++ [e])) in Hbn, Hsn.
    apply Forall_app in Hbn as [_ Hbn]. apply StronglySorted_app in Hsn as (_ & _ & Hsn).
    repeat split; [done..|]. intros x l Hx Hl. rewrite Hl' in Hl. injection Hl as <-.
    rewrite Forall_forall in Hf. by apply Hf. }
  assert (Hid : tracker_ok t) by by split_and!.
  destruct (last (history t)) as [l|].
  - destruct (Z.ltb_spec ts (timestamp l)); [by exists t|].
    destruct Hgo as (t' & -> & Hok); [by intros ? [= <-]|].
    exists t'. repeat split; try done; try apply Hok. intros ? [= <-]. lia.
  - destruct Hgo as (t' & -> & Hok); [done|]. by exists t'.
Qed.

(** The velocity of a well-formed tracker is always defined. *)
Lemma velocity_ok t : tracker_ok t -> exists v, velocity t = Ok v.
Proof.
  intros (_ & Hs & _). unfold velocity. destruct (head (history t)) as [f|] eqn:Eh; [|by eexists].
  destruct (last (history t)) as [l|] eqn:El; [|by eexists].
  assert (Hle : timestamp f <= timestamp l).
  { destruct (history t) as [|x h]; [done|]. injection Eh as ->. destruct h as [|y h]; [by injection El as ->|].
    inversion Hs as [|? ? Hs1 Hs2]; subst. rewrite Forall_forall in Hs2. apply Hs2.
    rewrite last_cons_cons in El. apply last_Some in El as [h' Hh]. rewrite Hh. apply elem_of_app. right. by left. }
  rewrite dsub_ok by done. cbn [mbind res_bind]. destruct (feqb _ _); by eexists.
Qed.

Lemma projected_end_pos_ok `{!Libm} t : tracker_ok t -> exists p, projected_end_pos t = Ok p.
Proof. intros Ht. unfold projected_end_pos. destruct (velocity_ok t Ht) as [v ->]. by eexists. Qed.

(** A swipe tracker whose history is in time order and spans at most
    150 ms stays so after a push at any representable time, and pushing never
    panics; a reading older than the last one changes nothing. *)
Theorem swipe_push_preserves d ts t :
  tracker_ok t -> 0 <= ts -> ts + HISTORY_LIMIT <= DURATION_MAX ->
  exists t', push d ts t = Ok t' /\ tracker_ok t'
    /\ (forall l, last (history t) = Some l -> ts < timestamp l -> t' = t).
Proof. apply push_ok. Qed.

Lemma swipe_push_preserves_witness :
  exists t', push (of_Z 5) 1000 new = Ok t' /\ tracker_ok t'.
Proof.
  destruct (swipe_push_preserves (of_Z 5) 1000 new) as (t' & H & Hok & _).
  - repeat split; try constructor. cbn. done.
  - lia.
  - vm_compute; discriminate.
  - exists t'. exact (conj H Hok).
Defined.
End swipe.

Section rubber.
Import RubberBand.

(** The rubber band leaves a value inside the range where it is: clamping
    is the identity on finite values between the bounds (up to the sign of
    zero), with derivative one, for every band with a finite nonzero limit and a
    finite stiffness. *)
Theorem rubber_band_inside r min max x :
  is_finite (stiffness r) = true -> is_finite (limit r) = true -> feqb (limit r) f0 = false ->
  fleb min x = true -> fleb x max = true -> is_finite x = true -> fleb min max = true ->
  exists y, clamp r min max x = Ok y /\ feqb y x = true /\ clamp_derivative r min max x = Ok f1.
Proof.
  intros Hc Hd Hd0 H1 H2 Hx H3. unfold clamp, clamp_derivative.
  rewrite H1, H2, (fclamp_id x min max) by done. cbn [mbind res_bind andb].
  eexists. split; [reflexivity|]. split; [|done].
  rewrite fsub_diag by done.
  assert (exists s, band r f0 = S754_zero s) as [s ->].
  { unfold band. destruct (stiffness r) as [a|a| |a m e]; try done;
      (destruct (limit r) as [b|b| |b n f]; try done); by destruct a, b; eexists. }
  destruct (fltb x x); cbn [fmul SFmul]; by apply fadd_zero_r.
Qed.

Lemma rubber_band_inside_witness :
  exists y, clamp {| stiffness := lit 1 2; limit := lit 5 100 |} f0 (of_Z 3) (of_Z 2) = Ok y
    /\ feqb y (of_Z 2) = true.
Proof.
  destruct (rubber_band_inside {| stiffness := lit 1 2; limit := lit 5 100 |} f0 (of_Z 3) (of_Z 2))
    as (y & H & He & _); try (vm_compute; reflexivity).
  exists y. exact (conj H He).
Defined.
End rubber.

Section scroll_swipe.
Import ScrollSwipeGesture.

Lemma run_open g tr : run g tr -> open tr = ongoing g.
Proof.
  induction 1 as [|g tr dx dy a g' _ IH Hu|g tr g' _ IH Hr|g tr g' _ IH Hr]; [done| | |].
  - unfold update in Hu. destruct (_ && _); [by injection Hu as <- <-|].
    destruct (ongoing g) eqn:E; injection Hu as <- <-; cbn; congruence.
  - unfold reset in Hr. destruct (ongoing g); [|done]. by injection Hr as <-.
  - unfold reset in Hr. destruct (ongoing g) eqn:E; [done|]. injection Hr as <-. congruence.
Qed.

(** In every run of the scroll-swipe detector, whatever axis events and
    resets arrive, the observed actions are well bracketed: each [Update] and
    each effective reset falls inside a swipe opened by a [BeginUpdate], and a
    [BeginUpdate] never opens a swipe twice. *)
Theorem scroll_swipe_well_bracketed g tr : run g tr -> well_bracketed tr = true.
Proof.
  induction 1 as [|g tr dx dy a g' Hrun IH Hu|g tr g' Hrun IH Hr|g tr g' Hrun IH Hr]; [done| | |done].
  - pose proof (run_open _ _ Hrun) as Ho. unfold update in Hu.
    destruct (_ && _); [by injection Hu as <- <-|].
    destruct (ongoing g); injection Hu as <- <-; cbn; by rewrite Ho, IH.
  - pose proof (run_open _ _ Hrun) as Ho. unfold reset in Hr.
    destruct (ongoing g); [|done]. cbn. by rewrite Ho, IH.
Qed.

Lemma scroll_swipe_well_bracketed_witness :
  exists g, run g [ObsAction Update; ObsAction BeginUpdate] /\
    well_bracketed [ObsAction Update; ObsAction BeginUpdate] = true.
Proof.
  eexists.
  assert (H : run {| ongoing := true; vertical := true |} [ObsAction Update; ObsAction BeginUpdate]).
  { apply (run_update {| ongoing := true; vertical := true |} _ f0 f1); [|reflexivity].
    apply (run_update new _ f0 f1); [constructor|reflexivity]. }
  exact (conj H (scroll_swipe_well_bracketed _ _ H)).
Defined.
End scroll_swipe.
