(* ===== verification/Animation.v ===== *)
(** * Animations (src/animation/mod.rs, spring.rs, bezier.rs)

    An animation goes from one value to another along an easing curve, a
    damped spring or a deceleration, timed by the shared clock.  The clock an
    animation holds is the one clock of the layout: operations that read it take
    its [ClockView].  The math library ([Libm]) and the two easing curves of the
    [keyframe] crate ([Keyframe]) are parameters. *)

From stdpp Require Import base numbers option.
From Stdlib Require Import ZArith Lia SpecFloat.
From S2P Require Import Prelude.
From S2P Require Import F64.
From S2P Require Import Duration.
From S2P Require Import Clock.

Local Open Scope Z_scope.

Class Keyframe := {
  ease_out_quad_y : f64 -> f64;
  ease_out_cubic_y : f64 -> f64
}.

(** ** Animation settings (niri-config/src/animations.rs) *)
Module Config.
Inductive Curve :=
| Linear | EaseOutQuad | EaseOutCubic | EaseOutExpo
| CubicBezier (x1 y1 x2 y2 : f64).
Record EasingParams := { duration_ms : Z; curve : Curve }.
Record SpringParams := { damping_ratio : f64; stiffness : Z; epsilon : f64 }.
Inductive Kind := Easing (p : EasingParams) | Spring (p : SpringParams).
Record Animation := { off : bool; kind : Kind }.
End Config.

(** ** Cubic Bézier easing *)
Module CubicBezier.
Record CubicBezier := { x1 : f64; y1 : f64; x2 : f64; y2 : f64 }.

Definition x_for_t (b : CubicBezier) (t : f64) : f64 :=
  let omt := (f1 - t)%F in
  (of_Z 3 * omt * omt * t * x1 b + of_Z 3 * omt * t * t * x2 b + t * t * t)%F.
Definition y_for_t (b : CubicBezier) (t : f64) : f64 :=
  let omt := (f1 - t)%F in
  (of_Z 3 * omt * omt * t * y1 b + of_Z 3 * omt * t * t * y2 b + t * t * t)%F.

Fixpoint bisect (n : nat) (b : CubicBezier) (x min_t max_t : f64) : f64 * f64 :=
  match n with
  | O => (min_t, max_t)
  | S n =>
      let guess_t := ((min_t + max_t) / of_Z 2)%F in
      let guess_x := x_for_t b guess_t in
      if fltb x guess_x then bisect n b x min_t guess_t else bisect n b x guess_t max_t
  end.

(** [for _ in 0..=30] runs 31 times. *)
Definition t_for_x (b : CubicBezier) (x : f64) : f64 :=
  let '(min_t, max_t) := bisect 31 b x f0 f1 in ((min_t + max_t) / of_Z 2)%F.

Definition y (b : CubicBezier) (x : f64) : f64 :=
  if fleb x EPSILON then f0
  else if fleb (f1 - EPSILON)%F x then f1
  else y_for_t b (t_for_x b x).
End CubicBezier.

(** ** Damped springs *)
Module Spring.
Record SpringParams := { damping : f64; mass : f64; stiffness : f64; epsilon : f64 }.
Record Spring := { from : f64; to : f64; initial_velocity : f64; params : SpringParams }.

Definition params_new (damping_ratio stiffness epsilon : f64) : SpringParams :=
  let damping_ratio := fmax damping_ratio f0 in
  let stiffness := fmax stiffness f0 in
  let epsilon := fmax epsilon f0 in
  let mass := f1 in
  let critical_damping := (of_Z 2 * fsqrt (mass * stiffness))%F in
  {| damping := (damping_ratio * critical_damping)%F; mass := mass;
     stiffness := stiffness; epsilon := epsilon |}.

(** [f64::from(f32::EPSILON)], 2^-23 *)
Definition EPSILON32 : f64 := S754_finite false (2 ^ 52)%positive (-75).
Definition DELTA : f64 := lit 1 1000.

Section libm.
Context {LM : Libm}.

Definition oscillate (s : Spring) (t : f64) : f64 :=
  let b := damping (params s) in
  let m := mass (params s) in
  let k := stiffness (params s) in
  let v0 := initial_velocity s in
  let beta := (b / (of_Z 2 * m))%F in
  let omega0 := fsqrt (k / m)%F in
  let x0 := (from s - to s)%F in
  let envelope := fexp' (- beta * t)%F in
  if fleb (fabs (beta - omega0)%F) EPSILON32 then
    (to s + envelope * (x0 + (beta * x0 + v0) * t))%F
  else if fltb beta omega0 then
    let omega1 := fsqrt (omega0 * omega0 - beta * beta)%F in
    (to s + envelope * (x0 * fcos (omega1 * t) + (beta * x0 + v0) / omega1 * fsin (omega1 * t)))%F
  else
    let omega2 := fsqrt (beta * beta - omega0 * omega0)%F in
    (to s + envelope * (x0 * fcosh (omega2 * t) + (beta * x0 + v0) / omega2 * fsinh (omega2 * t)))%F.

Definition value_at (s : Spring) (t : Duration) : f64 := oscillate s (as_secs_f64 t).

(** The next point of the search from [x0], where the value is [y0]. *)
Definition newton_next (s : Spring) (x0 y0 : f64) : f64 :=
  let m := ((oscillate s (x0 + DELTA) - y0) / DELTA)%F in
  ((to s - y0 + m * x0) / m)%F.
(** The Newton iteration; [i] counts iterations and the body gives up past
    1000, so 1003 units of fuel are never used up. *)
Fixpoint newton (fuel : nat) (s : Spring) (i : Z) (x1 y1 : f64) : res Duration :=
  match fuel with
  | O => Panic
  | S fuel =>
      if fgtb (fabs (to s - y1)%F) (epsilon (params s)) then
        if 1000 <? i then Ok 0
        else
          let x0 := x1 in
          let x1 := newton_next s x0 y1 in
          let y1 := oscillate s x1 in
          if negb (is_finite y1) then from_secs_f64 x0
          else newton fuel s (i + 1) x1 y1
      else from_secs_f64 x1
  end.

Definition NEWTON_FUEL : nat := 1003.

Definition duration (s : Spring) : res Duration :=
  let beta := (damping (params s) / (of_Z 2 * mass (params s)))%F in
  if fleb (fabs beta) EPSILON || fltb beta f0 then Ok DURATION_MAX
  else if fleb (fabs (to s - from s)%F) EPSILON then Ok 0
  else
    let omega0 := fsqrt (stiffness (params s) / mass (params s))%F in
    let x0 := (- fln (epsilon (params s)) / beta)%F in
    if fleb (fabs (beta - omega0)%F) EPSILON32 || fltb beta omega0 then from_secs_f64 x0
    else
      let y0 := oscillate s x0 in
      let x1 := newton_next s x0 y0 in
      newton NEWTON_FUEL s 0 x1 (oscillate s x1).

(** [i] is a [u16] that stops at 3001; the loop samples one more each time. *)
Definition not_reached (s : Spring) (y : f64) : bool :=
  (fgtb (to s - from s)%F EPSILON && fgtb (to s - y)%F (epsilon (params s)))
  || (fgtb (from s - to s)%F EPSILON && fgtb (y - to s)%F (epsilon (params s))).

Fixpoint sample (fuel : nat) (s : Spring) (i : Z) (y : f64) : res (option Duration) :=
  match fuel with
  | O => Panic
  | S fuel =>
      if not_reached s y then
        if 3000 <? i then Ok None
        else
          let i := i + 1 in
          sample fuel s i (oscillate s (of_Z i / of_Z 1000)%F)
      else Ok (Some (from_millis i))
  end.

Definition SAMPLE_FUEL : nat := 3002.

Definition clamped_duration (s : Spring) : res (option Duration) :=
  let beta := (damping (params s) / (of_Z 2 * mass (params s)))%F in
  if fleb (fabs beta) EPSILON || fltb beta f0 then Ok (Some DURATION_MAX)
  else if fleb (fabs (to s - from s)%F) EPSILON then Ok (Some 0)
  else sample SAMPLE_FUEL s 1 (oscillate s (of_Z 1 / of_Z 1000)%F).
End libm.
End Spring.

(** ** The animation *)
Module Animation.
Inductive Curve :=
| Linear | EaseOutQuad | EaseOutCubic | EaseOutExpo
| CubicBezier (b : CubicBezier.CubicBezier).

Inductive Kind :=
| Easing (curve : Curve)
| Spring (s : Spring.Spring)
| Deceleration (initial_velocity deceleration_rate : f64).

Record Animation := {
  from : f64;
  to : f64;
  initial_velocity : f64;
  is_off : bool;
  duration : Duration;
  clamped_duration : Duration;
  start_time : Duration;
  kind : Kind
}.

Definition curve_from (c : Config.Curve) : Curve :=
  match c with
  | Config.Linear => Linear
  | Config.EaseOutQuad => EaseOutQuad
  | Config.EaseOutCubic => EaseOutCubic
  | Config.EaseOutExpo => EaseOutExpo
  | Config.CubicBezier x1 y1 x2 y2 =>
      CubicBezier {| CubicBezier.x1 := x1; CubicBezier.y1 := y1;
                     CubicBezier.x2 := x2; CubicBezier.y2 := y2 |}
  end.

Definition ease (cv : ClockView) (from to initial_velocity : f64) (duration_ms : Z) (c : Curve) : Animation :=
  let d := from_millis duration_ms in
  {| from := from; to := to; initial_velocity := initial_velocity; is_off := false;
     duration := d; clamped_duration := d; start_time := cv_now cv; kind := Easing c |}.

Definition set_start_time (t : Duration) (a : Animation) : Animation :=
  {| from := from a; to := to a; initial_velocity := initial_velocity a; is_off := is_off a;
     duration := duration a; clamped_duration := clamped_duration a; start_time := t; kind := kind a |}.

Section libm.
Context {LM : Libm} {KF : Keyframe}.

Definition curve_y (c : Curve) (x : f64) : f64 :=
  match c with
  | Linear => x
  | EaseOutQuad => ease_out_quad_y x
  | EaseOutCubic => ease_out_cubic_y x
  | EaseOutExpo => (f1 - fpowf (of_Z 2) (of_Z (-10) * x))%F
  | CubicBezier b => CubicBezier.y b x
  end.

Definition spring (cv : ClockView) (s : Spring.Spring) : res Animation :=
  duration ← Spring.duration s;
  clamped ← Spring.clamped_duration s;
  mret {| from := Spring.from s; to := Spring.to s; initial_velocity := Spring.initial_velocity s;
          is_off := false; duration := duration; clamped_duration := default duration clamped;
          start_time := cv_now cv; kind := Spring s |}.

Definition decelerate (cv : ClockView) (from initial_velocity deceleration_rate threshold : f64) : res Animation :=
  let duration_s :=
    if feqb initial_velocity f0 then f0
    else
      let coeff := (of_Z 1000 * fln deceleration_rate)%F in
      (fln (- coeff * threshold / fabs initial_velocity) / coeff)%F in
  duration ← from_secs_f64 duration_s;
  let to := (from - initial_velocity / (of_Z 1000 * fln deceleration_rate))%F in
  mret {| from := from; to := to; initial_velocity := initial_velocity; is_off := false;
          duration := duration; clamped_duration := duration; start_time := cv_now cv;
          kind := Deceleration initial_velocity deceleration_rate |}.

Definition replace_config (cv : ClockView) (config : Config.Animation) (a : Animation) : res Animation :=
  if Config.off config then
    Ok {| from := from a; to := to a; initial_velocity := initial_velocity a; is_off := true;
          duration := 0; clamped_duration := 0; start_time := start_time a; kind := kind a |}
  else
    b ← match Config.kind config with
        | Config.Spring p =>
            let params := Spring.params_new (Config.damping_ratio p) (of_Z (Config.stiffness p)) (Config.epsilon p) in
            spring cv {| Spring.from := from a; Spring.to := to a;
                         Spring.initial_velocity := initial_velocity a; Spring.params := params |}
        | Config.Easing p =>
            Ok (ease cv (from a) (to a) (initial_velocity a) (Config.duration_ms p) (curve_from (Config.curve p)))
        end;
    mret (set_start_time (start_time a) b).

Definition scale_velocity (cv : ClockView) (v : f64) : f64 := (v / fmax (cv_rate cv) (lit 1 1000))%F.

Definition new (cv : ClockView) (from to velocity : f64) (config : Config.Animation) : res Animation :=
  let velocity := scale_velocity cv velocity in
  let rv := ease cv from to velocity 0 EaseOutCubic in
  if Config.off config then
    Ok {| Animation.from := Animation.from rv; Animation.to := Animation.to rv;
          initial_velocity := initial_velocity rv; is_off := true; duration := duration rv;
          clamped_duration := clamped_duration rv; start_time := start_time rv; kind := kind rv |}
  else replace_config cv config rv.

Definition restarted (cv : ClockView) (from to velocity : f64) (a : Animation) : res Animation :=
  if is_off a then Ok a
  else
    let velocity := scale_velocity cv velocity in
    match kind a with
    | Easing curve => Ok (ease cv from to velocity (as_millis (duration a)) curve)
    | Spring s =>
        spring cv {| Spring.from := from; Spring.to := to;
                     Spring.initial_velocity := initial_velocity a; Spring.params := Spring.params s |}
    | Deceleration v rate => decelerate cv from v rate (lit 1 1000)
    end.

Definition is_done (cv : ClockView) (a : Animation) : res bool :=
  if cv_complete_instantly cv then Ok true
  else stop ← dadd (start_time a) (duration a); mret (stop <=? cv_now cv).

Definition is_clamped_done (cv : ClockView) (a : Animation) : res bool :=
  if cv_complete_instantly cv then Ok true
  else stop ← dadd (start_time a) (clamped_duration a); mret (stop <=? cv_now cv).

Definition value_at (cv : ClockView) (at_ : Duration) (a : Animation) : res f64 :=
  if at_ <=? start_time a then Ok (from a)
  else
    stop ← dadd (start_time a) (duration a);
    if stop <=? at_ then Ok (to a)
    else if cv_complete_instantly cv then Ok (to a)
    else
      let passed := saturating_sub at_ (start_time a) in
      match kind a with
      | Easing curve =>
          let passed := as_secs_f64 passed in
          let total := as_secs_f64 (duration a) in
          x ← fclamp (passed / total)%F f0 f1;
          mret (curve_y curve x * (to a - from a) + from a)%F
      | Spring s =>
          let value := Spring.value_at s passed in
          let range := ((to a - from a) * of_Z 10)%F in
          let lo := (from a - range)%F in
          let hi := (to a + range)%F in
          if fleb (from a) (to a) then fclamp value lo hi else fclamp value hi lo
      | Deceleration v rate =>
          let passed := as_secs_f64 passed in
          let coeff := (of_Z 1000 * fln rate)%F in
          mret (from a + (fpowf rate (of_Z 1000 * passed) - f1) / coeff * v)%F
      end.

Definition value (cv : ClockView) (a : Animation) : res f64 := value_at cv (cv_now cv) a.

Definition clamped_value (cv : ClockView) (a : Animation) : res f64 :=
  done_ ← is_clamped_done cv a;
  if done_ : bool then Ok (to a) else value cv a.
End libm.

Definition offset (o : f64) (a : Animation) : Animation :=
  {| from := (from a + o)%F; to := (to a + o)%F; initial_velocity := initial_velocity a;
     is_off := is_off a; duration := duration a; clamped_duration := clamped_duration a;
     start_time := start_time a;
     kind := match kind a with
             | Spring s => Spring {| Spring.from := (Spring.from s + o)%F; Spring.to := (Spring.to s + o)%F;
                                     Spring.initial_velocity := Spring.initial_velocity s;
                                     Spring.params := Spring.params s |}
             | k => k
             end |}.

(** The spring inside an animation has the animation's own endpoints. *)
Definition kind_in_sync (a : Animation) : Prop :=
  match kind a with
  | Spring s => Spring.from s = from a /\ Spring.to s = to a
  | _ => True
  end.

(** The operations that make or change an animation. *)
Inductive reachable `{!Libm, !Keyframe} : Animation -> Prop :=
| reach_new cv from to v config a : new cv from to v config = Ok a -> reachable a
| reach_spring cv s a : spring cv s = Ok a -> reachable a
| reach_ease cv from to v ms c : reachable (ease cv from to v ms c)
| reach_decelerate cv from v rate th a : decelerate cv from v rate th = Ok a -> reachable a
| reach_replace cv config a b : reachable a -> replace_config cv config a = Ok b -> reachable b
| reach_restarted cv from to v a b : reachable a -> restarted cv from to v a = Ok b -> reachable b
| reach_offset o a : reachable a -> reachable (offset o a).
End Animation.

(** ** Theorems *)
Section spring_loops.
Import Spring.
Context {LM : Libm}.

Lemma sample_total n s i y :
  0 <= i -> 3001 - i <= Z.of_nat n ->
  exists r, sample (S n) s i y = Ok r
    /\ match r with Some d => 0 <= d <= from_millis (Z.max i 3001) | None => True end.
Proof.
  unfold from_millis. revert i y. induction n as [|n IH]; intros i y H0 Hn; cbn [sample];
    (destruct (not_reached _ _); [|eexists; split; [done|]; unfold from_millis; cbn; lia]);
    (destruct (Z.ltb_spec 3000 i); [by eexists|]); [lia|].
  destruct (IH (i + 1) (oscillate s (of_Z (i + 1) / of_Z 1000)%F)) as (r & Hr & Hd); [lia..|].
  exists r. split; [exact Hr|]. destruct r; [lia|done].
Qed.

(** The rounds of the Newton loop: it ends close to the target, at the 1001st
    round, or at a value that is not a number; what is left of it after a round that does
    not end it is the loop from the next one. *)
Inductive newton_ends s : Z -> f64 -> f64 -> res Duration -> Prop :=
| ends_close i x y : fgtb (fabs (to s - y)%F) (epsilon (params s)) = false -> newton_ends s i x y (from_secs_f64 x)
| ends_after_1000 i x y : fgtb (fabs (to s - y)%F) (epsilon (params s)) = true -> 1000 < i -> newton_ends s i x y (Ok 0)
| ends_not_finite i x y :
    fgtb (fabs (to s - y)%F) (epsilon (params s)) = true -> i <= 1000 ->
    is_finite (oscillate s (newton_next s x y)) = false -> newton_ends s i x y (from_secs_f64 x)
| ends_later i x y r :
    fgtb (fabs (to s - y)%F) (epsilon (params s)) = true -> i <= 1000 ->
    is_finite (oscillate s (newton_next s x y)) = true ->
    newton_ends s (i + 1) (newton_next s x y) (oscillate s (newton_next s x y)) r -> newton_ends s i x y r.

Lemma newton_ends_within n s i x y : 1001 - i <= Z.of_nat n -> newton_ends s i x y (newton (S n) s i x y).
Proof.
  revert i x y. induction n as [|n IH]; intros i x y Hn; cbn [newton]; cbv zeta; 
    (destruct (fgtb _ _) eqn:Ey; [|by apply ends_close]); (destruct (Z.ltb_spec 1000 i); [by apply ends_after_1000|]); [lia|].
  destruct (is_finite (oscillate s (newton_next s x y))) eqn:Ef; cbn [negb]; [|by apply ends_not_finite].
  apply ends_later; [done..|]. apply IH. lia.
Qed.

(** C40: both searches of the spring code end.  The sampling of
    [clamped_duration] always produces a result, within its 3001 ms unless the
    spring never settles; the Newton iteration of [duration] comes to one of its ends,
    within the 1003 rounds given to it, with the result of the model. *)
Theorem spring_searches_end s :
  (exists r, clamped_duration s = Ok r /\
     match r with Some d => d = DURATION_MAX \/ 0 <= d <= from_millis 3001 | None => True end)
  /\ forall x y, newton_ends s 0 x y (newton NEWTON_FUEL s 0 x y).
Proof.
  split.
  - unfold clamped_duration, SAMPLE_FUEL.
    destruct (_ || _); [eexists; split; [done|]; by left|].
    destruct (fleb _ _); [eexists; split; [done|]; right; vm_compute; split; discriminate|].
    destruct (sample_total 3001 s 1 (oscillate s (of_Z 1 / of_Z 1000)%F)) as (r & Hr & Hd); [lia..|].
    exists r. split; [exact Hr|]. destruct r; [by right|done].
  - intros x y. unfold NEWTON_FUEL. apply newton_ends_within. lia.
Qed.
End spring_loops.

Section animation.
Import Animation.
Context {LM : Libm} {KF : Keyframe}.

Lemma spring_sync cv s a : spring cv s = Ok a -> kind_in_sync a.
Proof. unfold spring. intros H. res_inv. by split. Qed.

Lemma replace_config_sync cv config a b :
  kind_in_sync a -> replace_config cv config a = Ok b -> kind_in_sync b.
Proof.
  unfold replace_config. destruct (Config.off config); [intros Ha [= <-]; exact Ha|].
  intros _ H. destruct (Config.kind config); res_inv; [done|].
  by apply spring_sync in E.
Qed.

(** Whatever sequence of operations made it (starting, reconfiguring,
    restarting, moving), an animation and the spring inside it agree on the two
    endpoints, so the value computed by the spring belongs to the animation. *)
Theorem animation_kind_in_sync a : reachable a -> kind_in_sync a.
Proof.
  induction 1 as [cv f t v config a H|cv s a H| |cv f v r th a H|cv config a b _ IH H
                 |cv f t v a b _ IH H|o a _ IH].
  - unfold new in H. destruct (Config.off config); [by injection H as <-|].
    eapply replace_config_sync; [|exact H]. done.
  - by apply spring_sync in H.
  - done.
  - unfold decelerate in H. by res_inv.
  - by eapply replace_config_sync.
  - unfold restarted in H. destruct (is_off a); [by injection H as <-|].
    destruct (kind a); [by injection H as <-|by apply spring_sync in H|].
    unfold decelerate in H. by res_inv.
  - unfold kind_in_sync, offset in *; cbn. destruct (kind a); try done.
    cbn. destruct IH as [-> ->]. done.
Qed.

(** An animation starts at [from] and ends at [to]: up to and including
    its start time its value is [from]; from its end on, and at any moment after
    the start once it reports to be done (also when animations complete
    instantly), its value is [to]. *)
Theorem animation_endpoints cv a :
  0 <= duration a -> start_time a + duration a <= DURATION_MAX ->
  (cv_now cv <= start_time a -> value cv a = Ok (from a))
  /\ (start_time a < cv_now cv -> is_done cv a = Ok true -> value cv a = Ok (to a))
  /\ (start_time a + duration a <= cv_now cv -> is_done cv a = Ok true).
Proof.
  intros Hd Hmax. unfold value, value_at, is_done. rewrite dadd_ok by done. cbn [mbind res_bind].
  split_and!.
  - intros H. by rewrite (proj2 (Z.leb_le _ _) H).
  - intros H Hdone. rewrite (proj2 (Z.leb_gt _ _) H).
    destruct (cv_complete_instantly cv); [by destruct (_ <=? _)|].
    unfold mret, res_ret in Hdone. injection Hdone as ->. done.
  - intros H. destruct (cv_complete_instantly cv); [done|]. by rewrite (proj2 (Z.leb_le _ _) H).
Qed.

(** Restarting a spring animation drops the velocity it is given: the
    result is the same for every [initial_velocity] argument, because the spring
    is rebuilt with the animation's old velocity. *)
Theorem restarted_spring_ignores_velocity cv from to v v' a s :
  kind a = Spring s -> restarted cv from to v a = restarted cv from to v' a.
Proof. intros Hk. unfold restarted. by rewrite Hk. Qed.
End animation.

(** ** Concrete instances *)

(** Constant functions in place of the math library, for evaluation. *)
Definition libm0 : Libm :=
  {| fln := fun _ => of_Z (-1); fexp' := fun _ => f0; fsin := fun _ => f0; fcos := fun _ => f1;
     fsinh := fun _ => f0; fcosh := fun _ => f1; fpowf := fun _ _ => f0 |}.
(** Functions under which an overdamped spring takes several rounds of the search. *)
Definition libm_slow : Libm :=
  {| fln := fun _ => of_Z (-1); fexp' := fun x => (f1 / (f1 - x))%F; fsin := fun _ => f0; fcos := fun _ => f1;
     fsinh := fun _ => f0; fcosh := fun _ => f1; fpowf := fun _ _ => f0 |}.
Definition overdamped : Spring.Spring :=
  {| Spring.from := f0; Spring.to := f1; Spring.initial_velocity := f0;
     Spring.params := Spring.params_new (of_Z 2) (of_Z 1000) (lit 1 100) |}.
Example newton_takes_rounds :
  @Spring.newton libm_slow 2 overdamped 0 (Spring.newton_next (LM := libm_slow) overdamped f0 f0) f0 = Panic
  /\ exists d, @Spring.duration libm_slow overdamped = Ok d /\ 0 < d.
Proof. split; [by vm_compute|]. eexists. split; [by vm_compute|lia]. Qed.
Definition keyframe0 : Keyframe :=
  {| ease_out_quad_y := fun x => x; ease_out_cubic_y := fun x => x |}.
Definition cv_at (t : Duration) : ClockView :=
  {| cv_now := t; cv_now_unadjusted := t; cv_rate := f1; cv_complete_instantly := false |}.
Definition spring_config : Config.Animation :=
  {| Config.off := false;
     Config.kind := Config.Spring {| Config.damping_ratio := f1; Config.stiffness := 1000; Config.epsilon := lit 1 10000 |} |}.

Lemma animation_kind_in_sync_witness :
  exists a, @Animation.new libm0 (cv_at 5) f0 f1 f0 spring_config = Ok a /\ Animation.kind_in_sync a.
Proof.
  eexists. split; [vm_compute; reflexivity|].
  apply (@animation_kind_in_sync libm0 keyframe0).
  apply (@Animation.reach_new libm0 keyframe0 (cv_at 5) f0 f1 f0 spring_config).
  vm_compute; reflexivity.
Defined.

Lemma animation_endpoints_witness :
  @Animation.value libm0 keyframe0 (cv_at 5) (Animation.ease (cv_at 5) f0 f1 f0 250 Animation.Linear) = Ok f0.
Proof.
  refine (proj1 (@animation_endpoints libm0 keyframe0 (cv_at 5)
    (Animation.ease (cv_at 5) f0 f1 f0 250 Animation.Linear) _ _) _);
    vm_compute; discriminate.
Defined.

Lemma restarted_spring_ignores_velocity_witness :
  exists a s, Animation.kind a = Animation.Spring s
    /\ @Animation.restarted libm0 (cv_at 5) f0 f1 (of_Z 100) a
       = @Animation.restarted libm0 (cv_at 5) f0 f1 f0 a.
Proof.
  exists {| Animation.from := f0; Animation.to := f1; Animation.initial_velocity := f0;
            Animation.is_off := false; Animation.duration := 0; Animation.clamped_duration := 0;
            Animation.start_time := 0;
            Animation.kind := Animation.Spring {| Spring.from := f0; Spring.to := f1;
              Spring.initial_velocity := f0; Spring.params := Spring.params_new f1 (of_Z 1000) (lit 1 10000) |} |}.
  eexists. split; [reflexivity|].
  eapply (@restarted_spring_ignores_velocity libm0 (cv_at 5) f0 f1 (of_Z 100) f0). reflexivity.
Defined.
