(* ===== verification/AnimTotal.v ===== *)
(** * Animations that never panic

    The conditions on a configuration under which the animations made from it
    can always be read, finished and restarted. *)

From stdpp Require Import base numbers option relations.
From Stdlib Require Import ZArith Lia.
From S2P Require Import Prelude.
From S2P Require Import F64.
From S2P Require Import Duration.
From S2P Require Import Clock.
From S2P Require Import Animation.

Local Open Scope Z_scope.

(** ** Animations that never panic

    The duration of a spring comes from floating-point searches over libm
    functions and may be unrepresentable, which panics.  The layout is safe for
    configurations whose animations never panic; [easing_config_total] proves it
    of every configuration that is off or uses an easing curve. *)
Section anim.
Context {LM : Libm} {KF : Keyframe}.
Implicit Types (a : Animation.Animation) (cv : ClockView).

Definition cv_ok cv : Prop := 0 <= cv_now cv <= DURATION_MAX / 2.

Inductive anim_next a : Animation.Animation -> Prop :=
| next_offset o : anim_next a (Animation.offset o a)
| next_restarted cv f t v b : cv_ok cv -> Animation.restarted cv f t v a = Ok b -> anim_next a b.

Definition anim_total a : Prop :=
  forall b, rtc anim_next a b -> forall cv, cv_ok cv ->
    (exists x, Animation.value cv b = Ok x) /\ (exists x, Animation.is_done cv b = Ok x)
    /\ (exists x, Animation.clamped_value cv b = Ok x)
    /\ (forall f t v, exists c, Animation.restarted cv f t v b = Ok c).

Definition config_total (c : Config.Animation) : Prop :=
  forall cv f t v, cv_ok cv -> exists a, Animation.new cv f t v c = Ok a /\ anim_total a.

Lemma anim_total_next a b : anim_total a -> anim_next a b -> anim_total b.
Proof. intros Ha Hn c Hc. apply Ha. by eapply rtc_l. Qed.

Lemma anim_total_value a cv : anim_total a -> cv_ok cv -> exists x, Animation.value cv a = Ok x.
Proof. intros Ha Hcv. by apply (Ha a (rtc_refl _ _)). Qed.

Lemma anim_total_done a cv : anim_total a -> cv_ok cv -> exists x, Animation.is_done cv a = Ok x.
Proof. intros Ha Hcv. by apply (Ha a (rtc_refl _ _)). Qed.

Lemma anim_total_clamped a cv : anim_total a -> cv_ok cv -> exists x, Animation.clamped_value cv a = Ok x.
Proof. intros Ha Hcv. by apply (Ha a (rtc_refl _ _)). Qed.

Lemma anim_total_restarted a cv f t v :
  anim_total a -> cv_ok cv -> exists b, Animation.restarted cv f t v a = Ok b /\ anim_total b.
Proof.
  intros Ha Hcv. destruct (Ha a (rtc_refl _ _) cv Hcv) as (_ & _ & _ & H). destruct (H f t v) as [b Hb].
  exists b. split; [done|]. eapply anim_total_next; [done|]. by eapply next_restarted.
Qed.

Lemma anim_total_offset a o : anim_total a -> anim_total (Animation.offset o a).
Proof. intros Ha. eapply anim_total_next; [done|apply next_offset]. Qed.

(** Easing animations. *)
Definition easing_ok a : Prop :=
  (exists c, Animation.kind a = Animation.Easing c)
  /\ 0 <= Animation.start_time a <= DURATION_MAX / 2 /\ 0 <= Animation.duration a <= from_millis (2 ^ 32)
  /\ 0 <= Animation.clamped_duration a <= from_millis (2 ^ 32).

Lemma easing_next a b : easing_ok a -> anim_next a b -> easing_ok b.
Proof.
  intros ((c & Hk) & Hs & Hd & Hc) Hn. destruct Hn as [o|cv f t v b Hcv Hr].
  - unfold easing_ok, Animation.offset; cbn. rewrite Hk. eauto.
  - unfold Animation.restarted in Hr. destruct (Animation.is_off a); [injection Hr as <-; split_and!; eauto; lia|].
    rewrite Hk in Hr. injection Hr as <-. unfold easing_ok, Animation.ease; cbn. split_and!; eauto; try apply Hcv.
    all: unfold from_millis, as_millis in *; pose proof (Z.div_pos (Animation.duration a) 1000000);
      pose proof (Z.mul_div_le (Animation.duration a) 1000000); lia.
Qed.

Lemma easing_total a : easing_ok a -> anim_total a.
Proof.
  intros Ha b Hb. assert (Hok : easing_ok b) by (induction Hb; eauto using easing_next). clear Ha Hb.
  destruct Hok as ((c & Hk) & Hs & Hd & Hc). intros cv Hcv.
  assert (Hadd : forall d, 0 <= d <= from_millis (2 ^ 32) ->
    dadd (Animation.start_time b) d = Ok (Animation.start_time b + d)).
  { intros d Hd'. apply dadd_ok. unfold from_millis in Hd'.
    assert (2 ^ 32 * 1000000 <= DURATION_MAX - DURATION_MAX / 2) by (by vm_compute). lia. }
  assert (Hv : exists x, Animation.value cv b = Ok x).
  { unfold Animation.value, Animation.value_at. destruct (_ <=? _); [by eexists|]. rewrite Hadd by done. cbn [mbind res_bind].
    destruct (_ <=? _); [by eexists|]. destruct (cv_complete_instantly cv); [by eexists|]. rewrite Hk.
    destruct (fclamp_ok (as_secs_f64 (saturating_sub (cv_now cv) (Animation.start_time b)) / as_secs_f64 (Animation.duration b))%F f0 f1) as [y Hy];
      [by vm_compute|]. rewrite Hy. cbn. by eexists. }
  split_and!; [done| | |].
  - unfold Animation.is_done. destruct (cv_complete_instantly cv); [by eexists|]. rewrite Hadd by done. by eexists.
  - unfold Animation.clamped_value, Animation.is_clamped_done. destruct (cv_complete_instantly cv); cbn; [by eexists|].
    rewrite Hadd by done. cbn. destruct (_ <=? _); [by eexists|done].
  - intros f t v. unfold Animation.restarted. destruct (Animation.is_off b); [by eexists|]. rewrite Hk. by eexists.
Qed.

Lemma easing_config_total c :
  Config.off c = true \/ (exists p, Config.kind c = Config.Easing p /\ 0 <= Config.duration_ms p < 2 ^ 32) ->
  config_total c.
Proof.
  intros Hc cv f t v Hcv. unfold Animation.new, Animation.replace_config.
  assert (H0 : 0 <= 0 <= from_millis (2 ^ 32)) by (by vm_compute).
  destruct (Config.off c) eqn:Eoff.
  - eexists. split; [done|]. apply easing_total. split_and!; cbn; try apply Hcv; try apply H0. by eexists.
  - destruct Hc as [?|(p & Hk & Hp)]; [done|]. rewrite Hk. cbn. eexists. split; [done|].
    apply easing_total. split_and!; cbn; try apply Hcv; [by eexists|unfold from_millis; lia..].
Qed.
End anim.

