(* ===== verification/OutputName.v ===== *)
(** * Names of outputs (niri-config/src/output.rs)

    Outputs are matched by connector or by "make model serial", ignoring ASCII
    case.  Strings are their UTF-8 bytes. *)

From stdpp Require Import base option list strings.
From Stdlib Require Import Ascii String NArith Lia.
From S2P Require Import Prelude.

Local Open Scope string_scope.

(** ** Rust string functions *)

(** [u8::to_ascii_lowercase] *)
Definition to_ascii_lowercase (c : ascii) : ascii :=
  let n := N_of_ascii c in
  if (65 <=? n)%N && (n <=? 90)%N then ascii_of_N (n + 32) else c.

#[local] Arguments to_ascii_lowercase : simpl never.
#[local] Arguments String.append : simpl nomatch.

(** [str::eq_ignore_ascii_case] *)
Fixpoint eq_ignore_ascii_case (s t : string) : bool :=
  match s, t with
  | EmptyString, EmptyString => true
  | String a s, String b t =>
      Ascii.eqb (to_ascii_lowercase a) (to_ascii_lowercase b) && eq_ignore_ascii_case s t
  | _, _ => false
  end.

(** A byte that starts a character. *)
Definition starts_char (c : ascii) : bool :=
  let n := N_of_ascii c in negb ((128 <=? n)%N && (n <? 192)%N).

(** [s.get(..n)] together with [&s[n..]], for [n > 0]: [None] when [n] is past
    the end or not on a character boundary. *)
Fixpoint split_at (n : nat) (s : string) : option (string * string) :=
  match n, s with
  | O, EmptyString => Some ("", "")
  | O, String c _ => if starts_char c then Some ("", s) else None
  | S n, String c s => '(a, b) ← split_at n s; Some (String c a, b)
  | S _, EmptyString => None
  end.

(** [s.get(..n)] and the rest: the start is always a boundary. *)
Definition get_to (n : nat) (s : string) : option (string * string) :=
  match n with O => Some ("", s) | _ => split_at n s end.

(** [s.starts_with(' ')] and [&s[1..]] *)
Definition strip_space (s : string) : option string :=
  match s with
  | String c s => if Ascii.eqb c " " then Some s else None
  | EmptyString => None
  end.

(** ** Output names *)
Record OutputName := {
  connector : string;
  make : option string;
  model : option string;
  serial : option string
}.

Definition no_mms (n : OutputName) : bool :=
  match make n, model n, serial n with None, None, None => true | _, _, _ => false end.

Definition or_unknown (s : option string) : string := default "Unknown" s.

Definition format_make_model_serial (n : OutputName) : string :=
  or_unknown (make n) ++ " " ++ or_unknown (model n) ++ " " ++ or_unknown (serial n).

Definition format_make_model_serial_or_connector (n : OutputName) : string :=
  if no_mms n then connector n else format_make_model_serial n.

(** The prefix [p], ignoring case, and a space are stripped off [target]. *)
Definition strip_word (p target : string) : option string :=
  '(a, rest) ← get_to (String.length p) target;
  if eq_ignore_ascii_case a p then strip_space rest else None.

Definition matches (n : OutputName) (target : string) : bool :=
  if eq_ignore_ascii_case target (connector n) then true
  else if no_mms n then false
  else match rest ← strip_word (or_unknown (make n)) target; strip_word (or_unknown (model n)) rest with
       | Some rest => eq_ignore_ascii_case rest (or_unknown (serial n))
       | None => false
       end.

(** ** Matching is equality of the formatted names up to case *)
Lemma eq_ignore_refl s : eq_ignore_ascii_case s s = true.
Proof. induction s as [|c s IH]; cbn; [done|]. by rewrite Ascii.eqb_refl, IH. Qed.

(** Only the space has the lower case form of the space. *)
Lemma lower_space c : Ascii.eqb (to_ascii_lowercase c) (to_ascii_lowercase " ") = Ascii.eqb c " ".
Proof. destruct c as [[] [] [] [] [] [] [] []]; reflexivity. Qed.

Lemma space_starts_char : starts_char " " = true.
Proof. reflexivity. Qed.

(** Splitting off the length of [p] and comparing is comparing with [p]
    followed by anything, provided what follows in the target starts a character. *)
Lemma split_word p rest target :
  match '(a, r) ← split_at (String.length p) target; if eq_ignore_ascii_case a p then strip_space r else None with
  | Some r => eq_ignore_ascii_case r rest
  | None => false
  end = eq_ignore_ascii_case target (p ++ " " ++ rest).
Proof.
  revert target. induction p as [|c p IH]; intros target.
  - destruct target as [|t target]; [done|]. cbn. rewrite lower_space. destruct (starts_char t) eqn:Et; cbn.
    + by destruct (Ascii.eqb t " ").
    + destruct (Ascii.eqb_spec t " ") as [->|]; [by rewrite space_starts_char in Et|done].
  - destruct target as [|t target]; [done|]. cbn. specialize (IH target).
    destruct (split_at (String.length p) target) as [[a r]|]; cbn in *.
    + destruct (Ascii.eqb (to_ascii_lowercase t) (to_ascii_lowercase c)); cbn; [done|done].
    + by rewrite <- IH, andb_false_r.
Qed.

Lemma strip_word_spec p rest target :
  match strip_word p target with Some r => eq_ignore_ascii_case r rest | None => false end
  = eq_ignore_ascii_case target (p ++ " " ++ rest).
Proof.
  unfold strip_word. destruct p as [|c p]; [|apply (split_word (String c p))].
  destruct target as [|t target]; [done|]. cbn. rewrite lower_space. by destruct (Ascii.eqb t " ").
Qed.

Lemma strip_word_app p q rest target :
  match r ← strip_word p target; strip_word q r with Some r => eq_ignore_ascii_case r rest | None => false end
  = eq_ignore_ascii_case target (p ++ " " ++ q ++ " " ++ rest).
Proof.
  rewrite <- strip_word_spec. destruct (strip_word p target) as [r|]; cbn; [|done]. apply strip_word_spec.
Qed.

Lemma matches_iff n target :
  matches n target = true <->
  eq_ignore_ascii_case target (connector n) = true
  \/ (no_mms n = false /\ eq_ignore_ascii_case target (format_make_model_serial n) = true).
Proof.
  unfold matches, format_make_model_serial. rewrite <- strip_word_app.
  destruct (eq_ignore_ascii_case target (connector n)); [tauto|]. destruct (no_mms n); [naive_solver|].
  split; [intros H; right; by split|by intros [?|[_ H]]].
Qed.

(** The name an output is stored under matches that output. *)
Lemma matches_own n : matches n (format_make_model_serial_or_connector n) = true.
Proof.
  apply matches_iff. unfold format_make_model_serial_or_connector.
  destruct (no_mms n) eqn:E; [left|right; split; [done|]]; apply eq_ignore_refl.
Qed.

(** C37: a target string matches an output exactly when, up to ASCII case, it is
    its connector or, if any of them is known, its "make model serial" with
    "Unknown" for the missing ones: the character boundary checks of the source
    reject nothing else. *)
Theorem matches_spec n target :
  matches n target = true <->
  eq_ignore_ascii_case target (connector n) = true
  \/ (no_mms n = false /\ eq_ignore_ascii_case target (format_make_model_serial n) = true).
Proof. apply matches_iff. Qed.
