(* ===== verification/LayoutTypes.v ===== *)
(** * Types shared by the layout (src/layout/mod.rs, workspace.rs)

    Rounding to physical pixels, the requests for placing and activating windows,
    and the ids of workspaces. *)

From stdpp Require Import base numbers option list strings.
From Stdlib Require Import ZArith.
From S2P Require Import Prelude.
From S2P Require Import F64.
From S2P Require Import Duration.
From S2P Require Import Clock.
From S2P Require Import Animation.
From S2P Require Import OutputName.

Local Open Scope Z_scope.

(** ** Rounding *)
Definition round_logical_in_physical (scale logical : f64) : f64 :=
  (fround (logical * scale) / scale)%F.
Definition round_logical_in_physical_max1 (scale logical : f64) : f64 :=
  if feqb logical f0 then f0 else (fround (fmax (logical * scale) f1) / scale)%F.
Definition floor_logical_in_physical_max1 (scale logical : f64) : f64 :=
  if feqb logical f0 then f0 else (ffloor (fmax (logical * scale) f1) / scale)%F.

(** ** Requests *)
Inductive ActivateWindow := Yes | Smart | No.
Definition map_smart (f : bool) (a : ActivateWindow) : bool :=
  match a with Yes => true | Smart => f | No => false end.

Inductive ColumnWidth := Proportion (p : f64) | Fixed (w : f64).

Inductive WorkspaceAddWindowTarget (Win : Type) :=
| Auto
| NewColumnAt (col_idx : nat)
| NextTo (w : Win).
Arguments Auto {Win}.
Arguments NewColumnAt {Win} col_idx.
Arguments NextTo {Win} w.

Record RemovedTile (Tile : Type) := {
  rt_tile : Tile;
  rt_width : ColumnWidth;
  rt_is_full_width : bool;
  rt_is_floating : bool
}.
Arguments rt_tile {Tile}.
Arguments rt_width {Tile}.
Arguments rt_is_full_width {Tile}.
Arguments rt_is_floating {Tile}.

(** ** Identifiers *)

(** [IdCounter::next]: an atomic [u64] that wraps around. *)
Definition id_next (c : Z) : Z * Z := (c, (c + 1) mod 2 ^ 64).
