(* ===== verification/F64Sign.v ===== *)
(** * Signs of floating-point results

    A float is [nonneg] when it is a number that is not below zero.  Sizes,
    gaps and widths are nonnegative, and the arithmetic on them stays so; this
    is what keeps NaN out of the layout. *)

From stdpp Require Import base numbers.
From Stdlib Require Import ZArith Lia SpecFloat.
From S2P Require Import Prelude.
From S2P Require Import F64.
From S2P Require Import LayoutTypes.

Local Open Scope Z_scope.

Definition nonneg (x : f64) : Prop := fleb f0 x = true.
Definition positive_finite (x : f64) : bool := fltb f0 x && is_finite x.

Lemma cmp_exact_zero a : cmp_exact (0, 0) a = (0 ?= a.1).
Proof.
  unfold cmp_exact. cbn [fst snd]. rewrite Z.shiftl_0_l, Z.shiftl_mul_pow2 by lia.
  assert (0 < 2 ^ (a.2 - Z.min 0 a.2)) by (apply Z.pow_pos_nonneg; lia).
  destruct (Z.compare_spec 0 a.1), (Z.compare_spec 0 (a.1 * 2 ^ (a.2 - Z.min 0 a.2))); try done; nia.
Qed.

Lemma nonneg_cases x :
  nonneg x <-> match x with S754_zero _ => True | S754_infinity s | S754_finite s _ _ => s = false | S754_nan => False end.
Proof.
  unfold nonneg, fleb, f0. destruct x as [s|s| |s m e]; cbn [fcompare exact]; try done; [by destruct s|].
  rewrite cmp_exact_zero. by destruct s.
Qed.

Lemma positive_finite_cases x : positive_finite x = true <-> exists m e, x = S754_finite false m e.
Proof.
  unfold positive_finite, fltb, f0. split.
  - destruct x as [s|s| |s m e]; cbn [fcompare exact is_finite]; try done; [by destruct s|].
    rewrite cmp_exact_zero. destruct s; [done|eauto].
  - intros (m & e & ->). cbn [fcompare exact is_finite]. by rewrite cmp_exact_zero.
Qed.

Lemma nonneg_not_nan x : nonneg x -> is_nan x = false.
Proof. rewrite nonneg_cases. by destruct x. Qed.

(** ** The sign of a rounded result *)
Definition sign_is (s : bool) (x : f64) : Prop :=
  match x with S754_zero t | S754_infinity t | S754_finite t _ _ => t = s | S754_nan => False end.

Lemma sign_is_nonneg x : sign_is false x -> nonneg x.
Proof. rewrite nonneg_cases. by destruct x. Qed.

Lemma shr_1_nonneg r : 0 <= shr_m r -> 0 <= shr_m (shr_1 r).
Proof. destruct r as [m a b]; destruct m as [|[]|]; cbn; lia. Qed.

Lemma shr_iter_nonneg p r : 0 <= shr_m r -> 0 <= shr_m (SpecFloat.iter_pos shr_1 p r).
Proof. revert r. induction p as [p IH|p IH|]; cbn; intros r Hr; eauto using shr_1_nonneg. Qed.

Lemma shr_nonneg r e n : 0 <= shr_m r -> 0 <= shr_m (shr r e n).1.
Proof. destruct n; cbn; auto using shr_iter_nonneg. Qed.

Lemma shr_record_of_loc_m m l : shr_m (shr_record_of_loc m l) = m.
Proof. by destruct l as [|[]]. Qed.

Lemma round_nearest_even_nonneg m l : 0 <= m -> 0 <= round_nearest_even m l.
Proof. destruct l as [|[]]; cbn; try destruct (Z.even m); lia. Qed.

Lemma round_aux_sign s m e l : 0 <= m -> sign_is s (binary_round_aux 53 1024 s m e l).
Proof.
  intros Hm. unfold binary_round_aux, shr_fexp.
  pose proof (shr_nonneg (shr_record_of_loc m l) e (fexp 53 1024 (Zdigits2 m + e) - e)) as H1.
  rewrite shr_record_of_loc_m in H1. specialize (H1 Hm).
  destruct (shr (shr_record_of_loc m l) e _) as [r e1]. cbn [fst] in H1.
  pose proof (round_nearest_even_nonneg (shr_m r) (loc_of_shr_record r) H1) as H2.
  set (m2 := round_nearest_even _ _) in *.
  pose proof (shr_nonneg (shr_record_of_loc m2 loc_Exact) e1 (fexp 53 1024 (Zdigits2 m2 + e1) - e1)) as H3.
  rewrite shr_record_of_loc_m in H3. specialize (H3 H2).
  destruct (shr (shr_record_of_loc m2 loc_Exact) e1 _) as [r2 e2]. cbn [fst] in H3.
  destruct (shr_m r2); cbn; [done|by destruct (_ <=? _)|lia].
Qed.

Lemma binary_round_sign s m e : sign_is s (binary_round 53 1024 s m e).
Proof. unfold binary_round. destruct (shl_align _ _ _) as [mz ez]. by apply round_aux_sign. Qed.

Lemma normalize_nonneg m e s : 0 <= m -> nonneg (binary_normalize 53 1024 m e s).
Proof.
  intros Hm. destruct m as [|p|p]; cbn; [by rewrite nonneg_cases| |lia]. apply sign_is_nonneg, binary_round_sign.
Qed.

(** ** Arithmetic *)
Lemma of_Z_nonneg z : 0 <= z -> nonneg (of_Z z).
Proof. apply normalize_nonneg. Qed.

Lemma fadd_nonneg x y : nonneg x -> nonneg y -> nonneg (fadd x y).
Proof.
  rewrite !nonneg_cases. unfold fadd. destruct x as [s|s| |s m e], y as [t|t| |t n f]; cbn [SFadd]; try done; try (intros; subst; done).
  - by destruct s, t.
  - intros -> ->. apply nonneg_cases, normalize_nonneg. cbn [cond_Zopp]. lia.
Qed.

Lemma fmul_nonneg x y : nonneg x -> positive_finite y = true -> nonneg (fmul x y).
Proof.
  intros Hx (n & f & ->)%positive_finite_cases. apply nonneg_cases in Hx. unfold fmul.
  destruct x as [s|s| |s m e]; cbn [SFmul]; try done; subst; [done..|]. cbn [xorb]. by apply sign_is_nonneg, round_aux_sign.
Qed.

Lemma fdiv_nonneg x y : nonneg x -> positive_finite y = true -> nonneg (fdiv x y).
Proof.
  intros Hx (n & f & ->)%positive_finite_cases. apply nonneg_cases in Hx. unfold fdiv.
  destruct x as [s|s| |s m e]; cbn [SFdiv]; try done; subst; [done..|]. cbn [xorb].
  destruct (SFdiv_core_binary _ _ _ _ _ _) as [[q e'] l] eqn:E. apply sign_is_nonneg, round_aux_sign.
  unfold SFdiv_core_binary in E.
  match type of E with (let '(_, _) := Z.div_eucl ?a ?b in _) = _ => assert (Ha : 0 <= a); [|remember a as a' eqn:Ea'; clear Ea'] end.
  { destruct (e - f - _) as [|k|k]; try lia. rewrite Z.shiftl_mul_pow2 by lia. apply Z.mul_nonneg_nonneg; [lia|]. apply Z.pow_nonneg; lia. }
  pose proof (Z_div_mod a' (Z.pos n)) as Hd. destruct (Z.div_eucl a' (Z.pos n)) as [q' r]. injection E as <- <- <-.
  destruct Hd as [Hd Hr]; [lia|]. nia.
Qed.

(** ** Comparison is transitive *)
Lemma fleb_trans x y z : fleb x y = true -> fleb y z = true -> fleb x z = true.
Proof.
  intros H1 H2. destruct (exact x) as [a|] eqn:Ea, (exact y) as [b|] eqn:Eb, (exact z) as [c|] eqn:Ec.
  1: { rewrite (fleb_exact _ _ _ _ Ea Eb) in H1. rewrite (fleb_exact _ _ _ _ Eb Ec) in H2. rewrite (fleb_exact _ _ _ _ Ea Ec).
       by eapply le_exact_trans. }
  all: destruct x as [?|[]| |], y as [?|[]| |], z as [?|[]| |]; done.
Qed.

Lemma fltb_fleb x y : fltb x y = true -> fleb x y = true.
Proof. unfold fltb, fleb. by destruct (fcompare x y) as [[]|]. Qed.
Lemma feqb_fleb x y : feqb x y = fleb x y && fleb y x.
Proof. unfold feqb, fleb. rewrite (fcompare_antisym x y). by destruct (fcompare x y) as [[]|]. Qed.
Lemma feqb_trans x y z : feqb x y = true -> feqb y z = true -> feqb x z = true.
Proof. rewrite !feqb_fleb, !andb_true_iff. intros [] []. split; by eapply fleb_trans. Qed.

Lemma fmax_nonneg_l x y : nonneg x -> nonneg (fmax x y).
Proof.
  intros Hx. unfold fmax. rewrite (nonneg_not_nan x Hx). destruct (is_nan y); [done|].
  destruct (fltb x y) eqn:E; [|done]. eapply fleb_trans; [exact Hx|by apply fltb_fleb].
Qed.
Lemma fmax_nonneg_r x y : nonneg y -> nonneg (fmax x y).
Proof.
  intros Hy. unfold fmax. destruct (is_nan x) eqn:Ex; [done|]. rewrite (nonneg_not_nan y Hy).
  destruct (fltb x y) eqn:E; [done|].
  destruct (fltb_false_fleb x y E) as [?|[H|H]]; [congruence|by rewrite (nonneg_not_nan y Hy) in H|].
  eapply fleb_trans; [exact Hy|done].
Qed.

Lemma fmax_not_nan_r x y : is_nan y = false -> is_nan (fmax x y) = false.
Proof. intros Hy. unfold fmax. destruct (is_nan x) eqn:Ex; [done|]. rewrite Hy. by destruct (fltb x y). Qed.

Lemma roundZ_nonneg a : 0 <= a.1 -> 0 <= roundZ a.
Proof.
  intros Ha. unfold roundZ. destruct (0 <=? a.2) eqn:E.
  - apply Z.leb_le in E. rewrite Z.shiftl_mul_pow2 by lia. nia.
  - apply Z.mul_nonneg_nonneg; [lia|]. apply Z.div_pos; [|apply Z.leb_gt in E; nia].
    assert (0 < 2 ^ (- a.2)) by (apply Z.pow_pos_nonneg; lia). lia.
Qed.

Lemma fround_nonneg x : nonneg x -> nonneg (fround x).
Proof.
  intros Hx. unfold fround, round_with. destruct x as [s|s| |s m e]; try done. destruct (0 <=? e); [done|].
  apply nonneg_cases in Hx. subst. unfold int_float. destruct (_ =? _); [by apply nonneg_cases|].
  apply of_Z_nonneg, roundZ_nonneg. cbn. lia.
Qed.

(** ** Rounding to physical pixels *)
Lemma round_max1_nonneg scale x :
  positive_finite scale = true -> nonneg x -> nonneg (round_logical_in_physical_max1 scale x).
Proof.
  intros Hs Hx. unfold round_logical_in_physical_max1. destruct (feqb x f0); [by apply nonneg_cases|].
  apply fdiv_nonneg; [|done]. apply fround_nonneg, fmax_nonneg_l. by apply fmul_nonneg.
Qed.
