(* ===== verification/Tile.v ===== *)
(** * Tiles: windows with their decorations

    The state of a [Tile] that matters for its size and position (layout/tile.rs):
    the window, its border, sizing mode, animations and what it remembers of
    being floating.  Windows are used through the [LayoutElement] trait.  Render
    buffers, the focus ring, the shadow and snapshots' contents are left out. *)

From stdpp Require Import base numbers option list.
From Stdlib Require Import ZArith Lia.
From S2P Require Import Prelude.
From S2P Require Import F64.
From S2P Require Import Duration.
From S2P Require Import Clock.
From S2P Require Import Animation.
From S2P Require Import LayoutTypes.

Local Open Scope Z_scope.

(** Points and sizes: x and y, width and height.  Rectangles: location, size. *)
Abbreviation Point := (f64 * f64)%type.
Abbreviation Size := (f64 * f64)%type.
Abbreviation Rect := ((f64 * f64) * (f64 * f64))%type.

Definition pair_eqb (a b : f64 * f64) : bool := feqb a.1 b.1 && feqb a.2 b.2.
Definition rect_eqb (a b : Rect) : bool := pair_eqb a.1 b.1 && pair_eqb a.2 b.2.
Definition pair_sub (a b : f64 * f64) : f64 * f64 := ((a.1 - b.1)%F, (a.2 - b.2)%F).
Definition pair_add (a b : f64 * f64) : f64 * f64 := ((a.1 + b.1)%F, (a.2 + b.2)%F).
Definition to_f64 (s : Z * Z) : Size := (of_Z s.1, of_Z s.2).

(** Smithay's conversions: a logical length rounded to a physical pixel and
    back, at a scale, and a length as [i32]. *)
Class Geometry := {
  physical_round : f64 -> f64 -> f64;
  physical_ceil : f64 -> f64 -> f64;
  i32_floor : f64 -> Z;
  i32_round : f64 -> Z
}.
Definition round_size `{!Geometry} (scale : f64) (s : Size) : Size := (physical_round scale s.1, physical_round scale s.2).

(** ** Configuration *)
Inductive SizingMode := Normal | Maximized | Fullscreen.
#[export] Instance SizingMode_eq_dec : EqDecision SizingMode.
Proof. solve_decision. Defined.
Definition is_normal (m : SizingMode) : bool := bool_decide (m = Normal).
Definition is_maximized (m : SizingMode) : bool := bool_decide (m = Maximized).
Definition is_fullscreen (m : SizingMode) : bool := bool_decide (m = Fullscreen).

Inductive ColumnDisplay := DisplayNormal | DisplayTabbed.
#[export] Instance ColumnDisplay_eq_dec : EqDecision ColumnDisplay.
Proof. solve_decision. Defined.

Inductive CenterFocusedColumn := CenterNever | CenterAlways | CenterOnOverflow.
#[export] Instance CenterFocusedColumn_eq_dec : EqDecision CenterFocusedColumn.
Proof. solve_decision. Defined.

Inductive PresetSize := PresetProportion (p : f64) | PresetFixed (f : Z).
Definition preset_eqb (a b : PresetSize) : bool :=
  match a, b with
  | PresetProportion p, PresetProportion q => feqb p q
  | PresetFixed x, PresetFixed y => x =? y
  | _, _ => false
  end.
Fixpoint presets_eqb (a b : list PresetSize) : bool :=
  match a, b with
  | [], [] => true
  | x :: a, y :: b => preset_eqb x y && presets_eqb a b
  | _, _ => false
  end.

(** A border: colours and gradients are left out. *)
Record Border := { b_off : bool; b_width : f64 }.
Record BorderRule := { br_off : bool; br_on : bool; br_width : option f64 }.
Definition border_merged_with (r : BorderRule) (b : Border) : Border :=
  {| b_off := if br_on r then false else b_off b || br_off r; b_width := default (b_width b) (br_width r) |}.

Inductive TabIndicatorPosition := TabLeft | TabRight | TabTop | TabBottom.
#[export] Instance TabIndicatorPosition_eq_dec : EqDecision TabIndicatorPosition.
Proof. solve_decision. Defined.

(** [ti_style] stands for the remaining fields (corners, colours), which are only
    ever compared here. *)
Record TabIndicatorConfig := {
  ti_off : bool;
  hide_when_single_tab : bool;
  place_within_column : bool;
  ti_gap : f64;
  ti_width : f64;
  ti_length : option f64;
  ti_position : TabIndicatorPosition;
  gaps_between_tabs : f64;
  ti_style : Z
}.
Definition tab_indicator_eqb (a b : TabIndicatorConfig) : bool :=
  Bool.eqb (ti_off a) (ti_off b) && Bool.eqb (hide_when_single_tab a) (hide_when_single_tab b)
  && Bool.eqb (place_within_column a) (place_within_column b) && feqb (ti_gap a) (ti_gap b)
  && feqb (ti_width a) (ti_width b) && option_eqb feqb (ti_length a) (ti_length b)
  && feqb (gaps_between_tabs a) (gaps_between_tabs b) && bool_decide (ti_position a = ti_position b) && (ti_style a =? ti_style b).

Record Struts := { strut_left : f64; strut_right : f64; strut_top : f64; strut_bottom : f64 }.

(** The layout options, and the animations and gestures of the spaces. *)
Record LayoutOptions := {
  empty_workspace_above_first : bool;
  gaps : f64;
  struts : Struts;
  opt_border : Border;
  opt_tab_indicator : TabIndicatorConfig;
  center_focused_column : CenterFocusedColumn;
  always_center_single_column : bool;
  default_column_display : ColumnDisplay;
  preset_column_widths : list PresetSize;
  preset_window_heights : list PresetSize;
  default_column_width : option PresetSize;
  window_movement : Config.Animation;
  horizontal_view_movement : Config.Animation;
  window_resize : Config.Animation;
  window_open : Config.Animation;
  dnd_view_trigger_width : f64;
  dnd_view_delay_ms : Z;
  dnd_view_max_speed : f64;
  disable_resize_throttling : bool;
  disable_transactions : bool;
  deactivate_unfocused_windows : bool
}.

(** Where a floating window opens, relative to a corner or an edge. *)
Inductive RelativeTo := TopLeft | TopRight | BottomLeft | BottomRight | RelTop | RelBottom | RelLeft | RelRight.
#[export] Instance RelativeTo_eq_dec : EqDecision RelativeTo.
Proof. solve_decision. Defined.
Record FloatingPosition := { fp_x : f64; fp_y : f64; relative_to : RelativeTo }.

(** The window rules read here. *)
Record WindowRules := {
  rule_border : BorderRule;
  rule_default_column_display : option ColumnDisplay;
  rule_default_floating_position : option FloatingPosition
}.

(** [ResizeEdge], as flags. *)
Record ResizeEdge := { edge_top : bool; edge_bottom : bool; edge_left : bool; edge_right : bool }.

(** ** Windows: the [LayoutElement] trait

    [take_animation_snapshot] gives the size of the snapshot it takes. *)
Class LayoutElement := {
  W : Type;
  Id : Type;
  Id_eq_dec :: EqDecision Id;
  Transaction : Type;
  new_transaction : Transaction;
  win_id : W -> Id;
  win_size : W -> Z * Z;
  win_min_size : W -> Z * Z;
  win_max_size : W -> Z * Z;
  win_sizing_mode : W -> SizingMode;
  win_pending_sizing_mode : W -> SizingMode;
  win_requested_size : W -> option (Z * Z);
  win_expected_size : W -> option (Z * Z);
  win_rules : W -> WindowRules;
  request_size : Z * Z -> SizingMode -> bool -> option Transaction -> W -> W;
  request_size_once : Z * Z -> bool -> W -> W;
  take_animation_snapshot : W -> option Size * W;
  interactive_resize_data : W -> option ResizeEdge;
  set_interactive_resize : option ResizeEdge -> W -> W;
  on_commit : Z -> W -> W;
  cancel_interactive_resize : W -> W
}.

(** What a layout operation leaves as it is in a window. *)
Record win_same `{!LayoutElement} (w w' : W) : Prop := {
  same_id : win_id w' = win_id w;
  same_size : win_size w' = win_size w;
  same_mode : win_sizing_mode w' = win_sizing_mode w;
  same_rules : win_rules w' = win_rules w
}.

(** What the layout relies on: a window keeps its id, its size is the client's
    to change, and "the sizing mode will {i not} switch immediately after a
    request" while the pending one {i will}. *)
Class LayoutElementLaws `{!LayoutElement} := {
  request_size_same s m a t w : win_same w (request_size s m a t w);
  request_size_pending s m a t w : win_pending_sizing_mode (request_size s m a t w) = m;
  request_size_once_same s a w : win_same w (request_size_once s a w);
  request_size_once_pending s a w : win_pending_sizing_mode (request_size_once s a w) = Normal;
  take_animation_snapshot_same w : win_same w (take_animation_snapshot w).2;
  take_animation_snapshot_pending w : win_pending_sizing_mode (take_animation_snapshot w).2 = win_pending_sizing_mode w;
  cancel_interactive_resize_same w : win_same w (cancel_interactive_resize w);
  cancel_interactive_resize_pending w : win_pending_sizing_mode (cancel_interactive_resize w) = win_pending_sizing_mode w;
  on_commit_id n w : win_id (on_commit n w) = win_id w;
  on_commit_size n w : win_size (on_commit n w) = win_size w;
  on_commit_rules n w : win_rules (on_commit n w) = win_rules w;
  on_commit_pending n w : win_pending_sizing_mode (on_commit n w) = win_pending_sizing_mode w
}.

Definition RESIZE_ANIMATION_THRESHOLD : f64 := of_Z 10.

Module Tile.
Record ResizeAnimation := {
  r_anim : Animation.Animation;
  size_from : Size;
  tile_size_from : Size;
  r_fullscreen_progress : option Animation.Animation;
  r_expanded_progress : option Animation.Animation
}.
Record MoveAnimation := { m_anim : Animation.Animation; m_from : f64 }.
Record AlphaAnimation := { a_anim : Animation.Animation; hold_after_done : bool }.

Section ops.
Context {LE : LayoutElement} {GE : Geometry} {LM : Libm} {KF : Keyframe}.
Implicit Types (cv : ClockView).

Record Tile := {
  window : W;
  border : Border;
  sizing_mode : SizingMode;
  restore_to_floating : bool;
  floating_window_size : option (Z * Z);
  floating_pos : option Point;
  floating_preset_width_idx : option nat;
  floating_preset_height_idx : option nat;
  open_animation : option Animation.Animation;
  resize_animation : option ResizeAnimation;
  move_x_animation : option MoveAnimation;
  move_y_animation : option MoveAnimation;
  alpha_animation : option AlphaAnimation;
  interactive_move_offset : Point;
  view_size : Size;
  scale : f64;
  options : LayoutOptions
}.

Definition set_window (v : W) (t : Tile) : Tile :=
  {| window := v; border := border t; sizing_mode := sizing_mode t; restore_to_floating := restore_to_floating t;
     floating_window_size := floating_window_size t; floating_pos := floating_pos t;
     floating_preset_width_idx := floating_preset_width_idx t;
     floating_preset_height_idx := floating_preset_height_idx t; open_animation := open_animation t;
     resize_animation := resize_animation t; move_x_animation := move_x_animation t;
     move_y_animation := move_y_animation t; alpha_animation := alpha_animation t;
     interactive_move_offset := interactive_move_offset t; view_size := view_size t; scale := scale t;
     options := options t |}.
Definition set_border (v : Border) (t : Tile) : Tile :=
  {| window := window t; border := v; sizing_mode := sizing_mode t; restore_to_floating := restore_to_floating t;
     floating_window_size := floating_window_size t; floating_pos := floating_pos t;
     floating_preset_width_idx := floating_preset_width_idx t;
     floating_preset_height_idx := floating_preset_height_idx t; open_animation := open_animation t;
     resize_animation := resize_animation t; move_x_animation := move_x_animation t;
     move_y_animation := move_y_animation t; alpha_animation := alpha_animation t;
     interactive_move_offset := interactive_move_offset t; view_size := view_size t; scale := scale t;
     options := options t |}.
Definition set_sizing_mode (v : SizingMode) (t : Tile) : Tile :=
  {| window := window t; border := border t; sizing_mode := v; restore_to_floating := restore_to_floating t;
     floating_window_size := floating_window_size t; floating_pos := floating_pos t;
     floating_preset_width_idx := floating_preset_width_idx t;
     floating_preset_height_idx := floating_preset_height_idx t; open_animation := open_animation t;
     resize_animation := resize_animation t; move_x_animation := move_x_animation t;
     move_y_animation := move_y_animation t; alpha_animation := alpha_animation t;
     interactive_move_offset := interactive_move_offset t; view_size := view_size t; scale := scale t;
     options := options t |}.
Definition set_open_animation (v : option Animation.Animation) (t : Tile) : Tile :=
  {| window := window t; border := border t; sizing_mode := sizing_mode t;
     restore_to_floating := restore_to_floating t; floating_window_size := floating_window_size t;
     floating_pos := floating_pos t; floating_preset_width_idx := floating_preset_width_idx t;
     floating_preset_height_idx := floating_preset_height_idx t; open_animation := v;
     resize_animation := resize_animation t; move_x_animation := move_x_animation t;
     move_y_animation := move_y_animation t; alpha_animation := alpha_animation t;
     interactive_move_offset := interactive_move_offset t; view_size := view_size t; scale := scale t;
     options := options t |}.
Definition set_resize_animation (v : option ResizeAnimation) (t : Tile) : Tile :=
  {| window := window t; border := border t; sizing_mode := sizing_mode t;
     restore_to_floating := restore_to_floating t; floating_window_size := floating_window_size t;
     floating_pos := floating_pos t; floating_preset_width_idx := floating_preset_width_idx t;
     floating_preset_height_idx := floating_preset_height_idx t; open_animation := open_animation t;
     resize_animation := v; move_x_animation := move_x_animation t; move_y_animation := move_y_animation t;
     alpha_animation := alpha_animation t; interactive_move_offset := interactive_move_offset t;
     view_size := view_size t; scale := scale t; options := options t |}.
Definition set_move_x_animation (v : option MoveAnimation) (t : Tile) : Tile :=
  {| window := window t; border := border t; sizing_mode := sizing_mode t;
     restore_to_floating := restore_to_floating t; floating_window_size := floating_window_size t;
     floating_pos := floating_pos t; floating_preset_width_idx := floating_preset_width_idx t;
     floating_preset_height_idx := floating_preset_height_idx t; open_animation := open_animation t;
     resize_animation := resize_animation t; move_x_animation := v; move_y_animation := move_y_animation t;
     alpha_animation := alpha_animation t; interactive_move_offset := interactive_move_offset t;
     view_size := view_size t; scale := scale t; options := options t |}.
Definition set_move_y_animation (v : option MoveAnimation) (t : Tile) : Tile :=
  {| window := window t; border := border t; sizing_mode := sizing_mode t;
     restore_to_floating := restore_to_floating t; floating_window_size := floating_window_size t;
     floating_pos := floating_pos t; floating_preset_width_idx := floating_preset_width_idx t;
     floating_preset_height_idx := floating_preset_height_idx t; open_animation := open_animation t;
     resize_animation := resize_animation t; move_x_animation := move_x_animation t; move_y_animation := v;
     alpha_animation := alpha_animation t; interactive_move_offset := interactive_move_offset t;
     view_size := view_size t; scale := scale t; options := options t |}.
Definition set_alpha_animation (v : option AlphaAnimation) (t : Tile) : Tile :=
  {| window := window t; border := border t; sizing_mode := sizing_mode t;
     restore_to_floating := restore_to_floating t; floating_window_size := floating_window_size t;
     floating_pos := floating_pos t; floating_preset_width_idx := floating_preset_width_idx t;
     floating_preset_height_idx := floating_preset_height_idx t; open_animation := open_animation t;
     resize_animation := resize_animation t; move_x_animation := move_x_animation t;
     move_y_animation := move_y_animation t; alpha_animation := v;
     interactive_move_offset := interactive_move_offset t; view_size := view_size t; scale := scale t;
     options := options t |}.
Definition set_interactive_move_offset (v : Point) (t : Tile) : Tile :=
  {| window := window t; border := border t; sizing_mode := sizing_mode t;
     restore_to_floating := restore_to_floating t; floating_window_size := floating_window_size t;
     floating_pos := floating_pos t; floating_preset_width_idx := floating_preset_width_idx t;
     floating_preset_height_idx := floating_preset_height_idx t; open_animation := open_animation t;
     resize_animation := resize_animation t; move_x_animation := move_x_animation t;
     move_y_animation := move_y_animation t; alpha_animation := alpha_animation t; interactive_move_offset := v;
     view_size := view_size t; scale := scale t; options := options t |}.

Definition set_restore_to_floating (v : bool) (t : Tile) : Tile :=
  {| window := window t; border := border t; sizing_mode := sizing_mode t; restore_to_floating := v;
     floating_window_size := floating_window_size t; floating_pos := floating_pos t;
     floating_preset_width_idx := floating_preset_width_idx t;
     floating_preset_height_idx := floating_preset_height_idx t; open_animation := open_animation t;
     resize_animation := resize_animation t; move_x_animation := move_x_animation t;
     move_y_animation := move_y_animation t; alpha_animation := alpha_animation t;
     interactive_move_offset := interactive_move_offset t; view_size := view_size t; scale := scale t;
     options := options t |}.
Definition set_floating_window_size (v : option (Z * Z)) (t : Tile) : Tile :=
  {| window := window t; border := border t; sizing_mode := sizing_mode t;
     restore_to_floating := restore_to_floating t; floating_window_size := v; floating_pos := floating_pos t;
     floating_preset_width_idx := floating_preset_width_idx t;
     floating_preset_height_idx := floating_preset_height_idx t; open_animation := open_animation t;
     resize_animation := resize_animation t; move_x_animation := move_x_animation t;
     move_y_animation := move_y_animation t; alpha_animation := alpha_animation t;
     interactive_move_offset := interactive_move_offset t; view_size := view_size t; scale := scale t;
     options := options t |}.
Definition set_floating_pos (v : option Point) (t : Tile) : Tile :=
  {| window := window t; border := border t; sizing_mode := sizing_mode t;
     restore_to_floating := restore_to_floating t; floating_window_size := floating_window_size t; floating_pos := v;
     floating_preset_width_idx := floating_preset_width_idx t;
     floating_preset_height_idx := floating_preset_height_idx t; open_animation := open_animation t;
     resize_animation := resize_animation t; move_x_animation := move_x_animation t;
     move_y_animation := move_y_animation t; alpha_animation := alpha_animation t;
     interactive_move_offset := interactive_move_offset t; view_size := view_size t; scale := scale t;
     options := options t |}.
Definition set_floating_preset_width_idx (v : option nat) (t : Tile) : Tile :=
  {| window := window t; border := border t; sizing_mode := sizing_mode t;
     restore_to_floating := restore_to_floating t; floating_window_size := floating_window_size t;
     floating_pos := floating_pos t; floating_preset_width_idx := v;
     floating_preset_height_idx := floating_preset_height_idx t; open_animation := open_animation t;
     resize_animation := resize_animation t; move_x_animation := move_x_animation t;
     move_y_animation := move_y_animation t; alpha_animation := alpha_animation t;
     interactive_move_offset := interactive_move_offset t; view_size := view_size t; scale := scale t;
     options := options t |}.
Definition set_floating_preset_height_idx (v : option nat) (t : Tile) : Tile :=
  {| window := window t; border := border t; sizing_mode := sizing_mode t;
     restore_to_floating := restore_to_floating t; floating_window_size := floating_window_size t;
     floating_pos := floating_pos t; floating_preset_width_idx := floating_preset_width_idx t;
     floating_preset_height_idx := v; open_animation := open_animation t; resize_animation := resize_animation t;
     move_x_animation := move_x_animation t; move_y_animation := move_y_animation t;
     alpha_animation := alpha_animation t; interactive_move_offset := interactive_move_offset t;
     view_size := view_size t; scale := scale t; options := options t |}.

Definition id (t : Tile) : Id := win_id (window t).

Definition new (w : W) (view_size : Size) (scale : f64) (options : LayoutOptions) : Tile :=
  {| window := w; border := border_merged_with (rule_border (win_rules w)) (opt_border options);
     sizing_mode := win_sizing_mode w; restore_to_floating := false; floating_window_size := None; floating_pos := None;
     floating_preset_width_idx := None; floating_preset_height_idx := None; open_animation := None;
     resize_animation := None; move_x_animation := None; move_y_animation := None; alpha_animation := None;
     interactive_move_offset := (f0, f0); view_size := view_size; scale := scale; options := options |}.

(** The border of a window under [options], rounded to physical pixels. *)
Definition resolve_border (scale : f64) (options : LayoutOptions) (w : W) : Border :=
  let b := border_merged_with (rule_border (win_rules w)) (opt_border options) in
  {| b_off := b_off b; b_width := round_logical_in_physical_max1 scale (b_width b) |}.

Definition update_config (view_size' : Size) (scale' : f64) (options' : LayoutOptions) (t : Tile) : Tile :=
  {| window := window t; border := resolve_border scale' options' (window t); sizing_mode := sizing_mode t;
     restore_to_floating := restore_to_floating t; floating_window_size := floating_window_size t;
     floating_pos := floating_pos t;
     floating_preset_width_idx :=
       if presets_eqb (preset_column_widths (options t)) (preset_column_widths options')
       then floating_preset_width_idx t else None;
     floating_preset_height_idx :=
       if presets_eqb (preset_window_heights (options t)) (preset_window_heights options')
       then floating_preset_height_idx t else None;
     open_animation := open_animation t; resize_animation := resize_animation t;
     move_x_animation := move_x_animation t; move_y_animation := move_y_animation t;
     alpha_animation := alpha_animation t; interactive_move_offset := interactive_move_offset t;
     view_size := view_size'; scale := scale'; options := options' |}.

(** ** Sizes *)
Definition effective_border_width (t : Tile) : option f64 :=
  if negb (is_normal (sizing_mode t)) then None
  else if b_off (border t) then None
  else Some (b_width (border t)).

Definition window_size (t : Tile) : Size := round_size (scale t) (to_f64 (win_size (window t))).
Definition window_expected_or_current_size (t : Tile) : Size :=
  round_size (scale t) (to_f64 (default (win_size (window t)) (win_expected_size (window t)))).

(** The tile around a window of the given size, in a sizing mode. *)
Definition expand (t : Tile) (size : Size) : Size :=
  if is_fullscreen (sizing_mode t) then (fmax size.1 (view_size t).1, fmax size.2 (view_size t).2)
  else match effective_border_width t with
       | Some width => ((size.1 + width * of_Z 2)%F, (size.2 + width * of_Z 2)%F)
       | None => size
       end.
Definition tile_size (t : Tile) : Size := expand t (window_size t).
Definition tile_expected_or_current_size (t : Tile) : Size := expand t (window_expected_or_current_size t).

Definition tile_width_for_window_width (size : f64) (t : Tile) : f64 :=
  if b_off (border t) then size else (size + b_width (border t) * of_Z 2)%F.
Definition tile_height_for_window_height (size : f64) (t : Tile) : f64 :=
  if b_off (border t) then size else (size + b_width (border t) * of_Z 2)%F.
Definition window_width_for_tile_width (size : f64) (t : Tile) : f64 :=
  if b_off (border t) then size else (size - b_width (border t) * of_Z 2)%F.
Definition window_height_for_tile_height (size : f64) (t : Tile) : f64 :=
  if b_off (border t) then size else (size - b_width (border t) * of_Z 2)%F.

Definition min_size_nonfullscreen (t : Tile) : Size :=
  let size := to_f64 (win_min_size (window t)) in
  if b_off (border t) then size
  else let width := b_width (border t) in
       ((fmax f1 size.1 + width * of_Z 2)%F, (fmax f1 size.2 + width * of_Z 2)%F).

Definition max_size_nonfullscreen (t : Tile) : Size :=
  let size := to_f64 (win_max_size (window t)) in
  if b_off (border t) then size
  else let grow x := if fltb f0 x then (x + b_width (border t) * of_Z 2)%F else x in (grow size.1, grow size.2).

(** ** Size requests *)
Definition request_tile_size (size : Size) (animate : bool) (transaction : option Transaction) (t : Tile) : Tile :=
  let size := if b_off (border t) then size
              else let width := b_width (border t) in
                   (fmax f1 (size.1 - width * of_Z 2)%F, fmax f1 (size.2 - width * of_Z 2)%F) in
  set_window (request_size (i32_floor size.1, i32_floor size.2) Normal animate transaction (window t)) t.
Definition request_maximized (size : Size) (animate : bool) (transaction : option Transaction) (t : Tile) : Tile :=
  set_window (request_size (i32_round size.1, i32_round size.2) Maximized animate transaction (window t)) t.
Definition request_fullscreen (animate : bool) (transaction : option Transaction) (t : Tile) : Tile :=
  set_window (request_size (i32_round (view_size t).1, i32_round (view_size t).2) Fullscreen animate transaction (window t)) t.

(** ** Animations *)
Definition move_offset cv (m : option MoveAnimation) : res f64 :=
  match m with Some m => v ← Animation.value cv (m_anim m); mret (f0 + m_from m * v)%F | None => mret f0 end.

Definition render_offset cv (t : Tile) : res Point :=
  x ← move_offset cv (move_x_animation t);
  y ← move_offset cv (move_y_animation t);
  mret (pair_add (x, y) (interactive_move_offset t)).

(** A move animation from [from], keeping the configuration of an ongoing one. *)
Definition restart_move cv (ongoing : option MoveAnimation) (from : f64) (config : Config.Animation) : res MoveAnimation :=
  a ← match ongoing with
      | Some m => Animation.restarted cv f1 f0 f0 (m_anim m)
      | None => Animation.new cv f1 f0 f0 config
      end;
  mret {| m_anim := a; m_from := from |}.

Definition animate_move_x_from_with_config cv (from : f64) (config : Config.Animation) (t : Tile) : res Tile :=
  current_offset ← render_offset cv t;
  m ← restart_move cv (move_x_animation t) (from + current_offset.1)%F config;
  mret (set_move_x_animation (Some m) t).
Definition animate_move_x_from cv (from : f64) (t : Tile) : res Tile :=
  animate_move_x_from_with_config cv from (window_movement (options t)) t.
Definition animate_move_y_from_with_config cv (from : f64) (config : Config.Animation) (t : Tile) : res Tile :=
  current_offset ← render_offset cv t;
  m ← restart_move cv (move_y_animation t) (from + current_offset.2)%F config;
  mret (set_move_y_animation (Some m) t).
Definition animate_move_y_from cv (from : f64) (t : Tile) : res Tile :=
  animate_move_y_from_with_config cv from (window_movement (options t)) t.
Definition animate_move_from cv (from : Point) (t : Tile) : res Tile :=
  t ← animate_move_x_from cv from.1 t; animate_move_y_from cv from.2 t.

(** Moves an ongoing animation by [offset], unless it is almost done. *)
Definition offset_move cv (offset : f64) (m : option MoveAnimation) : res (option MoveAnimation) :=
  match m with
  | Some m =>
      value ← Animation.value cv (m_anim m);
      mret (Some (if fgtb value (lit 1 1000)
                  then {| m_anim := m_anim m; m_from := (m_from m + offset / value)%F |} else m))
  | None => mret None
  end.
Definition offset_move_y_anim_current cv (offset : f64) (t : Tile) : res Tile :=
  m ← offset_move cv offset (move_y_animation t); mret (set_move_y_animation m t).

Definition stop_move_animations (t : Tile) : Tile := set_move_y_animation None (set_move_x_animation None t).

Definition animate_alpha cv (from to : f64) (config : Config.Animation) (t : Tile) : res Tile :=
  from ← fclamp from f0 f1;
  to ← fclamp to f0 f1;
  current ← match alpha_animation t with
            | Some a => Animation.clamped_value cv (a_anim a)
            | None => mret from
            end;
  a ← Animation.new cv current to f0 config;
  mret (set_alpha_animation (Some {| a_anim := a; hold_after_done := false |}) t).

Definition ensure_alpha_animates_to_1 (t : Tile) : Tile :=
  match alpha_animation t with
  | Some a => if fneb (Animation.to (a_anim a)) f1 then set_alpha_animation None t else t
  | None => t
  end.
Definition hold_alpha_animation_after_done (t : Tile) : Tile :=
  match alpha_animation t with
  | Some a => set_alpha_animation (Some {| a_anim := a_anim a; hold_after_done := true |}) t
  | None => t
  end.

Definition start_open_animation cv (t : Tile) : res Tile :=
  a ← Animation.new cv f0 f1 f0 (window_open (options t)); mret (set_open_animation (Some a) t).

(** Drops an animation that is done. *)
Definition keep_ongoing {A} cv (anim : A -> Animation.Animation) (keep : A -> bool) (o : option A) : res (option A) :=
  match o with
  | Some a => if keep a then mret o else done_ ← Animation.is_done cv (anim a); mret (if done_ : bool then None else o)
  | None => mret None
  end.

Definition advance_animations cv (t : Tile) : res Tile :=
  o ← keep_ongoing cv (fun a => a) (fun _ => false) (open_animation t);
  r ← keep_ongoing cv r_anim (fun _ => false) (resize_animation t);
  x ← keep_ongoing cv m_anim (fun _ => false) (move_x_animation t);
  y ← keep_ongoing cv m_anim (fun _ => false) (move_y_animation t);
  a ← keep_ongoing cv a_anim hold_after_done (alpha_animation t);
  mret (set_open_animation o (set_resize_animation r (set_move_x_animation x (set_move_y_animation y (set_alpha_animation a t))))).

(** ** The window changed *)

(** A progress towards one: the animated value, or the end it rests at. *)
Definition progress_from cv (o : option Animation.Animation) (rest : bool) : res f64 :=
  match o with
  | Some a => v ← Animation.clamped_value cv a; fclamp v f0 f1
  | None => mret (if rest then f1 else f0)
  end.

Definition lerp (from to val : f64) : f64 := (from + (to - from) * val)%F.
Definition lerp_size (from to : Size) (val : f64) : Size := (lerp from.1 to.1 val, lerp from.2 to.2 val).

(** The tile size of a snapshot taken before the change. *)
Definition snapshot_tile_size (prev : SizingMode) (size : Size) (t : Tile) : Size :=
  if is_fullscreen prev then (fmax size.1 (view_size t).1, fmax size.2 (view_size t).2)
  else if is_normal prev && negb (b_off (border t)) then
    let width := b_width (border t) in ((size.1 + width * of_Z 2)%F, (size.2 + width * of_Z 2)%F)
  else size.

(** Where a resize animation that starts from a snapshot starts from. *)
Definition resize_start cv (prev : SizingMode) (size : Size) (t : Tile) : res (Size * Size * f64 * f64) :=
  match resize_animation t with
  | Some r =>
      val ← Animation.value cv (r_anim r);
      fullscreen_from ← progress_from cv (r_fullscreen_progress r) (is_fullscreen prev);
      expanded_from ← progress_from cv (r_expanded_progress r) (negb (is_normal prev));
      mret (lerp_size (size_from r) size val, lerp_size (tile_size_from r) (snapshot_tile_size prev size t) val,
            fullscreen_from, expanded_from)
  | None =>
      mret (size, snapshot_tile_size prev size t, if is_fullscreen prev then f1 else f0, if is_normal prev then f0 else f1)
  end.

Definition max_change (a b : Size) : f64 := let d := pair_sub a b in fmax (fabs d.1) (fabs d.2).

Definition restart_if_changed cv (anim : Animation.Animation) (from to : f64) : res (option Animation.Animation) :=
  if fneb from to then a ← Animation.restarted cv from to f0 anim; mret (Some a) else mret None.

Definition start_resize cv (prev : SizingMode) (snapshot : Size) (t : Tile) : res Tile :=
  '(size_from, tile_size_from, fullscreen_from, expanded_from) ← resize_start cv prev snapshot t;
  let change := fmax (max_change (to_f64 (win_size (window t))) size_from) (max_change (tile_size t) tile_size_from) in
  if fgtb change RESIZE_ANIMATION_THRESHOLD then
    anim ← Animation.new cv f0 f1 f0 (window_resize (options t));
    fullscreen_progress ← restart_if_changed cv anim fullscreen_from (if is_fullscreen (sizing_mode t) then f1 else f0);
    expanded_progress ← restart_if_changed cv anim expanded_from (if is_normal (sizing_mode t) then f0 else f1);
    mret (set_resize_animation (Some {| r_anim := anim; size_from := size_from; tile_size_from := tile_size_from;
                                        r_fullscreen_progress := fullscreen_progress;
                                        r_expanded_progress := expanded_progress |}) t)
  else mret (set_resize_animation None t).

Definition update_window cv (t : Tile) : res Tile :=
  let prev := sizing_mode t in
  let t := set_sizing_mode (win_sizing_mode (window t)) t in
  let '(snapshot, w) := take_animation_snapshot (window t) in
  let t := set_window w t in
  t ← match snapshot with Some size => start_resize cv prev size t | None => mret t end;
  mret (set_border (resolve_border (scale t) (options t) (window t)) t).
End ops.
End Tile.
