(* ===== verification/TileInv.v ===== *)
(** * Invariants of tiles

    Every operation of a tile runs, and what it leaves as it is: the window's
    id, the size the tile takes, and its sizing mode. *)

From stdpp Require Import base numbers option list.
From Stdlib Require Import ZArith Lia.
From S2P Require Import Prelude.
From S2P Require Import Runs.
From S2P Require Import F64.
From S2P Require Import Duration.
From S2P Require Import Clock.
From S2P Require Import Animation.
From S2P Require Import AnimTotal.
From S2P Require Import LayoutTypes.
From S2P Require Import F64Sign.
From S2P Require Import Tile.

Local Open Scope Z_scope.

(** Rounding a length to physical pixels does not change its sign. *)
Class GeometryLaws `{!Geometry} := {
  physical_round_nonneg scale x : positive_finite scale = true -> nonneg x -> nonneg (physical_round scale x)
}.

(** Options as the configuration allows them: gaps and border widths are not
    negative, there is a preset of each kind, and animations do not panic. *)
Record options_ok `{!Libm, !Keyframe} (o : LayoutOptions) : Prop := {
  oo_gaps : nonneg (gaps o);
  oo_border : nonneg (b_width (opt_border o));
  oo_widths : preset_column_widths o <> [];
  oo_heights : preset_window_heights o <> [];
  oo_movement : config_total (window_movement o);
  oo_view : config_total (horizontal_view_movement o);
  oo_resize : config_total (window_resize o);
  oo_open : config_total (window_open o)
}.

Record win_ok `{!LayoutElement} (w : W) : Prop := {
  wo_w : 0 <= (win_size w).1;
  wo_h : 0 <= (win_size w).2;
  wo_border : forall x, br_width (rule_border (win_rules w)) = Some x -> nonneg x
}.

Lemma win_ok_same `{!LayoutElement} w w' : win_same w w' -> win_ok w -> win_ok w'.
Proof. intros [? Hs ? Hr] []. by constructor; rewrite ?Hs, ?Hr. Qed.

Definition opt_total `{!Libm, !Keyframe} {A} (anim : A -> Animation.Animation) (o : option A) : Prop :=
  forall a, o = Some a -> anim_total (anim a).

Lemma presets_eqb_length a b : presets_eqb a b = true -> length a = length b.
Proof. revert b. induction a as [|x a IH]; intros [|y b]; cbn; try done. rewrite andb_true_iff. intros [_ H]. f_equal. by apply IH. Qed.

Section inv.
Context {LE : LayoutElement} {LEL : LayoutElementLaws} {GE : Geometry} {GL : GeometryLaws} {LM : Libm} {KF : Keyframe}.
Implicit Types (cv : ClockView) (t : Tile.Tile).
Import Tile.

Definition progress_total (r : option ResizeAnimation) : Prop :=
  forall a, r = Some a ->
    anim_total (r_anim a) /\ opt_total (fun a => a) (r_fullscreen_progress a) /\ opt_total (fun a => a) (r_expanded_progress a).

Record tile_ok (o : LayoutOptions) (vs : Size) (sc : f64) t : Prop := {
  to_options : options t = o;
  to_view_size : view_size t = vs;
  to_scale : scale t = sc;
  to_win : win_ok (window t);
  to_border : nonneg (b_width (border t));
  to_open : opt_total (fun a => a) (open_animation t);
  to_resize : progress_total (resize_animation t);
  to_move_x : opt_total m_anim (move_x_animation t);
  to_move_y : opt_total m_anim (move_y_animation t);
  to_alpha : opt_total a_anim (alpha_animation t);
  to_width_idx : forall i, floating_preset_width_idx t = Some i -> (i < length (preset_column_widths (options t)))%nat;
  to_height_idx : forall i, floating_preset_height_idx t = Some i -> (i < length (preset_window_heights (options t)))%nat
}.

(** What the rest of the layout sees of a tile. *)
Record tile_same t t' : Prop := {
  ts_id : id t' = id t;
  ts_size : tile_size t' = tile_size t;
  ts_mode : sizing_mode t' = sizing_mode t
}.
Definition pending t : SizingMode := win_pending_sizing_mode (window t).
Definition tile_kept t t' : Prop := tile_same t t' /\ pending t' = pending t /\ window t' = window t.
(** The tile knows the mode its window is in. *)
Definition synced t : Prop := sizing_mode t = win_sizing_mode (window t).

#[global] Instance tile_same_preorder : PreOrder tile_same.
Proof. split; [by split|]. intros a b c [] []. split; congruence. Qed.
#[global] Instance tile_kept_preorder : PreOrder tile_kept.
Proof.
  split; [intros t; by split|]. intros a b c (H1 & Ha & Ha') (H2 & Hb & Hb').
  split; [by transitivity b|]. split; congruence.
Qed.

Lemma synced_kept t t' : tile_kept t t' -> synced t -> synced t'.
Proof. intros ([] & _ & Hw). unfold synced. congruence. Qed.

Lemma expand_nonneg o vs sc t s : tile_ok o vs sc t -> nonneg s.1 -> nonneg s.2 -> nonneg (expand t s).1 /\ nonneg (expand t s).2.
Proof.
  intros Ht H1 H2. unfold expand, effective_border_width.
  destruct (is_fullscreen _); cbn [fst snd]; [split; by apply fmax_nonneg_l|].
  destruct (negb _); [done|]. destruct (b_off _); [done|]. cbn [fst snd].
  assert (nonneg (b_width (border t) * of_Z 2)%F) by (apply fmul_nonneg; [by eapply to_border|by vm_compute]).
  split; by apply fadd_nonneg.
Qed.

Lemma tile_size_nonneg o vs sc t :
  tile_ok o vs sc t -> positive_finite sc = true -> nonneg (tile_size t).1 /\ nonneg (tile_size t).2.
Proof.
  intros Ht Hsc. eapply expand_nonneg; [done|..]; unfold window_size, round_size; cbn [fst snd];
    (apply physical_round_nonneg; [by rewrite (to_scale _ _ _ _ Ht)|apply of_Z_nonneg; apply Ht]).
Qed.

Lemma tile_size_unchanged t t' :
  win_size (window t') = win_size (window t) -> border t' = border t -> sizing_mode t' = sizing_mode t ->
  view_size t' = view_size t -> scale t' = scale t -> tile_size t' = tile_size t.
Proof.
  intros Hw Hb Hm Hv Hs. unfold tile_size, expand, effective_border_width, window_size. by rewrite Hw, Hb, Hm, Hv, Hs.
Qed.

(** ** Animations *)
Context (o : LayoutOptions) (vs : Size) (sc : f64) (Ho : options_ok o).
Context (cv : ClockView) (Hcv : cv_ok cv).
Definition kept t t' : Prop := tile_ok o vs sc t' /\ tile_kept t t'.

Lemma new_runs f g v c : config_total c -> runs (Animation.new cv f g v c) anim_total.
Proof. intros Hc. apply runs_ok. exact (Hc cv f g v Hcv). Qed.
Lemma value_runs a : anim_total a -> runs (Animation.value cv a) (fun _ => True).
Proof. intros Ha. apply runs_ok. destruct (anim_total_value a cv Ha Hcv) as [x Hx]. eauto. Qed.
Lemma clamped_runs a : anim_total a -> runs (Animation.clamped_value cv a) (fun _ => True).
Proof. intros Ha. apply runs_ok. destruct (anim_total_clamped a cv Ha Hcv) as [x Hx]. eauto. Qed.
Lemma done_runs a : anim_total a -> runs (Animation.is_done cv a) (fun _ => True).
Proof. intros Ha. apply runs_ok. destruct (anim_total_done a cv Ha Hcv) as [x Hx]. eauto. Qed.
Lemma restarted_runs a f g v : anim_total a -> runs (Animation.restarted cv f g v a) anim_total.
Proof. intros Ha. apply runs_ok. exact (anim_total_restarted a cv f g v Ha Hcv). Qed.
Lemma clamp_runs x lo hi : fleb lo hi = true -> runs (fclamp x lo hi) (fun _ => True).
Proof. intros H. apply runs_ok. destruct (fclamp_ok x lo hi H) as [y Hy]. eauto. Qed.

Lemma move_offset_runs m : opt_total m_anim m -> runs (move_offset cv m) (fun _ => True).
Proof. intros Hm. destruct m as [m|]; cbn; [|done]. runs (value_runs (m_anim m)); [by apply Hm|done]. Qed.

Lemma render_offset_runs t : tile_ok o vs sc t -> runs (render_offset cv t) (fun _ => True).
Proof.
  intros Ht. unfold render_offset. runs (move_offset_runs (move_x_animation t)); [apply Ht|]. intros x _ _.
  runs (move_offset_runs (move_y_animation t)); [apply Ht|]. done.
Qed.

Lemma restart_move_runs m f c : opt_total m_anim m -> config_total c -> runs (restart_move cv m f c) (fun m => anim_total (m_anim m)).
Proof.
  intros Hm Hc. unfold restart_move. eapply runs_bind with (R := anim_total).
  - destruct m as [m|]; [by apply restarted_runs, Hm|by apply new_runs].
  - intros a _ Ha. done.
Qed.

Lemma set_move_x_kept t m : tile_ok o vs sc t -> opt_total m_anim m -> kept t (set_move_x_animation m t).
Proof. intros [] Hm. split; [by constructor|by repeat split]. Qed.
Lemma set_move_y_kept t m : tile_ok o vs sc t -> opt_total m_anim m -> kept t (set_move_y_animation m t).
Proof. intros [] Hm. split; [by constructor|by repeat split]. Qed.
Lemma set_alpha_kept t a : tile_ok o vs sc t -> opt_total a_anim a -> kept t (set_alpha_animation a t).
Proof. intros [] Hm. split; [by constructor|by repeat split]. Qed.
Lemma set_open_kept t a : tile_ok o vs sc t -> opt_total (fun a => a) a -> kept t (set_open_animation a t).
Proof. intros [] Hm. split; [by constructor|by repeat split]. Qed.
Lemma set_resize_kept t a : tile_ok o vs sc t -> progress_total a -> kept t (set_resize_animation a t).
Proof. intros [] Hm. split; [by constructor|by repeat split]. Qed.
Lemma kept_refl t : tile_ok o vs sc t -> kept t t.
Proof. intros Ht. split; [done|reflexivity]. Qed.
Lemma kept_trans a b c : kept a b -> kept b c -> kept a c.
Proof. intros [_ H1] [? H2]. split; [done|by transitivity b]. Qed.
Lemma opt_total_Some {A} (f : A -> Animation.Animation) a : anim_total (f a) -> opt_total f (Some a).
Proof. by intros Ha ? [= <-]. Qed.
Lemma opt_total_None {A} (f : A -> Animation.Animation) : opt_total f None.
Proof. done. Qed.

Lemma animate_move_x_with_runs f c t :
  tile_ok o vs sc t -> config_total c -> runs (animate_move_x_from_with_config cv f c t) (kept t).
Proof.
  intros Ht Hc. unfold animate_move_x_from_with_config. runs (render_offset_runs t); [done|]. intros p _ _.
  runs restart_move_runs; [apply Ht|done|]. intros m _ Hm. apply set_move_x_kept; [done|by apply opt_total_Some].
Qed.
Lemma animate_move_y_with_runs f c t :
  tile_ok o vs sc t -> config_total c -> runs (animate_move_y_from_with_config cv f c t) (kept t).
Proof.
  intros Ht Hc. unfold animate_move_y_from_with_config. runs (render_offset_runs t); [done|]. intros p _ _.
  runs restart_move_runs; [apply Ht|done|]. intros m _ Hm. apply set_move_y_kept; [done|by apply opt_total_Some].
Qed.
Lemma animate_move_y_runs f t : tile_ok o vs sc t -> runs (animate_move_y_from cv f t) (kept t).
Proof. intros Ht. apply animate_move_y_with_runs; [done|]. rewrite (to_options _ _ _ _ Ht). apply Ho. Qed.
Lemma tile_animate_move_runs p t : tile_ok o vs sc t -> runs (animate_move_from cv p t) (kept t).
Proof.
  intros Ht. unfold animate_move_from. runs animate_move_x_with_runs; [done|rewrite (to_options _ _ _ _ Ht); apply Ho|].
  intros t1 _ H1. finish animate_move_y_runs; [apply H1|]. intros t2 _ H2. by eapply kept_trans.
Qed.

Lemma offset_move_runs x m : opt_total m_anim m -> runs (offset_move cv x m) (opt_total m_anim).
Proof.
  intros Hm. destruct m as [m|]; cbn; [|done]. runs (value_runs (m_anim m)); [by apply Hm|]. intros v _ _.
  apply runs_ret, opt_total_Some. pose proof (Hm m eq_refl). by destruct (fgtb _ _).
Qed.
Lemma offset_move_y_runs x t : tile_ok o vs sc t -> runs (offset_move_y_anim_current cv x t) (kept t).
Proof.
  intros Ht. unfold offset_move_y_anim_current. runs offset_move_runs; [apply Ht|]. intros m _ Hm. by apply set_move_y_kept.
Qed.

Lemma animate_alpha_runs f g c t : tile_ok o vs sc t -> config_total c -> runs (animate_alpha cv f g c t) (kept t).
Proof.
  intros Ht Hc. unfold animate_alpha. runs clamp_runs; [by vm_compute|]. intros f' _ _. runs clamp_runs; [by vm_compute|]. intros g' _ _.
  eapply runs_bind with (R := fun _ => True).
  { pose proof (to_alpha _ _ _ _ Ht) as Ha. destruct (alpha_animation t) as [a|]; [|done]. by apply clamped_runs, Ha. }
  intros x _ _. runs new_runs; [done|]. intros a _ Ha. apply set_alpha_kept; [done|by apply opt_total_Some].
Qed.

Lemma ensure_alpha_kept t : tile_ok o vs sc t -> kept t (ensure_alpha_animates_to_1 t).
Proof.
  intros Ht. unfold ensure_alpha_animates_to_1. destruct (alpha_animation t) as [a|]; [|by split; [|reflexivity]].
  destruct (fneb _ _); [by apply set_alpha_kept|done].
Qed.
Lemma stop_move_kept t : tile_ok o vs sc t -> kept t (stop_move_animations t).
Proof. intros Ht. eapply kept_trans; [by apply set_move_x_kept, opt_total_None|]. apply set_move_y_kept; [|apply opt_total_None]. by apply set_move_x_kept, opt_total_None. Qed.

Lemma start_open_runs t : tile_ok o vs sc t -> runs (start_open_animation cv t) (kept t).
Proof.
  intros Ht. unfold start_open_animation. runs new_runs; [rewrite (to_options _ _ _ _ Ht); apply Ho|].
  intros a _ Ha. apply set_open_kept; [done|by apply opt_total_Some].
Qed.

Lemma keep_ongoing_runs {A} (f : A -> Animation.Animation) keep (P : option A -> Prop) x :
  opt_total f x -> P x -> P None -> runs (keep_ongoing cv f keep x) P.
Proof.
  intros Hx HP HN. destruct x as [a|]; cbn; [|done]. apply runs_if; intros _; [done|].
  runs done_runs; [by apply Hx|]. intros [] _ _; done.
Qed.

Lemma advance_animations_runs t : tile_ok o vs sc t -> runs (advance_animations cv t) (kept t).
Proof.
  intros Ht. unfold advance_animations.
  runs (keep_ongoing_runs _ _ (opt_total (fun a => a))); [apply Ht..|done|]. intros x1 _ H1.
  runs (keep_ongoing_runs _ _ progress_total); [intros a Ha; by apply Ht in Ha as [? _]|apply Ht|done|]. intros x2 _ H2.
  runs (keep_ongoing_runs _ _ (opt_total m_anim)); [apply Ht..|done|]. intros x3 _ H3.
  runs (keep_ongoing_runs _ _ (opt_total m_anim)); [apply Ht..|done|]. intros x4 _ H4.
  runs (keep_ongoing_runs _ _ (opt_total a_anim)); [apply Ht..|done|]. intros x5 _ H5.
  apply runs_ret. destruct Ht. split; [by constructor|by repeat split].
Qed.

(** ** Size requests *)
Definition asked (m : SizingMode) t t' : Prop := tile_ok o vs sc t' /\ tile_same t t' /\ pending t' = m /\ (synced t -> synced t').

Lemma with_window_same t w :
  tile_ok o vs sc t -> win_same (window t) w -> tile_ok o vs sc (set_window w t) /\ tile_same t (set_window w t) /\ (synced t -> synced (set_window w t)).
Proof.
  intros Ht Hw. split_and!.
  - destruct Ht. constructor; try done. by eapply win_ok_same.
  - split; [apply Hw|by apply tile_size_unchanged; first [apply Hw|done]|done].
  - unfold synced. cbn. intros ->. symmetry. apply Hw.
Qed.

Lemma request_asked t s m a tr : tile_ok o vs sc t -> asked m t (set_window (request_size s m a tr (window t)) t).
Proof.
  intros Ht. destruct (with_window_same t _ Ht (request_size_same s m a tr (window t))) as (? & ? & ?).
  split_and!; try done. apply request_size_pending.
Qed.
Lemma request_once_asked t s a : tile_ok o vs sc t -> asked Normal t (set_window (request_size_once s a (window t)) t).
Proof.
  intros Ht. destruct (with_window_same t _ Ht (request_size_once_same s a (window t))) as (? & ? & ?).
  split_and!; try done. apply request_size_once_pending.
Qed.
Lemma request_tile_size_asked s a tr t : tile_ok o vs sc t -> asked Normal t (request_tile_size s a tr t).
Proof. apply request_asked. Qed.

Lemma cancel_resize_kept t :
  tile_ok o vs sc t -> asked (pending t) t (set_window (cancel_interactive_resize (window t)) t).
Proof.
  intros Ht. destruct (with_window_same t _ Ht (cancel_interactive_resize_same (window t))) as (? & ? & ?).
  split_and!; try done. apply cancel_interactive_resize_pending.
Qed.

(** ** Configuration and window changes *)
Lemma merged_border_nonneg w : win_ok w -> nonneg (b_width (border_merged_with (rule_border (win_rules w)) (opt_border o))).
Proof.
  intros Hw. cbn. pose proof (wo_border w Hw) as Hb. destruct (br_width _) as [x|]; cbn; [by apply Hb|apply Ho].
Qed.
Lemma resolve_border_nonneg w : positive_finite sc = true -> win_ok w -> nonneg (b_width (resolve_border sc o w)).
Proof. intros Hsc Hw. by apply round_max1_nonneg, merged_border_nonneg. Qed.

Lemma new_tile_ok w : win_ok w -> tile_ok o vs sc (new w vs sc o) /\ synced (new w vs sc o).
Proof. intros Hw. split; [|done]. constructor; try done. by apply merged_border_nonneg. Qed.

Lemma update_config_ok o1 vs1 sc1 t :
  positive_finite sc = true -> tile_ok o1 vs1 sc1 t -> tile_ok o vs sc (update_config vs sc o t).
Proof.
  intros Hsc []. constructor; try done; [by apply resolve_border_nonneg| |]; intros i; cbn;
    (destruct (presets_eqb _ _) eqn:E; [|done]); apply presets_eqb_length in E; rewrite <-E; auto.
Qed.

Lemma progress_runs x b : opt_total (fun a => a) x -> runs (progress_from cv x b) (fun _ => True).
Proof.
  intros Hx. destruct x as [a|]; [|done]. cbn. runs clamped_runs; [by apply Hx|]. intros v _ _. apply clamp_runs. by vm_compute.
Qed.

Lemma restart_if_changed_runs a f g :
  anim_total a -> runs (restart_if_changed cv a f g) (opt_total (fun a => a)).
Proof.
  intros Ha. unfold restart_if_changed. apply runs_if; intros _; [|done].
  runs restarted_runs; [done|]. intros b _ Hb. by apply runs_ret, opt_total_Some.
Qed.

Lemma resize_start_runs m s t : tile_ok o vs sc t -> runs (resize_start cv m s t) (fun _ => True).
Proof.
  intros Ht. pose proof (to_resize _ _ _ _ Ht) as Hr. unfold resize_start. destruct (resize_animation t) as [r|]; [|done].
  destruct (Hr r eq_refl) as (Ha & Hf & He). runs value_runs; [done|]. intros v _ _.
  runs progress_runs; [done|]. intros x _ _. runs progress_runs; [done|]. done.
Qed.

Lemma start_resize_runs m s t : tile_ok o vs sc t -> runs (start_resize cv m s t) (kept t).
Proof.
  intros Ht. unfold start_resize. runs resize_start_runs; [done|]. intros [[[s1 s2] p] q] _ _.
  apply runs_if; intros _; [|by apply set_resize_kept].
  runs new_runs; [rewrite (to_options _ _ _ _ Ht); apply Ho|]. intros a _ Ha.
  runs restart_if_changed_runs; [done|]. intros x _ Hx. runs restart_if_changed_runs; [done|]. intros y _ Hy.
  apply set_resize_kept; [done|]. by intros ? [= <-].
Qed.

(** After a window changed, its tile is up to date again. *)
Lemma tile_update_window_runs t :
  positive_finite sc = true -> tile_ok o vs sc t ->
  runs (update_window cv t) (fun t' => tile_ok o vs sc t' /\ synced t' /\ id t' = id t /\ pending t' = pending t).
Proof.
  intros Hsc Ht. unfold update_window.
  pose proof (take_animation_snapshot_same (window t)) as Hw. pose proof (take_animation_snapshot_pending (window t)) as Hp.
  cbn [window set_sizing_mode]. destruct (take_animation_snapshot (window t)) as [snap w]. cbn [snd] in Hw, Hp.
  set (t0 := set_window w _).
  assert (H0 : tile_ok o vs sc t0).
  { destruct Ht. constructor; try done. by eapply win_ok_same. }
  assert (Hs : synced t0) by (unfold synced; cbn; symmetry; apply Hw).
  eapply runs_bind with (R := kept t0).
  { destruct snap; [by apply start_resize_runs|by apply kept_refl]. }
  intros t1 _ [H1 Hk]. apply runs_ret. split_and!.
  - constructor; try (by destruct H1). cbn. rewrite (to_scale _ _ _ _ H1), (to_options _ _ _ _ H1).
    apply resolve_border_nonneg; [done|apply H1].
  - unfold synced. cbn. by apply (synced_kept t0 t1).
  - transitivity (id t0); [apply Hk|]. apply Hw.
  - transitivity (pending t0); [apply Hk|]. done.
Qed.
End inv.
