(* ===== verification/TileGeometry.v ===== *)
(** * Where the window of a tile is drawn (src/layout/tile.rs)

    The sizes a tile and its window have while a resize is animated, the offset of
    the window inside its tile, and what its border shows. *)

From stdpp Require Import base numbers option list strings.
From Stdlib Require Import ZArith Lia.
From S2P Require Import Prelude.
From S2P Require Import Runs.
From S2P Require Import F64.
From S2P Require Import Clock.
From S2P Require Import Animation.
From S2P Require Import AnimTotal.
From S2P Require Import LayoutTypes.
From S2P Require Import Tile.
From S2P Require Import TileInv.

Definition upscale (z : f64) (p : f64 * f64) : f64 * f64 := ((p.1 * z)%F, (p.2 * z)%F).
Definition downscale (z : f64) (p : f64 * f64) : f64 * f64 := ((p.1 / z)%F, (p.2 / z)%F).

Module TileGeometry.
Section ops.
Context {LE : LayoutElement} {GE : Geometry} {LM : Libm} {KF : Keyframe}.
Implicit Types (cv : ClockView) (t : Tile.Tile).

(** A size on its way from another one. *)
Definition animated cv (from : Tile.ResizeAnimation -> Size) (size : Size) t : res Size :=
  match Tile.resize_animation t with
  | Some r =>
      v ← Animation.value cv (Tile.r_anim r);
      let towards a b := fmax f1 (a + (b - a) * v)%F in
      mret (round_size (Tile.scale t) (towards (from r).1 size.1, towards (from r).2 size.2))
  | None => mret size
  end.
Definition animated_window_size cv t : res Size := animated cv Tile.size_from (Tile.window_size t) t.
Definition animated_tile_size cv t : res Size := animated cv Tile.tile_size_from (Tile.tile_size t) t.

Definition window_loc cv t : res Point :=
  window ← animated_window_size cv t;
  target ← animated_tile_size cv t;
  mret (round_size (Tile.scale t) ((f0 + (target.1 - window.1) / of_Z 2)%F, (f0 + (target.2 - window.2) / of_Z 2)%F)).

(** How far the tile is fullscreen, and maximized or fullscreen. *)
Definition progress cv (anim : Tile.ResizeAnimation -> option Animation.Animation) (full : bool) t : res f64 :=
  match r ← Tile.resize_animation t; anim r with
  | Some a => v ← Animation.clamped_value cv a; fclamp v f0 f1
  | None => mret (if full then f1 else f0)
  end.
Definition fullscreen_progress cv t : res f64 := progress cv Tile.r_fullscreen_progress (is_fullscreen (Tile.sizing_mode t)) t.
Definition expanded_progress cv t : res f64 := progress cv Tile.r_expanded_progress (negb (is_normal (Tile.sizing_mode t))) t.
Definition visual_border_width cv t : res (option f64) :=
  if b_off (Tile.border t) then mret None
  else
    p ← expanded_progress cv t;
    mret (if feqb p f1 then None else Some (b_width (Tile.border t))).
End ops.
End TileGeometry.
Import TileGeometry.

Section ok.
Context {LE : LayoutElement} {LEL : LayoutElementLaws} {GE : Geometry} {GL : GeometryLaws} {LM : Libm} {KF : Keyframe}.
Context (o : LayoutOptions) (vs : Size) (sc : f64) (cv : ClockView) (Hcv : cv_ok cv).
Implicit Types (t : Tile.Tile).

Lemma animated_runs from size t : tile_ok o vs sc t -> runs (animated cv from size t) (fun _ => True).
Proof.
  intros Ht. pose proof (to_resize _ _ _ _ Ht) as Hr. unfold animated. destruct (Tile.resize_animation t) as [r|]; [|by returns].
  destruct (Hr r eq_refl) as (Ha & _). apply runs_ok. destruct (anim_total_value _ cv Ha Hcv) as [v ->]. by eexists.
Qed.
Lemma window_loc_runs t : tile_ok o vs sc t -> runs (window_loc cv t) (fun _ => True).
Proof.
  intros Ht. unfold window_loc, animated_window_size, animated_tile_size. runs animated_runs; [exact Ht|]. intros w _ _.
  runs animated_runs; [exact Ht|]. intros s _ _. by returns.
Qed.
Lemma shown_progress_runs anim full t :
  tile_ok o vs sc t -> (forall r a, Tile.resize_animation t = Some r -> anim r = Some a -> anim_total a) ->
  runs (progress cv anim full t) (fun p => p = f0 \/ p = f1 \/ exists v, fclamp v f0 f1 = Ok p).
Proof.
  intros Ht Ha. unfold progress. destruct (Tile.resize_animation t) as [r|]; cbn; [|destruct full; returns; auto].
  destruct (anim r) as [a|] eqn:Ea; [|destruct full; returns; auto].
  apply runs_ok. destruct (anim_total_clamped a cv (Ha r a eq_refl Ea) Hcv) as [v ->]. cbn.
  destruct (fclamp_ok v f0 f1) as [y Hy]; [by vm_compute|]. exists y. eauto.
Qed.
End ok.
