(* ===== verification/Column.v ===== *)
(** * Columns of the scrolling layout

    A column of tiles (layout/scrolling.rs, [Column]) with the distribution of
    heights, presets, fullscreen and maximized states, tabbed display, and its
    animations; and the tab indicator's part in the layout
    (layout/tab_indicator.rs). *)

From stdpp Require Import base numbers option list.
From Stdlib Require Import ZArith Lia SpecFloat.
From S2P Require Import Prelude.
From S2P Require Import F64.
From S2P Require Import Duration.
From S2P Require Import Clock.
From S2P Require Import Animation.
From S2P Require Import LayoutTypes.
From S2P Require Import Tile.

Local Open Scope Z_scope.

(** ** Iterators *)

(** [NotNan::new(x).unwrap()] *)
Definition not_nan (x : f64) : res f64 := if is_nan x then Panic else Ok x.

(** [Iterator::max] and [min] of floats that are not NaN. *)
Definition max_of (xs : list f64) : option f64 :=
  match xs with [] => None | x :: xs => Some (foldl (fun a y => if fltb y a then a else y) x xs) end.
Definition min_of (xs : list f64) : option f64 :=
  match xs with [] => None | x :: xs => Some (foldl (fun a y => if fgtb a y then y else a) x xs) end.

(** [Iterator::sum] *)
Definition sum (xs : list f64) : f64 := foldl fadd (S754_zero true) xs.

(** [for (i, x) in xs.iter_mut().enumerate()] *)
Fixpoint iter_mut {A} (f : nat -> A -> res A) (i : nat) (xs : list A) : res (list A) :=
  match xs with
  | [] => Ok []
  | x :: xs => x ← f i x; xs ← iter_mut f (S i) xs; mret (x :: xs)
  end.

(** [Vec::sort_unstable_by] with [partial_cmp(..).unwrap()]: every element is
    compared, so a NaN panics unless it is alone. *)
Fixpoint sort_insert (x : f64) (xs : list f64) : list f64 :=
  match xs with [] => [x] | y :: ys => if fltb y x then y :: sort_insert x ys else x :: xs end.
Definition sort_floats (xs : list f64) : res (list f64) :=
  if (2 <=? length xs)%nat && existsb is_nan xs then Panic else Ok (foldr sort_insert [] xs).

(** [Iterator::rposition] *)
Definition rposition {A} (p : A -> bool) (xs : list A) : option nat :=
  i ← position p (reverse xs); Some (length xs - 1 - i)%nat.

(** ** The tab indicator *)
Module TabIndicator.
Record TabIndicator := { open_anim : option Animation.Animation; config : TabIndicatorConfig }.

Definition new (config : TabIndicatorConfig) : TabIndicator := {| open_anim := None; config := config |}.
Definition update_config (config : TabIndicatorConfig) (t : TabIndicator) : TabIndicator :=
  {| open_anim := open_anim t; config := config |}.

Section ops.
Context {LM : Libm}.
Definition advance_animations (cv : ClockView) (t : TabIndicator) : res TabIndicator :=
  match open_anim t with
  | Some a =>
      done_ ← Animation.is_done cv a;
      mret (if done_ : bool then {| open_anim := None; config := config t |} else t)
  | None => mret t
  end.
Definition start_open_animation (cv : ClockView) (anim : Config.Animation) (t : TabIndicator) : res TabIndicator :=
  a ← Animation.new cv f0 f1 f0 anim; mret {| open_anim := Some a; config := config t |}.
End ops.

Definition extra_size (tab_count : nat) (scale : f64) (t : TabIndicator) : Size :=
  let c := config t in
  if ti_off c || negb (place_within_column c) || (hide_when_single_tab c && bool_decide (tab_count = 1%nat)) then (f0, f0)
  else
    let width := round_logical_in_physical scale (ti_width c) in
    let gap := round_logical_in_physical scale (ti_gap c) in
    let size := fmax f0 (width + gap)%F in
    match ti_position c with TabLeft | TabRight => (size, f0) | TabTop | TabBottom => (f0, size) end.

Definition content_offset (tab_count : nat) (scale : f64) (t : TabIndicator) : Point :=
  match ti_position (config t) with
  | TabLeft | TabTop => extra_size tab_count scale t
  | TabRight | TabBottom => (f0, f0)
  end.
End TabIndicator.

(** ** Sizes *)
Inductive WindowHeight := HeightAuto (weight : f64) | HeightFixed (h : f64) | HeightPreset (idx : nat).
Definition auto_1 : WindowHeight := HeightAuto f1.
Definition is_auto (h : WindowHeight) : bool := match h with HeightAuto _ => true | _ => false end.

Inductive SizeChange :=
| SetFixed (f : Z) | SetProportion (p : f64) | AdjustFixed (delta : Z) | AdjustProportion (delta : f64).
Definition size_change_from (p : PresetSize) : SizeChange :=
  match p with PresetProportion prop => SetProportion (prop * of_Z 100)%F | PresetFixed f => SetFixed f end.

Inductive ResolvedSize := ResolvedTile (s : f64) | ResolvedWindow (s : f64).

Definition resolve_preset_size (preset : PresetSize) (o : LayoutOptions) (view_size extra_size : f64) : ResolvedSize :=
  match preset with
  | PresetProportion p => ResolvedTile ((view_size - gaps o) * p - gaps o - extra_size)%F
  | PresetFixed w => ResolvedWindow (of_Z w)
  end.

Definition column_width_from (p : PresetSize) : res ColumnWidth :=
  match p with
  | PresetProportion p => p ← fclamp p f0 (of_Z 10000); mret (Proportion p)
  | PresetFixed f => mret (Fixed (of_Z (Z.max 1 (Z.min 100000 f))))
  end.
Definition column_width_eqb (a b : ColumnWidth) : bool :=
  match a, b with
  | Proportion x, Proportion y => feqb x y
  | Fixed x, Fixed y => feqb x y
  | _, _ => false
  end.
(** The first preset equal to a width. *)
Fixpoint matching_preset (width : ColumnWidth) (presets : list PresetSize) : res (option nat) :=
  match presets with
  | [] => mret None
  | p :: presets =>
      w ← column_width_from p;
      if column_width_eqb width w then mret (Some 0%nat)
      else i ← matching_preset width presets; mret (option_map S i)
  end.

Record TileData := { td_height : WindowHeight; td_size : Size; resizing_by_left_edge : bool }.

(** ** Distributing the height

    The heights of the tiles of a column, once the non-automatic ones are
    known. *)
Section distribute.
Context {LE : LayoutElement} {GE : Geometry}.

(** The height of a tile that gets [auto]: the window's is rounded. *)
Definition rounded_height (auto : f64) (t : Tile.Tile) : f64 :=
  Tile.tile_height_for_window_height (fmax (fround (Tile.window_height_for_tile_height auto t)) f1) t.

(** Fixed heights within the constraints, and what they leave. *)
Fixpoint subtract_fixed (hs : list WindowHeight) (mins maxs : list Size) (height_left : f64) (auto_left : nat)
    : res (list WindowHeight * f64 * nat) :=
  match hs, mins, maxs with
  | h :: hs, min_size :: mins, max_size :: maxs =>
      let h := if feqb min_size.2 max_size.2 then HeightFixed min_size.2 else h in
      match h with
      | HeightFixed x =>
          let x := if fltb f0 max_size.2 then fmin x max_size.2 else x in
          let x := fmax x min_size.2 in
          auto_left ← usub auto_left 1;
          '(hs, l, n) ← subtract_fixed hs mins maxs (height_left - x)%F auto_left;
          mret (HeightFixed x :: hs, l, n)
      | _ =>
          '(hs, l, n) ← subtract_fixed hs mins maxs height_left auto_left;
          mret (h :: hs, l, n)
      end
  | _, _, _ => mret (hs, height_left, auto_left)
  end.

Definition weights (hs : list WindowHeight) : list f64 :=
  omap (fun h => match h with HeightAuto w => Some w | _ => None end) hs.

(** One pass over the automatic heights: the first tile whose share of the
    height is below its minimum, with its minimum and weight. *)
Fixpoint unsatisfied (i : nat) (hs : list WindowHeight) (ts : list Tile.Tile) (mins : list Size) (height_left total_weight : f64)
    : res (option (nat * f64 * f64)) :=
  match hs, ts, mins with
  | h :: hs, t :: ts, min_size :: mins =>
      match h with
      | HeightFixed _ => unsatisfied (S i) hs ts mins height_left total_weight
      | HeightPreset _ => Panic
      | HeightAuto weight =>
          let auto := (height_left * (weight / total_weight))%F in
          if fgtb min_size.2 auto then mret (Some (i, min_size.2, weight))
          else unsatisfied (S i) hs ts mins (height_left - rounded_height auto t)%F (total_weight - weight)%F
      end
  | _, _, _ => mret None
  end.

(** Gives every automatic height its share. *)
Fixpoint fill (hs : list WindowHeight) (ts : list Tile.Tile) (height_left total_weight : f64) (auto_left : nat)
    : res (list WindowHeight * nat) :=
  match hs, ts with
  | h :: hs, t :: ts =>
      match h with
      | HeightFixed _ => '(hs, n) ← fill hs ts height_left total_weight auto_left; mret (h :: hs, n)
      | HeightPreset _ => Panic
      | HeightAuto weight =>
          let auto := rounded_height (height_left * (weight / total_weight))%F t in
          auto_left ← usub auto_left 1;
          '(hs, n) ← fill hs ts (height_left - auto)%F (total_weight - weight)%F auto_left;
          mret (HeightFixed auto :: hs, n)
      end
  | _, _ => mret (hs, auto_left)
  end.

(** The outer loop. *)
Fixpoint distribute (fuel : nat) (hs : list WindowHeight) (ts : list Tile.Tile) (mins : list Size) (height_left total_weight : f64)
    (auto_left : nat) : res (list WindowHeight) :=
  match fuel with
  | O => Panic
  | S fuel =>
      if (auto_left =? 0)%nat then mret hs
      else
        o ← unsatisfied 0 hs ts mins height_left total_weight;
        match o with
        | Some (i, auto, weight) =>
            auto_left ← usub auto_left 1;
            distribute fuel (<[i := HeightFixed auto]> hs) ts mins (height_left - auto)%F (total_weight - weight)%F auto_left
        | None =>
            '(hs, n) ← fill hs ts height_left total_weight auto_left;
            _ ← rassert (n =? 0)%nat;
            mret hs
        end
  end.

Definition fixed_height (h : WindowHeight) : res f64 := match h with HeightFixed x => Ok x | _ => Panic end.
End distribute.

Module Column.
Section ops.
Context {LE : LayoutElement} {GE : Geometry} {LM : Libm} {KF : Keyframe}.
Implicit Types (cv : ClockView).

(** The width the column wants, and the states it is asked to be in, change at
    once; the tiles follow when their windows do. *)
Record Column := {
  tiles : list Tile.Tile;
  data : list TileData;
  active_tile_idx : nat;
  width : ColumnWidth;
  preset_width_idx : option nat;
  is_full_width : bool;
  is_pending_fullscreen : bool;
  is_pending_maximized : bool;
  display_mode : ColumnDisplay;
  tab_indicator : TabIndicator.TabIndicator;
  move_animation : option Tile.MoveAnimation;
  view_size : Size;
  working_area : Rect;
  parent_area : Rect;
  scale : f64;
  options : LayoutOptions
}.

Definition set_tiles (v : list Tile.Tile) (c : Column) : Column :=
  {| tiles := v; data := data c; active_tile_idx := active_tile_idx c; width := width c;
     preset_width_idx := preset_width_idx c; is_full_width := is_full_width c;
     is_pending_fullscreen := is_pending_fullscreen c; is_pending_maximized := is_pending_maximized c;
     display_mode := display_mode c; tab_indicator := tab_indicator c; move_animation := move_animation c;
     view_size := view_size c; working_area := working_area c; parent_area := parent_area c; scale := scale c;
     options := options c |}.
Definition set_data (v : list TileData) (c : Column) : Column :=
  {| tiles := tiles c; data := v; active_tile_idx := active_tile_idx c; width := width c;
     preset_width_idx := preset_width_idx c; is_full_width := is_full_width c;
     is_pending_fullscreen := is_pending_fullscreen c; is_pending_maximized := is_pending_maximized c;
     display_mode := display_mode c; tab_indicator := tab_indicator c; move_animation := move_animation c;
     view_size := view_size c; working_area := working_area c; parent_area := parent_area c; scale := scale c;
     options := options c |}.
Definition set_active_tile_idx (v : nat) (c : Column) : Column :=
  {| tiles := tiles c; data := data c; active_tile_idx := v; width := width c;
     preset_width_idx := preset_width_idx c; is_full_width := is_full_width c;
     is_pending_fullscreen := is_pending_fullscreen c; is_pending_maximized := is_pending_maximized c;
     display_mode := display_mode c; tab_indicator := tab_indicator c; move_animation := move_animation c;
     view_size := view_size c; working_area := working_area c; parent_area := parent_area c; scale := scale c;
     options := options c |}.
Definition set_width (v : ColumnWidth) (c : Column) : Column :=
  {| tiles := tiles c; data := data c; active_tile_idx := active_tile_idx c; width := v;
     preset_width_idx := preset_width_idx c; is_full_width := is_full_width c;
     is_pending_fullscreen := is_pending_fullscreen c; is_pending_maximized := is_pending_maximized c;
     display_mode := display_mode c; tab_indicator := tab_indicator c; move_animation := move_animation c;
     view_size := view_size c; working_area := working_area c; parent_area := parent_area c; scale := scale c;
     options := options c |}.
Definition set_preset_width_idx (v : option nat) (c : Column) : Column :=
  {| tiles := tiles c; data := data c; active_tile_idx := active_tile_idx c; width := width c; preset_width_idx := v;
     is_full_width := is_full_width c; is_pending_fullscreen := is_pending_fullscreen c;
     is_pending_maximized := is_pending_maximized c; display_mode := display_mode c;
     tab_indicator := tab_indicator c; move_animation := move_animation c; view_size := view_size c;
     working_area := working_area c; parent_area := parent_area c; scale := scale c; options := options c |}.
Definition set_is_full_width (v : bool) (c : Column) : Column :=
  {| tiles := tiles c; data := data c; active_tile_idx := active_tile_idx c; width := width c;
     preset_width_idx := preset_width_idx c; is_full_width := v; is_pending_fullscreen := is_pending_fullscreen c;
     is_pending_maximized := is_pending_maximized c; display_mode := display_mode c;
     tab_indicator := tab_indicator c; move_animation := move_animation c; view_size := view_size c;
     working_area := working_area c; parent_area := parent_area c; scale := scale c; options := options c |}.
Definition set_is_pending_fullscreen (v : bool) (c : Column) : Column :=
  {| tiles := tiles c; data := data c; active_tile_idx := active_tile_idx c; width := width c;
     preset_width_idx := preset_width_idx c; is_full_width := is_full_width c; is_pending_fullscreen := v;
     is_pending_maximized := is_pending_maximized c; display_mode := display_mode c;
     tab_indicator := tab_indicator c; move_animation := move_animation c; view_size := view_size c;
     working_area := working_area c; parent_area := parent_area c; scale := scale c; options := options c |}.
Definition set_is_pending_maximized (v : bool) (c : Column) : Column :=
  {| tiles := tiles c; data := data c; active_tile_idx := active_tile_idx c; width := width c;
     preset_width_idx := preset_width_idx c; is_full_width := is_full_width c;
     is_pending_fullscreen := is_pending_fullscreen c; is_pending_maximized := v; display_mode := display_mode c;
     tab_indicator := tab_indicator c; move_animation := move_animation c; view_size := view_size c;
     working_area := working_area c; parent_area := parent_area c; scale := scale c; options := options c |}.
Definition set_display_mode (v : ColumnDisplay) (c : Column) : Column :=
  {| tiles := tiles c; data := data c; active_tile_idx := active_tile_idx c; width := width c;
     preset_width_idx := preset_width_idx c; is_full_width := is_full_width c;
     is_pending_fullscreen := is_pending_fullscreen c; is_pending_maximized := is_pending_maximized c;
     display_mode := v; tab_indicator := tab_indicator c; move_animation := move_animation c;
     view_size := view_size c; working_area := working_area c; parent_area := parent_area c; scale := scale c;
     options := options c |}.
Definition set_tab_indicator (v : TabIndicator.TabIndicator) (c : Column) : Column :=
  {| tiles := tiles c; data := data c; active_tile_idx := active_tile_idx c; width := width c;
     preset_width_idx := preset_width_idx c; is_full_width := is_full_width c;
     is_pending_fullscreen := is_pending_fullscreen c; is_pending_maximized := is_pending_maximized c;
     display_mode := display_mode c; tab_indicator := v; move_animation := move_animation c;
     view_size := view_size c; working_area := working_area c; parent_area := parent_area c; scale := scale c;
     options := options c |}.
Definition set_move_animation (v : option Tile.MoveAnimation) (c : Column) : Column :=
  {| tiles := tiles c; data := data c; active_tile_idx := active_tile_idx c; width := width c;
     preset_width_idx := preset_width_idx c; is_full_width := is_full_width c;
     is_pending_fullscreen := is_pending_fullscreen c; is_pending_maximized := is_pending_maximized c;
     display_mode := display_mode c; tab_indicator := tab_indicator c; move_animation := v; view_size := view_size c;
     working_area := working_area c; parent_area := parent_area c; scale := scale c; options := options c |}.

(** ** Tile data *)
Definition td_update (t : Tile.Tile) (d : TileData) : TileData :=
  {| td_height := td_height d; td_size := Tile.tile_size t;
     resizing_by_left_edge := match interactive_resize_data (Tile.window t) with Some e => edge_left e | None => false end |}.
Definition td_new (t : Tile.Tile) (h : WindowHeight) : TileData :=
  td_update t {| td_height := h; td_size := (f0, f0); resizing_by_left_edge := false |}.
Definition set_height (h : WindowHeight) (d : TileData) : TileData :=
  {| td_height := h; td_size := td_size d; resizing_by_left_edge := resizing_by_left_edge d |}.

(** ** Queries *)
Definition pending_sizing_mode (c : Column) : SizingMode :=
  if is_pending_fullscreen c then Fullscreen else if is_pending_maximized c then Maximized else Normal.

Definition sizing_mode (c : Column) : SizingMode :=
  if existsb (fun t => is_fullscreen (Tile.sizing_mode t)) (tiles c) then Fullscreen
  else if existsb (fun t => is_maximized (Tile.sizing_mode t)) (tiles c) then Maximized
  else Normal.

Definition has_id (x : Id) (t : Tile.Tile) : bool := bool_decide (Tile.id t = x).
Definition contains (x : Id) (c : Column) : bool := existsb (has_id x) (tiles c).
Definition position_of (x : Id) (c : Column) : option nat := position (has_id x) (tiles c).

Definition tabbed (c : Column) : bool := bool_decide (display_mode c = DisplayTabbed).

Definition extra_size (c : Column) : Size :=
  if tabbed c then TabIndicator.extra_size (length (tiles c)) (scale c) (tab_indicator c) else (f0, f0).

Definition resolve_preset_width (p : PresetSize) (c : Column) : ResolvedSize :=
  resolve_preset_size p (options c) (working_area c).2.1 (extra_size c).1.
Definition resolve_preset_height (p : PresetSize) (c : Column) : ResolvedSize :=
  resolve_preset_size p (options c) (working_area c).2.2 (extra_size c).2.

Definition resolve_column_width (w : ColumnWidth) (c : Column) : f64 :=
  match w with
  | Proportion p => (((working_area c).2.1 - gaps (options c)) * p - gaps (options c) - (extra_size c).1)%F
  | Fixed w => w
  end.

(** The widest tile. *)
Definition tiles_width (c : Column) : res (option f64) :=
  ws ← mapM (fun d => not_nan (td_size d).1) (data c); mret (max_of ws).

Definition col_width (c : Column) : res f64 :=
  o ← tiles_width c;
  w ← unwrap o;
  mret (if tabbed c && is_normal (sizing_mode c)
        then (w + (TabIndicator.extra_size (length (tiles c)) (scale c) (tab_indicator c)).1)%F else w).

(** ** Positions of the tiles *)
Definition tiles_origin (c : Column) : Point :=
  match sizing_mode c with
  | Fullscreen => (f0, f0)
  | Maximized => (f0, (f0 + (parent_area c).1.2)%F)
  | Normal =>
      let origin := (f0, (f0 + ((working_area c).1.2 + gaps (options c)))%F) in
      if tabbed c then pair_add origin (TabIndicator.content_offset (length (tiles c)) (scale c) (tab_indicator c)) else origin
  end.

Fixpoint offsets_from (center is_tabbed : bool) (gaps tiles_width : f64) (origin : Point) (ds : list TileData) : list Point :=
  match ds with
  | [] => []
  | d :: ds =>
      let x := if center then (origin.1 + (tiles_width - (td_size d).1) / of_Z 2)%F
               else if resizing_by_left_edge d then (origin.1 + (tiles_width - (td_size d).1))%F
               else origin.1 in
      let next := if is_tabbed then origin else (origin.1, (origin.2 + ((td_size d).2 + gaps))%F) in
      (x, origin.2) :: offsets_from center is_tabbed gaps tiles_width next ds
  end.

Definition dummy_data : TileData := {| td_height := auto_1; td_size := (f0, f0); resizing_by_left_edge := false |}.

(** One more than there are tiles. *)
Definition tile_offsets (c : Column) : res (list Point) :=
  w ← tiles_width c;
  mret (offsets_from (bool_decide (center_focused_column (options c) = CenterAlways)) (tabbed c) (gaps (options c))
          (default f0 w) (tiles_origin c) (data c ++ [dummy_data])).
Definition tile_offset (i : nat) (c : Column) : res Point := os ← tile_offsets c; unwrap (os !! i).

(** ** Sizing the tiles *)
Definition min_sizes (c : Column) : list Size :=
  (fun t => let s := Tile.min_size_nonfullscreen t in (fmax s.1 f1, fmax s.2 f1)) <$> tiles c.
Definition max_sizes (c : Column) : list Size := Tile.max_size_nonfullscreen <$> tiles c.

Definition I32_MAX : f64 := of_Z (2 ^ 31 - 1).

(** The width all tiles are asked to have. *)
Definition requested_width (c : Column) : res f64 :=
  min_ws ← mapM (fun s : Size => not_nan s.1) (min_sizes c);
  min_width ← unwrap (max_of min_ws);
  max_ws ← mapM (fun s : Size => not_nan s.1) (List.filter (fun s : Size => fneb s.1 f0) (max_sizes c));
  let max_width := fmax (default I32_MAX (min_of max_ws)) min_width in
  let width := resolve_column_width (if is_full_width c then Proportion f1 else width c) c in
  mret (fmax (fmin width max_width) min_width).

Definition max_tile_height (c : Column) : f64 :=
  ((working_area c).2.2 - gaps (options c) * of_Z 2 - (extra_size c).2)%F.

(** The most a window with a height of its own can take among others. *)
Definition max_non_auto_window_height (c : Column) : option f64 :=
  if (1 <? length (tiles c))%nat && negb (tabbed c) then
    i ← position (fun d => negb (is_auto (td_height d))) (data c);
    t ← tiles c !! i;
    let others := (fun s : Size => (s.2 + gaps (options c))%F) <$> delete i (min_sizes c) in
    let height_left := (max_tile_height c - sum others)%F in
    Some (fmax f1 (fround (Tile.window_height_for_tile_height height_left t)))
  else None.

(** A preset height as the height of the window of [t], in range. *)
Definition preset_window_height (p : PresetSize) (t : Tile.Tile) (c : Column) : res f64 :=
  let h := match resolve_preset_height p c with
           | ResolvedTile h => Tile.window_height_for_tile_height h t
           | ResolvedWindow h => h
           end in
  fclamp (fround h) f1 (of_Z 100000).

(** The wanted height of a tile, from that of its window. *)
Definition tile_height (max_non_auto : option f64) (t : Tile.Tile) (d : TileData) (c : Column) : res WindowHeight :=
  match td_height d with
  | HeightAuto w => mret (HeightAuto w)
  | HeightFixed h =>
      let h := fmax (fround h) f1 in
      let h := fmin h (default (fround (Tile.window_height_for_tile_height (max_tile_height c) t)) max_non_auto) in
      mret (HeightFixed (Tile.tile_height_for_window_height h t))
  | HeightPreset idx =>
      preset ← index (preset_window_heights (options c)) idx;
      h ← preset_window_height preset t c;
      let h := match max_non_auto with Some m => fmin h m | None => h end in
      mret (HeightFixed (Tile.tile_height_for_window_height h t))
  end.

(** In tabbed mode all tiles have the height of the one fixed tile, if any. *)
Definition tabbed_heights (hs : list WindowHeight) (c : Column) : res (list WindowHeight) :=
  let tabbed_height := default (max_tile_height c) (head (omap (fun h => match h with HeightFixed x => Some x | _ => None end) hs)) in
  min_hs ← mapM (fun s : Size => not_nan s.2) (min_sizes c);
  min_height ← unwrap (max_of min_hs);
  let min_height := fmin (max_tile_height c) min_height in
  mret (replicate (length hs) (HeightFixed (fmax tabbed_height min_height))).

Definition requested_heights (c : Column) : res (list f64) :=
  let m := max_non_auto_window_height c in
  hs ← mapM (fun td : Tile.Tile * TileData => tile_height m td.1 td.2 c) (zip (tiles c) (data c));
  hs ← (if tabbed c then tabbed_heights hs c else mret hs);
  let gaps_left := (gaps (options c) * of_nat (length (tiles c) + 1))%F in
  let height_left := ((working_area c).2.2 - gaps_left)%F in
  '(hs, height_left, auto_left) ← subtract_fixed hs (min_sizes c) (max_sizes c) height_left (length (tiles c));
  hs ← distribute (S (length (tiles c))) hs (tiles c) (min_sizes c) height_left (sum (weights hs)) auto_left;
  mapM fixed_height hs.

(** In tabbed mode only the visible window takes part in the transaction. *)
Definition tile_transaction (tr : Transaction) (i : nat) (c : Column) : option Transaction :=
  if tabbed c && negb (bool_decide (i = active_tile_idx c)) then None else Some tr.

Definition request_sizes (animate : bool) (tr : Transaction) (width : f64) (hs : list f64) (c : Column) : list Tile.Tile :=
  imap (fun i (th : Tile.Tile * f64) => Tile.request_tile_size (width, th.2) animate (tile_transaction tr i c) th.1)
    (zip (tiles c) hs).

Definition update_tile_sizes_with_transaction (animate : bool) (tr : Transaction) (c : Column) : res Column :=
  match pending_sizing_mode c with
  | Fullscreen =>
      mret (set_tiles (imap (fun i t => Tile.request_fullscreen animate (tile_transaction tr i c) t) (tiles c)) c)
  | Maximized =>
      mret (set_tiles (imap (fun i t => Tile.request_maximized (parent_area c).2 animate (tile_transaction tr i c) t) (tiles c)) c)
  | Normal =>
      width ← requested_width c;
      hs ← requested_heights c;
      mret (set_tiles (request_sizes animate tr width hs c) c)
  end.
Definition update_tile_sizes (animate : bool) : Column -> res Column :=
  update_tile_sizes_with_transaction animate new_transaction.

(** Automatic heights that keep the tiles as they are: weights relative to the
    median height. *)
Definition convert_heights_to_auto (c : Column) : res Column :=
  let heights := (fun t => (Tile.tile_size t).2) <$> tiles c in
  sorted ← sort_floats heights;
  median ← index sorted (length sorted / 2);
  mret (set_data ((fun dh : TileData * f64 => set_height (HeightAuto (dh.2 / median)%F) dh.1) <$> zip (data c) heights) c).

(** ** Focus *)
Definition activate_idx (i : nat) (c : Column) : res (bool * Column) :=
  if bool_decide (active_tile_idx c = i) then mret (false, c)
  else
    t ← index (tiles c) i;
    mret (true, set_tiles (<[i := Tile.ensure_alpha_animates_to_1 t]> (tiles c)) (set_active_tile_idx i c)).
Definition activate_window (x : Id) (c : Column) : res Column :=
  i ← unwrap (position_of x c); '(_, c) ← activate_idx i c; mret c.

Definition focus_index (i : Z) (c : Column) : res Column :=
  last ← usub (length (tiles c)) 1; '(_, c) ← activate_idx (Z.to_nat (i - 1) `min` last)%nat c; mret c.
Definition focus_up (c : Column) : res (bool * Column) := activate_idx (active_tile_idx c - 1) c.
Definition focus_down (c : Column) : res (bool * Column) :=
  last ← usub (length (tiles c)) 1; activate_idx ((active_tile_idx c + 1) `min` last)%nat c.
Definition focus_top (c : Column) : res Column := '(_, c) ← activate_idx 0 c; mret c.
Definition focus_bottom (c : Column) : res Column :=
  last ← usub (length (tiles c)) 1; '(_, c) ← activate_idx last c; mret c.

(** ** Animations *)
Definition animate_move_from_with_config cv (from : f64) (config : Config.Animation) (c : Column) : res Column :=
  current ← match move_animation c with
            | Some m => v ← Animation.value cv (Tile.m_anim m); mret (Tile.m_from m * v)%F
            | None => mret f0
            end;
  a ← Animation.new cv f1 f0 f0 config;
  mret (set_move_animation (Some {| Tile.m_anim := a; Tile.m_from := (from + current)%F |}) c).
Definition animate_move_from cv (from : f64) (c : Column) : res Column :=
  animate_move_from_with_config cv from (window_movement (options c)) c.
Definition offset_move_anim_current cv (offset : f64) (c : Column) : res Column :=
  m ← Tile.offset_move cv offset (move_animation c); mret (set_move_animation m c).

Definition advance_animations cv (c : Column) : res Column :=
  m ← Tile.keep_ongoing cv Tile.m_anim (fun _ => false) (move_animation c);
  ts ← mapM (Tile.advance_animations cv) (tiles c);
  ti ← TabIndicator.advance_animations cv (tab_indicator c);
  mret (set_tab_indicator ti (set_tiles ts (set_move_animation m c))).

Definition update_tile (i : nat) (f : Tile.Tile -> res Tile.Tile) (c : Column) : res Column :=
  t ← index (tiles c) i; t ← f t; mret (set_tiles (<[i := t]> (tiles c)) c).

(** ** Tiles coming in *)
Definition add_tile_at cv (idx : nat) (t : Tile.Tile) (c : Column) : res Column :=
  let t := Tile.update_config (view_size c) (scale c) (options c) t in
  os ← tile_offsets c;
  let prev := take (length (tiles c)) os in
  let c := if tabbed c then c else set_is_pending_maximized false (set_is_pending_fullscreen false c) in
  ds ← vec_insert idx (td_new t auto_1) (data c);
  ts ← vec_insert idx t (tiles c);
  c ← update_tile_sizes true (set_tiles ts (set_data ds c));
  prev ← vec_insert idx (f0, f0) prev;
  os ← tile_offsets c;
  ts ← iter_mut (fun i (tp : Tile.Tile * (Point * Point)) =>
         if bool_decide (i = idx) then mret tp
         else t ← Tile.animate_move_from cv (pair_sub tp.2.2 tp.2.1) tp.1; mret (t, tp.2))
       0 (zip (tiles c) (zip os prev));
  mret (set_tiles ts.*1 c).

Definition set_fullscreen (b : bool) (c : Column) : res Column :=
  if Bool.eqb (is_pending_fullscreen c) b then mret c
  else
    _ ← rassert (negb b || bool_decide (length (tiles c) = 1%nat) || tabbed c);
    update_tile_sizes true (set_is_pending_fullscreen b c).
Definition set_maximized (b : bool) (c : Column) : res Column :=
  if Bool.eqb (is_pending_maximized c) b then mret c
  else
    _ ← rassert (negb b || bool_decide (length (tiles c) = 1%nat) || tabbed c);
    update_tile_sizes true (set_is_pending_maximized b c).

Definition new_with_tile cv (t : Tile.Tile) (view_size : Size) (working_area parent_area : Rect) (scale : f64)
    (width : ColumnWidth) (is_full_width : bool) : res Column :=
  let o := Tile.options t in
  let display := default (default_column_display o) (rule_default_column_display (win_rules (Tile.window t))) in
  preset ← matching_preset width (preset_column_widths o);
  let c := {| tiles := []; data := []; active_tile_idx := 0; width := width; preset_width_idx := preset;
              is_full_width := is_full_width; is_pending_fullscreen := false; is_pending_maximized := false;
              display_mode := display; tab_indicator := TabIndicator.new (opt_tab_indicator o); move_animation := None;
              view_size := view_size; working_area := working_area; parent_area := parent_area; scale := scale; options := o |} in
  let mode := win_pending_sizing_mode (Tile.window t) in
  c ← add_tile_at cv 0 t c;
  c ← match mode with Normal => mret c | Maximized => set_maximized true c | Fullscreen => set_fullscreen true c end;
  if bool_decide (display = DisplayTabbed) && negb (hide_when_single_tab (opt_tab_indicator (options c))) && is_normal (sizing_mode c)
  then ti ← TabIndicator.start_open_animation cv (window_movement (options c)) (tab_indicator c); mret (set_tab_indicator ti c)
  else mret c.

(** ** Configuration and window changes *)
Definition update_config (view_size' : Size) (working_area' parent_area' : Rect) (scale' : f64) (o : LayoutOptions) (c : Column)
    : res Column :=
  let moved := negb (pair_eqb (view_size c) view_size') || negb (rect_eqb (working_area c) working_area')
               || negb (rect_eqb (parent_area c) parent_area') in
  let old := options c in
  let presets_kept := presets_eqb (preset_window_heights old) (preset_window_heights o) in
  let changed := negb presets_kept || fneb (gaps old) (gaps o)
                 || negb (Bool.eqb (b_off (opt_border old)) (b_off (opt_border o)))
                 || fneb (b_width (opt_border old)) (b_width (opt_border o))
                 || negb (tab_indicator_eqb (opt_tab_indicator old) (opt_tab_indicator o)) in
  let c := if presets_eqb (preset_column_widths old) (preset_column_widths o) then c else set_preset_width_idx None c in
  c ← (if presets_kept then mret c else convert_heights_to_auto c);
  let ts := Tile.update_config view_size' scale' o <$> tiles c in
  let c := {| tiles := ts; data := zip_with td_update ts (data c); active_tile_idx := active_tile_idx c; width := width c;
              preset_width_idx := preset_width_idx c; is_full_width := is_full_width c;
              is_pending_fullscreen := is_pending_fullscreen c; is_pending_maximized := is_pending_maximized c;
              display_mode := display_mode c; tab_indicator := TabIndicator.update_config (opt_tab_indicator o) (tab_indicator c);
              move_animation := move_animation c; view_size := view_size'; working_area := working_area';
              parent_area := parent_area'; scale := scale'; options := o |} in
  if moved || changed then update_tile_sizes false c else mret c.

Definition update_window cv (x : Id) (c : Column) : res Column :=
  i ← unwrap (position_of x c);
  t ← index (tiles c) i;
  d ← index (data c) i;
  let prev_height := (td_size d).2 in
  t ← Tile.update_window cv t;
  let d := td_update t d in
  let c := set_tiles (<[i := t]> (tiles c)) (set_data (<[i := d]> (data c)) c) in
  let offset := (prev_height - (td_size d).2)%F in
  if negb (tabbed c) && fneb offset f0 then
    ts ← iter_mut (fun j t' =>
           if (i <? j)%nat then
             match Tile.resize_animation t with
             | Some _ => Tile.animate_move_y_from_with_config cv offset (window_resize (options c)) t'
             | None => Tile.offset_move_y_anim_current cv offset t'
             end
           else mret t') 0 (tiles c);
    mret (set_tiles ts c)
  else mret c.

Definition start_open_animation cv (x : Id) (c : Column) : res (bool * Column) :=
  match position_of x c with
  | None => mret (false, c)
  | Some i =>
      c ← update_tile i (Tile.start_open_animation cv) c;
      c ← (if tabbed c && is_normal (sizing_mode c) && bool_decide (length (tiles c) = 1%nat)
              && negb (hide_when_single_tab (TabIndicator.config (tab_indicator c)))
           then ti ← TabIndicator.start_open_animation cv (window_open (options c)) (tab_indicator c); mret (set_tab_indicator ti c)
           else mret c);
      mret (true, c)
  end.

(** ** Moving tiles *)
Definition move_tile cv (new_idx : nat) (c : Column) : res Column :=
  let i := active_tile_idx c in
  os ← tile_offsets c;
  active ← unwrap (os !! i);
  next ← unwrap (os !! S i);
  ts ← vec_swap i new_idx (tiles c);
  ds ← vec_swap i new_idx (data c);
  let c := set_active_tile_idx new_idx (set_data ds (set_tiles ts c)) in
  new_active ← tile_offset new_idx c;
  c ← update_tile new_idx (Tile.animate_move_y_from cv (active.2 - new_active.2)%F) c;
  if (new_idx <? i)%nat then update_tile (new_idx + 1) (Tile.animate_move_y_from cv (active.2 - next.2)%F) c
  else j ← usub new_idx 1; update_tile j (Tile.animate_move_y_from cv (next.2 - active.2)%F) c.
Definition move_up cv (c : Column) : res (bool * Column) :=
  let new_idx := (active_tile_idx c - 1)%nat in
  if bool_decide (active_tile_idx c = new_idx) then mret (false, c)
  else c ← move_tile cv new_idx c; mret (true, c).
Definition move_down cv (c : Column) : res (bool * Column) :=
  last ← usub (length (tiles c)) 1;
  let new_idx := ((active_tile_idx c + 1) `min` last)%nat in
  if bool_decide (active_tile_idx c = new_idx) then mret (false, c)
  else c ← move_tile cv new_idx c; mret (true, c).

(** ** Widths and heights *)
Definition MAX_PX : f64 := of_Z 100000.
Definition MAX_F : f64 := of_Z 10000.

Definition set_column_width (change : SizeChange) (tile_idx : option nat) (animate : bool) (c : Column) : res Column :=
  let current := if is_full_width c || is_pending_maximized c then Proportion f1 else width c in
  let current_px := resolve_column_width current c in
  w ← match change, current with
      | SetFixed fixed, _ =>
          t ← index (tiles c) (default (active_tile_idx c) tile_idx);
          w ← fclamp (Tile.tile_width_for_window_width (of_Z fixed) t) f1 MAX_PX; mret (Fixed w)
      | SetProportion p, _ => p ← fclamp (p / of_Z 100)%F f0 MAX_F; mret (Proportion p)
      | AdjustFixed delta, _ => w ← fclamp (current_px + of_Z delta)%F f1 MAX_PX; mret (Fixed w)
      | AdjustProportion delta, Proportion p => p ← fclamp (p + delta / of_Z 100)%F f0 MAX_F; mret (Proportion p)
      | AdjustProportion delta, Fixed _ =>
          let full := ((working_area c).2.1 - gaps (options c))%F in
          let p := if feqb full f0 then f1 else ((current_px + gaps (options c) + (extra_size c).1) / full)%F in
          p ← fclamp (p + delta / of_Z 100)%F f0 MAX_F; mret (Proportion p)
      end;
  update_tile_sizes animate
    (set_is_pending_maximized false (set_is_full_width false (set_preset_width_idx None (set_width w c)))).

(** The next preset in a direction, or the first one beyond the current size. *)
Definition next_preset {A} (preset_idx : option nat) (forwards : bool) (larger smaller : A -> bool) (resolved : list A) : res nat :=
  let len := length resolved in
  match preset_idx with
  | Some idx =>
      step ← (if forwards then mret 1%nat else usub len 1);
      if bool_decide (len = 0%nat) then Panic else mret ((idx + step) mod len)%nat
  | None =>
      if forwards then mret (default 0%nat (position larger resolved))
      else match rposition smaller resolved with Some i => mret i | None => usub len 1 end
  end.

Definition toggle_width (tile_idx : option nat) (forwards : bool) (c : Column) : res Column :=
  let i := default (active_tile_idx c) tile_idx in
  let preset_idx := if is_full_width c || is_pending_maximized c then None else preset_width_idx c in
  let resolved := (fun p => resolve_preset_width p c) <$> preset_column_widths (options c) in
  idx ← match preset_idx with
        | Some _ => next_preset preset_idx forwards (fun _ => false) (fun _ => false) resolved
        | None =>
            t ← index (tiles c) i;
            let win := (Tile.window_expected_or_current_size t).1 in
            let tile := (Tile.tile_expected_or_current_size t).1 in
            next_preset None forwards
              (fun r => match r with ResolvedTile s => fltb (tile + f1)%F s | ResolvedWindow s => fltb (win + f1)%F s end)
              (fun r => match r with ResolvedTile s => fltb (s + f1)%F tile | ResolvedWindow s => fltb (s + f1)%F win end) resolved
        end;
  preset ← index (preset_column_widths (options c)) idx;
  c ← set_column_width (size_change_from preset) (Some i) true c;
  mret (set_preset_width_idx (Some idx) c).

Definition toggle_full_width (c : Column) : res Column :=
  update_tile_sizes true
    (if is_pending_maximized c then set_is_full_width false (set_is_pending_maximized false c)
     else set_is_full_width (negb (is_full_width c)) c).

(** Before a tile gets a height of its own, the others become automatic. *)
Definition prepare_height (i : nat) (c : Column) : res Column :=
  d ← index (data c) i; if is_auto (td_height d) then convert_heights_to_auto c else mret c.

Definition set_tile_height (i : nat) (h : WindowHeight) (c : Column) : res Column :=
  d ← index (data c) i; mret (set_data (<[i := set_height h d]> (data c)) c).

Definition set_window_height (change : SizeChange) (tile_idx : option nat) (animate : bool) (c : Column) : res Column :=
  let i := default (active_tile_idx c) tile_idx in
  c ← prepare_height i c;
  d ← index (data c) i;
  t ← index (tiles c) i;
  let current_window_px := match td_height d with HeightFixed h => h | _ => (Tile.window_size t).2 end in
  let current_tile_px := Tile.tile_height_for_window_height current_window_px t in
  let working_size := (working_area c).2.2 in
  let g := gaps (options c) in
  let extra := (extra_size c).2 in
  let full := (working_size - g)%F in
  let current_prop := if feqb full f0 then f1 else ((current_tile_px + g) / full)%F in
  let of_prop p := Tile.window_height_for_tile_height ((working_size - g) * p - g - extra)%F t in
  let h := match change with
           | SetFixed fixed => of_Z fixed
           | SetProportion p => of_prop (p / of_Z 100)%F
           | AdjustFixed delta => (current_window_px + of_Z delta)%F
           | AdjustProportion delta => of_prop (current_prop + delta / of_Z 100)%F
           end in
  let min_height_taken :=
    if tabbed c then f0
    else sum ((fun t => (fmax f1 (Tile.min_size_nonfullscreen t).2 + g)%F) <$> delete i (tiles c)) in
  let height_left := (working_size - extra - g - min_height_taken - g)%F in
  let height_left := fmax f1 (Tile.window_height_for_tile_height height_left t) in
  let h := fmin height_left h in
  let min_h := (win_min_size (Tile.window t)).2 in
  let max_h := (win_max_size (Tile.window t)).2 in
  let h := if 0 <? max_h then fmin h (of_Z max_h) else h in
  let h := if 0 <? min_h then fmax h (of_Z min_h) else h in
  h ← fclamp h f1 MAX_PX;
  c ← set_tile_height i (HeightFixed h) c;
  update_tile_sizes animate (set_is_pending_maximized false c).

Definition reset_window_height (tile_idx : option nat) (c : Column) : res Column :=
  c ← (if tabbed c then mret (set_data (set_height auto_1 <$> data c) c)
       else set_tile_height (default (active_tile_idx c) tile_idx) auto_1 c);
  update_tile_sizes true c.

(** The first preset beyond the current height of tile [i]. *)
Definition toggle_height_search (i : nat) (d : TileData) (forwards : bool) (c : Column) : res nat :=
  t ← index (tiles c) i;
  resolved ← mapM (fun p => h ← preset_window_height p t c; mret (Tile.tile_height_for_window_height h t))
               (preset_window_heights (options c));
  let current := (td_size d).2 in
  next_preset None forwards (fun r => fltb (current + f1)%F r) (fun r => fltb (r + f1)%F current) resolved.

Definition toggle_window_height (tile_idx : option nat) (forwards : bool) (c : Column) : res Column :=
  let i := default (active_tile_idx c) tile_idx in
  c ← prepare_height i c;
  d ← index (data c) i;
  idx ← match td_height d with
        | HeightPreset idx =>
            if negb (is_pending_maximized c)
            then next_preset (Some idx) forwards (fun _ => false) (fun _ => false) (preset_window_heights (options c))
            else toggle_height_search i d forwards c
        | _ => toggle_height_search i d forwards c
        end;
  c ← set_tile_height i (HeightPreset idx) c;
  update_tile_sizes true (set_is_pending_maximized false c).

(** ** Display mode *)
Definition set_column_display cv (display : ColumnDisplay) (c : Column) : res Column :=
  if bool_decide (display_mode c = display) then mret c
  else
    let prev_origin := tiles_origin c in
    let new_origin := tiles_origin (set_display_mode display c) in
    let origin_delta := pair_sub prev_origin new_origin in
    let c := set_display_mode DisplayNormal c in
    os ← tile_offsets c;
    ts ← iter_mut (fun _ (tp : Tile.Tile * Point) =>
           let y := (tp.2.2 - prev_origin.2)%F in
           let y := if bool_decide (display = DisplayNormal) then (y * of_Z (-1))%F else y in
           t ← Tile.animate_move_from cv (origin_delta.1, (origin_delta.2 + y)%F) tp.1; mret (t, tp.2))
         0 (zip (tiles c) os);
    let to_tabbed := bool_decide (display = DisplayTabbed) in
    ts ← iter_mut (fun i t =>
           if bool_decide (i = active_tile_idx c) then mret t
           else Tile.animate_alpha cv (if to_tabbed then f1 else f0) (if to_tabbed then f0 else f1) (window_movement (options c)) t)
         0 ts.*1;
    let c := set_tiles ts c in
    c ← (if to_tabbed
         then ti ← TabIndicator.start_open_animation cv (window_movement (options c)) (tab_indicator c); mret (set_tab_indicator ti c)
         else mret c);
    update_tile_sizes true (set_display_mode display c).
End ops.
End Column.
