(* ===== verification/ColumnHeights.v ===== *)
(** * Heights of the tiles of a column

    The loops that distribute the height of a column among its tiles
    (layout/scrolling.rs, [Column::update_tile_sizes_with_transaction]): they
    end, never reach a panic, and what they give each tile. *)

From stdpp Require Import base numbers option list.
From Stdlib Require Import ZArith Lia SpecFloat.
From S2P Require Import Prelude.
From S2P Require Import Runs.
From S2P Require Import F64.
From S2P Require Import Duration.
From S2P Require Import Clock.
From S2P Require Import Animation.
From S2P Require Import AnimTotal.
From S2P Require Import LayoutTypes.
From S2P Require Import F64Sign.
From S2P Require Import Tile.
From S2P Require Import TileInv.
From S2P Require Import Column.

Section distribute.
Context {LE : LayoutElement} {GE : Geometry}.
Implicit Types (hs : list WindowHeight) (ts : list Tile.Tile) (mins maxs : list Size).

Definition no_preset (h : WindowHeight) : Prop := match h with HeightPreset _ => False | _ => True end.
Definition is_fixed (h : WindowHeight) : Prop := exists x, h = HeightFixed x.

Lemma weights_cons h hs : weights (h :: hs) = match h with HeightAuto w => w :: weights hs | _ => weights hs end.
Proof. by destruct h. Qed.

Lemma length_weights hs : length (weights hs) <= length hs.
Proof. induction hs as [|h hs IH]; [done|]. rewrite weights_cons. destruct h; cbn [length]; lia. Qed.

(** A height within the constraints of its tile. *)
Definition constrained (min_h max_h x : f64) : f64 := fmax (if fltb f0 max_h then fmin x max_h else x) min_h.

(** What [subtract_fixed] makes of one height. *)
Definition constrain (h : WindowHeight) (min_size max_size : Size) : WindowHeight :=
  match (if feqb min_size.2 max_size.2 then HeightFixed min_size.2 else h) with
  | HeightFixed x => HeightFixed (constrained min_size.2 max_size.2 x)
  | h => h
  end.

(** The heights keep their order; each fixed one is constrained, and what
    remains counted are the automatic ones. *)
Lemma subtract_fixed_runs hs mins maxs h n :
  length mins = length hs -> length maxs = length hs -> length hs <= n ->
  runs (subtract_fixed hs mins maxs h n) (fun '(hs', _, n') =>
    length hs' = length hs /\ (Forall no_preset hs -> Forall no_preset hs')
    /\ (Forall no_preset hs -> n' + length hs = n + length (weights hs'))
    /\ (forall i h mn mx, hs !! i = Some h -> mins !! i = Some mn -> maxs !! i = Some mx -> hs' !! i = Some (constrain h mn mx))).
Proof.
  revert mins maxs h n. induction hs as [|x hs IH]; intros [|mn mins] [|mx maxs] h n; try done; intros Hmin Hmax Hn.
  cbn [length] in *. cbn [subtract_fixed].
  pose proof (eq_refl (constrain x mn mx)) as Hc. unfold constrain at 2 in Hc.
  destruct (if feqb mn.2 mx.2 then HeightFixed mn.2 else x) as [w|y|p] eqn:Eh.
  - runs (IH mins maxs h n); [lia..|]. intros [[hs' l] n'] _ (Hl & Hp & Hk & Hi). returns. split_and!.
    + cbn. lia.
    + intros [Hx Hxs]%Forall_cons. constructor; auto. done.
    + intros [Hx Hxs]%Forall_cons. specialize (Hk Hxs). rewrite weights_cons. cbn [length]. lia.
    + intros [|i] h' mn' mx' H1 H2 H3; [by injection H1 as ->; injection H2 as ->; injection H3 as ->; rewrite Hc|by eapply Hi].
  - step usub_ok; [lia|].
    runs (IH mins maxs); [lia..|]. intros [[hs' l] n'] _ (Hl & Hp & Hk & Hi). returns. split_and!.
    + cbn. lia.
    + intros [Hx Hxs]%Forall_cons. constructor; auto. done.
    + intros [Hx Hxs]%Forall_cons. specialize (Hk Hxs). rewrite weights_cons. cbn [length]. lia.
    + intros [|i] h' mn' mx' H1 H2 H3; [by injection H1 as ->; injection H2 as ->; injection H3 as ->; rewrite Hc|by eapply Hi].
  - assert (~ no_preset x) by (revert Eh; destruct (feqb _ _); [done|intros -> []]).
    runs (IH mins maxs h n); [lia..|]. intros [[hs' l] n'] _ (Hl & Hp & Hk & Hi). returns. split_and!.
    + cbn. lia.
    + by intros [Hx Hxs]%Forall_cons.
    + by intros [Hx Hxs]%Forall_cons.
    + intros [|i] h' mn' mx' H1 H2 H3; [by injection H1 as ->; injection H2 as ->; injection H3 as ->; rewrite Hc|by eapply Hi].
Qed.

(** The checking pass: without a tile to constrain, ... *)
Lemma unsatisfied_runs k hs ts mins h w :
  length ts = length hs -> length mins = length hs -> Forall no_preset hs ->
  runs (unsatisfied k hs ts mins h w) (fun r =>
    match r with
    | Some (i, x, weight) => exists j mn, i = k + j /\ hs !! j = Some (HeightAuto weight) /\ mins !! j = Some mn /\ x = mn.2
    | None => True
    end).
Proof.
  revert k ts mins h w. induction hs as [|x hs IH]; intros k [|t ts] [|mn mins] h w Ht Hm Hp; try done.
  cbn [length] in *. apply Forall_cons in Hp as [Hx Hp]. cbn [unsatisfied].
  assert (Hrec : forall h w, runs (unsatisfied (S k) hs ts mins h w) (fun r =>
    match r with
    | Some (i, y, weight) => exists j mn', i = k + j /\ (x :: hs) !! j = Some (HeightAuto weight) /\ (mn :: mins) !! j = Some mn' /\ y = mn'.2
    | None => True
    end)).
  { intros h' w'. finish (IH (S k) ts mins); [lia|lia|done|]. intros [[[i y] weight]|] _ H; [|done].
    destruct H as (j & mn' & -> & H1 & H2 & H3). exists (S j), mn'. split_and!; [lia|done..]. }
  destruct x as [weight|y|p]; [|by apply Hrec|done].
  cbv zeta. apply runs_if; intros E; [|by apply Hrec]. returns. exists 0, mn. split_and!; [lia|done..].
Qed.

Lemma fill_no_auto hs ts h w n : length ts = length hs -> Forall is_fixed hs -> fill hs ts h w n = Ok (hs, n).
Proof.
  revert ts h w n. induction hs as [|x hs IH]; intros [|t ts] h w n Ht Hf; try done.
  apply Forall_cons in Hf as [[y ->] Hf]. cbn [fill]. rewrite IH by (done || cbn in Ht; lia). done.
Qed.

(** What a tile may end up with: the height it had if that was fixed, its
    minimum, or a rounded share that is not below its minimum. *)
Definition settled (h : WindowHeight) (t : Tile.Tile) (mn : Size) (h' : WindowHeight) : Prop :=
  match h with
  | HeightFixed x => h' = HeightFixed x
  | HeightAuto _ => h' = HeightFixed mn.2 \/ exists auto, fgtb mn.2 auto = false /\ h' = HeightFixed (rounded_height auto t)
  | HeightPreset _ => False
  end.

Inductive all_settled : list WindowHeight -> list Tile.Tile -> list Size -> list WindowHeight -> Prop :=
| settled_nil : all_settled [] [] [] []
| settled_cons h hs t ts mn mins h' hs' :
    settled h t mn h' -> all_settled hs ts mins hs' -> all_settled (h :: hs) (t :: ts) (mn :: mins) (h' :: hs').

(** ... the filling pass gives every automatic tile the share that was
    checked. *)
Lemma fill_runs k hs ts mins h w n :
  length ts = length hs -> length mins = length hs -> Forall no_preset hs -> length (weights hs) <= n ->
  unsatisfied k hs ts mins h w = Ok None ->
  runs (fill hs ts h w n) (fun '(hs', n') => n' + length (weights hs) = n /\ all_settled hs ts mins hs').
Proof.
  revert k ts mins h w n. induction hs as [|x hs IH]; intros k [|t ts] [|mn mins] h w n Ht Hm Hp Hn Hu; try done.
  { cbn [fill]. returns. split; [cbn; lia|constructor]. }
  cbn [length] in *. apply Forall_cons in Hp as [Hx Hp]. cbn [unsatisfied] in Hu. cbn [fill].
  destruct x as [weight|y|p]; [| |done].
  - cbv zeta in *. destruct (fgtb _ _) eqn:E in Hu; [done|]. rewrite weights_cons in Hn. cbn [length] in Hn.
    step usub_ok; [lia|].
    runs (IH (S k) ts mins); [lia|lia|done|lia|done|]. intros [hs' n'] _ [H1 H2]. returns.
    split; [rewrite weights_cons; cbn [length]; lia|]. constructor; [|done]. right. by eexists.
  - runs (IH (S k) ts mins); [lia|lia|done|done|done|]. intros [hs' n'] _ [H1 H2]. returns.
    split; [done|by constructor].
Qed.

Lemma settled_fixed hs ts mins hs' : all_settled hs ts mins hs' -> Forall is_fixed hs' /\ length hs' = length hs.
Proof.
  induction 1 as [|h hs t ts mn mins h' hs' Hh Hs [IH1 IH2]]; [done|]. split; [constructor; [|done]|cbn; lia].
  destruct h as [|x|]; cbn in Hh; [|by exists x|done]. destruct Hh as [->|(? & _ & ->)]; by eexists.
Qed.

Lemma settled_set hs ts mins hs' j weight mn :
  hs !! j = Some (HeightAuto weight) -> mins !! j = Some mn ->
  all_settled (<[j := HeightFixed mn.2]> hs) ts mins hs' -> all_settled hs ts mins hs'.
Proof.
  revert hs ts mins hs'. induction j as [|j IH]; intros [|h hs] [|t ts] [|m mins] [|h' hs'] Hh Hm Hs; try done; inversion Hs; subst.
  - injection Hh as ->. injection Hm as ->. constructor; [|done]. left. done.
  - constructor; [done|]. by apply IH.
Qed.

Lemma weights_set hs j weight x :
  hs !! j = Some (HeightAuto weight) -> S (length (weights (<[j := HeightFixed x]> hs))) = length (weights hs).
Proof.
  revert hs. induction j as [|j IH]; intros [|h hs] Hh; try done; cbn in Hh.
  - by injection Hh as ->.
  - specialize (IH hs Hh). change (<[S j := HeightFixed x]> (h :: hs)) with (h :: <[j := HeightFixed x]> hs). rewrite !weights_cons. destruct h; cbn [length]; lia.
Qed.

Lemma all_fixed hs : Forall no_preset hs -> length (weights hs) = 0 -> Forall is_fixed hs.
Proof.
  induction 1 as [|h hs Hh Hp IH]; intros Hw; [constructor|]. destruct h as [w|x|p]; [done| |done].
  constructor; [by eexists|by apply IH].
Qed.

Lemma settled_refl hs ts mins :
  length ts = length hs -> length mins = length hs -> Forall is_fixed hs -> all_settled hs ts mins hs.
Proof.
  revert ts mins. induction hs as [|x hs IH]; intros [|t ts] [|m mins] Ht Hm Hf; try done; [constructor|].
  apply Forall_cons in Hf as [[y ->] Hf]. constructor; [done|]. apply IH; cbn in *; [lia..|done].
Qed.

(** The outer loop settles one tile each time around, or all of them. *)
Lemma distribute_runs fuel hs ts mins h w n :
  length ts = length hs -> length mins = length hs -> Forall no_preset hs -> n = length (weights hs) -> n < fuel ->
  runs (distribute fuel hs ts mins h w n) (fun hs' => all_settled hs ts mins hs').
Proof.
  revert hs h w n. induction fuel as [|fuel IH]; intros hs h w n Ht Hm Hp -> Hn; [lia|]. cbn [distribute].
  apply runs_if; intros E.
  { apply Nat.eqb_eq in E. apply runs_ret, settled_refl; [done..|by apply all_fixed]. }
  apply Nat.eqb_neq in E.
  runs unsatisfied_runs; [done..|]. intros [[[i x] weight]|] Eu H; cbn [mbind].
  - destruct H as (j & mn & -> & Hj & Hmn & ->). cbn [Nat.add].
    step usub_ok; [lia|].
    pose proof (weights_set hs j weight mn.2 Hj) as Hw.
    finish IH; [by rewrite length_insert..| |lia|lia|].
    + by apply Forall_insert.
    + intros hs' _ Hs. by eapply settled_set.
  - runs (fill_runs 0 hs ts mins); [done..|lia|done|]. intros [hs' n'] _ [H1 H2].
    step rassert_ok; [apply Nat.eqb_eq; lia|]. by apply runs_ret.
Qed.

Lemma fixed_heights_runs hs : Forall is_fixed hs -> runs (mapM fixed_height hs) (fun xs => hs = HeightFixed <$> xs).
Proof.
  induction 1 as [|h hs [x ->] Hf IH]; cbn [mapM]; [done|]. cbn [fixed_height].
  eapply runs_bind with (R := fun y => y = x); [done|]. intros y _ ->. runs IH; [done..|]. intros xs _ ->. done.
Qed.
End distribute.
