(* ===== verification/ColumnInv.v ===== *)
(** * Invariants of columns

    The structural invariant of a column (layout/scrolling.rs; of
    [Column::verify_invariants] all but the weight of a lone tile and the heights tiles
    are asked for in all) and the proof that the operations of a column run and preserve it, with what they
    do to its windows and their order. *)

From stdpp Require Import base numbers option list.
From Stdlib Require Import ZArith Lia SpecFloat.
From S2P Require Import Prelude.
From S2P Require Import Runs.
From S2P Require Import F64.
From S2P Require Import Duration.
From S2P Require Import Clock.
From S2P Require Import Animation.
From S2P Require Import AnimTotal.
From S2P Require Import LayoutTypes.
From S2P Require Import F64Sign.
From S2P Require Import Tile.
From S2P Require Import TileInv.
From S2P Require Import Column.
From S2P Require Import ColumnHeights.

(** ** Lists *)
Lemma fmap_Forall2 {A B} (f : A -> B) (R : A -> A -> Prop) l k :
  (forall x y, R x y -> f y = f x) -> Forall2 R l k -> f <$> k = f <$> l.
Proof. intros Hf. induction 1; [done|]. rewrite !fmap_cons. f_equal; auto. Qed.

Lemma Forall2_impl_r {A B} (R : A -> B -> Prop) (P : B -> Prop) l k :
  (forall x y, R x y -> P y) -> Forall2 R l k -> Forall P k.
Proof. intros H. induction 1; constructor; eauto. Qed.

Lemma Forall2_Forall_r {A B} (R : A -> B -> Prop) (P : A -> Prop) (Q : B -> Prop) l k :
  (forall x y, R x y -> P x -> Q y) -> Forall P l -> Forall2 R l k -> Forall Q k.
Proof. intros H HP HR. induction HR; [done|]. apply Forall_cons in HP as [? ?]. constructor; eauto. Qed.

Lemma fst_zip_all {A B} (l : list A) (k : list B) : length l <= length k -> (zip l k).*1 = l.
Proof. apply fst_zip. Qed.

Lemma runs_iter_mut {A} (f : nat -> A -> res A) (R : A -> A -> Prop) k xs :
  (forall i x, xs !! i = Some x -> runs (f (k + i) x) (R x)) -> runs (iter_mut f k xs) (Forall2 R xs).
Proof.
  revert k. induction xs as [|x xs IH]; intros k H; cbn [iter_mut]; [constructor|].
  eapply runs_bind; [specialize (H 0 x eq_refl); rewrite Nat.add_0_r in H; exact H|]. intros y _ Hy.
  eapply runs_bind; [apply IH|].
  - intros i z Hz. specialize (H (S i) z Hz). by rewrite Nat.add_succ_r in H.
  - intros ys _ Hys. by constructor.
Qed.

(** ** Maxima, sums and NaN *)
Lemma max_of_not_nan xs m : Forall (fun x => is_nan x = false) xs -> max_of xs = Some m -> is_nan m = false.
Proof.
  destruct xs as [|x xs]; [done|]. intros [Hx Hxs]%Forall_cons [= <-]. revert x Hx.
  induction Hxs as [|y ys Hy Hys IH]; intros x Hx; cbn; [done|]. apply IH. by destruct (fltb y x).
Qed.
Lemma max_of_nonneg xs m : Forall nonneg xs -> max_of xs = Some m -> nonneg m.
Proof.
  destruct xs as [|x xs]; [done|]. intros [Hx Hxs]%Forall_cons [= <-]. revert x Hx.
  induction Hxs as [|y ys Hy Hys IH]; intros x Hx; cbn; [done|]. apply IH. by destruct (fltb y x).
Qed.
Lemma not_nan_runs {A} (f : A -> f64) l :
  (forall x, x ∈ l -> is_nan (f x) = false) -> mapM (fun x => not_nan (f x)) l = Ok (f <$> l).
Proof.
  induction l as [|x l IH]; intros H; [done|].
  assert (Hx : not_nan (f x) = Ok (f x)) by (unfold not_nan; by rewrite (H x) by left).
  cbn [mapM]. rewrite Hx. cbn [mbind res_bind]. rewrite IH by (intros y Hy; apply H; by right). done.
Qed.
Lemma max_of_cons xs : xs <> [] -> exists m, max_of xs = Some m.
Proof. destruct xs; [done|]. intros _. by eexists. Qed.

Lemma of_Z_not_nan z : is_nan (of_Z z) = false.
Proof.
  unfold of_Z, binary_normalize. destruct z as [|p|p]; [done|..].
  - pose proof (binary_round_sign false p 0). by destruct (binary_round _ _ _ _ _).
  - pose proof (binary_round_sign true p 0). by destruct (binary_round _ _ _ _ _).
Qed.

(** ** The invariant *)
Record Env := { e_options : LayoutOptions; e_view_size : Size; e_working_area : Rect; e_parent_area : Rect; e_scale : f64 }.

Record env_ok `{!Libm, !Keyframe} (E : Env) : Prop := {
  eo_options : options_ok (e_options E);
  eo_scale : positive_finite (e_scale E) = true
}.

Section inv.
Context {LE : LayoutElement} {LEL : LayoutElementLaws} {GE : Geometry} {GL : GeometryLaws} {LM : Libm} {KF : Keyframe}.
Implicit Types (cv : ClockView) (t : Tile.Tile) (c : Column.Column).
Import Column.

Abbreviation tile_in E := (tile_ok (e_options E) (e_view_size E) (e_scale E)).

Definition ids c : list Id := Tile.id <$> tiles c.
Definition widths c : list f64 := (fun d => (td_size d).1) <$> data c.

Record in_env E c : Prop := {
  ie_options : options c = e_options E;
  ie_view_size : view_size c = e_view_size E;
  ie_working_area : working_area c = e_working_area E;
  ie_parent_area : parent_area c = e_parent_area E;
  ie_scale : scale c = e_scale E
}.

(** The heights of the tiles: presets exist, and at most one is not automatic. *)
Record heights_ok (o : LayoutOptions) (ds : list TileData) : Prop := {
  ho_preset : forall d i, d ∈ ds -> td_height d = HeightPreset i -> i < length (preset_window_heights o);
  ho_one : forall i j d e, ds !! i = Some d -> ds !! j = Some e -> is_auto (td_height d) = false -> is_auto (td_height e) = false -> i = j
}.

(** The invariant but for what depends on the number of tiles and the state the
    column is asked to be in. *)
Record col_base E c : Prop := {
  cb_env : in_env E c;
  cb_tiles : Forall (tile_in E) (tiles c);
  cb_synced : Forall synced (tiles c);
  cb_data : td_size <$> data c = Tile.tile_size <$> tiles c;
  cb_heights : heights_ok (e_options E) (data c);
  cb_preset : forall i, preset_width_idx c = Some i -> i < length (preset_column_widths (e_options E));
  cb_move : opt_total Tile.m_anim (move_animation c);
  cb_tab : opt_total (fun a => a) (TabIndicator.open_anim (tab_indicator c))
}.
Definition single c : Prop := pending_sizing_mode c <> Normal -> length (tiles c) = 1 \/ tabbed c = true.
Record col_mid E c : Prop := {
  cm_base : col_base E c;
  cm_active : active_tile_idx c < length (tiles c);
  cm_pending : Forall (fun t => pending t = pending_sizing_mode c) (tiles c)
}.
Definition col_ok E c : Prop := col_mid E c /\ single c.

(** The width [w] is that of the column: the largest of its tiles', in some
    order, with the tab indicator's. *)
Definition caches c (w : f64) : Prop :=
  exists ws m, ws ≡ₚ widths c /\ max_of ws = Some m
    /\ w = (if tabbed c && is_normal (sizing_mode c)
            then (m + (TabIndicator.extra_size (length (tiles c)) (scale c) (tab_indicator c)).1)%F else m).

(** What the layout around a column sees of it: its windows, its sizing mode,
    its width and which of its tiles is active. *)
Record col_like c c' : Prop := {
  cl_ids : ids c' = ids c;
  cl_mode : sizing_mode c' = sizing_mode c;
  cl_width : forall w, caches c w -> caches c' w
}.
Definition col_same c c' : Prop := col_like c c' /\ active_tile_idx c' = active_tile_idx c.

#[global] Instance col_like_preorder : PreOrder col_like.
Proof. split; [by split|]. intros a b c [] []. split; [congruence..|auto]. Qed.
#[global] Instance col_same_preorder : PreOrder col_same.
Proof. split; [intros c; by split|]. intros a b c [? ?] [? ?]. split; [by transitivity b|congruence]. Qed.

Lemma length_data E c : col_base E c -> length (data c) = length (tiles c).
Proof. intros Hc. pose proof (f_equal length (cb_data _ _ Hc)) as H. by rewrite !length_fmap in H. Qed.

Lemma sizing_mode_ext c c' : Tile.sizing_mode <$> tiles c' = Tile.sizing_mode <$> tiles c -> sizing_mode c' = sizing_mode c.
Proof.
  unfold sizing_mode. generalize (tiles c), (tiles c'). intros l k H.
  assert (Hex : forall p : SizingMode -> bool, existsb (fun t => p (Tile.sizing_mode t)) k = existsb (fun t => p (Tile.sizing_mode t)) l).
  { intros p. revert k H. induction l as [|x l IH]; intros [|y k] H; try done. cbn in H. injection H as Hx H.
    cbn. rewrite Hx. f_equal. by apply IH. }
  by rewrite (Hex is_fullscreen), (Hex is_maximized).
Qed.

Lemma widths_not_nan E c : env_ok E -> col_base E c -> Forall nonneg (widths c).
Proof.
  intros HE Hc. unfold widths. rewrite (list_fmap_compose td_size fst). rewrite (cb_data _ _ Hc).
  apply Forall_fmap, Forall_fmap. eapply Forall_impl; [apply Hc|]. intros t Ht. cbn.
  eapply tile_size_nonneg; [done|apply HE].
Qed.

Lemma tiles_width_ok E c : env_ok E -> col_base E c -> tiles_width c = Ok (max_of (widths c)).
Proof.
  intros HE Hc. unfold tiles_width. rewrite (not_nan_runs (fun d => (td_size d).1)); [done|].
  intros d Hd. pose proof (widths_not_nan E c HE Hc) as Hw. unfold widths in Hw. rewrite Forall_fmap, Forall_forall in Hw.
  by apply nonneg_not_nan, (Hw d).
Qed.

Lemma col_width_runs E c : env_ok E -> col_base E c -> tiles c <> [] -> runs (col_width c) (fun w => caches c w /\ nonneg w).
Proof.
  intros HE Hc Hne. unfold col_width. step (tiles_width_ok E); [done..|].
  destruct (max_of_cons (widths c)) as [m Hm].
  { intros H. apply (f_equal length) in H. unfold widths in H. rewrite length_fmap, (length_data E c Hc) in H.
    by destruct (tiles c). }
  step unwrap_ok; [exact Hm|]. apply runs_ret. split.
  - exists (widths c), m. split_and!; [done|done|]. done.
  - assert (nonneg m) by (eapply max_of_nonneg; [by eapply widths_not_nan|done]).
    destruct (tabbed c && _); [|done]. apply fadd_nonneg; [done|].
    unfold TabIndicator.extra_size. destruct (_ || _ || _); [by apply nonneg_cases|].
    destruct (ti_position _); cbn [fst]; try (by apply nonneg_cases); by apply fmax_nonneg_l, nonneg_cases.
Qed.

Lemma tile_offsets_runs E c : env_ok E -> col_base E c -> runs (tile_offsets c) (fun os => length os = S (length (tiles c))).
Proof.
  intros HE Hc. unfold tile_offsets. step (tiles_width_ok E); [done..|]. apply runs_ret.
  assert (H : forall ce tb g w p ds, length (offsets_from ce tb g w p ds) = length ds).
  { intros ce tb g w p ds. revert p. induction ds as [|d ds IH]; intros p; cbn; [done|]. by rewrite IH. }
  rewrite H, length_app, (length_data E c Hc). cbn. lia.
Qed.
Lemma tile_offset_runs E c i : env_ok E -> col_base E c -> i <= length (tiles c) -> runs (tile_offset i c) (fun _ => True).
Proof.
  intros HE Hc Hi. unfold tile_offset. runs tile_offsets_runs; [done..|]. intros os _ Hos.
  destruct (lookup_lt_is_Some_2 os i) as [p Hp]; [lia|]. by rewrite Hp.
Qed.

(** ** Sizing the tiles *)
Lemma max_size_not_nan E t : tile_in E t -> is_nan (Tile.max_size_nonfullscreen t).1 = false.
Proof.
  intros Ht. unfold Tile.max_size_nonfullscreen. destruct (b_off _); cbn [fst]; [apply of_Z_not_nan|].
  destruct (fltb f0 _) eqn:Ef; [|apply of_Z_not_nan]. apply nonneg_not_nan, fadd_nonneg; [by apply fltb_fleb|].
  apply fmul_nonneg; [by eapply to_border|by vm_compute].
Qed.

Lemma min_sizes_not_nan c s : s ∈ min_sizes c -> is_nan s.1 = false /\ is_nan s.2 = false.
Proof.
  unfold min_sizes. intros (t & -> & _)%list_elem_of_fmap. split; by apply fmax_not_nan_r.
Qed.

Lemma requested_width_runs E c : col_base E c -> tiles c <> [] -> runs (requested_width c) (fun _ => True).
Proof.
  intros Hc Hne. unfold requested_width.
  step (not_nan_runs (fun s : Size => s.1)); [intros s Hs; by apply (min_sizes_not_nan c s)|].
  destruct (max_of_cons ((fun s : Size => s.1) <$> min_sizes c)) as [m Hm]; [unfold min_sizes; by destruct (tiles c)|].
  step unwrap_ok; [exact Hm|].
  step (not_nan_runs (fun s : Size => s.1)); [|done].
  intros s Hs%list_elem_of_In. apply filter_In in Hs as [Hs%list_elem_of_In _]. unfold max_sizes in Hs.
  apply list_elem_of_fmap in Hs as (t & -> & Ht). eapply max_size_not_nan.
  pose proof (cb_tiles _ _ Hc) as HF. rewrite Forall_forall in HF. by apply HF.
Qed.

Lemma preset_window_height_runs p t c : runs (preset_window_height p t c) (fun _ => True).
Proof. unfold preset_window_height. apply clamp_runs. by vm_compute. Qed.

Lemma tile_height_runs E c m t d :
  in_env E c -> heights_ok (e_options E) (data c) -> d ∈ data c -> runs (tile_height m t d c) (fun h => no_preset h).
Proof.
  intros HE Hh Hd. unfold tile_height. destruct (td_height d) as [w|x|i] eqn:Ed; [done..|].
  pose proof (ho_preset _ _ Hh d i Hd Ed) as Hi. rewrite (ie_options _ _ HE).
  runs runs_index; [done|]. intros p _ _. runs preset_window_height_runs. done.
Qed.

Lemma tabbed_heights_runs c hs :
  tiles c <> [] -> runs (tabbed_heights hs c) (fun hs' => length hs' = length hs /\ Forall no_preset hs').
Proof.
  intros Hne. unfold tabbed_heights.
  step (not_nan_runs (fun s : Size => s.2)); [intros s Hs; by apply (min_sizes_not_nan c s)|].
  destruct (max_of_cons ((fun s : Size => s.2) <$> min_sizes c)) as [m Hm]; [unfold min_sizes; by destruct (tiles c)|].
  step unwrap_ok; [exact Hm|]. apply runs_ret. split; [apply length_replicate|]. by apply Forall_replicate.
Qed.

(** The wanted heights, before they are constrained and distributed. *)
Definition wanted_heights c : res (list WindowHeight) :=
  hs ← mapM (fun td : Tile.Tile * TileData => tile_height (max_non_auto_window_height c) td.1 td.2 c) (zip (tiles c) (data c));
  if tabbed c then tabbed_heights hs c else mret hs.

Lemma wanted_heights_runs E c :
  col_base E c -> tiles c <> [] ->
  runs (wanted_heights c) (fun hs => length hs = length (tiles c) /\ Forall no_preset hs).
Proof.
  intros Hc Hne. unfold wanted_heights.
  eapply runs_bind with (R := Forall2 (fun _ h => no_preset h) (zip (tiles c) (data c))).
  - apply runs_mapM. intros [t d] Htd. eapply tile_height_runs; [apply Hc..|]. by apply elem_of_zip_r in Htd.
  - intros hs _ Hhs. pose proof (Forall2_length _ _ _ Hhs) as Hl. rewrite length_zip_with, (length_data E c Hc), Nat.min_id in Hl.
    apply runs_if; intros _.
    + finish tabbed_heights_runs; [done|]. intros hs' _ [? ?]. split; [congruence|done].
    + apply runs_ret. split; [done|]. eapply Forall2_impl_r; [|exact Hhs]. done.
Qed.

(** Every tile gets a height: one with a height of its own keeps it within its
    constraints; any other its minimum or a share not below it. *)
Lemma requested_heights_settled E c :
  col_base E c -> tiles c <> [] ->
  exists hs, wanted_heights c = Ok hs /\
    runs (requested_heights c) (fun xs => exists hs1,
      length hs1 = length (tiles c)
      /\ (forall i h mn mx, hs !! i = Some h -> min_sizes c !! i = Some mn -> max_sizes c !! i = Some mx -> hs1 !! i = Some (constrain h mn mx))
      /\ all_settled hs1 (tiles c) (min_sizes c) (HeightFixed <$> xs)).
Proof.
  intros Hc Hne. pose proof (wanted_heights_runs E c Hc Hne) as Hw. apply runs_ok in Hw as (hs & Hw & Hl & Hp).
  exists hs. split; [done|]. unfold requested_heights.
  assert (Hmin : length (min_sizes c) = length hs) by (unfold min_sizes; rewrite length_fmap; lia).
  assert (Hmax : length (max_sizes c) = length hs) by (unfold max_sizes; rewrite length_fmap; lia).
  unfold wanted_heights in Hw. bind Hw as [hs0|] eqn E0. cbn [mbind res_bind]. rewrite Hw. cbn [mbind res_bind].
  runs subtract_fixed_runs; [done|done|lia|]. intros [[hs1 left_] n] _ (Hl1 & Hp1 & Hn & Hi). specialize (Hp1 Hp). specialize (Hn Hp).
  pose proof (length_weights hs1). runs distribute_runs; [lia|lia|done|lia|lia|].
  intros hs2 _ Hs. destruct (settled_fixed _ _ _ _ Hs) as [Hf _].
  finish fixed_heights_runs; [done|]. intros xs _ ->. exists hs1. split_and!; [lia|done|done].
Qed.

Lemma requested_heights_runs E c :
  col_base E c -> tiles c <> [] -> runs (requested_heights c) (fun xs => length xs = length (tiles c)).
Proof.
  intros Hc Hne. destruct (requested_heights_settled E c Hc Hne) as (hs & _ & H).
  finish H. intros xs _ (hs1 & Hl & _ & Hs). destruct (settled_fixed _ _ _ _ Hs) as [_ Hx]. rewrite length_fmap in Hx. lia.
Qed.

Abbreviation asked_in E := (asked (e_options E) (e_view_size E) (e_scale E)).

(** All tiles are asked for a size in the mode the column is to be in. *)
Lemma request_all_runs E a tr c :
  col_base E c -> tiles c <> [] ->
  runs (update_tile_sizes_with_transaction a tr c) (fun c' =>
    exists ts, c' = set_tiles ts c /\ Forall2 (asked_in E (pending_sizing_mode c)) (tiles c) ts).
Proof.
  intros Hc Hne. pose proof (cb_tiles _ _ Hc) as HF.
  assert (Himap : forall (f : nat -> Tile.Tile -> Tile.Tile) m,
    (forall i t, tile_in E t -> asked_in E m t (f i t)) -> Forall2 (asked_in E m) (tiles c) (imap f (tiles c))).
  { intros f m Hf. revert f Hf. clear Hc Hne. induction HF as [|t ts Ht HF IH]; intros f Hf; [constructor|].
    rewrite imap_cons. constructor; [by apply Hf|]. apply IH. intros i. apply (Hf (S i)). }
  unfold update_tile_sizes_with_transaction. destruct (pending_sizing_mode c) eqn:Em.
  - runs requested_width_runs; [done..|]. intros w _ _. runs requested_heights_runs; [done..|]. intros xs _ Hxs.
    apply runs_ret. eexists. split; [done|]. unfold request_sizes.
    clear Himap. revert xs Hxs. generalize (tile_transaction tr). intros g. 
    assert (H : forall ts xs (h : nat -> option Transaction), Forall (tile_in E) ts -> length xs = length ts ->
      Forall2 (asked_in E Normal) ts (imap (fun i (th : Tile.Tile * f64) => Tile.request_tile_size (w, th.2) a (h i) th.1) (zip ts xs))).
    { induction ts as [|t ts IH]; intros [|x xs] h Hts Hxs; try done. apply Forall_cons in Hts as [Ht Hts].
      cbn [zip zip_with]. rewrite imap_cons. constructor; [by apply request_tile_size_asked|].
      apply (IH xs (fun i => h (S i))); [done|]. by injection Hxs. }
    intros xs Hxs. by apply (H (tiles c) xs (fun i => g i c)).
  - apply runs_ret. eexists. split; [done|]. apply Himap. intros i t Ht. by apply request_asked.
  - apply runs_ret. eexists. split; [done|]. apply Himap. intros i t Ht. by apply request_asked.
Qed.

(** The column after its tiles changed but for what the layout sees of them. *)
Lemma col_like_tiles c ts ds :
  Forall2 tile_same (tiles c) ts -> td_size <$> ds = td_size <$> data c -> col_like c (set_tiles ts (set_data ds c)).
Proof.
  intros HF Hd. assert (Hm : sizing_mode (set_tiles ts (set_data ds c)) = sizing_mode c).
  { apply sizing_mode_ext. cbn. eapply fmap_Forall2; [|done]. by intros x y []. }
  split; [|done|].
  - unfold ids. cbn. eapply fmap_Forall2; [|done]. by intros x y [].
  - intros w (ws & m & Hp & Hmax & Hw). exists ws, m. split_and!; [|done|].
    + rewrite Hp. unfold widths. cbn. rewrite !(list_fmap_compose td_size fst). by rewrite Hd.
    + rewrite Hm. cbn. by rewrite (Forall2_length _ _ _ HF) in Hw.
Qed.

Lemma col_like_intro c c' :
  tiles c' = tiles c -> td_size <$> data c' = td_size <$> data c -> display_mode c' = display_mode c -> scale c' = scale c ->
  TabIndicator.config (tab_indicator c') = TabIndicator.config (tab_indicator c) -> col_like c c'.
Proof.
  intros Ht Hd Hm Hs Hti. assert (Hmode : sizing_mode c' = sizing_mode c) by (apply sizing_mode_ext; by rewrite Ht).
  split; [unfold ids; by rewrite Ht|done|]. intros w (ws & m & Hp & Hmax & Hw). exists ws, m. split_and!; [|done|].
  - rewrite Hp. unfold widths. rewrite !(list_fmap_compose td_size fst). by rewrite Hd.
  - rewrite Hmode. unfold tabbed, TabIndicator.extra_size in *. by rewrite Ht, Hm, Hs, Hti.
Qed.

Lemma col_base_tiles E c ts :
  col_base E c -> Forall (tile_in E) ts -> Forall synced ts -> Forall2 tile_same (tiles c) ts -> col_base E (set_tiles ts c).
Proof.
  intros Hc HF Hs H2. constructor; try (by destruct Hc). { destruct (cb_env _ _ Hc). by constructor. }
  transitivity (Tile.tile_size <$> tiles c); [apply Hc|].
  symmetry. eapply fmap_Forall2; [|done]. by intros x y [].
Qed.

Lemma set_tiles_asked E c ts :
  col_base E c -> active_tile_idx c < length (tiles c) ->
  Forall2 (asked_in E (pending_sizing_mode c)) (tiles c) ts ->
  col_mid E (set_tiles ts c) /\ col_same c (set_tiles ts c).
Proof.
  intros Hc Ha HF. assert (H2 : Forall2 tile_same (tiles c) ts) by (eapply Forall2_impl; [done|]; by intros x y (_ & ? & _)).
  split; [constructor|split].
  - apply col_base_tiles; [done|..|done].
    + eapply Forall2_impl_r; [|exact HF]. by intros x y (? & _).
    + eapply Forall2_Forall_r; [|apply (cb_synced _ _ Hc)|exact HF]. by intros x y (_ & _ & _ & ?).
  - cbn. by rewrite <-(Forall2_length _ _ _ HF).
  - eapply Forall2_impl_r; [|exact HF]. by intros x y (_ & _ & ? & _).
  - pose proof (col_like_tiles c ts (data c) H2 eq_refl) as Hl. by destruct c.
  - done.
Qed.

Lemma sizes_runs E a tr c :
  col_base E c -> active_tile_idx c < length (tiles c) ->
  runs (update_tile_sizes_with_transaction a tr c) (fun c' => col_mid E c' /\ col_same c c'
    /\ exists ts, c' = set_tiles ts c /\ length ts = length (tiles c)).
Proof.
  intros Hc Ha. finish request_all_runs; [done|by destruct (tiles c); [cbn in Ha; lia|]|].
  intros c' _ (ts & -> & HF). destruct (set_tiles_asked E c ts Hc Ha HF). split_and!; [done..|].
  exists ts. split; [done|]. by rewrite (Forall2_length _ _ _ HF).
Qed.

Lemma sizes_ok_runs E a tr c :
  col_base E c -> active_tile_idx c < length (tiles c) -> single c ->
  runs (update_tile_sizes_with_transaction a tr c) (fun c' => col_ok E c' /\ col_same c c').
Proof.
  intros Hc Ha Hs. finish sizes_runs; [done..|]. intros c' _ (Hm & Hsame & ts & -> & Hl). split; [split; [done|]|done].
  unfold single. cbn. rewrite Hl. exact Hs.
Qed.
End inv.
