(* ===== verification/ColumnOps.v ===== *)
(** * Operations of columns

    Every operation of a column runs on a column that satisfies the invariant,
    and preserves it. *)

From stdpp Require Import base numbers option list.
From Stdlib Require Import ZArith Lia SpecFloat.
From S2P Require Import Prelude.
From S2P Require Import Runs.
From S2P Require Import F64.
From S2P Require Import Duration.
From S2P Require Import Clock.
From S2P Require Import Animation.
From S2P Require Import AnimTotal.
From S2P Require Import LayoutTypes.
From S2P Require Import F64Sign.
From S2P Require Import Tile.
From S2P Require Import TileInv.
From S2P Require Import Column.
From S2P Require Import ColumnHeights.

From S2P Require Import ColumnHeights.
From S2P Require Import ColumnInv.

Section ops.
Context {LE : LayoutElement} {LEL : LayoutElementLaws} {GE : Geometry} {GL : GeometryLaws} {LM : Libm} {KF : Keyframe}.
Implicit Types (t : Tile.Tile) (c : Column.Column).
Import Column.
Context (E : Env) (HE : env_ok E) (cv : ClockView) (Hcv : cv_ok cv).

Abbreviation tile_in := (tile_ok (e_options E) (e_view_size E) (e_scale E)).
Abbreviation kept_in := (kept (e_options E) (e_view_size E) (e_scale E)).

(** ** Tiles replaced by tiles that look the same *)
Definition tiles_kept c c' : Prop := exists ts, c' = set_tiles ts c /\ Forall2 kept_in (tiles c) ts.

Lemma kept_same c c' : tiles_kept c c' -> Forall2 tile_same (tiles c) (tiles c').
Proof. intros (ts & -> & HF). eapply Forall2_impl; [exact HF|]. by intros x y [_ [? _]]. Qed.
Lemma kept_length c c' : tiles_kept c c' -> length (tiles c') = length (tiles c).
Proof. intros H. symmetry. by eapply Forall2_length, kept_same. Qed.

Lemma kept_like c c' : tiles_kept c c' -> col_same c c'.
Proof.
  intros H. pose proof (kept_same c c' H) as H2. destruct H as (ts & -> & HF). split; [|done].
  pose proof (col_like_tiles c ts (data c) H2 eq_refl) as Hl. by destruct c.
Qed.

Lemma kept_base c c' : tiles_kept c c' -> col_base E c -> col_base E c'.
Proof.
  intros H Hc. pose proof (kept_same c c' H) as H2. destruct H as (ts & -> & HF). apply col_base_tiles; [done|..|done].
  - eapply Forall2_impl_r; [|exact HF]. by intros x y [? _].
  - eapply Forall2_Forall_r; [|apply (cb_synced _ _ Hc)|exact HF]. intros x y [_ Hk]. by apply synced_kept.
Qed.

Lemma kept_mid c c' : tiles_kept c c' -> col_mid E c -> col_mid E c'.
Proof.
  intros H [Hb Ha Hp]. constructor; [by eapply kept_base| |].
  - rewrite (kept_length c c' H). by destruct H as (ts & -> & _).
  - destruct H as (ts & -> & HF). eapply Forall2_Forall_r; [|exact Hp|exact HF]. intros x y [_ (_ & ? & _)] Hx. change (pending y = pending_sizing_mode c). congruence.
Qed.

Lemma kept_ok c c' : tiles_kept c c' -> col_ok E c -> col_ok E c' /\ col_same c c'.
Proof.
  intros H [Hm Hs]. split; [|by apply kept_like]. split; [by eapply kept_mid|].
  unfold single. rewrite (kept_length c c' H). by destruct H as (ts & -> & _).
Qed.

Lemma kept_list_refl ts : Forall tile_in ts -> Forall2 kept_in ts ts.
Proof. induction 1; constructor; [by apply kept_refl|done]. Qed.

Lemma tiles_kept_refl c : col_base E c -> tiles_kept c c.
Proof. intros Hc. exists (tiles c). split; [by destruct c|]. apply kept_list_refl, Hc. Qed.

Lemma tiles_kept_trans a b c : tiles_kept a b -> tiles_kept b c -> tiles_kept a c.
Proof.
  intros (ts & -> & H1) (us & -> & H2). exists us. split; [by destruct a|]. cbn in H2.
  eapply Forall2_trans; [|exact H1|exact H2]. intros x y z. apply kept_trans.
Qed.

Lemma update_tile_runs i f c :
  col_base E c -> i < length (tiles c) -> (forall t, tile_in t -> runs (f t) (kept_in t)) ->
  runs (update_tile i f c) (tiles_kept c).
Proof.
  intros Hc Hi Hf. unfold update_tile. runs runs_index; [done|]. intros t _ Ht.
  runs Hf; [exact (Forall_lookup_1 _ _ _ _ (cb_tiles _ _ Hc) Ht)|]. intros t' _ Ht'. apply runs_ret.
  eexists. split; [done|]. pose proof (kept_list_refl _ (cb_tiles _ _ Hc)) as HF.
  rewrite <-(list_insert_id (tiles c) i t) at 1 by done. by apply Forall2_insert.
Qed.

Lemma iter_tiles_runs (f : nat -> Tile.Tile -> res Tile.Tile) c :
  col_base E c -> (forall i t, tile_in t -> runs (f i t) (kept_in t)) ->
  runs (ts ← iter_mut f 0 (tiles c); mret (set_tiles ts c)) (tiles_kept c).
Proof.
  intros Hc Hf. runs (runs_iter_mut f kept_in).
  - intros i t Ht. apply Hf. exact (Forall_lookup_1 _ _ _ _ (cb_tiles _ _ Hc) Ht).
  - intros ts _ HF. by exists ts.
Qed.

(** Animating every tile by something known per tile. *)
Lemma zip_tiles_runs {B} (f : nat -> Tile.Tile * B -> res (Tile.Tile * B)) c (bs : list B) :
  col_base E c -> length (tiles c) <= length bs ->
  (forall i t b, tile_in t -> runs (f i (t, b)) (fun tb => kept_in t tb.1)) ->
  runs (iter_mut f 0 (zip (tiles c) bs)) (fun ts => Forall2 kept_in (tiles c) ts.*1).
Proof.
  intros Hc Hl Hf. finish (runs_iter_mut f (fun x y => kept_in x.1 y.1)).
  - intros i [t b] Hi. cbn. apply Hf. apply lookup_zip_with_Some in Hi as (t' & b' & [= <- <-] & Ht & _).
    exact (Forall_lookup_1 _ _ _ _ (cb_tiles _ _ Hc) Ht).
  - intros ts _ HF. rewrite <-(fst_zip_all (tiles c) bs) at 1 by done. by apply Forall2_fmap.
Qed.

(** ** Focus *)
Lemma activate_idx_runs i c :
  col_ok E c -> i < length (tiles c) ->
  runs (activate_idx i c) (fun '(b, c') => b = negb (bool_decide (active_tile_idx c = i)) /\ col_ok E c' /\ col_like c c' /\ active_tile_idx c' = i).
Proof.
  intros Hc Hi. unfold activate_idx. destruct (bool_decide _) eqn:Ei; [by apply bool_decide_eq_true_1 in Ei|].
  runs runs_index; [done|]. intros t _ Ht. returns.
  set (c1 := set_tiles (<[i := Tile.ensure_alpha_animates_to_1 t]> (tiles c)) c).
  assert (Hk : tiles_kept c c1).
  { eexists. split; [done|]. pose proof (kept_list_refl _ (cb_tiles _ _ (cm_base _ _ (proj1 Hc)))) as HF.
    rewrite <-(list_insert_id (tiles c) i t) at 1 by done. apply Forall2_insert; [done|].
    apply ensure_alpha_kept. exact (Forall_lookup_1 _ _ _ _ (cb_tiles _ _ (cm_base _ _ (proj1 Hc))) Ht). }
  destruct (kept_ok c c1 Hk Hc) as [[[Hb Ha Hp] Hs] [Hl _]]. split_and!; [done| | |done].
  2: { transitivity c1; [done|by apply col_like_intro]. }
  assert (Hlen : length (tiles c1) = length (tiles c)) by by apply kept_length.
  split; [constructor|done].
  - destruct Hb as [[]]. constructor; try done.
  - cbn in *. lia.
  - done.
Qed.

Lemma focus_index_runs i c :
  col_ok E c ->
  runs (focus_index i c) (fun c' => col_ok E c' /\ col_like c c' /\ active_tile_idx c' = (Z.to_nat (i - 1) `min` (length (tiles c) - 1))%nat).
Proof.
  intros Hc. pose proof (cm_active _ _ (proj1 Hc)). unfold focus_index. step usub_ok; [lia|].
  runs activate_idx_runs; [done|lia|]. intros [b c'] _ (_ & ? & ? & ?). by returns.
Qed.
Lemma focus_up_runs c :
  col_ok E c ->
  runs (focus_up c) (fun '(b, c') => b = negb (bool_decide (active_tile_idx c = 0)) /\ col_ok E c' /\ col_like c c' /\ active_tile_idx c' = active_tile_idx c - 1).
Proof.
  intros Hc. pose proof (cm_active _ _ (proj1 Hc)). unfold focus_up. finish activate_idx_runs; [done|lia|].
  intros [b c'] _ (-> & ? & ? & ?). split_and!; [|done..]. f_equal. apply bool_decide_ext. lia.
Qed.
Lemma focus_down_runs c :
  col_ok E c ->
  runs (focus_down c) (fun '(b, c') => b = negb (bool_decide (active_tile_idx c = length (tiles c) - 1)) /\ col_ok E c' /\ col_like c c'
    /\ active_tile_idx c' = ((active_tile_idx c + 1) `min` (length (tiles c) - 1))%nat).
Proof.
  intros Hc. pose proof (cm_active _ _ (proj1 Hc)). unfold focus_down. step usub_ok; [lia|]. finish activate_idx_runs; [done|lia|].
  intros [b c'] _ (-> & ? & ? & ?). split_and!; [|done..]. f_equal. apply bool_decide_ext. lia.
Qed.
Lemma focus_top_runs c : col_ok E c -> runs (focus_top c) (fun c' => col_ok E c' /\ col_like c c' /\ active_tile_idx c' = 0).
Proof.
  intros Hc. pose proof (cm_active _ _ (proj1 Hc)). unfold focus_top. runs activate_idx_runs; [done|lia|].
  intros [b c'] _ (_ & ? & ? & ?). by returns.
Qed.
Lemma focus_bottom_runs c :
  col_ok E c -> runs (focus_bottom c) (fun c' => col_ok E c' /\ col_like c c' /\ active_tile_idx c' = length (tiles c) - 1).
Proof.
  intros Hc. pose proof (cm_active _ _ (proj1 Hc)). unfold focus_bottom. step usub_ok; [lia|]. runs activate_idx_runs; [done|lia|].
  intros [b c'] _ (_ & ? & ? & ?). by returns.
Qed.

Lemma position_of_lt x c i : position_of x c = Some i -> i < length (tiles c) /\ ids c !! i = Some x.
Proof.
  unfold position_of. intros H. apply position_Some in H as (t & Ht & Hx & _). apply bool_decide_eq_true_1 in Hx.
  split; [by eapply lookup_lt_Some|]. unfold ids. rewrite list_lookup_fmap, Ht. cbn. by f_equal.
Qed.

(** ** Animations *)
Lemma in_env_set c c' :
  in_env E c -> options c' = options c -> view_size c' = view_size c -> working_area c' = working_area c ->
  parent_area c' = parent_area c -> scale c' = scale c -> in_env E c'.
Proof. intros [] ?????. constructor; congruence. Qed.

(** Other fields may change as well. *)
Lemma col_base_set c c' :
  col_base E c -> in_env E c' -> tiles c' = tiles c -> td_size <$> data c' = td_size <$> data c -> heights_ok (e_options E) (data c') ->
  (forall i, preset_width_idx c' = Some i -> i < length (preset_column_widths (e_options E))) ->
  opt_total Tile.m_anim (move_animation c') -> opt_total (fun a => a) (TabIndicator.open_anim (tab_indicator c')) -> col_base E c'.
Proof. intros [] HE' Ht Hd Hh Hp Hm Hti. constructor; [done|rewrite Ht; done|rewrite Ht; done|rewrite Hd, Ht; done|done|done|done|done]. Qed.

Lemma set_move_animation_ok m c : opt_total Tile.m_anim m -> col_ok E c -> col_ok E (set_move_animation m c) /\ col_same c (set_move_animation m c).
Proof.
  intros Hm [[Hb Ha Hp] Hs]. split; [split; [constructor|]; try done|split; [by apply col_like_intro|done]].
  eapply col_base_set; [exact Hb|eapply in_env_set; [apply Hb|done..]|done|done|apply Hb|apply Hb|done|apply Hb].
Qed.
Lemma set_tab_indicator_ok ti c :
  TabIndicator.config ti = TabIndicator.config (tab_indicator c) -> opt_total (fun a => a) (TabIndicator.open_anim ti) ->
  col_ok E c -> col_ok E (set_tab_indicator ti c) /\ col_same c (set_tab_indicator ti c).
Proof.
  intros Hti Hm [[Hb Ha Hp] Hs]. split; [split; [constructor|]; try done|split; [by apply col_like_intro|done]].
  eapply col_base_set; [exact Hb|eapply in_env_set; [apply Hb|done..]|done|done|apply Hb|apply Hb|apply Hb|done].
Qed.

Lemma animate_move_with_runs f config c :
  col_ok E c -> config_total config -> runs (animate_move_from_with_config cv f config c) (fun c' => col_ok E c' /\ col_same c c').
Proof.
  intros Hc Hconf. unfold animate_move_from_with_config. eapply runs_bind with (R := fun _ => True).
  { pose proof (cb_move _ _ (cm_base _ _ (proj1 Hc))) as Hm. destruct (move_animation c) as [m|]; [|done].
    runs (value_runs cv Hcv); [by apply Hm|done]. }
  intros x _ _. runs (new_runs cv Hcv); [done|]. intros a _ Ha. returns. apply set_move_animation_ok; [|done].
  by intros ? [= <-].
Qed.
Lemma animate_move_runs f c : col_ok E c -> runs (Column.animate_move_from cv f c) (fun c' => col_ok E c' /\ col_same c c').
Proof.
  intros Hc. apply animate_move_with_runs; [done|]. rewrite (ie_options _ _ (cb_env _ _ (cm_base _ _ (proj1 Hc)))). apply HE.
Qed.
Lemma offset_move_anim_runs f c : col_ok E c -> runs (offset_move_anim_current cv f c) (fun c' => col_ok E c' /\ col_same c c').
Proof.
  intros Hc. unfold offset_move_anim_current. runs (offset_move_runs cv Hcv); [apply Hc|]. intros m _ Hm. returns.
  by apply set_move_animation_ok.
Qed.

Lemma advance_tab_runs ti :
  opt_total (fun a => a) (TabIndicator.open_anim ti) ->
  runs (TabIndicator.advance_animations cv ti) (fun ti' =>
    TabIndicator.config ti' = TabIndicator.config ti /\ opt_total (fun a => a) (TabIndicator.open_anim ti')).
Proof.
  intros Hti. unfold TabIndicator.advance_animations. destruct (TabIndicator.open_anim ti) as [a|] eqn:Ea; [|by returns; rewrite Ea].
  runs (done_runs cv Hcv); [by apply Hti|]. intros [] _ _; returns; [done|by rewrite Ea].
Qed.
Lemma start_tab_runs config ti :
  config_total config -> runs (TabIndicator.start_open_animation cv config ti) (fun ti' =>
    TabIndicator.config ti' = TabIndicator.config ti /\ opt_total (fun a => a) (TabIndicator.open_anim ti')).
Proof.
  intros Hc. unfold TabIndicator.start_open_animation. runs (new_runs cv Hcv); [done|]. intros a _ Ha. returns.
  split; [done|]. by intros ? [= <-].
Qed.

Lemma col_same_trans2 (P : Column -> Prop) c c1 c2 : (P c1 /\ col_same c c1) -> (P c2 /\ col_same c1 c2) -> P c2 /\ col_same c c2.
Proof. intros [_ H1] [? H2]. split; [done|by transitivity c1]. Qed.

Lemma advance_animations_runs' c : col_ok E c -> runs (advance_animations cv c) (fun c' => col_ok E c' /\ col_same c c').
Proof.
  intros Hc. unfold advance_animations. pose proof (cm_base _ _ (proj1 Hc)) as Hb.
  runs (keep_ongoing_runs cv Hcv Tile.m_anim (fun _ => false) (opt_total Tile.m_anim)); [apply Hb|apply Hb|done|]. intros m _ Hm.
  runs (runs_mapM _ kept_in).
  { intros t Ht. apply advance_animations_runs; [done|]. pose proof (cb_tiles _ _ Hb) as HF. rewrite Forall_forall in HF. by apply HF. }
  intros ts _ Hts. runs advance_tab_runs; [apply Hb|]. intros ti _ [Hc1 Hti]. returns.
  pose proof (set_move_animation_ok m c Hm Hc) as H1.
  assert (Hk : tiles_kept (set_move_animation m c) (set_tiles ts (set_move_animation m c))) by by exists ts.
  pose proof (kept_ok _ _ Hk (proj1 H1)) as H2.
  pose proof (set_tab_indicator_ok ti (set_tiles ts (set_move_animation m c)) Hc1 Hti (proj1 H2)) as H3.
  eapply col_same_trans2; [|exact H3]. eapply col_same_trans2; [exact H1|exact H2].
Qed.

(** ** Tiles coming in *)
Lemma heights_ok_insert ds i t :
  heights_ok (e_options E) ds -> i <= length ds -> heights_ok (e_options E) (insert_at i (td_new t auto_1) ds).
Proof.
  intros [Hp Ho] Hi. set (d0 := td_new t auto_1). split.
  - intros d k [->|Hd]%elem_of_insert_at Hk; [done|by eapply Hp].
  - assert (Hl : forall j d, insert_at i d0 ds !! j = Some d -> is_auto (td_height d) = false ->
      j <> i /\ ds !! (if (j <? i)%nat then j else j - 1) = Some d).
    { intros j d Hj Ha. destruct (lt_eq_lt_dec j i) as [[H| ->]|H].
      - rewrite lookup_insert_at_lt in Hj by lia. split; [lia|]. by rewrite (proj2 (Nat.ltb_lt j i)) by lia.
      - rewrite lookup_insert_at_eq in Hj by done. injection Hj as <-. done.
      - destruct j as [|j]; [lia|]. rewrite lookup_insert_at_gt in Hj by lia. split; [lia|].
        rewrite (proj2 (Nat.ltb_ge (S j) i)) by lia. by rewrite Nat.sub_succ, Nat.sub_0_r. }
    intros j k d e Hj Hk Hd He. destruct (Hl j d Hj Hd) as [Hji Hj']. destruct (Hl k e Hk He) as [Hki Hk'].
    pose proof (Ho _ _ _ _ Hj' Hk' Hd He) as Heq.
    destruct (Nat.ltb_spec j i), (Nat.ltb_spec k i); lia.
Qed.

Lemma insert_at_fmap {A B} (f : A -> B) i x l : f <$> insert_at i x l = insert_at i (f x) (f <$> l).
Proof. unfold insert_at. by rewrite fmap_app, fmap_cons, fmap_take, fmap_drop. Qed.
Lemma Forall_insert_at {A} (P : A -> Prop) i x l : P x -> Forall P l -> Forall P (insert_at i x l).
Proof. intros Hx Hl. rewrite Forall_forall in *. intros y [->|Hy]%elem_of_insert_at; auto. Qed.

Lemma sizing_mode_normal c : sizing_mode c = Normal <-> Forall (fun t => Tile.sizing_mode t = Normal) (tiles c).
Proof.
  unfold sizing_mode. induction (tiles c) as [|t ts IH]; cbn; [by split|]. rewrite Forall_cons, <-IH. clear IH.
  unfold is_fullscreen at 1, is_maximized at 1. destruct (Tile.sizing_mode t); cbn;
    destruct (existsb (fun t => is_fullscreen _) ts), (existsb (fun t => is_maximized _) ts); cbn; split; try done; tauto.
Qed.

Lemma add_tile_at_runs o1 vs1 sc1 idx t c :
  col_base E c -> active_tile_idx c <= length (tiles c) -> (tiles c = [] -> active_tile_idx c = 0) ->
  idx <= length (tiles c) -> tile_ok o1 vs1 sc1 t -> synced t ->
  runs (add_tile_at cv idx t c) (fun c' => col_ok E c' /\ ids c' = insert_at idx (Tile.id t) (ids c)
    /\ active_tile_idx c' = active_tile_idx c /\ options c' = options c
    /\ (sizing_mode c <> Normal -> sizing_mode c' <> Normal) /\ display_mode c' = display_mode c
    /\ (tabbed c = false -> is_pending_maximized c' = false /\ is_pending_fullscreen c' = false)).
Proof.
  intros Hb Ha Hempty Hidx Ht Hsync. unfold add_tile_at. pose proof (length_data E c Hb) as Hld.
  set (t1 := Tile.update_config _ _ _ t).
  assert (Ht1 : tile_in t1).
  { destruct (cb_env _ _ Hb) as [Ho Hv _ _ Hs]. unfold t1. rewrite Ho, Hv, Hs. eapply update_config_ok; [apply HE|apply HE|done]. }
  runs tile_offsets_runs; [done..|]. intros os _ Hos.
  set (c0 := if tabbed c then c else _).
  assert (H0 : tiles c0 = tiles c /\ data c0 = data c /\ display_mode c0 = display_mode c /\ active_tile_idx c0 = active_tile_idx c
    /\ in_env E c0 /\ preset_width_idx c0 = preset_width_idx c /\ move_animation c0 = move_animation c /\ tab_indicator c0 = tab_indicator c
    /\ (tabbed c = false -> is_pending_maximized c0 = false /\ is_pending_fullscreen c0 = false)).
  { unfold c0. pose proof (cb_env _ _ Hb) as He. destruct (tabbed c) eqn:Et; split_and!; try done. by eapply in_env_set. }
  destruct H0 as (Ht0 & Hd0 & Hm0 & Ha0 & He0 & Hp0 & Hmv0 & Hti0 & Hf0).
  step vec_insert_ok; [rewrite Hd0; lia|]. step vec_insert_ok; [rewrite Ht0; lia|]. rewrite Ht0, Hd0.
  set (c1 := set_tiles (insert_at idx t1 (tiles c)) (set_data (insert_at idx (td_new t1 auto_1) (data c)) c0)).
  assert (Hb1 : col_base E c1).
  { constructor.
    - eapply in_env_set; [exact He0|done..].
    - apply Forall_insert_at; [done|apply Hb].
    - apply Forall_insert_at; [done|apply Hb].
    - unfold c1. cbn. rewrite !insert_at_fmap, (cb_data _ _ Hb). done.
    - apply heights_ok_insert; [apply Hb|lia].
    - unfold c1. cbn. rewrite Hp0. apply Hb.
    - unfold c1. cbn. rewrite Hmv0. apply Hb.
    - unfold c1. cbn. rewrite Hti0. apply Hb. }
  assert (Hl1 : length (tiles c1) = S (length (tiles c))) by (apply length_insert_at; lia).
  assert (Ha1 : active_tile_idx c1 = active_tile_idx c) by (unfold c1; cbn; done).
  assert (Hs1 : single c1).
  { intros Hn. right. change (tabbed c1) with (tabbed c0). unfold tabbed. rewrite Hm0. fold (tabbed c).
    destruct (tabbed c); [done|]. destruct (Hf0 eq_refl) as [Hf1 Hf2]. destruct Hn.
    unfold pending_sizing_mode. change (is_pending_fullscreen c1) with (is_pending_fullscreen c0).
    change (is_pending_maximized c1) with (is_pending_maximized c0). by rewrite Hf1, Hf2. }
  unfold update_tile_sizes. runs (sizes_runs E); [done|lia|]. intros c2 _ (H2 & Hs2 & ts2 & -> & Hl2).
  pose proof (cm_base _ _ H2) as Hb2. set (c2 := set_tiles ts2 c1) in *.
  step vec_insert_ok; [rewrite length_take; lia|]. runs tile_offsets_runs; [done..|]. intros os2 _ Hos2.
  assert (Hlt : length (tiles c2) = S (length (tiles c))) by (unfold c2; cbn; lia).
  eapply runs_bind; [apply (zip_tiles_runs _ c2); [done| |]|].
  - rewrite length_zip_with, length_insert_at by (rewrite length_take; lia). rewrite length_take. lia.
  - intros i t' p Ht'. cbn. apply runs_if; intros _; [by apply kept_refl|].
    runs tile_animate_move_runs; [apply HE|done|done|]. intros t2 _ Hk. by returns.
  - intros ts _ HF. returns. assert (Hk : tiles_kept c2 (set_tiles ts.*1 c2)) by by eexists.
    assert (Hok2 : col_ok E c2) by (split; [done|]; unfold single, c2; cbn; rewrite Hl2; exact Hs1).
    destruct (kept_ok _ _ Hk Hok2) as [H3 Hs3]. split_and!; [done| |done|..].
    + transitivity (ids c1); [etransitivity; [apply Hs3|apply Hs2]|]. unfold c1, ids. cbn. by rewrite insert_at_fmap.
    + unfold c2, c1. cbn. destruct (cb_env _ _ Hb) as [-> _ _ _ _]. apply He0.
    + intros Hn Hn3. apply Hn. apply sizing_mode_normal.
      assert (Hn1 : sizing_mode c1 = Normal) by (rewrite <-Hn3; symmetry; etransitivity; [apply Hs3|apply Hs2]).
      apply sizing_mode_normal in Hn1. rewrite Forall_forall in *. intros x Hx. apply Hn1. unfold c1. cbn.
      apply elem_of_insert_at. by right.
    + done.
    + intros Htab. apply (Hf0 Htab).
Qed.

(** ** Fullscreen and maximized *)
Lemma set_flags_runs (set : bool -> Column -> Column) b c :
  (forall v c, tiles (set v c) = tiles c /\ data (set v c) = data c /\ active_tile_idx (set v c) = active_tile_idx c
    /\ display_mode (set v c) = display_mode c /\ tab_indicator (set v c) = tab_indicator c
    /\ preset_width_idx (set v c) = preset_width_idx c /\ move_animation (set v c) = move_animation c
    /\ options (set v c) = options c /\ view_size (set v c) = view_size c /\ working_area (set v c) = working_area c
    /\ parent_area (set v c) = parent_area c /\ scale (set v c) = scale c) ->
  col_mid E c -> 
  runs (update_tile_sizes true (set b c)) (fun c' => col_mid E c' /\ col_same c c'
    /\ exists ts, c' = set_tiles ts (set b c) /\ length ts = length (tiles c)).
Proof.
  intros Hset [Hb Ha Hp]. destruct (Hset b c) as (Ht & Hd & Hac & Hm & Hti & Hpr & Hmv & H1 & H2 & H3 & H4 & H5).
  assert (Hb1 : col_base E (set b c)).
  { eapply col_base_set; [exact Hb|eapply in_env_set; [apply Hb|done..]|done|by rewrite Hd|rewrite Hd; apply Hb|rewrite Hpr; apply Hb
      |rewrite Hmv; apply Hb|rewrite Hti; apply Hb]. }
  unfold update_tile_sizes. finish (sizes_runs E); [done|by rewrite Ht, Hac|].
  intros c' _ (Hmid & Hsame & ts & -> & Hl). split_and!; [done| |].
  - transitivity (set b c); [|done]. split; [|done]. apply col_like_intro; try done; by rewrite ?Hd, ?Hti.
  - exists ts. split; [done|]. congruence.
Qed.

(** What setting a flag asks for: a lone tile, or tabs. *)
Lemma set_fullscreen_mid_runs b c :
  col_mid E c -> (b = true -> length (tiles c) = 1 \/ tabbed c = true) ->
  runs (Column.set_fullscreen b c) (fun c' => col_mid E c' /\ col_same c c' /\ is_pending_fullscreen c' = b
    /\ is_pending_maximized c' = is_pending_maximized c /\ tabbed c' = tabbed c /\ length (tiles c') = length (tiles c)).
Proof.
  intros Hc Hb. unfold Column.set_fullscreen. apply runs_if; intros Eb.
  { apply Bool.eqb_prop in Eb. returns. by split_and!. }
  step rassert_ok.
  { destruct b; [|done]. cbn. destruct (Hb eq_refl) as [H|H]; [by rewrite H|]. rewrite H. by rewrite orb_true_r. }
  finish (set_flags_runs set_is_pending_fullscreen b); [by intros v []|done|].
  intros c' _ (? & ? & ts & -> & Hl). by split_and!.
Qed.
Lemma set_maximized_mid_runs b c :
  col_mid E c -> (b = true -> length (tiles c) = 1 \/ tabbed c = true) ->
  runs (Column.set_maximized b c) (fun c' => col_mid E c' /\ col_same c c' /\ is_pending_maximized c' = b
    /\ is_pending_fullscreen c' = is_pending_fullscreen c /\ tabbed c' = tabbed c /\ length (tiles c') = length (tiles c)).
Proof.
  intros Hc Hb. unfold Column.set_maximized. apply runs_if; intros Eb.
  { apply Bool.eqb_prop in Eb. returns. by split_and!. }
  step rassert_ok.
  { destruct b; [|done]. cbn. destruct (Hb eq_refl) as [H|H]; [by rewrite H|]. rewrite H. by rewrite orb_true_r. }
  finish (set_flags_runs set_is_pending_maximized b); [by intros v []|done|].
  intros c' _ (? & ? & ts & -> & Hl). by split_and!.
Qed.

Lemma set_fullscreen_runs b c :
  col_ok E c -> (b = true -> length (tiles c) = 1 \/ tabbed c = true) ->
  runs (Column.set_fullscreen b c) (fun c' => col_ok E c' /\ col_same c c').
Proof.
  intros [Hc Hs] Hb. finish set_fullscreen_mid_runs; [done..|]. intros c' _ (? & ? & Hf & Hm & Ht & Hl).
  split; [|done]. split; [done|]. unfold single, pending_sizing_mode in *. rewrite Hf, Hm, Ht, Hl.
  destruct b; [by intros _; apply Hb|]. intros Hn. apply Hs. by destruct (is_pending_fullscreen c).
Qed.
Lemma set_maximized_runs b c :
  col_ok E c -> (b = true -> length (tiles c) = 1 \/ tabbed c = true) ->
  runs (Column.set_maximized b c) (fun c' => col_ok E c' /\ col_same c c').
Proof.
  intros [Hc Hs] Hb. finish set_maximized_mid_runs; [done..|]. intros c' _ (? & ? & Hf & Hm & Ht & Hl).
  split; [|done]. split; [done|]. unfold single, pending_sizing_mode in *. rewrite Hf, Hm, Ht, Hl.
  destruct b; [by intros _; apply Hb|]. intros Hn. apply Hs. by destruct (is_pending_fullscreen c), (is_pending_maximized c).
Qed.

Lemma matching_preset_runs w ps : runs (matching_preset w ps) (fun o => forall i, o = Some i -> i < length ps).
Proof.
  induction ps as [|p ps IH]; cbn [matching_preset]; [done|].
  eapply runs_bind with (R := fun _ => True).
  { unfold column_width_from. destruct p; [|done]. runs clamp_runs; [by vm_compute|done]. }
  intros w' _ _. apply runs_if; intros _; [returns; intros i [= <-]; cbn; lia|].
  runs IH. intros [i|] _ Hi; returns; [|done]. intros j [= <-]. specialize (Hi i eq_refl). cbn. lia.
Qed.

Lemma new_with_tile_runs vs1 sc1 t w full :
  tile_ok (e_options E) vs1 sc1 t -> synced t ->
  runs (new_with_tile cv t (e_view_size E) (e_working_area E) (e_parent_area E) (e_scale E) w full)
    (fun c => col_ok E c /\ ids c = [Tile.id t] /\ active_tile_idx c = 0).
Proof.
  intros Ht Hs. unfold new_with_tile. rewrite (to_options _ _ _ _ Ht). runs matching_preset_runs. intros pr _ Hpr.
  set (c0 := Build_Column _ _ _ _ _ _ _ _ _ _ _ _ _ _ _ _).
  assert (H0 : col_base E c0).
  { constructor; try done. split; cbn; [by intros d i H%elem_of_nil|done]. }
  runs (add_tile_at_runs (e_options E) vs1 sc1 0 t c0); [done|cbn; lia|done|cbn; lia|done|done|].
  intros c1 _ (H1 & Hids & Ha & Ho & _). cbn in Hids, Ha.
  assert (Hl : length (tiles c1) = 1) by (transitivity (length (ids c1)); [symmetry; apply length_fmap|by rewrite Hids]).
  eapply runs_bind with (R := fun c => col_ok E c /\ col_same c1 c).
  { destruct (win_pending_sizing_mode _); [by returns|apply set_maximized_runs; [done|by left]|apply set_fullscreen_runs; [done|by left]]. }
  intros c2 _ [H2 Hs2]. assert (Hres : ids c2 = [Tile.id t] /\ active_tile_idx c2 = 0).
  { destruct Hs2 as [[] ?]. split; congruence. }
  apply runs_if; intros _; [|by returns].
  runs start_tab_runs; [rewrite (ie_options _ _ (cb_env _ _ (cm_base _ _ (proj1 H2)))); apply HE|].
  intros ti _ [Hc Ht']. returns. destruct (set_tab_indicator_ok ti c2 Hc Ht' H2) as [H3 Hs3].
  split; [done|]. destruct Hs3 as [[] ?]. destruct Hres. split; congruence.
Qed.

(** ** Configuration changes *)
Lemma sort_insert_length x xs : length (sort_insert x xs) = S (length xs).
Proof. induction xs as [|y ys IH]; cbn; [done|]. destruct (fltb y x); cbn; lia. Qed.
Lemma sort_floats_runs xs : Forall nonneg xs -> runs (sort_floats xs) (fun ys => length ys = length xs).
Proof.
  intros Hx. unfold sort_floats. replace (existsb is_nan xs) with false.
  - rewrite andb_false_r. unfold runs. clear. induction xs as [|x xs IH]; [done|]. cbn. by rewrite sort_insert_length, IH.
  - symmetry. apply not_true_iff_false. intros (x & Hin%list_elem_of_In & Hn)%existsb_exists.
    rewrite Forall_forall in Hx. apply Hx, nonneg_not_nan in Hin. congruence.
Qed.

Lemma convert_heights_runs c :
  col_base E c -> tiles c <> [] ->
  runs (convert_heights_to_auto c) (fun c' => exists ds, c' = set_data ds c /\ td_size <$> ds = td_size <$> data c
    /\ Forall (fun d => is_auto (td_height d) = true) ds).
Proof.
  intros Hb Hne. unfold convert_heights_to_auto. runs sort_floats_runs.
  { apply Forall_fmap. eapply Forall_impl; [apply (cb_tiles _ _ Hb)|]. intros t Ht. cbn. eapply tile_size_nonneg; [done|apply HE]. }
  intros ys _ Hy. rewrite length_fmap in Hy. runs runs_index.
  { assert (length ys <> 0) by (rewrite Hy; by destruct (tiles c)). apply Nat.div_lt; lia. }
  intros m _ _. returns. eexists. split; [done|]. split.
  - rewrite <-list_fmap_compose. transitivity (td_size <$> (zip (data c) ((fun t => (Tile.tile_size t).2) <$> tiles c)).*1).
    + rewrite <-list_fmap_compose. by apply list_fmap_ext.
    + rewrite fst_zip_all; [done|]. rewrite length_fmap, (length_data E c Hb). lia.
  - apply Forall_fmap, Forall_forall. by intros [d h] _.
Qed.

Lemma heights_ok_auto o ds : Forall (fun d => is_auto (td_height d) = true) ds -> heights_ok o ds.
Proof.
  intros HF. split.
  - intros d i Hd Hi. rewrite Forall_forall in HF. apply HF in Hd. by rewrite Hi in Hd.
  - intros i j d e Hi _ Hd _. pose proof (Forall_lookup_1 _ _ _ _ HF Hi) as H. cbn in H. congruence.
Qed.

Lemma zip_update_heights ts ds : length ts = length ds -> td_height <$> zip_with td_update ts ds = td_height <$> ds.
Proof. revert ds. induction ts as [|t ts IH]; intros [|d ds] H; try done. cbn. f_equal. apply IH. by injection H. Qed.
Lemma zip_update_sizes ts ds : length ts = length ds -> td_size <$> zip_with td_update ts ds = Tile.tile_size <$> ts.
Proof. revert ds. induction ts as [|t ts IH]; intros [|d ds] H; try done. cbn. f_equal. apply IH. by injection H. Qed.

Lemma heights_ok_ext o o' ds ds' :
  td_height <$> ds' = td_height <$> ds -> length (preset_window_heights o') = length (preset_window_heights o) ->
  heights_ok o ds -> heights_ok o' ds'.
Proof.
  intros Heq Hl [Hp Ho]. assert (Hlk : forall i d, ds' !! i = Some d -> exists e, ds !! i = Some e /\ td_height e = td_height d).
  { intros i d Hi. pose proof (f_equal (.!! i) Heq) as H. cbn in H. rewrite !list_lookup_fmap, Hi in H.
    destruct (ds !! i) as [e|]; [|done]. injection H as H. by exists e. }
  split.
  - intros d i (k & Hk)%list_elem_of_lookup Hi. destruct (Hlk k d Hk) as (e & He & Heh). rewrite Hl. eapply Hp; [|by rewrite Heh].
    by eapply list_elem_of_lookup_2.
  - intros i j d e Hi Hj Hd He. destruct (Hlk i d Hi) as (d' & Hd' & Hdh). destruct (Hlk j e Hj) as (e' & He' & Heh).
    eapply Ho; [exact Hd'|exact He'|congruence..].
Qed.

Lemma update_config_runs E' c :
  env_ok E' -> col_ok E c ->
  runs (update_config (e_view_size E') (e_working_area E') (e_parent_area E') (e_scale E') (e_options E') c)
    (fun c' => col_ok E' c' /\ ids c' = ids c /\ sizing_mode c' = sizing_mode c /\ active_tile_idx c' = active_tile_idx c).
Proof.
  intros HE' [[Hb Ha Hp] Hs]. unfold update_config. pose proof (length_data E c Hb) as Hld.
  assert (Hne : tiles c <> []) by (by destruct (tiles c); [cbn in Ha; lia|]).
  destruct (cb_env _ _ Hb) as [Ho _ _ _ _]. rewrite Ho.
  set (c0 := if presets_eqb _ (preset_column_widths _) then c else _).
  assert (H0 : col_base E c0 /\ tiles c0 = tiles c /\ data c0 = data c /\ active_tile_idx c0 = active_tile_idx c
    /\ pending_sizing_mode c0 = pending_sizing_mode c /\ display_mode c0 = display_mode c /\ move_animation c0 = move_animation c
    /\ tab_indicator c0 = tab_indicator c
    /\ (forall i, preset_width_idx c0 = Some i -> i < length (preset_column_widths (e_options E')))).
  { unfold c0. destruct (presets_eqb _ _) eqn:Ep.
    - split_and!; try done. rewrite <-(presets_eqb_length _ _ Ep). apply Hb.
    - split_and!; try done. eapply col_base_set; [exact Hb|eapply in_env_set; [apply Hb|done..]|done..|apply Hb|done|apply Hb|apply Hb]. }
  clearbody c0. destruct H0 as (Hb0 & Ht0 & Hd0 & Ha0 & Hps0 & Hm0 & Hmv0 & Hti0 & Hpr0).
  eapply runs_bind with (R := fun c1 => exists ds, c1 = set_data ds c0 /\ length ds = length (data c) /\ heights_ok (e_options E') ds).
  { apply runs_if; intros Ek.
    - returns. exists (data c0). split_and!; [by destruct c0|by rewrite Hd0|].
      eapply heights_ok_ext; [done| |rewrite Hd0; apply Hb]. by rewrite (presets_eqb_length _ _ Ek).
    - finish convert_heights_runs; [done|by rewrite Ht0|]. intros c1 _ (ds & -> & Hsz & Hauto). exists ds.
      split_and!; [done| |by apply heights_ok_auto]. apply (f_equal length) in Hsz. rewrite !length_fmap, Hd0 in Hsz. done. }
  intros c1 _ (ds & -> & Hlds & Hh).
  set (c2 := Build_Column _ _ _ _ _ _ _ _ _ _ _ _ _ _ _ _).
  assert (Hlt : length (tiles c2) = length (tiles c)) by (unfold c2; cbn; by rewrite length_fmap, Ht0).
  assert (H2 : col_base E' c2).
  { constructor.
    - done.
    - unfold c2. cbn. rewrite Ht0. apply Forall_fmap. eapply Forall_impl; [apply Hb|]. intros t Ht. cbn.
      eapply update_config_ok; [apply HE'|apply HE'|done].
    - unfold c2. cbn. rewrite Ht0. apply Forall_fmap. eapply Forall_impl; [apply (cb_synced _ _ Hb)|]. done.
    - unfold c2. cbn. apply zip_update_sizes. rewrite length_fmap, Ht0. lia.
    - eapply heights_ok_ext; [|done|exact Hh]. unfold c2. cbn. apply zip_update_heights. rewrite length_fmap, Ht0. lia.
    - exact Hpr0.
    - unfold c2. cbn. rewrite Hmv0. apply Hb.
    - unfold c2. cbn. rewrite Hti0. apply Hb. }
  assert (Hps2 : pending_sizing_mode c2 = pending_sizing_mode c) by exact Hps0.
  assert (Hs2 : single c2).
  { unfold single. rewrite Hps2, Hlt. intros Hn. destruct (Hs Hn) as [?|Ht]; [by left|right].
    unfold tabbed, c2 in *. cbn. by rewrite Hm0. }
  assert (Hview : ids c2 = ids c /\ sizing_mode c2 = sizing_mode c /\ active_tile_idx c2 = active_tile_idx c).
  { split_and!; [| |exact Ha0].
    - unfold ids, c2. cbn. rewrite Ht0, <-list_fmap_compose. done.
    - apply sizing_mode_ext. unfold c2. cbn. rewrite Ht0, <-list_fmap_compose. done. }
  apply runs_if; intros _.
  - finish sizes_ok_runs; [done|rewrite Hlt; cbn; lia|done|]. intros c3 _ [H3 [[] ?]]. destruct Hview as (? & ? & ?).
    split_and!; [done|congruence..].
  - returns. split; [|done]. split; [|done]. constructor; [done|rewrite Hlt; cbn; lia|].
    rewrite Hps2. unfold c2. cbn. rewrite Ht0. apply Forall_fmap. by eapply Forall_impl.
Qed.

(** ** A window changed *)
Lemma position_of_ext x c c' : ids c' = ids c -> position_of x c' = position_of x c.
Proof.
  unfold position_of, ids. generalize (tiles c), (tiles c'). induction l as [|t l IH]; intros [|t' l'] H; try done.
  cbn in H. injection H as Ht H. cbn. unfold has_id. rewrite Ht. destruct (bool_decide _); [done|]. f_equal. by apply IH.
Qed.

Lemma heights_ok_insert_same ds i d d' :
  ds !! i = Some d -> td_height d' = td_height d -> heights_ok (e_options E) ds -> heights_ok (e_options E) (<[i := d']> ds).
Proof.
  intros Hi Hh. apply heights_ok_ext; [|done]. rewrite list_fmap_insert, Hh. apply list_insert_id. by rewrite list_lookup_fmap, Hi.
Qed.

(** The client changed the window of tile [i] to [w]; the column catches up. *)
Lemma update_window_runs x i t w c :
  col_ok E c -> position_of x c = Some i -> tiles c !! i = Some t ->
  win_id w = win_id (Tile.window t) -> win_ok w -> win_pending_sizing_mode w = pending t ->
  runs (update_window cv x (set_tiles (<[i := Tile.set_window w t]> (tiles c)) c))
    (fun c' => col_ok E c' /\ ids c' = ids c /\ active_tile_idx c' = active_tile_idx c).
Proof.
  intros [[Hb Ha Hp] Hs] Hpos Ht Hid Hw Hpw. pose proof (length_data E c Hb) as Hld.
  set (t1 := Tile.set_window w t). set (c1 := set_tiles (<[i := t1]> (tiles c)) c).
  pose proof (lookup_lt_Some _ _ _ Ht) as Hi. pose proof (Forall_lookup_1 _ _ _ _ (cb_tiles _ _ Hb) Ht) as Htok. cbn in Htok.
  assert (Ht1 : tile_in t1) by (destruct Htok; by constructor).
  assert (Hids1 : ids c1 = ids c).
  { unfold ids, c1. cbn. rewrite list_fmap_insert. apply list_insert_id. rewrite list_lookup_fmap, Ht. cbn. f_equal. symmetry. exact Hid. }
  unfold update_window. step unwrap_ok; [by rewrite (position_of_ext x c c1 Hids1)|].
  step index_ok; [unfold c1; cbn; by rewrite list_lookup_insert_eq|].
  destruct (lookup_lt_is_Some_2 (data c) i) as [d Hd]; [lia|]. step index_ok; [exact Hd|].
  runs (tile_update_window_runs (e_options E) (e_view_size E) (e_scale E)); [apply HE|done|apply HE|done|].
  intros t2 _ (Ht2 & Hsy2 & Hid2 & Hp2).
  set (d2 := td_update t2 d). set (c2 := set_tiles _ (set_data _ c1)).
  assert (Htiles : tiles c2 = <[i := t2]> (tiles c)) by (unfold c2, c1; cbn; by rewrite list_insert_insert_eq).
  assert (Hb2 : col_base E c2).
  { constructor.
    - eapply in_env_set; [apply Hb|done..].
    - rewrite Htiles. apply Forall_insert; [apply Hb|done].
    - rewrite Htiles. apply Forall_insert; [apply (cb_synced _ _ Hb)|done].
    - rewrite Htiles. unfold c2. cbn. rewrite !list_fmap_insert, (cb_data _ _ Hb). done.
    - unfold c2. cbn. eapply heights_ok_insert_same; [exact Hd|done|apply Hb].
    - apply Hb.
    - apply Hb.
    - apply Hb. }
  assert (H2 : col_ok E c2).
  { split; [constructor; [done|rewrite Htiles, length_insert; exact Ha|]|].
    - rewrite Htiles. apply Forall_insert; [exact Hp|]. pose proof (Forall_lookup_1 _ _ _ _ Hp Ht) as Hpt. cbn in Hpt.
      change (pending_sizing_mode c2) with (pending_sizing_mode c). rewrite <-Hpt, <-Hpw, Hp2. done.
    - unfold single. rewrite Htiles, length_insert. exact Hs. }
  assert (Hids2 : ids c2 = ids c).
  { unfold ids. rewrite Htiles, list_fmap_insert. apply list_insert_id. rewrite list_lookup_fmap, Ht. cbn. f_equal.
    rewrite Hid2. symmetry. exact Hid. }
  apply runs_if; intros _; [|by returns].
  finish (iter_tiles_runs _ c2); [done| |].
  - intros j t' Ht'. apply runs_if; intros _; [|by apply kept_refl]. destruct (Tile.resize_animation t2).
    + apply animate_move_y_with_runs; [done|done|]. unfold c2, c1. cbn. rewrite (ie_options _ _ (cb_env _ _ Hb)). apply HE.
    + by apply offset_move_y_runs.
  - intros c3 _ Hk. destruct (kept_ok _ _ Hk H2) as [H3 [[] Ha3]]. split_and!; [done|congruence|]. by rewrite Ha3.
Qed.

Lemma start_open_animation_runs x c :
  col_ok E c -> runs (Column.start_open_animation cv x c) (fun '(_, c') => col_ok E c' /\ col_same c c').
Proof.
  intros Hc. unfold Column.start_open_animation. destruct (position_of x c) as [i|] eqn:Ei; [|by returns].
  runs update_tile_runs; [apply Hc|by eapply position_of_lt|intros t Ht; by apply start_open_runs; [apply HE|..]|].
  intros c1 _ Hk. pose proof (kept_ok _ _ Hk Hc) as [H1 Hs1].
  eapply runs_bind with (R := fun c2 => col_ok E c2 /\ col_same c1 c2); [|intros c2 _ [? ?]; returns; split; [done|by transitivity c1]].
  apply runs_if; intros _; [|by returns]. runs start_tab_runs; [rewrite (ie_options _ _ (cb_env _ _ (cm_base _ _ (proj1 H1)))); apply HE|].
  intros ti _ [Hcf Hti]. returns. by apply set_tab_indicator_ok.
Qed.

(** ** Moving tiles *)
Definition swap_nat (i j k : nat) : nat := if decide (k = i) then j else if decide (k = j) then i else k.
Lemma swap_nat_inj i j : Inj (=) (=) (swap_nat i j).
Proof. intros a b. unfold swap_nat. repeat case_decide; congruence. Qed.

Definition swapped {A} (i j : nat) (l k : list A) : Prop := length k = length l /\ forall n, k !! n = l !! swap_nat i j n.

Lemma vec_swap_swapped {A} i j (x y : A) l :
  l !! i = Some x -> l !! j = Some y -> swapped i j l (<[i := y]> (<[j := x]> l)).
Proof.
  intros Hi Hj. pose proof (lookup_lt_Some _ _ _ Hi). pose proof (lookup_lt_Some _ _ _ Hj).
  split; [by rewrite !length_insert|]. intros n. unfold swap_nat. repeat case_decide; subst.
  - rewrite list_lookup_insert_eq by (rewrite length_insert; lia). done.
  - rewrite list_lookup_insert_ne, list_lookup_insert_eq by lia. done.
  - by rewrite !list_lookup_insert_ne by lia.
Qed.
Lemma swapped_perm {A} i j (l k : list A) : swapped i j l k -> k ≡ₚ l.
Proof. intros [Hl Hs]. apply Permutation_inj. split; [done|]. exists (swap_nat i j). split; [apply swap_nat_inj|done]. Qed.
Lemma swapped_fmap {A B} (f : A -> B) i j l k : swapped i j l k -> swapped i j (f <$> l) (f <$> k).
Proof. intros [Hl Hs]. split; [by rewrite !length_fmap|]. intros n. by rewrite !list_lookup_fmap, Hs. Qed.
Lemma swapped_eq {A} i j (l k k' : list A) : swapped i j l k -> swapped i j l k' -> k = k'.
Proof. intros [_ H1] [_ H2]. apply list_eq. intros n. by rewrite H1, H2. Qed.

Lemma existsb_perm {A} (p : A -> bool) l k : l ≡ₚ k -> existsb p l = existsb p k.
Proof.
  intros H. apply eq_true_iff_eq. rewrite !existsb_exists. split; intros (x & Hx & Hp); exists x; (split; [|done]);
    apply list_elem_of_In; apply list_elem_of_In in Hx; [by rewrite <-H|by rewrite H].
Qed.

Lemma swap_col i j ts ds c :
  col_ok E c -> i < length (tiles c) -> j < length (tiles c) -> swapped i j (tiles c) ts -> swapped i j (data c) ds ->
  col_ok E (set_active_tile_idx j (set_data ds (set_tiles ts c)))
  /\ sizing_mode (set_active_tile_idx j (set_data ds (set_tiles ts c))) = sizing_mode c
  /\ (forall w, caches c w -> caches (set_active_tile_idx j (set_data ds (set_tiles ts c))) w).
Proof.
  intros [[Hb Ha Hp] Hs] Hi Hj Hst Hsd. set (c' := set_active_tile_idx _ _).
  pose proof (swapped_perm _ _ _ _ Hst) as Pt. pose proof (swapped_perm _ _ _ _ Hsd) as Pd.
  assert (Hl : length ts = length (tiles c)) by apply Hst.
  assert (Hmode : sizing_mode c' = sizing_mode c).
  { unfold sizing_mode, c'. cbn. by rewrite !(existsb_perm _ _ _ Pt). }
  split_and!; [|done|].
  - split; [constructor|].
    + constructor.
      * eapply in_env_set; [apply Hb|done..].
      * unfold c'. cbn. rewrite Pt. apply Hb.
      * unfold c'. cbn. rewrite Pt. apply Hb.
      * unfold c'. cbn. eapply (swapped_eq i j (td_size <$> data c)); [by apply swapped_fmap|].
        rewrite (cb_data _ _ Hb). by apply swapped_fmap.
      * destruct (cb_heights _ _ Hb) as [Hh Ho]. unfold c'. cbn. split.
        -- intros d k Hd. apply Hh. by rewrite <-Pd.
        -- destruct Hsd as [_ Hsd]. intros a b d e Hd He Hda Hea. rewrite Hsd in Hd, He.
           pose proof (Ho _ _ _ _ Hd He Hda Hea) as H. by apply swap_nat_inj in H.
      * apply Hb.
      * apply Hb.
      * apply Hb.
    + unfold c'. cbn. lia.
    + unfold c'. cbn. rewrite Pt. exact Hp.
    + unfold single, c'. cbn. rewrite Hl. exact Hs.
  - intros w (ws & m & Hw & Hm & Hwm). exists ws, m. split_and!; [|done|].
    + rewrite Hw. unfold widths, c'. cbn. by rewrite Pd.
    + rewrite Hmode. unfold c'. cbn. rewrite Hl. exact Hwm.
Qed.

Lemma move_tile_runs j c :
  let i := active_tile_idx c in
  col_ok E c -> j < length (tiles c) -> S j = i \/ j = S i ->
  runs (move_tile cv j c) (fun c' => col_ok E c' /\ sizing_mode c' = sizing_mode c /\ (forall w, caches c w -> caches c' w)
    /\ active_tile_idx c' = j /\ swapped i j (ids c) (ids c')).
Proof.
  intros i Hc Hj Hij. pose proof (cm_base _ _ (proj1 Hc)) as Hb. pose proof (cm_active _ _ (proj1 Hc)) as Ha. fold i in Ha.
  pose proof (length_data E c Hb) as Hld. unfold move_tile. fold i.
  runs tile_offsets_runs; [done..|]. intros os _ Hos.
  destruct (lookup_lt_is_Some_2 os i) as [p Hp]; [lia|]. destruct (lookup_lt_is_Some_2 os (S i)) as [q Hq]; [lia|].
  step unwrap_ok; [done|]. step unwrap_ok; [done|].
  destruct (lookup_lt_is_Some_2 (tiles c) i) as [ti Hti]; [lia|]. destruct (lookup_lt_is_Some_2 (tiles c) j) as [tj Htj]; [lia|].
  destruct (lookup_lt_is_Some_2 (data c) i) as [di Hdi]; [lia|]. destruct (lookup_lt_is_Some_2 (data c) j) as [dj Hdj]; [lia|].
  step vec_swap_ok; [done..|]. step vec_swap_ok; [done..|].
  pose proof (vec_swap_swapped _ _ _ _ _ Hti Htj) as Hst. pose proof (vec_swap_swapped _ _ _ _ _ Hdi Hdj) as Hsd.
  set (ts := <[i := tj]> _) in *. set (ds := <[i := dj]> _) in *.
  destruct (swap_col i j ts ds c Hc) as (H1 & Hm1 & Hw1); [done..|]. set (c1 := set_active_tile_idx j _) in *.
  assert (Hl1 : length (tiles c1) = length (tiles c)) by apply Hst.
  pose proof (cm_base _ _ (proj1 H1)) as Hb1.
  runs (tile_offset_runs E c1 j); [done|done|lia|]. intros r _ _.
  assert (Hfin : forall k f c2, tiles_kept c1 c2 -> k < length (tiles c) ->
    runs (update_tile k (Tile.animate_move_y_from cv f) c2) (fun c' => col_ok E c' /\ sizing_mode c' = sizing_mode c
      /\ (forall w, caches c w -> caches c' w) /\ active_tile_idx c' = j /\ swapped i j (ids c) (ids c'))).
  { intros k f c2 Hk Hlt. finish update_tile_runs; [by eapply kept_base|rewrite (kept_length _ _ Hk); lia| |].
    - intros t Ht. by apply animate_move_y_runs; [apply HE|..].
    - intros c3 _ Hk3. pose proof (tiles_kept_trans _ _ _ Hk Hk3) as Hk13.
      destruct (kept_ok _ _ Hk13 H1) as [H3 [[Hids Hmode Hwid] Hact]]. split_and!; [done|congruence|auto|by rewrite Hact|].
      rewrite Hids. by apply swapped_fmap. }
  runs update_tile_runs; [done|lia|intros t Ht; by apply animate_move_y_runs; [apply HE|..]|]. intros c2 _ Hk2.
  apply runs_if; intros Hlt.
  - apply Nat.ltb_lt in Hlt. apply Hfin; [done|lia].
  - apply Nat.ltb_ge in Hlt. step usub_ok; [lia|]. apply Hfin; [done|lia].
Qed.

Lemma move_up_runs c :
  col_ok E c ->
  runs (Column.move_up cv c) (fun '(b, c') => col_ok E c' /\ sizing_mode c' = sizing_mode c /\ (forall w, caches c w -> caches c' w)
    /\ active_tile_idx c' = active_tile_idx c - 1
    /\ if b : bool then swapped (active_tile_idx c) (active_tile_idx c - 1) (ids c) (ids c') else c' = c).
Proof.
  intros Hc. pose proof (cm_active _ _ (proj1 Hc)). unfold Column.move_up. apply runs_if; intros Hb.
  { apply bool_decide_eq_true_1 in Hb. returns. split_and!; [done..|lia|done]. }
  apply bool_decide_eq_false_1 in Hb. runs move_tile_runs; [done|lia|lia|]. intros c' _ (? & ? & ? & ? & ?). by returns.
Qed.
Lemma move_down_runs c :
  col_ok E c ->
  runs (Column.move_down cv c) (fun '(b, c') => col_ok E c' /\ sizing_mode c' = sizing_mode c /\ (forall w, caches c w -> caches c' w)
    /\ active_tile_idx c' = ((active_tile_idx c + 1) `min` (length (tiles c) - 1))%nat
    /\ if b : bool then swapped (active_tile_idx c) ((active_tile_idx c + 1) `min` (length (tiles c) - 1)) (ids c) (ids c') else c' = c).
Proof.
  intros Hc. pose proof (cm_active _ _ (proj1 Hc)). unfold Column.move_down. step usub_ok; [lia|]. apply runs_if; intros Hb.
  { apply bool_decide_eq_true_1 in Hb. returns. split_and!; [done..|lia|done]. }
  apply bool_decide_eq_false_1 in Hb. replace ((active_tile_idx c + 1) `min` (length (tiles c) - 1))%nat with (active_tile_idx c + 1) by lia.
  runs move_tile_runs; [done|lia|lia|]. intros c' _ (? & ? & ? & ? & ?). by returns.
Qed.
End ops.

(** * Sizes and display of columns

    The operations of a column that change its width, the heights of its tiles
    and how it is displayed: they run and preserve the invariant. *)
Section sizes.
Context {LE : LayoutElement} {LEL : LayoutElementLaws} {GE : Geometry} {GL : GeometryLaws} {LM : Libm} {KF : Keyframe}.
Implicit Types (t : Tile.Tile) (c : Column.Column).
Import Column.
Context (E : Env) (HE : env_ok E) (cv : ClockView) (Hcv : cv_ok cv).

Abbreviation tile_in := (tile_ok (e_options E) (e_view_size E) (e_scale E)).
Abbreviation kept_in := (kept (e_options E) (e_view_size E) (e_scale E)).


Lemma ok_options c : col_ok E c -> options c = e_options E.
Proof. intros Hc. apply Hc. Qed.
Lemma ok_base c : col_ok E c -> col_base E c.
Proof. intros Hc. apply Hc. Qed.

(** ** Widths *)

(** Other width, preset, or full-width and maximized flags; then the tiles are
    asked for their sizes. *)
Lemma resized_runs a c c' :
  col_ok E c -> in_env E c' -> tiles c' = tiles c -> td_size <$> data c' = td_size <$> data c -> heights_ok (e_options E) (data c') ->
  (forall i, preset_width_idx c' = Some i -> i < length (preset_column_widths (e_options E))) ->
  move_animation c' = move_animation c -> tab_indicator c' = tab_indicator c -> active_tile_idx c' = active_tile_idx c ->
  display_mode c' = display_mode c -> is_pending_fullscreen c' = is_pending_fullscreen c ->
  is_pending_maximized c' = is_pending_maximized c \/ is_pending_maximized c' = false ->
  runs (update_tile_sizes a c') (fun c2 => col_ok E c2 /\ col_same c c2).
Proof.
  intros [[Hb Ha Hp] Hs] He Ht Hd Hh Hpr Hmv Hti Hac Hm Hf Hmx.
  assert (Hb' : col_base E c').
  { eapply col_base_set; [exact Hb|done..|rewrite Hmv; apply Hb|rewrite Hti; apply Hb]. }
  assert (Hs' : single c').
  { unfold single, pending_sizing_mode, tabbed in *. rewrite Ht, Hf, Hm. intros Hn. apply Hs. intros Hn'. apply Hn.
    destruct (is_pending_fullscreen c); [done|]. destruct Hmx as [->| ->]; done. }
  unfold update_tile_sizes. finish (sizes_ok_runs E); [done|by rewrite Ht, Hac|done|].
  intros c2 _ [H2 Hs2]. split; [done|]. transitivity c'; [|done]. split; [|done].
  apply col_like_intro; try done; [|by rewrite Hti]. rewrite (ie_scale _ _ He). symmetry. apply Hb.
Qed.

Lemma set_column_width_runs change i a c :
  col_ok E c -> default (active_tile_idx c) i < length (tiles c) ->
  runs (set_column_width change i a c) (fun c' => col_ok E c' /\ col_same c c').
Proof.
  intros Hc Hi. unfold set_column_width. eapply runs_bind with (R := fun _ => True).
  - assert (Hcl : forall x lo hi f, fleb lo hi = true -> runs (w ← fclamp x lo hi; mret (f w)) (fun _ : ColumnWidth => True)).
    { intros x lo hi f Hle. runs clamp_runs; [done|]. done. }
    destruct change as [f|p|d|d]; cbv zeta.
    + runs runs_index; [done|]. intros t _ _. apply Hcl. by vm_compute.
    + apply Hcl. by vm_compute.
    + apply Hcl. by vm_compute.
    + destruct (if _ || _ then _ else _); apply Hcl; by vm_compute.
  - intros w _ _. apply resized_runs; try done; [|apply Hc|by right].
    eapply in_env_set; [apply (ok_base c Hc)|done..].
Qed.

Lemma position_lt {A} (p : A -> bool) l i : position p l = Some i -> i < length l.
Proof. intros H. apply position_Some in H as (x & Hx & _). by eapply lookup_lt_Some. Qed.

Lemma next_preset_runs {A} pi fw (lg sm : A -> bool) l :
  l <> [] -> runs (next_preset pi fw lg sm l) (fun i => i < length l).
Proof.
  intros Hl. assert (length l <> 0) by by destruct l. unfold next_preset. destruct pi as [k|].
  - eapply runs_bind with (R := fun _ => True); [destruct fw; [done|]; rewrite usub_ok by lia; done|].
    intros s _ _. rewrite bool_decide_eq_false_2 by lia. returns. apply Nat.mod_upper_bound. lia.
  - destruct fw; [returns|].
    + destruct (position lg l) as [i|] eqn:Ei; cbn; [by eapply position_lt|lia].
    + unfold rposition. destruct (position sm (reverse l)) as [i|] eqn:Ei; cbn.
      * returns. lia.
      * rewrite usub_ok by lia. unfold runs. lia.
Qed.

Lemma toggle_width_runs i fw c :
  col_ok E c -> default (active_tile_idx c) i < length (tiles c) ->
  runs (toggle_width i fw c) (fun c' => col_ok E c' /\ col_same c c').
Proof.
  intros Hc Hi. unfold toggle_width. rewrite (ok_options c Hc).
  pose proof (oo_widths _ (eo_options _ HE)) as Hne.
  assert (Hres : forall f : PresetSize -> ResolvedSize, f <$> preset_column_widths (e_options E) <> []) by (intros f; by destruct (preset_column_widths _)).
  eapply runs_bind with (R := fun idx => idx < length (preset_column_widths (e_options E))).
  - destruct (if _ || _ then None else _) as [k|].
    + finish next_preset_runs; [apply Hres|]. intros x _ Hx. by rewrite length_fmap in Hx.
    + runs runs_index; [done|]. intros t _ _. finish next_preset_runs; [apply Hres|]. intros x _ Hx. by rewrite length_fmap in Hx.
  - intros idx _ Hidx. runs runs_index; [done|]. intros p _ _. runs set_column_width_runs; [done|cbn; done|].
    intros c' _ [[[Hb Ha Hp] Hs] Hsame]. returns. split; [split; [constructor; try done|done]|].
    + eapply col_base_set; [exact Hb|eapply in_env_set; [apply Hb|done..]|done|done|apply Hb| |apply Hb|apply Hb].
      by intros j [= <-].
    + transitivity c'; [done|]. split; [by apply col_like_intro|done].
Qed.

Lemma toggle_full_width_runs c : col_ok E c -> runs (toggle_full_width c) (fun c' => col_ok E c' /\ col_same c c').
Proof.
  intros Hc. unfold toggle_full_width.
  destruct (is_pending_maximized c) eqn:Em; (apply resized_runs; try done; [|apply Hc|apply Hc|]).
  1, 3: eapply in_env_set; [apply (ok_base c Hc)|done..].
  - by right.
  - left. done.
Qed.

(** ** Heights *)
Definition others_auto (i : nat) (ds : list TileData) : Prop :=
  forall j d, ds !! j = Some d -> j <> i -> is_auto (td_height d) = true.

Lemma set_data_ok ds c :
  col_ok E c -> td_size <$> ds = td_size <$> data c -> heights_ok (e_options E) ds ->
  col_ok E (set_data ds c) /\ col_same c (set_data ds c).
Proof.
  intros [[Hb Ha Hp] Hs] Hd Hh. split; [split; [constructor; try done|done]|split; [by apply col_like_intro|done]].
  eapply col_base_set; [exact Hb|eapply in_env_set; [apply Hb|done..]|done|done|done|apply Hb|apply Hb|apply Hb].
Qed.

Lemma prepare_height_runs i c :
  col_ok E c -> i < length (tiles c) ->
  runs (prepare_height i c) (fun c' => exists ds, c' = set_data ds c /\ td_size <$> ds = td_size <$> data c
    /\ heights_ok (e_options E) ds /\ others_auto i ds).
Proof.
  intros Hc Hi. pose proof (ok_base c Hc) as Hb. unfold prepare_height.
  runs runs_index; [by rewrite (length_data E c Hb)|]. intros d _ Hd. apply runs_if; intros Ha.
  - finish convert_heights_runs; [done|done|by destruct (tiles c); [cbn in Hi; lia|]|]. intros c' _ (ds & -> & Hsz & Hauto).
    exists ds. split_and!; [done|done|by apply heights_ok_auto|]. intros j e He _. exact (Forall_lookup_1 _ _ _ _ Hauto He).
  - returns. exists (data c). split_and!; [by destruct c|done|apply Hb|]. intros j e He Hji.
    destruct (is_auto (td_height e)) eqn:Ee; [done|]. destruct Hji. eapply (ho_one _ _ (cb_heights _ _ Hb)); eauto.
Qed.

Lemma heights_ok_set i h (ds : list TileData) d :
  others_auto i ds -> ds !! i = Some d -> (forall k, h = HeightPreset k -> k < length (preset_window_heights (e_options E))) ->
  heights_ok (e_options E) (<[i := set_height h d]> ds).
Proof.
  intros Ho Hi Hk. pose proof (lookup_lt_Some _ _ _ Hi) as Hlt. split.
  - intros e k (j & Hj)%list_elem_of_lookup He. destruct (decide (j = i)) as [->|Hji].
    + rewrite list_lookup_insert_eq in Hj by done. injection Hj as <-. by apply Hk.
    + rewrite list_lookup_insert_ne in Hj by done. specialize (Ho j e Hj Hji). by rewrite He in Ho.
  - assert (H : forall j e, <[i := set_height h d]> ds !! j = Some e -> is_auto (td_height e) = false -> j = i).
    { intros j e Hj He. destruct (decide (j = i)) as [->|Hji]; [done|]. rewrite list_lookup_insert_ne in Hj by done.
      rewrite (Ho j e Hj Hji) in He. done. }
    intros j k e f Hj Hk' He Hf. rewrite (H j e), (H k f); done.
Qed.

Lemma set_height_sizes i h d (ds : list TileData) : ds !! i = Some d -> td_size <$> <[i := set_height h d]> ds = td_size <$> ds.
Proof. intros Hi. rewrite list_fmap_insert. apply list_insert_id. by rewrite list_lookup_fmap, Hi. Qed.

(** Tile [i] gets height [h], and the column is no longer to be maximized. *)
Lemma set_one_height_runs i h a ds c :
  col_ok E c -> i < length (tiles c) -> td_size <$> ds = td_size <$> data c -> others_auto i ds ->
  (forall k, h = HeightPreset k -> k < length (preset_window_heights (e_options E))) ->
  runs (c' ← set_tile_height i h (set_data ds c); update_tile_sizes a (set_is_pending_maximized false c'))
    (fun c' => col_ok E c' /\ col_same c c').
Proof.
  intros Hc Hi Hsz Ho Hk. pose proof (ok_base c Hc) as Hb. unfold set_tile_height.
  assert (Hl : length ds = length (tiles c)).
  { apply (f_equal length) in Hsz. rewrite !length_fmap in Hsz. rewrite Hsz. by eapply length_data. }
  destruct (lookup_lt_is_Some_2 ds i) as [d Hd]; [lia|]. cbn. rewrite (index_ok i d) by done. cbn [mbind res_bind].
  apply resized_runs; try done; cbn.
  - eapply in_env_set; [apply Hb|done..].
  - by rewrite set_height_sizes.
  - by apply heights_ok_set.
  - apply Hb.
  - by right.
Qed.

Lemma set_window_height_runs change i a c :
  col_ok E c -> default (active_tile_idx c) i < length (tiles c) ->
  runs (set_window_height change i a c) (fun c' => col_ok E c' /\ col_same c c').
Proof.
  intros Hc Hi. unfold set_window_height. set (j := default _ i) in *.
  runs prepare_height_runs; [done..|]. intros c1 _ (ds & -> & Hsz & Hh & Ho).
  assert (Hl : length ds = length (tiles c)).
  { apply (f_equal length) in Hsz. rewrite !length_fmap in Hsz. rewrite Hsz. by eapply length_data, ok_base. }
  runs runs_index; [cbn; lia|]. intros d _ _. runs runs_index; [cbn; lia|]. intros t _ _.
  runs clamp_runs; [by vm_compute|]. intros h _ _. by apply set_one_height_runs.
Qed.

Lemma heights_ok_all_auto ds : heights_ok (e_options E) (set_height auto_1 <$> ds).
Proof. apply heights_ok_auto, Forall_fmap, Forall_forall. done. Qed.

Lemma reset_window_height_runs i c :
  col_ok E c -> default (active_tile_idx c) i < length (tiles c) ->
  runs (reset_window_height i c) (fun c' => col_ok E c' /\ col_same c c').
Proof.
  intros Hc Hi. unfold reset_window_height. pose proof (ok_base c Hc) as Hb.
  eapply runs_bind with (R := fun c1 => exists ds, c1 = set_data ds c /\ td_size <$> ds = td_size <$> data c /\ heights_ok (e_options E) ds).
  - apply runs_if; intros _.
    + returns. eexists. split_and!; [done|by rewrite <-list_fmap_compose|apply heights_ok_all_auto].
    + unfold set_tile_height. runs runs_index; [by rewrite (length_data E c Hb)|]. intros d _ Hd. returns.
      eexists. split_and!; [done|by apply set_height_sizes|]. destruct (cb_heights _ _ Hb) as [Hp Ho].
      set (j := default _ i) in *. pose proof (lookup_lt_Some _ _ _ Hd) as Hlt.
      assert (H : forall k e, <[j := set_height auto_1 d]> (data c) !! k = Some e -> is_auto (td_height e) = false -> data c !! k = Some e).
      { intros k e Hk He. destruct (decide (k = j)) as [->|Hkj].
        - rewrite list_lookup_insert_eq in Hk by done. by injection Hk as <-.
        - by rewrite list_lookup_insert_ne in Hk by done. }
      split.
      * intros e k (n & Hn)%list_elem_of_lookup He. eapply Hp; [|exact He]. eapply list_elem_of_lookup_2, H; [exact Hn|by rewrite He].
      * intros k n e f Hk Hn He Hf. eapply Ho; eauto.
  - intros c1 _ (ds & -> & Hsz & Hh). apply resized_runs; try done; cbn.
    + eapply in_env_set; [apply Hb|done..].
    + apply Hb.
    + by left.
Qed.

Lemma toggle_search_runs i d fw c :
  options c = e_options E -> i < length (tiles c) ->
  runs (toggle_height_search i d fw c) (fun k => k < length (preset_window_heights (e_options E))).
Proof.
  intros Ho Hi. unfold toggle_height_search. runs runs_index; [done|]. intros t _ _.
  runs (runs_mapM _ (fun _ _ => True)).
  { intros p _. runs preset_window_height_runs. done. }
  intros rs _ Hrs. apply Forall2_length in Hrs. rewrite Ho in Hrs. rewrite Hrs.
  apply next_preset_runs. pose proof (oo_heights _ (eo_options _ HE)) as Hne.
  intros ->. by destruct (preset_window_heights _).
Qed.

Lemma toggle_window_height_runs i fw c :
  col_ok E c -> default (active_tile_idx c) i < length (tiles c) ->
  runs (toggle_window_height i fw c) (fun c' => col_ok E c' /\ col_same c c').
Proof.
  intros Hc Hi. unfold toggle_window_height. set (j := default _ i) in *.
  runs prepare_height_runs; [done..|]. intros c1 _ (ds & -> & Hsz & Hh & Ho).
  assert (Hl : length ds = length (tiles c)).
  { apply (f_equal length) in Hsz. rewrite !length_fmap in Hsz. rewrite Hsz. by eapply length_data, ok_base. }
  assert (Hopt : options (set_data ds c) = e_options E) by exact (ok_options c Hc).
  runs runs_index; [cbn; lia|]. intros d _ _.
  eapply runs_bind with (R := fun k => k < length (preset_window_heights (e_options E))).
  - destruct (td_height d) as [w|x|k]; [apply toggle_search_runs; [exact Hopt|exact Hi]..|]. apply runs_if; intros _; [|apply toggle_search_runs; [exact Hopt|exact Hi]].
    rewrite Hopt. apply next_preset_runs. apply HE.
  - intros k _ Hk. apply set_one_height_runs; try done. by intros n [= <-].
Qed.

(** ** Display mode *)
Lemma set_column_display_runs d c :
  col_ok E c ->
  runs (Column.set_column_display cv d c) (fun c' => col_mid E c' /\ ids c' = ids c /\ sizing_mode c' = sizing_mode c
    /\ active_tile_idx c' = active_tile_idx c /\ display_mode c' = d).
Proof.
  intros Hc. unfold Column.set_column_display. apply runs_if; intros Ed.
  { apply bool_decide_eq_true_1 in Ed. returns. split_and!; try done. apply Hc. }
  destruct Hc as [[Hb Ha Hp] Hs]. set (c1 := set_display_mode DisplayNormal c).
  assert (Hb1 : col_base E c1).
  { eapply col_base_set; [exact Hb|eapply in_env_set; [apply Hb|done..]|done..|apply Hb|apply Hb|apply Hb|apply Hb]. }
  runs (tile_offsets_runs E c1); [done..|]. intros os _ Hos.
  eapply runs_bind; [apply (zip_tiles_runs E _ c1); [done|lia|]|].
  { intros i t p Ht. cbn. runs tile_animate_move_runs; [apply HE|done|done|]. intros t' _ Hk. by returns. }
  intros ts _ HF. set (c2 := set_tiles ts.*1 c1).
  assert (Hk12 : tiles_kept E c1 c2) by by eexists.
  assert (Hb2 : col_base E c2) by by eapply kept_base.
  assert (Hmov : config_total (window_movement (options c))) by (rewrite (ie_options _ _ (cb_env _ _ Hb)); apply HE).
  eapply runs_bind with (R := Forall2 kept_in (tiles c2)).
  { apply runs_iter_mut. intros i t Ht. apply (Forall_lookup_1 _ _ _ _ (cb_tiles _ _ Hb2)) in Ht.
    apply runs_if; intros _; [by apply kept_refl|]. by apply animate_alpha_runs. }
  intros ts2 _ HF2. set (c3 := set_tiles ts2 c1).
  assert (Hk23 : tiles_kept E c2 c3) by by exists ts2.
  assert (Hk13 : tiles_kept E c1 c3) by by eapply tiles_kept_trans.
  assert (Hb3 : col_base E c3) by by eapply kept_base.
  eapply runs_bind with (R := fun c4 => exists ti, c4 = set_tab_indicator ti c3 /\ opt_total (fun a => a) (TabIndicator.open_anim ti)).
  { apply runs_if; intros _.
    - runs start_tab_runs; [exact Hcv|exact Hmov|]. intros ti _ [_ Hti]. returns. by exists ti.
    - returns. exists (tab_indicator c3). split; [by destruct c|apply Hb]. }
  intros c4 _ (ti & -> & Hti). set (c5 := set_display_mode d _).
  assert (Hlen : length (tiles c5) = length (tiles c)) by exact (kept_length _ _ _ Hk13).
  assert (Hb5 : col_base E c5).
  { eapply col_base_set; [exact Hb3|eapply in_env_set; [apply Hb3|done..]|done|done|apply Hb3|apply Hb3|apply Hb3|done]. }
  unfold update_tile_sizes. finish (sizes_runs E); [done|rewrite Hlen; exact Ha|].
  intros c6 _ (H6 & Hs6 & ts6 & -> & Hl6). split_and!; [done| | |exact (proj2 Hs6)|done].
  - etransitivity; [apply Hs6|]. change (ids c5) with (ids c3). etransitivity; [apply (kept_like _ _ _ Hk13)|done].
  - etransitivity; [apply Hs6|]. change (sizing_mode c5) with (sizing_mode c3). etransitivity; [apply (kept_like _ _ _ Hk13)|done].
Qed.
End sizes.
