(* ===== verification/Scrolling.v ===== *)
(** * The scrolling layout

    The scrollable strip of columns of one workspace (layout/scrolling.rs,
    [ScrollingSpace]): adding, removing and moving columns and tiles, focus, the
    view and its gestures, sizes, fullscreen and interactive resizing.  Closing
    animations, rendering, and the flags told to windows each refresh are left
    out. *)

From stdpp Require Import base numbers option list.
From Stdlib Require Import ZArith Lia SpecFloat.
From S2P Require Import Prelude.
From S2P Require Import F64.
From S2P Require Import Duration.
From S2P Require Import Clock.
From S2P Require Import Gesture.
From S2P Require Import Animation.
From S2P Require Import LayoutTypes.
From S2P Require Import Tile.
From S2P Require Import Column.

Local Open Scope Z_scope.

Definition VIEW_GESTURE_WORKING_AREA_MOVEMENT : f64 := of_Z 1200.

(** [for x in &mut xs[lo..hi]] *)
Definition on_range {A} (lo hi : nat) (f : A -> res A) (xs : list A) : res (list A) :=
  if (lo <=? hi)%nat && (hi <=? length xs)%nat
  then iter_mut (fun i x => if (lo <=? i)%nat && (i <? hi)%nat then f x else mret x) 0 xs
  else Panic.

(** ** The view *)
Module ViewOffset.
Record ViewGesture := {
  current_view_offset : f64;
  g_animation : option Animation.Animation;
  tracker : SwipeTracker.SwipeTracker;
  delta_from_tracker : f64;
  stationary_view_offset : f64;
  is_touchpad : bool;
  dnd_last_event_time : option Duration;
  dnd_nonzero_start_time : option Duration
}.
Inductive ViewOffset := Static (offset : f64) | Animated (a : Animation.Animation) | InGesture (g : ViewGesture).

Section ops.
Context {LM : Libm} {KF : Keyframe}.
Implicit Types (cv : ClockView).

Definition current cv (v : ViewOffset) : res f64 :=
  match v with
  | Static o => mret o
  | Animated a => Animation.value cv a
  | InGesture g =>
      x ← match g_animation g with Some a => Animation.value cv a | None => mret f0 end;
      mret (current_view_offset g + x)%F
  end.
Definition target (v : ViewOffset) : f64 :=
  match v with Static o => o | Animated a => Animation.to a | InGesture g => current_view_offset g end.
Definition stationary (v : ViewOffset) : f64 :=
  match v with Static o => o | Animated a => Animation.to a | InGesture g => stationary_view_offset g end.
Definition is_gesture (v : ViewOffset) : bool := match v with InGesture _ => true | _ => false end.
Definition is_dnd_scroll (v : ViewOffset) : bool :=
  match v with InGesture g => match dnd_last_event_time g with Some _ => true | None => false end | _ => false end.

Definition offset (delta : f64) (v : ViewOffset) : ViewOffset :=
  match v with
  | Static o => Static (o + delta)%F
  | Animated a => Animated (Animation.offset delta a)
  | InGesture g =>
      InGesture {| current_view_offset := (current_view_offset g + delta)%F; g_animation := g_animation g; tracker := tracker g;
                   delta_from_tracker := (delta_from_tracker g + delta)%F;
                   stationary_view_offset := (stationary_view_offset g + delta)%F; is_touchpad := is_touchpad g;
                   dnd_last_event_time := dnd_last_event_time g; dnd_nonzero_start_time := dnd_nonzero_start_time g |}
  end.
Definition cancel_gesture (v : ViewOffset) : ViewOffset :=
  match v with InGesture g => Static (current_view_offset g) | _ => v end.
Definition stop_anim_and_gesture cv (v : ViewOffset) : res ViewOffset := o ← current cv v; mret (Static o).

(** A gesture that starts from the view as it is. *)
Definition begin cv (touchpad : bool) (dnd : option Duration) (v : ViewOffset) : res ViewOffset :=
  o ← current cv v;
  mret (InGesture {| current_view_offset := o; g_animation := None; tracker := SwipeTracker.new; delta_from_tracker := o;
                     stationary_view_offset := stationary v; is_touchpad := touchpad; dnd_last_event_time := dnd;
                     dnd_nonzero_start_time := None |}).

(** During a drag and drop the view moves to [new] below the gesture. *)
Definition shift_to cv (new : f64) (config : Config.Animation) (g : ViewGesture) : res ViewGesture :=
  let current_pos := (current_view_offset g - delta_from_tracker g)%F in
  let offset_delta := (new - current_view_offset g)%F in
  current ← match g_animation g with Some a => Animation.value cv a | None => mret f0 end;
  a ← Animation.new cv (- offset_delta + current)%F f0 f0 config;
  mret {| current_view_offset := new; g_animation := Some a; tracker := tracker g;
          delta_from_tracker := (new - current_pos)%F; stationary_view_offset := new; is_touchpad := is_touchpad g;
          dnd_last_event_time := dnd_last_event_time g; dnd_nonzero_start_time := dnd_nonzero_start_time g |}.

(** The last event time follows the clock; the animation is dropped when done. *)
Definition advance_gesture cv (g : ViewGesture) : res ViewGesture :=
  let now := cv_now_unadjusted cv in
  let stale := match dnd_last_event_time g with Some t => negb (t =? now) | None => false end in
  a ← Tile.keep_ongoing cv (fun a => a) (fun _ => false) (g_animation g);
  mret {| current_view_offset := current_view_offset g; g_animation := a; tracker := tracker g;
          delta_from_tracker := delta_from_tracker g; stationary_view_offset := stationary_view_offset g;
          is_touchpad := is_touchpad g; dnd_last_event_time := option_map (fun _ => now) (dnd_last_event_time g);
          dnd_nonzero_start_time := if stale then None else dnd_nonzero_start_time g |}.
End ops.
End ViewOffset.

(** Where the view has to be for a column to be visible. *)
Definition compute_new_view_offset (cur_x view_width new_col_x new_col_width gaps : f64) : res f64 :=
  if fleb view_width new_col_width then mret f0
  else
    padding ← fclamp ((view_width - new_col_width) / of_Z 2)%F f0 gaps;
    let new_x := (new_col_x - padding)%F in
    let new_right_x := (new_col_x + new_col_width + padding)%F in
    mret (if fleb cur_x new_x && fleb new_right_x (cur_x + view_width)%F then (- (new_col_x - cur_x))%F
          else
            let dist_to_left := fabs (cur_x - new_x)%F in
            let dist_to_right := fabs ((cur_x + view_width) - new_right_x)%F in
            if fleb dist_to_left dist_to_right then (- padding)%F
            else (- (view_width - padding - new_col_width))%F).

Definition compute_working_area `{!Geometry} (parent : Rect) (scale : f64) (s : Struts) : Rect :=
  let w := fmax f0 (parent.2.1 - strut_left s - strut_right s)%F in
  let x := (parent.1.1 + strut_left s)%F in
  let h := fmax f0 (parent.2.2 - strut_top s - strut_bottom s)%F in
  let y := (parent.1.2 + strut_top s)%F in
  let loc := (physical_ceil scale x, physical_ceil scale y) in
  let dw := fmin w (loc.1 - x)%F in
  let dh := fmin h (loc.2 - y)%F in
  (loc, ((w - dw)%F, (h - dh)%F)).

Record InteractiveResize `{!LayoutElement} := { resize_window : Id; original_window_size : Size; resize_edges : ResizeEdge }.
Arguments InteractiveResize {_}.

Inductive ScrollDirection := DirLeft | DirRight.
Inductive InsertPosition := NewColumn (idx : nat) | InColumn (col tile : nat) | InFloating.

Module ScrollingSpace.
Section ops.
Context {LE : LayoutElement} {GE : Geometry} {LM : Libm} {KF : Keyframe}.
Implicit Types (cv : ClockView).

Record ScrollingSpace := {
  columns : list Column.Column;
  data : list f64;
  active_column_idx : nat;
  interactive_resize : option InteractiveResize;
  view_offset : ViewOffset.ViewOffset;
  activate_prev_column_on_removal : option f64;
  view_offset_to_restore : option f64;
  view_size : Size;
  working_area : Rect;
  parent_area : Rect;
  scale : f64;
  options : LayoutOptions
}.

Definition set_columns (v : list Column.Column) (s : ScrollingSpace) : ScrollingSpace :=
  {| columns := v; data := data s; active_column_idx := active_column_idx s;
     interactive_resize := interactive_resize s; view_offset := view_offset s;
     activate_prev_column_on_removal := activate_prev_column_on_removal s;
     view_offset_to_restore := view_offset_to_restore s; view_size := view_size s; working_area := working_area s;
     parent_area := parent_area s; scale := scale s; options := options s |}.
Definition set_data (v : list f64) (s : ScrollingSpace) : ScrollingSpace :=
  {| columns := columns s; data := v; active_column_idx := active_column_idx s;
     interactive_resize := interactive_resize s; view_offset := view_offset s;
     activate_prev_column_on_removal := activate_prev_column_on_removal s;
     view_offset_to_restore := view_offset_to_restore s; view_size := view_size s; working_area := working_area s;
     parent_area := parent_area s; scale := scale s; options := options s |}.
Definition set_active_column_idx (v : nat) (s : ScrollingSpace) : ScrollingSpace :=
  {| columns := columns s; data := data s; active_column_idx := v; interactive_resize := interactive_resize s;
     view_offset := view_offset s; activate_prev_column_on_removal := activate_prev_column_on_removal s;
     view_offset_to_restore := view_offset_to_restore s; view_size := view_size s; working_area := working_area s;
     parent_area := parent_area s; scale := scale s; options := options s |}.
Definition set_interactive_resize (v : option InteractiveResize) (s : ScrollingSpace) : ScrollingSpace :=
  {| columns := columns s; data := data s; active_column_idx := active_column_idx s; interactive_resize := v;
     view_offset := view_offset s; activate_prev_column_on_removal := activate_prev_column_on_removal s;
     view_offset_to_restore := view_offset_to_restore s; view_size := view_size s; working_area := working_area s;
     parent_area := parent_area s; scale := scale s; options := options s |}.
Definition set_view_offset (v : ViewOffset.ViewOffset) (s : ScrollingSpace) : ScrollingSpace :=
  {| columns := columns s; data := data s; active_column_idx := active_column_idx s;
     interactive_resize := interactive_resize s; view_offset := v;
     activate_prev_column_on_removal := activate_prev_column_on_removal s;
     view_offset_to_restore := view_offset_to_restore s; view_size := view_size s; working_area := working_area s;
     parent_area := parent_area s; scale := scale s; options := options s |}.
Definition set_activate_prev_column_on_removal (v : option f64) (s : ScrollingSpace) : ScrollingSpace :=
  {| columns := columns s; data := data s; active_column_idx := active_column_idx s;
     interactive_resize := interactive_resize s; view_offset := view_offset s; activate_prev_column_on_removal := v;
     view_offset_to_restore := view_offset_to_restore s; view_size := view_size s; working_area := working_area s;
     parent_area := parent_area s; scale := scale s; options := options s |}.
Definition set_view_offset_to_restore (v : option f64) (s : ScrollingSpace) : ScrollingSpace :=
  {| columns := columns s; data := data s; active_column_idx := active_column_idx s;
     interactive_resize := interactive_resize s; view_offset := view_offset s;
     activate_prev_column_on_removal := activate_prev_column_on_removal s; view_offset_to_restore := v;
     view_size := view_size s; working_area := working_area s; parent_area := parent_area s; scale := scale s;
     options := options s |}.

Definition new (view_size : Size) (parent_area : Rect) (scale : f64) (o : LayoutOptions) : ScrollingSpace :=
  {| columns := []; data := []; active_column_idx := 0; interactive_resize := None; view_offset := ViewOffset.Static f0;
     activate_prev_column_on_removal := None; view_offset_to_restore := None; view_size := view_size;
     working_area := compute_working_area parent_area scale (struts o); parent_area := parent_area; scale := scale; options := o |}.

(** ** Queries *)
Definition is_empty (s : ScrollingSpace) : bool := match columns s with [] => true | _ => false end.
Definition tiles (s : ScrollingSpace) : list Tile.Tile := columns s ≫= Column.tiles.
Definition active_column (s : ScrollingSpace) : res Column.Column := index (columns s) (active_column_idx s).
Definition active_window (s : ScrollingSpace) : res (option Id) :=
  if is_empty s then mret None
  else c ← active_column s; t ← index (Column.tiles c) (Column.active_tile_idx c); mret (Some (Tile.id t)).

Fixpoint xs_from (gaps x : f64) (ws : list f64) : list f64 :=
  match ws with [] => [] | w :: ws => x :: xs_from gaps (x + (w + gaps))%F ws end.
(** The positions of the columns, and one past the last. *)
Definition column_xs (s : ScrollingSpace) : list f64 := xs_from (gaps (options s)) f0 (data s ++ [f0]).
Definition column_x (i : nat) (s : ScrollingSpace) : res f64 := unwrap (column_xs s !! i).

Definition view_pos cv (s : ScrollingSpace) : res f64 :=
  x ← column_x (active_column_idx s) s; o ← ViewOffset.current cv (view_offset s); mret (x + o)%F.
Definition target_view_pos (s : ScrollingSpace) : res f64 :=
  x ← column_x (active_column_idx s) s; mret (x + ViewOffset.target (view_offset s))%F.

Definition is_centering_focused_column (s : ScrollingSpace) : bool :=
  bool_decide (center_focused_column (options s) = CenterAlways)
  || (always_center_single_column (options s) && (length (columns s) <=? 1)%nat).

Definition column_of (x : Id) (s : ScrollingSpace) : option nat := position (Column.contains x) (columns s).

(** The column and the tile of a window, or the active ones. *)
Definition source (window : option Id) (s : ScrollingSpace) : res (nat * nat) :=
  match window with
  | Some x => i ← unwrap (column_of x s); c ← index (columns s) i; j ← unwrap (Column.position_of x c); mret (i, j)
  | None => c ← active_column s; mret (active_column_idx s, Column.active_tile_idx c)
  end.

(** ** Moving the view *)
Definition compute_new_view_offset_fit (target_x : option f64) (col_x width : f64) (mode : SizingMode) (s : ScrollingSpace)
    : res f64 :=
  if is_fullscreen mode then mret f0
  else
    let '(area, padding) := if is_maximized mode then (parent_area s, f0) else (working_area s, gaps (options s)) in
    target_x ← match target_x with Some x => mret x | None => target_view_pos s end;
    new_offset ← compute_new_view_offset (target_x + area.1.1)%F area.2.1 col_x width padding;
    mret (new_offset - area.1.1)%F.

Definition compute_new_view_offset_centered (target_x : option f64) (col_x width : f64) (mode : SizingMode) (s : ScrollingSpace)
    : res f64 :=
  if is_fullscreen mode then compute_new_view_offset_fit target_x col_x width mode s
  else
    let area := if is_maximized mode then parent_area s else working_area s in
    if fleb area.2.1 width then compute_new_view_offset_fit target_x col_x width mode s
    else mret (- (area.2.1 - width) / of_Z 2 - area.1.1)%F.

Definition compute_new_view_offset_for_column_fit (target_x : option f64) (idx : nat) (s : ScrollingSpace) : res f64 :=
  c ← index (columns s) idx; x ← column_x idx s; w ← Column.col_width c;
  compute_new_view_offset_fit target_x x w (Column.sizing_mode c) s.
Definition compute_new_view_offset_for_column_centered (target_x : option f64) (idx : nat) (s : ScrollingSpace) : res f64 :=
  c ← index (columns s) idx; x ← column_x idx s; w ← Column.col_width c;
  compute_new_view_offset_centered target_x x w (Column.sizing_mode c) s.

Definition compute_new_view_offset_for_column (target_x : option f64) (idx : nat) (prev_idx : option nat) (s : ScrollingSpace)
    : res f64 :=
  if is_centering_focused_column s then compute_new_view_offset_for_column_centered target_x idx s
  else
    match center_focused_column (options s), prev_idx with
    | CenterAlways, _ => compute_new_view_offset_for_column_centered target_x idx s
    | CenterNever, _ | CenterOnOverflow, None => compute_new_view_offset_for_column_fit target_x idx s
    | CenterOnOverflow, Some prev_idx =>
        if bool_decide (prev_idx = idx) then compute_new_view_offset_for_column_fit target_x idx s
        else
          source_idx ← (if (idx <? prev_idx)%nat then last ← usub (length (columns s)) 1; mret ((idx + 1) `min` last)%nat
                        else mret (idx - 1)%nat);
          source_col_x ← column_x source_idx s;
          source_col ← index (columns s) source_idx;
          source_col_width ← Column.col_width source_col;
          target_col_x ← column_x idx s;
          target_col ← index (columns s) idx;
          target_col_width ← Column.col_width target_col;
          let total_width :=
            ((if fltb source_col_x target_col_x then target_col_x - source_col_x + target_col_width
              else source_col_x - target_col_x + source_col_width) + gaps (options s) * of_Z 2)%F in
          if fleb total_width (working_area s).2.1 then compute_new_view_offset_for_column_fit target_x idx s
          else compute_new_view_offset_for_column_centered target_x idx s
    end.

Definition animate_view_offset_with_config cv (idx : nat) (new_view_offset : f64) (config : Config.Animation) (s : ScrollingSpace)
    : res ScrollingSpace :=
  new_col_x ← column_x idx s;
  old_col_x ← column_x (active_column_idx s) s;
  let v := ViewOffset.offset (old_col_x - new_col_x)%F (view_offset s) in
  let pixel := (f1 / scale s)%F in
  let to_diff := (new_view_offset - ViewOffset.target v)%F in
  v ← (if fltb (fabs to_diff) pixel then mret (ViewOffset.offset to_diff v)
       else match v with
            | ViewOffset.InGesture g =>
                if ViewOffset.is_dnd_scroll v then g ← ViewOffset.shift_to cv new_view_offset config g; mret (ViewOffset.InGesture g)
                else o ← ViewOffset.current cv v; a ← Animation.new cv o new_view_offset f0 config; mret (ViewOffset.Animated a)
            | _ => o ← ViewOffset.current cv v; a ← Animation.new cv o new_view_offset f0 config; mret (ViewOffset.Animated a)
            end);
  mret (set_view_offset v s).
Definition animate_view_offset cv (idx : nat) (new_view_offset : f64) (s : ScrollingSpace) : res ScrollingSpace :=
  animate_view_offset_with_config cv idx new_view_offset (horizontal_view_movement (options s)) s.
Definition animate_view_offset_to_column_centered cv (target_x : option f64) (idx : nat) (config : Config.Animation)
    (s : ScrollingSpace) : res ScrollingSpace :=
  o ← compute_new_view_offset_for_column_centered target_x idx s; animate_view_offset_with_config cv idx o config s.
Definition animate_view_offset_to_column_with_config cv (target_x : option f64) (idx : nat) (prev_idx : option nat)
    (config : Config.Animation) (s : ScrollingSpace) : res ScrollingSpace :=
  o ← compute_new_view_offset_for_column target_x idx prev_idx s; animate_view_offset_with_config cv idx o config s.
Definition animate_view_offset_to_column cv (target_x : option f64) (idx : nat) (prev_idx : option nat) (s : ScrollingSpace)
    : res ScrollingSpace :=
  animate_view_offset_to_column_with_config cv target_x idx prev_idx (horizontal_view_movement (options s)) s.

Definition activate_column_with_anim_config cv (idx : nat) (config : Config.Animation) (s : ScrollingSpace) : res ScrollingSpace :=
  if bool_decide (active_column_idx s = idx) && (is_empty s || negb (ViewOffset.is_dnd_scroll (view_offset s))) then mret s
  else
    s ← animate_view_offset_to_column_with_config cv None idx (Some (active_column_idx s)) config s;
    mret (if bool_decide (active_column_idx s = idx) then s
          else set_interactive_resize None (set_view_offset_to_restore None
                 (set_activate_prev_column_on_removal None (set_active_column_idx idx s)))).
Definition activate_column cv (idx : nat) (s : ScrollingSpace) : res ScrollingSpace :=
  activate_column_with_anim_config cv idx (horizontal_view_movement (options s)) s.

(** ** Columns *)
Definition with_column {A} (i : nat) (f : Column.Column -> res (A * Column.Column)) (s : ScrollingSpace) : res (A * ScrollingSpace) :=
  c ← index (columns s) i; '(a, c) ← f c; mret (a, set_columns (<[i := c]> (columns s)) s).
Definition update_column (i : nat) (f : Column.Column -> res Column.Column) (s : ScrollingSpace) : res ScrollingSpace :=
  c ← index (columns s) i; c ← f c; mret (set_columns (<[i := c]> (columns s)) s).
Definition update_data (i : nat) (s : ScrollingSpace) : res ScrollingSpace :=
  c ← index (columns s) i;
  _ ← index (data s) i;
  w ← Column.col_width c;
  mret (set_data (<[i := w]> (data s)) s).

(** The columns of a range move from [from] away. *)
Definition animate_columns cv (lo hi : nat) (from : f64) (config : Config.Animation) (s : ScrollingSpace) : res ScrollingSpace :=
  cs ← on_range lo hi (Column.animate_move_from_with_config cv from config) (columns s); mret (set_columns cs s).

(** Stops an interactive resize of a window of column [i]. *)
Definition cancel_resize (i : nat) (s : ScrollingSpace) : res ScrollingSpace :=
  c ← index (columns s) i;
  let resize := match interactive_resize s with
                | Some r => if Column.contains (resize_window r) c then None else Some r
                | None => None
                end in
  let c := Column.set_tiles ((fun t => Tile.set_window (cancel_interactive_resize (Tile.window t)) t) <$> Column.tiles c) c in
  mret (set_interactive_resize resize (set_columns (<[i := c]> (columns s)) s)).

Definition add_column cv (idx : option nat) (column : Column.Column) (activate : bool) (anim_config : option Config.Animation)
    (s : ScrollingSpace) : res ScrollingSpace :=
  let was_empty := is_empty s in
  let idx := default (if was_empty then 0%nat else (active_column_idx s + 1)%nat) idx in
  column ← Column.update_config (view_size s) (working_area s) (parent_area s) (scale s) (options s) column;
  w ← Column.col_width column;
  ds ← vec_insert idx w (data s);
  cs ← vec_insert idx column (columns s);
  let s := set_columns cs (set_data ds s) in
  s ← (if activate then
         s ← (if was_empty then
                let s := set_view_offset (ViewOffset.Static f0) s in
                o ← compute_new_view_offset_for_column None idx None s;
                mret (set_view_offset (ViewOffset.Static o) s)
              else mret s);
         let prev_offset := if negb was_empty && bool_decide (idx = (active_column_idx s + 1)%nat)
                            then Some (ViewOffset.stationary (view_offset s)) else None in
         s ← activate_column_with_anim_config cv idx (default (horizontal_view_movement (options s)) anim_config) s;
         mret (set_activate_prev_column_on_removal prev_offset s)
       else if negb was_empty && (idx <=? active_column_idx s)%nat then mret (set_active_column_idx (active_column_idx s + 1) s)
       else mret s);
  next ← column_x (idx + 1) s;
  x ← column_x idx s;
  let offset := (next - x)%F in
  let config := default (window_movement (options s)) anim_config in
  if (active_column_idx s <=? idx)%nat then animate_columns cv (idx + 1) (length (columns s)) (- offset)%F config s
  else animate_columns cv 0 idx offset config s.

Definition add_tile cv (col_idx : option nat) (t : Tile.Tile) (activate : bool) (width : ColumnWidth) (is_full_width : bool)
    (anim_config : option Config.Animation) (s : ScrollingSpace) : res ScrollingSpace :=
  c ← Column.new_with_tile cv t (view_size s) (working_area s) (parent_area s) (scale s) width is_full_width;
  add_column cv col_idx c activate anim_config s.

Definition add_tile_to_column cv (col_idx : nat) (tile_idx : option nat) (t : Tile.Tile) (activate : bool) (s : ScrollingSpace)
    : res ScrollingSpace :=
  prev_next_x ← column_x (col_idx + 1) s;
  c ← index (columns s) col_idx;
  let tile_idx := default (length (Column.tiles c)) tile_idx in
  let prev_active := Column.active_tile_idx c in
  s ← update_column col_idx (Column.add_tile_at cv tile_idx t) s;
  s ← update_data col_idx s;
  let shifted := (tile_idx <=? prev_active)%nat in
  let prev_active := if shifted then S prev_active else prev_active in
  s ← update_column col_idx (fun c => mret (if shifted then Column.set_active_tile_idx (Column.active_tile_idx c + 1) c else c)) s;
  s ← (if activate then
         s ← update_column col_idx (fun c => '(_, c) ← Column.activate_idx tile_idx c; mret c) s;
         if bool_decide (active_column_idx s = col_idx) then mret s else activate_column cv col_idx s
       else mret s);
  let config := window_movement (options s) in
  s ← update_column col_idx (fun c =>
        if Column.tabbed c then
          Column.update_tile (if bool_decide (Column.active_tile_idx c = tile_idx) then prev_active else tile_idx)
            (Tile.animate_alpha cv f1 f0 config) c
        else mret c) s;
  next_x ← column_x (col_idx + 1) s;
  let offset := (next_x - prev_next_x)%F in
  cs ← (if (active_column_idx s <=? col_idx)%nat
        then on_range (col_idx + 1) (length (columns s)) (Column.animate_move_from cv (- offset)%F) (columns s)
        else on_range 0 (col_idx + 1) (Column.animate_move_from cv offset) (columns s));
  mret (set_columns cs s).

Definition add_tile_right_of cv (right_of : Id) (t : Tile.Tile) (activate : bool) (width : ColumnWidth) (is_full_width : bool)
    (s : ScrollingSpace) : res ScrollingSpace :=
  i ← unwrap (column_of right_of s); add_tile cv (Some (i + 1)%nat) t activate width is_full_width None s.

Definition remove_column_by_idx cv (column_idx : nat) (anim_config : option Config.Animation) (s : ScrollingSpace)
    : res (Column.Column * ScrollingSpace) :=
  let movement_config := default (window_movement (options s)) anim_config in
  next ← column_x (column_idx + 1) s;
  x ← column_x column_idx s;
  let offset := (next - x)%F in
  s ← (if (active_column_idx s <=? column_idx)%nat
       then animate_columns cv (column_idx + 1) (length (columns s)) offset movement_config s
       else animate_columns cv 0 column_idx (- offset)%F movement_config s);
  '(column, cs) ← vec_remove column_idx (columns s);
  '(_, ds) ← vec_remove column_idx (data s);
  let s := set_data ds (set_columns cs s) in
  let s := match interactive_resize s with
           | Some r => if Column.contains (resize_window r) column then set_interactive_resize None s else s
           | None => s
           end in
  let s := if bool_decide ((column_idx + 1)%nat = active_column_idx s) then set_activate_prev_column_on_removal None s else s in
  let s := if bool_decide (column_idx = active_column_idx s) then set_view_offset_to_restore None s else s in
  if is_empty s then mret (column, s)
  else
    let view_config := default (horizontal_view_movement (options s)) anim_config in
    s ← (if (column_idx <? active_column_idx s)%nat then
           mret (set_activate_prev_column_on_removal None (set_active_column_idx (active_column_idx s - 1) s))
         else
           match bool_decide (column_idx = active_column_idx s), activate_prev_column_on_removal s with
           | true, Some prev_offset =>
               if (0 <? column_idx)%nat then
                 s ← activate_column_with_anim_config cv (active_column_idx s - 1) view_config s;
                 s ← animate_view_offset_with_config cv (active_column_idx s) prev_offset view_config s;
                 animate_view_offset_to_column_with_config cv None (active_column_idx s) None view_config s
               else mret s
           | _, _ =>
               last ← usub (length (columns s)) 1;
               activate_column_with_anim_config cv (active_column_idx s `min` last)%nat view_config s
           end);
    mret (column, s).

Definition remove_active_column cv (s : ScrollingSpace) : res (option (Column.Column * ScrollingSpace)) :=
  if is_empty s then mret None else r ← remove_column_by_idx cv (active_column_idx s) None s; mret (Some r).

(** The column once tile [tile_idx] is gone from its lists. *)
Definition column_without (tile_idx : nat) (c : Column.Column) : res Column.Column :=
  c ← (if (tile_idx <? Column.active_tile_idx c)%nat then mret (Column.set_active_tile_idx (Column.active_tile_idx c - 1) c)
       else if bool_decide (tile_idx = Column.active_tile_idx c) then
         if bool_decide (tile_idx = length (Column.tiles c)) then
           i ← usub tile_idx 1; '(_, c) ← Column.activate_idx i c; mret c
         else Column.update_tile tile_idx (fun t => mret (Tile.ensure_alpha_animates_to_1 t)) c
       else mret c);
  mret c.

(** A lone tile gets weight 1. *)
Definition reset_lone_weight (ds : list TileData) : list TileData :=
  match ds with
  | [d] => match td_height d with HeightAuto _ => [Column.set_height auto_1 d] | _ => [d] end
  | _ => ds
  end.

Definition remove_tile_by_idx cv (column_idx tile_idx : nat) (tr : Transaction) (anim_config : option Config.Animation)
    (s : ScrollingSpace) : res (RemovedTile Tile.Tile * ScrollingSpace) :=
  c ← index (columns s) column_idx;
  if bool_decide (length (Column.tiles c) = 1%nat) then
    '(c, s) ← remove_column_by_idx cv column_idx anim_config s;
    '(t, _) ← vec_remove tile_idx (Column.tiles c);
    mret ({| rt_tile := t; rt_width := Column.width c; rt_is_full_width := Column.is_full_width c; rt_is_floating := false |}, s)
  else
    prev_width ← index (data s) column_idx;
    let movement_config := default (window_movement (options s)) anim_config in
    next ← Column.tile_offset (tile_idx + 1) c;
    here ← Column.tile_offset tile_idx c;
    let offset_y := (next.2 - here.2)%F in
    ts ← on_range (tile_idx + 1) (length (Column.tiles c)) (Tile.animate_move_y_from cv offset_y) (Column.tiles c);
    let c := Column.set_tiles ts c in
    c ← (if Column.tabbed c && negb (bool_decide (tile_idx = Column.active_tile_idx c))
         then Column.update_tile tile_idx (Tile.animate_alpha cv f0 f1 movement_config) c else mret c);
    let was_normal := is_normal (Column.sizing_mode c) in
    '(t, ts) ← vec_remove tile_idx (Column.tiles c);
    '(_, ds) ← vec_remove tile_idx (Column.data c);
    let c := Column.set_data ds (Column.set_tiles ts c) in
    let s := if bool_decide (column_idx = active_column_idx s) && negb was_normal && is_normal (Column.sizing_mode c)
             then set_view_offset_to_restore None s else s in
    let c := Column.set_data (reset_lone_weight (Column.data c)) c in
    let s := match interactive_resize s with
             | Some r => if bool_decide (Tile.id t = resize_window r) then set_interactive_resize None s else s
             | None => s
             end in
    let removed := {| rt_tile := t; rt_width := Column.width c; rt_is_full_width := Column.is_full_width c;
                      rt_is_floating := false |} in
    c ← column_without tile_idx c;
    c ← Column.update_tile_sizes_with_transaction true tr c;
    let s := set_columns (<[column_idx := c]> (columns s)) s in
    s ← update_data column_idx s;
    w ← Column.col_width c;
    let offset := (prev_width - w)%F in
    s ← (if (active_column_idx s <=? column_idx)%nat
         then animate_columns cv (column_idx + 1) (length (columns s)) offset movement_config s
         else animate_columns cv 0 (column_idx + 1) (- offset)%F movement_config s);
    mret (removed, s).

Definition remove_tile cv (x : Id) (tr : Transaction) (s : ScrollingSpace) : res (RemovedTile Tile.Tile * ScrollingSpace) :=
  '(i, j) ← source (Some x) s; remove_tile_by_idx cv i j tr None s.
Definition remove_active_tile cv (tr : Transaction) (s : ScrollingSpace) : res (option (RemovedTile Tile.Tile * ScrollingSpace)) :=
  if is_empty s then mret None
  else '(i, j) ← source None s; r ← remove_tile_by_idx cv i j tr None s; mret (Some r).

(** ** Configuration, time, and window changes *)
Definition update_config cv (view_size' : Size) (parent_area' : Rect) (scale' : f64) (o : LayoutOptions) (s : ScrollingSpace)
    : res ScrollingSpace :=
  let area := compute_working_area parent_area' scale' (struts o) in
  cs ← mapM (Column.update_config view_size' area parent_area' scale' o) (columns s);
  ws ← mapM Column.col_width cs;
  let s := {| columns := cs; data := ws; active_column_idx := active_column_idx s; interactive_resize := interactive_resize s;
              view_offset := view_offset s; activate_prev_column_on_removal := activate_prev_column_on_removal s;
              view_offset_to_restore := view_offset_to_restore s; view_size := view_size'; working_area := area;
              parent_area := parent_area'; scale := scale'; options := o |} in
  if is_empty s || ViewOffset.is_gesture (view_offset s) then mret s
  else animate_view_offset_to_column cv None (active_column_idx s) None s.

Definition advance_animations cv (s : ScrollingSpace) : res ScrollingSpace :=
  v ← match view_offset s with
      | ViewOffset.Animated a =>
          done_ ← Animation.is_done cv a;
          mret (if done_ : bool then ViewOffset.Static (Animation.to a) else view_offset s)
      | ViewOffset.InGesture g => g ← ViewOffset.advance_gesture cv g; mret (ViewOffset.InGesture g)
      | v => mret v
      end;
  cs ← mapM (Column.advance_animations cv) (columns s);
  mret (set_columns cs (set_view_offset v s)).

(** The part of [update_window] about the view of the active column. *)
Definition follow_resize cv (col_idx : nat) (was_normal ongoing : bool) (resize : option ResizeEdge) (offset : f64) (s : ScrollingSpace)
    : res ScrollingSpace :=
  s ← match (if fneb offset f0 then resize else None) with
      | Some edges =>
          let v := ViewOffset.cancel_gesture (view_offset s) in
          width ← index (data s) col_idx;
          let delta :=
            if is_centering_focused_column s then
              (- ((working_area s).2.1 - width) / of_Z 2 - (working_area s).1.1 - ViewOffset.target v)%F
            else if edge_left edges then (- offset)%F
            else f0 in
          mret (set_view_offset (ViewOffset.offset delta v) s)
      | None => mret s
      end;
  c ← index (columns s) col_idx;
  let normal := is_normal (Column.sizing_mode c) in
  let s := if was_normal && negb normal then set_view_offset_to_restore (Some (ViewOffset.stationary (view_offset s))) s else s in
  let '(unfullscreen_offset, s) :=
    if negb was_normal && normal then (view_offset_to_restore s, set_view_offset_to_restore None s) else (None, s) in
  match interactive_resize s, ViewOffset.is_gesture (view_offset s) with
  | None, false =>
      s ← match unfullscreen_offset with Some o => animate_view_offset cv col_idx o s | None => mret s end;
      let config := if ongoing then window_resize (options s) else horizontal_view_movement (options s) in
      animate_view_offset_to_column_with_config cv None col_idx None config s
  | _, _ => mret s
  end.

Definition update_window cv (x : Id) (serial : option Z) (s : ScrollingSpace) : res ScrollingSpace :=
  '(col_idx, tile_idx) ← source (Some x) s;
  c ← index (columns s) col_idx;
  let was_normal := is_normal (Column.sizing_mode c) in
  let prev_origin := Column.tiles_origin c in
  t ← index (Column.tiles c) tile_idx;
  let resize := interactive_resize_data (Tile.window t) in
  let t := match serial with Some n => Tile.set_window (on_commit n (Tile.window t)) t | None => t end in
  let c := Column.set_tiles (<[tile_idx := t]> (Column.tiles c)) c in
  prev_width ← index (data s) col_idx;
  c ← Column.update_window cv x c;
  w ← Column.col_width c;
  c ← Column.update_tile_sizes false c;
  let s := set_data (<[col_idx := w]> (data s)) (set_columns (<[col_idx := c]> (columns s)) s) in
  let offset := (prev_width - w)%F in
  t ← index (Column.tiles c) tile_idx;
  let ongoing := match Tile.resize_animation t with Some _ => true | None => false end in
  let move from := if ongoing then Column.animate_move_from_with_config cv from (window_resize (options s))
                   else Column.offset_move_anim_current cv from in
  s ← (if fneb offset f0 then
         cs ← (if (active_column_idx s <=? col_idx)%nat
               then on_range (col_idx + 1) (length (columns s)) (move offset) (columns s)
               else on_range 0 (col_idx + 1) (move (- offset)%F) (columns s));
         mret (set_columns cs s)
       else mret s);
  s ← update_column col_idx (fun c =>
        let delta := pair_sub prev_origin (Column.tiles_origin c) in
        if pair_eqb delta (f0, f0) then mret c
        else
          _ ← Column.tile_offsets c;
          ts ← mapM (Tile.animate_move_from cv delta) (Column.tiles c); mret (Column.set_tiles ts c)) s;
  if bool_decide (col_idx = active_column_idx s) then follow_resize cv col_idx was_normal ongoing resize offset s else mret s.

Definition start_open_animation cv (x : Id) (s : ScrollingSpace) : res (bool * ScrollingSpace) :=
  match column_of x s with
  | Some i => with_column i (Column.start_open_animation cv x) s
  | None => mret (false, s)
  end.

(** ** Focus *)
Definition activate_window cv (x : Id) (s : ScrollingSpace) : res (bool * ScrollingSpace) :=
  match column_of x s with
  | None => mret (false, s)
  | Some i => s ← update_column i (Column.activate_window x) s; s ← activate_column cv i s; mret (true, s)
  end.

Definition scroll_amount_to_activate (x : Id) (s : ScrollingSpace) : res f64 :=
  i ← unwrap (column_of x s);
  if bool_decide (active_column_idx s = i) then mret f0
  else
    target_x ← target_view_pos s;
    o ← compute_new_view_offset_for_column (Some target_x) i (Some (active_column_idx s)) s;
    new_col_x ← column_x i s;
    mret (fabs (target_x - new_col_x - o) / (working_area s).2.1)%F.

Definition focus_left cv (s : ScrollingSpace) : res (bool * ScrollingSpace) :=
  if bool_decide (active_column_idx s = 0%nat) then mret (false, s)
  else s ← activate_column cv (active_column_idx s - 1) s; mret (true, s).
Definition focus_right cv (s : ScrollingSpace) : res (bool * ScrollingSpace) :=
  if (length (columns s) <=? active_column_idx s + 1)%nat then mret (false, s)
  else s ← activate_column cv (active_column_idx s + 1) s; mret (true, s).
Definition focus_column_first cv : ScrollingSpace -> res ScrollingSpace := activate_column cv 0.
Definition focus_column_last cv (s : ScrollingSpace) : res ScrollingSpace :=
  if is_empty s then mret s else last ← usub (length (columns s)) 1; activate_column cv last s.
Definition focus_column cv (i : nat) (s : ScrollingSpace) : res ScrollingSpace :=
  if is_empty s then mret s else last ← usub (length (columns s)) 1; activate_column cv ((i - 1) `min` last)%nat s.

(** An operation on the active column, if there is one. *)
Definition on_active (f : Column.Column -> res (bool * Column.Column)) (s : ScrollingSpace) : res (bool * ScrollingSpace) :=
  if is_empty s then mret (false, s) else with_column (active_column_idx s) f s.
Definition on_active_ (f : Column.Column -> res Column.Column) (s : ScrollingSpace) : res ScrollingSpace :=
  if is_empty s then mret s else update_column (active_column_idx s) f s.

Definition focus_window_in_column (i : Z) : ScrollingSpace -> res ScrollingSpace := on_active_ (Column.focus_index i).
Definition focus_down : ScrollingSpace -> res (bool * ScrollingSpace) := on_active Column.focus_down.
Definition focus_up : ScrollingSpace -> res (bool * ScrollingSpace) := on_active Column.focus_up.
Definition focus_top : ScrollingSpace -> res ScrollingSpace := on_active_ Column.focus_top.
Definition focus_bottom : ScrollingSpace -> res ScrollingSpace := on_active_ Column.focus_bottom.

(** Focus within the column, or else the neighbouring column. *)
Definition focus_or (within : Column.Column -> res (bool * Column.Column)) (beyond : ScrollingSpace -> res (bool * ScrollingSpace))
    (s : ScrollingSpace) : res ScrollingSpace :=
  if is_empty s then mret s
  else
    '(b, s) ← with_column (active_column_idx s) within s;
    if b : bool then mret s else '(_, s) ← beyond s; mret s.
Definition focus_down_or_left cv : ScrollingSpace -> res ScrollingSpace := focus_or Column.focus_down (focus_left cv).
Definition focus_down_or_right cv : ScrollingSpace -> res ScrollingSpace := focus_or Column.focus_down (focus_right cv).
Definition focus_up_or_left cv : ScrollingSpace -> res ScrollingSpace := focus_or Column.focus_up (focus_left cv).
Definition focus_up_or_right cv : ScrollingSpace -> res ScrollingSpace := focus_or Column.focus_up (focus_right cv).

(** ** Moving columns and tiles *)
Definition move_column_to cv (new_idx : nat) (s : ScrollingSpace) : res ScrollingSpace :=
  let active := active_column_idx s in
  if bool_decide (active = new_idx) then mret s
  else
    current_col_x ← column_x active s;
    next_col_x ← column_x (active + 1) s;
    s ← cancel_resize active s;
    '(c, cs) ← vec_remove active (columns s);
    '(d, ds) ← vec_remove active (data s);
    cs ← vec_insert new_idx c cs;
    ds ← vec_insert new_idx d ds;
    let s := set_data ds (set_columns cs s) in
    x ← column_x active s;
    let s := set_view_offset (ViewOffset.offset (- x + current_col_x)%F (view_offset s)) s in
    new_col_x ← column_x new_idx s;
    s ← update_column new_idx (Column.animate_move_from cv (current_col_x - new_col_x)%F) s;
    let others := (next_col_x - current_col_x)%F in
    cs ← (if (active <? new_idx)%nat then on_range active new_idx (Column.animate_move_from cv others) (columns s)
          else on_range (new_idx + 1) (active + 1) (Column.animate_move_from cv (- others)%F) (columns s));
    let s := set_columns cs s in
    activate_column_with_anim_config cv new_idx (window_movement (options s)) s.
Definition move_column_to_index cv (i : nat) (s : ScrollingSpace) : res ScrollingSpace :=
  if is_empty s then mret s else last ← usub (length (columns s)) 1; move_column_to cv ((i - 1) `min` last)%nat s.
Definition move_left cv (s : ScrollingSpace) : res (bool * ScrollingSpace) :=
  if bool_decide (active_column_idx s = 0%nat) then mret (false, s)
  else s ← move_column_to cv (active_column_idx s - 1) s; mret (true, s).
Definition move_right cv (s : ScrollingSpace) : res (bool * ScrollingSpace) :=
  if (length (columns s) <=? active_column_idx s + 1)%nat then mret (false, s)
  else s ← move_column_to cv (active_column_idx s + 1) s; mret (true, s).
Definition move_column_to_first cv : ScrollingSpace -> res ScrollingSpace := move_column_to cv 0.
Definition move_column_to_last cv (s : ScrollingSpace) : res ScrollingSpace :=
  if is_empty s then mret s else last ← usub (length (columns s)) 1; move_column_to cv last s.
Definition move_down cv : ScrollingSpace -> res (bool * ScrollingSpace) := on_active (Column.move_down cv).
Definition move_up cv : ScrollingSpace -> res (bool * ScrollingSpace) := on_active (Column.move_up cv).

(** The horizontal render offset of a column. *)
Definition column_render_x cv (i : nat) (s : ScrollingSpace) : res f64 :=
  c ← index (columns s) i; Tile.move_offset cv (Column.move_animation c).

(** Animates tile [j] of column [i] from [offset] plus the way from [prev] to
    where the tile is now. *)
Definition animate_tile_from cv (i j : nat) (offset prev : Point) (s : ScrollingSpace) : res ScrollingSpace :=
  c ← index (columns s) i;
  here ← Column.tile_offset j c;
  update_column i (Column.update_tile j (Tile.animate_move_from cv (pair_add offset (pair_sub prev here)))) s.
Definition last_tile (i : nat) (s : ScrollingSpace) : res nat := c ← index (columns s) i; usub (length (Column.tiles c)) 1.

Definition consume_or_expel_window_left cv (window : option Id) (s : ScrollingSpace) : res ScrollingSpace :=
  if is_empty s then mret s
  else
    '(i, j) ← source window s;
    c ← index (columns s) i;
    prev_off ← Column.tile_offset j c;
    let was_active := bool_decide (active_column_idx s = i) && bool_decide (Column.active_tile_idx c = j) in
    if bool_decide (length (Column.tiles c) = 1%nat) then
      if bool_decide (i = 0%nat) then mret s
      else
        let target := (i - 1)%nat in
        offset ← (if (active_column_idx s <=? i)%nat then x ← column_x i s; y ← column_x target s; mret (x - y)%F
                  else wt ← index (data s) target; ws ← index (data s) i; mret (fmax f0 (wt - ws)%F));
        let s := if was_active then
                   set_activate_prev_column_on_removal
                     (Some (default (ViewOffset.stationary (view_offset s) + offset)%F (activate_prev_column_on_removal s))) s
                 else s in
        r ← column_render_x cv i s;
        let offset := (offset + r)%F in
        '(removed, s) ← remove_tile_by_idx cv i 0 new_transaction (Some (window_movement (options s))) s;
        s ← add_tile_to_column cv target None (rt_tile removed) was_active s;
        r ← column_render_x cv target s;
        last ← last_tile target s;
        animate_tile_from cv target last ((offset - r)%F, f0) prev_off s
    else
      r ← column_render_x cv i s;
      '(removed, s) ← remove_tile_by_idx cv i j new_transaction None s;
      s ← add_tile cv (Some i) (rt_tile removed) was_active (rt_width removed) (rt_is_full_width removed)
            (Some (window_movement (options s))) s;
      let s := if was_active then set_activate_prev_column_on_removal None s else s in
      offset ← (if (i <? active_column_idx s)%nat then next ← column_x (i + 1) s; x ← column_x i s; mret (r + (next - x))%F
                else mret r);
      animate_tile_from cv i 0 (offset, f0) prev_off s.

Definition consume_or_expel_window_right cv (window : option Id) (s : ScrollingSpace) : res ScrollingSpace :=
  if is_empty s then mret s
  else
    '(i, j) ← source window s;
    cur_x ← column_x i s;
    c ← index (columns s) i;
    offset ← column_render_x cv i s;
    prev_off ← Column.tile_offset j c;
    let was_active := bool_decide (active_column_idx s = i) && bool_decide (Column.active_tile_idx c = j) in
    if bool_decide (length (Column.tiles c) = 1%nat) then
      if bool_decide ((i + 1)%nat = length (columns s)) then mret s
      else
        next ← column_x (i + 1) s;
        r ← column_render_x cv (i + 1) s;
        let offset := (offset + (cur_x - next) - r)%F in
        let s := if was_active then set_activate_prev_column_on_removal None s else s in
        '(removed, s) ← remove_tile_by_idx cv i 0 new_transaction (Some (window_movement (options s))) s;
        s ← add_tile_to_column cv i None (rt_tile removed) was_active s;
        last ← last_tile i s;
        animate_tile_from cv i last (offset, f0) prev_off s
    else
      prev_width ← index (data s) i;
      '(removed, s) ← remove_tile_by_idx cv i j new_transaction None s;
      let target := (i + 1)%nat in
      s ← add_tile cv (Some target) (rt_tile removed) was_active (rt_width removed) (rt_is_full_width removed)
            (Some (window_movement (options s))) s;
      d ← (if (active_column_idx s <=? target)%nat then x ← column_x target s; mret (cur_x - x)%F
           else w ← index (data s) target; mret (- fmax f0 (prev_width - w))%F);
      animate_tile_from cv target 0 ((offset + d)%F, f0) prev_off s.

Definition consume_into_column cv (s : ScrollingSpace) : res ScrollingSpace :=
  if (length (columns s) <? 2)%nat then mret s
  else
    last ← usub (length (columns s)) 1;
    if bool_decide (active_column_idx s = last) then mret s
    else
      let target := active_column_idx s in
      let src := (target + 1)%nat in
      x ← column_x src s;
      r ← column_render_x cv src s;
      y ← column_x target s;
      let offset := (x + r - y)%F in
      c ← index (columns s) src;
      prev_off ← Column.tile_offset 0 c;
      '(removed, s) ← remove_tile_by_idx cv src 0 new_transaction None s;
      s ← add_tile_to_column cv target None (rt_tile removed) false s;
      last ← last_tile target s;
      c ← index (columns s) target;
      here ← Column.tile_offset last c;
      r ← column_render_x cv target s;
      let '(dx, dy) := pair_add (offset, f0) (pair_sub prev_off here) in
      update_column target (Column.update_tile last (Tile.animate_move_from cv ((dx - r)%F, dy))) s.

Definition expel_from_column cv (s : ScrollingSpace) : res ScrollingSpace :=
  if is_empty s then mret s
  else
    let i := active_column_idx s in
    let target := (i + 1)%nat in
    cur_x ← column_x i s;
    c ← active_column s;
    if bool_decide (length (Column.tiles c) = 1%nat) then mret s
    else
      j ← usub (length (Column.tiles c)) 1;
      offset ← column_render_x cv i s;
      prev_off ← Column.tile_offset j c;
      '(removed, s) ← remove_tile_by_idx cv i j new_transaction None s;
      s ← add_tile cv (Some target) (rt_tile removed) false (rt_width removed) (rt_is_full_width removed)
            (Some (window_movement (options s))) s;
      x ← column_x target s;
      animate_tile_from cv target 0 ((offset + (cur_x - x))%F, f0) prev_off s.

(** Where a tile is drawn, in the coordinates of the columns. *)
Definition tile_point cv (i j : nat) (s : ScrollingSpace) : res Point :=
  r ← column_render_x cv i s;
  c ← index (columns s) i;
  o ← Column.tile_offset j c;
  x ← column_x i s;
  mret ((r + o.1 + x)%F, (f0 + o.2)%F).

Definition swap_window_in_direction cv (direction : ScrollDirection) (s : ScrollingSpace) : res ScrollingSpace :=
  if is_empty s then mret s
  else
    last ← usub (length (columns s)) 1;
    let i := active_column_idx s in
    if bool_decide (i = match direction with DirLeft => 0%nat | DirRight => last end) then mret s
    else
      let k := match direction with DirLeft => (i - 1)%nat | DirRight => (i + 1)%nat end in
      source_col ← index (columns s) i;
      target_col ← index (columns s) k;
      let drained := bool_decide (length (Column.tiles source_col) = 1%nat) in
      if drained && bool_decide (length (Column.tiles target_col) = 1%nat) then move_column_to cv k s
      else
        let j := Column.active_tile_idx source_col in
        let l := Column.active_tile_idx target_col in
        source_pt ← tile_point cv i j s;
        target_pt ← tile_point cv k l s;
        let tr := new_transaction in
        '(source_removed, s) ← remove_tile_by_idx cv i j tr None s;
        adjusted ← match direction, drained with DirRight, true => usub k 1 | _, _ => mret k end;
        s ← add_tile_to_column cv adjusted (Some l) (rt_tile source_removed) false s;
        '(target_removed, s) ← remove_tile_by_idx cv adjusted (l + 1) tr None s;
        s ← (if drained
             then add_tile cv (Some i) (rt_tile target_removed) true (rt_width source_removed) (rt_is_full_width source_removed) None s
             else add_tile_to_column cv i (Some j) (rt_tile target_removed) false s);
        s ← update_column i (fun c => mret (Column.set_active_tile_idx j c)) s;
        s ← update_column k (fun c => mret (Column.set_active_tile_idx l c)) s;
        s ← update_column k (Column.update_tile l (fun t =>
              t ← Tile.animate_move_from cv (pair_sub source_pt target_pt) t; mret (Tile.ensure_alpha_animates_to_1 t))) s;
        s ← update_column i (Column.update_tile j (fun t =>
              t ← Tile.animate_move_from cv (pair_sub target_pt source_pt) (Tile.stop_move_animations t);
              mret (Tile.ensure_alpha_animates_to_1 t))) s;
        activate_column cv k s.

(** ** Fullscreen, maximized and tabbed columns *)

(** [set_fullscreen] and [set_maximized] share their body but for the flag. *)
Definition set_pending cv (flag : Column.Column -> bool) (set : bool -> Column.Column -> res Column.Column) (x : Id) (b : bool)
    (s : ScrollingSpace) : res (bool * ScrollingSpace) :=
  i ← unwrap (column_of x s);
  c ← index (columns s) i;
  if Bool.eqb b (flag c) then mret (false, s)
  else
    s ← cancel_resize i s;
    '(i, s) ← (if b && (1 <? length (Column.tiles c))%nat && negb (Column.tabbed c)
               then s ← consume_or_expel_window_right cv (Some x) s; mret ((i + 1)%nat, s) else mret (i, s));
    s ← update_column i (set b) s;
    s ← update_data i s;
    mret (true, s).
Definition set_fullscreen cv : Id -> bool -> ScrollingSpace -> res (bool * ScrollingSpace) :=
  set_pending cv Column.is_pending_fullscreen Column.set_fullscreen.
Definition set_maximized cv : Id -> bool -> ScrollingSpace -> res (bool * ScrollingSpace) :=
  set_pending cv Column.is_pending_maximized Column.set_maximized.

Definition set_column_display cv (display : ColumnDisplay) (s : ScrollingSpace) : res ScrollingSpace :=
  if is_empty s then mret s
  else
    let i := active_column_idx s in
    c ← active_column s;
    if bool_decide (Column.display_mode c = display) then mret s
    else
      s ← cancel_resize i s;
      s ← update_column i (Column.set_column_display cv display) s;
      s ← update_data i s;
      s ← update_column i (Column.update_tile_sizes true) s;
      c ← active_column s;
      if negb (Column.tabbed c) && (1 <? length (Column.tiles c))%nat then
        t ← index (Column.tiles c) (Column.active_tile_idx c);
        '(_, s) ← set_fullscreen cv (Tile.id t) false s;
        '(_, s) ← set_maximized cv (Tile.id t) false s;
        mret s
      else mret s.
Definition toggle_column_tabbed_display cv (s : ScrollingSpace) : res ScrollingSpace :=
  if is_empty s then mret s
  else
    c ← active_column s;
    set_column_display cv match Column.display_mode c with DisplayNormal => DisplayTabbed | DisplayTabbed => DisplayNormal end s.

(** ** Centering *)
Definition center_column cv (s : ScrollingSpace) : res ScrollingSpace :=
  if is_empty s then mret s
  else
    s ← animate_view_offset_to_column_centered cv None (active_column_idx s) (horizontal_view_movement (options s)) s;
    cancel_resize (active_column_idx s) s.
Definition center_window cv (window : option Id) (s : ScrollingSpace) : res ScrollingSpace :=
  if is_empty s then mret s
  else
    i ← match window with Some x => unwrap (column_of x s) | None => mret (active_column_idx s) end;
    if bool_decide (i = active_column_idx s) then center_column cv s else mret s.

(** The columns fully inside the working area: the width they take with their
    gaps, the position of the leftmost and of the active one, and whether others
    than the active one are among them. *)
Record Visible := { v_taken : f64; v_leftmost : option f64; v_active : option f64; v_others : bool }.
Fixpoint count_visible (active : nat) (left right gap : f64) (i : nat) (cols : list (f64 * f64)) (v : Visible) : Visible :=
  match cols with
  | [] => v
  | (col_x, width) :: cols =>
      if fltb col_x (left + gap)%F then count_visible active left right gap (S i) cols v
      else
        let leftmost := Some (default col_x (v_leftmost v)) in
        if fltb right (col_x + width + gap)%F
        then {| v_taken := v_taken v; v_leftmost := leftmost; v_active := v_active v; v_others := v_others v |}
        else
          let is_active := bool_decide (i = active) in
          count_visible active left right gap (S i) cols
            {| v_taken := (v_taken v + (width + gap))%F; v_leftmost := leftmost;
               v_active := if is_active then Some col_x else v_active v; v_others := v_others v || negb is_active |}
  end.
Definition visible_columns (s : ScrollingSpace) : res Visible :=
  view_x ← target_view_pos s;
  let left := (view_x + (working_area s).1.1)%F in
  mret (count_visible (active_column_idx s) left (left + (working_area s).2.1)%F (gaps (options s)) 0
          (zip (column_xs s) (data s)) {| v_taken := f0; v_leftmost := None; v_active := None; v_others := false |}).

Definition center_visible_columns cv (s : ScrollingSpace) : res ScrollingSpace :=
  if is_empty s || is_centering_focused_column s then mret s
  else
    v ← visible_columns s;
    match v_active v with
    | None => mret s
    | Some active_col_x =>
        s ← cancel_resize (active_column_idx s) s;
        let free_space := ((working_area s).2.1 - v_taken v + gaps (options s))%F in
        leftmost ← unwrap (v_leftmost v);
        let new_view_x := (leftmost - free_space / of_Z 2 - (working_area s).1.1)%F in
        s ← animate_view_offset cv (active_column_idx s) (new_view_x - active_col_x)%F s;
        animate_view_offset_to_column cv None (active_column_idx s) None s
    end.

(** ** Sizes *)

(** An operation on the column of a window, or the active one, that ends an
    interactive resize there. *)
Definition resize_column (window : option Id) (f : option nat -> Column.Column -> res Column.Column) (s : ScrollingSpace)
    : res ScrollingSpace :=
  if is_empty s then mret s
  else
    '(i, j) ← source window s;
    s ← update_column i (f (match window with Some _ => Some j | None => None end)) s;
    cancel_resize i s.
Definition toggle_width (forwards : bool) : ScrollingSpace -> res ScrollingSpace :=
  resize_column None (fun j => Column.toggle_width j forwards).
Definition toggle_full_width : ScrollingSpace -> res ScrollingSpace := resize_column None (fun _ => Column.toggle_full_width).
Definition set_window_width (window : option Id) (change : SizeChange) : ScrollingSpace -> res ScrollingSpace :=
  resize_column window (fun j => Column.set_column_width change j true).
Definition set_window_height (window : option Id) (change : SizeChange) : ScrollingSpace -> res ScrollingSpace :=
  resize_column window (fun j => Column.set_window_height change j true).
Definition reset_window_height (window : option Id) : ScrollingSpace -> res ScrollingSpace :=
  resize_column window (fun j => Column.reset_window_height j).
Definition toggle_window_width (window : option Id) (forwards : bool) : ScrollingSpace -> res ScrollingSpace :=
  resize_column window (fun j => Column.toggle_width j forwards).
Definition toggle_window_height (window : option Id) (forwards : bool) : ScrollingSpace -> res ScrollingSpace :=
  resize_column window (fun j => Column.toggle_window_height j forwards).

Definition expand_column_to_available_width cv (s : ScrollingSpace) : res ScrollingSpace :=
  if is_empty s then mret s
  else
    let i := active_column_idx s in
    c ← active_column s;
    if negb (is_normal (Column.pending_sizing_mode c)) || Column.is_full_width c then mret s
    else if is_centering_focused_column s then s ← update_column i Column.toggle_full_width s; cancel_resize i s
    else
      v ← visible_columns s;
      match v_active v with
      | None => mret s
      | Some active_col_x =>
          let available := ((working_area s).2.1 - gaps (options s) - v_taken v - (Column.extra_size c).1)%F in
          if fleb available f0 then mret s
          else
            s ← cancel_resize i s;
            if negb (v_others v) then update_column i Column.toggle_full_width s
            else
              active_width ← index (data s) i;
              s ← update_column i (fun c => Column.update_tile_sizes true
                    (Column.set_is_full_width false (Column.set_preset_width_idx None
                      (Column.set_width (Fixed (active_width + available)%F) c)))) s;
              leftmost ← unwrap (v_leftmost v);
              let new_view_x := (leftmost - gaps (options s) - (working_area s).1.1)%F in
              s ← animate_view_offset cv i (new_view_x - active_col_x)%F s;
              animate_view_offset_to_column cv None i None s
      end.

(** ** Gestures *)
Definition view_offset_gesture_begin cv (touchpad : bool) (s : ScrollingSpace) : res ScrollingSpace :=
  match columns s, interactive_resize s with
  | _ :: _, None => v ← ViewOffset.begin cv touchpad None (view_offset s); mret (set_view_offset v s)
  | _, _ => mret s
  end.
Definition dnd_scroll_gesture_begin cv (s : ScrollingSpace) : res ScrollingSpace :=
  if ViewOffset.is_dnd_scroll (view_offset s) then mret s
  else
    v ← ViewOffset.begin cv false (Some (cv_now_unadjusted cv)) (view_offset s);
    mret (set_interactive_resize None (set_view_offset v s)).

Definition norm_factor (g : ViewOffset.ViewGesture) (s : ScrollingSpace) : f64 :=
  if ViewOffset.is_touchpad g then ((working_area s).2.1 / VIEW_GESTURE_WORKING_AREA_MOVEMENT)%F else f1.

Definition with_gesture (t : SwipeTracker.SwipeTracker) (current delta : f64) (last start : option Duration)
    (g : ViewOffset.ViewGesture) : ViewOffset.ViewOffset :=
  ViewOffset.InGesture
    {| ViewOffset.current_view_offset := current; ViewOffset.g_animation := ViewOffset.g_animation g; ViewOffset.tracker := t;
       ViewOffset.delta_from_tracker := delta; ViewOffset.stationary_view_offset := ViewOffset.stationary_view_offset g;
       ViewOffset.is_touchpad := ViewOffset.is_touchpad g; ViewOffset.dnd_last_event_time := last;
       ViewOffset.dnd_nonzero_start_time := start |}.

Definition view_offset_gesture_update (delta_x : f64) (ts : Duration) (touchpad : bool) (s : ScrollingSpace)
    : res (option bool * ScrollingSpace) :=
  match view_offset s with
  | ViewOffset.InGesture g =>
      if negb (Bool.eqb (ViewOffset.is_touchpad g) touchpad) || ViewOffset.is_dnd_scroll (view_offset s) then mret (None, s)
      else
        t ← SwipeTracker.push delta_x ts (ViewOffset.tracker g);
        let o := (SwipeTracker.pos t * norm_factor g s + ViewOffset.delta_from_tracker g)%F in
        mret (Some true, set_view_offset (with_gesture t o (ViewOffset.delta_from_tracker g) (ViewOffset.dnd_last_event_time g)
                                            (ViewOffset.dnd_nonzero_start_time g) g) s)
  | _ => mret (None, s)
  end.

(** The position of column [i] from the widths of the columns themselves. *)
Definition sum_widths (i : nat) (s : ScrollingSpace) : res f64 :=
  foldl (fun r c => x ← r; w ← Column.col_width c; mret (x + w + gaps (options s))%F) (Ok f0) (take i (columns s)).

Definition scroll_bounds (s : ScrollingSpace) : res (f64 * f64) :=
  if is_empty s then mret (f0, f0)
  else
    last ← usub (length (columns s)) 1;
    last_col_x ← sum_widths last s;
    last_col_width ← index (data s) last;
    active_col_x ← sum_widths (active_column_idx s) s;
    mret ((- (working_area s).2.1 - active_col_x)%F, (last_col_x + last_col_width - (working_area s).1.1 - active_col_x)%F).

Definition dnd_scroll_gesture_scroll cv (delta : f64) (s : ScrollingSpace) : res (bool * ScrollingSpace) :=
  match view_offset s with
  | ViewOffset.InGesture g =>
      match ViewOffset.dnd_last_event_time g with
      | None => mret (false, s)
      | Some last_time =>
          let now := cv_now_unadjusted cv in
          let keep start := with_gesture (ViewOffset.tracker g) (ViewOffset.current_view_offset g) (ViewOffset.delta_from_tracker g)
                              (Some now) start g in
          if feqb delta f0 then mret (false, set_view_offset (keep None) s)
          else
            let nonzero_start := default now (ViewOffset.dnd_nonzero_start_time g) in
            if saturating_sub now nonzero_start <? from_millis (dnd_view_delay_ms (options s))
            then mret (true, set_view_offset (keep (Some nonzero_start)) s)
            else
              let delta := (delta * as_secs_f64 (saturating_sub now last_time) * dnd_view_max_speed (options s))%F in
              t ← SwipeTracker.push delta now (ViewOffset.tracker g);
              let view_offset := (SwipeTracker.pos t + ViewOffset.delta_from_tracker g)%F in
              '(leftmost, rightmost) ← scroll_bounds s;
              clamped ← fclamp view_offset (fmin leftmost rightmost) (fmax leftmost rightmost);
              mret (true, set_view_offset (with_gesture t clamped (ViewOffset.delta_from_tracker g + (clamped - view_offset))%F
                                             (Some now) (Some nonzero_start) g) s)
      end
  | _ => mret (false, s)
  end.

(** The area a column is aligned with, by its mode. *)
Definition area_for (mode : SizingMode) (s : ScrollingSpace) : Rect := if is_maximized mode then parent_area s else working_area s.

(** A position the view can snap to, and the column it activates. *)
Record Snap := { snap_pos : f64; snap_col : nat }.

(** Snapping points that center each column. *)
Fixpoint centered_snaps (i : nat) (col_x : f64) (cols : list Column.Column) (s : ScrollingSpace) : res (list Snap) :=
  match cols with
  | [] => mret []
  | c :: cols =>
      col_w ← Column.col_width c;
      let mode := Column.sizing_mode c in
      let area := area_for mode s in
      let view_pos := if is_fullscreen mode then col_x
                      else if fleb area.2.1 col_w then (col_x - area.1.1)%F
                      else (col_x - (area.2.1 - col_w) / of_Z 2 - area.1.1)%F in
      rest ← centered_snaps (S i) (col_x + (col_w + gaps (options s)))%F cols s;
      mret ({| snap_pos := view_pos; snap_col := i |} :: rest)
  end.

(** The padding of a column within its area. *)
Definition snap_padding (mode : SizingMode) (area : Rect) (col_w : f64) (s : ScrollingSpace) : res f64 :=
  if is_maximized mode then mret f0 else fclamp ((area.2.1 - col_w) / of_Z 2)%F f0 (gaps (options s)).

(** The left and right snapping points of a column at [col_x]. *)
Definition snap_points (col_x : f64) (c : Column.Column) (prev_col_w next_col_w : option f64) (s : ScrollingSpace) : res (f64 * f64) :=
  col_w ← Column.col_width c;
  let mode := Column.sizing_mode c in
  let area := area_for mode s in
  let left_strut := area.1.1 in
  let right_strut := ((view_size s).1 - area.2.1 - area.1.1)%F in
  if is_fullscreen mode then mret (col_x, (col_x + col_w)%F)
  else
    padding ← snap_padding mode area col_w s;
    let center := if fleb area.2.1 col_w then (col_x - left_strut)%F
                  else (col_x - (area.2.1 - col_w) / of_Z 2 - left_strut)%F in
    let overflowing adj :=
      bool_decide (center_focused_column (options s) = CenterOnOverflow)
      && match adj with Some w => fgtb (w + of_Z 3 * gaps (options s) + col_w)%F area.2.1 | None => false end in
    mret (if overflowing next_col_w then center else (col_x - padding - left_strut)%F,
          if overflowing prev_col_w then (center + (view_size s).1)%F else (col_x + col_w + padding + right_strut)%F).

Definition width_at (i : option nat) (s : ScrollingSpace) : res (option f64) :=
  match i with
  | Some i => match columns s !! i with Some c => w ← Column.col_width c; mret (Some w) | None => mret None end
  | None => mret None
  end.
Definition checked_pred (i : nat) : option nat := match i with O => None | S i => Some i end.

(** Snapping points between the first and the last column's. *)
Fixpoint inner_snaps (leftmost rightmost : f64) (i : nat) (col_x : f64) (cols : list Column.Column) (s : ScrollingSpace)
    : res (list Snap) :=
  match cols with
  | [] => mret []
  | c :: cols =>
      prev ← width_at (checked_pred i) s;
      next ← width_at (Some (S i)) s;
      '(lft, rgt) ← snap_points col_x c prev next s;
      let inside x := fltb leftmost x && fltb x rightmost in
      let rgt := (rgt - (view_size s).1)%F in
      w ← Column.col_width c;
      rest ← inner_snaps leftmost rightmost (S i) (col_x + (w + gaps (options s)))%F cols s;
      mret ((if inside lft then [{| snap_pos := lft; snap_col := i |}] else [])
            ++ (if inside rgt then [{| snap_pos := rgt; snap_col := i |}] else []) ++ rest)
  end.

Definition snapping_points (s : ScrollingSpace) : res (list Snap) :=
  if is_centering_focused_column s then centered_snaps 0 f0 (columns s) s
  else
    first ← index (columns s) 0;
    next ← width_at (Some 1%nat) s;
    '(leftmost, _) ← snap_points f0 first None next s;
    last_idx ← usub (length (columns s)) 1;
    last_col_x ← sum_widths last_idx s;
    last ← index (columns s) last_idx;
    prev ← width_at (checked_pred last_idx) s;
    '(_, rgt) ← snap_points last_col_x last prev None s;
    let rightmost := (rgt - (view_size s).1)%F in
    inner ← inner_snaps leftmost rightmost 0 f0 (columns s) s;
    mret ({| snap_pos := leftmost; snap_col := 0 |} :: {| snap_pos := rightmost; snap_col := last_idx |} :: inner).

(** [sort_by_key]: stable. *)
Fixpoint insert_snap (x : Snap) (xs : list Snap) : list Snap :=
  match xs with
  | [] => [x]
  | y :: ys => if fltb (snap_pos y) (snap_pos x) then y :: insert_snap x ys else x :: xs
  end.
Definition sort_snaps (xs : list Snap) : list Snap := foldr insert_snap [] xs.

(** [min_by_key] of the distance: the first of the closest. *)
Definition closest_snap (target : f64) (xs : list Snap) : option Snap :=
  match xs with
  | [] => None
  | x :: xs =>
      Some (foldl (fun a y => if fgtb (fabs (snap_pos a - target)%F) (fabs (snap_pos y - target)%F) then y else a) x xs)
  end.

(** Whether the view at [pos] cuts column [i] off on its right or left. *)
Definition cut_off (to_right : bool) (pos : f64) (i : nat) (s : ScrollingSpace) : res bool :=
  c ← index (columns s) i;
  col_x ← column_x i s;
  col_w ← Column.col_width c;
  let mode := Column.sizing_mode c in
  let area := area_for mode s in
  if is_fullscreen mode then
    mret (if to_right then fltb (pos + (view_size s).1)%F (col_x + col_w)%F else fltb col_x pos)
  else
    padding ← snap_padding mode area col_w s;
    mret (if to_right then fltb (pos + area.1.1 + area.2.1)%F (col_x + col_w + padding)%F
          else fltb (col_x - padding)%F (pos + area.1.1)%F).

(** The furthest column towards the gesture that is still visible. *)
Fixpoint furthest (to_right : bool) (pos : f64) (is_ : list nat) (best : nat) (s : ScrollingSpace) : res nat :=
  match is_ with
  | [] => mret best
  | i :: is_ => b ← cut_off to_right pos i s; if b : bool then mret best else furthest to_right pos is_ i s
  end.

Definition view_offset_gesture_end cv (touchpad : option bool) (s : ScrollingSpace) : res (bool * ScrollingSpace) :=
  match view_offset s with
  | ViewOffset.InGesture g =>
      if match touchpad with Some x => negb (Bool.eqb (ViewOffset.is_touchpad g) x) | None => false end then mret (false, s)
      else
        t ← SwipeTracker.push f0 (cv_now_unadjusted cv) (ViewOffset.tracker g);
        let factor := norm_factor g s in
        v ← SwipeTracker.velocity t;
        let velocity := (v * factor)%F in
        let current := (SwipeTracker.pos t * factor + ViewOffset.delta_from_tracker g)%F in
        if is_empty s then mret (true, set_view_offset (ViewOffset.Static current) s)
        else
          p ← SwipeTracker.projected_end_pos t;
          let target := (p * factor + ViewOffset.delta_from_tracker g)%F in
          snaps ← snapping_points s;
          _ ← mapM (fun x => not_nan (snap_pos x)) snaps;
          let snaps := sort_snaps snaps in
          active_col_x ← column_x (active_column_idx s) s;
          let target_view_pos := (active_col_x + target)%F in
          _ ← mapM (fun x => not_nan (fabs (snap_pos x - target_view_pos)%F)) snaps;
          snap ← unwrap (closest_snap target_view_pos snaps);
          let i := snap_col snap in
          new_col_idx ←
            (if is_centering_focused_column s then mret i
             else if fgeb target current then furthest true (snap_pos snap) (seq (S i) (length (columns s) - S i)) i s
             else furthest false (snap_pos snap) (reverse (seq 0 i)) i s);
          new_col_x ← column_x new_col_idx s;
          let delta := (active_col_x - new_col_x)%F in
          let s := if bool_decide (active_column_idx s = new_col_idx) then s else set_view_offset_to_restore None s in
          a ← Animation.new cv (current + delta)%F (snap_pos snap - new_col_x)%F velocity (horizontal_view_movement (options s));
          s ← animate_view_offset_to_column cv None new_col_idx None
                (set_view_offset (ViewOffset.Animated a) (set_active_column_idx new_col_idx s));
          mret (true, s)
  | _ => mret (false, s)
  end.

Definition dnd_scroll_gesture_end cv (s : ScrollingSpace) : res ScrollingSpace :=
  match view_offset s with
  | ViewOffset.InGesture g =>
      if ViewOffset.is_dnd_scroll (view_offset s) && feqb (SwipeTracker.pos (ViewOffset.tracker g)) f0 then
        let s := set_view_offset (ViewOffset.Static (ViewOffset.delta_from_tracker g)) s in
        if is_empty s then mret s else animate_view_offset_to_column cv None (active_column_idx s) None s
      else '(_, s) ← view_offset_gesture_end cv None s; mret s
  | _ => mret s
  end.

(** ** Interactive resizing *)
Definition interactive_resize_begin cv (x : Id) (edges : ResizeEdge) (s : ScrollingSpace) : res (bool * ScrollingSpace) :=
  match interactive_resize s with
  | Some _ => mret (false, s)
  | None =>
      '(i, j) ← source (Some x) s;
      c ← index (columns s) i;
      if negb (is_normal (Column.pending_sizing_mode c)) then mret (false, s)
      else
        t ← index (Column.tiles c) j;
        v ← ViewOffset.stop_anim_and_gesture cv (view_offset s);
        mret (true, set_view_offset v (set_interactive_resize
          (Some {| resize_window := x; original_window_size := Tile.window_size t; resize_edges := edges |}) s))
  end.

Definition interactive_resize_update (x : Id) (delta : Point) (s : ScrollingSpace) : res (bool * ScrollingSpace) :=
  match interactive_resize s with
  | None => mret (false, s)
  | Some r =>
      if bool_decide (x = resize_window r) then
        let e := resize_edges r in
        '(i, j) ← source (Some x) s;
        s ← (if edge_left e || edge_right e then
               let dx := if edge_left e then (- delta.1)%F else delta.1 in
               let dx := if is_centering_focused_column s then (dx * of_Z 2)%F else dx in
               let w := as_i32 (fround ((original_window_size r).1 + dx)%F) in
               update_column i (Column.set_column_width (SetFixed w) (Some j) false) s
             else mret s);
        s ← (if (edge_top e || edge_bottom e) && negb (edge_top e && bool_decide (j = 0%nat)) then
               let dy := if edge_top e then (- delta.2)%F else delta.2 in
               let h := as_i32 (fround ((original_window_size r).2 + dy)%F) in
               update_column i (Column.set_window_height (SetFixed h) (Some j) false) s
             else mret s);
        mret (true, s)
      else mret (false, s)
  end.

Definition interactive_resize_end cv (window : option Id) (s : ScrollingSpace) : res ScrollingSpace :=
  match interactive_resize s with
  | None => mret s
  | Some r =>
      match window with
      | Some x =>
          if bool_decide (x = resize_window r) then
            c ← active_column s;
            s ← (if Column.contains x c then animate_view_offset_to_column cv None (active_column_idx s) None s else mret s);
            mret (set_interactive_resize None s)
          else mret s
      | None => mret (set_interactive_resize None s)
      end
  end.

(** ** Where a dragged window would go *)

(** [min_by_key] of the distances of an enumeration to [x]. *)
Definition closest (x : f64) (ys : list f64) : res (option (nat * f64)) :=
  _ ← mapM (fun y => not_nan (fabs (y - x)%F)) ys;
  mret match imap (fun i y => (i, y)) ys with
       | [] => None
       | p :: ps => Some (foldl (fun (a q : nat * f64) => if fgtb (fabs (a.2 - x)%F) (fabs (q.2 - x)%F) then q else a) p ps)
       end.
Fixpoint take_while (p : f64 -> bool) (xs : list f64) : list f64 :=
  match xs with [] => [] | x :: xs => if p x then x :: take_while p xs else [] end.

Definition insert_position cv (pos : Point) (s : ScrollingSpace) : res InsertPosition :=
  if is_empty s then mret (NewColumn 0)
  else
    v ← view_pos cv s;
    let x := (pos.1 + v + gaps (options s) / of_Z 2)%F in
    let y := (pos.2 + gaps (options s) / of_Z 2)%F in
    if fltb x f0 then mret (NewColumn 0)
    else
      o ← closest x (column_xs s);
      '(closest_col_idx, col_x) ← unwrap o;
      let col_idx := (length (take_while (fun c => fleb c x) (column_xs s)) - 1)%nat in
      if bool_decide (col_idx = length (columns s)) then mret (NewColumn closest_col_idx)
      else
        c ← index (columns s) col_idx;
        '(closest_tile_idx, tile_y) ←
          (if Column.tabbed c then
             top ← Column.tile_offset (Column.active_tile_idx c) c;
             d ← index (Column.data c) (Column.active_tile_idx c);
             let bottom := (top.2 + (td_size d).2)%F in
             mret (if fleb (fabs (top.2 - y)%F) (fabs (bottom - y)%F) then (Column.active_tile_idx c, top.2)
                   else ((Column.active_tile_idx c + 1)%nat, bottom))
           else os ← Column.tile_offsets c; o ← closest y (snd <$> os); unwrap o);
        let vert_dist := fabs (col_x - x)%F in
        let hor_dist := fabs (tile_y - y)%F in
        mret (if fleb vert_dist hor_dist then NewColumn closest_col_idx else InColumn col_idx closest_tile_idx).
End ops.
End ScrollingSpace.
