(* ===== verification/ScrollingSpec.v ===== *)
(** * What the scrolling layout is about: windows in columns

    The abstract state of a scrolling space: its columns of windows, the active
    window of each, the active column, and whether closing it goes back to the
    column before.  The operations on it say what the user sees of each operation
    of layout/scrolling.rs, without sizes, animations and the view. *)

From stdpp Require Import base numbers option list.
From S2P Require Import Prelude.

(** A column: its windows, and the index of the active one. *)
Abbreviation GCol Id := (list Id * nat)%type.

Section spec.
Context {Id : Type} `{!EqDecision Id}.

Record Grid := { g_cols : list (GCol Id); g_active : nat; g_prev : bool }.

Definition g_windows (g : Grid) : list Id := g_cols g ≫= fst.
Definition with_cols (cs : list (GCol Id)) (g : Grid) : Grid := {| g_cols := cs; g_active := g_active g; g_prev := g_prev g |}.
Definition with_prev (b : bool) (g : Grid) : Grid := {| g_cols := g_cols g; g_active := g_active g; g_prev := b |}.
Definition with_active (i : nat) (g : Grid) : Grid := {| g_cols := g_cols g; g_active := i; g_prev := g_prev g |}.
Definition g_empty (g : Grid) : bool := match g_cols g with [] => true | _ => false end.
Definition last_col (g : Grid) : nat := length (g_cols g) - 1.

(** Activating another column forgets about going back. *)
Definition g_activate (i : nat) (g : Grid) : Grid :=
  if bool_decide (g_active g = i) then g else {| g_cols := g_cols g; g_active := i; g_prev := false |}.

Lemma with_prev_activate b i g : with_prev b (g_activate i g) = {| g_cols := g_cols g; g_active := i; g_prev := b |}.
Proof. unfold with_prev, g_activate. case_bool_decide as E; cbn; [by rewrite E|done]. Qed.

Definition alter_col (i : nat) (f : GCol Id -> GCol Id) (g : Grid) : Grid := with_cols (alter f i (g_cols g)) g.
Definition set_active_tile (i j : nat) : Grid -> Grid := alter_col i (fun c => (c.1, j)).

(** ** Columns and windows coming and going *)

(** A new column becomes active, and then closing it goes back to the column it
    was opened from; or the active column stays the same one. *)
Definition g_add_column (idx : option nat) (col : GCol Id) (activate : bool) (g : Grid) : Grid :=
  let was_empty := g_empty g in
  let idx := default (if was_empty then 0 else g_active g + 1) idx in
  let cs := insert_at idx col (g_cols g) in
  if activate then {| g_cols := cs; g_active := idx; g_prev := negb was_empty && bool_decide (idx = g_active g + 1) |}
  else {| g_cols := cs; g_active := if negb was_empty && (idx <=? g_active g) then g_active g + 1 else g_active g; g_prev := g_prev g |}.
Definition g_add (idx : option nat) (x : Id) : bool -> Grid -> Grid := g_add_column idx ([x], 0).

(** A window joins a column; the active window of the column stays the same one
    unless the new one is activated. *)
Definition col_insert (j : nat) (x : Id) (activate : bool) (c : GCol Id) : GCol Id :=
  (insert_at j x c.1, if activate then j else if j <=? c.2 then c.2 + 1 else c.2).
Definition g_add_to (i : nat) (j : option nat) (x : Id) (activate : bool) (g : Grid) : Grid :=
  let n := match g_cols g !! i with Some c => length c.1 | None => 0 end in
  let g := alter_col i (col_insert (default n j) x activate) g in
  if activate then g_activate i g else g.

Definition g_remove_column (i : nat) (g : Grid) : Grid :=
  let cs := delete i (g_cols g) in
  let prev := if bool_decide (i + 1 = g_active g) then false else g_prev g in
  match cs with
  | [] => {| g_cols := cs; g_active := g_active g; g_prev := prev |}
  | _ =>
      if i <? g_active g then {| g_cols := cs; g_active := g_active g - 1; g_prev := false |}
      else if bool_decide (i = g_active g) && prev then
        if 0 <? i then {| g_cols := cs; g_active := g_active g - 1; g_prev := false |}
        else {| g_cols := cs; g_active := g_active g; g_prev := prev |}
      else g_activate (g_active g `min` (length cs - 1)) {| g_cols := cs; g_active := g_active g; g_prev := prev |}
  end.

(** A window leaves a column that has others. *)
Definition col_delete (j : nat) (c : GCol Id) : GCol Id :=
  (delete j c.1, if j <? c.2 then c.2 - 1 else if bool_decide (j = c.2) && bool_decide (S j = length c.1) then j - 1 else c.2).
Definition g_remove (i j : nat) (g : Grid) : Grid :=
  match g_cols g !! i with
  | Some c => if bool_decide (length c.1 = 1) then g_remove_column i g else alter_col i (col_delete j) g
  | None => g
  end.

(** ** Focus and moves *)
Definition g_focus_left (g : Grid) : Grid := if bool_decide (g_active g = 0) then g else g_activate (g_active g - 1) g.
Definition g_focus_right (g : Grid) : Grid :=
  if (length (g_cols g) <=? g_active g + 1) then g else g_activate (g_active g + 1) g.
Definition g_focus_last (g : Grid) : Grid := if g_empty g then g else g_activate (last_col g) g.
(** Columns are counted from one. *)
Definition g_focus_column (i : nat) (g : Grid) : Grid := if g_empty g then g else g_activate ((i - 1) `min` last_col g) g.

(** An operation on the active column. *)
Definition on_active_col (f : GCol Id -> GCol Id) (g : Grid) : Grid := alter_col (g_active g) f g.
Definition col_focus (f : nat -> nat -> nat) (c : GCol Id) : GCol Id := (c.1, f (length c.1) c.2).
Definition up (len a : nat) : nat := a - 1.
Definition down (len a : nat) : nat := (a + 1) `min` (len - 1).
Definition g_focus_up : Grid -> Grid := on_active_col (col_focus up).
Definition g_focus_down : Grid -> Grid := on_active_col (col_focus down).
(** Focus moves within the column, or on to the next one. *)
Definition g_focus_or (f : nat -> nat -> nat) (beyond : Grid -> Grid) (g : Grid) : Grid :=
  match g_cols g !! g_active g with
  | Some c => if bool_decide (f (length c.1) c.2 = c.2) then beyond g else on_active_col (col_focus f) g
  | None => g
  end.
Definition g_move_column_to (k : nat) (g : Grid) : Grid :=
  match g_cols g !! g_active g with
  | Some c => if bool_decide (g_active g = k) then g
              else {| g_cols := insert_at k c (delete (g_active g) (g_cols g)); g_active := k; g_prev := false |}
  | None => g
  end.

(** Swaps the active window of the active column with the one at [k]. *)
Definition col_swap (k : nat) (c : GCol Id) : GCol Id :=
  match c.1 !! c.2, c.1 !! k with
  | Some x, Some y => (<[c.2 := y]> (<[k := x]> c.1), k)
  | _, _ => c
  end.
Definition g_find (x : Id) (g : Grid) : option (nat * nat) :=
  i ← position (fun c : GCol Id => bool_decide (x ∈ c.1)) (g_cols g);
  c ← g_cols g !! i;
  j ← position (fun y => bool_decide (y = x)) c.1;
  Some (i, j).
Definition g_activate_window (x : Id) (g : Grid) : Grid :=
  match g_find x g with Some (i, j) => g_activate i (set_active_tile i j g) | None => g end.
Definition g_source (x : option Id) (g : Grid) : option (nat * nat) :=
  match x with
  | Some x => g_find x g
  | None => c ← g_cols g !! g_active g; Some (g_active g, c.2)
  end.
Definition g_remove_source (x : option Id) (g : Grid) : Grid := match g_source x g with Some (i, j) => g_remove i j g | None => g end.
Definition g_at (i j : nat) (g : Grid) : option Id := c ← g_cols g !! i; c.1 !! j.
Definition col_len (i : nat) (g : Grid) : nat := match g_cols g !! i with Some c => length c.1 | None => 0 end.
Definition was_active (i j : nat) (g : Grid) : bool :=
  bool_decide (g_active g = i) && bool_decide (snd <$> g_cols g !! i = Some j).

(** Moves a window into the column on the left (right), or out of its column. *)
Definition g_consume_or_expel_left (x : option Id) (g : Grid) : Grid :=
  match g_source x g with
  | Some (i, j) =>
      match g_at i j g with
      | Some y =>
          let active := was_active i j g in
          if bool_decide (col_len i g = 1) then
            if bool_decide (i = 0) then g
            else g_add_to (i - 1) None y active (g_remove i 0 (if active then with_prev true g else g))
          else
            let g := g_add (Some i) y active (g_remove i j g) in if active then with_prev false g else g
      | None => g
      end
  | None => g
  end.
Definition g_consume_or_expel_right (x : option Id) (g : Grid) : Grid :=
  match g_source x g with
  | Some (i, j) =>
      match g_at i j g with
      | Some y =>
          let active := was_active i j g in
          if bool_decide (col_len i g = 1) then
            if bool_decide (i + 1 = length (g_cols g)) then g
            else g_add_to i None y active (g_remove i 0 (if active then with_prev false g else g))
          else g_add (Some (i + 1)) y active (g_remove i j g)
      | None => g
      end
  | None => g
  end.

(** The first window of the next column joins the active one; the last window of
    the active column leaves it. *)
Definition g_consume (g : Grid) : Grid :=
  match g_at (g_active g + 1) 0 g with
  | Some y => g_add_to (g_active g) None y false (g_remove (g_active g + 1) 0 g)
  | None => g
  end.
Definition g_expel (g : Grid) : Grid :=
  let n := col_len (g_active g) g in
  match g_at (g_active g) (n - 1) g with
  | Some y => if bool_decide (n = 1) then g else g_add (Some (g_active g + 1)) y false (g_remove (g_active g) (n - 1) g)
  | None => g
  end.

(** The active windows of the active column and of its neighbour change places;
    focus goes with the window. *)
Definition active_of (i : nat) (g : Grid) : option Id := c ← g_cols g !! i; c.1 !! c.2.
Definition col_replace (x : Id) (c : GCol Id) : GCol Id := (<[c.2 := x]> c.1, c.2).
Definition g_swap (to_left : bool) (g : Grid) : Grid :=
  let i := g_active g in
  let k := if to_left then i - 1 else i + 1 in
  match active_of i g, active_of k g with
  | Some x, Some y =>
      if bool_decide (i = k) then g
      else {| g_cols := alter (col_replace x) k (alter (col_replace y) i (g_cols g)); g_active := k; g_prev := false |}
  | _, _ => g
  end.
End spec.
Arguments Grid : clear implicits.
