(* ===== verification/ScrollingInv.v ===== *)
(** * Invariants of the scrolling layout

    The structural invariant of a scrolling space (layout/scrolling.rs) and how it is
    seen as a grid of windows.  Of [ScrollingSpace::verify_invariants] it has the
    assertions about the scale, the working area, the active column, the options and
    cached data of columns and tiles, sizing modes and the window being resized; and no
    window is there twice.  It leaves out that the view has a positive size, how
    tall tiles are asked to be in all, the weight of a lone tile, and that a view offset
    is kept to be restored only while the active column is fullscreen or maximised:
    that one does not hold ([ScrollingThms.expel_keeps_restore_offset]). *)

From stdpp Require Import base numbers option list.
From Stdlib Require Import ZArith Lia SpecFloat.
From S2P Require Import Prelude.
From S2P Require Import Runs.
From S2P Require Import F64.
From S2P Require Import Duration.
From S2P Require Import Clock.
From S2P Require Import Gesture.
From S2P Require Import Animation.
From S2P Require Import AnimTotal.
From S2P Require Import LayoutTypes.
From S2P Require Import F64Sign.
From S2P Require Import Tile.
From S2P Require Import TileInv.
From S2P Require Import Column.
From S2P Require Import ColumnInv.
From S2P Require Import ColumnOps.
From S2P Require Import Scrolling.
From S2P Require Import ScrollingSpec.

Section inv.
Context {LE : LayoutElement} {LEL : LayoutElementLaws} {GE : Geometry} {GL : GeometryLaws} {LM : Libm} {KF : Keyframe}.
Implicit Types (cv : ClockView) (t : Tile.Tile) (c : Column.Column) (s : ScrollingSpace.ScrollingSpace).
Import ScrollingSpace.

Definition env s : Env :=
  {| e_options := options s; e_view_size := view_size s; e_working_area := working_area s; e_parent_area := parent_area s;
     e_scale := scale s |}.

Definition gesture_ok (g : ViewOffset.ViewGesture) : Prop :=
  opt_total (fun a => a) (ViewOffset.g_animation g) /\ SwipeTracker.tracker_ok (ViewOffset.tracker g).
Definition view_ok (v : ViewOffset.ViewOffset) : Prop :=
  match v with
  | ViewOffset.Static _ => True
  | ViewOffset.Animated a => anim_total a
  | ViewOffset.InGesture g => gesture_ok g
  end.

(** ** The space as a grid *)
Definition gcol c : GCol Id := (ids c, Column.active_tile_idx c).
Definition grid s : Grid Id :=
  {| g_cols := gcol <$> columns s; g_active := active_column_idx s;
     g_prev := bool_decide (is_Some (activate_prev_column_on_removal s)) |}.

(** ** The invariant

    [space_pre] lets the active column be one past the last, as it can be while
    a column is removed; [space_mid] leaves out that only a lone tile or tabs are
    fullscreen, which one operation restores in a second step. *)
Record space_pre s : Prop := {
  so_env : env_ok (env s);
  so_area : working_area s = compute_working_area (parent_area s) (scale s) (struts (options s));
  so_cols : Forall (col_mid (env s)) (columns s);
  so_data : Forall2 caches (columns s) (data s);
  so_le : active_column_idx s <= length (columns s);
  so_view : view_ok (view_offset s);
  so_nodup : NoDup (g_windows (grid s));
  so_resize : forall r, interactive_resize s = Some r -> resize_window r ∈ g_windows (grid s)
}.
Definition active_ok s : Prop := active_column_idx s < length (columns s) \/ columns s = [] /\ active_column_idx s = 0.
Definition space_mid s : Prop := space_pre s /\ active_ok s.
Definition space_ok s : Prop := space_mid s /\ Forall single (columns s).

(** The step from [s] to [s'], seen as [g]. *)
Definition to s (g : Grid Id) s' : Prop := space_ok s' /\ env s' = env s /\ grid s' = g.

Lemma to_refl s : space_ok s -> to s (grid s) s.
Proof. done. Qed.
Lemma to_trans s g s1 g2 s2 : to s g s1 -> to s1 g2 s2 -> to s g2 s2.
Proof. intros (_ & H1 & _) (? & H2 & ?). split_and!; [done|congruence|done]. Qed.

Lemma space_cols s : space_ok s <-> space_mid s /\ Forall (col_ok (env s)) (columns s).
Proof.
  split.
  - intros [Hm Hs]. split; [done|]. pose proof (so_cols _ (proj1 Hm)) as Hc. apply Forall_forall. intros c Hin.
    rewrite Forall_forall in *. split; auto.
  - intros [Hm Hs]. split; [done|]. eapply Forall_impl; [exact Hs|]. by intros c [_ ?].
Qed.
Lemma space_col s i c : space_ok s -> columns s !! i = Some c -> col_ok (env s) c.
Proof. intros [_ H]%space_cols Hi. exact (Forall_lookup_1 _ _ _ _ H Hi). Qed.
Lemma space_length_data s : space_pre s -> length (data s) = length (columns s).
Proof. intros Hs. symmetry. eapply Forall2_length, Hs. Qed.
Lemma space_active_lt s : space_mid s -> is_empty s = false -> active_column_idx s < length (columns s).
Proof. intros Hs He. destruct (proj2 Hs) as [?|[Hc _]]; [done|]. unfold is_empty in He. by rewrite Hc in He. Qed.
Lemma col_nonempty E c : col_mid E c -> Column.tiles c <> [].
Proof. intros Hc H. pose proof (cm_active _ _ Hc) as Ha. rewrite H in Ha. cbn in Ha. lia. Qed.

Lemma grid_lookup s i : g_cols (grid s) !! i = gcol <$> columns s !! i.
Proof. apply list_lookup_fmap. Qed.
Lemma grid_length s : length (g_cols (grid s)) = length (columns s).
Proof. apply length_fmap. Qed.
Lemma grid_empty s : g_empty (grid s) = is_empty s.
Proof. unfold g_empty, is_empty, grid. cbn. by destruct (columns s). Qed.
Lemma length_ids c : length (ids c) = length (Column.tiles c).
Proof. apply length_fmap. Qed.

(** ** Positions of columns *)
Lemma xs_from_length g x ws : length (xs_from g x ws) = length ws.
Proof. revert x. induction ws as [|w ws IH]; intros x; cbn; [done|]. by rewrite IH. Qed.
Lemma column_x_runs s i : i <= length (data s) -> runs (column_x i s) (fun _ => True).
Proof.
  intros Hi. unfold column_x. destruct (lookup_lt_is_Some_2 (column_xs s) i) as [x Hx].
  - unfold column_xs. rewrite xs_from_length, length_app. cbn. lia.
  - by rewrite Hx.
Qed.
Lemma col_width_ok s i c : space_pre s -> columns s !! i = Some c -> runs (Column.col_width c) (fun w => caches c w /\ nonneg w).
Proof.
  intros Hs Hi. pose proof (Forall_lookup_1 _ _ _ _ (so_cols _ Hs) Hi) as Hc. eapply col_width_runs; [apply Hs|apply Hc|by eapply col_nonempty].
Qed.

(** ** Where the view has to be *)
Lemma new_view_offset_runs cur vw x w g : nonneg g -> runs (compute_new_view_offset cur vw x w g) (fun _ => True).
Proof. intros Hg. unfold compute_new_view_offset. apply runs_if; intros _; [done|]. runs clamp_runs; [exact Hg|]. done. Qed.

Lemma target_view_pos_runs s : space_pre s -> runs (target_view_pos s) (fun _ => True).
Proof.
  intros Hs. unfold target_view_pos. runs column_x_runs; [|done]. rewrite (space_length_data s Hs). by apply so_le.
Qed.

Lemma fit_runs tx x w m s : space_pre s -> runs (compute_new_view_offset_fit tx x w m s) (fun _ => True).
Proof.
  intros Hs. unfold compute_new_view_offset_fit. apply runs_if; intros _; [done|].
  assert (Hg : nonneg (if is_maximized m then (parent_area s, f0) else (working_area s, gaps (options s))).2).
  { destruct (is_maximized m); cbn; [by apply nonneg_cases|apply (so_env _ Hs)]. }
  destruct (if is_maximized m then _ else _) as [area padding]. cbn in Hg.
  eapply runs_bind with (R := fun _ => True); [destruct tx; [done|by apply target_view_pos_runs]|].
  intros y _ _. runs new_view_offset_runs; [done|]. done.
Qed.
Lemma centered_runs tx x w m s : space_pre s -> runs (compute_new_view_offset_centered tx x w m s) (fun _ => True).
Proof.
  intros Hs. unfold compute_new_view_offset_centered. apply runs_if; intros _; [by apply fit_runs|].
  apply runs_if; intros _; [by apply fit_runs|done].
Qed.
Lemma column_fit_runs tx i s :
  space_pre s -> i < length (columns s) -> runs (compute_new_view_offset_for_column_fit tx i s) (fun _ => True).
Proof.
  intros Hs Hi. unfold compute_new_view_offset_for_column_fit. runs runs_index; [done|]. intros c _ Hc.
  runs column_x_runs; [rewrite (space_length_data s Hs); lia|]. intros x _ _. runs col_width_ok; [done..|]. intros w _ _. by apply fit_runs.
Qed.
Lemma column_centered_runs tx i s :
  space_pre s -> i < length (columns s) -> runs (compute_new_view_offset_for_column_centered tx i s) (fun _ => True).
Proof.
  intros Hs Hi. unfold compute_new_view_offset_for_column_centered. runs runs_index; [done|]. intros c _ Hc.
  runs column_x_runs; [rewrite (space_length_data s Hs); lia|]. intros x _ _. runs col_width_ok; [done..|]. intros w _ _. by apply centered_runs.
Qed.
Lemma column_offset_runs tx i prev s :
  space_pre s -> i < length (columns s) -> runs (compute_new_view_offset_for_column tx i prev s) (fun _ => True).
Proof.
  intros Hs Hi. unfold compute_new_view_offset_for_column. pose proof (space_length_data s Hs) as Hl.
  apply runs_if; intros _; [by apply column_centered_runs|].
  destruct (center_focused_column _); [by apply column_fit_runs|by apply column_centered_runs|].
  destruct prev as [p|]; [|by apply column_fit_runs]. apply runs_if; intros _; [by apply column_fit_runs|].
  eapply runs_bind with (R := fun k => k < length (columns s)).
  { apply runs_if; intros _; [step usub_ok; [lia|]|]; returns; lia. }
  intros k _ Hk. runs column_x_runs; [lia|]. intros x _ _. runs runs_index; [done|]. intros c _ Hc.
  runs col_width_ok; [done..|]. intros w _ _. runs column_x_runs; [lia|]. intros y _ _. runs runs_index; [done|]. intros c2 _ Hc2.
  runs col_width_ok; [done..|]. intros w2 _ _. apply runs_if; intros _; [by apply column_fit_runs|by apply column_centered_runs].
Qed.
End inv.
