(* ===== verification/ScrollingOps.v ===== *)
(** * Operations of the scrolling layout: the view, and single columns

    Every operation runs on a space that satisfies the invariant, preserves it,
    and changes the grid of windows as specified. *)

From stdpp Require Import base numbers option list.
From Stdlib Require Import ZArith Lia SpecFloat.
From S2P Require Import Prelude.
From S2P Require Import Runs.
From S2P Require Import F64.
From S2P Require Import Duration.
From S2P Require Import Clock.
From S2P Require Import Gesture.
From S2P Require Import Animation.
From S2P Require Import AnimTotal.
From S2P Require Import LayoutTypes.
From S2P Require Import F64Sign.
From S2P Require Import Tile.
From S2P Require Import TileInv.
From S2P Require Import Column.
From S2P Require Import ColumnInv.
From S2P Require Import ColumnOps.
From S2P Require Import Scrolling.
From S2P Require Import ScrollingSpec.
From S2P Require Import ScrollingInv.

Section ops.
Context {LE : LayoutElement} {LEL : LayoutElementLaws} {GE : Geometry} {GL : GeometryLaws} {LM : Libm} {KF : Keyframe}.
Implicit Types (t : Tile.Tile) (c : Column.Column) (s : ScrollingSpace.ScrollingSpace).
Import ScrollingSpace.
Context (cv : ClockView) (Hcv : cv_ok cv).

(** ** Moving the view *)
Lemma view_offset_ok d v : view_ok v -> view_ok (ViewOffset.offset d v).
Proof. destruct v as [o|a|g]; cbn; [done|apply anim_total_offset|done]. Qed.

Lemma current_runs v : view_ok v -> runs (ViewOffset.current cv v) (fun _ => True).
Proof.
  intros Hv. destruct v as [o|a|g]; cbn; [done|by apply value_runs|]. destruct Hv as [Ha _].
  eapply runs_bind with (R := fun _ => True); [|done].
  destruct (ViewOffset.g_animation g); [by apply value_runs; [done|apply Ha]|done].
Qed.

Lemma set_view_to v s : space_ok s -> view_ok v -> to s (grid s) (set_view_offset v s).
Proof. intros [[[] Ha] Hs] Hv. split_and!; [|done|done]. by split; [split; [constructor|]|]. Qed.
Lemma set_view_pre v s : space_pre s -> view_ok v -> space_pre (set_view_offset v s).
Proof. intros [] Hv. by constructor. Qed.

Definition reviewed s s' : Prop := exists v, s' = set_view_offset v s /\ view_ok v.
Lemma reviewed_to s s' : space_ok s -> reviewed s s' -> to s (grid s) s'.
Proof. intros Hs (v & -> & Hv). by apply set_view_to. Qed.
Lemma reviewed_pre s s' : space_pre s -> reviewed s s' -> space_pre s'.
Proof. intros Hs (v & -> & Hv). by apply set_view_pre. Qed.
Lemma reviewed_trans s s1 s2 : reviewed s s1 -> reviewed s1 s2 -> reviewed s s2.
Proof. intros (v & -> & Hv) (v' & -> & Hv'). by exists v'. Qed.
Lemma reviewed_refl s : space_pre s -> reviewed s s.
Proof. intros Hs. exists (view_offset s). split; [by destruct s|apply Hs]. Qed.

Lemma shift_to_runs o config g : gesture_ok g -> config_total config -> runs (ViewOffset.shift_to cv o config g) gesture_ok.
Proof.
  intros [Ha Ht] Hc. unfold ViewOffset.shift_to. eapply runs_bind with (R := fun _ => True).
  { destruct (ViewOffset.g_animation g); [by apply value_runs; [done|apply Ha]|done]. }
  intros x _ _. runs (new_runs cv Hcv); [done|]. intros a _ Ha'. returns. split; [by intros ? [= <-]|done].
Qed.

Lemma animate_view_with_runs i o config s :
  space_pre s -> i <= length (columns s) -> config_total config ->
  runs (animate_view_offset_with_config cv i o config s) (reviewed s).
Proof.
  intros Hs Hi Hc. unfold animate_view_offset_with_config. pose proof (space_length_data s Hs) as Hl. pose proof (so_le s Hs) as Ha.
  runs column_x_runs; [lia|]. intros x _ _. runs column_x_runs; [lia|]. intros y _ _. set (v := ViewOffset.offset _ _).
  assert (Hv : view_ok v) by (apply view_offset_ok, Hs).
  eapply runs_bind with (R := view_ok); [|intros v' _ Hv'; returns; by eexists].
  apply runs_if; intros _; [by apply view_offset_ok|].
  assert (Hnew : runs (o' ← ViewOffset.current cv v; a ← Animation.new cv o' o f0 config; mret (ViewOffset.Animated a)) view_ok).
  { runs current_runs; [done|]. intros o' _ _. runs (new_runs cv Hcv); [done|]. done. }
  destruct v as [?|?|g]; [done..|]. apply runs_if; intros _; [|done]. runs shift_to_runs; [done..|]. done.
Qed.

Lemma view_total s : space_pre s -> config_total (horizontal_view_movement (options s)).
Proof. intros Hs. apply (so_env _ Hs). Qed.
Lemma movement_total s : space_pre s -> config_total (window_movement (options s)).
Proof. intros Hs. apply (so_env _ Hs). Qed.

Lemma animate_view_runs i o s :
  space_pre s -> i <= length (columns s) -> runs (animate_view_offset cv i o s) (reviewed s).
Proof. intros Hs Hi. apply animate_view_with_runs; [done..|by apply view_total]. Qed.
Lemma animate_to_centered_runs tx i config s :
  space_pre s -> i < length (columns s) -> config_total config ->
  runs (animate_view_offset_to_column_centered cv tx i config s) (reviewed s).
Proof.
  intros Hs Hi Hc. unfold animate_view_offset_to_column_centered. runs column_centered_runs; [done..|]. intros o _ _.
  apply animate_view_with_runs; [done|lia|done].
Qed.
Lemma animate_to_column_with_runs tx i p config s :
  space_pre s -> i < length (columns s) -> config_total config ->
  runs (animate_view_offset_to_column_with_config cv tx i p config s) (reviewed s).
Proof.
  intros Hs Hi Hc. unfold animate_view_offset_to_column_with_config. runs column_offset_runs; [done..|]. intros o _ _.
  apply animate_view_with_runs; [done|lia|done].
Qed.
Lemma animate_to_column_runs tx i p s :
  space_pre s -> i < length (columns s) -> runs (animate_view_offset_to_column cv tx i p s) (reviewed s).
Proof. intros Hs Hi. apply animate_to_column_with_runs; [done..|by apply view_total]. Qed.

(** ** Activating a column *)
Lemma set_resize_None s : space_ok s -> to s (grid s) (set_interactive_resize None s).
Proof. intros [[[] Ha] Hs]. split_and!; [|done|done]. by split; [split; [constructor|]|]. Qed.

Lemma activate_column_with_runs i config s :
  space_pre s -> Forall single (columns s) -> i < length (columns s) -> config_total config ->
  runs (activate_column_with_anim_config cv i config s) (fun s' =>
    to s (g_activate i (grid s)) s' /\ columns s' = columns s /\ data s' = data s /\ active_column_idx s' = i).
Proof.
  intros Hs Hsi Hi Hc. unfold activate_column_with_anim_config, g_activate. cbn [g_active grid]. apply runs_if; intros Eb.
  { apply andb_true_iff in Eb as [Eb%bool_decide_eq_true_1 _]. returns. rewrite bool_decide_eq_true_2 by done.
    split_and!; try done. apply to_refl. split; [|done]. split; [done|]. left. lia. }
  runs animate_to_column_with_runs; [done..|]. intros s1 _ (v & -> & Hv). returns. cbn.
  destruct (bool_decide _) eqn:Ei.
  - apply bool_decide_eq_true_1 in Ei. split_and!; try done. apply set_view_to; [|done]. split; [|done]. split; [done|]. left. lia.
  - destruct Hs. split_and!; [|done..]. split_and!; [|done..]. split; [|done]. split; [constructor; try done|by left]. cbn. lia.
Qed.
Lemma activate_column_runs i s :
  space_ok s -> i < length (columns s) ->
  runs (activate_column cv i s) (fun s' => to s (g_activate i (grid s)) s' /\ columns s' = columns s /\ active_column_idx s' = i).
Proof.
  intros Hs Hi. finish activate_column_with_runs; [apply Hs|apply Hs|done|apply view_total, Hs|]. by intros s' _ (? & ? & _ & ?).
Qed.

(** ** Replacing columns *)
Lemma insert_alter {A} (l : list A) i x : <[i := x]> l = alter (fun _ => x) i l.
Proof. revert i. induction l as [|y l IH]; intros [|i]; cbn; [done..|]. f_equal. apply IH. Qed.

Lemma alter_at_id {A} (f : A -> A) i x (l : list A) : l !! i = Some x -> f x = x -> alter f i l = l.
Proof.
  intros Hi Hf. apply list_eq. intros j. destruct (decide (j = i)) as [->|Hji].
  - rewrite list_lookup_alter_eq, Hi. cbn. by rewrite Hf.
  - by rewrite list_lookup_alter_ne.
Qed.

Lemma data_lookup s i c : space_pre s -> columns s !! i = Some c -> exists w, data s !! i = Some w /\ caches c w.
Proof. intros Hs Hi. by eapply Forall2_lookup_l; [apply Hs|]. Qed.

Lemma replace_mid s i c c' w (s' := set_data (<[i := w]> (data s)) (set_columns (<[i := c']> (columns s)) s)) :
  space_mid s -> columns s !! i = Some c -> col_mid (env s) c' -> caches c' w ->
  NoDup (g_windows (grid s')) -> (forall r, interactive_resize s = Some r -> resize_window r ∈ g_windows (grid s')) ->
  space_mid s' /\ env s' = env s /\ grid s' = alter_col i (fun _ => gcol c') (grid s).
Proof.
  intros [[] Ha] Hi Hc Hw Hnd Hr. split_and!; [|done|].
  - split; [constructor; try done; cbn|].
    + by apply Forall_insert.
    + by apply Forall2_insert.
    + by rewrite length_insert.
    + unfold active_ok. cbn. rewrite length_insert. destruct Ha as [?|[H _]]; [by left|]. by rewrite H in Hi.
  - unfold grid, alter_col, with_cols. cbn. by rewrite list_fmap_insert, insert_alter.
Qed.

Lemma space_replace_ok s i c c' w (s' := set_data (<[i := w]> (data s)) (set_columns (<[i := c']> (columns s)) s)) :
  space_ok s -> columns s !! i = Some c -> col_ok (env s) c' -> caches c' w ->
  NoDup (g_windows (grid s')) -> (forall r, interactive_resize s = Some r -> resize_window r ∈ g_windows (grid s')) ->
  to s (alter_col i (fun _ => gcol c') (grid s)) s'.
Proof.
  intros [Hm Hs] Hi [Hc Hsi] Hw Hnd Hr. destruct (replace_mid s i c c' w Hm Hi Hc Hw Hnd Hr) as (Hm' & He & Hg).
  split_and!; [|done|done]. split; [done|]. by apply Forall_insert.
Qed.

(** The windows are the same ones. *)
Lemma g_windows_replaced s i c c' w (s' := set_data (<[i := w]> (data s)) (set_columns (<[i := c']> (columns s)) s)) :
  columns s !! i = Some c -> ids c' = ids c -> g_windows (grid s') = g_windows (grid s).
Proof.
  intros Hi Hids. unfold g_windows, grid. cbn. rewrite <-!concat_fmap_bind, <-!list_fmap_compose. f_equal.
  rewrite list_fmap_insert. cbn. apply list_insert_id. rewrite list_lookup_fmap, Hi. cbn. by f_equal.
Qed.

Lemma replace_same_ids s i c c' w :
  space_ok s -> columns s !! i = Some c -> col_ok (env s) c' -> caches c' w -> ids c' = ids c ->
  to s (set_active_tile i (Column.active_tile_idx c') (grid s)) (set_data (<[i := w]> (data s)) (set_columns (<[i := c']> (columns s)) s)).
Proof.
  intros Hs Hi Hc Hw Hids. pose proof (g_windows_replaced s i c c' w Hi Hids) as HW.
  replace (set_active_tile i (Column.active_tile_idx c') (grid s)) with (alter_col i (fun _ => gcol c') (grid s)).
  - eapply space_replace_ok; [done..| |]; rewrite HW; apply (proj1 (proj1 Hs)).
  - unfold set_active_tile, alter_col. f_equal. apply list_eq. intros j. destruct (decide (j = i)) as [->|Hji].
    + rewrite !list_lookup_alter_eq, !grid_lookup, Hi. cbn. unfold gcol. by rewrite Hids.
    + by rewrite !list_lookup_alter_ne.
Qed.

Lemma set_data_same s : set_data (data s) s = s.
Proof. by destruct s. Qed.

Lemma set_columns_same s : set_columns (columns s) s = s.
Proof. by destruct s. Qed.

(** An operation on a column that keeps its windows and its width. *)
Lemma update_column_like_runs i f k s c :
  space_ok s -> columns s !! i = Some c ->
  runs (f c) (fun c' => col_ok (env s) c' /\ col_like c c' /\ Column.active_tile_idx c' = k) ->
  runs (update_column i f s) (fun s' => to s (set_active_tile i k (grid s)) s' /\ length (columns s') = length (columns s)).
Proof.
  intros Hs Hi Hf. unfold update_column. step index_ok; [done|]. runs Hf. intros c' _ (Hc & [Hids _ Hw] & <-). returns.
  destruct (data_lookup s i c (proj1 (proj1 Hs)) Hi) as (w & Hdw & Hcw). split; [|cbn; by rewrite length_insert].
  pose proof (replace_same_ids s i c c' w Hs Hi Hc (Hw w Hcw) Hids) as H. rewrite list_insert_id in H by done.
  change (data s) with (data (set_columns (<[i := c']> (columns s)) s)) in H. by rewrite set_data_same in H.
Qed.

Lemma set_active_tile_id i s c : columns s !! i = Some c -> set_active_tile i (Column.active_tile_idx c) (grid s) = grid s.
Proof.
  intros Hi. unfold set_active_tile, alter_col, with_cols. rewrite (alter_at_id _ _ (gcol c)); [done| |done].
  by rewrite grid_lookup, Hi.
Qed.

Lemma update_column_runs i f s c :
  space_ok s -> columns s !! i = Some c -> runs (f c) (fun c' => col_ok (env s) c' /\ col_same c c') ->
  runs (update_column i f s) (fun s' => to s (grid s) s' /\ length (columns s') = length (columns s)).
Proof.
  intros Hs Hi Hf. finish (update_column_like_runs i f (Column.active_tile_idx c) s c); [done..| |].
  - finish Hf. intros c' _ (? & ? & ?). done.
  - intros s' _. by rewrite (set_active_tile_id i s c Hi).
Qed.

(** ** Many columns at once *)
Definition cols_same s (cs : list Column.Column) : Prop := Forall2 (fun c c' => col_ok (env s) c' /\ col_same c c') (columns s) cs.

Lemma cols_same_to s cs : space_ok s -> cols_same s cs -> to s (grid s) (set_columns cs s).
Proof.
  intros Hs HF. assert (Hg : gcol <$> cs = gcol <$> columns s).
  { eapply fmap_Forall2; [|exact HF]. intros x y [_ [[Hids _ _] Ha]]. unfold gcol. by rewrite Hids, Ha. }
  assert (Hgr : grid (set_columns cs s) = grid s) by (unfold grid; cbn; by rewrite Hg).
  split_and!; [|done|done]. apply space_cols. destruct Hs as [[[] Ha] Hsi].
  assert (Hok : Forall (col_ok (env s)) cs) by (eapply Forall2_impl_r; [|exact HF]; by intros x y [? _]).
  split; [split; [constructor; try done|]|done].
  - cbn. eapply Forall_impl; [exact Hok|]. by intros c [? _].
  - cbn. clear -HF so_data. revert HF so_data. unfold cols_same. generalize (data s), (columns s). intros ds l HF. revert ds.
    induction HF as [|x y l k [_ [Hl _]] HF IH]; intros ds Hd; inversion Hd; subst; constructor; auto. by apply Hl.
  - cbn. by rewrite <-(Forall2_length _ _ _ HF).
  - by rewrite Hgr.
  - by rewrite Hgr.
  - unfold active_ok. cbn. rewrite <-(Forall2_length _ _ _ HF). destruct Ha as [?|[H ?]]; [by left|right]. split; [|done].
    unfold cols_same in HF. rewrite H in HF. by inversion HF.
Qed.

Lemma cols_same_refl s : space_ok s -> cols_same s (columns s).
Proof. intros [_ H]%space_cols. unfold cols_same. induction H; constructor; [by split|done]. Qed.

Lemma on_range_runs lo hi f s :
  space_ok s -> lo <= hi -> hi <= length (columns s) ->
  (forall c, col_ok (env s) c -> runs (f c) (fun c' => col_ok (env s) c' /\ col_same c c')) ->
  runs (on_range lo hi f (columns s)) (cols_same s).
Proof.
  intros Hs Hlo Hhi Hf. unfold on_range. rewrite (proj2 (Nat.leb_le _ _) Hlo), (proj2 (Nat.leb_le _ _) Hhi). cbn [andb].
  apply runs_iter_mut. intros i c Hi. pose proof (space_col s i c Hs Hi) as Hc. apply runs_if; intros _; [by apply Hf|by split].
Qed.

Lemma set_range_runs lo hi f s :
  space_ok s -> lo <= hi -> hi <= length (columns s) ->
  (forall c, col_ok (env s) c -> runs (f c) (fun c' => col_ok (env s) c' /\ col_same c c')) ->
  runs (cs ← on_range lo hi f (columns s); mret (set_columns cs s))
    (fun s' => to s (grid s) s' /\ length (columns s') = length (columns s) /\ exists cs, s' = set_columns cs s /\ cols_same s cs).
Proof.
  intros Hs Hlo Hhi Hf. runs on_range_runs; [done..|]. intros cs _ HF. returns. split_and!; [by apply cols_same_to| |by eexists].
  symmetry. by eapply Forall2_length.
Qed.

Lemma animate_columns_runs lo hi x config s :
  space_ok s -> lo <= hi -> hi <= length (columns s) -> config_total config ->
  runs (animate_columns cv lo hi x config s)
    (fun s' => to s (grid s) s' /\ length (columns s') = length (columns s) /\ exists cs, s' = set_columns cs s /\ cols_same s cs).
Proof.
  intros Hs Hlo Hhi Hc. unfold animate_columns. apply set_range_runs; [done..|]. intros c Hok. by apply animate_move_with_runs.
Qed.

(** ** Interactive resizes and cached widths *)
Definition cancelled c : Column.Column :=
  Column.set_tiles ((fun t => Tile.set_window (cancel_interactive_resize (Tile.window t)) t) <$> Column.tiles c) c.
Lemma cancelled_mid E c : env_ok E -> col_mid E c -> col_mid E (cancelled c) /\ col_same c (cancelled c).
Proof.
  intros HE Hm. unfold cancelled. set (f := fun t => _). pose proof (cm_base _ _ Hm) as Hb.
  assert (HF : Forall2 (fun t t' => tile_ok (e_options E) (e_view_size E) (e_scale E) t' /\ tile_same t t' /\ pending t' = pending t /\ (synced t -> synced t'))
    (Column.tiles c) (f <$> Column.tiles c)).
  { pose proof (cb_tiles _ _ Hb) as HF. clear -LEL HF. induction HF as [|t ts Ht HF IH]; [constructor|]. rewrite fmap_cons. constructor; [|done].
    by apply cancel_resize_kept. }
  assert (H2 : Forall2 tile_same (Column.tiles c) (f <$> Column.tiles c)) by (eapply Forall2_impl; [exact HF|]; by intros x y (_ & ? & _)).
  assert (Hb' : col_base E (Column.set_tiles (f <$> Column.tiles c) c)).
  { apply col_base_tiles; [done|..|done].
    - eapply Forall2_impl_r; [|exact HF]. by intros x y (? & _).
    - eapply Forall2_Forall_r; [|apply (cb_synced _ _ Hb)|exact HF]. by intros x y (_ & _ & _ & ?). }
  split; [constructor|split].
  - done.
  - cbn. rewrite length_fmap. apply Hm.
  - eapply Forall2_Forall_r; [|apply (cm_pending _ _ Hm)|exact HF]. intros x y (_ & _ & Hp & _) Hx. etransitivity; [exact Hp|exact Hx].
  - pose proof (col_like_tiles c _ (Column.data c) H2 eq_refl) as Hl. by destruct c.
  - done.
Qed.
Lemma cancelled_single c : single c -> single (cancelled c).
Proof. unfold single. cbn. by rewrite length_fmap. Qed.

Lemma cancel_resize_cols s i c :
  space_ok s -> columns s !! i = Some c -> cols_same s (<[i := cancelled c]> (columns s)).
Proof.
  intros Hs Hi. pose proof (space_col s i c Hs Hi) as [Hm Hsi]. unfold cols_same.
  rewrite <-(list_insert_id (columns s) i c) at 1 by done. apply Forall2_insert; [by apply cols_same_refl|].
  destruct (cancelled_mid (env s) c); [apply Hs|done|]. split; [|done]. split; [done|by apply cancelled_single].
Qed.

Lemma resize_kept s v : space_ok s -> v = None \/ v = interactive_resize s -> to s (grid s) (set_interactive_resize v s).
Proof.
  intros [[[] Ha] Hs] Hv. split_and!; [|done|done]. split; [split; [constructor; try done|done]|done]. intros r Hr. cbn in Hr. subst v. destruct Hv as [?|Hv]; [done|]. by apply so_resize.
Qed.

Lemma cancel_resize_runs i s :
  space_ok s -> i < length (columns s) ->
  runs (cancel_resize i s) (fun s' => to s (grid s) s' /\ length (columns s') = length (columns s)).
Proof.
  intros Hs Hi. unfold cancel_resize. runs runs_index; [done|]. intros c _ Hc. returns.
  pose proof (cols_same_to s _ Hs (cancel_resize_cols s i c Hs Hc)) as H1. split; [|cbn; by rewrite length_insert].
  eapply to_trans; [exact H1|]. pose proof H1 as (H1s & _ & Hg). rewrite <-Hg. apply resize_kept; [done|].
  cbn. destruct (interactive_resize s) as [r|]; [|by left]. destruct (Column.contains _ _); [by left|by right].
Qed.

Lemma update_data_runs i s :
  space_ok s -> i < length (columns s) ->
  runs (update_data i s) (fun s' => to s (grid s) s' /\ columns s' = columns s).
Proof.
  intros Hs Hi. unfold update_data. runs runs_index; [done|]. intros c _ Hc.
  destruct (data_lookup s i c (proj1 (proj1 Hs)) Hc) as (w0 & Hw0 & _). step index_ok; [done|].
  runs col_width_ok; [apply Hs|done|]. intros w _ [Hw _]. returns. split; [|done].
  pose proof (replace_same_ids s i c c w Hs Hc (space_col s i c Hs Hc) Hw eq_refl) as H.
  rewrite (set_active_tile_id i s c Hc) in H. rewrite (list_insert_id (columns s)) in H by done. by rewrite set_columns_same in H.
Qed.
End ops.
