(* ===== verification/ScrollingTiles.v ===== *)
(** * Operations of the scrolling layout: columns and tiles coming and going *)

From stdpp Require Import base numbers option list.
From Stdlib Require Import ZArith Lia SpecFloat.
From S2P Require Import Prelude.
From S2P Require Import Runs.
From S2P Require Import F64.
From S2P Require Import Duration.
From S2P Require Import Clock.
From S2P Require Import Gesture.
From S2P Require Import Animation.
From S2P Require Import AnimTotal.
From S2P Require Import LayoutTypes.
From S2P Require Import F64Sign.
From S2P Require Import Tile.
From S2P Require Import TileInv.
From S2P Require Import Column.
From S2P Require Import ColumnInv.
From S2P Require Import ColumnOps.
From S2P Require Import Scrolling.
From S2P Require Import ScrollingSpec.
From S2P Require Import ScrollingInv.
From S2P Require Import ScrollingOps.

Section ops.
Context {LE : LayoutElement} {LEL : LayoutElementLaws} {GE : Geometry} {GL : GeometryLaws} {LM : Libm} {KF : Keyframe}.
Implicit Types (t : Tile.Tile) (c : Column.Column) (s : ScrollingSpace.ScrollingSpace).
Import ScrollingSpace.
Context (cv : ClockView) (Hcv : cv_ok cv).

(** ** Windows of a grid *)
Lemma delete_alter_eq {A} (f : A -> A) i (l : list A) : delete i (alter f i l) = delete i l.
Proof. revert i. induction l as [|x l IH]; intros [|i]; cbn; [done..|]. f_equal. apply IH. Qed.

Lemma g_windows_insert i (col : GCol Id) (g : Grid Id) : g_windows (with_cols (insert_at i col (g_cols g)) g) ≡ₚ col.1 ++ g_windows g.
Proof. unfold g_windows. cbn. by rewrite insert_at_perm. Qed.
Lemma g_windows_delete i col (g : Grid Id) : g_cols g !! i = Some col -> g_windows g ≡ₚ col.1 ++ g_windows (with_cols (delete i (g_cols g)) g).
Proof. intros Hi. unfold g_windows. cbn. by rewrite (delete_perm i col (g_cols g) Hi) at 1. Qed.
Lemma g_windows_alter i (f : GCol Id -> GCol Id) col g :
  g_cols g !! i = Some col -> exists rest, g_windows g ≡ₚ col.1 ++ rest /\ g_windows (alter_col i f g) ≡ₚ (f col).1 ++ rest.
Proof.
  intros Hi. exists (g_windows (with_cols (delete i (g_cols g)) g)). split; [by apply g_windows_delete|].
  assert (H : g_cols (alter_col i f g) !! i = Some (f col)).
  { transitivity (f <$> g_cols g !! i); [apply list_lookup_alter_eq|by rewrite Hi]. }
  rewrite (g_windows_delete i (f col) _ H). f_equiv. unfold g_windows, alter_col, with_cols. cbn [g_cols].
  by rewrite delete_alter_eq.
Qed.

Definition tile_incoming t : Prop :=
  exists o vs sc, options_ok o /\ tile_ok o vs sc t /\ synced t.
Definition config_ok (config : option Config.Animation) : Prop := forall a, config = Some a -> config_total a.

Lemma config_default config d : config_ok config -> config_total d -> config_total (default d config).
Proof. intros Hc Hd. destruct config; cbn; [by apply Hc|done]. Qed.

(** ** Columns coming in *)
Lemma insert_column_to s i c w :
  space_ok s -> i <= length (columns s) -> col_ok (env s) c -> caches c w -> NoDup (ids c) ->
  (forall x, x ∈ ids c -> x ∈ g_windows (grid s) -> False) ->
  to s (with_cols (insert_at i (gcol c) (g_cols (grid s))) (grid s)) (set_columns (insert_at i c (columns s)) (set_data (insert_at i w (data s)) s)).
Proof.
  intros Hs Hi Hc Hw Hnd Hdis. pose proof (space_length_data s (proj1 (proj1 Hs))) as Hl. set (s' := set_columns _ _).
  assert (Hg : grid s' = with_cols (insert_at i (gcol c) (g_cols (grid s))) (grid s)).
  { unfold grid, with_cols. cbn. by rewrite insert_at_fmap. }
  pose proof (g_windows_insert i (gcol c) (grid s)) as HP. rewrite <-Hg in HP.
  split_and!; [|done|done]. apply space_cols in Hs as [[[] Ha] Hsi]. apply space_cols. split; [split|].
  - constructor; try done.
    + apply Forall_insert_at; [apply Hc|done].
    + cbn. unfold insert_at. apply Forall2_app; [by apply Forall2_take|]. constructor; [done|by apply Forall2_drop].
    + cbn. rewrite length_insert_at by done. lia.
    + rewrite HP. apply NoDup_app. split_and!; [done| |done]. intros x Hx Hx'. by eapply Hdis.
    + intros r Hr. rewrite HP. apply elem_of_app. right. by apply so_resize.
  - left. cbn. rewrite length_insert_at by done. destruct Ha as [?|[-> ->]]; cbn; lia.
  - by apply Forall_insert_at.
Qed.

Lemma set_prev_to s v : space_ok s -> to s (with_prev (bool_decide (is_Some v)) (grid s)) (set_activate_prev_column_on_removal v s).
Proof. intros [[[] Ha] Hs]. split_and!; [|done|done]. by split; [split; [constructor|]|]. Qed.
Lemma set_active_to s i : space_ok s -> i < length (columns s) -> to s (with_active i (grid s)) (set_active_column_idx i s).
Proof.
  intros [[[] Ha] Hs] Hi. split_and!; [|done|done]. split; [split; [constructor; try done|]|done]; [cbn; lia|by left].
Qed.

Lemma to_mid s g s' : to s g s' -> space_pre s'.
Proof. intros H. apply H. Qed.
Lemma to_ok s g s' : to s g s' -> space_ok s'.
Proof. intros H. apply H. Qed.
Lemma to_length s g s' : to s g s' -> length (columns s') = length (g_cols g).
Proof. intros (_ & _ & <-). by rewrite grid_length. Qed.

Lemma add_column_runs idx c E0 activate config s :
  space_ok s -> env_ok E0 -> col_ok E0 c -> NoDup (ids c) -> (forall x, x ∈ ids c -> x ∈ g_windows (grid s) -> False) ->
  (forall i, idx = Some i -> i <= length (columns s)) -> config_ok config ->
  runs (add_column cv idx c activate config s) (to s (g_add_column idx (gcol c) activate (grid s))).
Proof.
  intros Hs HE0 Hc Hnd Hdis Hidx Hconf. unfold add_column. cbv zeta.
  set (idx' := default (if is_empty s then 0 else active_column_idx s + 1) idx).
  assert (Hi : idx' <= length (columns s)).
  { unfold idx'. destruct idx as [i|]; cbn; [by apply Hidx|]. destruct (is_empty s) eqn:He; [lia|].
    pose proof (space_active_lt s (proj1 Hs) He). lia. }
  runs (update_config_runs E0 HE0 (env s)); [apply Hs|done|]. intros c1 _ (Hc1 & Hids & _ & Hact).
  assert (Hgc : gcol c1 = gcol c) by (unfold gcol; by rewrite Hids, Hact).
  runs col_width_runs; [apply Hs|apply Hc1|by eapply col_nonempty, Hc1|]. intros w _ [Hw _].
  step vec_insert_ok; [rewrite (space_length_data s) by apply Hs; done|]. step vec_insert_ok; [done|].
  pose proof (insert_column_to s idx' c1 w Hs Hi Hc1 Hw) as H1. rewrite Hids, Hgc in H1. specialize (H1 Hnd Hdis).
  set (s1 := set_columns _ _) in *.
  assert (Hl1 : length (columns s1) = S (length (columns s))) by (unfold s1; cbn; by apply length_insert_at).
  eapply runs_bind with (R := to s (g_add_column idx (gcol c) activate (grid s))).
  - unfold g_add_column. rewrite grid_empty. cbn [g_active grid]. fold idx'. apply runs_if; intros Ea; subst.
    + eapply runs_bind with (R := reviewed s1).
      { apply runs_if; intros _; [|apply reviewed_refl; by eapply to_mid].
        runs column_offset_runs; [apply set_view_pre; [by eapply to_mid|done]|change (idx' < length (columns s1)); lia|].
        intros o _ _. returns. by exists (ViewOffset.Static o). }
      intros s2 _ H2. pose proof (reviewed_to _ _ (to_ok _ _ _ H1) H2) as H12.
      assert (Hc2 : columns s2 = columns s1 /\ active_column_idx s2 = active_column_idx s) by (by destruct H2 as (v & -> & _)).
      destruct Hc2 as [Hc2 Ha2].
      runs activate_column_with_runs; [done|by eapply to_mid|apply (to_ok _ _ _ H12)|rewrite Hc2; lia
        |apply config_default; [done|eapply view_total, to_mid, H12]|].
      intros s3 _ (H3 & Hc3 & _ & Ha3). returns. rewrite Ha2.
      assert (Hsome : forall b x, bool_decide (is_Some (if b : bool then Some (x : f64) else None)) = b) by by intros [] x.
      eapply to_trans; [eapply to_trans; [exact H1|eapply to_trans; [exact H12|exact H3]]|].
      pose proof (set_prev_to s3 (if negb (is_empty s) && bool_decide (idx' = active_column_idx s + 1)
        then Some (ViewOffset.stationary (view_offset s2)) else None) (to_ok _ _ _ H3)) as H4. rewrite Hsome in H4.
      destruct H4 as (? & ? & Hg4). split_and!; [done|done|]. rewrite Hg4. destruct H3 as (_ & _ & ->). destruct H12 as (_ & _ & ->).
      destruct H1 as (_ & _ & ->). by rewrite with_prev_activate.
    + apply runs_if; intros Ei.
      * returns. eapply to_trans; [exact H1|]. destruct H1 as (Hs1 & He1 & Hg1).
        pose proof (set_active_to s1 (active_column_idx s1 + 1) Hs1) as H2.
        apply andb_true_iff in Ei as [He Hle]. apply negb_true_iff in He.
        pose proof (space_active_lt s (proj1 Hs) He). specialize (H2 ltac:(rewrite Hl1; change (active_column_idx s + 1 < S (length (columns s))); lia)). destruct H2 as (? & ? & Hg2). split_and!; [done|done|].
        rewrite Hg2, Hg1. rewrite He. change (active_column_idx s1) with (active_column_idx s) in *. by rewrite Hle.
      * returns. destruct H1 as (? & ? & Hg1). split_and!; [done|done|]. rewrite Hg1. cbn in Ei. by rewrite Ei.
  - intros s2 _ H2. assert (Hl2 : length (columns s2) = S (length (columns s))).
    { rewrite (to_length _ _ _ H2). unfold g_add_column. rewrite grid_empty. cbn [g_active grid]. fold idx'.
      destruct activate; cbn; rewrite length_insert_at, length_fmap; by rewrite ?length_fmap. }
    pose proof (space_length_data s2 (to_mid _ _ _ H2)) as Hd2.
    runs column_x_runs; [lia|]. intros x _ _. runs column_x_runs; [lia|]. intros y _ _.
    assert (Hct : config_total (default (window_movement (options s2)) config)) by (apply config_default; [done|eapply movement_total, to_mid, H2]).
    destruct H2 as (Hs2 & He2 & Hg2).
    assert (Hend : forall lo hi x, lo <= hi -> hi <= length (columns s2) ->
      runs (animate_columns cv lo hi x (default (window_movement (options s2)) config) s2) (to s (g_add_column idx (gcol c) activate (grid s)))).
    { intros lo hi z Hlo Hhi. finish animate_columns_runs; [done..|]. intros s3 _ ((? & ? & Hg3) & _ & _).
      split_and!; [done|congruence|congruence]. }
    apply runs_if; intros _; apply Hend; lia.
Qed.

Lemma add_tile_runs idx t activate w full config s :
  space_ok s -> tile_incoming t -> (Tile.id t ∉ g_windows (grid s)) ->
  (forall i, idx = Some i -> i <= length (columns s)) -> config_ok config ->
  runs (add_tile cv idx t activate w full config s) (to s (g_add idx (Tile.id t) activate (grid s))).
Proof.
  intros Hs (o & vs & sc & Ho & Ht & Hsy) Hx Hi Hc. unfold add_tile.
  set (E0 := Build_Env o (view_size s) (working_area s) (parent_area s) (scale s)).
  assert (HE0 : env_ok E0) by (split; [done|apply (so_env _ (proj1 (proj1 Hs)))]).
  runs (new_with_tile_runs E0 HE0 cv Hcv vs sc t w full); [done..|]. intros c _ (Hok & Hids & Ha).
  assert (Hg : gcol c = ([Tile.id t], 0)) by (unfold gcol; by rewrite Hids, Ha).
  unfold g_add. rewrite <-Hg. eapply add_column_runs; [done|exact HE0|done| | |done|done].
  - rewrite Hids. apply NoDup_singleton.
  - rewrite Hids. by intros x ->%list_elem_of_singleton.
Qed.

(** ** A tile joins a column *)
Lemma to_cols s g s' i : to s g s' -> gcol <$> columns s' !! i = g_cols g !! i.
Proof. intros (_ & _ & <-). by rewrite grid_lookup. Qed.

Lemma set_active_runs i f k s c :
  space_ok s -> columns s !! i = Some c ->
  runs (f c) (fun c' => col_ok (env s) c' /\ col_like c c' /\ Column.active_tile_idx c' = k) ->
  runs (update_column i f s) (to s (set_active_tile i k (grid s))).
Proof. intros Hs Hi Hf. finish update_column_like_runs; [done..|]. by intros s' _ [? _]. Qed.

Lemma active_tile_ok E c j : col_ok E c -> j < length (Column.tiles c) -> col_ok E (Column.set_active_tile_idx j c) /\ col_like c (Column.set_active_tile_idx j c).
Proof.
  intros [[Hb Ha Hp] Hs] Hj. split; [split; [constructor|]; try done|by apply col_like_intro].
  eapply col_base_set; [exact Hb|eapply in_env_set; [apply Hb|done..]|done|done|apply Hb|apply Hb|apply Hb|apply Hb].
Qed.

Lemma set_active_twice i a b (g : Grid Id) : set_active_tile i a (set_active_tile i b g) = set_active_tile i a g.
Proof.
  unfold set_active_tile, alter_col, with_cols. cbn [g_cols g_active g_prev]. f_equal. by rewrite list_alter_alter_eq.
Qed.

(** The tile put in place, before any focus changes. *)
Lemma insert_tile_runs i j t s c :
  space_ok s -> columns s !! i = Some c -> j <= length (Column.tiles c) -> tile_incoming t -> (Tile.id t ∉ g_windows (grid s)) ->
  runs (s1 ← update_column i (Column.add_tile_at cv j t) s; update_data i s1)
    (to s (alter_col i (fun col => (insert_at j (Tile.id t) col.1, col.2)) (grid s))).
Proof.
  intros Hs Hi Hj (o & vs & sc & Ho & Ht & Hsy) Hx. pose proof (space_col s i c Hs Hi) as Hc. pose proof (proj1 Hc) as [Hb Ha Hp].
  unfold update_column. rewrite (index_ok i c) by done. cbn [mbind res_bind].
  pose proof (add_tile_at_runs (env s) (so_env _ (proj1 (proj1 Hs))) cv Hcv o vs sc j t c Hb ltac:(lia)
    ltac:(intros H; by destruct (col_nonempty _ _ (proj1 Hc))) Hj Ht Hsy) as Hr.
  apply runs_ok in Hr as (c' & -> & Hc' & Hids & Hact & _). cbn [mbind res_bind]. unfold mret, res_ret. cbn [mbind res_bind].
  unfold update_data. cbn [columns set_columns data].
  rewrite (index_ok i c') by (apply list_lookup_insert_eq; by eapply lookup_lt_Some). cbn [mbind res_bind].
  destruct (data_lookup s i c (proj1 (proj1 Hs)) Hi) as (w0 & Hw0 & _). rewrite (index_ok i w0) by done. cbn [mbind res_bind].
  runs col_width_runs; [apply Hs|apply Hc'|by eapply col_nonempty, Hc'|]. intros w _ [Hw _]. returns.
  set (f := fun col : GCol Id => _).
  assert (Hgi : g_cols (grid s) !! i = Some (gcol c)) by (by rewrite grid_lookup, Hi).
  assert (Hg : alter_col i (fun _ => gcol c') (grid s) = alter_col i f (grid s)).
  { unfold alter_col. f_equal. apply list_alter_ext; [|done]. intros x Hxi. rewrite Hgi in Hxi. injection Hxi as <-.
    unfold f, gcol. by rewrite Hids, Hact. }
  assert (HP : g_windows (alter_col i (fun _ => gcol c') (grid s)) ≡ₚ Tile.id t :: g_windows (grid s)).
  { destruct (g_windows_alter i f (gcol c) (grid s) Hgi) as (rest & HP1 & HP2). rewrite Hg, HP2, HP1. unfold f. cbn. by rewrite insert_at_perm. }
  rewrite <-Hg.
  assert (Hg' : grid (set_data (<[i := w]> (data s)) (set_columns (<[i := c']> (columns s)) s)) = alter_col i (fun _ => gcol c') (grid s)).
  { unfold grid, alter_col, with_cols. cbn. by rewrite list_fmap_insert, insert_alter. }
  eapply space_replace_ok; [done|exact Hi|done|done| |].
  - rewrite Hg', HP. constructor; [done|apply (proj1 (proj1 Hs))].
  - intros r Hr. rewrite Hg', HP. right. by apply (so_resize _ (proj1 (proj1 Hs))).
Qed.

Lemma alter_col_ext i f f' (g : Grid Id) col : g_cols g !! i = Some col -> f col = f' col -> alter_col i f g = alter_col i f' g.
Proof.
  intros Hi Hf. unfold alter_col. f_equal. apply list_alter_ext; [|done]. intros x Hx. rewrite Hi in Hx. by injection Hx as <-.
Qed.
Lemma set_active_alter i k f (g : Grid Id) : set_active_tile i k (alter_col i f g) = alter_col i (fun col => ((f col).1, k)) g.
Proof. unfold set_active_tile, alter_col, with_cols. cbn [g_cols g_active g_prev]. f_equal. by rewrite list_alter_alter_eq. Qed.
Lemma alter_lookup i f (g : Grid Id) : g_cols (alter_col i f g) !! i = f <$> g_cols g !! i.
Proof. unfold alter_col, with_cols. cbn [g_cols]. apply list_lookup_alter_eq. Qed.
Lemma alter_length i f (g : Grid Id) : length (g_cols (alter_col i f g)) = length (g_cols g).
Proof. unfold alter_col, with_cols. cbn [g_cols]. apply length_alter. Qed.

Lemma to_col s g s' i col : to s g s' -> g_cols g !! i = Some col -> exists c, columns s' !! i = Some c /\ gcol c = col.
Proof.
  intros H Hi. pose proof (to_cols _ _ _ i H) as Hc. rewrite Hi in Hc. destruct (columns s' !! i) as [c|]; [|done].
  injection Hc as Hc. by exists c.
Qed.

(** The focus after a tile joined. *)
Lemma focus_new_runs i j shifted activate s c :
  space_ok s -> columns s !! i = Some c -> j < length (Column.tiles c) ->
  (shifted = true -> Column.active_tile_idx c + 1 < length (Column.tiles c)) ->
  let a := if shifted : bool then Column.active_tile_idx c + 1 else Column.active_tile_idx c in
  runs (s ← update_column i (fun c => mret (if shifted : bool then Column.set_active_tile_idx (Column.active_tile_idx c + 1) c else c)) s;
        if activate : bool then
          s ← update_column i (fun c => '(_, c) ← Column.activate_idx j c; mret c) s;
          if bool_decide (active_column_idx s = i) then mret s else activate_column cv i s
        else mret s)
    (to s (let g := set_active_tile i (if activate then j else a) (grid s) in if activate then g_activate i g else g)).
Proof.
  intros Hs Hi Hj Hsh a. pose proof (space_col s i c Hs Hi) as Hc.
  runs (set_active_runs i _ a s c Hs Hi).
  { returns. destruct shifted; [|done]. destruct (active_tile_ok (env s) c (Column.active_tile_idx c + 1) Hc (Hsh eq_refl)). by split_and!. }
  intros s1 _ H1. destruct activate; [|done].
  assert (Hgi : g_cols (grid s) !! i = Some (gcol c)) by (by rewrite grid_lookup, Hi).
  destruct (to_col s _ s1 i (ids c, a) H1) as (c1 & Hi1 & Hgc1); [unfold set_active_tile; by rewrite alter_lookup, Hgi|].
  pose proof (to_ok _ _ _ H1) as Hs1. pose proof (space_col s1 i c1 Hs1 Hi1) as Hc1.
  assert (Hl1 : length (Column.tiles c1) = length (Column.tiles c)).
  { rewrite <-!length_ids. injection Hgc1 as Hids _. by rewrite Hids. }
  runs (set_active_runs i _ j s1 c1 Hs1 Hi1).
  { runs (activate_idx_runs (env s1)); [done|lia|]. intros [b c'] _ (_ & ? & ? & ?). by returns. }
  intros s2 _ H2. pose proof H1 as (_ & He1 & Hg1). rewrite Hg1, set_active_twice in H2.
  assert (H12 : to s (set_active_tile i j (grid s)) s2) by by eapply to_trans.
  pose proof H12 as (Hs2 & He2 & Hg2). apply runs_if; intros Ei.
  - apply bool_decide_eq_true_1 in Ei. returns. unfold g_activate. rewrite bool_decide_eq_true_2; [done|]. by rewrite <-Hg2.
  - finish activate_column_runs; [done|done| |].
    + rewrite (to_length _ _ _ H12). unfold set_active_tile. rewrite alter_length, grid_length. by eapply lookup_lt_Some.
    + intros s3 _ ((? & ? & Hg3) & _ & _). split_and!; [done|congruence|]. by rewrite Hg3, Hg2.
Qed.

Lemma add_tile_to_column_runs i jo t activate s c :
  space_ok s -> columns s !! i = Some c -> (forall j, jo = Some j -> j <= length (Column.tiles c)) ->
  tile_incoming t -> (Tile.id t ∉ g_windows (grid s)) ->
  runs (add_tile_to_column cv i jo t activate s) (to s (g_add_to i jo (Tile.id t) activate (grid s))).
Proof.
  intros Hs Hi Hj Ht Hx. unfold add_tile_to_column. pose proof (space_length_data s (proj1 (proj1 Hs))) as Hld.
  pose proof (lookup_lt_Some _ _ _ Hi) as Hlt. pose proof (space_col s i c Hs Hi) as Hc.
  runs column_x_runs; [lia|]. intros x _ _. step index_ok; [done|]. set (j := default (length (Column.tiles c)) jo).
  assert (Hj' : j <= length (Column.tiles c)) by (unfold j; destruct jo; cbn; [by apply Hj|lia]).
  eapply runs_bind2; [by apply (insert_tile_runs i j t s c)|]. intros s1 H1.
  assert (Hgi : g_cols (grid s) !! i = Some (gcol c)) by (by rewrite grid_lookup, Hi).
  destruct (to_col s _ s1 i (insert_at j (Tile.id t) (ids c), Column.active_tile_idx c) H1) as (c1 & Hi1 & Hgc1);
    [by rewrite alter_lookup, Hgi|].
  injection Hgc1 as Hids1 Ha1. pose proof (to_ok _ _ _ H1) as Hs1. pose proof (cm_active _ _ (proj1 Hc)) as Hact.
  assert (Hl1 : length (Column.tiles c1) = S (length (Column.tiles c))).
  { rewrite <-length_ids, Hids1, length_insert_at by (by rewrite length_ids). by rewrite length_ids. }
  eapply runs_bind2.
  { apply (focus_new_runs i j (j <=? Column.active_tile_idx c) activate s1 c1); [done|done|lia|lia]. }
  intros s2 H2. set (g2 := g_add_to i jo (Tile.id t) activate (grid s)).
  assert (Hto2 : to s g2 s2).
  { eapply to_trans; [exact H1|]. destruct H1 as (_ & He1 & Hg1). destruct H2 as (? & ? & Hg2). split_and!; [done|done|].
    rewrite Hg2, Hg1, Ha1, set_active_alter. unfold g2, g_add_to. rewrite Hgi. cbn [fst gcol]. rewrite length_ids. fold j.
    erewrite (alter_col_ext i _ (col_insert j (Tile.id t) activate)); [done|exact Hgi|]. unfold col_insert. by destruct activate. }
  destruct (to_col s g2 s2 i (col_insert j (Tile.id t) activate (gcol c)) Hto2) as (c2 & Hi2 & Hgc2).
  { unfold g2, g_add_to. rewrite Hgi. cbn [fst gcol]. rewrite length_ids. fold j.
    destruct activate; [unfold g_activate; destruct (bool_decide _); cbn [g_cols]|]; by rewrite alter_lookup, Hgi. }
  injection Hgc2 as Hids2 Ha2. destruct Hto2 as (Hs2 & He2 & Hg2).
  assert (Hl2 : length (Column.tiles c2) = S (length (Column.tiles c))).
  { rewrite <-length_ids, Hids2, length_insert_at by (by rewrite length_ids). by rewrite length_ids. }
  runs (update_column_runs i _ s2 c2 Hs2 Hi2).
  { pose proof (space_col s2 i c2 Hs2 Hi2) as Hc2. apply runs_if; intros _; [|by returns].
    finish (update_tile_runs (env s2)); [apply Hc2| | |].
    - rewrite Hl2. destruct (bool_decide _); [|lia]. destruct (j <=? _); lia.
    - intros t' Ht'. apply animate_alpha_runs; [done|done|]. apply movement_total, Hs2.
    - intros c3 _ Hk. by apply (kept_ok (env s2)). }
  intros s3 _ [(Hs3 & He3 & Hg3) Hl3].
  assert (Hlen3 : length (columns s3) = length (columns s)).
  { rewrite Hl3. rewrite <-(grid_length s2), Hg2. unfold g2, g_add_to.
    destruct activate; [unfold g_activate; destruct (bool_decide _); cbn [g_cols]|]; by rewrite alter_length, grid_length. }
  runs column_x_runs; [rewrite (space_length_data s3) by apply Hs3; lia|]. intros y _ _.
  assert (Hend : forall lo hi z, lo <= hi -> hi <= length (columns s3) ->
    runs (cs ← on_range lo hi (Column.animate_move_from cv z) (columns s3); mret (set_columns cs s3)) (to s g2)).
  { intros lo hi z Hlo Hhi. finish set_range_runs; [done..| |].
    - intros c' Hc'. by apply animate_move_runs; [apply Hs3|..].
    - intros s4 _ ((? & ? & Hg4) & _ & _). split_and!; [done|congruence|congruence]. }
  destruct (active_column_idx s3 <=? i); apply Hend; lia.
Qed.
End ops.
