(* ===== verification/ScrollingRemove.v ===== *)
(** * Operations of the scrolling layout: columns and tiles leaving *)

From stdpp Require Import base numbers option list.
From Stdlib Require Import ZArith Lia SpecFloat.
From S2P Require Import Prelude.
From S2P Require Import Runs.
From S2P Require Import F64.
From S2P Require Import Duration.
From S2P Require Import Clock.
From S2P Require Import Gesture.
From S2P Require Import Animation.
From S2P Require Import AnimTotal.
From S2P Require Import LayoutTypes.
From S2P Require Import F64Sign.
From S2P Require Import Tile.
From S2P Require Import TileInv.
From S2P Require Import Column.
From S2P Require Import ColumnInv.
From S2P Require Import ColumnOps.
From S2P Require Import Scrolling.
From S2P Require Import ScrollingSpec.
From S2P Require Import ScrollingInv.
From S2P Require Import ScrollingOps.
From S2P Require Import ScrollingTiles.

Section ops.
Context {LE : LayoutElement} {LEL : LayoutElementLaws} {GE : Geometry} {GL : GeometryLaws} {LM : Libm} {KF : Keyframe}.
Implicit Types (t : Tile.Tile) (c : Column.Column) (s : ScrollingSpace.ScrollingSpace).
Import ScrollingSpace.
Context (cv : ClockView) (Hcv : cv_ok cv).

(** ** A column leaves *)
Lemma contains_ids x c : Column.contains x c = true <-> x ∈ ids c.
Proof.
  unfold Column.contains, ids. rewrite existsb_exists, list_elem_of_fmap. split.
  - intros (t & Ht%list_elem_of_In & Hx%bool_decide_eq_true_1). by exists t.
  - intros (t & -> & Ht). exists t. split; [by apply list_elem_of_In|]. by apply bool_decide_eq_true_2.
Qed.

Lemma incoming_tile E c i t : env_ok E -> col_mid E c -> Column.tiles c !! i = Some t -> tile_incoming t.
Proof.
  intros HE [Hb _ _] Hi. exists (e_options E), (e_view_size E), (e_scale E). split_and!; [apply HE|..].
  - exact (Forall_lookup_1 _ _ _ _ (cb_tiles _ _ Hb) Hi).
  - exact (Forall_lookup_1 _ _ _ _ (cb_synced _ _ Hb) Hi).
Qed.

Lemma set_resize_same s : set_interactive_resize (interactive_resize s) s = s.
Proof. by destruct s. Qed.

Definition dropped i s : Grid Id :=
  {| g_cols := delete i (g_cols (grid s)); g_active := active_column_idx s;
     g_prev := if bool_decide (i + 1 = active_column_idx s) then false else g_prev (grid s) |}.

(** The lists without column [i], an interactive resize of it ended, and the
    flags reset. *)
Lemma drop_column_pre s i c rz pv vr :
  space_ok s -> columns s !! i = Some c -> (rz = None \/ rz = interactive_resize s /\ forall r, rz = Some r -> (resize_window r ∉ ids c)) ->
  let s' := set_view_offset_to_restore vr (set_activate_prev_column_on_removal pv (set_interactive_resize rz
              (set_data (delete i (data s)) (set_columns (delete i (columns s)) s)))) in
  space_pre s' /\ Forall single (columns s') /\ env s' = env s.
Proof.
  intros [[[] Ha] Hsi] Hi Hrz s'. pose proof (lookup_lt_Some _ _ _ Hi) as Hlt.
  assert (HW : g_windows (grid s) ≡ₚ ids c ++ g_windows (grid s')).
  { change (g_windows (grid s')) with ((gcol <$> delete i (columns s)) ≫= fst). rewrite list_fmap_delete.
    apply (g_windows_delete i (gcol c) (grid s)). by rewrite grid_lookup, Hi. }
  assert (Hld : length (data s) = length (columns s)) by (symmetry; by eapply Forall2_length).
  split_and!; [|cbn; by apply Forall_delete|done]. constructor; try done; cbn.
  - by apply Forall_delete.
  - by apply Forall2_delete.
  - rewrite length_delete by (by eexists). destruct Ha as [?|[H _]]; [lia|rewrite H in Hlt; cbn in Hlt; lia].
  - rewrite HW in so_nodup. by apply NoDup_app in so_nodup as (_ & _ & ?).
  - intros r Hr. destruct Hrz as [->|[-> Hn]]; [done|]. specialize (so_resize r Hr). rewrite HW in so_resize.
    apply elem_of_app in so_resize as [H|H]; [|done]. by destruct (Hn r Hr).
Qed.

(** Which column is active once column [i] is gone. *)
Lemma after_drop_runs i config s s5 :
  space_pre s5 -> Forall single (columns s5) -> env s5 = env s -> grid s5 = dropped i s -> config_ok config ->
  0 < length (columns s5) -> i < length (columns s) -> length (columns s5) = length (columns s) - 1 -> active_column_idx s < length (columns s) ->
  runs (if (i <? active_column_idx s5)%nat then
           mret (set_activate_prev_column_on_removal None (set_active_column_idx (active_column_idx s5 - 1) s5))
         else
           match bool_decide (i = active_column_idx s5), activate_prev_column_on_removal s5 with
           | true, Some prev_offset =>
               if (0 <? i)%nat then
                 s ← activate_column_with_anim_config cv (active_column_idx s5 - 1) (default (horizontal_view_movement (options s5)) config) s5;
                 s ← animate_view_offset_with_config cv (active_column_idx s) prev_offset (default (horizontal_view_movement (options s5)) config) s;
                 animate_view_offset_to_column_with_config cv None (active_column_idx s) None (default (horizontal_view_movement (options s5)) config) s
               else mret s5
           | _, _ =>
               last ← usub (length (columns s5)) 1;
               activate_column_with_anim_config cv (active_column_idx s5 `min` last)%nat (default (horizontal_view_movement (options s5)) config) s5
           end) (to s (g_remove_column i (grid s))).
Proof.
  intros Hp Hsi He Hg Hconf Hl Hi Hl5 Ha. unfold g_remove_column. change (delete i (g_cols (grid s))) with (g_cols (dropped i s)).
  assert (Hne : g_cols (dropped i s) <> []).
  { rewrite <-Hg. intros H. apply (f_equal length) in H. rewrite grid_length in H. cbn in H. lia. }
  destruct (g_cols (dropped i s)) as [|c0 cs0] eqn:Ecs; [done|]. rewrite <-Ecs. clear Hne.
  assert (Ha5 : active_column_idx s5 = active_column_idx s) by exact (f_equal g_active Hg).
  assert (Hc5 : g_cols (grid s5) = g_cols (dropped i s)) by by rewrite Hg.
  assert (Hpv : bool_decide (is_Some (activate_prev_column_on_removal s5)) = g_prev (dropped i s)) by exact (f_equal g_prev Hg).
  assert (Hvt : config_total (default (horizontal_view_movement (options s5)) config)) by (apply config_default; [done|by apply view_total]).
  change (if bool_decide (i + 1 = g_active (grid s)) then false else g_prev (grid s)) with (g_prev (dropped i s)).
  change (g_active (grid s)) with (active_column_idx s). rewrite Ha5.
  assert (Hmk : {| g_cols := g_cols (dropped i s); g_active := active_column_idx s; g_prev := g_prev (dropped i s) |} = dropped i s) by done.
  assert (Hlg : length (g_cols (dropped i s)) = length (columns s5)) by (rewrite <-Hc5; apply grid_length).
  apply runs_if; intros Elt.
  { apply Nat.ltb_lt in Elt. rewrite (proj2 (Nat.ltb_lt _ _) Elt). returns. split_and!; [|done|by rewrite <-Hc5].
    split; [|done]. destruct Hp. split; [constructor; try done; cbn; lia|left; cbn; lia]. }
  apply Nat.ltb_ge in Elt. rewrite (proj2 (Nat.ltb_ge _ _) Elt).
  assert (Hto : forall g s', to s5 g s' -> to s g s') by (intros g s' (? & ? & ?); split_and!; [done|congruence|done]).
  assert (Hstep : runs (last ← usub (length (columns s5)) 1;
      activate_column_with_anim_config cv (active_column_idx s `min` last) (default (horizontal_view_movement (options s5)) config) s5)
      (to s (g_activate (active_column_idx s `min` (length (g_cols (dropped i s)) - 1)) (dropped i s)))).
  { step usub_ok; [lia|]. finish activate_column_with_runs; [done|done|done|lia|done|].
    intros s' _ (H & _). apply Hto. rewrite Hlg, <-Hg. done. }
  destruct (bool_decide (i = active_column_idx s)) eqn:Ei; [apply bool_decide_eq_true_1 in Ei|cbn [andb]; rewrite Hmk; exact Hstep].
  destruct (activate_prev_column_on_removal s5) as [pv|].
  2: { rewrite bool_decide_eq_false_2 in Hpv by (by intros []). rewrite <-Hpv at 1. cbn [andb]. rewrite Hmk. exact Hstep. }
  rewrite bool_decide_eq_true_2 in Hpv by (by eexists). rewrite <-Hpv at 1. cbn [andb]. apply runs_if; intros E0.
  - apply Nat.ltb_lt in E0. rewrite (proj2 (Nat.ltb_lt _ _) E0).
    runs activate_column_with_runs; [done|done|done|lia|done|]. intros s6 _ (H6 & Hc6 & _ & Ha6).
    pose proof (to_ok _ _ _ H6) as Hs6. assert (Hl6 : active_column_idx s6 < length (columns s6)) by (rewrite Hc6; lia).
    runs animate_view_with_runs; [done|apply Hs6|lia|done|]. intros s7 _ H7. pose proof (reviewed_to _ _ Hs6 H7) as Hr7.
    assert (Hl7 : active_column_idx s7 < length (columns s7)) by (by destruct H7 as (v & -> & _)).
    finish animate_to_column_with_runs; [done|apply (to_ok _ _ _ Hr7)|done|done|]. intros s8 _ H8.
    pose proof (reviewed_to _ _ (to_ok _ _ _ Hr7) H8) as Hr8. destruct H6 as (_ & He6 & Hg6), Hr7 as (_ & He7 & Hg7), Hr8 as (? & He8 & Hg8).
    split_and!; [done|congruence|]. rewrite Hg8, Hg7, Hg6. unfold g_activate. rewrite bool_decide_eq_false_2; [by rewrite Hg|].
    change (g_active (grid s5)) with (active_column_idx s5). lia.
  - apply Nat.ltb_ge in E0. rewrite (proj2 (Nat.ltb_ge _ _) E0). returns. rewrite Hmk, <-Hg. apply Hto, to_refl.
    split; [|done]. split; [done|]. left. lia.
Qed.

Lemma remove_column_runs i c config s :
  space_ok s -> columns s !! i = Some c -> config_ok config ->
  runs (remove_column_by_idx cv i config s) (fun '(c', s') =>
    col_ok (env s) c' /\ gcol c' = gcol c /\ to s (g_remove_column i (grid s)) s').
Proof.
  intros Hs Hi Hconf. unfold remove_column_by_idx. pose proof (lookup_lt_Some _ _ _ Hi) as Hlt.
  pose proof (space_length_data s (proj1 (proj1 Hs))) as Hld.
  runs column_x_runs; [lia|]. intros x _ _. runs column_x_runs; [lia|]. intros y _ _.
  assert (Hmt : config_total (default (window_movement (options s)) config)) by (apply config_default; [done|apply movement_total, Hs]).
  eapply runs_bind with (R := fun s' => exists cs, s' = set_columns cs s /\ cols_same s cs).
  { apply runs_if; intros _; (finish animate_columns_runs; [done|done|lia|lia|done|]; by intros s' _ (_ & _ & ?)). }
  intros s1 _ (cs & -> & HF). destruct (Forall2_lookup_l _ _ _ _ _ HF Hi) as (c1 & Hi1 & Hc1 & [[Hids _ _] Hact]).
  pose proof (cols_same_to s cs Hs HF) as (Hs1 & He1 & Hg1). set (s1 := set_columns cs s) in *.
  assert (Hgc : gcol c1 = gcol c) by (unfold gcol; by rewrite Hids, Hact).
  step (vec_remove_ok i c1); [done|]. cbv iota beta.
  destruct (lookup_lt_is_Some_2 (data s1) i) as [d Hd]; [cbn; lia|]. step (vec_remove_ok i d); [done|]. cbv iota beta.
  set (s2 := set_data _ _).
  set (s3 := match interactive_resize s2 with Some r => _ | None => s2 end).
  assert (H3 : exists rz, s3 = set_interactive_resize rz s2 /\ (rz = None \/ rz = interactive_resize s1 /\ forall r, rz = Some r -> (resize_window r ∉ ids c1))).
  { unfold s3. change (interactive_resize s2) with (interactive_resize s1).
    destruct (interactive_resize s1) as [r|] eqn:Er.
    - destruct (Column.contains _ c1) eqn:Ec; [exists None; split; [done|by left]|]. exists (Some r). split; [rewrite <-Er; symmetry; apply (set_resize_same s2)|right].
      split; [done|]. intros ? [= <-] Hin. apply contains_ids in Hin. congruence.
    - exists None. split; [rewrite <-Er; symmetry; apply (set_resize_same s2)|by left]. }
  clearbody s3. destruct H3 as (rz & -> & Hrz).
  set (pv := if bool_decide (i + 1 = active_column_idx s) then None else activate_prev_column_on_removal s).
  set (vr := if bool_decide (i = active_column_idx s) then None else view_offset_to_restore s).
  destruct (drop_column_pre s1 i c1 rz pv vr Hs1 Hi1 Hrz) as (Hp5 & Hsi5 & He5).
  set (s5 := set_view_offset_to_restore vr _) in *.
  match goal with |- runs (if is_empty ?x then _ else _) _ => replace x with s5 end.
  2: { unfold s5, pv, vr, s2. cbn. destruct (bool_decide (i + 1 = _)), (bool_decide (i = _)); by destruct s. }
  assert (Hg5 : grid s5 = dropped i s).
  { unfold dropped. rewrite <-Hg1. unfold grid at 1. cbn. rewrite list_fmap_delete. f_equal. unfold pv. by destruct (bool_decide (i + 1 = _)). }
  assert (Hl5 : length (columns s5) = length (columns s) - 1).
  { unfold s5, s2. cbn. rewrite length_delete by (by eexists). by rewrite <-(Forall2_length _ _ _ HF). }
  assert (Hcs : g_cols (dropped i s) = [] <-> is_empty s5 = true).
  { rewrite <-Hg5. unfold is_empty, grid. cbn [g_cols]. by destruct (columns s5). }
  destruct (is_empty s5) eqn:Ee.
  - returns. split_and!; [done|done|]. unfold g_remove_column. change (delete i (g_cols (grid s))) with (g_cols (dropped i s)).
    rewrite (proj2 Hcs eq_refl). split_and!; [|congruence|].
    + split; [|done]. split; [done|]. right. unfold is_empty in Ee. destruct (columns s5) eqn:Ec; [|done]. split; [done|].
      destruct (proj2 (proj1 Hs)) as [H|[_ H]]; [|done]. cbn in Hl5. change (active_column_idx s5) with (active_column_idx s). lia.
    + rewrite Hg5. unfold dropped. f_equal. by apply Hcs.
  - assert (Hl : 0 < length (columns s5)) by (unfold is_empty in Ee; destruct (columns s5); [done|cbn; lia]).
    assert (Has : active_column_idx s < length (columns s)).
    { destruct (proj2 (proj1 Hs)) as [?|[H _]]; [done|]. rewrite H in Hlt. cbn in Hlt. lia. }
    eapply runs_bind; [apply (after_drop_runs i config s s5); try done; try congruence; lia|]. intros s6 _ H6. by returns.
Qed.

(** ** A tile leaves a column that has others *)
Lemma heights_ok_delete o i (ds : list TileData) : heights_ok o ds -> heights_ok o (delete i ds).
Proof.
  intros [Hp Ho]. split.
  - intros d k (j & Hj)%list_elem_of_lookup Hk. eapply Hp; [|exact Hk]. destruct (decide (j < i)).
    + rewrite lookup_delete_at_lt in Hj by done. by eapply list_elem_of_lookup_2.
    + rewrite lookup_delete_at_ge in Hj by lia. by eapply list_elem_of_lookup_2.
  - assert (H : forall j d, delete i ds !! j = Some d -> ds !! (if (j <? i)%nat then j else S j) = Some d).
    { intros j d Hj. destruct (Nat.ltb_spec j i); [by rewrite lookup_delete_at_lt in Hj by done|by rewrite lookup_delete_at_ge in Hj by lia]. }
    intros j k d e Hj Hk Hd He. pose proof (Ho _ _ _ _ (H _ _ Hj) (H _ _ Hk) Hd He) as Heq.
    destruct (Nat.ltb_spec j i), (Nat.ltb_spec k i); lia.
Qed.

Lemma reset_lone_weight_ok o ds : heights_ok o ds -> td_size <$> reset_lone_weight ds = td_size <$> ds /\ heights_ok o (reset_lone_weight ds).
Proof.
  intros Hh. destruct ds as [|d [|e ds]]; [done| |done]. cbn. destruct (td_height d); [|done..]. split; [done|].
  apply heights_ok_auto. by constructor.
Qed.

Definition col_after_delete (j len a : nat) : nat := if (j <? a)%nat then a - 1 else if bool_decide (j = a) && bool_decide (j = len) then j - 1 else a.

Lemma column_without_runs E j c :
  env_ok E -> col_base E c -> Column.tiles c <> [] -> j <= length (Column.tiles c) -> Column.active_tile_idx c <= length (Column.tiles c) ->
  (Column.active_tile_idx c = length (Column.tiles c) -> j = length (Column.tiles c) \/ j < Column.active_tile_idx c) ->
  let a := col_after_delete j (length (Column.tiles c)) (Column.active_tile_idx c) in
  runs (column_without j c) (fun c' => exists ts, c' = Column.set_active_tile_idx a (Column.set_tiles ts c)
    /\ Forall2 (kept (e_options E) (e_view_size E) (e_scale E)) (Column.tiles c) ts /\ a < length (Column.tiles c)).
Proof.
  intros HE Hb Hne Hj Ha Hlast a. assert (Hl : length (Column.tiles c) <> 0) by by destruct (Column.tiles c).
  pose proof (kept_list_refl E _ (cb_tiles _ _ Hb)) as HR.
  assert (Hself : forall k, k < length (Column.tiles c) -> exists ts, Column.set_active_tile_idx k c = Column.set_active_tile_idx k (Column.set_tiles ts c)
    /\ Forall2 (kept (e_options E) (e_view_size E) (e_scale E)) (Column.tiles c) ts /\ k < length (Column.tiles c)).
  { intros k Hk. exists (Column.tiles c). split_and!; [by destruct c|done|done]. }
  assert (Hid : Column.set_active_tile_idx (Column.active_tile_idx c) c = c) by by destruct c.
  unfold column_without, a, col_after_delete. eapply runs_bind; [|intros c' _ H; exact H].
  apply runs_if; intros E1; rewrite E1.
  { apply Nat.ltb_lt in E1. returns. apply Hself. lia. }
  apply Nat.ltb_ge in E1. apply runs_if; intros E2; rewrite E2; cbn [andb].
  2: { apply bool_decide_eq_false_1 in E2. returns. specialize (Hself (Column.active_tile_idx c) ltac:(lia)). by rewrite Hid in Hself. }
  apply bool_decide_eq_true_1 in E2. apply runs_if; intros E3; rewrite E3.
  - apply bool_decide_eq_true_1 in E3. step usub_ok; [lia|]. unfold Column.activate_idx.
    rewrite bool_decide_eq_false_2 by lia. destruct (lookup_lt_is_Some_2 (Column.tiles c) (j - 1)) as [t Ht]; [lia|].
    rewrite (index_ok _ t) by done. cbn [mbind res_bind]. returns. eexists. split_and!; [done| |lia].
    rewrite <-(list_insert_id (Column.tiles c) (j - 1) t) at 1 by done. apply Forall2_insert; [done|].
    apply ensure_alpha_kept. exact (Forall_lookup_1 _ _ _ _ (cb_tiles _ _ Hb) Ht).
  - apply bool_decide_eq_false_1 in E3. finish (update_tile_runs E); [done|lia| |].
    + intros t Ht. returns. by apply ensure_alpha_kept.
    + intros c' _ (ts & -> & HF). exists ts. split_and!; [by destruct c|done|lia].
Qed.

Lemma animate_range_tiles E lo hi f c :
  env_ok E -> col_base E c -> lo <= hi -> hi <= length (Column.tiles c) ->
  runs (on_range lo hi (Tile.animate_move_y_from cv f) (Column.tiles c))
    (fun ts => tiles_kept E c (Column.set_tiles ts c)).
Proof.
  intros HE Hb Hlo Hhi. unfold on_range. rewrite (proj2 (Nat.leb_le _ _) Hlo), (proj2 (Nat.leb_le _ _) Hhi). cbn [andb].
  finish (runs_iter_mut _ (kept (e_options E) (e_view_size E) (e_scale E))).
  - intros i t Ht. apply (Forall_lookup_1 _ _ _ _ (cb_tiles _ _ Hb)) in Ht. apply runs_if; intros _; [|by apply kept_refl].
    by apply animate_move_y_runs; [apply HE|..].
  - intros ts _ HF. by exists ts.
Qed.

Lemma set_restore_to s v : space_ok s -> to s (grid s) (set_view_offset_to_restore v s).
Proof. intros [[[] Ha] Hs]. split_and!; [|done|done]. by split; [split; [constructor|]|]. Qed.

(** Column [c] without tile [j], sizes requested again. *)
Lemma shrink_column_runs E j tr c :
  env_ok E -> col_ok E c -> 1 < length (Column.tiles c) -> j < length (Column.tiles c) ->
  let c1 := Column.set_data (reset_lone_weight (delete j (Column.data c))) (Column.set_data (delete j (Column.data c))
              (Column.set_tiles (delete j (Column.tiles c)) c)) in
  runs (c' ← column_without j c1; Column.update_tile_sizes_with_transaction true tr c')
    (fun c' => col_ok E c' /\ gcol c' = col_delete j (gcol c)).
Proof.
  intros HE [[Hb Ha Hp] Hs] Hlen Hj c1. pose proof (ColumnInv.length_data E c Hb) as Hld.
  destruct (reset_lone_weight_ok (e_options E) (delete j (Column.data c))) as [Hrs Hrh]; [apply heights_ok_delete, Hb|].
  assert (Hlt : length (Column.tiles c1) = length (Column.tiles c) - 1).
  { cbn. rewrite length_delete; [done|]. by apply lookup_lt_is_Some_2. }
  assert (Hb1 : col_base E c1).
  { destruct Hb. constructor; try done.
    - by eapply in_env_set.
    - by apply Forall_delete.
    - by apply Forall_delete.
    - change (td_size <$> reset_lone_weight (delete j (Column.data c)) = Tile.tile_size <$> delete j (Column.tiles c)).
      rewrite Hrs, !list_fmap_delete. by rewrite cb_data. }
  runs (column_without_runs E j c1); [done|done| |lia|change (Column.active_tile_idx c <= length (Column.tiles c1)); lia| |].
  { intros H. rewrite H in Hlt. cbn in Hlt. lia. }
  { change (Column.active_tile_idx c1) with (Column.active_tile_idx c). lia. }
  intros c2 _ (ts & -> & HF & Hact). set (a := col_after_delete _ _ _) in *.
  assert (Hk : tiles_kept E c1 (Column.set_tiles ts c1)) by by exists ts.
  pose proof (kept_base E _ _ Hk Hb1) as Hb2. set (c2 := Column.set_active_tile_idx a (Column.set_tiles ts c1)).
  assert (Hl2 : length (Column.tiles c2) = length (Column.tiles c1)) by (symmetry; by eapply Forall2_length).
  assert (Hb2' : col_base E c2).
  { eapply col_base_set; [exact Hb2|eapply in_env_set; [apply Hb2|done..]|done|done|apply Hb2|apply Hb2|apply Hb2|apply Hb2]. }
  finish (sizes_ok_runs E); [done|rewrite Hl2; exact Hact| |].
  { intros Hn. right. destruct (Hs Hn) as [H|H]; [lia|done]. }
  intros c3 _ [H3 [[Hids3 _ _] Ha3]]. split; [done|]. unfold gcol. rewrite Hids3, Ha3. unfold col_delete. f_equal.
  - change (ids c2) with (ids (Column.set_tiles ts c1)). destruct (kept_like E _ _ Hk) as [[-> _ _] _]. unfold ids, c1. cbn. apply list_fmap_delete.
  - change (Column.active_tile_idx c2) with a. unfold a, col_after_delete. change (Column.active_tile_idx c1) with (Column.active_tile_idx c).
    cbn [fst snd gcol]. rewrite length_ids, Hlt. destruct (j <? _); [done|]. rewrite (bool_decide_ext (j = length (Column.tiles c) - 1) (S j = length (Column.tiles c))) by lia. done.
Qed.

Lemma g_windows_shrink i j col x (g : Grid Id) :
  g_cols g !! i = Some col -> col.1 !! j = Some x -> g_windows g ≡ₚ x :: g_windows (alter_col i (col_delete j) g).
Proof.
  intros Hi Hj. destruct (g_windows_alter i (col_delete j) col g Hi) as (rest & -> & ->). unfold col_delete. cbn [fst].
  by rewrite (delete_perm j x col.1 Hj) at 1.
Qed.

Lemma remove_tile_runs i j tr config s c t :
  space_ok s -> columns s !! i = Some c -> Column.tiles c !! j = Some t -> config_ok config ->
  runs (remove_tile_by_idx cv i j tr config s) (fun '(removed, s') =>
    tile_incoming (rt_tile removed) /\ Tile.id (rt_tile removed) = Tile.id t /\ to s (g_remove i j (grid s)) s').
Proof.
  intros Hs Hi Hj Hconf. pose proof (space_col s i c Hs Hi) as Hc. pose proof (so_env _ (proj1 (proj1 Hs))) as HE.
  pose proof (cm_base _ _ (proj1 Hc)) as Hb. pose proof (lookup_lt_Some _ _ _ Hj) as Hjl. pose proof (lookup_lt_Some _ _ _ Hi) as Hil.
  assert (Hgi : g_cols (grid s) !! i = Some (gcol c)) by (by rewrite grid_lookup, Hi).
  assert (Hidj : ids c !! j = Some (Tile.id t)) by (unfold ids; by rewrite list_lookup_fmap, Hj).
  unfold remove_tile_by_idx. step index_ok; [done|]. unfold g_remove. rewrite Hgi. cbn [fst gcol]. rewrite length_ids.
  destruct (bool_decide (length (Column.tiles c) = 1)) eqn:El.
  { apply bool_decide_eq_true_1 in El. runs remove_column_runs; [done|done|done|]. intros [c' s'] _ (Hc' & Hgc & Hto).
    injection Hgc as Hids Ha. pose proof Hidj as Hidj'. rewrite <-Hids in Hidj'. unfold ids in Hidj'. rewrite list_lookup_fmap in Hidj'.
    destruct (Column.tiles c' !! j) as [t'|] eqn:Et'; [|done]. injection Hidj' as Hid'.
    step (vec_remove_ok j t'); [done|]. returns. split_and!; [by eapply incoming_tile; [|apply Hc'|]|done|done]. }
  apply bool_decide_eq_false_1 in El. pose proof (space_length_data s (proj1 (proj1 Hs))) as Hld.
  runs runs_index; [lia|]. intros w0 _ _.
  runs tile_offset_runs; [done|done|lia|]. intros p _ _. runs tile_offset_runs; [done|done|lia|]. intros q _ _.
  assert (Hmt : config_total (default (window_movement (options s)) config)) by (apply config_default; [done|apply movement_total, Hs]).
  runs (animate_range_tiles (env s)); [done|done|lia|done|]. intros ts _ Hk1. set (c1 := Column.set_tiles ts c) in *.
  pose proof (kept_ok _ _ _ Hk1 Hc) as [Hc1 Hsame1].
  eapply runs_bind with (R := fun c2 => tiles_kept (env s) c c2).
  { apply runs_if; intros _; [|by returns]. finish (update_tile_runs (env s)); [apply Hc1|rewrite (kept_length _ _ _ Hk1); done| |].
    - intros t' Ht'. by apply animate_alpha_runs.
    - intros c2 _ Hk2. by eapply tiles_kept_trans. }
  intros c2 _ Hk2. pose proof (kept_ok _ _ _ Hk2 Hc) as [Hc2 [[Hids2 _ _] Ha2]].
  assert (Hgc2 : gcol c2 = gcol c) by (unfold gcol; by rewrite Hids2, Ha2).
  assert (Hl2 : length (Column.tiles c2) = length (Column.tiles c)) by by apply (kept_length (env s)).
  pose proof Hidj as Hid2. rewrite <-Hids2 in Hid2. unfold ids in Hid2. rewrite list_lookup_fmap in Hid2.
  destruct (Column.tiles c2 !! j) as [t2|] eqn:Et2; [|done]. injection Hid2 as Hid2.
  step (vec_remove_ok j t2); [done|]. cbv iota beta.
  pose proof (ColumnInv.length_data _ _ (cm_base _ _ (proj1 Hc2))) as Hld2.
  destruct (lookup_lt_is_Some_2 (Column.data c2) j) as [d2 Hd2]; [lia|]. step (vec_remove_ok j d2); [done|]. cbv iota beta.
  set (s1 := if _ && _ && _ then _ else s). assert (H1 : to s (grid s) s1 /\ columns s1 = columns s /\ interactive_resize s1 = interactive_resize s).
  { unfold s1. destruct (_ && _ && _); [split_and!; [by apply set_restore_to|done|done]|split_and!; [by apply to_refl|done|done]]. }
  clearbody s1. destruct H1 as (H1 & Hcs1 & Hir1).
  set (s2 := match interactive_resize s1 with Some r => _ | None => s1 end).
  assert (H2 : to s (grid s) s2 /\ columns s2 = columns s /\ forall r, interactive_resize s2 = Some r -> resize_window r <> Tile.id t).
  { destruct H1 as (Hs1 & He1 & Hg1). unfold s2. destruct (interactive_resize s1) as [r|] eqn:Er.
    - destruct (bool_decide (Tile.id t2 = resize_window r)) eqn:Ex.
      + split_and!; [|done|done]. destruct (set_resize_None s1 Hs1) as (? & ? & Hg). split_and!; [done|congruence|congruence].
      + apply bool_decide_eq_false_1 in Ex. split_and!; [done|done|]. intros r'. rewrite Er. intros [= <-]. congruence.
    - split_and!; [done|done|]. by intros r'; rewrite Er. }
  clearbody s2. destruct H2 as ((Hs2 & He2 & Hg2) & Hcs2 & Hir2).
  eapply runs_bind2; [apply (shrink_column_runs (env s) j tr c2); [done|done|lia|lia]|]. intros c3 (Hc3 & Hgc3).
  assert (Hi2 : columns s2 !! i = Some c) by (by rewrite Hcs2).
  set (s3 := set_columns _ s2).
  assert (Hu : runs (update_data i s3) (to s (alter_col i (col_delete j) (grid s)))).
  { unfold update_data, s3. cbn [columns set_columns data].
    rewrite (index_ok i c3) by (apply list_lookup_insert_eq; by rewrite Hcs2). cbn [mbind res_bind].
    destruct (data_lookup s2 i c (proj1 (proj1 Hs2)) Hi2) as (w1 & Hw1 & _). rewrite (index_ok i w1) by done. cbn [mbind res_bind].
    runs col_width_runs; [exact HE|apply Hc3|by eapply col_nonempty, Hc3|]. intros w _ [Hw _]. returns.
    set (s4 := set_data _ _).
    assert (Hg4 : grid s4 = alter_col i (col_delete j) (grid s)).
    { transitivity (alter_col i (fun _ => gcol c3) (grid s2)).
      - unfold grid, alter_col, with_cols, s4. cbn. by rewrite list_fmap_insert, insert_alter.
      - rewrite Hg2. eapply alter_col_ext; [exact Hgi|]. by rewrite Hgc3, Hgc2. }
    pose proof (g_windows_shrink i j (gcol c) (Tile.id t) (grid s) Hgi Hidj) as HP.
    assert (Hto : to s2 (alter_col i (fun _ => gcol c3) (grid s2)) s4).
    { eapply space_replace_ok; [done|exact Hi2|by rewrite He2|done| |]; fold s4; rewrite Hg4.
      - pose proof (so_nodup _ (proj1 (proj1 Hs))) as Hnd. rewrite HP in Hnd. by apply NoDup_cons in Hnd as [_ ?].
      - intros r Hr. pose proof (so_resize _ (proj1 (proj1 Hs2)) r Hr) as Hin. rewrite Hg2, HP in Hin.
        apply elem_of_cons in Hin as [Hin|Hin]; [|done]. by destruct (Hir2 r Hr). }
    destruct Hto as (? & ? & Hg4'). split_and!; [done|congruence|done]. }
  runs Hu. intros s4 _ (Hs4 & He4 & Hg4).
  runs col_width_runs; [exact HE|apply Hc3|by eapply col_nonempty, Hc3|]. intros w _ _.
  assert (Hl4 : length (columns s4) = length (columns s)) by (rewrite <-!grid_length, Hg4; apply alter_length).
  assert (Hend : forall lo hi x, lo <= hi -> hi <= length (columns s4) ->
    runs (animate_columns cv lo hi x (default (window_movement (options s)) config) s4) (to s (alter_col i (col_delete j) (grid s)))).
  { intros lo hi x Hlo Hhi. finish animate_columns_runs; [done|done|done|done|done|]. intros s5 _ ((? & ? & Hg5) & _ & _).
    split_and!; [done|congruence|congruence]. }
  eapply runs_bind; [apply runs_if; intros _; apply Hend; lia|]. intros s5 _ H5. returns. split_and!; [|done|done].
  eapply incoming_tile; [exact HE|apply Hc2|exact Et2].
Qed.
End ops.
