(* ===== verification/ScrollingMoves.v ===== *)
(** * Operations of the scrolling layout: focus and moves *)

From stdpp Require Import base numbers option list.
From Stdlib Require Import ZArith Lia SpecFloat.
From S2P Require Import Prelude.
From S2P Require Import Runs.
From S2P Require Import F64.
From S2P Require Import Duration.
From S2P Require Import Clock.
From S2P Require Import Gesture.
From S2P Require Import Animation.
From S2P Require Import AnimTotal.
From S2P Require Import LayoutTypes.
From S2P Require Import F64Sign.
From S2P Require Import Tile.
From S2P Require Import TileInv.
From S2P Require Import Column.
From S2P Require Import ColumnInv.
From S2P Require Import ColumnOps.
From S2P Require Import Scrolling.
From S2P Require Import ScrollingSpec.
From S2P Require Import ScrollingInv.
From S2P Require Import ScrollingOps.
From S2P Require Import ScrollingTiles.
From S2P Require Import ScrollingRemove.

Section ops.
Context {LE : LayoutElement} {LEL : LayoutElementLaws} {GE : Geometry} {GL : GeometryLaws} {LM : Libm} {KF : Keyframe}.
Implicit Types (t : Tile.Tile) (c : Column.Column) (s : ScrollingSpace.ScrollingSpace).
Import ScrollingSpace.
Context (cv : ClockView) (Hcv : cv_ok cv).

(** ** Finding windows *)
Lemma position_fmap {A B} (f : A -> B) (p : B -> bool) l : position p (f <$> l) = position (fun x => p (f x)) l.
Proof. induction l as [|x l IH]; cbn; [done|]. rewrite IH. done. Qed.
Lemma position_ext {A} (p q : A -> bool) l : (forall x, p x = q x) -> position p l = position q l.
Proof. intros H. induction l as [|x l IH]; cbn; [done|]. by rewrite H, IH. Qed.

Lemma column_of_grid x s : column_of x s = position (fun col : GCol Id => bool_decide (x ∈ col.1)) (g_cols (grid s)).
Proof.
  unfold column_of, grid. cbn [g_cols]. rewrite position_fmap. apply position_ext. intros c. unfold gcol. cbn [fst].
  apply eq_true_iff_eq. by rewrite bool_decide_eq_true, contains_ids.
Qed.
Lemma position_of_grid x c : Column.position_of x c = position (fun y => bool_decide (y = x)) (ids c).
Proof. unfold Column.position_of, ids. by rewrite position_fmap. Qed.

Lemma elem_of_windows x (g : Grid Id) : x ∈ g_windows g <-> exists i col, g_cols g !! i = Some col /\ x ∈ col.1.
Proof.
  unfold g_windows. rewrite list_elem_of_bind. split.
  - intros (col & Hx & (i & Hi)%list_elem_of_lookup). eauto.
  - intros (i & col & Hi & Hx). exists col. split; [done|]. by eapply list_elem_of_lookup_2.
Qed.

Lemma find_ok x s :
  x ∈ g_windows (grid s) ->
  exists i c j t, column_of x s = Some i /\ columns s !! i = Some c /\ Column.position_of x c = Some j /\ Column.tiles c !! j = Some t
    /\ Tile.id t = x /\ g_find x (grid s) = Some (i, j).
Proof.
  intros Hx. unfold g_find. rewrite column_of_grid. destruct (position _ (g_cols (grid s))) as [i|] eqn:Ei.
  - pose proof (position_Some _ _ _ Ei) as (col & Hi & Hc & _). apply bool_decide_eq_true_1 in Hc. cbn [mbind option_bind]. rewrite grid_lookup in Hi |- *.
    destruct (columns s !! i) as [c|] eqn:Ec; [|done]. injection Hi as <-. cbn [fst gcol] in Hc. cbn [fmap option_fmap option_map mbind option_bind gcol fst].
    destruct (position _ (ids c)) as [j|] eqn:Ej.
    + pose proof (position_Some _ _ _ Ej) as (y & Hj & Hy & _). apply bool_decide_eq_true_1 in Hy. subst y. unfold ids in Hj.
      rewrite list_lookup_fmap in Hj. destruct (Column.tiles c !! j) as [t|] eqn:Et; [|done]. injection Hj as Hj.
      exists i, c, j, t. split_and!; try done. by rewrite position_of_grid.
    + rewrite position_None in Ej. specialize (Ej x Hc). by rewrite bool_decide_eq_true_2 in Ej.
  - apply elem_of_windows in Hx as (i & col & Hi & Hx). rewrite position_None in Ei.
    specialize (Ei col (list_elem_of_lookup_2 _ _ _ Hi)). by rewrite bool_decide_eq_true_2 in Ei.
Qed.

(** The window an operation is about exists. *)
Definition source_ok (window : option Id) s : Prop := forall x, window = Some x -> x ∈ g_windows (grid s).

Lemma active_ok_lookup s : space_ok s -> is_empty s = false -> exists c, columns s !! active_column_idx s = Some c.
Proof. intros Hs He. apply lookup_lt_is_Some_2, space_active_lt; [apply Hs|done]. Qed.

Lemma source_runs window s :
  space_ok s -> is_empty s = false -> source_ok window s ->
  runs (source window s) (fun '(i, j) => g_source window (grid s) = Some (i, j)
    /\ exists c t, columns s !! i = Some c /\ Column.tiles c !! j = Some t /\ forall x, window = Some x -> Tile.id t = x).
Proof.
  intros Hs He Hw. destruct window as [x|]; cbn [source g_source].
  - destruct (find_ok x s (Hw x eq_refl)) as (i & c & j & t & Hi & Hc & Hj & Ht & Hx & Hf).
    step unwrap_ok; [exact Hi|]. step index_ok; [exact Hc|]. step unwrap_ok; [exact Hj|]. returns. split; [done|].
    exists c, t. split_and!; [done|done|]. by intros ? [= <-].
  - destruct (active_ok_lookup s Hs He) as [c Hc]. unfold active_column. step index_ok; [exact Hc|]. returns.
    rewrite grid_lookup. change (g_active (grid s)) with (active_column_idx s). rewrite Hc. split; [done|].
    destruct (lookup_lt_is_Some_2 (Column.tiles c) (Column.active_tile_idx c)) as [t Ht]; [apply (space_col s _ c Hs Hc)|]. by exists c, t.
Qed.

Lemma g_at_ok i j s c t : columns s !! i = Some c -> Column.tiles c !! j = Some t -> g_at i j (grid s) = Some (Tile.id t).
Proof. intros Hi Hj. unfold g_at. rewrite grid_lookup, Hi. cbn. unfold ids. by rewrite list_lookup_fmap, Hj. Qed.
Lemma col_len_ok i s c : columns s !! i = Some c -> col_len i (grid s) = length (Column.tiles c).
Proof. intros Hi. unfold col_len. rewrite grid_lookup, Hi. cbn. apply length_ids. Qed.
Lemma was_active_ok i j s c :
  columns s !! i = Some c ->
  was_active i j (grid s) = bool_decide (active_column_idx s = i) && bool_decide (Column.active_tile_idx c = j).
Proof. intros Hi. unfold was_active. rewrite grid_lookup, Hi. cbn. f_equal. apply bool_decide_ext. by split; [intros [= ->]|intros ->]. Qed.

Lemma remove_by_id_runs x tr s :
  space_ok s -> x ∈ g_windows (grid s) ->
  runs (remove_tile cv x tr s) (fun '(removed, s') => tile_incoming (rt_tile removed) /\ Tile.id (rt_tile removed) = x
    /\ exists i j, g_find x (grid s) = Some (i, j) /\ to s (g_remove i j (grid s)) s').
Proof.
  intros Hs Hx. unfold remove_tile. assert (He : is_empty s = false).
  { unfold is_empty. destruct (columns s) eqn:Ec; [|done]. unfold grid in Hx. rewrite Ec in Hx. by apply elem_of_nil in Hx. }
  runs source_runs; [done|done|by intros ? [= <-]|]. intros [i j] _ (Hf & c & t & Hi & Hj & Hid).
  finish remove_tile_runs; [exact Hcv|done|exact Hi|exact Hj|done|]. intros [r s'] _ (? & Hr & ?). rewrite (Hid x eq_refl) in Hr.
  split_and!; [done|done|]. by exists i, j.
Qed.
Lemma remove_active_tile_runs tr s :
  space_ok s -> runs (remove_active_tile cv tr s) (fun r =>
    match r with
    | Some (removed, s') => tile_incoming (rt_tile removed) /\ exists i j, g_source None (grid s) = Some (i, j)
        /\ g_at i j (grid s) = Some (Tile.id (rt_tile removed)) /\ to s (g_remove i j (grid s)) s'
    | None => g_cols (grid s) = []
    end).
Proof.
  intros Hs. unfold remove_active_tile. apply runs_if; intros He.
  { returns. unfold is_empty in He. unfold grid. by destruct (columns s). }
  runs source_runs; [done|done|done|]. intros [i j] _ (Hf & c & t & Hi & Hj & _).
  runs remove_tile_runs; [exact Hcv|done|exact Hi|exact Hj|done|]. intros [r s'] _ (? & Hr & ?). returns. split; [done|].
  exists i, j. split_and!; [done| |done]. rewrite Hr. by eapply g_at_ok.
Qed.
Lemma remove_active_column_runs s :
  space_ok s -> runs (remove_active_column cv s) (fun r =>
    match r with
    | Some (c, s') => col_ok (env s) c /\ g_cols (grid s) !! active_column_idx s = Some (gcol c) /\ to s (g_remove_column (active_column_idx s) (grid s)) s'
    | None => g_cols (grid s) = []
    end).
Proof.
  intros Hs. unfold remove_active_column. apply runs_if; intros He.
  { returns. unfold is_empty in He. unfold grid. by destruct (columns s). }
  destruct (active_ok_lookup s Hs He) as [c Hc].
  runs remove_column_runs; [exact Hcv|done|exact Hc|done|]. intros [c' s'] _ (? & Hgc & ?). returns. split_and!; [done| |done].
  by rewrite grid_lookup, Hc, Hgc.
Qed.

(** ** Focus *)
Lemma activate_window_runs x s :
  space_ok s -> runs (activate_window cv x s) (fun '(b, s') => b = bool_decide (x ∈ g_windows (grid s)) /\ to s (g_activate_window x (grid s)) s').
Proof.
  intros Hs. unfold activate_window, g_activate_window. destruct (decide (x ∈ g_windows (grid s))) as [Hx|Hx].
  - destruct (find_ok x s Hx) as (i & c & j & t & Hi & Hc & Hj & Ht & Hid & ->). rewrite Hi.
    runs (set_active_runs i _ j s c Hs Hc).
    { unfold Column.activate_window. step unwrap_ok; [exact Hj|]. runs (activate_idx_runs (env s)); [by eapply space_col|by eapply lookup_lt_Some|].
      intros [b c'] _ (_ & ? & ? & ?). by returns. }
    intros s1 _ H1. runs activate_column_runs; [exact Hcv|apply (to_ok _ _ _ H1)| |].
    + rewrite (to_length _ _ _ H1). unfold set_active_tile. rewrite alter_length, grid_length. by eapply lookup_lt_Some.
    + intros s2 _ ((? & ? & Hg2) & _ & _). returns. rewrite bool_decide_eq_true_2 by done. split; [done|].
      destruct H1 as (_ & ? & Hg1). split_and!; [done|congruence|]. by rewrite Hg2, Hg1.
  - rewrite bool_decide_eq_false_2 by done. assert (Hn : column_of x s = None).
    { rewrite column_of_grid. apply position_None. intros col (i & Hi)%list_elem_of_lookup. apply bool_decide_eq_false_2.
      intros Hc. apply Hx, elem_of_windows. eauto. }
    rewrite Hn. returns. split; [done|]. unfold g_find. rewrite <-column_of_grid, Hn. by apply to_refl.
Qed.

Lemma activate_to i s : space_ok s -> i < length (columns s) -> runs (activate_column cv i s) (to s (g_activate i (grid s))).
Proof. intros Hs Hi. finish activate_column_runs; [exact Hcv|done|done|]. by intros s' _ [? _]. Qed.

Lemma nonempty_length s : is_empty s = false -> 0 < length (columns s).
Proof. unfold is_empty. destruct (columns s); [done|cbn; lia]. Qed.
Lemma empty_active s : space_ok s -> is_empty s = true -> active_column_idx s = 0.
Proof. intros Hs He. destruct (proj2 (proj1 Hs)) as [H|[_ H]]; [|done]. unfold is_empty in He. destruct (columns s); [cbn in H; lia|done]. Qed.

Lemma focus_left_runs s :
  space_ok s -> runs (focus_left cv s) (fun '(b, s') => b = negb (bool_decide (active_column_idx s = 0)) /\ to s (g_focus_left (grid s)) s').
Proof.
  intros Hs. unfold focus_left, g_focus_left. change (g_active (grid s)) with (active_column_idx s).
  destruct (bool_decide _) eqn:E0; [by returns|]. apply bool_decide_eq_false_1 in E0.
  runs activate_to; [done| |]. { pose proof (so_le _ (proj1 (proj1 Hs))). lia. } intros s' _ H. by returns.
Qed.
Lemma focus_right_runs s :
  space_ok s -> runs (focus_right cv s) (fun '(b, s') => b = negb (length (columns s) <=? active_column_idx s + 1) /\ to s (g_focus_right (grid s)) s').
Proof.
  intros Hs. unfold focus_right, g_focus_right. rewrite grid_length. change (g_active (grid s)) with (active_column_idx s).
  destruct (_ <=? _) eqn:E0; [by returns|]. apply Nat.leb_gt in E0. runs activate_to; [done|done|]. intros s' _ H. by returns.
Qed.
Lemma focus_first_runs s : space_ok s -> runs (focus_column_first cv s) (to s (g_activate 0 (grid s))).
Proof.
  intros Hs. unfold focus_column_first. destruct (is_empty s) eqn:He.
  - pose proof (empty_active s Hs He) as Ha. unfold activate_column, activate_column_with_anim_config, g_activate.
    change (g_active (grid s)) with (active_column_idx s). rewrite He, bool_decide_eq_true_2 by done. by returns.
  - apply activate_to; [done|by apply nonempty_length].
Qed.
Lemma focus_last_runs s : space_ok s -> runs (focus_column_last cv s) (to s (g_focus_last (grid s))).
Proof.
  intros Hs. unfold focus_column_last, g_focus_last, last_col. rewrite grid_empty, grid_length. destruct (is_empty s) eqn:He; [by returns|].
  pose proof (nonempty_length s He). step usub_ok; [lia|]. apply activate_to; [done|lia].
Qed.
Lemma focus_column_runs i s : space_ok s -> runs (focus_column cv i s) (to s (g_focus_column i (grid s))).
Proof.
  intros Hs. unfold focus_column, g_focus_column, last_col. rewrite grid_empty, grid_length. destruct (is_empty s) eqn:He; [by returns|].
  pose proof (nonempty_length s He). step usub_ok; [lia|]. apply activate_to; [done|lia].
Qed.

(** ** On the active column *)
Lemma on_active_empty f s : space_ok s -> is_empty s = true -> on_active_col f (grid s) = grid s.
Proof.
  intros Hs He. unfold on_active_col, alter_col, grid, with_cols. cbn. unfold is_empty in He. by destruct (columns s).
Qed.

(** A change of the focus within a column. *)
Definition refocuses s (f : nat -> nat -> nat) (op : Column.Column -> res (bool * Column.Column)) : Prop :=
  forall c, col_ok (env s) c -> runs (op c) (fun '(b, c') =>
    b = negb (bool_decide (f (length (Column.tiles c)) (Column.active_tile_idx c) = Column.active_tile_idx c)) /\ col_ok (env s) c' /\ col_like c c'
    /\ Column.active_tile_idx c' = f (length (Column.tiles c)) (Column.active_tile_idx c)).

Lemma refocus_grid s i c f : columns s !! i = Some c ->
  set_active_tile i (f (length (Column.tiles c)) (Column.active_tile_idx c)) (grid s) = alter_col i (col_focus f) (grid s).
Proof.
  intros Hi. unfold set_active_tile. eapply alter_col_ext; [by rewrite grid_lookup, Hi|]. unfold col_focus, gcol. cbn. by rewrite length_ids.
Qed.

Lemma with_column_runs i op f s c :
  space_ok s -> columns s !! i = Some c -> refocuses s f op ->
  runs (with_column i op s) (fun '(b, s') =>
    b = negb (bool_decide (f (length (Column.tiles c)) (Column.active_tile_idx c) = Column.active_tile_idx c)) /\ to s (alter_col i (col_focus f) (grid s)) s').
Proof.
  intros Hs Hi Hop. pose proof (Hop c (space_col s i c Hs Hi)) as Hr. apply runs_ok in Hr as ([b c'] & Hop' & Hb & Hc' & Hl & Ha).
  pose proof (set_active_runs i (fun c => '(_, c) ← op c; mret c)
    (f (length (Column.tiles c)) (Column.active_tile_idx c)) s c Hs Hi) as Hu. unfold update_column in Hu. unfold with_column.
  rewrite (index_ok i c) in Hu |- * by done. cbn [mbind res_bind] in Hu |- *. rewrite Hop' in Hu |- *.
  rewrite (refocus_grid s i c f Hi) in Hu. split; [done|]. apply Hu. by returns.
Qed.

Lemma on_active_runs op f s : space_ok s -> refocuses s f op -> runs (on_active op s) (fun '(_, s') => to s (on_active_col (col_focus f) (grid s)) s').
Proof.
  intros Hs Hop. unfold on_active. apply runs_if; intros He; [by returns; rewrite on_active_empty|].
  destruct (active_ok_lookup s Hs He) as [c Hc]. finish with_column_runs; [done|exact Hc|exact Hop|]. by intros [b s'] _ [_ ?].
Qed.
Lemma on_active__runs op f s :
  space_ok s -> (forall c, col_ok (env s) c -> runs (op c) (fun c' => col_ok (env s) c' /\ col_like c c'
    /\ Column.active_tile_idx c' = f (length (Column.tiles c)) (Column.active_tile_idx c))) ->
  runs (on_active_ op s) (to s (on_active_col (col_focus f) (grid s))).
Proof.
  intros Hs Hop. unfold on_active_. apply runs_if; intros He; [by returns; rewrite on_active_empty|].
  destruct (active_ok_lookup s Hs He) as [c Hc]. unfold on_active_col. change (g_active (grid s)) with (active_column_idx s).
  rewrite <-(refocus_grid s _ c f Hc). apply (set_active_runs _ _ _ s c); [done|done|]. apply Hop. by eapply space_col.
Qed.

Lemma up_refocuses s : space_ok s -> refocuses s up Column.focus_up.
Proof.
  intros Hs c Hc. finish (focus_up_runs (env s)); [done|]. intros [b c'] _ (-> & ? & ? & ?). split_and!; [|done..]. f_equal.
  apply bool_decide_ext. unfold up. lia.
Qed.
Lemma down_refocuses s : space_ok s -> refocuses s down Column.focus_down.
Proof.
  intros Hs c Hc. finish (focus_down_runs (env s)); [done|]. intros [b c'] _ (-> & ? & ? & ?). split_and!; [|done..]. f_equal.
  apply bool_decide_ext. unfold down. pose proof (cm_active _ _ (proj1 Hc)). lia.
Qed.

Lemma focus_or_runs op f beyond gbeyond s :
  space_ok s -> refocuses s f op ->
  (forall s', space_ok s' -> runs (beyond s') (fun '(_, s2) => to s' (gbeyond (grid s')) s2)) ->
  runs (focus_or op beyond s) (to s (g_focus_or f gbeyond (grid s))).
Proof.
  intros Hs Hop Hb. unfold focus_or, g_focus_or. change (g_active (grid s)) with (active_column_idx s). rewrite grid_lookup. apply runs_if; intros He.
  { returns. unfold is_empty in He. destruct (columns s) eqn:Ec; [|done]. by apply to_refl. }
  destruct (active_ok_lookup s Hs He) as [c Hc]. rewrite Hc. cbn [fmap option_fmap option_map gcol fst snd]. rewrite length_ids.
  runs with_column_runs; [done|exact Hc|exact Hop|]. intros [b s1] _ [-> H1].
  destruct (bool_decide _) eqn:Ef; cbn [negb]; [|by returns]. apply bool_decide_eq_true_1 in Ef.
  assert (Hg1 : grid s1 = grid s).
  { destruct H1 as (_ & _ & ->). rewrite <-(refocus_grid s _ c f Hc), Ef. by apply set_active_tile_id. }
  runs Hb; [apply (to_ok _ _ _ H1)|]. intros [b' s2] _ H2. returns. rewrite Hg1 in H2. by eapply to_trans.
Qed.

(** ** Moves within a column *)
Lemma move_within_runs op k s :
  space_ok s ->
  (forall c, col_ok (env s) c -> runs (op c) (fun '(b, c') => col_ok (env s) c' /\ (forall w, caches c w -> caches c' w)
    /\ Column.active_tile_idx c' = k (length (Column.tiles c)) (Column.active_tile_idx c)
    /\ k (length (Column.tiles c)) (Column.active_tile_idx c) < length (Column.tiles c)
    /\ if b : bool then swapped (Column.active_tile_idx c) (k (length (Column.tiles c)) (Column.active_tile_idx c)) (ids c) (ids c') else c' = c)) ->
  runs (on_active op s) (fun '(_, s') => to s (on_active_col (fun col => col_swap (k (length col.1) col.2) col) (grid s)) s').
Proof.
  intros Hs Hop. unfold on_active. apply runs_if; intros He; [by returns; rewrite on_active_empty|].
  destruct (active_ok_lookup s Hs He) as [c Hc]. set (i := active_column_idx s) in *. unfold with_column. step index_ok; [done|].
  pose proof (space_col s i c Hs Hc) as Hok. runs Hop; [exact Hok|]. intros [b c'] _ (Hc' & Hw & Ha & Hlt & Hsw). returns.
  set (a := Column.active_tile_idx c) in *. set (b' := k _ _) in *.
  pose proof (cm_active _ _ (proj1 Hok)) as Hact. fold a in Hact.
  destruct (lookup_lt_is_Some_2 (ids c) a) as [x Hx]; [by rewrite length_ids|].
  destruct (lookup_lt_is_Some_2 (ids c) b') as [y Hy]; [by rewrite length_ids|].
  assert (Hids : ids c' = <[a := y]> (<[b' := x]> (ids c))).
  { destruct b; [eapply swapped_eq; [exact Hsw|by apply vec_swap_swapped]|]. subst c'. fold a in Ha. rewrite <-Ha in Hy |- *.
    rewrite Hx in Hy. injection Hy as ->. rewrite (list_insert_id (ids c)) by done. by rewrite (list_insert_id (ids c)). }
  assert (Hgi : g_cols (grid s) !! i = Some (gcol c)) by (by rewrite grid_lookup, Hc).
  assert (Hg : alter_col i (fun _ => gcol c') (grid s) = on_active_col (fun col => col_swap (k (length col.1) col.2) col) (grid s)).
  { eapply alter_col_ext; [exact Hgi|]. unfold gcol at 2 3 4. cbn [fst snd]. rewrite length_ids. fold a b'. unfold col_swap, gcol. cbn [fst snd].
    fold a. rewrite Hx, Hy. by rewrite <-Hids, Ha. }
  destruct (data_lookup s i c (proj1 (proj1 Hs)) Hc) as (w & Hdw & Hcw). rewrite <-Hg.
  assert (Hst : set_columns (<[i := c']> (columns s)) s = set_data (<[i := w]> (data s)) (set_columns (<[i := c']> (columns s)) s)).
  { rewrite (list_insert_id (data s)) by done. symmetry. apply (set_data_same (set_columns (<[i := c']> (columns s)) s)). }
  rewrite Hst.
  assert (HP : g_windows (grid (set_data (<[i := w]> (data s)) (set_columns (<[i := c']> (columns s)) s))) ≡ₚ g_windows (grid s)).
  { replace (grid (set_data _ _)) with (alter_col i (fun _ => gcol c') (grid s)).
    - destruct (g_windows_alter i (fun _ => gcol c') (gcol c) (grid s) Hgi) as (rest & -> & ->). cbn [gcol fst]. f_equiv.
      rewrite Hids. eapply swapped_perm. by apply vec_swap_swapped.
    - unfold grid, alter_col, with_cols. cbn. by rewrite list_fmap_insert, insert_alter. }
  eapply space_replace_ok; [done|exact Hc|done|by apply Hw| |].
  - rewrite HP. apply (so_nodup _ (proj1 (proj1 Hs))).
  - intros r Hr. rewrite HP. by apply (so_resize _ (proj1 (proj1 Hs))).
Qed.

Lemma move_up_to s :
  space_ok s -> runs (move_up cv s) (fun '(_, s') => to s (on_active_col (fun col => col_swap (up (length col.1) col.2) col) (grid s)) s').
Proof.
  intros Hs. apply move_within_runs; [done|]. intros c Hc. pose proof (cm_active _ _ (proj1 Hc)).
  finish (move_up_runs (env s)); [apply Hs|exact Hcv|done|]. intros [b c'] _ (? & _ & ? & ? & ?). unfold up. split_and!; [done|done|done|lia|done].
Qed.
Lemma move_down_to s :
  space_ok s -> runs (move_down cv s) (fun '(_, s') => to s (on_active_col (fun col => col_swap (down (length col.1) col.2) col) (grid s)) s').
Proof.
  intros Hs. apply move_within_runs; [done|]. intros c Hc. pose proof (cm_active _ _ (proj1 Hc)).
  finish (move_down_runs (env s)); [apply Hs|exact Hcv|done|]. intros [b c'] _ (? & _ & ? & Ha & Hsw). unfold down.
  split_and!; [done|done|done|lia|done].
Qed.
End ops.
