(* ===== verification/ScrollingConsume.v ===== *)
(** * Operations of the scrolling layout: moving columns, consuming and expelling *)

From stdpp Require Import base numbers option list.
From Stdlib Require Import ZArith Lia SpecFloat.
From S2P Require Import Prelude.
From S2P Require Import Runs.
From S2P Require Import F64.
From S2P Require Import Duration.
From S2P Require Import Clock.
From S2P Require Import Gesture.
From S2P Require Import Animation.
From S2P Require Import AnimTotal.
From S2P Require Import LayoutTypes.
From S2P Require Import F64Sign.
From S2P Require Import Tile.
From S2P Require Import TileInv.
From S2P Require Import Column.
From S2P Require Import ColumnInv.
From S2P Require Import ColumnOps.
From S2P Require Import Scrolling.
From S2P Require Import ScrollingSpec.
From S2P Require Import ScrollingInv.
From S2P Require Import ScrollingOps.
From S2P Require Import ScrollingTiles.
From S2P Require Import ScrollingRemove.
From S2P Require Import ScrollingMoves.

Section ops.
Context {LE : LayoutElement} {LEL : LayoutElementLaws} {GE : Geometry} {GL : GeometryLaws} {LM : Libm} {KF : Keyframe}.
Implicit Types (t : Tile.Tile) (c : Column.Column) (s : ScrollingSpace.ScrollingSpace).
Import ScrollingSpace.
Context (cv : ClockView) (Hcv : cv_ok cv).

(** ** Moving the active column *)
Lemma Forall2_insert_at {A B} (R : A -> B -> Prop) i x y l k : R x y -> Forall2 R l k -> Forall2 R (insert_at i x l) (insert_at i y k).
Proof. intros Hxy HF. unfold insert_at. apply Forall2_app; [by apply Forall2_take|]. constructor; [done|by apply Forall2_drop]. Qed.

Lemma moved_columns_to s i k c w :
  space_ok s -> columns s !! i = Some c -> data s !! i = Some w -> k < length (columns s) ->
  to s (with_cols (insert_at k (gcol c) (delete i (g_cols (grid s)))) (grid s))
    (set_data (insert_at k w (delete i (data s))) (set_columns (insert_at k c (delete i (columns s))) s)).
Proof.
  intros Hs Hi Hw Hk. set (s' := set_data _ _).
  assert (Hg : grid s' = with_cols (insert_at k (gcol c) (delete i (g_cols (grid s)))) (grid s)).
  { unfold grid, with_cols. cbn. by rewrite insert_at_fmap, list_fmap_delete. }
  assert (Hl : length (delete i (columns s)) = length (columns s) - 1) by (apply length_delete; by eexists).
  assert (HP : g_windows (grid s') ≡ₚ g_windows (grid s)).
  { rewrite Hg. unfold g_windows. cbn [g_cols with_cols]. rewrite insert_at_perm. symmetry.
    apply (g_windows_delete i (gcol c) (grid s)). by rewrite grid_lookup, Hi. }
  split_and!; [|done|done]. pose proof (space_col s i c Hs Hi) as Hc. pose proof (lookup_lt_Some _ _ _ Hi).
  apply space_cols in Hs as [[[] Ha] Hsi]. apply space_cols. split; [split|].
  - constructor; try done.
    + apply Forall_insert_at; [apply Hc|by apply Forall_delete].
    + cbn. apply Forall2_insert_at; [by apply (Forall2_lookup_lr _ _ _ _ _ _ so_data Hi Hw)|by apply Forall2_delete].
    + cbn. rewrite length_insert_at; lia.
    + by rewrite HP.
    + intros r Hr. rewrite HP. by apply so_resize.
  - left. cbn. rewrite length_insert_at by lia. destruct Ha as [?|[H0 _]]; [lia|]. rewrite H0 in Hi. done.
  - by apply Forall_insert_at; [|apply Forall_delete].
Qed.

Lemma move_column_to_runs k s :
  space_ok s -> (is_empty s = true -> k = 0) -> (is_empty s = false -> k < length (columns s)) ->
  runs (move_column_to cv k s) (to s (g_move_column_to k (grid s))).
Proof.
  intros Hs Hemp Hk. unfold move_column_to, g_move_column_to. change (g_active (grid s)) with (active_column_idx s).
  set (i := active_column_idx s). rewrite grid_lookup. apply runs_if; intros Ek.
  { apply bool_decide_eq_true_1 in Ek. returns. subst k. rewrite bool_decide_eq_true_2 by done.
    destruct (gcol <$> columns s !! i); by apply to_refl. }
  apply bool_decide_eq_false_1 in Ek. destruct (is_empty s) eqn:He.
  { destruct Ek. unfold i. rewrite (empty_active s Hs He), Hemp; done. }
  specialize (Hk eq_refl). destruct (active_ok_lookup s Hs He) as [c Hc]. fold i in Hc. rewrite Hc.
  cbn [fmap option_fmap option_map]. rewrite bool_decide_eq_false_2 by done.
  pose proof (lookup_lt_Some _ _ _ Hc) as Hi. pose proof (space_length_data s (proj1 (proj1 Hs))) as Hld.
  runs column_x_runs; [lia|]. intros x _ _. runs column_x_runs; [lia|]. intros y _ _.
  runs cancel_resize_runs; [done|done|]. intros s1 _ [H1 Hl1].
  assert (Ha1 : active_column_idx s1 = i) by (destruct H1 as (_ & _ & Hg1); exact (f_equal g_active Hg1)).
  destruct (to_col s _ s1 i (gcol c) H1) as (c1 & Hc1 & Hgc1); [by rewrite grid_lookup, Hc|].
  pose proof (space_length_data s1 (to_mid _ _ _ H1)) as Hld1.
  destruct (lookup_lt_is_Some_2 (data s1) i) as [w Hw]; [lia|].
  assert (Hld' : forall A (l : list A) x, l !! i = Some x -> length (delete i l) = length l - 1) by (intros A l z Hz; apply length_delete; by eexists).
  step (vec_remove_ok i c1); [done|]. cbv iota beta. step (vec_remove_ok i w); [done|]. cbv iota beta.
  step vec_insert_ok; [rewrite (Hld' _ _ _ Hc1); lia|]. step vec_insert_ok; [rewrite (Hld' _ _ _ Hw); lia|].
  pose proof (moved_columns_to s1 i k c1 w (to_ok _ _ _ H1) Hc1 Hw ltac:(lia)) as H2. set (s2 := set_data _ _) in *.
  assert (Hl2 : length (columns s2) = length (columns s)) by (unfold s2; cbn; rewrite length_insert_at; rewrite (Hld' _ _ _ Hc1); lia).
  pose proof (space_length_data s2 (to_mid _ _ _ H2)) as Hld2.
  runs column_x_runs; [lia|]. intros z _ _. set (s3 := set_view_offset _ s2).
  assert (H3 : to s2 (grid s2) s3) by (apply set_view_to; [apply (to_ok _ _ _ H2)|apply view_offset_ok, (to_mid _ _ _ H2)]).
  runs column_x_runs; [change (k <= length (data s2)); lia|]. intros u _ _.
  destruct (lookup_lt_is_Some_2 (columns s3) k) as [c3 Hc3]; [change (k < length (columns s2)); lia|].
  runs (update_column_runs k _ s3 c3 (to_ok _ _ _ H3) Hc3).
  { apply animate_move_runs; [apply (to_mid _ _ _ H3)|exact Hcv|by eapply space_col, Hc3; apply H3]. }
  intros s4 _ [H4 Hl4]. change (columns s3) with (columns s2) in Hl4.
  assert (Hmv : forall f c, col_ok (env s4) c -> runs (Column.animate_move_from cv f c) (fun c' => col_ok (env s4) c' /\ col_same c c')).
  { intros f c' Hc'. apply animate_move_runs; [apply (to_mid _ _ _ H4)|exact Hcv|done]. }
  eapply runs_bind with (R := cols_same s4).
  { apply runs_if; intros E; [apply Nat.ltb_lt in E|apply Nat.ltb_ge in E]; (apply on_range_runs; [apply (to_ok _ _ _ H4)|lia|lia|apply Hmv]). }
  intros cs _ HF. pose proof (cols_same_to s4 cs (to_ok _ _ _ H4) HF) as H5. set (s5 := set_columns cs s4) in *.
  assert (Hl5 : length (columns s5) = length (columns s)) by (cbn; rewrite <-(Forall2_length _ _ _ HF); lia).
  finish activate_column_with_runs; [exact Hcv|apply (to_mid _ _ _ H5)|apply (to_ok _ _ _ H5)|lia|apply movement_total, (to_mid _ _ _ H5)|].
  intros s6 _ (H6 & _). destruct H1 as (_ & ? & Hg1), H2 as (_ & ? & Hg2), H3 as (_ & ? & Hg3), H4 as (_ & ? & Hg4), H5 as (_ & ? & Hg5), H6 as (? & ? & Hg6).
  split_and!; [done|congruence|]. rewrite Hg6, Hg5, Hg4, Hg3, Hg2, Hg1, Hgc1. unfold g_activate, with_cols. cbn [g_active g_cols].
  change (g_active (grid s)) with i. by rewrite bool_decide_eq_false_2.
Qed.

(** ** Windows moving between columns *)
Lemma g_remove_cols i j col (g : Grid Id) :
  g_cols g !! i = Some col -> g_cols (g_remove i j g) = if bool_decide (length col.1 = 1) then delete i (g_cols g) else alter (col_delete j) i (g_cols g).
Proof.
  intros Hi. unfold g_remove. rewrite Hi. destruct (bool_decide _); [|done]. unfold g_remove_column.
  destruct (delete i (g_cols g)) as [|c0 l]; [done|]. destruct (i <? g_active g); [done|].
  assert (Ha : forall k (g' : Grid Id), g_cols (g_activate k g') = g_cols g') by (intros k g'; unfold g_activate; by case_bool_decide).
  destruct (_ && _); [by destruct (0 <? i)|apply Ha].
Qed.

Lemma g_windows_remove i j col x (g : Grid Id) :
  g_cols g !! i = Some col -> col.1 !! j = Some x -> g_windows g ≡ₚ x :: g_windows (g_remove i j g).
Proof.
  intros Hi Hj. unfold g_windows at 2. rewrite (g_remove_cols i j col g Hi). case_bool_decide as Hl.
  - rewrite (g_windows_delete i col g Hi). unfold g_windows. cbn [g_cols with_cols].
    destruct col as [[|y [|z l]] a]; try done. cbn in Hj |- *. by destruct j; [injection Hj as ->|].
  - apply (g_windows_shrink i j col x g Hi Hj).
Qed.

Lemma g_remove_fresh i j col x (g : Grid Id) :
  NoDup (g_windows g) -> g_cols g !! i = Some col -> col.1 !! j = Some x -> (x ∉ g_windows (g_remove i j g)).
Proof. intros Hnd Hi Hj. rewrite (g_windows_remove i j col x g Hi Hj) in Hnd. by apply NoDup_cons in Hnd as [? _]. Qed.

Lemma column_render_runs i s : space_pre s -> i < length (columns s) -> runs (column_render_x cv i s) (fun _ => True).
Proof.
  intros Hs Hi. unfold column_render_x. runs runs_index; [done|]. intros c _ Hc. apply move_offset_runs; [done|].
  apply (cm_base _ _ (Forall_lookup_1 _ _ _ _ (so_cols _ Hs) Hc)).
Qed.

Lemma animate_tile_runs i j f s c :
  space_ok s -> columns s !! i = Some c -> j < length (Column.tiles c) ->
  (forall t, tile_ok (options s) (view_size s) (scale s) t -> runs (f t) (kept (options s) (view_size s) (scale s) t)) ->
  runs (update_column i (Column.update_tile j f) s) (to s (grid s)).
Proof.
  intros Hs Hi Hj Hf. pose proof (space_col s i c Hs Hi) as Hc. finish (update_column_runs i _ s c Hs Hi).
  - finish (update_tile_runs (env s)); [apply Hc|done|exact Hf|]. intros c' _ Hk. by apply (kept_ok (env s)).
  - by intros s' _ [? _].
Qed.
Lemma animate_tile_from_runs i j off prev s c :
  space_ok s -> columns s !! i = Some c -> j < length (Column.tiles c) -> runs (animate_tile_from cv i j off prev s) (to s (grid s)).
Proof.
  intros Hs Hi Hj. unfold animate_tile_from. step index_ok; [done|]. pose proof (space_col s i c Hs Hi) as Hc.
  runs tile_offset_runs; [apply Hs|apply Hc|lia|]. intros p _ _. apply (animate_tile_runs i j _ s c); [done..|].
  intros t Ht. apply tile_animate_move_runs; [apply (so_env _ (proj1 (proj1 Hs)))|exact Hcv|done].
Qed.
Lemma last_tile_runs i s c : space_ok s -> columns s !! i = Some c -> runs (last_tile i s) (fun k => k < length (Column.tiles c)).
Proof.
  intros Hs Hi. unfold last_tile. step index_ok; [done|]. pose proof (cm_active _ _ (proj1 (space_col s i c Hs Hi))).
  rewrite usub_ok by lia. cbn. unfold runs. lia.
Qed.
Lemma tile_offset_in i j s c : space_ok s -> columns s !! i = Some c -> j <= length (Column.tiles c) -> runs (Column.tile_offset j c) (fun _ => True).
Proof. intros Hs Hi Hj. eapply tile_offset_runs; [apply Hs|apply (space_col s i c Hs Hi)|done]. Qed.

Lemma to_lookup s g s' i : to s g s' -> i < length (g_cols g) -> exists c, columns s' !! i = Some c.
Proof. intros H Hi. apply lookup_lt_is_Some_2. by rewrite (to_length _ _ _ H). Qed.
Lemma to_grid s g s' g' s'' : to s g s' -> to s' g' s'' -> g' = grid s' -> to s g s''.
Proof. intros (_ & ? & <-) (? & ? & ?) ->. split_and!; [done|congruence|done]. Qed.
Lemma config_some s : space_pre s -> config_ok (Some (window_movement (options s))).
Proof. intros Hs c [= <-]. by apply movement_total. Qed.

Lemma fresh_after s i j c t g s2 :
  space_ok s -> columns s !! i = Some c -> Column.tiles c !! j = Some t -> g_cols (grid s) = g_cols g -> to s (g_remove i j g) s2 ->
  (Tile.id t ∉ g_windows (grid s2)).
Proof.
  intros Hs Hi Hj Hg (_ & _ & ->). apply (g_remove_fresh i j (gcol c)).
  - unfold g_windows. rewrite <-Hg. apply (so_nodup _ (proj1 (proj1 Hs))).
  - by rewrite <-Hg, grid_lookup, Hi.
  - cbn. unfold ids. by rewrite list_lookup_fmap, Hj.
Qed.

Lemma g_add_to_length k jo x b (g : Grid Id) : length (g_cols (g_add_to k jo x b g)) = length (g_cols g).
Proof. unfold g_add_to. destruct b; [unfold g_activate; case_bool_decide; cbn [g_cols]|]; apply alter_length. Qed.
Lemma g_add_length k x b (g : Grid Id) : k <= length (g_cols g) -> length (g_cols (g_add (Some k) x b g)) = S (length (g_cols g)).
Proof. intros Hk. unfold g_add, g_add_column. destruct b; cbn; by apply length_insert_at. Qed.
Lemma g_remove_length i j col (g : Grid Id) :
  g_cols g !! i = Some col -> length (g_cols (g_remove i j g)) = if bool_decide (length col.1 = 1) then length (g_cols g) - 1 else length (g_cols g).
Proof.
  intros Hi. rewrite (g_remove_cols i j col g Hi). case_bool_decide; [apply length_delete; by eexists|apply length_alter].
Qed.

(** A tile taken from its place joins column [k]. *)
Lemma join_runs i j k jo tr config b s s1 c t :
  space_ok s -> columns s !! i = Some c -> Column.tiles c !! j = Some t -> config_ok config ->
  to s (with_prev (g_prev (grid s1)) (grid s)) s1 -> columns s1 = columns s ->
  k < length (g_cols (g_remove i j (grid s1))) -> (forall n, jo = Some n -> n <= col_len k (g_remove i j (grid s1))) ->
  runs (remove_tile_by_idx cv i j tr config s1) (fun '(r, s2) =>
    tile_incoming (rt_tile r) /\ Tile.id (rt_tile r) = Tile.id t /\ to s1 (g_remove i j (grid s1)) s2
    /\ runs (add_tile_to_column cv k jo (rt_tile r) b s2) (to s (g_add_to k jo (Tile.id t) b (g_remove i j (grid s1))))).
Proof.
  intros Hs Hi Hj Hconf H1 Hc1 Hk Hjo. pose proof (to_ok _ _ _ H1) as Hs1. rewrite <-Hc1 in Hi.
  finish remove_tile_runs; [exact Hcv|done|exact Hi|exact Hj|done|]. intros [r s2] _ (Hin & Hid & H2). split_and!; [done|done|done|].
  destruct (to_lookup _ _ _ k H2 Hk) as [c2 Hc2]. pose proof (fresh_after s1 i j c t _ s2 Hs1 Hi Hj eq_refl H2) as Hfr.
  finish add_tile_to_column_runs; [exact Hcv|apply (to_ok _ _ _ H2)|exact Hc2| |done|by rewrite Hid|].
  - intros n Hn. specialize (Hjo n Hn). destruct H2 as (_ & _ & Hg2). rewrite <-Hg2 in Hjo. by rewrite (col_len_ok _ _ _ Hc2) in Hjo.
  - intros s3 _ H3. rewrite Hid in H3. destruct H1 as (_ & He1 & _), H2 as (_ & He2 & Hg2), H3 as (? & He3 & Hg3).
    split_and!; [done|congruence|]. by rewrite Hg3, Hg2.
Qed.

(** ... or becomes a column of its own. *)
Lemma leave_runs i j k tr config config' b s c t :
  space_ok s -> columns s !! i = Some c -> Column.tiles c !! j = Some t -> config_ok config -> config_ok config' ->
  k <= length (g_cols (g_remove i j (grid s))) ->
  runs (remove_tile_by_idx cv i j tr config s) (fun '(r, s2) =>
    tile_incoming (rt_tile r) /\ Tile.id (rt_tile r) = Tile.id t /\ to s (g_remove i j (grid s)) s2
    /\ forall w f, runs (add_tile cv (Some k) (rt_tile r) b w f config' s2) (to s (g_add (Some k) (Tile.id t) b (g_remove i j (grid s))))).
Proof.
  intros Hs Hi Hj Hconf Hconf' Hk. finish remove_tile_runs; [exact Hcv|done|exact Hi|exact Hj|done|]. intros [r s2] _ (Hin & Hid & H2).
  split_and!; [done|done|done|]. intros w f. pose proof (fresh_after s i j c t _ s2 Hs Hi Hj eq_refl H2) as Hfr.
  finish add_tile_runs; [exact Hcv|apply (to_ok _ _ _ H2)|exact Hin|by rewrite Hid| |done|].
  - intros n [= <-]. by rewrite (to_length _ _ _ H2).
  - intros s3 _ H3. rewrite Hid in H3. destruct H2 as (_ & He2 & Hg2), H3 as (? & He3 & Hg3). split_and!; [done|congruence|]. by rewrite Hg3, Hg2.
Qed.

Lemma with_prev_same (g : Grid Id) : with_prev (g_prev g) g = g.
Proof. by destruct g. Qed.

(** After a tile arrived in column [i], it is animated. *)
Lemma arrive_last_runs s g i (F : f64 -> Point) prev s1 :
  to s g s1 -> i < length (g_cols g) ->
  runs (r ← column_render_x cv i s1; last ← last_tile i s1; animate_tile_from cv i last (F r) prev s1) (to s g).
Proof.
  intros H Hi. destruct (to_lookup _ _ _ i H Hi) as [c Hc]. runs column_render_runs; [apply (to_mid _ _ _ H)|by eapply lookup_lt_Some|].
  intros r _ _. runs last_tile_runs; [apply (to_ok _ _ _ H)|exact Hc|]. intros k _ Hk.
  finish animate_tile_from_runs; [apply (to_ok _ _ _ H)|exact Hc|done|]. intros s2 _ H2. by eapply to_grid; [exact H|exact H2|].
Qed.
Lemma arrive_runs s g i j off prev s1 :
  to s g s1 -> i < length (g_cols g) -> j = 0 -> runs (animate_tile_from cv i j off prev s1) (to s g).
Proof.
  intros H Hi ->. destruct (to_lookup _ _ _ i H Hi) as [c Hc]. pose proof (cm_active _ _ (proj1 (space_col s1 i c (to_ok _ _ _ H) Hc))).
  finish animate_tile_from_runs; [apply (to_ok _ _ _ H)|exact Hc|lia|]. intros s2 _ H2. by eapply to_grid; [exact H|exact H2|].
Qed.

Lemma consume_or_expel_left_runs window s :
  space_ok s -> source_ok window s ->
  runs (consume_or_expel_window_left cv window s) (to s (g_consume_or_expel_left window (grid s))).
Proof.
  intros Hs Hw. unfold consume_or_expel_window_left, g_consume_or_expel_left. apply runs_if; intros He.
  { returns. replace (g_source window (grid s)) with (@None (nat * nat)); [by apply to_refl|]. unfold is_empty in He.
    destruct (columns s) eqn:Ec; [|done]. unfold g_source, g_find, grid. rewrite Ec. by destruct window. }
  runs source_runs; [done|done|done|]. intros [i j] _ (Hsrc & c & t & Hc & Ht & _). rewrite Hsrc. step index_ok; [exact Hc|].
  pose proof (lookup_lt_Some _ _ _ Hc) as Hi. pose proof (lookup_lt_Some _ _ _ Ht) as Hj. pose proof (space_length_data s (proj1 (proj1 Hs))) as Hld.
  rewrite (g_at_ok i j s c t Hc Ht), (col_len_ok i s c Hc), (was_active_ok i j s c Hc).
  assert (Hgi : g_cols (grid s) !! i = Some (gcol c)) by (by rewrite grid_lookup, Hc).
  runs tile_offset_in; [done|exact Hc|lia|]. intros p _ _. set (b := bool_decide (active_column_idx s = i) && _).
  destruct (bool_decide (length (Column.tiles c) = 1)) eqn:El; [apply bool_decide_eq_true_1 in El|apply bool_decide_eq_false_1 in El].
  - apply runs_if; intros Ei; rewrite Ei; [by returns|]. apply bool_decide_eq_false_1 in Ei.
    eapply runs_bind with (R := fun _ => True).
    { apply runs_if; intros _.
      - runs column_x_runs; [lia|]. intros x _ _. runs column_x_runs; [lia|]. done.
      - runs runs_index; [lia|]. intros x _ _. runs runs_index; [lia|]. done. }
    intros off _ _. set (s1 := if b then set_activate_prev_column_on_removal _ s else s).
    assert (H1 : to s (if b then with_prev true (grid s) else grid s) s1 /\ columns s1 = columns s).
    { unfold s1. destruct b; [|by split; [apply to_refl|]]. split; [|done].
      match goal with |- to _ _ (set_activate_prev_column_on_removal ?v _) => pose proof (set_prev_to s v Hs) as H; destruct v eqn:Ev; [|done] end.
      exact H. }
    destruct H1 as [H1 Hc1]. assert (Hj0 : j = 0) by lia. subst j.
    runs column_render_runs; [apply (to_mid _ _ _ H1)|by rewrite Hc1|]. intros r _ _.
    assert (Hg1 : grid s1 = if b then with_prev true (grid s) else grid s) by apply H1.
    assert (Hcols1 : g_cols (grid s1) = g_cols (grid s)) by (rewrite Hg1; by destruct b).
    assert (Hlen : length (g_cols (g_remove i 0 (grid s1))) = length (columns s) - 1).
    { rewrite (g_remove_length i 0 (gcol c)) by (by rewrite Hcols1). cbn [fst gcol]. rewrite length_ids, bool_decide_eq_true_2 by done.
      by rewrite Hcols1, grid_length. }
    runs (join_runs i 0 (i - 1) None new_transaction (Some (window_movement (options s1))) b s s1 c t); [done|done|done|apply config_some, (to_mid _ _ _ H1)| |done|lia|done|].
    { destruct H1 as (? & ? & ?). split_and!; [done|done|]. rewrite Hg1. destruct b; [done|by rewrite with_prev_same]. }
    intros [rm s2] _ (_ & _ & _ & Hadd). runs Hadd. intros s3 _ H3. rewrite <-Hg1.
    apply (arrive_last_runs s _ (i - 1) (fun r' => ((off + r - r')%F, f0))); [exact H3|]. rewrite g_add_to_length. lia.
  - runs column_render_runs; [apply Hs|done|]. intros r _ _.
    assert (Hlen : length (g_cols (g_remove i j (grid s))) = length (columns s)).
    { rewrite (g_remove_length i j (gcol c)) by done. cbn [fst gcol]. rewrite length_ids, bool_decide_eq_false_2 by done. apply grid_length. }
    runs (leave_runs i j i new_transaction None (Some (window_movement (options s))) b s c t); [done|done|done|done|apply config_some, Hs|lia|].
    intros [rm s2] _ (_ & _ & H2 & Hadd). change (Some (window_movement (options s2))) with (Some (window_movement (e_options (env s2)))).
    rewrite (proj1 (proj2 H2)). runs Hadd. intros s3 _ H3. set (s4 := if b then _ else s3).
    set (g4 := if b then with_prev false _ else _).
    assert (H4 : to s g4 s4).
    { unfold s4, g4. destruct b; [|done]. pose proof (set_prev_to s3 None (to_ok _ _ _ H3)) as H. destruct H3 as (_ & ? & <-), H as (? & ? & ?).
      split_and!; [done|congruence|done]. }
    assert (Hl4 : length (g_cols g4) = S (length (columns s))) by (unfold g4; destruct b; cbn [g_cols with_prev]; rewrite g_add_length; lia).
    pose proof (space_length_data s4 (to_mid _ _ _ H4)) as Hld4. rewrite (to_length _ _ _ H4) in Hld4.
    eapply runs_bind with (R := fun _ => True).
    { apply runs_if; intros _; [|done]. runs column_x_runs; [lia|]. intros x _ _. runs column_x_runs; [lia|]. done. }
    intros off _ _. apply arrive_runs; [exact H4|lia|done].
Qed.

Lemma empty_source window s : is_empty s = true -> g_source window (grid s) = None.
Proof. unfold is_empty. intros He. destruct (columns s) eqn:Ec; [|done]. unfold g_source, g_find, grid. rewrite Ec. by destruct window. Qed.

Lemma consume_or_expel_right_runs window s :
  space_ok s -> source_ok window s ->
  runs (consume_or_expel_window_right cv window s) (to s (g_consume_or_expel_right window (grid s))).
Proof.
  intros Hs Hw. unfold consume_or_expel_window_right, g_consume_or_expel_right. apply runs_if; intros He.
  { returns. rewrite empty_source by done. by apply to_refl. }
  runs source_runs; [done|done|done|]. intros [i j] _ (Hsrc & c & t & Hc & Ht & _). rewrite Hsrc.
  pose proof (lookup_lt_Some _ _ _ Hc) as Hi. pose proof (lookup_lt_Some _ _ _ Ht) as Hj. pose proof (space_length_data s (proj1 (proj1 Hs))) as Hld.
  runs column_x_runs; [lia|]. intros cur _ _. step index_ok; [exact Hc|].
  rewrite (g_at_ok i j s c t Hc Ht), (col_len_ok i s c Hc), (was_active_ok i j s c Hc), grid_length.
  assert (Hgi : g_cols (grid s) !! i = Some (gcol c)) by (by rewrite grid_lookup, Hc).
  runs column_render_runs; [apply Hs|done|]. intros off _ _. runs tile_offset_in; [done|exact Hc|lia|]. intros p _ _.
  set (b := bool_decide (active_column_idx s = i) && _).
  destruct (bool_decide (length (Column.tiles c) = 1)) eqn:El; [apply bool_decide_eq_true_1 in El|apply bool_decide_eq_false_1 in El].
  - apply runs_if; intros Ei; rewrite Ei; [by returns|]. apply bool_decide_eq_false_1 in Ei.
    runs column_x_runs; [lia|]. intros x _ _. runs column_render_runs; [apply Hs|lia|]. intros r _ _.
    set (s1 := if b then set_activate_prev_column_on_removal _ s else s).
    assert (H1 : to s (if b then with_prev false (grid s) else grid s) s1 /\ columns s1 = columns s).
    { unfold s1. destruct b; [|by split; [apply to_refl|]]. split; [|done]. exact (set_prev_to s None Hs). }
    destruct H1 as [H1 Hc1]. assert (Hj0 : j = 0) by lia. subst j.
    assert (Hg1 : grid s1 = if b then with_prev false (grid s) else grid s) by apply H1.
    assert (Hcols1 : g_cols (grid s1) = g_cols (grid s)) by (rewrite Hg1; by destruct b).
    assert (Hlen : length (g_cols (g_remove i 0 (grid s1))) = length (columns s) - 1).
    { rewrite (g_remove_length i 0 (gcol c)) by (by rewrite Hcols1). cbn [fst gcol]. rewrite length_ids, bool_decide_eq_true_2 by done.
      by rewrite Hcols1, grid_length. }
    runs (join_runs i 0 i None new_transaction (Some (window_movement (options s1))) b s s1 c t); [done|done|done|apply config_some, (to_mid _ _ _ H1)| |done|lia|done|].
    { destruct H1 as (? & ? & ?). split_and!; [done|done|]. rewrite Hg1. destruct b; [done|by rewrite with_prev_same]. }
    intros [rm s2] _ (_ & _ & _ & Hadd). runs Hadd. intros s3 _ H3. rewrite <-Hg1.
    destruct (to_lookup _ _ _ i H3) as [c3 Hc3]; [rewrite g_add_to_length; lia|].
    runs last_tile_runs; [apply (to_ok _ _ _ H3)|exact Hc3|]. intros k _ Hk.
    finish animate_tile_from_runs; [apply (to_ok _ _ _ H3)|exact Hc3|done|]. intros s4 _ H4. by eapply to_grid; [exact H3|exact H4|].
  - runs runs_index; [lia|]. intros pw _ _.
    assert (Hlen : length (g_cols (g_remove i j (grid s))) = length (columns s)).
    { rewrite (g_remove_length i j (gcol c)) by done. cbn [fst gcol]. rewrite length_ids, bool_decide_eq_false_2 by done. apply grid_length. }
    runs (leave_runs i j (i + 1) new_transaction None (Some (window_movement (options s))) b s c t); [done|done|done|done|apply config_some, Hs|lia|].
    intros [rm s2] _ (_ & _ & H2 & Hadd). change (Some (window_movement (options s2))) with (Some (window_movement (e_options (env s2)))).
    rewrite (proj1 (proj2 H2)). runs Hadd. intros s3 _ H3.
    assert (Hl3 : length (g_cols (g_add (Some (i + 1)) (Tile.id t) b (g_remove i j (grid s)))) = S (length (columns s))) by (rewrite g_add_length; lia).
    pose proof (space_length_data s3 (to_mid _ _ _ H3)) as Hld3. rewrite (to_length _ _ _ H3) in Hld3.
    eapply runs_bind with (R := fun _ => True).
    { apply runs_if; intros _; [runs column_x_runs; [lia|done]|runs runs_index; [lia|done]]. }
    intros d _ _. apply arrive_runs; [exact H3|lia|done].
Qed.

Lemma consume_runs s : space_ok s -> runs (consume_into_column cv s) (to s (g_consume (grid s))).
Proof.
  intros Hs. unfold consume_into_column, g_consume. change (g_active (grid s)) with (active_column_idx s). set (i := active_column_idx s).
  assert (Hnone : length (columns s) <= i + 1 -> to s match g_at (i + 1) 0 (grid s) with
    | Some y => g_add_to i None y false (g_remove (i + 1) 0 (grid s)) | None => grid s end s).
  { intros Hl. unfold g_at. rewrite grid_lookup, lookup_ge_None_2 by lia. by apply to_refl. }
  apply runs_if; intros E2; [apply Nat.ltb_lt in E2; returns; apply Hnone; lia|]. apply Nat.ltb_ge in E2.
  step usub_ok; [lia|]. pose proof (so_le _ (proj1 (proj1 Hs))) as Hle. fold i in Hle.
  apply runs_if; intros El; [apply bool_decide_eq_true_1 in El; returns; apply Hnone; lia|]. apply bool_decide_eq_false_1 in El.
  assert (Hi : i + 1 < length (columns s)).
  { destruct (proj2 (proj1 Hs)) as [H|[H _]]; [fold i in H; lia|rewrite H in E2; cbn in E2; lia]. }
  pose proof (space_length_data s (proj1 (proj1 Hs))) as Hld.
  runs column_x_runs; [lia|]. intros x _ _. runs column_render_runs; [apply Hs|lia|]. intros r _ _. runs column_x_runs; [lia|]. intros y _ _.
  destruct (lookup_lt_is_Some_2 (columns s) (i + 1)) as [c Hc]; [done|]. step index_ok; [done|].
  pose proof (cm_active _ _ (proj1 (space_col s _ c Hs Hc))) as Hact.
  destruct (lookup_lt_is_Some_2 (Column.tiles c) 0) as [t Ht]; [lia|]. rewrite (g_at_ok _ _ s c t Hc Ht).
  runs tile_offset_in; [done|exact Hc|lia|]. intros p _ _.
  assert (Hgi : g_cols (grid s) !! (i + 1) = Some (gcol c)) by (by rewrite grid_lookup, Hc).
  assert (Hlen : i < length (g_cols (g_remove (i + 1) 0 (grid s)))).
  { rewrite (g_remove_length _ _ _ _ Hgi), grid_length. case_bool_decide; lia. }
  runs (join_runs (i + 1) 0 i None new_transaction None false s s c t); [done|done|done|done| |done|done|done|].
  { rewrite with_prev_same. by apply to_refl. }
  intros [rm s2] _ (_ & _ & _ & Hadd). runs Hadd. intros s3 _ H3.
  destruct (to_lookup _ _ _ i H3) as [c3 Hc3]; [by rewrite g_add_to_length|].
  runs last_tile_runs; [apply (to_ok _ _ _ H3)|exact Hc3|]. intros k _ Hk. step index_ok; [exact Hc3|].
  runs tile_offset_in; [apply (to_ok _ _ _ H3)|exact Hc3|lia|]. intros q _ _.
  runs column_render_runs; [apply (to_mid _ _ _ H3)|by eapply lookup_lt_Some|]. intros r' _ _. destruct (pair_add _ _) as [dx dy].
  finish (animate_tile_runs i k _ s3 c3); [apply (to_ok _ _ _ H3)|done|done| |].
  - intros t' Ht'. apply tile_animate_move_runs; [apply (so_env _ (to_mid _ _ _ H3))|exact Hcv|done].
  - intros s4 _ H4. by eapply to_grid; [exact H3|exact H4|].
Qed.

Lemma expel_runs s : space_ok s -> runs (expel_from_column cv s) (to s (g_expel (grid s))).
Proof.
  intros Hs. unfold expel_from_column, g_expel. change (g_active (grid s)) with (active_column_idx s). set (i := active_column_idx s).
  apply runs_if; intros He.
  { returns. unfold g_at. rewrite grid_lookup. unfold is_empty in He. destruct (columns s) eqn:Ec; [|done]. by apply to_refl. }
  pose proof (space_length_data s (proj1 (proj1 Hs))) as Hld. destruct (active_ok_lookup s Hs He) as [c Hc]. fold i in Hc.
  pose proof (lookup_lt_Some _ _ _ Hc) as Hi. runs column_x_runs; [lia|]. intros cur _ _. unfold active_column. step index_ok; [exact Hc|].
  rewrite (col_len_ok i s c Hc). pose proof (cm_active _ _ (proj1 (space_col s _ c Hs Hc))) as Hact.
  destruct (lookup_lt_is_Some_2 (Column.tiles c) (length (Column.tiles c) - 1)) as [t Ht]; [lia|]. rewrite (g_at_ok _ _ s c t Hc Ht).
  apply runs_if; intros El; rewrite El; [by returns|]. apply bool_decide_eq_false_1 in El. step usub_ok; [lia|].
  runs column_render_runs; [apply Hs|done|]. intros off _ _. runs tile_offset_in; [done|exact Hc|lia|]. intros p _ _.
  assert (Hgi : g_cols (grid s) !! i = Some (gcol c)) by (by rewrite grid_lookup, Hc).
  assert (Hlen : length (g_cols (g_remove i (length (Column.tiles c) - 1) (grid s))) = length (columns s)).
  { rewrite (g_remove_length _ _ _ _ Hgi). cbn [fst gcol]. rewrite length_ids, bool_decide_eq_false_2 by done. apply grid_length. }
  runs (leave_runs i (length (Column.tiles c) - 1) (i + 1) new_transaction None (Some (window_movement (options s))) false s c t);
    [done|done|done|done|apply config_some, Hs|lia|].
  intros [rm s2] _ (_ & _ & H2 & Hadd). change (Some (window_movement (options s2))) with (Some (window_movement (e_options (env s2)))).
  rewrite (proj1 (proj2 H2)). runs Hadd. intros s3 _ H3.
  assert (Hl3 : length (g_cols (g_add (Some (i + 1)) (Tile.id t) false (g_remove i (length (Column.tiles c) - 1) (grid s)))) = S (length (columns s)))
    by (rewrite g_add_length; lia).
  runs column_x_runs; [rewrite (space_length_data s3 (to_mid _ _ _ H3)), (to_length _ _ _ H3); lia|]. intros x _ _. apply arrive_runs; [exact H3|lia|done].
Qed.
End ops.
