(* ===== verification/ScrollingSwap.v ===== *)
(** * Operations of the scrolling layout: swapping windows *)

From stdpp Require Import base numbers option list.
From Stdlib Require Import ZArith Lia SpecFloat.
From S2P Require Import Prelude.
From S2P Require Import Runs.
From S2P Require Import F64.
From S2P Require Import Duration.
From S2P Require Import Clock.
From S2P Require Import Gesture.
From S2P Require Import Animation.
From S2P Require Import AnimTotal.
From S2P Require Import LayoutTypes.
From S2P Require Import F64Sign.
From S2P Require Import Tile.
From S2P Require Import TileInv.
From S2P Require Import Column.
From S2P Require Import ColumnInv.
From S2P Require Import ColumnOps.
From S2P Require Import Scrolling.
From S2P Require Import ScrollingSpec.
From S2P Require Import ScrollingInv.
From S2P Require Import ScrollingOps.
From S2P Require Import ScrollingTiles.
From S2P Require Import ScrollingRemove.
From S2P Require Import ScrollingMoves.
From S2P Require Import ScrollingConsume.

Section ops.
Context {LE : LayoutElement} {LEL : LayoutElementLaws} {GE : Geometry} {GL : GeometryLaws} {LM : Libm} {KF : Keyframe}.
Implicit Types (t : Tile.Tile) (c : Column.Column) (s : ScrollingSpace.ScrollingSpace).
Import ScrollingSpace.
Context (cv : ClockView) (Hcv : cv_ok cv).

(** ** Swapping windows with the neighbouring column *)
Lemma insert_delete_at {A} l (x y : A) ids : ids !! l = Some y -> delete (l + 1) (insert_at l x ids) = <[l := x]> ids.
Proof.
  revert ids. induction l as [|l IH]; intros [|z ids] H; try done. unfold insert_at in *. cbn in *. f_equal. by apply IH.
Qed.
Lemma delete_insert_at {A} j (x y : A) ids : ids !! j = Some y -> insert_at j x (delete j ids) = <[j := x]> ids.
Proof.
  revert ids. induction j as [|j IH]; intros [|z ids] H; try done; unfold insert_at in *; cbn in *. f_equal. by apply IH.
Qed.

Lemma swap_adjacent {A} i k (a b : A) l :
  l !! i = Some a -> l !! k = Some b -> S i = k \/ i = S k -> insert_at k a (delete i l) = <[k := a]> (<[i := b]> l).
Proof.
  revert i k. induction l as [|z l IH]; intros i k Hi Hk Hik; [done|]. unfold insert_at in *. destruct i as [|i], k as [|k]; try lia; cbn in *.
  - injection Hi as ->. assert (k = 0) as -> by lia. destruct l as [|w l]; [done|]. cbn in *. by injection Hk as ->.
  - injection Hk as ->. assert (i = 0) as -> by lia. destruct l as [|w l]; [done|]. cbn in *. by injection Hi as ->.
  - f_equal. apply IH; [done..|lia].
Qed.

Lemma tile_point_runs i j s c : space_ok s -> columns s !! i = Some c -> j <= length (Column.tiles c) -> runs (tile_point cv i j s) (fun _ => True).
Proof.
  intros Hs Hi Hj. unfold tile_point. pose proof (lookup_lt_Some _ _ _ Hi). pose proof (space_length_data s (proj1 (proj1 Hs))).
  runs column_render_runs; [exact Hcv|apply Hs|by rewrite ?Hld|]. intros r _ _. step index_ok; [done|]. runs tile_offset_in; [done|exact Hi|done|]. intros o _ _.
  runs column_x_runs; [lia|]. done.
Qed.

Lemma set_active_idx_runs i j s c :
  space_ok s -> columns s !! i = Some c -> j < length (Column.tiles c) ->
  runs (update_column i (fun c => mret (Column.set_active_tile_idx j c)) s) (to s (set_active_tile i j (grid s))).
Proof.
  intros Hs Hi Hj. apply (set_active_runs i _ j s c Hs Hi). returns. destruct (active_tile_ok (env s) c j); [by eapply space_col|done|by split_and!].
Qed.

(** The end of the operation, once the windows are in place: [x] at [l] in column
    [k], [y] at [j] in column [i]. *)
Lemma swap_end_runs s i j k l ci ck sp tp g :
  i <> k -> space_ok s -> g_cols (grid s) !! i = Some ci -> g_cols (grid s) !! k = Some ck -> j < length ci.1 -> l < length ck.1 ->
  g = set_active_tile k l (set_active_tile i j (grid s)) ->
  runs (s ← update_column i (fun c => mret (Column.set_active_tile_idx j c)) s;
        s ← update_column k (fun c => mret (Column.set_active_tile_idx l c)) s;
        s ← update_column k (Column.update_tile l (fun t =>
              t ← Tile.animate_move_from cv (pair_sub sp tp) t; mret (Tile.ensure_alpha_animates_to_1 t))) s;
        s ← update_column i (Column.update_tile j (fun t =>
              t ← Tile.animate_move_from cv (pair_sub tp sp) (Tile.stop_move_animations t);
              mret (Tile.ensure_alpha_animates_to_1 t))) s;
        activate_column cv k s)
    (to s (g_activate k g)).
Proof.
  intros Hik Hs Hi Hk Hj Hl ->.
  assert (Hcol : forall s n col, space_ok s -> g_cols (grid s) !! n = Some col -> exists c, columns s !! n = Some c /\ length (Column.tiles c) = length col.1).
  { intros s' n col Hs' Hn. rewrite grid_lookup in Hn. destruct (columns s' !! n) as [c|]; [|done]. injection Hn as <-. exists c. split; [done|].
    cbn. by rewrite length_ids. }
  destruct (Hcol s i ci Hs Hi) as (c0 & Hc0 & Hl0). runs set_active_idx_runs; [done|exact Hc0|lia|]. intros s1 _ H1.
  pose proof (to_ok _ _ _ H1) as Hs1. assert (Hg1 : grid s1 = set_active_tile i j (grid s)) by apply H1.
  assert (Hlk : forall n m a (g : Grid Id), g_cols (set_active_tile n a g) !! m = (if decide (n = m) then fun col : GCol Id => (col.1, a) else fun col => col) <$> g_cols g !! m).
  { intros n m a g. unfold set_active_tile, alter_col, with_cols. cbn [g_cols]. destruct (decide (n = m)) as [->|Hnm].
    - by rewrite list_lookup_alter_eq.
    - rewrite list_lookup_alter_ne by done. by destruct (g_cols g !! m). }
  destruct (Hcol s1 k ck Hs1) as (c1 & Hc1 & Hl1); [rewrite Hg1, Hlk, decide_False, Hk by done; done|].
  runs set_active_idx_runs; [done|exact Hc1|lia|]. intros s2 _ H2. rewrite Hg1 in H2.
  pose proof (to_trans _ _ _ _ _ H1 H2) as H02. pose proof (to_ok _ _ _ H2) as Hs2. assert (Hg2 : grid s2 = set_active_tile k l (set_active_tile i j (grid s))) by apply H2.
  assert (Hk2 : g_cols (grid s2) !! k = Some (ck.1, l)) by (by rewrite Hg2, !Hlk, decide_True, decide_False, Hk by done).
  assert (Hi2 : g_cols (grid s2) !! i = Some (ci.1, j)) by (by rewrite Hg2, !Hlk, decide_False, decide_True, Hi by done).
  destruct (Hcol s2 k _ Hs2 Hk2) as (c2 & Hc2 & Hl2). cbn [fst] in Hl2.
  runs (animate_tile_runs k l _ s2 c2); [done|done|lia| |].
  { intros t Ht. runs tile_animate_move_runs; [apply (so_env _ (proj1 (proj1 Hs2)))|exact Hcv|exact Ht|]. intros t' _ Hk'. returns.
    eapply kept_trans; [exact Hk'|]. apply ensure_alpha_kept, Hk'. }
  intros s3 _ H3. pose proof (to_ok _ _ _ H3) as Hs3. assert (Hg3 : grid s3 = grid s2) by apply H3.
  rewrite <-Hg3 in Hi2. destruct (Hcol s3 i _ Hs3 Hi2) as (c3 & Hc3 & Hl3). cbn [fst] in Hl3.
  runs (animate_tile_runs i j _ s3 c3); [done|done|lia| |].
  { intros t Ht. pose proof (stop_move_kept _ _ _ t Ht) as Hst.
    runs tile_animate_move_runs; [apply (so_env _ (proj1 (proj1 Hs3)))|exact Hcv|apply Hst|]. intros t' _ Hk'. returns.
    eapply kept_trans; [exact Hst|]. eapply kept_trans; [exact Hk'|]. apply ensure_alpha_kept, Hk'. }
  intros s4 _ H4. pose proof (to_ok _ _ _ H4) as Hs4. assert (Hg4 : grid s4 = grid s2) by (rewrite <-Hg3; apply H4).
  finish activate_to; [exact Hcv|done| |].
  { rewrite <-grid_length, Hg4. by eapply lookup_lt_Some. }
  intros s5 _ H5. rewrite <-Hg2, <-Hg4. eapply to_trans; [|exact H5].
  eapply to_trans; [exact H02|]. eapply to_trans; [exact H3|]. exact H4.
Qed.

(** ** The windows change columns *)
Lemma alter_other i k f (g : Grid Id) : i <> k -> g_cols (alter_col i f g) !! k = g_cols g !! k.
Proof. intros H. unfold alter_col, with_cols. cbn [g_cols]. by apply list_lookup_alter_ne. Qed.
Lemma g_remove_shared i j col (g : Grid Id) : g_cols g !! i = Some col -> length col.1 <> 1 -> g_remove i j g = alter_col i (col_delete j) g.
Proof. intros Hi Hl. unfold g_remove. by rewrite Hi, bool_decide_eq_false_2. Qed.
Lemma g_add_to_at i j x (g : Grid Id) : g_add_to i (Some j) x false g = alter_col i (col_insert j x false) g.
Proof. done. Qed.

(** What column [k] holds while [x] took the place of its window [l]. *)
Lemma replace_at l (x y : Id) ids a :
  ids !! l = Some y -> (col_delete (l + 1) (col_insert l x false (ids, a))).1 = <[l := x]> ids
    /\ (insert_at l x ids) !! (l + 1) = Some y /\ length (insert_at l x ids) = S (length ids).
Proof.
  intros Hl. pose proof (lookup_lt_Some _ _ _ Hl). unfold col_delete, col_insert. cbn [fst]. split_and!.
  - by eapply insert_delete_at.
  - rewrite Nat.add_1_r, lookup_insert_at_gt; [done|lia|lia].
  - apply length_insert_at. lia.
Qed.

Definition swapped_cols i k (x y : Id) (g : Grid Id) : list (GCol Id) := alter (col_replace x) k (alter (col_replace y) i (g_cols g)).

Lemma swap_shared i k ci ck x y (g : Grid Id) :
  i <> k -> g_cols g !! i = Some ci -> g_cols g !! k = Some ck -> length ci.1 <> 1 -> ci.1 !! ci.2 = Some x -> ck.1 !! ck.2 = Some y ->
  let g3 := g_remove k (ck.2 + 1) (g_add_to k (Some ck.2) x false (g_remove i ci.2 g)) in
  let g4 := g_add_to i (Some ci.2) y false g3 in
  g_cols (set_active_tile k ck.2 (set_active_tile i ci.2 g4)) = swapped_cols i k x y g /\ g_active g4 = g_active g
    /\ length (g_cols g3) = length (g_cols g) /\ g_cols g3 !! i = Some (col_delete ci.2 ci)
    /\ g_cols g4 !! i = Some (col_insert ci.2 y false (col_delete ci.2 ci))
    /\ g_cols g4 !! k = Some (col_delete (ck.2 + 1) (col_insert ck.2 x false ck)).
Proof.
  intros Hik Hi Hk Hl Hx Hy g3 g4. destruct ci as [idsI j], ck as [idsK l]. cbn [fst snd] in *.
  pose proof (replace_at l x y idsK l Hy) as (Hr & _ & Hlen).
  assert (Hg3 : g3 = alter_col k (col_delete (l + 1)) (alter_col k (col_insert l x false) (alter_col i (col_delete j) g))).
  { unfold g3. rewrite (g_remove_shared i j (idsI, j) g Hi Hl), g_add_to_at. eapply g_remove_shared.
    - by rewrite alter_lookup, alter_other, Hk by done.
    - cbn. rewrite Hlen. apply lookup_lt_Some in Hy. lia. }
  assert (H3i : g_cols g3 !! i = Some (col_delete j (idsI, j))) by (by rewrite Hg3, (alter_other k i), (alter_other k i), alter_lookup, Hi by done).
  assert (H3k : g_cols g3 !! k = Some (col_delete (l + 1) (col_insert l x false (idsK, l)))) by (by rewrite Hg3, !alter_lookup, (alter_other i k), Hk by done).
  assert (H4i : g_cols g4 !! i = Some (col_insert j y false (col_delete j (idsI, j)))) by (unfold g4; by rewrite g_add_to_at, alter_lookup, H3i).
  assert (H4k : g_cols g4 !! k = Some (col_delete (l + 1) (col_insert l x false (idsK, l)))) by (unfold g4; by rewrite g_add_to_at, (alter_other i k) by done).
  split_and!; [|unfold g4; by rewrite Hg3|by rewrite Hg3, !alter_length|done..].
  apply list_eq. intros m. unfold set_active_tile, swapped_cols. destruct (decide (m = k)) as [->|Hmk]; [|destruct (decide (m = i)) as [->|Hmi]].
  - rewrite alter_lookup, (alter_other i k), H4k, list_lookup_alter_eq, list_lookup_alter_ne, Hk by done. cbn [fmap option_fmap option_map].
    unfold col_replace. cbn [fst snd]. by rewrite Hr.
  - rewrite (alter_other k i), alter_lookup, H4i, list_lookup_alter_ne, list_lookup_alter_eq, Hi by done. cbn [fmap option_fmap option_map].
    unfold col_replace, col_insert, col_delete. cbn [fst snd]. by rewrite (delete_insert_at j y x).
  - rewrite !alter_other by done. unfold g4. rewrite g_add_to_at, Hg3, !alter_other by done. by rewrite !list_lookup_alter_ne.
Qed.

(** The place of column [k] while its neighbour [i] is gone. *)
Definition beside (i k : nat) : nat := if (k <? i)%nat then k else k - 1.
Lemma beside_lookup {A} i k (l : list A) : i <> k -> i < length l -> delete i l !! beside i k = l !! k.
Proof.
  intros Hik Hi. unfold beside. destruct (Nat.ltb_spec k i) as [H|H]; [by rewrite lookup_delete_at_lt|].
  rewrite lookup_delete_at_ge by lia. f_equal. lia.
Qed.

Lemma swap_drained i k ci ck x y (g : Grid Id) :
  S i = k \/ i = S k -> g_cols g !! i = Some ci -> g_cols g !! k = Some ck -> ci.1 = [x] -> ci.2 = 0 -> ck.1 !! ck.2 = Some y ->
  let k' := beside i k in
  let g3 := g_remove k' (ck.2 + 1) (g_add_to k' (Some ck.2) x false (g_remove i 0 g)) in
  let g4 := g_add (Some i) y true g3 in
  g_cols (set_active_tile k ck.2 (set_active_tile i 0 g4)) = swapped_cols i k x y g /\ g_active g4 = i
    /\ length (g_cols g3) = length (g_cols g) - 1 /\ g_cols (g_remove i 0 g) !! k' = Some ck
    /\ g_cols g4 !! i = Some ([y], 0) /\ g_cols g4 !! k = Some (col_delete (ck.2 + 1) (col_insert ck.2 x false ck)).
Proof.
  intros Hik Hi Hk Hx Hj Hy k' g3 g4. destruct ci as [idsI j], ck as [idsK l]. cbn [fst snd] in *. subst idsI j.
  assert (Hne : i <> k) by lia. pose proof (lookup_lt_Some _ _ _ Hi) as Hil. pose proof (lookup_lt_Some _ _ _ Hk) as Hkl.
  pose proof (replace_at l x y idsK l Hy) as (Hr & _ & Hlen).
  assert (H1 : g_cols (g_remove i 0 g) = delete i (g_cols g)) by (by rewrite (g_remove_cols i 0 _ g Hi), bool_decide_eq_true_2).
  assert (H1k : g_cols (g_remove i 0 g) !! k' = Some (idsK, l)) by (unfold k'; by rewrite H1, beside_lookup).
  set (F := fun c : GCol Id => col_delete (l + 1) (col_insert l x false c)).
  assert (Hg3 : g3 = alter_col k' (col_delete (l + 1)) (alter_col k' (col_insert l x false) (g_remove i 0 g))).
  { unfold g3. rewrite g_add_to_at. eapply g_remove_shared.
    - by rewrite alter_lookup, H1k.
    - cbn. rewrite Hlen. apply lookup_lt_Some in Hy. lia. }
  assert (H3 : g_cols g3 = alter F k' (delete i (g_cols g))).
  { rewrite Hg3. unfold alter_col, with_cols. cbn [g_cols]. by rewrite list_alter_alter_eq, H1. }
  assert (Hl3 : length (g_cols g3) = length (g_cols g) - 1) by (rewrite H3, length_alter; apply length_delete; by eexists).
  assert (H4 : g_cols g4 = insert_at i ([y], 0) (g_cols g3)) by done.
  assert (H4i : g_cols g4 !! i = Some ([y], 0)) by (rewrite H4; apply lookup_insert_at_eq; lia).
  assert (H4m : forall m, m <> i -> g_cols g4 !! m = (if decide (m = k) then F else fun c : GCol Id => c) <$> g_cols g !! m).
  { intros m Hm. transitivity (g_cols g3 !! beside i m).
    - rewrite H4. unfold beside. destruct (Nat.ltb_spec m i); [by apply lookup_insert_at_lt; lia|].
      destruct m as [|m]; [lia|]. rewrite lookup_insert_at_gt by lia. f_equal. lia.
    - rewrite H3. destruct (decide (m = k)) as [->|Hmk].
      + fold k'. rewrite list_lookup_alter_eq. unfold k'. by rewrite beside_lookup.
      + rewrite list_lookup_alter_ne, beside_lookup by (try done; unfold k', beside; destruct (Nat.ltb_spec k i), (Nat.ltb_spec m i); lia).
        by destruct (g_cols g !! m). }
  assert (H4k : g_cols g4 !! k = Some (F (idsK, l))) by (rewrite H4m, decide_True, Hk by done; done).
  split_and!; [|done..]. apply list_eq. intros m. unfold set_active_tile, swapped_cols.
  destruct (decide (m = k)) as [->|Hmk]; [|destruct (decide (m = i)) as [->|Hmi]].
  - rewrite alter_lookup, (alter_other i k), H4k, list_lookup_alter_eq, list_lookup_alter_ne, Hk by done. cbn [fmap option_fmap option_map].
    unfold col_replace. cbn [fst snd]. unfold F. by rewrite Hr.
  - rewrite (alter_other k i), alter_lookup, H4i, list_lookup_alter_ne, list_lookup_alter_eq, Hi by done. done.
  - rewrite !alter_other, H4m, decide_False, !list_lookup_alter_ne by done. by destruct (g_cols g !! m).
Qed.

(** ** The whole operation *)
Lemma active_of_ok i s c t :
  columns s !! i = Some c -> Column.tiles c !! Column.active_tile_idx c = Some t -> active_of i (grid s) = Some (Tile.id t).
Proof. intros Hi Ht. unfold active_of. rewrite grid_lookup, Hi. cbn. unfold ids. by rewrite list_lookup_fmap, Ht. Qed.
Lemma g_swap_neighbour (left : bool) k x y (g : Grid Id) :
  k = (if left then g_active g - 1 else g_active g + 1) -> g_active g <> k -> active_of (g_active g) g = Some x -> active_of k g = Some y ->
  g_swap left g = {| g_cols := swapped_cols (g_active g) k x y g; g_active := k; g_prev := false |}.
Proof. intros Hk Hne Hx Hy. unfold g_swap. by rewrite <-Hk, Hx, Hy, bool_decide_eq_false_2. Qed.

(** Two lone windows: the columns change places. *)
Lemma swap_lone k x y (g : Grid Id) :
  S (g_active g) = k \/ g_active g = S k -> g_cols g !! g_active g = Some ([x], 0) -> g_cols g !! k = Some ([y], 0) ->
  g_move_column_to k g = {| g_cols := swapped_cols (g_active g) k x y g; g_active := k; g_prev := false |}.
Proof.
  intros Hik Hi Hk. unfold g_move_column_to. rewrite Hi, bool_decide_eq_false_2 by lia. f_equal.
  rewrite (swap_adjacent (g_active g) k ([x], 0) ([y], 0)) by done. rewrite !insert_alter. unfold swapped_cols.
  apply list_eq. intros m. destruct (decide (m = k)) as [->|Hmk]; [|destruct (decide (m = g_active g)) as [->|Hmi]].
  - by rewrite !list_lookup_alter_eq, !list_lookup_alter_ne, Hk by lia.
  - by rewrite list_lookup_alter_ne, list_lookup_alter_eq, list_lookup_alter_ne, list_lookup_alter_eq, Hi by done.
  - by rewrite !list_lookup_alter_ne.
Qed.

(** The two windows change places, and the focus follows. *)
Lemma exchange_runs s i k ci ck tx ty sp tp w f :
  space_ok s -> active_column_idx s = i -> S i = k \/ i = S k -> columns s !! i = Some ci -> columns s !! k = Some ck ->
  Column.tiles ci !! Column.active_tile_idx ci = Some tx -> Column.tiles ck !! Column.active_tile_idx ck = Some ty ->
  let j := Column.active_tile_idx ci in let l := Column.active_tile_idx ck in
  let drained := bool_decide (length (Column.tiles ci) = 1%nat) in
  let k' := if drained then beside i k else k in
  runs ('(source_removed, s) ← remove_tile_by_idx cv i j new_transaction None s;
        s ← add_tile_to_column cv k' (Some l) (rt_tile source_removed) false s;
        '(target_removed, s) ← remove_tile_by_idx cv k' (l + 1) new_transaction None s;
        s ← (if drained then add_tile cv (Some i) (rt_tile target_removed) true (w source_removed) (f source_removed) None s
             else add_tile_to_column cv i (Some j) (rt_tile target_removed) false s);
        s ← update_column i (fun c => mret (Column.set_active_tile_idx j c)) s;
        s ← update_column k (fun c => mret (Column.set_active_tile_idx l c)) s;
        s ← update_column k (Column.update_tile l (fun t =>
              t ← Tile.animate_move_from cv (pair_sub sp tp) t; mret (Tile.ensure_alpha_animates_to_1 t))) s;
        s ← update_column i (Column.update_tile j (fun t =>
              t ← Tile.animate_move_from cv (pair_sub tp sp) (Tile.stop_move_animations t);
              mret (Tile.ensure_alpha_animates_to_1 t))) s;
        activate_column cv k s)
    (to s {| g_cols := swapped_cols i k (Tile.id tx) (Tile.id ty) (grid s); g_active := k; g_prev := false |}).
Proof.
  intros Hs Ha Hik Hci Hck Htx Hty j l drained k'.
  assert (Hgi : g_cols (grid s) !! i = Some (ids ci, j)) by (by rewrite grid_lookup, Hci).
  assert (Hgk : g_cols (grid s) !! k = Some (ids ck, l)) by (by rewrite grid_lookup, Hck).
  assert (Hx : ids ci !! j = Some (Tile.id tx)) by (unfold ids, j; by rewrite list_lookup_fmap, Htx).
  assert (Hy : ids ck !! l = Some (Tile.id ty)) by (unfold ids, l; by rewrite list_lookup_fmap, Hty).
  assert (Hne : i <> k) by lia. pose proof (replace_at l (Tile.id tx) (Tile.id ty) (ids ck) l Hy) as (_ & Hnext & Hlen).
  pose proof (lookup_lt_Some _ _ _ Hx) as Hjl. pose proof (lookup_lt_Some _ _ _ Hy) as Hll.
  assert (Hd : if drained then ids ci = [Tile.id tx] /\ j = 0 else length (ids ci) <> 1).
  { rewrite length_ids. unfold drained. case_bool_decide as El; [|done]. rewrite <-length_ids in El. destruct (ids ci) as [|z [|? ?]]; try done.
    destruct j; [|done]. by injection Hx as ->. }
  change (Column.tiles ci !! j = Some tx) in Htx. clearbody j l drained.
  (* the windows as the grid has them *)
  set (g1 := g_remove i j (grid s)). set (g2 := g_add_to k' (Some l) (Tile.id tx) false g1). set (g3 := g_remove k' (l + 1) g2).
  set (g4 := if drained then g_add (Some i) (Tile.id ty) true g3 else g_add_to i (Some j) (Tile.id ty) false g3).
  assert (H1k : g_cols g1 !! k' = Some (ids ck, l)).
  { unfold g1, k'. destruct drained; [destruct Hd as [Hd ->]|].
    - by apply (swap_drained i k _ _ (Tile.id tx) (Tile.id ty) (grid s) Hik Hgi Hgk).
    - rewrite (g_remove_shared i j _ _ Hgi Hd). by rewrite alter_other. }
  assert (H2k : g_cols g2 !! k' = Some (insert_at l (Tile.id tx) (ids ck), l + 1)).
  { unfold g2. rewrite g_add_to_at, alter_lookup, H1k. cbn. unfold col_insert. cbn [fst snd]. by rewrite Nat.leb_refl. }
  assert (H4 : g_cols (set_active_tile k l (set_active_tile i j g4)) = swapped_cols i k (Tile.id tx) (Tile.id ty) (grid s) /\ g_active g4 = i
    /\ i <= length (g_cols g3) /\ (drained = false -> i < length (g_cols g3) /\ j <= col_len i g3) /\ (exists col, g_cols g4 !! i = Some col /\ j < length col.1)
    /\ (exists col, g_cols g4 !! k = Some col /\ l < length col.1)).
  { assert (Hil : i < length (g_cols (grid s))) by by eapply lookup_lt_Some.
    assert (Hkc : l < length (col_delete (l + 1) (col_insert l (Tile.id tx) false (ids ck, l))).1).
    { rewrite (proj1 (replace_at l (Tile.id tx) (Tile.id ty) (ids ck) l Hy)), length_insert. done. }
    unfold g4, g3, g2, g1, k'. clear g4 g3 g2 g1 H1k H2k k'. destruct drained; [destruct Hd as [Hd Hj0]; rewrite Hj0 in *|].
    - destruct (swap_drained i k _ _ (Tile.id tx) (Tile.id ty) (grid s) Hik Hgi Hgk Hd eq_refl Hy) as (E & Ea & El & _ & Ei & Ek).
      cbn [fst snd] in *. split_and!; [exact E|exact Ea|lia|done|eexists; split; [exact Ei|cbn; lia]|eexists; split; [exact Ek|exact Hkc]].
    - destruct (swap_shared i k _ _ (Tile.id tx) (Tile.id ty) (grid s) Hne Hgi Hgk Hd Hx Hy) as (E & Ea & El & E3 & Ei & Ek).
      cbn [fst snd] in *. assert (Hdl : j <= length (col_delete j (ids ci, j)).1) by (cbn; rewrite length_delete by (by eexists); lia).
      split_and!; [exact E|by rewrite Ea|lia| |eexists; split; [exact Ei|]|eexists; split; [exact Ek|exact Hkc]].
      + intros _. split; [lia|]. unfold col_len. by rewrite E3.
      + cbn [fst col_insert]. rewrite length_insert_at by done. lia. }
  destruct H4 as (Hcols & Ha4 & Hil3 & Hsh & (ci4 & Hi4 & Hj4) & (ck4 & Hk4 & Hl4)).
  (* the operation *)
  runs (join_runs cv Hcv i j k' (Some l) new_transaction None false s s ci tx); [done|done|done|done| |done|by eapply lookup_lt_Some| |].
  { rewrite with_prev_same. by apply to_refl. }
  { intros n [= <-]. fold g1. unfold col_len. rewrite H1k. cbn [fst]. lia. }
  intros [r s1] _ (_ & _ & _ & Hadd). runs Hadd. fold g1 g2. intros s2 _ H2. pose proof (to_ok _ _ _ H2) as Hs2.
  assert (Hg2 : grid s2 = g2) by apply H2.
  destruct (to_col _ _ _ k' _ H2 H2k) as (c2 & Hc2 & Hgc2). injection Hgc2 as Hids2 Hact2.
  assert (exists t2, Column.tiles c2 !! (l + 1) = Some t2 /\ Tile.id t2 = Tile.id ty) as (t2 & Ht2 & Hid2).
  { rewrite <-Hids2 in Hnext. unfold ids in Hnext. rewrite list_lookup_fmap in Hnext. destruct (Column.tiles c2 !! (l + 1)) as [t2|]; [|done].
    injection Hnext as ?. by exists t2. }
  assert (Hrem : runs (remove_tile_by_idx cv k' (l + 1) new_transaction None s2) (fun '(r2, s3) =>
    runs (if drained then add_tile cv (Some i) (rt_tile r2) true (w r) (f r) None s3 else add_tile_to_column cv i (Some j) (rt_tile r2) false s3) (to s g4))).
  { destruct drained.
    - finish (leave_runs cv Hcv k' (l + 1) i new_transaction None None true s2 c2 t2); [done|done|done|done|done|by rewrite Hg2|].
      intros [r2 s3] _ (_ & _ & _ & Hadd3). finish Hadd3. intros s4 _ H4. rewrite Hid2, Hg2 in H4. eapply to_trans; [exact H2|exact H4].
    - finish (join_runs cv Hcv k' (l + 1) i (Some j) new_transaction None false s2 s2 c2 t2); [done|done|done|done| |done|by rewrite Hg2; apply Hsh| |].
      { rewrite with_prev_same. by apply to_refl. }
      { intros n [= <-]. rewrite Hg2. by apply Hsh. }
      intros [r2 s3] _ (_ & _ & _ & Hadd3). finish Hadd3. intros s4 _ H4. rewrite Hid2, Hg2 in H4. eapply to_trans; [exact H2|exact H4]. }
  runs Hrem. intros [r2 s3] _ H23. runs H23.
  intros s4 _ H4. assert (Hg4 : grid s4 = g4) by apply H4. rewrite <-Hg4 in Hi4, Hk4.
  finish (swap_end_runs s4 i j k l ci4 ck4 sp tp); [done|apply (to_ok _ _ _ H4)|done..|].
  intros s5 _ H5. rewrite Hg4 in H5. unfold g_activate in H5.
  change (g_active (set_active_tile k l (set_active_tile i j g4))) with (g_active g4) in H5. rewrite Ha4, bool_decide_eq_false_2 in H5 by done.
  rewrite Hcols in H5. by eapply to_trans.
Qed.

Definition is_left (d : ScrollDirection) : bool := match d with DirLeft => true | DirRight => false end.

Lemma swap_runs d s : space_ok s -> runs (swap_window_in_direction cv d s) (to s (g_swap (is_left d) (grid s))).
Proof.
  intros Hs. unfold swap_window_in_direction. pose proof (to_refl s Hs) as Hrefl.
  assert (Hnone : forall i k, i = active_column_idx s -> k = (if is_left d then i - 1 else i + 1) ->
    i = k \/ columns s !! i = None \/ columns s !! k = None -> to s (g_swap (is_left d) (grid s)) s).
  { intros i k -> Hk H. unfold g_swap. change (g_active (grid s)) with (active_column_idx s). rewrite <-Hk.
    destruct (active_of _ _) eqn:Ex; [|done]. destruct (active_of k _) eqn:Ey; [|done]. unfold active_of in Ex, Ey. rewrite grid_lookup in Ex, Ey.
    destruct H as [H|[H|H]]; [by rewrite bool_decide_eq_true_2|by rewrite H in Ex|by rewrite H in Ey]. }
  apply runs_if; intros He.
  { returns. eapply Hnone; [done|done|]. right. left. unfold is_empty in He. by destruct (columns s). }
  pose proof (nonempty_length s He) as Hlen. step usub_ok; [lia|]. destruct (active_ok_lookup s Hs He) as [ci Hci].
  pose proof (lookup_lt_Some _ _ _ Hci) as Hi. set (i := active_column_idx s) in *.
  apply runs_if; intros Ed; [apply bool_decide_eq_true_1 in Ed; returns|apply bool_decide_eq_false_1 in Ed].
  { eapply Hnone; [done|done|]. destruct d; cbn [is_left]; [left; lia|right; right]. apply lookup_ge_None. lia. }
  set (k := match d with DirLeft => i - 1 | DirRight => i + 1 end).
  assert (Hk : k = if is_left d then i - 1 else i + 1) by by destruct d.
  assert (Hik : (S i = k \/ i = S k) /\ k < length (columns s)) by (unfold k; destruct d; lia). destruct Hik as [Hik Hkl].
  step index_ok; [exact Hci|]. destruct (lookup_lt_is_Some_2 _ _ Hkl) as [ck Hck]. step index_ok; [exact Hck|].
  pose proof (cm_active _ _ (proj1 (space_col s i ci Hs Hci))) as Hj. pose proof (cm_active _ _ (proj1 (space_col s k ck Hs Hck))) as Hl.
  destruct (lookup_lt_is_Some_2 _ _ Hj) as [tx Htx]. destruct (lookup_lt_is_Some_2 _ _ Hl) as [ty Hty].
  assert (Hg : g_swap (is_left d) (grid s) = {| g_cols := swapped_cols i k (Tile.id tx) (Tile.id ty) (grid s); g_active := k; g_prev := false |}).
  { apply (g_swap_neighbour (is_left d) k); [done|change (i <> k); lia|by apply (active_of_ok i s ci)|by apply (active_of_ok k s ck)]. }
  rewrite Hg. apply runs_if; intros E1.
  { apply andb_true_iff in E1 as [E1%bool_decide_eq_true_1 E2%bool_decide_eq_true_1].
    assert (Hlone : forall n c t, columns s !! n = Some c -> Column.tiles c !! Column.active_tile_idx c = Some t -> length (Column.tiles c) = 1 ->
      g_cols (grid s) !! n = Some ([Tile.id t], 0)).
    { intros n c t Hn Ht Hc. rewrite grid_lookup, Hn. cbn. unfold gcol, ids. pose proof (lookup_lt_Some _ _ _ Ht).
      destruct (Column.tiles c) as [|t' [|? ?]]; try done. destruct (Column.active_tile_idx c); [|cbn in *; lia]. by injection Ht as ->. }
    finish move_column_to_runs; [exact Hcv|done|by rewrite He|done|]. intros s' _ H.
    rewrite (swap_lone k (Tile.id tx) (Tile.id ty)) in H; [done|done|by eapply Hlone|by eapply Hlone]. }
  runs (tile_point_runs i); [done|exact Hci|lia|]. intros sp _ _. runs (tile_point_runs k); [done|exact Hck|lia|]. intros tp _ _.
  assert (Hk' : (match d, bool_decide (length (Column.tiles ci) = 1) with DirRight, true => usub k 1 | _, _ => mret k end)
    = Ok (if bool_decide (length (Column.tiles ci) = 1) then beside i k else k)).
  { destruct (bool_decide _); [|by destruct d]. unfold beside. destruct d; cbn in Hk.
    - by rewrite (proj2 (Nat.ltb_lt k i)) by lia.
    - rewrite (proj2 (Nat.ltb_ge k i)), usub_ok by lia. done. }
  rewrite Hk'. cbn [mbind res_bind].
  exact (exchange_runs s i k ci ck tx ty sp tp (@rt_width _) (@rt_is_full_width _) Hs eq_refl Hik Hci Hck Htx Hty).
Qed.
End ops.
