(* ===== verification/ScrollingModes.v ===== *)
(** * Operations of the scrolling layout: fullscreen, maximized, tabs, sizes and centering *)

From stdpp Require Import base numbers option list.
From Stdlib Require Import ZArith Lia SpecFloat.
From S2P Require Import Prelude.
From S2P Require Import Runs.
From S2P Require Import F64.
From S2P Require Import Duration.
From S2P Require Import Clock.
From S2P Require Import Gesture.
From S2P Require Import Animation.
From S2P Require Import AnimTotal.
From S2P Require Import LayoutTypes.
From S2P Require Import F64Sign.
From S2P Require Import Tile.
From S2P Require Import TileInv.
From S2P Require Import Column.
From S2P Require Import ColumnInv.
From S2P Require Import ColumnOps.
From S2P Require Import Scrolling.
From S2P Require Import ScrollingSpec.

From S2P Require Import ScrollingInv.
From S2P Require Import ScrollingOps.
From S2P Require Import ScrollingTiles.
From S2P Require Import ScrollingRemove.
From S2P Require Import ScrollingMoves.
From S2P Require Import ScrollingConsume.
From S2P Require Import ScrollingSwap.

Section ops.
Context {LE : LayoutElement} {LEL : LayoutElementLaws} {GE : Geometry} {GL : GeometryLaws} {LM : Libm} {KF : Keyframe}.
Implicit Types (t : Tile.Tile) (c : Column.Column) (s : ScrollingSpace.ScrollingSpace).
Import ScrollingSpace.
Context (cv : ClockView) (Hcv : cv_ok cv).

(** ** Fullscreen and maximized *)

(** A flag of a column and the operation that sets it. *)
Record flag_op (flag other : Column.Column -> bool) (set : bool -> Column.Column -> res Column.Column) : Prop := {
  fo_ok : forall E b c, col_ok E c -> (b = true -> length (Column.tiles c) = 1 \/ Column.tabbed c = true) ->
    runs (set b c) (fun c' => col_ok E c' /\ col_same c c' /\ flag c' = b);
  fo_off : forall E c, col_mid E c -> runs (set false c) (fun c' => col_mid E c' /\ col_same c c' /\ flag c' = false
    /\ other c' = other c /\ Column.tabbed c' = Column.tabbed c);
  fo_same : forall c ts, flag (Column.set_tiles ts c) = flag c /\ other (Column.set_tiles ts c) = other c
}.

Lemma fullscreen_op : flag_op Column.is_pending_fullscreen Column.is_pending_maximized Column.set_fullscreen.
Proof.
  split; [| |done].
  - intros E b c Hc Hb. finish (runs_and _ _ (fun c' => col_ok E c' /\ col_same c c')); [eapply set_fullscreen_mid_runs; [apply Hc|exact Hb]| |].
    + intros c' H. pose proof (set_fullscreen_runs E b c Hc Hb) as H2. by rewrite H in H2.
    + by intros c' _ [(_ & _ & ? & _) [? ?]].
  - intros E c Hc. finish set_fullscreen_mid_runs; [exact Hc|done|]. by intros c' _ (? & ? & ? & ? & ? & _).
Qed.
Lemma maximized_op : flag_op Column.is_pending_maximized Column.is_pending_fullscreen Column.set_maximized.
Proof.
  split; [| |done].
  - intros E b c Hc Hb. finish (runs_and _ _ (fun c' => col_ok E c' /\ col_same c c')); [eapply set_maximized_mid_runs; [apply Hc|exact Hb]| |].
    + intros c' H. pose proof (set_maximized_runs E b c Hc Hb) as H2. by rewrite H in H2.
    + by intros c' _ [(_ & _ & ? & _) [? ?]].
  - intros E c Hc. finish set_maximized_mid_runs; [exact Hc|done|]. by intros c' _ (? & ? & ? & ? & ? & _).
Qed.

(** An operation on a column, and what it achieves there. *)
Lemma update_column_post i f (P : Column.Column -> Prop) s c :
  space_ok s -> columns s !! i = Some c -> runs (f c) (fun c' => col_ok (env s) c' /\ col_same c c' /\ P c') ->
  runs (update_column i f s) (fun s' => to s (grid s) s' /\ exists c', columns s' !! i = Some c' /\ P c').
Proof.
  intros Hs Hi Hf. finish (runs_and _ _ (fun s' => exists c', columns s' !! i = Some c' /\ P c')); [apply (update_column_runs i f s c Hs Hi)| |].
  - finish Hf. by intros c' _ (? & ? & _).
  - intros s' H. unfold update_column in H. rewrite (index_ok i c) in H by done. cbn [mbind res_bind] in H.
    apply runs_ok in Hf as (c' & Hf & _ & _ & HP). rewrite Hf in H. cbn in H. injection H as <-. exists c'. split; [|done].
    cbn. apply list_lookup_insert_eq. by eapply lookup_lt_Some.
  - by intros s' _ [[? _] ?].
Qed.

(** The column of a window. *)
Definition in_column (x : Id) s (P : Column.Column -> Prop) : Prop := exists i c, columns s !! i = Some c /\ x ∈ ids c /\ P c.

Lemma ids_grid s s' i c c' : grid s' = grid s -> columns s !! i = Some c -> columns s' !! i = Some c' -> ids c' = ids c.
Proof.
  intros Hg Hi Hi'. pose proof (grid_lookup s i) as H. pose proof (grid_lookup s' i) as H'. rewrite Hg, H, Hi, Hi' in H'. by injection H'.
Qed.

(** The flag set on a column that can have it. *)
Lemma set_flag_runs flag other set b i x s c :
  flag_op flag other set -> space_ok s -> columns s !! i = Some c -> x ∈ ids c -> (b = true -> length (Column.tiles c) = 1 \/ Column.tabbed c = true) ->
  runs (s ← update_column i (set b) s; s ← update_data i s; mret (true, s)) (fun '(_, s') => to s (grid s) s' /\ in_column x s' (fun c => flag c = b)).
Proof.
  intros Hop Hs Hi Hx Hb. runs (update_column_post i (set b) (fun c => flag c = b)); [done|exact Hi| |].
  { apply (fo_ok _ _ _ Hop); [by eapply space_col|done]. }
  intros s1 _ (H1 & c1 & Hi1 & Hf). runs update_data_runs; [apply (to_ok _ _ _ H1)|by eapply lookup_lt_Some|]. intros s2 _ [H2 Hc2]. returns.
  split; [destruct H1 as (_ & ? & Hg1), H2 as (? & ? & Hg2); split_and!; [done|congruence|congruence]|].
  exists i, c1. split_and!; [by rewrite Hc2| |done]. by erewrite ids_grid; [|apply H1|exact Hi|exact Hi1].
Qed.

Lemma consumed_alone i j x (c : GCol Id) (g : Grid Id) :
  g_find x g = Some (i, j) -> g_cols g !! i = Some c -> c.1 !! j = Some x -> length c.1 <> 1 ->
  g_cols (g_consume_or_expel_right (Some x) g) !! (i + 1) = Some ([x], 0).
Proof.
  intros Hf Hi Hj Hl. unfold g_consume_or_expel_right, g_source. rewrite Hf. unfold g_at, col_len. rewrite Hi. cbn [mbind option_bind].
  rewrite Hj, bool_decide_eq_false_2 by done. unfold g_add, g_add_column. cbn [default].
  assert (Hlen : i + 1 <= length (g_cols (g_remove i j g))).
  { rewrite (g_remove_length i j c g Hi), bool_decide_eq_false_2 by done. apply lookup_lt_Some in Hi. lia. }
  by destruct (was_active i j g); cbn [g_cols]; apply lookup_insert_at_eq.
Qed.

(** A window is made fullscreen or maximized, alone in a column if need be. *)
Lemma set_pending_runs flag other set x b s :
  flag_op flag other set -> space_ok s -> x ∈ g_windows (grid s) ->
  runs (set_pending cv flag set x b s) (fun '(_, s') => in_column x s' (fun c => flag c = b)
    /\ (to s (grid s) s' \/ b = true /\ to s (g_consume_or_expel_right (Some x) (grid s)) s')).
Proof.
  intros Hop Hs Hx. destruct (find_ok x s Hx) as (i & c & j & t & Hf & Hc & Hp & Ht & Hid & Hgf). unfold set_pending.
  assert (Hxc : x ∈ ids c) by (rewrite <-Hid; apply list_elem_of_fmap; exists t; split; [done|by eapply list_elem_of_lookup_2]).
  pose proof (lookup_lt_Some _ _ _ Hc) as Hi. step unwrap_ok; [exact Hf|]. step index_ok; [exact Hc|]. apply runs_if; intros Eb.
  { apply Bool.eqb_prop in Eb. returns. split; [by exists i, c|left; by apply to_refl]. }
  unfold cancel_resize at 1. rewrite (index_ok i c) by done. cbn [mbind res_bind]. set (c1 := Column.set_tiles _ c). set (s1 := set_interactive_resize _ _).
  assert (H1 : to s (grid s) s1).
  { pose proof (cancel_resize_runs i s Hs Hi) as H. unfold cancel_resize in H. rewrite (index_ok i c) in H by done. apply H. }
  assert (Hc1 : columns s1 !! i = Some c1) by (by apply list_lookup_insert_eq).
  assert (Hids1 : ids c1 = ids c) by (eapply ids_grid; [apply H1|done|done]).
  assert (Hl1 : length (Column.tiles c1) = length (Column.tiles c)) by (by rewrite <-!length_ids, Hids1).
  change (Column.tabbed c) with (Column.tabbed c1). rewrite <-Hl1. unfold mret at 1, res_ret at 1. cbn [mbind res_bind].
  eapply runs_bind with (R := fun '(k, s2) => (exists c2, columns s2 !! k = Some c2 /\ x ∈ ids c2
      /\ (b = true -> length (Column.tiles c2) = 1 \/ Column.tabbed c2 = true))
    /\ (to s (grid s) s2 \/ b = true /\ to s (g_consume_or_expel_right (Some x) (grid s)) s2)).
  - apply runs_if; intros E.
    + apply andb_true_iff in E as [E E3%negb_true_iff]. apply andb_true_iff in E as [-> E2%Nat.ltb_lt].
      assert (Hg1 : grid s1 = grid s) by apply H1.
      runs consume_or_expel_right_runs; [exact Hcv|apply (to_ok _ _ _ H1)|intros ? [= <-]; by rewrite Hg1|]. intros s2 _ H2. returns. rewrite Hg1 in H2.
      destruct (to_col _ _ _ (i + 1) ([x], 0) H2) as (c2 & Hc2 & Hgc2).
      { apply (consumed_alone i j x (gcol c)); [done|by rewrite grid_lookup, Hc| |cbn; rewrite length_ids; lia].
        cbn. unfold ids. by rewrite list_lookup_fmap, Ht, <-Hid. }
      injection Hgc2 as Hids2 _. split.
      * exists c2. split_and!; [done|rewrite Hids2; left|]. intros _. left. by rewrite <-length_ids, Hids2.
      * right. split; [done|]. exact (to_trans _ _ _ _ _ H1 H2).
    + returns. split; [|by left]. exists c1. split_and!; [done|by rewrite Hids1|]. intros ->. cbn [andb] in E.
      apply andb_false_iff in E as [E%Nat.ltb_ge|E%negb_false_iff]; [left|by right].
      pose proof (cm_active _ _ (proj1 (space_col s i c Hs Hc))). lia.
  - intros [k s2] _ [(c2 & Hc2 & Hx2 & Hb2) Hto]. assert (Hs2 : space_ok s2) by (destruct Hto as [[? _]|(_ & ? & _)]; done).
    finish (set_flag_runs flag other set b k x s2 c2); [done..|]. intros [r s3] _ [H3 Hin]. split; [done|].
    destruct Hto as [H2|[-> H2]]; [left|right; split; [done|]]; (eapply to_grid; [exact H2|exact H3|done]).
Qed.

(** ** Tabs

    While the display of a column changes the column may be fullscreen with many
    tiles.  Until that is settled only this column, its cached width and the
    interactive resize are touched. *)
Definition edited i s c s' : Prop :=
  exists w rz, s' = set_interactive_resize rz (set_data (<[i := w]> (data s)) (set_columns (<[i := c]> (columns s)) s))
    /\ caches c w /\ (rz = None \/ rz = interactive_resize s).

Lemma edited_lookup i s c s' c0 : columns s !! i = Some c0 -> edited i s c s' -> columns s' !! i = Some c.
Proof. intros Hi (w & rz & -> & _). cbn. apply list_lookup_insert_eq. by eapply lookup_lt_Some. Qed.
Lemma edited_update i f s c s' c0 (Q : Column.Column -> Prop) :
  columns s !! i = Some c0 -> edited i s c s' -> runs (f c) (fun c' => (forall w, caches c w -> caches c' w) /\ Q c') ->
  runs (update_column i f s') (fun s2 => exists c', edited i s c' s2 /\ Q c').
Proof.
  intros Hi He Hf. pose proof (edited_lookup _ _ _ _ _ Hi He) as Hi'. destruct He as (w & rz & -> & Hw & Hrz). unfold update_column.
  step index_ok; [exact Hi'|]. runs Hf. intros c' _ [Hc HQ]. returns. exists c'. split; [|done]. exists w, rz. split_and!; [|by apply Hc|done].
  unfold set_interactive_resize, set_data, set_columns. cbn. by rewrite list_insert_insert_eq.
Qed.
Lemma edited_cancel i s c s' c0 : columns s !! i = Some c0 -> edited i s c s' -> env_ok (env s) -> col_mid (env s) c -> runs (cancel_resize i s') (edited i s (cancelled c)).
Proof.
  intros Hi He HE Hc. pose proof (edited_lookup _ _ _ _ _ Hi He) as Hi'. destruct He as (w & rz & -> & Hw & Hrz). unfold cancel_resize.
  step index_ok; [exact Hi'|]. returns. exists w. eexists. split_and!.
  - unfold set_interactive_resize, set_data, set_columns. cbn. rewrite list_insert_insert_eq. done.
  - by apply (cancelled_mid (env s) c).
  - destruct rz as [r|]; [|by left]. destruct (Column.contains _ c); [by left|done].
Qed.
Lemma edited_data i s c s' c0 :
  columns s !! i = Some c0 -> i < length (data s) -> edited i s c s' -> env_ok (env s) -> col_mid (env s) c -> runs (update_data i s') (edited i s c).
Proof.
  intros Hi Hd He HE Hc. pose proof (edited_lookup _ _ _ _ _ Hi He) as Hi'. destruct He as (w & rz & -> & Hw & Hrz). unfold update_data.
  step index_ok; [exact Hi'|]. runs runs_index; [cbn; by rewrite length_insert|]. intros w1 _ _.
  runs col_width_runs; [exact HE|apply Hc|by eapply col_nonempty|]. intros w' _ [Hw' _]. returns. exists w', rz. split_and!; [|done|done].
  unfold set_interactive_resize, set_data, set_columns. cbn. by rewrite list_insert_insert_eq.
Qed.
Lemma edited_done i s c s' c0 :
  space_ok s -> columns s !! i = Some c0 -> col_ok (env s) c -> gcol c = gcol c0 -> edited i s c s' -> to s (grid s) s'.
Proof.
  intros Hs Hi Hc Hg (w & rz & -> & Hw & Hrz). injection Hg as Hids Ha. pose proof (replace_same_ids s i c0 c w Hs Hi Hc Hw Hids) as H.
  rewrite Ha, (set_active_tile_id i s c0 Hi) in H. eapply to_grid; [exact H|apply (resize_kept _ rz (to_ok _ _ _ H))|done]. by destruct Hrz as [->| ->]; [left|right].
Qed.

(** Turning a flag off while the display of the column changes. *)
Lemma edited_off flag other set i x s c s' c0 :
  flag_op flag other set -> space_ok s -> columns s !! i = Some c0 -> gcol c = gcol c0 -> col_mid (env s) c -> x ∈ ids c -> edited i s c s' ->
  runs (set_pending cv flag set x false s') (fun '(_, s2) => exists c', edited i s c' s2 /\ col_mid (env s) c' /\ gcol c' = gcol c
    /\ flag c' = false /\ other c' = other c /\ Column.tabbed c' = Column.tabbed c).
Proof.
  intros Hop Hs Hi Hgc Hc Hx He. pose proof (edited_lookup _ _ _ _ _ Hi He) as Hi'. pose proof (so_env _ (proj1 (proj1 Hs))) as HE.
  assert (Hg : g_cols (grid s') = g_cols (grid s)).
  { destruct He as (w & rz & -> & _). unfold grid. cbn. rewrite list_fmap_insert, Hgc. apply list_insert_id. by rewrite list_lookup_fmap, Hi. }
  assert (Hf : column_of x s' = Some i).
  { rewrite column_of_grid, Hg, <-column_of_grid. assert (Hxg : x ∈ g_windows (grid s)).
    { apply elem_of_windows. exists i, (gcol c0). rewrite grid_lookup, Hi. split; [done|]. by rewrite <-Hgc. }
    destruct (find_ok x s Hxg) as (k & ck & j & t & Hk & Hck & _ & Ht & Hid & _). rewrite Hk. f_equal.
    destruct (decide (k = i)) as [|Hki]; [done|]. exfalso. pose proof (so_nodup _ (proj1 (proj1 Hs))) as Hnd.
    rewrite (g_windows_delete k (gcol ck) (grid s)) in Hnd by by rewrite grid_lookup, Hck. apply NoDup_app in Hnd as (_ & Hnd & _).
    apply (Hnd x); [cbn; rewrite <-Hid; apply list_elem_of_fmap; exists t; split; [done|by eapply list_elem_of_lookup_2]|].
    apply elem_of_windows. exists (beside k i), (gcol c0). cbn. rewrite beside_lookup by (done || (rewrite length_fmap; by eapply lookup_lt_Some)).
    split; [by rewrite list_lookup_fmap, Hi|]. change (x ∈ (gcol c0).1); by rewrite <-Hgc. }
  unfold set_pending. step unwrap_ok; [exact Hf|]. step index_ok; [exact Hi'|]. apply runs_if; intros Eb.
  { apply Bool.eqb_prop in Eb. returns. exists c. by split_and!. }
  runs (edited_cancel i s c s' c0); [done..|]. intros s1 _ H1. cbn [andb]. eapply runs_bind_ok; [reflexivity|]. cbv beta iota.
  destruct (cancelled_mid (env s) c HE Hc) as [Hm1 Hsame1]. destruct (fo_same _ _ _ Hop c ((fun t => Tile.set_window (cancel_interactive_resize (Tile.window t)) t) <$> Column.tiles c)) as [_ Ho1].
  runs (edited_update i (set false) s (cancelled c) s1 c0 (fun c' => col_mid (env s) c' /\ col_same (cancelled c) c' /\ flag c' = false
    /\ other c' = other (cancelled c) /\ Column.tabbed c' = Column.tabbed (cancelled c))); [done|done| |].
  { finish (fo_off _ _ _ Hop); [exact Hm1|]. intros c' _ (? & Hsm & ? & ? & ?). split_and!; try done. apply Hsm. }
  intros s2 _ (c2 & H2 & Hm2 & Hsame2 & Hf2 & Ho2 & Ht2).
  runs (edited_data i s c2 s2 c0); [done|rewrite (space_length_data s (proj1 (proj1 Hs))); by eapply lookup_lt_Some|done..|].
  intros s3 _ H3. returns. exists c2. split_and!; [done|done| |done|exact (eq_trans Ho2 Ho1)|done].
  unfold gcol. destruct Hsame1 as [[] ?], Hsame2 as [[] ?]. congruence.
Qed.

Lemma edited_active i s c s' c0 : columns s !! i = Some c0 -> active_column_idx s = i -> edited i s c s' -> active_column s' = Ok c.
Proof.
  intros Hi Ha He. pose proof (edited_lookup _ _ _ _ _ Hi He) as Hi'. unfold active_column.
  subst i. destruct He as (w & rz & -> & _). by apply index_ok.
Qed.

Lemma set_column_display_to d s : space_ok s -> runs (set_column_display cv d s) (fun s' => to s (grid s) s'
  /\ (is_empty s = false -> exists c, columns s' !! active_column_idx s = Some c /\ Column.display_mode c = d)).
Proof.
  intros Hs. unfold set_column_display. apply runs_if; intros He; [returns; split; [by apply to_refl|by rewrite He]|].
  destruct (active_ok_lookup s Hs He) as [c Hc]. set (i := active_column_idx s) in *. pose proof (lookup_lt_Some _ _ _ Hc) as Hi.
  unfold active_column at 1. step index_ok; [exact Hc|]. apply runs_if; intros Ed.
  { apply bool_decide_eq_true_1 in Ed. returns. split; [by apply to_refl|]. intros _. by exists c. }
  runs cancel_resize_runs; [done|done|]. intros s1 _ [H1 _]. pose proof (to_ok _ _ _ H1) as Hs1.
  assert (Ha1 : active_column_idx s1 = i) by (destruct H1 as (_ & _ & Hg1); exact (f_equal g_active Hg1)).
  destruct (to_col s _ s1 i (gcol c) H1) as (c1 & Hc1 & Hgc1); [by rewrite grid_lookup, Hc|].
  pose proof (so_env _ (to_mid _ _ _ H1)) as HE. pose proof (lookup_lt_Some _ _ _ Hc1) as Hi1. pose proof (space_length_data s1 (to_mid _ _ _ H1)) as Hld.
  (* the new display, and the width of the column with it *)
  eapply runs_bind2 with (R := fun s2 => exists c2, edited i s1 c2 s2 /\ col_mid (env s1) c2 /\ gcol c2 = gcol c1 /\ Column.display_mode c2 = d).
  { unfold update_column. rewrite (index_ok i c1) by done. cbn [mbind res_bind].
    pose proof (set_column_display_runs (env s1) HE cv Hcv d c1 (space_col s1 i c1 Hs1 Hc1)) as Hr.
    apply runs_ok in Hr as (c2 & -> & Hm2 & Hids2 & _ & Ha2 & Hd2). eapply runs_bind_ok; [reflexivity|]. unfold update_data. step (index_ok i c2); [by apply list_lookup_insert_eq|].
    runs runs_index; [cbn; lia|]. intros w0 _ _. runs col_width_runs; [exact HE|apply Hm2|by eapply col_nonempty|]. intros w _ [Hw _]. returns.
    exists c2. split_and!; [|done|unfold gcol; congruence|done]. exists w, (interactive_resize s1). split_and!; [|done|by right].
    by rewrite <-(set_resize_same s1) at 1. }
  intros s2 (c2 & He2 & Hm2 & Hg2 & Hd2).
  runs (edited_update i (Column.update_tile_sizes true) s1 c2 s2 c1 (fun c' => col_mid (env s1) c' /\ col_same c2 c' /\ exists ts, c' = Column.set_tiles ts c2));
    [done|done| |].
  { finish sizes_runs; [apply Hm2|apply Hm2|]. intros c' _ (? & Hsm & ts & ? & _). split_and!; [apply Hsm|done|done|by exists ts]. }
  intros s3 _ (c3 & He3 & Hm3 & Hsame3 & ts3 & Hc3). step (edited_active i s1 c3 s3 c1); [done..|].
  assert (Hg3 : gcol c3 = gcol c1) by (rewrite <-Hg2; destruct Hsame3 as [[] ?]; unfold gcol; congruence).
  assert (Hd3 : Column.display_mode c3 = d) by (by rewrite Hc3).
  assert (Hend : forall c' s', edited i s1 c' s' -> col_mid (env s1) c' -> single c' -> gcol c' = gcol c1 -> Column.tabbed c' = Column.tabbed c3 ->
    to s (grid s) s' /\ (is_empty s = false -> exists c, columns s' !! i = Some c /\ Column.display_mode c = d)).
  { intros c' s' He' Hm' Hs' Hg' Ht'. split.
    - eapply to_grid; [exact H1|by apply (edited_done i s1 c' s' c1)|done].
    - intros _. exists c'. split; [by eapply edited_lookup|]. rewrite <-Hd3. unfold Column.tabbed in Ht'. by destruct (Column.display_mode c'), (Column.display_mode c3). }
  apply runs_if; intros Eb.
  - apply andb_true_iff in Eb as [_ Eb]. pose proof (cm_active _ _ Hm3) as Hact3. runs runs_index; [done|]. intros t _ Ht.
    assert (Hx : Tile.id t ∈ ids c3) by (apply list_elem_of_fmap; exists t; split; [done|by eapply list_elem_of_lookup_2]).
    runs (edited_off _ _ _ i (Tile.id t) s1 c3 s3 c1 fullscreen_op); [done..|]. intros [b1 s4] _ (c4 & He4 & Hm4 & Hg4 & Hf4 & _ & Ht4).
    assert (Hids4 : ids c4 = ids c3) by by injection Hg4.
    runs (edited_off _ _ _ i (Tile.id t) s1 c4 s4 c1 maximized_op); [done|done|congruence|done|by rewrite Hids4|done|].
    intros [b2 s5] _ (c5 & He5 & Hm5 & Hg5 & Hf5 & Ho5 & Ht5). returns. apply (Hend c5); [done|done| |congruence|congruence].
    unfold single, Column.pending_sizing_mode. by rewrite Hf5, Ho5, Hf4.
  - returns. apply (Hend c3); [done|done| |done|done]. intros _. apply andb_false_iff in Eb as [Eb%negb_false_iff|Eb%Nat.ltb_ge]; [by right|left].
    pose proof (cm_active _ _ Hm3). lia.
Qed.
Lemma toggle_tabbed_to s : space_ok s -> runs (toggle_column_tabbed_display cv s) (to s (grid s)).
Proof.
  intros Hs. unfold toggle_column_tabbed_display. apply runs_if; intros He; [by returns; apply to_refl|].
  destruct (active_ok_lookup s Hs He) as [c Hc]. unfold active_column. step index_ok; [exact Hc|].
  finish set_column_display_to; [done|]. by intros s' _ [? _].
Qed.
End ops.

(** * Operations of the scrolling layout: sizes and centering *)
Section ops.
Context {LE : LayoutElement} {LEL : LayoutElementLaws} {GE : Geometry} {GL : GeometryLaws} {LM : Libm} {KF : Keyframe}.
Implicit Types (t : Tile.Tile) (c : Column.Column) (s : ScrollingSpace.ScrollingSpace).
Import ScrollingSpace.
Context (cv : ClockView) (Hcv : cv_ok cv).

(** ** Sizes *)
Lemma resize_column_runs window f s :
  space_ok s -> source_ok window s ->
  (forall E jo c, env_ok E -> col_ok E c -> default (Column.active_tile_idx c) jo < length (Column.tiles c) ->
    runs (f jo c) (fun c' => col_ok E c' /\ col_same c c')) ->
  runs (resize_column window f s) (to s (grid s)).
Proof.
  intros Hs Hw Hf. unfold resize_column. apply runs_if; intros He; [by returns; apply to_refl|].
  runs source_runs; [done|done|done|]. intros [i j] _ (_ & c & t & Hc & Ht & _). pose proof (space_col s i c Hs Hc) as Hok.
  runs (update_column_runs i _ s c); [done|done| |].
  { apply Hf; [apply Hs|done|]. destruct window; cbn; [by eapply lookup_lt_Some|apply (cm_active _ _ (proj1 Hok))]. }
  intros s1 _ [H1 Hl1]. finish cancel_resize_runs; [apply (to_ok _ _ _ H1)|rewrite Hl1; by eapply lookup_lt_Some|].
  intros s2 _ [H2 _]. eapply to_grid; [exact H1|exact H2|done].
Qed.

Lemma toggle_width_to fw s : space_ok s -> runs (toggle_width fw s) (to s (grid s)).
Proof. intros Hs. apply resize_column_runs; [done|done|]. intros E jo c HE Hc Hj. by apply toggle_width_runs. Qed.
Lemma toggle_full_width_to s : space_ok s -> runs (toggle_full_width s) (to s (grid s)).
Proof. intros Hs. apply resize_column_runs; [done|done|]. intros E jo c HE Hc Hj. by apply toggle_full_width_runs. Qed.
Lemma set_window_width_to w ch s : space_ok s -> source_ok w s -> runs (set_window_width w ch s) (to s (grid s)).
Proof. intros Hs Hw. apply resize_column_runs; [done|done|]. intros E jo c HE Hc Hj. by apply set_column_width_runs. Qed.
Lemma set_window_height_to w ch s : space_ok s -> source_ok w s -> runs (set_window_height w ch s) (to s (grid s)).
Proof. intros Hs Hw. apply resize_column_runs; [done|done|]. intros E jo c HE Hc Hj. by apply set_window_height_runs. Qed.
Lemma reset_window_height_to w s : space_ok s -> source_ok w s -> runs (reset_window_height w s) (to s (grid s)).
Proof. intros Hs Hw. apply resize_column_runs; [done|done|]. intros E jo c HE Hc Hj. by apply reset_window_height_runs. Qed.
Lemma toggle_window_width_to w fw s : space_ok s -> source_ok w s -> runs (toggle_window_width w fw s) (to s (grid s)).
Proof. intros Hs Hw. apply resize_column_runs; [done|done|]. intros E jo c HE Hc Hj. by apply toggle_width_runs. Qed.
Lemma toggle_window_height_to w fw s : space_ok s -> source_ok w s -> runs (toggle_window_height w fw s) (to s (grid s)).
Proof. intros Hs Hw. apply resize_column_runs; [done|done|]. intros E jo c HE Hc Hj. by apply toggle_window_height_runs. Qed.

(** ** Centering *)
Lemma review_to s g s1 s2 : to s g s1 -> reviewed s1 s2 -> to s g s2.
Proof. intros H1 H2. eapply to_grid; [exact H1|apply reviewed_to; [apply (to_ok _ _ _ H1)|exact H2]|done]. Qed.
Lemma active_after s s1 : to s (grid s) s1 -> is_empty s = false -> active_column_idx s1 = active_column_idx s /\ active_column_idx s < length (columns s1).
Proof.
  intros (Hs & He & Hg) Hn. pose proof (f_equal g_active Hg) as Ha. split; [exact Ha|]. change (active_column_idx s1 = active_column_idx s) in Ha. rewrite <-Ha.
  apply space_active_lt; [apply Hs|]. by rewrite <-grid_empty, Hg, grid_empty.
Qed.

Lemma center_column_to s : space_ok s -> runs (center_column cv s) (to s (grid s)).
Proof.
  intros Hs. unfold center_column. apply runs_if; intros He; [by returns; apply to_refl|].
  pose proof (space_active_lt s (proj1 Hs) He). runs animate_to_centered_runs; [exact Hcv|apply Hs|done|apply view_total, Hs|]. intros s1 _ H1.
  pose proof (reviewed_to _ _ Hs H1) as H01. destruct (active_after s s1 H01 He) as [-> Hl].
  finish cancel_resize_runs; [apply (to_ok _ _ _ H01)|done|]. intros s2 _ [H2 _]. by eapply to_grid; [exact H01|exact H2|].
Qed.
Lemma center_window_to window s : space_ok s -> source_ok window s -> runs (center_window cv window s) (to s (grid s)).
Proof.
  intros Hs Hw. unfold center_window. apply runs_if; intros He; [by returns; apply to_refl|].
  eapply runs_bind with (R := fun _ => True).
  { destruct window as [x|]; [|done]. destruct (find_ok x s (Hw x eq_refl)) as (i & _ & _ & _ & -> & _). done. }
  intros i _ _. apply runs_if; intros _; [by apply center_column_to|returns; by apply to_refl].
Qed.

(** A column counted as visible also has a leftmost one. *)
Lemma count_visible_some active l r gap i cols v :
  (is_Some (v_active v) -> is_Some (v_leftmost v)) -> is_Some (v_active (count_visible active l r gap i cols v)) ->
  is_Some (v_leftmost (count_visible active l r gap i cols v)).
Proof.
  revert i v. induction cols as [|[x w] cols IH]; intros i v Hv; cbn [count_visible]; [exact Hv|].
  destruct (fltb x _); [by apply IH|]. destruct (fltb r _); cbn; [by eexists|]. apply IH. cbn. by eexists.
Qed.
Lemma visible_runs s : space_pre s -> runs (visible_columns s) (fun v => is_Some (v_active v) -> is_Some (v_leftmost v)).
Proof.
  intros Hs. unfold visible_columns. runs target_view_pos_runs; [done|]. intros x _ _. returns. apply count_visible_some. by intros [].
Qed.

(** The view moves to [o], and then to where the active column fits. *)
Lemma recenter_runs s s1 i k o :
  to s (grid s) s1 -> is_empty s = false -> i = active_column_idx s -> (forall s2, active_column_idx s2 = active_column_idx s -> k s2 = active_column_idx s) ->
  runs (s2 ← animate_view_offset cv i o s1; animate_view_offset_to_column cv None (k s2) None s2) (to s (grid s)).
Proof.
  intros H1 He -> Hk. destruct (active_after s s1 H1 He) as [Ha Hl].
  runs animate_view_runs; [exact Hcv|apply (to_mid _ _ _ H1)|lia|]. intros s2 _ H2. pose proof (review_to _ _ _ _ H1 H2) as H02.
  assert (Ha2 : active_column_idx s2 = active_column_idx s /\ columns s2 = columns s1) by (by destruct H2 as (v & -> & _)). destruct Ha2 as [Ha2 Hc2].
  rewrite (Hk s2 Ha2). finish animate_to_column_runs; [exact Hcv|apply (to_mid _ _ _ H02)|by rewrite Hc2|]. intros s3 _ H3. by eapply review_to.
Qed.

Lemma center_visible_to s : space_ok s -> runs (center_visible_columns cv s) (to s (grid s)).
Proof.
  intros Hs. unfold center_visible_columns. apply runs_if; intros He; [by returns; apply to_refl|]. apply orb_false_iff in He as [He _].
  runs visible_runs; [apply Hs|]. intros v _ Hv. destruct (v_active v) as [x|]; [|by returns; apply to_refl].
  destruct (Hv (mk_is_Some _ _ eq_refl)) as [lm Hlm]. pose proof (space_active_lt s (proj1 Hs) He).
  runs cancel_resize_runs; [done|done|]. intros s1 _ [H1 _]. step unwrap_ok; [exact Hlm|].
  apply (recenter_runs s s1 _ active_column_idx); [done|done|apply (active_after s s1 H1 He)|done].
Qed.

Lemma full_width_at s s1 c :
  to s (grid s) s1 -> is_empty s = false -> columns s1 !! active_column_idx s = Some c -> runs (update_column (active_column_idx s) Column.toggle_full_width s1) (to s (grid s)).
Proof.
  intros H1 He Hc. finish (update_column_runs _ _ s1 c (to_ok _ _ _ H1) Hc).
  - apply toggle_full_width_runs; [by eapply space_col, Hc; apply H1].
  - intros s2 _ [H2 _]. by eapply to_grid; [exact H1|exact H2|].
Qed.
Lemma expand_column_to s : space_ok s -> runs (expand_column_to_available_width cv s) (to s (grid s)).
Proof.
  intros Hs. unfold expand_column_to_available_width. pose proof (to_refl s Hs) as Hr. apply runs_if; intros He; [by returns|].
  destruct (active_ok_lookup s Hs He) as [c Hc]. unfold active_column. step index_ok; [exact Hc|]. apply runs_if; intros _; [by returns|].
  pose proof (lookup_lt_Some _ _ _ Hc) as Hi. apply runs_if; intros _.
  { runs (full_width_at s s c); [done..|]. intros s1 _ H1. finish cancel_resize_runs; [apply (to_ok _ _ _ H1)|apply (active_after s s1 H1 He)|].
    intros s2 _ [H2 _]. eapply to_grid; [exact H1|exact H2|done]. }
  runs visible_runs; [apply Hs|]. intros v _ Hv. destruct (v_active v) as [x|]; [|by returns].
  destruct (Hv (mk_is_Some _ _ eq_refl)) as [lm Hlm]. apply runs_if; intros _; [by returns|].
  runs cancel_resize_runs; [done|done|]. intros s1 _ [H1 Hl1]. destruct (active_after s s1 H1 He) as [Ha1 Hla1].
  destruct (lookup_lt_is_Some_2 _ _ Hla1) as [c1 Hc1]. apply runs_if; intros _; [by eapply full_width_at|].
  pose proof (space_length_data s1 (to_mid _ _ _ H1)). runs runs_index; [lia|]. intros w _ _.
  runs (update_column_runs _ _ s1 c1 (to_ok _ _ _ H1) Hc1).
  { pose proof (space_col s1 _ c1 (to_ok _ _ _ H1) Hc1) as Hok. apply (resized_runs (env s1) true c1); try done.
    - eapply in_env_set; [apply Hok|done..].
    - apply Hok.
    - by left. }
  intros s2 _ [H2 Hl2]. assert (H02 : to s (grid s) s2) by (eapply to_grid; [exact H1|exact H2|done]).
  step unwrap_ok; [exact Hlm|]. by apply (recenter_runs s s2 _ (fun _ => active_column_idx s)).
Qed.
End ops.
