(* ===== verification/ScrollingViews.v ===== *)
(** * Operations of the scrolling layout: gestures, interactive resizes, and where a dragged window goes *)

From stdpp Require Import base numbers option list.
From Stdlib Require Import ZArith Lia SpecFloat.
From S2P Require Import Prelude.
From S2P Require Import Runs.
From S2P Require Import F64.
From S2P Require Import Duration.
From S2P Require Import Clock.
From S2P Require Import Gesture.
From S2P Require Import Animation.
From S2P Require Import AnimTotal.
From S2P Require Import LayoutTypes.
From S2P Require Import F64Sign.
From S2P Require Import Tile.
From S2P Require Import TileInv.
From S2P Require Import Column.
From S2P Require Import ColumnInv.
From S2P Require Import ColumnOps.
From S2P Require Import Scrolling.
From S2P Require Import ScrollingSpec.

From S2P Require Import ScrollingInv.
From S2P Require Import ScrollingOps.
From S2P Require Import ScrollingTiles.
From S2P Require Import ScrollingRemove.
From S2P Require Import ScrollingMoves.
From S2P Require Import ScrollingConsume.
From S2P Require Import ScrollingModes.

Section ops.
Context {LE : LayoutElement} {LEL : LayoutElementLaws} {GE : Geometry} {GL : GeometryLaws} {LM : Libm} {KF : Keyframe}.
Implicit Types (t : Tile.Tile) (c : Column.Column) (s : ScrollingSpace.ScrollingSpace).
Import ScrollingSpace.
Context (cv : ClockView) (Hcv : cv_ok cv).

Definition time_ok (ts : Duration) : Prop := (0 <= ts /\ ts + SwipeTracker.HISTORY_LIMIT <= DURATION_MAX)%Z.

(** ** Beginning and moving a gesture *)
Lemma begin_runs tp dnd v : view_ok v -> runs (ViewOffset.begin cv tp dnd v) view_ok.
Proof.
  intros Hv. unfold ViewOffset.begin. runs current_runs; [exact Hcv|exact Hv|]. intros o _ _. returns. split; [done|].
  repeat split; try constructor. by intros e l H%elem_of_nil.
Qed.
Lemma gesture_begin_to tp s : space_ok s -> runs (view_offset_gesture_begin cv tp s) (to s (grid s)).
Proof.
  intros Hs. unfold view_offset_gesture_begin. destruct (columns s), (interactive_resize s); try (by returns; apply to_refl).
  runs begin_runs; [apply Hs|]. intros v _ Hv. returns. by apply set_view_to.
Qed.
Lemma dnd_begin_to s : space_ok s -> runs (dnd_scroll_gesture_begin cv s) (to s (grid s)).
Proof.
  intros Hs. unfold dnd_scroll_gesture_begin. apply runs_if; intros _; [by returns; apply to_refl|].
  runs begin_runs; [apply Hs|]. intros v _ Hv. returns. pose proof (set_view_to v s Hs Hv) as H.
  eapply to_grid; [exact H|apply (set_resize_None _ (to_ok _ _ _ H))|done].
Qed.

Lemma push_runs d ts (t : SwipeTracker.SwipeTracker) : SwipeTracker.tracker_ok t -> time_ok ts -> runs (SwipeTracker.push d ts t) SwipeTracker.tracker_ok.
Proof. intros Ht [H1 H2]. apply runs_ok. destruct (push_ok d ts t Ht H1 H2) as (t' & ? & ? & _). by exists t'. Qed.
Lemma with_gesture_ok (t : SwipeTracker.SwipeTracker) x d l st g : SwipeTracker.tracker_ok t -> gesture_ok g -> view_ok (with_gesture t x d l st g).
Proof. intros Ht [Ha _]. by split. Qed.

Lemma gesture_update_to dx ts tp s :
  space_ok s -> time_ok ts -> runs (view_offset_gesture_update dx ts tp s) (fun '(_, s') => to s (grid s) s').
Proof.
  intros Hs Hts. unfold view_offset_gesture_update. pose proof (to_refl s Hs) as Hr. pose proof (so_view _ (proj1 (proj1 Hs))) as Hv.
  destruct (view_offset s) as [| |g]; [by returns..|]. apply runs_if; intros _; [by returns|].
  runs push_runs; [apply Hv|done|]. intros t _ Ht. returns. apply set_view_to; [done|]. by apply with_gesture_ok.
Qed.

(** ** Scrolling at the edge of the screen *)
Lemma sum_widths_runs i s : space_pre s -> runs (sum_widths i s) nonneg.
Proof.
  intros Hs. unfold sum_widths. assert (Hg : nonneg (gaps (options s))) by apply (so_env _ Hs).
  assert (HF : Forall (fun c => runs (Column.col_width c) nonneg) (take i (columns s))).
  { apply Forall_take, Forall_forall. intros c Hc. pose proof (so_cols _ Hs) as H. rewrite Forall_forall in H. specialize (H c Hc).
    finish col_width_runs; [apply Hs|apply H|by eapply col_nonempty|]. by intros w _ [_ ?]. }
  set (r0 := Ok f0). assert (Hr : runs r0 nonneg) by (by apply nonneg_cases). clearbody r0. revert r0 Hr.
  induction HF as [|c l Hc _ IH]; intros r Hr; cbn [foldl]; [exact Hr|]. apply IH.
  runs Hr. intros x _ Hx. runs Hc. intros w _ Hw. returns. by repeat apply fadd_nonneg.
Qed.
Lemma scroll_bounds_runs s : space_ok s -> runs (scroll_bounds s) (fun _ => True).
Proof.
  intros Hs. unfold scroll_bounds. apply runs_if; intros He; [done|]. pose proof (nonempty_length s He). step usub_ok; [lia|].
  runs sum_widths_runs; [apply Hs|]. intros x _ _. runs runs_index; [rewrite (space_length_data s (proj1 (proj1 Hs))); lia|]. intros w _ _.
  runs sum_widths_runs; [apply Hs|]. done.
Qed.

Lemma fmin_fmax x y : is_nan x = false \/ is_nan y = false -> fleb (fmin x y) (fmax x y) = true.
Proof.
  intros H. unfold fmin, fmax. destruct (is_nan x) eqn:Ex, (is_nan y) eqn:Ey; try (by destruct H); try (by apply fleb_refl).
  destruct (fltb x y) eqn:E; [rewrite (fleb_fltb x y (fltb_fleb x y E)); by apply fltb_fleb|].
  destruct (fltb_false_fleb x y E) as [?|[?|?]]; [congruence..|]. destruct (fltb y x); [done|by apply fleb_refl].
Qed.

(** What the arithmetic has to satisfy: the bounds of the scrollable area are
    numbers. *)
Definition scroll_finite s : Prop := forall l r, scroll_bounds s = Ok (l, r) -> is_nan l = false \/ is_nan r = false.

Lemma dnd_scroll_to d s :
  space_ok s -> time_ok (cv_now_unadjusted cv) -> scroll_finite s ->
  runs (dnd_scroll_gesture_scroll cv d s) (fun '(_, s') => to s (grid s) s').
Proof.
  intros Hs Hts Hfin. unfold dnd_scroll_gesture_scroll. pose proof (to_refl s Hs) as Hr. pose proof (so_view _ (proj1 (proj1 Hs))) as Hv.
  destruct (view_offset s) as [| |g]; [by returns..|]. destruct (ViewOffset.dnd_last_event_time g); [|by returns].
  assert (Hkeep : forall (t : SwipeTracker.SwipeTracker) x d l st, SwipeTracker.tracker_ok t -> to s (grid s) (set_view_offset (with_gesture t x d l st g) s)).
  { intros. apply set_view_to; [done|by apply with_gesture_ok]. }
  apply runs_if; intros _; [returns; apply Hkeep, Hv|]. apply runs_if; intros _; [returns; apply Hkeep, Hv|].
  runs push_runs; [apply Hv|done|]. intros t _ Ht. pose proof (scroll_bounds_runs s Hs) as Hb. apply runs_ok in Hb as ([l r] & Hb & _).
  step Hb. cbv iota beta. runs clamp_runs; [by apply fmin_fmax, Hfin|]. intros x _ _. returns. by apply Hkeep.
Qed.

(** ** Where the view snaps to *)
Definition cols_widths s : Prop := Forall (fun c => runs (Column.col_width c) nonneg) (columns s).
Lemma cols_widths_ok s : space_pre s -> cols_widths s.
Proof.
  intros Hs. apply Forall_forall. intros c Hc. pose proof (so_cols _ Hs) as H. rewrite Forall_forall in H. specialize (H c Hc).
  finish col_width_runs; [apply Hs|apply H|by eapply col_nonempty|]. by intros w _ [_ ?].
Qed.

(** Snapping points are of columns that exist. *)
Definition snaps_in (lo n : nat) : list Snap -> Prop := Forall (fun x => lo <= snap_col x < n).
Lemma snaps_in_weaken lo lo' n l : lo' <= lo -> snaps_in lo n l -> snaps_in lo' n l.
Proof. intros Hl H. eapply Forall_impl; [exact H|]. cbn. lia. Qed.

Lemma centered_snaps_runs i x cols s :
  Forall (fun c => runs (Column.col_width c) nonneg) cols -> runs (centered_snaps i x cols s) (fun l => snaps_in i (i + length cols) l /\ length l = length cols).
Proof.
  intros HF. revert i x. induction HF as [|c cols Hc HF IH]; intros i x; cbn [centered_snaps]; [by split; [constructor|]|].
  runs Hc. intros w _ _. runs IH. intros l _ [Hl Hn]. returns. cbn [length]. split; [|lia]. constructor; cbn; [lia|].
  eapply Forall_impl; [exact Hl|]. cbn. lia.
Qed.

Lemma padding_runs mode area w s : space_pre s -> runs (snap_padding mode area w s) (fun _ => True).
Proof. intros Hs. unfold snap_padding. apply runs_if; intros _; [done|]. apply clamp_runs. exact (oo_gaps _ (eo_options _ (so_env _ Hs))). Qed.
Lemma snap_points_runs x c p n s : space_pre s -> runs (Column.col_width c) nonneg -> runs (snap_points x c p n s) (fun _ => True).
Proof.
  intros Hs Hc. unfold snap_points. runs Hc. intros w _ _. apply runs_if; intros _; [done|]. runs padding_runs; [done|]. done.
Qed.
Lemma width_at_runs o s : cols_widths s -> runs (width_at o s) (fun _ => True).
Proof.
  intros HF. unfold width_at. destruct o as [i|]; [|done]. destruct (columns s !! i) as [c|] eqn:Hc; [|done].
  runs (Forall_lookup_1 _ _ _ _ HF Hc). done.
Qed.
Lemma inner_snaps_runs lm rm i x cols s :
  space_pre s -> Forall (fun c => runs (Column.col_width c) nonneg) cols -> runs (inner_snaps lm rm i x cols s) (snaps_in i (i + length cols)).
Proof.
  intros Hs HF. pose proof (cols_widths_ok s Hs) as Hw. revert i x. induction HF as [|c cols Hc HF IH]; intros i x; cbn [inner_snaps]; [constructor|].
  runs width_at_runs; [done|]. intros p _ _. runs width_at_runs; [done|]. intros n _ _. runs snap_points_runs; [done..|]. intros [lft rgt] _ _.
  runs Hc. intros w _ _. runs IH. intros l _ Hl. returns. unfold snaps_in. rewrite !Forall_app. cbn [length].
  split_and!; [destruct (_ && _); repeat constructor; cbn; lia|destruct (_ && _); repeat constructor; cbn; lia|].
  eapply Forall_impl; [exact Hl|]. cbn. lia.
Qed.

Lemma snapping_points_runs s :
  space_ok s -> is_empty s = false -> runs (snapping_points s) (fun l => snaps_in 0 (length (columns s)) l /\ l <> []).
Proof.
  intros Hs He. unfold snapping_points. pose proof (cols_widths_ok s (proj1 (proj1 Hs))) as Hw. pose proof (nonempty_length s He) as Hlen.
  apply runs_if; intros _.
  { finish centered_snaps_runs; [exact Hw|]. intros l _ [Hl Hn]. split; [done|]. intros ->. cbn in Hn. lia. }
  destruct (lookup_lt_is_Some_2 (columns s) 0 Hlen) as [first Hf]. step index_ok; [exact Hf|].
  runs width_at_runs; [done|]. intros n _ _. runs snap_points_runs; [apply Hs|exact (Forall_lookup_1 _ _ _ _ Hw Hf)|]. intros [lm rm] _ _.
  step usub_ok; [lia|]. runs sum_widths_runs; [apply Hs|]. intros x _ _.
  destruct (lookup_lt_is_Some_2 (columns s) (length (columns s) - 1)) as [last Hl]; [lia|]. step index_ok; [exact Hl|].
  runs width_at_runs; [done|]. intros p _ _. runs snap_points_runs; [apply Hs|exact (Forall_lookup_1 _ _ _ _ Hw Hl)|]. intros [lf rt] _ _.
  runs inner_snaps_runs; [apply Hs|exact Hw|]. intros l _ Hin. returns. split; [|done]. constructor; [cbn; lia|]. constructor; [cbn; lia|done].
Qed.

Lemma insert_snap_perm x l : insert_snap x l ≡ₚ x :: l.
Proof. induction l as [|y l IH]; cbn; [done|]. destruct (fltb _ _); [|done]. rewrite IH. constructor. Qed.
Lemma sort_snaps_perm l : sort_snaps l ≡ₚ l.
Proof. induction l as [|x l IH]; cbn; [done|]. by rewrite insert_snap_perm, IH. Qed.
Lemma closest_snap_in (t : f64) l : l <> [] -> exists x, closest_snap t l = Some x /\ x ∈ l.
Proof.
  destruct l as [|x l]; [done|]. intros _. cbn. eexists. split; [done|]. set (f := fun a y => _).
  assert (H : forall l x, foldl f x l = x \/ foldl f x l ∈ l).
  { clear. induction l as [|y l IH]; intros x; cbn; [by left|]. destruct (IH (f x y)) as [-> |H]; [|right; by right].
    unfold f. destruct (fgtb _ _); [right; left|by left]. }
  destruct (H l x) as [-> |?]; [left|by right].
Qed.

Lemma cut_off_runs b pos i s : space_pre s -> i < length (columns s) -> runs (cut_off b pos i s) (fun _ => True).
Proof.
  intros Hs Hi. unfold cut_off. runs runs_index; [done|]. intros c _ Hc. runs column_x_runs; [rewrite (space_length_data s Hs); lia|]. intros x _ _.
  runs (Forall_lookup_1 _ _ _ _ (cols_widths_ok s Hs) Hc). intros w _ _. apply runs_if; intros _; [done|]. runs padding_runs; [done|]. done.
Qed.
Lemma furthest_runs b pos is_ best s n :
  space_pre s -> n = length (columns s) -> Forall (fun i => i < n) is_ -> best < n -> runs (furthest b pos is_ best s) (fun i => i < n).
Proof.
  intros Hs -> HF. revert best. induction HF as [|i l Hi HF IH]; intros best Hb; cbn [furthest]; [done|].
  runs cut_off_runs; [done|done|]. intros c _ _. apply runs_if; intros _; [done|by apply IH].
Qed.

(** ** The end of a gesture *)

(** What the arithmetic has to satisfy: the snapping points and their distances to
    where the gesture is heading are numbers. *)
Definition gesture_finite s : Prop :=
  match view_offset s with
  | ViewOffset.InGesture g => forall snaps (t : SwipeTracker.SwipeTracker) p x,
      snapping_points s = Ok snaps -> SwipeTracker.push f0 (cv_now_unadjusted cv) (ViewOffset.tracker g) = Ok t ->
      SwipeTracker.projected_end_pos t = Ok p -> column_x (active_column_idx s) s = Ok x ->
      Forall (fun y => is_nan (snap_pos y) = false
        /\ is_nan (fabs (snap_pos y - (x + (p * norm_factor g s + ViewOffset.delta_from_tracker g)))%F) = false) snaps
  | _ => True
  end.

Lemma with_active_same (g : Grid Id) : with_active (g_active g) g = g.
Proof. by destruct g. Qed.

(** The gesture ends at some column, active from then on. *)
Definition settles s s' : Prop := exists k, to s (with_active k (grid s)) s' /\ (is_empty s = false -> k < length (columns s)).
Lemma settles_same s s' : space_ok s -> to s (grid s) s' -> settles s s'.
Proof. intros Hs H. exists (g_active (grid s)). split; [by rewrite with_active_same|]. intros He. by apply space_active_lt; [apply Hs|]. Qed.

Lemma restore_to s v : space_ok s -> to s (grid s) (set_view_offset_to_restore v s).
Proof. intros [[[] Ha] Hs]. split_and!; [|done|done]. by split; [split; [constructor|]|]. Qed.

Lemma snap_runs s (to_right : bool) snap :
  space_ok s -> is_empty s = false -> snap_col snap < length (columns s) ->
  runs (if is_centering_focused_column s then mret (snap_col snap)
        else if to_right then furthest true (snap_pos snap) (seq (S (snap_col snap)) (length (columns s) - S (snap_col snap))) (snap_col snap) s
        else furthest false (snap_pos snap) (reverse (seq 0 (snap_col snap))) (snap_col snap) s) (fun k => k < length (columns s)).
Proof.
  intros Hs He Hk. apply runs_if; intros _; [done|]. apply runs_if; intros _; (apply furthest_runs; [apply Hs|done| |done]).
  - apply Forall_forall. intros i Hi%elem_of_seq. lia.
  - apply Forall_forall. intros i Hi%elem_of_reverse%elem_of_seq. lia.
Qed.

Lemma gesture_end_to tp s :
  space_ok s -> time_ok (cv_now_unadjusted cv) -> gesture_finite s -> runs (view_offset_gesture_end cv tp s) (fun '(_, s') => settles s s').
Proof.
  intros Hs Hts Hfin. unfold view_offset_gesture_end, gesture_finite in *. pose proof (settles_same s s Hs (to_refl s Hs)) as Hr.
  pose proof (so_view _ (proj1 (proj1 Hs))) as Hv. destruct (view_offset s) as [| |g]; [by returns..|]. apply runs_if; intros _; [by returns|].
  pose proof (push_runs f0 _ _ (proj2 Hv) Hts) as Hp. apply runs_ok in Hp as (t & Hpush & Ht). step Hpush.
  destruct (velocity_ok t Ht) as [v Hvel]. step Hvel. apply runs_if; intros He; [returns; apply settles_same; [done|by apply set_view_to]|].
  destruct (projected_end_pos_ok t Ht) as [p Hproj]. step Hproj. pose proof (snapping_points_runs s Hs He) as Hsn.
  apply runs_ok in Hsn as (snaps & Hsnaps & Hin & Hne). step Hsnaps. pose proof (space_active_lt s (proj1 Hs) He) as Ha.
  pose proof (space_length_data s (proj1 (proj1 Hs))) as Hld. pose proof (column_x_runs s (active_column_idx s) ltac:(lia)) as Hx. apply runs_ok in Hx as (x & Hx & _).
  pose proof (Hfin snaps t p x Hsnaps Hpush Hproj Hx) as HF. clear Hfin. rewrite Forall_forall in HF.
  step not_nan_runs; [by intros y Hy; apply HF|]. step Hx. pose proof (sort_snaps_perm snaps) as HP.
  set (target := (x + (p * norm_factor g s + ViewOffset.delta_from_tracker g))%F) in *.
  step (not_nan_runs (fun y => fabs (snap_pos y - target)%F)); [intros y Hy; apply HF; by rewrite <-HP|].
  destruct (closest_snap_in target (sort_snaps snaps)) as (snap & Hc & Hsnap); [intros H0; rewrite H0 in HP; by apply Permutation_nil_l in HP|].
  step unwrap_ok; [exact Hc|]. rewrite HP in Hsnap. assert (Hk : snap_col snap < length (columns s)).
  { unfold snaps_in in Hin. rewrite Forall_forall in Hin. by apply Hin. }
  runs (snap_runs s _ snap Hs He Hk). intros k _ Hkl. runs column_x_runs; [lia|]. intros y _ _.
  set (s1 := if bool_decide _ then s else _). assert (H1 : to s (grid s) s1 /\ columns s1 = columns s) by (unfold s1; destruct (bool_decide _); split; [by apply to_refl|done|by apply restore_to|done]).
  destruct H1 as [H1 Hc1]. runs (new_runs cv Hcv); [apply view_total, (to_mid _ _ _ H1)|]. intros a _ Han.
  pose proof (set_active_to s1 k (to_ok _ _ _ H1) ltac:(by rewrite Hc1)) as H2. set (s2 := set_active_column_idx k s1) in *.
  pose proof (set_view_to (ViewOffset.Animated a) s2 (to_ok _ _ _ H2) Han) as H3. set (s3 := set_view_offset _ s2) in *.
  runs animate_to_column_runs; [exact Hcv|apply (to_mid _ _ _ H3)|change (k < length (columns s1)); by rewrite Hc1|]. intros s4 _ H4. returns.
  exists k. split; [|done]. pose proof (reviewed_to _ _ (to_ok _ _ _ H3) H4) as H4'.
  destruct H1 as (_ & ? & Hg1), H2 as (_ & ? & Hg2), H3 as (_ & ? & Hg3), H4' as (? & ? & Hg4). split_and!; [done|congruence|]. by rewrite Hg4, Hg3, Hg2, Hg1.
Qed.

Lemma dnd_end_to s :
  space_ok s -> time_ok (cv_now_unadjusted cv) -> gesture_finite s -> runs (dnd_scroll_gesture_end cv s) (settles s).
Proof.
  intros Hs Hts Hfin. unfold dnd_scroll_gesture_end. pose proof (gesture_end_to None s Hs Hts Hfin) as Hend.
  pose proof (settles_same s s Hs (to_refl s Hs)) as Hr. destruct (view_offset s) as [| |g] eqn:Ev; [by returns..|]. apply runs_if; intros _.
  - set (s1 := set_view_offset _ s). assert (H1 : to s (grid s) s1) by (by apply set_view_to). apply runs_if; intros He; [returns; by apply settles_same|].
    finish animate_to_column_runs; [exact Hcv|apply (to_mid _ _ _ H1)|by apply (space_active_lt s (proj1 Hs))|]. intros s2 _ H2. apply settles_same; [done|].
    by eapply review_to.
  - runs Hend. intros [b s'] _ H. by returns.
Qed.

(** ** Interactive resizing *)
Lemma resize_begin_to x e s :
  space_ok s -> x ∈ g_windows (grid s) -> runs (interactive_resize_begin cv x e s) (fun '(_, s') => to s (grid s) s').
Proof.
  intros Hs Hx. unfold interactive_resize_begin. destruct (interactive_resize s); [returns; by apply to_refl|].
  assert (He : is_empty s = false) by (unfold is_empty, grid in *; destruct (columns s); [by apply elem_of_nil in Hx|done]).
  runs source_runs; [done|done|by intros ? [= <-]|]. intros [i j] _ (_ & c & t & Hc & Ht & _). step index_ok; [exact Hc|].
  apply runs_if; intros _; [returns; by apply to_refl|]. step index_ok; [exact Ht|].
  eapply runs_bind with (R := view_ok). { unfold ViewOffset.stop_anim_and_gesture. runs current_runs; [exact Hcv|apply Hs|]. done. }
  intros v _ Hv. returns. set (r := Some _). assert (H1 : to s (grid s) (set_interactive_resize r s)).
  { destruct Hs as [[[] Ha] Hsi]. split_and!; [|done|done]. split; [split; [constructor; try done|done]|done]. by intros r' [= <-]. }
  eapply to_grid; [exact H1|by apply set_view_to; [apply (to_ok _ _ _ H1)|]|done].
Qed.

Lemma resize_update_to x delta s :
  space_ok s -> runs (interactive_resize_update x delta s) (fun '(_, s') => to s (grid s) s').
Proof.
  intros Hs. unfold interactive_resize_update. pose proof (to_refl s Hs) as Hr. destruct (interactive_resize s) as [r|] eqn:Er; [|by returns].
  apply runs_if; intros Ex; [|by returns]. apply bool_decide_eq_true_1 in Ex. subst x. pose proof (so_resize _ (proj1 (proj1 Hs)) r Er) as Hx.
  destruct (find_ok _ s Hx) as (i & c & j & t & Hf & Hc & Hp & Ht & _). unfold source. cbn [mbind res_bind].
  assert (Hsrc : source (Some (resize_window r)) s = Ok (i, j)) by (unfold source; rewrite Hf; cbn; rewrite (index_ok i c) by done; cbn; by rewrite Hp).
  step Hsrc. cbv iota beta. pose proof (lookup_lt_Some _ _ _ Ht) as Hj.
  assert (Hstep : forall s1 f, to s (grid s) s1 -> (forall E c, env_ok E -> col_ok E c -> j < length (Column.tiles c) -> runs (f c) (fun c' => col_ok E c' /\ col_same c c')) ->
    runs (update_column i f s1) (to s (grid s))).
  { intros s1 f H1 Hf1. destruct (to_col s _ s1 i (gcol c) H1) as (c1 & Hc1 & Hgc1); [by rewrite grid_lookup, Hc|].
    finish (update_column_runs i f s1 c1 (to_ok _ _ _ H1) Hc1).
    - apply Hf1; [apply (so_env _ (to_mid _ _ _ H1))|by eapply space_col, Hc1; apply H1|]. injection Hgc1 as Hids _. by rewrite <-length_ids, Hids, length_ids.
    - intros s2 _ [H2 _]. eapply to_grid; [exact H1|exact H2|done]. }
  eapply runs_bind with (R := to s (grid s)).
  { apply runs_if; intros _; [|by returns]. apply Hstep; [done|]. intros E c' HE Hc' Hj'. by apply set_column_width_runs. }
  intros s1 _ H1. eapply runs_bind with (R := to s (grid s)).
  { apply runs_if; intros _; [|by returns]. apply Hstep; [done|]. intros E c' HE Hc' Hj'. by apply set_window_height_runs. }
  intros s2 _ H2. by returns.
Qed.

Lemma resize_end_to window s : space_ok s -> runs (interactive_resize_end cv window s) (to s (grid s)).
Proof.
  intros Hs. unfold interactive_resize_end. pose proof (to_refl s Hs) as Hr. destruct (interactive_resize s) as [r|] eqn:Er; [|by returns].
  destruct window as [x|]; [|returns; by apply set_resize_None]. apply runs_if; intros _; [|by returns].
  assert (He : is_empty s = false).
  { pose proof (so_resize _ (proj1 (proj1 Hs)) r Er) as Hx. unfold is_empty, grid in *. destruct (columns s); [by apply elem_of_nil in Hx|done]. }
  destruct (active_ok_lookup s Hs He) as [c Hc]. unfold active_column. step index_ok; [exact Hc|]. eapply runs_bind with (R := to s (grid s)).
  { apply runs_if; intros _; [|by returns]. finish animate_to_column_runs; [exact Hcv|apply Hs|by eapply lookup_lt_Some|]. intros s1 _ H1. by eapply review_to. }
  intros s1 _ H1. returns. eapply to_grid; [exact H1|apply set_resize_None, (to_ok _ _ _ H1)|done].
Qed.

(** ** Where a dragged window goes *)
Definition position_ok s (p : InsertPosition) : Prop :=
  match p with
  | NewColumn i => i <= length (columns s)
  | InColumn i j => exists c, columns s !! i = Some c /\ j <= length (Column.tiles c)
  | InFloating => False
  end.

(** What the arithmetic has to satisfy: the distances of the pointer to the
    columns and tiles are numbers. *)
Definition pointer_finite (pos : Point) s : Prop :=
  (forall v, view_pos cv s = Ok v -> Forall (fun y => is_nan (fabs (y - (pos.1 + v + gaps (options s) / of_Z 2))%F) = false) (column_xs s))
  /\ forall c os, c ∈ columns s -> Column.tile_offsets c = Ok os ->
      Forall (fun o : Point => is_nan (fabs (o.2 - (pos.2 + gaps (options s) / of_Z 2))%F) = false) os.

Lemma closest_runs x ys :
  Forall (fun y => is_nan (fabs (y - x)%F) = false) ys -> ys <> [] -> runs (closest x ys) (fun o => exists i y, o = Some (i, y) /\ i < length ys).
Proof.
  intros HF Hne. unfold closest. step not_nan_runs; [by rewrite Forall_forall in HF|]. returns.
  destruct (imap (fun i y => (i, y)) ys) as [|p ps] eqn:E; [by destruct ys|].
  set (f := fun a q : nat * f64 => _). assert (H : foldl f p ps = p \/ foldl f p ps ∈ ps).
  { clear. revert p. induction ps as [|q ps IH]; intros p; cbn; [by left|]. destruct (IH (f p q)) as [-> |H]; [|right; by right].
    unfold f. destruct (fgtb _ _); [right; left|by left]. }
  assert (Hin : foldl f p ps ∈ imap (fun i y => (i, y)) ys) by (rewrite E; destruct H as [-> |?]; [left|by right]).
  destruct (foldl f p ps) as [i y]. apply elem_of_lookup_imap in Hin as (i' & y' & [= -> ->] & Hi). exists i', y'. split; [done|by eapply lookup_lt_Some].
Qed.

Lemma column_xs_length s : length (column_xs s) = S (length (data s)).
Proof. unfold column_xs. rewrite xs_from_length, length_app. cbn. lia. Qed.
Lemma take_while_length p xs : length (take_while p xs) <= length xs.
Proof. induction xs as [|x xs IH]; cbn; [done|]. destruct (p x); cbn; lia. Qed.

Lemma insert_position_runs pos s : space_ok s -> pointer_finite pos s -> runs (insert_position cv pos s) (position_ok s).
Proof.
  intros Hs [Hfx Hfy]. unfold insert_position. apply runs_if; intros He; [returns; cbn; lia|]. pose proof (space_active_lt s (proj1 Hs) He) as Ha.
  pose proof (space_length_data s (proj1 (proj1 Hs))) as Hld. pose proof (column_xs_length s) as Hlx.
  assert (Hv : runs (view_pos cv s) (fun _ => True)).
  { unfold view_pos. runs column_x_runs; [lia|]. intros x _ _. runs current_runs; [exact Hcv|exact (so_view _ (proj1 (proj1 Hs)))|]. done. }
  apply runs_ok in Hv as (v & Hv & _). step Hv. set (x := (pos.1 + v + gaps (options s) / of_Z 2)%F). set (y := (pos.2 + _)%F).
  apply runs_if; intros _; [returns; cbn; lia|]. runs closest_runs; [exact (Hfx v Hv)|intros H; by rewrite H in Hlx|]. intros o _ (k & cx & -> & Hk).
  step unwrap_ok; [done|]. cbv iota beta. set (i := length _ - 1). assert (Hkn : k <= length (columns s)) by lia.
  apply runs_if; intros Ei; [returns; exact Hkn|]. apply bool_decide_eq_false_1 in Ei.
  assert (Hi : i < length (columns s)) by (pose proof (take_while_length (fun y => fleb y x) (column_xs s)); unfold i in *; lia).
  destruct (lookup_lt_is_Some_2 _ _ Hi) as [c Hc]. step index_ok; [exact Hc|]. pose proof (space_col s i c Hs Hc) as Hok.
  pose proof (cm_active _ _ (proj1 Hok)) as Hact. eapply runs_bind with (R := fun '(j, _) => j <= length (Column.tiles c)).
  - apply runs_if; intros _.
    + runs (tile_offset_in i (Column.active_tile_idx c) s c); [done|exact Hc|lia|]. intros top _ _.
      runs runs_index; [rewrite (ColumnInv.length_data (env s)) by apply Hok; done|]. intros d _ _. returns. destruct (fleb _ _); lia.
    + pose proof (tile_offsets_runs (env s) c (so_env _ (proj1 (proj1 Hs))) (cm_base _ _ (proj1 Hok))) as Hos. apply runs_ok in Hos as (os & Hos & Hlo). step Hos.
      runs closest_runs; [apply Forall_fmap, (Hfy c os); [by eapply list_elem_of_lookup_2|done]|by destruct os|].
      intros o _ (j & ty & -> & Hj). rewrite length_fmap in Hj. unfold runs. cbn. lia.
  - intros [j ty] _ Hj. returns. destruct (fleb _ _); [exact Hkn|by exists c].
Qed.

Lemma scroll_amount_runs x s : space_ok s -> x ∈ g_windows (grid s) -> runs (scroll_amount_to_activate x s) (fun _ => True).
Proof.
  intros Hs Hx. unfold scroll_amount_to_activate. destruct (find_ok x s Hx) as (i & c & _ & _ & Hf & Hc & _). step unwrap_ok; [exact Hf|].
  apply runs_if; intros _; [done|]. pose proof (lookup_lt_Some _ _ _ Hc). runs target_view_pos_runs; [apply Hs|]. intros t _ _.
  runs column_offset_runs; [apply Hs|done|]. intros o _ _. runs column_x_runs; [rewrite (space_length_data s (proj1 (proj1 Hs))); lia|]. done.
Qed.
End ops.

(** * Operations of the scrolling layout: windows that commit, configuration, and time *)
Section ops.
Context {LE : LayoutElement} {LEL : LayoutElementLaws} {GE : Geometry} {GL : GeometryLaws} {LM : Libm} {KF : Keyframe}.
Implicit Types (t : Tile.Tile) (c : Column.Column) (s : ScrollingSpace.ScrollingSpace).
Import ScrollingSpace.
Context (cv : ClockView) (Hcv : cv_ok cv).

(** ** A new space, its configuration, and time *)
Lemma new_ok vs area sc o :
  options_ok o -> positive_finite sc = true -> space_ok (new vs area sc o) /\ grid (new vs area sc o) = {| g_cols := []; g_active := 0; g_prev := false |}.
Proof.
  intros Ho Hsc. split; [|done]. split; [|done]. split; [|by right]. constructor; try done. constructor.
Qed.

(** The configuration may change all of the surroundings; the windows stay. *)
Definition config_env vs area sc (o : LayoutOptions) : Env :=
  {| e_options := o; e_view_size := vs; e_working_area := compute_working_area area sc (struts o); e_parent_area := area; e_scale := sc |}.

Lemma update_config_to vs area sc o s :
  space_ok s -> options_ok o -> positive_finite sc = true ->
  runs (update_config cv vs area sc o s) (fun s' => space_ok s' /\ env s' = config_env vs area sc o /\ grid s' = grid s).
Proof.
  intros Hs Ho Hsc. unfold update_config. set (E' := config_env vs area sc o). assert (HE' : env_ok E') by done.
  runs (runs_mapM _ (fun c c' => col_ok E' c' /\ gcol c' = gcol c)).
  { intros c Hc. pose proof (proj2 (proj1 (space_cols s) Hs)) as HF. rewrite Forall_forall in HF.
    finish (ColumnOps.update_config_runs (env s) (so_env _ (proj1 (proj1 Hs))) E' c); [exact HE'|by apply HF|]. intros c' _ (? & Hids & _ & Ha). split; [done|].
    unfold gcol. by rewrite Hids, Ha. }
  intros cs _ HF. runs (runs_mapM _ caches).
  { intros c (i & Hi)%list_elem_of_lookup. destruct (Forall2_lookup_r _ _ _ _ _ HF Hi) as (c0 & _ & Hc & _).
    finish (col_width_runs E'); [exact HE'|apply Hc|by eapply col_nonempty, Hc|]. by intros w _ [? _]. }
  intros ws _ HW. set (s1 := Build_ScrollingSpace _ _ _ _ _ _ _ _ _ _ _ _).
  assert (Hg : grid s1 = grid s).
  { unfold grid. cbn. f_equal. eapply fmap_Forall2; [|exact HF]. by intros c c' [_ ?]. }
  assert (H1 : space_ok s1).
  { apply space_cols. destruct Hs as [[[] Ha] Hsi]. assert (Hok : Forall (col_ok E') cs) by (eapply Forall2_impl_r; [|exact HF]; by intros c c' [? _]).
    pose proof (Forall2_length _ _ _ HF) as Hl. split; [split; [constructor; try done|]|exact Hok].
    - eapply Forall_impl; [exact Hok|]. by intros c [? _].
    - cbn. by rewrite <-Hl.
    - by rewrite Hg.
    - by rewrite Hg.
    - unfold active_ok. cbn. rewrite <-Hl. destruct Ha as [?|[H ?]]; [by left|right]. split; [|done]. rewrite H in HF. by inversion HF. }
  destruct (is_empty s1) eqn:He; [by returns|]. apply runs_if; intros _; [by returns|].
  finish animate_to_column_runs; [exact Hcv|apply H1|by apply (space_active_lt s1 (proj1 H1))|]. intros s2 _ H2.
  destruct (reviewed_to _ _ H1 H2) as (? & He2 & Hg2). split_and!; [done|by rewrite He2|by rewrite Hg2].
Qed.

Lemma advance_animations_to s : space_ok s -> runs (advance_animations cv s) (to s (grid s)).
Proof.
  intros Hs. unfold advance_animations. pose proof (so_view _ (proj1 (proj1 Hs))) as Hv. eapply runs_bind with (R := view_ok).
  { destruct (view_offset s) as [|a|g]; [done|..].
    - runs (done_runs cv Hcv a Hv). intros b _ _. by destruct b.
    - unfold ViewOffset.advance_gesture. eapply runs_bind with (R := gesture_ok); [|done]. destruct Hv as [Ha Ht].
      runs (keep_ongoing_runs cv Hcv (fun a => a) (fun _ => false) (opt_total (fun a => a))); [done|done|done|]. intros a _ Ha'. by returns. }
  intros v _ Hv'. runs (runs_mapM _ (fun c c' => col_ok (env s) c' /\ col_same c c')).
  { intros c Hc. pose proof (proj2 (proj1 (space_cols s) Hs)) as HF. rewrite Forall_forall in HF. apply advance_animations_runs'; [exact Hcv|by apply HF]. }
  intros cs _ HF. returns. pose proof (set_view_to v s Hs Hv') as H1. eapply to_grid; [exact H1|apply (cols_same_to _ cs (to_ok _ _ _ H1) HF)|done].
Qed.

Lemma start_open_animation_to x s : space_ok s -> runs (start_open_animation cv x s) (fun '(_, s') => to s (grid s) s').
Proof.
  intros Hs. unfold start_open_animation. destruct (column_of x s) as [i|] eqn:Hi; [|returns; by apply to_refl].
  unfold with_column. unfold column_of in Hi. apply position_Some in Hi as (c & Hc & _). step index_ok; [exact Hc|].
  runs (start_open_animation_runs (env s)); [apply Hs|exact Hcv|by eapply space_col|]. intros [b c'] _ [Hc' Hsame]. returns.
  pose proof (update_column_runs i (fun _ => mret c') s c Hs Hc (conj Hc' Hsame)) as H. unfold update_column in H. rewrite (index_ok i c) in H by done. apply H.
Qed.

(** ** A window commits

    By the time [update_window] is called the client has already changed its
    window: [committed] is the space with window [w] in place of the old one. *)
Definition committed i j w s : ScrollingSpace :=
  set_columns (alter (fun c => Column.set_tiles (alter (Tile.set_window w) j (Column.tiles c)) c) i (columns s)) s.

Lemma with_window_lookup i j w s c :
  columns s !! i = Some c -> columns (committed i j w s) !! i = Some (Column.set_tiles (alter (Tile.set_window w) j (Column.tiles c)) c).
Proof. intros Hi. cbn. by rewrite list_lookup_alter_eq, Hi. Qed.

Lemma alter_fmap_same {A B} (f : A -> A) (g : A -> B) j (l : list A) (t : A) : l !! j = Some t -> g (f t) = g t -> g <$> alter f j l = g <$> l.
Proof.
  revert j. induction l as [|x l IH]; intros [|j] Hj H; try done; cbn in Hj |- *.
  - injection Hj as ->. change (g (f t) :: (g <$> l) = g t :: (g <$> l)). by rewrite H.
  - change (g x :: (g <$> alter f j l) = g x :: (g <$> l)). f_equal. by apply IH.
Qed.

(** The view follows the active column, unless the user holds it. *)
Lemma follow_resize_runs i (wn og : bool) rs o s :
  space_ok s -> i < length (columns s) -> runs (follow_resize cv i wn og rs o s) (to s (grid s)).
Proof.
  intros Hs Hi. unfold follow_resize. eapply runs_bind with (R := reviewed s).
  { destruct (if fneb o f0 then rs else None) as [e|]; [|returns; apply reviewed_refl, Hs].
    runs runs_index; [rewrite (space_length_data s (proj1 (proj1 Hs))); lia|]. intros w _ _. returns. eexists. split; [done|]. apply view_offset_ok.
    pose proof (so_view _ (proj1 (proj1 Hs))) as Hv. destruct (view_offset s); [done|exact Hv|done]. }
  intros s1 _ H1. pose proof (reviewed_to _ _ Hs H1) as H01. assert (Hc1 : columns s1 = columns s) by (by destruct H1 as (v & -> & _)).
  runs runs_index; [by rewrite Hc1|]. intros c _ Hc. set (s2 := if wn && _ then _ else s1).
  assert (H2 : to s (grid s) s2 /\ columns s2 = columns s).
  { unfold s2. destruct (_ && _); [|by split]. split; [|done]. eapply to_grid; [exact H01|apply restore_to, (to_ok _ _ _ H01)|done]. }
  destruct (if negb wn && _ then _ else _) as [uo s3] eqn:E3. assert (H3 : to s (grid s) s3 /\ columns s3 = columns s).
  { destruct (negb wn && _); injection E3 as <- <-; [|done]. split; [|apply H2]. eapply to_grid; [apply H2|apply restore_to, (to_ok _ _ _ (proj1 H2))|done]. }
  clearbody s2. clear E3. destruct H3 as [H3 Hc3]. destruct (interactive_resize s3), (ViewOffset.is_gesture (view_offset s3)); try (by returns).
  eapply runs_bind with (R := reviewed s3).
  { destruct uo as [x|]; [|returns; apply reviewed_refl, (to_mid _ _ _ H3)]. apply animate_view_runs; [exact Hcv|apply (to_mid _ _ _ H3)|rewrite Hc3; lia]. }
  intros s4 _ H4. pose proof (review_to _ _ _ _ H3 H4) as H04. assert (Hc4 : columns s4 = columns s3) by (by destruct H4 as (v & -> & _)).
  finish animate_to_column_with_runs; [exact Hcv|apply (to_mid _ _ _ H04)|by rewrite Hc4, Hc3| |].
  - destruct og; apply (so_env _ (to_mid _ _ _ H04)).
  - intros s5 _ H5. by eapply review_to.
Qed.

(** All tiles of a column move. *)
Lemma animate_tiles_runs d s c :
  space_ok s -> col_ok (env s) c ->
  runs (_ ← Column.tile_offsets c; ts ← mapM (Tile.animate_move_from cv d) (Column.tiles c); mret (Column.set_tiles ts c))
    (fun c' => col_ok (env s) c' /\ col_same c c').
Proof.
  intros Hs Hc. pose proof (cm_base _ _ (proj1 Hc)) as Hb. runs tile_offsets_runs; [apply (so_env _ (proj1 (proj1 Hs)))|done|]. intros _ _ _.
  runs (runs_mapM _ (kept (options s) (view_size s) (scale s))).
  { intros t Ht. apply tile_animate_move_runs; [apply (so_env _ (proj1 (proj1 Hs)))|exact Hcv|]. pose proof (cb_tiles _ _ Hb) as HF. rewrite Forall_forall in HF. by apply HF. }
  intros ts _ HF. returns. apply (kept_ok (env s)); [|done]. by exists ts.
Qed.

(** What a client may change in a commit: everything but the identity of its window
    and what the window has been asked for. *)
Definition commit_ok t (w : W) : Prop := win_id w = Tile.id t /\ win_ok w /\ win_pending_sizing_mode w = pending t.

Lemma commit_ok_serial t w (serial : option Z) : commit_ok t w -> commit_ok t (match serial with Some n => on_commit n w | None => w end).
Proof.
  intros (Hi & Hw & Hp). destruct serial as [n|]; [|done]. split_and!; [by rewrite on_commit_id| |by rewrite on_commit_pending].
  destruct Hw as [H1 H2 H3]. split; rewrite ?on_commit_size, ?on_commit_rules; done.
Qed.

(** The column once its window is up to date, with its new width. *)
Lemma committed_column_runs s i j x c t w (serial : option Z) :
  space_ok s -> columns s !! i = Some c -> Column.position_of x c = Some j -> Column.tiles c !! j = Some t -> commit_ok t w ->
  let c1 := Column.set_tiles (alter (Tile.set_window w) j (Column.tiles c)) c in
  let t1 := match serial with Some n => Tile.set_window (on_commit n w) (Tile.set_window w t) | None => Tile.set_window w t end in
  runs (c ← Column.update_window cv x (Column.set_tiles (<[j := t1]> (Column.tiles c1)) c1);
        w ← Column.col_width c; c ← Column.update_tile_sizes false c; mret (w, c))
    (fun '(w', c') => col_ok (env s) c' /\ gcol c' = gcol c /\ caches c' w').
Proof.
  intros Hs Hi Hp Ht Hw c1 t1. set (w1 := match serial with Some n => on_commit n w | None => w end).
  assert (H1 : Column.set_tiles (<[j := t1]> (Column.tiles c1)) c1 = Column.set_tiles (<[j := Tile.set_window w1 t]> (Column.tiles c)) c).
  { unfold c1, Column.set_tiles. cbn. f_equal. rewrite insert_alter, list_alter_alter_eq, insert_alter. apply list_alter_ext; [|done].
    intros y Hy. unfold t1, w1. by destruct serial. }
  rewrite H1. destruct (commit_ok_serial t w serial Hw) as (Hid & Hok & Hpend). pose proof (so_env _ (proj1 (proj1 Hs))) as HE.
  runs (update_window_runs (env s) HE cv Hcv x j t w1 c); [by eapply space_col|done..|]. intros c2 _ (H2 & Hids2 & Ha2).
  runs col_width_runs; [exact HE|apply H2|by eapply col_nonempty, H2|]. intros w' _ [Hw' _].
  runs (sizes_ok_runs (env s)); [apply H2|apply H2|apply H2|]. intros c3 _ [H3 [[Hids3 _ Hw3] Ha3]]. returns. split_and!; [done| |by apply Hw3].
  unfold gcol. congruence.
Qed.

Lemma update_window_to i j x w serial t s :
  space_ok s -> g_find x (grid s) = Some (i, j) -> (exists c, columns s !! i = Some c /\ Column.tiles c !! j = Some t) -> commit_ok t w ->
  runs (update_window cv x serial (committed i j w s)) (to s (grid s)).
Proof.
  intros Hs Hfind (c & Hc & Ht) Hw. unfold update_window. pose proof (lookup_lt_Some _ _ _ Hc) as Hi. pose proof (space_length_data s (proj1 (proj1 Hs))) as Hld.
  assert (Hids : forall c, Column.tiles c !! j = Some t -> ids (Column.set_tiles (alter (Tile.set_window w) j (Column.tiles c)) c) = ids c).
  { intros c' Ht'. unfold ids. cbn. eapply alter_fmap_same; [exact Ht'|]. apply Hw. }
  assert (Hg : grid (committed i j w s) = grid s).
  { unfold grid. cbn. f_equal. eapply alter_fmap_same; [exact Hc|]. unfold gcol. by rewrite (Hids c Ht). }
  assert (Hxw : x ∈ g_windows (grid s)).
  { unfold g_find in Hfind. destruct (position _ _) as [k|] eqn:Ek; [|done]. apply position_Some in Ek as (col & Hk & Hx & _). apply bool_decide_eq_true_1 in Hx.
    apply elem_of_windows. by exists k, col. }
  destruct (find_ok x s Hxw) as (i' & c' & j' & t' & Hf & Hc' & Hp & Ht' & Hx & Hf'). rewrite Hfind in Hf'. injection Hf' as <- <-.
  rewrite Hc in Hc'. injection Hc' as <-. rewrite Ht in Ht'. injection Ht' as <-.
  pose proof (with_window_lookup i j w s c Hc) as Hcc. set (c1 := Column.set_tiles _ c) in *.
  assert (Hsrc : source (Some x) (committed i j w s) = Ok (i, j)).
  { unfold source. rewrite column_of_grid, Hg, <-column_of_grid, Hf. cbn [unwrap mbind res_bind]. rewrite (index_ok i c1) by done. cbn [mbind res_bind].
    rewrite (position_of_ext x c c1) by (by apply Hids). by rewrite Hp. }
  step Hsrc. cbv iota beta. step index_ok; [exact Hcc|]. step (index_ok j (Tile.set_window w t)); [cbn; by rewrite list_lookup_alter_eq, Ht|].
  change (data (committed i j w s)) with (data s). destruct (lookup_lt_is_Some_2 (data s) i) as [w0 Hw0]; [lia|]. step index_ok; [exact Hw0|].
  pose proof (committed_column_runs s i j x c t w serial Hs Hc Hp Ht Hw) as Hcol. fold c1 in Hcol. apply runs_ok in Hcol as ([w' c3] & Hcol & H3 & Hg3 & Hw3).
  set (cc := Column.set_tiles (<[j := _]> (Column.tiles c1)) c1) in *. clearbody cc.
  destruct (Column.update_window cv x cc) as [ca|]; [|done]. cbn [mbind res_bind] in Hcol |- *.
  destruct (Column.col_width ca) as [wa|]; [|done]. cbn [mbind res_bind] in Hcol |- *.
  destruct (Column.update_tile_sizes false ca) as [cb|]; [|done]. cbn [mbind res_bind] in Hcol |- *. injection Hcol as -> ->.
  set (s1 := set_data _ _). assert (H1 : to s (grid s) s1).
  { injection Hg3 as Hids3 Ha3. pose proof (replace_same_ids s i c c3 w' Hs Hc H3 Hw3 Hids3) as H. rewrite Ha3, (set_active_tile_id i s c Hc) in H.
    replace s1 with (set_data (<[i:=w']> (data s)) (set_columns (<[i:=c3]> (columns s)) s)); [done|]. unfold s1, committed. cbn.
    unfold set_data, set_columns. cbn. f_equal. rewrite !insert_alter, list_alter_alter_eq. by apply list_alter_ext. }
  assert (Hl1 : length (columns s1) = length (columns s)) by (unfold s1; cbn; by rewrite length_insert, length_alter).
  assert (Hc3 : columns s1 !! i = Some c3) by (unfold s1; cbn; apply list_lookup_insert_eq; by rewrite length_alter).
  assert (Hl3 : j < length (Column.tiles c3)).
  { rewrite <-length_ids. injection Hg3 as -> _. rewrite length_ids. by eapply lookup_lt_Some. }
  clearbody s1. destruct (lookup_lt_is_Some_2 _ _ Hl3) as [t3 Ht3]. step index_ok; [exact Ht3|]. set (og := match Tile.resize_animation t3 with Some _ => true | None => false end).
  set (move := fun f : f64 => if og then Column.animate_move_from_with_config cv f (window_resize (options s1)) else Column.offset_move_anim_current cv f). assert (Hmove : forall f c, col_ok (env s1) c -> runs (move f c) (fun c' => col_ok (env s1) c' /\ col_same c c')).
  { intros f c' Hc'. unfold move. destruct og; [|by apply offset_move_anim_runs]. apply animate_move_with_runs; [exact Hcv|done|]. apply (so_env _ (to_mid _ _ _ H1)). }
  eapply runs_bind with (R := fun s2 => to s (grid s) s2 /\ length (columns s2) = length (columns s)).
  { apply runs_if; intros _; [|by returns]. assert (Hend : forall lo hi f, lo <= hi -> hi <= length (columns s1) ->
      runs (cs ← on_range lo hi (move f) (columns s1); mret (set_columns cs s1)) (fun s2 => to s (grid s) s2 /\ length (columns s2) = length (columns s))).
    { intros lo hi f Hlo Hhi. finish set_range_runs; [apply (to_ok _ _ _ H1)|done|done|apply Hmove|]. intros s2 _ (H2 & Hl2 & _).
      split; [|congruence]. eapply to_grid; [exact H1|exact H2|done]. }
    destruct (active_column_idx s1 <=? i); apply Hend; lia. }
  intros s2 _ [H2 Hl2]. destruct (lookup_lt_is_Some_2 (columns s2) i) as [c4 Hc4]; [lia|].
  runs (update_column_runs i _ s2 c4 (to_ok _ _ _ H2) Hc4).
  { apply runs_if; intros _; [by returns; split; [eapply space_col, Hc4; apply H2|]|]. apply animate_tiles_runs; [apply (to_ok _ _ _ H2)|eapply space_col, Hc4; apply H2]. }
  intros s3 _ [H4 Hl4]. assert (H03 : to s (grid s) s3) by (eapply to_grid; [exact H2|exact H4|done]). apply runs_if; intros _; [|by returns].
  finish follow_resize_runs; [apply (to_ok _ _ _ H03)|lia|]. intros s4 _ H5. eapply to_grid; [exact H03|exact H5|done].
Qed.
End ops.
