(* ===== verification/ScrollingGrid.v ===== *)
(** * What the operations on the grid keep

    Facts about the abstract operations of [ScrollingSpec]: no window is lost or
    doubled, and moves keep the focus on the window that had it. *)

From stdpp Require Import base numbers option list.
From Stdlib Require Import ZArith Lia SpecFloat.
From S2P Require Import Prelude.
From S2P Require Import Runs.
From S2P Require Import F64.
From S2P Require Import Duration.
From S2P Require Import Clock.
From S2P Require Import Gesture.
From S2P Require Import Animation.
From S2P Require Import AnimTotal.
From S2P Require Import LayoutTypes.
From S2P Require Import F64Sign.
From S2P Require Import Tile.
From S2P Require Import TileInv.
From S2P Require Import Column.
From S2P Require Import ColumnInv.
From S2P Require Import ColumnOps.
From S2P Require Import Scrolling.
From S2P Require Import ScrollingSpec.

From S2P Require Import ScrollingInv.
From S2P Require Import ScrollingOps.
From S2P Require Import ScrollingTiles.
From S2P Require Import ScrollingRemove.
From S2P Require Import ScrollingMoves.
From S2P Require Import ScrollingConsume.
From S2P Require Import ScrollingSwap.

Section grid.
Context {LE : LayoutElement}.
Implicit Types (g : Grid Id) (c : GCol Id).

Definition grid_ok g : Prop :=
  (g_active g < length (g_cols g) \/ g_cols g = [] /\ g_active g = 0) /\ Forall (fun c => c.2 < length c.1) (g_cols g).
Definition focused g : option Id := active_of (g_active g) g.

(** ** Windows *)
Lemma activate_windows i g : g_windows (g_activate i g) = g_windows g.
Proof. unfold g_activate. by case_bool_decide. Qed.
Lemma set_active_windows i j g : g_windows (set_active_tile i j g) = g_windows g.
Proof.
  unfold g_windows, set_active_tile, alter_col. cbn. generalize (g_cols g) i. clear. intros l. induction l as [|x l IH]; intros [|i]; cbn; [done..|].
  by rewrite IH.
Qed.
Lemma focus_windows f g : g_windows (on_active_col (col_focus f) g) = g_windows g.
Proof.
  unfold g_windows, on_active_col, alter_col. cbn. generalize (g_cols g) (g_active g). clear. intros l. induction l as [|x l IH]; intros [|i]; cbn; [done..|].
  by rewrite IH.
Qed.
Lemma insert_windows i c (l : list (GCol Id)) : (insert_at i c l ≫= fst) ≡ₚ c.1 ++ (l ≫= fst).
Proof. by rewrite insert_at_perm. Qed.

Lemma add_windows idx x b g : g_windows (g_add idx x b g) ≡ₚ x :: g_windows g.
Proof. unfold g_add, g_add_column, g_windows. by destruct b; cbn; rewrite insert_windows. Qed.
Lemma add_column_windows idx c b g : g_windows (g_add_column idx c b g) ≡ₚ c.1 ++ g_windows g.
Proof. unfold g_add_column, g_windows. by destruct b; cbn; rewrite insert_windows. Qed.

Lemma remove_windows i j x g : g_at i j g = Some x -> g_windows g ≡ₚ x :: g_windows (g_remove i j g).
Proof.
  unfold g_at. destruct (g_cols g !! i) as [c|] eqn:Hi; [|done]. cbn. intros Hj. by apply (g_windows_remove i j c x g).
Qed.
Lemma add_to_windows i j x b g c : g_cols g !! i = Some c -> g_windows (g_add_to i j x b g) ≡ₚ x :: g_windows g.
Proof.
  intros Hi. unfold g_add_to. rewrite Hi. set (n := default _ j).
  assert (H : g_windows (alter_col i (col_insert n x b) g) ≡ₚ x :: g_windows g).
  { destruct (g_windows_alter i (col_insert n x b) c g Hi) as (rest & -> & ->). unfold col_insert. cbn [fst]. by rewrite insert_at_perm. }
  destruct b; [by rewrite activate_windows|done].
Qed.

(** A window that leaves one place and enters another. *)
Lemma moved_windows i j x g g1 g2 :
  g_at i j g = Some x -> g_windows g1 = g_windows g -> g_cols g1 = g_cols g -> g_windows g2 ≡ₚ x :: g_windows (g_remove i j g1) -> g_windows g2 ≡ₚ g_windows g.
Proof.
  intros Hx Hw Hc ->. rewrite <-Hw. symmetry. apply remove_windows. unfold g_at in *. by rewrite Hc.
Qed.

Lemma with_prev_windows b g : g_windows (with_prev b g) = g_windows g.
Proof. done. Qed.

Lemma consume_left_windows x g : g_windows (g_consume_or_expel_left x g) ≡ₚ g_windows g.
Proof.
  unfold g_consume_or_expel_left. destruct (g_source x g) as [[i j]|]; [|done]. destruct (g_at i j g) as [y|] eqn:Hy; [|done].
  assert (Hi : i < length (g_cols g)) by (unfold g_at in Hy; destruct (g_cols g !! i) eqn:E; [by eapply lookup_lt_Some|done]).
  set (b := was_active i j g). destruct (bool_decide (col_len i g = 1)) eqn:El.
  - apply bool_decide_eq_true_1 in El. case_bool_decide as E0; [done|]. set (g1 := if b then with_prev true g else g).
    assert (Hc1 : g_cols g1 = g_cols g) by (unfold g1; by destruct b). unfold col_len in El. unfold g_at in Hy. destruct (g_cols g !! i) as [c|] eqn:Hci; [|done].
    assert (Hj0 : j = 0) by (cbn in Hy; apply lookup_lt_Some in Hy; lia). subst j.
    destruct (lookup_lt_is_Some_2 (g_cols (g_remove i 0 g1)) (i - 1)) as [ck Hck].
    { rewrite (g_remove_length i 0 c) by (by rewrite Hc1). rewrite bool_decide_eq_true_2 by done. rewrite Hc1. lia. }
    apply (moved_windows i 0 y g g1); [unfold g_at; by rewrite Hci|unfold g1; by destruct b|done|]. by eapply add_to_windows.
  - assert (H : g_windows (g_add (Some i) y b (g_remove i j g)) ≡ₚ g_windows g) by (apply (moved_windows i j y g g); [done..|apply add_windows]).
    by destruct b.
Qed.
Lemma consume_right_windows x g : g_windows (g_consume_or_expel_right x g) ≡ₚ g_windows g.
Proof.
  unfold g_consume_or_expel_right. destruct (g_source x g) as [[i j]|]; [|done]. destruct (g_at i j g) as [y|] eqn:Hy; [|done].
  assert (Hi : i < length (g_cols g)) by (unfold g_at in Hy; destruct (g_cols g !! i) eqn:E; [by eapply lookup_lt_Some|done]).
  set (b := was_active i j g). destruct (bool_decide (col_len i g = 1)) eqn:El.
  - apply bool_decide_eq_true_1 in El. case_bool_decide as E0; [done|]. set (g1 := if b then with_prev false g else g).
    assert (Hc1 : g_cols g1 = g_cols g) by (unfold g1; by destruct b). unfold col_len in El. unfold g_at in Hy. destruct (g_cols g !! i) as [c|] eqn:Hci; [|done].
    assert (Hj0 : j = 0) by (cbn in Hy; apply lookup_lt_Some in Hy; lia). subst j.
    destruct (lookup_lt_is_Some_2 (g_cols (g_remove i 0 g1)) i) as [ck Hck].
    { rewrite (g_remove_length i 0 c) by (by rewrite Hc1). rewrite bool_decide_eq_true_2 by done. rewrite Hc1. lia. }
    apply (moved_windows i 0 y g g1); [unfold g_at; by rewrite Hci|unfold g1; by destruct b|done|]. by eapply add_to_windows.
  - apply (moved_windows i j y g g); [done..|apply add_windows].
Qed.
Lemma consume_windows g : g_windows (g_consume g) ≡ₚ g_windows g.
Proof.
  unfold g_consume. destruct (g_at _ _ g) as [y|] eqn:Hy; [|done]. apply (moved_windows (g_active g + 1) 0 y g g); [done..|].
  unfold g_at in Hy. destruct (g_cols g !! (g_active g + 1)) as [c|] eqn:Hc; [|done]. pose proof (lookup_lt_Some _ _ _ Hc).
  destruct (lookup_lt_is_Some_2 (g_cols (g_remove (g_active g + 1) 0 g)) (g_active g)) as [ck Hck].
  { rewrite (g_remove_length _ 0 c) by done. case_bool_decide; lia. }
  by eapply add_to_windows.
Qed.
Lemma expel_windows g : g_windows (g_expel g) ≡ₚ g_windows g.
Proof.
  unfold g_expel. destruct (g_at _ _ g) as [y|] eqn:Hy; [|done]. case_bool_decide; [done|].
  apply (moved_windows (g_active g) (col_len (g_active g) g - 1) y g g); [done..|apply add_windows].
Qed.

Lemma move_column_windows k g : g_windows (g_move_column_to k g) ≡ₚ g_windows g.
Proof.
  unfold g_move_column_to. destruct (g_cols g !! g_active g) as [c|] eqn:Hc; [|done]. case_bool_decide; [done|].
  rewrite (g_windows_delete _ c g Hc). unfold g_windows at 1. cbn. by rewrite insert_windows.
Qed.
Lemma insert_perm {A} j (x y : A) l : l !! j = Some x -> x :: <[j := y]> l ≡ₚ y :: l.
Proof.
  revert j. induction l as [|z l IH]; intros [|j] Hj; try done; cbn in Hj |- *; [injection Hj as ->; constructor|].
  rewrite (Permutation_swap z x), (IH j Hj). apply Permutation_swap.
Qed.
Lemma grid_swap_perm {A} j k (x y : A) l : l !! j = Some x -> l !! k = Some y -> <[j := y]> (<[k := x]> l) ≡ₚ l.
Proof. intros Hj Hk. apply swapped_perm with (i := j) (j := k). by apply vec_swap_swapped. Qed.
Lemma move_within_windows (f : GCol Id -> nat) g : g_windows (on_active_col (fun c => col_swap (f c) c) g) ≡ₚ g_windows g.
Proof.
  unfold on_active_col. destruct (g_cols g !! g_active g) as [c|] eqn:Hc.
  - destruct (g_windows_alter (g_active g) (fun c => col_swap (f c) c) c g Hc) as (rest & -> & ->). f_equiv. unfold col_swap.
    destruct (c.1 !! c.2) eqn:Hx; [|done]. destruct (c.1 !! f c) eqn:Hy; [|done]. cbn. by apply grid_swap_perm.
  - unfold alter_col, with_cols. replace (alter _ _ _) with (g_cols g); [by destruct g|]. apply list_eq. intros m.
    destruct (decide (m = g_active g)) as [->|Hm]; [by rewrite list_lookup_alter_eq, Hc|by rewrite list_lookup_alter_ne].
Qed.
Lemma swap_windows l g : g_windows (g_swap l g) ≡ₚ g_windows g.
Proof.
  unfold g_swap. set (i := g_active g). set (k := if l then i - 1 else i + 1). destruct (active_of i g) as [x|] eqn:Hx; [|done].
  destruct (active_of k g) as [y|] eqn:Hy; [|done]. case_bool_decide as Hik; [done|]. unfold active_of in Hx, Hy.
  destruct (g_cols g !! i) as [ci|] eqn:Hi; [|done]. destruct (g_cols g !! k) as [ck|] eqn:Hk; [|done]. cbn in Hx, Hy.
  set (g1 := alter_col i (col_replace y) g). assert (Hk1 : g_cols g1 !! k = Some ck) by (unfold g1; by rewrite alter_other).
  change (g_windows (alter_col k (col_replace x) g1) ≡ₚ g_windows g).
  destruct (g_windows_alter i (col_replace y) ci g Hi) as (r1 & H1 & H2). destruct (g_windows_alter k (col_replace x) ck g1 Hk1) as (r2 & H3 & H4).
  fold g1 in H2. apply (Permutation_cons_inv (a := y)). rewrite H4, H1. unfold col_replace at 1. cbn [fst].
  change (y :: <[ck.2 := x]> ck.1 ++ r2) with ((y :: <[ck.2 := x]> ck.1) ++ r2). rewrite (insert_perm ck.2 y x ck.1 Hy). cbn [app]. rewrite <-H3, H2.
  change (x :: (col_replace y ci).1 ++ r1) with ((x :: <[ci.2 := y]> ci.1) ++ r1). by rewrite (insert_perm ci.2 x y ci.1 Hx).
Qed.
Lemma activate_window_windows x g : g_windows (g_activate_window x g) = g_windows g.
Proof. unfold g_activate_window. destruct (g_find x g) as [[i j]|]; [|done]. by rewrite activate_windows, set_active_windows. Qed.

(** ** Focus *)
Lemma col_delete_focus j c : c.2 < length c.1 -> j <> c.2 -> (col_delete j c).1 !! (col_delete j c).2 = c.1 !! c.2.
Proof.
  intros Hc Hj. unfold col_delete. cbn [fst snd]. destruct (Nat.ltb_spec j c.2) as [H|H].
  - rewrite lookup_delete_at_ge by lia. f_equal. lia.
  - rewrite bool_decide_eq_false_2 by done. cbn [andb]. by rewrite lookup_delete_at_lt by lia.
Qed.
Lemma col_insert_focus n x b c : c.2 < length c.1 -> n <= length c.1 ->
  (col_insert n x b c).1 !! (col_insert n x b c).2 = if b : bool then Some x else c.1 !! c.2.
Proof.
  intros Hc Hn. unfold col_insert. cbn [fst snd]. destruct b; [by apply lookup_insert_at_eq|]. destruct (Nat.leb_spec n c.2) as [H|H].
  - rewrite Nat.add_1_r. by apply lookup_insert_at_gt.
  - by apply lookup_insert_at_lt.
Qed.

Lemma activate_fields i g : g_active (g_activate i g) = i /\ g_cols (g_activate i g) = g_cols g.
Proof. unfold g_activate. by case_bool_decide as E. Qed.
Lemma focused_activate i g : focused (g_activate i g) = active_of i g.
Proof. unfold g_activate. case_bool_decide as E; [by subst i|done]. Qed.
Lemma focused_prev b g : focused (with_prev b g) = focused g.
Proof. done. Qed.

Lemma active_of_alter_other i k f g : k <> i -> active_of i (alter_col k f g) = active_of i g.
Proof. intros H. unfold active_of. by rewrite (alter_other k i f g H). Qed.

(** A column other than the active one goes, or a new one comes in the background. *)
Lemma remove_other_focus i g : grid_ok g -> i <> g_active g -> i < length (g_cols g) -> focused (g_remove_column i g) = focused g.
Proof.
  intros [Ha _] Hi Hil. destruct Ha as [Ha|[H0 _]]; [|rewrite H0 in Hil; cbn in Hil; lia].
  assert (Hl : length (delete i (g_cols g)) = length (g_cols g) - 1) by (apply length_delete, lookup_lt_is_Some_2, Hil).
  unfold g_remove_column. destruct (delete i (g_cols g)) as [|c0 l0] eqn:Ed; [cbn in Hl; lia|]. rewrite <-Ed in *. clear Ed c0 l0.
  unfold focused, active_of. destruct (Nat.ltb_spec i (g_active g)) as [H|H].
  - cbn. rewrite lookup_delete_at_ge by lia. replace (S (g_active g - 1)) with (g_active g) by lia. done.
  - rewrite bool_decide_eq_false_2 by done. cbn [andb]. rewrite Hl, Nat.min_l by lia. unfold g_activate. cbn [g_active]. rewrite bool_decide_eq_true_2 by done. cbn.
    by rewrite lookup_delete_at_lt by lia.
Qed.
Lemma remove_focus i j x g :
  grid_ok g -> g_at i j g = Some x -> was_active i j g = false -> focused (g_remove i j g) = focused g.
Proof.
  intros Hg Hx Hw. unfold g_at in Hx. destruct (g_cols g !! i) as [c|] eqn:Hi; [|done]. cbn in Hx. unfold was_active in Hw. rewrite Hi in Hw.
  unfold g_remove. rewrite Hi. pose proof (Forall_lookup_1 _ _ _ _ (proj2 Hg) Hi) as Hc. cbn in Hc. pose proof (lookup_lt_Some _ _ _ Hx).
  destruct (decide (i = g_active g)) as [->|Hia].
  - rewrite bool_decide_eq_true_2 in Hw by done. cbn in Hw. apply bool_decide_eq_false_1 in Hw. assert (Hj : j <> c.2) by congruence.
    rewrite bool_decide_eq_false_2 by lia. unfold focused, active_of. cbn [g_active alter_col with_cols].
    rewrite (alter_lookup (g_active g) (col_delete j) g), Hi. exact (col_delete_focus j c Hc Hj).
  - destruct (bool_decide (length c.1 = 1)); [apply remove_other_focus; [done|done|by eapply lookup_lt_Some]|]. by apply active_of_alter_other.
Qed.

Lemma add_focus_new k x g : k <= length (g_cols g) -> focused (g_add (Some k) x true g) = Some x.
Proof. intros Hk. unfold focused, active_of, g_add, g_add_column. cbn [g_cols g_active default id]. by rewrite lookup_insert_at_eq. Qed.
Lemma add_focus_same k x g : grid_ok g -> g_cols g <> [] -> k <= length (g_cols g) -> focused (g_add (Some k) x false g) = focused g.
Proof.
  intros [[Ha|[H0 _]] _] Hne Hk; [|done]. unfold focused, active_of, g_add, g_add_column. cbn [g_cols g_active default id].
  assert (He : g_empty g = false) by (unfold g_empty; by destruct (g_cols g)). rewrite He. cbn [negb andb]. destruct (Nat.leb_spec k (g_active g)) as [H|H].
  - cbv iota. rewrite Nat.add_1_r. by rewrite lookup_insert_at_gt by lia.
  - cbv iota. by rewrite lookup_insert_at_lt by lia.
Qed.

Lemma active_of_insert i n x b c g : g_cols g !! i = Some c -> c.2 < length c.1 -> n <= length c.1 ->
  active_of i (alter_col i (col_insert n x b) g) = if b : bool then Some x else active_of i g.
Proof. intros Hi Hc Hn. unfold active_of. rewrite (alter_lookup i (col_insert n x b) g), Hi. cbn. by apply col_insert_focus. Qed.
Lemma add_to_focus i x b g c :
  grid_ok g -> g_cols g !! i = Some c -> focused (g_add_to i None x b g) = if b : bool then Some x else focused g.
Proof.
  intros Hg Hi. pose proof (Forall_lookup_1 _ _ _ _ (proj2 Hg) Hi) as Hc. cbn in Hc. unfold g_add_to. rewrite Hi. cbn [default].
  pose proof (active_of_insert i (length c.1) x b c g Hi Hc ltac:(lia)) as H. destruct b; [by rewrite focused_activate|].
  unfold focused. cbn [g_active alter_col with_cols]. destruct (decide (i = g_active g)) as [->|Hia]; [exact H|by apply active_of_alter_other].
Qed.

(** Removing keeps the grid in order. *)
Lemma col_delete_ok j c : c.2 < length c.1 -> j < length c.1 -> length c.1 <> 1 -> (col_delete j c).2 < length (col_delete j c).1.
Proof.
  intros Hc Hj Hl. unfold col_delete. cbn [fst snd]. rewrite length_delete by (by apply lookup_lt_is_Some_2).
  destruct (Nat.ltb_spec j c.2); [lia|]. destruct (bool_decide (j = c.2)) eqn:E1; [apply bool_decide_eq_true_1 in E1|apply bool_decide_eq_false_1 in E1]; cbn; [|lia].
  case_bool_decide; lia.
Qed.
Lemma remove_ok i j x g : grid_ok g -> g_at i j g = Some x -> grid_ok (g_remove i j g).
Proof.
  intros [Ha HF] Hx. unfold g_at in Hx. destruct (g_cols g !! i) as [c|] eqn:Hi; [|done]. cbn in Hx.
  pose proof (Forall_lookup_1 _ _ _ _ HF Hi) as Hc. cbn in Hc. pose proof (lookup_lt_Some _ _ _ Hx). pose proof (lookup_lt_Some _ _ _ Hi) as Hil.
  assert (Ha' : g_active g < length (g_cols g)) by (destruct Ha as [?|[H0 _]]; [done|rewrite H0 in Hil; cbn in Hil; lia]). split.
  - unfold g_remove. rewrite Hi. case_bool_decide as Hl; [|left; cbn; by rewrite length_alter].
    assert (Hld : length (delete i (g_cols g)) = length (g_cols g) - 1) by (apply length_delete; by eexists). unfold g_remove_column.
    destruct (delete i (g_cols g)) as [|c0 l0] eqn:Ed; [right; cbn in *; split; [done|lia]|]. rewrite <-Ed in *. assert (0 < length (delete i (g_cols g))) by (rewrite Ed; cbn; lia).
    clear Ed c0 l0. left. destruct (Nat.ltb_spec i (g_active g)); [cbn; lia|]. destruct (bool_decide (i = g_active g) && _) eqn:Eb.
    + apply andb_true_iff in Eb as [Eb%bool_decide_eq_true_1 _]. destruct (Nat.ltb_spec 0 i); cbn; lia.
    + destruct (activate_fields (g_active g `min` (length (delete i (g_cols g)) - 1))
        {| g_cols := delete i (g_cols g); g_active := g_active g; g_prev := if bool_decide (i + 1 = g_active g) then false else g_prev g |}) as [E1 E2].
      rewrite E1, E2. cbn [g_cols]. lia.
  - rewrite (g_remove_cols i j c g Hi). case_bool_decide; [by apply Forall_delete|]. apply Forall_alter; [done|].
    intros c' Hc' Hok. rewrite Hi in Hc'. injection Hc' as <-. by apply col_delete_ok.
Qed.

(** ** Moves keep the focus *)
Lemma was_active_focused i j x g : g_at i j g = Some x -> was_active i j g = true -> focused g = Some x.
Proof.
  unfold g_at, was_active, focused, active_of. intros Hx [Hi%bool_decide_eq_true_1 Hj%bool_decide_eq_true_1]%andb_true_iff. rewrite Hi.
  destruct (g_cols g !! i) as [c|]; [|done]. cbn in *. injection Hj as ->. done.
Qed.
Lemma prev_ok b g : grid_ok (with_prev b g) <-> grid_ok g.
Proof. done. Qed.
Lemma prev_at b i j g : g_at i j (with_prev b g) = g_at i j g /\ was_active i j (with_prev b g) = was_active i j g.
Proof. done. Qed.

Lemma joined_focus i j k x g1 c :
  grid_ok g1 -> g_at i j g1 = Some x -> g_cols (g_remove i j g1) !! k = Some c ->
  focused (g_add_to k None x (was_active i j g1) (g_remove i j g1)) = focused g1.
Proof.
  intros Hg Hx Hc. rewrite (add_to_focus k x _ _ c) by (done || by eapply remove_ok). destruct (was_active i j g1) eqn:Ew.
  - symmetry. by eapply was_active_focused.
  - by eapply remove_focus.
Qed.
Lemma left_focus i j k x g :
  grid_ok g -> g_at i j g = Some x -> k <= length (g_cols (g_remove i j g)) -> g_cols (g_remove i j g) <> [] ->
  focused (g_add (Some k) x (was_active i j g) (g_remove i j g)) = focused g.
Proof.
  intros Hg Hx Hk Hne. destruct (was_active i j g) eqn:Ew.
  - rewrite add_focus_new by done. symmetry. by eapply was_active_focused.
  - rewrite add_focus_same by (done || by eapply remove_ok). by eapply remove_focus.
Qed.

Lemma at_col i j x g : g_at i j g = Some x -> exists c, g_cols g !! i = Some c /\ c.1 !! j = Some x.
Proof. unfold g_at. destruct (g_cols g !! i) as [c|]; [|done]. cbn. eauto. Qed.

Lemma consume_left_focus x g : grid_ok g -> focused (g_consume_or_expel_left x g) = focused g.
Proof.
  intros Hg. unfold g_consume_or_expel_left. destruct (g_source x g) as [[i j]|]; [|done]. destruct (g_at i j g) as [y|] eqn:Hy; [|done].
  destruct (at_col i j y g Hy) as (c & Hi & Hj). pose proof (lookup_lt_Some _ _ _ Hi). destruct (bool_decide (col_len i g = 1)) eqn:El.
  - apply bool_decide_eq_true_1 in El. case_bool_decide as E0; [done|]. unfold col_len in El. rewrite Hi in El.
    assert (Hj0 : j = 0) by (apply lookup_lt_Some in Hj; lia). subst j. set (g1 := if was_active i 0 g then with_prev true g else g).
    assert (H1 : grid_ok g1 /\ g_at i 0 g1 = Some y /\ was_active i 0 g1 = was_active i 0 g /\ focused g1 = focused g /\ g_cols g1 = g_cols g)
      by (unfold g1; destruct (was_active i 0 g) eqn:E; by split_and!).
    destruct H1 as (Hg1 & Hy1 & <- & <- & Hc1). destruct (lookup_lt_is_Some_2 (g_cols (g_remove i 0 g1)) (i - 1)) as [ck Hck].
    { rewrite (g_remove_length i 0 c) by (by rewrite Hc1). rewrite bool_decide_eq_true_2 by done. rewrite Hc1. lia. }
    by eapply joined_focus.
  - assert (Hl : length (g_cols (g_remove i j g)) = length (g_cols g)).
    { rewrite (g_remove_length i j c) by done. unfold col_len in El. rewrite Hi in El. by rewrite El. }
    assert (H2 : focused (g_add (Some i) y (was_active i j g) (g_remove i j g)) = focused g).
    { apply left_focus; [done|done|lia|]. intros H0. rewrite H0 in Hl. cbn in Hl. lia. }
    by destruct (was_active i j g).
Qed.
Lemma consume_right_focus x g : grid_ok g -> focused (g_consume_or_expel_right x g) = focused g.
Proof.
  intros Hg. unfold g_consume_or_expel_right. destruct (g_source x g) as [[i j]|]; [|done]. destruct (g_at i j g) as [y|] eqn:Hy; [|done].
  destruct (at_col i j y g Hy) as (c & Hi & Hj). pose proof (lookup_lt_Some _ _ _ Hi). destruct (bool_decide (col_len i g = 1)) eqn:El.
  - apply bool_decide_eq_true_1 in El. case_bool_decide as E0; [done|]. unfold col_len in El. rewrite Hi in El.
    assert (Hj0 : j = 0) by (apply lookup_lt_Some in Hj; lia). subst j. set (g1 := if was_active i 0 g then with_prev false g else g).
    assert (H1 : grid_ok g1 /\ g_at i 0 g1 = Some y /\ was_active i 0 g1 = was_active i 0 g /\ focused g1 = focused g /\ g_cols g1 = g_cols g)
      by (unfold g1; destruct (was_active i 0 g) eqn:E; by split_and!).
    destruct H1 as (Hg1 & Hy1 & <- & <- & Hc1). destruct (lookup_lt_is_Some_2 (g_cols (g_remove i 0 g1)) i) as [ck Hck].
    { rewrite (g_remove_length i 0 c) by (by rewrite Hc1). rewrite bool_decide_eq_true_2 by done. rewrite Hc1. lia. }
    by eapply joined_focus.
  - assert (Hl : length (g_cols (g_remove i j g)) = length (g_cols g)).
    { rewrite (g_remove_length i j c) by done. unfold col_len in El. rewrite Hi in El. by rewrite El. }
    apply left_focus; [done|done|lia|]. intros H0. rewrite H0 in Hl. cbn in Hl. lia.
Qed.
Lemma consume_focus g : grid_ok g -> focused (g_consume g) = focused g.
Proof.
  intros Hg. unfold g_consume. destruct (g_at _ _ g) as [y|] eqn:Hy; [|done]. destruct (at_col _ _ y g Hy) as (c & Hi & Hj). pose proof (lookup_lt_Some _ _ _ Hi).
  destruct (lookup_lt_is_Some_2 (g_cols (g_remove (g_active g + 1) 0 g)) (g_active g)) as [ck Hck].
  { rewrite (g_remove_length _ 0 c) by done. case_bool_decide; lia. }
  assert (Hw : was_active (g_active g + 1) 0 g = false) by (unfold was_active; rewrite bool_decide_eq_false_2 by lia; done).
  pose proof (joined_focus (g_active g + 1) 0 (g_active g) y g ck Hg Hy Hck) as H'. by rewrite Hw in H'.
Qed.
(** The bottom window of the active column goes; the focus stays in the column, on the
    window above it if it was the focused one. *)
Definition focus_above_bottom (g : Grid Id) : option Id := c ← g_cols g !! g_active g; c.1 !! (c.2 `min` (length c.1 - 2)).
Lemma expel_focus g : grid_ok g -> focused (g_expel g) = focus_above_bottom g.
Proof.
  intros Hg. unfold g_expel, focus_above_bottom. cbv zeta. unfold col_len, g_at.
  destruct (g_cols g !! g_active g) as [c|] eqn:Hc; cbn [mbind option_bind]; [|unfold focused, active_of; by rewrite Hc].
  pose proof (Forall_lookup_1 _ _ _ _ (proj2 Hg) Hc) as Hlt. cbn in Hlt. pose proof (lookup_lt_Some _ _ _ Hc) as Hi.
  destruct (lookup_lt_is_Some_2 c.1 (length c.1 - 1)) as [y Hy]; [lia|]. rewrite Hy. case_bool_decide as E.
  { unfold focused, active_of. rewrite Hc. cbn [mbind option_bind]. f_equal. lia. }
  set (g1 := g_remove (g_active g) (length c.1 - 1) g).
  assert (Hy1 : g_at (g_active g) (length c.1 - 1) g = Some y) by (unfold g_at; by rewrite Hc).
  assert (H1 : g1 = alter_col (g_active g) (col_delete (length c.1 - 1)) g)
    by (unfold g1, g_remove; rewrite Hc; by rewrite bool_decide_eq_false_2).
  assert (Hl : length (g_cols g1) = length (g_cols g)) by (rewrite H1; cbn; by rewrite length_alter).
  assert (Hok1 : grid_ok g1) by by eapply remove_ok.
  rewrite add_focus_same; [|done|intros H0; rewrite H0 in Hl; cbn in Hl; lia|].
  - unfold focused. rewrite H1. unfold active_of. cbn [g_cols g_active alter_col with_cols]. rewrite list_lookup_alter_eq, Hc.
    cbn [fmap option_fmap option_map mbind option_bind col_delete fst snd].
    destruct (Nat.ltb_spec (length c.1 - 1) c.2); [lia|]. rewrite list_lookup_delete_lt; [f_equal|];
      (destruct (decide (length c.1 - 1 = c.2)); [rewrite !bool_decide_eq_true_2 by lia|rewrite bool_decide_eq_false_2 by lia]; cbn; lia).
  - rewrite Hl. cbn. lia.
Qed.
Lemma move_column_focus k g : grid_ok g -> k < length (g_cols g) -> focused (g_move_column_to k g) = focused g.
Proof.
  intros Hg Hk. unfold g_move_column_to. destruct (g_cols g !! g_active g) as [c|] eqn:Hc; [|done]. case_bool_decide; [done|].
  unfold focused, active_of. cbn [g_cols g_active]. rewrite lookup_insert_at_eq; [by rewrite Hc|]. rewrite length_delete by (by eexists). lia.
Qed.
Lemma move_within_focus f g : (forall c, c.2 < length c.1 -> f c < length c.1) -> grid_ok g -> focused (on_active_col (fun c => col_swap (f c) c) g) = focused g.
Proof.
  intros Hf Hg. unfold focused, active_of, on_active_col. cbn [g_active alter_col with_cols].
  rewrite (alter_lookup (g_active g) (fun c => col_swap (f c) c) g). destruct (g_cols g !! g_active g) as [c|] eqn:Hc; [|done]. cbn [fmap option_fmap option_map mbind option_bind].
  pose proof (Forall_lookup_1 _ _ _ _ (proj2 Hg) Hc) as Hlt. cbn in Hlt. unfold col_swap. destruct (lookup_lt_is_Some_2 c.1 c.2 Hlt) as [x Hx].
  destruct (lookup_lt_is_Some_2 c.1 (f c) (Hf c Hlt)) as [y Hy]. rewrite Hx, Hy. cbn [fst snd]. rewrite <-Hx. destruct (decide (f c = c.2)) as [He|Hne]; [rewrite He in Hy |- *|].
  - rewrite list_lookup_insert_eq by (by rewrite length_insert). congruence.
  - rewrite list_lookup_insert_ne by done. rewrite list_lookup_insert_eq by by apply Hf. done.
Qed.
Lemma swap_focus l g : grid_ok g -> focused (g_swap l g) = focused g.
Proof.
  intros Hg. unfold g_swap. set (i := g_active g). set (k := if l then i - 1 else i + 1). destruct (active_of i g) as [x|] eqn:Hx; [|done].
  destruct (active_of k g) as [y|] eqn:Hy; [|done]. case_bool_decide as Hik; [done|]. unfold focused. fold i. rewrite Hx. unfold active_of in *. cbn [g_cols g_active].
  destruct (g_cols g !! k) as [ck|] eqn:Hk; [|done]. rewrite list_lookup_alter_eq, list_lookup_alter_ne, Hk by done. cbn.
  apply list_lookup_insert_eq. pose proof (Forall_lookup_1 _ _ _ _ (proj2 Hg) Hk) as Hlt. done.
Qed.

(** ** There and back *)
Lemma delete_insert_same {A} i (x : A) l : i <= length l -> delete i (insert_at i x l) = l.
Proof.
  intros Hi. apply list_eq. intros j. destruct (decide (j < i)).
  - by rewrite lookup_delete_at_lt, lookup_insert_at_lt by lia.
  - rewrite lookup_delete_at_ge by lia. by rewrite lookup_insert_at_gt by lia.
Qed.
Lemma insert_delete_same {A} i (x : A) l : l !! i = Some x -> insert_at i x (delete i l) = l.
Proof. intros Hi. rewrite (delete_insert_at i x x l Hi). by apply list_insert_id. Qed.

Lemma find_at x i j g : g_find x g = Some (i, j) -> g_at i j g = Some x.
Proof.
  unfold g_find, g_at. destruct (position _ (g_cols g)) as [k|]; [|done]. cbn. destruct (g_cols g !! k) as [c|] eqn:Hc; [|done]. cbn.
  destruct (position _ c.1) as [l|] eqn:El; [|done]. cbn. intros [= <- <-]. rewrite Hc. cbn. apply position_Some in El as (y & Hy & Hyx & _).
  apply bool_decide_eq_true_1 in Hyx. by subst y.
Qed.
Lemma find_of x g : x ∈ g_windows g -> exists k l, g_find x g = Some (k, l).
Proof.
  intros (k & c & Hk & Hx)%elem_of_windows. unfold g_find. destruct (position (fun c : GCol Id => _) (g_cols g)) as [k'|] eqn:Ek.
  - apply position_Some in Ek as (c' & Hk' & Hc' & _). apply bool_decide_eq_true_1 in Hc'. cbn. rewrite Hk'. cbn.
    destruct (position _ c'.1) as [l|] eqn:El; [by eexists _, _|]. rewrite position_None in El. specialize (El x Hc'). by rewrite bool_decide_eq_true_2 in El.
  - rewrite position_None in Ek. specialize (Ek c (list_elem_of_lookup_2 _ _ _ Hk)). by rewrite bool_decide_eq_true_2 in Ek.
Qed.

(** A window opened next to the active one and closed again. *)
Lemma add_remove_grid x g :
  grid_ok g -> (x ∉ g_windows g) -> let g2 := g_remove_source (Some x) (g_add None x true g) in g_cols g2 = g_cols g /\ g_active g2 = g_active g.
Proof.
  intros Hg Hx g2. set (k := if g_empty g then 0 else g_active g + 1). set (g1 := g_add None x true g) in *.
  assert (Hk : k <= length (g_cols g)) by (unfold k, g_empty; destruct (proj1 Hg) as [?|[-> _]]; [destruct (g_cols g); lia|done]).
  assert (H1 : g1 = {| g_cols := insert_at k ([x], 0) (g_cols g); g_active := k; g_prev := negb (g_empty g) && bool_decide (k = g_active g + 1) |}) by done.
  assert (Hf : g_find x g1 = Some (k, 0)).
  { destruct (find_of x g1) as (i & j & Hf).
    { assert (HP : g_windows g1 ≡ₚ x :: g_windows g) by apply add_windows. rewrite HP. left. }
    rewrite Hf. pose proof (find_at _ _ _ _ Hf) as Hat. destruct (at_col _ _ _ _ Hat) as (c & Hi & Hj). rewrite H1 in Hi. cbn [g_cols] in Hi.
    assert (Hik : i = k).
    { destruct (decide (i = k)) as [|Hne]; [done|]. exfalso. apply Hx, elem_of_windows. destruct (decide (i < k)).
      - rewrite lookup_insert_at_lt in Hi by lia. exists i, c. split; [done|by eapply list_elem_of_lookup_2].
      - destruct i as [|i]; [lia|]. rewrite lookup_insert_at_gt in Hi by lia. exists i, c. split; [done|by eapply list_elem_of_lookup_2]. }
    subst i. rewrite lookup_insert_at_eq in Hi by done. injection Hi as <-. destruct j; [done|]. by destruct j. }
  unfold g2, g_remove_source, g_source. rewrite Hf. unfold g_remove. rewrite H1. cbn [g_cols]. rewrite lookup_insert_at_eq by done. rewrite bool_decide_eq_true_2 by done.
  unfold g_remove_column. cbn [g_cols g_active g_prev]. rewrite delete_insert_same by done. rewrite bool_decide_eq_false_2 by lia.
  unfold k, g_empty in *. destruct (g_cols g) as [|c0 l] eqn:Ec.
  - cbn. split; [done|]. by destruct (proj1 Hg) as [H|[_ H]]; rewrite ?Ec in *; cbn in *; [lia|].
  - rewrite (proj2 (Nat.ltb_ge _ _)) by lia. cbn [negb andb]. rewrite !bool_decide_eq_true_2 by done. cbn [andb].
    rewrite (proj2 (Nat.ltb_lt _ _)) by lia. cbn [g_cols g_active]. split; [done|lia].
Qed.

(** A lone window joined to the column on its left and taken out again. *)
Lemma fst_alter i (f : GCol Id -> GCol Id) h (l : list (GCol Id)) : (forall c, (f c).1 = h c.1) -> fst <$> alter f i l = alter h i (fst <$> l).
Proof. intros H. revert i. induction l as [|c l IH]; intros [|i]; cbn; [done..| |]; [by rewrite H|]. f_equal. apply IH. Qed.

Lemma consume_expel_grid g c :
  grid_ok g -> g_active g <> 0 -> g_cols g !! g_active g = Some c -> length c.1 = 1 ->
  let g2 := g_consume_or_expel_right None (g_consume_or_expel_left None g) in
  fst <$> g_cols g2 = fst <$> g_cols g /\ g_active g2 = g_active g.
Proof.
  intros Hg Ha Hc Hl g2. set (i := g_active g) in *. destruct c as [ids a]. destruct ids as [|x [|? ?]]; try done. cbn in Hl.
  pose proof (Forall_lookup_1 _ _ _ _ (proj2 Hg) Hc) as Hlt. cbn in Hlt. assert (a = 0) as -> by lia. pose proof (lookup_lt_Some _ _ _ Hc) as Hil.
  destruct (lookup_lt_is_Some_2 (g_cols g) (i - 1)) as [[idsk ak] Hk]; [lia|].
  pose proof (Forall_lookup_1 _ _ _ _ (proj2 Hg) Hk) as Hkl. cbn in Hkl. set (n := length idsk) in *.
  assert (H1 : g_consume_or_expel_left None g
    = g_activate (i - 1) (alter_col (i - 1) (col_insert n x true) {| g_cols := delete i (g_cols g); g_active := i - 1; g_prev := false |})).
  { unfold g_consume_or_expel_left, g_source. fold i. rewrite Hc. cbn [mbind option_bind]. unfold g_at, col_len. rewrite Hc. cbn [mbind option_bind lookup list_lookup fst snd length].
    rewrite (bool_decide_eq_true_2 (1 = 1)) by done. rewrite (bool_decide_eq_false_2 (i = 0)) by done.
    assert (Hw : was_active i 0 g = true) by (unfold was_active; rewrite Hc; by rewrite !bool_decide_eq_true_2). rewrite Hw.
    assert (Hr : g_remove i 0 (with_prev true g) = {| g_cols := delete i (g_cols g); g_active := i - 1; g_prev := false |}).
    { unfold g_remove. cbn [g_cols with_prev]. rewrite Hc. cbn [fst length]. rewrite (bool_decide_eq_true_2 (1 = 1)) by done. unfold g_remove_column. cbn [g_cols g_active g_prev with_prev]. fold i.
      rewrite (bool_decide_eq_false_2 (i + 1 = i)) by lia. destruct (delete i (g_cols g)) as [|c0 l] eqn:Ed.
      { apply (f_equal length) in Ed. rewrite length_delete in Ed by (by eexists). cbn in Ed. lia. }
      rewrite (proj2 (Nat.ltb_ge i i)) by lia. rewrite bool_decide_eq_true_2 by done. cbn [andb]. by rewrite (proj2 (Nat.ltb_lt 0 i)) by lia. }
    rewrite Hr. unfold g_add_to. cbn [g_cols]. rewrite lookup_delete_at_lt by lia. by rewrite Hk. }
  set (g1 := alter_col _ _ _) in H1. assert (Hg1 : g_consume_or_expel_left None g = g1) by (rewrite H1; unfold g_activate; by rewrite bool_decide_eq_true_2).
  assert (Hc1 : g_cols g1 !! (i - 1) = Some (insert_at n x idsk, n)).
  { unfold g1. rewrite (alter_lookup (i - 1) (col_insert n x true)). cbn [g_cols]. by rewrite lookup_delete_at_lt, Hk by lia. }
  assert (Hn : length (insert_at n x idsk) = S n) by (by apply length_insert_at).
  unfold g2. rewrite Hg1. unfold g_consume_or_expel_right, g_source. change (g_active g1) with (i - 1). rewrite Hc1. cbn [mbind option_bind].
  unfold g_at, col_len. rewrite Hc1. cbn [mbind option_bind fst snd]. rewrite lookup_insert_at_eq by done. rewrite Hn, (bool_decide_eq_false_2 (S n = 1)) by lia.
  assert (Hw : was_active (i - 1) n g1 = true) by (unfold was_active; rewrite Hc1; by rewrite !bool_decide_eq_true_2). rewrite Hw.
  assert (Hr : g_remove (i - 1) n g1 = alter_col (i - 1) (col_delete n) g1) by (eapply g_remove_shared; [exact Hc1|cbn; lia]). rewrite Hr.
  unfold g_add, g_add_column. cbn [default id g_cols g_active]. split; [|lia]. rewrite insert_at_fmap. cbn [fst].
  assert (Hf : fst <$> g_cols (alter_col (i - 1) (col_delete n) g1) = delete i (fst <$> g_cols g)).
  { unfold g1, alter_col, with_cols. cbn [g_cols]. rewrite list_alter_alter_eq, (fst_alter _ _ (fun ids => delete n (insert_at n x ids))) by done. rewrite list_fmap_delete.
    apply alter_at_id with (x := idsk); [|by apply delete_insert_same]. rewrite lookup_delete_at_lt by lia. by rewrite list_lookup_fmap, Hk. }
  rewrite Hf. replace (i - 1 + 1) with i by lia. apply insert_delete_same. by rewrite list_lookup_fmap, Hc.
Qed.
End grid.
