(* ===== verification/ScrollingThms.v ===== *)
(** * The scrolling layout: its theorems

    All operations of a scrolling space as one type, what callers promise, what
    each does to the windows, and the spaces they reach. *)

From stdpp Require Import base numbers option list.
From Stdlib Require Import ZArith Lia SpecFloat.
From S2P Require Import Prelude.
From S2P Require Import Runs.
From S2P Require Import F64.
From S2P Require Import Duration.
From S2P Require Import Clock.
From S2P Require Import Gesture.
From S2P Require Import Animation.
From S2P Require Import AnimTotal.
From S2P Require Import LayoutTypes.
From S2P Require Import F64Sign.
From S2P Require Import Tile.
From S2P Require Import TileInv.
From S2P Require Import Column.
From S2P Require Import ColumnHeights.
From S2P Require Import ColumnInv.
From S2P Require Import ColumnOps.
From S2P Require Import Scrolling.
From S2P Require Import ScrollingSpec.

From S2P Require Import ScrollingInv.
From S2P Require Import ScrollingOps.
From S2P Require Import ScrollingTiles.
From S2P Require Import ScrollingRemove.
From S2P Require Import ScrollingMoves.
From S2P Require Import ScrollingConsume.
From S2P Require Import ScrollingSwap.
From S2P Require Import ScrollingModes.
From S2P Require Import ScrollingViews.
From S2P Require Import ScrollingGrid.

Section thms.
Context {LE : LayoutElement} {LEL : LayoutElementLaws} {GE : Geometry} {GL : GeometryLaws} {LM : Libm} {KF : Keyframe}.
Implicit Types (cv : ClockView) (t : Tile.Tile) (c : Column.Column) (s : ScrollingSpace.ScrollingSpace) (g : Grid Id).
Import ScrollingSpace.

(** ** The operations *)
Inductive ScrollOp :=
| OpAddTile (idx : option nat) (t : Tile.Tile) (activate : bool) (width : ColumnWidth) (full : bool)
| OpAddTileToColumn (i : nat) (j : option nat) (t : Tile.Tile) (activate : bool)
| OpAddTileRightOf (x : Id) (t : Tile.Tile) (activate : bool) (width : ColumnWidth) (full : bool)
| OpRemoveTile (x : Id) (tr : Transaction)
| OpRemoveActiveTile (tr : Transaction)
| OpRemoveActiveColumn
| OpActivateWindow (x : Id)
| OpFocusLeft | OpFocusRight | OpFocusColumnFirst | OpFocusColumnLast | OpFocusColumn (i : nat)
| OpFocusUp | OpFocusDown | OpFocusTop | OpFocusBottom | OpFocusWindowInColumn (i : Z)
| OpFocusDownOrLeft | OpFocusDownOrRight | OpFocusUpOrLeft | OpFocusUpOrRight
| OpMoveLeft | OpMoveRight | OpMoveColumnToFirst | OpMoveColumnToLast | OpMoveColumnToIndex (i : nat)
| OpMoveUp | OpMoveDown
| OpConsumeOrExpelLeft (x : option Id) | OpConsumeOrExpelRight (x : option Id)
| OpConsumeIntoColumn | OpExpelFromColumn | OpSwap (d : ScrollDirection)
| OpSetFullscreen (x : Id) (b : bool) | OpSetMaximized (x : Id) (b : bool)
| OpSetColumnDisplay (d : ColumnDisplay) | OpToggleTabbed
| OpCenterColumn | OpCenterWindow (x : option Id) | OpCenterVisibleColumns | OpExpandColumn
| OpToggleWidth (forwards : bool) | OpToggleFullWidth
| OpSetWindowWidth (x : option Id) (change : SizeChange) | OpSetWindowHeight (x : option Id) (change : SizeChange)
| OpResetWindowHeight (x : option Id)
| OpToggleWindowWidth (x : option Id) (forwards : bool) | OpToggleWindowHeight (x : option Id) (forwards : bool)
| OpGestureBegin (touchpad : bool) | OpGestureUpdate (dx : f64) (ts : Duration) (touchpad : bool) | OpGestureEnd (touchpad : option bool)
| OpDndBegin | OpDndScroll (delta : f64) | OpDndEnd
| OpResizeBegin (x : Id) (edges : ResizeEdge) | OpResizeUpdate (x : Id) (delta : Point) | OpResizeEnd (x : option Id)
| OpUpdateConfig (view_size : Size) (parent_area : Rect) (scale : f64) (o : LayoutOptions)
| OpAdvanceAnimations
| OpCommit (x : Id) (w : W) (serial : option Z)
| OpStartOpenAnimation (x : Id).

(** What operations return is left out; a window that is not there leaves the
    space as it is. *)
Definition second {A} (m : res (A * ScrollingSpace)) : res ScrollingSpace := '(_, s) ← m; mret s.
Definition removal {A} (s : ScrollingSpace) (m : res (option (A * ScrollingSpace))) : res ScrollingSpace :=
  o ← m; mret (match o with Some (_, s') => s' | None => s end).

(** A commit reaches the layout with the window already changed. *)
Definition commit cv (x : Id) (w : W) (serial : option Z) s : res ScrollingSpace :=
  '(i, j) ← source (Some x) s; update_window cv x serial (committed i j w s).

Definition run_op cv (op : ScrollOp) s : res ScrollingSpace :=
  match op with
  | OpAddTile i t a w f => add_tile cv i t a w f None s
  | OpAddTileToColumn i j t a => add_tile_to_column cv i j t a s
  | OpAddTileRightOf x t a w f => add_tile_right_of cv x t a w f s
  | OpRemoveTile x tr => second (remove_tile cv x tr s)
  | OpRemoveActiveTile tr => removal s (remove_active_tile cv tr s)
  | OpRemoveActiveColumn => removal s (remove_active_column cv s)
  | OpActivateWindow x => second (activate_window cv x s)
  | OpFocusLeft => second (focus_left cv s)
  | OpFocusRight => second (focus_right cv s)
  | OpFocusColumnFirst => focus_column_first cv s
  | OpFocusColumnLast => focus_column_last cv s
  | OpFocusColumn i => focus_column cv i s
  | OpFocusUp => second (focus_up s)
  | OpFocusDown => second (focus_down s)
  | OpFocusTop => focus_top s
  | OpFocusBottom => focus_bottom s
  | OpFocusWindowInColumn i => focus_window_in_column i s
  | OpFocusDownOrLeft => focus_down_or_left cv s
  | OpFocusDownOrRight => focus_down_or_right cv s
  | OpFocusUpOrLeft => focus_up_or_left cv s
  | OpFocusUpOrRight => focus_up_or_right cv s
  | OpMoveLeft => second (move_left cv s)
  | OpMoveRight => second (move_right cv s)
  | OpMoveColumnToFirst => move_column_to_first cv s
  | OpMoveColumnToLast => move_column_to_last cv s
  | OpMoveColumnToIndex i => move_column_to_index cv i s
  | OpMoveUp => second (move_up cv s)
  | OpMoveDown => second (move_down cv s)
  | OpConsumeOrExpelLeft x => consume_or_expel_window_left cv x s
  | OpConsumeOrExpelRight x => consume_or_expel_window_right cv x s
  | OpConsumeIntoColumn => consume_into_column cv s
  | OpExpelFromColumn => expel_from_column cv s
  | OpSwap d => swap_window_in_direction cv d s
  | OpSetFullscreen x b => second (set_fullscreen cv x b s)
  | OpSetMaximized x b => second (set_maximized cv x b s)
  | OpSetColumnDisplay d => set_column_display cv d s
  | OpToggleTabbed => toggle_column_tabbed_display cv s
  | OpCenterColumn => center_column cv s
  | OpCenterWindow x => center_window cv x s
  | OpCenterVisibleColumns => center_visible_columns cv s
  | OpExpandColumn => expand_column_to_available_width cv s
  | OpToggleWidth fw => toggle_width fw s
  | OpToggleFullWidth => toggle_full_width s
  | OpSetWindowWidth x ch => set_window_width x ch s
  | OpSetWindowHeight x ch => set_window_height x ch s
  | OpResetWindowHeight x => reset_window_height x s
  | OpToggleWindowWidth x fw => toggle_window_width x fw s
  | OpToggleWindowHeight x fw => toggle_window_height x fw s
  | OpGestureBegin tp => view_offset_gesture_begin cv tp s
  | OpGestureUpdate dx ts tp => second (view_offset_gesture_update dx ts tp s)
  | OpGestureEnd tp => second (view_offset_gesture_end cv tp s)
  | OpDndBegin => dnd_scroll_gesture_begin cv s
  | OpDndScroll d => second (dnd_scroll_gesture_scroll cv d s)
  | OpDndEnd => dnd_scroll_gesture_end cv s
  | OpResizeBegin x e => second (interactive_resize_begin cv x e s)
  | OpResizeUpdate x d => second (interactive_resize_update x d s)
  | OpResizeEnd x => interactive_resize_end cv x s
  | OpUpdateConfig vs area sc o => update_config cv vs area sc o s
  | OpAdvanceAnimations => advance_animations cv s
  | OpCommit x w serial => commit cv x w serial s
  | OpStartOpenAnimation x => second (start_open_animation cv x s)
  end.

(** What callers promise: windows that come in are new and in order, windows and
    columns that are named exist, and the clock and the arithmetic of gestures
    stay within range. *)
Definition op_pre cv (op : ScrollOp) s : Prop :=
  let windows := g_windows (grid s) in
  match op with
  | OpAddTile i t _ _ _ => tile_incoming t /\ (Tile.id t ∉ windows) /\ forall k, i = Some k -> k <= length (columns s)
  | OpAddTileToColumn i j t _ => tile_incoming t /\ (Tile.id t ∉ windows)
      /\ exists c, columns s !! i = Some c /\ forall k, j = Some k -> k <= length (Column.tiles c)
  | OpAddTileRightOf x t _ _ _ => tile_incoming t /\ (Tile.id t ∉ windows) /\ x ∈ windows
  | OpRemoveTile x _ | OpSetFullscreen x _ | OpSetMaximized x _ | OpResizeBegin x _ => x ∈ windows
  | OpConsumeOrExpelLeft x | OpConsumeOrExpelRight x | OpCenterWindow x | OpSetWindowWidth x _ | OpSetWindowHeight x _
  | OpResetWindowHeight x | OpToggleWindowWidth x _ | OpToggleWindowHeight x _ => source_ok x s
  | OpGestureUpdate _ ts _ => time_ok ts
  | OpGestureEnd _ | OpDndEnd => time_ok (cv_now_unadjusted cv) /\ gesture_finite cv s
  | OpDndScroll _ => time_ok (cv_now_unadjusted cv) /\ scroll_finite s
  | OpUpdateConfig _ _ sc o => options_ok o /\ positive_finite sc = true
  | OpCommit x w _ => exists i j c t, g_find x (grid s) = Some (i, j) /\ columns s !! i = Some c /\ Column.tiles c !! j = Some t /\ commit_ok t w
  | _ => True
  end.

(** ** What the operations do to the grid of windows *)
Definition g_move (k : option nat) g : Grid Id := match k with Some k => if g_empty g then g else g_move_column_to k g | None => g end.
Definition move_target (op : ScrollOp) g : option nat :=
  match op with
  | OpMoveLeft => if bool_decide (g_active g = 0) then None else Some (g_active g - 1)
  | OpMoveRight => if (length (g_cols g) <=? g_active g + 1) then None else Some (g_active g + 1)
  | OpMoveColumnToFirst => Some 0
  | OpMoveColumnToLast => Some (last_col g)
  | OpMoveColumnToIndex i => Some ((i - 1) `min` last_col g)
  | _ => None
  end.

Definition op_spec (op : ScrollOp) g g' : Prop :=
  match op with
  | OpAddTile i t a _ _ => g' = g_add i (Tile.id t) a g
  | OpAddTileToColumn i j t a => g' = g_add_to i j (Tile.id t) a g
  | OpAddTileRightOf x t a _ _ => exists i j, g_find x g = Some (i, j) /\ g' = g_add (Some (i + 1)) (Tile.id t) a g
  | OpRemoveTile x _ => g' = g_remove_source (Some x) g
  | OpRemoveActiveTile _ => g' = g_remove_source None g
  | OpRemoveActiveColumn => g' = (if g_empty g then g else g_remove_column (g_active g) g)
  | OpActivateWindow x => g' = g_activate_window x g
  | OpFocusLeft => g' = g_focus_left g
  | OpFocusRight => g' = g_focus_right g
  | OpFocusColumnFirst => g' = g_activate 0 g
  | OpFocusColumnLast => g' = g_focus_last g
  | OpFocusColumn i => g' = g_focus_column i g
  | OpFocusUp => g' = g_focus_up g
  | OpFocusDown => g' = g_focus_down g
  | OpFocusTop => g' = on_active_col (col_focus (fun _ _ => 0)) g
  | OpFocusBottom => g' = on_active_col (col_focus (fun len _ => len - 1)) g
  | OpFocusWindowInColumn i => g' = on_active_col (col_focus (fun len _ => Z.to_nat (i - 1) `min` (len - 1))) g
  | OpFocusDownOrLeft => g' = g_focus_or down g_focus_left g
  | OpFocusDownOrRight => g' = g_focus_or down g_focus_right g
  | OpFocusUpOrLeft => g' = g_focus_or up g_focus_left g
  | OpFocusUpOrRight => g' = g_focus_or up g_focus_right g
  | OpMoveLeft | OpMoveRight | OpMoveColumnToFirst | OpMoveColumnToLast | OpMoveColumnToIndex _ => g' = g_move (move_target op g) g
  | OpMoveUp => g' = on_active_col (fun c : GCol Id => col_swap (up (length c.1) c.2) c) g
  | OpMoveDown => g' = on_active_col (fun c : GCol Id => col_swap (down (length c.1) c.2) c) g
  | OpConsumeOrExpelLeft x => g' = g_consume_or_expel_left x g
  | OpConsumeOrExpelRight x => g' = g_consume_or_expel_right x g
  | OpConsumeIntoColumn => g' = g_consume g
  | OpExpelFromColumn => g' = g_expel g
  | OpSwap d => g' = g_swap (is_left d) g
  | OpSetFullscreen x b | OpSetMaximized x b => g' = g \/ b = true /\ g' = g_consume_or_expel_right (Some x) g
  | OpGestureEnd _ | OpDndEnd => exists k, g' = with_active k g /\ (g_empty g = false -> k < length (g_cols g))
  | _ => g' = g
  end.

(** ** Every operation runs, keeps the invariant and follows the specification *)
Definition op_result (op : ScrollOp) s s' : Prop :=
  space_ok s' /\ op_spec op (grid s) (grid s')
  /\ match op with OpUpdateConfig vs area sc o => env s' = config_env vs area sc o | _ => env s' = env s end.

Lemma second_runs {A} (m : res (A * ScrollingSpace)) (Q : ScrollingSpace -> Prop) : runs m (fun '(_, s') => Q s') -> runs (second m) Q.
Proof. unfold runs, second. by destruct m as [[a s]|]. Qed.
Lemma removal_runs {A} s (m : res (option (A * ScrollingSpace))) (Q : ScrollingSpace -> Prop) :
  runs m (fun o => Q match o with Some (_, s') => s' | None => s end) -> runs (removal s m) Q.
Proof. unfold runs, removal. by destruct m as [o|]. Qed.

Section refinement.
Context (cv : ClockView) (Hcv : cv_ok cv).

Lemma add_tile_right_of_to x t a w f s :
  space_ok s -> tile_incoming t -> (Tile.id t ∉ g_windows (grid s)) -> x ∈ g_windows (grid s) ->
  runs (add_tile_right_of cv x t a w f s) (fun s' => exists i j, g_find x (grid s) = Some (i, j) /\ to s (g_add (Some (i + 1)) (Tile.id t) a (grid s)) s').
Proof.
  intros Hs Ht Hid Hx. destruct (find_ok x s Hx) as (i & c & j & _ & Hf & Hc & _ & _ & _ & Hg). unfold add_tile_right_of. step unwrap_ok; [exact Hf|].
  pose proof (lookup_lt_Some _ _ _ Hc). finish add_tile_runs; [exact Hcv|done|done|done|by intros k [= <-]; lia|done|]. intros s' _ H'. by exists i, j.
Qed.

Lemma remove_source_to x s i j g' : g_source x (grid s) = Some (i, j) -> g' = g_remove i j (grid s) -> g' = g_remove_source x (grid s).
Proof. intros Hx ->. unfold g_remove_source. by rewrite Hx. Qed.

(** A column moves to a place that depends on the space. *)
Lemma move_to k s : space_ok s -> is_empty s = false -> k < length (columns s) -> runs (move_column_to cv k s) (to s (g_move (Some k) (grid s))).
Proof. intros Hs He Hk. unfold g_move. rewrite grid_empty, He. apply move_column_to_runs; [done|done|by rewrite He|done]. Qed.
Lemma move_empty k s : space_ok s -> is_empty s = true -> g_move k (grid s) = grid s.
Proof. intros Hs He. unfold g_move. by destruct k; rewrite ?grid_empty, ?He. Qed.

Definition is_move (op : ScrollOp) : bool :=
  match op with OpMoveLeft | OpMoveRight | OpMoveColumnToFirst | OpMoveColumnToLast | OpMoveColumnToIndex _ => true | _ => false end.
Lemma run_move op s : space_ok s -> is_move op = true -> runs (run_op cv op s) (to s (g_move (move_target op (grid s)) (grid s))).
Proof.
  intros Hs Hm. pose proof (so_le _ (proj1 (proj1 Hs))) as Hle. destruct (is_empty s) eqn:He.
  { rewrite move_empty by done. pose proof (empty_active s Hs He) as Ha. pose proof He as Hc. unfold is_empty in Hc.
    destruct (columns s) eqn:Ec; [|done]. destruct op; try done; cbn [run_op].
    - unfold move_left. rewrite Ha. by returns; apply to_refl.
    - unfold move_right. rewrite Ec. by returns; apply to_refl.
    - unfold move_column_to_first, move_column_to. rewrite Ha. by returns; apply to_refl.
    - unfold move_column_to_last. rewrite He. by returns; apply to_refl.
    - unfold move_column_to_index. rewrite He. by returns; apply to_refl. }
  pose proof (nonempty_length s He) as Hl. pose proof (space_active_lt s (proj1 Hs) He) as Ha.
  destruct op; try done; cbn [run_op move_target]; unfold last_col; rewrite ?grid_length; change (g_active (grid s)) with (active_column_idx s).
  - apply second_runs. unfold move_left. destruct (bool_decide _) eqn:E; [by returns; apply to_refl|]. runs move_to; [done|done|lia|]. intros s' _ H. by returns.
  - apply second_runs. unfold move_right. destruct (_ <=? _) eqn:E; [by returns; apply to_refl|]. apply Nat.leb_gt in E.
    runs move_to; [done|done|done|]. intros s' _ H. by returns.
  - by apply move_to.
  - unfold move_column_to_last. rewrite He. step usub_ok; [lia|]. apply move_to; [done|done|lia].
  - unfold move_column_to_index. rewrite He. step usub_ok; [lia|]. apply move_to; [done|done|lia].
Qed.

Lemma top_focus s : space_ok s -> runs (focus_top s) (to s (on_active_col (col_focus (fun _ _ => 0)) (grid s))).
Proof.
  intros Hs. apply (on_active__runs _ (fun _ _ => 0)); [done|]. intros c Hc. finish (focus_top_runs (env s)); [done|]. by intros c' _ (? & ? & ?).
Qed.
Lemma bottom_focus s : space_ok s -> runs (focus_bottom s) (to s (on_active_col (col_focus (fun len _ => len - 1)) (grid s))).
Proof.
  intros Hs. apply (on_active__runs _ (fun len _ => len - 1)); [done|]. intros c Hc. finish (focus_bottom_runs (env s)); [done|]. by intros c' _ (? & ? & ?).
Qed.
Lemma index_focus i s : space_ok s -> runs (focus_window_in_column i s) (to s (on_active_col (col_focus (fun len _ => Z.to_nat (i - 1) `min` (len - 1))) (grid s))).
Proof.
  intros Hs. apply (on_active__runs _ (fun len _ => Z.to_nat (i - 1) `min` (len - 1))); [done|]. intros c Hc. finish (focus_index_runs (env s)); [done|].
  by intros c' _ (? & ? & ?).
Qed.
Lemma beyond_left s : space_ok s -> runs (focus_left cv s) (fun '(_, s') => to s (g_focus_left (grid s)) s').
Proof. intros Hs. finish focus_left_runs; [exact Hcv|done|]. by intros [b s'] _ [_ ?]. Qed.
Lemma beyond_right s : space_ok s -> runs (focus_right cv s) (fun '(_, s') => to s (g_focus_right (grid s)) s').
Proof. intros Hs. finish focus_right_runs; [exact Hcv|done|]. by intros [b s'] _ [_ ?]. Qed.

Lemma commit_to x w serial s : space_ok s -> op_pre cv (OpCommit x w serial) s -> runs (commit cv x w serial s) (to s (grid s)).
Proof.
  intros Hs (i & j & c & t & Hf & Hc & Ht & Hw). unfold commit.
  assert (Hsrc : source (Some x) s = Ok (i, j)).
  { assert (Hx : x ∈ g_windows (grid s)).
    { unfold g_find in Hf. destruct (position _ _) as [k|] eqn:Ek; [|done]. apply position_Some in Ek as (col & Hk & Hx & _).
      apply bool_decide_eq_true_1 in Hx. apply elem_of_windows. by exists k, col. }
    destruct (find_ok x s Hx) as (i' & c' & j' & t' & Hi & Hc' & Hp & _ & _ & Hf'). rewrite Hf in Hf'. injection Hf' as <- <-.
    unfold source. rewrite Hi. cbn. rewrite (index_ok i c') by done. cbn. by rewrite Hp. }
  step Hsrc. apply (update_window_to cv Hcv i j x w serial t); [done|done|by exists c|done].
Qed.
End refinement.

(** The operation follows its specification; it does not touch the surroundings. *)
Lemma result_eq op s m g :
  runs m (to s g) -> (forall s', env s' = env s -> grid s' = g -> op_spec op (grid s) (grid s')) ->
  (match op with OpUpdateConfig _ _ _ _ => False | _ => True end) -> runs m (op_result op s).
Proof.
  intros Hm Hsp Hop. finish Hm. intros s' _ (Hs' & He & Hg). split_and!; [done|by apply Hsp|]. by destruct op.
Qed.
Lemma pair_to {A} s g (m : res (A * ScrollingSpace)) (P : A -> Prop) :
  runs m (fun '(a, s') => P a /\ to s g s') -> runs m (fun '(_, s') => to s g s').
Proof. intros H. finish H. by intros [a s'] _ [_ ?]. Qed.

#[local] Ltac same_as H := eapply result_eq; [eapply H|by intros s' _ ->|done].
#[local] Ltac second_as H := eapply result_eq; [apply second_runs; eapply H|by intros s' _ ->|done].

Section all.
Context (cv : ClockView) (Hcv : cv_ok cv).

Lemma removal_ok op s : space_ok s -> op_pre cv op s ->
  (match op with OpRemoveTile _ _ | OpRemoveActiveTile _ | OpRemoveActiveColumn => True | _ => False end) -> runs (run_op cv op s) (op_result op s).
Proof.
  intros Hs Hp Hop. destruct op; try done; cbn [run_op].
  - apply second_runs. finish remove_by_id_runs; [exact Hcv|done|exact Hp|]. intros [r s'] _ (_ & _ & i & j & Hf & H' & He & Hg). split_and!; [done| |done].
    cbn [op_spec]. by apply (remove_source_to _ s i j).
  - apply removal_runs. finish remove_active_tile_runs; [exact Hcv|done|]. intros [[r s']|] _ H.
    + destruct H as (_ & i & j & Hf & _ & H' & He & Hg). split_and!; [done| |done]. cbn [op_spec]. by apply (remove_source_to _ s i j).
    + split_and!; [done| |done]. cbn [op_spec]. unfold g_remove_source, g_source. by rewrite H.
  - apply removal_runs. finish remove_active_column_runs; [exact Hcv|done|]. intros [[c s']|] _ H.
    + destruct H as (_ & Hc & H' & He & Hg). split_and!; [done| |done]. cbn [op_spec]. rewrite Hg. unfold g_empty. by destruct (g_cols (grid s)).
    + split_and!; [done| |done]. cbn [op_spec]. unfold g_empty. by rewrite H.
Qed.

Lemma run_scroll_op_ok op s : space_ok s -> op_pre cv op s -> runs (run_op cv op s) (op_result op s).
Proof.
  intros Hs Hp. destruct (is_move op) eqn:Hmv.
  { eapply result_eq; [apply (run_move cv Hcv op s Hs Hmv)| |by destruct op]. intros s' _ ->. by destruct op. }
  destruct op; try done; try (by apply removal_ok); cbn [run_op op_pre] in *.
  - destruct Hp as (? & ? & ?). by same_as add_tile_runs.
  - destruct Hp as (? & ? & c & ? & ?). by same_as add_tile_to_column_runs.
  - destruct Hp as (? & ? & ?). finish add_tile_right_of_to; [exact Hcv|done..|]. intros s' _ (i & j & Hf & H' & He & Hg). split_and!; [done|by exists i, j|done].
  - eapply result_eq; [apply second_runs, (pair_to s _ _ (fun b => b = bool_decide (x ∈ g_windows (grid s)))); by apply activate_window_runs|by intros s' _ ->|done].
  - second_as beyond_left; done.
  - second_as beyond_right; done.
  - by same_as focus_first_runs.
  - by same_as focus_last_runs.
  - by same_as focus_column_runs.
  - second_as on_active_runs; [done|by apply up_refocuses].
  - second_as on_active_runs; [done|by apply down_refocuses].
  - by same_as top_focus.
  - by same_as bottom_focus.
  - by same_as index_focus.
  - same_as focus_or_runs; [done|by apply down_refocuses|by apply beyond_left].
  - same_as focus_or_runs; [done|by apply down_refocuses|by apply beyond_right].
  - same_as focus_or_runs; [done|by apply up_refocuses|by apply beyond_left].
  - same_as focus_or_runs; [done|by apply up_refocuses|by apply beyond_right].
  - by second_as move_up_to.
  - by second_as move_down_to.
  - by same_as consume_or_expel_left_runs.
  - by same_as consume_or_expel_right_runs.
  - by same_as consume_runs.
  - by same_as expel_runs.
  - by same_as swap_runs.
  - apply second_runs. finish (set_pending_runs cv Hcv _ _ _ x b s fullscreen_op Hs Hp). intros [r s'] _ [_ [(H' & He & Hg)|(-> & H' & He & Hg)]]; split_and!; [done|by left|done|done|by right|done].
  - apply second_runs. finish (set_pending_runs cv Hcv _ _ _ x b s maximized_op Hs Hp). intros [r s'] _ [_ [(H' & He & Hg)|(-> & H' & He & Hg)]]; split_and!; [done|by left|done|done|by right|done].
  - finish set_column_display_to; [exact Hcv|done|]. by intros s' _ [(H' & He & Hg) _].
  - by same_as toggle_tabbed_to.
  - by same_as center_column_to.
  - by same_as center_window_to.
  - by same_as center_visible_to.
  - by same_as expand_column_to.
  - by same_as toggle_width_to.
  - by same_as toggle_full_width_to.
  - by same_as set_window_width_to.
  - by same_as set_window_height_to.
  - by same_as reset_window_height_to.
  - by same_as toggle_window_width_to.
  - by same_as toggle_window_height_to.
  - by same_as gesture_begin_to.
  - by second_as gesture_update_to.
  - apply second_runs. destruct Hp. finish gesture_end_to; [exact Hcv|done..|]. intros [b s'] _ (k & (H' & He & Hg) & Hk). split_and!; [done| |done].
    exists k. rewrite grid_empty, grid_length. done.
  - by same_as dnd_begin_to.
  - destruct Hp. by second_as dnd_scroll_to.
  - destruct Hp. finish dnd_end_to; [exact Hcv|done..|]. intros s' _ (k & (H' & He & Hg) & Hk). split_and!; [done| |done].
    exists k. rewrite grid_empty, grid_length. done.
  - by second_as resize_begin_to.
  - by second_as resize_update_to.
  - by same_as resize_end_to.
  - destruct Hp. finish update_config_to; [exact Hcv|done..|]. by intros s' _ (H' & He & Hg).
  - by same_as advance_animations_to.
  - by same_as commit_to.
  - by second_as start_open_animation_to.
Qed.
End all.

(** ** The spaces the operations reach *)
Inductive scroll_reachable : ScrollingSpace -> Prop :=
| scroll_new vs area sc o : options_ok o -> positive_finite sc = true -> scroll_reachable (new vs area sc o)
| scroll_step cv op s s' : scroll_reachable s -> cv_ok cv -> op_pre cv op s -> run_op cv op s = Ok s' -> scroll_reachable s'.

Lemma scroll_reachable_ok s : scroll_reachable s -> space_ok s.
Proof.
  induction 1 as [vs area sc o Ho Hsc|cv op s s' _ IH Hcv Hp Hr]; [by apply new_ok|].
  pose proof (run_scroll_op_ok cv Hcv op s IH Hp) as H. rewrite Hr in H. apply H.
Qed.
Lemma space_grid_ok s : space_ok s -> grid_ok (grid s).
Proof.
  intros Hs. split.
  - rewrite grid_length. destruct (proj2 (proj1 Hs)) as [?|[H ?]]; [by left|right]. split; [|done]. unfold grid. cbn. by rewrite H.
  - apply Forall_fmap. eapply Forall_impl; [apply (so_cols _ (proj1 (proj1 Hs)))|]. intros c Hc. cbn. rewrite length_ids. apply Hc.
Qed.

(** ** No window is lost *)
Definition came (op : ScrollOp) : list Id :=
  match op with OpAddTile _ t _ _ _ | OpAddTileToColumn _ _ t _ | OpAddTileRightOf _ t _ _ _ => [Tile.id t] | _ => [] end.
Definition gone (op : ScrollOp) g : list Id :=
  match op with
  | OpRemoveTile x _ => [x]
  | OpRemoveActiveTile _ => match focused g with Some x => [x] | None => [] end
  | OpRemoveActiveColumn => match g_cols g !! g_active g with Some c => c.1 | None => [] end
  | _ => []
  end.

Lemma remove_column_windows i (c : GCol Id) g : g_cols g !! i = Some c -> g_windows g ≡ₚ c.1 ++ g_windows (g_remove_column i g).
Proof.
  intros Hi. rewrite (g_windows_delete i c g Hi). f_equiv. unfold g_windows, with_cols. cbn. unfold g_remove_column.
  destruct (delete i (g_cols g)) as [|c0 l] eqn:Ed; [done|]. rewrite <-Ed in *. clear Ed. destruct (i <? g_active g); [done|].
  destruct (_ && _); [by destruct (0 <? i)|]. by rewrite (proj2 (activate_fields _ _)).
Qed.

(** Focus changes move no window. *)
Lemma refocus_windows op g g' :
  op_spec op g g' -> (match op with
    | OpActivateWindow _ | OpFocusLeft | OpFocusRight | OpFocusColumnFirst | OpFocusColumnLast | OpFocusColumn _ | OpFocusUp | OpFocusDown | OpFocusTop
    | OpFocusBottom | OpFocusWindowInColumn _ | OpFocusDownOrLeft | OpFocusDownOrRight | OpFocusUpOrLeft | OpFocusUpOrRight => True
    | _ => False end) -> g_windows g' = g_windows g.
Proof.
  assert (Hl : g_windows (g_focus_left g) = g_windows g) by (unfold g_focus_left; case_bool_decide; [done|apply activate_windows]).
  assert (Hr : g_windows (g_focus_right g) = g_windows g) by (unfold g_focus_right; destruct (_ <=? _); [done|apply activate_windows]).
  assert (Hor : forall f beyond, g_windows (beyond g) = g_windows g -> g_windows (g_focus_or f beyond g) = g_windows g).
  { intros f beyond Hb. unfold g_focus_or. destruct (g_cols g !! g_active g); [|done]. case_bool_decide; [done|apply focus_windows]. }
  intros Hsp Hop. destruct op; try done; cbn [op_spec] in Hsp; subst g'; try apply activate_windows; try apply focus_windows; try done; try by apply Hor.
  - apply activate_window_windows.
  - unfold g_focus_last. destruct (g_empty g); [done|apply activate_windows].
  - unfold g_focus_column. destruct (g_empty g); [done|apply activate_windows].
Qed.

Lemma gone_windows op g g' :
  op_spec op g g' -> grid_ok g -> (match op with OpRemoveTile x _ => x ∈ g_windows g | OpRemoveActiveTile _ | OpRemoveActiveColumn => True | _ => False end) ->
  g_windows g ≡ₚ gone op g ++ g_windows g'.
Proof.
  intros Hsp Hg Hop. destruct op; try done; cbn [op_spec gone] in *; subst g'.
  - destruct (find_of x g Hop) as (k & l & Hf). unfold g_remove_source, g_source. rewrite Hf. by apply remove_windows, find_at.
  - unfold g_remove_source, g_source, focused, active_of. destruct (g_cols g !! g_active g) as [c|] eqn:Hc; [|done]. cbn.
    pose proof (Forall_lookup_1 _ _ _ _ (proj2 Hg) Hc) as Hlt. cbn in Hlt. destruct (lookup_lt_is_Some_2 c.1 c.2 Hlt) as [y Hy]. rewrite Hy.
    apply remove_windows. unfold g_at. by rewrite Hc.
  - unfold g_empty. destruct (g_cols g !! g_active g) as [c|] eqn:Hc.
    + pose proof (remove_column_windows _ _ _ Hc). by destruct (g_cols g).
    + destruct (proj1 Hg) as [H|[H _]]; [apply lookup_ge_None in Hc; lia|by rewrite H].
Qed.

Lemma op_windows op g g' :
  op_spec op g g' -> grid_ok g -> (match op with OpRemoveTile x _ => x ∈ g_windows g | OpAddTileToColumn i _ _ _ => i < length (g_cols g) | _ => True end) ->
  came op ++ g_windows g ≡ₚ gone op g ++ g_windows g'.
Proof.
  intros Hsp Hg Hx. assert (Hmove : forall k, g_windows (g_move k g) ≡ₚ g_windows g).
  { intros [k|]; cbn; [|done]. destruct (g_empty g); [done|apply move_column_windows]. }
  pose proof (refocus_windows op g g' Hsp) as Hf. pose proof (gone_windows op g g' Hsp Hg) as Hgone.
  destruct op; try (by rewrite Hf); try (by apply Hgone); clear Hf Hgone; cbn [came gone op_spec app] in *; try (subst g'; done).
  - subst g'. by rewrite add_windows.
  - subst g'. destruct (lookup_lt_is_Some_2 _ _ Hx) as [c Hc]. by erewrite add_to_windows.
  - destruct Hsp as (k & l & _ & ->). by rewrite add_windows.
  - subst g'. by rewrite (move_within_windows (fun c : GCol Id => up (length c.1) c.2)).
  - subst g'. by rewrite (move_within_windows (fun c : GCol Id => down (length c.1) c.2)).
  - subst g'. by rewrite consume_left_windows.
  - subst g'. by rewrite consume_right_windows.
  - subst g'. by rewrite consume_windows.
  - subst g'. by rewrite expel_windows.
  - subst g'. by rewrite swap_windows.
  - destruct Hsp as [->|[_ ->]]; [done|by rewrite consume_right_windows].
  - destruct Hsp as [->|[_ ->]]; [done|by rewrite consume_right_windows].
  - by destruct Hsp as (k & -> & _).
  - by destruct Hsp as (k & -> & _).
Qed.

(** ** Moves keep the focus *)
Definition keeps_focus (op : ScrollOp) : bool :=
  match op with
  | OpAddTile _ _ _ _ _ | OpAddTileToColumn _ _ _ _ | OpAddTileRightOf _ _ _ _ _ | OpRemoveTile _ _ | OpRemoveActiveTile _ | OpRemoveActiveColumn
  | OpActivateWindow _ | OpFocusLeft | OpFocusRight | OpFocusColumnFirst | OpFocusColumnLast | OpFocusColumn _ | OpFocusUp | OpFocusDown | OpFocusTop
  | OpFocusBottom | OpFocusWindowInColumn _ | OpFocusDownOrLeft | OpFocusDownOrRight | OpFocusUpOrLeft | OpFocusUpOrRight
  | OpGestureEnd _ | OpDndEnd => false
  | _ => true
  end.
(** Only expelling the bottom window of the column, where it has the focus, moves the
    focus: to the window above it. *)
Definition grid_focus_after (op : ScrollOp) (g : Grid Id) : option Id :=
  match op with OpExpelFromColumn => focus_above_bottom g | _ => focused g end.
Definition focus_after (op : ScrollOp) s : res (option Id) :=
  match op with
  | OpExpelFromColumn =>
      if is_empty s then Ok None
      else c ← active_column s; mret (Tile.id <$> Column.tiles c !! (Column.active_tile_idx c `min` (length (Column.tiles c) - 2)))
  | _ => active_window s
  end.
Lemma op_focus op g g' : op_spec op g g' -> grid_ok g -> keeps_focus op = true -> focused g' = grid_focus_after op g.
Proof.
  intros Hsp Hg Hk. assert (Hmove : forall op, is_move op = true -> focused (g_move (move_target op g) g) = focused g).
  { intros op' Hm. destruct (move_target op' g) as [k|] eqn:Ek; [|done]. cbn. destruct (g_empty g) eqn:He; [done|]. apply move_column_focus; [done|].
    destruct (proj1 Hg) as [Ha|[H0 _]]; [|unfold g_empty in He; by rewrite H0 in He].
    destruct op'; try done; cbn in Ek; unfold last_col in Ek; [case_bool_decide|destruct (Nat.leb_spec (length (g_cols g)) (g_active g + 1))| | |]; try done; injection Ek as <-; lia. }
  destruct op; try done; cbn [op_spec] in Hsp; try (subst g'; done); try (rewrite Hsp; by apply Hmove).
  - subst g'. apply (move_within_focus (fun c : GCol Id => up (length c.1) c.2)); [|done]. intros c Hc. unfold up. lia.
  - subst g'. apply (move_within_focus (fun c : GCol Id => down (length c.1) c.2)); [|done]. intros c Hc. unfold down. lia.
  - subst g'. by apply consume_left_focus.
  - subst g'. by apply consume_right_focus.
  - subst g'. by apply consume_focus.
  - subst g'. by apply expel_focus.
  - subst g'. by apply swap_focus.
  - destruct Hsp as [->|[_ ->]]; [done|by apply consume_right_focus].
  - destruct Hsp as [->|[_ ->]]; [done|by apply consume_right_focus].
Qed.

(** ** The space and its grid *)
Lemma windows_tiles s : Tile.id <$> tiles s = g_windows (grid s).
Proof.
  unfold tiles, g_windows, grid. cbn. induction (columns s) as [|c l IH]; [done|]. cbn [mbind list_bind fmap list_fmap]. rewrite fmap_app.
  change (list_fmap _ _ gcol l) with (gcol <$> l). by rewrite IH.
Qed.
Lemma active_window_ok s : space_ok s -> active_window s = Ok (focused (grid s)).
Proof.
  intros Hs. unfold active_window, focused, active_of. destruct (is_empty s) eqn:He.
  - unfold is_empty in He. unfold grid. cbn. by destruct (columns s).
  - destruct (active_ok_lookup s Hs He) as [c Hc]. unfold active_column. rewrite (index_ok _ c) by done. cbn [mbind res_bind].
    pose proof (cm_active _ _ (proj1 (space_col s _ c Hs Hc))) as Ha. destruct (lookup_lt_is_Some_2 _ _ Ha) as [t Ht]. rewrite (index_ok _ t) by done. cbn [mbind res_bind].
    rewrite grid_lookup. change (g_active (grid s)) with (active_column_idx s). rewrite Hc. cbn. unfold ids. by rewrite list_lookup_fmap, Ht.
Qed.

(** ** The theorems *)

(** C11: whatever is done to a scrolling space from its creation on, the next
    operation does not panic, provided its caller names windows that exist and
    adds ones that do not, and the clock and the arithmetic of gestures stay in
    range; the structural invariant [space_ok] holds afterwards, and the columns, their
    windows, the active window of each and the active column are those its specification
    says. *)
Theorem scrolling_ops_refine cv op s :
  scroll_reachable s -> cv_ok cv -> op_pre cv op s ->
  exists s', run_op cv op s = Ok s' /\ space_ok s' /\ op_spec op (grid s) (grid s').
Proof.
  intros Hr Hcv Hp. pose proof (run_scroll_op_ok cv Hcv op s (scroll_reachable_ok s Hr) Hp) as H. apply runs_ok in H as (s' & ? & ? & ? & _). by exists s'.
Qed.

(** No operation loses or doubles a window: after it there are the windows of
    before, with those that came in and without those taken out. *)
Theorem scrolling_keeps_windows cv op s s' :
  scroll_reachable s -> cv_ok cv -> op_pre cv op s -> run_op cv op s = Ok s' ->
  came op ++ (Tile.id <$> tiles s) ≡ₚ gone op (grid s) ++ (Tile.id <$> tiles s').
Proof.
  intros Hr Hcv Hp Hrun. pose proof (scroll_reachable_ok s Hr) as Hs. pose proof (run_scroll_op_ok cv Hcv op s Hs Hp) as H. rewrite Hrun in H.
  destruct H as (_ & Hsp & _). rewrite !windows_tiles. apply op_windows; [done|by apply space_grid_ok|].
  destruct op; try done. cbn in Hp. destruct Hp as (_ & _ & c & Hc & _). rewrite grid_length. by eapply lookup_lt_Some.
Qed.

Lemma focus_after_ok op s : space_ok s -> focus_after op s = Ok (grid_focus_after op (grid s)).
Proof.
  intros Hs. destruct op; try (by apply active_window_ok). cbn [focus_after grid_focus_after]. unfold focus_above_bottom.
  rewrite grid_lookup. change (g_active (grid s)) with (active_column_idx s). destruct (is_empty s) eqn:He.
  - unfold is_empty in He. by destruct (columns s).
  - destruct (active_ok_lookup s Hs He) as [c Hc]. unfold active_column. rewrite (index_ok _ c) by done. rewrite Hc. cbn [mbind res_bind option_bind fmap option_fmap option_map gcol fst snd].
    unfold ids. by rewrite list_lookup_fmap, length_fmap.
Qed.

(** C12: moving windows and columns, resizing, fullscreen, tabs, scrolling and
    commits leave the focus on the window that had it; but expelling the bottom
    window of the active column, which stays with the column: if it was that window that
    had the focus, the one above it gets it. *)
Theorem scrolling_keeps_focus cv op s s' :
  scroll_reachable s -> cv_ok cv -> op_pre cv op s -> run_op cv op s = Ok s' -> keeps_focus op = true -> active_window s' = focus_after op s.
Proof.
  intros Hr Hcv Hp Hrun Hk. pose proof (scroll_reachable_ok s Hr) as Hs. pose proof (run_scroll_op_ok cv Hcv op s Hs Hp) as H. rewrite Hrun in H.
  destruct H as (Hs' & Hsp & _). rewrite active_window_ok, focus_after_ok by done. f_equal. apply (op_focus op); [done|by apply space_grid_ok|done].
Qed.

(** C14: a window opened next to the active one, with the focus, and closed again
    leaves the columns as they were, with the same one active. *)
Theorem close_returns cv t w f tr s :
  scroll_reachable s -> cv_ok cv -> op_pre cv (OpAddTile None t true w f) s ->
  exists s1 s2, run_op cv (OpAddTile None t true w f) s = Ok s1 /\ run_op cv (OpRemoveTile (Tile.id t) tr) s1 = Ok s2
    /\ g_cols (grid s2) = g_cols (grid s) /\ active_column_idx s2 = active_column_idx s.
Proof.
  intros Hr Hcv Hp. pose proof (scroll_reachable_ok s Hr) as Hs. pose proof (run_scroll_op_ok cv Hcv _ s Hs Hp) as H. apply runs_ok in H as (s1 & H1 & Hs1 & Hg1 & _).
  cbn [op_spec] in Hg1. assert (Hx : op_pre cv (OpRemoveTile (Tile.id t) tr) s1).
  { change (Tile.id t ∈ g_windows (grid s1)). rewrite Hg1. assert (HP : g_windows (g_add None (Tile.id t) true (grid s)) ≡ₚ Tile.id t :: g_windows (grid s)) by apply add_windows. rewrite HP. left. }
  pose proof (run_scroll_op_ok cv Hcv _ s1 Hs1 Hx) as H. apply runs_ok in H as (s2 & H2 & Hs2 & Hg2 & _). cbn [op_spec] in Hg2. rewrite Hg1 in Hg2.
  destruct Hp as (_ & Hfresh & _). destruct (add_remove_grid (Tile.id t) (grid s) (space_grid_ok s Hs) Hfresh) as [Hc Ha]. rewrite <-Hg2 in Hc, Ha.
  exists s1, s2. split_and!; [done|done|done|exact Ha].
Qed.

(** C15: a window alone in its column, consumed into the column on its left and
    then expelled to the right, is back in a column of its own in the same place,
    with the focus. *)
Theorem consume_expel_back cv s c :
  scroll_reachable s -> cv_ok cv -> active_column_idx s <> 0 -> columns s !! active_column_idx s = Some c -> length (Column.tiles c) = 1 ->
  exists s1 s2, run_op cv (OpConsumeOrExpelLeft None) s = Ok s1 /\ run_op cv (OpConsumeOrExpelRight None) s1 = Ok s2
    /\ ids <$> columns s2 = ids <$> columns s /\ active_column_idx s2 = active_column_idx s /\ active_window s2 = active_window s.
Proof.
  intros Hr Hcv Ha Hc Hl. pose proof (scroll_reachable_ok s Hr) as Hs. assert (Hn : forall s', source_ok None s') by done.
  pose proof (run_scroll_op_ok cv Hcv (OpConsumeOrExpelLeft None) s Hs (Hn s)) as H. apply runs_ok in H as (s1 & H1 & Hs1 & Hg1 & _).
  pose proof (run_scroll_op_ok cv Hcv (OpConsumeOrExpelRight None) s1 Hs1 (Hn s1)) as H. apply runs_ok in H as (s2 & H2 & Hs2 & Hg2 & _). cbn [op_spec] in Hg1, Hg2.
  destruct (consume_expel_grid (grid s) (gcol c) (space_grid_ok s Hs)) as [Hcols Hact]; [exact Ha|exact (eq_trans (grid_lookup s _) (f_equal (fmap gcol) Hc))|cbn; by rewrite length_ids|].
  rewrite <-Hg1, <-Hg2 in Hcols, Hact. exists s1, s2. split_and!; [done|done| |exact Hact|].
  - assert (Hids : forall s', ids <$> columns s' = fst <$> g_cols (grid s')) by (intros s'; unfold grid; cbn; by rewrite <-list_fmap_compose). by rewrite !Hids.
  - rewrite !active_window_ok by done. f_equal. rewrite Hg2, consume_right_focus, Hg1 by by apply space_grid_ok. apply consume_left_focus. by apply space_grid_ok.
Qed.

(** C16: a window told to be fullscreen (or not) is so from then on as far as the
    layout is concerned, and a fullscreen one is alone in its column or in tabs. *)
Theorem fullscreen_takes_effect cv x b s :
  scroll_reachable s -> cv_ok cv -> x ∈ (Tile.id <$> tiles s) ->
  exists r s' i c, set_fullscreen cv x b s = Ok (r, s') /\ columns s' !! i = Some c /\ x ∈ ids c /\ Column.is_pending_fullscreen c = b
    /\ (b = true -> length (Column.tiles c) = 1 \/ Column.tabbed c = true).
Proof.
  intros Hr Hcv Hx. pose proof (scroll_reachable_ok s Hr) as Hs. rewrite windows_tiles in Hx.
  pose proof (set_pending_runs cv Hcv _ _ _ x b s fullscreen_op Hs Hx) as H. apply runs_ok in H as ([r s'] & H1 & (i & c & Hi & Hxc & Hf) & Hto).
  assert (Hs' : space_ok s') by (destruct Hto as [[? _]|(_ & ? & _)]; done). exists r, s', i, c. split_and!; [done..|]. intros ->.
  apply (proj2 (space_col s' i c Hs' Hi)). unfold Column.pending_sizing_mode. by rewrite Hf.
Qed.

(** C17: where the layout says a dragged window would go, it can be put: a column
    may be inserted there, or the window into that column. *)
Theorem drop_position_valid cv pos s :
  scroll_reachable s -> cv_ok cv -> pointer_finite cv pos s -> exists p, insert_position cv pos s = Ok p /\ position_ok s p.
Proof. intros Hr Hcv Hp. pose proof (insert_position_runs cv Hcv pos s (scroll_reachable_ok s Hr) Hp) as H. by apply runs_ok in H. Qed.

(** C13: the loop that shares out the height of a column ends, whatever the minimum
    and maximum sizes: a window with a height of its own gets it within its
    constraints, every other gets its minimum or a share that is not less. *)
Theorem column_heights_settled s c :
  scroll_reachable s -> c ∈ columns s ->
  exists hs xs hs1, wanted_heights c = Ok hs /\ Column.requested_heights c = Ok xs /\ length hs1 = length (Column.tiles c)
    /\ (forall i h mn mx, hs !! i = Some h -> Column.min_sizes c !! i = Some mn -> Column.max_sizes c !! i = Some mx -> hs1 !! i = Some (constrain h mn mx))
    /\ all_settled hs1 (Column.tiles c) (Column.min_sizes c) (HeightFixed <$> xs).
Proof.
  intros Hr Hc. pose proof (so_cols _ (proj1 (proj1 (scroll_reachable_ok s Hr)))) as HF. rewrite Forall_forall in HF. specialize (HF c Hc).
  destruct (requested_heights_settled (env s) c (cm_base _ _ HF) (col_nonempty _ _ HF)) as (hs & Hw & H). apply runs_ok in H as (xs & Hx & hs1 & ? & ? & ?).
  by exists hs, xs, hs1.
Qed.
End thms.

(** ** Concrete runs

    Windows of a client that does as it is asked when it commits. *)
Record Win0 := { id0 : nat; size0 : Z * Z; mode0 : SizingMode; pending0 : SizingMode; requested0 : option (Z * Z); active0 : bool }.
Definition rules0 : WindowRules := {| rule_border := {| br_off := false; br_on := false; br_width := None |}; rule_default_column_display := None; rule_default_floating_position := None |}.
#[local] Instance window0 : LayoutElement := {|
  W := Win0; Id := nat; Transaction := unit; new_transaction := tt; win_id := id0; win_size := size0;
  win_min_size := fun _ => (0, 0)%Z; win_max_size := fun _ => (0, 0)%Z; win_sizing_mode := mode0; win_pending_sizing_mode := pending0;
  win_requested_size := requested0; win_expected_size := requested0; win_rules := fun _ => rules0;
  request_size := fun s m _ _ w => {| id0 := id0 w; size0 := size0 w; mode0 := mode0 w; pending0 := m; requested0 := Some s; active0 := active0 w |};
  request_size_once := fun s _ w => {| id0 := id0 w; size0 := size0 w; mode0 := mode0 w; pending0 := Normal; requested0 := Some s; active0 := active0 w |};
  take_animation_snapshot := fun w => (None, w); interactive_resize_data := fun _ => None; set_interactive_resize := fun _ w => w;
  on_commit := fun _ w => w; cancel_interactive_resize := fun w => w |}.
#[local] Instance window0_laws : LayoutElementLaws.
Proof. by split. Qed.
#[local] Instance geometry0 : Geometry := {|
  physical_round := fun s x => (fround (x * s) / s)%F; physical_ceil := fun s x => (fceil (x * s) / s)%F;
  i32_floor := fun x => as_i32 (ffloor x); i32_round := fun x => as_i32 (fround x) |}.
#[local] Instance geometry0_laws : GeometryLaws.
Proof. split. intros s x Hs Hx. cbn. apply fdiv_nonneg; [|done]. by apply fround_nonneg, fmul_nonneg. Qed.
#[local] Existing Instance libm0.
#[local] Existing Instance keyframe0.

Definition easing0 : Config.Animation :=
  {| Config.off := false; Config.kind := Config.Easing {| Config.duration_ms := 250; Config.curve := Config.Linear |} |}.
Definition options0 : LayoutOptions :=
  {| empty_workspace_above_first := false; gaps := of_Z 16; struts := {| strut_left := f0; strut_right := f0; strut_top := f0; strut_bottom := f0 |};
     opt_border := {| b_off := false; b_width := of_Z 4 |};
     opt_tab_indicator := {| ti_off := false; hide_when_single_tab := false; place_within_column := false; ti_gap := of_Z 5; ti_width := of_Z 4;
                             ti_length := Some (lit 1 2); ti_position := TabLeft; gaps_between_tabs := f0; ti_style := 0 |};
     center_focused_column := CenterNever; always_center_single_column := false; default_column_display := DisplayNormal;
     preset_column_widths := [PresetProportion (lit 1 2)]; preset_window_heights := [PresetProportion (lit 1 2)]; default_column_width := Some (PresetProportion (lit 1 2));
     window_movement := easing0; horizontal_view_movement := easing0; window_resize := easing0; window_open := easing0;
     dnd_view_trigger_width := of_Z 30; dnd_view_delay_ms := 100; dnd_view_max_speed := of_Z 1500;
     disable_resize_throttling := false; disable_transactions := false; deactivate_unfocused_windows := true |}.
Definition view0 : Size := (of_Z 1920, of_Z 1080).
Definition area0 : Rect := ((f0, f0), view0).
Definition win0 (i : nat) : Win0 := {| id0 := i; size0 := (400, 300)%Z; mode0 := Normal; pending0 := Normal; requested0 := None; active0 := false |}.
Definition tile0 (i : nat) : Tile.Tile := Tile.new (win0 i) view0 f1 options0.

Lemma options0_ok : options_ok options0.
Proof.
  split; [by vm_compute|by vm_compute|done|done|..]; apply easing_config_total; right; by eexists.
Qed.
Lemma clock5_ok : cv_ok (cv_at 5%Z).
Proof. by vm_compute. Qed.
Lemma tile0_incoming i : tile_incoming (tile0 i).
Proof.
  exists options0, view0, f1. split; [apply options0_ok|]. apply (new_tile_ok (LE := window0) options0 view0 f1 options0_ok (win0 i)). split; [by vm_compute|by vm_compute|done].
Qed.

Import ScrollingSpace.
(** Operations at a fixed time. *)
Definition after (op : ScrollOp) (s : ScrollingSpace) : ScrollingSpace := match run_op (cv_at 5%Z) op s with Ok s' => s' | Panic => s end.
Definition space0 : ScrollingSpace := new view0 area0 f1 options0.
Definition add0 (i : nat) : ScrollOp := OpAddTile None (tile0 i) true (Proportion (lit 1 2)) false.

Lemma after_op_reachable op s : scroll_reachable s -> op_pre (cv_at 5%Z) op s -> scroll_reachable (after op s).
Proof.
  intros Hs Hp. destruct (runs_ok (run_op (cv_at 5%Z) op s) (op_result op s)) as [H _].
  destruct (H (run_scroll_op_ok (cv_at 5%Z) clock5_ok op s (scroll_reachable_ok s Hs) Hp)) as (s' & He & _). unfold after. rewrite He.
  by eapply scroll_step; [|apply clock5_ok| |].
Qed.
Lemma add_reachable i s : scroll_reachable s -> bool_decide (i ∉ g_windows (grid s)) = true -> scroll_reachable (after (add0 i) s).
Proof. intros Hs Hi. apply after_op_reachable; [done|]. apply bool_decide_eq_true_1 in Hi. split; [apply tile0_incoming|]. split; [exact Hi|done]. Qed.

(** ** The theorems at concrete runs *)
Definition three : ScrollingSpace := after (add0 3) (after (add0 2) (after (add0 1) space0)).
Lemma space0_reachable : scroll_reachable space0.
Proof. apply scroll_new; [apply options0_ok|by vm_compute]. Qed.
Lemma three_reachable : scroll_reachable three.
Proof. repeat (apply add_reachable; [|by vm_compute]). apply space0_reachable. Qed.

Example scrolling_ops_refine_witness :
  exists s', run_op (cv_at 5%Z) (OpConsumeOrExpelLeft None) three = Ok s' /\ space_ok s' /\ op_spec (OpConsumeOrExpelLeft None) (grid three) (grid s').
Proof. apply scrolling_ops_refine; [exact three_reachable|exact clock5_ok|by vm_compute]. Defined.

Example scrolling_keeps_windows_witness :
  [] ++ (Tile.id <$> tiles three) ≡ₚ [2 : @Id window0] ++ (Tile.id <$> tiles (after (OpRemoveTile (LE := window0) 2 tt) three)).
Proof.
  apply (scrolling_keeps_windows (cv_at 5%Z) (OpRemoveTile (LE := window0) 2 tt) three); [exact three_reachable|exact clock5_ok| |by vm_compute].
  apply (bool_decide_eq_true_1 ((2 : @Id window0) ∈ g_windows (grid three))). by vm_compute.
Defined.

Example scrolling_keeps_focus_witness : active_window (after OpMoveColumnToFirst three) = focus_after OpMoveColumnToFirst three.
Proof. apply (scrolling_keeps_focus (cv_at 5%Z) OpMoveColumnToFirst three); [exact three_reachable|exact clock5_ok|done|by vm_compute|done]. Defined.

(** Consumed to the left, the third window is below the second; expelled, it leaves the
    focus to that. *)
Example expel_moves_focus :
  let s := after (OpConsumeOrExpelLeft None) three in
  active_window s = Ok (Some (3 : @Id window0)) /\ active_window (after OpExpelFromColumn s) = Ok (Some (2 : @Id window0)).
Proof. by vm_compute. Qed.

Example close_returns_witness :
  exists s1 s2, run_op (cv_at 5%Z) (add0 4) three = Ok s1 /\ run_op (cv_at 5%Z) (OpRemoveTile (LE := window0) 4 tt) s1 = Ok s2
    /\ g_cols (grid s2) = g_cols (grid three) /\ active_column_idx s2 = active_column_idx three.
Proof.
  apply (close_returns (cv_at 5%Z) (tile0 4)); [exact three_reachable|exact clock5_ok|]. split; [apply tile0_incoming|]. split; [|done].
  apply (bool_decide_eq_true_1 ((4 : @Id window0) ∉ g_windows (grid three))). by vm_compute.
Defined.

Example consume_expel_back_witness :
  exists s1 s2, run_op (cv_at 5%Z) (OpConsumeOrExpelLeft None) three = Ok s1 /\ run_op (cv_at 5%Z) (OpConsumeOrExpelRight None) s1 = Ok s2
    /\ ids <$> columns s2 = ids <$> columns three /\ active_column_idx s2 = active_column_idx three /\ active_window s2 = active_window three.
Proof.
  assert (Hc : exists c, columns three !! active_column_idx three = Some c /\ length (Column.tiles c) = 1) by (eexists; by vm_compute).
  destruct Hc as (c & Hc & Hl). apply (consume_expel_back (cv_at 5%Z) three c); [exact three_reachable|exact clock5_ok|by vm_compute|exact Hc|exact Hl].
Defined.

Lemma three_two : (2 : @Id window0) ∈ (Tile.id <$> tiles three).
Proof. rewrite windows_tiles. apply (bool_decide_eq_true_1 ((2 : @Id window0) ∈ g_windows (grid three))). by vm_compute. Qed.
Example fullscreen_takes_effect_witness :
  exists r s' i c, set_fullscreen (LE := window0) (cv_at 5%Z) 2 true three = Ok (r, s') /\ columns s' !! i = Some c /\ (2 : @Id window0) ∈ ids c /\ Column.is_pending_fullscreen c = true
    /\ (true = true -> length (Column.tiles c) = 1 \/ Column.tabbed c = true).
Proof.
  apply (fullscreen_takes_effect (cv_at 5%Z)); [exact three_reachable|exact clock5_ok|]. exact three_two.
Defined.

(** Decides whether the distances of the pointer are numbers. *)
Definition pointer_check cv (pos : Point) (s : ScrollingSpace) : bool :=
  let fin x := negb (is_nan (fabs x)) in
  match view_pos cv s with Ok v => forallb (fun y => fin (y - (pos.1 + v + gaps (options s) / of_Z 2))%F) (column_xs s) | Panic => true end
  && forallb (fun c => match Column.tile_offsets c with
                       | Ok os => forallb (fun o : Point => fin (o.2 - (pos.2 + gaps (options s) / of_Z 2))%F) os
                       | Panic => true end) (columns s).
Lemma pointer_check_ok cv pos (s : ScrollingSpace) : pointer_check cv pos s = true -> pointer_finite cv pos s.
Proof.
  unfold pointer_check. rewrite andb_true_iff. intros [Hv Hc]. split.
  - intros v Ev. rewrite Ev in Hv. apply Forall_forall. intros y Hy. apply list_elem_of_In in Hy. rewrite forallb_forall in Hv. by apply negb_true_iff, Hv.
  - intros c os Hin Eo. rewrite forallb_forall in Hc. apply list_elem_of_In in Hin. specialize (Hc c Hin). rewrite Eo in Hc.
    apply Forall_forall. intros o Ho. apply list_elem_of_In in Ho. rewrite forallb_forall in Hc. by apply negb_true_iff, (Hc o).
Qed.
Example drop_position_valid_witness : exists p, insert_position (cv_at 5%Z) (of_Z 500, of_Z 500) three = Ok p /\ position_ok three p.
Proof.
  apply drop_position_valid; [exact three_reachable|exact clock5_ok|]. apply pointer_check_ok. by vm_compute.
Defined.

Example column_heights_settled_witness :
  exists c hs xs hs1, columns (after (OpConsumeOrExpelLeft None) three) !! 1 = Some c
    /\ wanted_heights c = Ok hs /\ Column.requested_heights c = Ok xs /\ length hs1 = length (Column.tiles c)
    /\ (forall i h mn mx, hs !! i = Some h -> Column.min_sizes c !! i = Some mn -> Column.max_sizes c !! i = Some mx -> hs1 !! i = Some (constrain h mn mx))
    /\ all_settled hs1 (Column.tiles c) (Column.min_sizes c) (HeightFixed <$> xs).
Proof.
  assert (Hc : exists c, columns (after (OpConsumeOrExpelLeft None) three) !! 1 = Some c) by (eexists; by vm_compute).
  destruct Hc as [c Hc]. exists c.
  assert (Hr : scroll_reachable (after (OpConsumeOrExpelLeft None) three)) by (apply after_op_reachable; [exact three_reachable|by vm_compute]).
  destruct (column_heights_settled (after (OpConsumeOrExpelLeft None) three) c Hr (list_elem_of_lookup_2 _ _ _ Hc)) as (hs & xs & hs1 & H).
  exists hs, xs, hs1. split; [exact Hc|exact H].
Defined.

(** ** Where the code departs from its comments

    Columns of the windows 1, 3, 2, 4 and 5, where 3 was opened from 1: closing
    3 at once activates 1 again. *)
Definition opened : ScrollingSpace :=
  after (add0 3) (after OpFocusColumnFirst (after (add0 5) (after (add0 4) (after (add0 2) (after (add0 1) space0))))).
Definition swiped : ScrollingSpace := after (OpGestureEnd (Some true)) (after (OpGestureUpdate (of_Z 20) 5%Z true) (after (OpGestureBegin true) opened)).

Definition front (s : ScrollingSpace) : option nat := match active_window s with Ok o => o | Panic => None end.

(** A swipe to another column is a change of focus, but the column that a
    closed one gives way to is then still the one on its left: window 4 closed
    after a swipe gives way to 2, and after moving to it by a key to 5. *)
Theorem gesture_keeps_stale_previous :
  let by_key := after (OpFocusColumn 4) opened in
  front swiped = Some 4 /\ front by_key = Some 4
  /\ front (after OpRemoveActiveColumn swiped) = Some 2 /\ front (after OpRemoveActiveColumn by_key) = Some 5.
Proof. by vm_compute. Qed.

(** Two windows in tabs, of which the one in front is made fullscreen. *)
Definition tabs1 : ScrollingSpace := after (OpAddTileToColumn 0 None (tile0 2) true) (after OpToggleTabbed (after (add0 1) space0)).
Definition tabs : ScrollingSpace := after (OpSetFullscreen (LE := window0) 2 true) tabs1.
Definition full0 (i : nat) : Win0 := {| id0 := i; size0 := (1920, 1080)%Z; mode0 := Fullscreen; pending0 := Fullscreen; requested0 := None; active0 := false |}.

Lemma tabs1_reachable : scroll_reachable tabs1.
Proof.
  apply after_op_reachable; [apply after_op_reachable; [apply add_reachable; [exact space0_reachable|by vm_compute]|done]|].
  split; [apply tile0_incoming|]. split; [apply (bool_decide_eq_true_1 ((2 : @Id window0) ∉ g_windows (grid (after OpToggleTabbed (after (add0 1) space0))))); by vm_compute|].
  eexists. split; [by vm_compute|done].
Qed.
Lemma tabs_reachable : scroll_reachable tabs.
Proof. apply after_op_reachable; [exact tabs1_reachable|]. apply (bool_decide_eq_true_1 ((2 : @Id window0) ∈ g_windows (grid tabs1))). by vm_compute. Qed.
Lemma tabs_commit : op_pre (cv_at 5%Z) (OpCommit (LE := window0) 1 (full0 1) None) tabs.
Proof. exists 0, 0. eexists. eexists. split; [by vm_compute|]. split; [by vm_compute|]. split; [by vm_compute|]. split; [by vm_compute|]. split; [split; by vm_compute|by vm_compute]. Qed.

(** The invariant that a view offset is kept to be restored only while the
    active column is fullscreen or maximised is broken by expelling the window in
    front from a column in tabs once another of its windows has become fullscreen. *)
Theorem expel_keeps_restore_offset :
  let s := after (OpConsumeOrExpelLeft None) (after (OpCommit (LE := window0) 1 (full0 1) None) tabs) in
  scroll_reachable s /\ is_Some (view_offset_to_restore s)
  /\ (c ← active_column s; mret (is_normal (Column.sizing_mode c))) = Ok true.
Proof.
  cbv zeta. split_and!; [|by eexists; vm_compute|by vm_compute].
  apply after_op_reachable; [|done]. apply after_op_reachable; [exact tabs_reachable|exact tabs_commit].
Qed.
