(* ===== verification/Floating.v ===== *)
(** * The floating layout

    The floating windows of one workspace (layout/floating.rs,
    [FloatingSpace]): their stacking order, positions, sizes, focus by
    direction, and interactive resizing.  Closing animations, rendering, and the
    flags told to windows each refresh are left out.

    Which window is the parent of which is kept by the clients, in Wayland
    surfaces shared by all; operations take what they read of it, [kin x y]: [x]
    is a child of [y] ([LayoutElement::is_child_of]). *)

From stdpp Require Import base numbers option list.
From Stdlib Require Import ZArith Lia SpecFloat.
From S2P Require Import Prelude.
From S2P Require Import F64.
From S2P Require Import Duration.
From S2P Require Import Clock.
From S2P Require Import Animation.
From S2P Require Import LayoutTypes.
From S2P Require Import Tile.
From S2P Require Import Column.
From S2P Require Import Scrolling.

Local Open Scope Z_scope.

Definition DIRECTIONAL_MOVE_PX : f64 := of_Z 50.

(** ** Helpers of utils/mod.rs *)
Definition ensure_min_max_size (x min_size max_size : Z) : Z :=
  let x := if 0 <? max_size then Z.min x max_size else x in
  if 0 <? min_size then Z.max x min_size else x.
Definition ensure_min_max_size_maybe_zero (x min_size max_size : Z) : Z :=
  if negb (x =? 0) then ensure_min_max_size x min_size max_size
  else if (0 <? min_size) && (min_size =? max_size) then min_size else 0.
Definition clamp_preferring_top_left_in_area (area rect : Rect) : Rect :=
  let x := fmin rect.1.1 (area.1.1 + area.2.1 - rect.2.1)%F in
  let y := fmin rect.1.2 (area.1.2 + area.2.2 - rect.2.2)%F in
  ((fmax x area.1.1, fmax y area.1.2), rect.2).
Definition center_preferring_top_left_in_area (area : Rect) (size : Size) : Point :=
  let d := pair_sub area.2 size in
  pair_add area.1 (fmax (d.1 / of_Z 2)%F f0, fmax (d.2 / of_Z 2)%F f0).

(** [i32::saturating_add] *)
Definition i32_saturating_add (a b : Z) : Z := Z.max (- 2 ^ 31) (Z.min (2 ^ 31 - 1) (a + b)).

(** [f64::total_cmp], with NaN above all numbers, and [Iterator::min_by] and
    [max_by]: the first minimum and the last maximum. *)
Definition total_ltb (a b : f64) : bool :=
  match fcompare a b with
  | Some Lt => true
  | Some Gt => false
  | Some Eq => match a, b with S754_zero true, S754_zero false => true | _, _ => false end
  | None => negb (is_nan a) && is_nan b
  end.
Definition min_by {A} (lt : A -> A -> bool) (l : list A) : option A :=
  match l with [] => None | x :: l => Some (foldl (fun a y => if lt y a then y else a) x l) end.
Definition max_by {A} (lt : A -> A -> bool) (l : list A) : option A :=
  match l with [] => None | x :: l => Some (foldl (fun a y => if lt y a then a else y) x l) end.

(** A position told by a user. *)
Inductive PositionChange :=
| PosSetFixed (x : f64) | PosSetProportion (p : f64) | PosAdjustFixed (x : f64) | PosAdjustProportion (p : f64).

Definition resolve_preset_size (preset : PresetSize) (view_size : f64) : ResolvedSize :=
  match preset with
  | PresetProportion p => ResolvedTile (view_size * p)%F
  | PresetFixed w => ResolvedWindow (of_Z w)
  end.

Definition compute_toplevel_bounds `{!Geometry} (b : Border) (size : Size) : Z * Z :=
  let border := if b_off b then f0 else (b_width b * of_Z 2)%F in
  (i32_floor (fmax (size.1 - border)%F f1), i32_floor (fmax (size.2 - border)%F f1)).

(** ** Extra per-tile data *)
Module Data.
Record Data := {
  pos : Point;
  logical_pos : Point;
  size : Size;
  working_area : Rect
}.

Definition scale_by_working_area (area : Rect) (pos : Point) : Point :=
  pair_add ((pos.1 * area.2.1)%F, (pos.2 * area.2.2)%F) area.1.
Definition logical_to_size_frac_in_working_area (area : Rect) (logical_pos : Point) : Point :=
  let pos := pair_sub logical_pos area.1 in
  ((pos.1 / fmax area.2.1 f1)%F, (pos.2 / fmax area.2.2 f1)%F).

(** How far a window of a size may go off the screen. *)
Definition max_off_screen (size : f64) : res f64 :=
  min_on_screen ← fclamp (size / of_Z 4)%F (of_Z 10) (of_Z 75);
  mret (fmax f0 (size - min_on_screen)%F).

Definition recompute_logical_pos (d : Data) : res Data :=
  let area := working_area d in
  let p := scale_by_working_area area (pos d) in
  off_hor ← max_off_screen (size d).1;
  off_ver ← max_off_screen (size d).2;
  let p := pair_sub p area.1 in
  let x := fmax p.1 (- off_hor)%F in
  let y := fmax p.2 (- off_ver)%F in
  let x := fmin x (area.2.1 - (size d).1 + off_hor)%F in
  let y := fmin y (area.2.2 - (size d).2 + off_ver)%F in
  mret {| pos := pos d; logical_pos := pair_add (x, y) area.1; size := size d; working_area := area |}.

Definition update_config (area : Rect) (d : Data) : res Data :=
  if rect_eqb (working_area d) area then mret d
  else recompute_logical_pos {| pos := pos d; logical_pos := logical_pos d; size := size d; working_area := area |}.

Definition set_logical_pos (p : Point) (d : Data) : res Data :=
  recompute_logical_pos {| pos := logical_to_size_frac_in_working_area (working_area d) p; logical_pos := logical_pos d;
                           size := size d; working_area := working_area d |}.

Definition center (d : Data) : Point := pair_add (logical_pos d) (((size d).1 / of_Z 2)%F, ((size d).2 / of_Z 2)%F).

Section ops.
Context {LE : LayoutElement} {GE : Geometry}.

Definition update (t : Tile.Tile) (d : Data) : res Data :=
  if pair_eqb (size d) (Tile.tile_size t) then mret d
  else recompute_logical_pos {| pos := pos d; logical_pos := logical_pos d; size := Tile.tile_size t; working_area := working_area d |}.

Definition new (area : Rect) (t : Tile.Tile) (p : Point) : res Data :=
  d ← update t {| pos := (f0, f0); logical_pos := (f0, f0); size := (f0, f0); working_area := area |};
  set_logical_pos p d.
End ops.
End Data.

(** ** The space *)
Module FloatingSpace.
Section ops.
Context {LE : LayoutElement} {GE : Geometry} {LM : Libm} {KF : Keyframe}.
Implicit Types (cv : ClockView) (kin : Id -> Id -> bool).

Record FloatingSpace := {
  tiles : list Tile.Tile;
  data : list Data.Data;
  active_window_id : option Id;
  interactive_resize : option InteractiveResize;
  view_size : Size;
  working_area : Rect;
  scale : f64;
  options : LayoutOptions
}.

Definition set_tiles (v : list Tile.Tile) (s : FloatingSpace) : FloatingSpace :=
  {| tiles := v; data := data s; active_window_id := active_window_id s; interactive_resize := interactive_resize s;
     view_size := view_size s; working_area := working_area s; scale := scale s; options := options s |}.
Definition set_data (v : list Data.Data) (s : FloatingSpace) : FloatingSpace :=
  {| tiles := tiles s; data := v; active_window_id := active_window_id s; interactive_resize := interactive_resize s;
     view_size := view_size s; working_area := working_area s; scale := scale s; options := options s |}.
Definition set_active_window_id (v : option Id) (s : FloatingSpace) : FloatingSpace :=
  {| tiles := tiles s; data := data s; active_window_id := v; interactive_resize := interactive_resize s;
     view_size := view_size s; working_area := working_area s; scale := scale s; options := options s |}.
Definition set_interactive_resize (v : option InteractiveResize) (s : FloatingSpace) : FloatingSpace :=
  {| tiles := tiles s; data := data s; active_window_id := active_window_id s; interactive_resize := v;
     view_size := view_size s; working_area := working_area s; scale := scale s; options := options s |}.

Definition new (view_size : Size) (working_area : Rect) (scale : f64) (o : LayoutOptions) : FloatingSpace :=
  {| tiles := []; data := []; active_window_id := None; interactive_resize := None; view_size := view_size;
     working_area := working_area; scale := scale; options := o |}.

Definition update_config (view_size' : Size) (working_area' : Rect) (scale' : f64) (o : LayoutOptions) (s : FloatingSpace)
    : res FloatingSpace :=
  let ts := Tile.update_config view_size' scale' o <$> tiles s in
  ds ← mapM (fun td : Tile.Tile * Data.Data => d ← Data.update td.1 td.2; Data.update_config working_area' d) (zip ts (data s));
  mret {| tiles := ts; data := ds; active_window_id := active_window_id s; interactive_resize := interactive_resize s;
          view_size := view_size'; working_area := working_area'; scale := scale'; options := o |}.

Definition advance_animations cv (s : FloatingSpace) : res FloatingSpace :=
  ts ← mapM (Tile.advance_animations cv) (tiles s); mret (set_tiles ts s).

Definition is_empty (s : FloatingSpace) : bool := match tiles s with [] => true | _ => false end.
Definition idx_of (x : Id) (s : FloatingSpace) : option nat := position (Column.has_id x) (tiles s).
Definition contains (x : Id) (s : FloatingSpace) : bool := match idx_of x s with Some _ => true | None => false end.
Definition has_window (x : Id) (s : FloatingSpace) : bool := existsb (Column.has_id x) (tiles s).
Definition active_window (s : FloatingSpace) : option W :=
  x ← active_window_id s; Tile.window <$> find (Column.has_id x) (tiles s).

(** The window an operation is for, with its index: the given one, or the
    active one. *)
Definition target (window : option Id) (s : FloatingSpace) : res (option (Id * nat)) :=
  match (match window with Some x => Some x | None => active_window_id s end) with
  | Some x => i ← unwrap (idx_of x s); mret (Some (x, i))
  | None => mret None
  end.

Definition update_tile (i : nat) (f : Tile.Tile -> res Tile.Tile) (s : FloatingSpace) : res FloatingSpace :=
  t ← index (tiles s) i; t ← f t; mret (set_tiles (<[i := t]> (tiles s)) s).
Definition update_data (i : nat) (f : Data.Data -> res Data.Data) (s : FloatingSpace) : res FloatingSpace :=
  d ← index (data s) i; d ← f d; mret (set_data (<[i := d]> (data s)) s).

(** ** Positions *)
Definition clamp_within_working_area (p : Point) (size : Size) (s : FloatingSpace) : Point :=
  (clamp_preferring_top_left_in_area (working_area s) (p, size)).1.
Definition scale_by_working_area (p : Point) (s : FloatingSpace) : Point := Data.scale_by_working_area (working_area s) p.
Definition logical_to_size_frac (p : Point) (s : FloatingSpace) : Point :=
  Data.logical_to_size_frac_in_working_area (working_area s) p.

(** A position that window rules ask for. *)
Definition default_pos (p : FloatingPosition) (size : Size) (area : Rect) : Point :=
  let r := relative_to p in
  let x := if bool_decide (r ∈ [TopRight; BottomRight; RelRight]) then (area.2.1 - size.1 - fp_x p)%F else fp_x p in
  let y := if bool_decide (r ∈ [BottomLeft; BottomRight; RelBottom]) then (area.2.2 - size.2 - fp_y p)%F else fp_y p in
  let x := if bool_decide (r ∈ [RelTop; RelBottom]) then (x + (area.2.1 / of_Z 2 - size.1 / of_Z 2))%F else x in
  let y := if bool_decide (r ∈ [RelLeft; RelRight]) then (y + (area.2.2 / of_Z 2 - size.2 / of_Z 2))%F else y in
  pair_add (x, y) area.1.
Definition stored_or_default_tile_pos (t : Tile.Tile) (s : FloatingSpace) : option Point :=
  match Tile.floating_pos t with
  | Some p => Some (scale_by_working_area p s)
  | None => (fun p => default_pos p (Tile.tile_size t) (working_area s)) <$> rule_default_floating_position (win_rules (Tile.window t))
  end.

(** ** Stacking *)
Definition raise_window (from_idx to_idx : nat) (s : FloatingSpace) : res FloatingSpace :=
  _ ← rassert (to_idx <=? from_idx)%nat;
  '(t, ts) ← vec_remove from_idx (tiles s);
  '(d, ds) ← vec_remove from_idx (data s);
  ts ← vec_insert to_idx t ts;
  ds ← vec_insert to_idx d ds;
  mret (set_data ds (set_tiles ts s)).

(** The descendants of [x] among the tiles below it, the first of which has
    index [i], as they are pushed: the loop goes back to front. *)
Fixpoint descendants kin (x : Id) (i : nat) (ts : list Tile.Tile) : list (nat * Id) :=
  match ts with
  | [] => []
  | t :: ts =>
      let ds := descendants kin x (S i) ts in
      if kin (Tile.id t) x || existsb (fun d => kin (Tile.id t) d.2) ds then ds ++ [(i, Tile.id t)] else ds
  end.
Fixpoint raise_all (is_ : list nat) (idx : nat) (s : FloatingSpace) : res FloatingSpace :=
  match is_ with [] => mret s | i :: is_ => s ← raise_window i idx s; raise_all is_ (S idx) s end.
Definition bring_up_descendants_of kin (idx : nat) (s : FloatingSpace) : res FloatingSpace :=
  t ← index (tiles s) idx;
  raise_all (reverse (fst <$> descendants kin (Tile.id t) (S idx) (drop (S idx) (tiles s)))) idx s.

Definition descendants_added kin (x : Id) (s : FloatingSpace) : res (bool * FloatingSpace) :=
  match idx_of x s with
  | Some i => s ← bring_up_descendants_of kin i s; mret (true, s)
  | None => mret (false, s)
  end.

(** ** Adding and removing *)

(** The size asked of a window that becomes floating. *)
Definition floating_size (t : Tile.Tile) : Z * Z :=
  let w := Tile.window t in
  let size := if negb (is_normal (win_pending_sizing_mode w)) then default (0, 0) (Tile.floating_window_size t)
              else match Tile.floating_window_size t with Some z => z | None => default (0, 0) (win_expected_size w) end in
  (ensure_min_max_size_maybe_zero size.1 (win_min_size w).1 (win_max_size w).1,
   ensure_min_max_size_maybe_zero size.2 (win_min_size w).2 (win_max_size w).2).
Definition request_once (size : Z * Z) (animate : bool) (t : Tile.Tile) : Tile.Tile :=
  Tile.set_window (request_size_once size animate (Tile.window t)) t.

Definition add_tile_at kin (idx : nat) (t : Tile.Tile) (activate : bool) (s : FloatingSpace) : res FloatingSpace :=
  let t := Tile.update_config (view_size s) (scale s) (options s) t in
  let t := request_once (floating_size t) true t in
  let s := if activate || is_empty s then set_active_window_id (Some (Tile.id t)) s else s in
  let idx := default idx (position (fun above => kin (Tile.id t) (Tile.id above)) (take idx (tiles s))) in
  let pos := default (center_preferring_top_left_in_area (working_area s) (Tile.tile_size t)) (stored_or_default_tile_pos t s) in
  d ← Data.new (working_area s) t pos;
  ds ← vec_insert idx d (data s);
  ts ← vec_insert idx t (tiles s);
  bring_up_descendants_of kin idx (set_tiles ts (set_data ds s)).
Definition add_tile kin (t : Tile.Tile) (activate : bool) : FloatingSpace -> res FloatingSpace := add_tile_at kin 0 t activate.

Definition add_tile_above kin (above : Id) (t : Tile.Tile) (activate : bool) (s : FloatingSpace) : res FloatingSpace :=
  idx ← unwrap (idx_of above s);
  d ← index (data s) idx;
  let tile_size := Tile.tile_size t in
  let diff := pair_sub (Data.size d) tile_size in
  let p := pair_add (Data.logical_pos d) ((diff.1 / of_Z 2)%F, (diff.2 / of_Z 2)%F) in
  let p := clamp_within_working_area p tile_size s in
  add_tile_at kin idx (Tile.set_floating_pos (Some (logical_to_size_frac p s)) t) activate s.

Definition remove_tile_by_idx (idx : nat) (s : FloatingSpace) : res (RemovedTile Tile.Tile * FloatingSpace) :=
  '(t, ts) ← vec_remove idx (tiles s);
  '(d, ds) ← vec_remove idx (data s);
  let s := set_data ds (set_tiles ts s) in
  let s := match ts with
           | [] => set_active_window_id None s
           | t' :: _ => if bool_decide (Some (Tile.id t) = active_window_id s) then set_active_window_id (Some (Tile.id t')) s else s
           end in
  let s := match interactive_resize s with
           | Some r => if bool_decide (Tile.id t = resize_window r) then set_interactive_resize None s else s
           | None => s
           end in
  let t := match win_expected_size (Tile.window t) with
           | Some size => Tile.set_floating_window_size (Some size) t
           | None => t
           end in
  let t := Tile.set_floating_pos (Some (Data.pos d)) t in
  mret ({| rt_tile := t; rt_width := Fixed (Tile.tile_expected_or_current_size t).1; rt_is_full_width := false;
           rt_is_floating := true |}, s).
Definition remove_tile (x : Id) (s : FloatingSpace) : res (RemovedTile Tile.Tile * FloatingSpace) :=
  i ← unwrap (idx_of x s); remove_tile_by_idx i s.
Definition remove_active_tile (s : FloatingSpace) : res (option (RemovedTile Tile.Tile * FloatingSpace)) :=
  match active_window_id s with Some x => r ← remove_tile x s; mret (Some r) | None => mret None end.

(** ** Activation *)
Definition activate_window_without_raising (x : Id) (s : FloatingSpace) : bool * FloatingSpace :=
  if contains x s then (true, set_active_window_id (Some x) s) else (false, s).
Definition activate_window kin (x : Id) (s : FloatingSpace) : res (bool * FloatingSpace) :=
  match idx_of x s with
  | None => mret (false, s)
  | Some i =>
      s ← raise_window i 0 s;
      s ← bring_up_descendants_of kin 0 (set_active_window_id (Some x) s);
      mret (true, s)
  end.
Definition start_open_animation cv (x : Id) (s : FloatingSpace) : res (bool * FloatingSpace) :=
  match idx_of x s with
  | None => mret (false, s)
  | Some i => s ← update_tile i (Tile.start_open_animation cv) s; mret (true, s)
  end.

(** ** Interactive resizing, and the end of it *)
Definition interactive_resize_end (window : option Id) (s : FloatingSpace) : FloatingSpace :=
  match interactive_resize s with
  | None => s
  | Some r => match window with
              | Some x => if bool_decide (x = resize_window r) then set_interactive_resize None s else s
              | None => set_interactive_resize None s
              end
  end.

(** ** Sizes *)
Definition MAX_PX : f64 := of_Z 100000.
Definition MAX_F : f64 := of_Z 10000.

(** The length of the window in one direction after a change of size:
    [current_window] and [current_tile] are the lengths before, [available] that
    of the working area. *)
Definition changed_length (available : f64) (current_window : Z) (current_tile : f64) (window_for_tile : f64 -> f64) (change : SizeChange)
    : res Z :=
  length ← match change with
           | SetFixed x => mret (of_Z x)
           | SetProportion p => p ← fclamp (p / of_Z 100)%F f0 MAX_F; mret (window_for_tile (available * p)%F)
           | AdjustFixed delta => mret (of_Z (i32_saturating_add current_window delta))
           | AdjustProportion delta =>
               let current := (current_tile / available)%F in
               p ← fclamp (current + delta / of_Z 100)%F f0 MAX_F; mret (window_for_tile (available * p)%F)
           end;
  length ← fclamp (fround length) f1 MAX_PX;
  mret (as_i32 length).

Definition set_window_width (window : option Id) (change : SizeChange) (animate : bool) (s : FloatingSpace) : res FloatingSpace :=
  o ← target window s;
  match o with
  | None => mret s
  | Some (_, i) =>
      update_tile i (fun t =>
        let t := Tile.set_floating_preset_width_idx None t in
        let w := Tile.window t in
        win_width ← changed_length (working_area s).2.1 (default (win_size w) (win_expected_size w)).1
                      (Tile.tile_expected_or_current_size t).1 (fun x => Tile.window_width_for_tile_width x t) change;
        let win_width := ensure_min_max_size win_width (win_min_size w).1 (win_max_size w).1 in
        let win_height := ensure_min_max_size (default (0, 0) (win_expected_size w)).2 (win_min_size w).2 (win_max_size w).2 in
        mret (request_once (win_width, win_height) animate t)) s
  end.

Definition set_window_height (window : option Id) (change : SizeChange) (animate : bool) (s : FloatingSpace) : res FloatingSpace :=
  o ← target window s;
  match o with
  | None => mret s
  | Some (_, i) =>
      update_tile i (fun t =>
        let t := Tile.set_floating_preset_height_idx None t in
        let w := Tile.window t in
        win_height ← changed_length (working_area s).2.2 (default (win_size w) (win_expected_size w)).2
                       (Tile.tile_expected_or_current_size t).2 (fun x => Tile.window_height_for_tile_height x t) change;
        let win_height := ensure_min_max_size win_height (win_min_size w).2 (win_max_size w).2 in
        let win_width := ensure_min_max_size (default (0, 0) (win_expected_size w)).1 (win_min_size w).1 (win_max_size w).1 in
        mret (request_once (win_width, win_height) animate t)) s
  end.

(** The preset to switch to, from the lengths of the window and of its tile. *)
Definition next_length (preset_idx : option nat) (forwards : bool) (window tile available : f64) (presets : list PresetSize) : res nat :=
  Column.next_preset preset_idx forwards
    (fun r => match r with ResolvedTile x => fltb (tile + f1)%F x | ResolvedWindow x => fltb (window + f1)%F x end)
    (fun r => match r with ResolvedTile x => fltb (x + f1)%F tile | ResolvedWindow x => fltb (x + f1)%F window end)
    ((fun p => resolve_preset_size p available) <$> presets).

Definition toggle_window_width (window : option Id) (forwards : bool) (s : FloatingSpace) : res FloatingSpace :=
  o ← target window s;
  match o with
  | None => mret s
  | Some (x, i) =>
      t ← index (tiles s) i;
      idx ← next_length (Tile.floating_preset_width_idx t) forwards (Tile.window_expected_or_current_size t).1
              (Tile.tile_expected_or_current_size t).1 (working_area s).2.1 (preset_column_widths (options s));
      preset ← index (preset_column_widths (options s)) idx;
      s ← set_window_width (Some x) (size_change_from preset) true s;
      s ← update_tile i (fun t => mret (Tile.set_floating_preset_width_idx (Some idx) t)) s;
      mret (interactive_resize_end (Some x) s)
  end.
Definition toggle_window_height (window : option Id) (forwards : bool) (s : FloatingSpace) : res FloatingSpace :=
  o ← target window s;
  match o with
  | None => mret s
  | Some (x, i) =>
      t ← index (tiles s) i;
      idx ← next_length (Tile.floating_preset_height_idx t) forwards (Tile.window_expected_or_current_size t).2
              (Tile.tile_expected_or_current_size t).2 (working_area s).2.2 (preset_window_heights (options s));
      preset ← index (preset_window_heights (options s)) idx;
      s ← set_window_height (Some x) (size_change_from preset) true s;
      s ← update_tile i (fun t => mret (Tile.set_floating_preset_height_idx (Some idx) t)) s;
      mret (interactive_resize_end (Some x) s)
  end.

(** ** Focus by position *)
Definition activate_found kin (o : option (Tile.Tile * f64)) (s : FloatingSpace) : res (bool * FloatingSpace) :=
  match o with
  | Some (t, _) => '(_, s) ← activate_window kin (Tile.id t) s; mret (true, s)
  | None => mret (false, s)
  end.
Definition focus_directional kin (distance : Point -> Point -> f64) (s : FloatingSpace) : res (bool * FloatingSpace) :=
  match active_window_id s with
  | None => mret (false, s)
  | Some active =>
      i ← unwrap (idx_of active s);
      d ← index (data s) i;
      let center := Data.center d in
      let others := filter (fun td : Tile.Tile * Data.Data => Tile.id td.1 <> active) (zip (tiles s) (data s)) in
      let dists := (fun td : Tile.Tile * Data.Data => (td.1, distance center (Data.center td.2))) <$> others in
      let ahead := filter (fun td : Tile.Tile * f64 => fgtb td.2 f0 = true) dists in
      activate_found kin (min_by (fun a b : Tile.Tile * f64 => total_ltb a.2 b.2) ahead) s
  end.
Definition focus_left kin : FloatingSpace -> res (bool * FloatingSpace) :=
  focus_directional kin (fun focus other => (focus.1 - other.1)%F).
Definition focus_right kin : FloatingSpace -> res (bool * FloatingSpace) :=
  focus_directional kin (fun focus other => (other.1 - focus.1)%F).
Definition focus_up kin : FloatingSpace -> res (bool * FloatingSpace) :=
  focus_directional kin (fun focus other => (focus.2 - other.2)%F).
Definition focus_down kin : FloatingSpace -> res (bool * FloatingSpace) :=
  focus_directional kin (fun focus other => (other.2 - focus.2)%F).

(** The tiles with a coordinate of their positions. *)
Definition tiles_with_offsets (s : FloatingSpace) : list (Tile.Tile * Point) := zip (tiles s) (Data.logical_pos <$> data s).
Definition coordinates (f : Point -> f64) (s : FloatingSpace) : list (Tile.Tile * f64) :=
  (fun tp : Tile.Tile * Point => (tp.1, f tp.2)) <$> tiles_with_offsets s.
Definition total_lt (a b : Tile.Tile * f64) : bool := total_ltb a.2 b.2.
Definition focus_leftmost kin (s : FloatingSpace) : res FloatingSpace :=
  '(_, s) ← activate_found kin (min_by total_lt (coordinates fst s)) s; mret s.
Definition focus_rightmost kin (s : FloatingSpace) : res FloatingSpace :=
  '(_, s) ← activate_found kin (max_by total_lt (coordinates fst s)) s; mret s.
Definition focus_topmost kin (s : FloatingSpace) : res FloatingSpace :=
  '(_, s) ← activate_found kin (min_by total_lt (coordinates snd s)) s; mret s.
Definition focus_bottommost kin (s : FloatingSpace) : res FloatingSpace :=
  '(_, s) ← activate_found kin (max_by total_lt (coordinates snd s)) s; mret s.

(** ** Moving *)
Definition ANIMATION_THRESHOLD_SQ : f64 := (of_Z 10 * of_Z 10)%F.
Definition move_and_animate cv (i : nat) (new_pos : Point) (s : FloatingSpace) : res FloatingSpace :=
  d ← index (data s) i;
  let prev_pos := Data.logical_pos d in
  d ← Data.set_logical_pos new_pos d;
  let s := set_data (<[i := d]> (data s)) s in
  let diff := pair_sub prev_pos (Data.logical_pos d) in
  if fgtb (diff.1 * diff.1 + diff.2 * diff.2)%F ANIMATION_THRESHOLD_SQ
  then update_tile i (Tile.animate_move_from cv diff) s else mret s.
Definition move_to cv (i : nat) (new_pos : Point) (animate : bool) (s : FloatingSpace) : res FloatingSpace :=
  s ← (if animate then move_and_animate cv i new_pos s else update_data i (Data.set_logical_pos new_pos) s);
  mret (interactive_resize_end None s).
Definition move_by cv (amount : Point) (s : FloatingSpace) : res FloatingSpace :=
  o ← target None s;
  match o with
  | None => mret s
  | Some (_, i) => d ← index (data s) i; move_to cv i (pair_add (Data.logical_pos d) amount) true s
  end.
Definition move_left cv : FloatingSpace -> res FloatingSpace := move_by cv ((- DIRECTIONAL_MOVE_PX)%F, f0).
Definition move_right cv : FloatingSpace -> res FloatingSpace := move_by cv (DIRECTIONAL_MOVE_PX, f0).
Definition move_up cv : FloatingSpace -> res FloatingSpace := move_by cv (f0, (- DIRECTIONAL_MOVE_PX)%F).
Definition move_down cv : FloatingSpace -> res FloatingSpace := move_by cv (f0, DIRECTIONAL_MOVE_PX).

(** One coordinate after a change of position. *)
Definition changed_coordinate (available loc x : f64) (change : PositionChange) : res f64 :=
  match change with
  | PosSetFixed x => mret (x + loc)%F
  | PosSetProportion p => p ← fclamp (p / of_Z 100)%F f0 MAX_F; mret (available * p + loc)%F
  | PosAdjustFixed dx => mret (x + dx)%F
  | PosAdjustProportion p =>
      let current := ((x - loc) / fmax available f1)%F in
      p ← fclamp (current + p / of_Z 100)%F f0 MAX_F; mret (available * p + loc)%F
  end.
Definition move_window cv (window : option Id) (x y : PositionChange) (animate : bool) (s : FloatingSpace) : res FloatingSpace :=
  o ← target window s;
  match o with
  | None => mret s
  | Some (_, i) =>
      d ← index (data s) i;
      let area := working_area s in
      new_x ← changed_coordinate area.2.1 area.1.1 (Data.logical_pos d).1 x;
      new_y ← changed_coordinate area.2.2 area.1.2 (Data.logical_pos d).2 y;
      move_to cv i (new_x, new_y) animate s
  end.
Definition center_window cv (window : option Id) (s : FloatingSpace) : res FloatingSpace :=
  o ← target window s;
  match o with
  | None => mret s
  | Some (_, i) => d ← index (data s) i; move_to cv i (center_preferring_top_left_in_area (working_area s) (Data.size d)) true s
  end.

(** ** The window changed *)
Definition update_window cv (x : Id) (serial : option Z) (s : FloatingSpace) : res (bool * FloatingSpace) :=
  match idx_of x s with
  | None => mret (false, s)
  | Some i =>
      t ← index (tiles s) i;
      d ← index (data s) i;
      let resize := interactive_resize_data (Tile.window t) in
      let t := match serial with Some n => Tile.set_window (on_commit n (Tile.window t)) t | None => t end in
      let prev_size := Data.size d in
      t ← Tile.update_window cv t;
      d ← Data.update t d;
      d ← match resize with
          | Some edges =>
              let dx := if edge_left edges then (f0 + (prev_size.1 - (Data.size d).1))%F else f0 in
              let dy := if edge_top edges then (f0 + (prev_size.2 - (Data.size d).2))%F else f0 in
              Data.set_logical_pos (pair_add (Data.logical_pos d) (dx, dy)) d
          | None => mret d
          end;
      mret (true, set_data (<[i := d]> (data s)) (set_tiles (<[i := t]> (tiles s)) s))
  end.

(** ** Interactive resizing *)
Definition interactive_resize_begin (x : Id) (edges : ResizeEdge) (s : FloatingSpace) : res (bool * FloatingSpace) :=
  match interactive_resize s with
  | Some _ => mret (false, s)
  | None =>
      t ← unwrap (find (Column.has_id x) (tiles s));
      mret (true, set_interactive_resize (Some {| resize_window := x; original_window_size := Tile.window_size t;
                                                  resize_edges := edges |}) s)
  end.
Definition interactive_resize_update (x : Id) (delta : Point) (s : FloatingSpace) : res (bool * FloatingSpace) :=
  match interactive_resize s with
  | None => mret (false, s)
  | Some r =>
      if negb (bool_decide (x = resize_window r)) then mret (false, s)
      else
        let edges := resize_edges r in
        s ← (if edge_left edges || edge_right edges then
               let dx := if edge_left edges then (- delta.1)%F else delta.1 in
               set_window_width (Some x) (SetFixed (as_i32 (fround ((original_window_size r).1 + dx)%F))) false s
             else mret s);
        s ← (if edge_top edges || edge_bottom edges then
               let dy := if edge_top edges then (- delta.2)%F else delta.2 in
               set_window_height (Some x) (SetFixed (as_i32 (fround ((original_window_size r).2 + dy)%F))) false s
             else mret s);
        mret (true, s)
  end.

(** ** Windows that are about to open *)
Definition new_window_toplevel_bounds (rules : WindowRules) (s : FloatingSpace) : Z * Z :=
  compute_toplevel_bounds (border_merged_with (rule_border rules) (opt_border (options s))) (working_area s).2.
Definition new_length (border : Border) (size : option PresetSize) (available : f64) : Z :=
  match size with
  | None => 0
  | Some p =>
      let x := match resolve_preset_size p available with
               | ResolvedTile x => if b_off border then x else (x - b_width border * of_Z 2)%F
               | ResolvedWindow x => x
               end in
      Z.max 1 (as_i32 (ffloor x))
  end.
Definition new_window_size (width height : option PresetSize) (rules : WindowRules) (s : FloatingSpace) : Z * Z :=
  let border := border_merged_with (rule_border rules) (opt_border (options s)) in
  (new_length border width (working_area s).2.1, new_length border height (working_area s).2.2).
End ops.
End FloatingSpace.
