(* ===== verification/FloatingStack.v ===== *)
(** * Stacks of windows

    A stack lists windows from top to bottom; [kin x y] says that [x] is a child
    of [y].  A stack is in order when children are above their parents.  Bringing
    the descendants of a window right above it, as layout/floating.rs does one
    window at a time, puts a stack in order again. *)

From stdpp Require Import base numbers option list sorting relations.
From Stdlib Require Import Sorted.
From S2P Require Import Prelude.
From S2P Require Import Runs.

(** ** Parts of a list *)
Section select.
Context {A : Type}.
Implicit Types (l a b : list A) (bs : list bool).

Fixpoint select bs l : list A :=
  match bs, l with b :: bs, x :: l => if b then x :: select bs l else select bs l | _, _ => [] end.
Fixpoint reject bs l : list A :=
  match bs, l with b :: bs, x :: l => if b then reject bs l else x :: reject bs l | _, _ => l end.
(** The indices of a part, where the list starts at index [n]. *)
Fixpoint positions (n : nat) bs : list nat :=
  match bs with [] => [] | b :: bs => if b then n :: positions (S n) bs else positions (S n) bs end.

Lemma select_reject_perm bs l : select bs l ++ reject bs l ≡ₚ l.
Proof.
  revert l. induction bs as [|b bs IH]; intros [|x l]; cbn; try done. destruct b; cbn; [by rewrite IH|]. rewrite <-Permutation_middle. by rewrite IH.
Qed.
Lemma elem_of_select bs l x : x ∈ select bs l -> x ∈ l.
Proof. intros H. rewrite <-(select_reject_perm bs l), elem_of_app. auto. Qed.
Lemma elem_of_reject bs l x : x ∈ reject bs l -> x ∈ l.
Proof. intros H. rewrite <-(select_reject_perm bs l), elem_of_app. auto. Qed.

(** [raise_window] as it acts on either vector. *)
Definition raised (i to : nat) l : list A := match l !! i with Some x => insert_at to x (delete i l) | None => l end.
Fixpoint raised_all (is_ : list nat) (to : nat) l : list A :=
  match is_ with [] => l | i :: is_ => raised_all is_ (S to) (raised i to l) end.

Lemma raised_middle pre a x b : raised (length pre + length a) (length pre) (pre ++ a ++ x :: b) = pre ++ x :: a ++ b.
Proof.
  unfold raised. rewrite app_assoc, lookup_app_r, length_app, Nat.sub_diag by (rewrite length_app; lia). cbn.
  rewrite <-length_app, delete_middle. unfold insert_at. rewrite <-app_assoc, take_app_length, drop_app_length. done.
Qed.

Lemma raised_positions bs pre a b :
  length bs = length b ->
  raised_all (positions (length pre + length a) bs) (length pre) (pre ++ a ++ b) = pre ++ select bs b ++ a ++ reject bs b.
Proof.
  revert pre a b. induction bs as [|c bs IH]; intros pre a b; [by destruct b|]. destruct b as [|x b]; [done|]. intros [= Hl].
  destruct c; cbn [positions select reject raised_all].
  - rewrite raised_middle. specialize (IH (pre ++ [x]) a b Hl). rewrite length_app in IH. cbn [length] in IH.
    replace (length pre + 1 + length a) with (S (length pre + length a)) in IH by lia. rewrite Nat.add_1_r, <-!app_assoc in IH. exact IH.
  - specialize (IH pre (a ++ [x]) b Hl). rewrite length_app in IH. cbn [length] in IH.
    replace (length pre + (length a + 1)) with (S (length pre + length a)) in IH by lia. rewrite <-!app_assoc in IH. exact IH.
Qed.

Lemma select_length bs l : length (select bs l) <= length l.
Proof. pose proof (Permutation_length (select_reject_perm bs l)) as H. rewrite length_app in H. lia. Qed.
Lemma raised_length i to l : to <= i < length l -> length (raised i to l) = length l.
Proof.
  intros [Ht Hi]. unfold raised. destruct (lookup_lt_is_Some_2 l i Hi) as [x Hx]. rewrite Hx.
  rewrite length_insert_at; [|rewrite length_delete by (by eexists); lia]. rewrite length_delete by (by eexists). lia.
Qed.

(** The indices to raise are ascending, and each is in range when its turn
    comes. *)
Inductive in_turn (len : nat) : nat -> list nat -> Prop :=
| in_turn_nil to : in_turn len to []
| in_turn_cons to i is_ : to <= i < len -> in_turn len (S to) is_ -> in_turn len to (i :: is_).
Lemma positions_in_turn bs len n to : to <= n -> n + length bs <= len -> in_turn len to (positions n bs).
Proof.
  revert n to. induction bs as [|b bs IH]; intros n to Ht Hn; cbn in *; [constructor|]. destruct b; [constructor; [lia|]|]; apply IH; lia.
Qed.
End select.

Lemma select_fmap {A B} (f : A -> B) bs l : f <$> select bs l = select bs (f <$> l).
Proof. revert l. induction bs as [|b bs IH]; intros [|x l]; cbn; try done. destruct b; cbn; by rewrite IH. Qed.
Lemma reject_fmap {A B} (f : A -> B) bs l : f <$> reject bs l = reject bs (f <$> l).
Proof. revert l. induction bs as [|b bs IH]; intros [|x l]; cbn; try done. destruct b; cbn; by rewrite IH. Qed.
Lemma raised_fmap {A B} (f : A -> B) i to l : f <$> raised i to l = raised i to (f <$> l).
Proof.
  unfold raised. rewrite list_lookup_fmap. destruct (l !! i) as [x|]; cbn; [|done]. unfold insert_at. by rewrite fmap_app, fmap_take, fmap_cons, fmap_drop, list_fmap_delete.
Qed.
Lemma raised_all_fmap {A B} (f : A -> B) is_ to l : f <$> raised_all is_ to l = raised_all is_ to (f <$> l).
Proof. revert to l. induction is_ as [|i is_ IH]; intros to l; cbn; [done|]. by rewrite IH, raised_fmap. Qed.

(** ** Order *)
Section order.
Context {Id : Type} `{!EqDecision Id}.
Implicit Types (kin : Id -> Id -> bool) (l : list Id) (x y : Id).

(** [b] may be anywhere below [a]. *)
Definition below kin (a b : Id) : Prop := kin b a = false.
Definition stacked kin l : Prop := StronglySorted (below kin) l.
Definition child kin x y : Prop := kin x y = true.
(** No window is its own descendant: the protocol's promise about parents. *)
Definition acyclic kin : Prop := forall x, ~ tc (child kin) x x.

Lemma sorted_app (R : Id -> Id -> Prop) a b :
  StronglySorted R a -> StronglySorted R b -> (forall x y, x ∈ a -> y ∈ b -> R x y) -> StronglySorted R (a ++ b).
Proof.
  induction a as [|x a IH]; cbn; intros Ha Hb Hab; [done|]. apply StronglySorted_inv in Ha as [Ha Hx]. constructor.
  - apply IH; [done|done|]. intros y z Hy Hz. apply Hab; [by right|done].
  - apply Forall_app. split; [done|]. apply Forall_forall. intros y Hy. apply Hab; [left|done].
Qed.
Lemma sorted_select (R : Id -> Id -> Prop) bs l : StronglySorted R l -> StronglySorted R (select bs l).
Proof.
  revert bs. induction l as [|x l IH]; intros [|b bs] H; cbn; try constructor. apply StronglySorted_inv in H as [H Hx].
  destruct b; [|by apply IH]. constructor; [by apply IH|]. rewrite Forall_forall in *. intros y Hy. by apply Hx; eapply elem_of_select.
Qed.
Lemma sorted_reject (R : Id -> Id -> Prop) bs l : StronglySorted R l -> StronglySorted R (reject bs l).
Proof.
  revert bs. induction l as [|x l IH]; intros [|b bs] H; cbn; try done; try constructor. apply StronglySorted_inv in H as [H Hx].
  destruct b; [by apply IH|]. constructor; [by apply IH|]. rewrite Forall_forall in *. intros y Hy. by apply Hx; eapply elem_of_reject.
Qed.
Lemma sorted_delete (R : Id -> Id -> Prop) i l : StronglySorted R l -> StronglySorted R (delete i l).
Proof.
  revert i. induction l as [|x l IH]; intros [|i] H; cbn; try done; apply StronglySorted_inv in H as [H Hx]; [done|].
  constructor; [by apply IH|]. rewrite Forall_forall in *. intros y Hy. apply Hx. by eapply sublist_subseteq, Hy; first apply sublist_delete.
Qed.

(** Which windows of a stack are descendants of [x]. *)
Fixpoint family kin x l : list bool :=
  match l with
  | [] => []
  | y :: l => let bs := family kin x l in (kin y x || existsb (kin y) (select bs l)) :: bs
  end.

Lemma length_family kin x l : length (family kin x l) = length l.
Proof. induction l as [|y l IH]; cbn; [done|]. by rewrite IH. Qed.
Lemma family_tc kin x l y : y ∈ select (family kin x l) l -> tc (child kin) y x.
Proof.
  revert y. induction l as [|z l IH]; intros y; cbn; [intros H; inversion H|]. destruct (_ || _) eqn:E; [|apply IH].
  intros [->|Hy]%elem_of_cons; [|by apply IH]. apply orb_true_iff in E as [E|E]; [by constructor|].
  apply existsb_exists in E as (w & Hw & Hk). apply list_elem_of_In in Hw. eapply tc_l; [exact Hk|by apply IH].
Qed.
Lemma reject_not_child kin x l y : y ∈ reject (family kin x l) l -> kin y x = false.
Proof.
  induction l as [|z l IH]; cbn; [intros H; inversion H|]. destruct (_ || _) eqn:E; [done|]. apply orb_false_iff in E as [E _].
  intros [->|Hy]%elem_of_cons; auto.
Qed.
Lemma family_closed kin x l a b :
  stacked kin l -> a ∈ select (family kin x l) l -> b ∈ reject (family kin x l) l -> below kin a b.
Proof.
  induction l as [|z l IH]; cbn; [intros _ H; inversion H|]. intros Hs%StronglySorted_inv Ha Hb. destruct Hs as [Hs Hz]. rewrite Forall_forall in Hz.
  destruct (_ || _) eqn:E.
  - apply elem_of_cons in Ha as [->|Ha]; [|by apply IH]. by apply Hz; eapply elem_of_reject.
  - apply elem_of_cons in Hb as [->|Hb]; [|by apply IH]. apply orb_false_iff in E as [_ E]. unfold below.
    destruct (kin z a) eqn:Ek; [|done]. exfalso. rewrite <-not_true_iff_false in E. apply E, existsb_exists. exists a. split; [by apply list_elem_of_In|done].
Qed.

(** Bringing the descendants of the window at [i] right above it. *)
Definition k_bring_up kin (i : nat) l : list Id :=
  match l !! i with
  | Some x => let rest := drop (S i) l in let bs := family kin x rest in take i l ++ select bs rest ++ x :: reject bs rest
  | None => l
  end.

Lemma bring_up_perm kin i l : k_bring_up kin i l ≡ₚ l.
Proof.
  unfold k_bring_up. destruct (l !! i) as [x|] eqn:E; [|done]. pose proof (take_drop_middle l i x E) as Hl.
  cbv zeta. rewrite <-Permutation_middle, select_reject_perm. by rewrite Hl.
Qed.

(** The order comes out right if only the window at [i] may have children
    below it. *)
Lemma bring_up_stacked kin i l x :
  acyclic kin -> l !! i = Some x -> StronglySorted (fun a b => a = x \/ below kin a b) l -> NoDup l -> stacked kin (k_bring_up kin i l).
Proof.
  intros Hac Hi Hs Hnd. unfold k_bring_up. rewrite Hi. pose proof (take_drop_middle l i x Hi) as Hl. rewrite <-Hl in Hs, Hnd.
  set (pre := take i l) in *. set (rest := drop (S i) l) in *. clearbody pre rest. clear Hl Hi.
  apply NoDup_app in Hnd as (_ & Hpre & Hnd). apply NoDup_cons in Hnd as [Hx _].
  pose proof (fun a b => StronglySorted_app_1_elem_of _ pre (x :: rest) a b Hs) as Hab.
  pose proof (StronglySorted_app_1_l _ _ _ Hs) as Hp. apply StronglySorted_app_1_r, StronglySorted_inv in Hs as [Hr _].
  assert (Hweak : forall k, (x ∉ k) -> StronglySorted (fun a b => a = x \/ below kin a b) k -> stacked kin k).
  { intros k. induction k as [|y k IH]; intros Hk H; [constructor|]. apply StronglySorted_inv in H as [H Hy]. constructor; [apply IH; [set_solver|done]|].
    eapply Forall_impl; [exact Hy|]. intros z [->|?]; [set_solver|done]. }
  apply Hweak in Hr; [|done]. apply Hweak in Hp; [|intros H; by apply (Hpre x H), list_elem_of_here].
  assert (Hab' : forall a b, a ∈ pre -> b ∈ x :: rest -> below kin a b).
  { intros a b Ha Hb. destruct (Hab a b Ha Hb) as [->|?]; [|done]. destruct (Hpre x Ha). left. }
  apply sorted_app; [done| |].
  - apply sorted_app; [by apply sorted_select| |].
    + constructor; [by apply sorted_reject|]. apply Forall_forall. intros b Hb. by eapply reject_not_child.
    + intros a b Ha [->|Hb]%elem_of_cons; [|exact (family_closed kin x rest a b Hr Ha Hb)]. unfold below. destruct (kin x a) eqn:E; [|done].
      destruct (Hac x). eapply tc_l; [exact E|by eapply family_tc].
  - intros a b Ha Hb. apply Hab'; [done|]. rewrite elem_of_app, elem_of_cons in Hb. rewrite elem_of_cons.
    destruct Hb as [Hb|[->|Hb]]; [right; by eapply elem_of_select|by left|right; by eapply elem_of_reject].
Qed.

(** A window that comes in at [i], or above the first window before [i] it is a
    child of, with its descendants. *)
Definition k_insert kin (i : nat) x l : list Id :=
  let i := default i (position (kin x) (take i l)) in k_bring_up kin i (insert_at i x l).

Lemma insert_stacked kin i x l :
  acyclic kin -> i <= length l -> (x ∉ l) -> NoDup l -> stacked kin l -> stacked kin (k_insert kin i x l).
Proof.
  intros Hac Hi Hx Hnd Hs. unfold k_insert. set (k := default _ _).
  assert (Hk : k <= length l /\ forall a, a ∈ take k l -> kin x a = false).
  { unfold k. destruct (position _ _) as [j|] eqn:Ep; cbn.
    - apply position_Some in Ep as (y & Hy & Hky & Hlt). pose proof (lookup_lt_Some _ _ _ Hy) as Hj. rewrite length_take in Hj.
      split; [lia|]. intros a Ha. apply list_elem_of_lookup in Ha as [m Hm]. pose proof (lookup_lt_Some _ _ _ Hm) as Hm'. rewrite length_take in Hm'.
      rewrite lookup_take_lt in Hm by lia. apply (Hlt m); [lia|]. by rewrite lookup_take_lt by lia.
    - rewrite position_None in Ep. split; [done|]. exact Ep. }
  destruct Hk as [Hk Hpre]. clearbody k. apply bring_up_stacked with (x := x); [done|by apply lookup_insert_at_eq| |].
  - unfold insert_at. rewrite <-(take_drop k l) in Hs.
    assert (Hw : forall m, stacked kin m -> StronglySorted (fun a b => a = x \/ below kin a b) m).
    { intros m. induction m as [|y m IH]; intros H; [constructor|]. apply StronglySorted_inv in H as [H Hy]. constructor; [by apply IH|].
      eapply Forall_impl; [exact Hy|]. by right. }
    apply sorted_app.
    + by eapply Hw, StronglySorted_app_1_l.
    + constructor; [by eapply Hw, StronglySorted_app_1_r|]. apply Forall_forall. by left.
    + intros a b Ha [->|Hb]%elem_of_cons; right; [by apply Hpre|]. by eapply StronglySorted_app_1_elem_of.
  - rewrite insert_at_perm. by apply NoDup_cons.
Qed.

(** A window that is activated comes to the top. *)
Definition k_activate kin x l : list Id := match position (fun y => bool_decide (y = x)) l with Some i => k_bring_up kin 0 (raised i 0 l) | None => l end.
End order.
