(* ===== verification/FloatingInv.v ===== *)
(** * The invariant of the floating layout

    The invariant of [FloatingSpace::verify_invariants] (layout/floating.rs), how
    a floating space is seen as a stack of windows, and the operations that the
    others are made of. *)

From stdpp Require Import base numbers option list sorting.
From Stdlib Require Import ZArith Lia SpecFloat Sorted.
From S2P Require Import Prelude.
From S2P Require Import Runs.
From S2P Require Import F64.
From S2P Require Import Duration.
From S2P Require Import Clock.
From S2P Require Import Animation.
From S2P Require Import AnimTotal.
From S2P Require Import LayoutTypes.
From S2P Require Import F64Sign.
From S2P Require Import Tile.
From S2P Require Import TileInv.
From S2P Require Import Column.
From S2P Require Import ColumnInv.
From S2P Require Import ColumnOps.
From S2P Require Import Scrolling.
From S2P Require Import Floating.
From S2P Require Import FloatingStack.

Section inv.
Context {LE : LayoutElement} {LEL : LayoutElementLaws} {GE : Geometry} {GL : GeometryLaws} {LM : Libm} {KF : Keyframe}.
Implicit Types (cv : ClockView) (t : Tile.Tile) (d : Data.Data) (s : FloatingSpace.FloatingSpace) (kin : Id -> Id -> bool).
Import FloatingSpace.

(** ** Cached positions *)

(** What two values the code compares with [==] may be when it takes them to be
    the same. *)
Definition same_area (a b : Rect) : Prop := a = b \/ rect_eqb a b = true.
Definition same_size (a b : Size) : Prop := a = b \/ pair_eqb a b = true.

Record data_ok (area : Rect) t d : Prop := {
  da_area : same_area (Data.working_area d) area;
  da_size : same_size (Data.size d) (Tile.tile_size t);
  da_pos : Data.recompute_logical_pos d = Ok d
}.

Lemma max_off_runs x : runs (Data.max_off_screen x) (fun _ => True).
Proof. unfold Data.max_off_screen. runs clamp_runs; [by vm_compute|]. intros y _ _. by returns. Qed.
Lemma recompute_runs d :
  runs (Data.recompute_logical_pos d) (fun d' =>
    Data.size d' = Data.size d /\ Data.working_area d' = Data.working_area d /\ Data.pos d' = Data.pos d /\ Data.recompute_logical_pos d' = Ok d').
Proof.
  pose proof (max_off_runs (Data.size d).1) as Hx. apply runs_ok in Hx as (x & Hx & _).
  pose proof (max_off_runs (Data.size d).2) as Hy. apply runs_ok in Hy as (y & Hy & _).
  unfold Data.recompute_logical_pos at 1. step Hx. step Hy. returns. split_and!; [done..|].
  unfold Data.recompute_logical_pos. cbn [Data.size Data.working_area Data.pos]. rewrite Hx. cbn [mbind res_bind]. by rewrite Hy.
Qed.
Lemma set_logical_pos_runs p d :
  runs (Data.set_logical_pos p d) (fun d' =>
    Data.size d' = Data.size d /\ Data.working_area d' = Data.working_area d /\ Data.recompute_logical_pos d' = Ok d').
Proof. unfold Data.set_logical_pos. finish recompute_runs. intros d' _ (? & ? & _ & ?). done. Qed.
Lemma data_update_runs t d :
  runs (Data.update t d) (fun d' => same_size (Data.size d') (Tile.tile_size t) /\ Data.working_area d' = Data.working_area d
    /\ (Data.recompute_logical_pos d = Ok d -> Data.recompute_logical_pos d' = Ok d')).
Proof.
  unfold Data.update. apply runs_if; intros E; [returns; split_and!; [by right|done|done]|].
  finish recompute_runs. intros d' _ (Hs & ? & _ & ?). split_and!; [left; by rewrite Hs|done|done].
Qed.
Lemma data_config_runs area d :
  Data.recompute_logical_pos d = Ok d ->
  runs (Data.update_config area d) (fun d' => same_area (Data.working_area d') area /\ Data.size d' = Data.size d /\ Data.recompute_logical_pos d' = Ok d').
Proof.
  intros Hd. unfold Data.update_config. apply runs_if; intros E; [returns; split_and!; [by right|done|done]|].
  finish recompute_runs. intros d' _ (Hs & Ha & _ & ?). split_and!; [by left; rewrite Ha|by rewrite Hs|done].
Qed.
Lemma data_new_runs area t p : runs (Data.new area t p) (data_ok area t).
Proof.
  unfold Data.new. runs data_update_runs. intros d _ (Hs & Ha & _). finish set_logical_pos_runs. intros d' _ (Hs' & Ha' & Hr).
  split; [left; by rewrite Ha', Ha|by rewrite Hs'|done].
Qed.
Lemma data_move_runs area t p d : data_ok area t d -> runs (Data.set_logical_pos p d) (data_ok area t).
Proof. intros [Ha Hs _]. finish set_logical_pos_runs. intros d' _ (Hs' & Ha' & Hr). split; [by rewrite Ha'|by rewrite Hs'|done]. Qed.
Lemma data_ok_size area t t' d : Tile.tile_size t' = Tile.tile_size t -> data_ok area t d -> data_ok area t' d.
Proof. intros He [Ha Hs Hr]. split; [done|by rewrite He|done]. Qed.

(** ** The space as a stack *)
Definition ids s : list Id := Tile.id <$> tiles s.
Record Pile := { p_ids : list Id; p_active : option Id }.
Definition pile s : Pile := {| p_ids := ids s; p_active := active_window_id s |}.

(** What the configuration of a space consists of. *)
Record FEnv := { fe_options : LayoutOptions; fe_view_size : Size; fe_working_area : Rect; fe_scale : f64 }.
Definition fenv s : FEnv :=
  {| fe_options := options s; fe_view_size := view_size s; fe_working_area := working_area s; fe_scale := scale s |}.

Definition tile_floats (E : FEnv) t : Prop :=
  tile_ok (fe_options E) (fe_view_size E) (fe_scale E) t /\ synced t /\ pending t = Normal.

(** [floating_base] is the invariant but for the stacking order. *)
Record floating_base s : Prop := {
  fo_options : options_ok (options s);
  fo_scale : positive_finite (scale s) = true;
  fo_tiles : Forall (tile_floats (fenv s)) (tiles s);
  fo_data : Forall2 (data_ok (working_area s)) (tiles s) (data s);
  fo_nodup : NoDup (ids s);
  fo_active : match active_window_id s with Some x => x ∈ ids s | None => tiles s = [] end;
  fo_resize : forall r, interactive_resize s = Some r -> resize_window r ∈ ids s
}.
Definition floating_ok kin s : Prop := floating_base s /\ stacked kin (ids s).

(** An operation kept the invariant, and the stack is now [p]. *)
Definition fto kin s (p : Pile) s' : Prop := floating_ok kin s' /\ fenv s' = fenv s /\ pile s' = p.

Lemma fto_refl kin s : floating_ok kin s -> fto kin s (pile s) s.
Proof. done. Qed.
Lemma fto_trans kin a b c p : fenv b = fenv a -> fto kin b p c -> fto kin a p c.
Proof. intros He (H1 & H2 & H3). split_and!; [done|by rewrite H2|done]. Qed.

Lemma len_data s : floating_base s -> length (data s) = length (tiles s).
Proof. intros H. symmetry. eapply Forall2_length, H. Qed.
Lemma lookup_data s i t : floating_base s -> tiles s !! i = Some t -> exists d, data s !! i = Some d /\ data_ok (working_area s) t d.
Proof. intros H Ht. eapply Forall2_lookup_l in Ht as (d & ? & ?); [|apply H]. eauto. Qed.
Lemma lookup_floats s i t : floating_base s -> tiles s !! i = Some t -> tile_floats (fenv s) t.
Proof. intros H Ht. eapply Forall_lookup_1; [apply H|done]. Qed.
Lemma length_pile_ids s : length (ids s) = length (tiles s).
Proof. apply length_fmap. Qed.

Lemma idx_of_Some s x i : idx_of x s = Some i -> exists t, tiles s !! i = Some t /\ Tile.id t = x.
Proof. intros H. apply position_Some in H as (t & Ht & Hx & _). exists t. split; [done|]. by apply bool_decide_eq_true_1 in Hx. Qed.
Lemma idx_of_None s x : idx_of x s = None -> (x ∉ ids s).
Proof.
  unfold idx_of. rewrite position_None. intros H Hx. apply list_elem_of_fmap in Hx as (t & -> & Ht). specialize (H t Ht).
  unfold Column.has_id in H. by rewrite bool_decide_eq_true_2 in H.
Qed.
Lemma idx_of_ids s x : position (fun y => bool_decide (y = x)) (ids s) = idx_of x s.
Proof. unfold ids, idx_of. induction (tiles s) as [|t l IH]; cbn; [done|]. rewrite IH. unfold Column.has_id. done. Qed.
Lemma idx_of_in s x : x ∈ ids s -> exists i t, idx_of x s = Some i /\ tiles s !! i = Some t /\ Tile.id t = x.
Proof.
  intros Hx. destruct (idx_of x s) as [i|] eqn:E; [|by apply idx_of_None in E]. destruct (idx_of_Some _ _ _ E) as (t & ? & ?). eauto.
Qed.
Lemma contains_in s x : contains x s = bool_decide (x ∈ ids s).
Proof.
  unfold contains. destruct (idx_of x s) as [i|] eqn:E.
  - apply idx_of_Some in E as (t & Ht & <-). symmetry. apply bool_decide_eq_true_2. unfold ids. by eapply list_elem_of_fmap_2, list_elem_of_lookup_2.
  - apply idx_of_None in E. by rewrite bool_decide_eq_false_2.
Qed.

(** The window an operation is for. *)
Definition meant (window : option Id) s : option Id := match window with Some x => Some x | None => active_window_id s end.
Lemma target_runs window s :
  floating_base s -> (forall x, window = Some x -> x ∈ ids s) ->
  runs (target window s) (fun o => match o with
    | Some (x, i) => meant window s = Some x /\ exists t, tiles s !! i = Some t /\ Tile.id t = x
    | None => meant window s = None
    end).
Proof.
  intros Hs Hw. unfold target. change (match window with Some x => _ | None => _ end) with (meant window s).
  destruct (meant window s) as [x|] eqn:Em; [|by returns].
  destruct (idx_of_in s x) as (i & t & Hi & Ht & Hx).
  { destruct window as [y|]; cbn in Em; [injection Em as <-; by apply Hw|]. pose proof (fo_active s Hs) as Ha. by rewrite Em in Ha. }
  step unwrap_ok; [exact Hi|]. returns. eauto.
Qed.

(** ** One tile or one position changes *)
Definition retile i t s : FloatingSpace := set_tiles (<[i := t]> (tiles s)) s.

Lemma ids_insert (l : list Tile.Tile) i t t' : l !! i = Some t -> Tile.id t' = Tile.id t -> Tile.id <$> <[i := t']> l = Tile.id <$> l.
Proof. intros Ht Hid. rewrite list_fmap_insert. apply list_insert_id. by rewrite list_lookup_fmap, Ht, Hid. Qed.

Lemma base_change i t t' d' s :
  floating_base s -> tiles s !! i = Some t -> tile_floats (fenv s) t' -> Tile.id t' = Tile.id t -> data_ok (working_area s) t' d' ->
  let s' := set_data (<[i := d']> (data s)) (set_tiles (<[i := t']> (tiles s)) s) in
  floating_base s' /\ fenv s' = fenv s /\ pile s' = pile s.
Proof.
  intros Hs Ht Hf Hid Hd s'. assert (Hids : ids s' = ids s) by by apply (ids_insert _ _ t).
  split_and!; [|done|unfold pile; by rewrite Hids]. destruct Hs as [? ? HT HD Hn Ha Hr]. constructor; try done.
  - by apply Forall_insert.
  - by apply Forall2_insert.
  - by rewrite Hids.
  - rewrite Hids. cbn. destruct (active_window_id s); [done|]. rewrite Ha in Ht. by rewrite lookup_nil in Ht.
  - intros r Hr'. rewrite Hids. by apply Hr.
Qed.
Lemma pile_ids s s' : pile s' = pile s -> ids s' = ids s.
Proof. by intros [= H _]. Qed.
Lemma base_to kin s s' p : floating_ok kin s -> floating_base s' /\ fenv s' = fenv s /\ pile s' = p -> ids s' = ids s -> fto kin s p s'.
Proof. intros [_ Hst] (Hb & He & Hp) Hids. split_and!; [|done|done]. split; [done|]. by rewrite Hids. Qed.

Lemma update_tile_to kin i f s t :
  floating_ok kin s -> tiles s !! i = Some t ->
  runs (f t) (fun t' => tile_floats (fenv s) t' /\ Tile.id t' = Tile.id t /\ Tile.tile_size t' = Tile.tile_size t) ->
  runs (update_tile i f s) (fto kin s (pile s)).
Proof.
  intros [Hs Hst] Ht Hf. unfold update_tile. step index_ok; [exact Ht|]. runs Hf. intros t' _ (Hft & Hid & Hsz). returns.
  destruct (lookup_data s i t Hs Ht) as (d & Hd & Hok). pose proof (base_change i t t' d s Hs Ht Hft Hid (data_ok_size _ _ _ _ Hsz Hok)) as H. cbv zeta in H.
  rewrite (list_insert_id (data s) i d Hd) in H. cbn in H. apply base_to; [done| |by apply (ids_insert _ _ t)].
  replace (set_tiles (<[i := t']> (tiles s)) s) with (set_data (data s) (set_tiles (<[i := t']> (tiles s)) s)) by done. exact H.
Qed.

Lemma update_data_to kin i f s t d :
  floating_ok kin s -> tiles s !! i = Some t -> data s !! i = Some d ->
  (data_ok (working_area s) t d -> runs (f d) (data_ok (working_area s) t)) -> runs (update_data i f s) (fto kin s (pile s)).
Proof.
  intros Hk Ht Hd Hf. pose proof (proj1 Hk) as Hs. destruct (lookup_data s i t Hs Ht) as (d0 & Hd0 & Hok). rewrite Hd in Hd0. injection Hd0 as <-.
  unfold update_data. step index_ok; [exact Hd|]. runs (Hf Hok). intros d' _ Hd'. returns.
  pose proof (base_change i t t d' s Hs Ht (lookup_floats s i t Hs Ht) eq_refl Hd') as H. cbv zeta in H. rewrite (list_insert_id (tiles s) i t Ht) in H.
  apply base_to; [done| |done]. replace (set_data (<[i := d']> (data s)) s) with (set_data (<[i := d']> (data s)) (set_tiles (tiles s) s)) by done. exact H.
Qed.

Lemma resize_end_base window s : floating_base s -> floating_base (interactive_resize_end window s).
Proof.
  intros Hs. unfold interactive_resize_end. destruct (interactive_resize s) as [r|]; [|done]. destruct window as [x|]; [case_bool_decide; [|done]|];
    destruct Hs; by constructor.
Qed.
Lemma resize_end_same window s : fenv (interactive_resize_end window s) = fenv s /\ pile (interactive_resize_end window s) = pile s.
Proof. unfold interactive_resize_end. destruct (interactive_resize s) as [r|]; [|done]. by destruct window; [case_bool_decide|]. Qed.
Lemma f_resize_end_to kin s0 p window s : fto kin s0 p s -> fto kin s0 p (interactive_resize_end window s).
Proof.
  intros ([Hb Hst] & He & Hp). destruct (resize_end_same window s) as [He' Hp']. split_and!; [|by rewrite He'|by rewrite Hp'].
  split; [by apply resize_end_base|]. by rewrite (pile_ids _ _ Hp').
Qed.

(** ** Stacking *)
Lemma Forall2_raised {A B} (R : A -> B -> Prop) i to l k : Forall2 R l k -> Forall2 R (raised i to l) (raised i to k).
Proof.
  intros H. unfold raised. destruct (l !! i) as [x|] eqn:E.
  - eapply Forall2_lookup_l in E as (y & Hy & Hxy); [|exact H]. rewrite Hy. unfold insert_at.
    assert (Forall2 R (delete i l) (delete i k)) by by apply Forall2_delete.
    apply Forall2_app; [by apply Forall2_take|]. constructor; [done|by apply Forall2_drop].
  - apply lookup_ge_None_1 in E. rewrite (Forall2_length _ _ _ H) in E. by rewrite lookup_ge_None_2.
Qed.
Lemma Forall2_raised_all {A B} (R : A -> B -> Prop) is_ to l k : Forall2 R l k -> Forall2 R (raised_all is_ to l) (raised_all is_ to k).
Proof. revert to l k. induction is_ as [|i is_ IH]; intros to l k H; cbn; [done|]. by apply IH, Forall2_raised. Qed.
Lemma raised_perm {A} i to (l : list A) : raised i to l ≡ₚ l.
Proof. unfold raised. destruct (l !! i) as [x|] eqn:E; [|done]. by rewrite insert_at_perm, <-delete_perm. Qed.
Lemma raised_all_perm {A} is_ to (l : list A) : raised_all is_ to l ≡ₚ l.
Proof. revert to l. induction is_ as [|i is_ IH]; intros to l; cbn; [done|]. by rewrite IH, raised_perm. Qed.

Definition rearranged is_ to s : FloatingSpace := set_data (raised_all is_ to (data s)) (set_tiles (raised_all is_ to (tiles s)) s).

Lemma raise_window_eq i to s :
  length (data s) = length (tiles s) -> to <= i < length (tiles s) -> raise_window i to s = Ok (rearranged [i] to s).
Proof.
  intros Hl [Hto Hi]. unfold raise_window, rearranged. cbn [raised_all]. rewrite rassert_ok by by apply Nat.leb_le. cbn [mbind res_bind].
  destruct (lookup_lt_is_Some_2 (tiles s) i Hi) as [t Ht]. destruct (lookup_lt_is_Some_2 (data s) i) as [d Hd]; [lia|].
  unfold raised. rewrite Ht, Hd. rewrite (vec_remove_ok _ t), (vec_remove_ok _ d) by done. cbn [mbind res_bind].
  rewrite !vec_insert_ok; [done|rewrite length_delete by eauto; lia..].
Qed.

Lemma raise_all_eq is_ to s :
  length (data s) = length (tiles s) -> in_turn (length (tiles s)) to is_ -> raise_all is_ to s = Ok (rearranged is_ to s).
Proof.
  revert to s. induction is_ as [|i is_ IH]; intros to s Hl Hin; cbn [raise_all]; [by destruct s|]. inversion_clear Hin as [|? ? ? Hi Hin'].
  rewrite raise_window_eq by done. cbn [mbind res_bind]. rewrite IH; [done| |].
  - cbn. rewrite !raised_length by lia. done.
  - cbn. by rewrite raised_length by lia.
Qed.

Lemma rearranged_base is_ to s :
  floating_base s -> floating_base (rearranged is_ to s) /\ ids (rearranged is_ to s) = raised_all is_ to (ids s).
Proof.
  intros [? ? HT HD Hn Ha Hr]. assert (Hids : ids (rearranged is_ to s) = raised_all is_ to (ids s)) by apply raised_all_fmap.
  pose proof (raised_all_perm is_ to (tiles s)) as HP. pose proof (raised_all_perm is_ to (ids s)) as HPi. split; [|done]. constructor; try done.
  - cbn. by rewrite HP.
  - by apply Forall2_raised_all.
  - by rewrite Hids, HPi.
  - rewrite Hids. cbn. destruct (active_window_id s); [by rewrite HPi|]. rewrite Ha in HP |- *. by apply Permutation_nil_r in HP.
  - intros r Hr'. rewrite Hids, HPi. by apply Hr.
Qed.

Lemma descendants_family kin x n (ts : list Tile.Tile) :
  let f := family kin x (Tile.id <$> ts) in
  reverse (fst <$> descendants kin x n ts) = positions n f /\ reverse (snd <$> descendants kin x n ts) = select f (Tile.id <$> ts).
Proof.
  revert n. induction ts as [|t ts IH]; intros n; [done|]. cbn [descendants fmap list_fmap family positions select]. destruct (IH (S n)) as [IH1 IH2].
  assert (He : existsb (fun d : nat * Id => kin (Tile.id t) d.2) (descendants kin x (S n) ts)
    = existsb (kin (Tile.id t)) (select (family kin x (Tile.id <$> ts)) (Tile.id <$> ts))).
  { rewrite <-IH2. apply eq_iff_eq_true. rewrite !existsb_exists. setoid_rewrite <-list_elem_of_In. setoid_rewrite elem_of_reverse.
    split.
    - intros (d & Hd & Hk). exists d.2. split; [by apply list_elem_of_fmap_2|done].
    - intros (y & Hy & Hk). apply list_elem_of_fmap in Hy as (d & -> & Hd). eauto. }
  rewrite He. destruct (_ || _); [|done]. rewrite <-IH1, <-IH2.
  by rewrite !fmap_app, !reverse_app.
Qed.

Lemma raised_to_bring_up kin i x (l : list Id) :
  l !! i = Some x -> raised_all (positions (S i) (family kin x (drop (S i) l))) i l = k_bring_up kin i l.
Proof.
  intros Hx. unfold k_bring_up. rewrite Hx. cbv zeta. pose proof (lookup_lt_Some _ _ _ Hx) as Hi.
  pose proof (raised_positions (family kin x (drop (S i) l)) (take i l) [x] (drop (S i) l) (length_family _ _ _)) as H.
  rewrite length_take_le in H by lia. cbn [length app] in H. rewrite Nat.add_1_r in H. rewrite take_drop_middle in H by done. exact H.
Qed.

(** Bringing up the descendants of a window does what it says. *)
Lemma bring_up_runs kin i s :
  floating_base s -> i < length (tiles s) ->
  runs (bring_up_descendants_of kin i s) (fun s' => floating_base s' /\ fenv s' = fenv s /\ ids s' = k_bring_up kin i (ids s)
    /\ active_window_id s' = active_window_id s /\ interactive_resize s' = interactive_resize s).
Proof.
  intros Hs Hi. destruct (lookup_lt_is_Some_2 (tiles s) i Hi) as [t Ht]. unfold bring_up_descendants_of. step index_ok; [exact Ht|].
  destruct (descendants_family kin (Tile.id t) (S i) (drop (S i) (tiles s))) as [Hd _]. rewrite Hd.
  rewrite raise_all_eq; [|by apply len_data|].
  - destruct (rearranged_base (positions (S i) (family kin (Tile.id t) (Tile.id <$> drop (S i) (tiles s)))) i s Hs) as [Hb Hids].
    split_and!; [exact Hb|done| |done|done]. rewrite Hids, fmap_drop. apply raised_to_bring_up. unfold ids. by rewrite list_lookup_fmap, Ht.
  - apply positions_in_turn; [lia|]. rewrite length_family, length_fmap, length_drop. lia.
Qed.
End inv.
