(* ===== verification/FloatingOps.v ===== *)
(** * Operations of the floating layout

    Every operation runs on a space that satisfies the invariant, preserves it,
    and changes the stack of windows as specified. *)

From stdpp Require Import base numbers option list sorting sets.
From Stdlib Require Import ZArith Lia SpecFloat Sorted.
From S2P Require Import Prelude.
From S2P Require Import Runs.
From S2P Require Import F64.
From S2P Require Import Duration.
From S2P Require Import Clock.
From S2P Require Import Animation.
From S2P Require Import AnimTotal.
From S2P Require Import LayoutTypes.
From S2P Require Import F64Sign.
From S2P Require Import Tile.
From S2P Require Import TileInv.
From S2P Require Import Column.
From S2P Require Import ColumnInv.
From S2P Require Import ColumnOps.
From S2P Require Import Scrolling.
From S2P Require Import ScrollingTiles.
From S2P Require Import Floating.
From S2P Require Import FloatingStack.
From S2P Require Import FloatingInv.
From stdpp Require Import base numbers option list.
From Stdlib Require Import ZArith Lia SpecFloat.
From S2P Require Import ScrollingOps.
From S2P Require Import ScrollingViews.

(** ** What the operations do to the stack *)
Section spec.
Context {LE : LayoutElement}.
Implicit Types (kin : Id -> Id -> bool) (x : Id) (p : Pile).

Definition index_of x (l : list Id) : option nat := position (fun y => bool_decide (y = x)) l.
Definition p_insert kin (i : nat) x (activate : bool) p : Pile :=
  {| p_ids := k_insert kin i x (p_ids p);
     p_active := if activate || bool_decide (p_ids p = []) then Some x else p_active p |}.
Definition p_remove x p : Pile :=
  match index_of x (p_ids p) with
  | Some i =>
      let l := delete i (p_ids p) in
      {| p_ids := l;
         p_active := match l with
                     | [] => None
                     | y :: _ => if bool_decide (p_active p = Some x) then Some y else p_active p
                     end |}
  | None => p
  end.
Definition p_focus x p : Pile := if bool_decide (x ∈ p_ids p) then {| p_ids := p_ids p; p_active := Some x |} else p.
Definition p_activate kin x p : Pile :=
  match index_of x (p_ids p) with
  | Some i => {| p_ids := k_bring_up kin 0 (raised i 0 (p_ids p)); p_active := Some x |}
  | None => p
  end.
Definition p_descendants kin x p : Pile :=
  match index_of x (p_ids p) with Some i => {| p_ids := k_bring_up kin i (p_ids p); p_active := p_active p |} | None => p end.
End spec.

Section ops.
Context {LE : LayoutElement} {LEL : LayoutElementLaws} {GE : Geometry} {GL : GeometryLaws} {LM : Libm} {KF : Keyframe}.
Implicit Types (cv : ClockView) (t : Tile.Tile) (d : Data.Data) (s : FloatingSpace.FloatingSpace).
Import FloatingSpace.
Context (kin : Id -> Id -> bool).

(** A new space. *)
Lemma floating_space_new vs area sc o : options_ok o -> positive_finite sc = true -> floating_ok kin (new vs area sc o).
Proof. intros Ho Hsc. split; [|constructor]. constructor; try done; constructor. Qed.

(** All tiles change, but not their ids and sizes. *)
Definition alike (E : FEnv) t t' : Prop := tile_floats E t' /\ Tile.id t' = Tile.id t /\ Tile.tile_size t' = Tile.tile_size t.
Lemma kept_alike E t t' : tile_floats E t -> kept (fe_options E) (fe_view_size E) (fe_scale E) t t' -> alike E t t'.
Proof.
  intros (_ & Hsy & Hp) [Hok Hk]. pose proof (synced_kept t t' Hk Hsy) as Hsy'. destruct Hk as ([Hi Hs _] & Hp' & _).
  unfold alike, tile_floats. split_and!; [done|done|by rewrite Hp'|done|done].
Qed.
Lemma asked_alike E t t' : tile_floats E t -> asked (fe_options E) (fe_view_size E) (fe_scale E) Normal t t' -> alike E t t'.
Proof. intros (_ & Hsy & _) (Hok & [Hi Hs _] & Hp & Hsy'). unfold alike, tile_floats. split_and!; [done|by apply Hsy'|done|done|done]. Qed.

Lemma retile_to s ts : floating_ok kin s -> Forall2 (alike (fenv s)) (tiles s) ts -> fto kin s (pile s) (set_tiles ts s).
Proof.
  intros [Hs Hst] HF. assert (Hids : Tile.id <$> ts = ids s).
  { unfold ids. clear -HF. induction HF as [|t t' l l' (_ & Hi & _) _ IH]; cbn; [done|]. f_equal; [exact Hi|exact IH]. }
  apply base_to; [done| |exact Hids]. split_and!; [|done|unfold pile; f_equal; exact Hids]. destruct Hs as [? ? HT HD Hn Ha Hr]. constructor; try done.
  - apply Forall_forall. intros t' Ht'. apply list_elem_of_lookup in Ht' as [i Hi]. eapply Forall2_lookup_r in Hi as (t & _ & H); [|exact HF]. apply H.
  - cbn. clear -HF HD. revert HD. generalize (data s). induction HF as [|t t' l l' (_ & _ & Hz) _ IH]; intros ds HD; inversion_clear HD; constructor; [|by apply IH].
    by eapply data_ok_size.
  - unfold ids. cbn. by rewrite Hids.
  - unfold ids. cbn. rewrite Hids. destruct (active_window_id s); [done|]. rewrite Ha in HF. by inversion HF.
  - intros r Hr'. unfold ids. cbn. rewrite Hids. by apply Hr.
Qed.

(** What happens at a time. *)
Section time.
Context (cv : ClockView) (Hcv : cv_ok cv).

Lemma f_advance_to s : floating_ok kin s -> runs (advance_animations cv s) (fto kin s (pile s)).
Proof.
  intros Hk. unfold advance_animations. runs (runs_mapM _ (alike (fenv s))).
  - intros t Ht. pose proof (fo_tiles s (proj1 Hk)) as HT. rewrite Forall_forall in HT. specialize (HT t Ht).
    finish (advance_animations_runs _ _ _ cv Hcv); [apply HT|]. intros t' _ H. by apply kept_alike.
  - intros ts _ HF. returns. by apply retile_to.
Qed.

Lemma start_open_to x s : floating_ok kin s -> runs (start_open_animation cv x s) (fun '(b, s') => b = bool_decide (x ∈ ids s) /\ fto kin s (pile s) s').
Proof.
  intros Hk. unfold start_open_animation. pose proof (contains_in s x) as Hc. unfold contains in Hc. destruct (idx_of x s) as [i|] eqn:Ei; [|by returns].
  destruct (idx_of_Some s x i Ei) as (t & Ht & _). pose proof (lookup_floats s i t (proj1 Hk) Ht) as Hf.
  runs update_tile_to; [exact Hk|exact Ht| |intros s' _ H; by returns].
  finish (start_open_runs _ _ _ (fo_options s (proj1 Hk)) cv Hcv); [apply Hf|]. intros t' _ H. by apply kept_alike.
Qed.

End time.

(** ** Configuration *)
Lemma f_update_config_to vs area sc o s :
  floating_ok kin s -> options_ok o -> positive_finite sc = true ->
  runs (update_config vs area sc o s) (fun s' => floating_ok kin s' /\ pile s' = pile s
    /\ fenv s' = {| fe_options := o; fe_view_size := vs; fe_working_area := area; fe_scale := sc |}).
Proof.
  intros [Hs Hst] Ho Hsc. unfold update_config. set (ts := Tile.update_config vs sc o <$> tiles s).
  assert (Hids : Tile.id <$> ts = ids s) by (unfold ts, ids; by rewrite <-list_fmap_compose).
  assert (HD : Forall2 (fun _ d => Data.recompute_logical_pos d = Ok d) ts (data s)).
  { unfold ts. rewrite Forall2_fmap_l. eapply Forall2_impl; [apply (fo_data s Hs)|]. by intros t d []. }
  runs (runs_mapM _ (fun (td : Tile.Tile * Data.Data) d' => data_ok area td.1 d')).
  - intros [t d] Hin. cbn [fst snd]. apply list_elem_of_lookup in Hin as [i Hi]. apply lookup_zip_Some in Hi as [Ht Hd].
    pose proof (Forall2_lookup_lr _ _ _ _ _ _ HD Ht Hd) as Hrec. cbn in Hrec.
    runs data_update_runs. intros d1 _ (Hsz & _ & Hr). finish data_config_runs; [by apply Hr|]. intros d2 _ (Ha & Hs2 & Hr2).
    split; [done|by rewrite Hs2|done].
  - intros ds _ HF. returns. assert (HF' : Forall2 (data_ok area) ts ds).
    { apply Forall2_same_length_lookup. split.
      - rewrite <-(Forall2_length _ _ _ HF), length_zip_with, (Forall2_length _ _ _ HD). lia.
      - intros i t d' Ht Hd'. destruct (Forall2_lookup_r _ _ _ _ _ HF Hd') as ([t0 d0] & Hz & Hok). apply lookup_zip_Some in Hz as [Ht0 _].
        rewrite Ht in Ht0. by injection Ht0 as ->. }
    destruct Hs as [? ? HT _ Hn Ha Hr]. split_and!; [split; [constructor; try done|]|unfold pile; f_equal; exact Hids|done].
    + unfold ts. cbn. apply Forall_fmap. eapply Forall_impl; [exact HT|]. intros t (Hok & Hsy & Hp). unfold tile_floats. split_and!; [|done|done]. by eapply update_config_ok.
    + unfold ids. cbn. by rewrite Hids.
    + unfold ids. cbn. rewrite Hids. destruct (active_window_id s); [done|]. unfold ts. by rewrite Ha.
    + intros r Hr'. unfold ids. cbn. rewrite Hids. by apply Hr.
    + unfold ids. cbn. by rewrite Hids.
Qed.

Context (Hac : acyclic kin).

(** ** Windows coming and going *)
Lemma requested_floats E size animate t :
  tile_ok (fe_options E) (fe_view_size E) (fe_scale E) t -> synced t ->
  tile_floats E (request_once size animate t) /\ Tile.id (request_once size animate t) = Tile.id t
  /\ Tile.tile_size (request_once size animate t) = Tile.tile_size t.
Proof.
  intros Ht Hsy. destruct (request_once_asked _ _ _ t size animate Ht) as (Hok & [Hi Hs _] & Hp & Hsy').
  unfold request_once, tile_floats. split_and!; [done|by apply Hsy'|done|done|done].
Qed.

Lemma add_tile_at_to i t activate s :
  floating_ok kin s -> tile_incoming t -> (Tile.id t ∉ ids s) -> i <= length (ids s) ->
  runs (add_tile_at kin i t activate s) (fto kin s (p_insert kin i (Tile.id t) activate (pile s))).
Proof.
  intros [Hs Hst] (o & vs & sc & Ho & Ht & Hsy) Hx Hi. unfold add_tile_at.
  set (t1 := Tile.update_config _ _ _ t). set (t2 := request_once (floating_size t1) true t1).
  assert (H1 : tile_ok (options s) (view_size s) (scale s) t1).
  { by eapply update_config_ok; [apply Hs|apply Hs|exact Ht]. }
  assert (Hsy1 : synced t1) by done.
  destruct (requested_floats (fenv s) (floating_size t1) true t1 H1 Hsy1) as (H2 & Hid & _). fold t2 in H2, Hid. change (Tile.id t1) with (Tile.id t) in Hid.
  cbv zeta. set (s1 := if activate || is_empty s then _ else s).
  assert (Hs1 : tiles s1 = tiles s /\ data s1 = data s /\ fenv s1 = fenv s /\ interactive_resize s1 = interactive_resize s
    /\ active_window_id s1 = p_active (p_insert kin i (Tile.id t) activate (pile s))).
  { unfold s1. cbn. rewrite Hid. replace (bool_decide (ids s = [])) with (is_empty s); [by destruct (activate || _)|].
    unfold is_empty, ids. by destruct (tiles s). }
  destruct Hs1 as (Et & Ed & Ee & Er & Ea). clearbody s1. rewrite Hid.
  assert (Hpos : position (fun above => kin (Tile.id t) (Tile.id above)) (take i (tiles s1)) = position (kin (Tile.id t)) (take i (ids s))).
  { rewrite Et. unfold ids. rewrite <-fmap_take. induction (take i (tiles s)) as [|u l IH]; cbn; [done|]. by rewrite IH. }
  rewrite Hpos. set (k := default i _).
  assert (Hk : k <= length (tiles s)).
  { rewrite length_pile_ids in Hi. unfold k. destruct (position _ (take i (ids s))) as [j|] eqn:Ej; cbn; [|done]. apply position_Some in Ej as (y & Hy & _).
    apply lookup_lt_Some in Hy. rewrite length_take in Hy. lia. }
  replace (working_area s1) with (working_area s) by (pose proof (f_equal fe_working_area Ee); done).
  runs (data_new_runs (working_area s) t2). intros d _ Hd.
  step vec_insert_ok; [rewrite Ed, (len_data s Hs); exact Hk|]. step vec_insert_ok; [by rewrite Et|]. rewrite Et, Ed.
  set (s2 := set_tiles _ (set_data _ s1)).
  assert (Hids2 : ids s2 = insert_at k (Tile.id t) (ids s)).
  { unfold ids, insert_at. cbn. unfold insert_at. by rewrite fmap_app, fmap_cons, fmap_take, fmap_drop, Hid. }
  assert (HP2 : ids s2 ≡ₚ Tile.id t :: ids s) by by rewrite Hids2, insert_at_perm.
  assert (Hb2 : floating_base s2).
  { destruct Hs as [Hop Hsc HT HD Hn Ha Hr]. assert (Ee2 : fenv s2 = fenv s) by done. injection Ee as Eo Ev Ew Es. constructor.
    - cbn. by rewrite Eo.
    - cbn. by rewrite Es.
    - rewrite Ee2. cbn. rewrite insert_at_perm. by constructor.
    - cbn. rewrite Ew. unfold insert_at. apply Forall2_app; [by apply Forall2_take|]. constructor; [done|by apply Forall2_drop].
    - rewrite HP2. by apply NoDup_cons.
    - change (active_window_id s2) with (active_window_id s1). rewrite Ea. cbn [p_active p_insert p_ids pile]. destruct (activate || bool_decide _) eqn:E; [by rewrite HP2; left|]. apply orb_false_iff in E as [_ E]. apply bool_decide_eq_false_1 in E.
      destruct (active_window_id s); [by rewrite HP2; right|]. destruct E. unfold ids. by rewrite Ha.
    - intros r Hr'. change (interactive_resize s2) with (interactive_resize s1) in Hr'. rewrite Er in Hr'. rewrite HP2. right. by apply Hr. }
  finish bring_up_runs; [exact Hb2|cbn; rewrite length_insert_at by done; lia|]. intros s3 _ (Hb3 & He3 & Hids3 & Ha3 & _).
  assert (Hfin : ids s3 = k_insert kin i (Tile.id t) (ids s)) by by rewrite Hids3, Hids2.
  split_and!; [split; [done|]|by rewrite He3|unfold pile, p_insert; cbn; rewrite Hfin, Ha3; f_equal; exact Ea].
  rewrite Hfin. apply insert_stacked; [done|done|done|apply Hs|done].
Qed.

Lemma incoming_floating_pos p t : tile_incoming t -> tile_incoming (Tile.set_floating_pos p t).
Proof. intros (o & vs & sc & Ho & Ht & Hsy). exists o, vs, sc. split_and!; [done| |done]. destruct Ht. by constructor. Qed.
Lemma incoming_floating_size z t : tile_incoming t -> tile_incoming (Tile.set_floating_window_size z t).
Proof. intros (o & vs & sc & Ho & Ht & Hsy). exists o, vs, sc. split_and!; [done| |done]. destruct Ht. by constructor. Qed.

Lemma index_lt x (l : list Id) i : index_of x l = Some i -> l !! i = Some x.
Proof. intros H. apply position_Some in H as (y & Hy & E & _). apply bool_decide_eq_true_1 in E as ->. done. Qed.

Lemma add_tile_to t activate s :
  floating_ok kin s -> tile_incoming t -> (Tile.id t ∉ ids s) -> runs (add_tile kin t activate s) (fto kin s (p_insert kin 0 (Tile.id t) activate (pile s))).
Proof. intros Hs Ht Hx. apply add_tile_at_to; [done|done|done|lia]. Qed.

Lemma add_tile_above_to x t activate s :
  floating_ok kin s -> tile_incoming t -> (Tile.id t ∉ ids s) -> x ∈ ids s ->
  runs (add_tile_above kin x t activate s) (fun s' => exists i, index_of x (ids s) = Some i /\ fto kin s (p_insert kin i (Tile.id t) activate (pile s)) s').
Proof.
  intros Hk Ht Hid Hx. destruct (idx_of_in s x Hx) as (i & u & Hi & Hu & _). unfold add_tile_above. step unwrap_ok; [exact Hi|].
  destruct (lookup_data s i u (proj1 Hk) Hu) as (d & Hd & _). step index_ok; [exact Hd|].
  pose proof (lookup_lt_Some _ _ _ Hu) as Hlt.
  finish add_tile_at_to; [done|by apply incoming_floating_pos|done|rewrite length_pile_ids; lia|]. intros s' _ H.
  exists i. split; [by rewrite <-Hi; apply idx_of_ids|exact H].
Qed.

Lemma remove_tile_by_idx_to i t s :
  floating_ok kin s -> tiles s !! i = Some t -> idx_of (Tile.id t) s = Some i ->
  runs (remove_tile_by_idx i s) (fun '(r, s') => tile_incoming (rt_tile r) /\ Tile.id (rt_tile r) = Tile.id t /\ rt_is_floating r = true
    /\ fto kin s (p_remove (Tile.id t) (pile s)) s').
Proof.
  intros [Hs Hst] Ht Hi. destruct (lookup_data s i t Hs Ht) as (d & Hd & _). destruct (lookup_floats s i t Hs Ht) as (Hok & Hsy & _).
  unfold remove_tile_by_idx. step (vec_remove_ok i t); [exact Ht|]. cbv beta iota. step (vec_remove_ok i d); [exact Hd|]. cbv beta iota zeta.
  set (s1 := set_data _ _). set (s2 := match delete i (tiles s) with [] => _ | _ => _ end). set (s3 := match interactive_resize s2 with Some _ => _ | None => _ end).
  returns. assert (Hinc : tile_incoming t) by (exists (options s), (view_size s), (scale s); split_and!; [apply Hs|done|done]).
  split_and!.
  - apply incoming_floating_pos. destruct (win_expected_size _); [by apply incoming_floating_size|done].
  - cbn. by destruct (win_expected_size _).
  - done.
  - assert (Hids : ids s3 = delete i (ids s)).
    { transitivity (ids s2); [unfold s3; destruct (interactive_resize s2) as [r|]; [by case_bool_decide|done]|].
      transitivity (ids s1); [unfold s2; destruct (delete i (tiles s)); [done|by case_bool_decide]|]. unfold ids, s1. cbn [tiles set_data set_tiles]. by rewrite list_fmap_delete. }
    assert (Hact : active_window_id s3 = p_active (p_remove (Tile.id t) (pile s))).
    { transitivity (active_window_id s2); [unfold s3; destruct (interactive_resize s2) as [r|]; [by case_bool_decide|done]|].
      unfold s2, p_remove. cbn [p_ids pile]. unfold index_of. rewrite idx_of_ids, Hi. cbn [p_active]. unfold ids. rewrite <-list_fmap_delete.
      destruct (delete i (tiles s)) as [|u l]; [done|]. cbn. rewrite (bool_decide_ext (Some (Tile.id t) = active_window_id s) (active_window_id s = Some (Tile.id t))) by done.
      by case_bool_decide. }
    assert (Hen : fenv s3 = fenv s).
    { transitivity (fenv s2); [unfold s3; destruct (interactive_resize s2) as [r|]; [by case_bool_decide|done]|].
      unfold s2. destruct (delete i (tiles s)); [done|by case_bool_decide]. }
    assert (HP : Tile.id t :: ids s3 ≡ₚ ids s).
    { rewrite Hids. symmetry. apply delete_perm. unfold ids. by rewrite list_lookup_fmap, Ht. }
    assert (Htl : tiles s3 = delete i (tiles s) /\ data s3 = delete i (data s)).
    { unfold s3, s2. destruct (delete i (tiles s)); [|case_bool_decide]; cbn [interactive_resize set_active_window_id]; (destruct (interactive_resize s1) as [r|]; [by case_bool_decide|done]). }
    destruct Htl as [Htl Hdl].
    assert (Hpile : pile s3 = p_remove (Tile.id t) (pile s)).
    { unfold pile at 1. rewrite Hact, Hids. unfold p_remove. cbn [p_ids pile]. unfold index_of. by rewrite idx_of_ids, Hi. }
    split_and!; [split|done|done].
    + pose proof (fo_nodup s Hs) as Hnd. rewrite <-HP in Hnd. apply NoDup_cons in Hnd as [Hni Hnd].
      destruct Hs as [Hop Hsc HT HD Hn Ha Hr]. constructor.
      * pose proof (f_equal fe_options Hen) as E. cbn in E. by rewrite E.
      * pose proof (f_equal fe_scale Hen) as E. cbn in E. by rewrite E.
      * rewrite Htl, Hen. by apply Forall_delete.
      * pose proof (f_equal fe_working_area Hen) as E. cbn in E. rewrite E, Htl, Hdl. by apply Forall2_delete.
      * done.
      * rewrite Hact. pose proof Hids as Hids'. unfold p_remove. cbn [p_ids pile]. unfold index_of. rewrite idx_of_ids, Hi. cbn [p_active]. rewrite <-Hids.
        destruct (ids s3) as [|y l] eqn:El; [unfold ids in El; by apply fmap_nil_inv in El|].
        change (p_active (pile s)) with (active_window_id s). case_bool_decide as E; [left|]. destruct (active_window_id s) as [a|]; [|by rewrite Ha in Ht].
        rewrite <-HP in Ha. apply elem_of_cons in Ha as [E2|Ha]; [congruence|done].
      * intros r Hr3. assert (Hr0 : interactive_resize s = Some r /\ Tile.id t <> resize_window r).
        { assert (E2 : interactive_resize s2 = interactive_resize s) by (unfold s2; destruct (delete i (tiles s)); [done|by case_bool_decide]).
          unfold s3 in Hr3. destruct (interactive_resize s2) as [r'|] eqn:Er2; [|congruence]. case_bool_decide as E; [done|]. rewrite Er2 in Hr3. injection Hr3 as ->. done. }
        destruct Hr0 as [Hr0 Hne]. specialize (Hr r Hr0). rewrite <-HP in Hr. apply elem_of_cons in Hr as [?|?]; [congruence|done].
    + rewrite Hids. by apply sorted_delete.
Qed.

Lemma remove_tile_to x s :
  floating_ok kin s -> x ∈ ids s ->
  runs (remove_tile x s) (fun '(r, s') => tile_incoming (rt_tile r) /\ Tile.id (rt_tile r) = x /\ rt_is_floating r = true
    /\ fto kin s (p_remove x (pile s)) s').
Proof.
  intros Hk Hx. destruct (idx_of_in s x Hx) as (i & t & Hi & Ht & Hid). unfold remove_tile. step unwrap_ok; [exact Hi|].
  rewrite <-Hid. apply remove_tile_by_idx_to; [done|done|by rewrite Hid].
Qed.
Lemma remove_active_to s :
  floating_ok kin s ->
  runs (remove_active_tile s) (fun o => match o with
    | Some (r, s') => exists x, active_window_id s = Some x /\ tile_incoming (rt_tile r) /\ Tile.id (rt_tile r) = x /\ rt_is_floating r = true
        /\ fto kin s (p_remove x (pile s)) s'
    | None => active_window_id s = None
    end).
Proof.
  intros Hk. unfold remove_active_tile. pose proof (fo_active s (proj1 Hk)) as Ha. destruct (active_window_id s) as [x|]; [|by returns].
  runs remove_tile_to; [done|done|]. intros [r s'] _ H. returns. by exists x.
Qed.

(** ** Activation *)
Lemma focus_to x s : floating_ok kin s -> let '(b, s') := activate_window_without_raising x s in b = bool_decide (x ∈ ids s) /\ fto kin s (p_focus x (pile s)) s'.
Proof.
  intros Hk. unfold activate_window_without_raising. rewrite contains_in. unfold p_focus. cbn [p_ids pile]. case_bool_decide as Hx; [|done]. split; [done|].
  split_and!; [|done|done]. destruct Hk as [[] Hst]. split; [by constructor|done].
Qed.

Lemma f_activate_to x s : floating_ok kin s -> runs (activate_window kin x s) (fun '(b, s') => b = bool_decide (x ∈ ids s) /\ fto kin s (p_activate kin x (pile s)) s').
Proof.
  intros [Hs Hst]. pose proof (contains_in s x) as Hc. unfold contains in Hc. unfold activate_window, p_activate, index_of. cbn [p_ids pile]. rewrite idx_of_ids.
  destruct (idx_of x s) as [i|] eqn:Ei; [|by returns; split; [|split]].
  destruct (idx_of_Some s x i Ei) as (t & Ht & Hid). pose proof (lookup_lt_Some _ _ _ Ht) as Hlt.
  rewrite raise_window_eq; [|by apply len_data|lia]. destruct (rearranged_base [i] 0 s Hs) as [Hb Hids]. cbn [mbind res_bind].
  assert (Hx : x ∈ ids s) by by apply (bool_decide_eq_true_1 _); rewrite <-Hc.
  runs bring_up_runs.
  - destruct Hb. constructor; try done. change (x ∈ ids (rearranged [i] 0 s)). by rewrite Hids, raised_all_perm.
  - cbn. rewrite raised_length by lia. lia.
  - intros s1 _ (Hb1 & He1 & Hids1 & Ha1 & _). returns. change (ids (set_active_window_id _ _)) with (ids (rearranged [i] 0 s)) in Hids1. rewrite Hids in Hids1. cbn [raised_all] in Hids1.
    split; [done|]. split_and!; [split; [done|]|done|unfold pile at 1; by rewrite Hids1, Ha1]. rewrite Hids1.
    assert (Hix : ids s !! i = Some x) by (unfold ids; by rewrite list_lookup_fmap, Ht, <-Hid).
    unfold raised. rewrite Hix. apply bring_up_stacked with (x := x); [done|done| |].
    + change (insert_at 0 x (delete i (ids s))) with (x :: delete i (ids s)). constructor; [|by apply Forall_forall; left].
      assert (Hd : stacked kin (delete i (ids s))) by by apply sorted_delete.
      induction Hd; constructor; [done|]. eapply Forall_impl; [eassumption|]. by right.
    + rewrite insert_at_perm, <-delete_perm by done. apply Hs.
Qed.

Lemma descendants_to x s :
  floating_base s -> StronglySorted (fun a b => a = x \/ below kin a b) (ids s) ->
  runs (descendants_added kin x s) (fun '(b, s') => b = bool_decide (x ∈ ids s) /\ fto kin s (p_descendants kin x (pile s)) s').
Proof.
  intros Hs Hst. pose proof (contains_in s x) as Hc. unfold contains in Hc. unfold descendants_added, p_descendants, index_of. cbn [p_ids pile]. rewrite idx_of_ids.
  destruct (idx_of x s) as [i|] eqn:Ei.
  - destruct (idx_of_Some s x i Ei) as (t & Ht & Hid). runs bring_up_runs; [done|by eapply lookup_lt_Some|]. intros s1 _ (Hb1 & He1 & Hids1 & Ha1 & _). returns.
    split; [done|]. split_and!; [split; [done|]|done|unfold pile at 1; by rewrite Hids1, Ha1]. rewrite Hids1. apply bring_up_stacked with (x := x); [done| |done|apply Hs].
    unfold ids. by rewrite list_lookup_fmap, Ht, <-Hid.
  - returns. split; [done|]. apply idx_of_None in Ei. split_and!; [split; [done|]|done|done]. revert Ei Hst. generalize (ids s). intros l Hl H.
    induction H as [|a l H IH Ha]; constructor; [apply IH; set_solver|]. eapply Forall_impl; [exact Ha|]. intros b [->|?]; [set_solver|done].
Qed.

(** ** Focus by position *)
Lemma activate_found_to (o : option (Tile.Tile * f64)) s :
  floating_ok kin s ->
  runs (activate_found kin o s) (fun '(b, s') => match o with
    | Some (t, _) => b = true /\ fto kin s (p_activate kin (Tile.id t) (pile s)) s'
    | None => b = false /\ s' = s
    end).
Proof.
  intros Hk. unfold activate_found. destruct o as [[t ?]|]; [|by returns]. runs f_activate_to; [done|]. intros [b s'] _ [_ H]. by returns.
Qed.

(** A change of focus: the window in front is now one of the space, with its
    descendants, or nothing happened. *)
Definition refocused s s' : Prop := fto kin s (pile s) s' \/ exists x, x ∈ ids s /\ fto kin s (p_activate kin x (pile s)) s'.

Lemma foldl_pick {A} (f : A -> A -> A) a l : (forall x y, f x y = x \/ f x y = y) -> foldl f a l ∈ a :: l.
Proof.
  intros Hf. revert a. induction l as [|b l IH]; intros a; cbn; [left|]. specialize (IH (f a b)).
  apply elem_of_cons in IH as [->|IH]; [destruct (Hf a b) as [->| ->]; [left|right; left]|by right; right].
Qed.
Lemma min_by_in {A} (lt : A -> A -> bool) l x : min_by lt l = Some x -> x ∈ l.
Proof. destruct l as [|a l]; [done|]. intros [= <-]. apply foldl_pick. intros y z. destruct (lt z y); auto. Qed.
Lemma max_by_in {A} (lt : A -> A -> bool) l x : max_by lt l = Some x -> x ∈ l.
Proof. destruct l as [|a l]; [done|]. intros [= <-]. apply foldl_pick. intros y z. destruct (lt z y); auto. Qed.

Lemma found_refocused o s :
  floating_ok kin s -> (forall t x, o = Some (t, x) -> t ∈ tiles s) ->
  runs (activate_found kin o s) (fun '(b, s') => refocused s s' /\ (b = false -> s' = s)).
Proof.
  intros Hk Ho. finish activate_found_to; [done|]. intros [b s'] _ H. destruct o as [[t x]|].
  - destruct H as [-> H]. split; [|done]. right. exists (Tile.id t). split; [|done]. apply list_elem_of_fmap_2. by eapply Ho.
  - destruct H as [-> ->]. split; [left; by apply fto_refl|done].
Qed.

Lemma focus_directional_to f s : floating_ok kin s -> runs (focus_directional kin f s) (fun '(b, s') => refocused s s' /\ (b = false -> s' = s)).
Proof.
  intros Hk. unfold focus_directional. pose proof (fo_active s (proj1 Hk)) as Ha. destruct (active_window_id s) as [x|]; [|returns; split; [left; by apply fto_refl|done]].
  destruct (idx_of_in s x Ha) as (i & t & Hi & Ht & _). step unwrap_ok; [exact Hi|]. destruct (lookup_data s i t (proj1 Hk) Ht) as (d & Hd & _).
  step index_ok; [exact Hd|]. apply found_refocused; [done|]. intros u y Hm. apply min_by_in in Hm. apply list_elem_of_filter in Hm as [_ Hm].
  apply list_elem_of_fmap in Hm as ([u' d'] & [= -> _] & Hm). apply list_elem_of_filter in Hm as [_ Hm]. by eapply elem_of_zip_l.
Qed.

Lemma focus_by_to (m : list (Tile.Tile * f64) -> option (Tile.Tile * f64)) f s :
  (forall l x, m l = Some x -> x ∈ l) -> floating_ok kin s ->
  runs ('(_, s) ← activate_found kin (m (coordinates f s)) s; mret s) (refocused s).
Proof.
  intros Hm Hk. runs found_refocused; [done| |intros [b s'] _ [H _]; by returns]. intros t x Hx. apply Hm in Hx.
  apply list_elem_of_fmap in Hx as ([u p] & [= -> _] & Hx). by eapply elem_of_zip_l.
Qed.
End ops.

(** * Operations of the floating layout: sizes and positions

    Resizing and moving windows, by request, interactively, or because a client
    committed: none panics, and all leave the stack of windows alone. *)
Section sizes.
Context {LE : LayoutElement} {LEL : LayoutElementLaws} {GE : Geometry} {GL : GeometryLaws} {LM : Libm} {KF : Keyframe}.
Implicit Types (cv : ClockView) (t : Tile.Tile) (d : Data.Data) (s : FloatingSpace.FloatingSpace).
Import FloatingSpace.
Context (kin : Id -> Id -> bool) (cv : ClockView) (Hcv : cv_ok cv).

(** A window that an operation names is one of the space. *)
Definition names (window : option Id) s : Prop := forall x, window = Some x -> x ∈ ids s.

(** Operations on the window meant, or on none: the rest of the operation runs
    on its tile and its data. *)
Lemma on_target window (f : Id -> nat -> res FloatingSpace) s :
  floating_ok kin s -> names window s ->
  (forall x i t d, tiles s !! i = Some t -> data s !! i = Some d -> Tile.id t = x -> data_ok (working_area s) t d -> tile_floats (fenv s) t ->
    runs (f x i) (fto kin s (pile s))) ->
  runs (o ← target window s; match o with None => mret s | Some (x, i) => f x i end) (fto kin s (pile s)).
Proof.
  intros Hk Hw Hf. runs target_runs; [apply Hk|exact Hw|]. intros [[x i]|] _ H; [|returns; by apply fto_refl].
  destruct H as (_ & t & Ht & Hid). destruct (lookup_data s i t (proj1 Hk) Ht) as (d & Hd & Hok).
  eapply Hf; eauto. eapply lookup_floats; [apply Hk|exact Ht].
Qed.

Lemma fto_then s s1 (f : FloatingSpace -> res FloatingSpace) :
  fto kin s (pile s) s1 -> (floating_ok kin s1 -> runs (f s1) (fto kin s1 (pile s1))) -> runs (f s1) (fto kin s (pile s)).
Proof. intros (H & He & Hp) Hf. finish Hf; [exact H|]. intros s2 _ H2. rewrite Hp in H2. by eapply fto_trans. Qed.

Lemma fto_names window s s1 : fto kin s (pile s) s1 -> names window s -> names window s1.
Proof. intros (_ & _ & Hp) Hw x Hx. rewrite (pile_ids _ _ Hp). by apply Hw. Qed.

(** ** Sizes *)
Lemma changed_length_runs available cw ct f change : runs (changed_length available cw ct f change) (fun _ => True).
Proof.
  unfold changed_length. eapply runs_bind with (R := fun _ => True).
  - destruct change; cbv zeta; first [by returns|runs clamp_runs; [by vm_compute|]; intros ? _ _; by returns].
  - intros x _ _. runs clamp_runs; [by vm_compute|]. intros y _ _. by returns.
Qed.

(** The preset of a tile changes. *)
Lemma preset_floats E t wi hi :
  tile_floats E t -> (forall i, wi = Some i -> i < length (preset_column_widths (fe_options E))) ->
  (forall i, hi = Some i -> i < length (preset_window_heights (fe_options E))) ->
  tile_floats E (Tile.set_floating_preset_width_idx wi t) /\ tile_floats E (Tile.set_floating_preset_height_idx hi t).
Proof.
  intros (Hok & Hsy & Hp) Hw Hh. pose proof (to_options _ _ _ _ Hok) as Ho. split; (split_and!; [|done|done]).
  - destruct Hok. constructor; try done. cbn. by rewrite Ho.
  - destruct Hok. constructor; try done. cbn. by rewrite Ho.
Qed.

Lemma once_floats E size animate t :
  tile_floats E t ->
  tile_floats E (request_once size animate t) /\ Tile.id (request_once size animate t) = Tile.id t
  /\ Tile.tile_size (request_once size animate t) = Tile.tile_size t.
Proof. intros (Hok & Hsy & _). by apply requested_floats. Qed.

Lemma f_set_window_width_to window change animate s :
  floating_ok kin s -> names window s -> runs (set_window_width window change animate s) (fto kin s (pile s)).
Proof.
  intros Hk Hw. unfold set_window_width. apply on_target; [done|done|]. intros x i t d Ht Hd Hx Hdok Hf.
  eapply update_tile_to; [done|exact Ht|]. cbv zeta. runs changed_length_runs. intros w _ _. returns.
  destruct (preset_floats _ t None None Hf) as [Hf' _]; [done..|]. exact (once_floats (fenv s) _ animate _ Hf').
Qed.
Lemma f_set_window_height_to window change animate s :
  floating_ok kin s -> names window s -> runs (set_window_height window change animate s) (fto kin s (pile s)).
Proof.
  intros Hk Hw. unfold set_window_height. apply on_target; [done|done|]. intros x i t d Ht Hd Hx Hdok Hf.
  eapply update_tile_to; [done|exact Ht|]. cbv zeta. runs changed_length_runs. intros w _ _. returns.
  destruct (preset_floats _ t None None Hf) as [_ Hf']; [done..|]. exact (once_floats (fenv s) _ animate _ Hf').
Qed.

Lemma next_length_runs pi fw win tile a l : l <> [] -> runs (next_length pi fw win tile a l) (fun i => i < length l).
Proof.
  intros Hl. unfold next_length. finish next_preset_runs; [by destruct l|]. intros i _ Hi. by rewrite length_fmap in Hi.
Qed.

(** What the two toggles do once the preset is known. *)
Lemma toggled_to x i (setting : FloatingSpace -> res FloatingSpace) (noted : Tile.Tile -> Tile.Tile) s :
  floating_ok kin s -> i < length (tiles s) ->
  (runs (setting s) (fto kin s (pile s))) ->
  (forall s1 t, fto kin s (pile s) s1 -> tile_floats (fenv s1) t -> tile_floats (fenv s1) (noted t)) ->
  (forall t, Tile.id (noted t) = Tile.id t /\ Tile.tile_size (noted t) = Tile.tile_size t) ->
  runs (s ← setting s; s ← update_tile i (fun t => mret (noted t)) s; mret (interactive_resize_end (Some x) s)) (fto kin s (pile s)).
Proof.
  intros Hk Hi Hset Hn Hsame. runs Hset. intros s1 _ H1. pose proof H1 as (Hk1 & He1 & Hp1).
  destruct (lookup_lt_is_Some_2 (tiles s1) i) as [t Ht].
  { rewrite <-length_pile_ids, (pile_ids _ _ Hp1), length_pile_ids. done. }
  runs update_tile_to; [exact Hk1|exact Ht| |].
  - returns. split; [eapply Hn; [done|eapply lookup_floats; [apply Hk1|exact Ht]]|apply Hsame].
  - intros s2 _ H2. returns. apply f_resize_end_to. rewrite Hp1 in H2. by eapply fto_trans.
Qed.

Lemma toggle_floating_width_to window forwards s :
  floating_ok kin s -> names window s -> runs (toggle_window_width window forwards s) (fto kin s (pile s)).
Proof.
  intros Hk Hw. unfold toggle_window_width. apply on_target; [done|done|]. intros x i t d Ht Hd Hx Hdok Hf. step index_ok; [exact Ht|].
  runs next_length_runs; [apply (oo_widths _ (fo_options s (proj1 Hk)))|]. intros k _ Hlt. runs runs_index; [exact Hlt|]. intros p _ _.
  apply toggled_to; [done|by eapply lookup_lt_Some| | |done].
  - apply f_set_window_width_to; [done|]. intros y [= <-]. rewrite <-Hx. by eapply list_elem_of_fmap_2, list_elem_of_lookup_2.
  - intros s1 t1 (_ & He & _) Hf1. eapply (proj1 (preset_floats _ t1 (Some k) None Hf1 _ _)). Unshelve. all: [>|done].
    intros j [= <-]. by rewrite He.
Qed.
Lemma toggle_floating_height_to window forwards s :
  floating_ok kin s -> names window s -> runs (toggle_window_height window forwards s) (fto kin s (pile s)).
Proof.
  intros Hk Hw. unfold toggle_window_height. apply on_target; [done|done|]. intros x i t d Ht Hd Hx Hdok Hf. step index_ok; [exact Ht|].
  runs next_length_runs; [apply (oo_heights _ (fo_options s (proj1 Hk)))|]. intros k _ Hlt. runs runs_index; [exact Hlt|]. intros p _ _.
  apply toggled_to; [done|by eapply lookup_lt_Some| | |done].
  - apply f_set_window_height_to; [done|]. intros y [= <-]. rewrite <-Hx. by eapply list_elem_of_fmap_2, list_elem_of_lookup_2.
  - intros s1 t1 (_ & He & _) Hf1. eapply (proj2 (preset_floats _ t1 None (Some k) Hf1 _ _)). Unshelve. all: [>done|].
    intros j [= <-]. by rewrite He.
Qed.

(** ** Positions *)
Lemma move_and_animate_to i p s :
  floating_ok kin s -> i < length (tiles s) -> runs (move_and_animate cv i p s) (fto kin s (pile s)).
Proof.
  intros Hk Hi. destruct (lookup_lt_is_Some_2 _ _ Hi) as [t Ht]. destruct (lookup_data s i t (proj1 Hk) Ht) as (d & Hd & Hok).
  unfold move_and_animate. step index_ok; [exact Hd|]. cbv zeta. runs data_move_runs; [exact Hok|]. intros d' _ Hd'.
  set (s1 := set_data (<[i:=d']> (data s)) s).
  assert (H1 : fto kin s (pile s) s1).
  { pose proof (base_change i t t d' s (proj1 Hk) Ht (lookup_floats s i t (proj1 Hk) Ht) eq_refl Hd') as H. cbv zeta in H.
    rewrite (list_insert_id (tiles s) i t Ht) in H. by apply base_to. }
  apply runs_if; intros _; [|by returns]. apply (fto_then s); [done|]. intros Hk1. eapply update_tile_to; [done|exact Ht|].
  pose proof (lookup_floats s i t (proj1 Hk) Ht) as Hf.
  finish (tile_animate_move_runs _ _ _ (fo_options s (proj1 Hk)) cv Hcv); [apply Hf|]. intros t' _ H. by apply kept_alike.
Qed.
Lemma move_to_to i p animate s :
  floating_ok kin s -> i < length (tiles s) -> runs (move_to cv i p animate s) (fto kin s (pile s)).
Proof.
  intros Hk Hi. unfold move_to. eapply runs_bind with (R := fto kin s (pile s)); [|intros s1 _ H1; returns; by apply f_resize_end_to].
  destruct animate; [by apply move_and_animate_to|]. destruct (lookup_lt_is_Some_2 _ _ Hi) as [t Ht].
  destruct (lookup_data s i t (proj1 Hk) Ht) as (d & Hd & _). eapply update_data_to; [done|exact Ht|exact Hd|]. apply data_move_runs.
Qed.
Lemma move_by_to a s : floating_ok kin s -> runs (move_by cv a s) (fto kin s (pile s)).
Proof.
  intros Hk. unfold move_by. apply on_target; [done|done|]. intros x i t d Ht Hd _ _ _. step index_ok; [exact Hd|].
  apply move_to_to; [done|by eapply lookup_lt_Some].
Qed.
Lemma changed_coordinate_runs a l x c : runs (changed_coordinate a l x c) (fun _ => True).
Proof. unfold changed_coordinate. destruct c; cbv zeta; first [by returns|runs clamp_runs; [by vm_compute|]; intros ? _ _; by returns]. Qed.
Lemma move_window_to window x y animate s :
  floating_ok kin s -> names window s -> runs (move_window cv window x y animate s) (fto kin s (pile s)).
Proof.
  intros Hk Hw. unfold move_window. apply on_target; [done|done|]. intros z i t d Ht Hd _ _ _. step index_ok; [exact Hd|]. cbv zeta.
  runs changed_coordinate_runs. intros nx _ _. runs changed_coordinate_runs. intros ny _ _. apply move_to_to; [done|by eapply lookup_lt_Some].
Qed.
Lemma f_center_window_to window s : floating_ok kin s -> names window s -> runs (center_window cv window s) (fto kin s (pile s)).
Proof.
  intros Hk Hw. unfold center_window. apply on_target; [done|done|]. intros z i t d Ht Hd _ _ _. step index_ok; [exact Hd|].
  apply move_to_to; [done|by eapply lookup_lt_Some].
Qed.

(** ** Interactive resizing *)
Lemma interactive_begin_to x e s :
  floating_ok kin s -> x ∈ ids s ->
  runs (interactive_resize_begin x e s) (fun '(b, s') => b = bool_decide (interactive_resize s = None) /\ fto kin s (pile s) s').
Proof.
  intros Hk Hx. unfold interactive_resize_begin. destruct (interactive_resize s) as [r|]; [by returns|].
  destruct (idx_of_in s x Hx) as (i & t & Hi & Ht & Hid).
  destruct (find (Column.has_id x) (tiles s)) as [t0|] eqn:Ef.
  - cbn [unwrap mbind res_bind]. returns. split; [done|]. destruct Hk as [[] Hst]. split_and!; [split; [|done]|done|done]. constructor; try done.
    by intros r [= <-].
  - exfalso. pose proof (find_none _ _ Ef t) as H. unfold Column.has_id in H. rewrite bool_decide_eq_true_2 in H by done.
    apply list_elem_of_lookup_2, list_elem_of_In, H in Ht. done.
Qed.
Lemma interactive_update_to x delta s :
  floating_ok kin s -> x ∈ ids s ->
  runs (interactive_resize_update x delta s) (fun '(_, s') => fto kin s (pile s) s').
Proof.
  intros Hk Hx. unfold interactive_resize_update. destruct (interactive_resize s) as [r|]; [|by returns]. apply runs_if; intros _; [by returns|]. cbv zeta.
  assert (Hn : names (Some x) s) by by intros y [= <-].
  eapply runs_bind with (R := fto kin s (pile s)).
  { apply runs_if; intros _; [by apply f_set_window_width_to|by returns]. }
  intros s1 _ H1. eapply runs_bind with (R := fto kin s (pile s)); [|intros s2 _ H2; by returns].
  apply runs_if; intros _; [|by returns]. apply (fto_then s); [done|]. intros Hk1. apply f_set_window_height_to; [done|]. by eapply fto_names.
Qed.

(** ** A window commits

    By the time [update_window] is called the client has already changed its
    window. *)
Definition f_committed i (w : W) s : FloatingSpace := set_tiles (alter (Tile.set_window w) i (tiles s)) s.

Lemma update_floating_window_to i x t w serial s :
  floating_ok kin s -> tiles s !! i = Some t -> idx_of x s = Some i -> commit_ok t w ->
  runs (update_window cv x serial (f_committed i w s)) (fun '(b, s') => b = true /\ fto kin s (pile s) s').
Proof.
  intros Hk Ht Hi Hw. pose proof (proj1 Hk) as Hs. destruct (lookup_data s i t Hs Ht) as (d & Hd & Hdok). destruct (lookup_floats s i t Hs Ht) as (Hok & Hsy & Hpe).
  assert (Hids : ids (f_committed i w s) = ids s) by (unfold ids; cbn; eapply alter_fmap_same; [exact Ht|]; apply Hw).
  assert (Hi' : idx_of x (f_committed i w s) = Some i) by by rewrite <-idx_of_ids, Hids, idx_of_ids.
  unfold update_window. rewrite Hi'. step (index_ok i (Tile.set_window w t)); [cbn; by rewrite list_lookup_alter_eq, Ht|]. step index_ok; [exact Hd|]. cbv zeta.
  set (t1 := match serial with Some n => _ | None => _ end).
  destruct (commit_ok_serial t w serial Hw) as (Hid1 & Hwok & Hp1).
  assert (H1 : tile_ok (options s) (view_size s) (scale s) t1 /\ Tile.id t1 = Tile.id t /\ pending t1 = pending t).
  { unfold t1. destruct serial; (split_and!; [|exact Hid1|exact Hp1]); destruct Hok; by constructor. }
  destruct H1 as (Hok1 & Hidt & Hpt). set (rs := interactive_resize_data _). clearbody t1 rs.
  runs (tile_update_window_runs _ _ _ (fo_options s Hs) cv Hcv); [apply Hs|exact Hok1|]. intros t2 _ (Hok2 & Hsy2 & Hid2 & Hp2).
  runs data_update_runs. intros d1 _ (Hsz & Har & Hrec). pose proof Hdok as [Hda _ Hdr].
  assert (Hd1 : data_ok (working_area s) t2 d1) by (split; [by rewrite Har|done|by apply Hrec]).
  eapply runs_bind with (R := data_ok (working_area s) t2).
  { destruct rs as [e|]; [by apply data_move_runs|by returns]. }
  intros d2 _ Hd2. returns. split; [done|].
  assert (Hf2 : tile_floats (fenv s) t2) by (split_and!; [done|done|by rewrite Hp2, Hpt]).
  pose proof (base_change i t t2 d2 s Hs Ht Hf2 (eq_trans Hid2 Hidt) Hd2) as H. cbv zeta in H.
  match goal with |- fto _ _ _ ?u => replace u with (set_data (<[i:=d2]> (data s)) (set_tiles (<[i:=t2]> (tiles s)) s)) end.
  - apply base_to; [done|exact H|]. apply (ids_insert _ _ t); [done|]. by rewrite Hid2.
  - unfold set_data, set_tiles, f_committed. cbn. f_equal. rewrite !insert_alter, list_alter_alter_eq; by apply list_alter_ext.
Qed.
End sizes.
