(* ===== verification/FloatingThms.v ===== *)
(** * The floating layout: its theorems

    All operations of a floating space as one type, what callers promise, what
    each does to the stack of windows, and the spaces they reach while clients
    also change the parents of their windows. *)

From stdpp Require Import base numbers option list relations sorting.
From Stdlib Require Import ZArith Lia SpecFloat Sorted.
From S2P Require Import Prelude.
From S2P Require Import Runs.
From S2P Require Import F64.
From S2P Require Import Duration.
From S2P Require Import Clock.
From S2P Require Import Animation.
From S2P Require Import AnimTotal.
From S2P Require Import LayoutTypes.
From S2P Require Import F64Sign.
From S2P Require Import Tile.
From S2P Require Import TileInv.
From S2P Require Import Column.
From S2P Require Import ColumnOps.
From S2P Require Import Scrolling.
From S2P Require Import ScrollingTiles.
From S2P Require Import ScrollingViews.
From S2P Require Import ScrollingThms.
From S2P Require Import Floating.
From S2P Require Import FloatingStack.
From S2P Require Import FloatingInv.
From S2P Require Import FloatingOps.

Section thms.
Context {LE : LayoutElement} {LEL : LayoutElementLaws} {GE : Geometry} {GL : GeometryLaws} {LM : Libm} {KF : Keyframe}.
Implicit Types (cv : ClockView) (t : Tile.Tile) (d : Data.Data) (s : FloatingSpace.FloatingSpace) (kin : Id -> Id -> bool) (p : Pile).
Import FloatingSpace.

(** ** The operations *)
Inductive FloatOp :=
| FAddTile (t : Tile.Tile) (activate : bool)
| FAddTileAbove (above : Id) (t : Tile.Tile) (activate : bool)
| FRemoveTile (x : Id)
| FRemoveActiveTile
| FActivateWindow (x : Id) | FActivateWithoutRaising (x : Id)
| FDescendantsAdded (x : Id)
| FFocusLeft | FFocusRight | FFocusUp | FFocusDown
| FFocusLeftmost | FFocusRightmost | FFocusTopmost | FFocusBottommost
| FSetWindowWidth (x : option Id) (change : SizeChange) (animate : bool)
| FSetWindowHeight (x : option Id) (change : SizeChange) (animate : bool)
| FToggleWindowWidth (x : option Id) (forwards : bool) | FToggleWindowHeight (x : option Id) (forwards : bool)
| FMoveLeft | FMoveRight | FMoveUp | FMoveDown
| FMoveWindow (w : option Id) (x y : PositionChange) (animate : bool)
| FCenterWindow (x : option Id)
| FResizeBegin (x : Id) (edges : ResizeEdge) | FResizeUpdate (x : Id) (delta : Point) | FResizeEnd (x : option Id)
| FCommit (x : Id) (w : W) (serial : option Z)
| FUpdateConfig (view_size : Size) (working_area : Rect) (scale : f64) (o : LayoutOptions)
| FAdvanceAnimations
| FStartOpenAnimation (x : Id).

(** What operations return is left out; so is a removal that finds nothing. *)
Definition f_second {A} (m : res (A * FloatingSpace)) : res FloatingSpace := '(_, s) ← m; mret s.
Definition f_removal {A} s (m : res (option (A * FloatingSpace))) : res FloatingSpace :=
  o ← m; mret (match o with Some (_, s') => s' | None => s end).
(** A commit reaches the layout with the window already changed. *)
Definition f_commit cv (x : Id) (w : W) (serial : option Z) s : res FloatingSpace :=
  i ← unwrap (idx_of x s); f_second (update_window cv x serial (f_committed i w s)).

Definition f_run kin cv (op : FloatOp) s : res FloatingSpace :=
  match op with
  | FAddTile t a => add_tile kin t a s
  | FAddTileAbove x t a => add_tile_above kin x t a s
  | FRemoveTile x => f_second (remove_tile x s)
  | FRemoveActiveTile => f_removal s (remove_active_tile s)
  | FActivateWindow x => f_second (activate_window kin x s)
  | FActivateWithoutRaising x => mret (activate_window_without_raising x s).2
  | FDescendantsAdded x => f_second (descendants_added kin x s)
  | FFocusLeft => f_second (focus_left kin s)
  | FFocusRight => f_second (focus_right kin s)
  | FFocusUp => f_second (focus_up kin s)
  | FFocusDown => f_second (focus_down kin s)
  | FFocusLeftmost => focus_leftmost kin s
  | FFocusRightmost => focus_rightmost kin s
  | FFocusTopmost => focus_topmost kin s
  | FFocusBottommost => focus_bottommost kin s
  | FSetWindowWidth x c a => set_window_width x c a s
  | FSetWindowHeight x c a => set_window_height x c a s
  | FToggleWindowWidth x fw => toggle_window_width x fw s
  | FToggleWindowHeight x fw => toggle_window_height x fw s
  | FMoveLeft => move_left cv s
  | FMoveRight => move_right cv s
  | FMoveUp => move_up cv s
  | FMoveDown => move_down cv s
  | FMoveWindow w x y a => move_window cv w x y a s
  | FCenterWindow x => center_window cv x s
  | FResizeBegin x e => f_second (interactive_resize_begin x e s)
  | FResizeUpdate x delta => f_second (interactive_resize_update x delta s)
  | FResizeEnd x => mret (interactive_resize_end x s)
  | FCommit x w serial => f_commit cv x w serial s
  | FUpdateConfig vs area sc o => update_config vs area sc o s
  | FAdvanceAnimations => advance_animations cv s
  | FStartOpenAnimation x => f_second (start_open_animation cv x s)
  end.

(** What callers promise: windows that come in are new and in order, and windows
    that are named exist. *)
Definition f_pre (op : FloatOp) s : Prop :=
  match op with
  | FAddTile t _ => tile_incoming t /\ (Tile.id t ∉ ids s)
  | FAddTileAbove x t _ => tile_incoming t /\ (Tile.id t ∉ ids s) /\ x ∈ ids s
  | FRemoveTile x | FResizeBegin x _ | FResizeUpdate x _ => x ∈ ids s
  | FSetWindowWidth x _ _ | FSetWindowHeight x _ _ | FToggleWindowWidth x _ | FToggleWindowHeight x _ | FMoveWindow x _ _ _ | FCenterWindow x => names x s
  | FCommit x w _ => exists i t, idx_of x s = Some i /\ tiles s !! i = Some t /\ commit_ok t w
  | FUpdateConfig _ _ sc o => options_ok o /\ positive_finite sc = true
  | _ => True
  end.

(** What each does to the stack. *)
Definition f_spec kin (op : FloatOp) p p' : Prop :=
  match op with
  | FAddTile t a => p' = p_insert kin 0 (Tile.id t) a p
  | FAddTileAbove x t a => exists i, index_of x (p_ids p) = Some i /\ p' = p_insert kin i (Tile.id t) a p
  | FRemoveTile x => p' = p_remove x p
  | FRemoveActiveTile => p' = match p_active p with Some x => p_remove x p | None => p end
  | FActivateWindow x => p' = p_activate kin x p
  | FActivateWithoutRaising x => p' = p_focus x p
  | FDescendantsAdded x => p' = p_descendants kin x p
  | FFocusLeft | FFocusRight | FFocusUp | FFocusDown | FFocusLeftmost | FFocusRightmost | FFocusTopmost | FFocusBottommost =>
      p' = p \/ exists x, x ∈ p_ids p /\ p' = p_activate kin x p
  | _ => p' = p
  end.

Definition f_result kin op s s' : Prop :=
  floating_ok kin s' /\ f_spec kin op (pile s) (pile s')
  /\ match op with
     | FUpdateConfig vs area sc o => fenv s' = {| fe_options := o; fe_view_size := vs; fe_working_area := area; fe_scale := sc |}
     | _ => fenv s' = fenv s
     end.

Lemma f_second_runs {A} (m : res (A * FloatingSpace)) (P : A -> Prop) (Q : FloatingSpace -> Prop) :
  runs m (fun '(a, s') => P a /\ Q s') -> runs (f_second m) Q.
Proof. unfold runs, f_second. destruct m as [[a s]|]; [|done]. by intros []. Qed.

Lemma f_result_eq kin op s m p :
  runs m (fto kin s p) -> f_spec kin op (pile s) p -> (match op with FUpdateConfig _ _ _ _ => False | _ => True end) -> runs m (f_result kin op s).
Proof. intros Hm Hsp Hop. finish Hm. intros s' _ (Hs' & He & Hp). split_and!; [done|by rewrite Hp|]. by destruct op. Qed.
Lemma f_result_refocused kin op s m :
  runs m (refocused kin s) -> (forall p', f_spec kin op (pile s) p' <-> p' = pile s \/ exists x, x ∈ ids s /\ p' = p_activate kin x (pile s)) ->
  (match op with FUpdateConfig _ _ _ _ => False | _ => True end) -> runs m (f_result kin op s).
Proof.
  intros Hm Hsp Hop. finish Hm. intros s' _ H. assert (H' : floating_ok kin s' /\ fenv s' = fenv s) by by destruct H as [(? & ? & _)|(x & _ & ? & ? & _)].
  destruct H' as [H1 H2]. split_and!; [done| |by destruct op]. apply Hsp. destruct H as [(_ & _ & Hp)|(x & Hx & _ & _ & Hp)]; [by left|right; eauto].
Qed.

#[local] Ltac as_is H := eapply f_result_eq; [by eapply H|done|done].
#[local] Ltac as_second H := eapply f_result_eq; [eapply f_second_runs; by eapply H|done|done].

Section all.
Context kin (Hac : acyclic kin) cv (Hcv : cv_ok cv).

Lemma directional_runs f op s :
  floating_ok kin s -> (forall p', f_spec kin op (pile s) p' <-> p' = pile s \/ exists x, x ∈ ids s /\ p' = p_activate kin x (pile s)) ->
  (match op with FUpdateConfig _ _ _ _ => False | _ => True end) -> runs (f_second (focus_directional kin f s)) (f_result kin op s).
Proof.
  intros Hk Hsp Hop. apply f_result_refocused; [|done|done]. eapply (f_second_runs _ (fun _ => True)). finish focus_directional_to; [exact Hac|done|].
  by intros [b s'] _ [H _].
Qed.

Lemma run_float_op_ok op s : floating_ok kin s -> f_pre op s -> runs (f_run kin cv op s) (f_result kin op s).
Proof.
  intros Hk Hp. destruct op; cbn [f_run f_pre] in *; try (by apply directional_runs);
    try (apply f_result_refocused; [|done|done]; apply focus_by_to; [exact Hac|first [exact (min_by_in total_lt)|exact (max_by_in total_lt)]|exact Hk]).
  - destruct Hp. by as_is add_tile_to.
  - destruct Hp as (Hpa & Hpb & Hpc). finish add_tile_above_to; [exact Hac|done..|]. intros s' _ (i & Hi & H1 & H2 & H3). split_and!; [done| |done].
    exists i. split; [exact Hi|exact H3].
  - eapply f_result_eq; [|done|done]. eapply (f_second_runs _ (fun r => tile_incoming (rt_tile r))). finish remove_tile_to; [exact Hk|exact Hp|].
    intros [r s'] _ (? & _ & _ & ?). by split.
  - unfold f_removal. runs remove_active_to; [exact Hk|]. intros [[r s']|] _ H; returns.
    + destruct H as (x & Hx & _ & _ & _ & H1 & H2 & H3). split_and!; [done| |done]. cbn [f_spec]. change (p_active (pile s)) with (active_window_id s). by rewrite Hx.
    + split_and!; [done| |done]. cbn [f_spec]. change (p_active (pile s)) with (active_window_id s). by rewrite H.
  - by as_second f_activate_to.
  - pose proof (focus_to kin x s Hk) as H. destruct (activate_window_without_raising x s) as [b s']. destruct H as (_ & H1 & H2 & H3). by returns; split_and!.
  - eapply f_result_eq; [eapply f_second_runs; apply descendants_to; [exact Hac|apply Hk|]|done|done].
    destruct Hk as [_ Hst]. induction Hst as [|a l Hl IH Ha]; constructor; [done|]. eapply Forall_impl; [exact Ha|]. by right.
  - by as_is f_set_window_width_to.
  - by as_is f_set_window_height_to.
  - by as_is toggle_floating_width_to.
  - by as_is toggle_floating_height_to.
  - by as_is move_by_to.
  - by as_is move_by_to.
  - by as_is move_by_to.
  - by as_is move_by_to.
  - by as_is move_window_to.
  - by as_is f_center_window_to.
  - by as_second interactive_begin_to.
  - eapply f_result_eq; [|done|done]. eapply (f_second_runs _ (fun _ => True)). finish interactive_update_to; [exact Hk|exact Hp|]. by intros [b s'] _ H.
  - eapply f_result_eq; [|done|done]. returns. by apply f_resize_end_to, fto_refl.
  - destruct Hp as (i & t & Hi & Ht & Hw). eapply f_result_eq; [|done|done]. unfold f_commit. step unwrap_ok; [exact Hi|].
    eapply (f_second_runs _ (fun b => b = true)). by apply (update_floating_window_to kin cv Hcv i x t).
  - destruct Hp. finish f_update_config_to; [exact Hk|done|done|]. intros s' _ (H1 & H2 & H3). by split_and!.
  - by as_is f_advance_to.
  - by as_second start_open_to.
Qed.
End all.

(** ** The spaces the operations reach

    A client may give a window of its own another parent, or none, at any time, as
    long as no window becomes its own descendant; the compositor is told at once
    of a new parent ([XdgShellHandler::parent_changed]), not of one less. *)
Inductive floating_reachable : (Id -> Id -> bool) -> FloatingSpace -> Prop :=
| floating_new kin vs area sc o : acyclic kin -> options_ok o -> positive_finite sc = true -> floating_reachable kin (new vs area sc o)
| floating_step kin cv op s s' : floating_reachable kin s -> cv_ok cv -> f_pre op s -> f_run kin cv op s = Ok s' -> floating_reachable kin s'
| floating_parented kin kin' y s b s' :
    floating_reachable kin s -> acyclic kin' -> (forall a b, kin' a b = true -> kin a b = true \/ b = y) ->
    descendants_added kin' y s = Ok (b, s') -> floating_reachable kin' s'
| floating_orphaned kin kin' s :
    floating_reachable kin s -> (forall a b, kin' a b = true -> kin a b = true) -> floating_reachable kin' s.

Lemma acyclic_mono kin kin' : (forall a b, kin' a b = true -> kin a b = true) -> acyclic kin -> acyclic kin'.
Proof.
  intros Hk Ha x Hx. apply (Ha x). revert Hx. generalize x at 2 4. intros y Hx. induction Hx as [a b H|a b c H _ IH]; [by apply tc_once, Hk|].
  eapply tc_l; [by apply Hk|exact IH].
Qed.

(** A window with one more child is the only one that may have some below it. *)
Lemma stacked_parented kin kin' y l :
  (forall a b, kin' a b = true -> kin a b = true \/ b = y) -> stacked kin l -> StronglySorted (fun a b => a = y \/ below kin' a b) l.
Proof.
  intros Hk Hst. induction Hst as [|a l _ IH Ha]; constructor; [done|]. eapply Forall_impl; [exact Ha|]. intros b Hb. unfold below in *.
  destruct (kin' b a) eqn:E; [|by right]. destruct (Hk _ _ E) as [?| ->]; [congruence|by left].
Qed.

Lemma stacked_orphaned kin kin' l : (forall a b, kin' a b = true -> kin a b = true) -> stacked kin l -> stacked kin' l.
Proof.
  intros Hk Hst. induction Hst as [|a l _ IH Hx]; constructor; [done|]. eapply Forall_impl; [exact Hx|]. intros b. unfold below.
  destruct (kin' b a) eqn:E; [|done]. by rewrite (Hk _ _ E).
Qed.

Lemma floating_reachable_ok kin s : floating_reachable kin s -> acyclic kin /\ floating_ok kin s.
Proof.
  induction 1 as [kin vs area sc o Ha Ho Hsc|kin cv op s s' _ [Ha IH] Hcv Hp Hr|kin kin' y s b s' _ [Ha IH] Ha' Hk Hr|kin kin' s _ [Ha IH] Hk].
  - split; [done|by apply floating_space_new].
  - split; [done|]. pose proof (run_float_op_ok kin Ha cv Hcv op s IH Hp) as H. rewrite Hr in H. apply H.
  - split; [done|]. pose proof (descendants_to kin' Ha' y s (proj1 IH) (stacked_parented _ _ _ _ Hk (proj2 IH))) as H. rewrite Hr in H. apply H.
  - split; [by eapply acyclic_mono|]. destruct IH as [Hb Hst]. split; [done|]. by eapply stacked_orphaned.
Qed.

(** ** No window is lost *)
Definition f_came (op : FloatOp) : list Id := match op with FAddTile t _ | FAddTileAbove _ t _ => [Tile.id t] | _ => [] end.
Definition f_gone (op : FloatOp) p : list Id :=
  match op with FRemoveTile x => [x] | FRemoveActiveTile => match p_active p with Some x => [x] | None => [] end | _ => [] end.

Lemma index_of_in x (l : list Id) : x ∈ l -> exists i, index_of x l = Some i /\ l !! i = Some x.
Proof.
  intros Hx. destruct (index_of x l) as [i|] eqn:E; [exists i; split; [done|by apply index_lt]|].
  unfold index_of in E. rewrite position_None in E. specialize (E x Hx). by rewrite bool_decide_eq_true_2 in E.
Qed.
Lemma insert_pile_perm kin i x a p : p_ids (p_insert kin i x a p) ≡ₚ x :: p_ids p.
Proof. cbn. unfold k_insert. by rewrite bring_up_perm, insert_at_perm. Qed.
Lemma remove_pile_perm x p : x ∈ p_ids p -> x :: p_ids (p_remove x p) ≡ₚ p_ids p.
Proof. intros (i & Hi & Hx)%index_of_in. unfold p_remove. rewrite Hi. cbn. symmetry. by apply delete_perm. Qed.
Lemma activate_pile_perm kin x p : p_ids (p_activate kin x p) ≡ₚ p_ids p.
Proof. unfold p_activate. destruct (index_of x (p_ids p)); cbn; [|done]. by rewrite bring_up_perm, raised_perm. Qed.
Lemma descendants_pile_perm kin x p : p_ids (p_descendants kin x p) ≡ₚ p_ids p.
Proof. unfold p_descendants. destruct (index_of x (p_ids p)); cbn; [|done]. by rewrite bring_up_perm. Qed.
Lemma focus_pile_ids x p : p_ids (p_focus x p) = p_ids p.
Proof. unfold p_focus. by case_bool_decide. Qed.

Lemma f_spec_windows kin op p p' :
  f_spec kin op p p' -> (match op with FRemoveTile x => x ∈ p_ids p | FRemoveActiveTile => forall x, p_active p = Some x -> x ∈ p_ids p | _ => True end) ->
  f_came op ++ p_ids p ≡ₚ f_gone op p ++ p_ids p'.
Proof.
  intros Hsp Hx. assert (Hf : p' = p \/ (exists x, x ∈ p_ids p /\ p' = p_activate kin x p) -> p_ids p ≡ₚ p_ids p').
  { intros [->|(y & _ & ->)]; [done|by rewrite activate_pile_perm]. }
  destruct op; cbn [f_spec f_came f_gone app] in *; try (by apply Hf); try (subst p'; done).
  - subst p'. by rewrite insert_pile_perm.
  - destruct Hsp as (i & _ & ->). by rewrite insert_pile_perm.
  - subst p'. symmetry. by apply remove_pile_perm.
  - subst p'. destruct (p_active p) as [y|]; [|done]. symmetry. by apply remove_pile_perm, Hx.
  - subst p'. by rewrite activate_pile_perm.
  - subst p'. by rewrite focus_pile_ids.
  - subst p'. by rewrite descendants_pile_perm.
Qed.

(** ** What raising a window does to the others *)
Lemma select_sublist {A} bs (l : list A) : select bs l `sublist_of` l.
Proof. revert bs. induction l as [|x l IH]; intros [|[] bs]; cbn; try done; try apply sublist_nil_l; [by apply sublist_skip|by apply sublist_cons]. Qed.
Lemma reject_sublist {A} bs (l : list A) : reject bs l `sublist_of` l.
Proof. revert bs. induction l as [|x l IH]; intros [|[] bs]; cbn; try done; [by apply sublist_cons|by apply sublist_skip]. Qed.
Lemma activated_stack kin x (l : list Id) :
  x ∈ l -> exists i above rest, index_of x l = Some i /\ k_bring_up kin 0 (raised i 0 l) = above ++ x :: rest
    /\ (forall y, y ∈ above -> tc (child kin) y x) /\ above `sublist_of` l /\ rest `sublist_of` l.
Proof.
  intros (i & Hi & Hx)%index_of_in. set (rest := delete i l). exists i, (select (family kin x rest) rest), (reject (family kin x rest) rest).
  assert (Hr : rest `sublist_of` l) by apply sublist_delete.
  split_and!; [done| |intros y; apply family_tc|by rewrite select_sublist|by rewrite reject_sublist].
  unfold raised. rewrite Hx. fold rest. unfold k_bring_up, insert_at. cbn. by rewrite drop_0.
Qed.

(** ** The nearest window in a direction *)
Lemma fltb_trans x y z : fltb x y = true -> fltb y z = true -> fltb x z = true.
Proof.
  intros Hxy Hyz. pose proof (fltb_fleb _ _ Hxy) as H1. pose proof (fltb_fleb _ _ Hyz) as H2.
  destruct (fleb_not_nan _ _ H1), (fleb_not_nan _ _ H2). destruct (fltb x z) eqn:E; [done|]. apply fltb_false_fleb in E as [?|[?|E]]; [congruence..|].
  pose proof (fleb_fltb _ _ (fleb_trans _ _ _ H2 E)). congruence.
Qed.
Definition ahead (x : f64) : Prop := fgtb x f0 = true.
Lemma total_ahead x y : ahead x -> ahead y -> total_ltb x y = fltb x y.
Proof. unfold ahead, fgtb, total_ltb, fltb. destruct x as [[]|[]| |[]], y as [[]|[]| |[]]; try done; intros _ _; cbn; by destruct (cmp_exact _ _). Qed.

(** The first of the least ones. *)
Lemma min_by_least {A} (f : A -> f64) (l : list A) x :
  Forall (fun a => ahead (f a)) l -> min_by (fun a b => total_ltb (f a) (f b)) l = Some x -> forall y, y ∈ l -> fleb (f x) (f y) = true.
Proof.
  destruct l as [|a l]; [done|]. intros HF [= <-]. set (g := fun a y => if total_ltb (f y) (f a) then y else a).
  assert (Hnn : forall a, ahead (f a) -> is_nan (f a) = false) by (intros b; unfold ahead, fgtb, fltb; by destruct (f b)).
  assert (H : forall a l, ahead (f a) -> Forall (fun a => ahead (f a)) l -> ahead (f (foldl g a l)) /\ fleb (f (foldl g a l)) (f a) = true
    /\ forall y, y ∈ l -> fleb (f (foldl g a l)) (f y) = true).
  { clear a l HF. intros a l. revert a. induction l as [|b l IH]; intros a Ha HF; cbn.
    - split_and!; [done|by apply fleb_refl, Hnn|intros y Hy; inversion Hy].
    - inversion_clear HF as [|? ? Hb HF']. pose proof (total_ahead (f b) (f a) Hb Ha) as Ht.
      assert (Hg : ahead (f (g a b)) /\ fleb (f (g a b)) (f a) = true /\ fleb (f (g a b)) (f b) = true).
      { unfold g. rewrite Ht. destruct (fltb (f b) (f a)) eqn:E.
        - split_and!; [done|by apply fltb_fleb|by apply fleb_refl, Hnn].
        - split_and!; [done|by apply fleb_refl, Hnn|]. apply fltb_false_fleb in E as [E|[E|E]]; [by rewrite Hnn in E..|done]. }
      destruct Hg as (Hga & Hgl & Hgr). destruct (IH (g a b) Hga HF') as (H1 & H2 & H3). split_and!; [done|by eapply fleb_trans|].
      intros y [->|Hy]%elem_of_cons; [by eapply fleb_trans|by apply H3]. }
  inversion_clear HF as [|? ? Ha HF']. destruct (H a l Ha HF') as (_ & H1 & H2). intros y [->|Hy]%elem_of_cons; [exact H1|by apply H2].
Qed.

(** ** The theorems *)

(** C22: whatever is done to a floating space from its creation on, while clients
    change the parents of their windows, the next operation does not panic,
    provided its caller names windows that exist and adds ones that do not; the
    invariant holds afterwards, and the stack of windows and the active window
    are those its specification says. *)
Theorem floating_ops_refine kin cv op s :
  floating_reachable kin s -> cv_ok cv -> f_pre op s ->
  exists s', f_run kin cv op s = Ok s' /\ floating_ok kin s' /\ f_spec kin op (pile s) (pile s').
Proof.
  intros Hr Hcv Hp. destruct (floating_reachable_ok kin s Hr) as [Ha Hs]. pose proof (run_float_op_ok kin Ha cv Hcv op s Hs Hp) as H.
  apply runs_ok in H as (s' & ? & ? & ? & _). by exists s'.
Qed.

(** No operation loses or doubles a floating window. *)
Theorem floating_keeps_windows kin cv op s s' :
  floating_reachable kin s -> cv_ok cv -> f_pre op s -> f_run kin cv op s = Ok s' ->
  f_came op ++ (Tile.id <$> tiles s) ≡ₚ f_gone op (pile s) ++ (Tile.id <$> tiles s').
Proof.
  intros Hr Hcv Hp Hrun. destruct (floating_reachable_ok kin s Hr) as [Ha Hs]. pose proof (run_float_op_ok kin Ha cv Hcv op s Hs Hp) as H.
  rewrite Hrun in H. destruct H as (_ & Hsp & _). apply (f_spec_windows kin op (pile s) (pile s') Hsp). destruct op; try done.
  intros x Hx. pose proof (fo_active s (proj1 Hs)) as H. change (p_active (pile s)) with (active_window_id s) in Hx. by rewrite Hx in H.
Qed.

(** C23: in every space that is reached, and so after a client has given a window
    another parent, children are stacked above their parents. *)
Theorem children_above_parents kin s i j t u :
  floating_reachable kin s -> tiles s !! i = Some t -> tiles s !! j = Some u -> kin (Tile.id t) (Tile.id u) = true -> i < j.
Proof.
  intros Hr Hi Hj Hk. destruct (floating_reachable_ok kin s Hr) as [Ha [Hs Hst]]. destruct (decide (i < j)) as [|Hlt]; [done|]. exfalso.
  assert (Hne : i <> j). { intros ->. rewrite Hi in Hj. injection Hj as ->. apply (Ha (Tile.id u)). by apply tc_once. }
  assert (Hids : ids s !! i = Some (Tile.id t) /\ ids s !! j = Some (Tile.id u)) by (unfold ids; by rewrite !list_lookup_fmap, Hi, Hj).
  destruct Hids as [Hi' Hj']. clear Hi Hj. revert i j Hlt Hne Hi' Hj'. unfold stacked in Hst. induction Hst as [|a l _ IH Hx]; intros i j; [done|].
  destruct j as [|j]; destruct i as [|i]; cbn; try done; try lia.
  - intros _ _ Hi [= ->]. rewrite Forall_forall in Hx. specialize (Hx _ (list_elem_of_lookup_2 _ _ _ Hi)). unfold below in Hx. congruence.
  - intros Hlt Hne Hi Hj. apply (IH i j); [lia|lia|done|done].
Qed.

(** C24: a window that is activated has the focus, and only its descendants are
    above it; neither these nor the windows below it change their order. *)
Theorem activated_on_top kin x s :
  floating_reachable kin s -> x ∈ (Tile.id <$> tiles s) ->
  exists s' above rest, activate_window kin x s = Ok (true, s') /\ active_window_id s' = Some x
    /\ Tile.id <$> tiles s' = above ++ x :: rest /\ (forall y, y ∈ above -> tc (child kin) y x)
    /\ above `sublist_of` (Tile.id <$> tiles s) /\ rest `sublist_of` (Tile.id <$> tiles s).
Proof.
  intros Hr Hx. destruct (floating_reachable_ok kin s Hr) as [Ha Hs]. pose proof (f_activate_to kin Ha x s Hs) as H.
  apply runs_ok in H as ([b s'] & Hrun & -> & _ & _ & Hp). rewrite bool_decide_eq_true_2 in Hrun by done.
  destruct (activated_stack kin x (ids s) Hx) as (i & above & rest & Hi & Heq & H1 & H2 & H3). exists s', above, rest.
  unfold p_activate in Hp. cbn [p_ids pile] in Hp. rewrite Hi, Heq in Hp. injection Hp as Hids Hact. by split_and!.
Qed.

(** C25: moving the focus in a direction goes to a window ahead in that direction
    that no other one ahead is nearer than, and does nothing if there is none. *)
Theorem directional_focus_nearest kin f s x i d :
  floating_reachable kin s -> active_window_id s = Some x -> idx_of x s = Some i -> data s !! i = Some d ->
  let other k u e := tiles s !! k = Some u /\ data s !! k = Some e /\ Tile.id u <> x /\ ahead (f (Data.center d) (Data.center e)) in
  exists b s', focus_directional kin f s = Ok (b, s') /\
    if b then exists k u e, other k u e /\ active_window_id s' = Some (Tile.id u)
      /\ forall k' u' e', other k' u' e' -> fleb (f (Data.center d) (Data.center e)) (f (Data.center d) (Data.center e')) = true
    else s' = s /\ forall k u e, ~ other k u e.
Proof.
  intros Hr Hact Hi Hd other. destruct (floating_reachable_ok kin s Hr) as [Ha Hs].
  unfold focus_directional. rewrite Hact, Hi. cbn [unwrap mbind res_bind]. rewrite (index_ok i d) by done. cbn [mbind res_bind]. cbv zeta.
  set (l := filter _ (_ <$> _)).
  assert (Hin : forall u y, (u, y) ∈ l <-> exists k e, other k u e /\ y = f (Data.center d) (Data.center e)).
  { intros u y. unfold l. rewrite list_elem_of_filter, list_elem_of_fmap. cbn [fst snd]. split.
    - intros (Hy & [u' e] & [= -> ->] & Hz). apply list_elem_of_filter in Hz as [Hne Hz]. apply list_elem_of_lookup in Hz as [k Hk].
      apply lookup_zip_Some in Hk as [? ?]. by exists k, e.
    - intros (k & e & (Hu & He & Hne & Hah) & ->). split; [done|]. exists (u, e). split; [done|]. apply list_elem_of_filter. split; [done|].
      apply list_elem_of_lookup. exists k. by apply lookup_zip_Some. }
  destruct (min_by _ l) as [[u y]|] eqn:Em; cbn [activate_found].
  - pose proof (proj1 (Hin u y) (min_by_in _ _ _ Em)) as (k & e & Ho & ->). pose proof (f_activate_to kin Ha (Tile.id u) s Hs) as H.
    apply runs_ok in H as ([b s'] & Hrun & _ & _ & _ & Hp). exists true, s'. split; [by rewrite Hrun|]. exists k, u, e. split; [done|]. split.
    + destruct Ho as (Hu & _). assert (Hx : Tile.id u ∈ ids s) by (unfold ids; by eapply list_elem_of_fmap_2, list_elem_of_lookup_2).
      destruct (index_of_in _ _ Hx) as (k' & Hk' & _). unfold p_activate in Hp. cbn [p_ids pile] in Hp. rewrite Hk' in Hp. by injection Hp.
    + intros k' u' e' Ho'. apply (min_by_least snd l (u, f (Data.center d) (Data.center e))) with (y := (u', f (Data.center d) (Data.center e'))); [|exact Em|apply Hin; eauto].
      apply Forall_forall. intros [u1 y1] H1. apply Hin in H1 as (k1 & e1 & Ho1 & ->). apply Ho1.
  - exists false, s. split; [done|]. split; [done|]. intros k u e Ho. assert (Hl : (u, f (Data.center d) (Data.center e)) ∈ l) by (apply Hin; eauto).
    destruct l; [by apply not_elem_of_nil in Hl|done].
Qed.
End thms.

(** ** The theorems at concrete runs

    Three windows, the second a child of the first. *)
#[local] Existing Instance window0.
#[local] Existing Instance window0_laws.
#[local] Existing Instance geometry0.
#[local] Existing Instance geometry0_laws.
#[local] Existing Instance libm0.
#[local] Existing Instance keyframe0.
Import FloatingSpace.

Definition kin0 (x y : @Id window0) : bool := bool_decide ((x : nat) = 2 /\ (y : nat) = 1).
Definition f_after (op : FloatOp) (s : FloatingSpace) : FloatingSpace := match f_run kin0 (cv_at 5%Z) op s with Ok s' => s' | Panic => s end.
Definition floating0 : FloatingSpace := new view0 area0 f1 options0.
Definition floating_three : FloatingSpace :=
  f_after (FAddTile (tile0 3) true) (f_after (FAddTile (tile0 2) true) (f_after (FAddTile (tile0 1) true) floating0)).

Lemma kin0_acyclic : acyclic kin0.
Proof.
  assert (H : forall x y, tc (child kin0) x y -> x = 2 /\ y = 1).
  { intros x y Hxy. induction Hxy as [x y Hk|x y z Hk _ IH]; unfold child, kin0 in Hk; apply bool_decide_eq_true_1 in Hk; [done|]. destruct Hk, IH. subst. done. }
  intros x [-> Hx]%H. done.
Qed.
Lemma f_after_reachable op s : floating_reachable kin0 s -> f_pre op s -> floating_reachable kin0 (f_after op s).
Proof.
  intros Hs Hp. destruct (floating_reachable_ok kin0 s Hs) as [Ha Hk]. pose proof (run_float_op_ok kin0 Ha (cv_at 5%Z) clock5_ok op s Hk Hp) as H.
  apply runs_ok in H as (s' & He & _). unfold f_after. rewrite He. eapply floating_step; [exact Hs|exact clock5_ok|exact Hp|exact He].
Qed.
Lemma f_add_reachable i s : floating_reachable kin0 s -> bool_decide (i ∉ ids s) = true -> floating_reachable kin0 (f_after (FAddTile (tile0 i) true) s).
Proof. intros Hs Hi. apply f_after_reachable; [done|]. apply bool_decide_eq_true_1 in Hi. split; [apply tile0_incoming|exact Hi]. Qed.
Lemma floating_three_reachable : floating_reachable kin0 floating_three.
Proof.
  unfold floating_three. do 3 (apply f_add_reachable; [|by vm_compute]). apply floating_new; [apply kin0_acyclic|apply options0_ok|by vm_compute].
Qed.
Lemma floating_three_ids : ids floating_three = [3; 2; 1 : @Id window0].
Proof. by vm_compute. Qed.
Lemma in_ids x (s : FloatingSpace) : bool_decide (x ∈ ids s) = true -> x ∈ (Tile.id <$> tiles s).
Proof. intros H. apply bool_decide_eq_true_1 in H. exact H. Qed.

Example floating_ops_refine_witness :
  exists s', f_run kin0 (cv_at 5%Z) (FActivateWindow (LE := window0) 1) floating_three = Ok s' /\ floating_ok kin0 s'
    /\ f_spec kin0 (FActivateWindow (LE := window0) 1) (pile floating_three) (pile s').
Proof. apply floating_ops_refine; [exact floating_three_reachable|exact clock5_ok|done]. Defined.

Example floating_keeps_windows_witness :
  [] ++ (Tile.id <$> tiles floating_three) ≡ₚ [2 : @Id window0] ++ (Tile.id <$> tiles (f_after (FRemoveTile (LE := window0) 2) floating_three)).
Proof.
  apply (floating_keeps_windows kin0 (cv_at 5%Z) (FRemoveTile (LE := window0) 2)); [exact floating_three_reachable|exact clock5_ok| |by vm_compute].
  apply in_ids. by vm_compute.
Defined.

Example children_above_parents_witness : 1 < 2.
Proof.
  assert (H : exists t u, tiles floating_three !! 1 = Some t /\ tiles floating_three !! 2 = Some u /\ kin0 (Tile.id t) (Tile.id u) = true) by (do 2 eexists; by vm_compute).
  destruct H as (t & u & Ht & Hu & Hk). exact (children_above_parents kin0 floating_three 1 2 t u floating_three_reachable Ht Hu Hk).
Defined.

Example activated_on_top_witness :
  exists s' above rest, activate_window kin0 (1 : @Id window0) floating_three = Ok (true, s') /\ active_window_id s' = Some (1 : @Id window0)
    /\ Tile.id <$> tiles s' = above ++ (1 : @Id window0) :: rest /\ (forall y, y ∈ above -> tc (child kin0) y 1)
    /\ above `sublist_of` (Tile.id <$> tiles floating_three) /\ rest `sublist_of` (Tile.id <$> tiles floating_three).
Proof. apply (activated_on_top kin0 (1 : @Id window0)); [exact floating_three_reachable|]. apply in_ids. by vm_compute. Defined.
Example activated_stack_example :
  ids (f_after (FActivateWindow (LE := window0) 1) floating_three) = [2; 1; 3 : @Id window0].
Proof. by vm_compute. Qed.

(** The third window is to the right of the others. *)
Definition floating_moved : FloatingSpace := f_after FMoveRight floating_three.
Lemma floating_moved_reachable : floating_reachable kin0 floating_moved.
Proof. apply f_after_reachable; [exact floating_three_reachable|done]. Qed.
Example directional_focus_nearest_witness :
  exists d, data floating_moved !! 0 = Some d /\
    let f (focus other : Point) := (focus.1 - other.1)%F in
    let other k u e := tiles floating_moved !! k = Some u /\ data floating_moved !! k = Some e /\ Tile.id u <> 3 /\ ahead (f (Data.center d) (Data.center e)) in
    exists b s', focus_directional kin0 f floating_moved = Ok (b, s') /\
      if b then exists k u e, other k u e /\ active_window_id s' = Some (Tile.id u)
        /\ forall k' u' e', other k' u' e' -> fleb (f (Data.center d) (Data.center e)) (f (Data.center d) (Data.center e')) = true
      else s' = floating_moved /\ forall k u e, ~ other k u e.
Proof.
  assert (H : exists d, data floating_moved !! 0 = Some d) by (eexists; by vm_compute). destruct H as (d & Hd). exists d. split; [exact Hd|].
  apply (directional_focus_nearest kin0 (fun focus other : Point => (focus.1 - other.1)%F) floating_moved (3 : @Id window0) 0 d);
    [exact floating_moved_reachable|by vm_compute|by vm_compute|exact Hd].
Defined.
Example directional_focus_example : active_window_id (f_after FFocusLeft floating_moved) = Some (2 : @Id window0).
Proof. by vm_compute. Qed.
