(* ===== verification/Positions.v ===== *)
(** * Where windows are

    Positions of tiles in the view of a workspace, in the order in which they are
    drawn and looked for under the pointer; sizes of windows that are about to
    open; the area of the insert hint (layout/scrolling.rs, layout/floating.rs).
    The iterators of the code are lazy; here they are lists. *)

From stdpp Require Import base numbers option list.
From Stdlib Require Import ZArith Lia SpecFloat.
From S2P Require Import Prelude.
From S2P Require Import F64.
From S2P Require Import Clock.
From S2P Require Import Animation.
From S2P Require Import LayoutTypes.
From S2P Require Import Tile.
From S2P Require Import Floating.
From S2P Require Import Column.
From S2P Require Import Scrolling.
From S2P Require Import Runs.
From S2P Require Import AnimTotal.
From S2P Require Import F64Sign.
From S2P Require Import TileInv.
From S2P Require Import FloatingStack.
From S2P Require Import FloatingInv.
From S2P Require Import ColumnInv.
From S2P Require Import ScrollingSpec.
From S2P Require Import ScrollingInv.
From S2P Require Import ScrollingOps.
From S2P Require Import ScrollingViews.
From S2P Require Import ScrollingThms.

(** The element at [i] before all others. *)
Definition active_first {A} (i : nat) (l : list A) : res (list A) := x ← index l i; mret (x :: delete i l).

Definition round_point `{!Geometry} (round : bool) (scale : f64) (p : Point) : Point := if round then round_size scale p else p.

(** ** The scrolling layout *)
Module ScrollingPositions.
Import ScrollingSpace.
Section ops.
Context {LE : LayoutElement} {GE : Geometry} {LM : Libm} {KF : Keyframe}.
Implicit Types (cv : ClockView) (s : ScrollingSpace) (c : Column.Column).

(** The tiles of a column with their offsets, and whether they are visible. *)
Definition tiles_in_render_order c : res (list (Tile.Tile * Point * bool)) :=
  os ← Column.tile_offsets c;
  os ← active_first (Column.active_tile_idx c) os;
  t ← index (Column.tiles c) (Column.active_tile_idx c);
  let rest := (fun t => (t, negb (Column.tabbed c))) <$> delete (Column.active_tile_idx c) (Column.tiles c) in
  mret ((fun x : (Tile.Tile * bool) * Point => (x.1.1, x.2, x.1.2)) <$> zip ((t, true) :: rest) os).

Definition columns_in_render_order s : res (list (Column.Column * f64)) :=
  xs ← active_first (active_column_idx s) (column_xs s);
  cs ← (if is_empty s then mret [] else active_first (active_column_idx s) (columns s));
  mret (zip cs xs).

Definition tiles_with_render_positions cv (round : bool) s : res (list (Tile.Tile * Point * bool)) :=
  v ← view_pos cv s;
  let view_off := ((- v)%F, f0) in
  cs ← columns_in_render_order s;
  ls ← mapM (fun cx : Column.Column * f64 =>
         r ← Tile.move_offset cv (Column.move_animation cx.1);
         ts ← tiles_in_render_order cx.1;
         mapM (fun tov : Tile.Tile * Point * bool =>
           o ← Tile.render_offset cv tov.1.1;
           let pos := pair_add (pair_add (pair_add (pair_add view_off (cx.2, f0)) (r, f0)) tov.1.2) o in
           mret (tov.1.1, round_point round (scale s) pos, tov.2)) ts) cs;
  mret (concat ls).

(** The place of each tile in the layout, from 1. *)
Definition tiles_with_ipc_layouts s : list (Tile.Tile * (nat * nat)) :=
  concat (imap (fun i c => imap (fun j t => (t, (i + 1, j + 1)%nat)) (Column.tiles c)) (columns s)).

(** ** Windows that are about to open *)
Definition is_active_pending_fullscreen s : res bool :=
  if is_empty s then mret false else c ← active_column s; mret (is_fullscreen (Column.pending_sizing_mode c)).
Definition render_above_top_layer s : res bool :=
  if is_empty s then mret false
  else match view_offset s with
       | ViewOffset.Static _ => c ← active_column s; mret (is_fullscreen (Column.sizing_mode c))
       | _ => mret false
       end.

Definition tab_extra_size (rules : WindowRules) s : Size :=
  if bool_decide (default (default_column_display (options s)) (rule_default_column_display rules) = DisplayTabbed)
  then TabIndicator.extra_size 1 (scale s) (TabIndicator.new (opt_tab_indicator (options s))) else (f0, f0).
Definition compute_toplevel_bounds (b : Border) (size extra : Size) (gaps : f64) : Z * Z :=
  let border := if b_off b then f0 else (b_width b * of_Z 2)%F in
  (i32_floor (fmax (size.1 - gaps * of_Z 2 - extra.1 - border)%F f1), i32_floor (fmax (size.2 - gaps * of_Z 2 - extra.2 - border)%F f1)).
Definition new_window_toplevel_bounds (rules : WindowRules) s : Z * Z :=
  compute_toplevel_bounds (border_merged_with (rule_border rules) (opt_border (options s))) (working_area s).2 (tab_extra_size rules s)
    (gaps (options s)).

(** The length of the window for a preset. *)
Definition preset_window_length (border : Border) (p : PresetSize) (view_size extra : f64) s : f64 :=
  match resolve_preset_size p (options s) view_size extra with
  | ResolvedTile x => if b_off border then x else (x - b_width border * of_Z 2)%F
  | ResolvedWindow x => x
  end.
Definition new_window_size (width height : option PresetSize) (rules : WindowRules) s : Z * Z :=
  let border := border_merged_with (rule_border rules) (opt_border (options s)) in
  let extra := tab_extra_size rules s in
  let size := (working_area s).2 in
  let w := match width with
           | Some p => Z.max 1 (as_i32 (ffloor (preset_window_length border p size.1 extra.1 s)))
           | None => 0%Z
           end in
  let full := (size.2 - gaps (options s) * of_Z 2)%F in
  let full := if b_off border then full else (full - b_width border * of_Z 2)%F in
  let h := match height with Some p => fmin (preset_window_length border p size.2 extra.2 s) full | None => full end in
  (w, Z.max (as_i32 (ffloor h)) 1).

(** ** The insert hint *)
Definition column_hint (i : nat) s : res (option Rect) :=
  let size := (of_Z 300, ((working_area s).2.2 - gaps (options s) * of_Z 2)%F) in
  let y := ((working_area s).1.2 + gaps (options s))%F in
  if (i =? 0)%nat || (i =? length (columns s))%nat then
    x ← column_x i s;
    let x := if (i =? 0)%nat && negb (is_empty s) then (x - (size.1 + gaps (options s)))%F else x in
    mret (Some ((x, y), size))
  else if (length (columns s) <? i)%nat then mret None
  else x ← column_x i s; mret (Some (((x - size.1 / of_Z 2 - gaps (options s) / of_Z 2)%F, y), size)).

Definition tile_hint (i j : nat) s : res (option Rect) :=
  if (length (columns s) <? i)%nat then mret None
  else
    c ← index (columns s) i;
    if (length (Column.tiles c) <? j)%nat then mret None
    else
      '(height, y) ←
        (if Column.tabbed c then
           top ← Column.tile_offset (Column.active_tile_idx c) c;
           d ← index (Column.data c) (Column.active_tile_idx c);
           let bottom := (top.2 + (td_size d).2)%F in
           mret (if (j <=? Column.active_tile_idx c)%nat then (of_Z 150, top.2) else (of_Z 150, (bottom - of_Z 150)%F))
         else
           top ← Column.tile_offset j c;
           mret (if (j =? 0)%nat then (of_Z 150, top.2)
                 else if (j =? length (Column.tiles c))%nat then (of_Z 150, (top.2 - gaps (options s) - of_Z 150)%F)
                 else (of_Z 300, (top.2 - gaps (options s) / of_Z 2 - of_Z 150)%F)));
      let extra_w := if Column.tabbed c && is_normal (Column.sizing_mode c)
                     then (TabIndicator.extra_size (length (Column.tiles c)) (Column.scale c) (Column.tab_indicator c)).1 else f0 in
      w ← index (data s) i;
      x ← column_x i s;
      mret (Some (((x + (Column.tiles_origin c).1)%F, y), ((w - extra_w)%F, height))).

Definition insert_hint_area cv (p : InsertPosition) s : res (option Rect) :=
  o ← match p with NewColumn i => column_hint i s | InColumn i j => tile_hint i j s | InFloating => mret None end;
  match o with
  | None => mret None
  | Some area =>
      off ← (if is_empty s then
               (if is_centering_focused_column s then compute_new_view_offset_centered (Some f0) f0 area.2.1 Normal s
                else compute_new_view_offset_fit (Some f0) f0 area.2.1 Normal s)
             else view_pos cv s);
      mret (Some (((area.1.1 - off)%F, area.1.2), area.2))
  end.
End ops.
End ScrollingPositions.

(** ** The floating layout *)
Module FloatingPositions.
Import FloatingSpace.
Section ops.
Context {LE : LayoutElement} {GE : Geometry} {LM : Libm} {KF : Keyframe}.
Implicit Types (cv : ClockView) (s : FloatingSpace).

Definition tiles_with_render_positions cv (round : bool) s : res (list (Tile.Tile * Point)) :=
  mapM (fun tp : Tile.Tile * Point =>
    o ← Tile.render_offset cv tp.1; mret (tp.1, round_point round (scale s) (pair_add tp.2 o))) (tiles_with_offsets s).
Definition tiles_with_ipc_layouts s : list (Tile.Tile * Point) :=
  (fun tp : Tile.Tile * Point => (tp.1, round_size (scale s) tp.2)) <$> tiles_with_offsets s.
End ops.
End FloatingPositions.

(** * Where windows are: what holds of it

    The positions are those of all tiles, each once, and finding them does not
    panic; an insert position has an area to show. *)
Lemma active_first_runs {A} i (l : list A) :
  i < length l -> runs (active_first i l) (fun l' => exists x, l !! i = Some x /\ l' = x :: delete i l).
Proof. intros Hi. unfold active_first. runs runs_index; [exact Hi|]. intros x _ Hx. returns. by exists x. Qed.

(** Mapping a list keeps what its elements are. *)
Lemma runs_mapM_fmap {A B C} (f : A -> res B) (g : A -> C) (h : B -> C) l :
  (forall x, x ∈ l -> runs (f x) (fun y => h y = g x)) -> runs (mapM f l) (fun ys => h <$> ys = g <$> l).
Proof.
  intros H. finish (runs_mapM _ (fun x y => h y = g x)); [exact H|]. intros ys _ HF. induction HF as [|x y l ys Hxy _ IH]; cbn; [done|]. f_equal; [done|].
  apply IH. intros z Hz. apply H. by right.
Qed.
Lemma fst_zip_fmap {A B C} (f : A -> C) (l : list A) (k : list B) : length l <= length k -> (fun p : A * B => f p.1) <$> zip l k = f <$> l.
Proof. revert k. induction l as [|x l IH]; intros [|y k] H; cbn in *; try done; try lia. f_equal. apply IH. lia. Qed.

Lemma fmap_concat {A B} (f : A -> B) (ls : list (list A)) : (f <$> concat ls : list B) = concat ((fun k : list A => f <$> k : list B) <$> ls).
Proof. induction ls as [|k ls IH]; cbn; [done|]. by rewrite fmap_app, IH. Qed.

Section inv.
Context {LE : LayoutElement} {LEL : LayoutElementLaws} {GE : Geometry} {GL : GeometryLaws} {LM : Libm} {KF : Keyframe}.
Context (cv : ClockView) (Hcv : cv_ok cv).

(** ** The scrolling layout *)
Section scrolling.
Import ScrollingSpace ScrollingPositions.
Implicit Types (s : ScrollingSpace) (c : Column.Column).

Lemma tiles_in_render_order_runs E c :
  env_ok E -> col_mid E c -> runs (tiles_in_render_order c) (fun l => ((fun x => x.1.1) <$> l) ≡ₚ Column.tiles c).
Proof.
  intros HE Hc. unfold tiles_in_render_order. pose proof (cm_active _ _ Hc) as Ha. runs tile_offsets_runs; [exact HE|apply Hc|]. intros os _ Hos.
  runs active_first_runs; [lia|]. intros os' _ (o & Ho & ->). runs runs_index; [exact Ha|]. intros t _ Ht. returns.
  rewrite <-list_fmap_compose. set (ts := (t, true) :: _).
  assert (Hl : length ts <= length (o :: delete (Column.active_tile_idx c) os)).
  { unfold ts. cbn. rewrite length_fmap, !length_delete by eauto. lia. }
  pose proof (fst_zip_fmap fst ts _ Hl) as Hz. match type of Hz with ?a = _ => change (a ≡ₚ Column.tiles c) end. rewrite Hz. unfold ts. cbn. rewrite <-list_fmap_compose, list_fmap_id. symmetry. by apply delete_perm.
Qed.

Lemma columns_in_render_order_runs s :
  space_ok s -> runs (columns_in_render_order s) (fun l => (fst <$> l) ≡ₚ columns s).
Proof.
  intros Hs. unfold columns_in_render_order. pose proof (space_length_data s (proj1 (proj1 Hs))) as Hld. pose proof (column_xs_length s) as Hlx.
  pose proof (so_le _ (proj1 (proj1 Hs))) as Hle. runs active_first_runs; [lia|]. intros xs _ (x & Hx & ->).
  eapply runs_bind with (R := fun cs => cs ≡ₚ columns s).
  - destruct (is_empty s) eqn:He; [returns; unfold is_empty in He; by destruct (columns s)|].
    finish active_first_runs; [by apply space_active_lt; [apply Hs|]|]. intros cs _ (c & Hc & ->). symmetry. by apply delete_perm.
  - intros cs _ Hcs. returns. rewrite fst_zip; [done|]. cbn. rewrite (Permutation_length Hcs), length_delete by eauto. lia.
Qed.

Lemma view_pos_runs s : space_ok s -> runs (view_pos cv s) (fun _ => True).
Proof.
  intros Hs. pose proof (so_le _ (proj1 (proj1 Hs))). unfold view_pos. runs column_x_runs; [rewrite (space_length_data s (proj1 (proj1 Hs))); lia|].
  intros x _ _. runs current_runs; [exact Hcv|exact (so_view _ (proj1 (proj1 Hs)))|]. done.
Qed.

Lemma concat_perm {A B} (f : A -> list B) (ls : list (list B)) (l : list A) : Forall2 (fun x k => k ≡ₚ f x) l ls -> concat ls ≡ₚ l ≫= f.
Proof. induction 1 as [|x k l ls Hx _ IH]; cbn; [done|]. by rewrite Hx, IH. Qed.

Lemma render_positions_runs round s :
  space_ok s -> runs (tiles_with_render_positions cv round s) (fun l => ((fun x => x.1.1) <$> l) ≡ₚ tiles s).
Proof.
  intros Hs. unfold tiles_with_render_positions. pose proof (so_env _ (proj1 (proj1 Hs))) as HE. runs view_pos_runs; [exact Hs|]. intros v _ _.
  runs columns_in_render_order_runs; [exact Hs|]. intros cs _ Hcs. cbv zeta.
  assert (Hall : forall c x, (c, x) ∈ cs -> col_ok (env s) c).
  { intros c x Hin. assert (Hc : c ∈ columns s) by (rewrite <-Hcs; by apply (list_elem_of_fmap_2 fst _ (c, x))).
    apply list_elem_of_lookup in Hc as [i Hi]. by eapply space_col. }
  runs (runs_mapM _ (fun (cx : Column.Column * f64) l => ((fun x : Tile.Tile * Point * bool => x.1.1) <$> l) ≡ₚ Column.tiles cx.1)).
  - intros [c x] Hin. specialize (Hall c x Hin). cbn [fst snd].
    runs move_offset_runs; [exact Hcv|apply (cb_move _ _ (cm_base _ _ (proj1 Hall)))|]. intros r _ _.
    pose proof (tiles_in_render_order_runs (env s) c HE (proj1 Hall)) as Ht. runs Ht. intros ts _ Hts.
    finish (runs_mapM_fmap _ (fun x : Tile.Tile * Point * bool => x.1.1) (fun x : Tile.Tile * Point * bool => x.1.1)).
    + intros [[t o] b] Htin. cbn [fst snd]. assert (Htc : t ∈ Column.tiles c) by (rewrite <-Hts; by apply (list_elem_of_fmap_2 (fun x : Tile.Tile * Point * bool => x.1.1) _ (t, o, b))).
      pose proof (cb_tiles _ _ (cm_base _ _ (proj1 Hall))) as HF. rewrite Forall_forall in HF.
      runs render_offset_runs; [exact Hcv|by apply HF|]. intros ro _ _. by returns.
    + intros ys _ ->. exact Hts.
  - intros ls _ HF. returns. unfold tiles. rewrite <-Hcs.
    assert (Hb : (fst <$> cs) ≫= Column.tiles = cs ≫= (fun cx => Column.tiles cx.1)) by (clear; induction cs as [|cx cs IH]; cbn; [done|]; by f_equal).
    rewrite Hb.
    rewrite fmap_concat. apply concat_perm. by rewrite Forall2_fmap_r.
Qed.

(** A window of the space is found among its positions. *)
Lemma find_position round s x :
  space_ok s -> x ∈ g_windows (grid s) ->
  runs (tiles_with_render_positions cv round s) (fun l => exists t o b, find (fun y : Tile.Tile * Point * bool => Column.has_id x y.1.1) l = Some (t, o, b) /\ Tile.id t = x /\ t ∈ tiles s).
Proof.
  intros Hs Hx. finish render_positions_runs; [exact Hs|]. intros l _ Hl. rewrite <-windows_tiles in Hx. apply list_elem_of_fmap in Hx as (t & -> & Ht).
  assert (Hin : exists o b, (t, o, b) ∈ l).
  { rewrite <-Hl in Ht. apply list_elem_of_fmap in Ht as ([[t' o] b] & -> & H). eauto. }
  destruct Hin as (o & b & Hin). destruct (find _ l) as [[[t' o'] b']|] eqn:Ef.
  - apply find_some in Ef as [Hin' Hid]. exists t', o', b'. split; [done|]. unfold Column.has_id in Hid. apply bool_decide_eq_true_1 in Hid. split; [exact Hid|].
    rewrite <-Hl. apply (list_elem_of_fmap_2 (fun x : Tile.Tile * Point * bool => x.1.1) _ (t', o', b')). by apply list_elem_of_In.
  - exfalso. pose proof (find_none _ _ Ef (t, o, b)) as H. cbn in H. unfold Column.has_id in H. rewrite bool_decide_eq_true_2 in H by done.
    apply list_elem_of_In in Hin. by specialize (H Hin).
Qed.

Lemma active_pending_runs s : space_ok s -> runs (is_active_pending_fullscreen s) (fun _ => True).
Proof.
  intros Hs. unfold is_active_pending_fullscreen. apply runs_if; intros He; [by returns|]. unfold active_column.
  runs runs_index; [by apply space_active_lt; [apply Hs|]|]. intros c _ _. by returns.
Qed.
Lemma above_top_runs s : space_ok s -> runs (render_above_top_layer s) (fun _ => True).
Proof.
  intros Hs. unfold render_above_top_layer. apply runs_if; intros He; [by returns|]. destruct (view_offset s); [|by returns..]. unfold active_column.
  runs runs_index; [by apply space_active_lt; [apply Hs|]|]. intros c _ _. by returns.
Qed.

(** ** The insert hint *)
Lemma column_hint_runs i s : space_ok s -> i <= length (columns s) -> runs (column_hint i s) (fun o => exists r, o = Some r).
Proof.
  intros Hs Hi. unfold column_hint. rewrite <-(space_length_data s (proj1 (proj1 Hs))) in Hi. cbv zeta. apply runs_if; intros E.
  - runs column_x_runs; [exact Hi|]. intros x _ _. returns. eauto.
  - rewrite (space_length_data s (proj1 (proj1 Hs))) in Hi. rewrite (proj2 (Nat.ltb_ge _ _) Hi).
    runs column_x_runs; [rewrite (space_length_data s (proj1 (proj1 Hs))); exact Hi|]. intros x _ _. returns. eauto.
Qed.
Lemma tile_hint_runs i j s c :
  space_ok s -> columns s !! i = Some c -> j <= length (Column.tiles c) -> runs (tile_hint i j s) (fun o => exists r, o = Some r).
Proof.
  intros Hs Hc Hj. pose proof (lookup_lt_Some _ _ _ Hc) as Hi. pose proof (space_col s i c Hs Hc) as Hok. pose proof (so_env _ (proj1 (proj1 Hs))) as HE.
  unfold tile_hint. rewrite (proj2 (Nat.ltb_ge _ _)) by lia. step index_ok; [exact Hc|]. rewrite (proj2 (Nat.ltb_ge _ _)) by lia.
  pose proof (cm_active _ _ (proj1 Hok)) as Ha. eapply runs_bind with (R := fun _ => True).
  - apply runs_if; intros _.
    + runs tile_offset_runs; [exact HE|apply Hok|lia|]. intros top _ _.
      runs runs_index; [rewrite (ColumnInv.length_data (env s)) by apply Hok; done|]. intros d _ _. by returns.
    + runs tile_offset_runs; [exact HE|apply Hok|lia|]. intros top _ _. by returns.
  - intros [h y] _ _. cbv zeta. pose proof (space_length_data s (proj1 (proj1 Hs))) as Hld. runs runs_index; [lia|]. intros w _ _.
    runs column_x_runs; [lia|]. intros x _ _. returns. eauto.
Qed.
Lemma insert_hint_runs p s : space_ok s -> position_ok s p -> runs (insert_hint_area cv p s) (fun o => exists r, o = Some r).
Proof.
  intros Hs Hp. unfold insert_hint_area. eapply runs_bind with (R := fun o => exists r, o = Some r).
  - destruct p as [i|i j|]; [by apply column_hint_runs| |done]. destruct Hp as (c & Hc & Hj). by eapply tile_hint_runs.
  - intros o _ (area & ->). eapply runs_bind with (R := fun _ => True).
    + apply runs_if; intros _; [apply runs_if; intros _|by apply view_pos_runs].
      * apply centered_runs, Hs.
      * apply fit_runs, Hs.
    + intros off _ _. returns. eauto.
Qed.
End scrolling.

(** ** The floating layout *)
Section floating.
Import FloatingSpace FloatingPositions.
Implicit Types (s : FloatingSpace).

Lemma floating_positions_runs (kin : Id -> Id -> bool) (round : bool) s :
  floating_ok kin s -> runs (tiles_with_render_positions cv round s) (fun l => fst <$> l = tiles s).
Proof.
  intros [Hs _]. unfold tiles_with_render_positions, tiles_with_offsets. finish (runs_mapM_fmap _ fst fst).
  - intros [t p] Hin. cbn [fst snd]. assert (Ht : t ∈ tiles s) by by eapply elem_of_zip_l. pose proof (fo_tiles s Hs) as HF. rewrite Forall_forall in HF.
    runs render_offset_runs; [exact Hcv|apply (HF t Ht)|]. intros o _ _. by returns.
  - intros l _ ->. rewrite fst_zip; [done|]. rewrite length_fmap, (len_data s Hs). done.
Qed.
Lemma find_floating_position (kin : Id -> Id -> bool) (round : bool) s (x : Id) :
  floating_ok kin s -> x ∈ FloatingInv.ids s ->
  runs (tiles_with_render_positions cv round s) (fun l => exists t o, find (fun y : Tile.Tile * Point => Column.has_id x y.1) l = Some (t, o) /\ Tile.id t = x /\ t ∈ tiles s).
Proof.
  intros Hs Hx. finish floating_positions_runs; [exact Hs|]. intros l _ Hl. apply list_elem_of_fmap in Hx as (t & -> & Ht).
  rewrite <-Hl in Ht. apply list_elem_of_fmap in Ht as ([t' o] & -> & Hin). destruct (find _ l) as [[t1 o1]|] eqn:Ef.
  - apply find_some in Ef as [Hin' Hid]. exists t1, o1. unfold Column.has_id in Hid. apply bool_decide_eq_true_1 in Hid. split_and!; [done|exact Hid|].
    rewrite <-Hl. apply (list_elem_of_fmap_2 fst _ (t1, o1)). by apply list_elem_of_In.
  - exfalso. pose proof (find_none _ _ Ef (t', o)) as H. cbn in H. unfold Column.has_id in H. rewrite bool_decide_eq_true_2 in H by done.
    apply list_elem_of_In in Hin. by specialize (H Hin).
Qed.
End floating.
End inv.
