(* ===== verification/Workspace.v ===== *)
(** * A workspace

    A scrolling layout and a floating layout over the same windows
    (layout/workspace.rs, [Workspace]): which of the two is active, moving windows
    between them, fullscreen and maximised windows that come back to where they
    were, options merged with the overrides of the workspace, and the output.
    Rendering, shadows, backgrounds and what is only told to clients (output enter
    and leave, preferred scales) are left out.

    The scale, transform and size of an output and the zone that layer surfaces
    leave are shared with the rest of the compositor; operations that read them
    take [st o], their values for an output [o] at that time. *)

From stdpp Require Import base numbers option list strings.
From Stdlib Require Import ZArith Lia SpecFloat.
From S2P Require Import Prelude.
From S2P Require Import F64.
From S2P Require Import Duration.
From S2P Require Import Clock.
From S2P Require Import Animation.
From S2P Require Import OutputName.
From S2P Require Import LayoutTypes.
From S2P Require Import Tile.
From S2P Require Import Floating.
From S2P Require Import Column.
From S2P Require Import Scrolling.
From S2P Require Import Positions.

(** ** Options of a workspace *)
Record TabIndicatorPart := {
  tip_off : bool;
  tip_on : bool;
  tip_hide_when_single_tab : option bool;
  tip_place_within_column : option bool;
  tip_gap : option f64;
  tip_width : option f64;
  tip_length : option (option f64);
  tip_position : option TabIndicatorPosition;
  tip_gaps_between_tabs : option f64
}.
Definition tab_indicator_merged_with (p : TabIndicatorPart) (c : TabIndicatorConfig) : TabIndicatorConfig :=
  {| ti_off := if tip_on p then false else ti_off c || tip_off p;
     hide_when_single_tab := default (hide_when_single_tab c) (tip_hide_when_single_tab p);
     place_within_column := default (place_within_column c) (tip_place_within_column p);
     ti_gap := default (ti_gap c) (tip_gap p); ti_width := default (ti_width c) (tip_width p);
     ti_length := default (ti_length c) (tip_length p); ti_position := default (ti_position c) (tip_position p);
     gaps_between_tabs := default (gaps_between_tabs c) (tip_gaps_between_tabs p); ti_style := ti_style c |}.

(** The layout settings an output or a workspace may override ([LayoutPart]).  [ov_drawing]
    stands for those that only matter for drawing: they are compared, not merged. *)
Record Overrides := {
  ov_empty_workspace_above_first : option bool;
  ov_border : option BorderRule;
  ov_tab_indicator : option TabIndicatorPart;
  ov_preset_column_widths : option (list PresetSize);
  ov_default_column_width : option (option PresetSize);
  ov_preset_window_heights : option (list PresetSize);
  ov_center_focused_column : option CenterFocusedColumn;
  ov_always_center_single_column : option bool;
  ov_default_column_display : option ColumnDisplay;
  ov_gaps : option f64;
  ov_struts : option Struts;
  ov_drawing : Z
}.

Definition default_presets : list PresetSize := PresetProportion <$> [lit 1 3; lit 1 2; lit 2 3].
Definition or_default_presets (l : list PresetSize) : list PresetSize := match l with [] => default_presets | _ => l end.

(** [Layout::merge_with] *)
Definition merge_layout (p : Overrides) (o : LayoutOptions) : LayoutOptions :=
  {| empty_workspace_above_first := default (empty_workspace_above_first o) (ov_empty_workspace_above_first p);
     gaps := default (gaps o) (ov_gaps p);
     struts := default (struts o) (ov_struts p);
     opt_border := match ov_border p with Some r => border_merged_with r (opt_border o) | None => opt_border o end;
     opt_tab_indicator := match ov_tab_indicator p with
                          | Some t => tab_indicator_merged_with t (opt_tab_indicator o)
                          | None => opt_tab_indicator o
                          end;
     center_focused_column := default (center_focused_column o) (ov_center_focused_column p);
     always_center_single_column := default (always_center_single_column o) (ov_always_center_single_column p);
     default_column_display := default (default_column_display o) (ov_default_column_display p);
     preset_column_widths := or_default_presets (default (preset_column_widths o) (ov_preset_column_widths p));
     preset_window_heights := or_default_presets (default (preset_window_heights o) (ov_preset_window_heights p));
     default_column_width := default (default_column_width o) (ov_default_column_width p);
     window_movement := window_movement o; horizontal_view_movement := horizontal_view_movement o; window_resize := window_resize o;
     window_open := window_open o; dnd_view_trigger_width := dnd_view_trigger_width o; dnd_view_delay_ms := dnd_view_delay_ms o;
     dnd_view_max_speed := dnd_view_max_speed o; disable_resize_throttling := disable_resize_throttling o;
     disable_transactions := disable_transactions o; deactivate_unfocused_windows := deactivate_unfocused_windows o |}.
Definition with_merged_overrides (p : option Overrides) (o : LayoutOptions) : LayoutOptions :=
  match p with Some p => merge_layout p o | None => o end.
Definition adjusted_for_scale (scale : f64) (o : LayoutOptions) : LayoutOptions :=
  {| empty_workspace_above_first := empty_workspace_above_first o; gaps := round_logical_in_physical_max1 scale (gaps o); struts := struts o; opt_border := opt_border o;
     opt_tab_indicator := opt_tab_indicator o; center_focused_column := center_focused_column o;
     always_center_single_column := always_center_single_column o; default_column_display := default_column_display o;
     preset_column_widths := preset_column_widths o; preset_window_heights := preset_window_heights o;
     default_column_width := default_column_width o; window_movement := window_movement o;
     horizontal_view_movement := horizontal_view_movement o; window_resize := window_resize o; window_open := window_open o;
     dnd_view_trigger_width := dnd_view_trigger_width o; dnd_view_delay_ms := dnd_view_delay_ms o;
     dnd_view_max_speed := dnd_view_max_speed o; disable_resize_throttling := disable_resize_throttling o;
     disable_transactions := disable_transactions o; deactivate_unfocused_windows := deactivate_unfocused_windows o |}.

(** Equality of overrides, with the code's [==] on numbers. *)
Definition border_rule_eqb (a b : BorderRule) : bool :=
  Bool.eqb (br_off a) (br_off b) && Bool.eqb (br_on a) (br_on b) && option_eqb feqb (br_width a) (br_width b).
Definition tab_indicator_part_eqb (a b : TabIndicatorPart) : bool :=
  Bool.eqb (tip_off a) (tip_off b) && Bool.eqb (tip_on a) (tip_on b)
  && option_eqb Bool.eqb (tip_hide_when_single_tab a) (tip_hide_when_single_tab b)
  && option_eqb Bool.eqb (tip_place_within_column a) (tip_place_within_column b)
  && option_eqb feqb (tip_gap a) (tip_gap b) && option_eqb feqb (tip_width a) (tip_width b)
  && option_eqb (option_eqb feqb) (tip_length a) (tip_length b) && bool_decide (tip_position a = tip_position b)
  && option_eqb feqb (tip_gaps_between_tabs a) (tip_gaps_between_tabs b).
Definition struts_eqb (a b : Struts) : bool :=
  feqb (strut_left a) (strut_left b) && feqb (strut_right a) (strut_right b) && feqb (strut_top a) (strut_top b)
  && feqb (strut_bottom a) (strut_bottom b).
Definition overrides_eqb (a b : Overrides) : bool :=
  option_eqb Bool.eqb (ov_empty_workspace_above_first a) (ov_empty_workspace_above_first b)
  && option_eqb border_rule_eqb (ov_border a) (ov_border b)
  && option_eqb tab_indicator_part_eqb (ov_tab_indicator a) (ov_tab_indicator b)
  && option_eqb presets_eqb (ov_preset_column_widths a) (ov_preset_column_widths b)
  && option_eqb (option_eqb preset_eqb) (ov_default_column_width a) (ov_default_column_width b)
  && option_eqb presets_eqb (ov_preset_window_heights a) (ov_preset_window_heights b)
  && bool_decide (ov_center_focused_column a = ov_center_focused_column b)
  && option_eqb Bool.eqb (ov_always_center_single_column a) (ov_always_center_single_column b)
  && bool_decide (ov_default_column_display a = ov_default_column_display b)
  && option_eqb feqb (ov_gaps a) (ov_gaps b) && option_eqb struts_eqb (ov_struts a) (ov_struts b)
  && (ov_drawing a =? ov_drawing b)%Z.

(** ** Outputs *)
Record OutputScale := { integer_scale : Z; fractional_scale : f64 }.
Class Outputs := {
  WOutput : Type;
  woutput_eq_dec :: EqDecision WOutput;
  woutput_name : WOutput -> OutputName;
  Transform : Type;
  transform_eq_dec :: EqDecision Transform;
  transform_normal : Transform
}.
Record OutputState `{!Outputs} := {
  current_scale : OutputScale;
  current_transform : Transform;
  output_size : Size;
  non_exclusive_zone : Rect
}.
(** [OutputId::new] and [OutputId::matches] *)
Definition output_id_new `{!Outputs} (o : WOutput) : string := format_make_model_serial_or_connector (woutput_name o).
Definition output_id_matches `{!Outputs} (id : string) (o : WOutput) : bool := matches (woutput_name o) id.

Inductive FloatingActive := ActiveNo | ActiveNoButRaised | ActiveYes.
#[export] Instance FloatingActive_eq_dec : EqDecision FloatingActive.
Proof. solve_decision. Defined.

Record WorkspaceConfig := { wc_name : string; wc_open_on_output : option string; wc_layout : option Overrides }.

(** ** The workspace *)
Module Workspace.
Section ops.
Context {LE : LayoutElement} {GE : Geometry} {LM : Libm} {KF : Keyframe} {OU : Outputs}.
Implicit Types (cv : ClockView) (kin : Id -> Id -> bool) (st : WOutput -> OutputState) (x : Id).

Record Workspace := {
  scrolling : ScrollingSpace.ScrollingSpace;
  floating : FloatingSpace.FloatingSpace;
  floating_is_active : FloatingActive;
  original_output : string;
  output : option WOutput;
  scale : OutputScale;
  transform : Transform;
  view_size : Size;
  working_area : Rect;
  base_options : LayoutOptions;
  options : LayoutOptions;
  name : option string;
  layout_config : option Overrides;
  id : Z
}.

Definition set_scrolling (v : ScrollingSpace.ScrollingSpace) (w : Workspace) : Workspace :=
  {| scrolling := v; floating := floating w; floating_is_active := floating_is_active w;
     original_output := original_output w; output := output w; scale := scale w; transform := transform w;
     view_size := view_size w; working_area := working_area w; base_options := base_options w; options := options w;
     name := name w; layout_config := layout_config w; id := id w |}.
Definition set_floating (v : FloatingSpace.FloatingSpace) (w : Workspace) : Workspace :=
  {| scrolling := scrolling w; floating := v; floating_is_active := floating_is_active w;
     original_output := original_output w; output := output w; scale := scale w; transform := transform w;
     view_size := view_size w; working_area := working_area w; base_options := base_options w; options := options w;
     name := name w; layout_config := layout_config w; id := id w |}.
Definition set_floating_is_active (v : FloatingActive) (w : Workspace) : Workspace :=
  {| scrolling := scrolling w; floating := floating w; floating_is_active := v; original_output := original_output w;
     output := output w; scale := scale w; transform := transform w; view_size := view_size w;
     working_area := working_area w; base_options := base_options w; options := options w; name := name w;
     layout_config := layout_config w; id := id w |}.
Definition set_original_output (v : string) (w : Workspace) : Workspace :=
  {| scrolling := scrolling w; floating := floating w; floating_is_active := floating_is_active w;
     original_output := v; output := output w; scale := scale w; transform := transform w; view_size := view_size w;
     working_area := working_area w; base_options := base_options w; options := options w; name := name w;
     layout_config := layout_config w; id := id w |}.
Definition set_output (v : option WOutput) (w : Workspace) : Workspace :=
  {| scrolling := scrolling w; floating := floating w; floating_is_active := floating_is_active w;
     original_output := original_output w; output := v; scale := scale w; transform := transform w;
     view_size := view_size w; working_area := working_area w; base_options := base_options w; options := options w;
     name := name w; layout_config := layout_config w; id := id w |}.
Definition set_name (v : option string) (w : Workspace) : Workspace :=
  {| scrolling := scrolling w; floating := floating w; floating_is_active := floating_is_active w;
     original_output := original_output w; output := output w; scale := scale w; transform := transform w;
     view_size := view_size w; working_area := working_area w; base_options := base_options w; options := options w;
     name := v; layout_config := layout_config w; id := id w |}.
Definition set_layout_config (v : option Overrides) (w : Workspace) : Workspace :=
  {| scrolling := scrolling w; floating := floating w; floating_is_active := floating_is_active w;
     original_output := original_output w; output := output w; scale := scale w; transform := transform w;
     view_size := view_size w; working_area := working_area w; base_options := base_options w; options := options w;
     name := name w; layout_config := v; id := id w |}.

Implicit Types (w : Workspace).

Definition options_for (scale : f64) (part : option Overrides) (base : LayoutOptions) : LayoutOptions :=
  adjusted_for_scale scale (with_merged_overrides part base).

Definition make (original_output : string) (output : option WOutput) (scale : OutputScale) (transform : Transform) (view_size : Size)
    (working_area : Rect) (config : option WorkspaceConfig) (base : LayoutOptions) (id : Z) : Workspace :=
  let part := config ≫= wc_layout in
  let o := options_for (fractional_scale scale) part base in
  {| scrolling := ScrollingSpace.new view_size working_area (fractional_scale scale) o;
     floating := FloatingSpace.new view_size working_area (fractional_scale scale) o; floating_is_active := ActiveNo;
     original_output := original_output; output := output; scale := scale; transform := transform; view_size := view_size;
     working_area := working_area; base_options := base; options := o; name := wc_name <$> config; layout_config := part; id := id |}.
Definition new_with_config st (o : WOutput) (config : option WorkspaceConfig) (base : LayoutOptions) (id : Z) : Workspace :=
  make (default (output_id_new o) (config ≫= wc_open_on_output)) (Some o) (current_scale (st o)) (current_transform (st o))
    (output_size (st o)) (non_exclusive_zone (st o)) config base id.
Definition new st (o : WOutput) (base : LayoutOptions) (id : Z) : Workspace := new_with_config st o None base id.
Definition new_with_config_no_outputs (config : option WorkspaceConfig) (base : LayoutOptions) (id : Z) : Workspace :=
  let size := (of_Z 1280, of_Z 720) in
  make (default EmptyString (config ≫= wc_open_on_output)) None {| integer_scale := 1; fractional_scale := f1 |} transform_normal size
    ((f0, f0), size) config base id.
Definition new_no_outputs (base : LayoutOptions) (id : Z) : Workspace := new_with_config_no_outputs None base id.

(** ** Queries *)
Definition is_active_floating w : bool := bool_decide (floating_is_active w = ActiveYes).
Definition unname w : Workspace := set_name None w.
Definition tiles w : list Tile.Tile := ScrollingSpace.tiles (scrolling w) ++ FloatingSpace.tiles (floating w).
Definition has_windows w : bool := match tiles w with [] => false | _ => true end.
Definition has_window x w : bool := existsb (Column.has_id x) (tiles w).
Definition has_windows_or_name w : bool := has_windows w || match name w with Some _ => true | None => false end.
Definition is_floating x w : bool := FloatingSpace.has_window x (floating w).
Definition active_window w : res (option Id) :=
  if is_active_floating w then mret (win_id <$> FloatingSpace.active_window (floating w)) else ScrollingSpace.active_window (scrolling w).
(** Whether an operation is for the floating layout: on the given window, or on
    the active one. *)
Definition on_floating_window (window : option Id) w : bool :=
  match window with Some x => is_floating x w | None => is_active_floating w end.
Definition is_floating_visible w : res bool :=
  b ← ScrollingPositions.render_above_top_layer (scrolling w);
  mret (bool_decide (floating_is_active w = ActiveYes) || bool_decide (floating_is_active w = ActiveNoButRaised) || negb b).
Definition tiles_with_render_positions cv w : res (list (Tile.Tile * Point * bool)) :=
  fl ← FloatingPositions.tiles_with_render_positions cv true (floating w);
  visible ← is_floating_visible w;
  sc ← ScrollingPositions.tiles_with_render_positions cv true (scrolling w);
  mret (((fun tp : Tile.Tile * Point => (tp, visible)) <$> fl) ++ sc).

(** ** Running the operation of one of the layouts *)
Definition on_scrolling (f : ScrollingSpace.ScrollingSpace -> res ScrollingSpace.ScrollingSpace) w : res Workspace :=
  s ← f (scrolling w); mret (set_scrolling s w).
Definition on_floating (f : FloatingSpace.FloatingSpace -> res FloatingSpace.FloatingSpace) w : res Workspace :=
  s ← f (floating w); mret (set_floating s w).
Definition scrolling_returns {A} (f : ScrollingSpace.ScrollingSpace -> res (A * ScrollingSpace.ScrollingSpace)) w : res (A * Workspace) :=
  '(a, s) ← f (scrolling w); mret (a, set_scrolling s w).
Definition floating_returns {A} (f : FloatingSpace.FloatingSpace -> res (A * FloatingSpace.FloatingSpace)) w : res (A * Workspace) :=
  '(a, s) ← f (floating w); mret (a, set_floating s w).
Definition second {A} (m : res (A * Workspace)) : res Workspace := '(_, w) ← m; mret w.
Definition unless_floating (f : ScrollingSpace.ScrollingSpace -> res ScrollingSpace.ScrollingSpace) w : res Workspace :=
  if is_active_floating w then mret w else on_scrolling f w.

(** ** Time and configuration *)
Definition advance_animations cv w : res Workspace :=
  w ← on_scrolling (ScrollingSpace.advance_animations cv) w; on_floating (FloatingSpace.advance_animations cv) w.

(** Hands the view and the options of the workspace to its layouts. *)
Definition update_spaces cv (o : LayoutOptions) w : res Workspace :=
  let sc := fractional_scale (scale w) in
  w ← on_scrolling (ScrollingSpace.update_config cv (view_size w) (working_area w) sc o) w;
  on_floating (FloatingSpace.update_config (view_size w) (working_area w) sc o) w.
Definition with_options (base o : LayoutOptions) w : Workspace :=
  {| scrolling := scrolling w; floating := floating w; floating_is_active := floating_is_active w; original_output := original_output w;
     output := output w; scale := scale w; transform := transform w; view_size := view_size w; working_area := working_area w;
     base_options := base; options := o; name := name w; layout_config := layout_config w; id := id w |}.
Definition update_config cv (base : LayoutOptions) w : res Workspace :=
  let o := options_for (fractional_scale (scale w)) (layout_config w) base in
  w ← update_spaces cv o w;
  mret (with_options base o w).
Definition update_layout_config cv (part : option Overrides) w : res Workspace :=
  if option_eqb overrides_eqb (layout_config w) part then mret w
  else update_config cv (base_options w) (set_layout_config part w).

Definition with_view (sc : OutputScale) (tr : Transform) (size : Size) (area : Rect) w : Workspace :=
  {| scrolling := scrolling w; floating := floating w; floating_is_active := floating_is_active w; original_output := original_output w;
     output := output w; scale := sc; transform := tr; view_size := size; working_area := area; base_options := base_options w;
     options := options w; name := name w; layout_config := layout_config w; id := id w |}.
Definition set_view_size cv (sc : OutputScale) (tr : Transform) (size : Size) (area : Rect) w : res Workspace :=
  let scale_transform_changed :=
    negb (bool_decide (transform w = tr)) || negb (integer_scale (scale w) =? integer_scale sc)%Z
    || fneb (fractional_scale (scale w)) (fractional_scale sc) in
  if negb scale_transform_changed && pair_eqb (view_size w) size && rect_eqb (working_area w) area then mret w
  else
    let fractional_scale_changed := fneb (fractional_scale (scale w)) (fractional_scale sc) in
    let w := with_view sc tr size area w in
    if fractional_scale_changed then update_config cv (base_options w) w else update_spaces cv (options w) w.
Definition update_output_size cv st w : res Workspace :=
  o ← unwrap (output w);
  set_view_size cv (current_scale (st o)) (current_transform (st o)) (output_size (st o)) (non_exclusive_zone (st o)) w.
Definition set_current_output cv st (o : option WOutput) w : res Workspace :=
  if bool_decide (output w = o) then mret w
  else
    let w := set_output o w in
    match o with
    | Some o => let w := if output_id_matches (original_output w) o then set_original_output (output_id_new o) w else w in
                update_output_size cv st w
    | None => mret w
    end.

Definition make_tile (win : W) w : Tile.Tile := Tile.new win (view_size w) (fractional_scale (scale w)) (options w).

(** ** Adding and removing *)
Definition activate_layout (activate : bool) (a : FloatingActive) w : Workspace := if activate then set_floating_is_active a w else w.
Definition add_floating kin (t : Tile.Tile) (activate : bool) w : res Workspace :=
  w ← on_floating (FloatingSpace.add_tile kin t activate) w;
  mret (activate_layout (activate || ScrollingSpace.is_empty (scrolling w)) ActiveYes w).
Definition add_scrolling cv (i : option nat) (t : Tile.Tile) (activate : bool) (width : ColumnWidth) (full : bool) w : res Workspace :=
  w ← on_scrolling (ScrollingSpace.add_tile cv i t activate width full None) w;
  mret (activate_layout activate ActiveNo w).

(** A floating position in the middle of a window of the scrolling layout. *)
Definition pos_above cv (next_to : Id) (t : Tile.Tile) w : res Point :=
  ps ← ScrollingPositions.tiles_with_render_positions cv true (scrolling w);
  '(t', render_pos, _) ← unwrap (find (fun y : Tile.Tile * Point * bool => Column.has_id next_to y.1.1) ps);
  let diff := pair_sub (Tile.tile_size t') (Tile.tile_size t) in
  let pos := pair_add render_pos ((diff.1 / of_Z 2)%F, (diff.2 / of_Z 2)%F) in
  mret (FloatingSpace.logical_to_size_frac (FloatingSpace.clamp_within_working_area pos (Tile.tile_size t) (floating w)) (floating w)).

Definition add_tile cv kin (t : Tile.Tile) (target : WorkspaceAddWindowTarget Id) (activate : ActivateWindow) (width : ColumnWidth)
    (full is_floating : bool) w : res Workspace :=
  let t := Tile.set_restore_to_floating is_floating t in
  let floats := is_floating && is_normal (win_pending_sizing_mode (Tile.window t)) in
  match target with
  | Auto =>
      fullscreen ← ScrollingPositions.is_active_pending_fullscreen (scrolling w);
      let activate := map_smart (negb fullscreen) activate in
      if floats then add_floating kin t activate w else add_scrolling cv None t activate width full w
  | NewColumnAt i => add_scrolling cv (Some i) t (map_smart false activate) width full w
  | NextTo next_to =>
      smart ← match activate with
              | Smart => o ← active_window w; a ← unwrap o; mret (bool_decide (a = next_to))
              | _ => mret false
              end;
      let activate := map_smart smart activate in
      let floating_has_window := FloatingSpace.has_window next_to (floating w) in
      if floats then
        if floating_has_window then
          w ← on_floating (FloatingSpace.add_tile_above kin next_to t activate) w;
          mret (activate_layout (activate || ScrollingSpace.is_empty (scrolling w)) ActiveYes w)
        else
          pos ← pos_above cv next_to t w;
          add_floating kin (Tile.set_floating_pos (Some pos) t) activate w
      else if floating_has_window then add_scrolling cv None t activate width full w
      else
        w ← on_scrolling (ScrollingSpace.add_tile_right_of cv next_to t activate width full) w;
        mret (activate_layout activate ActiveNo w)
  end.
Definition add_tile_to_column cv (i : nat) (j : option nat) (t : Tile.Tile) (activate : bool) w : res Workspace :=
  w ← on_scrolling (ScrollingSpace.add_tile_to_column cv i j t activate) w;
  mret (activate_layout activate ActiveNo w).
Definition add_column cv (c : Column.Column) (activate : bool) w : res Workspace :=
  w ← on_scrolling (ScrollingSpace.add_column cv None c activate None) w;
  mret (activate_layout activate ActiveNo w).

Definition update_focus_floating_tiling_after_removing (removed_from_floating : bool) w : Workspace :=
  if removed_from_floating then
    if FloatingSpace.is_empty (floating w) then set_floating_is_active ActiveNo w else w
  else if ScrollingSpace.is_empty (scrolling w) && negb (FloatingSpace.is_empty (floating w)) then set_floating_is_active ActiveYes w
  else w.
Definition remove_tile cv x (tr : Transaction) w : res (RemovedTile Tile.Tile * Workspace) :=
  let from_floating := FloatingSpace.has_window x (floating w) in
  '(r, w) ← (if from_floating then floating_returns (FloatingSpace.remove_tile x) w
             else scrolling_returns (ScrollingSpace.remove_tile cv x tr) w);
  mret (r, update_focus_floating_tiling_after_removing from_floating w).
Definition remove_active_tile cv (tr : Transaction) w : res (option (RemovedTile Tile.Tile * Workspace)) :=
  if is_active_floating w then
    o ← FloatingSpace.remove_active_tile (floating w);
    mret (option_map (fun rs : RemovedTile Tile.Tile * FloatingSpace.FloatingSpace =>
             (rs.1, update_focus_floating_tiling_after_removing true (set_floating rs.2 w))) o)
  else
    o ← ScrollingSpace.remove_active_tile cv tr (scrolling w);
    mret (option_map (fun rs : RemovedTile Tile.Tile * ScrollingSpace.ScrollingSpace =>
             (rs.1, update_focus_floating_tiling_after_removing false (set_scrolling rs.2 w))) o).
Definition remove_active_column cv w : res (option (Column.Column * Workspace)) :=
  if is_active_floating w then mret None
  else
    o ← ScrollingSpace.remove_active_column cv (scrolling w);
    mret (option_map (fun cs : Column.Column * ScrollingSpace.ScrollingSpace =>
             (cs.1, update_focus_floating_tiling_after_removing false (set_scrolling cs.2 w))) o).

(** ** Windows that are about to open *)
Definition resolve_default_width (default_width : option (option PresetSize)) (is_floating : bool) w : option PresetSize :=
  match default_width with
  | Some p => p
  | None => if is_floating then None else default_column_width (options w)
  end.
Definition resolve_default_height (default_height : option (option PresetSize)) : option PresetSize :=
  match default_height with Some p => p | None => None end.
(** [mm] are the minimum and maximum sizes with the window rules applied. *)
Definition new_window_size (width height : option PresetSize) (is_floating : bool) (rules : WindowRules) (mm : (Z * Z) * (Z * Z)) w
    : Z * Z :=
  let size := if is_floating then FloatingSpace.new_window_size width height rules (floating w)
              else ScrollingPositions.new_window_size width height rules (scrolling w) in
  let '(min_size, max_size) := mm in
  (ensure_min_max_size_maybe_zero size.1 min_size.1 max_size.1,
   if (min_size.2 =? max_size.2)%Z then ensure_min_max_size size.2 min_size.2 max_size.2
   else if (0 <? size.2)%Z then Z.max size.2 min_size.2 else size.2).
Definition resolve_scrolling_width (win : W) (width : option PresetSize) w : ColumnWidth :=
  match default (PresetFixed (win_size win).1) width with
  | PresetFixed f =>
      let border := border_merged_with (rule_border (win_rules win)) (opt_border (options w)) in
      Fixed (if b_off border then of_Z f else (of_Z f + b_width border * of_Z 2)%F)
  | PresetProportion p => Proportion p
  end.

(** ** Focus *)
Definition focus_left cv kin w : res (bool * Workspace) :=
  if is_active_floating w then floating_returns (FloatingSpace.focus_left kin) w else scrolling_returns (ScrollingSpace.focus_left cv) w.
Definition focus_right cv kin w : res (bool * Workspace) :=
  if is_active_floating w then floating_returns (FloatingSpace.focus_right kin) w else scrolling_returns (ScrollingSpace.focus_right cv) w.
Definition focus_down cv kin w : res (bool * Workspace) :=
  if is_active_floating w then floating_returns (FloatingSpace.focus_down kin) w else scrolling_returns ScrollingSpace.focus_down w.
Definition focus_up cv kin w : res (bool * Workspace) :=
  if is_active_floating w then floating_returns (FloatingSpace.focus_up kin) w else scrolling_returns ScrollingSpace.focus_up w.
Definition focus_column_first cv kin w : res Workspace :=
  if is_active_floating w then on_floating (FloatingSpace.focus_leftmost kin) w else on_scrolling (ScrollingSpace.focus_column_first cv) w.
Definition focus_column_last cv kin w : res Workspace :=
  if is_active_floating w then on_floating (FloatingSpace.focus_rightmost kin) w else on_scrolling (ScrollingSpace.focus_column_last cv) w.
Definition focus_window_top kin w : res Workspace :=
  if is_active_floating w then on_floating (FloatingSpace.focus_topmost kin) w else on_scrolling ScrollingSpace.focus_top w.
Definition focus_window_bottom kin w : res Workspace :=
  if is_active_floating w then on_floating (FloatingSpace.focus_bottommost kin) w else on_scrolling ScrollingSpace.focus_bottom w.
(** Moves the focus, or to the other end if that is not possible. *)
Definition or_else (focus : Workspace -> res (bool * Workspace)) (other : Workspace -> res Workspace) w : res Workspace :=
  '(b, w) ← focus w; if b : bool then mret w else other w.
Definition focus_column_right_or_first cv kin : Workspace -> res Workspace := or_else (focus_right cv kin) (focus_column_first cv kin).
Definition focus_column_left_or_last cv kin : Workspace -> res Workspace := or_else (focus_left cv kin) (focus_column_last cv kin).
Definition focus_window_down_or_top cv kin : Workspace -> res Workspace := or_else (focus_down cv kin) (focus_window_top kin).
Definition focus_window_up_or_bottom cv kin : Workspace -> res Workspace := or_else (focus_up cv kin) (focus_window_bottom kin).
Definition focus_down_or_left cv kin w : res Workspace :=
  if is_active_floating w then second (floating_returns (FloatingSpace.focus_down kin) w)
  else on_scrolling (ScrollingSpace.focus_down_or_left cv) w.
Definition focus_down_or_right cv kin w : res Workspace :=
  if is_active_floating w then second (floating_returns (FloatingSpace.focus_down kin) w)
  else on_scrolling (ScrollingSpace.focus_down_or_right cv) w.
Definition focus_up_or_left cv kin w : res Workspace :=
  if is_active_floating w then second (floating_returns (FloatingSpace.focus_up kin) w)
  else on_scrolling (ScrollingSpace.focus_up_or_left cv) w.
Definition focus_up_or_right cv kin w : res Workspace :=
  if is_active_floating w then second (floating_returns (FloatingSpace.focus_up kin) w)
  else on_scrolling (ScrollingSpace.focus_up_or_right cv) w.

Definition switch_focus_floating_tiling w : Workspace :=
  if FloatingSpace.is_empty (floating w) then w
  else if ScrollingSpace.is_empty (scrolling w) then w
  else set_floating_is_active (if is_active_floating w then ActiveNo else ActiveYes) w.
Definition focus_floating w : Workspace := if is_active_floating w then w else switch_focus_floating_tiling w.
Definition focus_tiling w : Workspace := if is_active_floating w then switch_focus_floating_tiling w else w.
Definition focus_column cv (i : nat) w : res Workspace :=
  on_scrolling (ScrollingSpace.focus_column cv i) (if is_active_floating w then focus_tiling w else w).
Definition focus_window_in_column (i : Z) : Workspace -> res Workspace := unless_floating (ScrollingSpace.focus_window_in_column i).

(** ** Moving *)
Definition move_left cv w : res (bool * Workspace) :=
  if is_active_floating w then w ← on_floating (FloatingSpace.move_left cv) w; mret (true, w)
  else scrolling_returns (ScrollingSpace.move_left cv) w.
Definition move_right cv w : res (bool * Workspace) :=
  if is_active_floating w then w ← on_floating (FloatingSpace.move_right cv) w; mret (true, w)
  else scrolling_returns (ScrollingSpace.move_right cv) w.
Definition move_down cv w : res (bool * Workspace) :=
  if is_active_floating w then w ← on_floating (FloatingSpace.move_down cv) w; mret (true, w)
  else scrolling_returns (ScrollingSpace.move_down cv) w.
Definition move_up cv w : res (bool * Workspace) :=
  if is_active_floating w then w ← on_floating (FloatingSpace.move_up cv) w; mret (true, w)
  else scrolling_returns (ScrollingSpace.move_up cv) w.
Definition move_column_to_first cv : Workspace -> res Workspace := unless_floating (ScrollingSpace.move_column_to_first cv).
Definition move_column_to_last cv : Workspace -> res Workspace := unless_floating (ScrollingSpace.move_column_to_last cv).
Definition move_column_to_index cv (i : nat) : Workspace -> res Workspace := unless_floating (ScrollingSpace.move_column_to_index cv i).
Definition consume_or_expel_window_left cv (window : option Id) w : res Workspace :=
  if on_floating_window window w then mret w else on_scrolling (ScrollingSpace.consume_or_expel_window_left cv window) w.
Definition consume_or_expel_window_right cv (window : option Id) w : res Workspace :=
  if on_floating_window window w then mret w else on_scrolling (ScrollingSpace.consume_or_expel_window_right cv window) w.
Definition consume_into_column cv : Workspace -> res Workspace := unless_floating (ScrollingSpace.consume_into_column cv).
Definition expel_from_column cv : Workspace -> res Workspace := unless_floating (ScrollingSpace.expel_from_column cv).
Definition swap_window_in_direction cv (d : ScrollDirection) : Workspace -> res Workspace :=
  unless_floating (ScrollingSpace.swap_window_in_direction cv d).
Definition toggle_column_tabbed_display cv : Workspace -> res Workspace :=
  unless_floating (ScrollingSpace.toggle_column_tabbed_display cv).
Definition set_column_display cv (d : ColumnDisplay) : Workspace -> res Workspace := unless_floating (ScrollingSpace.set_column_display cv d).
Definition center_column cv w : res Workspace :=
  if is_active_floating w then on_floating (FloatingSpace.center_window cv None) w else on_scrolling (ScrollingSpace.center_column cv) w.
Definition center_window cv (window : option Id) w : res Workspace :=
  if on_floating_window window w then on_floating (FloatingSpace.center_window cv window) w
  else on_scrolling (ScrollingSpace.center_window cv window) w.
Definition center_visible_columns cv : Workspace -> res Workspace := unless_floating (ScrollingSpace.center_visible_columns cv).

(** ** Sizes *)
Definition toggle_width (forwards : bool) w : res Workspace :=
  if is_active_floating w then on_floating (FloatingSpace.toggle_window_width None forwards) w
  else on_scrolling (ScrollingSpace.toggle_width forwards) w.
Definition toggle_full_width : Workspace -> res Workspace := unless_floating ScrollingSpace.toggle_full_width.
Definition set_column_width (change : SizeChange) w : res Workspace :=
  if is_active_floating w then on_floating (FloatingSpace.set_window_width None change true) w
  else on_scrolling (ScrollingSpace.set_window_width None change) w.
Definition set_window_width (window : option Id) (change : SizeChange) w : res Workspace :=
  if on_floating_window window w then on_floating (FloatingSpace.set_window_width window change true) w
  else on_scrolling (ScrollingSpace.set_window_width window change) w.
Definition set_window_height (window : option Id) (change : SizeChange) w : res Workspace :=
  if on_floating_window window w then on_floating (FloatingSpace.set_window_height window change true) w
  else on_scrolling (ScrollingSpace.set_window_height window change) w.
Definition reset_window_height (window : option Id) w : res Workspace :=
  if on_floating_window window w then mret w else on_scrolling (ScrollingSpace.reset_window_height window) w.
Definition toggle_window_width (window : option Id) (forwards : bool) w : res Workspace :=
  if on_floating_window window w then on_floating (FloatingSpace.toggle_window_width window forwards) w
  else on_scrolling (ScrollingSpace.toggle_window_width window forwards) w.
Definition toggle_window_height (window : option Id) (forwards : bool) w : res Workspace :=
  if on_floating_window window w then on_floating (FloatingSpace.toggle_window_height window forwards) w
  else on_scrolling (ScrollingSpace.toggle_window_height window forwards) w.
Definition expand_column_to_available_width cv : Workspace -> res Workspace :=
  unless_floating (ScrollingSpace.expand_column_to_available_width cv).

(** ** Between the layouts *)
Definition update_scrolling_tile x (f : Tile.Tile -> res Tile.Tile) w : res Workspace :=
  on_scrolling (fun s => '(i, j) ← ScrollingSpace.source (Some x) s; ScrollingSpace.update_column i (Column.update_tile j f) s) w.
Definition find_position x (ps : list (Tile.Tile * Point * bool)) : res Point :=
  y ← unwrap (find (fun y : Tile.Tile * Point * bool => Column.has_id x y.1.1) ps); mret y.1.2.
(** The tile of a window and where it is, not rounded to pixels, through
    [tiles_with_render_positions_mut]; [f] gets the position. *)
Definition update_positioned_tile cv x (f : Point -> Tile.Tile -> res Tile.Tile) w : res Workspace :=
  match FloatingSpace.idx_of x (floating w) with
  | Some i =>
      ps ← FloatingPositions.tiles_with_render_positions cv false (floating w);
      '(_, pos) ← index ps i;
      on_floating (FloatingSpace.update_tile i (f pos)) w
  | None =>
      ps ← ScrollingPositions.tiles_with_render_positions cv false (scrolling w);
      pos ← find_position x ps;
      update_scrolling_tile x (f pos) w
  end.

Definition to_scrolling cv x (activate : bool) w : res Workspace :=
  '(r, w) ← floating_returns (FloatingSpace.remove_tile x) w;
  w ← on_scrolling (ScrollingSpace.add_tile cv None (rt_tile r) activate (rt_width r) (rt_is_full_width r) None) w;
  mret (activate_layout activate ActiveNo w).
Definition to_floating cv kin x (render_pos : Point) (activate : bool) w : res Workspace :=
  '(r, w) ← scrolling_returns (ScrollingSpace.remove_tile cv x new_transaction) w;
  let t := Tile.stop_move_animations (rt_tile r) in
  let t := match FloatingSpace.stored_or_default_tile_pos t (floating w) with
           | Some _ => t
           | None =>
               let offset := if bool_decide (center_focused_column (options w) = CenterAlways) then (f0, f0) else (of_Z 50, of_Z 50) in
               let pos := FloatingSpace.clamp_within_working_area (pair_add render_pos offset) (Tile.tile_size t) (floating w) in
               Tile.set_floating_pos (Some (FloatingSpace.logical_to_size_frac pos (floating w))) t
           end in
  w ← on_floating (FloatingSpace.add_tile kin t activate) w;
  mret (activate_layout activate ActiveYes w).
Definition toggle_window_floating cv kin (window : option Id) w : res Workspace :=
  active ← active_window w;
  let target_is_active := match window with Some x => bool_decide (Some x = active) | None => true end in
  match (match window with Some x => Some x | None => active end) with
  | None => mret w
  | Some x =>
      ps ← tiles_with_render_positions cv w;
      render_pos ← find_position x ps;
      w ← (if FloatingSpace.has_window x (floating w) then to_scrolling cv x target_is_active w
           else to_floating cv kin x render_pos target_is_active w);
      update_positioned_tile cv x (fun new_pos => Tile.animate_move_from cv (pair_sub render_pos new_pos)) w
  end.
Definition set_window_floating cv kin (window : option Id) (floating : bool) w : res Workspace :=
  if Bool.eqb (on_floating_window window w) floating then mret w else toggle_window_floating cv kin window w.

(** [set_fullscreen] and [set_maximized] on a window of the scrolling layout:
    when it leaves its normal size it remembers whether to float afterwards. *)
Definition set_tiled cv (set : ClockView -> Id -> bool -> ScrollingSpace.ScrollingSpace -> res (bool * ScrollingSpace.ScrollingSpace))
    x (b restore_to_floating : bool) w : res Workspace :=
  t ← unwrap (find (Column.has_id x) (ScrollingSpace.tiles (scrolling w)));
  let was_normal := is_normal (win_pending_sizing_mode (Tile.window t)) in
  '(_, w) ← scrolling_returns (set cv x b) w;
  update_scrolling_tile x (fun t =>
    mret (if was_normal && negb (is_normal (win_pending_sizing_mode (Tile.window t))) then Tile.set_restore_to_floating restore_to_floating t
          else t)) w.
Definition set_fullscreen cv kin x (b : bool) w : res Workspace :=
  let tiled := set_tiled cv ScrollingSpace.set_fullscreen x b in
  if FloatingSpace.has_window x (floating w) then
    if b then w ← toggle_window_floating cv kin (Some x) w; tiled true w else mret w
  else if negb b then
    c ← unwrap (find (Column.contains x) (ScrollingSpace.columns (scrolling w)));
    if Column.is_pending_fullscreen c && negb (Column.is_pending_maximized c) then
      t ← unwrap (find (Column.has_id x) (Column.tiles c));
      if Tile.restore_to_floating t then toggle_window_floating cv kin (Some x) w else tiled false w
    else tiled false w
  else tiled false w.
Definition set_maximized cv kin x (b : bool) w : res Workspace :=
  let tiled := set_tiled cv ScrollingSpace.set_maximized x b in
  if FloatingSpace.has_window x (floating w) then
    if b then w ← toggle_window_floating cv kin (Some x) w; tiled true w else mret w
  else if negb b then
    t ← unwrap (find (Column.has_id x) (ScrollingSpace.tiles (scrolling w)));
    if is_maximized (win_pending_sizing_mode (Tile.window t)) && Tile.restore_to_floating t then toggle_window_floating cv kin (Some x) w
    else tiled false w
  else tiled false w.
Definition toggle_fullscreen cv kin x w : res Workspace :=
  t ← unwrap (find (Column.has_id x) (tiles w));
  set_fullscreen cv kin x (negb (is_fullscreen (win_pending_sizing_mode (Tile.window t)))) w.
Definition toggle_maximized cv kin x w : res Workspace :=
  let current := match find (Column.contains x) (ScrollingSpace.columns (scrolling w)) with
                 | Some c => Column.is_pending_maximized c
                 | None => false
                 end in
  set_maximized cv kin x (negb current) w.

(** A position for a window that is not floating now; relative ones need a
    position to start from. *)
Definition is_absolute (c : PositionChange) : bool := match c with PosSetFixed _ | PosSetProportion _ => true | _ => false end.
Definition store_floating_pos (x y : PositionChange) (fl : FloatingSpace.FloatingSpace) (t : Tile.Tile) : res Tile.Tile :=
  match (match FloatingSpace.stored_or_default_tile_pos t fl with
         | Some p => Some p
         | None => if is_absolute x && is_absolute y then Some (f0, f0) else None
         end) with
  | None => mret t
  | Some pos =>
      let area := FloatingSpace.working_area fl in
      px ← FloatingSpace.changed_coordinate area.2.1 area.1.1 pos.1 x;
      py ← FloatingSpace.changed_coordinate area.2.2 area.1.2 pos.2 y;
      mret (Tile.set_floating_pos (Some (FloatingSpace.logical_to_size_frac (px, py) fl)) t)
  end.
Definition move_floating_window cv (window : option Id) (x y : PositionChange) (animate : bool) w : res Workspace :=
  if on_floating_window window w then on_floating (FloatingSpace.move_window cv window x y animate) w
  else
    match window with
    | Some z => update_scrolling_tile z (store_floating_pos x y (floating w)) w
    | None =>
        if ScrollingSpace.is_empty (scrolling w) then mret w
        else on_scrolling (fun s => '(i, j) ← ScrollingSpace.source None s;
                                    ScrollingSpace.update_column i (Column.update_tile j (store_floating_pos x y (floating w))) s) w
    end.

(** ** Windows of either layout *)
Definition start_open_animation cv x w : res (bool * Workspace) :=
  '(b, w) ← scrolling_returns (ScrollingSpace.start_open_animation cv x) w;
  if b : bool then mret (true, w) else floating_returns (FloatingSpace.start_open_animation cv x) w.
Definition descendants_added kin x : Workspace -> res (bool * Workspace) := floating_returns (FloatingSpace.descendants_added kin x).
Definition update_window cv x (serial : option Z) w : res Workspace :=
  '(b, w) ← floating_returns (FloatingSpace.update_window cv x serial) w;
  if b : bool then mret w else on_scrolling (ScrollingSpace.update_window cv x serial) w.
Definition scroll_amount_to_activate x w : res f64 :=
  if FloatingSpace.has_window x (floating w) then mret f0 else ScrollingSpace.scroll_amount_to_activate x (scrolling w).
Definition activate_window cv kin x w : res (bool * Workspace) :=
  '(b, w) ← floating_returns (FloatingSpace.activate_window kin x) w;
  if b : bool then mret (true, set_floating_is_active ActiveYes w)
  else
    '(b, w) ← scrolling_returns (ScrollingSpace.activate_window cv x) w;
    mret (b, activate_layout b ActiveNo w).
Definition activate_window_without_raising cv x w : res (bool * Workspace) :=
  '(b, w) ← floating_returns (fun s => mret (FloatingSpace.activate_window_without_raising x s)) w;
  if b : bool then mret (true, set_floating_is_active ActiveYes w)
  else
    '(b, w) ← scrolling_returns (ScrollingSpace.activate_window cv x) w;
    mret (b, activate_layout b (match floating_is_active w with ActiveNo => ActiveNo | _ => ActiveNoButRaised end) w).

(** ** Gestures and interactive resizing *)
Definition view_offset_gesture_begin cv (touchpad : bool) : Workspace -> res Workspace :=
  on_scrolling (ScrollingSpace.view_offset_gesture_begin cv touchpad).
Definition view_offset_gesture_update (dx : f64) (ts : Duration) (touchpad : bool) : Workspace -> res (option bool * Workspace) :=
  scrolling_returns (ScrollingSpace.view_offset_gesture_update dx ts touchpad).
Definition view_offset_gesture_end cv (touchpad : option bool) : Workspace -> res (bool * Workspace) :=
  scrolling_returns (ScrollingSpace.view_offset_gesture_end cv touchpad).
Definition dnd_scroll_gesture_begin cv : Workspace -> res Workspace := on_scrolling (ScrollingSpace.dnd_scroll_gesture_begin cv).
(** How fast to scroll with a pointer near an edge, of 1. *)
Definition dnd_scroll_delta (pos : Point) (speed : f64) w : res f64 :=
  let x := (pos.1 - (working_area w).1.1)%F in
  let width := (working_area w).2.1 in
  x ← fclamp x f0 width;
  trigger_width ← fclamp (dnd_view_trigger_width (options w)) f0 (width / of_Z 2)%F;
  let delta := if fltb x trigger_width then (- (trigger_width - x))%F
               else if fltb (width - x)%F trigger_width then (trigger_width - (width - x))%F else f0 in
  let delta := if fltb trigger_width (lit 1 100) then f0 else (delta / trigger_width)%F in
  mret (delta * speed)%F.
Definition dnd_scroll_gesture_scroll cv (pos : Point) (speed : f64) w : res (bool * Workspace) :=
  delta ← dnd_scroll_delta pos speed w;
  scrolling_returns (ScrollingSpace.dnd_scroll_gesture_scroll cv delta) w.
Definition dnd_scroll_gesture_end cv : Workspace -> res Workspace := on_scrolling (ScrollingSpace.dnd_scroll_gesture_end cv).

Definition interactive_resize_begin cv x (edges : ResizeEdge) w : res (bool * Workspace) :=
  if FloatingSpace.has_window x (floating w) then floating_returns (FloatingSpace.interactive_resize_begin x edges) w
  else scrolling_returns (ScrollingSpace.interactive_resize_begin cv x edges) w.
Definition interactive_resize_update x (delta : Point) w : res (bool * Workspace) :=
  if FloatingSpace.has_window x (floating w) then floating_returns (FloatingSpace.interactive_resize_update x delta) w
  else scrolling_returns (ScrollingSpace.interactive_resize_update x delta) w.
Definition interactive_resize_end cv (window : option Id) w : res Workspace :=
  match window with
  | Some x =>
      if FloatingSpace.has_window x (floating w) then on_floating (fun s => mret (FloatingSpace.interactive_resize_end window s)) w
      else on_scrolling (ScrollingSpace.interactive_resize_end cv window) w
  | None =>
      w ← on_floating (fun s => mret (FloatingSpace.interactive_resize_end None s)) w;
      on_scrolling (ScrollingSpace.interactive_resize_end cv None) w
  end.
End ops.
End Workspace.
