(* ===== verification/WorkspaceInv.v ===== *)
(** * Workspaces: the invariant

    Both layouts are in order and know the view, the scale and the options of the
    workspace; the options are the configured ones with the overrides of the
    workspace merged in; no window is in both layouts; and the active layout is
    one with windows if there are any.  What operations do is seen on [View]: the
    windows of the two layouts and which is active. *)

From stdpp Require Import base numbers option list strings.
From Stdlib Require Import ZArith Lia SpecFloat.
From S2P Require Import Prelude.
From S2P Require Import Runs.
From S2P Require Import F64.
From S2P Require Import Clock.
From S2P Require Import Animation.
From S2P Require Import AnimTotal.
From S2P Require Import LayoutTypes.
From S2P Require Import F64Sign.
From S2P Require Import Tile.
From S2P Require Import TileInv.
From S2P Require Import Floating.
From S2P Require Import FloatingStack.
From S2P Require Import FloatingInv.
From S2P Require Import FloatingOps.
From S2P Require Import FloatingThms.
From S2P Require Import Column.
From S2P Require Import ColumnInv.
From S2P Require Import Scrolling.
From S2P Require Import ScrollingSpec.
From S2P Require Import ScrollingInv.
From S2P Require Import ScrollingViews.
From S2P Require Import ScrollingThms.
From S2P Require Import Workspace.

(** ** Options *)
Record overrides_ok (p : Overrides) : Prop := {
  vo_gaps : forall x, ov_gaps p = Some x -> nonneg x;
  vo_border : forall r x, ov_border p = Some r -> br_width r = Some x -> nonneg x
}.
Definition part_ok (p : option Overrides) : Prop := forall x, p = Some x -> overrides_ok x.

Section options.
Context {LM : Libm} {KF : Keyframe}.

Lemma or_default_nonempty l : or_default_presets l <> [].
Proof. by destruct l. Qed.
Lemma merged_width_nonneg r b : nonneg (b_width b) -> (forall x, br_width r = Some x -> nonneg x) -> nonneg (b_width (border_merged_with r b)).
Proof. intros Hb Hr. unfold border_merged_with. cbn. destruct (br_width r); [by apply Hr|done]. Qed.
Lemma merge_layout_ok p o : options_ok o -> overrides_ok p -> options_ok (merge_layout p o).
Proof.
  intros [] [Hg Hb]. constructor; cbn; try done; try apply or_default_nonempty.
  - destruct (ov_gaps p); [by apply Hg|done].
  - destruct (ov_border p); [|done]. apply merged_width_nonneg; [done|]. intros x Hx. by eapply Hb.
Qed.
Lemma adjusted_ok sc o : positive_finite sc = true -> options_ok o -> options_ok (adjusted_for_scale sc o).
Proof. intros Hs []. constructor; try done. cbn. by apply round_max1_nonneg. Qed.
End options.

(** ** What operations see and change *)
Section inv.
Context {LE : LayoutElement} {LEL : LayoutElementLaws} {GE : Geometry} {GL : GeometryLaws} {LM : Libm} {KF : Keyframe} {OU : Outputs}.
Implicit Types (cv : ClockView) (kin : Id -> Id -> bool) (w : Workspace.Workspace) (x : Id).
Import Workspace.

Lemma options_for_ok sc part base : positive_finite sc = true -> options_ok base -> part_ok part -> options_ok (options_for sc part base).
Proof.
  intros Hs Hb Hp. apply adjusted_ok; [done|]. destruct part as [p|]; [|done]. cbn. apply merge_layout_ok; [done|by apply Hp].
Qed.

Record View := { v_grid : Grid Id; v_pile : Pile; v_active : FloatingActive }.
Definition view w : View := {| v_grid := grid (scrolling w); v_pile := pile (floating w); v_active := floating_is_active w |}.
Definition with_grid (g : Grid Id) (v : View) : View := {| v_grid := g; v_pile := v_pile v; v_active := v_active v |}.
Definition with_pile (p : Pile) (v : View) : View := {| v_grid := v_grid v; v_pile := p; v_active := v_active v |}.
Definition with_layout (a : FloatingActive) (v : View) : View := {| v_grid := v_grid v; v_pile := v_pile v; v_active := a |}.
Definition v_floats (v : View) : bool := bool_decide (v_active v = ActiveYes).
Definition v_windows (v : View) : list Id := g_windows (v_grid v) ++ p_ids (v_pile v).

(** An empty floating layout is not active; an empty scrolling layout is only if
    the floating one is empty too. *)
Definition layout_active_ok (v : View) : Prop :=
  match p_ids (v_pile v) with
  | [] => v_active v <> ActiveYes
  | _ => g_empty (v_grid v) = true -> v_active v = ActiveYes
  end.
Definition v_ok (v : View) : Prop := NoDup (v_windows v) /\ layout_active_ok v.

(** ** The invariant *)
Definition around w :=
  (original_output w, output w, scale w, transform w, view_size w, working_area w, base_options w, options w, name w, layout_config w, id w).

Record around_ok w : Prop := {
  ar_scale : positive_finite (fractional_scale (scale w)) = true;
  ar_base : options_ok (base_options w);
  ar_part : part_ok (layout_config w);
  ar_options : exists sc, positive_finite sc = true /\ feqb sc (fractional_scale (scale w)) = true
    /\ options w = options_for sc (layout_config w) (base_options w)
}.
Definition floating_env w : FEnv :=
  {| fe_options := options w; fe_view_size := view_size w; fe_working_area := working_area w; fe_scale := fractional_scale (scale w) |}.
Definition scrolling_env w : Env := config_env (view_size w) (working_area w) (fractional_scale (scale w)) (options w).

Record ws_base kin w : Prop := {
  wo_around : around_ok w;
  wo_scrolling : space_ok (scrolling w);
  wo_floating : floating_ok kin (floating w);
  wo_env : env (scrolling w) = scrolling_env w;
  wo_fenv : fenv (floating w) = floating_env w
}.
Definition ws_ok kin w : Prop := ws_base kin w /\ v_ok (view w).

(** An operation kept the invariant of the parts, and [Q] holds of the view. *)
Definition wto kin w (Q : View -> Prop) w' : Prop := ws_base kin w' /\ around w' = around w /\ Q (view w').

Lemma around_options kin w : ws_base kin w -> options_ok (options w).
Proof. intros H. destruct (ar_options w (wo_around _ _ H)) as (sc & Hs & _ & ->). apply options_for_ok; [done|apply (wo_around _ _ H)..]. Qed.
Lemma around_ok_eq w w' : around w' = around w -> around_ok w -> around_ok w'.
Proof. intros [= _ _ Hsc _ _ _ Hb Ho _ Hl _] []. constructor; by rewrite ?Hsc, ?Hb, ?Hl, ?Ho. Qed.

Lemma wto_refl kin w (Q : View -> Prop) : ws_base kin w -> Q (view w) -> wto kin w Q w.
Proof. done. Qed.
Lemma wto_trans kin a b c (Q : View -> Prop) : around b = around a -> wto kin b Q c -> wto kin a Q c.
Proof. intros He (H1 & H2 & H3). split_and!; [done|congruence|done]. Qed.
Lemma wto_mono kin w w' (P Q : View -> Prop) : wto kin w P w' -> (forall v, P v -> Q v) -> wto kin w Q w'.
Proof. intros (H1 & H2 & H3) H. split_and!; auto. Qed.

(** ** Operations of one layout *)
Lemma set_scrolling_to kin w s :
  ws_base kin w -> space_ok s -> env s = env (scrolling w) -> wto kin w (eq (with_grid (grid s) (view w))) (set_scrolling s w).
Proof. intros [Ha Hs Hf He Hfe] H1 H2. split_and!; [|done|done]. constructor; try done; [by destruct Ha|]. exact (eq_trans H2 He). Qed.
Lemma set_floating_to kin w s :
  ws_base kin w -> floating_ok kin s -> fenv s = fenv (floating w) -> wto kin w (eq (with_pile (pile s) (view w))) (set_floating s w).
Proof. intros [Ha Hs Hf He Hfe] H1 H2. split_and!; [|done|done]. constructor; try done; [by destruct Ha|]. exact (eq_trans H2 Hfe). Qed.
Lemma set_layout_to kin w a : ws_base kin w -> wto kin w (eq (with_layout a (view w))) (set_floating_is_active a w).
Proof. intros [Ha Hs Hf He Hfe]. split_and!; [|done|done]. constructor; try done. by destruct Ha. Qed.

Lemma on_scrolling_to kin f w (G : Grid Id -> Prop) (Q : View -> Prop) :
  ws_base kin w -> runs (f (scrolling w)) (fun s' => space_ok s' /\ env s' = env (scrolling w) /\ G (grid s')) ->
  (forall g, G g -> Q (with_grid g (view w))) -> runs (on_scrolling f w) (wto kin w Q).
Proof.
  intros Hw Hf HQ. unfold on_scrolling. runs Hf. intros s _ (H1 & H2 & H3). returns. eapply wto_mono; [by apply set_scrolling_to|].
  intros v <-. by apply HQ.
Qed.
Lemma on_floating_to kin f w (P : Pile -> Prop) (Q : View -> Prop) :
  ws_base kin w -> runs (f (floating w)) (fun s' => floating_ok kin s' /\ fenv s' = fenv (floating w) /\ P (pile s')) ->
  (forall p, P p -> Q (with_pile p (view w))) -> runs (on_floating f w) (wto kin w Q).
Proof.
  intros Hw Hf HQ. unfold on_floating. runs Hf. intros s _ (H1 & H2 & H3). returns. eapply wto_mono; [by apply set_floating_to|].
  intros v <-. by apply HQ.
Qed.
Lemma scrolling_returns_to {A} kin f w (R : A -> Prop) (G : A -> Grid Id -> Prop) (Q : A -> View -> Prop) :
  ws_base kin w -> runs (f (scrolling w)) (fun '(a, s') => R a /\ space_ok s' /\ env s' = env (scrolling w) /\ G a (grid s')) ->
  (forall a g, R a -> G a g -> Q a (with_grid g (view w))) -> runs (scrolling_returns f w) (fun '(a, w') => R a /\ wto kin w (Q a) w').
Proof.
  intros Hw Hf HQ. unfold scrolling_returns. runs Hf. intros [a s] _ (H0 & H1 & H2 & H3). returns. split; [done|].
  eapply wto_mono; [by apply set_scrolling_to|]. intros v <-. by apply HQ.
Qed.
Lemma floating_returns_to {A} kin f w (R : A -> Prop) (P : A -> Pile -> Prop) (Q : A -> View -> Prop) :
  ws_base kin w -> runs (f (floating w)) (fun '(a, s') => R a /\ floating_ok kin s' /\ fenv s' = fenv (floating w) /\ P a (pile s')) ->
  (forall a p, R a -> P a p -> Q a (with_pile p (view w))) -> runs (floating_returns f w) (fun '(a, w') => R a /\ wto kin w (Q a) w').
Proof.
  intros Hw Hf HQ. unfold floating_returns. runs Hf. intros [a s] _ (H0 & H1 & H2 & H3). returns. split; [done|].
  eapply wto_mono; [by apply set_floating_to|]. intros v <-. by apply HQ.
Qed.

(** One operation after another. *)
Lemma wto_then {A} kin w w1 (m : res A) (R : A -> Prop) : wto kin w (fun _ => True) w1 -> (ws_base kin w1 -> runs m R) -> runs m R.
Proof. intros (H & _) Hm. by apply Hm. Qed.

Lemma is_active_view w : is_active_floating w = v_floats (view w).
Proof. done. Qed.
Lemma existsb_id x (l : list Tile.Tile) : existsb (Column.has_id x) l = bool_decide (x ∈ (Tile.id <$> l)).
Proof.
  induction l as [|t l IH]; cbn; [done|]. rewrite IH. unfold Column.has_id. apply eq_true_iff_eq.
  rewrite orb_true_iff, !bool_decide_eq_true, elem_of_cons. naive_solver.
Qed.
Lemma floating_contains w x : FloatingSpace.has_window x (floating w) = bool_decide (x ∈ p_ids (v_pile (view w))).
Proof. apply existsb_id. Qed.
Lemma floating_empty w : FloatingSpace.is_empty (floating w) = bool_decide (p_ids (v_pile (view w)) = []).
Proof. unfold FloatingSpace.is_empty. cbn. unfold FloatingInv.ids. by destruct (FloatingSpace.tiles (floating w)). Qed.
Lemma scrolling_empty w : ScrollingSpace.is_empty (scrolling w) = g_empty (v_grid (view w)).
Proof. symmetry. apply grid_empty. Qed.
Lemma scrolling_windows w : Tile.id <$> ScrollingSpace.tiles (scrolling w) = g_windows (v_grid (view w)).
Proof. apply windows_tiles. Qed.
Lemma tiles_windows w : Tile.id <$> tiles w = v_windows (view w).
Proof. unfold tiles. by rewrite fmap_app, scrolling_windows. Qed.
Lemma has_window_view x w : has_window x w = bool_decide (x ∈ v_windows (view w)).
Proof. unfold has_window. by rewrite existsb_id, tiles_windows. Qed.
Lemma grid_no_windows w : space_ok (scrolling w) -> g_empty (v_grid (view w)) = true <-> g_windows (v_grid (view w)) = [].
Proof.
  intros Hs. change (v_grid (view w)) with (grid (scrolling w)). rewrite grid_empty, <-windows_tiles. unfold ScrollingSpace.is_empty, ScrollingSpace.tiles.
  destruct (ScrollingSpace.columns (scrolling w)) as [|c cs] eqn:E; [done|]. split; [done|]. intros H. exfalso.
  assert (Hc : ScrollingSpace.columns (scrolling w) !! 0 = Some c) by by rewrite E.
  pose proof (space_col _ _ _ Hs Hc) as [Hm _]. apply col_nonempty in Hm. cbn in H. by destruct (Column.tiles c).
Qed.
End inv.
