(* ===== verification/WorkspaceSpec.v ===== *)
(** * Workspaces: what operations mean

    The operations of a workspace on the windows of its two layouts ([View]), and
    that each keeps its windows apart and its active layout right. *)

From stdpp Require Import base numbers option list strings.
From Stdlib Require Import ZArith Lia SpecFloat.
From S2P Require Import Prelude.
From S2P Require Import Runs.
From S2P Require Import F64.
From S2P Require Import Clock.
From S2P Require Import Animation.
From S2P Require Import AnimTotal.
From S2P Require Import LayoutTypes.
From S2P Require Import F64Sign.
From S2P Require Import Tile.
From S2P Require Import TileInv.
From S2P Require Import Floating.
From S2P Require Import FloatingStack.
From S2P Require Import FloatingInv.
From S2P Require Import FloatingOps.
From S2P Require Import FloatingThms.
From S2P Require Import Column.
From S2P Require Import ColumnInv.
From S2P Require Import Scrolling.
From S2P Require Import ScrollingSpec.
From S2P Require Import ScrollingInv.
From S2P Require Import ScrollingTiles.
From S2P Require Import ScrollingRemove.
From S2P Require Import ScrollingMoves.
From S2P Require Import ScrollingModes.
From S2P Require Import ScrollingViews.
From S2P Require Import ScrollingGrid.
From S2P Require Import ScrollingThms.
From S2P Require Import Positions.
From S2P Require Import Workspace.
From S2P Require Import WorkspaceInv.

(** ** The specification *)
Section spec.
Context {LE : LayoutElement}.
Implicit Types (kin : Id -> Id -> bool) (x : Id) (v : View).

Definition v_activated (activate : bool) (a : FloatingActive) v : View := if activate then with_layout a v else v.
Definition v_focused v : option Id := if v_floats v then p_active (v_pile v) else focused (v_grid v).

(** A window that is added to the floating layout has the focus if there is no
    other one in the scrolling layout. *)
Definition v_add_floating kin (i : nat) x (activate : bool) v : View :=
  v_activated (activate || g_empty (v_grid v)) ActiveYes (with_pile (p_insert kin i x activate (v_pile v)) v).
Definition v_add_scrolling (i : option nat) x (activate : bool) v : View :=
  v_activated activate ActiveNo (with_grid (g_add i x activate (v_grid v)) v).
Definition v_add_to_column (i : nat) (j : option nat) x (activate : bool) v : View :=
  v_activated activate ActiveNo (with_grid (g_add_to i j x activate (v_grid v)) v).

Definition add_tile_spec kin x (target : WorkspaceAddWindowTarget Id) (activate : ActivateWindow) (floats : bool) v v' : Prop :=
  match target with
  | Auto => exists smart, let a := map_smart smart activate in v' = if floats then v_add_floating kin 0 x a v else v_add_scrolling None x a v
  | NewColumnAt i => v' = v_add_scrolling (Some i) x (map_smart false activate) v
  | NextTo y =>
      let a := map_smart (bool_decide (v_focused v = Some y)) activate in
      match index_of y (p_ids (v_pile v)) with
      | Some i => v' = if floats then v_add_floating kin i x a v else v_add_scrolling None x a v
      | None =>
          if floats then v' = v_add_floating kin 0 x a v
          else exists i j, g_find y (v_grid v) = Some (i, j) /\ v' = v_add_scrolling (Some (i + 1)) x a v
      end
  end.

(** A column from elsewhere joins with all its windows. *)
Definition v_add_column (c : GCol Id) (activate : bool) v : View :=
  v_activated activate ActiveNo (with_grid (g_add_column None c activate (v_grid v)) v).

(** Once a layout has lost its last window, the other one is active. *)
Definition v_after_removing (from_floating : bool) v : View :=
  if from_floating then if bool_decide (p_ids (v_pile v) = []) then with_layout ActiveNo v else v
  else if g_empty (v_grid v) && negb (bool_decide (p_ids (v_pile v) = [])) then with_layout ActiveYes v
  else v.
Definition v_remove x v : View :=
  if bool_decide (x ∈ p_ids (v_pile v)) then v_after_removing true (with_pile (p_remove x (v_pile v)) v)
  else v_after_removing false (with_grid (g_remove_source (Some x) (v_grid v)) v).
Definition v_remove_active v : View :=
  if v_floats v then
    match p_active (v_pile v) with Some x => v_after_removing true (with_pile (p_remove x (v_pile v)) v) | None => v end
  else if g_empty (v_grid v) then v
  else v_after_removing false (with_grid (g_remove_source None (v_grid v)) v).
Definition v_remove_active_column v : View :=
  if v_floats v || g_empty (v_grid v) then v
  else v_after_removing false (with_grid (g_remove_column (g_active (v_grid v)) (v_grid v)) v).

(** Activating a window activates its layout. *)
Definition v_activate kin x v : View :=
  if bool_decide (x ∈ p_ids (v_pile v)) then with_layout ActiveYes (with_pile (p_activate kin x (v_pile v)) v)
  else if bool_decide (x ∈ g_windows (v_grid v)) then with_layout ActiveNo (with_grid (g_activate_window x (v_grid v)) v)
  else v.
Definition not_floating (a : FloatingActive) : FloatingActive := match a with ActiveNo => ActiveNo | _ => ActiveNoButRaised end.
Definition v_activate_without_raising x v : View :=
  if bool_decide (x ∈ p_ids (v_pile v)) then with_layout ActiveYes (with_pile (p_focus x (v_pile v)) v)
  else if bool_decide (x ∈ g_windows (v_grid v)) then
    with_layout (not_floating (v_active v)) (with_grid (g_activate_window x (v_grid v)) v)
  else v.
Definition v_switch v : View :=
  if bool_decide (p_ids (v_pile v) = []) || g_empty (v_grid v) then v
  else with_layout (if v_floats v then ActiveNo else ActiveYes) v.
(** A window moves to the other layout, which becomes active if the window was
    focused. *)
Definition v_toggle kin x v : View :=
  let a := bool_decide (v_focused v = Some x) in
  if bool_decide (x ∈ p_ids (v_pile v)) then v_activated a ActiveNo (with_grid (g_add None x a (v_grid v)) (with_pile (p_remove x (v_pile v)) v))
  else v_activated a ActiveYes (with_pile (p_insert kin 0 x a (v_pile v)) (with_grid (g_remove_source (Some x) (v_grid v)) v)).
End spec.

(** ** Views in order *)
Section laws.
Context {LE : LayoutElement}.
Implicit Types (kin : Id -> Id -> bool) (x : Id) (v : View).

(** The focus of either layout is one of its windows, if it has any. *)
Record v_sane v : Prop := {
  sane_grid : grid_ok (v_grid v);
  sane_pile : match p_active (v_pile v) with Some x => x ∈ p_ids (v_pile v) | None => p_ids (v_pile v) = [] end
}.

Lemma grid_no_window (g : Grid Id) : grid_ok g -> g_empty g = true <-> g_windows g = [].
Proof.
  intros [_ Hc]. unfold g_empty, g_windows. destruct (g_cols g) as [|c l]; [done|]. split; [done|]. cbn. intros H. exfalso.
  inversion_clear Hc as [|? ? Hlt _]. apply app_eq_nil in H as [H _]. rewrite H in Hlt. cbn in Hlt. lia.
Qed.
Lemma focused_in (g : Grid Id) : grid_ok g -> g_windows g <> [] -> exists x, focused g = Some x /\ x ∈ g_windows g.
Proof.
  intros Hg Hne. pose proof Hg as [[Ha|[Ha _]] Hc]; [|unfold g_windows in Hne; by rewrite Ha in Hne].
  destruct (lookup_lt_is_Some_2 _ _ Ha) as [c Hi]. pose proof (Forall_lookup_1 _ _ _ _ Hc Hi) as Hlt. cbn in Hlt.
  destruct (lookup_lt_is_Some_2 _ _ Hlt) as [x Hx]. exists x. unfold focused, active_of. rewrite Hi. split; [exact Hx|].
  apply elem_of_windows. exists (g_active g), c. split; [done|]. by eapply list_elem_of_lookup_2.
Qed.

Lemma layout_ok_iff v :
  grid_ok (v_grid v) -> layout_active_ok v <->
    (p_ids (v_pile v) = [] -> v_active v <> ActiveYes) /\ (p_ids (v_pile v) <> [] -> g_windows (v_grid v) = [] -> v_active v = ActiveYes).
Proof.
  intros Hg. unfold layout_active_ok. rewrite <-(grid_no_window _ Hg). destruct (p_ids (v_pile v)); naive_solver.
Qed.

(** Some window has the focus, unless there is none. *)
Lemma v_focused_in v : v_sane v -> layout_active_ok v -> v_windows v <> [] -> exists x, v_focused v = Some x /\ x ∈ v_windows v.
Proof.
  intros [Hg Hp] [Hl1 Hl2]%layout_ok_iff Hne; [|done]. unfold v_focused, v_floats, v_windows. case_bool_decide as E.
  - destruct (p_active (v_pile v)) as [x|]; [exists x; split; [done|]; apply elem_of_app; by right|]. by specialize (Hl1 Hp).
  - destruct (focused_in _ Hg) as (x & Hx & Hin); [|exists x; split; [done|apply elem_of_app; by left]].
    intros Hn. destruct (decide (p_ids (v_pile v) = [])) as [Hn2|Hn2]; [|by apply E, Hl2]. unfold v_windows in Hne. by rewrite Hn, Hn2 in Hne.
Qed.

Lemma no_window_focused v x : v_sane v -> v_focused v = Some x -> v_windows v <> [].
Proof.
  intros [Hgo Hpo] Hx [Hg Hp]%app_eq_nil. unfold v_focused in Hx. destruct (v_floats v).
  - rewrite Hx, Hp in Hpo. by apply elem_of_nil in Hpo.
  - apply grid_no_window in Hg; [|done]. unfold g_empty in Hg. unfold focused, active_of in Hx. by destruct (g_cols (v_grid v)).
Qed.

(** Operations that neither move windows between the layouts nor change which is
    active. *)
Lemma v_ok_perm v v' :
  v_sane v -> v_sane v' -> v_ok v -> g_windows (v_grid v') ≡ₚ g_windows (v_grid v) -> p_ids (v_pile v') ≡ₚ p_ids (v_pile v) ->
  v_active v' = v_active v -> v_ok v'.
Proof.
  intros [Hg _] [Hg' _] [Hn [Hl1 Hl2]%layout_ok_iff] Hpg Hpp Ha; [|done]. split.
  - unfold v_windows. by rewrite Hpg, Hpp.
  - apply layout_ok_iff; [done|]. rewrite Ha. split; [intros E|intros E E2].
    + apply Hl1. rewrite E in Hpp. by apply Permutation_nil.
    + apply Hl2; [|rewrite E2 in Hpg; by apply Permutation_nil]. intros E3. apply E. rewrite E3 in Hpp. symmetry in Hpp. by apply Permutation_nil.
Qed.

(** *** Windows that come *)
Lemma activated_windows b a v : v_windows (v_activated b a v) = v_windows v.
Proof. by destruct b. Qed.
Lemma add_floating_windows kin i x a v : v_windows (v_add_floating kin i x a v) ≡ₚ x :: v_windows v.
Proof.
  unfold v_add_floating. rewrite activated_windows. unfold v_windows. cbn [v_grid v_pile with_pile]. rewrite insert_pile_perm.
  symmetry. apply Permutation_middle.
Qed.
Lemma add_scrolling_windows i x a v : v_windows (v_add_scrolling i x a v) ≡ₚ x :: v_windows v.
Proof. unfold v_add_scrolling. rewrite activated_windows. unfold v_windows. cbn [v_grid v_pile with_grid]. by rewrite add_windows. Qed.
Lemma add_to_column_windows i j x a v c : g_cols (v_grid v) !! i = Some c -> v_windows (v_add_to_column i j x a v) ≡ₚ x :: v_windows v.
Proof.
  intros Hc. unfold v_add_to_column. rewrite activated_windows. unfold v_windows. cbn [v_grid v_pile with_grid]. by erewrite add_to_windows.
Qed.
Lemma v_add_column_windows c a v : v_windows (v_add_column c a v) ≡ₚ c.1 ++ v_windows v.
Proof. unfold v_add_column. rewrite activated_windows. unfold v_windows. cbn [v_grid v_pile with_grid]. by rewrite add_column_windows, app_assoc. Qed.

(** The other layout is as it was, and so is which is active, or the layout that
    got a window is active. *)
Lemma added_floating_ok v v' x :
  v_sane v -> v_sane v' -> v_ok v -> (x ∉ v_windows v) -> v_windows v' ≡ₚ x :: v_windows v -> v_grid v' = v_grid v ->
  p_ids (v_pile v') <> [] -> v_active v' = ActiveYes \/ v_active v' = v_active v /\ g_empty (v_grid v) = false -> v_ok v'.
Proof.
  intros [Hg _] [Hg' _] [Hn _] Hx Hp Hgrid Hne Ha. split; [rewrite Hp; by constructor|]. apply layout_ok_iff; [done|]. split; [done|].
  intros _ He. destruct Ha as [?|[_ Hf]]; [done|]. rewrite Hgrid in He. apply grid_no_window in He; [congruence|done].
Qed.
Lemma added_scrolling_ok v v' xs :
  v_sane v -> v_sane v' -> v_ok v -> NoDup (xs ++ v_windows v) -> v_windows v' ≡ₚ xs ++ v_windows v -> v_pile v' = v_pile v ->
  g_windows (v_grid v') <> [] -> v_active v' = ActiveNo \/ v_active v' = v_active v -> v_ok v'.
Proof.
  intros [Hg _] [Hg' _] [_ [Hl1 _]%layout_ok_iff] Hn Hp Hpile Hne Ha; [|done]. split; [by rewrite Hp|]. apply layout_ok_iff; [done|]. rewrite Hpile.
  split; [|done]. intros E. destruct Ha as [->| ->]; [done|by apply Hl1].
Qed.

Lemma insert_pile_nonempty kin i x a (p : Pile) : p_ids (p_insert kin i x a p) <> [].
Proof. intros E. pose proof (insert_pile_perm kin i x a p) as H. rewrite E in H. by apply Permutation_nil in H. Qed.
Lemma add_floating_ok kin i x a v :
  v_sane v -> v_sane (v_add_floating kin i x a v) -> v_ok v -> (x ∉ v_windows v) -> v_ok (v_add_floating kin i x a v).
Proof.
  intros Hs Hs' Hv Hx. apply (added_floating_ok v _ x); try done; [apply add_floating_windows|unfold v_add_floating; by destruct (_ || _)|..].
  - unfold v_add_floating. pose proof (insert_pile_nonempty kin i x a (v_pile v)). by destruct (a || _).
  - unfold v_add_floating. destruct a; cbn [orb]; [by left|]. destruct (g_empty _) eqn:E; [by left|by right].
Qed.
Lemma perm_nonempty (l k : list Id) x : l ≡ₚ x :: k -> l <> [].
Proof. intros Hp ->. by apply Permutation_nil in Hp. Qed.
Lemma add_scrolling_ok i x a v :
  v_sane v -> v_sane (v_add_scrolling i x a v) -> v_ok v -> (x ∉ v_windows v) -> v_ok (v_add_scrolling i x a v).
Proof.
  intros Hs Hs' Hv Hx. apply (added_scrolling_ok v _ [x]); try done; [constructor; [done|apply Hv]|apply add_scrolling_windows|by destruct a| |].
  - unfold v_add_scrolling. pose proof (perm_nonempty _ _ _ (add_windows i x a (v_grid v))). by destruct a.
  - destruct a; [by left|by right].
Qed.
Lemma add_to_column_ok i j x a v c :
  g_cols (v_grid v) !! i = Some c -> v_sane v -> v_sane (v_add_to_column i j x a v) -> v_ok v -> (x ∉ v_windows v) -> v_ok (v_add_to_column i j x a v).
Proof.
  intros Hc Hs Hs' Hv Hx. apply (added_scrolling_ok v _ [x]); try done; [constructor; [done|apply Hv]|by eapply add_to_column_windows|by destruct a| |].
  - unfold v_add_to_column. pose proof (perm_nonempty _ _ _ (add_to_windows i j x a (v_grid v) c Hc)). by destruct a.
  - destruct a; [by left|by right].
Qed.
Lemma v_add_column_ok c a v :
  c.1 <> [] -> NoDup (c.1 ++ v_windows v) -> v_sane v -> v_sane (v_add_column c a v) -> v_ok v -> v_ok (v_add_column c a v).
Proof.
  intros Hc Hn Hs Hs' Hv. apply (added_scrolling_ok v _ c.1); try done; [apply v_add_column_windows|by destruct a| |].
  - unfold v_add_column. destruct c as [[|x l] n]; [done|]. pose proof (perm_nonempty _ _ _ (add_column_windows None (x :: l, n) a (v_grid v))). by destruct a.
  - destruct a; [by left|by right].
Qed.
Lemma add_tile_spec_ok kin x target a floats v v' :
  add_tile_spec kin x target a floats v v' -> v_sane v -> v_sane v' -> v_ok v -> (x ∉ v_windows v) -> v_ok v'.
Proof.
  intros Hsp Hs Hs' Hv Hx. destruct target as [|i|y]; cbn in Hsp.
  - destruct Hsp as (smart & ->). destruct floats; [by apply add_floating_ok|by apply add_scrolling_ok].
  - subst v'. by apply add_scrolling_ok.
  - destruct (index_of _ _) as [i|].
    + subst v'. destruct floats; [by apply add_floating_ok|by apply add_scrolling_ok].
    + destruct floats; [subst v'; by apply add_floating_ok|]. destruct Hsp as (i & j & _ & ->). by apply add_scrolling_ok.
Qed.
Lemma add_tile_spec_windows kin x target a floats v v' : add_tile_spec kin x target a floats v v' -> v_windows v' ≡ₚ x :: v_windows v.
Proof.
  intros Hsp. destruct target as [|i|y]; cbn in Hsp.
  - destruct Hsp as (smart & ->). destruct floats; [apply add_floating_windows|apply add_scrolling_windows].
  - subst v'. apply add_scrolling_windows.
  - destruct (index_of _ _) as [i|].
    + subst v'. destruct floats; [apply add_floating_windows|apply add_scrolling_windows].
    + destruct floats; [subst v'; apply add_floating_windows|]. destruct Hsp as (i & j & _ & ->). apply add_scrolling_windows.
Qed.

(** *** Windows that go *)
Lemma after_removing_same b v : v_windows (v_after_removing b v) = v_windows v /\ v_grid (v_after_removing b v) = v_grid v.
Proof. unfold v_after_removing. destruct b; [by destruct (bool_decide _)|by destruct (_ && _)]. Qed.
(** What is left is in order whichever layout was active. *)
Lemma removed_floating_ok v v1 xs :
  v_sane v -> v_ok v -> xs ++ v_windows v1 ≡ₚ v_windows v -> v_grid v1 = v_grid v -> v_active v1 = v_active v -> v_ok (v_after_removing true v1).
Proof.
  intros [Hg _] [Hn [_ Hl2]%layout_ok_iff] Hp Hgrid Ha; [|done]. destruct (after_removing_same true v1) as [Hw Hg2]. split.
  - rewrite Hw. rewrite <-Hp in Hn. by apply NoDup_app in Hn as (_ & _ & ?).
  - apply layout_ok_iff; [by rewrite Hg2, Hgrid|]. unfold v_after_removing. case_bool_decide as E; cbn [with_layout v_pile v_grid v_active]; [by split|].
    split; [done|]. intros _. rewrite Hgrid, Ha. intros E2. apply Hl2; [|exact E2]. intros E3. apply E.
    unfold v_windows in Hp. rewrite Hgrid, E2, E3 in Hp. cbn in Hp. symmetry in Hp. apply Permutation_nil in Hp. by apply app_eq_nil in Hp as [_ ?].
Qed.
Lemma removed_scrolling_ok v v1 xs :
  v_sane v -> grid_ok (v_grid v1) -> v_ok v -> xs ++ v_windows v1 ≡ₚ v_windows v -> v_pile v1 = v_pile v -> v_active v1 = v_active v ->
  v_ok (v_after_removing false v1).
Proof.
  intros [Hg _] Hg1 [Hn [Hl1 _]%layout_ok_iff] Hp Hpile Ha; [|done]. destruct (after_removing_same false v1) as [Hw Hg2]. split.
  - rewrite Hw. rewrite <-Hp in Hn. by apply NoDup_app in Hn as (_ & _ & ?).
  - apply layout_ok_iff; [by rewrite Hg2|]. rewrite Hg2, <-(grid_no_window _ Hg1). unfold v_after_removing.
    case_bool_decide as E; destruct (g_empty (v_grid v1)); cbn [andb negb with_layout v_pile v_active]; try done.
    + split; [|done]. rewrite Ha. intros _. apply Hl1. by rewrite <-Hpile.
    + split; [|done]. rewrite Ha. intros _. apply Hl1. by rewrite <-Hpile.
Qed.

Lemma remove_source_windows x (g : Grid Id) : x ∈ g_windows g -> g_windows g ≡ₚ x :: g_windows (g_remove_source (Some x) g).
Proof. intros Hx. destruct (find_of x g Hx) as (i & j & Hf). unfold g_remove_source, g_source. rewrite Hf. by apply remove_windows, find_at. Qed.
Lemma v_windows_remove x v : x ∈ v_windows v -> x :: v_windows (v_remove x v) ≡ₚ v_windows v.
Proof.
  intros Hx. unfold v_remove. case_bool_decide as E; rewrite (proj1 (after_removing_same _ _)); unfold v_windows; cbn [v_grid v_pile with_grid with_pile].
  - rewrite Permutation_middle. by rewrite remove_pile_perm.
  - apply elem_of_app in Hx as [Hx|?]; [|done]. by rewrite (remove_source_windows x (v_grid v) Hx).
Qed.
Lemma remove_grid_ok x (g : Grid Id) : grid_ok g -> x ∈ g_windows g -> grid_ok (g_remove_source (Some x) g).
Proof.
  intros Hg Hx. destruct (find_of x g Hx) as (i & j & Hf). unfold g_remove_source, g_source. rewrite Hf. eapply remove_ok; [done|by apply find_at].
Qed.
Lemma v_remove_ok x v : v_sane v -> v_ok v -> x ∈ v_windows v -> v_ok (v_remove x v).
Proof.
  intros Hs Hv Hx. pose proof (v_windows_remove x v Hx) as Hp. revert Hp. unfold v_remove. case_bool_decide as E;
    rewrite (proj1 (after_removing_same _ _)); intros Hp.
  - by apply (removed_floating_ok v _ [x]).
  - apply elem_of_app in Hx as [Hx|?]; [|done]. apply (removed_scrolling_ok v _ [x]); try done. cbn. apply remove_grid_ok; [apply Hs|done].
Qed.

(** The focused window of the scrolling layout is found where the focus is. *)
Lemma source_focused (g : Grid Id) : grid_ok g -> g_empty g = false -> exists i j x, g_source None g = Some (i, j) /\ g_at i j g = Some x /\ focused g = Some x.
Proof.
  intros Hg He. destruct (focused_in g Hg) as (x & Hx & _). { intros E. apply grid_no_window in E; [congruence|done]. }
  unfold g_source, g_at, focused, active_of in *. destruct (g_cols g !! g_active g) as [c|] eqn:Ec; [|done]. exists (g_active g), c.2, x. cbn in *. by rewrite Ec.
Qed.
Lemma v_remove_active_windows v :
  v_sane v -> layout_active_ok v -> match v_focused v with Some x => [x] | None => [] end ++ v_windows (v_remove_active v) ≡ₚ v_windows v.
Proof.
  intros [Hg Hp] [Hl1 _]%layout_ok_iff; [|done]. unfold v_remove_active, v_focused. destruct (v_floats v) eqn:Ef.
  - destruct (p_active (v_pile v)) as [x|]; [|done]. rewrite (proj1 (after_removing_same _ _)). unfold v_windows. cbn [v_grid v_pile with_pile].
    change ([x] ++ ?l) with (x :: l). rewrite Permutation_middle. by rewrite remove_pile_perm.
  - destruct (g_empty (v_grid v)) eqn:Ee.
    + unfold focused, active_of. unfold g_empty in Ee. by destruct (g_cols (v_grid v)).
    + rewrite (proj1 (after_removing_same _ _)). destruct (source_focused _ Hg Ee) as (i & j & x & Hsrc & Hat & Hx). rewrite Hx.
      unfold g_remove_source. rewrite Hsrc. unfold v_windows. cbn [v_grid v_pile with_grid]. by rewrite (remove_windows i j x _ Hat).
Qed.
Lemma v_remove_active_ok v : v_sane v -> v_ok v -> v_ok (v_remove_active v).
Proof.
  intros Hs Hv. pose proof (v_remove_active_windows v Hs (proj2 Hv)) as Hw. revert Hw. unfold v_remove_active, v_focused. destruct (v_floats v) eqn:Ef.
  - destruct (p_active (v_pile v)) as [x|]; [|done]. rewrite (proj1 (after_removing_same _ _)). intros Hw. by apply (removed_floating_ok v _ [x]).
  - destruct (g_empty (v_grid v)) eqn:Ee; [done|]. rewrite (proj1 (after_removing_same _ _)). intros Hw.
    eapply removed_scrolling_ok; [done| |done|exact Hw|done|done]. cbn. destruct (source_focused _ (sane_grid _ Hs) Ee) as (i & j & x & Hsrc & Hat & Hx).
    unfold g_remove_source. rewrite Hsrc. eapply remove_ok; [apply Hs|exact Hat].
Qed.
(** *** Focus *)
Lemma v_switch_ok v : v_ok v -> v_sane v -> v_ok (v_switch v) /\ v_windows (v_switch v) = v_windows v.
Proof.
  intros [Hn Hl] [Hg _]. unfold v_switch. case_bool_decide as E; [done|]. cbn [orb]. destruct (g_empty (v_grid v)) eqn:Ee; [done|].
  split; [|done]. split; [done|]. apply layout_ok_iff; [done|]. cbn. split; [done|]. intros _ E2. apply grid_no_window in E2; [congruence|done].
Qed.
(** The window that is focused now is in the layout that is active. *)
Lemma v_focused_ok x v v' :
  v_sane v -> v_ok v -> v_sane v' -> v_windows v' ≡ₚ v_windows v -> (v_active v' = ActiveYes -> p_ids (v_pile v') <> []) ->
  (v_active v' <> ActiveYes -> x ∈ g_windows (v_grid v')) -> v_ok v'.
Proof.
  intros Hs [Hn _] [Hg' _] Hp H1 H2. split; [by rewrite Hp|]. apply layout_ok_iff; [done|]. split; [naive_solver|].
  intros _ E. destruct (decide (v_active v' = ActiveYes)) as [?|Hne]; [done|]. specialize (H2 Hne). rewrite E in H2. by apply elem_of_nil in H2.
Qed.
Lemma v_activate_windows kin x v : v_windows (v_activate kin x v) ≡ₚ v_windows v.
Proof.
  unfold v_activate. case_bool_decide; [|case_bool_decide; [|done]]; unfold v_windows; cbn [v_grid v_pile with_layout with_grid with_pile].
  - by rewrite activate_pile_perm.
  - by rewrite activate_window_windows.
Qed.
Lemma v_activate_ok kin x v : v_sane v -> v_ok v -> v_sane (v_activate kin x v) -> v_ok (v_activate kin x v).
Proof.
  intros Hs Hv Hs'. pose proof (v_activate_windows kin x v) as Hp. revert Hs' Hp. unfold v_activate. case_bool_decide as E; [|case_bool_decide as E2; [|done]];
    intros Hs' Hp; eapply (v_focused_ok x v); try done; cbn [v_grid v_pile with_layout with_grid with_pile v_active]; intros _.
  - intros E3. pose proof (activate_pile_perm kin x (v_pile v)) as H. rewrite E3 in H. apply Permutation_nil in H. rewrite H in E. by apply elem_of_nil in E.
  - by rewrite activate_window_windows.
Qed.
Lemma v_activate_without_raising_windows x v : v_windows (v_activate_without_raising x v) = v_windows v.
Proof.
  unfold v_activate_without_raising. case_bool_decide; [|case_bool_decide; [|done]]; unfold v_windows; cbn [v_grid v_pile with_layout with_grid with_pile].
  - by rewrite focus_pile_ids.
  - by rewrite activate_window_windows.
Qed.
Lemma v_activate_without_raising_ok x v : v_sane v -> v_ok v -> v_sane (v_activate_without_raising x v) -> v_ok (v_activate_without_raising x v).
Proof.
  intros Hs Hv Hs'. pose proof (v_activate_without_raising_windows x v) as Hp. revert Hs' Hp. unfold v_activate_without_raising.
  case_bool_decide as E; [|case_bool_decide as E2; [|done]];
    intros Hs' Hp; eapply (v_focused_ok x v); try done; try (by rewrite Hp); cbn [v_grid v_pile with_layout with_grid with_pile v_active].
  - rewrite focus_pile_ids. intros _ E3. rewrite E3 in E. by apply elem_of_nil in E.
  - by destruct (v_active v).
  - intros _. by rewrite activate_window_windows.
Qed.

(** *** To the other layout *)
Lemma v_toggle_parts kin x v : exists a, a = bool_decide (v_focused v = Some x) /\
  if bool_decide (x ∈ p_ids (v_pile v)) then
    v_grid (v_toggle kin x v) = g_add None x a (v_grid v) /\ v_pile (v_toggle kin x v) = p_remove x (v_pile v)
    /\ v_active (v_toggle kin x v) = (if a then ActiveNo else v_active v)
  else
    v_grid (v_toggle kin x v) = g_remove_source (Some x) (v_grid v) /\ v_pile (v_toggle kin x v) = p_insert kin 0 x a (v_pile v)
    /\ v_active (v_toggle kin x v) = (if a then ActiveYes else v_active v).
Proof. eexists. split; [done|]. unfold v_toggle. case_bool_decide as E; by destruct (bool_decide (v_focused v = Some x)). Qed.
Lemma v_toggle_windows kin x v : x ∈ v_windows v -> v_windows (v_toggle kin x v) ≡ₚ v_windows v.
Proof.
  intros Hx. destruct (v_toggle_parts kin x v) as (a & _ & H). case_bool_decide as E; destruct H as (Hg & Hp & _); unfold v_windows; rewrite Hg, Hp.
  - rewrite add_windows. cbn [app]. rewrite Permutation_middle. by rewrite remove_pile_perm.
  - apply elem_of_app in Hx as [Hx|?]; [|done]. rewrite insert_pile_perm, <-Permutation_middle. change (?y :: ?l ++ ?k) with ((y :: l) ++ k).
    by rewrite <-(remove_source_windows x (v_grid v) Hx).
Qed.
Lemma v_toggle_ok kin x v : v_sane v -> v_ok v -> v_sane (v_toggle kin x v) -> x ∈ v_windows v -> v_ok (v_toggle kin x v).
Proof.
  intros Hs Hv Hs' Hx. split; [rewrite v_toggle_windows by done; apply Hv|]. apply layout_ok_iff; [apply Hs'|].
  destruct (v_focused_in v Hs (proj2 Hv)) as (y & Hy & Hiny). { intros E. rewrite E in Hx. by apply elem_of_nil in Hx. }
  destruct Hs as [Hg Hp], Hv as [_ [Hl1 Hl2]%layout_ok_iff]; [|done].
  destruct (v_toggle_parts kin x v) as (a & Ha & H). case_bool_decide as E; destruct H as (-> & -> & ->).
  - split; [|intros _ E2; by eapply perm_nonempty in E2; [|apply add_windows]]. intros Hn. destruct a; [done|]. symmetry in Ha. apply bool_decide_eq_false_1 in Ha.
    intros Hact. apply Ha. unfold v_focused, v_floats in *. rewrite bool_decide_eq_true_2 in * by done. rewrite Hy. f_equal.
    rewrite Hy in Hp. pose proof (remove_pile_perm x (v_pile v) E) as H. rewrite Hn in H. rewrite <-H in Hp. by apply list_elem_of_singleton in Hp.
  - apply elem_of_app in Hx as [Hx|?]; [|done]. split; [intros Hn; by apply insert_pile_nonempty in Hn|]. intros _ Hn. destruct a; [done|].
    symmetry in Ha. apply bool_decide_eq_false_1 in Ha. destruct (decide (v_active v = ActiveYes)) as [?|Hact]; [done|]. exfalso. apply Ha.
    unfold v_focused, v_floats in *. rewrite bool_decide_eq_false_2 in * by done. destruct (focused_in (v_grid v) Hg) as (z & Hz & Hinz).
    { intros E2. rewrite E2 in Hx. by apply elem_of_nil in Hx. }
    rewrite (remove_source_windows x _ Hx), Hn in Hinz. apply list_elem_of_singleton in Hinz as ->. done.
Qed.

Lemma v_remove_column_windows v :
  v_sane v -> (if v_floats v then [] else from_option fst [] (g_cols (v_grid v) !! g_active (v_grid v))) ++ v_windows (v_remove_active_column v) ≡ₚ v_windows v.
Proof.
  intros [[Hg _] _]. unfold v_remove_active_column. destruct (v_floats v); [done|]. cbn [orb]. destruct (g_empty (v_grid v)) eqn:Ee.
  - unfold g_empty in Ee. by destruct (g_cols (v_grid v)).
  - destruct (g_cols (v_grid v) !! g_active (v_grid v)) as [c|] eqn:Ec.
    + rewrite (proj1 (after_removing_same _ _)). unfold v_windows. cbn [v_grid v_pile with_grid from_option]. by rewrite (remove_column_windows _ _ _ Ec), app_assoc.
    + apply lookup_ge_None in Ec. unfold g_empty in Ee. destruct Hg as [?|[Hg _]]; [lia|by rewrite Hg in Ee].
Qed.
Lemma v_remove_column_ok v : v_sane v -> v_ok v -> v_sane (v_remove_active_column v) -> v_ok (v_remove_active_column v).
Proof.
  intros Hs Hv. pose proof (v_remove_column_windows v Hs) as Hw. revert Hw. unfold v_remove_active_column. destruct (v_floats v) eqn:Ef; [done|]. cbn [orb].
  destruct (g_empty (v_grid v)) eqn:Ee; [done|]. destruct (after_removing_same false (with_grid (g_remove_column (g_active (v_grid v)) (v_grid v)) v)) as [H1 H2].
  rewrite H1. intros Hw [Hg' _]. rewrite H2 in Hg'. by eapply (removed_scrolling_ok v).
Qed.
End laws.
