(* ===== verification/WorkspaceOps.v ===== *)
(** * Workspaces: windows that come and go, and the configuration

    What adding and removing windows does to the view of a workspace, and that
    the configuration and the output reach both layouts and leave their windows
    as they are. *)

From stdpp Require Import base numbers option list strings.
From Stdlib Require Import ZArith Lia SpecFloat.
From S2P Require Import Prelude.
From S2P Require Import Runs.
From S2P Require Import F64.
From S2P Require Import Clock.
From S2P Require Import Animation.
From S2P Require Import AnimTotal.
From S2P Require Import LayoutTypes.
From S2P Require Import F64Sign.
From S2P Require Import Tile.
From S2P Require Import TileInv.
From S2P Require Import Floating.
From S2P Require Import FloatingStack.
From S2P Require Import FloatingInv.
From S2P Require Import FloatingOps.
From S2P Require Import FloatingThms.
From S2P Require Import Column.
From S2P Require Import ColumnInv.
From S2P Require Import Scrolling.
From S2P Require Import ScrollingSpec.
From S2P Require Import ScrollingInv.
From S2P Require Import ScrollingTiles.
From S2P Require Import ScrollingRemove.
From S2P Require Import ScrollingMoves.
From S2P Require Import ScrollingModes.
From S2P Require Import ScrollingViews.
From S2P Require Import ScrollingGrid.
From S2P Require Import ScrollingThms.
From S2P Require Import Positions.
From S2P Require Import Workspace.
From S2P Require Import WorkspaceInv.
From S2P Require Import WorkspaceSpec.

Section ops.
Context {LE : LayoutElement} {LEL : LayoutElementLaws} {GE : Geometry} {GL : GeometryLaws} {LM : Libm} {KF : Keyframe} {OU : Outputs}.
Implicit Types (w : Workspace.Workspace) (x : Id) (t : Tile.Tile) (st : WOutput -> OutputState).
Import Workspace.

Lemma incoming_restore b t : tile_incoming t -> tile_incoming (Tile.set_restore_to_floating b t).
Proof. intros (o & vs & sc & Ho & Ht & Hsy). exists o, vs, sc. split_and!; [done| |done]. destruct Ht. by constructor. Qed.

Section runs.
Context (kin : Id -> Id -> bool) (Hac : acyclic kin) (cv : ClockView) (Hcv : cv_ok cv).

(** ** Configuration and output *)
Definition layouts_ok w : Prop := space_ok (scrolling w) /\ floating_ok kin (floating w).
Lemma base_layouts w : ws_base kin w -> layouts_ok w.
Proof. by intros []. Qed.

(** What the configuration does not change. *)
Definition settings w := (original_output w, output w, scale w, transform w, view_size w, working_area w, name w, layout_config w, id w).

Lemma positive_refl (sc : f64) : positive_finite sc = true -> feqb sc sc = true.
Proof. intros H. apply feqb_refl. by apply positive_finite_cases in H as (m & e & ->). Qed.
Lemma update_spaces_runs o w :
  layouts_ok w -> positive_finite (fractional_scale (scale w)) = true -> options_ok o ->
  runs (update_spaces cv o w) (fun w' => layouts_ok w' /\ around w' = around w /\ view w' = view w
    /\ env (scrolling w') = config_env (view_size w) (working_area w) (fractional_scale (scale w)) o
    /\ fenv (floating w') = {| fe_options := o; fe_view_size := view_size w; fe_working_area := working_area w; fe_scale := fractional_scale (scale w) |}).
Proof.
  intros [Hs Hf] Hsc Ho. unfold update_spaces, on_scrolling, on_floating.
  eapply runs_bind with (R := fun w1 => exists s, w1 = set_scrolling s w /\ space_ok s /\ grid s = grid (scrolling w)
    /\ env s = config_env (view_size w) (working_area w) (fractional_scale (scale w)) o).
  { runs ScrollingViews.update_config_to; [exact Hcv|done..|]. intros s _ (H1 & H2 & H3). returns. by exists s. }
  intros w1 _ (s & -> & H1 & H2 & H3). runs (f_update_config_to kin); [exact Hf|done..|]. intros f _ (H4 & H5 & H6). returns.
  split; [done|]. split_and!; try done. unfold view. cbn. by rewrite H2, H5.
Qed.

Lemma w_update_config_runs base w :
  layouts_ok w -> positive_finite (fractional_scale (scale w)) = true -> options_ok base -> part_ok (layout_config w) ->
  runs (update_config cv base w) (fun w' => ws_base kin w' /\ view w' = view w /\ settings w' = settings w /\ base_options w' = base
    /\ options w' = options_for (fractional_scale (scale w)) (layout_config w) base).
Proof.
  intros Hl Hsc Hb Hp. unfold update_config. set (o := options_for _ _ _). assert (Ho : options_ok o) by by apply options_for_ok.
  runs update_spaces_runs; [done..|]. intros w1 _ (Hl1 & Ha1 & Hv1 & He1 & Hf1). returns.
  assert (Hset : settings w1 = settings w) by (unfold around in Ha1; unfold settings; congruence).
  injection Ha1 as Hoo Hout Hsc1 Htr Hvs Hwa Hbo Hopt Hnm Hlc Hid.
  split_and!; [|done|exact Hset|done|done]. destruct Hl1 as [Hs1 Hfl1]. constructor; try done.
  - constructor; cbn; rewrite ?Hsc1, ?Hlc; try done. exists (fractional_scale (scale w)). split_and!; [done| |done].
    by apply positive_refl.
  - cbn. unfold scrolling_env, with_options. cbn. by rewrite He1, Hvs, Hwa, Hsc1.
  - cbn. unfold floating_env, with_options. cbn. by rewrite Hf1, Hvs, Hwa, Hsc1.
Qed.

Lemma base_update_spaces w :
  around_ok w -> layouts_ok w ->
  runs (update_spaces cv (options w) w) (fun w' => ws_base kin w' /\ view w' = view w /\ around w' = around w).
Proof.
  intros Ha Hl. assert (Ho : options_ok (options w)).
  { destruct (ar_options w Ha) as (sc & Hs & _ & ->). apply options_for_ok; [done|apply Ha..]. }
  finish update_spaces_runs; [done|apply Ha|done|]. intros w1 _ ([Hs1 Hf1] & Ha1 & Hv1 & He1 & Hfe1). split_and!; [|done|done].
  pose proof (around_ok_eq _ _ Ha1 Ha) as Hok. injection Ha1 as Hoo Hout Hsc1 Htr Hvs Hwa Hbo Hopt Hnm Hlc Hid. constructor; try done.
  - rewrite He1. unfold scrolling_env. by rewrite Hvs, Hwa, Hsc1, Hopt.
  - rewrite Hfe1. unfold floating_env. by rewrite Hvs, Hwa, Hsc1, Hopt.
Qed.

(** The workspace with a view of its own or, if it is the same by [==], the old one. *)
Definition viewed (sc : OutputScale) (tr : Transform) (size : Size) (area : Rect) w w' : Prop :=
  ws_base kin w' /\ view w' = view w /\ output w' = output w /\ original_output w' = original_output w
  /\ transform w' = tr /\ feqb (fractional_scale (scale w')) (fractional_scale sc) = true
  /\ (view_size w' = size \/ pair_eqb (view_size w') size = true) /\ (working_area w' = area \/ rect_eqb (working_area w') area = true).

Lemma set_view_size_runs sc tr size area w :
  ws_base kin w -> positive_finite (fractional_scale sc) = true -> runs (set_view_size cv sc tr size area w) (viewed sc tr size area w).
Proof.
  intros Hw Hsc. unfold set_view_size. set (changed := _ || _ || _).
  assert (Hrefl : feqb (fractional_scale sc) (fractional_scale sc) = true).
  { by apply positive_refl. }
  apply runs_if; intros E.
  - apply andb_true_iff in E as [[E Hsz]%andb_true_iff Har]. apply negb_true_iff in E. unfold changed, fneb in E.
    apply orb_false_iff in E as [[E1 _]%orb_false_iff E2]. apply negb_false_iff in E1, E2. apply bool_decide_eq_true_1 in E1.
    returns. unfold viewed. split_and!; auto.
  - set (w1 := with_view sc tr size area w). assert (Hl : layouts_ok w1) by apply (base_layouts _ Hw).
    destruct (wo_around _ _ Hw) as [Ha1 Ha2 Ha3 Ha4]. cbv zeta. apply runs_if; intros Ef.
    + finish w_update_config_runs; [done|done|done|done|]. intros w2 _ (H1 & H2 & Hset & _ & _). unfold settings in Hset. injection Hset as Hoo Hout Hsc1 Htr Hvs Hwa _ _ _.
      unfold viewed. split_and!; try done; [by rewrite Hsc1|by left|by left].
    + apply negb_false_iff in Ef. finish base_update_spaces; [|done|].
      * constructor; try done. destruct Ha4 as (sc0 & H0 & H1 & H2). exists sc0. split_and!; [done| |done]. cbn. by eapply feqb_trans.
      * intros w2 _ (H1 & H2 & Ha). injection Ha as Hoo Hout Hsc1 Htr Hvs Hwa _ _ _ _ _.
        unfold viewed. split_and!; try done; [by rewrite Hsc1|by left|by left].
Qed.

Definition outputs_ok st : Prop := forall o, positive_finite (fractional_scale (current_scale (st o))) = true.
Definition on_output st (o : WOutput) w w' : Prop :=
  viewed (current_scale (st o)) (current_transform (st o)) (output_size (st o)) (non_exclusive_zone (st o)) w w'.

Lemma update_output_size_runs st w o :
  ws_base kin w -> outputs_ok st -> output w = Some o -> runs (update_output_size cv st w) (on_output st o w).
Proof. intros Hw Hst Ho. unfold update_output_size. rewrite Ho. cbn [unwrap mbind res_bind mret res_ret]. by apply set_view_size_runs. Qed.

Lemma output_base w o s : ws_base kin w -> ws_base kin (set_original_output s (set_output o w)).
Proof. intros [Ha]. constructor; try done. by destruct Ha. Qed.

(** The workspace is then on the output asked for, as the output is if it has
    moved, and remembers the output it came from. *)
Lemma set_current_output_runs st o w :
  ws_base kin w -> outputs_ok st ->
  runs (set_current_output cv st o w) (fun w' => ws_base kin w' /\ view w' = view w /\ output w' = o
    /\ (output w = o -> w' = w)
    /\ forall o', o = Some o' -> output w <> o ->
         on_output st o' (set_original_output (if output_id_matches (original_output w) o' then output_id_new o' else original_output w) (set_output o w)) w').
Proof.
  intros Hw Hst. unfold set_current_output. case_bool_decide as E; [returns; by split_and!|].
  destruct o as [o|]; [|returns; split_and!; try done; by apply (output_base w None (original_output w)) in Hw].
  set (w1 := if output_id_matches _ _ then _ else _).
  assert (E1 : w1 = set_original_output (if output_id_matches (original_output w) o then output_id_new o else original_output w) (set_output (Some o) w)).
  { unfold w1. cbn. by destruct (output_id_matches _ _); destruct w. }
  rewrite E1. finish (update_output_size_runs st _ o); [by apply output_base|done|done|]. intros w2 _ H. split_and!; [apply H|apply H| |done|].
  - destruct H as (_ & _ & Ho & _). exact Ho.
  - intros o' [= <-] _. exact H.
Qed.

Definition empty_view (v : View) : Prop := v_windows v = [] /\ g_cols (v_grid v) = [] /\ v_active v = ActiveNo.
Lemma make_ok oo o sc tr size area config base i :
  positive_finite (fractional_scale sc) = true -> options_ok base -> part_ok (config ≫= wc_layout) ->
  ws_ok kin (make oo o sc tr size area config base i) /\ empty_view (view (make oo o sc tr size area config base i)).
Proof.
  intros Hsc Hb Hp. unfold make. set (opt := options_for _ _ _). assert (Ho : options_ok opt) by by apply options_for_ok.
  split; [|done]. split; [|split; [constructor|done]]. constructor; try done.
  - constructor; try done. exists (fractional_scale sc). split; [done|]. split; [|done]. by apply positive_refl.
  - by apply new_ok.
  - by apply floating_space_new.
Qed.

(** ** Adding windows *)
Lemma activate_layout_to b a w w1 (Q R : View -> Prop) :
  wto kin w Q w1 -> (forall v, Q v -> R (v_activated b a v)) -> wto kin w R (activate_layout b a w1).
Proof.
  intros (H1 & H2 & H3) HR. destruct b; cbn; [|split_and!; [done|done|by apply (HR _ H3)]].
  eapply wto_trans; [exact H2|]. eapply wto_mono; [by apply set_layout_to|]. intros v <-. by apply (HR _ H3).
Qed.

Lemma add_scrolling_to i t activate width full w :
  ws_base kin w -> tile_incoming t -> (Tile.id t ∉ g_windows (v_grid (view w))) -> (forall k, i = Some k -> k <= length (g_cols (v_grid (view w)))) ->
  runs (add_scrolling cv i t activate width full w) (wto kin w (eq (v_add_scrolling i (Tile.id t) activate (view w)))).
Proof.
  intros Hw Ht Hx Hi. unfold add_scrolling. runs (on_scrolling_to kin _ w (eq (g_add i (Tile.id t) activate (v_grid (view w)))) (eq (with_grid (g_add i (Tile.id t) activate (v_grid (view w))) (view w)))).
  - done.
  - finish add_tile_runs; [exact Hcv|apply Hw|done|done| |done|].
    + intros k Hk. rewrite <-grid_length. by apply Hi.
    + by intros s _ (H1 & H2 & H3).
  - by intros g <-.
  - intros w1 _ H. returns. eapply activate_layout_to; [exact H|]. by intros v <-.
Qed.
Lemma add_floating_to t activate w :
  ws_base kin w -> tile_incoming t -> (Tile.id t ∉ p_ids (v_pile (view w))) ->
  runs (add_floating kin t activate w) (wto kin w (eq (v_add_floating kin 0 (Tile.id t) activate (view w)))).
Proof.
  intros Hw Ht Hx. unfold add_floating. set (p := p_insert kin 0 (Tile.id t) activate (v_pile (view w))).
  runs (on_floating_to kin _ w (eq p) (eq (with_pile p (view w)))).
  - done.
  - finish add_tile_to; [exact Hac|apply Hw|done|exact Hx|]. intros s _ (H1 & H2 & H3). by rewrite H3.
  - by intros g <-.
  - intros w1 _ H. returns. rewrite scrolling_empty. assert (Hg : v_grid (view w1) = v_grid (view w)) by (destruct H as (_ & _ & <-); done).
    rewrite Hg. eapply activate_layout_to; [exact H|]. by intros v <-.
Qed.

(** The positions of the scrolling layout lead to one above any of its windows. *)
Lemma pos_above_runs x t w : ws_base kin w -> x ∈ g_windows (v_grid (view w)) -> runs (pos_above cv x t w) (fun _ => True).
Proof.
  intros Hw Hx. unfold pos_above. runs (Positions.find_position cv Hcv); [apply Hw|exact Hx|]. intros ps _ (t' & o & b & Hf & _).
  step unwrap_ok; [exact Hf|]. by returns.
Qed.

Lemma active_window_runs w : ws_base kin w -> runs (active_window w) (fun o => o = v_focused (view w)).
Proof.
  intros Hw. unfold active_window, v_focused. rewrite is_active_view. apply runs_if; intros E; rewrite E.
  - returns. unfold FloatingSpace.active_window. cbn. pose proof (fo_active _ (proj1 (wo_floating _ _ Hw))) as Ha.
    destruct (FloatingSpace.active_window_id (floating w)) as [x|]; [|done]. cbn.
    destruct (find _ _) as [t|] eqn:Ef.
    + apply find_some in Ef as [_ Hid]. cbn. unfold Column.has_id in Hid. apply bool_decide_eq_true_1 in Hid. by f_equal.
    + apply list_elem_of_fmap in Ha as (t & -> & Ht). pose proof (find_none _ _ Ef t (proj1 (list_elem_of_In _ _) Ht)) as H. unfold Column.has_id in H.
      by rewrite bool_decide_eq_true_2 in H.
  - rewrite active_window_ok by apply Hw. done.
Qed.

Definition add_target_ok (target : WorkspaceAddWindowTarget Id) w : Prop :=
  match target with
  | Auto => True
  | NewColumnAt i => i <= length (g_cols (v_grid (view w)))
  | NextTo x => x ∈ v_windows (view w)
  end.
Lemma index_of_None x (l : list Id) : (x ∉ l) -> index_of x l = None.
Proof. intros Hx. unfold index_of. apply position_None. intros y Hy. apply bool_decide_eq_false_2. by intros ->. Qed.

Lemma add_tile_above_floating x t activate w i :
  ws_base kin w -> tile_incoming t -> (Tile.id t ∉ p_ids (v_pile (view w))) -> index_of x (p_ids (v_pile (view w))) = Some i ->
  runs (w ← on_floating (FloatingSpace.add_tile_above kin x t activate) w; mret (activate_layout (activate || ScrollingSpace.is_empty (scrolling w)) ActiveYes w))
    (wto kin w (eq (v_add_floating kin i (Tile.id t) activate (view w)))).
Proof.
  intros Hw Ht Hx Hi. set (p := p_insert kin i (Tile.id t) activate (v_pile (view w))).
  runs (on_floating_to kin _ w (eq p) (eq (with_pile p (view w)))).
  - done.
  - assert (Hxi : x ∈ p_ids (v_pile (view w))) by (apply index_lt in Hi; by eapply list_elem_of_lookup_2).
    finish add_tile_above_to; [exact Hac|apply Hw|done|exact Hx|exact Hxi|]. intros s _ (i' & Hi' & H1 & H2 & H3). split_and!; [done|done|].
    rewrite H3. unfold p. change (FloatingInv.ids (floating w)) with (p_ids (v_pile (view w))) in Hi'. rewrite Hi in Hi'. by injection Hi' as <-.
  - by intros g <-.
  - intros w1 _ H. returns. rewrite scrolling_empty. assert (Hg : v_grid (view w1) = v_grid (view w)) by (destruct H as (_ & _ & <-); done).
    rewrite Hg. eapply activate_layout_to; [exact H|]. by intros v <-.
Qed.

Lemma add_right_of_to x t activate width full w :
  ws_base kin w -> tile_incoming t -> (Tile.id t ∉ g_windows (v_grid (view w))) -> x ∈ g_windows (v_grid (view w)) ->
  runs (w ← on_scrolling (ScrollingSpace.add_tile_right_of cv x t activate width full) w; mret (activate_layout activate ActiveNo w))
    (wto kin w (fun v => exists i j, g_find x (v_grid (view w)) = Some (i, j) /\ v = v_add_scrolling (Some (i + 1)) (Tile.id t) activate (view w))).
Proof.
  intros Hw Ht Hx Hin.
  runs (on_scrolling_to kin _ w (fun g => exists i j, g_find x (v_grid (view w)) = Some (i, j) /\ g = g_add (Some (i + 1)) (Tile.id t) activate (v_grid (view w)))
    (fun v => exists i j, g_find x (v_grid (view w)) = Some (i, j) /\ v = with_grid (g_add (Some (i + 1)) (Tile.id t) activate (v_grid (view w))) (view w))).
  - done.
  - finish (add_tile_right_of_to cv Hcv x t); [apply Hw|done..|]. intros s _ (i & j & Hf & H1 & H2 & H3). split_and!; [done|done|]. by exists i, j.
  - intros g (i & j & Hf & ->). by exists i, j.
  - intros w1 _ H. returns. eapply activate_layout_to; [exact H|]. intros v (i & j & Hf & ->). by exists i, j.
Qed.

Lemma add_tile_runs_to t target activate width full is_floating w :
  ws_base kin w -> tile_incoming t -> (Tile.id t ∉ v_windows (view w)) -> add_target_ok target w ->
  (v_windows (view w) <> [] -> is_Some (v_focused (view w))) ->
  runs (add_tile cv kin t target activate width full is_floating w)
    (wto kin w (add_tile_spec kin (Tile.id t) target activate (is_floating && is_normal (win_pending_sizing_mode (Tile.window t))) (view w))).
Proof.
  intros Hw Ht Hx Htg Hfoc. unfold add_tile. apply not_elem_of_app in Hx as [Hxg Hxp].
  apply (incoming_restore is_floating) in Ht. change (Tile.id t) with (Tile.id (Tile.set_restore_to_floating is_floating t)) in *.
  change (win_pending_sizing_mode (Tile.window t)) with (win_pending_sizing_mode (Tile.window (Tile.set_restore_to_floating is_floating t))).
  set (t1 := Tile.set_restore_to_floating is_floating t) in *. clearbody t1. clear t. set (floats := is_floating && _).
  destruct target as [|i|x]; cbn [add_tile_spec add_target_ok] in *.
  - runs active_pending_runs; [apply Hw|]. intros b _ _. cbv zeta. destruct floats.
    + finish add_floating_to; [done..|]. intros w1 _ H. eapply wto_mono; [exact H|]. intros v <-. by exists (negb b).
    + finish add_scrolling_to; [done..|]. intros w1 _ H. eapply wto_mono; [exact H|]. intros v <-. by exists (negb b).
  - finish add_scrolling_to; [done..|by intros k [= <-]|]. intros w1 _ H. eapply wto_mono; [exact H|]. by intros v <-.
  - assert (Hsm : runs (match activate with Smart => o ← active_window w; a ← unwrap o; mret (bool_decide (a = x)) | _ => mret false end)
      (fun b => map_smart b activate = map_smart (bool_decide (v_focused (view w) = Some x)) activate)).
    { destruct activate; [by returns| |by returns]. runs active_window_runs; [exact Hw|]. intros o _ ->.
      destruct Hfoc as [y Hy]; [intros E; rewrite E in Htg; by apply elem_of_nil in Htg|]. rewrite Hy. step unwrap_ok; [done|]. returns. cbn.
      apply bool_decide_ext. split; [by intros ->|by intros [= ->]]. }
    runs Hsm. intros b _ ->. set (a := map_smart _ activate). cbv zeta. rewrite floating_contains.
    destruct (decide (x ∈ p_ids (v_pile (view w)))) as [Hin|Hnin].
    + destruct (index_of_in x _ Hin) as (i & Hi & _). rewrite bool_decide_eq_true_2 by done. destruct floats.
      * finish add_tile_above_floating; [done|done|exact Hxp|exact Hi|]. intros w1 _ H. eapply wto_mono; [exact H|]. intros v <-. cbn [add_tile_spec]. by rewrite Hi.
      * finish add_scrolling_to; [done..|]. intros w1 _ H. eapply wto_mono; [exact H|]. intros v <-. cbn [add_tile_spec]. by rewrite Hi.
    + pose proof (index_of_None x (p_ids (v_pile (view w))) Hnin) as Hi. rewrite bool_decide_eq_false_2 by done. apply elem_of_app in Htg as [Htg|?]; [|done]. destruct floats.
      * runs pos_above_runs; [done|done|]. intros p _ _. finish add_floating_to; [done|by apply incoming_floating_pos|done|]. intros w1 _ H.
        eapply wto_mono; [exact H|]. intros v <-. cbn [add_tile_spec]. by rewrite Hi.
      * finish add_right_of_to; [done..|]. intros w1 _ H. eapply wto_mono; [exact H|]. intros v Hv. cbn [add_tile_spec]. by rewrite Hi.
Qed.

Lemma add_tile_to_column_to i j t activate w c :
  ws_base kin w -> tile_incoming t -> (Tile.id t ∉ g_windows (v_grid (view w))) -> ScrollingSpace.columns (scrolling w) !! i = Some c ->
  (forall k, j = Some k -> k <= length (Column.tiles c)) ->
  runs (add_tile_to_column cv i j t activate w) (wto kin w (eq (v_add_to_column i j (Tile.id t) activate (view w)))).
Proof.
  intros Hw Ht Hx Hc Hj. unfold add_tile_to_column. set (g := g_add_to i j (Tile.id t) activate (v_grid (view w))).
  runs (on_scrolling_to kin _ w (eq g) (eq (with_grid g (view w)))).
  - done.
  - finish add_tile_to_column_runs; [exact Hcv|apply Hw|exact Hc|done|done|done|]. by intros s _ (H1 & H2 & H3).
  - by intros g' <-.
  - intros w1 _ H. returns. eapply activate_layout_to; [exact H|]. by intros v <-.
Qed.

Definition column_incoming (c : Column.Column) w : Prop :=
  (exists E, env_ok E /\ col_ok E c) /\ NoDup (ids c) /\ forall x, x ∈ ids c -> (x ∉ v_windows (view w)).
Lemma add_column_to c activate w :
  ws_base kin w -> column_incoming c w -> runs (add_column cv c activate w) (wto kin w (eq (v_add_column (gcol c) activate (view w)))).
Proof.
  intros Hw ((E & HE & Hc) & Hn & Hd). unfold add_column. set (g := g_add_column None (gcol c) activate (v_grid (view w))).
  runs (on_scrolling_to kin _ w (eq g) (eq (with_grid g (view w)))).
  - done.
  - finish (add_column_runs cv Hcv None c E); [apply Hw|done|done|done| |done|done|].
    + intros x Hx Hx'. apply (Hd x Hx). apply elem_of_app. by left.
    + by intros s _ (H1 & H2 & H3).
  - by intros g' <-.
  - intros w1 _ H. returns. eapply activate_layout_to; [exact H|]. by intros v <-.
Qed.

(** ** Removing windows *)
Lemma after_removing_to b w w1 v : wto kin w (eq v) w1 -> wto kin w (eq (v_after_removing b v)) (update_focus_floating_tiling_after_removing b w1).
Proof.
  intros (H1 & H2 & ->). eapply wto_trans; [exact H2|]. unfold update_focus_floating_tiling_after_removing, v_after_removing.
  rewrite floating_empty, scrolling_empty. destruct b.
  - destruct (bool_decide _); [by apply set_layout_to|by apply wto_refl].
  - destruct (_ && _); [by apply set_layout_to|by apply wto_refl].
Qed.

Lemma remove_tile_runs_to x tr w :
  ws_base kin w -> x ∈ v_windows (view w) ->
  runs (remove_tile cv x tr w) (fun '(r, w') => (tile_incoming (rt_tile r) /\ Tile.id (rt_tile r) = x) /\ wto kin w (eq (v_remove x (view w))) w').
Proof.
  intros Hw Hx. unfold remove_tile, v_remove. rewrite floating_contains. case_bool_decide as E.
  - runs (floating_returns_to kin _ w (fun r => tile_incoming (rt_tile r) /\ Tile.id (rt_tile r) = x) (fun _ => eq (p_remove x (v_pile (view w))))
      (fun _ => eq (with_pile (p_remove x (v_pile (view w))) (view w)))).
    + done.
    + finish FloatingOps.remove_tile_to; [apply Hw|exact E|]. by intros [r s] _ (H1 & H2 & _ & H3 & H4 & H5).
    + by intros r p _ <-.
    + intros [r w1] _ [Hr H]. returns. split; [done|]. by apply after_removing_to.
  - apply elem_of_app in Hx as [Hx|?]; [|done]. set (g := g_remove_source (Some x) (v_grid (view w))).
    runs (scrolling_returns_to kin _ w (fun r => tile_incoming (rt_tile r) /\ Tile.id (rt_tile r) = x) (fun _ => eq g) (fun _ => eq (with_grid g (view w)))).
    + done.
    + finish remove_by_id_runs; [exact Hcv|apply Hw|exact Hx|]. intros [r s] _ (H1 & H2 & i & j & Hf & H3 & H4 & H5). split_and!; [done|done|done|done|].
      rewrite H5. symmetry. by apply (remove_source_to _ _ i j).
    + by intros r p _ <-.
    + intros [r w1] _ [Hr H]. returns. split; [done|]. by apply after_removing_to.
Qed.

Lemma remove_active_tile_runs_to tr w :
  ws_base kin w ->
  runs (remove_active_tile cv tr w) (fun o => match o with
    | Some (r, w') => tile_incoming (rt_tile r) /\ v_focused (view w) = Some (Tile.id (rt_tile r)) /\ wto kin w (eq (v_remove_active (view w))) w'
    | None => v_focused (view w) = None
    end).
Proof.
  intros Hw. unfold remove_active_tile, v_remove_active, v_focused. rewrite is_active_view. destruct (v_floats (view w)) eqn:E.
  - runs FloatingOps.remove_active_to; [apply Hw|]. intros [[r s]|] _ H; returns; [|exact H].
    destruct H as (x & Hx & H1 & <- & _ & H2 & H3 & H4). change (p_active (v_pile (view w))) with (FloatingSpace.active_window_id (floating w)). rewrite Hx.
    split_and!; [done|done|]. apply after_removing_to. cbn [fst snd]. eapply wto_mono; [by apply set_floating_to; [done|exact H2|exact H3]|].
    intros v <-. by rewrite H4.
  - runs remove_active_tile_runs; [exact Hcv|apply Hw|]. intros [[r s]|] _ H; returns.
    + destruct H as (H1 & i & j & Hf & Hat & H2 & H3 & H4).
      assert (Hne : g_empty (v_grid (view w)) = false).
      { unfold g_empty. destruct (g_cols (v_grid (view w))) eqn:Ec; [|done]. change (grid (scrolling w)) with (v_grid (view w)) in Hf.
        unfold g_source in Hf. by rewrite Ec in Hf. }
      rewrite Hne. split_and!; [done| |].
      * change (v_grid (view w)) with (grid (scrolling w)). unfold focused, active_of. unfold g_source in Hf. destruct (g_cols _ !! _) as [c|] eqn:Ec; [|done]. cbn [mbind option_bind] in Hf |- *. injection Hf as <- <-. change (rt_tile (r, s).1) with (rt_tile r). rewrite <-Hat. unfold g_at. change (ScrollingSpace.active_column_idx (scrolling w)) with (g_active (grid (scrolling w))). by rewrite Ec.
      * apply after_removing_to. cbn [fst snd]. eapply wto_mono; [by apply set_scrolling_to; [done|exact H2|exact H3]|]. intros v <-. rewrite H4.
        f_equal. symmetry. by apply (remove_source_to _ _ i j).
    + cbn. unfold focused, active_of. by rewrite H.
Qed.

Lemma remove_active_column_runs_to w :
  ws_base kin w ->
  runs (remove_active_column cv w) (fun o => match o with
    | Some (c, w') => col_ok (env (scrolling w)) c /\ g_cols (v_grid (view w)) !! g_active (v_grid (view w)) = Some (gcol c)
        /\ wto kin w (eq (v_remove_active_column (view w))) w'
    | None => v_remove_active_column (view w) = view w
    end).
Proof.
  intros Hw. unfold remove_active_column, v_remove_active_column. rewrite is_active_view. destruct (v_floats (view w)) eqn:E; [by returns|]. cbn [orb].
  runs remove_active_column_runs; [exact Hcv|apply Hw|]. intros [[c s]|] _ H; returns.
  - destruct H as (H1 & H2 & H3 & H4 & H5). split_and!; [done|exact H2|].
    assert (Hne : g_empty (v_grid (view w)) = false) by (unfold g_empty; change (v_grid (view w)) with (grid (scrolling w)); by destruct (g_cols (grid (scrolling w)))).
    rewrite Hne. apply after_removing_to. cbn [fst snd]. eapply wto_mono; [by apply set_scrolling_to; [done|exact H3|exact H4]|]. intros v <-. by rewrite H5.
  - assert (Hne : g_empty (v_grid (view w)) = true) by (unfold g_empty; change (v_grid (view w)) with (grid (scrolling w)); by rewrite H). by rewrite Hne.
Qed.

(** ** Focus *)
Lemma no_index x (p : Pile) : (x ∉ p_ids p) -> p_activate kin x p = p /\ p_focus x p = p.
Proof. intros Hx. unfold p_activate, p_focus. rewrite index_of_None, bool_decide_eq_false_2 by done. done. Qed.

Lemma scrolling_activated_to x (a : FloatingActive -> FloatingActive) w :
  ws_base kin w -> (x ∉ p_ids (v_pile (view w))) ->
  runs ('(b, w) ← scrolling_returns (ScrollingSpace.activate_window cv x) w; mret (b, activate_layout b (a (floating_is_active w)) w))
    (fun '(b, w') => b = bool_decide (x ∈ v_windows (view w))
      /\ wto kin w (eq (if bool_decide (x ∈ g_windows (v_grid (view w))) then with_layout (a (v_active (view w))) (with_grid (g_activate_window x (v_grid (view w))) (view w)) else view w)) w').
Proof.
  intros Hw Hx. set (g := g_activate_window x (v_grid (view w))).
  assert (Hb : bool_decide (x ∈ v_windows (view w)) = bool_decide (x ∈ g_windows (v_grid (view w)))).
  { apply bool_decide_ext. unfold v_windows. rewrite elem_of_app. naive_solver. }
  runs (scrolling_returns_to kin _ w (eq (bool_decide (x ∈ g_windows (v_grid (view w))))) (fun _ => eq g) (fun _ => eq (with_grid g (view w)))).
  - done.
  - finish activate_window_runs; [exact Hcv|apply Hw|]. by intros [b s] _ (-> & H1 & H2 & H3).
  - by intros b g' _ <-.
  - intros [b w1] _ [<- H]. cbv beta in H. returns. split; [by rewrite Hb|]. assert (Ha : floating_is_active w1 = v_active (view w)) by (destruct H as (_ & _ & H); by injection H). rewrite Ha. destruct (bool_decide (x ∈ g_windows (v_grid (view w)))) eqn:E.
    + eapply activate_layout_to; [exact H|]. intros v <-. done.
    + cbn. eapply wto_mono; [exact H|]. intros v <-. unfold g, g_activate_window. destruct (g_find x _) as [[i j]|] eqn:Ef; [|by destruct (view w)].
      exfalso. apply bool_decide_eq_false_1 in E. apply E. unfold g_find in Ef. destruct (position _ _) as [k|] eqn:Ek; [|done]. apply position_Some in Ek as (col & Hk & Hin & _).
      apply bool_decide_eq_true_1 in Hin. apply elem_of_windows. eauto.
Qed.

Lemma activate_window_to x w :
  ws_base kin w -> runs (activate_window cv kin x w) (fun '(b, w') => b = bool_decide (x ∈ v_windows (view w)) /\ wto kin w (eq (v_activate kin x (view w))) w').
Proof.
  intros Hw. unfold activate_window, v_activate. set (p := p_activate kin x (v_pile (view w))).
  runs (floating_returns_to kin _ w (eq (bool_decide (x ∈ p_ids (v_pile (view w))))) (fun _ => eq p) (fun _ => eq (with_pile p (view w)))).
  - done.
  - finish f_activate_to; [exact Hac|apply Hw|]. by intros [b s] _ (-> & H1 & H2 & H3).
  - by intros b g' _ <-.
  - intros [b w1] _ [<- H]. case_bool_decide as E.
    + returns. split; [symmetry; apply bool_decide_eq_true_2, elem_of_app; by right|]. destruct H as (H1 & H2 & H3).
      eapply wto_trans; [exact H2|]. eapply wto_mono; [by apply set_layout_to|]. intros v <-. by rewrite <-H3.
    + destruct H as (H1 & H2 & H3). assert (Hv : view w1 = view w) by (rewrite <-H3; unfold p; rewrite (proj1 (no_index x _ E)); by destruct (view w)).
      finish (scrolling_activated_to x (fun _ => ActiveNo)); [done|by rewrite Hv|]. rewrite Hv. intros [b w2] _ [Hb H]. split; [exact Hb|]. by eapply wto_trans.
Qed.
Lemma activate_without_raising_to x w :
  ws_base kin w ->
  runs (activate_window_without_raising cv x w) (fun '(b, w') => b = bool_decide (x ∈ v_windows (view w)) /\ wto kin w (eq (v_activate_without_raising x (view w))) w').
Proof.
  intros Hw. unfold activate_window_without_raising, v_activate_without_raising. set (p := p_focus x (v_pile (view w))).
  runs (floating_returns_to kin _ w (eq (bool_decide (x ∈ p_ids (v_pile (view w))))) (fun _ => eq p) (fun _ => eq (with_pile p (view w)))).
  - done.
  - returns. pose proof (focus_to kin x (floating w) (wo_floating _ _ Hw)) as H. destruct (FloatingSpace.activate_window_without_raising x (floating w)) as [b s].
    by destruct H as (-> & H1 & H2 & H3).
  - by intros b g' _ <-.
  - intros [b w1] _ [<- H]. case_bool_decide as E.
    + returns. split; [symmetry; apply bool_decide_eq_true_2, elem_of_app; by right|]. destruct H as (H1 & H2 & H3).
      eapply wto_trans; [exact H2|]. eapply wto_mono; [by apply set_layout_to|]. intros v <-. by rewrite <-H3.
    + destruct H as (H1 & H2 & H3). assert (Hv : view w1 = view w) by (rewrite <-H3; unfold p; rewrite (proj2 (no_index x _ E)); by destruct (view w)).
      finish (scrolling_activated_to x not_floating); [done|by rewrite Hv|]. rewrite Hv. intros [b w2] _ [Hb H]. split; [exact Hb|]. by eapply wto_trans.
Qed.

Lemma switch_to w : ws_base kin w -> wto kin w (eq (v_switch (view w))) (switch_focus_floating_tiling w).
Proof.
  intros Hw. unfold switch_focus_floating_tiling, v_switch. rewrite floating_empty, scrolling_empty, is_active_view.
  destruct (bool_decide _); [by apply wto_refl|]. cbn [orb]. destruct (g_empty _); [by apply wto_refl|]. by apply set_layout_to.
Qed.
End runs.
End ops.
