(* ===== verification/WorkspaceTiling.v ===== *)
(** * Workspaces: between the layouts

    Windows that move to the other layout and back, those made fullscreen or
    maximised, which tile first, and floating positions stored for later. *)

From stdpp Require Import base numbers option list strings.
From Stdlib Require Import ZArith Lia SpecFloat.
From S2P Require Import Prelude.
From S2P Require Import Runs.
From S2P Require Import F64.
From S2P Require Import Clock.
From S2P Require Import Animation.
From S2P Require Import AnimTotal.
From S2P Require Import LayoutTypes.
From S2P Require Import F64Sign.
From S2P Require Import Tile.
From S2P Require Import TileInv.
From S2P Require Import Floating.
From S2P Require Import FloatingStack.
From S2P Require Import FloatingInv.
From S2P Require Import FloatingOps.
From S2P Require Import FloatingThms.
From S2P Require Import Column.
From S2P Require Import ColumnInv.
From S2P Require Import ColumnOps.
From S2P Require Import Scrolling.
From S2P Require Import ScrollingSpec.
From S2P Require Import ScrollingInv.
From S2P Require Import ScrollingOps.
From S2P Require Import ScrollingTiles.
From S2P Require Import ScrollingRemove.
From S2P Require Import ScrollingMoves.
From S2P Require Import ScrollingModes.
From S2P Require Import ScrollingViews.
From S2P Require Import ScrollingGrid.
From S2P Require Import ScrollingThms.
From S2P Require Import Positions.
From S2P Require Import Workspace.
From S2P Require Import WorkspaceInv.
From S2P Require Import WorkspaceSpec.
From S2P Require Import WorkspaceOps.


Section ops.
Context {LE : LayoutElement} {LEL : LayoutElementLaws} {GE : Geometry} {GL : GeometryLaws} {LM : Libm} {KF : Keyframe} {OU : Outputs}.
Implicit Types (w : Workspace.Workspace) (x : Id) (t : Tile.Tile) (p : Point).
Import Workspace.

(** An operation on a tile that the rest of the layout does not see. *)
Definition unseen (f : Tile.Tile -> res Tile.Tile) : Prop :=
  forall o vs sc t, options_ok o -> tile_ok o vs sc t -> runs (f t) (kept o vs sc t).
Lemma unseen_restore (b : Tile.Tile -> bool) v : unseen (fun t => mret (if b t then Tile.set_restore_to_floating v t else t)).
Proof. intros o vs sc t Ho []. returns. destruct (b t); [|by split; [by constructor|]]. split; [by constructor|done]. Qed.
Lemma unseen_pos v o vs sc t : tile_ok o vs sc t -> kept o vs sc t (Tile.set_floating_pos v t).
Proof. intros []. split; [by constructor|done]. Qed.

Section runs.
Context (kin : Id -> Id -> bool) (Hac : acyclic kin) (cv : ClockView) (Hcv : cv_ok cv).

Lemma unseen_move p : unseen (Tile.animate_move_from cv p).
Proof. intros o vs sc t Ho Ht. by apply tile_animate_move_runs. Qed.
Lemma unseen_store (a b : PositionChange) fl : unseen (store_floating_pos a b fl).
Proof.
  intros o vs sc t Ho Ht. unfold store_floating_pos. match goal with |- runs (match ?m with _ => _ end) _ => destruct m as [pos|] end.
  - cbv zeta. runs FloatingOps.changed_coordinate_runs. intros px _ _. runs FloatingOps.changed_coordinate_runs. intros py _ _. returns.
    by apply unseen_pos.
  - returns. by apply kept_refl.
Qed.

(** ** A tile of the scrolling layout *)
Lemma unseen_column s i j f c :
  space_ok s -> ScrollingSpace.columns s !! i = Some c -> j < length (Column.tiles c) -> unseen f ->
  runs (ScrollingSpace.update_column i (Column.update_tile j f) s) (to s (grid s)).
Proof.
  intros Hs Hi Hj Hf. finish (update_column_runs i _ s c Hs Hi); [|by intros s' _ [? _]]. pose proof (space_col s i c Hs Hi) as Hc.
  finish (ColumnOps.update_tile_runs (env s)); [apply Hc|exact Hj| |].
  - intros t Ht. apply Hf; [apply Hs|exact Ht].
  - intros c' _ H. by apply (kept_ok (env s)).
Qed.
Lemma unseen_source s o f :
  space_ok s -> ScrollingSpace.is_empty s = false -> source_ok o s -> unseen f ->
  runs ('(i, j) ← ScrollingSpace.source o s; ScrollingSpace.update_column i (Column.update_tile j f) s) (to s (grid s)).
Proof.
  intros Hs He Ho Hf. runs source_runs; [done..|]. intros [i j] _ (_ & c & t & Hi & Ht & _). eapply unseen_column; [done|exact Hi| |done].
  by eapply lookup_lt_Some.
Qed.
Lemma nonempty_windows s x : x ∈ g_windows (grid s) -> ScrollingSpace.is_empty s = false.
Proof.
  intros Hx. rewrite <-grid_empty. unfold g_empty, g_windows in *. destruct (g_cols (grid s)); [by apply elem_of_nil in Hx|done].
Qed.
Lemma update_scrolling_tile_to x f w :
  ws_base kin w -> x ∈ g_windows (v_grid (view w)) -> unseen f -> runs (update_scrolling_tile x f w) (wto kin w (eq (view w))).
Proof.
  intros Hw Hx Hf. unfold update_scrolling_tile. apply (on_scrolling_to kin _ w (eq (v_grid (view w)))); [done| |intros g <-; by destruct (view w)].
  finish unseen_source; [apply Hw|by eapply nonempty_windows|by intros ? [= <-]|exact Hf|]. by intros s _ (H1 & H2 & H3).
Qed.

(** ** Positions *)
Lemma find_position_in x (ps : list (Tile.Tile * Point * bool)) :
  x ∈ ((fun y => Tile.id y.1.1) <$> ps) -> runs (Workspace.find_position x ps) (fun _ => True).
Proof.
  intros Hx. unfold Workspace.find_position. destruct (find _ ps) as [y|] eqn:E; [by returns|]. exfalso.
  apply list_elem_of_fmap in Hx as (y & -> & Hy). pose proof (find_none _ _ E y (proj1 (list_elem_of_In _ _) Hy)) as H.
  unfold Column.has_id in H. by rewrite bool_decide_eq_true_2 in H.
Qed.
Lemma positions_ids (ps : list (Tile.Tile * Point * bool)) ts : ((fun y => y.1.1) <$> ps) ≡ₚ ts -> ((fun y => Tile.id y.1.1) <$> ps) ≡ₚ (Tile.id <$> ts).
Proof. intros H. rewrite <-H, <-list_fmap_compose. done. Qed.

(** All windows have a position. *)
Lemma positions_runs w :
  ws_base kin w -> runs (tiles_with_render_positions cv w) (fun ps => forall x, x ∈ v_windows (view w) -> x ∈ ((fun y => Tile.id y.1.1) <$> ps)).
Proof.
  intros Hw. unfold tiles_with_render_positions. runs (floating_positions_runs cv Hcv kin); [apply Hw|]. intros fl _ Hfl.
  eapply runs_bind with (R := fun _ => True).
  { unfold is_floating_visible. runs above_top_runs; [apply Hw|]. intros b _ _. by returns. }
  intros vis _ _. runs (render_positions_runs cv Hcv); [apply Hw|]. intros sc _ Hsc. returns. intros x Hx. rewrite fmap_app. apply elem_of_app.
  apply elem_of_app in Hx as [Hx|Hx].
  - right. rewrite (positions_ids _ _ Hsc). by rewrite windows_tiles.
  - left. rewrite <-list_fmap_compose. cbn in Hx |- *. unfold FloatingInv.ids in Hx. rewrite <-Hfl, <-list_fmap_compose in Hx. exact Hx.
Qed.

Lemma update_positioned_to x f w :
  ws_base kin w -> x ∈ v_windows (view w) -> (forall p, unseen (f p)) -> runs (update_positioned_tile cv x f w) (wto kin w (eq (view w))).
Proof.
  intros Hw Hx Hf. unfold update_positioned_tile. destruct (FloatingSpace.idx_of x (floating w)) as [i|] eqn:Ei.
  - destruct (idx_of_Some _ _ _ Ei) as (t & Ht & _). runs (floating_positions_runs cv Hcv kin); [apply Hw|]. intros ps _ Hps.
    runs runs_index; [|].
    { apply lookup_lt_Some in Ht. by rewrite <-Hps, length_fmap in Ht. }
    intros [t' pos] _ _. apply (on_floating_to kin _ w (eq (v_pile (view w)))); [done| |intros p <-; by destruct (view w)].
    pose proof (lookup_floats _ i t (proj1 (wo_floating _ _ Hw)) Ht) as Hfl.
    finish update_tile_to; [apply Hw|exact Ht| |].
    + finish (Hf pos); [apply (fo_options _ (proj1 (wo_floating _ _ Hw)))|apply Hfl|]. intros t2 _ H. by apply (kept_alike (fenv (floating w))).
    + by intros s _ (H1 & H2 & H3).
  - apply idx_of_None in Ei. apply elem_of_app in Hx as [Hx|Hx]; [|done]. runs (render_positions_runs cv Hcv); [apply Hw|]. intros ps _ Hps.
    runs find_position_in; [rewrite (positions_ids _ _ Hps); by rewrite windows_tiles|]. intros pos _ _. by apply update_scrolling_tile_to.
Qed.

(** ** To the other layout *)
Lemma to_scrolling_to x a w :
  ws_base kin w -> x ∈ p_ids (v_pile (view w)) -> NoDup (v_windows (view w)) ->
  runs (to_scrolling cv x a w) (wto kin w (eq (v_activated a ActiveNo (with_grid (g_add None x a (v_grid (view w))) (with_pile (p_remove x (v_pile (view w))) (view w)))))).
Proof.
  intros Hw Hx Hn. unfold to_scrolling. set (p := p_remove x (v_pile (view w))).
  runs (floating_returns_to kin _ w (fun r => tile_incoming (rt_tile r) /\ Tile.id (rt_tile r) = x) (fun _ => eq p) (fun _ => eq (with_pile p (view w)))).
  - done.
  - finish FloatingOps.remove_tile_to; [apply Hw|exact Hx|]. by intros [r s] _ (H1 & H2 & _ & H3 & H4 & H5).
  - by intros r p' _ <-.
  - intros [r w1] _ [[Hr Hid] (H1 & H2 & H3)]. cbv beta in H3.
    assert (Hg : v_grid (view w1) = v_grid (view w)) by (by rewrite <-H3).
    runs (on_scrolling_to kin _ w1 (eq (g_add None x a (v_grid (view w)))) (eq (with_grid (g_add None x a (v_grid (view w))) (view w1)))).
    + done.
    + finish (add_tile_runs cv Hcv None (rt_tile r)); [apply H1|done| |done|done|].
      * change (grid (scrolling w1)) with (v_grid (view w1)). rewrite Hg, Hid. intros Hin. apply NoDup_app in Hn as (_ & Hd & _). by apply (Hd x).
      * intros s _ (Ha & Hb & Hc). split_and!; [done|done|]. rewrite Hc, Hid. change (grid (scrolling w1)) with (v_grid (view w1)). by rewrite Hg.
    + by intros g <-.
    + intros w2 _ H. returns. eapply wto_trans; [exact H2|]. eapply activate_layout_to; [exact H|]. intros v <-. by rewrite <-H3.
Qed.

Lemma to_floating_to x p a w :
  ws_base kin w -> x ∈ g_windows (v_grid (view w)) -> NoDup (v_windows (view w)) ->
  runs (to_floating cv kin x p a w) (wto kin w (eq (v_activated a ActiveYes (with_pile (p_insert kin 0 x a (v_pile (view w))) (with_grid (g_remove_source (Some x) (v_grid (view w))) (view w)))))).
Proof.
  intros Hw Hx Hn. unfold to_floating. set (g := g_remove_source (Some x) (v_grid (view w))).
  runs (scrolling_returns_to kin _ w (fun r => tile_incoming (rt_tile r) /\ Tile.id (rt_tile r) = x) (fun _ => eq g) (fun _ => eq (with_grid g (view w)))).
  - done.
  - finish remove_by_id_runs; [exact Hcv|apply Hw|exact Hx|]. intros [r s] _ (H1 & H2 & i & j & Hf & H3 & H4 & H5). split_and!; [done|done|done|done|].
    rewrite H5. symmetry. by apply (remove_source_to _ _ i j).
  - by intros r p' _ <-.
  - intros [r w1] _ [[Hr Hid] (H1 & H2 & H3)]. cbv beta in H3.
    assert (Hp : v_pile (view w1) = v_pile (view w)) by (by rewrite <-H3).
    assert (Hstop : tile_incoming (Tile.stop_move_animations (rt_tile r)) /\ Tile.id (Tile.stop_move_animations (rt_tile r)) = x).
    { split; [|by rewrite <-Hid]. destruct Hr as (o & vs & sc & Ho & Ht & Hsy). exists o, vs, sc. pose proof (stop_move_kept o vs sc _ Ht) as [H5 H6].
      split_and!; [done|done|by eapply synced_kept]. }
    cbv zeta. match goal with |- context [FloatingSpace.add_tile kin ?t0 a] => set (t := t0) end.
    assert (Ht : tile_incoming t /\ Tile.id t = x).
    { unfold t. destruct (FloatingSpace.stored_or_default_tile_pos _); [done|]. split; [apply incoming_floating_pos, Hstop|apply Hstop]. }
    clearbody t. destruct Ht as [Hin <-].
    set (q := p_insert kin 0 (Tile.id t) a (v_pile (view w))).
    runs (on_floating_to kin _ w1 (eq q) (eq (with_pile q (view w1)))).
    + done.
    + finish add_tile_to; [exact Hac|apply H1|done| |].
      * change (FloatingInv.ids (floating w1)) with (p_ids (v_pile (view w1))). rewrite Hp. intros Hin'. apply NoDup_app in Hn as (_ & Hd & _). by apply (Hd (Tile.id t)).
      * intros s _ (Ha & Hb & Hc). split_and!; [done|done|]. rewrite Hc. change (pile (floating w1)) with (v_pile (view w1)). by rewrite Hp.
    + by intros p' <-.
    + intros w2 _ H. returns. eapply wto_trans; [exact H2|]. eapply activate_layout_to; [exact H|]. intros v <-. by rewrite <-H3.
Qed.

Definition v_target (window : option Id) (v : View) : option Id := match window with Some x => Some x | None => v_focused v end.
Definition v_toggled kin (window : option Id) (v : View) : View := match v_target window v with Some x => v_toggle kin x v | None => v end.

Lemma ws_sane w : ws_base kin w -> v_sane (view w).
Proof. intros Hw. split; [apply space_grid_ok, Hw|]. pose proof (fo_active _ (proj1 (wo_floating _ _ Hw))) as H.
  change (p_active (v_pile (view w))) with (FloatingSpace.active_window_id (floating w)).
  destruct (FloatingSpace.active_window_id (floating w)); [exact H|]. cbn. unfold FloatingInv.ids. by rewrite H.
Qed.
Lemma ok_focused w : ws_ok kin w -> v_windows (view w) <> [] -> exists x, v_focused (view w) = Some x /\ x ∈ v_windows (view w).
Proof. intros [Hw Hv] Hne. apply v_focused_in; [by apply ws_sane|apply Hv|done]. Qed.

Lemma toggle_window_floating_to window w :
  ws_ok kin w -> (forall x, window = Some x -> x ∈ v_windows (view w)) ->
  runs (toggle_window_floating cv kin window w) (wto kin w (eq (v_toggled kin window (view w)))).
Proof.
  intros [Hw Hv] Hx. unfold toggle_window_floating. runs active_window_runs; [exact Hw|]. intros o _ ->. cbv zeta.
  change (match window with Some x => Some x | None => v_focused (view w) end) with (v_target window (view w)).
  unfold v_toggled. destruct (v_target window (view w)) as [x|] eqn:Et; [|by returns].
  assert (Hin : x ∈ v_windows (view w)).
  { destruct window as [y|]; [injection Et as <-; by apply Hx|]. unfold v_target in Et.
    destruct (ok_focused w) as (y & Hy & Hin); [done|by eapply no_window_focused; [apply ws_sane|]|]. congruence. }
  assert (Ha : match window with Some x0 => bool_decide (Some x0 = v_focused (view w)) | None => true end = bool_decide (v_focused (view w) = Some x)).
  { destruct window as [y|]; unfold v_target in Et; [injection Et as <-; by apply bool_decide_ext|]. by rewrite Et, bool_decide_eq_true_2. }
  rewrite Ha. runs positions_runs; [done|]. intros ps _ Hps. runs find_position_in; [by apply Hps|]. intros pos _ _.
  eapply runs_bind with (R := wto kin w (eq (v_toggle kin x (view w)))).
  { rewrite floating_contains. unfold v_toggle. destruct (bool_decide (x ∈ p_ids (v_pile (view w)))) eqn:E.
    - apply bool_decide_eq_true_1 in E. apply to_scrolling_to; [done|done|apply Hv].
    - apply bool_decide_eq_false_1 in E. apply to_floating_to; [done| |apply Hv]. by apply elem_of_app in Hin as [?|?]. }
  intros w1 _ (H1 & H2 & H3). finish update_positioned_to; [done|rewrite <-H3; by rewrite v_toggle_windows|intros p; apply unseen_move|].
  intros w2 _ H. eapply wto_trans; [exact H2|]. eapply wto_mono; [exact H|]. intros v <-. by rewrite H3.
Qed.

Definition v_on_floating (window : option Id) (v : View) : bool :=
  match window with Some x => bool_decide (x ∈ p_ids (v_pile v)) | None => v_floats v end.
Lemma on_floating_view window w : on_floating_window window w = v_on_floating window (view w).
Proof. destruct window; [apply floating_contains|done]. Qed.

Lemma set_window_floating_to window b w :
  ws_ok kin w -> (forall x, window = Some x -> x ∈ v_windows (view w)) ->
  runs (set_window_floating cv kin window b w) (wto kin w (eq (if Bool.eqb (v_on_floating window (view w)) b then view w else v_toggled kin window (view w)))).
Proof.
  intros Hw Hx. unfold set_window_floating. rewrite on_floating_view. destruct (Bool.eqb _ b); [returns; by apply wto_refl; [apply Hw|]|].
  by apply toggle_window_floating_to.
Qed.

(** ** Fullscreen and maximised windows *)
Lemma find_tile x (l : list Tile.Tile) : x ∈ (Tile.id <$> l) -> exists t, find (Column.has_id x) l = Some t /\ Tile.id t = x.
Proof.
  intros Hx. destruct (find _ l) as [t|] eqn:E.
  - apply find_some in E as [_ E]. unfold Column.has_id in E. apply bool_decide_eq_true_1 in E. eauto.
  - exfalso. apply list_elem_of_fmap in Hx as (t & -> & Ht). pose proof (find_none _ _ E t (proj1 (list_elem_of_In _ _) Ht)) as H.
    unfold Column.has_id in H. by rewrite bool_decide_eq_true_2 in H.
Qed.

(** The column of the window is as asked, and the window stays where it is or
    leaves its column. *)
Definition v_moded x (b : bool) (v v' : View) : Prop :=
  v' = v \/ b = true /\ v' = with_grid (g_consume_or_expel_right (Some x) (v_grid v)) v.
Lemma set_tiled_to flag other set x b r w :
  flag_op flag other set -> ws_base kin w -> x ∈ g_windows (v_grid (view w)) ->
  runs (set_tiled cv (fun cv => ScrollingSpace.set_pending cv flag set) x b r w) (wto kin w (v_moded x b (view w))).
Proof.
  intros Hop Hw Hx. unfold set_tiled. pose proof Hx as Hx'. rewrite <-scrolling_windows in Hx'. destruct (find_tile x _ Hx') as (t & Ht & _).
  step unwrap_ok; [exact Ht|]. cbv zeta.
  runs (scrolling_returns_to kin _ w (fun _ => True) (fun _ g => g = v_grid (view w) \/ b = true /\ g = g_consume_or_expel_right (Some x) (v_grid (view w)))
    (fun _ => v_moded x b (view w))).
  - done.
  - finish (set_pending_runs cv Hcv _ _ _ x b (scrolling w) Hop); [apply Hw|exact Hx|]. intros [u s] _ [_ [(H1 & H2 & H3)|(Hb & H1 & H2 & H3)]]; split_and!; auto.
  - intros _ g _ [->|[-> ->]]; [left; by destruct (view w)|by right].
  - intros [u w1] _ [_ (H1 & H2 & H3)]. finish update_scrolling_tile_to; [done| |apply unseen_restore|].
    + destruct H3 as [->|[_ ->]]; [exact Hx|]. cbn [with_grid v_grid]. by rewrite consume_right_windows.
    + intros w2 _ H. eapply wto_trans; [exact H2|]. eapply wto_mono; [exact H|]. by intros v <-.
Qed.

Definition v_fullscreen kin x (b : bool) (v v' : View) : Prop :=
  if bool_decide (x ∈ p_ids (v_pile v)) then if b then v_moded x true (v_toggle kin x v) v' else v' = v
  else v_moded x b v v' \/ b = false /\ v' = v_toggle kin x v.

Lemma toggle_named x w :
  ws_ok kin w -> x ∈ v_windows (view w) -> runs (toggle_window_floating cv kin (Some x) w) (wto kin w (eq (v_toggle kin x (view w)))).
Proof. intros Hw Hx. finish toggle_window_floating_to; [exact Hw|by intros ? [= <-]|]. intros w1 _ H. exact H. Qed.
Lemma toggled_tiled x v : x ∈ p_ids (v_pile v) -> x ∈ g_windows (v_grid (v_toggle kin x v)).
Proof.
  intros Hx. destruct (v_toggle_parts kin x v) as (a & _ & H). rewrite bool_decide_eq_true_2 in H by done. destruct H as (-> & _). rewrite add_windows. by left.
Qed.

(** A floating window is tiled first. *)
Lemma tiled_first_to flag other set x w :
  flag_op flag other set -> ws_ok kin w -> x ∈ p_ids (v_pile (view w)) ->
  runs (w ← toggle_window_floating cv kin (Some x) w; set_tiled cv (fun cv => ScrollingSpace.set_pending cv flag set) x true true w)
    (wto kin w (v_moded x true (v_toggle kin x (view w)))).
Proof.
  intros Hop Hw Hx. runs toggle_named; [exact Hw|apply elem_of_app; by right|]. intros w1 _ (H1 & H2 & H3).
  finish (set_tiled_to flag other set); [exact Hop|done|rewrite <-H3; by apply toggled_tiled|]. intros w2 _ H. eapply wto_trans; [exact H2|]. by rewrite H3.
Qed.
Lemma find_column x s : x ∈ g_windows (grid s) -> exists c, find (Column.contains x) (ScrollingSpace.columns s) = Some c /\ x ∈ ids c /\ c ∈ ScrollingSpace.columns s.
Proof.
  intros Hx. destruct (find_ok x s Hx) as (i & c & j & t & _ & Hc & _ & Ht & Hid & _).
  destruct (find _ _) as [c'|] eqn:E.
  - apply find_some in E as [Hin E]. apply contains_ids in E. exists c'. split_and!; [done|done|by apply list_elem_of_In].
  - exfalso. pose proof (find_none _ _ E c (proj1 (list_elem_of_In _ _) (list_elem_of_lookup_2 _ _ _ Hc))) as H.
    assert (Hcx : Column.contains x c = true); [|congruence]. apply contains_ids. rewrite <-Hid. unfold ids. by eapply list_elem_of_fmap_2, list_elem_of_lookup_2.
Qed.

Lemma fullscreen_floats kin_ x v v' : x ∈ p_ids (v_pile v) -> v_moded x true (v_toggle kin_ x v) v' -> v_fullscreen kin_ x true v v'.
Proof. intros Hx Hv. unfold v_fullscreen. by rewrite bool_decide_eq_true_2. Qed.
Lemma fullscreen_stays kin_ x v : x ∈ p_ids (v_pile v) -> v_fullscreen kin_ x false v v.
Proof. intros Hx. unfold v_fullscreen. by rewrite bool_decide_eq_true_2. Qed.
Lemma fullscreen_tiled kin_ x b v v' : (x ∉ p_ids (v_pile v)) -> v_moded x b v v' -> v_fullscreen kin_ x b v v'.
Proof. intros Hx Hv. unfold v_fullscreen. rewrite bool_decide_eq_false_2 by done. by left. Qed.
Lemma fullscreen_back kin_ x v v' : (x ∉ p_ids (v_pile v)) -> v' = v_toggle kin_ x v -> v_fullscreen kin_ x false v v'.
Proof. intros Hx ->. unfold v_fullscreen. rewrite bool_decide_eq_false_2 by done. by right. Qed.

(** What both operations do to a window of the scrolling layout. *)
Lemma tiled_mode_to flag other set x b w :
  flag_op flag other set -> ws_ok kin w -> x ∈ v_windows (view w) -> (x ∉ p_ids (v_pile (view w))) ->
  runs (set_tiled cv (fun cv => ScrollingSpace.set_pending cv flag set) x b false w) (wto kin w (v_fullscreen kin x b (view w)))
  /\ runs (toggle_window_floating cv kin (Some x) w) (wto kin w (v_fullscreen kin x false (view w))).
Proof.
  intros Hop Hw Hx E. split.
  - assert (Hg : x ∈ g_windows (v_grid (view w))) by (by apply elem_of_app in Hx as [?|?]).
    finish (set_tiled_to _ _ _ x b false w Hop); [apply Hw|done|]. intros w1 _ H. eapply wto_mono; [exact H|]. intros v. by apply fullscreen_tiled.
  - finish toggle_named; [done|done|]. intros w1 _ H. eapply wto_mono; [exact H|]. intros v <-. by apply fullscreen_back.
Qed.
Lemma floating_mode_to flag other set x b w :
  flag_op flag other set -> ws_ok kin w -> x ∈ p_ids (v_pile (view w)) ->
  runs (if b : bool then w ← toggle_window_floating cv kin (Some x) w; set_tiled cv (fun cv => ScrollingSpace.set_pending cv flag set) x b true w else mret w)
    (wto kin w (v_fullscreen kin x b (view w))).
Proof.
  intros Hop Hw E. destruct b; [|returns; apply wto_refl; [apply Hw|by apply fullscreen_stays]].
  finish (tiled_first_to _ _ _ x w Hop); [done|done|]. intros w1 _ H. eapply wto_mono; [exact H|]. intros v. by apply fullscreen_floats.
Qed.

Lemma set_fullscreen_to x b w :
  ws_ok kin w -> x ∈ v_windows (view w) -> runs (set_fullscreen cv kin x b w) (wto kin w (v_fullscreen kin x b (view w))).
Proof.
  intros Hw Hx. unfold set_fullscreen. cbv zeta. rewrite floating_contains. apply runs_if; intros E.
  { apply bool_decide_eq_true_1 in E. by apply (floating_mode_to _ _ _ x b w fullscreen_op). }
  apply bool_decide_eq_false_1 in E. destruct (tiled_mode_to _ _ _ x b w fullscreen_op Hw Hx E) as [Ht Hf].
  destruct b; cbn [negb]; [exact Ht|]. destruct (find_column x (scrolling w)) as (c & Hc & Hxc & _); [by apply elem_of_app in Hx as [?|?]|].
  step unwrap_ok; [exact Hc|]. apply runs_if; intros _; [|exact Ht]. destruct (find_tile x _ Hxc) as (t & Htl & _). step unwrap_ok; [exact Htl|].
  apply runs_if; intros _; [exact Hf|exact Ht].
Qed.
Lemma set_maximized_to x b w :
  ws_ok kin w -> x ∈ v_windows (view w) -> runs (set_maximized cv kin x b w) (wto kin w (v_fullscreen kin x b (view w))).
Proof.
  intros Hw Hx. unfold set_maximized. cbv zeta. rewrite floating_contains. apply runs_if; intros E.
  { apply bool_decide_eq_true_1 in E. by apply (floating_mode_to _ _ _ x b w maximized_op). }
  apply bool_decide_eq_false_1 in E. destruct (tiled_mode_to _ _ _ x b w maximized_op Hw Hx E) as [Ht Hf].
  destruct b; cbn [negb]; [exact Ht|]. assert (Hg : x ∈ g_windows (v_grid (view w))) by (by apply elem_of_app in Hx as [?|?]).
  rewrite <-scrolling_windows in Hg. destruct (find_tile x _ Hg) as (t & Htl & _). step unwrap_ok; [exact Htl|].
  apply runs_if; intros _; [exact Hf|exact Ht].
Qed.
Lemma toggle_fullscreen_to x w :
  ws_ok kin w -> x ∈ v_windows (view w) -> runs (toggle_fullscreen cv kin x w) (wto kin w (fun v => exists b, v_fullscreen kin x b (view w) v)).
Proof.
  intros Hw Hx. unfold toggle_fullscreen. assert (Hx' : x ∈ (Tile.id <$> tiles w)) by by rewrite tiles_windows.
  destruct (find_tile x _ Hx') as (t & Ht & _). step unwrap_ok; [exact Ht|]. finish set_fullscreen_to; [done|done|]. intros w1 _ H. eapply wto_mono; [exact H|]. eauto.
Qed.
Lemma toggle_maximized_to x w :
  ws_ok kin w -> x ∈ v_windows (view w) -> runs (toggle_maximized cv kin x w) (wto kin w (fun v => exists b, v_fullscreen kin x b (view w) v)).
Proof.
  intros Hw Hx. unfold toggle_maximized. cbv zeta. finish set_maximized_to; [done|done|]. intros w1 _ H. eapply wto_mono; [exact H|]. eauto.
Qed.

(** ** Moving a window that floats, or will *)
Lemma move_floating_window_to window (a b : PositionChange) animate w :
  ws_ok kin w -> (forall x, window = Some x -> x ∈ v_windows (view w)) -> runs (move_floating_window cv window a b animate w) (wto kin w (eq (view w))).
Proof.
  intros [Hw Hv] Hx. unfold move_floating_window. rewrite on_floating_view. apply runs_if; intros E.
  - apply (on_floating_to kin _ w (eq (v_pile (view w)))); [done| |intros p <-; by destruct (view w)].
    finish FloatingOps.move_window_to; [exact Hcv|apply Hw| |by intros s _ (H1 & H2 & H3)].
    intros y ->. unfold v_on_floating in E. by apply bool_decide_eq_true_1 in E.
  - destruct window as [x|].
    + unfold v_on_floating in E. apply bool_decide_eq_false_1 in E. specialize (Hx x eq_refl). apply elem_of_app in Hx as [Hx|?]; [|done].
      apply update_scrolling_tile_to; [done|done|apply unseen_store].
    + apply runs_if; intros Ee; [by returns|]. apply (on_scrolling_to kin _ w (eq (v_grid (view w)))); [done| |intros g <-; by destruct (view w)].
      finish unseen_source; [apply Hw|done|done|apply unseen_store|]. by intros s _ (H1 & H2 & H3).
Qed.

(** ** These keep the workspace in order *)
Lemma v_moded_ok x b (v v' : View) : v_moded x b v v' -> v_sane v -> v_sane v' -> v_ok v -> v_ok v' /\ v_windows v' ≡ₚ v_windows v.
Proof.
  intros [->|[_ ->]] Hs Hs' Hv; [done|]. split.
  - apply (v_ok_perm v); try done. cbn. apply consume_right_windows.
  - unfold v_windows. cbn [with_grid v_grid v_pile]. by rewrite consume_right_windows.
Qed.
Lemma toggle_sane x w : ws_ok kin w -> x ∈ v_windows (view w) -> v_sane (v_toggle kin x (view w)).
Proof.
  intros Hw Hx. pose proof (toggle_named x w Hw Hx) as H. apply runs_ok in H as (w1 & _ & H1 & _ & H3). rewrite H3. by apply ws_sane.
Qed.
Lemma toggle_ok x w : ws_ok kin w -> x ∈ v_windows (view w) -> v_ok (v_toggle kin x (view w)).
Proof. intros Hw Hx. apply v_toggle_ok; [apply ws_sane, Hw|apply Hw|by apply toggle_sane|done]. Qed.
Lemma v_fullscreen_ok x b w (v' : View) :
  ws_ok kin w -> x ∈ v_windows (view w) -> v_sane v' -> v_fullscreen kin x b (view w) v' -> v_ok v' /\ v_windows v' ≡ₚ v_windows (view w).
Proof.
  intros Hw Hx Hs' H. pose proof (ws_sane w (proj1 Hw)) as Hs. pose proof (toggle_sane x w Hw Hx) as Hst. pose proof (toggle_ok x w Hw Hx) as Hvt.
  pose proof (v_toggle_windows kin x (view w) Hx) as Hwt. unfold v_fullscreen in H. destruct (bool_decide _).
  - destruct b; [|subst v'; split; [apply Hw|done]]. destruct (v_moded_ok x true _ v' H Hst Hs' Hvt) as [H1 H2]. split; [done|by rewrite H2].
  - destruct H as [H|[_ ->]]; [|done]. by apply (v_moded_ok x b); [|done|done|apply Hw].
Qed.
End runs.
End ops.
