(* ===== verification/WorkspaceRoutes.v ===== *)
(** * Workspaces: all operations

    The operations of a workspace as one type.  Many hand the operation to the
    layout that is active, or to that of the window it names: [route] says which
    operation of which layout that is. *)

From stdpp Require Import base numbers option list strings.
From Stdlib Require Import ZArith Lia SpecFloat.
From S2P Require Import Prelude.
From S2P Require Import Runs.
From S2P Require Import F64.
From S2P Require Import Duration.
From S2P Require Import Clock.
From S2P Require Import Animation.
From S2P Require Import AnimTotal.
From S2P Require Import LayoutTypes.
From S2P Require Import F64Sign.
From S2P Require Import Tile.
From S2P Require Import TileInv.
From S2P Require Import Floating.
From S2P Require Import FloatingStack.
From S2P Require Import FloatingInv.
From S2P Require Import FloatingOps.
From S2P Require Import FloatingThms.
From S2P Require Import Column.
From S2P Require Import ColumnInv.
From S2P Require Import ColumnOps.
From S2P Require Import Scrolling.
From S2P Require Import ScrollingSpec.
From S2P Require Import ScrollingInv.
From S2P Require Import ScrollingOps.
From S2P Require Import ScrollingTiles.
From S2P Require Import ScrollingRemove.
From S2P Require Import ScrollingMoves.
From S2P Require Import ScrollingModes.
From S2P Require Import ScrollingViews.
From S2P Require Import ScrollingGrid.
From S2P Require Import ScrollingThms.
From S2P Require Import Positions.
From S2P Require Import Workspace.
From S2P Require Import WorkspaceInv.
From S2P Require Import WorkspaceSpec.
From S2P Require Import WorkspaceOps.
From S2P Require Import WorkspaceTiling.


Section ops.
Context {LE : LayoutElement} {LEL : LayoutElementLaws} {GE : Geometry} {GL : GeometryLaws} {LM : Libm} {KF : Keyframe} {OU : Outputs}.
Implicit Types (w : Workspace.Workspace) (x : Id) (t : Tile.Tile) (cv : ClockView) (kin : Id -> Id -> bool) (st : WOutput -> OutputState).
Import Workspace.

(** ** The operations *)
Inductive WsOp :=
| WFocusLeft | WFocusRight | WFocusDown | WFocusUp
| WFocusColumnFirst | WFocusColumnLast | WFocusWindowTop | WFocusWindowBottom
| WFocusColumnRightOrFirst | WFocusColumnLeftOrLast | WFocusWindowDownOrTop | WFocusWindowUpOrBottom
| WFocusDownOrLeft | WFocusDownOrRight | WFocusUpOrLeft | WFocusUpOrRight
| WFocusWindowInColumn (i : Z) | WFocusColumn (i : nat)
| WFocusFloating | WFocusTiling | WSwitchFocus
| WActivate (x : Id) | WActivateWithoutRaising (x : Id)
| WMoveLeft | WMoveRight | WMoveDown | WMoveUp
| WMoveColumnToFirst | WMoveColumnToLast | WMoveColumnToIndex (i : nat)
| WConsumeOrExpelLeft (o : option Id) | WConsumeOrExpelRight (o : option Id) | WConsumeIntoColumn | WExpelFromColumn
| WSwap (d : ScrollDirection) | WToggleTabbed | WSetDisplay (d : ColumnDisplay)
| WCenterColumn | WCenterWindow (o : option Id) | WCenterVisible
| WToggleWidth (fw : bool) | WToggleFullWidth | WSetColumnWidth (c : SizeChange) | WSetWindowWidth (o : option Id) (c : SizeChange)
| WSetWindowHeight (o : option Id) (c : SizeChange) | WResetHeight (o : option Id) | WToggleWindowWidth (o : option Id) (fw : bool)
| WToggleWindowHeight (o : option Id) (fw : bool) | WExpandColumn
| WAddTile (t : Tile.Tile) (target : WorkspaceAddWindowTarget Id) (a : ActivateWindow) (width : ColumnWidth) (full floats : bool)
| WAddTileToColumn (i : nat) (j : option nat) (t : Tile.Tile) (a : bool) | WAddColumn (c : Column.Column) (a : bool)
| WRemoveTile (x : Id) (tr : Transaction) | WRemoveActiveTile (tr : Transaction) | WRemoveActiveColumn
| WToggleFloating (o : option Id) | WSetFloating (o : option Id) (b : bool)
| WSetFullscreen (x : Id) (b : bool) | WSetMaximized (x : Id) (b : bool) | WToggleFullscreen (x : Id) | WToggleMaximized (x : Id)
| WMoveFloating (o : option Id) (a b : PositionChange) (animate : bool)
| WStartOpenAnimation (x : Id) | WDescendantsAdded (x : Id) | WCommit (x : Id) (win : W) (serial : option Z)
| WGestureBegin (touchpad : bool) | WGestureUpdate (dx : f64) (ts : Duration) (touchpad : bool) | WGestureEnd (touchpad : option bool)
| WDndBegin | WDndScroll (pos : Point) (speed : f64) | WDndEnd
| WResizeBegin (x : Id) (e : ResizeEdge) | WResizeUpdate (x : Id) (d : Point) | WResizeEnd (o : option Id)
| WAdvanceAnimations
| WUpdateConfig (base : LayoutOptions) | WUpdateLayoutConfig (part : option Overrides) | WUpdateOutputSize | WSetOutput (o : option WOutput).

(** A removal that finds nothing leaves the workspace as it is. *)
Definition w_removal {A} w (m : res (option (A * Workspace))) : res Workspace :=
  o ← m; mret (match o with Some (_, w') => w' | None => w end).
(** A commit reaches the workspace with the window already changed. *)
Definition w_commit cv x (win : W) (serial : option Z) w : res Workspace :=
  match FloatingSpace.idx_of x (floating w) with
  | Some i => update_window cv x serial (set_floating (f_committed i win (floating w)) w)
  | None =>
      '(i, j) ← ScrollingSpace.source (Some x) (scrolling w);
      update_window cv x serial (set_scrolling (committed i j win (scrolling w)) w)
  end.

Definition w_run kin cv st (op : WsOp) w : res Workspace :=
  match op with
  | WFocusLeft => second (focus_left cv kin w)
  | WFocusRight => second (focus_right cv kin w)
  | WFocusDown => second (focus_down cv kin w)
  | WFocusUp => second (focus_up cv kin w)
  | WFocusColumnFirst => focus_column_first cv kin w
  | WFocusColumnLast => focus_column_last cv kin w
  | WFocusWindowTop => focus_window_top kin w
  | WFocusWindowBottom => focus_window_bottom kin w
  | WFocusColumnRightOrFirst => focus_column_right_or_first cv kin w
  | WFocusColumnLeftOrLast => focus_column_left_or_last cv kin w
  | WFocusWindowDownOrTop => focus_window_down_or_top cv kin w
  | WFocusWindowUpOrBottom => focus_window_up_or_bottom cv kin w
  | WFocusDownOrLeft => focus_down_or_left cv kin w
  | WFocusDownOrRight => focus_down_or_right cv kin w
  | WFocusUpOrLeft => focus_up_or_left cv kin w
  | WFocusUpOrRight => focus_up_or_right cv kin w
  | WFocusWindowInColumn i => focus_window_in_column i w
  | WFocusColumn i => focus_column cv i w
  | WFocusFloating => mret (focus_floating w)
  | WFocusTiling => mret (focus_tiling w)
  | WSwitchFocus => mret (switch_focus_floating_tiling w)
  | WActivate x => second (activate_window cv kin x w)
  | WActivateWithoutRaising x => second (activate_window_without_raising cv x w)
  | WMoveLeft => second (move_left cv w)
  | WMoveRight => second (move_right cv w)
  | WMoveDown => second (move_down cv w)
  | WMoveUp => second (move_up cv w)
  | WMoveColumnToFirst => move_column_to_first cv w
  | WMoveColumnToLast => move_column_to_last cv w
  | WMoveColumnToIndex i => move_column_to_index cv i w
  | WConsumeOrExpelLeft o => consume_or_expel_window_left cv o w
  | WConsumeOrExpelRight o => consume_or_expel_window_right cv o w
  | WConsumeIntoColumn => consume_into_column cv w
  | WExpelFromColumn => expel_from_column cv w
  | WSwap d => swap_window_in_direction cv d w
  | WToggleTabbed => toggle_column_tabbed_display cv w
  | WSetDisplay d => set_column_display cv d w
  | WCenterColumn => center_column cv w
  | WCenterWindow o => center_window cv o w
  | WCenterVisible => center_visible_columns cv w
  | WToggleWidth fw => toggle_width fw w
  | WToggleFullWidth => toggle_full_width w
  | WSetColumnWidth c => set_column_width c w
  | WSetWindowWidth o c => set_window_width o c w
  | WSetWindowHeight o c => set_window_height o c w
  | WResetHeight o => reset_window_height o w
  | WToggleWindowWidth o fw => toggle_window_width o fw w
  | WToggleWindowHeight o fw => toggle_window_height o fw w
  | WExpandColumn => expand_column_to_available_width cv w
  | WAddTile t target a width full floats => add_tile cv kin t target a width full floats w
  | WAddTileToColumn i j t a => add_tile_to_column cv i j t a w
  | WAddColumn c a => add_column cv c a w
  | WRemoveTile x tr => second (remove_tile cv x tr w)
  | WRemoveActiveTile tr => w_removal w (remove_active_tile cv tr w)
  | WRemoveActiveColumn => w_removal w (remove_active_column cv w)
  | WToggleFloating o => toggle_window_floating cv kin o w
  | WSetFloating o b => set_window_floating cv kin o b w
  | WSetFullscreen x b => set_fullscreen cv kin x b w
  | WSetMaximized x b => set_maximized cv kin x b w
  | WToggleFullscreen x => toggle_fullscreen cv kin x w
  | WToggleMaximized x => toggle_maximized cv kin x w
  | WMoveFloating o a b animate => move_floating_window cv o a b animate w
  | WStartOpenAnimation x => second (start_open_animation cv x w)
  | WDescendantsAdded x => second (descendants_added kin x w)
  | WCommit x win serial => w_commit cv x win serial w
  | WGestureBegin tp => view_offset_gesture_begin cv tp w
  | WGestureUpdate dx ts tp => second (view_offset_gesture_update dx ts tp w)
  | WGestureEnd tp => second (view_offset_gesture_end cv tp w)
  | WDndBegin => dnd_scroll_gesture_begin cv w
  | WDndScroll pos speed => second (dnd_scroll_gesture_scroll cv pos speed w)
  | WDndEnd => dnd_scroll_gesture_end cv w
  | WResizeBegin x e => second (interactive_resize_begin cv x e w)
  | WResizeUpdate x d => second (interactive_resize_update x d w)
  | WResizeEnd o => interactive_resize_end cv o w
  | WAdvanceAnimations => advance_animations cv w
  | WUpdateConfig base => update_config cv base w
  | WUpdateLayoutConfig part => update_layout_config cv part w
  | WUpdateOutputSize => update_output_size cv st w
  | WSetOutput o => set_current_output cv st o w
  end.

(** ** Operations of one layout *)
Inductive Routed := RNone | RScroll (op : ScrollOp) | RFloat (op : FloatOp).

(** On the active layout, on the scrolling layout unless the other is active, or
    on the layout of a window. *)
Definition r_active (f : FloatOp) (s : ScrollOp) (v : View) : Routed := if v_floats v then RFloat f else RScroll s.
Definition r_tiled (s : ScrollOp) (v : View) : Routed := if v_floats v then RNone else RScroll s.
Definition r_window (o : option Id) (f : FloatOp) (s : ScrollOp) (v : View) : Routed := if v_on_floating o v then RFloat f else RScroll s.
Definition r_window_tiled (o : option Id) (s : ScrollOp) (v : View) : Routed := if v_on_floating o v then RNone else RScroll s.

Definition route (op : WsOp) (v : View) : option Routed :=
  match op with
  | WFocusLeft => Some (r_active FFocusLeft OpFocusLeft v)
  | WFocusRight => Some (r_active FFocusRight OpFocusRight v)
  | WFocusDown => Some (r_active FFocusDown OpFocusDown v)
  | WFocusUp => Some (r_active FFocusUp OpFocusUp v)
  | WFocusColumnFirst => Some (r_active FFocusLeftmost OpFocusColumnFirst v)
  | WFocusColumnLast => Some (r_active FFocusRightmost OpFocusColumnLast v)
  | WFocusWindowTop => Some (r_active FFocusTopmost OpFocusTop v)
  | WFocusWindowBottom => Some (r_active FFocusBottommost OpFocusBottom v)
  | WFocusDownOrLeft => Some (r_active FFocusDown OpFocusDownOrLeft v)
  | WFocusDownOrRight => Some (r_active FFocusDown OpFocusDownOrRight v)
  | WFocusUpOrLeft => Some (r_active FFocusUp OpFocusUpOrLeft v)
  | WFocusUpOrRight => Some (r_active FFocusUp OpFocusUpOrRight v)
  | WFocusWindowInColumn i => Some (r_tiled (OpFocusWindowInColumn i) v)
  | WMoveLeft => Some (r_active FMoveLeft OpMoveLeft v)
  | WMoveRight => Some (r_active FMoveRight OpMoveRight v)
  | WMoveDown => Some (r_active FMoveDown OpMoveDown v)
  | WMoveUp => Some (r_active FMoveUp OpMoveUp v)
  | WMoveColumnToFirst => Some (r_tiled OpMoveColumnToFirst v)
  | WMoveColumnToLast => Some (r_tiled OpMoveColumnToLast v)
  | WMoveColumnToIndex i => Some (r_tiled (OpMoveColumnToIndex i) v)
  | WConsumeOrExpelLeft o => Some (r_window_tiled o (OpConsumeOrExpelLeft o) v)
  | WConsumeOrExpelRight o => Some (r_window_tiled o (OpConsumeOrExpelRight o) v)
  | WConsumeIntoColumn => Some (r_tiled OpConsumeIntoColumn v)
  | WExpelFromColumn => Some (r_tiled OpExpelFromColumn v)
  | WSwap d => Some (r_tiled (OpSwap d) v)
  | WToggleTabbed => Some (r_tiled OpToggleTabbed v)
  | WSetDisplay d => Some (r_tiled (OpSetColumnDisplay d) v)
  | WCenterColumn => Some (r_active (FCenterWindow None) OpCenterColumn v)
  | WCenterWindow o => Some (r_window o (FCenterWindow o) (OpCenterWindow o) v)
  | WCenterVisible => Some (r_tiled OpCenterVisibleColumns v)
  | WToggleWidth fw => Some (r_active (FToggleWindowWidth None fw) (OpToggleWidth fw) v)
  | WToggleFullWidth => Some (r_tiled OpToggleFullWidth v)
  | WSetColumnWidth c => Some (r_active (FSetWindowWidth None c true) (OpSetWindowWidth None c) v)
  | WSetWindowWidth o c => Some (r_window o (FSetWindowWidth o c true) (OpSetWindowWidth o c) v)
  | WSetWindowHeight o c => Some (r_window o (FSetWindowHeight o c true) (OpSetWindowHeight o c) v)
  | WResetHeight o => Some (r_window_tiled o (OpResetWindowHeight o) v)
  | WToggleWindowWidth o fw => Some (r_window o (FToggleWindowWidth o fw) (OpToggleWindowWidth o fw) v)
  | WToggleWindowHeight o fw => Some (r_window o (FToggleWindowHeight o fw) (OpToggleWindowHeight o fw) v)
  | WExpandColumn => Some (r_tiled OpExpandColumn v)
  | WDescendantsAdded x => Some (RFloat (FDescendantsAdded x))
  | WGestureBegin tp => Some (RScroll (OpGestureBegin tp))
  | WGestureUpdate dx ts tp => Some (RScroll (OpGestureUpdate dx ts tp))
  | WGestureEnd tp => Some (RScroll (OpGestureEnd tp))
  | WDndBegin => Some (RScroll OpDndBegin)
  | WDndEnd => Some (RScroll OpDndEnd)
  | WResizeBegin x e => Some (r_window (Some x) (FResizeBegin x e) (OpResizeBegin x e) v)
  | WResizeUpdate x d => Some (r_window (Some x) (FResizeUpdate x d) (OpResizeUpdate x d) v)
  | _ => None
  end.
Definition r_run kin cv (r : Routed) w : res Workspace :=
  match r with RNone => mret w | RScroll op => on_scrolling (run_op cv op) w | RFloat op => on_floating (f_run kin cv op) w end.

Lemma second_scrolling {A} (f : ScrollingSpace.ScrollingSpace -> res (A * ScrollingSpace.ScrollingSpace)) w :
  second (scrolling_returns f w) = on_scrolling (fun s => ScrollingThms.second (f s)) w.
Proof. unfold second, scrolling_returns, on_scrolling, ScrollingThms.second. by destruct (f (scrolling w)) as [[a s]|]. Qed.
Lemma second_floating {A} (f : FloatingSpace.FloatingSpace -> res (A * FloatingSpace.FloatingSpace)) w :
  second (floating_returns f w) = on_floating (fun s => f_second (f s)) w.
Proof. unfold second, floating_returns, on_floating, f_second. by destruct (f (floating w)) as [[a s]|]. Qed.
Lemma second_true f w : second (w ← on_floating f w; mret (true, w)) = on_floating f w.
Proof. unfold second. by destruct (on_floating f w). Qed.

(** Forwarding does what the layout does, and nothing else. *)
Lemma route_eq kin cv st op w r : route op (view w) = Some r -> w_run kin cv st op w = r_run kin cv r w.
Proof.
  destruct op; try done; intros [= <-]; cbn [w_run]; unfold r_active, r_tiled, r_window, r_window_tiled; rewrite <-?on_floating_view, <-?is_active_view;
    unfold focus_left, focus_right, focus_down, focus_up, focus_column_first, focus_column_last,
      focus_window_top, focus_window_bottom, focus_down_or_left, focus_down_or_right, focus_up_or_left, focus_up_or_right, focus_window_in_column,
      move_left, move_right, move_down, move_up, move_column_to_first, move_column_to_last, move_column_to_index, consume_or_expel_window_left,
      consume_or_expel_window_right, consume_into_column, expel_from_column, swap_window_in_direction, toggle_column_tabbed_display,
      set_column_display, center_column, center_window, center_visible_columns, toggle_width, toggle_full_width, set_column_width, set_window_width,
      set_window_height, reset_window_height, toggle_window_width, toggle_window_height, expand_column_to_available_width, descendants_added,
      view_offset_gesture_begin, view_offset_gesture_update, view_offset_gesture_end, dnd_scroll_gesture_begin, dnd_scroll_gesture_end,
      interactive_resize_begin, interactive_resize_update, unless_floating;
    rewrite ?second_scrolling, ?second_floating; try done;
    try (match goal with |- context [on_floating_window (Some ?y) w] => change (on_floating_window (Some y) w) with (FloatingSpace.has_window y (floating w)) end;
      destruct (FloatingSpace.has_window _ (floating w)));
    try (destruct (on_floating_window _ w));
    try (destruct (is_active_floating w));
    rewrite ?second_scrolling, ?second_floating, ?second_true; try done.
Qed.

Definition r_pre cv (r : Routed) w : Prop :=
  match r with RNone => True | RScroll op => op_pre cv op (scrolling w) | RFloat op => f_pre op (floating w) end.
Definition r_spec kin (r : Routed) (v v' : View) : Prop :=
  match r with
  | RNone => v' = v
  | RScroll op => exists g, op_spec op (v_grid v) g /\ v' = with_grid g v
  | RFloat op => exists p, f_spec kin op (v_pile v) p /\ v' = with_pile p v
  end.
(** Routed operations neither add nor remove windows. *)
Definition s_calm (op : ScrollOp) : bool :=
  match op with
  | OpAddTile _ _ _ _ _ | OpAddTileToColumn _ _ _ _ | OpAddTileRightOf _ _ _ _ _ | OpRemoveTile _ _ | OpRemoveActiveTile _ | OpRemoveActiveColumn
  | OpUpdateConfig _ _ _ _ => false
  | _ => true
  end.
Definition f_calm (op : FloatOp) : bool :=
  match op with FAddTile _ _ | FAddTileAbove _ _ _ | FRemoveTile _ | FRemoveActiveTile | FUpdateConfig _ _ _ _ => false | _ => true end.
Definition r_calm (r : Routed) : bool := match r with RNone => true | RScroll op => s_calm op | RFloat op => f_calm op end.
Lemma route_calm op v r : route op v = Some r -> r_calm r = true.
Proof. destruct op; try done; intros [= <-]; unfold r_active, r_tiled, r_window, r_window_tiled; try done; try (by destruct (v_floats v)); by destruct (v_on_floating _ v). Qed.

Section routed.
Context (kin : Id -> Id -> bool) (Hac : acyclic kin) (cv : ClockView) (Hcv : cv_ok cv).

Lemma scroll_to op w :
  ws_base kin w -> s_calm op = true -> op_pre cv op (scrolling w) -> runs (on_scrolling (run_op cv op) w) (wto kin w (r_spec kin (RScroll op) (view w))).
Proof.
  intros Hw Hc Hp. apply (on_scrolling_to kin _ w (op_spec op (v_grid (view w)))); [done| |intros g Hg; by exists g].
  finish (run_scroll_op_ok cv Hcv op); [apply Hw|exact Hp|]. intros s _ (H1 & H2 & H3). split_and!; [done|by destruct op|exact H2].
Qed.
Lemma float_to op w :
  ws_base kin w -> f_calm op = true -> f_pre op (floating w) -> runs (on_floating (f_run kin cv op) w) (wto kin w (r_spec kin (RFloat op) (view w))).
Proof.
  intros Hw Hc Hp. apply (on_floating_to kin _ w (f_spec kin op (v_pile (view w)))); [done| |intros p Hg; by exists p].
  finish (run_float_op_ok kin Hac cv Hcv op); [apply Hw|exact Hp|]. intros s _ (H1 & H2 & H3). split_and!; [done|by destruct op|exact H2].
Qed.
Lemma routed_to r w : ws_base kin w -> r_calm r = true -> r_pre cv r w -> runs (r_run kin cv r w) (wto kin w (r_spec kin r (view w))).
Proof. intros Hw Hc Hp. destruct r as [|op|op]; [by returns|by apply scroll_to|by apply float_to]. Qed.

Lemma r_spec_ok r v v' : r_calm r = true -> r_spec kin r v v' -> v_sane v -> v_sane v' -> v_ok v -> v_ok v' /\ v_windows v' ≡ₚ v_windows v.
Proof.
  intros Hc Hsp Hs Hs' Hv. assert (H : g_windows (v_grid v') ≡ₚ g_windows (v_grid v) /\ p_ids (v_pile v') ≡ₚ p_ids (v_pile v) /\ v_active v' = v_active v).
  { destruct r as [|op|op]; cbn [r_spec] in Hsp.
    - by subst v'.
    - destruct Hsp as (g & Hg & ->). split_and!; [|done|done]. cbn. pose proof (op_windows op (v_grid v) g Hg (sane_grid _ Hs)) as H.
      symmetry. by destruct op; try done; apply H.
    - destruct Hsp as (p & Hp & ->). split_and!; [done| |done]. cbn. pose proof (f_spec_windows kin op (v_pile v) p Hp) as H.
      symmetry. by destruct op; try done; apply H. }
  destruct H as (H1 & H2 & H3). split; [by apply (v_ok_perm v)|]. unfold v_windows. by rewrite H1, H2.
Qed.
End routed.

(** ** What callers promise

    Windows that come in are new and in order, windows and columns that are named
    exist, and the configuration and the outputs are valid. *)
Definition commit_pre x (win : W) w : Prop :=
  match FloatingSpace.idx_of x (floating w) with
  | Some i => exists t, FloatingSpace.tiles (floating w) !! i = Some t /\ commit_ok t win
  | None => exists i j c t, g_find x (v_grid (view w)) = Some (i, j) /\ ScrollingSpace.columns (scrolling w) !! i = Some c
      /\ Column.tiles c !! j = Some t /\ commit_ok t win
  end.
Definition named (o : option Id) w : Prop := forall x, o = Some x -> x ∈ v_windows (view w).
Definition w_pre cv st (op : WsOp) w : Prop :=
  match route op (view w) with
  | Some r => r_pre cv r w
  | None =>
      match op with
      | WAddTile t target _ _ _ _ => tile_incoming t /\ (Tile.id t ∉ v_windows (view w)) /\ add_target_ok target w
      | WAddTileToColumn i j t _ => tile_incoming t /\ (Tile.id t ∉ v_windows (view w))
          /\ exists c, ScrollingSpace.columns (scrolling w) !! i = Some c /\ forall k, j = Some k -> k <= length (Column.tiles c)
      | WAddColumn c _ => column_incoming c w
      | WRemoveTile x _ | WSetFullscreen x _ | WSetMaximized x _ | WToggleFullscreen x | WToggleMaximized x => x ∈ v_windows (view w)
      | WToggleFloating o | WSetFloating o _ | WMoveFloating o _ _ _ => named o w
      | WCommit x win _ => commit_pre x win w
      | WDndScroll _ _ => nonneg (working_area w).2.1 /\ time_ok (cv_now_unadjusted cv) /\ scroll_finite (scrolling w)
      | WUpdateConfig base => options_ok base
      | WUpdateLayoutConfig part => part_ok part
      | WUpdateOutputSize => outputs_ok st /\ is_Some (output w)
      | WSetOutput _ => outputs_ok st
      | _ => True
      end
  end.

(** ** What operations do *)
Definition routed kin (op : WsOp) (v v' : View) : Prop := exists r, route op v = Some r /\ r_spec kin r v v'.
(** The first, and then perhaps the second. *)
Definition or_then kin (op1 op2 : WsOp) (v v' : View) : Prop := exists v1, routed kin op1 v v1 /\ (v' = v1 \/ routed kin op2 v1 v').
Definition v_focus_tiling (v : View) : View := if v_floats v then v_switch v else v.

Definition w_spec kin (op : WsOp) (v v' : View) : Prop :=
  match route op v with
  | Some r => r_spec kin r v v'
  | None =>
      match op with
      | WFocusColumnRightOrFirst => or_then kin WFocusRight WFocusColumnFirst v v'
      | WFocusColumnLeftOrLast => or_then kin WFocusLeft WFocusColumnLast v v'
      | WFocusWindowDownOrTop => or_then kin WFocusDown WFocusWindowTop v v'
      | WFocusWindowUpOrBottom => or_then kin WFocusUp WFocusWindowBottom v v'
      | WFocusColumn i => v' = with_grid (g_focus_column i (v_grid v)) (v_focus_tiling v)
      | WFocusFloating => v' = if v_floats v then v else v_switch v
      | WFocusTiling => v' = v_focus_tiling v
      | WSwitchFocus => v' = v_switch v
      | WActivate x => v' = v_activate kin x v
      | WActivateWithoutRaising x => v' = v_activate_without_raising x v
      | WAddTile t target a _ _ floats =>
          add_tile_spec kin (Tile.id t) target a (floats && is_normal (win_pending_sizing_mode (Tile.window t))) v v'
      | WAddTileToColumn i j t a => v' = v_add_to_column i j (Tile.id t) a v
      | WAddColumn c a => v' = v_add_column (gcol c) a v
      | WRemoveTile x _ => v' = v_remove x v
      | WRemoveActiveTile _ => v' = v_remove_active v
      | WRemoveActiveColumn => v' = v_remove_active_column v
      | WToggleFloating o => v' = v_toggled kin o v
      | WSetFloating o b => v' = if Bool.eqb (v_on_floating o v) b then v else v_toggled kin o v
      | WSetFullscreen x b | WSetMaximized x b => v_fullscreen kin x b v v'
      | WToggleFullscreen x | WToggleMaximized x => exists b, v_fullscreen kin x b v v'
      | _ => v' = v
      end
  end.

(** The settings change only with the configuration and the output. *)
Definition w_around st (op : WsOp) w w' : Prop :=
  match op with
  | WUpdateConfig base => settings w' = settings w /\ base_options w' = base /\ options w' = options_for (fractional_scale (scale w)) (layout_config w) base
  | WUpdateLayoutConfig part => layout_config w' = part /\ output w' = output w /\ base_options w' = base_options w
      \/ option_eqb overrides_eqb (layout_config w) part = true /\ w' = w
  | WUpdateOutputSize => output w' = output w
  | WSetOutput o => output w' = o
  | _ => around w' = around w
  end.

Definition w_result kin st (op : WsOp) w w' : Prop := ws_base kin w' /\ w_spec kin op (view w) (view w') /\ w_around st op w w'.

Section all.
Context (kin : Id -> Id -> bool) (Hac : acyclic kin) (cv : ClockView) (Hcv : cv_ok cv).

Lemma second_runs_to {A} w (m : res (A * Workspace)) (P : A -> Prop) (Q : View -> Prop) :
  runs m (fun '(a, w') => P a /\ wto kin w Q w') -> runs (second m) (wto kin w Q).
Proof. unfold runs, second. destruct m as [[a w']|]; [|done]. by intros []. Qed.
Lemma second_run m (Q : Workspace -> Prop) : runs (second m) Q -> runs m (fun '(b, w') => (b : bool) = b /\ Q w').
Proof. unfold runs, second. by destruct m as [[a w']|]. Qed.

Lemma routed_op st op w r :
  ws_base kin w -> route op (view w) = Some r -> r_pre cv r w -> runs (w_run kin cv st op w) (wto kin w (routed kin op (view w))).
Proof.
  intros Hw Hr Hp. rewrite (route_eq kin cv st op w r Hr). finish routed_to; [exact Hac|exact Hcv|exact Hw|by eapply route_calm|exact Hp|].
  intros w1 _ H. eapply wto_mono; [exact H|]. intros v Hv. by exists r.
Qed.
Lemma or_else_to st op1 op2 f g w :
  ws_base kin w -> second (f w) = w_run kin cv st op1 w -> (forall w, g w = w_run kin cv st op2 w) ->
  (forall w, ws_base kin w -> exists r, route op1 (view w) = Some r /\ r_pre cv r w) ->
  (forall w, ws_base kin w -> exists r, route op2 (view w) = Some r /\ r_pre cv r w) ->
  runs (or_else f g w) (wto kin w (or_then kin op1 op2 (view w))).
Proof.
  intros Hw Hf Hg Hp1 Hp2. unfold or_else. destruct (Hp1 w Hw) as (r & Hr & Hp). pose proof (routed_op st op1 w r Hw Hr Hp) as H.
  rewrite <-Hf in H. apply second_run in H. runs H. intros [b w1] _ (_ & H1 & H2 & H3). destruct b.
  - returns. split_and!; [done|done|]. exists (view w1). split; [done|by left].
  - rewrite Hg. destruct (Hp2 w1 H1) as (r2 & Hr2 & Hpp). finish routed_op; [exact H1|exact Hr2|exact Hpp|]. intros w2 _ Hto.
    eapply wto_trans; [exact H2|]. eapply wto_mono; [exact Hto|]. intros v Hv. exists (view w1). split; [done|by right].
Qed.

Lemma focus_tiling_to w : ws_base kin w -> wto kin w (eq (v_focus_tiling (view w))) (focus_tiling w).
Proof. intros Hw. unfold focus_tiling, v_focus_tiling. rewrite is_active_view. destruct (v_floats _); [by apply switch_to|by apply wto_refl]. Qed.
Lemma focus_column_to i w : ws_base kin w -> runs (focus_column cv i w) (wto kin w (eq (with_grid (g_focus_column i (v_grid (view w))) (v_focus_tiling (view w))))).
Proof.
  intros Hw. unfold focus_column. assert (E : (if is_active_floating w then focus_tiling w else w) = focus_tiling w).
  { unfold focus_tiling. by destruct (is_active_floating w). }
  rewrite E. destruct (focus_tiling_to w Hw) as (H1 & H2 & H3). finish (scroll_to kin cv Hcv (OpFocusColumn i)); [done|done|done|]. intros w2 _ H.
  eapply wto_trans; [exact H2|]. eapply wto_mono; [exact H|]. intros v (g & Hg & ->). cbn [op_spec] in Hg. rewrite <-H3 in Hg |- *. subst g. unfold v_focus_tiling, v_switch.
  destruct (v_floats (view w)); [|done]. by destruct (bool_decide (p_ids (v_pile (view w)) = []) || g_empty (v_grid (view w))).
Qed.

Lemma w_advance_to w : ws_base kin w -> runs (advance_animations cv w) (wto kin w (eq (view w))).
Proof.
  intros Hw. unfold advance_animations. runs (scroll_to kin cv Hcv OpAdvanceAnimations); [done|done|done|]. intros w1 _ (H1 & H2 & (g & Hg & H3)).
  finish (float_to kin Hac cv Hcv FAdvanceAnimations); [done|done|done|]. intros w2 _ H. eapply wto_trans; [exact H2|]. eapply wto_mono; [exact H|].
  intros v (p & Hp & ->). cbn [op_spec] in Hg. cbn [f_spec] in Hp. subst g p. rewrite H3. by destruct (view w).
Qed.
Lemma resize_end_to_both o w : ws_base kin w -> runs (interactive_resize_end cv o w) (wto kin w (eq (view w))).
Proof.
  intros Hw. assert (Hf : runs (on_floating (fun s => mret (FloatingSpace.interactive_resize_end o s)) w) (wto kin w (eq (view w)))).
  { finish (float_to kin Hac cv Hcv (FResizeEnd o)); [done|done|done|]. intros w1 _ H. eapply wto_mono; [exact H|]. intros v (p & Hp & ->). cbn [f_spec] in Hp. subst p. by destruct (view w). }
  assert (Hs : forall w, ws_base kin w -> runs (on_scrolling (ScrollingSpace.interactive_resize_end cv o) w) (wto kin w (eq (view w)))).
  { intros w' Hw'. finish (scroll_to kin cv Hcv (OpResizeEnd o)); [done|done|done|]. intros w1 _ H. eapply wto_mono; [exact H|]. intros v (g & Hg & ->). cbn [op_spec] in Hg. subst g. by destruct (view w'). }
  unfold interactive_resize_end. destruct o as [x|]; [destruct (FloatingSpace.has_window _ _); [exact Hf|by apply Hs]|].
  runs Hf. intros w1 _ (H1 & H2 & H3). finish (Hs w1 H1). intros w2 _ H. eapply wto_trans; [exact H2|]. by rewrite H3.
Qed.
Lemma start_open_both x w : ws_base kin w -> runs (start_open_animation cv x w) (fun '(b, w') => b = b /\ wto kin w (eq (view w)) w').
Proof.
  intros Hw. unfold start_open_animation. pose proof (scroll_to kin cv Hcv (OpStartOpenAnimation x) w Hw eq_refl I) as H.
  change (run_op cv (OpStartOpenAnimation x)) with (fun s => ScrollingThms.second (ScrollingSpace.start_open_animation cv x s)) in H.
  rewrite <-second_scrolling in H. apply second_run in H. runs H. intros [b w1] _ (_ & H1 & H2 & (g & Hg & H3)). cbn [op_spec] in Hg. subst g.
  assert (Hv : view w1 = view w) by (rewrite H3; by destruct (view w)). destruct b; [returns; split; [done|by split_and!]|].
  pose proof (float_to kin Hac cv Hcv (FStartOpenAnimation x) w1 H1 eq_refl I) as H4.
  change (f_run kin cv (FStartOpenAnimation x)) with (fun s => f_second (FloatingSpace.start_open_animation cv x s)) in H4.
  rewrite <-second_floating in H4. apply second_run in H4. finish H4. intros [b w2] _ (_ & H4' & H5 & (p & Hp & H6)). cbn [f_spec] in Hp. subst p.
  split; [done|]. split_and!; [done|congruence|]. rewrite H6, Hv. by destruct (view w).
Qed.

Lemma dnd_delta_runs pos speed w : nonneg (working_area w).2.1 -> runs (dnd_scroll_delta pos speed w) (fun _ => True).
Proof.
  intros Hn. unfold dnd_scroll_delta. cbv zeta. runs clamp_runs; [exact Hn|]. intros x _ _. runs clamp_runs.
  { apply fdiv_nonneg; [exact Hn|by vm_compute]. }
  intros tw _ _. by returns.
Qed.
Lemma dnd_both pos speed w :
  ws_base kin w -> nonneg (working_area w).2.1 -> time_ok (cv_now_unadjusted cv) -> scroll_finite (scrolling w) ->
  runs (second (dnd_scroll_gesture_scroll cv pos speed w)) (wto kin w (eq (view w))).
Proof.
  intros Hw Hn Ht Hf. apply (second_runs_to w _ (fun _ => True)). unfold dnd_scroll_gesture_scroll. runs dnd_delta_runs; [exact Hn|]. intros d _ _.
  pose proof (scroll_to kin cv Hcv (OpDndScroll d) w Hw eq_refl (conj Ht Hf)) as H.
  change (run_op cv (OpDndScroll d)) with (fun s => ScrollingThms.second (ScrollingSpace.dnd_scroll_gesture_scroll cv d s)) in H. rewrite <-second_scrolling in H. apply second_run in H.
  finish H. intros [b w1] _ (_ & H1 & H2 & (g & Hg & H3)). cbn [op_spec] in Hg. subst g. split; [done|]. split_and!; [done|done|]. rewrite H3. by destruct (view w).
Qed.

Lemma commit_both x win serial w : ws_base kin w -> commit_pre x win w -> runs (w_commit cv x win serial w) (wto kin w (eq (view w))).
Proof.
  intros Hw Hp. unfold w_commit, commit_pre in *. destruct (FloatingSpace.idx_of x (floating w)) as [i|] eqn:Ei.
  - destruct Hp as (t & Ht & Hc). unfold update_window, floating_returns. cbn [floating set_floating].
    pose proof (update_floating_window_to kin cv Hcv i x t win serial _ (wo_floating _ _ Hw) Ht Ei Hc) as H.
    apply runs_ok in H as ([b s] & -> & -> & H1 & H2 & H3). cbn. returns. eapply wto_mono; [by apply (set_floating_to kin w s)|]. intros v <-. rewrite H3. change (pile (floating w)) with (v_pile (view w)). by destruct (view w).
  - destruct Hp as (i & j & c & t & Hf & Hc & Ht & Hok).
    assert (Hx : x ∈ g_windows (v_grid (view w))).
    { unfold g_find in Hf. destruct (position _ _) as [k|] eqn:Ek; [|done]. apply position_Some in Ek as (col & Hk & Hx & _).
      apply bool_decide_eq_true_1 in Hx. apply elem_of_windows. by exists k, col. }
    runs source_runs; [apply Hw|by eapply nonempty_windows|by intros ? [= <-]|]. intros [i' j'] _ (Hs & _). cbn [g_source] in Hs.
    change (v_grid (view w)) with (grid (scrolling w)) in Hf. rewrite Hf in Hs. injection Hs as <- <-.
    unfold update_window, floating_returns, FloatingSpace.update_window. cbn [floating set_scrolling]. rewrite Ei. cbn [mbind res_bind mret res_ret].
    unfold on_scrolling. cbn [scrolling set_floating set_scrolling].
    runs (ScrollingViews.update_window_to cv Hcv i j x win serial t); [apply Hw|done|by exists c|done|]. intros s _ (H1 & H2 & H3). returns.
    eapply wto_mono; [by apply (set_scrolling_to kin w s)|]. intros v <-. rewrite H3. change (grid (scrolling w)) with (v_grid (view w)). by destruct (view w).
Qed.
End all.
End ops.
