(* ===== verification/WorkspaceThms.v ===== *)
(** * Workspaces: their theorems

    Every operation on every workspace that operations lead to, the windows of
    both layouts, which layout is active, and floating windows that are tiled
    while fullscreen. *)

From stdpp Require Import base numbers option list strings.
From Stdlib Require Import ZArith Lia SpecFloat.
From S2P Require Import Prelude.
From S2P Require Import Runs.
From S2P Require Import F64.
From S2P Require Import Duration.
From S2P Require Import Clock.
From S2P Require Import Animation.
From S2P Require Import AnimTotal.
From S2P Require Import OutputName.
From S2P Require Import LayoutTypes.
From S2P Require Import F64Sign.
From S2P Require Import Tile.
From S2P Require Import TileInv.
From S2P Require Import Floating.
From S2P Require Import FloatingStack.
From S2P Require Import FloatingInv.
From S2P Require Import FloatingOps.
From S2P Require Import FloatingThms.
From S2P Require Import Column.
From S2P Require Import ColumnInv.
From S2P Require Import ColumnOps.
From S2P Require Import Scrolling.
From S2P Require Import ScrollingSpec.
From S2P Require Import ScrollingInv.
From S2P Require Import ScrollingOps.
From S2P Require Import ScrollingTiles.
From S2P Require Import ScrollingRemove.
From S2P Require Import ScrollingMoves.
From S2P Require Import ScrollingModes.
From S2P Require Import ScrollingViews.
From S2P Require Import ScrollingGrid.
From S2P Require Import ScrollingThms.
From S2P Require Import Positions.
From S2P Require Import Workspace.
From S2P Require Import WorkspaceInv.
From S2P Require Import WorkspaceSpec.
From S2P Require Import WorkspaceOps.
From S2P Require Import WorkspaceTiling.
From S2P Require Import WorkspaceRoutes.


Section thms.
Context {LE : LayoutElement} {LEL : LayoutElementLaws} {GE : Geometry} {GL : GeometryLaws} {LM : Libm} {KF : Keyframe} {OU : Outputs}.
Implicit Types (w : Workspace.Workspace) (x : Id) (t : Tile.Tile) (st : WOutput -> OutputState).
Import Workspace.

(** ** Every operation runs, keeps the invariant and follows the specification *)
Section all.
Context (kin : Id -> Id -> bool) (Hac : acyclic kin) (cv : ClockView) (Hcv : cv_ok cv).

Lemma result_wto st op w m (Q : View -> Prop) :
  runs m (wto kin w Q) -> (forall v, Q v -> w_spec kin op (view w) v) ->
  (match op with WUpdateConfig _ | WUpdateLayoutConfig _ | WUpdateOutputSize | WSetOutput _ => False | _ => True end) -> runs m (w_result kin st op w).
Proof. intros Hm HQ Hop. finish Hm. intros w' _ (H1 & H2 & H3). split_and!; [done|by apply HQ|]. by destruct op. Qed.

Lemma config_ops_to st op w :
  ws_ok kin w -> w_pre cv st op w ->
  (match op with WUpdateConfig _ | WUpdateLayoutConfig _ | WUpdateOutputSize | WSetOutput _ => True | _ => False end) ->
  runs (w_run kin cv st op w) (w_result kin st op w).
Proof.
  intros [Hw Hv] Hp Hop. pose proof (wo_around _ _ Hw) as [Hsc Hb Hpt Ho]. destruct op; try done; cbn [w_run w_pre route] in *; unfold w_pre in Hp; cbn [route] in Hp.
  - finish w_update_config_runs; [exact Hcv|by apply (base_layouts kin)|done|exact Hp|done|]. intros w' _ (H1 & H2 & H3 & H4 & H5). by split_and!.
  - unfold update_layout_config. apply runs_if; intros E.
    + returns. split_and!; [done|done|by right].
    + finish (w_update_config_runs kin cv Hcv (base_options w) (set_layout_config part w)); [by apply (base_layouts kin) in Hw|done|done|exact Hp|].
      intros w' _ (H1 & H2 & H3 & H4 & H5). unfold settings in H3. cbn in H3. injection H3 as _ Hout _ _ _ _ _ Hl _. split_and!; [done|done|by left].
  - destruct Hp as [Hst [o Ho']]. finish update_output_size_runs; [exact Hcv|done|done|exact Ho'|]. intros w' _ (H1 & H2 & H3 & _). by split_and!.
  - finish set_current_output_runs; [exact Hcv|done|exact Hp|]. intros w' _ (H1 & H2 & H3 & _). by split_and!.
Qed.

#[local] Ltac routes := intros w' Hw'; eexists; split; [reflexivity|]; unfold r_active; by destruct (v_floats (view w')).
#[local] Ltac as_eq H := eapply result_wto; [by eapply H|by intros v <-|done].
#[local] Ltac as_is H := eapply result_wto; [by eapply H|done|done].

Lemma run_ws_op_ok st op w : ws_ok kin w -> w_pre cv st op w -> runs (w_run kin cv st op w) (w_result kin st op w).
Proof.
  intros Hok Hp. pose proof Hok as [Hw Hv]. destruct (route op (view w)) as [r|] eqn:Er.
  { eapply result_wto; [eapply routed_op; [exact Hac|exact Hcv|done|exact Er|unfold w_pre in Hp; by rewrite Er in Hp]| |].
    - intros v (r' & Hr' & Hsp). unfold w_spec. by rewrite Hr'.
    - by destruct op. }
  destruct op; try done; try (by apply config_ops_to); unfold w_pre in Hp; cbn [route] in Hp; cbn [w_run].
  - eapply result_wto; [eapply (or_else_to kin Hac cv Hcv st WFocusRight WFocusColumnFirst); [done|done|done|routes|routes]|done|done].
  - eapply result_wto; [eapply (or_else_to kin Hac cv Hcv st WFocusLeft WFocusColumnLast); [done|done|done|routes|routes]|done|done].
  - eapply result_wto; [eapply (or_else_to kin Hac cv Hcv st WFocusDown WFocusWindowTop); [done|done|done|routes|routes]|done|done].
  - eapply result_wto; [eapply (or_else_to kin Hac cv Hcv st WFocusUp WFocusWindowBottom); [done|done|done|routes|routes]|done|done].
  - as_eq focus_column_to.
  - assert (H : wto kin w (eq (if v_floats (view w) then view w else v_switch (view w))) (focus_floating w)).
    { unfold focus_floating. rewrite is_active_view. destruct (v_floats (view w)); [by apply wto_refl|by apply switch_to]. }
    eapply result_wto; [returns; exact H|by intros v <-|done].
  - eapply result_wto; [returns; by apply focus_tiling_to|by intros v <-|done].
  - eapply result_wto; [returns; by apply switch_to|by intros v <-|done].
  - eapply result_wto; [eapply second_runs_to; by apply activate_window_to|by intros v <-|done].
  - eapply result_wto; [eapply second_runs_to; by apply activate_without_raising_to|by intros v <-|done].
  - destruct Hp as (H1 & H2 & H3). eapply result_wto; [eapply add_tile_runs_to; [exact Hac|exact Hcv|done|done|done|done|]|done|done].
    intros Hne. destruct (ok_focused kin w Hok Hne) as (y & Hy & _). by exists y.
  - destruct Hp as (H1 & H2 & c & H3 & H4). apply not_elem_of_app in H2 as [H2 _]. as_eq add_tile_to_column_to.
  - as_eq add_column_to.
  - eapply result_wto; [eapply second_runs_to; by apply remove_tile_runs_to|by intros v <-|done].
  - unfold w_removal. runs remove_active_tile_runs_to; [exact Hcv|done|]. intros [[r w']|] _ H; returns.
    + destruct H as (_ & _ & H1 & H2 & H3). by split_and!.
    + split_and!; [done| |done]. unfold w_spec. cbn [route]. unfold v_remove_active, v_focused in *. pose proof (ws_sane kin w Hw) as [Hg Hpl].
      destruct (v_floats (view w)); [by rewrite H|]. destruct (g_empty (v_grid (view w))) eqn:Ee; [done|].
      destruct (source_focused _ Hg Ee) as (i & j & x & _ & _ & Hx). congruence.
  - unfold w_removal. runs remove_active_column_runs_to; [exact Hcv|done|]. intros [[r w']|] _ H; returns.
    + destruct H as (_ & _ & H1 & H2 & H3). by split_and!.
    + by split_and!.
  - as_eq toggle_window_floating_to.
  - as_eq set_window_floating_to.
  - as_is set_fullscreen_to.
  - as_is set_maximized_to.
  - as_is toggle_fullscreen_to.
  - as_is toggle_maximized_to.
  - as_eq move_floating_window_to.
  - eapply result_wto; [eapply second_runs_to; by apply start_open_both|by intros v <-|done].
  - as_eq commit_both.
  - destruct Hp as (H1 & H2 & H3). as_eq dnd_both.
  - as_eq resize_end_to_both.
  - as_eq w_advance_to.
Qed.
End all.

(** ** No window is lost *)
Definition w_came (op : WsOp) : list Id :=
  match op with WAddTile t _ _ _ _ _ | WAddTileToColumn _ _ t _ => [Tile.id t] | WAddColumn c _ => ids c | _ => [] end.
Definition w_gone (op : WsOp) (v : View) : list Id :=
  match op with
  | WRemoveTile x _ => [x]
  | WRemoveActiveTile _ => match v_focused v with Some x => [x] | None => [] end
  | WRemoveActiveColumn => if v_floats v then [] else from_option fst [] (g_cols (v_grid v) !! g_active (v_grid v))
  | _ => []
  end.

(** The windows of each layout are the same, perhaps in another order. *)
Definition same_layouts (v v' : View) : Prop :=
  g_windows (v_grid v') ≡ₚ g_windows (v_grid v) /\ p_ids (v_pile v') ≡ₚ p_ids (v_pile v) /\ v_active v' = v_active v.
Lemma same_layouts_ok v v' : same_layouts v v' -> v_sane v -> v_sane v' -> v_ok v -> v_ok v' /\ v_windows v' ≡ₚ v_windows v.
Proof. intros (H1 & H2 & H3) Hs Hs' Hv. split; [by apply (v_ok_perm v)|]. unfold v_windows. by rewrite H1, H2. Qed.
Lemma routed_focus kin op v v' :
  routed kin op v v' ->
  (match op with WFocusLeft | WFocusRight | WFocusDown | WFocusUp | WFocusColumnFirst | WFocusColumnLast | WFocusWindowTop | WFocusWindowBottom => True | _ => False end) ->
  same_layouts v v'.
Proof.
  intros (r & Hr & Hsp) Hop. assert (Hf : forall f s, r = r_active f s v -> (f_calm f = true /\ (f_came f = [] /\ forall p, f_gone f p = [])) ->
    (forall g', op_spec s (v_grid v) g' -> g_windows g' = g_windows (v_grid v)) -> same_layouts v v').
  { intros f s -> (Hc & Hca & Hgo) Hs. unfold r_active in Hsp. destruct (v_floats v).
    - destruct Hsp as (p & Hp & ->). split_and!; [done| |done]. cbn. pose proof (f_spec_windows kin f (v_pile v) p Hp) as H.
      rewrite Hca, (Hgo (v_pile v)) in H. symmetry. apply H. by destruct f.
    - destruct Hsp as (g & Hg & ->). split_and!; [|done|done]. cbn. by rewrite (Hs g Hg). }
  destruct op; try done; injection Hr as <-; (eapply Hf; [reflexivity|done|]; intros g' Hg'; eapply refocus_windows; [exact Hg'|done]).
Qed.
Lemma same_layouts_trans v v1 v2 : same_layouts v v1 -> same_layouts v1 v2 -> same_layouts v v2.
Proof. intros (H1 & H2 & H3) (H4 & H5 & H6). split_and!; [by rewrite H4|by rewrite H5|congruence]. Qed.

Lemma v_focus_tiling_ok v : v_ok v -> v_sane v -> v_ok (v_focus_tiling v) /\ v_windows (v_focus_tiling v) = v_windows v.
Proof. intros Hv Hs. unfold v_focus_tiling. destruct (v_floats v); [by apply v_switch_ok|done]. Qed.
Lemma v_focus_column_ok i v :
  let v' := with_grid (g_focus_column i (v_grid v)) (v_focus_tiling v) in v_ok v -> v_sane v -> v_sane v' -> v_ok v' /\ v_windows v' ≡ₚ v_windows v.
Proof.
  intros v' Hv Hs Hs'. destruct (v_focus_tiling_ok v Hv Hs) as [Hok1 Hw1]. assert (Hg : g_windows (g_focus_column i (v_grid v)) = g_windows (v_grid v)).
  { unfold g_focus_column. destruct (g_empty _); [done|apply activate_windows]. }
  assert (Hfg : v_grid (v_focus_tiling v) = v_grid v).
  { unfold v_focus_tiling, v_switch. destruct (v_floats v); [|done]. by destruct (_ || _). }
  split.
  - apply (v_ok_perm (v_focus_tiling v)); [by split; [rewrite Hfg; apply Hs|apply Hs']|done|done| |done|done]. unfold v'. cbn [with_grid v_grid]. by rewrite Hg, Hfg.
  - rewrite <-Hw1. unfold v', v_windows. cbn [with_grid v_grid v_pile]. by rewrite Hg, Hfg.
Qed.

Section accounts.
Context (kin : Id -> Id -> bool) (Hac : acyclic kin) (cv : ClockView) (Hcv : cv_ok cv).

Lemma v_toggled_ok o w : ws_ok kin w -> named o w -> v_ok (v_toggled kin o (view w)) /\ v_windows (v_toggled kin o (view w)) ≡ₚ v_windows (view w).
Proof.
  intros Hok Ho. unfold v_toggled. destruct (v_target o (view w)) as [x|] eqn:Et; [|by split; [apply Hok|]].
  assert (Hx : x ∈ v_windows (view w)).
  { destruct o as [y|]; [injection Et as <-; by apply Ho|]. unfold v_target in Et. pose proof (no_window_focused _ _ (ws_sane kin w (proj1 Hok)) Et) as Hne.
    destruct (ok_focused kin w Hok Hne) as (y & Hy & Hin). congruence. }
  split; [by apply (toggle_ok kin Hac cv Hcv)|by apply v_toggle_windows].
Qed.
Lemma w_spec_ok st op w (v' : View) :
  ws_ok kin w -> w_pre cv st op w -> w_spec kin op (view w) v' -> v_sane v' ->
  v_ok v' /\ w_came op ++ v_windows (view w) ≡ₚ w_gone op (view w) ++ v_windows v'.
Proof.
  intros Hok Hp Hsp Hs'. pose proof Hok as [Hw Hv]. pose proof (ws_sane kin w Hw) as Hs. set (v := view w) in *.
  assert (Hno : w_came op = [] -> w_gone op v = [] -> v_ok v' /\ v_windows v' ≡ₚ v_windows v -> v_ok v' /\ w_came op ++ v_windows v ≡ₚ w_gone op v ++ v_windows v').
  { intros -> -> [? E]. split; [done|]. by rewrite E. }
  unfold w_pre, w_spec in *. fold v in Hp. destruct (route op v) as [r|] eqn:Er.
  { apply Hno; [by destruct op|by destruct op|]. eapply r_spec_ok; [by eapply route_calm|exact Hsp|done..]. }
  assert (Hthen : forall op1 op2, or_then kin op1 op2 v v' -> (forall v v', routed kin op1 v v' -> same_layouts v v') -> (forall v v', routed kin op2 v v' -> same_layouts v v') ->
    v_ok v' /\ v_windows v' ≡ₚ v_windows v).
  { intros op1 op2 (v1 & H1 & H2) HA HB. apply same_layouts_ok; [|done..]. apply HA in H1. destruct H2 as [->|H2]; [done|]. apply HB in H2.
    by eapply same_layouts_trans. }
  assert (Hsame : v_ok v' /\ v_windows v' ≡ₚ v_windows v -> v_ok v' /\ v_windows v ≡ₚ v_windows v') by (by intros [? ->]).
  assert (Hfull : forall x b, x ∈ v_windows v -> v_fullscreen kin x b v v' -> v_ok v' /\ v_windows v' ≡ₚ v_windows v).
  { intros x b Hx Hf. by apply (v_fullscreen_ok kin Hac cv Hcv x b w). }
  destruct op; try done; cbn [w_came w_gone app] in *; try (by apply Hno); try (subst v'; done);
    try (by apply Hno; [..|eapply Hthen; [exact Hsp|intros ? ? H; by eapply routed_focus|intros ? ? H; by eapply routed_focus]]).
  - apply Hsame. subst v'. by apply v_focus_column_ok.
  - apply Hsame. subst v'. destruct (v_floats v); [done|]. destruct (v_switch_ok v Hv Hs) as [? E]. by rewrite E.
  - apply Hsame. subst v'. destruct (v_focus_tiling_ok v Hv Hs) as [? E]. by rewrite E.
  - apply Hsame. subst v'. destruct (v_switch_ok v Hv Hs) as [? E]. by rewrite E.
  - apply Hsame. subst v'. split; [by apply v_activate_ok|apply v_activate_windows].
  - apply Hsame. subst v'. split; [by apply v_activate_without_raising_ok|by rewrite v_activate_without_raising_windows].
  - destruct Hp as (_ & Hx & _). split; [by eapply add_tile_spec_ok|]. symmetry. by eapply add_tile_spec_windows.
  - destruct Hp as (_ & Hx & c & Hc & _). subst v'. assert (Hg : g_cols (v_grid v) !! i = Some (gcol c)) by (change (v_grid v) with (grid (scrolling w)); by rewrite grid_lookup, Hc).
    split; [by eapply add_to_column_ok|]. symmetry. by eapply add_to_column_windows.
  - subst v'. destruct Hp as ((E & HE & Hc) & Hn & Hd). split; [|symmetry; apply v_add_column_windows]. apply v_add_column_ok; try done.
    + cbn. pose proof (col_nonempty _ _ (proj1 Hc)) as Hne. unfold ids. by destruct (Column.tiles c).
    + apply NoDup_app. split_and!; [done|exact Hd|apply Hv].
  - subst v'. split; [by apply v_remove_ok|]. symmetry. by apply v_windows_remove.
  - subst v'. split; [by apply v_remove_active_ok|]. symmetry. by apply v_remove_active_windows; [|apply Hv].
  - subst v'. split; [by apply v_remove_column_ok|]. symmetry. by apply v_remove_column_windows.
  - apply Hsame. subst v'. by apply v_toggled_ok.
  - apply Hsame. subst v'. destruct (Bool.eqb _ _); [done|by apply v_toggled_ok].
  - apply Hsame. by eapply Hfull.
  - apply Hsame. by eapply Hfull.
  - apply Hsame. destruct Hsp as [b Hsp]. by eapply Hfull.
  - apply Hsame. destruct Hsp as [b Hsp]. by eapply Hfull.
Qed.
End accounts.

(** ** The workspaces the operations reach

    Clients may change the parents of their windows, as for the floating layout. *)
Definition config_part (config : option WorkspaceConfig) : option Overrides := config ≫= wc_layout.
Inductive ws_reachable : (Id -> Id -> bool) -> Workspace -> Prop :=
| ws_new kin st o config base i : acyclic kin -> outputs_ok st -> options_ok base -> part_ok (config_part config) ->
    ws_reachable kin (new_with_config st o config base i)
| ws_new_no_outputs kin config base i : acyclic kin -> options_ok base -> part_ok (config_part config) ->
    ws_reachable kin (new_with_config_no_outputs config base i)
| ws_step kin cv st op w w' : ws_reachable kin w -> cv_ok cv -> w_pre cv st op w -> w_run kin cv st op w = Ok w' -> ws_reachable kin w'
| ws_parented kin kin' y w b w' :
    ws_reachable kin w -> acyclic kin' -> (forall a b, kin' a b = true -> kin a b = true \/ b = y) ->
    descendants_added kin' y w = Ok (b, w') -> ws_reachable kin' w'
| ws_orphaned kin kin' w : ws_reachable kin w -> (forall a b, kin' a b = true -> kin a b = true) -> ws_reachable kin' w.

Lemma base_kin kin kin' w : floating_ok kin' (floating w) -> ws_base kin w -> ws_base kin' w.
Proof. by intros Hf []. Qed.

Lemma run_ws_op_both kin cv st op w :
  acyclic kin -> cv_ok cv -> ws_ok kin w -> w_pre cv st op w ->
  runs (w_run kin cv st op w) (fun w' => ws_ok kin w' /\ w_spec kin op (view w) (view w') /\ w_around st op w w'
    /\ w_came op ++ v_windows (view w) ≡ₚ w_gone op (view w) ++ v_windows (view w')).
Proof.
  intros Hac Hcv Hok Hp. finish run_ws_op_ok; [exact Hac|exact Hcv|exact Hok|exact Hp|]. intros w' _ (H1 & H2 & H3).
  destruct (w_spec_ok kin Hac cv Hcv st op w (view w') Hok Hp H2 (ws_sane kin w' H1)) as [Hv Hw]. by split_and!.
Qed.

Lemma parented_ok kin kin' y w b w' :
  acyclic kin -> ws_ok kin w -> acyclic kin' -> (forall a b, kin' a b = true -> kin a b = true \/ b = y) ->
  descendants_added kin' y w = Ok (b, w') -> ws_ok kin' w' /\ v_grid (view w') = v_grid (view w) /\ p_ids (v_pile (view w')) ≡ₚ p_ids (v_pile (view w)).
Proof.
  intros Ha [Hw Hv] Ha' Hk Hr. pose proof (wo_floating _ _ Hw) as [Hb Hst].
  pose proof (descendants_to kin' Ha' y (floating w) Hb (stacked_parented _ _ _ _ Hk Hst)) as H.
  unfold descendants_added, floating_returns in Hr. destruct (FloatingSpace.descendants_added kin' y (floating w)) as [[b' s]|]; [|done].
  cbn in Hr. injection Hr as <- <-. destruct H as (_ & H1 & H2 & H3).
  assert (Hp : p_ids (v_pile (view (set_floating s w))) ≡ₚ p_ids (v_pile (view w))).
  { change (v_pile (view (set_floating s w))) with (pile s). rewrite H3. apply descendants_pile_perm. }
  assert (Hw' : ws_base kin' (set_floating s w)).
  { destruct Hw as [Har Hs _ He Hfe]. constructor; try done; [by destruct Har|]. exact (eq_trans H2 Hfe). }
  split_and!; [|done|done]. split; [done|]. apply (v_ok_perm (view w)); try done; [by apply (ws_sane kin)|by apply (ws_sane kin')].
Qed.

Lemma ws_reachable_ok kin w : ws_reachable kin w -> acyclic kin /\ ws_ok kin w.
Proof.
  induction 1 as [kin st o config base i Ha Hst Hb Hp|kin config base i Ha Hb Hp|kin cv st op w w' _ [Ha IH] Hcv Hp Hr|kin kin' y w b w' _ [Ha IH] Ha' Hk Hr
    |kin kin' w _ [Ha IH] Hk].
  - split; [done|]. apply make_ok; [apply Hst|done|done].
  - split; [done|]. by apply make_ok.
  - split; [done|]. pose proof (run_ws_op_both kin cv st op w Ha Hcv IH Hp) as H. rewrite Hr in H. apply H.
  - split; [done|]. exact (proj1 (parented_ok kin kin' y w b w' Ha IH Ha' Hk Hr)).
  - split; [by eapply acyclic_mono|]. destruct IH as [Hw Hv]. split; [|done]. apply (base_kin kin); [|done]. destruct (wo_floating _ _ Hw) as [Hb Hst].
    split; [done|]. by eapply stacked_orphaned.
Qed.

(** ** The theorems *)



(** No operation on a workspace loses or doubles a window, also when it moves
    windows between the scrolling and the floating layout. *)
Theorem workspace_keeps_windows kin cv st op w w' :
  ws_reachable kin w -> cv_ok cv -> w_pre cv st op w -> w_run kin cv st op w = Ok w' ->
  w_came op ++ (Tile.id <$> tiles w) ≡ₚ w_gone op (view w) ++ (Tile.id <$> tiles w') /\ NoDup (Tile.id <$> tiles w').
Proof.
  intros Hr Hcv Hp Hrun. destruct (ws_reachable_ok kin w Hr) as [Ha Hok]. pose proof (run_ws_op_both kin cv st op w Ha Hcv Hok Hp) as H.
  rewrite Hrun in H. destruct H as ([_ Hv] & _ & _ & H). rewrite !tiles_windows. split; [exact H|apply Hv].
Qed.

(** C19: a workspace with windows has an active one, in the layout that is active:
    an empty layout is not active while the other has windows. *)
Theorem workspace_has_focus kin w :
  ws_reachable kin w -> has_windows w = true ->
  exists x, active_window w = Ok (Some x) /\ x ∈ (Tile.id <$> (if is_active_floating w then FloatingSpace.tiles (floating w) else ScrollingSpace.tiles (scrolling w))).
Proof.
  intros Hr Hne. destruct (ws_reachable_ok kin w Hr) as [Ha [Hw Hv]]. pose proof (ws_sane kin w Hw) as Hs.
  assert (Hn : v_windows (view w) <> []) by (rewrite <-tiles_windows; unfold has_windows in Hne; by destruct (tiles w)).
  destruct (v_focused_in (view w) Hs (proj2 Hv) Hn) as (x & Hx & _). exists x. pose proof (active_window_runs kin w Hw) as H.
  apply runs_ok in H as (o & Ho & ->). rewrite Hx in Ho. split; [done|]. unfold v_focused in Hx. rewrite is_active_view. destruct (v_floats (view w)).
  - pose proof (sane_pile _ Hs) as Hp. by rewrite Hx in Hp.
  - rewrite scrolling_windows. destruct (focused_in _ (sane_grid _ Hs)) as (y & Hy & Hin); [|congruence].
    intros E. apply grid_no_window in E; [|apply Hs]. unfold g_empty in E. unfold focused, active_of in Hx. by destruct (g_cols (v_grid (view w))).
Qed.

(** C20: the options a workspace works with are the configured ones with its own
    merged in, adjusted for its scale, at all times; so there is always a preset
    width and a preset height to choose, and no gap or border is negative. *)
Theorem workspace_options_merged kin w :
  ws_reachable kin w ->
  (exists sc, feqb sc (fractional_scale (scale w)) = true /\ options w = options_for sc (layout_config w) (base_options w))
  /\ ScrollingSpace.options (scrolling w) = options w /\ FloatingSpace.options (floating w) = options w
  /\ preset_column_widths (options w) <> [] /\ preset_window_heights (options w) <> []
  /\ fleb f0 (gaps (options w)) = true /\ fleb f0 (b_width (opt_border (options w))) = true.
Proof.
  intros Hr. destruct (ws_reachable_ok kin w Hr) as [Ha [Hw Hv]]. pose proof (around_options kin w Hw) as Ho. destruct (ar_options w (wo_around _ _ Hw)) as (sc & _ & H1 & H2).
  split; [by exists sc|]. pose proof (wo_env _ _ Hw) as He. pose proof (wo_fenv _ _ Hw) as Hf. injection He as He. injection Hf as Hf. destruct Ho. by split_and!.
Qed.
End thms.

(** ** The theorems at concrete runs

    A workspace with two tiled windows and a floating one. *)
#[local] Existing Instance window0.
#[local] Existing Instance window0_laws.
#[local] Existing Instance geometry0.
#[local] Existing Instance geometry0_laws.
#[local] Existing Instance libm0.
#[local] Existing Instance keyframe0.
#[export] Instance outputs0 : Outputs := {|
  WOutput := nat; woutput_name := fun o => OutputName.Build_OutputName (if (o =? 0)%nat then "DP-1" else "DP-2") None None None;
  Transform := bool; transform_normal := false |}.
Definition output_state0 (o : @WOutput outputs0) : OutputState :=
  {| current_scale := {| integer_scale := 1; fractional_scale := f1 |}; current_transform := transform_normal; output_size := view0; non_exclusive_zone := area0 |}.
Import Workspace.

Definition ws0 : Workspace := new output_state0 0%nat options0 7.
Definition w_after (op : WsOp) (w : Workspace) : Workspace := match w_run kin0 (cv_at 5%Z) output_state0 op w with Ok w' => w' | Panic => w end.
Definition w_add0 (i : nat) (floats : bool) : WsOp := WAddTile (tile0 i) Auto Yes (Proportion (lit 1 2)) false floats.
Definition ws_three : Workspace := w_after (w_add0 3 true) (w_after (w_add0 2 false) (w_after (w_add0 1 false) ws0)).

Lemma outputs0_ok : outputs_ok output_state0.
Proof. intros o. by vm_compute. Qed.
Lemma w_after_reachable op w : ws_reachable kin0 w -> w_pre (cv_at 5%Z) output_state0 op w -> ws_reachable kin0 (w_after op w).
Proof.
  intros Hw Hp. destruct (ws_reachable_ok kin0 w Hw) as [Ha Hok]. pose proof (run_ws_op_both kin0 (cv_at 5%Z) output_state0 op w Ha clock5_ok Hok Hp) as H.
  apply runs_ok in H as (w' & He & _). unfold w_after. rewrite He. eapply ws_step; [exact Hw|exact clock5_ok|exact Hp|exact He].
Qed.
Lemma w_add_reachable i floats w : ws_reachable kin0 w -> bool_decide (i ∉ v_windows (view w)) = true -> ws_reachable kin0 (w_after (w_add0 i floats) w).
Proof. intros Hw Hi. apply w_after_reachable; [done|]. apply bool_decide_eq_true_1 in Hi. split; [apply tile0_incoming|]. split; [exact Hi|done]. Qed.
Lemma ws_three_reachable : ws_reachable kin0 ws_three.
Proof.
  unfold ws_three. do 3 (apply w_add_reachable; [|by vm_compute]). apply ws_new; [apply kin0_acyclic|apply outputs0_ok|apply options0_ok|done].
Qed.
Example ws_three_view : (g_cols (v_grid (view ws_three)), p_ids (v_pile (view ws_three)), v_active (view ws_three)) = ([([1 : @Id window0], 0%nat); ([2 : @Id window0], 0%nat)], [3 : @Id window0], ActiveYes).
Proof. by vm_compute. Qed.

Definition w_toggle2 : WsOp := WToggleFloating (LE := window0) (Some 2).
Lemma ws_three_has (x : nat) : bool_decide ((x : @Id window0) ∈ v_windows (view ws_three)) = true -> (x : @Id window0) ∈ v_windows (view ws_three).
Proof. apply bool_decide_eq_true_1. Qed.
Lemma toggle2_pre : w_pre (cv_at 5%Z) output_state0 w_toggle2 ws_three.
Proof. intros y [= <-]. apply ws_three_has. by vm_compute. Qed.
(** The window comes on top of the floating ones and is not tiled any more. *)
Example toggle2_example :
  p_ids (v_pile (view (w_after w_toggle2 ws_three))) = [2; 3 : @Id window0] /\ g_windows (v_grid (view (w_after w_toggle2 ws_three))) = [1 : @Id window0].
Proof. by vm_compute. Qed.

Example workspace_keeps_windows_witness :
  [] ++ (Tile.id <$> tiles ws_three) ≡ₚ [] ++ (Tile.id <$> tiles (w_after w_toggle2 ws_three)) /\ NoDup (Tile.id <$> tiles (w_after w_toggle2 ws_three)).
Proof.
  apply (workspace_keeps_windows kin0 (cv_at 5%Z) output_state0 w_toggle2); [exact ws_three_reachable|exact clock5_ok|exact toggle2_pre|by vm_compute].
Defined.

Example workspace_has_focus_witness :
  exists x, active_window ws_three = Ok (Some x)
    /\ x ∈ (Tile.id <$> (if is_active_floating ws_three then FloatingSpace.tiles (floating ws_three) else ScrollingSpace.tiles (scrolling ws_three))).
Proof. apply (workspace_has_focus kin0 ws_three ws_three_reachable). by vm_compute. Defined.

Example workspace_options_merged_witness :
  (exists sc, feqb sc (fractional_scale (scale ws_three)) = true /\ options ws_three = options_for sc (layout_config ws_three) (base_options ws_three))
  /\ ScrollingSpace.options (scrolling ws_three) = options ws_three /\ FloatingSpace.options (floating ws_three) = options ws_three
  /\ preset_column_widths (options ws_three) <> [] /\ preset_window_heights (options ws_three) <> []
  /\ fleb f0 (gaps (options ws_three)) = true /\ fleb f0 (b_width (opt_border (options ws_three))) = true.
Proof. exact (workspace_options_merged kin0 ws_three ws_three_reachable). Defined.

(** * Workspaces: fullscreen and back

    A floating window that is made fullscreen moves to the scrolling layout and
    remembers that it floated; when it is not fullscreen any more it floats again. *)
Section fullscreen.
Context {LE : LayoutElement} {LEL : LayoutElementLaws} {GE : Geometry} {GL : GeometryLaws} {LM : Libm} {KF : Keyframe} {OU : Outputs}.
Implicit Types (w : Workspace.Workspace) (x : Id) (t : Tile.Tile) (c : Column.Column) (s : ScrollingSpace.ScrollingSpace) (cv : ClockView).

(** ** A window alone in a new column is in the mode it is asked to be in *)
Section column.
Import Column.
Definition mode_flags c : bool * bool := (is_pending_fullscreen c, is_pending_maximized c).

Lemma sizes_flags a c c' : update_tile_sizes a c = Ok c' -> mode_flags c' = mode_flags c.
Proof. unfold update_tile_sizes, update_tile_sizes_with_transaction. intros H. by destruct (pending_sizing_mode c); res_inv. Qed.
Lemma config_flags vs area parent sc o c c' : update_config vs area parent sc o c = Ok c' -> mode_flags c' = mode_flags c.
Proof.
  unfold update_config. intros H. cbv zeta in H. set (c0 := if presets_eqb _ (preset_column_widths o) then c else _) in H.
  assert (H0 : mode_flags c0 = mode_flags c) by (unfold c0; by destruct (presets_eqb _ _)).
  bind H as [c1|] eqn E1. assert (H1 : mode_flags c1 = mode_flags c0).
  { destruct (presets_eqb (preset_window_heights _) _); [by res_inv|]. unfold convert_heights_to_auto in E1. by res_inv. }
  rewrite <-H0, <-H1. destruct (_ || _); [by rewrite (sizes_flags _ _ _ H)|by res_inv].
Qed.
Lemma add_tile_flags cv i t c c' : add_tile_at cv i t c = Ok c' -> mode_flags c = (false, false) -> mode_flags c' = (false, false).
Proof.
  unfold add_tile_at. intros H Hf. bind H as [os|] eqn E1. bind H as [ds|] eqn E2. bind H as [ts|] eqn E3. bind H as [c1|] eqn E4. res_inv.
  apply sizes_flags in E4. unfold mode_flags in *. cbn in *. rewrite E4. by destruct (tabbed c).
Qed.
Lemma new_column_flags cv t vs area parent sc width full c :
  new_with_tile cv t vs area parent sc width full = Ok c -> win_pending_sizing_mode (Tile.window t) = Normal -> mode_flags c = (false, false).
Proof.
  unfold new_with_tile. intros H Hn. bind H as [pr|] eqn E1. bind H as [c1|] eqn E2. apply add_tile_flags in E2; [|done]. rewrite Hn in H.
  bind H as [c2|] eqn E3. res_inv. destruct (_ && _); res_inv; done.
Qed.
End column.

(** ** A window alone in a column of the scrolling layout *)
Section space.
Import ScrollingSpace.
Definition alone x s (P : Column.Column -> Prop) : Prop := exists i c, columns s !! i = Some c /\ ids c = [x] /\ P c.

Lemma view_columns cv i o config s s' : animate_view_offset_with_config cv i o config s = Ok s' -> columns s' = columns s.
Proof. unfold animate_view_offset_with_config. intros H. bind H as [a|] eqn E1. bind H as [b|] eqn E2. bind H as [v|] eqn E3. by res_inv. Qed.
Lemma activate_columns cv i config s s' : activate_column_with_anim_config cv i config s = Ok s' -> columns s' = columns s.
Proof.
  unfold activate_column_with_anim_config. intros H. destruct (_ && _); [by res_inv|]. bind H as [s1|] eqn E1.
  unfold animate_view_offset_to_column_with_config in E1. bind E1 as [o|] eqn E2. apply view_columns in E1. res_inv. by destruct (bool_decide _).
Qed.
Lemma iter_mut_lookup {A} (f : nat -> A -> res A) k (l l' : list A) i (y : A) :
  iter_mut f k l = Ok l' -> l' !! i = Some y -> exists a : A, l !! i = Some a /\ f (k + i) a = Ok y.
Proof.
  revert k l' i. induction l as [|x l IH]; intros k l' i H Hy; cbn in H.
  - by res_inv.
  - bind H as [x1|] eqn E1. bind H as [l1|] eqn E2. res_inv. destruct i as [|i].
    + cbn in Hy. injection Hy as <-. exists x. split; [done|]. by rewrite Nat.add_0_r.
    + destruct (IH _ _ _ E2 Hy) as (x2 & Hx & Hf). exists x2. split; [exact Hx|]. by rewrite <-Nat.add_succ_comm.
Qed.
Lemma on_range_outside {A} lo hi (f : A -> res A) l l' i (y : A) : on_range lo hi f l = Ok l' -> l' !! i = Some y -> i < lo \/ hi <= i -> l !! i = Some y.
Proof.
  unfold on_range. intros H Hy Hi. destruct (_ && _); [|done]. destruct (iter_mut_lookup _ _ _ _ _ _ H Hy) as (z & Hz & Hf). rewrite Nat.add_0_l in Hf.
  assert (E : (lo <=? i) && (i <? hi) = false).
  { apply andb_false_iff. destruct Hi; [left; by apply Nat.leb_gt|right; by apply Nat.ltb_ge]. }
  rewrite E in Hf. by res_inv.
Qed.

(** A column that comes in keeps its mode. *)
Lemma add_column_flags cv c a config s s' c' :
  add_column cv None c a config s = Ok s' -> columns s' !! (if is_empty s then 0 else active_column_idx s + 1) = Some c' ->
  active_column_idx s <= length (columns s) -> mode_flags c' = mode_flags c.
Proof.
  unfold add_column. cbn [default]. set (i := if is_empty s then 0 else active_column_idx s + 1). cbv zeta. intros H Hc' Ha.
  bind H as [c1|] eqn E1. bind H as [wd|] eqn E2. bind H as [ds|] eqn E3. bind H as [cs|] eqn E4. bind H as [s1|] eqn E5.
  assert (Hcols : columns s1 = cs).
  { destruct a; [|destruct (_ && _); by res_inv]. bind E5 as [s2|] eqn E6. bind E5 as [s3|] eqn E7. apply activate_columns in E7.
    res_inv. cbn. rewrite E7. destruct (is_empty s); [|by res_inv]. bind E6 as [o|] eqn E8. by res_inv. }
  bind H as [nx|] eqn E6. bind H as [z|] eqn E7. unfold vec_insert in E4. destruct (decide _) as [Hle|]; [|done]. injection E4 as <-.
  assert (Hlook : columns s1 !! i = Some c').
  { destruct (active_column_idx s1 <=? i); unfold animate_columns in H; bind H as [cs2|] eqn E8; res_inv; cbn in Hc'.
    - eapply on_range_outside; [exact E8|exact Hc'|lia].
    - eapply on_range_outside; [exact E8|exact Hc'|lia]. }
  rewrite Hcols, lookup_insert_at_eq in Hlook by done. injection Hlook as ->. by apply config_flags in E1.
Qed.

(** What changes one tile leaves the modes of all columns. *)
Lemma tile_flags i j f s s' k c' :
  update_column i (Column.update_tile j f) s = Ok s' -> columns s' !! k = Some c' -> exists c, columns s !! k = Some c /\ mode_flags c' = mode_flags c.
Proof.
  unfold update_column, Column.update_tile. intros H Hc'. bind H as [c|] eqn E1. bind H as [c1|] eqn E2. bind E2 as [t|] eqn E3. bind E2 as [t1|] eqn E4. res_inv.
  cbn in Hc'. unfold index, unwrap in E1. destruct (columns s !! i) as [c0|] eqn:E0; [|done]. injection E1 as ->. 
  destruct (decide (i = k)) as [->|Hne].
  - rewrite list_lookup_insert_eq in Hc' by (by eapply lookup_lt_Some). injection Hc' as <-. by exists c.
  - rewrite list_lookup_insert_ne in Hc' by done. by exists c'.
Qed.

(** The column of a window is the only one that has it. *)
Lemma nodup_bind {A B} (f : A -> list B) (l : list A) i j a b (x : B) :
  NoDup (l ≫= f) -> l !! i = Some a -> l !! j = Some b -> x ∈ f a -> x ∈ f b -> i = j.
Proof.
  revert i j. induction l as [|y l IH]; intros i j Hn Hi Hj Ha Hb; [done|]. cbn in Hn. apply NoDup_app in Hn as (_ & Hd & Hn).
  assert (Hin : forall k z, l !! k = Some z -> x ∈ f z -> x ∈ l ≫= f).
  { intros k z Hk Hz. apply list_elem_of_bind. exists z. split; [done|]. by eapply list_elem_of_lookup_2. }
  destruct i as [|i], j as [|j]; cbn in Hi, Hj; simplify_eq; [done|..].
  - exfalso. apply (Hd x Ha). by eapply Hin.
  - exfalso. apply (Hd x Hb). by eapply Hin.
  - f_equal. by eapply IH.
Qed.
Lemma column_unique s i j c c' x : space_ok s -> columns s !! i = Some c -> columns s !! j = Some c' -> x ∈ ids c -> x ∈ ids c' -> i = j.
Proof.
  intros Hs Hi Hj Hc Hc'. pose proof (so_nodup _ (proj1 (proj1 Hs))) as Hn. unfold g_windows in Hn.
  eapply (nodup_bind fst (g_cols (grid s)) i j (gcol c) (gcol c') x); [exact Hn|by rewrite grid_lookup, Hi|by rewrite grid_lookup, Hj|done|done].
Qed.
End space.

(** ** The way there and back *)
Section workspace.
Import Workspace.
Context (kin : Id -> Id -> bool) (Hac : acyclic kin) (cv : ClockView) (Hcv : cv_ok cv).
Definition in_mode x (m : bool * bool) w : Prop := alone x (scrolling w) (fun c => mode_flags c = m).

Lemma grid_column s s' i c : grid s' = grid s -> ScrollingSpace.columns s !! i = Some c -> exists c', ScrollingSpace.columns s' !! i = Some c' /\ ids c' = ids c.
Proof.
  intros Hg Hi. pose proof (grid_lookup s' i) as H. rewrite Hg, grid_lookup, Hi in H. destruct (ScrollingSpace.columns s' !! i) as [c'|]; [|done].
  exists c'. split; [done|]. by injection H.
Qed.
Lemma update_tile_mode x y m f w w' :
  in_mode x m w -> view w' = view w -> update_scrolling_tile y f w = Ok w' -> in_mode x m w'.
Proof.
  intros (i & c & Hi & Hids & Hm) Hv H. assert (Hg : grid (scrolling w') = grid (scrolling w)) by exact (f_equal v_grid Hv).
  destruct (grid_column _ _ i c Hg Hi) as (c' & Hi' & Hids'). exists i, c'. split_and!; [done|congruence|].
  unfold update_scrolling_tile, on_scrolling in H. bind H as [s|] eqn E1. bind E1 as [[k j]|] eqn E2. res_inv. cbn in Hi'.
  destruct (tile_flags _ _ _ _ _ _ _ E1 Hi') as (c0 & Hc0 & ->). congruence.
Qed.
Lemma positioned_mode x y m f w w' : in_mode x m w -> view w' = view w -> update_positioned_tile cv y f w = Ok w' -> in_mode x m w'.
Proof.
  intros Hx Hv H. unfold update_positioned_tile in H. destruct (FloatingSpace.idx_of y (floating w)) as [i|].
  - bind H as [ps|] eqn E1. bind H as [[t p]|] eqn E2. unfold on_floating in H. bind H as [s|] eqn E3. by res_inv.
  - bind H as [ps|] eqn E1. bind H as [p|] eqn E2. by eapply update_tile_mode.
Qed.

Lemma removed_pending x (s s' : FloatingSpace.FloatingSpace) r : floating_base s -> FloatingSpace.remove_tile x s = Ok (r, s') -> pending (rt_tile r) = Normal /\ Tile.id (rt_tile r) = x.
Proof.
  intros Hs H. unfold FloatingSpace.remove_tile, unwrap in H. destruct (FloatingSpace.idx_of x s) as [i|] eqn:Ei; [|done]. cbn [mbind res_bind] in H.
  destruct (idx_of_Some _ _ _ Ei) as (t & Ht & Hid). unfold FloatingSpace.remove_tile_by_idx, vec_remove in H. rewrite Ht in H. cbn [mbind res_bind] in H.
  destruct (FloatingSpace.data s !! i) as [d|]; [|done]. cbn [mbind res_bind] in H. injection H as <- _. cbn [rt_tile].
  pose proof (lookup_floats s i t Hs Ht) as (_ & _ & Hp). by destruct (win_expected_size _).
Qed.

Lemma to_scrolling_mode x a w w1 :
  ws_base kin w -> x ∈ p_ids (v_pile (view w)) -> NoDup (v_windows (view w)) -> to_scrolling cv x a w = Ok w1 -> in_mode x (false, false) w1.
Proof.
  intros Hw Hx Hn H. pose proof (to_scrolling_to kin cv Hcv x a w Hw Hx Hn) as Hto. rewrite H in Hto. destruct Hto as (_ & _ & Hv).
  unfold to_scrolling, floating_returns, on_scrolling in H. bind H as [[r w0]|] eqn E1. bind E1 as [[r' f]|] eqn E2. unfold mret, res_ret in E1. injection E1 as <- <-.
  destruct (removed_pending _ _ _ _ (proj1 (wo_floating _ _ Hw)) E2) as [Hp Hid]. bind H as [w2|] eqn E3. bind E3 as [s|] eqn E4. unfold mret, res_ret in E3, H. injection E3 as <-. injection H as <-.
  cbn [scrolling set_floating] in E4. unfold ScrollingSpace.add_tile in E4. bind E4 as [c|] eqn E5. apply new_column_flags in E5; [|exact Hp].
  set (i := if ScrollingSpace.is_empty (scrolling w) then 0 else ScrollingSpace.active_column_idx (scrolling w) + 1).
  assert (Hg : grid s = g_add None (Tile.id (rt_tile r')) a (grid (scrolling w))).
  { apply (f_equal v_grid) in Hv. rewrite Hid. destruct a; symmetry; exact Hv. }
  assert (Hle : ScrollingSpace.active_column_idx (scrolling w) <= length (ScrollingSpace.columns (scrolling w))) by apply (so_le _ (proj1 (proj1 (wo_scrolling _ _ Hw)))).
  assert (Hi : g_cols (grid s) !! i = Some ([Tile.id (rt_tile r')], 0)).
  { rewrite Hg. unfold g_add, g_add_column. rewrite grid_empty. cbn [default]. change (g_active (grid (scrolling w))) with (ScrollingSpace.active_column_idx (scrolling w)). fold i.
    assert (Hli : i <= length (g_cols (grid (scrolling w)))).
    { rewrite grid_length. unfold i. destruct (ScrollingSpace.is_empty _) eqn:Ee; [lia|]. pose proof (space_active_lt _ (proj1 (wo_scrolling _ _ Hw)) Ee). lia. }
    destruct a; cbn [g_cols]; by apply lookup_insert_at_eq. }
  rewrite grid_lookup in Hi. destruct (ScrollingSpace.columns s !! i) as [c'|] eqn:Ec; [|done]. injection Hi as Hids _.
  exists i, c'. split_and!; [by destruct a|by rewrite <-Hid|]. by rewrite (add_column_flags _ _ _ _ _ _ _ E4 Ec Hle).
Qed.

Lemma toggle_mode x w w1 :
  ws_ok kin w -> x ∈ p_ids (v_pile (view w)) -> toggle_window_floating cv kin (Some x) w = Ok w1 -> in_mode x (false, false) w1.
Proof.
  intros [Hw Hv] Hx H. unfold toggle_window_floating in H. bind H as [act|] eqn E1. cbv zeta in H. bind H as [ps|] eqn E2. bind H as [p|] eqn E3.
  rewrite floating_contains, bool_decide_eq_true_2 in H by done. bind H as [w0|] eqn E4.
  pose proof (to_scrolling_mode x _ w w0 Hw Hx (proj1 Hv) E4) as Hm. pose proof (to_scrolling_to kin cv Hcv x (bool_decide (Some x = act)) w Hw Hx (proj1 Hv)) as Hto. rewrite E4 in Hto.
  destruct Hto as (Hb & _ & Hvw). assert (Hin : x ∈ v_windows (view w0)).
  { rewrite <-Hvw, activated_windows. apply elem_of_app. left. cbn [with_grid v_grid]. rewrite add_windows. by left. }
  pose proof (update_positioned_to kin cv Hcv x _ w0 Hb Hin (fun q => unseen_move cv Hcv (pair_sub p q))) as H2. rewrite H in H2. destruct H2 as (_ & _ & Hv2).
  by eapply positioned_mode; [exact Hm|symmetry; exact Hv2|exact H].
Qed.

(** The tile of a window alone in its column. *)
Lemma alone_tile x c : ids c = [x] -> exists t, Column.tiles c = [t] /\ Tile.id t = x.
Proof. unfold ids. destruct (Column.tiles c) as [|t [|u l]]; try done. intros [= Hx]. by exists t. Qed.
Lemma alone_find x s i c :
  space_ok s -> ScrollingSpace.columns s !! i = Some c -> ids c = [x] ->
  find (Column.contains x) (ScrollingSpace.columns s) = Some c /\ ScrollingSpace.source (Some x) s = Ok (i, 0)
  /\ exists t, Column.tiles c = [t] /\ find (Column.has_id x) (ScrollingSpace.tiles s) = Some t.
Proof.
  intros Hs Hi Hids. assert (Hxc : x ∈ ids c) by (rewrite Hids; by left).
  assert (Hx : x ∈ g_windows (grid s)) by (apply elem_of_windows; exists i, (gcol c); by rewrite grid_lookup, Hi).
  destruct (find_column x s Hx) as (c' & Hf & Hxc' & (i' & Hi')%list_elem_of_lookup).
  pose proof (column_unique s i i' c c' x Hs Hi Hi' Hxc Hxc') as <-. rewrite Hi in Hi'. injection Hi' as <-. split; [exact Hf|]. split.
  - pose proof (source_runs (Some x) s Hs (nonempty_windows s x Hx) ltac:(by intros ? [= <-])) as H. apply runs_ok in H as ([i2 j2] & Hsrc & _ & c2 & t2 & H1 & H2 & H3).
    specialize (H3 x eq_refl). assert (Hx2 : x ∈ ids c2) by (rewrite <-H3; unfold ids; by eapply list_elem_of_fmap_2, list_elem_of_lookup_2).
    pose proof (column_unique s i i2 c c2 x Hs Hi H1 Hxc Hx2) as <-. rewrite Hi in H1. injection H1 as <-. destruct (alone_tile x c Hids) as (t & Ht & _).
    rewrite Ht in H2. destruct j2; [exact Hsrc|done].
  - destruct (alone_tile x c Hids) as (t & Ht & Hid). exists t. split; [done|]. assert (Hin : x ∈ (Tile.id <$> ScrollingSpace.tiles s)) by by rewrite windows_tiles.
    destruct (find_tile x _ Hin) as (u & Hu & Hidu). rewrite Hu. f_equal. apply find_some in Hu as [Hu _]. apply list_elem_of_In in Hu.
    unfold ScrollingSpace.tiles in Hu. apply list_elem_of_bind in Hu as (c3 & Hu & (i3 & Hi3)%list_elem_of_lookup).
    assert (Hx3 : x ∈ ids c3) by (rewrite <-Hidu; unfold ids; by apply list_elem_of_fmap_2).
    pose proof (column_unique s i i3 c c3 x Hs Hi Hi3 Hxc Hx3) as <-. rewrite Hi in Hi3. injection Hi3 as <-. rewrite Ht in Hu. by apply list_elem_of_singleton in Hu.
Qed.

(** Making a window that is alone in its column fullscreen does not move it. *)
Lemma set_fullscreen_alone x i c s r s' :
  space_ok s -> ScrollingSpace.columns s !! i = Some c -> ids c = [x] -> mode_flags c = (false, false) ->
  ScrollingSpace.set_fullscreen cv x true s = Ok (r, s') ->
  exists c', ScrollingSpace.columns s' !! i = Some c' /\ ids c' = [x] /\ mode_flags c' = (true, false).
Proof.
  intros Hs Hi Hids Hm H. destruct (alone_find x s i c Hs Hi Hids) as (_ & Hsrc & _). unfold ScrollingSpace.set_fullscreen, ScrollingSpace.set_pending in H.
  unfold ScrollingSpace.source in Hsrc. destruct (unwrap (ScrollingSpace.column_of x s)) as [i0|] eqn:E0; [|done]. cbn [mbind res_bind] in Hsrc, H.
  destruct (index (ScrollingSpace.columns s) i0) as [c0|] eqn:E1; [|done]. cbn [mbind res_bind] in Hsrc, H.
  destruct (unwrap (Column.position_of x c0)) as [j0|]; [|done]. cbn [mbind res_bind] in Hsrc. injection Hsrc as -> ->.
  rewrite (index_ok i c) in E1 by done. injection E1 as <-. injection Hm as Hf Hmx. rewrite Hf in H. cbn [Bool.eqb] in H.
  bind H as [s1|] eqn E2. unfold ScrollingSpace.cancel_resize in E2. rewrite (index_ok i c) in E2 by done. cbn [mbind res_bind] in E2. cbv zeta in E2.
  unfold mret, res_ret in E2. injection E2 as <-. destruct (alone_tile x c Hids) as (t & Ht & _).
  assert (E : (true && (1 <? length (Column.tiles c)) && negb (Column.tabbed c)) = false) by (by rewrite Ht). rewrite E in H. cbn [mbind res_bind mret res_ret] in H.
  bind H as [s2|] eqn E3. unfold ScrollingSpace.update_column in E3. bind E3 as [c1|] eqn E4. bind E3 as [c2|] eqn E5. unfold mret, res_ret in E3. injection E3 as <-.
  unfold index in E4. cbn in E4. rewrite list_lookup_insert_eq in E4 by (by eapply lookup_lt_Some). injection E4 as <-.
  assert (Hids2 : ids c2 = [x]).
  { destruct (cancelled_mid (env s) c) as [Hmid [Hlk _]]; [apply Hs|by apply (space_col s i)|].
    pose proof (set_fullscreen_runs (env s) true (cancelled c) (conj Hmid (cancelled_single c (proj2 (space_col s i c Hs Hi))))) as H0.
    assert (Hone : true = true -> length (Column.tiles (cancelled c)) = 1 \/ Column.tabbed (cancelled c) = true) by (intros _; left; cbn; by rewrite Ht).
    specialize (H0 Hone). change (Column.set_tiles _ c) with (cancelled c) in E5. rewrite E5 in H0. destruct H0 as [_ [Hlk2 _]].
    by rewrite (cl_ids _ _ Hlk2), (cl_ids _ _ Hlk). }
  unfold Column.set_fullscreen in E5. cbn in E5. rewrite Hf in E5. cbn in E5. bind E5 as [u|] eqn E6. unfold mret, res_ret in E5. injection E5 as <-.
  bind H as [s3|] eqn E7. unfold ScrollingSpace.update_data in E7. bind E7 as [c4|] eqn E8. bind E7 as [d|] eqn E9. bind E7 as [wd|] eqn E10.
  unfold mret, res_ret in E7, H. injection E7 as <-. injection H as _ <-. eexists. cbn. split_and!.
  - apply list_lookup_insert_eq. rewrite length_insert. by eapply lookup_lt_Some.
  - exact Hids2.
  - unfold mode_flags. cbn. by rewrite Hmx.
Qed.

(** The tile of the window remembers that it floated. *)
Definition remembers x w : Prop :=
  exists i c t, ScrollingSpace.columns (scrolling w) !! i = Some c /\ ids c = [x] /\ mode_flags c = (true, false)
    /\ Column.tiles c = [t] /\ Tile.restore_to_floating t = true.
Lemma tile_pending s i c t : space_ok s -> ScrollingSpace.columns s !! i = Some c -> Column.tiles c = [t] -> pending t = Column.pending_sizing_mode c.
Proof. intros Hs Hi Ht. pose proof (cm_pending _ _ (proj1 (space_col s i c Hs Hi))) as H. rewrite Ht in H. by inversion_clear H. Qed.

Lemma set_tiled_restores x w w1 :
  ws_base kin w -> x ∈ g_windows (v_grid (view w)) -> in_mode x (false, false) w ->
  set_tiled cv ScrollingSpace.set_fullscreen x true true w = Ok w1 -> remembers x w1.
Proof.
  intros Hw Hx (i & c & Hi & Hids & Hm) H. pose proof (wo_scrolling _ _ Hw) as Hs. destruct (alone_find x _ i c Hs Hi Hids) as (_ & _ & t & Ht & Hfind).
  pose proof (tile_pending _ _ _ _ Hs Hi Ht) as Hp. unfold Column.pending_sizing_mode in Hp. injection Hm as Hf Hmx. rewrite Hf, Hmx in Hp.
  unfold set_tiled in H. rewrite Hfind in H. cbn [unwrap mbind res_bind] in H. cbv zeta in H. unfold pending in Hp. rewrite Hp in H.
  bind H as [[r w0]|] eqn E1. unfold scrolling_returns in E1. bind E1 as [[r' s1]|] eqn E2. unfold mret, res_ret in E1. injection E1 as <- <-.
  destruct (set_fullscreen_alone x i c _ _ _ Hs Hi Hids ltac:(unfold mode_flags; by rewrite Hf, Hmx) E2) as (c1 & Hi1 & Hids1 & Hm1).
  assert (Hs1 : space_ok s1).
  { pose proof (set_pending_runs cv Hcv _ _ _ x true _ fullscreen_op Hs Hx) as H0. unfold ScrollingSpace.set_fullscreen in E2. rewrite E2 in H0.
    by destruct H0 as [_ [[? _]|(_ & ? & _)]]. }
  destruct (alone_find x s1 i c1 Hs1 Hi1 Hids1) as (_ & Hsrc & t1 & Ht1 & _). pose proof (tile_pending _ _ _ _ Hs1 Hi1 Ht1) as Hp1.
  injection Hm1 as Hf1 Hmx1. unfold Column.pending_sizing_mode in Hp1. rewrite Hf1 in Hp1. unfold pending in Hp1.
  unfold update_scrolling_tile, on_scrolling in H. cbn [scrolling set_scrolling] in H. rewrite Hsrc in H. cbn [mbind res_bind] in H.
  unfold ScrollingSpace.update_column, Column.update_tile in H. rewrite (index_ok i c1) in H by done. cbn [mbind res_bind] in H. rewrite Ht1 in H. cbn in H.
  rewrite Hp1 in H. cbn in H. unfold mret, res_ret in H. injection H as <-. eexists i, _, _. cbn. split_and!.
  - apply list_lookup_insert_eq. by eapply lookup_lt_Some.
  - unfold ids in Hids1 |- *. rewrite Ht1 in Hids1. cbn in Hids1 |- *. exact Hids1.
  - unfold mode_flags. cbn. by rewrite Hf1, Hmx1.
  - done.
  - done.
Qed.

Lemma make_fullscreen x w :
  ws_ok kin w -> x ∈ p_ids (v_pile (view w)) ->
  runs (set_fullscreen cv kin x true w) (fun w1 => ws_ok kin w1 /\ (x ∉ p_ids (v_pile (view w1))) /\ x ∈ v_windows (view w1) /\ remembers x w1).
Proof.
  intros Hok Hx. assert (Hxw : x ∈ v_windows (view w)) by (apply elem_of_app; by right).
  pose proof (set_fullscreen_to kin Hac cv Hcv x true w Hok Hxw) as H. apply runs_ok in H as (w1 & H & Hb & _ & Hsp).
  destruct (v_fullscreen_ok kin Hac cv Hcv x true w (view w1) Hok Hxw (ws_sane kin w1 Hb) Hsp) as [Hv Hperm]. rewrite H. returns.
  assert (Hxw1 : x ∈ v_windows (view w1)) by by rewrite Hperm.
  assert (Hr : remembers x w1).
  { unfold set_fullscreen in H. cbv zeta in H. rewrite floating_contains, bool_decide_eq_true_2 in H by done. bind H as [w0|] eqn E1.
    pose proof (toggle_mode x w w0 Hok Hx E1) as Hm. pose proof (toggle_named kin Hac cv Hcv x w Hok Hxw) as Ht. rewrite E1 in Ht. destruct Ht as (Hb0 & _ & Hv0).
    eapply set_tiled_restores; [exact Hb0|rewrite <-Hv0; by apply toggled_tiled|exact Hm|exact H]. }
  split; [done|]. split; [|done]. intros Hf. destruct Hr as (i & c & t & Hi & Hids & _).
  destruct Hv as [(_ & Hd & _)%NoDup_app _]. apply (Hd x); [|exact Hf]. apply elem_of_windows. exists i, (gcol c). change (v_grid (view w1)) with (grid (scrolling w1)).
  rewrite grid_lookup, Hi. split; [done|]. cbn. rewrite Hids. by left.
Qed.
Lemma make_floating_again x w :
  ws_ok kin w -> (x ∉ p_ids (v_pile (view w))) -> x ∈ v_windows (view w) -> remembers x w ->
  runs (set_fullscreen cv kin x false w) (wto kin w (eq (v_toggle kin x (view w)))).
Proof.
  intros Hok Hnf Hx (i & c & t & Hi & Hids & [= Hf Hm] & Ht & Hr). pose proof (wo_scrolling _ _ (proj1 Hok)) as Hs.
  destruct (alone_find x _ i c Hs Hi Hids) as (Hfc & _). unfold set_fullscreen. cbv zeta. rewrite floating_contains, bool_decide_eq_false_2 by done. cbn [negb].
  rewrite Hfc. cbn [unwrap mbind res_bind]. rewrite Hf, Hm. cbn [andb negb]. assert (Hft : find (Column.has_id x) (Column.tiles c) = Some t).
  { rewrite Ht. cbn. unfold ids in Hids. rewrite Ht in Hids. injection Hids as Hid. unfold Column.has_id. by rewrite bool_decide_eq_true_2. }
  rewrite Hft. cbn [unwrap mbind res_bind]. rewrite Hr. by apply toggle_named.
Qed.
End workspace.

(** C21: a floating window that is made fullscreen is tiled while it is; it floats
    again when it is made not fullscreen. *)
Theorem fullscreen_floats_again kin cv cv' x w :
  ws_reachable kin w -> cv_ok cv -> cv_ok cv' -> Workspace.is_floating x w = true ->
  exists w1 w2, Workspace.set_fullscreen cv kin x true w = Ok w1 /\ Workspace.is_floating x w1 = false
    /\ Workspace.has_window x w1 = true /\ Workspace.set_fullscreen cv' kin x false w1 = Ok w2 /\ Workspace.is_floating x w2 = true.
Proof.
  intros Hr Hcv Hcv' Hx. destruct (ws_reachable_ok kin w Hr) as [Ha Hok]. unfold Workspace.is_floating in *. rewrite floating_contains in Hx.
  apply bool_decide_eq_true_1 in Hx. pose proof (make_fullscreen kin Ha cv Hcv x w Hok Hx) as H. apply runs_ok in H as (w1 & H1 & Hok1 & Hn & Hin & Hrem).
  pose proof (make_floating_again kin Ha cv' Hcv' x w1 Hok1 Hn Hin Hrem) as H. apply runs_ok in H as (w2 & H2 & _ & _ & Hv). exists w1, w2. split_and!; [done| | |done|].
  - rewrite floating_contains. by apply bool_decide_eq_false_2.
  - rewrite has_window_view. by apply bool_decide_eq_true_2.
  - rewrite floating_contains, <-Hv. apply bool_decide_eq_true_2. destruct (v_toggle_parts kin x (view w1)) as (a & _ & Hp).
    rewrite bool_decide_eq_false_2 in Hp by done. destruct Hp as (_ & -> & _). rewrite insert_pile_perm. by left.
Qed.
End fullscreen.

(** ** The theorem at a concrete run *)
#[local] Existing Instance window0.
#[local] Existing Instance window0_laws.
#[local] Existing Instance geometry0.
#[local] Existing Instance geometry0_laws.
#[local] Existing Instance libm0.
#[local] Existing Instance keyframe0.
Example fullscreen_floats_again_witness :
  exists w1 w2, Workspace.set_fullscreen (cv_at 5%Z) kin0 (3 : @Id window0) true ws_three = Ok w1 /\ Workspace.is_floating (3 : @Id window0) w1 = false
    /\ Workspace.has_window (3 : @Id window0) w1 = true /\ Workspace.set_fullscreen (cv_at 5%Z) kin0 (3 : @Id window0) false w1 = Ok w2
    /\ Workspace.is_floating (3 : @Id window0) w2 = true.
Proof. apply (fullscreen_floats_again kin0); [exact ws_three_reachable|exact clock5_ok|exact clock5_ok|by vm_compute]. Defined.
