(* ===== verification/WorkspaceLabels.v ===== *)
(** * What operations of a workspace leave alone

    A workspace keeps its id, its name and the output it belongs to, whatever
    happens to its layouts; only setting an output may rewrite the name of that
    output.  This holds without the invariant. *)

From stdpp Require Import base numbers option list strings.
From Stdlib Require Import ZArith Lia SpecFloat.
From S2P Require Import Prelude.
From S2P Require Import F64.
From S2P Require Import Clock.
From S2P Require Import Animation.
From S2P Require Import LayoutTypes.
From S2P Require Import Tile.
From S2P Require Import Floating.
From S2P Require Import Column.
From S2P Require Import Scrolling.
From S2P Require Import Positions.
From S2P Require Import Workspace.

Section labels.
Context {LE : LayoutElement} {GE : Geometry} {LM : Libm} {KF : Keyframe} {OU : Outputs}.
Implicit Types (cv : ClockView) (kin : Id -> Id -> bool) (st : WOutput -> OutputState) (w : Workspace.Workspace) (x : Id).
Import Workspace.

Definition label w : Z * option string * string := (id w, name w, original_output w).

(** If the operation returns, its result satisfies [Q]. *)
Definition if_ok {A} (m : res A) (Q : A -> Prop) : Prop := forall a, m = Ok a -> Q a.

Lemma if_ok_ret {A} (a : A) (Q : A -> Prop) : Q a -> if_ok (mret a) Q.
Proof. by intros H b [= <-]. Qed.
Lemma if_ok_bind {A B} (m : res A) (f : A -> res B) (R : A -> Prop) (Q : B -> Prop) :
  if_ok m R -> (forall a, R a -> if_ok (f a) Q) -> if_ok (m ≫= f) Q.
Proof. intros Hm Hf b H. destruct m as [a|]; [|done]. exact (Hf a (Hm a eq_refl) b H). Qed.
Lemma if_ok_any {A B} (m : res A) (f : A -> res B) (Q : B -> Prop) : (forall a, if_ok (f a) Q) -> if_ok (m ≫= f) Q.
Proof. intros Hf b H. destruct m as [a|]; [|done]. by apply (Hf a). Qed.
Lemma if_ok_mono {A} (m : res A) (P Q : A -> Prop) : if_ok m P -> (forall a, P a -> Q a) -> if_ok m Q.
Proof. intros Hm H a Ha. auto. Qed.

(** Operations that keep the label, with and without a result. *)
Definition keeps (m : res Workspace) w : Prop := if_ok m (fun w' => label w' = label w).
Definition keeps_snd {A} (m : res (A * Workspace)) w : Prop := if_ok m (fun '(_, w') => label w' = label w).
Definition keeps_opt {A} (m : res (option (A * Workspace))) w : Prop :=
  if_ok m (fun o => match o with Some (_, w') => label w' = label w | None => True end).

Lemma keeps_from m w w1 : label w1 = label w -> keeps m w1 -> keeps m w.
Proof. unfold keeps. by intros ->. Qed.
Lemma keeps_then m (f : Workspace -> res Workspace) w : keeps m w -> (forall w1, keeps (f w1) w1) -> keeps (m ≫= f) w.
Proof. intros Hm Hf. eapply if_ok_bind; [exact Hm|]. intros w1 Hw1. apply (keeps_from _ _ w1); [done|apply Hf]. Qed.
Lemma keeps_then_ret m (g : Workspace -> Workspace) w : keeps m w -> (forall w1, label (g w1) = label w1) -> keeps (w1 ← m; mret (g w1)) w.
Proof. intros Hm Hg. eapply keeps_then; [done|]. intros w1. by apply if_ok_ret. Qed.

Lemma keeps_any {A} (m : res A) f w : (forall a, keeps (f a) w) -> keeps (m ≫= f) w.
Proof. apply if_ok_any. Qed.

Lemma on_scrolling_keeps f w : keeps (on_scrolling f w) w.
Proof. apply if_ok_any. intros s. by apply if_ok_ret. Qed.
Lemma on_floating_keeps f w : keeps (on_floating f w) w.
Proof. apply if_ok_any. intros s. by apply if_ok_ret. Qed.
Lemma scrolling_returns_keeps {A} (f : _ -> res (A * _)) w : keeps_snd (scrolling_returns f w) w.
Proof. apply if_ok_any. intros [a s]. by apply if_ok_ret. Qed.
Lemma floating_returns_keeps {A} (f : _ -> res (A * _)) w : keeps_snd (floating_returns f w) w.
Proof. apply if_ok_any. intros [a s]. by apply if_ok_ret. Qed.
Lemma activate_layout_label b a w : label (activate_layout b a w) = label w.
Proof. by destruct b. Qed.
Lemma after_removing_label b w : label (update_focus_floating_tiling_after_removing b w) = label w.
Proof. unfold update_focus_floating_tiling_after_removing. destruct b; [by destruct (FloatingSpace.is_empty (floating w))|by destruct (_ && _)]. Qed.
#[local] Hint Resolve on_scrolling_keeps on_floating_keeps scrolling_returns_keeps floating_returns_keeps activate_layout_label
  after_removing_label : core.

Lemma positioned_keeps cv x f w : keeps (update_positioned_tile cv x f w) w.
Proof.
  unfold update_positioned_tile. destruct (FloatingSpace.idx_of x (floating w)); apply keeps_any; intros ps; apply keeps_any; [intros [t p]|intros p]; [apply on_floating_keeps|apply on_scrolling_keeps].
Qed.
Lemma update_spaces_keeps cv o w : keeps (update_spaces cv o w) w.
Proof. apply keeps_then; auto. Qed.
Lemma update_config_keeps cv base w : keeps (update_config cv base w) w.
Proof. apply keeps_then_ret; [apply update_spaces_keeps|done]. Qed.
Lemma advance_keeps cv w : keeps (advance_animations cv w) w.
Proof. apply keeps_then; auto. Qed.
Lemma set_view_size_keeps cv sc tr size area w : keeps (set_view_size cv sc tr size area w) w.
Proof.
  unfold set_view_size. destruct (negb _ && _ && _); [by apply if_ok_ret|].
  apply (keeps_from _ _ (with_view sc tr size area w)); [done|].
  destruct (fneb _ _); [apply update_config_keeps|apply update_spaces_keeps].
Qed.
Lemma update_output_size_keeps cv st w : keeps (update_output_size cv st w) w.
Proof. apply keeps_any. intros o. apply set_view_size_keeps. Qed.

(** Only the name of the output changes, to its canonical form. *)
Lemma set_current_output_label cv st o w :
  if_ok (set_current_output cv st o w) (fun w' => id w' = id w /\ name w' = name w
    /\ (original_output w' = original_output w
        \/ exists o', o = Some o' /\ output_id_matches (original_output w) o' = true /\ original_output w' = output_id_new o')).
Proof.
  unfold set_current_output. case_bool_decide; [apply if_ok_ret; auto|]. destruct o as [o|]; [|apply if_ok_ret; auto].
  eapply if_ok_mono; [apply update_output_size_keeps|]. intros w' [= -> -> ->].
  change (original_output (set_output (Some o) w)) with (original_output w).
  destruct (output_id_matches (original_output w) o) eqn:E; cbn; split_and!; auto. right. by exists o.
Qed.

Lemma add_scrolling_keeps cv i t a width full w : keeps (add_scrolling cv i t a width full w) w.
Proof. apply keeps_then_ret; auto. Qed.
Lemma add_floating_keeps kin t a w : keeps (add_floating kin t a w) w.
Proof. apply keeps_then_ret; auto. Qed.
#[local] Hint Resolve add_scrolling_keeps add_floating_keeps : core.

Lemma add_tile_keeps cv kin t target a width full fl w : keeps (add_tile cv kin t target a width full fl w) w.
Proof.
  unfold add_tile. destruct target as [|i|x]; auto.
  - apply keeps_any. intros b. destruct (_ && _); auto.
  - apply keeps_any. intros b. destruct (_ && _), (FloatingSpace.has_window _ _); auto; [apply keeps_then_ret; auto| |apply keeps_then_ret; auto].
    apply keeps_any. auto.
Qed.
Lemma add_tile_to_column_keeps cv i j t a w : keeps (add_tile_to_column cv i j t a w) w.
Proof. apply keeps_then_ret; auto. Qed.
Lemma add_column_keeps cv c a w : keeps (add_column cv c a w) w.
Proof. apply keeps_then_ret; auto. Qed.

Lemma remove_tile_keeps cv x tr w : keeps_snd (remove_tile cv x tr w) w.
Proof.
  unfold remove_tile. eapply if_ok_bind with (R := fun '(_, w') => label w' = label w); 
    [destruct (FloatingSpace.has_window _ _); [apply floating_returns_keeps|apply scrolling_returns_keeps]|].
  intros [r w1] Hw1. apply if_ok_ret. by rewrite after_removing_label.
Qed.
Lemma remove_active_tile_keeps cv tr w : keeps_opt (remove_active_tile cv tr w) w.
Proof.
  unfold remove_active_tile. destruct (is_active_floating w); apply if_ok_any; intros [[r s]|]; apply if_ok_ret;
    [exact (after_removing_label _ _)|done|exact (after_removing_label _ _)|done].
Qed.
Lemma remove_active_column_keeps cv w : keeps_opt (remove_active_column cv w) w.
Proof.
  unfold remove_active_column. destruct (is_active_floating w); [by apply if_ok_ret|]. apply if_ok_any.
  intros [[c s]|]; apply if_ok_ret; [exact (after_removing_label _ _)|done].
Qed.

Lemma focus_down_keeps cv kin w : keeps_snd (focus_down cv kin w) w.
Proof. unfold focus_down. destruct (is_active_floating w); auto. Qed.
Lemma focus_up_keeps cv kin w : keeps_snd (focus_up cv kin w) w.
Proof. unfold focus_up. destruct (is_active_floating w); auto. Qed.
Lemma moved_keeps m w : keeps m w -> keeps_snd (w1 ← m; mret (true, w1)) w.
Proof. intros Hm. eapply if_ok_bind; [exact Hm|]. intros w1 Hw1. by apply if_ok_ret. Qed.
Lemma move_down_labels cv w : keeps_snd (move_down cv w) w.
Proof. unfold move_down. destruct (is_active_floating w); [apply moved_keeps|]; auto. Qed.
Lemma move_up_labels cv w : keeps_snd (move_up cv w) w.
Proof. unfold move_up. destruct (is_active_floating w); [apply moved_keeps|]; auto. Qed.

Lemma set_window_height_keeps o ch w : keeps (set_window_height o ch w) w.
Proof. unfold set_window_height. destruct (on_floating_window o w); auto. Qed.
Lemma activate_window_keeps cv kin x w : keeps_snd (activate_window cv kin x w) w.
Proof.
  eapply if_ok_bind; [apply floating_returns_keeps|]. intros [[] w1] Hw1; [by apply if_ok_ret|].
  eapply if_ok_bind; [apply scrolling_returns_keeps|]. intros [b w2] Hw2. apply if_ok_ret. rewrite activate_layout_label. congruence.
Qed.
Lemma activate_without_raising_keeps cv x w : keeps_snd (activate_window_without_raising cv x w) w.
Proof.
  eapply if_ok_bind; [apply floating_returns_keeps|]. intros [[] w1] Hw1; [by apply if_ok_ret|].
  eapply if_ok_bind; [apply scrolling_returns_keeps|]. intros [b w2] Hw2. apply if_ok_ret. rewrite activate_layout_label. congruence.
Qed.
Lemma dnd_end_labels cv w : keeps (dnd_scroll_gesture_end cv w) w.
Proof. apply on_scrolling_keeps. Qed.
End labels.
