(* ===== verification/Interface.v ===== *)
(** * What monitors use of workspaces (src/layout/mod.rs, workspace.rs)

    The options of the layout, and the interface a monitor has to its workspaces:
    the class [WorkspaceOps] lists the operations of [Workspace] a monitor calls,
    and [WorkspaceLaws] what it relies on, in terms of the workspace's windows.
    [LayoutReal] shows that the workspaces of [Workspace] satisfy it. *)

From stdpp Require Import base numbers option list strings.
From Stdlib Require Import ZArith.
From S2P Require Import Prelude.
From S2P Require Import F64.
From S2P Require Import Duration.
From S2P Require Import Clock.
From S2P Require Import Animation.
From S2P Require Import AnimTotal.
From S2P Require Import OutputName.
From S2P Require Import LayoutTypes.
From S2P Require Tile.
From S2P Require TileInv.
From S2P Require Workspace.
From S2P Require WorkspaceInv.

Local Open Scope Z_scope.

(** ** Options *)
Abbreviation LayoutOptions := Tile.LayoutOptions.
Abbreviation LayoutPart := Workspace.Overrides.
Abbreviation WorkspaceConfig := Workspace.WorkspaceConfig.
Abbreviation wc_name := Workspace.wc_name.
Abbreviation wc_open_on_output := Workspace.wc_open_on_output.
Abbreviation wc_layout := Workspace.wc_layout.

(** The options read here: [layout] with the animations and gestures of its spaces,
    [animations.workspace_switch], [animations.overview_open_close], [overview.zoom] and
    [gestures.dnd_edge_workspace_switch]. *)
Record Options := {
  opt_layout : LayoutOptions;
  workspace_switch_anim : Config.Animation;
  overview_open_close_anim : Config.Animation;
  opt_overview_zoom : f64;
  dnd_trigger_height : f64;
  dnd_delay_ms : Z;
  dnd_max_speed : f64
}.
Definition empty_workspace_above_first (o : Options) : bool := Tile.empty_workspace_above_first (opt_layout o).

Definition with_merged_layout (part : option LayoutPart) (o : Options) : Options :=
  {| opt_layout := Workspace.with_merged_overrides part (opt_layout o);
     workspace_switch_anim := workspace_switch_anim o;
     overview_open_close_anim := overview_open_close_anim o; opt_overview_zoom := opt_overview_zoom o;
     dnd_trigger_height := dnd_trigger_height o; dnd_delay_ms := dnd_delay_ms o;
     dnd_max_speed := dnd_max_speed o |}.
Definition layout_part_eqb : option LayoutPart -> option LayoutPart -> bool := option_eqb Workspace.overrides_eqb.

Definition compute_overview_zoom (o : Options) (overview_progress : option f64) : res f64 :=
  zoom ← fclamp (opt_overview_zoom o) (lit 1 10000) (lit 75 100);
  mret match overview_progress with
       | Some p => fmax (f1 - p * (f1 - zoom))%F (lit 1 10000)
       | None => f1
       end.

(** Options as the configuration allows them. *)
Record opts_ok `{!Libm, !Keyframe} (o : Options) : Prop := {
  op_layout : TileInv.options_ok (opt_layout o);
  op_switch : config_total (workspace_switch_anim o);
  op_overview : config_total (overview_open_close_anim o)
}.
Abbreviation part_ok := WorkspaceInv.part_ok.

Lemma merged_opts_ok `{!Libm, !Keyframe} part o : part_ok part -> opts_ok o -> opts_ok (with_merged_layout part o).
Proof.
  intros Hp []. constructor; cbn; try done. destruct part as [p|]; [|done]. cbn. apply WorkspaceInv.merge_layout_ok; [done|]. by apply Hp.
Qed.

(** ** The interface to workspaces *)
Class WorkspaceOps := {
  WS : Type;
  Tile : Type;
  Column : Type;
  Win : Type;
  Window : Type;
  window_id : Window -> Win;
  Output : Type;
  win_eq_dec :: EqDecision Win;
  output_eq_dec :: EqDecision Output;
  output_name : Output -> OutputName;
  tile_win : Tile -> Win;
  column_wins : Column -> list Win;

  ws_new : Z -> Output -> Options -> WS;
  ws_id : WS -> Z;
  ws_name : WS -> option string;
  ws_windows : WS -> list Win;
  ws_active_window : WS -> res (option Win);
  ws_floating_is_active : WS -> bool;
  ws_original_output : WS -> string;
  (** The number of columns of the scrolling layout, and of tiles in each. *)
  ws_columns : WS -> list nat;

  ws_unname : WS -> WS;
  ws_set_original_output : Output -> WS -> WS;
  ws_set_output : ClockView -> option Output -> WS -> res WS;
  ws_update_config : ClockView -> Options -> WS -> res WS;
  ws_advance_animations : ClockView -> WS -> res WS;
  ws_make_tile : Window -> WS -> Tile;
  ws_add_tile : ClockView -> Tile -> WorkspaceAddWindowTarget Win -> ActivateWindow -> ColumnWidth -> bool -> bool -> WS -> res WS;
  ws_add_tile_to_column : ClockView -> nat -> option nat -> Tile -> bool -> WS -> res WS;
  ws_add_column : ClockView -> Column -> bool -> WS -> res WS;
  ws_remove_tile : ClockView -> Win -> WS -> res (RemovedTile Tile * WS);
  ws_remove_active_tile : ClockView -> WS -> res (option (RemovedTile Tile * WS));
  ws_remove_active_column : ClockView -> WS -> res (option (Column * WS));
  ws_move_down : ClockView -> WS -> res (bool * WS);
  ws_move_up : ClockView -> WS -> res (bool * WS);
  ws_focus_down : ClockView -> WS -> res (bool * WS);
  ws_focus_up : ClockView -> WS -> res (bool * WS)
}.

(** [OutputId::new] and [OutputId::matches] *)
Definition output_id `{!WorkspaceOps} (o : Output) : string := format_make_model_serial_or_connector (output_name o).
Definition output_matches `{!WorkspaceOps} (id : string) (o : Output) : bool := matches (output_name o) id.

Definition has_windows `{!WorkspaceOps} (w : WS) : bool := match ws_windows w with [] => false | _ => true end.
Definition has_window `{!WorkspaceOps} (x : Win) (w : WS) : bool := bool_decide (x ∈ ws_windows w).
Definition has_windows_or_name `{!WorkspaceOps} (w : WS) : bool :=
  has_windows w || match ws_name w with Some _ => true | None => false end.

(** [w'] is what some operation makes of [w]. *)
Inductive ws_op `{!WorkspaceOps} (w : WS) : WS -> Prop :=
| op_unname : ws_op w (ws_unname w)
| op_set_original_output o : ws_op w (ws_set_original_output o w)
| op_set_output cv o w' : ws_set_output cv o w = Ok w' -> ws_op w w'
| op_update_config cv opts w' : ws_update_config cv opts w = Ok w' -> ws_op w w'
| op_advance cv w' : ws_advance_animations cv w = Ok w' -> ws_op w w'
| op_add_tile cv t tg a cw fw fl w' : ws_add_tile cv t tg a cw fw fl w = Ok w' -> ws_op w w'
| op_add_tile_to_column cv c i t a w' : ws_add_tile_to_column cv c i t a w = Ok w' -> ws_op w w'
| op_add_column cv c a w' : ws_add_column cv c a w = Ok w' -> ws_op w w'
| op_remove_tile cv x r w' : ws_remove_tile cv x w = Ok (r, w') -> ws_op w w'
| op_remove_active_tile cv r w' : ws_remove_active_tile cv w = Ok (Some (r, w')) -> ws_op w w'
| op_remove_active_column cv c w' : ws_remove_active_column cv w = Ok (Some (c, w')) -> ws_op w w'
| op_move_down cv b w' : ws_move_down cv w = Ok (b, w') -> ws_op w w'
| op_move_up cv b w' : ws_move_up cv w = Ok (b, w') -> ws_op w w'
| op_focus_down cv b w' : ws_focus_down cv w = Ok (b, w') -> ws_op w w'
| op_focus_up cv b w' : ws_focus_up cv w = Ok (b, w') -> ws_op w w'.

(** A target is valid for a workspace: a new column is at most past the last
    one, and the neighbour is on the workspace. *)
Definition target_ok `{!WorkspaceOps} (t : WorkspaceAddWindowTarget Win) (w : WS) : Prop :=
  match t with
  | Auto => True
  | NewColumnAt c => (c <= length (ws_columns w))%nat
  | NextTo x => x ∈ ws_windows w
  end.

(** [w'] is [w] after an operation that keeps its identity and turns its
    windows into [wins]; [ws_becomes] also keeps the output it belongs to. *)
Definition ws_turns `{!WorkspaceOps} (ok : WS -> Prop) (w : WS) (wins : list Win) (w' : WS) : Prop :=
  ws_id w' = ws_id w /\ ws_name w' = ws_name w /\ ws_windows w' ≡ₚ wins /\ ok w'.
Definition ws_becomes `{!WorkspaceOps} (ok : WS -> Prop) (w : WS) (wins : list Win) (w' : WS) : Prop :=
  ws_turns ok w wins w' /\ ws_original_output w' = ws_original_output w.

Class WorkspaceLaws `{!WorkspaceOps, !Libm, !Keyframe} := {
  ws_ok : WS -> Prop;
  (** What a window, a tile and a column have to be to come into a workspace. *)
  window_ok : Window -> Prop;
  tile_ok : Tile -> Prop;
  column_ok : Column -> Prop;
  (** No operation changes the id of a workspace. *)
  ws_id_stable w w' : ws_op w w' -> ws_id w' = ws_id w;
  ws_new_spec i o opts :
    ws_id (ws_new i o opts) = i /\ ws_name (ws_new i o opts) = None
    /\ ws_windows (ws_new i o opts) = [] /\ (opts_ok opts -> ws_ok (ws_new i o opts))
    /\ ws_original_output (ws_new i o opts) = output_id o;
  ws_make_tile_spec x w : tile_win (ws_make_tile x w) = window_id x;
  ws_make_tile_ok x w : ws_ok w -> window_ok x -> tile_ok (ws_make_tile x w);
  ws_active_window_spec w : ws_ok w -> exists o, ws_active_window w = Ok o;
  ws_columns_spec w c n : ws_ok w -> ws_columns w !! c = Some n -> ws_windows w <> [];
  ws_unname_spec w : ws_ok w ->
    ws_id (ws_unname w) = ws_id w /\ ws_name (ws_unname w) = None
    /\ ws_windows (ws_unname w) = ws_windows w /\ ws_ok (ws_unname w)
    /\ ws_original_output (ws_unname w) = ws_original_output w;
  ws_set_original_output_spec o w : ws_ok w ->
    ws_turns ws_ok w (ws_windows w) (ws_set_original_output o w)
    /\ ws_original_output (ws_set_original_output o w) = output_id o;
  (** Setting an output may replace the name of that output by its canonical one. *)
  ws_set_output_spec cv o w : cv_ok cv -> ws_ok w ->
    exists w', ws_set_output cv o w = Ok w' /\ ws_turns ws_ok w (ws_windows w) w'
      /\ (ws_original_output w' = ws_original_output w
          \/ exists o', o = Some o' /\ output_matches (ws_original_output w) o' = true
              /\ ws_original_output w' = output_id o');
  ws_update_config_spec cv o w : cv_ok cv -> opts_ok o -> ws_ok w ->
    exists w', ws_update_config cv o w = Ok w' /\ ws_becomes ws_ok w (ws_windows w) w';
  ws_advance_spec cv w : cv_ok cv -> ws_ok w ->
    exists w', ws_advance_animations cv w = Ok w' /\ ws_becomes ws_ok w (ws_windows w) w';
  ws_add_tile_spec cv t tg a cw fw fl w : cv_ok cv -> ws_ok w -> tile_ok t -> target_ok tg w -> tile_win t ∉ ws_windows w ->
    exists w', ws_add_tile cv t tg a cw fw fl w = Ok w' /\ ws_becomes ws_ok w (tile_win t :: ws_windows w) w';
  ws_add_tile_to_column_spec cv c i t a w n : cv_ok cv -> ws_ok w -> tile_ok t -> tile_win t ∉ ws_windows w ->
    ws_columns w !! c = Some n -> (default n i <= n)%nat ->
    exists w', ws_add_tile_to_column cv c i t a w = Ok w' /\ ws_becomes ws_ok w (tile_win t :: ws_windows w) w';
  ws_add_column_spec cv c a w : cv_ok cv -> ws_ok w -> column_ok c -> NoDup (column_wins c ++ ws_windows w) -> column_wins c <> [] ->
    exists w', ws_add_column cv c a w = Ok w' /\ ws_becomes ws_ok w (column_wins c ++ ws_windows w) w';
  ws_remove_tile_spec cv x w : cv_ok cv -> ws_ok w -> x ∈ ws_windows w ->
    exists r w' wins, ws_remove_tile cv x w = Ok (r, w') /\ tile_win (rt_tile r) = x /\ tile_ok (rt_tile r)
      /\ ws_windows w ≡ₚ x :: wins /\ ws_becomes ws_ok w wins w';
  ws_remove_active_tile_spec cv w : cv_ok cv -> ws_ok w ->
    exists o, ws_remove_active_tile cv w = Ok o /\
      match o with
      | None => True
      | Some (r, w') => tile_ok (rt_tile r) /\ exists wins, ws_windows w ≡ₚ tile_win (rt_tile r) :: wins /\ ws_becomes ws_ok w wins w'
      end;
  ws_remove_active_column_spec cv w : cv_ok cv -> ws_ok w ->
    exists o, ws_remove_active_column cv w = Ok o /\
      match o with
      | None => True
      | Some (c, w') => column_ok c /\ exists wins, ws_windows w ≡ₚ column_wins c ++ wins /\ column_wins c <> []
          /\ ws_becomes ws_ok w wins w'
      end;
  ws_move_down_spec cv w : cv_ok cv -> ws_ok w ->
    exists b w', ws_move_down cv w = Ok (b, w') /\ ws_becomes ws_ok w (ws_windows w) w';
  ws_move_up_spec cv w : cv_ok cv -> ws_ok w ->
    exists b w', ws_move_up cv w = Ok (b, w') /\ ws_becomes ws_ok w (ws_windows w) w';
  ws_focus_down_spec cv w : cv_ok cv -> ws_ok w ->
    exists b w', ws_focus_down cv w = Ok (b, w') /\ ws_becomes ws_ok w (ws_windows w) w';
  ws_focus_up_spec cv w : cv_ok cv -> ws_ok w ->
    exists b w', ws_focus_up cv w = Ok (b, w') /\ ws_becomes ws_ok w (ws_windows w) w'
}.
