(* ===== verification/Monitor.v ===== *)
(** * Monitors (src/layout/monitor.rs)

    A monitor owns a non-empty list of workspaces with an active index, and a
    workspace switch in progress: an animation or a gesture over fractional
    workspace indices.  Workspaces are used through [WorkspaceOps].  The id
    counter of workspaces is global in the source; here it is threaded as the
    field [id_counter].  [cv] is the clock of the current event loop cycle.
    Rendering and the insert hint are left out. *)

From stdpp Require Import base numbers option list strings.
From Stdlib Require Import ZArith Lia.
From S2P Require Import Prelude.
From S2P Require Import F64.
From S2P Require Import Duration.
From S2P Require Import Clock.
From S2P Require Import Gesture.
From S2P Require Import Animation.
From S2P Require Import LayoutTypes.
From S2P Require Import Interface.

Local Open Scope Z_scope.

Module Switch.
Record WorkspaceSwitchGesture := {
  center_idx : nat;
  start_idx : f64;
  g_current_idx : f64;
  g_animation : option Animation.Animation;
  tracker : SwipeTracker.SwipeTracker;
  is_touchpad : bool;
  is_clamped : bool;
  dnd_last_event_time : option Duration;
  dnd_nonzero_start_time : option Duration
}.

Inductive WorkspaceSwitch :=
| SwitchAnimation (a : Animation.Animation)
| SwitchGesture (g : WorkspaceSwitchGesture).

Definition is_dnd (g : WorkspaceSwitchGesture) : bool :=
  match dnd_last_event_time g with Some _ => true | None => false end.

Definition min_max (workspace_count : nat) (g : WorkspaceSwitchGesture) : res (f64 * f64) :=
  last ← usub workspace_count 1;
  if is_clamped g then
    mret (of_nat (center_idx g - 1), of_nat ((center_idx g + 1) `min` last)%nat)
  else mret (f0, of_nat last).

Definition target_idx (s : WorkspaceSwitch) : f64 :=
  match s with
  | SwitchAnimation a => Animation.to a
  | SwitchGesture g => g_current_idx g
  end.

Definition offset (delta : Z) (s : WorkspaceSwitch) : res WorkspaceSwitch :=
  match s with
  | SwitchAnimation a => mret (SwitchAnimation (Animation.offset (of_Z delta) a))
  | SwitchGesture g =>
      center ← (if 0 <=? delta then Ok (center_idx g + Z.to_nat delta)%nat
                else usub (center_idx g) (Z.to_nat (- delta)));
      mret (SwitchGesture
        {| center_idx := center;
           start_idx := (start_idx g + of_Z delta)%F;
           g_current_idx := (g_current_idx g + of_Z delta)%F;
           g_animation := g_animation g; tracker := tracker g; is_touchpad := is_touchpad g;
           is_clamped := is_clamped g; dnd_last_event_time := dnd_last_event_time g;
           dnd_nonzero_start_time := dnd_nonzero_start_time g |})
  end.

Definition is_animation_ongoing (s : WorkspaceSwitch) : bool :=
  match s with
  | SwitchAnimation _ => true
  | SwitchGesture g => match g_animation g with Some _ => true | None => false end
  end.

Section libm.
Context {LM : Libm} {KF : Keyframe}.

Definition current_idx (cv : ClockView) (s : WorkspaceSwitch) : res f64 :=
  match s with
  | SwitchAnimation a => Animation.value cv a
  | SwitchGesture g =>
      v ← match g_animation g with Some a => Animation.value cv a | None => Ok f0 end;
      mret (g_current_idx g + v)%F
  end.

Definition animate_from (cv : ClockView) (from : f64) (config : Config.Animation) (g : WorkspaceSwitchGesture)
    : res WorkspaceSwitchGesture :=
  current ← match g_animation g with Some a => Animation.value cv a | None => Ok f0 end;
  a ← Animation.new cv (from + current)%F f0 f0 config;
  mret {| center_idx := center_idx g; start_idx := start_idx g; g_current_idx := g_current_idx g;
          g_animation := Some a; tracker := tracker g; is_touchpad := is_touchpad g;
          is_clamped := is_clamped g; dnd_last_event_time := dnd_last_event_time g;
          dnd_nonzero_start_time := dnd_nonzero_start_time g |}.
End libm.

Definition WORKSPACE_GESTURE_MOVEMENT : f64 := of_Z 300.
Definition WORKSPACE_GESTURE_RUBBER_BAND : RubberBand.RubberBand :=
  {| RubberBand.stiffness := lit 1 2; RubberBand.limit := lit 5 100 |}.
Definition WORKSPACE_DND_EDGE_SCROLL_MOVEMENT : f64 := of_Z 1500.
End Switch.

Inductive OverviewProgress :=
| OverviewAnimation (a : Animation.Animation)
| OverviewValue (v : f64).

(** Smithay's rounding of a logical length to physical pixels and back
    ([to_physical_precise_ceil(scale).to_logical(scale)]). *)
Class Smithay := { physical_ceil : f64 -> f64 -> f64 }.

Inductive MonitorAddWindowTarget (Win : Type) :=
| MonAuto
| MonWorkspace (id : Z) (column_idx : option nat)
| MonNextTo (w : Win).
Arguments MonAuto {Win}.
Arguments MonWorkspace {Win} id column_idx.
Arguments MonNextTo {Win} w.

(** A loop over the workspaces that may panic. *)
Fixpoint for_each {A} (f : A -> res A) (l : list A) : res (list A) :=
  match l with
  | [] => Ok []
  | x :: l => y ← f x; l ← for_each f l; mret (y :: l)
  end.

Module Monitor.
Section ops.
Context {WO : WorkspaceOps} {LM : Libm} {KF : Keyframe} {SM : Smithay}.

Record Monitor := {
  output : Output;
  scale : f64;
  view_size : f64 * f64;
  working_area : (f64 * f64) * (f64 * f64);
  workspaces : list WS;
  active_workspace_idx : nat;
  previous_workspace_id : option Z;
  workspace_switch : option Switch.WorkspaceSwitch;
  overview_open : bool;
  overview_progress : option OverviewProgress;
  base_options : Options;
  options : Options;
  layout_config : option LayoutPart;
  id_counter : Z
}.

Definition set_lists (wss : list WS) (active : nat) (m : Monitor) : Monitor :=
  {| output := output m; scale := scale m; view_size := view_size m; working_area := working_area m;
     workspaces := wss; active_workspace_idx := active;
     previous_workspace_id := previous_workspace_id m; workspace_switch := workspace_switch m;
     overview_open := overview_open m; overview_progress := overview_progress m;
     base_options := base_options m; options := options m; layout_config := layout_config m;
     id_counter := id_counter m |}.
Definition set_workspaces (wss : list WS) (m : Monitor) : Monitor := set_lists wss (active_workspace_idx m) m.
Definition set_active (i : nat) (m : Monitor) : Monitor := set_lists (workspaces m) i m.
Definition set_switch (s : option Switch.WorkspaceSwitch) (m : Monitor) : Monitor :=
  {| output := output m; scale := scale m; view_size := view_size m; working_area := working_area m;
     workspaces := workspaces m; active_workspace_idx := active_workspace_idx m;
     previous_workspace_id := previous_workspace_id m; workspace_switch := s;
     overview_open := overview_open m; overview_progress := overview_progress m;
     base_options := base_options m; options := options m; layout_config := layout_config m;
     id_counter := id_counter m |}.
Definition set_previous (p : option Z) (m : Monitor) : Monitor :=
  {| output := output m; scale := scale m; view_size := view_size m; working_area := working_area m;
     workspaces := workspaces m; active_workspace_idx := active_workspace_idx m;
     previous_workspace_id := p; workspace_switch := workspace_switch m;
     overview_open := overview_open m; overview_progress := overview_progress m;
     base_options := base_options m; options := options m; layout_config := layout_config m;
     id_counter := id_counter m |}.
Definition set_counter (c : Z) (m : Monitor) : Monitor :=
  {| output := output m; scale := scale m; view_size := view_size m; working_area := working_area m;
     workspaces := workspaces m; active_workspace_idx := active_workspace_idx m;
     previous_workspace_id := previous_workspace_id m; workspace_switch := workspace_switch m;
     overview_open := overview_open m; overview_progress := overview_progress m;
     base_options := base_options m; options := options m; layout_config := layout_config m;
     id_counter := c |}.
Definition set_options (base opts : Options) (lc : option LayoutPart) (m : Monitor) : Monitor :=
  {| output := output m; scale := scale m; view_size := view_size m; working_area := working_area m;
     workspaces := workspaces m; active_workspace_idx := active_workspace_idx m;
     previous_workspace_id := previous_workspace_id m; workspace_switch := workspace_switch m;
     overview_open := overview_open m; overview_progress := overview_progress m;
     base_options := base; options := opts; layout_config := lc; id_counter := id_counter m |}.
Definition set_overview (p : option OverviewProgress) (m : Monitor) : Monitor :=
  {| output := output m; scale := scale m; view_size := view_size m; working_area := working_area m;
     workspaces := workspaces m; active_workspace_idx := active_workspace_idx m;
     previous_workspace_id := previous_workspace_id m; workspace_switch := workspace_switch m;
     overview_open := overview_open m; overview_progress := p;
     base_options := base_options m; options := options m; layout_config := layout_config m;
     id_counter := id_counter m |}.

Definition ewaf (m : Monitor) : bool := empty_workspace_above_first (options m).
Definition len (m : Monitor) : nat := length (workspaces m).

(** [Workspace::new(output, clock, options)] with the next id *)
Definition new_workspace (m : Monitor) : WS * Monitor :=
  let '(i, c) := id_next (id_counter m) in (ws_new i (output m) (options m), set_counter c m).

(** ** Construction *)
Fixpoint prepare (cv : ClockView) (o : Output) (opts : Options) (to_activate : option Z) (idx : nat) (active : nat) (wss : list WS)
    : res (list WS * nat) :=
  match wss with
  | [] => Ok ([], active)
  | w :: wss =>
      _ ← rassert (has_windows_or_name w);
      w ← ws_set_output cv (Some o) w;
      w ← ws_update_config cv opts w;
      let active := if bool_decide (Some (ws_id w) = to_activate) then idx else active in
      '(wss, active) ← prepare cv o opts to_activate (S idx) active wss;
      mret (w :: wss, active)
  end.

Definition new (cv : ClockView) (o : Output) (sc : f64) (vs : f64 * f64) (wa : (f64 * f64) * (f64 * f64)) (wss : list WS)
    (ws_id_to_activate : option Z) (base : Options) (lc : option LayoutPart) (counter : Z) : res Monitor :=
  let opts := with_merged_layout lc base in
  '(wss, active) ← prepare cv o opts ws_id_to_activate 0 0 wss;
  let '(wss, active, counter) :=
    if empty_workspace_above_first opts && negb (bool_decide (wss = [])) then
      let '(i, counter) := id_next counter in (ws_new i o opts :: wss, S active, counter)
    else (wss, active, counter) in
  let '(i, counter) := id_next counter in
  mret {| output := o; scale := sc; view_size := vs; working_area := wa;
          workspaces := wss ++ [ws_new i o opts]; active_workspace_idx := active;
          previous_workspace_id := None; workspace_switch := None; overview_open := false;
          overview_progress := None; base_options := base; options := opts; layout_config := lc;
          id_counter := counter |}.

Definition into_workspaces (cv : ClockView) (m : Monitor) : res (list WS) :=
  for_each (ws_set_output cv None) (List.filter has_windows_or_name (workspaces m)).

(** ** Queries *)
Definition active_workspace (m : Monitor) : res WS := index (workspaces m) (active_workspace_idx m).
Definition windows (m : Monitor) : list Win := workspaces m ≫= ws_windows.
Definition find_workspace (id : Z) (m : Monitor) : option nat :=
  position (fun w => ws_id w =? id) (workspaces m).
Definition previous_workspace_idx (m : Monitor) : option nat :=
  id ← previous_workspace_id m; find_workspace id m.

(** ** Geometry *)
Definition overview_value (cv : ClockView) (m : Monitor) : res (option f64) :=
  match overview_progress m with
  | Some (OverviewAnimation a) => v ← Animation.value cv a; mret (Some v)
  | Some (OverviewValue v) => mret (Some v)
  | None => mret None
  end.
Definition overview_zoom (cv : ClockView) (m : Monitor) : res f64 :=
  p ← overview_value cv m; compute_overview_zoom (options m) p.

Definition workspace_gap (zoom : f64) (m : Monitor) : f64 :=
  round_logical_in_physical_max1 (scale m) (snd (view_size m) * lit 1 10 * zoom)%F.
Definition workspace_height_with_gap (zoom : f64) (m : Monitor) : f64 :=
  (physical_ceil (scale m) (snd (view_size m) * zoom)%F + workspace_gap zoom m)%F.

Definition animations_match (s p : Animation.Animation) : bool :=
  bool_decide (Animation.start_time s = Animation.start_time p)
  && fleb (fabs (as_secs_f64 (Animation.duration s) - as_secs_f64 (Animation.duration p))%F) (lit 1 1000).

Definition workspace_render_idx (cv : ClockView) (m : Monitor) : res f64 :=
  let plain :=
    match workspace_switch m with
    | Some s => Switch.current_idx cv s
    | None => Ok (of_nat (active_workspace_idx m))
    end in
  match workspace_switch m, overview_progress m with
  | Some (Switch.SwitchAnimation sa), Some (OverviewAnimation pa) =>
      if animations_match sa pa then
        from_zoom ← compute_overview_zoom (options m) (Some (Animation.from pa));
        let from_height := workspace_height_with_gap from_zoom m in
        zoom ← overview_zoom cv m;
        let height := workspace_height_with_gap zoom m in
        v ← Animation.value cv sa;
        let first_ws_y := (- v * from_height + Animation.to sa * (from_height - height))%F in
        mret (- first_ws_y / height)%F
      else plain
  | _, _ => plain
  end.

(** ** Adding workspaces and activation *)
Definition add_workspace_at (idx : nat) (m : Monitor) : res Monitor :=
  let '(w, m) := new_workspace m in
  wss ← vec_insert idx w (workspaces m);
  let active := active_workspace_idx m in
  let m := set_lists wss (if (idx <=? active)%nat then S active else active) m in
  match workspace_switch m with
  | Some s =>
      if fleb (of_nat idx) (Switch.target_idx s) then
        s ← Switch.offset 1 s; mret (set_switch (Some s) m)
      else mret m
  | None => mret m
  end.
Definition add_workspace_top : Monitor -> res Monitor := add_workspace_at 0.
Definition add_workspace_bottom (m : Monitor) : res Monitor := add_workspace_at (len m) m.

(** A gesture moved so that its current index points at [idx]. *)
Definition point_at (idx : nat) (g : Switch.WorkspaceSwitchGesture) : Switch.WorkspaceSwitchGesture :=
  let current_pos := (Switch.g_current_idx g - Switch.start_idx g)%F in
  {| Switch.center_idx := idx;
     Switch.start_idx := (of_nat idx - current_pos)%F;
     Switch.g_current_idx := of_nat idx;
     Switch.g_animation := Switch.g_animation g; Switch.tracker := Switch.tracker g;
     Switch.is_touchpad := Switch.is_touchpad g; Switch.is_clamped := Switch.is_clamped g;
     Switch.dnd_last_event_time := Switch.dnd_last_event_time g;
     Switch.dnd_nonzero_start_time := Switch.dnd_nonzero_start_time g |}.

Definition activate_workspace_with_anim_config (cv : ClockView) (idx : nat) (config : option Config.Animation)
    (m : Monitor) : res Monitor :=
  current_idx ← workspace_render_idx cv m;
  m' ← (if bool_decide (active_workspace_idx m = idx) then Ok m
        else w ← active_workspace m; Ok (set_previous (Some (ws_id w)) m));
  let prev_active_idx := active_workspace_idx m in
  let m := set_active idx m' in
  let config := default (workspace_switch_anim (options m)) config in
  let plain :=
    if bool_decide (prev_active_idx = idx) then Ok m
    else
      a ← Animation.new cv current_idx (of_nat idx) f0 config;
      mret (set_switch (Some (Switch.SwitchAnimation a)) m) in
  match workspace_switch m with
  | Some (Switch.SwitchGesture g) =>
      if Switch.is_dnd g then
        let prev_current_idx := Switch.g_current_idx g in
        let g := point_at idx g in
        let current_idx_delta := (Switch.g_current_idx g - prev_current_idx)%F in
        g ← Switch.animate_from cv (- current_idx_delta)%F config g;
        mret (set_switch (Some (Switch.SwitchGesture g)) m)
      else plain
  | _ => plain
  end.

Definition activate_workspace (cv : ClockView) (idx : nat) : Monitor -> res Monitor :=
  activate_workspace_with_anim_config cv idx None.

(** ** Adding windows *)
Definition resolve_add_window_target (target : MonitorAddWindowTarget Win) (m : Monitor)
    : res (nat * WorkspaceAddWindowTarget Win) :=
  match target with
  | MonAuto => mret (active_workspace_idx m, Auto)
  | MonWorkspace id column_idx =>
      idx ← unwrap (find_workspace id m);
      mret (idx, match column_idx with Some c => NewColumnAt c | None => Auto end)
  | MonNextTo w =>
      idx ← unwrap (position (has_window w) (workspaces m));
      mret (idx, NextTo w)
  end.

(** Changing workspace [idx]; after adding a window an unnamed workspace
    becomes this output's own. *)
Definition update_ws (idx : nat) (f : WS -> res WS) (m : Monitor) : res Monitor :=
  w ← index (workspaces m) idx;
  w ← f w;
  mret (set_workspaces (<[idx := w]> (workspaces m)) m).
Definition adopt (m : Monitor) (w : WS) : WS :=
  match ws_name w with None => ws_set_original_output (output m) w | Some _ => w end.

(** Keeps an empty workspace at the bottom, and on top when configured, after
    workspace [idx] got a window; returns where [idx] moved. *)
Definition ensure_empty_around (idx : nat) (m : Monitor) : res (nat * Monitor) :=
  last ← usub (len m) 1;
  m ← (if bool_decide (idx = last) then add_workspace_bottom m else Ok m);
  if ewaf m && bool_decide (idx = 0%nat) then
    m ← add_workspace_top m; mret (S idx, m)
  else mret (idx, m).

Definition add_tile (cv : ClockView) (t : Tile) (target : MonitorAddWindowTarget Win) (activate : ActivateWindow)
    (allow_to_activate_workspace : bool) (width : ColumnWidth) (is_full_width is_floating : bool)
    (m : Monitor) : res Monitor :=
  '(idx, target) ← resolve_add_window_target target m;
  m ← update_ws idx (fun w => w ← ws_add_tile cv t target activate width is_full_width is_floating w;
                              mret (adopt m w)) m;
  '(idx, m) ← ensure_empty_around idx m;
  if allow_to_activate_workspace && map_smart false activate then activate_workspace cv idx m else mret m.

Definition add_window (cv : ClockView) (x : Window) (target : MonitorAddWindowTarget Win) (activate : ActivateWindow)
    (width : ColumnWidth) (is_full_width is_floating : bool) (m : Monitor) : res Monitor :=
  w ← index (workspaces m) 0;
  add_tile cv (ws_make_tile x w) target activate true width is_full_width is_floating m.

Definition add_column (cv : ClockView) (idx : nat) (c : Column) (activate : bool) (m : Monitor) : res Monitor :=
  m ← update_ws idx (fun w => w ← ws_add_column cv c activate w; mret (adopt m w)) m;
  '(idx, m) ← ensure_empty_around idx m;
  if activate then activate_workspace cv idx m else mret m.

Definition add_tile_to_column (cv : ClockView) (idx column_idx : nat) (tile_idx : option nat) (t : Tile)
    (activate allow_to_activate_workspace : bool) (m : Monitor) : res Monitor :=
  m ← update_ws idx (fun w => w ← ws_add_tile_to_column cv column_idx tile_idx t activate w; mret (adopt m w)) m;
  if allow_to_activate_workspace && activate then activate_workspace cv idx m else mret m.

(** ** Cleaning up *)
Definition clean_step (m : Monitor) (idx : nat) : res Monitor :=
  if bool_decide (active_workspace_idx m = idx) then Ok m
  else
    w ← index (workspaces m) idx;
    if has_windows_or_name w then Ok m
    else
      '(_, wss) ← vec_remove idx (workspaces m);
      let active := active_workspace_idx m in
      mret (set_lists wss (if (idx <? active)%nat then active - 1 else active)%nat m).

Definition clean_up_workspaces (m : Monitor) : res Monitor :=
  _ ← rassert (match workspace_switch m with None => true | Some _ => false end);
  let range_start := if ewaf m then 1%nat else 0%nat in
  last ← usub (len m) 1;
  m ← foldl (fun m idx => m ← m; clean_step m idx) (Ok m) (reverse (seq range_start (last - range_start)));
  if ewaf m && bool_decide (len m = 2%nat) then
    w0 ← index (workspaces m) 0;
    _ ← rassert (negb (has_windows_or_name w0));
    w1 ← index (workspaces m) 1;
    _ ← rassert (negb (has_windows_or_name w1));
    '(_, wss) ← vec_remove 1 (workspaces m);
    mret (set_lists wss 0 m)
  else mret m.

Definition clean_up_if_idle (m : Monitor) : res Monitor :=
  match workspace_switch m with None => clean_up_workspaces m | Some _ => mret m end.

Definition unname_workspace (id : Z) (m : Monitor) : res (bool * Monitor) :=
  match find_workspace id m with
  | None => mret (false, m)
  | Some idx =>
      m ← update_ws idx (fun w => mret (ws_unname w)) m;
      m ← clean_up_if_idle m;
      mret (true, m)
  end.

(** ** Removing and inserting workspaces *)
Definition remove_workspace_by_idx (cv : ClockView) (idx : nat) (m : Monitor) : res (WS * Monitor) :=
  '(idx, m) ← ensure_empty_around idx m;
  '(w, wss) ← vec_remove idx (workspaces m);
  w ← ws_set_output cv None w;
  let active := active_workspace_idx m in
  let m := set_lists wss (if (idx <=? active)%nat && (0 <? active)%nat then active - 1 else active)%nat m in
  m ← clean_up_workspaces (set_switch None m);
  mret (w, m).

Definition insert_workspace (cv : ClockView) (w : WS) (idx : nat) (activate : bool) (m : Monitor) : res Monitor :=
  w ← ws_set_output cv (Some (output m)) w;
  w ← ws_update_config cv (options m) w;
  idx ← (if bool_decide (idx = len m) then usub idx 1 else Ok idx);
  '(idx, m) ← (if bool_decide (idx = 0%nat) && ewaf m then m ← add_workspace_top m; mret (S idx, m)
               else mret (idx, m));
  wss ← vec_insert idx w (workspaces m);
  let active := active_workspace_idx m in
  let m := set_lists wss (if (idx <=? active)%nat then S active else active) m in
  m ← (if activate then activate_workspace cv idx (set_switch None m) else Ok m);
  clean_up_workspaces (set_switch None m).

Definition append_workspaces (cv : ClockView) (wss : list WS) (m : Monitor) : res Monitor :=
  match wss with
  | [] => mret m
  | _ =>
      wss ← for_each (fun w => w ← ws_set_output cv (Some (output m)) w; ws_update_config cv (options m) w) wss;
      last ← usub (len m) 1;
      let empty_was_focused := bool_decide (active_workspace_idx m = last) in
      '(empty, rest) ← vec_remove last (workspaces m);
      let m := set_workspaces (rest ++ wss ++ [empty]) m in
      w0 ← index (workspaces m) 0;
      m ← (if ewaf m && has_windows_or_name w0 then add_workspace_top m else Ok m);
      last ← usub (len m) 1;
      let m := if empty_was_focused then set_active last m else m in
      clean_up_workspaces (set_switch None m)
  end.

(** ** Switching workspaces *)
Definition switch_workspace_up (cv : ClockView) (m : Monitor) : res Monitor :=
  new_idx ← match workspace_switch m with
            | Some (Switch.SwitchGesture g) =>
                if Switch.is_dnd g then
                  let new := (fceil (Switch.g_current_idx g) - f1)%F in
                  last ← usub (len m) 1;
                  new ← fclamp new f0 (of_nat last);
                  mret (as_usize new)
                else mret (active_workspace_idx m - 1)%nat
            | _ => mret (active_workspace_idx m - 1)%nat
            end;
  activate_workspace cv new_idx m.

Definition switch_workspace_down (cv : ClockView) (m : Monitor) : res Monitor :=
  last ← usub (len m) 1;
  new_idx ← match workspace_switch m with
            | Some (Switch.SwitchGesture g) =>
                if Switch.is_dnd g then
                  let new := (ffloor (Switch.g_current_idx g) + f1)%F in
                  new ← fclamp new f0 (of_nat last);
                  mret (as_usize new)
                else mret ((active_workspace_idx m + 1) `min` last)%nat
            | _ => mret ((active_workspace_idx m + 1) `min` last)%nat
            end;
  activate_workspace cv new_idx m.

Definition switch_workspace (cv : ClockView) (idx : nat) (m : Monitor) : res Monitor :=
  last ← usub (len m) 1;
  activate_workspace cv (idx `min` last)%nat m.

Definition switch_workspace_auto_back_and_forth (cv : ClockView) (idx : nat) (m : Monitor) : res Monitor :=
  last ← usub (len m) 1;
  let idx := (idx `min` last)%nat in
  if bool_decide (idx = active_workspace_idx m) then
    match previous_workspace_idx m with
    | Some prev_idx => switch_workspace cv prev_idx m
    | None => mret m
    end
  else switch_workspace cv idx m.

Definition switch_workspace_previous (cv : ClockView) (m : Monitor) : res Monitor :=
  match previous_workspace_idx m with
  | Some idx => switch_workspace cv idx m
  | None => mret m
  end.

(** ** Moving windows and columns between workspaces *)
Definition activate_for (focus : bool) : ActivateWindow := if focus then Yes else Smart.

(** The part shared by [move_to_workspace_up] and [move_to_workspace_down]:
    takes the active tile of the active workspace to workspace [new_idx]. *)
Definition move_active_tile_to (cv : ClockView) (new_idx : nat) (focus : bool) (m : Monitor) : res Monitor :=
  let source := active_workspace_idx m in
  if bool_decide (new_idx = source) then mret m
  else
    target ← index (workspaces m) new_idx;
    let new_id := ws_id target in
    w ← index (workspaces m) source;
    removed ← ws_remove_active_tile cv w;
    match removed with
    | None => mret m
    | Some (r, w) =>
        add_tile cv (rt_tile r) (MonWorkspace new_id None) (activate_for focus) true
          (rt_width r) (rt_is_full_width r) (rt_is_floating r)
          (set_workspaces (<[source := w]> (workspaces m)) m)
    end.

Definition move_to_workspace_up (cv : ClockView) (focus : bool) (m : Monitor) : res Monitor :=
  move_active_tile_to cv (active_workspace_idx m - 1)%nat focus m.

Definition move_to_workspace_down (cv : ClockView) (focus : bool) (m : Monitor) : res Monitor :=
  last ← usub (len m) 1;
  move_active_tile_to cv ((active_workspace_idx m + 1) `min` last)%nat focus m.

Definition move_to_workspace (cv : ClockView) (window : option Win) (idx : nat) (activate : ActivateWindow)
    (m : Monitor) : res Monitor :=
  source ← match window with
           | Some x => unwrap (position (has_window x) (workspaces m))
           | None => mret (active_workspace_idx m)
           end;
  last ← usub (len m) 1;
  let new_idx := (idx `min` last)%nat in
  if bool_decide (new_idx = source) then mret m
  else
    target ← index (workspaces m) new_idx;
    let new_id := ws_id target in
    activate ← match activate, window with
               | Yes, _ => mret true
               | No, _ => mret false
               | Smart, None => mret true
               | Smart, Some x => active ← active_workspace m; o ← ws_active_window active; mret (bool_decide (o = Some x))
               end;
    w ← index (workspaces m) source;
    removed ← match window with
              | Some x => rw ← ws_remove_tile cv x w; mret (Some rw)
              | None => ws_remove_active_tile cv w
              end;
    match removed with
    | None => mret m
    | Some (r, w) =>
        m ← add_tile cv (rt_tile r) (MonWorkspace new_id None) (if activate : bool then Yes else No) true
              (rt_width r) (rt_is_full_width r) (rt_is_floating r)
              (set_workspaces (<[source := w]> (workspaces m)) m);
        clean_up_if_idle m
    end.

(** Takes the active column of the active workspace to workspace [new_idx];
    [floating] is what is done instead when the floating layout is active. *)
Definition move_active_column_to (cv : ClockView) (new_idx : nat) (activate : bool)
    (floating : Monitor -> res Monitor) (m : Monitor) : res Monitor :=
  let source := active_workspace_idx m in
  if bool_decide (new_idx = source) then mret m
  else
    w ← index (workspaces m) source;
    if ws_floating_is_active w then floating m
    else
      removed ← ws_remove_active_column cv w;
      match removed with
      | None => mret m
      | Some (c, w) =>
          add_column cv new_idx c activate (set_workspaces (<[source := w]> (workspaces m)) m)
      end.

Definition move_column_to_workspace_up (cv : ClockView) (activate : bool) (m : Monitor) : res Monitor :=
  move_active_column_to cv (active_workspace_idx m - 1)%nat activate (move_to_workspace_up cv activate) m.

Definition move_column_to_workspace_down (cv : ClockView) (activate : bool) (m : Monitor) : res Monitor :=
  last ← usub (len m) 1;
  move_active_column_to cv ((active_workspace_idx m + 1) `min` last)%nat activate
    (move_to_workspace_down cv activate) m.

Definition move_column_to_workspace (cv : ClockView) (idx : nat) (activate : bool) (m : Monitor) : res Monitor :=
  last ← usub (len m) 1;
  move_active_column_to cv (idx `min` last)%nat activate
    (move_to_workspace cv None idx (if activate then Smart else No)) m.

(** ** Moving and focusing across windows and workspaces *)
Definition on_active (f : WS -> res (bool * WS)) (otherwise : Monitor -> res Monitor) (m : Monitor) : res Monitor :=
  w ← active_workspace m;
  '(b, w) ← f w;
  let m := set_workspaces (<[active_workspace_idx m := w]> (workspaces m)) m in
  if b : bool then mret m else otherwise m.

Definition move_down_or_to_workspace_down (cv : ClockView) : Monitor -> res Monitor :=
  on_active (ws_move_down cv) (move_to_workspace_down cv true).
Definition move_up_or_to_workspace_up (cv : ClockView) : Monitor -> res Monitor :=
  on_active (ws_move_up cv) (move_to_workspace_up cv true).
Definition focus_window_or_workspace_down (cv : ClockView) : Monitor -> res Monitor :=
  on_active (ws_focus_down cv) (switch_workspace_down cv).
Definition focus_window_or_workspace_up (cv : ClockView) : Monitor -> res Monitor :=
  on_active (ws_focus_up cv) (switch_workspace_up cv).

(** ** Moving workspaces *)

(** What follows the swap in [move_workspace_down] and [move_workspace_up]:
    [bottom] and [top] tell which ends need a fresh empty workspace. *)
Definition refocus_moved (cv : ClockView) (bottom top : bool) (new_idx : nat) (m : Monitor) : res Monitor :=
  m ← (if bottom then add_workspace_bottom m else Ok m);
  '(new_idx, m) ← (if ewaf m && top then m ← add_workspace_top m; mret (S new_idx, m) else mret (new_idx, m));
  let previous := previous_workspace_id m in
  m ← activate_workspace cv new_idx m;
  clean_up_workspaces (set_previous previous (set_switch None m)).

Definition move_workspace_down (cv : ClockView) (m : Monitor) : res Monitor :=
  last ← usub (len m) 1;
  let active := active_workspace_idx m in
  let new_idx := ((active + 1) `min` last)%nat in
  if bool_decide (new_idx = active) then mret m
  else
    wss ← vec_swap active new_idx (workspaces m);
    refocus_moved cv (bool_decide (new_idx = last)) (bool_decide (active = 0%nat)) new_idx (set_workspaces wss m).

Definition move_workspace_up (cv : ClockView) (m : Monitor) : res Monitor :=
  let active := active_workspace_idx m in
  let new_idx := (active - 1)%nat in
  if bool_decide (new_idx = active) then mret m
  else
    wss ← vec_swap active new_idx (workspaces m);
    last ← usub (len m) 1;
    refocus_moved cv (bool_decide (active = last)) (bool_decide (new_idx = 0%nat)) new_idx (set_workspaces wss m).

Definition move_workspace_to_idx (old_idx new_idx : nat) (m : Monitor) : res Monitor :=
  if (len m <=? old_idx)%nat then mret m
  else
    last ← usub (len m) 1;
    let new_idx := (new_idx `min` last)%nat in
    if bool_decide (old_idx = new_idx) then mret m
    else
      '(w, wss) ← vec_remove old_idx (workspaces m);
      wss ← vec_insert new_idx w wss;
      let m := set_workspaces wss m in
      '(new_idx, m) ←
        (if (old_idx <? new_idx)%nat then
           m ← (if bool_decide (new_idx = last) then add_workspace_bottom m else Ok m);
           if ewaf m && bool_decide (old_idx = 0%nat) then m ← add_workspace_top m; mret (S new_idx, m)
           else mret (new_idx, m)
         else
           m ← (if bool_decide (old_idx = last) then add_workspace_bottom m else Ok m);
           if ewaf m && bool_decide (new_idx = 0%nat) then m ← add_workspace_top m; mret (S new_idx, m)
           else mret (new_idx, m));
      let active := active_workspace_idx m in
      let active :=
        if bool_decide (active = old_idx) then new_idx
        else if (new_idx <=? active)%nat && (active <? old_idx)%nat then S active
        else if (active <=? new_idx)%nat && (old_idx <? active)%nat then (active - 1)%nat
        else active in
      clean_up_workspaces (set_switch None (set_active active m)).

(** ** Animations, configuration, overview *)
Definition advance_gesture (cv : ClockView) (now_unadjusted : Duration) (g : Switch.WorkspaceSwitchGesture)
    : res Switch.WorkspaceSwitchGesture :=
  let '(last_time, nonzero) :=
    match Switch.dnd_last_event_time g with
    | Some t => if bool_decide (t = now_unadjusted) then (Some t, Switch.dnd_nonzero_start_time g)
                else (Some now_unadjusted, None)
    | None => (None, Switch.dnd_nonzero_start_time g)
    end in
  anim ← match Switch.g_animation g with
         | Some a => done_ ← Animation.is_done cv a; mret (if done_ : bool then None else Some a)
         | None => mret None
         end;
  mret {| Switch.center_idx := Switch.center_idx g; Switch.start_idx := Switch.start_idx g;
          Switch.g_current_idx := Switch.g_current_idx g; Switch.g_animation := anim;
          Switch.tracker := Switch.tracker g; Switch.is_touchpad := Switch.is_touchpad g;
          Switch.is_clamped := Switch.is_clamped g; Switch.dnd_last_event_time := last_time;
          Switch.dnd_nonzero_start_time := nonzero |}.

Definition advance_animations (cv : ClockView) (now_unadjusted : Duration) (m : Monitor) : res Monitor :=
  m ← match workspace_switch m with
      | Some (Switch.SwitchAnimation a) =>
          done_ ← Animation.is_done cv a;
          if done_ : bool then clean_up_workspaces (set_switch None m) else mret m
      | Some (Switch.SwitchGesture g) =>
          g ← advance_gesture cv now_unadjusted g;
          mret (set_switch (Some (Switch.SwitchGesture g)) m)
      | None => mret m
      end;
  wss ← for_each (ws_advance_animations cv) (workspaces m);
  mret (set_workspaces wss m).

Definition update_config (cv : ClockView) (base : Options) (m : Monitor) : res Monitor :=
  let opts := with_merged_layout (layout_config m) base in
  m ← (if negb (Bool.eqb (ewaf m) (empty_workspace_above_first opts)) && (1 <? len m)%nat then
         if empty_workspace_above_first opts then add_workspace_top m
         else match workspace_switch m with
              | None =>
                  if bool_decide (active_workspace_idx m = 0%nat) then mret m
                  else
                    '(_, wss) ← vec_remove 0 (workspaces m);
                    mret (set_lists wss (active_workspace_idx m - 1)%nat m)
              | Some _ => mret m
              end
       else mret m);
  wss ← for_each (ws_update_config cv opts) (workspaces m);
  mret (set_options base opts (layout_config m) (set_workspaces wss m)).

Definition update_layout_config (cv : ClockView) (lc : option LayoutPart) (m : Monitor) : res (bool * Monitor) :=
  if layout_part_eqb (layout_config m) lc then mret (false, m)
  else
    m ← update_config cv (base_options m) (set_options (base_options m) (options m) lc m);
    mret (true, m).

Definition set_overview_progress (cv : ClockView) (p : option OverviewProgress) (m : Monitor) : res Monitor :=
  prev_render_idx ← workspace_render_idx cv m;
  let m := set_overview p m in
  new_render_idx ← workspace_render_idx cv m;
  if fneb prev_render_idx new_render_idx then
    match workspace_switch m with
    | Some (Switch.SwitchAnimation a) =>
        a ← Animation.restarted cv prev_render_idx (Animation.to a) f0 a;
        mret (set_switch (Some (Switch.SwitchAnimation a)) m)
    | _ => mret m
    end
  else mret m.

(** ** Gestures *)
Definition new_gesture (center : nat) (current : f64) (touchpad clamped : bool) (dnd : option Duration)
    : Switch.WorkspaceSwitchGesture :=
  {| Switch.center_idx := center; Switch.start_idx := current; Switch.g_current_idx := current;
     Switch.g_animation := None; Switch.tracker := SwipeTracker.new; Switch.is_touchpad := touchpad;
     Switch.is_clamped := clamped; Switch.dnd_last_event_time := dnd; Switch.dnd_nonzero_start_time := None |}.

Definition workspace_switch_gesture_begin (cv : ClockView) (touchpad : bool) (m : Monitor) : res Monitor :=
  current_idx ← workspace_render_idx cv m;
  let g := new_gesture (active_workspace_idx m) current_idx touchpad (negb (overview_open m)) None in
  mret (set_switch (Some (Switch.SwitchGesture g)) m).

Definition dnd_scroll_gesture_begin (cv : ClockView) (now_unadjusted : Duration) (m : Monitor) : res Monitor :=
  let already := match workspace_switch m with
                 | Some (Switch.SwitchGesture g) => Switch.is_dnd g
                 | _ => false
                 end in
  if already then mret m
  else if negb (overview_open m) then mret m
  else
    current_idx ← workspace_render_idx cv m;
    let g := new_gesture (active_workspace_idx m) current_idx false false (Some now_unadjusted) in
    mret (set_switch (Some (Switch.SwitchGesture g)) m).

(** A gesture with the fields an event changes. *)
Definition moved (start current : f64) (t : SwipeTracker.SwipeTracker) (dnd nonzero : option Duration)
    (g : Switch.WorkspaceSwitchGesture) : Switch.WorkspaceSwitchGesture :=
  {| Switch.center_idx := Switch.center_idx g; Switch.start_idx := start; Switch.g_current_idx := current;
     Switch.g_animation := Switch.g_animation g; Switch.tracker := t; Switch.is_touchpad := Switch.is_touchpad g;
     Switch.is_clamped := Switch.is_clamped g; Switch.dnd_last_event_time := dnd;
     Switch.dnd_nonzero_start_time := nonzero |}.

Definition zoomed_rubber_band (zoom : f64) : RubberBand.RubberBand :=
  {| RubberBand.stiffness := RubberBand.stiffness Switch.WORKSPACE_GESTURE_RUBBER_BAND;
     RubberBand.limit := (RubberBand.limit Switch.WORKSPACE_GESTURE_RUBBER_BAND / zoom)%F |}.

Definition workspace_switch_gesture_update (cv : ClockView) (delta_y : f64) (timestamp : Duration) (touchpad : bool)
    (m : Monitor) : res (option bool * Monitor) :=
  match workspace_switch m with
  | Some (Switch.SwitchGesture g) =>
      if negb (Bool.eqb (Switch.is_touchpad g) touchpad) || Switch.is_dnd g then mret (None, m)
      else
        zoom ← overview_zoom cv m;
        let total_height := if Switch.is_touchpad g then Switch.WORKSPACE_GESTURE_MOVEMENT
                            else workspace_height_with_gap f1 m in
        let delta_scale := if Switch.is_touchpad g then ((zoom - f1) / lit 25 10 + f1)%F else zoom in
        let delta_y := (delta_y / delta_scale)%F in
        t ← SwipeTracker.push delta_y timestamp (Switch.tracker g);
        let pos := (SwipeTracker.pos t / total_height)%F in
        '(lo, hi) ← Switch.min_max (len m) g;
        new_idx ← RubberBand.clamp (zoomed_rubber_band zoom) lo hi (Switch.start_idx g + pos)%F;
        let same := feqb (Switch.g_current_idx g) new_idx in
        let g := moved (Switch.start_idx g) (if same then Switch.g_current_idx g else new_idx) t
                   (Switch.dnd_last_event_time g) (Switch.dnd_nonzero_start_time g) g in
        mret (Some (negb same), set_switch (Some (Switch.SwitchGesture g)) m)
  | _ => mret (None, m)
  end.

(** How far the pointer is into a scrolling edge, in [-1, 1] times [speed]. *)
Definition dnd_delta (zoom : f64) (pos : f64 * f64) (speed : f64) (m : Monitor) : res f64 :=
  let width := (fst (view_size m) * zoom)%F in
  let x := (fst pos - (fst (view_size m) - width) / of_Z 2)%F in
  let y := (snd pos - snd (fst (working_area m)))%F in
  let height := snd (snd (working_area m)) in
  y ← fclamp y f0 height;
  trigger ← fclamp (dnd_trigger_height (options m)) f0 (height / of_Z 2)%F;
  let delta :=
    if fltb x f0 || fleb width x then f0
    else if fltb y trigger then (- (trigger - y))%F
    else if fltb (height - y)%F trigger then (trigger - (height - y))%F
    else f0 in
  let delta := if fltb trigger (lit 1 100) then f0 else (delta / trigger)%F in
  mret (delta * speed)%F.

Definition dnd_scroll_gesture_scroll (cv : ClockView) (now : Duration) (pos : f64 * f64) (speed : f64)
    (m : Monitor) : res (bool * Monitor) :=
  zoom ← overview_zoom cv m;
  match workspace_switch m with
  | Some (Switch.SwitchGesture g) =>
      match Switch.dnd_last_event_time g with
      | None => mret (false, m)
      | Some last_time =>
          delta ← dnd_delta zoom pos speed m;
          let update start current t nonzero :=
            set_switch (Some (Switch.SwitchGesture (moved start current t (Some now) nonzero g))) m in
          if feqb delta f0 then
            mret (false, update (Switch.start_idx g) (Switch.g_current_idx g) (Switch.tracker g) None)
          else
            let nonzero_start := default now (Switch.dnd_nonzero_start_time g) in
            if saturating_sub now nonzero_start <? from_millis (dnd_delay_ms (options m)) then
              mret (true, update (Switch.start_idx g) (Switch.g_current_idx g) (Switch.tracker g) (Some nonzero_start))
            else
              let time_delta := as_secs_f64 (saturating_sub now last_time) in
              let delta := (delta * time_delta * dnd_max_speed (options m))%F in
              t ← SwipeTracker.push delta now (Switch.tracker g);
              let pos := (SwipeTracker.pos t / Switch.WORKSPACE_DND_EDGE_SCROLL_MOVEMENT)%F in
              let unclamped := (Switch.start_idx g + pos)%F in
              '(lo, hi) ← Switch.min_max (len m) g;
              clamped ← fclamp unclamped lo hi;
              mret (true, update (Switch.start_idx g + (clamped - unclamped))%F clamped t (Some nonzero_start))
      end
  | _ => mret (false, m)
  end.

Definition workspace_switch_gesture_end (cv : ClockView) (now_unadjusted : Duration) (touchpad : option bool)
    (m : Monitor) : res (bool * Monitor) :=
  match workspace_switch m with
  | Some (Switch.SwitchGesture g) =>
      if match touchpad with Some x => negb (Bool.eqb (Switch.is_touchpad g) x) | None => false end then mret (false, m)
      else
        zoom ← overview_zoom cv m;
        let total_height := if Switch.is_dnd g then Switch.WORKSPACE_DND_EDGE_SCROLL_MOVEMENT
                            else if Switch.is_touchpad g then Switch.WORKSPACE_GESTURE_MOVEMENT
                            else workspace_height_with_gap f1 m in
        t ← SwipeTracker.push f0 now_unadjusted (Switch.tracker g);
        let rubber_band := zoomed_rubber_band zoom in
        v ← SwipeTracker.velocity t;
        let velocity := (v / total_height)%F in
        let current_pos := (SwipeTracker.pos t / total_height)%F in
        p ← SwipeTracker.projected_end_pos t;
        let pos := (p / total_height)%F in
        '(lo, hi) ← Switch.min_max (len m) g;
        new_idx ← fclamp (Switch.start_idx g + pos)%F lo hi;
        let new_idx := as_usize (fround new_idx) in
        d ← RubberBand.clamp_derivative rubber_band lo hi (Switch.start_idx g + current_pos)%F;
        let velocity := (velocity * d)%F in
        m ← (if bool_decide (active_workspace_idx m = new_idx) then mret m
             else w ← active_workspace m; mret (set_previous (Some (ws_id w)) m));
        a ← Animation.new cv (Switch.g_current_idx g) (of_nat new_idx) velocity (workspace_switch_anim (options m));
        mret (true, set_switch (Some (Switch.SwitchAnimation a)) (set_active new_idx m))
  | _ => mret (false, m)
  end.

Definition dnd_scroll_gesture_end (cv : ClockView) (now_unadjusted : Duration) (m : Monitor) : res Monitor :=
  match workspace_switch m with
  | Some (Switch.SwitchGesture g) =>
      if Switch.is_dnd g then '(_, m) ← workspace_switch_gesture_end cv now_unadjusted None m; mret m
      else mret m
  | _ => mret m
  end.
End ops.
End Monitor.
