(* ===== verification/MonitorIds.v ===== *)
(** * What the operations of monitors leave alone

    Whatever the state it runs in, an operation of a monitor that returns keeps
    the output, the base options, the overrides and the overview flag, and the
    ids of its workspaces are the old ones and ones handed out by the counter. *)

From stdpp Require Import base numbers option list strings.
From Stdlib Require Import ZArith Lia.
From S2P Require Import Prelude.
From S2P Require Import F64.
From S2P Require Import Duration.
From S2P Require Import Clock.
From S2P Require Import Gesture.
From S2P Require Import Animation.
From S2P Require Import OutputName.
From S2P Require Import LayoutTypes.
From S2P Require Import Interface.
From S2P Require Import Monitor.

Local Open Scope Z_scope.
Import Monitor.

Section ids.
Context {WO : WorkspaceOps} {LM : Libm} {KF : Keyframe} {WL : WorkspaceLaws} {SM : Smithay}.
Implicit Types (m : Monitor) (w : WS) (wss : list WS) (i idx : nat) (cv : ClockView).

Abbreviation ids wss := (ws_id <$> wss).

(** [m'] is made from [m], workspaces with the ids [N] and at most [k] new
    workspaces. *)
Record evolves (N : list Z) (k : nat) m m' : Prop := {
  ev_output : output m' = output m;
  ev_base : base_options m' = base_options m;
  ev_lc : layout_config m' = layout_config m;
  ev_open : overview_open m' = overview_open m;
  ev_counter : 0 <= id_counter m -> id_counter m + Z.of_nat k < 2 ^ 64 ->
    id_counter m <= id_counter m' <= id_counter m + Z.of_nat k;
  ev_ids : 0 <= id_counter m -> id_counter m + Z.of_nat k < 2 ^ 64 ->
    forall x, x ∈ ids (workspaces m') -> x ∈ N \/ x ∈ ids (workspaces m) \/ id_counter m <= x
}.

Lemma evolves_trans N M j k a b c : evolves N j a b -> evolves M k b c -> evolves (M ++ N) (j + k) a c.
Proof.
  intros [H1 H2 H3 H4 H5 H6] [G1 G2 G3 G4 G5 G6]. constructor; try congruence.
  - intros Ha Hk. destruct (H5 Ha); [lia|]. destruct G5; lia.
  - intros Ha Hk x Hx. destruct (H5 Ha); [lia|]. rewrite elem_of_app.
    destruct (G6 ltac:(lia) ltac:(lia) x Hx) as [?|[Hb|?]]; [by left; left| |right; right; lia].
    destruct (H6 Ha ltac:(lia) x Hb) as [?|[?|?]]; auto.
Qed.

(** Sequencing: at most [k] in all. *)
Lemma evolves_seq N i j k a b c : evolves N i a b -> evolves [] j b c -> (i + j <= k)%nat -> evolves N k a c.
Proof.
  intros H G Hk. pose proof (evolves_trans _ _ _ _ _ _ _ H G) as [H1 H2 H3 H4 H5 H6].
  constructor; try done; intros; [destruct H5; lia|]. apply H6; [done|lia|done].
Qed.

Lemma evolves_refl N k m : evolves N k m m.
Proof. constructor; try done; [lia|auto]. Qed.

(** Changes that keep the ids. *)
Lemma evolves_sub k m m' :
  output m' = output m -> base_options m' = base_options m -> layout_config m' = layout_config m ->
  overview_open m' = overview_open m -> id_counter m' = id_counter m ->
  (forall x, x ∈ ids (workspaces m') -> x ∈ ids (workspaces m)) -> evolves [] k m m'.
Proof. intros H1 H2 H3 H4 H5 H6. constructor; try done; [lia|auto]. Qed.

Lemma delete_ids (k : nat) wss x : x ∈ ids (delete k wss) -> x ∈ ids wss.
Proof.
  rewrite !list_elem_of_fmap. intros (w & -> & Hw). exists w. split; [done|].
  by eapply list_elem_of_delete_inv.
Qed.

Lemma replace_ids wss idx w w' :
  wss !! idx = Some w -> ws_id w' = ws_id w -> ids (<[idx := w']> wss) = ids wss.
Proof.
  intros Hi Hid. rewrite list_fmap_insert, list_insert_id; [done|]. rewrite list_lookup_fmap, Hi. cbn. by rewrite Hid.
Qed.

(** ** Primitive steps *)
Lemma add_workspace_at_ev idx m m' : add_workspace_at idx m = Ok m' -> evolves [] 1 m m'.
Proof.
  unfold add_workspace_at, new_workspace, id_next. cbn. intros H. bind H as [wss|] eqn E.
  assert (Hm : exists a s, m' = set_switch s (set_lists wss a (set_counter ((id_counter m + 1) mod 2 ^ 64) m))).
  { destruct (workspace_switch m) as [s|] eqn:Es; cbn in H.
    - destruct (fleb _ _).
      + res_step. injection H as <-. by eexists _, _.
      + injection H as <-. eexists _, (Some s). unfold set_switch, set_lists, set_counter. cbn. by rewrite Es.
    - injection H as <-. eexists _, None. unfold set_switch, set_lists, set_counter. cbn. by rewrite Es. }
  destruct Hm as (a & s & ->). unfold vec_insert in E. destruct (decide _); [|done]. injection E as <-.
  constructor; cbn; try done; intros Hc Hk; [rewrite Z.mod_small by lia; lia|].
  intros x. rewrite list_elem_of_fmap. intros (w & -> & Hw). apply elem_of_insert_at in Hw as [->|Hw].
  - right; right. destruct (ws_new_spec (id_counter m) (output m) (options m)) as (-> & _). lia.
  - right; left. by apply list_elem_of_fmap_2.
Qed.

Lemma update_ws_ev idx f m m' :
  (forall w w', f w = Ok w' -> ws_id w' = ws_id w) -> update_ws idx f m = Ok m' -> evolves [] 0 m m'.
Proof.
  unfold update_ws, index. intros Hf H. destruct (workspaces m !! idx) as [w|] eqn:Ew; [|done]. cbn in H. res_inv.
  apply evolves_sub; try done. cbn. intros x. by rewrite (replace_ids _ _ w) by eauto.
Qed.

Lemma set_ws_ev idx w w' m :
  workspaces m !! idx = Some w -> ws_op w w' -> evolves [] 0 m (set_workspaces (<[idx := w']> (workspaces m)) m).
Proof.
  intros Hi Ho. apply evolves_sub; try done. cbn. intros x.
  by rewrite (replace_ids _ _ w) by (done || by apply ws_id_stable).
Qed.

Lemma activate_ev cv idx c m m' : activate_workspace_with_anim_config cv idx c m = Ok m' -> evolves [] 0 m m'.
Proof.
  unfold activate_workspace_with_anim_config. intros H. bind H as [x|] eqn E1. bind H as [m0|] eqn E2.
  assert (Hm : evolves [] 0 m (set_active idx m0) /\ workspaces m0 = workspaces m).
  { case_bool_decide; res_inv; (split; [by apply evolves_sub|done]). }
  destruct Hm as [Hm Hws]. eapply (evolves_seq [] 0 0); [exact Hm| |lia].
  match type of H with match ?s with _ => _ end = _ => destruct s as [[|g]|] end;
    try destruct (Switch.is_dnd g); try case_bool_decide; res_inv; by apply evolves_sub.
Qed.

Lemma clean_step_ev idx m m' : clean_step m idx = Ok m' -> evolves [] 0 m m'.
Proof.
  unfold clean_step, vec_remove. intros H. case_bool_decide; [injection H as <-; apply evolves_refl|]. bind H as [w|] eqn E.
  destruct (has_windows_or_name w); [injection H as <-; apply evolves_refl|].
  destruct (workspaces m !! idx); [|done]. cbn in H. injection H as <-.
  apply evolves_sub; try done. cbn. apply delete_ids.
Qed.

Lemma clean_loop_ev l m m' :
  foldl (fun (r : res Monitor) idx => m ← r; clean_step m idx) (Ok m) l = Ok m' -> evolves [] 0 m m'.
Proof.
  revert m. induction l as [|idx l IH]; cbn; intros m H; [injection H as <-; apply evolves_refl|].
  cbn [mbind res_bind] in H. destruct (clean_step m idx) as [m1|] eqn:E.
  - eapply (evolves_seq [] 0 0); [by eapply clean_step_ev|by apply IH|lia].
  - exfalso. clear -H. induction l as [|i l IH]; cbn in H; [done|]. by apply IH.
Qed.

Lemma clean_up_ev m m' : clean_up_workspaces m = Ok m' -> evolves [] 0 m m'.
Proof.
  unfold clean_up_workspaces. intros H. bind H as [[]|] eqn E1. bind H as [n|] eqn E2. bind H as [m1|] eqn E3.
  apply clean_loop_ev in E3. eapply (evolves_seq [] 0 0); [exact E3| |lia].
  destruct (ewaf m1 && _); [|injection H as <-; apply evolves_refl].
  bind H as [w0|] eqn E4. bind H as [[]|] eqn E5. bind H as [w1|] eqn E6. bind H as [[]|] eqn E7.
  unfold vec_remove in H. destruct (workspaces m1 !! 1%nat); [|done]. cbn in H. injection H as <-.
  apply evolves_sub; try done. cbn. apply delete_ids.
Qed.

Lemma clean_up_if_idle_ev m m' : clean_up_if_idle m = Ok m' -> evolves [] 0 m m'.
Proof.
  unfold clean_up_if_idle. destruct (workspace_switch m); [intros [= <-]; apply evolves_refl|apply clean_up_ev].
Qed.

(** Two optional additions, as before and after most operations. *)
Lemma maybe_add_ev (b : bool) idx m m' :
  (if b then add_workspace_at idx m else Ok m) = Ok m' -> evolves [] 1 m m'.
Proof. destruct b; [apply add_workspace_at_ev|intros [= <-]; apply evolves_refl]. Qed.

Lemma maybe_top_ev (b : bool) idx m j m' :
  (if b then m ← add_workspace_top m; mret (S idx, m) else mret (idx, m)) = Ok (j, m') -> evolves [] 1 m m'.
Proof.
  destruct b; [|intros [= _ <-]; apply evolves_refl]. intros H. bind H as [m1|] eqn E.
  injection H as _ <-. by eapply add_workspace_at_ev.
Qed.

Lemma ensure_ev idx m j m' : ensure_empty_around idx m = Ok (j, m') -> evolves [] 2 m m'.
Proof.
  unfold ensure_empty_around. intros H. bind H as [n|] eqn E1. bind H as [m1|] eqn E2.
  eapply (evolves_seq [] 1 1); [by eapply maybe_add_ev|by eapply maybe_top_ev|lia].
Qed.

Lemma adopt_id m w w' : ws_op w w' -> ws_id (adopt m w') = ws_id w.
Proof.
  intros Ho. unfold adopt. destruct (ws_name w'); [by apply ws_id_stable|].
  rewrite (ws_id_stable w'); [by apply ws_id_stable|constructor].
Qed.

Lemma maybe_activate_ev cv (b : bool) idx m m' :
  (if b then activate_workspace cv idx m else mret m) = Ok m' -> evolves [] 0 m m'.
Proof. destruct b; [apply activate_ev|intros [= <-]; apply evolves_refl]. Qed.

(** ** Adding windows *)

(** A workspace is updated, empty ones are added around it, and it may be
    activated. *)
Lemma place_ev cv idx f (b : bool) m m' :
  (forall w w', f w = Ok w' -> ws_id w' = ws_id w) ->
  (m ← update_ws idx f m; '(idx, m) ← ensure_empty_around idx m;
   if b then activate_workspace cv idx m else mret m) = Ok m' ->
  evolves [] 2 m m'.
Proof.
  intros Hf H. bind H as [m1|] eqn E1. bind H as [[j m2]|] eqn E2.
  eapply (evolves_seq [] 0 2); [by eapply update_ws_ev| |lia].
  eapply (evolves_seq [] 2 0); [by eapply ensure_ev|by eapply maybe_activate_ev|lia].
Qed.

Lemma add_tile_ev cv t tg a al wd fw fl m m' : add_tile cv t tg a al wd fw fl m = Ok m' -> evolves [] 2 m m'.
Proof.
  unfold add_tile. intros H. bind H as [[idx tg']|] eqn E. eapply place_ev; [|exact H].
  intros w w' Hw. bind Hw as [w1|] eqn E1. injection Hw as <-. eapply adopt_id, op_add_tile, E1.
Qed.

Lemma add_window_ev cv x tg a wd fw fl m m' : add_window cv x tg a wd fw fl m = Ok m' -> evolves [] 2 m m'.
Proof. unfold add_window. intros H. bind H as [w|] eqn E. by eapply add_tile_ev. Qed.

Lemma add_column_ev cv idx c a m m' : add_column cv idx c a m = Ok m' -> evolves [] 2 m m'.
Proof.
  unfold add_column. intros H. eapply place_ev; [|exact H].
  intros w w' Hw. bind Hw as [w1|] eqn E1. injection Hw as <-. eapply adopt_id, op_add_column, E1.
Qed.

Lemma add_tile_to_column_ev cv idx c (i : option nat) t a al m m' :
  add_tile_to_column cv idx c i t a al m = Ok m' -> evolves [] 2 m m'.
Proof.
  unfold add_tile_to_column. intros H. bind H as [m1|] eqn E.
  eapply (evolves_seq [] 0 0); [eapply update_ws_ev; [|exact E]|by eapply maybe_activate_ev|lia].
  intros w w' Hw. bind Hw as [w1|] eqn E1. injection Hw as <-. eapply adopt_id, op_add_tile_to_column, E1.
Qed.

(** ** Removing and inserting workspaces *)
Lemma unname_ev id m b m' : unname_workspace id m = Ok (b, m') -> evolves [] 0 m m'.
Proof.
  unfold unname_workspace. destruct (find_workspace id m); [|intros [= _ <-]; apply evolves_refl].
  intros H. bind H as [m1|] eqn E1. bind H as [m2|] eqn E2. injection H as _ <-.
  eapply (evolves_seq [] 0 0); [eapply update_ws_ev; [|exact E1]|by apply clean_up_if_idle_ev|lia].
  intros w w' [= <-]. apply ws_id_stable. constructor.
Qed.

Lemma remove_workspace_ev cv idx m w m' : remove_workspace_by_idx cv idx m = Ok (w, m') -> evolves [] 2 m m'.
Proof.
  unfold remove_workspace_by_idx. intros H. bind H as [[j m1]|] eqn E1. bind H as [[w1 wss]|] eqn E2.
  bind H as [w2|] eqn E3. bind H as [m2|] eqn E4. injection H as _ <-. apply ensure_ev in E1. apply clean_up_ev in E4.
  eapply (evolves_seq [] 2 0); [exact E1| |lia]. eapply (evolves_seq [] 0 0); [|exact E4|lia].
  unfold vec_remove in E2. destruct (workspaces m1 !! j); [|done]. injection E2 as _ <-.
  apply evolves_sub; try done. cbn. apply delete_ids.
Qed.

Lemma insert_workspace_ev cv w idx a m m' : insert_workspace cv w idx a m = Ok m' -> evolves [ws_id w] 1 m m'.
Proof.
  unfold insert_workspace. intros H. bind H as [w1|] eqn E1. bind H as [w2|] eqn E2. bind H as [i1|] eqn E3.
  bind H as [[j m1]|] eqn E4. bind H as [wss|] eqn E5. bind H as [m2|] eqn E6. apply clean_up_ev in H.
  apply maybe_top_ev in E4.
  assert (Hid : ws_id w2 = ws_id w).
  { rewrite (ws_id_stable w1) by (by eapply op_update_config). apply ws_id_stable. by eapply op_set_output. }
  pose proof (evolves_trans [] [ws_id w] 1 0 m m1 m') as Ht. apply Ht; [done|].
  eapply (evolves_seq _ 0 0); [|exact H|lia].
  eapply (evolves_seq _ 0 0 0 m1 (set_lists wss (if (j <=? active_workspace_idx m1)%nat then S (active_workspace_idx m1)
    else active_workspace_idx m1) m1)); [|destruct a|lia].
  - unfold vec_insert in E5. destruct (decide _); [|done]. injection E5 as <-.
    constructor; cbn; try done; [lia|]. intros _ _ x. rewrite list_elem_of_fmap. intros (v & -> & Hv).
    apply elem_of_insert_at in Hv as [->|Hv]; [left; rewrite Hid; by left|right; left; by apply list_elem_of_fmap_2].
  - apply activate_ev in E6. eapply (evolves_seq _ 0 0); [|eapply (evolves_seq _ 0 0); [exact E6|by apply evolves_sub|lia]|lia].
    by apply evolves_sub.
  - injection E6 as <-. by apply evolves_sub.
Qed.

Lemma for_each_ids f wss wss' :
  (forall w w', f w = Ok w' -> ws_id w' = ws_id w) -> for_each f wss = Ok wss' -> ids wss' = ids wss.
Proof.
  intros Hf. revert wss'. induction wss as [|w wss IH]; cbn; intros wss' H; [by injection H as <-|].
  bind H as [w1|] eqn E1. bind H as [wss1|] eqn E2. injection H as <-. cbn. by rewrite (IH wss1), (Hf _ _ E1).
Qed.

Lemma append_workspaces_ev cv wss m m' : append_workspaces cv wss m = Ok m' -> evolves (ids wss) 1 m m'.
Proof.
  unfold append_workspaces. destruct wss as [|w0 wss0] eqn:Ew; [intros [= <-]; apply evolves_refl|]. rewrite <- Ew. clear Ew.
  intros H. bind H as [wss1|] eqn E1. bind H as [n|] eqn E2. bind H as [[e rest]|] eqn E3.
  bind H as [x|] eqn E4. bind H as [m1|] eqn E5. bind H as [n1|] eqn E6. apply clean_up_ev in H.
  assert (Hids : ids wss1 = ids wss).
  { eapply for_each_ids; [|exact E1]. intros w w' Hw. bind Hw as [w1|] eqn F1.
    rewrite (ws_id_stable w1) by (by eapply op_update_config). apply ws_id_stable. by eapply op_set_output. }
  eapply (evolves_seq _ 1 0); [|exact H|lia].
  eapply (evolves_seq _ 1 0 1 m m1); [|case_bool_decide; by apply evolves_sub|lia].
  eapply (evolves_seq _ 0 1); [|by eapply maybe_add_ev|lia].
  unfold vec_remove in E3. destruct (workspaces m !! n) eqn:En; [|done]. injection E3 as -> <-.
  constructor; cbn; try done; [lia|]. intros _ _ x0. rewrite !fmap_app, !elem_of_app, Hids. cbn. rewrite list_elem_of_singleton.
  intros [Hx|[Hx| ->]]; [right; left; by eapply delete_ids|by left|].
  right; left. apply list_elem_of_fmap_2. by eapply list_elem_of_lookup_2.
Qed.

(** ** Switching and moving *)
Lemma switch_ev cv idx m m' : switch_workspace cv idx m = Ok m' -> evolves [] 0 m m'.
Proof. unfold switch_workspace. intros H. bind H as [n|] eqn E. by eapply activate_ev. Qed.

Lemma switch_up_ev cv m m' : switch_workspace_up cv m = Ok m' -> evolves [] 0 m m'.
Proof. unfold switch_workspace_up. intros H. bind H as [n|] eqn E. by eapply activate_ev. Qed.

Lemma switch_down_ev cv m m' : switch_workspace_down cv m = Ok m' -> evolves [] 0 m m'.
Proof.
  unfold switch_workspace_down. intros H. bind H as [n|] eqn E. bind H as [j|] eqn E1. by eapply activate_ev.
Qed.

Lemma switch_previous_ev cv m m' : switch_workspace_previous cv m = Ok m' -> evolves [] 0 m m'.
Proof.
  unfold switch_workspace_previous. destruct (previous_workspace_idx m); [apply switch_ev|intros [= <-]; apply evolves_refl].
Qed.

Lemma switch_back_ev cv idx m m' : switch_workspace_auto_back_and_forth cv idx m = Ok m' -> evolves [] 0 m m'.
Proof.
  unfold switch_workspace_auto_back_and_forth. intros H. bind H as [n|] eqn E. cbv zeta in H.
  case_bool_decide; [|by eapply switch_ev]. by apply (switch_previous_ev cv).
Qed.

Lemma index_Some {A} (l : list A) i x : index l i = Ok x -> l !! i = Some x.
Proof. unfold index. destruct (l !! i); cbn; congruence. Qed.

Lemma move_active_tile_ev cv j focus m m' : move_active_tile_to cv j focus m = Ok m' -> evolves [] 2 m m'.
Proof.
  unfold move_active_tile_to. intros H. case_bool_decide; [injection H as <-; apply evolves_refl|].
  bind H as [tw|] eqn E1. bind H as [w|] eqn E2. bind H as [o|] eqn E3. apply index_Some in E2.
  destruct o as [[r w']|]; [|injection H as <-; apply evolves_refl].
  eapply (evolves_seq [] 0 2); [eapply set_ws_ev; [exact E2|by eapply op_remove_active_tile]|by eapply add_tile_ev|lia].
Qed.

Lemma move_up_ev cv focus m m' : move_to_workspace_up cv focus m = Ok m' -> evolves [] 2 m m'.
Proof. apply move_active_tile_ev. Qed.
Lemma move_down_ev cv focus m m' : move_to_workspace_down cv focus m = Ok m' -> evolves [] 2 m m'.
Proof. unfold move_to_workspace_down. intros H. bind H as [n|] eqn E. by eapply move_active_tile_ev. Qed.

Lemma move_to_workspace_ev cv x idx a m m' : move_to_workspace cv x idx a m = Ok m' -> evolves [] 2 m m'.
Proof.
  unfold move_to_workspace. intros H. bind H as [source|] eqn E1. bind H as [n|] eqn E2. cbv zeta in H.
  case_bool_decide; [injection H as <-; apply evolves_refl|].
  bind H as [tw|] eqn E3. bind H as [b|] eqn E4. bind H as [w|] eqn E5. bind H as [o|] eqn E6. apply index_Some in E5.
  destruct o as [[r w']|]; [|injection H as <-; apply evolves_refl]. bind H as [m1|] eqn E7.
  eapply (evolves_seq [] 2 0); [|by apply clean_up_if_idle_ev|lia].
  eapply (evolves_seq [] 0 2); [eapply set_ws_ev; [exact E5|]|by eapply add_tile_ev|lia].
  destruct x; [|by eapply op_remove_active_tile]. bind E6 as [rw|] eqn E8. injection E6 as ->. by eapply op_remove_tile.
Qed.

Lemma move_active_column_ev cv j a fl m m' :
  (forall m', fl m = Ok m' -> evolves [] 2 m m') -> move_active_column_to cv j a fl m = Ok m' -> evolves [] 2 m m'.
Proof.
  intros Hfl. unfold move_active_column_to. intros H. case_bool_decide; [injection H as <-; apply evolves_refl|].
  bind H as [w|] eqn E1. destruct (ws_floating_is_active w); [by apply Hfl|]. bind H as [o|] eqn E2.
  apply index_Some in E1. destruct o as [[c w']|]; [|injection H as <-; apply evolves_refl].
  eapply (evolves_seq [] 0 2); [eapply set_ws_ev; [exact E1|by eapply op_remove_active_column]|by eapply add_column_ev|lia].
Qed.

Lemma move_column_up_ev cv a m m' : move_column_to_workspace_up cv a m = Ok m' -> evolves [] 2 m m'.
Proof. apply move_active_column_ev. intros. by eapply move_up_ev. Qed.
Lemma move_column_down_ev cv a m m' : move_column_to_workspace_down cv a m = Ok m' -> evolves [] 2 m m'.
Proof.
  unfold move_column_to_workspace_down. intros H. bind H as [n|] eqn E. eapply move_active_column_ev; [|exact H].
  intros. by eapply move_down_ev.
Qed.
Lemma move_column_ev cv idx a m m' : move_column_to_workspace cv idx a m = Ok m' -> evolves [] 2 m m'.
Proof.
  unfold move_column_to_workspace. intros H. bind H as [n|] eqn E. eapply move_active_column_ev; [|exact H].
  intros. by eapply move_to_workspace_ev.
Qed.

Lemma on_active_ev f otherwise m m' :
  (forall w b w', f w = Ok (b, w') -> ws_op w w') -> (forall m m', otherwise m = Ok m' -> evolves [] 2 m m') ->
  on_active f otherwise m = Ok m' -> evolves [] 2 m m'.
Proof.
  intros Hf Ho. unfold on_active, active_workspace. intros H. bind H as [w|] eqn E1. bind H as [[b w']|] eqn E2.
  apply index_Some in E1. eapply (evolves_seq [] 0 2); [eapply set_ws_ev; [exact E1|by eapply Hf]| |lia].
  destruct b; [injection H as <-; apply evolves_refl|by apply Ho].
Qed.

Lemma weaken_ev N j k m m' : (j <= k)%nat -> evolves N j m m' -> evolves N k m m'.
Proof. intros Hjk H. eapply (evolves_seq N j 0); [exact H|apply evolves_refl|lia]. Qed.

(** ** Moving workspaces *)
Lemma perm_ev wss m : wss ≡ₚ workspaces m -> evolves [] 0 m (set_workspaces wss m).
Proof. intros Hp. apply evolves_sub; try done. cbn. intros x. by rewrite Hp. Qed.

Lemma swap_perm i j wss wss' : vec_swap i j wss = Ok wss' -> wss' ≡ₚ wss.
Proof.
  unfold vec_swap. destruct (wss !! i) as [x|] eqn:Ei, (wss !! j) as [y|] eqn:Ej; try done. intros [= <-].
  by apply (Permutation_insert_swap _ j i).
Qed.

Lemma refocus_ev cv bottom top j m m' : refocus_moved cv bottom top j m = Ok m' -> evolves [] 2 m m'.
Proof.
  unfold refocus_moved. intros H. bind H as [m1|] eqn E1. bind H as [[j1 m2]|] eqn E2. bind H as [m3|] eqn E3.
  apply clean_up_ev in H. eapply (evolves_seq [] 1 1); [by eapply maybe_add_ev| |lia].
  eapply (evolves_seq [] 1 0); [by eapply maybe_top_ev| |lia].
  eapply (evolves_seq [] 0 0); [by eapply activate_ev| |lia]. eapply (evolves_seq [] 0 0); [|exact H|lia].
  by apply evolves_sub.
Qed.

Lemma move_workspace_down_ev cv m m' : move_workspace_down cv m = Ok m' -> evolves [] 2 m m'.
Proof.
  unfold move_workspace_down. intros H. bind H as [n|] eqn E1. cbv zeta in H.
  case_bool_decide; [injection H as <-; apply evolves_refl|]. bind H as [wss|] eqn E2.
  eapply (evolves_seq [] 0 2); [by eapply perm_ev, swap_perm|by eapply refocus_ev|lia].
Qed.

Lemma move_workspace_up_ev cv m m' : move_workspace_up cv m = Ok m' -> evolves [] 2 m m'.
Proof.
  unfold move_workspace_up. intros H. cbv zeta in H. case_bool_decide; [injection H as <-; apply evolves_refl|].
  bind H as [wss|] eqn E2. bind H as [n|] eqn E1.
  eapply (evolves_seq [] 0 2); [by eapply perm_ev, swap_perm|by eapply refocus_ev|lia].
Qed.

Lemma move_workspace_to_idx_ev old new m m' : move_workspace_to_idx old new m = Ok m' -> evolves [] 2 m m'.
Proof.
  unfold move_workspace_to_idx. intros H. destruct (len m <=? old)%nat; [injection H as <-; apply evolves_refl|].
  bind H as [n|] eqn E1. cbv zeta in H. case_bool_decide; [injection H as <-; apply evolves_refl|].
  bind H as [[w wss]|] eqn E2. bind H as [wss1|] eqn E3. bind H as [[j m1]|] eqn E4.
  apply clean_up_ev in H. eapply (evolves_seq [] 0 2); [eapply (perm_ev wss1)| |lia].
  - unfold vec_remove in E2. destruct (workspaces m !! old) as [v|] eqn:Eo; [|done]. injection E2 as <- <-.
    unfold vec_insert in E3. destruct (decide _); [|done]. injection E3 as <-.
    rewrite insert_at_perm. symmetry. by apply delete_perm.
  - eapply (evolves_seq [] 2 0 2 _ m1); [|eapply (evolves_seq [] 0 0); [|exact H|lia]; by apply evolves_sub|lia].
    destruct (old <? _)%nat; bind E4 as [m2|] eqn E5;
      (eapply (evolves_seq [] 1 1); [eapply maybe_add_ev; exact E5|eapply maybe_top_ev; exact E4|lia]).
Qed.

(** ** Animations and gestures *)
Lemma set_switch_ev s m : evolves [] 0 m (set_switch s m).
Proof. by apply evolves_sub. Qed.

Lemma advance_animations_ev cv now m m' : advance_animations cv now m = Ok m' -> evolves [] 0 m m'.
Proof.
  unfold advance_animations. intros H. bind H as [m1|] eqn E1. bind H as [wss|] eqn E2. injection H as <-.
  eapply (evolves_seq [] 0 0 0 m m1); [| |lia].
  - destruct (workspace_switch m) as [[a|g]|]; [bind E1 as [d|] eqn E3; destruct d|bind E1 as [g'|] eqn E3|];
      try (injection E1 as <-; (apply evolves_refl || apply set_switch_ev)).
    apply clean_up_ev in E1. eapply (evolves_seq [] 0 0); [apply set_switch_ev|exact E1|lia].
  - apply evolves_sub; try done. cbn. intros x.
    rewrite (for_each_ids (ws_advance_animations cv) (workspaces m1)); [done| |done].
    intros w w' Hw. apply ws_id_stable. by eapply op_advance.
Qed.

Lemma gesture_begin_ev cv tp m m' : workspace_switch_gesture_begin cv tp m = Ok m' -> evolves [] 0 m m'.
Proof.
  unfold workspace_switch_gesture_begin. intros H. bind H as [x|] eqn E. injection H as <-. apply set_switch_ev.
Qed.

Lemma dnd_begin_ev cv now m m' : dnd_scroll_gesture_begin cv now m = Ok m' -> evolves [] 0 m m'.
Proof.
  unfold dnd_scroll_gesture_begin. cbv zeta. intros H.
  match type of H with (if ?b then _ else _) = _ => destruct b end; [injection H as <-; apply evolves_refl|].
  destruct (negb _); [injection H as <-; apply evolves_refl|]. bind H as [x|] eqn E. injection H as <-. apply set_switch_ev.
Qed.

Lemma gesture_update_ev cv d ts tp m o m' : workspace_switch_gesture_update cv d ts tp m = Ok (o, m') -> evolves [] 0 m m'.
Proof.
  unfold workspace_switch_gesture_update. intros H.
  destruct (workspace_switch m) as [[|g]|]; try (injection H as _ <-; apply evolves_refl).
  destruct (_ || _); [injection H as _ <-; apply evolves_refl|]. bind H as [z|] eqn E1. cbv zeta in H.
  bind H as [t|] eqn E2. bind H as [[lo hi]|] eqn E3. bind H as [x|] eqn E4. injection H as _ <-. apply set_switch_ev.
Qed.

Lemma gesture_end_ev cv now tp m b m' : workspace_switch_gesture_end cv now tp m = Ok (b, m') -> evolves [] 0 m m'.
Proof.
  unfold workspace_switch_gesture_end. intros H.
  destruct (workspace_switch m) as [[|g]|]; try (injection H as _ <-; apply evolves_refl).
  match type of H with (if ?b then _ else _) = _ => destruct b end; [injection H as _ <-; apply evolves_refl|].
  bind H as [z|] eqn E1. cbv zeta in H. bind H as [t|] eqn E2. bind H as [v|] eqn E3. bind H as [p|] eqn E4.
  bind H as [[lo hi]|] eqn E5. bind H as [x|] eqn E6. bind H as [d|] eqn E7. bind H as [m1|] eqn E8. bind H as [a|] eqn E9.
  injection H as _ <-. eapply (evolves_seq [] 0 0 0 m m1); [|by apply evolves_sub|lia].
  case_bool_decide; [injection E8 as <-; apply evolves_refl|]. bind E8 as [w|] eqn E10. injection E8 as <-. by apply evolves_sub.
Qed.

Lemma dnd_scroll_ev cv now pos sp m b m' : dnd_scroll_gesture_scroll cv now pos sp m = Ok (b, m') -> evolves [] 0 m m'.
Proof.
  unfold dnd_scroll_gesture_scroll. intros H. bind H as [z|] eqn E1.
  destruct (workspace_switch m) as [[|g]|]; try (injection H as _ <-; apply evolves_refl).
  destruct (Switch.dnd_last_event_time g) as [lt|]; [|injection H as _ <-; apply evolves_refl].
  bind H as [d|] eqn E2. cbv zeta in H. destruct (feqb _ _); [injection H as _ <-; apply set_switch_ev|].
  destruct (_ <? _); [injection H as _ <-; apply set_switch_ev|]. bind H as [t|] eqn E3.
  bind H as [[lo hi]|] eqn E4. bind H as [x|] eqn E5. injection H as _ <-. apply set_switch_ev.
Qed.

Lemma dnd_end_ev cv now m m' : dnd_scroll_gesture_end cv now m = Ok m' -> evolves [] 0 m m'.
Proof.
  unfold dnd_scroll_gesture_end. intros H.
  destruct (workspace_switch m) as [[|g]|]; try (injection H as <-; apply evolves_refl).
  destruct (Switch.is_dnd g); [|injection H as <-; apply evolves_refl]. bind H as [[b m1]|] eqn E. injection H as <-.
  by eapply gesture_end_ev.
Qed.

Lemma set_overview_ev cv p m m' : set_overview_progress cv p m = Ok m' -> evolves [] 0 m m'.
Proof.
  unfold set_overview_progress. intros H. bind H as [x|] eqn E1. cbv zeta in H. bind H as [y|] eqn E2.
  destruct (fneb _ _); [|injection H as <-; by apply evolves_sub].
  match type of H with match ?s with _ => _ end = _ => destruct s as [[a|g]|] end;
    [bind H as [b|] eqn E3|..]; injection H as <-; by apply evolves_sub.
Qed.
End ids.
