(* ===== verification/MonitorInv.v ===== *)
(** * Invariants of monitors

    The structural invariant of a monitor and the proof that every operation of a
    monitor preserves it without panicking and without losing or duplicating a
    window.  Of [Monitor::verify_invariants] it has the assertions about the monitor's
    options, the active workspace and the workspaces that are empty; and ids and windows
    are unique.  It leaves out that the end points of a switch animation are
    workspaces, that the workspaces have the scale, view size, working area and options of
    the monitor, which the interface [WorkspaceOps] does not show, and where they are
    drawn. *)

From stdpp Require Import base numbers option list strings relations.
From Stdlib Require Import ZArith Lia.
From S2P Require Import Prelude.
From S2P Require Import F64.
From S2P Require Import Duration.
From S2P Require Import Clock.
From S2P Require Import Gesture.
From S2P Require Import Animation.
From S2P Require Import AnimTotal.
From S2P Require Import LayoutTypes.
From S2P Require Import Interface.
From S2P Require Import Monitor.

Local Open Scope Z_scope.
#[local] Arguments Nat.ltb : simpl never.
#[local] Arguments Nat.leb : simpl never.

(** ** The invariant *)
Import Monitor.

Definition gesture_ok `{!Libm, !Keyframe} (n : nat) (g : Switch.WorkspaceSwitchGesture) : Prop :=
  (Switch.center_idx g < n)%nat /\ SwipeTracker.tracker_ok (Switch.tracker g)
  /\ forall a, Switch.g_animation g = Some a -> anim_total a.

Definition switch_ok `{!Libm, !Keyframe} (n : nat) (s : option Switch.WorkspaceSwitch) : Prop :=
  match s with
  | None => True
  | Some (Switch.SwitchAnimation a) => anim_total a
  | Some (Switch.SwitchGesture g) => gesture_ok n g
  end.

Definition overview_ok `{!Libm, !Keyframe} (p : option OverviewProgress) : Prop :=
  match p with Some (OverviewAnimation a) => anim_total a | _ => True end.

(** The name of the output a monitor is for. *)
Class Home := home : string.

Section inv.
Context {WO : WorkspaceOps} {LM : Libm} {KF : Keyframe} {WL : WorkspaceLaws} {SM : Smithay} {HM : Home}.
Implicit Types (m : Monitor) (w : WS) (wss : list WS) (i idx : nat) (cv : ClockView).

Definition is_empty w : Prop := has_windows_or_name w = false.

(** An empty workspace that belongs to this monitor. *)
Definition spare w : Prop := is_empty w /\ ws_original_output w = home.

(** What holds at every point of every operation. *)
Record mon_core m : Prop := {
  mc_home : output_id (output m) = home;
  mc_active : (active_workspace_idx m < len m)%nat;
  mc_ids : NoDup (ws_id <$> workspaces m);
  mc_fresh : Forall (fun w => ws_id w < id_counter m) (workspaces m);
  mc_ws : Forall ws_ok (workspaces m);
  mc_wins : NoDup (windows m);
  mc_switch : switch_ok (len m) (workspace_switch m);
  mc_overview : overview_ok (overview_progress m);
  mc_options : options m = with_merged_layout (layout_config m) (base_options m);
  mc_config : opts_ok (options m);
  mc_base : opts_ok (base_options m);
  mc_part : part_ok (layout_config m)
}.

Definition last_empty wss : Prop := exists w, last wss = Some w /\ spare w.
Definition first_empty wss : Prop := exists w, head wss = Some w /\ spare w.

(** Only the active workspace and the fixed empty ones may be empty while no
    switch is in progress. *)
Definition clean m : Prop :=
  workspace_switch m = None ->
  forall i w, workspaces m !! i = Some w -> (S i < len m)%nat -> (ewaf m = true -> i <> 0%nat) ->
    i <> active_workspace_idx m -> has_windows_or_name w = true.

(** All but perhaps workspace [k]. *)
Definition clean_but (k : nat) m : Prop :=
  workspace_switch m = None ->
  forall i w, workspaces m !! i = Some w -> (S i < len m)%nat -> (ewaf m = true -> i <> 0%nat) ->
    i <> active_workspace_idx m -> i <> k -> has_windows_or_name w = true.
Lemma clean_clean_but k m : clean m -> clean_but k m.
Proof. intros Hc Hs i w Hi Hl He Ha _. by apply (Hc Hs i). Qed.

Record monitor_ok m : Prop := {
  mo_core : mon_core m;
  mo_last : last_empty (workspaces m);
  mo_first : ewaf m = true -> first_empty (workspaces m) /\ len m <> 2%nat;
  mo_clean : clean m
}.

(** Room for the workspaces an operation may add. *)
Definition room m (k : nat) : Prop :=
  id_counter m + Z.of_nat k < 2 ^ 64 /\ 0 <= id_counter m /\ Z.of_nat (len m + k) < 2 ^ 53.

(** ** Windows of a list of workspaces *)
Abbreviation wins l := (l ≫= ws_windows).

Lemma wins_at wss i w : wss !! i = Some w -> wins wss ≡ₚ ws_windows w ++ wins (delete i wss).
Proof. intros H. rewrite (delete_perm i w wss H) at 1. done. Qed.

Lemma wins_insert wss i w w' :
  wss !! i = Some w -> wins (<[i := w']> wss) ≡ₚ ws_windows w' ++ wins (delete i wss).
Proof.
  intros H. assert (Hlt : (i < length wss)%nat) by (by eapply lookup_lt_Some).
  rewrite (wins_at _ i w') by (by apply list_lookup_insert_eq).
  by rewrite !delete_take_drop, take_insert_ge, drop_insert_lt by lia.
Qed.

Lemma empty_wins w : is_empty w -> ws_windows w = [].
Proof. unfold is_empty, has_windows_or_name, has_windows. by destruct (ws_windows w). Qed.

Lemma wins_empty wss : Forall is_empty wss -> wins wss = [].
Proof. induction 1 as [|w wss Hw _ IH]; [done|]. cbn. by rewrite empty_wins, IH. Qed.

Lemma has_wins w : ws_windows w <> [] -> has_windows_or_name w = true.
Proof. unfold has_windows_or_name, has_windows. by destruct (ws_windows w). Qed.

Lemma ws_new_spare (k : Z) o opts : output_id o = home -> spare (ws_new k o opts).
Proof.
  intros Ho. destruct (ws_new_spec k o opts) as (_ & Hn & Hw & _ & Hor). split; [|by rewrite Hor].
  unfold is_empty, has_windows_or_name, has_windows. by rewrite Hn, Hw.
Qed.

Lemma spare_empty wss : Forall spare wss -> Forall is_empty wss.
Proof. intros H. eapply Forall_impl; [exact H|]. by intros w []. Qed.

Lemma insert_id wss i w w' :
  wss !! i = Some w -> ws_id w' = ws_id w -> ws_id <$> <[i := w']> wss = ws_id <$> wss.
Proof.
  intros Hi Hid. rewrite list_fmap_insert, list_insert_id; [done|]. rewrite list_lookup_fmap, Hi. cbn. by rewrite Hid.
Qed.

(** ** Changing one workspace *)
Lemma set_ws_core m i w w' :
  mon_core m -> workspaces m !! i = Some w -> ws_id w' = ws_id w -> ws_ok w' ->
  NoDup (wins (<[i := w']> (workspaces m))) ->
  mon_core (set_workspaces (<[i := w']> (workspaces m)) m).
Proof.
  intros [] Hi Hid Hok Hnd. constructor; cbn; try done.
  - unfold len; cbn. by rewrite length_insert.
  - by rewrite (insert_id _ _ w).
  - apply Forall_insert; [done|]. rewrite Hid. by eapply Forall_lookup_1 in Hi; [|exact mc_fresh0].
  - by apply Forall_insert.
  - unfold len; cbn. by rewrite length_insert.
Qed.

(** ** Adding empty workspaces *)
Lemma offset_ok n s : switch_ok n (Some s) -> exists s', Switch.offset 1 s = Ok s' /\ switch_ok (S n) (Some s').
Proof.
  intros Hs. destruct s as [a|g]; cbn.
  - eexists. split; [done|]. cbn. eapply anim_total_next; [done|constructor].
  - eexists. split; [done|]. destruct Hs as (Hc & Ht & Ha). split_and!; cbn; [lia|done..].
Qed.

Lemma switch_ok_mono n n' s : (n <= n')%nat -> switch_ok n s -> switch_ok n' s.
Proof. destruct s as [[a|g]|]; cbn; try done. intros ? (? & ? & ?). split_and!; [lia|done..]. Qed.

(** The parts of a monitor no structural operation changes. *)
Definition frame m m' : Prop :=
  options m' = options m /\ base_options m' = base_options m /\ layout_config m' = layout_config m
  /\ overview_progress m' = overview_progress m
  /\ (workspace_switch m' = None <-> workspace_switch m = None).

Lemma frame_refl m : frame m m.
Proof. by split_and!. Qed.
Lemma frame_trans a b c : frame a b -> frame b c -> frame a c.
Proof.
  intros (H1 & H2 & H3 & H4 & H5) (G1 & G2 & G3 & G4 & G5). split_and!; try congruence. by rewrite G5, H5.
Qed.
Lemma frame_ewaf m m' : frame m m' -> ewaf m' = ewaf m.
Proof. intros (H & _). unfold ewaf. by rewrite H. Qed.

Lemma add_workspace_at_spec m idx :
  mon_core m -> (idx <= len m)%nat -> room m 1 ->
  exists m' w, add_workspace_at idx m = Ok m' /\ spare w /\ ws_id w = id_counter m
    /\ workspaces m' = insert_at idx w (workspaces m)
    /\ active_workspace_idx m' = (if (idx <=? active_workspace_idx m)%nat then S (active_workspace_idx m) else active_workspace_idx m)
    /\ previous_workspace_id m' = previous_workspace_id m
    /\ id_counter m' = id_counter m + 1 /\ frame m m' /\ mon_core m' /\ windows m' ≡ₚ windows m.
Proof.
  intros Hc Hidx (Hr & Hr0 & _). unfold add_workspace_at, new_workspace, id_next.
  set (w := ws_new (id_counter m) (output m) (options m)).
  destruct (ws_new_spec (id_counter m) (output m) (options m)) as (Hid & _ & Hw & Hok & _). fold w in Hid, Hw, Hok. specialize (Hok (mc_config _ Hc)).
  cbn [workspaces set_counter]. rewrite vec_insert_ok by done. cbn [mbind res_bind].
  set (m1 := set_lists _ _ _).
  assert (Hlen : length (insert_at idx w (workspaces m)) = S (len m)) by (by apply length_insert_at).
  assert (Hwins : wins (insert_at idx w (workspaces m)) ≡ₚ wins (workspaces m)).
  { rewrite insert_at_perm. cbn. by rewrite Hw. }
  assert (Hcore : forall s, switch_ok (S (len m)) s -> mon_core (set_switch s m1)).
  { intros s Hs. destruct Hc. constructor; cbn; try done.
    - unfold len; cbn. rewrite Hlen. destruct (Nat.leb_spec idx (active_workspace_idx m)); lia.
    - rewrite insert_at_perm. cbn. apply NoDup_cons. split; [|done]. rewrite Hid.
      intros (x & Hx & Hin)%list_elem_of_fmap. rewrite Forall_forall in mc_fresh0. specialize (mc_fresh0 x Hin). lia.
    - rewrite insert_at_perm. constructor; [rewrite Hid, Z.mod_small; lia|].
      eapply Forall_impl; [exact mc_fresh0|]. cbn. intros x Hx. rewrite Z.mod_small; lia.
    - rewrite insert_at_perm. by constructor.
    - unfold windows; cbn. by rewrite Hwins.
    - unfold len; cbn. by rewrite Hlen. }
  assert (Hres : forall s, switch_ok (S (len m)) s -> (s = None <-> workspace_switch m = None) ->
    spare w /\ ws_id w = id_counter m /\ workspaces (set_switch s m1) = insert_at idx w (workspaces m)
    /\ active_workspace_idx (set_switch s m1) = (if (idx <=? active_workspace_idx m)%nat then S (active_workspace_idx m) else active_workspace_idx m)
    /\ previous_workspace_id (set_switch s m1) = previous_workspace_id m
    /\ id_counter (set_switch s m1) = id_counter m + 1 /\ frame m (set_switch s m1)
    /\ mon_core (set_switch s m1) /\ windows (set_switch s m1) ≡ₚ windows m).
  { intros s Hs Hn. split_and!; try done; [apply ws_new_spare, (mc_home _ Hc)|cbn; rewrite Z.mod_small; lia|by apply Hcore]. }
  pose proof (mc_switch _ Hc) as Hsw.
  assert (Hm1 : m1 = set_switch (workspace_switch m) m1) by done.
  change (workspace_switch m1) with (workspace_switch m).
  destruct (workspace_switch m) as [s|] eqn:Es; [|rewrite Hm1; eexists _, w; split; [done|]; by apply Hres].
  destruct (fleb _ _).
  - destruct (offset_ok _ _ Hsw) as (s' & Ho & Hs'). rewrite Ho. cbn. eexists _, w. split; [done|]. by apply Hres.
  - rewrite Hm1. eexists _, w. split; [done|]. apply Hres; [|done]. eapply switch_ok_mono; [|done]. lia.
Qed.

(** Adding an empty workspace at the bottom and then one on top. *)
Definition grow (bottom top : bool) m : res Monitor :=
  m ← (if bottom then add_workspace_bottom m else Ok m);
  if top then add_workspace_top m else Ok m.

Definition flag (b : bool) : nat := if b then 1%nat else 0%nat.

Record grown (bottom top : bool) m m' (t b : list WS) : Prop := {
  gr_ws : workspaces m' = t ++ workspaces m ++ b;
  gr_top : Forall spare t /\ length t = flag top;
  gr_bot : Forall spare b /\ length b = flag bottom;
  gr_active : active_workspace_idx m' = (flag top + active_workspace_idx m)%nat;
  gr_prev : previous_workspace_id m' = previous_workspace_id m;
  gr_ids : Forall (fun w => id_counter m <= ws_id w) (t ++ b) /\ id_counter m <= id_counter m';
  gr_counter : id_counter m' <= id_counter m + (if bottom then 1 else 0) + (if top then 1 else 0);
  gr_frame : frame m m';
  gr_core : mon_core m';
  gr_wins : windows m' ≡ₚ windows m
}.

Lemma grow_spec bottom top m :
  mon_core m -> room m 2 -> exists m' t b, grow bottom top m = Ok m' /\ grown bottom top m m' t b.
Proof.
  intros Hc Hr. unfold grow.
  assert (Hb : exists m1 b, (if bottom then add_workspace_bottom m else Ok m) = Ok m1 /\ grown bottom false m m1 [] b
    /\ room m1 1).
  { destruct Hr as (Hr1 & Hr0 & Hr2). destruct bottom.
    - destruct (add_workspace_at_spec m (len m)) as (m1 & w & He & Hw & Hid & Hws & Ha & Hp & Hcnt & Hf & Hc1 & Hwi);
        [done|done|unfold room; lia|].
      exists m1, [w]. split; [done|split].
      + constructor; try done; try (cbn; lia); try (by split; [by apply Forall_singleton|]); try (by split; [repeat constructor|]; lia).
        * rewrite Hws. unfold insert_at, len. by rewrite take_ge, drop_ge by lia.
        * rewrite Ha. pose proof (mc_active _ Hc). destruct (Nat.leb_spec (len m) (active_workspace_idx m)); [lia|done].
      + unfold room, len. rewrite Hws, length_insert_at by done. unfold len in *. lia.
    - exists m, []. split; [done|]. split; [|unfold room; lia]. constructor; try done; try (cbn; lia); try (by repeat constructor).
      by rewrite app_nil_r. }
  destruct Hb as (m1 & b & -> & Hg & Hr1). cbn [mbind res_bind]. destruct Hg as [Hws _ Hbot Ha Hp [Hids Hcnt] Hgc Hf Hc1 Hwi].
  destruct top.
  - destruct (add_workspace_at_spec m1 0) as (m2 & w & He & Hw & Hid & Hws2 & Ha2 & Hp2 & Hcnt2 & Hf2 & Hc2 & Hwi2);
      [done|lia|done|].
    exists m2, [w], b. split; [done|]. constructor; try done; try lia.
    + rewrite Hws2, Hws. done.
    + split; [by apply Forall_singleton|done].
    + rewrite Ha2, Ha. done.
    + congruence.
    + split; [|lia]. cbn. constructor; [lia|done].
    + by eapply frame_trans.
    + by rewrite Hwi2.
  - exists m1, [], b. split; [done|]. by constructor.
Qed.

(** The other order, of a workspace that gets a name. *)
Definition grow_top_first (bottom top : bool) m : res Monitor :=
  m ← (if top then add_workspace_top m else Ok m); if bottom then add_workspace_bottom m else Ok m.
Lemma grow_top_first_spec bottom top m :
  mon_core m -> room m 2 -> exists m' t b, grow_top_first bottom top m = Ok m' /\ grown bottom top m m' t b.
Proof.
  intros Hc (Hr1 & Hr0 & Hr2). unfold grow_top_first.
  assert (Ht : exists m1 t, (if top then add_workspace_top m else Ok m) = Ok m1 /\ grown false top m m1 t [] /\ room m1 1).
  { destruct top.
    - destruct (add_workspace_at_spec m 0) as (m1 & w & He & Hw & Hid & Hws & Ha & Hp & Hcnt & Hf & Hc1 & Hwi);
        [done|lia|unfold room; lia|].
      exists m1, [w]. split; [done|split].
      + constructor; try done; try (cbn; lia); try (by split; [by apply Forall_singleton|]); try (by split; [repeat constructor|]; lia).
        * rewrite Hws. cbn. by rewrite app_nil_r.
      + unfold room, len. rewrite Hws, length_insert_at by lia. unfold len in *. lia.
    - exists m, []. split; [done|]. split; [|unfold room; lia]. constructor; try done; try (cbn; lia); try (by repeat constructor).
      by rewrite app_nil_r. }
  destruct Ht as (m1 & t & -> & Hg & Hrm). cbn [mbind res_bind]. destruct Hg as [Hws Htop _ Ha Hp [Hids Hcnt] Hgc Hf Hc1 Hwi].
  rewrite app_nil_r in Hws. rewrite app_nil_r in Hids.
  destruct bottom.
  - destruct (add_workspace_at_spec m1 (len m1)) as (m2 & w & He & Hw & Hid & Hws2 & Ha2 & Hp2 & Hcnt2 & Hf2 & Hc2 & Hwi2); [done..|].
    exists m2, t, [w]. split; [done|]. constructor; try done; try lia.
    + rewrite Hws2. unfold insert_at, len. rewrite take_ge, drop_ge by lia. by rewrite Hws, app_assoc.
    + split; [by apply Forall_singleton|done].
    + rewrite Ha2. pose proof (mc_active _ Hc1). destruct (Nat.leb_spec (len m1) (active_workspace_idx m1)); [lia|done].
    + congruence.
    + split; [|lia]. apply Forall_app. split; [done|]. apply Forall_singleton. lia.
    + by eapply frame_trans.
    + by rewrite Hwi2.
  - exists m1, t, []. split; [done|]. constructor; try done; try lia; try (by rewrite app_nil_r).
Qed.

Lemma grown_len bottom top m m' t b :
  grown bottom top m m' t b -> len m' = (flag top + len m + flag bottom)%nat.
Proof. intros [Hws [_ Ht] [_ Hb] _ _ _ _ _ _]. unfold len. rewrite Hws, !length_app. lia. Qed.

Lemma grown_lookup bottom top m m' t b i :
  grown bottom top m m' t b -> (i < len m)%nat -> workspaces m' !! (flag top + i)%nat = workspaces m !! i.
Proof.
  intros [Hws [_ Ht] _ _ _ _ _ _ _] Hi. rewrite Hws, lookup_app_r by lia.
  rewrite lookup_app_l by (unfold len in Hi; lia). f_equal. lia.
Qed.

Lemma grown_last bottom top m m' t b :
  grown bottom top m m' t b -> (bottom = false -> last_empty (workspaces m)) -> last_empty (workspaces m').
Proof.
  intros Hg Hl. destruct Hg as [Hws _ [Hb Hlb] _ _ _ _ _ _]. unfold last_empty. rewrite Hws, !last_app.
  destruct bottom.
  - destruct b as [|x [|? ?]]; try done. exists x. split; [done|]. by inversion Hb.
  - destruct b; [|done]. destruct (Hl eq_refl) as (x & Hx & Hex). exists x. cbn. by rewrite Hx.
Qed.

Lemma grown_first bottom top m m' t b :
  grown bottom top m m' t b -> (top = false -> first_empty (workspaces m)) -> first_empty (workspaces m').
Proof.
  intros Hg Hl. destruct Hg as [Hws [Ht Hlt] _ _ _ _ _ _ _]. unfold first_empty. rewrite Hws.
  destruct top.
  - destruct t as [|x [|? ?]]; try done. exists x. split; [done|]. by inversion Ht.
  - destruct t; [|done]. destruct (Hl eq_refl) as (x & Hx & Hex). exists x. split; [|done].
    cbn. by destruct (workspaces m).
Qed.

(** ** Activation *)
Lemma render_idx_ok cv m : mon_core m -> cv_ok cv -> exists x, workspace_render_idx cv m = Ok x.
Proof.
  intros Hc Hcv. pose proof (mc_overview _ Hc) as Hov.
  assert (Hplain : exists x, match workspace_switch m with
    | Some s => Switch.current_idx cv s | None => Ok (of_nat (active_workspace_idx m)) end = Ok x).
  { pose proof (mc_switch _ Hc) as Hs. destruct (workspace_switch m) as [[a|g]|]; cbn in Hs |- *; [|..|by eexists].
    - by apply anim_total_value.
    - destruct Hs as (_ & _ & Ha). destruct (Switch.g_animation g) as [a|]; [|by eexists].
      destruct (anim_total_value a cv (Ha a eq_refl) Hcv) as [x ->]. by eexists. }
  unfold workspace_render_idx. pose proof (mc_switch _ Hc) as Hs.
  destruct (workspace_switch m) as [[a|g]|]; try done.
  destruct (overview_progress m) as [[pa|v]|] eqn:Eo; try done.
  destruct (animations_match a pa); [|done].
  assert (Hz : forall p, exists z, compute_overview_zoom (options m) p = Ok z).
  { intros p. unfold compute_overview_zoom.
    destruct (fclamp_ok (opt_overview_zoom (options m)) (lit 1 10000) (lit 75 100)) as [y ->]; [by vm_compute|]. by eexists. }
  destruct (Hz (Some (Animation.from pa))) as [z ->]. cbn [mbind res_bind].
  unfold overview_zoom, overview_value. rewrite Eo.
  destruct (anim_total_value pa cv Hov Hcv) as [x ->]. cbn [mbind res_bind mret res_ret].
  destruct (Hz (Some x)) as [z' ->]. cbn [mbind res_bind].
  destruct (anim_total_value a cv Hs Hcv) as [y ->]. by eexists.
Qed.

(** What activating [idx] leaves as it was. *)
Record activated cv idx m m' : Prop := {
  ac_ws : workspaces m' = workspaces m;
  ac_active : active_workspace_idx m' = idx;
  ac_prev : previous_workspace_id m'
    = if bool_decide (active_workspace_idx m = idx) then previous_workspace_id m
      else ws_id <$> workspaces m !! active_workspace_idx m;
  ac_options : options m' = options m;
  ac_counter : id_counter m' = id_counter m;
  ac_core : mon_core m';
  ac_switch : workspace_switch m' = None -> workspace_switch m = None /\ idx = active_workspace_idx m
}.

Lemma set_switch_core s m : mon_core m -> switch_ok (len m) s -> mon_core (set_switch s m).
Proof. intros [] Hs. by constructor. Qed.

Lemma set_active_core idx m : mon_core m -> (idx < len m)%nat -> mon_core (set_active idx m).
Proof. intros [] Hi. by constructor. Qed.

Lemma set_previous_core p m : mon_core m -> mon_core (set_previous p m).
Proof. intros []. by constructor. Qed.

Lemma activate_anim_spec cv idx config m :
  mon_core m -> cv_ok cv -> (idx < len m)%nat -> config_total (default (workspace_switch_anim (options m)) config) ->
  exists m', activate_workspace_with_anim_config cv idx config m = Ok m' /\ activated cv idx m m'.
Proof.
  intros Hc Hcv Hidx Hcfg. unfold activate_workspace_with_anim_config.
  destruct (render_idx_ok cv m Hc Hcv) as [x ->]. cbn [mbind res_bind].
  destruct (lookup_lt_is_Some_2 (workspaces m) (active_workspace_idx m)) as [w Hw]; [apply (mc_active _ Hc)|].
  unfold active_workspace, index. rewrite Hw. cbn [unwrap mbind res_bind].
  set (prev := if bool_decide (active_workspace_idx m = idx) then previous_workspace_id m else Some (ws_id w)).
  set (m1 := set_active idx (set_previous prev m)).
  assert (Hm1 : (if bool_decide (active_workspace_idx m = idx) then Ok m else Ok (set_previous (Some (ws_id w)) m))
    = Ok (set_previous prev m)).
  { unfold prev. case_bool_decide; [|done]. by destruct m. }
  assert (Hc1 : mon_core m1) by (by apply set_active_core; [apply set_previous_core|]).
  assert (Hdone : forall s, switch_ok (len m) s -> (s = None -> workspace_switch m = None /\ idx = active_workspace_idx m) ->
    activated cv idx m (set_switch s m1)).
  { intros s Hs Hn. constructor; cbn; try done; [|by apply set_switch_core].
    unfold prev. rewrite Hw. done. }
  rewrite Hm1. cbn [mbind res_bind]. fold m1. change (workspace_switch m1) with (workspace_switch m).
  change (options m1) with (options m). set (cfg := default _ config) in *.
  assert (Hplain : exists m', (if bool_decide (active_workspace_idx m = idx) then Ok m1
      else a ← Animation.new cv x (of_nat idx) f0 cfg;
           mret (set_switch (Some (Switch.SwitchAnimation a)) m1)) = Ok m' /\ activated cv idx m m').
  { case_bool_decide as Hi.
    - exists m1. split; [done|]. apply (Hdone (workspace_switch m)); [apply (mc_switch _ Hc)|done].
    - destruct (Hcfg cv x (of_nat idx) f0 Hcv) as (a & -> & Ha). eexists. split; [done|]. by apply Hdone. }
  pose proof (mc_switch _ Hc) as Hsw.
  destruct (workspace_switch m) as [[a|g]|] eqn:Es; try done. destruct (Switch.is_dnd g); [|done].
  destruct Hsw as (Hctr & Htr & Han). unfold Switch.animate_from, point_at. cbn.
  assert (Hv : exists v, match Switch.g_animation g with Some a => Animation.value cv a | None => Ok f0 end = Ok v).
  { destruct (Switch.g_animation g) as [a|]; [|by eexists]. apply anim_total_value; auto. }
  destruct Hv as [v ->]. cbn [mbind res_bind].
  match goal with |- context [Animation.new cv ?f ?t ?vel ?c] =>
    destruct (Hcfg cv f t vel Hcv) as (a & -> & Ha) end.
  eexists. split; [done|]. apply Hdone; [|done]. split_and!; cbn; [done|done|]. by intros ? [= <-].
Qed.

Lemma activate_spec cv idx m :
  mon_core m -> cv_ok cv -> (idx < len m)%nat ->
  exists m', activate_workspace cv idx m = Ok m' /\ activated cv idx m m'.
Proof. intros Hc Hcv Hi. apply activate_anim_spec; [done..|apply (mc_config _ Hc)]. Qed.

(** ** Cleaning up *)

(** What removing empty, non-active workspaces keeps; from index [a] on. *)
Record cleaned (a : nat) m m' : Prop := {
  cl_core : mon_core m';
  cl_last : last (workspaces m') = last (workspaces m);
  cl_head : (1 <= a)%nat -> head (workspaces m') = head (workspaces m);
  cl_active : workspaces m' !! active_workspace_idx m' = workspaces m !! active_workspace_idx m;
  cl_kept : List.filter has_windows_or_name (workspaces m') = List.filter has_windows_or_name (workspaces m);
  cl_sub : workspaces m' `sublist_of` workspaces m;
  cl_wins : windows m' ≡ₚ windows m;
  cl_switch : workspace_switch m' = workspace_switch m;
  cl_options : options m' = options m;
  cl_prev : previous_workspace_id m' = previous_workspace_id m;
  cl_counter : id_counter m' = id_counter m
}.

Lemma cleaned_refl a m : mon_core m -> cleaned a m m.
Proof. by constructor. Qed.
Lemma cleaned_trans a m1 m2 m3 : cleaned a m1 m2 -> cleaned a m2 m3 -> cleaned a m1 m3.
Proof.
  intros [] []. constructor; try done; try congruence; try (by etrans).
  intros Ha. by rewrite cl_head1, cl_head0.
Qed.
Lemma cleaned_weaken a b m m' : (b <= a)%nat -> cleaned a m m' -> cleaned b m m'.
Proof. intros Hab []. constructor; try done. intros Hb. apply cl_head0. lia. Qed.

(** Removing an empty workspace that is neither active nor last. *)
Lemma remove_empty_cleaned m k w :
  mon_core m -> workspace_switch m = None -> (S k < len m)%nat -> workspaces m !! k = Some w -> is_empty w ->
  active_workspace_idx m <> k ->
  cleaned k m (set_lists (delete k (workspaces m))
    (if (k <? active_workspace_idx m)%nat then active_workspace_idx m - 1 else active_workspace_idx m)%nat m).
Proof.
  intros Hc Hs Hk Hw He Ha. pose proof (delete_perm k w _ Hw) as Hperm. unfold len in Hk.
  assert (Hlen : length (delete k (workspaces m)) = (length (workspaces m) - 1)%nat)
    by (rewrite length_delete; [done|eauto]).
  assert (Hwins : wins (delete k (workspaces m)) ≡ₚ wins (workspaces m)).
  { rewrite (wins_at (workspaces m) k w) by done. by rewrite (empty_wins w). }
  pose proof (mc_active _ Hc) as Hact. unfold len in Hact.
  constructor; cbn; try done.
  - destruct Hc. constructor; cbn; try done.
    + unfold len; cbn. rewrite Hlen. destruct (Nat.ltb_spec k (active_workspace_idx m)); lia.
    + rewrite Hperm in mc_ids0. cbn in mc_ids0. by apply NoDup_cons in mc_ids0 as [_ ?].
    + rewrite Hperm in mc_fresh0. by apply Forall_cons in mc_fresh0 as [_ ?].
    + rewrite Hperm in mc_ws0. by apply Forall_cons in mc_ws0 as [_ ?].
    + unfold windows; cbn. by rewrite Hwins.
    + by rewrite Hs.
  - rewrite !last_lookup, Hlen. rewrite lookup_delete_at_ge by lia. f_equal. lia.
  - intros Hk1. rewrite !head_lookup. by apply lookup_delete_at_lt.
  - destruct (Nat.ltb_spec k (active_workspace_idx m)).
    + rewrite lookup_delete_at_ge by lia. f_equal. lia.
    + by apply lookup_delete_at_lt; lia.
  - rewrite delete_take_drop. rewrite <- (take_drop_middle _ _ _ Hw) at 3.
    rewrite !List.filter_app. cbn. by rewrite He.
  - apply sublist_delete.
Qed.

(** Workspaces from [k] on, the active and the last one apart, are not empty. *)
Definition processed (k : nat) m : Prop :=
  forall i w, (k <= i)%nat -> (S i < len m)%nat -> i <> active_workspace_idx m ->
    workspaces m !! i = Some w -> has_windows_or_name w = true.

Lemma clean_step_spec m k :
  mon_core m -> workspace_switch m = None -> (S k < len m)%nat -> processed (S k) m ->
  exists m', clean_step m k = Ok m' /\ cleaned k m m' /\ processed k m' /\ (S k <= len m')%nat.
Proof.
  intros Hc Hs Hk Hp. unfold clean_step. case_bool_decide as Ha.
  - exists m. split_and!; [done|by apply cleaned_refl| |lia].
    intros i w Hi. destruct (decide (i = k)) as [->|]; [done|]. apply Hp. lia.
  - destruct (lookup_lt_is_Some_2 (workspaces m) k) as [w Hw]; [unfold len in Hk; lia|].
    unfold index. rewrite Hw. cbn [unwrap mbind res_bind].
    destruct (has_windows_or_name w) eqn:Ew.
    + exists m. split_and!; [done|by apply cleaned_refl| |lia].
      intros i w' Hi Hl Hne Hw'. destruct (decide (i = k)) as [->|]; [congruence|]. apply (Hp i w'); [lia|done..].
    + rewrite (vec_remove_ok k w) by done. cbn [mbind res_bind mret res_ret]. eexists.
      split; [done|]. split; [by apply (remove_empty_cleaned m k w)|].
      assert (Hlen : length (delete k (workspaces m)) = (length (workspaces m) - 1)%nat)
        by (rewrite length_delete; [done|eauto]).
      unfold len in *. split; [|cbn; lia]. intros i w' Hi Hl Hne Hw'. cbn in *.
      rewrite lookup_delete_at_ge in Hw' by lia. eapply (Hp (S i)); try done; [lia|unfold len; lia|].
      destruct (Nat.ltb_spec k (active_workspace_idx m)); lia.
Qed.

Lemma clean_loop_spec a n m :
  mon_core m -> workspace_switch m = None -> (n = 0%nat \/ (a + n < len m)%nat) -> processed (a + n) m ->
  exists m', foldl (fun (r : res Monitor) idx => m ← r; clean_step m idx) (Ok m) (reverse (seq a n)) = Ok m'
    /\ cleaned a m m' /\ processed a m'.
Proof.
  revert m. induction n as [|n IH]; intros m Hc Hs Hn Hp.
  { exists m. rewrite Nat.add_0_r in Hp. split_and!; [done|by apply cleaned_refl|done]. }
  rewrite seq_S, reverse_app. change (reverse [(a + n)%nat]) with [(a + n)%nat]. cbn [app foldl].
  cbn [mbind res_bind]. rewrite Nat.add_succ_r in Hp.
  destruct (clean_step_spec m (a + n)) as (m1 & -> & Hcl & Hp1 & Hl1); [done|done|lia|done|].
  destruct (IH m1) as (m2 & Hf & Hcl2 & Hp2); [apply Hcl|by rewrite (cl_switch _ _ _ Hcl)|right; lia|done|].
  exists m2. split_and!; [done| |done]. eapply cleaned_trans; [|done]. eapply cleaned_weaken; [|done]. lia.
Qed.

Lemma last_nonempty wss : last_empty wss -> (1 <= length wss)%nat.
Proof. intros (w & Hw & _). destruct wss; cbn in *; [done|lia]. Qed.

(** The active workspace survives, except when everything collapses to the
    single empty workspace. *)
Definition active_kept m m' : Prop :=
  workspaces m' !! active_workspace_idx m' = workspaces m !! active_workspace_idx m
  \/ (ewaf m = true /\ len m' = 1%nat /\ exists w, workspaces m !! active_workspace_idx m = Some w /\ is_empty w).

Record cleanup_done m m' : Prop := {
  cd_ok : monitor_ok m';
  cd_active : active_kept m m';
  cd_kept : List.filter has_windows_or_name (workspaces m') = List.filter has_windows_or_name (workspaces m);
  cd_wins : windows m' ≡ₚ windows m;
  cd_switch : workspace_switch m' = None;
  cd_options : options m' = options m;
  cd_prev : previous_workspace_id m' = previous_workspace_id m
}.

Lemma filter_none wss : Forall is_empty wss -> List.filter has_windows_or_name wss = [].
Proof. induction 1 as [|w wss Hw _ IH]; cbn; [done|]. by rewrite Hw. Qed.

Lemma clean_up_spec m :
  mon_core m -> workspace_switch m = None -> last_empty (workspaces m) ->
  (ewaf m = true -> first_empty (workspaces m)) ->
  exists m', clean_up_workspaces m = Ok m' /\ cleanup_done m m'.
Proof.
  intros Hc Hs Hl Hf. unfold clean_up_workspaces. rewrite Hs. cbn [rassert mbind res_bind].
  pose proof (last_nonempty _ Hl) as Hpos. fold (len m) in Hpos.
  unfold usub. rewrite decide_True by lia. cbn [mbind res_bind].
  set (a := if ewaf m then 1%nat else 0%nat).
  destruct (clean_loop_spec a (len m - 1 - a) m) as (m1 & -> & Hcl & Hp); [done|done|lia| |].
  { intros i w Hi Hlt. lia. }
  cbn [mbind res_bind]. destruct Hcl as [Hc1 Hlast Hhead Hact Hkept Hsub Hwins Hsw Hopt Hprev Hcnt].
  assert (Hew : ewaf m1 = ewaf m) by (unfold ewaf; by rewrite Hopt).
  assert (Hl1 : last_empty (workspaces m1)) by (destruct Hl as (w & ? & ?); exists w; by rewrite Hlast).
  assert (Hf1 : ewaf m1 = true -> first_empty (workspaces m1)).
  { intros He. rewrite Hew in He. destruct (Hf He) as (w & ? & ?). exists w. rewrite Hhead; [done|].
    unfold a. by rewrite He. }
  destruct (ewaf m1 && bool_decide (len m1 = 2%nat)) eqn:E2.
  - apply andb_true_iff in E2 as [He E2]. apply bool_decide_eq_true in E2.
    destruct (workspaces m1) as [|w0 [|w1 [|? ?]]] eqn:Ews; unfold len in E2; rewrite Ews in E2; try done.
    destruct (Hf1 He) as (? & [= <-] & Hs0). destruct Hl1 as (? & [= <-] & Hs1).
    destruct Hs0 as [H0 Ho0], Hs1 as [H1 _]. cbn. rewrite H0, H1. cbn.
    eexists. split; [done|].
    assert (Hw0 : wins [w0] ≡ₚ windows m).
    { rewrite <- Hwins. unfold windows. rewrite Ews. cbn. by rewrite (empty_wins w0), (empty_wins w1). }
    constructor; cbn; try done; [|..|congruence].
    + constructor; cbn; try done.
      * destruct Hc1. constructor; cbn; try done; rewrite ?Ews in *.
        -- unfold len; cbn; lia.
        -- by apply NoDup_singleton.
        -- by inversion mc_fresh0; constructor.
        -- by inversion mc_ws0; constructor.
        -- unfold windows; cbn. rewrite Hw0. apply (mc_wins _ Hc).
        -- rewrite Hsw, Hs. done.
      * by exists w0.
      * intros _. split; [by exists w0|done].
      * intros _ i w Hi Hlt. unfold len in Hlt; cbn in Hlt. lia.
    + right. rewrite <- Hew. split_and!; [done..|].
      rewrite <- Hact. pose proof (mc_active _ Hc1) as Hlt. unfold len in Hlt. rewrite Ews in Hlt. cbn in Hlt.
      destruct (active_workspace_idx m1) as [|[|?]]; [by exists w0|by exists w1|lia].
    + rewrite <- Hkept. cbn. by rewrite H0, H1.
  - exists m1. split; [done|]. constructor; try done; [|by left|congruence].
    constructor; try done.
    + intros He. split; [by apply Hf1|]. intros H2. rewrite He, H2 in E2. done.
    + intros _ i w Hi Hlt Hne Hia. apply (Hp i w); try done. unfold a. rewrite <- Hew.
      destruct (ewaf m1); [|lia]. specialize (Hne eq_refl). lia.
Qed.

(** ** States between the steps of an operation *)
Record semi_ok m : Prop := {
  so_core : mon_core m;
  so_last : last_empty (workspaces m);
  so_first : ewaf m = true -> first_empty (workspaces m) /\ len m <> 2%nat
}.

Lemma monitor_ok_semi m : monitor_ok m <-> semi_ok m /\ clean m.
Proof. split; [intros []; split; [constructor|]; done|intros [[] ?]; by constructor]. Qed.

Lemma last_is_empty m i w :
  last_empty (workspaces m) -> workspaces m !! i = Some w -> S i = len m -> spare w.
Proof.
  intros (x & Hx & He) Hi Hlen. rewrite last_lookup in Hx. unfold len in Hlen.
  replace (pred (length (workspaces m))) with i in Hx by lia. congruence.
Qed.

Lemma first_is_empty m w : first_empty (workspaces m) -> workspaces m !! 0%nat = Some w -> spare w.
Proof. intros (x & Hx & He) Hi. rewrite head_lookup in Hx. congruence. Qed.

(** Replacing a workspace by a version of itself. *)
Lemma replace_semi m i w w' :
  semi_ok m -> workspaces m !! i = Some w -> ws_id w' = ws_id w -> ws_ok w' ->
  NoDup (wins (<[i := w']> (workspaces m))) -> (spare w -> spare w') ->
  semi_ok (set_workspaces (<[i := w']> (workspaces m)) m).
Proof.
  intros [Hc Hl Hf] Hi Hid Hok Hnd He.
  assert (Hlt : (i < len m)%nat) by (by eapply lookup_lt_Some).
  constructor; [by eapply set_ws_core| |].
  - cbn. destruct (decide (S i = len m)) as [Heq|Hne].
    + exists w'. split; [|apply He; by eapply last_is_empty]. rewrite last_lookup, length_insert.
      unfold len in Heq. rewrite <- Heq. cbn. by apply list_lookup_insert_eq.
    + destruct Hl as (x & Hx & Hex). exists x. split; [|done]. rewrite last_lookup, length_insert.
      rewrite list_lookup_insert_ne; [by rewrite <- last_lookup|]. unfold len in *. lia.
  - intros Hew. destruct (Hf Hew) as [Hfe Hl2]. cbn. split; [|unfold len; cbn; by rewrite length_insert].
    destruct i as [|i].
    + exists w'. rewrite head_lookup. split; [by apply list_lookup_insert_eq|]. apply He. by eapply first_is_empty.
    + destruct Hfe as (x & Hx & Hex). exists x. split; [|done]. rewrite head_lookup in Hx |- *.
      by rewrite list_lookup_insert_ne.
Qed.

Lemma replace_clean m i w w' :
  workspaces m !! i = Some w -> clean m ->
  (has_windows_or_name w = true -> has_windows_or_name w' = true) \/ i = active_workspace_idx m ->
  clean (set_workspaces (<[i := w']> (workspaces m)) m).
Proof.
  intros Hi Hcl Hw Hs j x Hj Hlt Hne Ha. cbn in *. unfold len in Hlt; cbn in Hlt. rewrite length_insert in Hlt.
  apply list_lookup_insert_Some in Hj as [(-> & -> & _)|[Hij Hj]].
  - destruct Hw as [Hw| ->]; [|done]. apply Hw. by apply (Hcl Hs j w).
  - by apply (Hcl Hs j x).
Qed.

(** [w'] is [w] with the windows [wins']. *)
Abbreviation turns w wins' w' := (ws_turns ws_ok w wins' w').
Abbreviation becomes w wins' w' := (ws_becomes ws_ok w wins' w').

Lemma turns_id w ws' w' : turns w ws' w' -> ws_id w' = ws_id w.
Proof. by intros (? & _). Qed.
Lemma turns_ok w ws' w' : turns w ws' w' -> ws_ok w'.
Proof. by intros (_ & _ & _ & ?). Qed.
Lemma turns_wins w ws' w' : turns w ws' w' -> ws_windows w' ≡ₚ ws'.
Proof. by intros (_ & _ & ? & _). Qed.
Lemma turns_same_hwn w w' : turns w (ws_windows w) w' -> has_windows_or_name w' = has_windows_or_name w.
Proof.
  intros (_ & Hn & Hw & _). unfold has_windows_or_name, has_windows. rewrite Hn.
  destruct (ws_windows w) as [|x l]; [apply Permutation_nil_r in Hw; by rewrite Hw|].
  destruct (ws_windows w'); [by apply Permutation_nil_l in Hw|done].
Qed.
Lemma becomes_spare w w' : becomes w (ws_windows w) w' -> spare w -> spare w'.
Proof. intros [Ht Ho] [He Hh]. split; [unfold is_empty; by rewrite (turns_same_hwn _ _ Ht)|by rewrite Ho]. Qed.
Lemma turns_add_hwn w x l w' : turns w (x :: l) w' -> has_windows_or_name w' = true.
Proof.
  intros Hb. apply has_wins. intros Heq. apply turns_wins in Hb. rewrite Heq in Hb. by apply Permutation_nil_l in Hb.
Qed.
Lemma turns_trans w a w' b w'' : turns w a w' -> turns w' b w'' -> turns w b w''.
Proof. intros (? & ? & ? & ?) (? & ? & ? & ?). split_and!; congruence || done. Qed.
Lemma turns_same w a w' w'' : turns w a w' -> turns w' (ws_windows w') w'' -> turns w a w''.
Proof. intros (G1 & G2 & G3 & G4) (H1 & H2 & H3 & H4). split_and!; [congruence|congruence|by rewrite H3|done]. Qed.

Lemma adopt_turns m w ws' w' : turns w ws' w' -> turns w ws' (adopt m w').
Proof.
  intros Hb. unfold adopt. destruct (ws_name w'); [done|].
  eapply turns_same; [done|]. by apply ws_set_original_output_spec, (turns_ok _ _ _ Hb).
Qed.

(** The windows of a monitor after one workspace changed its windows. *)
Lemma wins_replace m i w ws' w' :
  workspaces m !! i = Some w -> turns w ws' w' ->
  wins (<[i := w']> (workspaces m)) ≡ₚ ws' ++ wins (delete i (workspaces m)).
Proof. intros Hi Hb. rewrite (wins_insert _ _ w) by done. by rewrite (turns_wins _ _ _ Hb). Qed.

(** ** Growing around a workspace that got a window *)
Lemma bind_assoc {A B C} (r : res A) (f : A -> res B) (g : B -> res C) :
  (x ← (y ← r; f y); g x) = (y ← r; x ← f y; g x).
Proof. by destruct r. Qed.

Lemma grow_then (bottom top : bool) idx m :
  mon_core m -> room m 2 ->
  (m ← (if bottom then add_workspace_bottom m else Ok m);
   if ewaf m && top then m ← add_workspace_top m; mret (S idx, m) else mret (idx, m))
  = (m' ← grow bottom (ewaf m && top) m; mret ((flag (ewaf m && top) + idx)%nat, m')).
Proof.
  intros Hc Hr. unfold grow. destruct Hr as (Hr1 & Hr0 & Hr2).
  assert (Hew : forall m1, (if bottom then add_workspace_bottom m else Ok m) = Ok m1 -> ewaf m1 = ewaf m).
  { destruct bottom; [|by intros ? [= <-]].
    destruct (add_workspace_at_spec m (len m)) as (m1 & w & He & _ & _ & _ & _ & _ & _ & Hf & _);
      [done|done|unfold room; lia|]. unfold add_workspace_bottom. rewrite He. intros ? [= <-]. by apply frame_ewaf. }
  destruct (if bottom then add_workspace_bottom m else Ok m) as [m1|]; [|done]. cbn [mbind res_bind].
  rewrite (Hew m1 eq_refl). destruct (ewaf m && top); [|done]. by destruct (add_workspace_top m1).
Qed.

Lemma ensure_grow idx m :
  mon_core m -> room m 2 -> (idx < len m)%nat ->
  ensure_empty_around idx m
  = (let top := ewaf m && bool_decide (idx = 0%nat) in
     m' ← grow (bool_decide (S idx = len m)) top m; mret ((flag top + idx)%nat, m')).
Proof.
  intros Hc Hr Hi. unfold ensure_empty_around, usub. rewrite decide_True by lia. cbn [mbind res_bind].
  rewrite <- grow_then by done. by rewrite (bool_decide_ext (idx = len m - 1)%nat (S idx = len m)) by lia.
Qed.

(** Workspace [idx], whose new version [w'] has windows or a name, has got the empty
    workspaces it needs around it. *)
Lemma settle_grown m idx w w' bottom top m' t b :
  semi_ok m -> workspaces m !! idx = Some w -> has_windows_or_name w' = true ->
  top = ewaf m && bool_decide (idx = 0%nat) -> bottom = bool_decide (S idx = len m) ->
  grown bottom top (set_workspaces (<[idx := w']> (workspaces m)) m) m' t b ->
  semi_ok m' /\ (clean_but idx m -> clean m') /\ windows m' ≡ₚ wins (<[idx := w']> (workspaces m))
    /\ workspaces m' !! (flag top + idx)%nat = Some w' /\ options m' = options m.
Proof.
  intros [Hc Hl Hf] Hi Hw' Htop Hbot Hg. assert (Hlt : (idx < len m)%nat) by (by eapply lookup_lt_Some).
  set (m1 := set_workspaces (<[idx := w']> (workspaces m)) m) in *.
  assert (Hlen1 : len m1 = len m) by (unfold len; cbn; by rewrite length_insert).
  assert (Hi1 : workspaces m1 !! idx = Some w') by (by apply list_lookup_insert_eq).
  pose proof (grown_len _ _ _ _ _ _ Hg) as Hlen'. rewrite Hlen1 in Hlen'.
  assert (Hew : ewaf m' = ewaf m) by (by rewrite (frame_ewaf _ _ (gr_frame _ _ _ _ _ _ Hg))).
  assert (Hat : workspaces m' !! (flag top + idx)%nat = Some w') by (rewrite (grown_lookup _ _ _ _ _ _ idx Hg); lia || done).
  split_and!; [|..|apply (gr_wins _ _ _ _ _ _ Hg)|done|by destruct (gr_frame _ _ _ _ _ _ Hg) as (-> & _)].
  - constructor; [apply (gr_core _ _ _ _ _ _ Hg)| |].
    + apply (grown_last _ _ _ _ _ _ Hg). rewrite Hbot. intros Hb%bool_decide_eq_false. cbn.
      destruct Hl as (x & Hx & Hex). exists x. split; [|done]. rewrite last_lookup, length_insert.
      rewrite list_lookup_insert_ne; [by rewrite <- last_lookup|]. unfold len in *. lia.
    + rewrite Hew. intros He. split.
      * apply (grown_first _ _ _ _ _ _ Hg). rewrite Htop, He. cbn. intros Hz%bool_decide_eq_false.
        destruct (Hf He) as [(x & Hx & Hex) _]. exists x. split; [|done]. rewrite head_lookup in Hx |- *. cbn.
        by rewrite list_lookup_insert_ne.
      * rewrite Hlen'. destruct (Hf He) as [_ Hl2]. rewrite Htop, Hbot, He. cbn [andb].
        repeat case_bool_decide; cbn [flag]; lia.
  - intros Hcl Hs i x Hx Hilt Hne Ha. rewrite Hew in Hne.
    assert (Hs1 : workspace_switch m = None) by (by apply (gr_frame _ _ _ _ _ _ Hg)).
    rewrite (gr_active _ _ _ _ _ _ Hg) in Ha. cbn in Ha.
    assert (Hti : (flag top <= i)%nat).
    { destruct top; cbn; [|lia]. symmetry in Htop. apply andb_true_iff in Htop as [Et _]. specialize (Hne Et). lia. }
    replace i with (flag top + (i - flag top))%nat in Hx by lia.
    destruct (decide (i - flag top = idx)%nat) as [Heq|Hni]; [rewrite Heq in Hx; congruence|].
    assert (Hin : (S (i - flag top) < len m)%nat).
    { rewrite Hlen' in Hilt. rewrite Hbot in Hilt. case_bool_decide; cbn in Hilt; lia. }
    rewrite (grown_lookup _ _ _ _ _ _ (i - flag top) Hg) in Hx by lia. cbn in Hx.
    rewrite list_lookup_insert_ne in Hx by done.
    apply (Hcl Hs1 _ _ Hx Hin); [|lia|done]. intros He. specialize (Hne He).
    rewrite He in Htop. cbn [andb] in Htop. clear -Htop Hti Hne Ha Hni Hlt. subst top. case_bool_decide; cbn in *; lia.
Qed.

(** A window was added to workspace [idx], whose new version is [w']. *)
Lemma settle m idx w w' :
  semi_ok m -> room m 2 -> workspaces m !! idx = Some w -> ws_id w' = ws_id w -> ws_ok w' ->
  has_windows_or_name w' = true -> NoDup (wins (<[idx := w']> (workspaces m))) ->
  exists idx' m', ensure_empty_around idx (set_workspaces (<[idx := w']> (workspaces m)) m) = Ok (idx', m')
    /\ semi_ok m' /\ (clean_but idx m -> clean m') /\ windows m' ≡ₚ wins (<[idx := w']> (workspaces m))
    /\ workspaces m' !! idx' = Some w' /\ options m' = options m.
Proof.
  intros Hs Hr Hi Hid Hok Hw' Hnd.
  assert (Hlt : (idx < len m)%nat) by (by eapply lookup_lt_Some).
  set (m1 := set_workspaces (<[idx := w']> (workspaces m)) m).
  assert (Hc1 : mon_core m1) by (eapply set_ws_core; try done; apply Hs).
  assert (Hlen1 : len m1 = len m) by (unfold len; cbn; by rewrite length_insert).
  assert (Hr1 : room m1 2) by (unfold room; rewrite Hlen1; exact Hr).
  rewrite ensure_grow by (done || lia). cbv zeta. change (ewaf m1) with (ewaf m). rewrite Hlen1.
  destruct (grow_spec (bool_decide (S idx = len m)) (ewaf m && bool_decide (idx = 0%nat)) m1 Hc1 Hr1) as (m' & t & b & -> & Hg).
  cbn [mbind res_bind mret res_ret]. eexists _, m'. split; [reflexivity|]. by eapply settle_grown.
Qed.

Lemma activated_semi cv idx m m' :
  semi_ok m -> activated cv idx m m' -> semi_ok m' /\ (clean m -> clean m') /\ windows m' = windows m.
Proof.
  intros [Hc Hl Hf] Ha. pose proof Ha as [Hws Hact _ Hopt Hcnt Hc' Hsw].
  assert (Hew : ewaf m' = ewaf m) by (unfold ewaf; by rewrite Hopt). split_and!; [| |unfold windows; by rewrite Hws].
  - constructor; [done|by rewrite Hws|]. rewrite Hew. unfold len. by rewrite Hws.
  - intros Hcl Hs. destruct (Hsw Hs) as [Hs0 ->]. unfold len. rewrite Hws, Hew, Hact. by apply Hcl.
Qed.

Lemma activate_semi cv idx m :
  semi_ok m -> cv_ok cv -> (idx < len m)%nat ->
  exists m', activate_workspace cv idx m = Ok m' /\ semi_ok m' /\ (clean m -> clean m')
    /\ windows m' = windows m /\ activated cv idx m m'.
Proof.
  intros Hs Hcv Hi. destruct (activate_spec cv idx m (so_core _ Hs) Hcv Hi) as (m' & -> & Ha).
  destruct (activated_semi cv idx m m' Hs Ha) as (? & ? & ?). by exists m'.
Qed.
End inv.
