(* ===== verification/MonitorOps.v ===== *)
(** * The operations of monitors preserve the invariant *)

From stdpp Require Import base numbers option list strings relations.
From Stdlib Require Import ZArith Lia.
From S2P Require Import Prelude.
From S2P Require Import F64.
From S2P Require Import Duration.
From S2P Require Import Clock.
From S2P Require Import Gesture.
From S2P Require Import Animation.
From S2P Require Import AnimTotal.
From S2P Require Import LayoutTypes.
From S2P Require Import Interface.
From S2P Require Import Monitor.
From S2P Require Import MonitorIds.
From S2P Require Import MonitorInv.

Local Open Scope Z_scope.
#[local] Arguments Nat.ltb : simpl never.
#[local] Arguments Nat.leb : simpl never.
Import Monitor.

Section ops.
Context {WO : WorkspaceOps} {LM : Libm} {KF : Keyframe} {WL : WorkspaceLaws} {SM : Smithay} {HM : Home}.
Implicit Types (m : Monitor) (w : WS) (wss : list WS) (i idx : nat) (cv : ClockView).

(** An operation turned [m] into [m'], taking in the windows [ins]. *)
Definition step_ok (ins : list Win) m m' : Prop :=
  semi_ok m' /\ (clean m -> clean m') /\ windows m' ≡ₚ ins ++ windows m /\ options m' = options m.

Lemma step_refl m : semi_ok m -> step_ok [] m m.
Proof. intros. unfold step_ok. by split_and!. Qed.

Lemma step_trans a b m1 m2 m3 : step_ok a m1 m2 -> step_ok b m2 m3 -> step_ok (b ++ a) m1 m3.
Proof.
  intros (? & ? & Hw1 & ?) (? & ? & Hw2 & ?). split_and!; auto; [|congruence].
  by rewrite Hw2, Hw1, app_assoc.
Qed.

Lemma activate_step cv idx m :
  semi_ok m -> cv_ok cv -> (idx < len m)%nat ->
  exists m', activate_workspace cv idx m = Ok m' /\ step_ok [] m m'.
Proof.
  intros Hs Hcv Hi. destruct (activate_semi cv idx m Hs Hcv Hi) as (m' & -> & Hs' & Hcl & Hw & Ha).
  exists m'. split; [done|]. split_and!; [done..|by rewrite Hw|apply (ac_options _ _ _ _ Ha)].
Qed.

(** The optional activation at the end of an operation. *)
Lemma maybe_activate_at cv (b : bool) idx m :
  semi_ok m -> cv_ok cv -> (idx < len m)%nat ->
  exists m', (if b then activate_workspace cv idx m else mret m) = Ok m' /\ step_ok [] m m' /\ workspaces m' = workspaces m.
Proof.
  intros Hs Hcv Hi. destruct b; [|exists m; split; [done|]; split; [by apply step_refl|done]].
  destruct (activate_semi cv idx m Hs Hcv Hi) as (m' & -> & Hs' & Hcl & Hw & Ha).
  exists m'. split; [done|]. split; [|apply Ha]. split_and!; [done..|by rewrite Hw|apply (ac_options _ _ _ _ Ha)].
Qed.
Lemma maybe_activate cv (b : bool) idx m :
  semi_ok m -> cv_ok cv -> (idx < len m)%nat ->
  exists m', (if b then activate_workspace cv idx m else mret m) = Ok m' /\ step_ok [] m m'.
Proof. intros Hs Hcv Hi. destruct (maybe_activate_at cv b idx m Hs Hcv Hi) as (m' & ? & ? & _). by exists m'. Qed.

(** A window is on the workspace with an id. *)
Definition on_workspace (id : Z) (x : Win) m : Prop := exists w, w ∈ workspaces m /\ ws_id w = id /\ x ∈ ws_windows w.

(** ** Adding windows *)
Lemma lookup_ws_ok m i w : semi_ok m -> workspaces m !! i = Some w -> ws_ok w.
Proof. intros [Hc _ _] Hi. eapply Forall_lookup_1; [apply (mc_ws _ Hc)|done]. Qed.

Lemma lookup_wins m i w x : workspaces m !! i = Some w -> x ∈ ws_windows w -> x ∈ windows m.
Proof. intros Hi Hx. apply list_elem_of_bind. exists w. split; [done|by eapply list_elem_of_lookup_2]. Qed.

(** Workspace [idx] takes in the windows [ins]: what [ensure_empty_around] then
    gives. *)
Lemma add_to_workspace m idx w w' ins :
  semi_ok m -> room m 2 -> workspaces m !! idx = Some w -> ws_turns ws_ok w (ins ++ ws_windows w) w' ->
  ins <> [] -> NoDup (ins ++ windows m) ->
  exists idx' m', ensure_empty_around idx (set_workspaces (<[idx := w']> (workspaces m)) m) = Ok (idx', m')
    /\ step_ok ins m m' /\ (clean_but idx m -> clean m') /\ workspaces m' !! idx' = Some w'.
Proof.
  intros Hs Hr Hi Hb Hins Hnd.
  assert (Hw : (<[idx := w']> (workspaces m) ≫= ws_windows) ≡ₚ ins ++ windows m).
  { rewrite (wins_replace m idx w) by done. unfold windows. rewrite (wins_at (workspaces m) idx w) by done.
    by rewrite app_assoc. }
  destruct (settle m idx w w') as (idx' & m' & He & Hs' & Hcl & Hw' & Hat & Ho); try done.
  - by apply turns_id in Hb.
  - by apply turns_ok in Hb.
  - destruct ins as [|x ins]; [done|]. by eapply turns_add_hwn.
  - by rewrite Hw.
  - exists idx', m'. split_and!; try done. split_and!; try done; [|by rewrite Hw']. intros Hm. by apply Hcl, clean_clean_but.
Qed.

Lemma update_ws_ok idx f m w w' :
  workspaces m !! idx = Some w -> f w = Ok w' ->
  update_ws idx f m = Ok (set_workspaces (<[idx := w']> (workspaces m)) m).
Proof. intros Hi Hf. unfold update_ws, index. rewrite Hi. cbn. by rewrite Hf. Qed.

Definition mon_target_ok (target : MonitorAddWindowTarget Win) m : Prop :=
  match target with
  | MonAuto => True
  | MonWorkspace id column_idx =>
      exists w, w ∈ workspaces m /\ ws_id w = id
        /\ match column_idx with Some c => (c <= length (ws_columns w))%nat | None => True end
  | MonNextTo x => x ∈ windows m
  end.

Lemma find_ids m i w :
  mon_core m -> workspaces m !! i = Some w -> find_workspace (ws_id w) m = Some i.
Proof.
  intros Hc Hi. unfold find_workspace. destruct (position _ _) as [j|] eqn:Ej.
  - apply position_Some in Ej as (x & Hx & Hid & _). apply Z.eqb_eq in Hid. f_equal.
    eapply (NoDup_lookup _ j i _ (mc_ids _ Hc)); rewrite list_lookup_fmap, ?Hx, ?Hi; cbn; [by rewrite Hid|done].
  - rewrite position_None in Ej. specialize (Ej w). rewrite Z.eqb_refl in Ej.
    discriminate Ej. by eapply list_elem_of_lookup_2.
Qed.

Lemma resolve_ok target m :
  semi_ok m -> mon_target_ok target m ->
  exists idx t w, resolve_add_window_target target m = Ok (idx, t) /\ workspaces m !! idx = Some w
    /\ target_ok t w.
Proof.
  intros Hs Ht. pose proof (so_core _ Hs) as Hc. destruct target as [|id c|x]; cbn in *.
  - destruct (lookup_lt_is_Some_2 (workspaces m) (active_workspace_idx m)) as [w Hw]; [apply (mc_active _ Hc)|].
    by exists (active_workspace_idx m), Auto, w.
  - destruct Ht as (w & Hin & <- & Hcol). apply list_elem_of_lookup in Hin as [i Hi].
    rewrite (find_ids m i w) by done. exists i. destruct c as [c|]; by eexists _, w.
  - apply list_elem_of_bind in Ht as (w & Hx & Hin).
    destruct (position (has_window x) (workspaces m)) as [j|] eqn:Ej.
    + apply position_Some in Ej as (w' & Hw' & Hh & _). exists j, (NextTo x), w'. split_and!; [done..|].
      by apply bool_decide_eq_true in Hh.
    + rewrite position_None in Ej. specialize (Ej w Hin). by apply bool_decide_eq_false in Ej.
Qed.

Lemma add_tile_resolved cv t target a allow width fw fl m idx tg w :
  semi_ok m -> room m 2 -> cv_ok cv -> tile_ok t -> resolve_add_window_target target m = Ok (idx, tg) ->
  workspaces m !! idx = Some w -> target_ok tg w -> tile_win t ∉ windows m ->
  exists m', add_tile cv t target a allow width fw fl m = Ok m' /\ step_ok [tile_win t] m m' /\ (clean_but idx m -> clean m')
    /\ on_workspace (ws_id w) (tile_win t) m'.
Proof.
  intros Hs Hr Hcv Htile Hres Hw Htg Hnew. pose proof (mc_wins _ (so_core _ Hs)) as Hnd. unfold add_tile.
  rewrite Hres. cbn [mbind res_bind].
  destruct (ws_add_tile_spec cv t tg a width fw fl w) as (w' & Ha & [Hb _]);
    [done|by eapply lookup_ws_ok|done|done|by intros Hin; apply Hnew; eapply lookup_wins|].
  rewrite (update_ws_ok idx _ m w (adopt m w')) by (done || by rewrite Ha). cbn [mbind res_bind].
  destruct (add_to_workspace m idx w (adopt m w') [tile_win t]) as (idx' & m' & -> & Hst & Hcl & Hat); try done.
  - by apply adopt_turns.
  - by apply NoDup_cons.
  - cbn [mbind res_bind].
    destruct (maybe_activate_at cv (allow && map_smart false a) idx' m') as (m2 & -> & Hst2 & Hws2); [apply Hst|done| |].
    + by eapply lookup_lt_Some.
    + exists m2. split; [done|]. split; [by apply (step_trans _ [] m m')|]. split; [intros Hm; by apply Hst2, Hcl|].
      apply (adopt_turns m) in Hb. exists (adopt m w'). rewrite Hws2. split_and!; [by eapply list_elem_of_lookup_2|by apply turns_id in Hb|].
      rewrite (turns_wins _ _ _ Hb). left.
Qed.
Lemma add_tile_spec cv t target a allow width fw fl m :
  semi_ok m -> room m 2 -> cv_ok cv -> tile_ok t -> mon_target_ok target m -> tile_win t ∉ windows m ->
  exists m', add_tile cv t target a allow width fw fl m = Ok m' /\ step_ok [tile_win t] m m'.
Proof.
  intros Hs Hr Hcv Htile Ht Hnew. destruct (resolve_ok target m Hs Ht) as (idx & tg & w & Hres & Hw & Htg).
  destruct (add_tile_resolved cv t target a allow width fw fl m idx tg w) as (m' & ? & ? & _); try done. by exists m'.
Qed.

Lemma add_column_spec cv idx c (activate : bool) m :
  semi_ok m -> room m 2 -> cv_ok cv -> (idx < len m)%nat -> column_ok c -> column_wins c <> [] -> NoDup (column_wins c ++ windows m) ->
  exists m', add_column cv idx c activate m = Ok m' /\ step_ok (column_wins c) m m'.
Proof.
  intros Hs Hr Hcv Hidx Hcol Hne Hnd. unfold add_column.
  destruct (lookup_lt_is_Some_2 (workspaces m) idx Hidx) as [w Hw].
  destruct (ws_add_column_spec cv c activate w) as (w' & Ha & [Hb _]); [done|by eapply lookup_ws_ok|done| |done|].
  { unfold windows in Hnd. rewrite (wins_at (workspaces m) idx w) in Hnd by done. rewrite app_assoc in Hnd.
    by apply NoDup_app in Hnd as [? _]. }
  rewrite (update_ws_ok idx _ m w (adopt m w')) by (done || by rewrite Ha). cbn [mbind res_bind].
  destruct (add_to_workspace m idx w (adopt m w') (column_wins c)) as (idx' & m' & -> & Hst & _ & Hat); try done.
  - by apply adopt_turns.
  - cbn [mbind res_bind]. destruct (maybe_activate cv activate idx' m') as (m2 & -> & Hst2); [apply Hst|done| |].
    + by eapply lookup_lt_Some.
    + exists m2. split; [done|]. by apply (step_trans _ [] m m').
Qed.

Lemma add_tile_to_column_at cv idx c (i : option nat) t (activate allow : bool) m w n :
  semi_ok m -> cv_ok cv -> tile_ok t -> workspaces m !! idx = Some w -> ws_columns w !! c = Some n -> (default n i <= n)%nat ->
  tile_win t ∉ windows m ->
  exists m', add_tile_to_column cv idx c i t activate allow m = Ok m' /\ step_ok [tile_win t] m m'
    /\ on_workspace (ws_id w) (tile_win t) m'.
Proof.
  intros Hs Hcv Htile Hw Hc Hn Hnew. pose proof (mc_wins _ (so_core _ Hs)) as Hnd. unfold add_tile_to_column.
  assert (Hok : ws_ok w) by (by eapply lookup_ws_ok).
  destruct (ws_add_tile_to_column_spec cv c i t activate w n) as (w' & Ha & [Hb _]);
    [done|done|done|by intros Hin; apply Hnew; eapply lookup_wins|done|done|].
  rewrite (update_ws_ok idx _ m w (adopt m w')) by (done || by rewrite Ha). cbn [mbind res_bind].
  apply (adopt_turns m) in Hb. set (w2 := adopt m w') in *.
  assert (Hw2 : (<[idx := w2]> (workspaces m) ≫= ws_windows) ≡ₚ tile_win t :: windows m).
  { rewrite (wins_replace m idx w) by done. unfold windows. by rewrite (wins_at (workspaces m) idx w) by done. }
  assert (Hst : step_ok [tile_win t] m (set_workspaces (<[idx := w2]> (workspaces m)) m)).
  { split_and!; [|..|done|done].
    - apply (replace_semi m idx w); [done..|by apply turns_id in Hb|by apply turns_ok in Hb| |].
      + rewrite Hw2. by apply NoDup_cons.
      + intros [He%empty_wins _]. by apply (ws_columns_spec w c n) in Hok.
    - intros Hcl. apply (replace_clean m idx w); [done..|]. left. intros _. by eapply turns_add_hwn. }
  destruct (maybe_activate_at cv (allow && activate) idx (set_workspaces (<[idx := w2]> (workspaces m)) m))
    as (m2 & -> & Hst2 & Hws2); [apply Hst|done| |].
  - unfold len; cbn. rewrite length_insert. by eapply lookup_lt_Some.
  - exists m2. split; [done|]. split; [by apply (step_trans _ _ _ _ _ Hst Hst2)|]. exists w2. rewrite Hws2.
    split_and!; [|by apply turns_id in Hb|rewrite (turns_wins _ _ _ Hb); left].
    apply (list_elem_of_lookup_2 _ idx), list_lookup_insert_eq. by eapply lookup_lt_Some.
Qed.
Lemma add_tile_to_column_spec cv idx c (i : option nat) t (activate allow : bool) m w n :
  semi_ok m -> cv_ok cv -> tile_ok t -> workspaces m !! idx = Some w -> ws_columns w !! c = Some n -> (default n i <= n)%nat ->
  tile_win t ∉ windows m ->
  exists m', add_tile_to_column cv idx c i t activate allow m = Ok m' /\ step_ok [tile_win t] m m'.
Proof. intros. destruct (add_tile_to_column_at cv idx c i t activate allow m w n) as (m' & ? & ? & _); try done. by exists m'. Qed.

(** ** Moving windows between workspaces *)

(** Taking the windows [outs] out of the non-empty workspace [idx]. *)
Lemma take_out m idx w w' outs rest :
  semi_ok m -> workspaces m !! idx = Some w -> ws_windows w ≡ₚ outs ++ rest -> outs <> [] ->
  ws_turns ws_ok w rest w' ->
  let m' := set_workspaces (<[idx := w']> (workspaces m)) m in
  semi_ok m' /\ (idx = active_workspace_idx m -> clean m -> clean m') /\ windows m ≡ₚ outs ++ windows m'.
Proof.
  intros Hs Hi Hw Hne Hb m'. pose proof (mc_wins _ (so_core _ Hs)) as Hnd.
  assert (Hwins : windows m ≡ₚ outs ++ windows m').
  { unfold windows at 2. cbn. rewrite (wins_replace m idx w) by done. unfold windows.
    rewrite (wins_at (workspaces m) idx w) by done. by rewrite Hw, app_assoc. }
  split_and!; [|intros -> Hcl; apply (replace_clean m _ w); auto|done].
  apply (replace_semi m idx w); [done..|by apply turns_id in Hb|by apply turns_ok in Hb| |].
  - rewrite Hwins in Hnd. by apply NoDup_app in Hnd as (_ & _ & ?).
  - intros [He%empty_wins _]. rewrite He in Hw. symmetry in Hw. apply Permutation_nil_r in Hw.
    by destruct outs.
Qed.

Lemma room_set_ws m idx w' : room m 2 -> room (set_workspaces (<[idx := w']> (workspaces m)) m) 2.
Proof. unfold room, len; cbn. by rewrite length_insert. Qed.

(** The target of a move is still there after the source lost a window. *)
Lemma target_after m idx w' j tw w :
  workspaces m !! idx = Some w -> ws_id w' = ws_id w -> workspaces m !! j = Some tw ->
  mon_target_ok (MonWorkspace (ws_id tw) None) (set_workspaces (<[idx := w']> (workspaces m)) m).
Proof.
  intros Hi Hid Hj. cbn. destruct (decide (idx = j)) as [->|Hne].
  - exists w'. split_and!; [|congruence|done]. eapply list_elem_of_lookup_2, list_lookup_insert_eq.
    by eapply lookup_lt_Some.
  - exists tw. split_and!; [|done..]. apply (list_elem_of_lookup_2 _ j). by rewrite list_lookup_insert_ne.
Qed.

(** A tile taken out of workspace [source] is added to the workspace of [tw]. *)
Lemma move_tile cv m source w w' j tw (r : RemovedTile Tile) rest a :
  semi_ok m -> room m 2 -> cv_ok cv -> tile_ok (rt_tile r) -> workspaces m !! source = Some w -> workspaces m !! j = Some tw ->
  ws_windows w ≡ₚ tile_win (rt_tile r) :: rest -> ws_turns ws_ok w rest w' ->
  exists m', add_tile cv (rt_tile r) (MonWorkspace (ws_id tw) None) a true (rt_width r) (rt_is_full_width r)
      (rt_is_floating r) (set_workspaces (<[source := w']> (workspaces m)) m) = Ok m'
    /\ semi_ok m' /\ (source = active_workspace_idx m -> clean m -> clean m') /\ windows m' ≡ₚ windows m
    /\ options m' = options m.
Proof.
  intros Hs Hr Hcv Htile Hw Hj Hwin Hb.
  destruct (take_out m source w w' [tile_win (rt_tile r)] rest) as (Hs1 & Hcl1 & Hw1); [done..|].
  destruct (add_tile_spec cv (rt_tile r) (MonWorkspace (ws_id tw) None) a true (rt_width r) (rt_is_full_width r)
    (rt_is_floating r) (set_workspaces (<[source := w']> (workspaces m)) m)) as (m' & -> & Hst);
    [done|by apply room_set_ws|done|done|eapply target_after; [done|by apply turns_id in Hb|done]| |].
  - pose proof (mc_wins _ (so_core _ Hs)) as Hnd. rewrite Hw1 in Hnd. cbn in Hnd. by apply NoDup_cons in Hnd as [? _].
  - exists m'. destruct Hst as (Hs' & Hcl & Hw' & Ho). split_and!; [done|done|auto| |exact Ho].
    rewrite Hw'. by symmetry.
Qed.

(** [step_ok] for an operation that neither takes in nor gives out windows. *)
Abbreviation keeps m r := (exists m', r = Ok m' /\ step_ok [] m m').

Lemma keeps_refl m : semi_ok m -> keeps m (mret m).
Proof. intros. exists m. split; [done|by apply step_refl]. Qed.

Lemma active_lookup m : semi_ok m -> exists w, workspaces m !! active_workspace_idx m = Some w.
Proof. intros [Hc _ _]. apply lookup_lt_is_Some_2, (mc_active _ Hc). Qed.

Lemma move_active_tile_keeps cv j focus m :
  semi_ok m -> room m 2 -> cv_ok cv -> (j < len m)%nat -> keeps m (move_active_tile_to cv j focus m).
Proof.
  intros Hs Hr Hcv Hj. unfold move_active_tile_to. case_bool_decide; [by apply keeps_refl|].
  destruct (lookup_lt_is_Some_2 (workspaces m) j Hj) as [tw Htw]. destruct (active_lookup m Hs) as [w Hw].
  unfold index. rewrite Htw, Hw. cbn [unwrap mbind res_bind].
  destruct (ws_remove_active_tile_spec cv w) as (o & -> & Ho); [done|by eapply lookup_ws_ok|]. cbn [mbind res_bind].
  destruct o as [[r w']|]; [|by apply keeps_refl]. destruct Ho as (Htile & rest & Hwin & [Hb _]).
  destruct (move_tile cv m (active_workspace_idx m) w w' j tw r rest (activate_for focus)) as (m' & -> & Hs' & Hcl & Hw' & Ho); try done.
  exists m'. split; [done|]. split_and!; [done|by apply Hcl|done|done].
Qed.

Lemma len_pos m : semi_ok m -> (1 <= len m)%nat.
Proof. intros [_ Hl _]. by apply last_nonempty. Qed.

Lemma usub_len m : semi_ok m -> usub (len m) 1 = Ok (len m - 1)%nat.
Proof. intros Hs. pose proof (len_pos m Hs). unfold usub. by rewrite decide_True by lia. Qed.

Lemma active_lt m : semi_ok m -> (active_workspace_idx m < len m)%nat.
Proof. intros [Hc _ _]. apply (mc_active _ Hc). Qed.

Lemma move_up_keeps cv focus m :
  semi_ok m -> room m 2 -> cv_ok cv -> keeps m (move_to_workspace_up cv focus m).
Proof. intros Hs Hr Hcv. apply move_active_tile_keeps; try done. pose proof (active_lt m Hs). lia. Qed.

Lemma move_down_keeps cv focus m :
  semi_ok m -> room m 2 -> cv_ok cv -> keeps m (move_to_workspace_down cv focus m).
Proof.
  intros Hs Hr Hcv. unfold move_to_workspace_down. rewrite usub_len by done. cbn [mbind res_bind].
  apply move_active_tile_keeps; try done. pose proof (len_pos m Hs). lia.
Qed.

(** Cleaning up when no switch is in progress makes the monitor clean. *)
Lemma clean_up_if_idle_spec m :
  semi_ok m -> exists m', clean_up_if_idle m = Ok m' /\ monitor_ok m' /\ windows m' ≡ₚ windows m
    /\ options m' = options m.
Proof.
  intros Hs. unfold clean_up_if_idle. destruct (workspace_switch m) as [s|] eqn:Es.
  - exists m. split_and!; try done. apply monitor_ok_semi. split; [done|]. intros H. congruence.
  - destruct Hs as [Hc Hl Hf]. destruct (clean_up_spec m) as (m' & -> & [Hok _ _ Hw _ Ho _]); try done.
    { intros He. by apply Hf. } by exists m'.
Qed.

Lemma clean_step_ok ins m m' :
  monitor_ok m' -> windows m' ≡ₚ ins ++ windows m -> options m' = options m -> step_ok ins m m'.
Proof. intros [? ?]%monitor_ok_semi ? ?. by split_and!. Qed.

Lemma move_to_workspace_keeps cv win idx a m :
  semi_ok m -> room m 2 -> cv_ok cv -> (forall x, win = Some x -> x ∈ windows m) ->
  keeps m (move_to_workspace cv win idx a m).
Proof.
  intros Hs Hr Hcv Hwin. unfold move_to_workspace.
  assert (Hsrc : exists source w, match win with
      | Some x => unwrap (position (has_window x) (workspaces m)) | None => mret (active_workspace_idx m) end = Ok source
    /\ workspaces m !! source = Some w /\ forall x, win = Some x -> x ∈ ws_windows w).
  { destruct win as [x|]; [|destruct (active_lookup m Hs) as [w Hw]; by exists (active_workspace_idx m), w].
    pose proof (Hwin x eq_refl) as (w & Hx & Hin)%list_elem_of_bind.
    destruct (position (has_window x) (workspaces m)) as [j|] eqn:Ej.
    - apply position_Some in Ej as (w' & Hw' & Hh & _). exists j, w'. split_and!; [done..|].
      intros ? [= <-]. by apply bool_decide_eq_true in Hh.
    - rewrite position_None in Ej. specialize (Ej w Hin). by apply bool_decide_eq_false in Ej. }
  destruct Hsrc as (source & w & -> & Hw & Hxw). cbn [mbind res_bind]. rewrite usub_len by done. cbn [mbind res_bind].
  case_bool_decide as Hne; [by apply keeps_refl|].
  assert (Hlt : (idx `min` (len m - 1) < len m)%nat) by (pose proof (len_pos m Hs); lia).
  destruct (lookup_lt_is_Some_2 (workspaces m) _ Hlt) as [tw Htw]. unfold index. rewrite Htw. cbn [unwrap mbind res_bind].
  assert (Hact : exists b : bool, match a, win with
      | Yes, _ => mret true | No, _ => mret false | Smart, None => mret true
      | Smart, Some x => active ← active_workspace m; o ← ws_active_window active; mret (bool_decide (o = Some x)) end = Ok b).
  { destruct (active_lookup m Hs) as [wa Hwa]. unfold active_workspace, index. rewrite Hwa. cbn.
    destruct (ws_active_window_spec wa) as (o & ->); [by eapply lookup_ws_ok|]. destruct a, win; by eexists. }
  destruct Hact as [b ->]. cbn [mbind res_bind]. rewrite Hw. cbn [unwrap mbind res_bind].
  assert (Hok : ws_ok w) by (by eapply lookup_ws_ok).
  assert (Hrem : exists o, match win with
      | Some x => rw ← ws_remove_tile cv x w; mret (Some rw) | None => ws_remove_active_tile cv w end = Ok o
    /\ match o with None => True | Some (r, w') => tile_ok (rt_tile r) /\ exists rest, ws_windows w ≡ₚ tile_win (rt_tile r) :: rest
         /\ ws_becomes ws_ok w rest w' end).
  { destruct win as [x|]; [|by apply ws_remove_active_tile_spec].
    destruct (ws_remove_tile_spec cv x w) as (r & w' & rest & -> & <- & Htile & Hp & Hb); [done|done|by apply Hxw|].
    exists (Some (r, w')). split; [done|]. split; [done|]. by exists rest. }
  destruct Hrem as (o & -> & Ho). cbn [mbind res_bind]. destruct o as [[r w']|]; [|by apply keeps_refl].
  destruct Ho as (Htile & rest & Hwin' & [Hb _]).
  destruct (move_tile cv m source w w' (idx `min` (len m - 1))%nat tw r rest (if b then Yes else No)) as (m' & -> & Hs' & _ & Hw' & Ho'); try done.
  cbn [mbind res_bind]. destruct (clean_up_if_idle_spec m' Hs') as (m2 & -> & Hok2 & Hw2 & Ho2).
  exists m2. split; [done|]. apply clean_step_ok; [done|by rewrite Hw2, Hw'|congruence].
Qed.

(** ** Moving columns *)
Lemma move_active_column_keeps cv j (activate : bool) floating m :
  semi_ok m -> room m 2 -> cv_ok cv -> (j < len m)%nat -> keeps m (floating m) ->
  keeps m (move_active_column_to cv j activate floating m).
Proof.
  intros Hs Hr Hcv Hj Hfl. unfold move_active_column_to. case_bool_decide; [by apply keeps_refl|].
  destruct (active_lookup m Hs) as [w Hw]. unfold index. rewrite Hw. cbn [unwrap mbind res_bind].
  destruct (ws_floating_is_active w); [done|].
  destruct (ws_remove_active_column_spec cv w) as (o & -> & Ho); [done|by eapply lookup_ws_ok|]. cbn [mbind res_bind].
  destruct o as [[c w']|]; [|by apply keeps_refl]. destruct Ho as (Hcol & rest & Hwin & Hne & [Hb _]).
  destruct (take_out m _ w w' (column_wins c) rest Hs Hw Hwin Hne Hb) as (Hs1 & Hcl1 & Hw1).
  destruct (add_column_spec cv j c activate (set_workspaces (<[active_workspace_idx m := w']> (workspaces m)) m))
    as (m' & -> & Hs' & Hcl & Hw' & Ho); try done.
  - by apply room_set_ws.
  - unfold len; cbn. by rewrite length_insert.
  - rewrite <- Hw1. apply (mc_wins _ (so_core _ Hs)).
  - exists m'. split; [done|]. split_and!; [done|auto|by rewrite Hw'; symmetry|exact Ho].
Qed.

(** ** Operations on the active workspace first *)
Lemma on_active_keeps f otherwise m :
  semi_ok m ->
  (forall w, ws_ok w -> exists b w', f w = Ok (b, w') /\ ws_becomes ws_ok w (ws_windows w) w') ->
  (forall m', semi_ok m' -> len m' = len m -> id_counter m' = id_counter m -> keeps m' (otherwise m')) ->
  keeps m (on_active f otherwise m).
Proof.
  intros Hs Hf Ho. unfold on_active, active_workspace, index.
  destruct (active_lookup m Hs) as [w Hw]. rewrite Hw. cbn [unwrap mbind res_bind].
  destruct (Hf w) as (b & w' & -> & Hb); [by eapply lookup_ws_ok|]. cbn [mbind res_bind].
  set (m1 := set_workspaces _ m).
  assert (Hst : step_ok [] m m1).
  { assert (Hwins : windows m1 ≡ₚ windows m).
    { unfold windows at 1, m1. cbn. rewrite (wins_replace m _ w (ws_windows w)) by (done || apply Hb). unfold windows.
      by rewrite (wins_at (workspaces m) _ w) by done. }
    split_and!; [| |done|done].
    - apply (replace_semi m _ w); [done..|by destruct Hb as [Ht%turns_id _]|by destruct Hb as [Ht%turns_ok _]| |].
      + change (NoDup (windows m1)). rewrite Hwins. apply (mc_wins _ (so_core _ Hs)).
      + by apply becomes_spare.
    - intros Hcl. apply (replace_clean m _ w); auto. }
  destruct b; [by exists m1|].
  destruct (Ho m1) as (m2 & -> & Hst2); [apply Hst|unfold len, m1; cbn; by rewrite length_insert|done|].
  exists m2. split; [done|]. by apply (step_trans _ _ _ _ _ Hst Hst2).
Qed.

(** ** Switching *)
Lemma switch_to_keeps cv idx m :
  semi_ok m -> cv_ok cv -> (idx < len m)%nat -> keeps m (activate_workspace cv idx m).
Proof. apply activate_step. Qed.

Lemma clamp_index x lo hi :
  (lo <= hi)%nat -> Z.of_nat hi < 2 ^ 53 ->
  exists y, fclamp x (of_nat lo) (of_nat hi) = Ok y /\ (as_usize y <= hi)%nat /\ (as_usize (fround y) <= hi)%nat.
Proof.
  intros Hn Hb. pose proof (fleb_of_nat lo hi Hb Hn) as Hle.
  destruct (fclamp_ok x _ _ Hle) as [y Hy]. exists y. split; [done|].
  assert (Hy' : is_nan y = true \/ fleb y (of_nat hi) = true).
  { destruct (fclamp_bounds _ _ _ _ Hy) as [[? ->]|[_ ?]]; auto. }
  split; [by apply as_usize_le|by apply as_usize_round_le].
Qed.

Lemma room_len m k : room m k -> Z.of_nat (len m) < 2 ^ 53.
Proof. intros (_ & _ & ?). lia. Qed.

Lemma switch_up_keeps cv m : semi_ok m -> room m 0 -> cv_ok cv -> keeps m (switch_workspace_up cv m).
Proof.
  intros Hs Hr%room_len Hcv. unfold switch_workspace_up. pose proof (active_lt m Hs) as Ha. pose proof (len_pos m Hs).
  assert (Hplain : keeps m (activate_workspace cv (active_workspace_idx m - 1)%nat m))
    by (apply switch_to_keeps; [done..|lia]).
  destruct (workspace_switch m) as [[a|g]|]; cbn [mbind res_bind mret res_ret]; try done.
  destruct (Switch.is_dnd g); cbn [mbind res_bind mret res_ret]; [|done]. rewrite usub_len by done. cbn [mbind res_bind].
  change f0 with (of_nat 0) at 1.
  destruct (clamp_index (fceil (Switch.g_current_idx g) - f1)%F 0 (len m - 1)) as (y & -> & Hy & _); [lia..|].
  cbn [mbind res_bind mret res_ret]. apply switch_to_keeps; [done..|lia].
Qed.

Lemma switch_down_keeps cv m : semi_ok m -> room m 0 -> cv_ok cv -> keeps m (switch_workspace_down cv m).
Proof.
  intros Hs Hr%room_len Hcv. unfold switch_workspace_down. pose proof (active_lt m Hs) as Ha. pose proof (len_pos m Hs).
  rewrite usub_len by done. cbn [mbind res_bind].
  assert (Hplain : keeps m (activate_workspace cv ((active_workspace_idx m + 1) `min` (len m - 1))%nat m))
    by (apply switch_to_keeps; [done..|lia]).
  destruct (workspace_switch m) as [[a|g]|]; cbn [mbind res_bind mret res_ret]; try done.
  destruct (Switch.is_dnd g); cbn [mbind res_bind mret res_ret]; [|done].
  change f0 with (of_nat 0) at 1.
  destruct (clamp_index (ffloor (Switch.g_current_idx g) + f1)%F 0 (len m - 1)) as (y & -> & Hy & _); [lia..|].
  cbn [mbind res_bind mret res_ret]. apply switch_to_keeps; [done..|lia].
Qed.

Lemma switch_keeps cv idx m : semi_ok m -> cv_ok cv -> keeps m (switch_workspace cv idx m).
Proof.
  intros Hs Hcv. unfold switch_workspace. rewrite usub_len by done. cbn [mbind res_bind].
  apply switch_to_keeps; [done..|]. pose proof (len_pos m Hs). lia.
Qed.

Lemma switch_back_keeps cv idx m : semi_ok m -> cv_ok cv -> keeps m (switch_workspace_auto_back_and_forth cv idx m).
Proof.
  intros Hs Hcv. unfold switch_workspace_auto_back_and_forth. rewrite usub_len by done. cbn [mbind res_bind].
  case_bool_decide; [|by apply switch_keeps]. destruct (previous_workspace_idx m); [by apply switch_keeps|by apply keeps_refl].
Qed.

Lemma switch_previous_keeps cv m : semi_ok m -> cv_ok cv -> keeps m (switch_workspace_previous cv m).
Proof.
  intros Hs Hcv. unfold switch_workspace_previous.
  destruct (previous_workspace_idx m); [by apply switch_keeps|by apply keeps_refl].
Qed.

(** ** Whole-monitor operations that end clean *)

(** A state that only needs cleaning up. *)
Lemma finish m m0 ins :
  mon_core m -> last_empty (workspaces m) -> (ewaf m = true -> first_empty (workspaces m)) ->
  windows m ≡ₚ ins ++ windows m0 -> options m = options m0 ->
  exists m', clean_up_workspaces (set_switch None m) = Ok m' /\ step_ok ins m0 m' /\ cleanup_done (set_switch None m) m'.
Proof.
  intros Hc Hl Hf Hw Ho. destruct (clean_up_spec (set_switch None m)) as (m' & -> & Hd); [by apply set_switch_core|done..|].
  exists m'. split_and!; [done| |done]. destruct Hd as [Hok _ _ Hw' _ Ho' _].
  apply clean_step_ok; [done|by rewrite Hw'|]. by rewrite Ho'.
Qed.

Lemma unname_keeps id m :
  semi_ok m -> exists b m', unname_workspace id m = Ok (b, m') /\ step_ok [] m m'.
Proof.
  intros Hs. unfold unname_workspace. destruct (find_workspace id m) as [i|] eqn:Ei;
    [|exists false, m; split; [done|by apply step_refl]].
  apply position_Some in Ei as (w & Hw & _ & _).
  rewrite (update_ws_ok i _ m w (ws_unname w)) by done. cbn [mbind res_bind].
  destruct (ws_unname_spec w) as (H1 & H2 & H3 & H4 & H5); [by eapply lookup_ws_ok|].
  set (m1 := set_workspaces _ m).
  assert (Hwins : windows m1 ≡ₚ windows m).
  { unfold windows, m1; cbn. rewrite (wins_insert _ _ w) by done.
    rewrite (wins_at (workspaces m) i w) by done. by rewrite H3. }
  assert (Hs1 : semi_ok m1).
  { apply (replace_semi m i w); [done..| |].
    - change (NoDup (windows m1)). rewrite Hwins. apply (mc_wins _ (so_core _ Hs)).
    - intros [He Ho]. split; [|by rewrite H5]. unfold is_empty, has_windows_or_name, has_windows in *.
      rewrite H2, H3. by destruct (ws_windows w). }
  destruct (clean_up_if_idle_spec m1 Hs1) as (m2 & -> & Hok & Hw2 & Ho2). cbn.
  exists true, m2. split; [done|]. apply clean_step_ok; [done|by rewrite Hw2|done].
Qed.

(** ** Lists of workspaces with the same contents *)

(** Any list of workspaces with unique ids below the counter and the right
    windows can take the place of the old one. *)
Lemma set_lists_core m wss a :
  mon_core m -> (a < length wss)%nat -> NoDup (ws_id <$> wss) ->
  Forall (fun w => ws_id w < id_counter m) wss -> Forall ws_ok wss -> NoDup (wss ≫= ws_windows) ->
  switch_ok (length wss) (workspace_switch m) ->
  mon_core (set_lists wss a m).
Proof. intros []. by constructor. Qed.

Lemma perm_core m wss a :
  mon_core m -> wss ≡ₚ workspaces m -> (a < len m)%nat -> mon_core (set_lists wss a m).
Proof.
  intros Hc Hp Ha. assert (Hl : length wss = len m) by (by rewrite Hp).
  destruct Hc. apply set_lists_core; [by constructor|by rewrite Hl|by rewrite Hp|by rewrite Hp|by rewrite Hp| |by rewrite Hl].
  by rewrite Hp.
Qed.

Lemma delete_core m k w a :
  mon_core m -> workspaces m !! k = Some w -> (S a < len m)%nat ->
  mon_core (set_switch None (set_lists (delete k (workspaces m)) a m))
  /\ windows m ≡ₚ ws_windows w ++ (delete k (workspaces m) ≫= ws_windows).
Proof.
  intros Hc Hw Ha. pose proof (delete_perm k w _ Hw) as Hp. split; [|by apply wins_at].
  assert (Hl : length (delete k (workspaces m)) = (len m - 1)%nat) by (apply length_delete; eauto).
  destruct Hc. constructor; cbn; try done.
  - unfold len; cbn. rewrite Hl. lia.
  - rewrite Hp in mc_ids. by apply NoDup_cons in mc_ids as [_ ?].
  - rewrite Hp in mc_fresh. by apply Forall_cons in mc_fresh as [_ ?].
  - rewrite Hp in mc_ws. by apply Forall_cons in mc_ws as [_ ?].
  - unfold windows in *; cbn. rewrite (wins_at _ k w Hw) in mc_wins. by apply NoDup_app in mc_wins as (_ & _ & ?).
Qed.

Lemma insert_core m k w a :
  mon_core m -> (k <= len m)%nat -> (a <= len m)%nat -> ws_ok w -> ws_id w < id_counter m ->
  ws_id w ∉ ws_id <$> workspaces m -> NoDup (ws_windows w ++ windows m) ->
  mon_core (set_lists (insert_at k w (workspaces m)) a m).
Proof.
  intros Hc Hk Ha Hok Hid Hnew Hnd. destruct Hc. pose proof (insert_at_perm k w (workspaces m)) as Hp.
  assert (Hl : length (insert_at k w (workspaces m)) = S (len m)) by (by apply length_insert_at).
  apply set_lists_core; [by constructor|lia| | | | |].
  - rewrite Hp. by apply NoDup_cons.
  - rewrite Hp. by constructor.
  - rewrite Hp. by constructor.
  - by rewrite Hp.
  - rewrite Hl. eapply switch_ok_mono; [|done]. lia.
Qed.

Lemma last_delete wss k : (S k < length wss)%nat -> last (delete k wss) = last wss.
Proof.
  intros Hk. destruct (lookup_lt_is_Some_2 wss k) as [w Hw]; [lia|].
  rewrite !last_lookup, length_delete by eauto. rewrite lookup_delete_at_ge by lia. f_equal. lia.
Qed.
Lemma head_delete wss k : (0 < k)%nat -> head (delete k wss) = head wss.
Proof. intros Hk. rewrite !head_lookup. by apply lookup_delete_at_lt. Qed.
Lemma last_insert_at wss k w : (k < length wss)%nat -> last (insert_at k w wss) = last wss.
Proof.
  intros Hk. rewrite !last_lookup, length_insert_at by lia.
  replace (pred (S (length wss))) with (S (pred (length wss))) by lia. apply lookup_insert_at_gt; lia.
Qed.
Lemma head_insert_at wss k w : (0 < k <= length wss)%nat -> head (insert_at k w wss) = head wss.
Proof. intros Hk. rewrite !head_lookup. apply lookup_insert_at_lt; lia. Qed.

Lemma last_empty_ext wss wss' : last wss' = last wss -> last_empty wss -> last_empty wss'.
Proof. unfold last_empty. by intros ->. Qed.
Lemma first_empty_ext wss wss' : head wss' = head wss -> first_empty wss -> first_empty wss'.
Proof. unfold first_empty. by intros ->. Qed.

(** ** Removing a workspace *)
Lemma remove_workspace_spec cv idx m :
  semi_ok m -> room m 2 -> cv_ok cv -> (idx < len m)%nat ->
  exists w w' m', remove_workspace_by_idx cv idx m = Ok (w', m') /\ workspaces m !! idx = Some w
    /\ ws_turns ws_ok w (ws_windows w) w' /\ monitor_ok m'
    /\ windows m ≡ₚ ws_windows w' ++ windows m' /\ options m' = options m
    /\ (ws_id w' ∉ ws_id <$> workspaces m').
Proof.
  intros Hs Hr Hcv Hi. pose proof Hs as [Hc Hl Hf]. unfold remove_workspace_by_idx. rewrite ensure_grow by done. cbv zeta.
  set (top := ewaf m && bool_decide (idx = 0%nat)). set (bottom := bool_decide (S idx = len m)).
  destruct (grow_spec bottom top m Hc Hr) as (m1 & t & b & -> & Hg). cbn [mbind res_bind mret res_ret].
  pose proof (grown_len _ _ _ _ _ _ Hg) as Hlen. pose proof (gr_active _ _ _ _ _ _ Hg) as Hact.
  pose proof (frame_ewaf _ _ (gr_frame _ _ _ _ _ _ Hg)) as Hew.
  destruct (lookup_lt_is_Some_2 (workspaces m) idx Hi) as [w Hw].
  pose proof (grown_lookup _ _ _ _ _ _ idx Hg Hi) as Hw1. rewrite Hw in Hw1.
  rewrite (vec_remove_ok _ w) by done. cbn [mbind res_bind].
  destruct (ws_set_output_spec cv None w) as (w' & -> & Hb & _); [done|by eapply lookup_ws_ok|]. cbn [mbind res_bind].
  set (k := (flag top + idx)%nat) in *. set (act := active_workspace_idx m1) in *.
  set (a := (if (k <=? act)%nat && (0 <? act)%nat then act - 1 else act)%nat).
  pose proof (active_lt m Hs) as Ham.
  assert (Hk : (S k < len m1)%nat) by (rewrite Hlen; unfold k, bottom; case_bool_decide; cbn [flag]; lia).
  assert (Ha : (S a < len m1)%nat).
  { unfold a. destruct (Nat.leb_spec k act), (Nat.ltb_spec 0 act); cbn [andb]; lia. }
  destruct (delete_core m1 k w a (gr_core _ _ _ _ _ _ Hg) Hw1 Ha) as [Hc2 Hwin2].
  destruct (clean_up_spec _ Hc2 eq_refl) as (m' & He & Hd).
  - cbn. eapply last_empty_ext; [by apply last_delete|]. apply (grown_last _ _ _ _ _ _ Hg). done.
  - cbn. intros Hew2. change (ewaf m1 = true) in Hew2. rewrite Hew in Hew2.
    eapply first_empty_ext; [apply head_delete|apply (grown_first _ _ _ _ _ _ Hg); intros _; by apply Hf].
    unfold k, top. rewrite Hew2. case_bool_decide; cbn; lia.
  - rewrite He. cbn. exists w, w', m'. split_and!; [done..|apply Hd| | |].
    + rewrite (cd_wins _ _ Hd). unfold windows at 2. cbn. rewrite (turns_wins _ _ _ Hb), <- Hwin2.
      symmetry. apply (gr_wins _ _ _ _ _ _ Hg).
    + rewrite (cd_options _ _ Hd). cbn. by destruct (gr_frame _ _ _ _ _ _ Hg) as (-> & _).
    + rewrite (turns_id _ _ _ Hb). intros Hin. pose proof (clean_up_ev _ _ He) as Hev. destruct Hr as (Hr1 & Hr2 & _).
      destruct (gr_ids _ _ _ _ _ _ Hg) as [_ Hcnt]. pose proof (gr_counter _ _ _ _ _ _ Hg) as Hgc.
      assert (Hc1 : 0 <= id_counter m1 /\ id_counter m1 < 2 ^ 64) by (destruct bottom, top; lia).
      pose proof (delete_perm k w _ Hw1) as Hp1. pose proof (mc_ids _ (gr_core _ _ _ _ _ _ Hg)) as Hnd1.
      rewrite Hp1 in Hnd1. apply NoDup_cons in Hnd1 as [Hnin _].
      destruct (ev_ids _ _ _ _ Hev ltac:(cbn; lia) ltac:(cbn; lia) _ Hin) as [Hn|[Hn|Hge]]; [by inversion Hn|done|].
      cbn in Hge. pose proof (mc_fresh _ Hc) as Hfr. pose proof (Forall_lookup_1 _ _ _ _ Hfr Hw) as Hlt. cbn in Hlt. lia.
Qed.

(** ** Inserting a workspace *)
Definition insertable w m : Prop :=
  ws_ok w /\ ws_id w < id_counter m /\ (ws_id w ∉ ws_id <$> workspaces m) /\ NoDup (ws_windows w ++ windows m).

Lemma set_output_update_config cv o opts w :
  cv_ok cv -> opts_ok opts -> ws_ok w -> exists w', (w ← ws_set_output cv o w; ws_update_config cv opts w) = Ok w'
    /\ ws_turns ws_ok w (ws_windows w) w'
    /\ (ws_original_output w' = ws_original_output w
        \/ exists o', o = Some o' /\ output_matches (ws_original_output w) o' = true
            /\ ws_original_output w' = output_id o').
Proof.
  intros Hcv Hopts Hok. destruct (ws_set_output_spec cv o w Hcv Hok) as (w1 & -> & Hb1 & Ho1). cbn [mbind res_bind].
  destruct (ws_update_config_spec cv opts w1 Hcv Hopts (turns_ok _ _ _ Hb1)) as (w2 & -> & Hb2 & Ho2).
  exists w2. rewrite Ho2. split_and!; [done|by eapply turns_same|done].
Qed.

Lemma insert_workspace_spec cv w idx (activate : bool) m :
  semi_ok m -> room m 2 -> cv_ok cv -> (idx <= len m)%nat -> insertable w m ->
  exists m', insert_workspace cv w idx activate m = Ok m' /\ step_ok (ws_windows w) m m'.
Proof.
  intros Hs Hr Hcv Hi (Hok & Hid & Hnew & Hnd). pose proof Hs as [Hc Hl Hf]. unfold insert_workspace.
  destruct (set_output_update_config cv (Some (output m)) (options m) w Hcv (mc_config _ Hc) Hok) as (w' & He & Hb & _).
  rewrite <- bind_assoc, He. cbn [mbind res_bind].
  pose proof (len_pos m Hs) as Hpos. set (i1 := if bool_decide (idx = len m) then (idx - 1)%nat else idx).
  assert (Hi1 : (if bool_decide (idx = len m) then usub idx 1 else Ok idx) = Ok i1).
  { unfold i1. case_bool_decide; [|done]. unfold usub. by rewrite decide_True by lia. }
  assert (Hlt : (i1 < len m)%nat) by (unfold i1; case_bool_decide; lia).
  rewrite Hi1. cbn [mbind res_bind].
  set (top := ewaf m && bool_decide (i1 = 0%nat)).
  destruct (grow_spec false top m Hc Hr) as (m1 & t & b & Hgr & Hg).
  assert (Hgrow : (if bool_decide (i1 = 0%nat) && ewaf m then m ← add_workspace_top m; mret (S i1, m) else mret (i1, m))
    = Ok ((flag top + i1)%nat, m1)).
  { rewrite andb_comm. fold top. unfold grow in Hgr. cbn [mbind res_bind] in Hgr.
    destruct top; [by rewrite Hgr|by injection Hgr as <-]. }
  rewrite Hgrow. cbn [mbind res_bind].
  pose proof (grown_len _ _ _ _ _ _ Hg) as Hlen. cbn [flag] in Hlen.
  pose proof (frame_ewaf _ _ (gr_frame _ _ _ _ _ _ Hg)) as Hew. destruct (gr_ids _ _ _ _ _ _ Hg) as [Hids Hcnt].
  set (k := (flag top + i1)%nat) in *.
  rewrite vec_insert_ok by (unfold len in *; lia). cbn [mbind res_bind].
  set (a := if (k <=? active_workspace_idx m1)%nat then S (active_workspace_idx m1) else active_workspace_idx m1).
  set (m2 := set_lists (insert_at k w' (workspaces m1)) a m1).
  assert (Hwin2 : windows m2 ≡ₚ ws_windows w ++ windows m).
  { unfold windows at 1; cbn. rewrite insert_at_perm. cbn. rewrite (turns_wins _ _ _ Hb).
    by rewrite <- (gr_wins _ _ _ _ _ _ Hg). }
  assert (Hc2 : mon_core m2).
  { pose proof (mc_active _ (gr_core _ _ _ _ _ _ Hg)) as Ham.
    apply insert_core; [apply Hg|lia| |by apply turns_ok in Hb|rewrite (turns_id _ _ _ Hb); lia| |].
    - unfold a. destruct (Nat.leb_spec k (active_workspace_idx m1)); lia.
    - rewrite (turns_id _ _ _ Hb), (gr_ws _ _ _ _ _ _ Hg), !fmap_app, !elem_of_app.
      apply Forall_app in Hids as [Hidt Hidb]. rewrite Forall_forall in Hidt, Hidb.
      intros [Hin|[Hin|Hin]]; [|done|]; apply list_elem_of_fmap in Hin as (x & Heq & Hx);
        [specialize (Hidt x Hx)|specialize (Hidb x Hx)]; lia.
    - by rewrite (turns_wins _ _ _ Hb), (gr_wins _ _ _ _ _ _ Hg). }
  assert (Hl2 : last_empty (workspaces m2)).
  { cbn. eapply last_empty_ext; [apply last_insert_at; unfold len in *; lia|]. by apply (grown_last _ _ _ _ _ _ Hg). }
  assert (Hf2 : ewaf m2 = true -> first_empty (workspaces m2)).
  { intros Hew2. change (ewaf m1 = true) in Hew2. rewrite Hew in Hew2. cbn.
    eapply first_empty_ext; [apply head_insert_at|apply (grown_first _ _ _ _ _ _ Hg); intros _; by apply Hf].
    split; [|unfold len in *; lia]. unfold k, top. rewrite Hew2. case_bool_decide; cbn; lia. }
  assert (Hopt2 : options m2 = options m) by (cbn; by destruct (gr_frame _ _ _ _ _ _ Hg) as (-> & _)).
  destruct activate.
  - destruct (activate_spec cv k (set_switch None m2)) as (m3 & -> & Ha); [by apply set_switch_core|done| |].
    { unfold len; cbn. rewrite length_insert_at; unfold len in *; lia. }
    cbn [mbind res_bind]. pose proof (ac_ws _ _ _ _ Ha) as Hws3. pose proof (ac_options _ _ _ _ Ha) as Hopt3.
    destruct (finish m3 m (ws_windows w)) as (m' & -> & Hst & _); [apply Ha|by rewrite Hws3| | | |].
    + unfold ewaf. rewrite Hopt3, Hws3. exact Hf2.
    + unfold windows at 1. by rewrite Hws3.
    + by rewrite Hopt3.
    + by exists m'.
  - cbn [mbind res_bind]. destruct (finish m2 m (ws_windows w)) as (m' & -> & Hst & _); [done..|]. by exists m'.
Qed.
End ops.
