(* ===== verification/MonitorOps2.v ===== *)
(** * The operations of monitors preserve the invariant, continued: moving
    whole workspaces, animations, configuration and gestures *)

From stdpp Require Import base numbers option list strings relations.
From Stdlib Require Import ZArith Lia.
From S2P Require Import Prelude.
From S2P Require Import F64.
From S2P Require Import Duration.
From S2P Require Import Clock.
From S2P Require Import Gesture.
From S2P Require Import Animation.
From S2P Require Import AnimTotal.
From S2P Require Import LayoutTypes.
From S2P Require Import Interface.
From S2P Require Import Monitor.
From S2P Require Import MonitorInv.
From S2P Require Import MonitorOps.

Local Open Scope Z_scope.
#[local] Arguments Nat.ltb : simpl never.
#[local] Arguments Nat.leb : simpl never.
Import Monitor.

Section ops.
Context {WO : WorkspaceOps} {LM : Libm} {KF : Keyframe} {WL : WorkspaceLaws} {SM : Smithay} {HM : Home}.
Implicit Types (m : Monitor) (w : WS) (wss : list WS) (i idx : nat) (cv : ClockView).
Abbreviation keeps m r := (exists m', r = Ok m' /\ step_ok [] m m').

(** ** Loops over the workspaces *)
Definition moved_ws w w' : Prop := ws_turns ws_ok w (ws_windows w) w'.
Definition same_ws w w' : Prop := ws_becomes ws_ok w (ws_windows w) w'.

Lemma for_each_in (R : WS -> WS -> Prop) f wss :
  Forall (fun w => exists w', f w = Ok w' /\ R w w') wss -> exists wss', for_each f wss = Ok wss' /\ Forall2 R wss wss'.
Proof.
  induction 1 as [|w wss (w' & He & Hb) _ IH]; [by exists []|]. cbn. rewrite He. cbn.
  destruct IH as (wss' & -> & HF). cbn. exists (w' :: wss'). split; [done|]. by constructor.
Qed.
Lemma for_each_spec (R : WS -> WS -> Prop) f wss :
  Forall ws_ok wss -> (forall w, ws_ok w -> exists w', f w = Ok w' /\ R w w') ->
  exists wss', for_each f wss = Ok wss' /\ Forall2 R wss wss'.
Proof. intros Hok Hf. apply for_each_in. by eapply Forall_impl. Qed.

Lemma same_moved wss wss' : Forall2 same_ws wss wss' -> Forall2 moved_ws wss wss'.
Proof. intros HF. eapply Forall2_impl; [exact HF|]. by intros ? ? []. Qed.

Lemma moved_ids wss wss' : Forall2 moved_ws wss wss' -> ws_id <$> wss' = ws_id <$> wss.
Proof. induction 1 as [|w w' wss wss' Hb _ IH]; cbn; [done|]. by rewrite IH, (turns_id _ _ _ Hb). Qed.
Lemma moved_fresh c wss wss' :
  Forall2 moved_ws wss wss' -> Forall (fun w => ws_id w < c) wss -> Forall (fun w => ws_id w < c) wss'.
Proof.
  induction 1 as [|w w' wss wss' Hb _ IH]; intros HF; [done|]. inversion HF; subst.
  constructor; [by rewrite (turns_id _ _ _ Hb)|auto].
Qed.
Lemma moved_wins wss wss' : Forall2 moved_ws wss wss' -> wss' ≫= ws_windows ≡ₚ wss ≫= ws_windows.
Proof. induction 1 as [|w w' wss wss' Hb _ IH]; cbn; [done|]. by rewrite IH, (turns_wins _ _ _ Hb). Qed.
Lemma moved_oks wss wss' : Forall2 moved_ws wss wss' -> Forall ws_ok wss'.
Proof. induction 1 as [|w w' wss wss' Hb _ IH]; constructor; [by apply turns_ok in Hb|done]. Qed.
Lemma moved_lookup wss wss' i w' :
  Forall2 moved_ws wss wss' -> wss' !! i = Some w' ->
  exists w, wss !! i = Some w /\ has_windows_or_name w' = has_windows_or_name w.
Proof.
  intros HF Hi. destruct (Forall2_lookup_r _ _ _ _ _ HF Hi) as (w & Hw & Hb).
  exists w. split; [done|]. by apply turns_same_hwn.
Qed.
Lemma same_last wss wss' : Forall2 same_ws wss wss' -> last_empty wss -> last_empty wss'.
Proof.
  intros HF (w & Hw & He). rewrite last_lookup in Hw. rewrite (Forall2_length _ _ _ HF) in Hw.
  destruct (Forall2_lookup_l _ _ _ _ _ HF Hw) as (w' & Hw' & Hb). exists w'. rewrite last_lookup.
  split; [done|]. by eapply becomes_spare.
Qed.
Lemma same_first wss wss' : Forall2 same_ws wss wss' -> first_empty wss -> first_empty wss'.
Proof.
  intros HF (w & Hw & He). rewrite head_lookup in Hw.
  destruct (Forall2_lookup_l _ _ _ _ _ HF Hw) as (w' & Hw' & Hb). exists w'. rewrite head_lookup.
  split; [done|]. by eapply becomes_spare.
Qed.

Lemma same_core m wss' : mon_core m -> Forall2 moved_ws (workspaces m) wss' -> mon_core (set_workspaces wss' m).
Proof.
  intros Hc HF. pose proof (Forall2_length _ _ _ HF) as Hlen. pose proof Hc as Hc0. destruct Hc.
  apply set_lists_core; try done.
  - rewrite <- Hlen. done.
  - by rewrite (moved_ids _ _ HF).
  - by eapply moved_fresh.
  - by apply moved_oks in HF.
  - by rewrite (moved_wins _ _ HF).
  - by rewrite <- Hlen.
Qed.

Lemma same_step m wss' : semi_ok m -> Forall2 same_ws (workspaces m) wss' -> step_ok [] m (set_workspaces wss' m).
Proof.
  intros [Hc Hl Hf] HF. pose proof (Forall2_length _ _ _ HF) as Hlen.
  split_and!; [| |by apply moved_wins, same_moved|done].
  - constructor; [by apply same_core, same_moved|by eapply same_last|]. intros He. unfold len; cbn. rewrite <- Hlen.
    destruct (Hf He). split; [by eapply same_first|done].
  - intros Hcl Hs i w' Hi Hlt Hne Ha. destruct (moved_lookup _ _ _ _ (same_moved _ _ HF) Hi) as (w & Hw & ->).
    apply (Hcl Hs i w); try done. unfold len in *; cbn in Hlt. lia.
Qed.

(** ** Appending the workspaces of another monitor *)
Record appendable wss m : Prop := {
  ap_ok : Forall ws_ok wss;
  ap_named : Forall (fun w => has_windows_or_name w = true) wss;
  ap_ids : NoDup (ws_id <$> wss ++ workspaces m);
  ap_fresh : Forall (fun w => ws_id w < id_counter m) wss;
  ap_wins : NoDup ((wss ≫= ws_windows) ++ windows m)
}.

Lemma append_workspaces_spec cv wss m :
  semi_ok m -> room m (2 + length wss) -> cv_ok cv -> appendable wss m ->
  exists m', append_workspaces cv wss m = Ok m' /\ step_ok (wss ≫= ws_windows) m m'.
Proof.
  intros Hs Hr Hcv [Hok Hnamed Hids Hfresh Hnd]. pose proof Hs as [Hc Hl Hf]. unfold append_workspaces.
  destruct wss as [|w0 wss0] eqn:Ewss; [exists m; split; [done|by apply step_refl]|]. rewrite <- Ewss in *.
  destruct (for_each_spec moved_ws (fun w => w ← ws_set_output cv (Some (output m)) w; ws_update_config cv (options m) w) wss)
    as (wss' & -> & HF); [done| |].
  { intros w Hw. destruct (set_output_update_config cv (Some (output m)) (options m) w Hcv (mc_config _ Hc) Hw) as (w' & -> & Ht & _). by exists w'. }
  cbn [mbind res_bind].
  rewrite usub_len by done. cbn [mbind res_bind].
  destruct Hl as (e & He & Hee). rewrite last_Some in He. destruct He as [rest Hrest].
  assert (Hlen : (len m = S (length rest))%nat) by (unfold len; rewrite Hrest, length_app; cbn; lia).
  replace (len m - 1)%nat with (length rest) by lia.
  unfold vec_remove. rewrite Hrest, lookup_app_r, Nat.sub_diag by lia. cbn [lookup list_lookup mbind res_bind].
  rewrite delete_middle, app_nil_r.
  set (m1 := set_workspaces (rest ++ wss' ++ [e]) m).
  assert (Hp : rest ++ wss' ++ [e] ≡ₚ wss' ++ workspaces m) by (rewrite Hrest; solve_Permutation).
  assert (Hc1 : mon_core m1).
  { pose proof Hc as Hc0. destruct Hc. apply set_lists_core; try done.
    - rewrite !length_app. cbn. lia.
    - rewrite Hp, fmap_app, (moved_ids _ _ HF), <- fmap_app. done.
    - rewrite Hp. apply Forall_app. split; [|done].
      by eapply moved_fresh.
    - rewrite Hp. apply Forall_app. split; [by apply moved_oks in HF|done].
    - rewrite Hp, bind_app, (moved_wins _ _ HF). done.
    - eapply switch_ok_mono; [|done]. rewrite !length_app. cbn. lia. }
  assert (Hw1 : windows m1 ≡ₚ (wss ≫= ws_windows) ++ windows m).
  { unfold windows at 1; cbn. by rewrite Hp, bind_app, (moved_wins _ _ HF). }
  assert (Hl1 : last_empty (workspaces m1)) by (exists e; cbn; by rewrite app_assoc, last_snoc).
  destruct (lookup_lt_is_Some_2 (workspaces m1) 0) as [x Hx]; [cbn; rewrite !length_app; cbn; lia|].
  unfold index. rewrite Hx. cbn [unwrap mbind res_bind]. change (ewaf m1) with (ewaf m).
  assert (Hr1 : room m1 2).
  { destruct Hr as (? & ? & ?). unfold room, len; cbn. rewrite !length_app, <- (Forall2_length _ _ _ HF). cbn. lia. }
  set (top := ewaf m && has_windows_or_name x).
  destruct (grow_spec false top m1 Hc1 Hr1) as (m2 & t & b & Hgr & Hg).
  assert (Hgrow : (if top then add_workspace_top m1 else Ok m1) = Ok m2) by (by unfold grow in Hgr).
  rewrite Hgrow. cbn [mbind res_bind].
  pose proof (frame_ewaf _ _ (gr_frame _ _ _ _ _ _ Hg)) as Hew. change (ewaf m1) with (ewaf m) in Hew.
  assert (Hl2 : last_empty (workspaces m2)) by (by apply (grown_last _ _ _ _ _ _ Hg)).
  assert (Hf2 : ewaf m2 = true -> first_empty (workspaces m2)).
  { rewrite Hew. intros Hew1. apply (grown_first _ _ _ _ _ _ Hg). unfold top. rewrite Hew1. cbn.
    intros Hx0. exists x. rewrite head_lookup. split; [done|]. destruct rest as [|y rest].
    - exfalso. destruct wss' as [|v wss']; [by inversion HF; subst; congruence|]. cbn in Hx. injection Hx as <-.
      rewrite Ewss in HF, Hnamed. inversion HF as [|? ? ? ? Hb _]; inversion Hnamed; subst.
      rewrite (turns_same_hwn _ _ Hb) in Hx0. congruence.
    - apply (first_is_empty m); [by apply Hf|]. rewrite Hrest. cbn in Hx |- *. done. }
  pose proof (last_nonempty _ Hl2) as Hpos. fold (len m2) in Hpos.
  unfold usub. rewrite decide_True by lia. cbn [mbind res_bind].
  set (m3 := if bool_decide _ then _ else m2).
  assert (Hws3 : workspaces m3 = workspaces m2 /\ options m3 = options m2) by (unfold m3; by case_bool_decide).
  assert (Hc3 : mon_core m3).
  { unfold m3. case_bool_decide; [|apply Hg]. apply set_active_core; [apply Hg|lia]. }
  destruct Hws3 as [Hws3 Ho3].
  destruct (finish m3 m (wss ≫= ws_windows)) as (m' & -> & Hst & _); [done|by rewrite Hws3| | | |].
  - unfold ewaf. rewrite Ho3, Hws3. exact Hf2.
  - unfold windows at 1. rewrite Hws3. change (windows m2 ≡ₚ (wss ≫= ws_windows) ++ windows m).
    by rewrite (gr_wins _ _ _ _ _ _ Hg).
  - rewrite Ho3. by destruct (gr_frame _ _ _ _ _ _ Hg) as (-> & _).
  - by exists m'.
Qed.

(** ** Moving whole workspaces *)
Lemma vec_swap_adjacent {A} (l1 l2 : list A) x y :
  vec_swap (length l1) (S (length l1)) (l1 ++ x :: y :: l2) = Ok (l1 ++ y :: x :: l2)
  /\ vec_swap (S (length l1)) (length l1) (l1 ++ x :: y :: l2) = Ok (l1 ++ y :: x :: l2).
Proof.
  assert (H0 : (l1 ++ x :: y :: l2) !! length l1 = Some x) by (by rewrite lookup_app_r, Nat.sub_diag by lia).
  assert (H1 : (l1 ++ x :: y :: l2) !! S (length l1) = Some y).
  { rewrite lookup_app_r by lia. by replace (S (length l1) - length l1)%nat with 1%nat by lia. }
  unfold vec_swap. rewrite H0, H1. split; do 2 f_equal; rewrite !insert_app_r_alt by lia;
    replace (S (length l1) - length l1)%nat with 1%nat by lia; by rewrite Nat.sub_diag.
Qed.

(** The focus after a move: on [w], unless [w] is empty and everything
    collapsed to one empty workspace. *)
Definition focused_on w m' : Prop :=
  workspaces m' !! active_workspace_idx m' = Some w \/ (len m' = 1%nat /\ is_empty w).

Lemma refocus_spec cv bottom top new_idx m m0 w :
  mon_core m -> room m 2 -> cv_ok cv -> (bottom = false -> last_empty (workspaces m)) ->
  (ewaf m = true -> top = false -> first_empty (workspaces m)) ->
  workspaces m !! new_idx = Some w -> windows m ≡ₚ windows m0 -> options m = options m0 ->
  exists m', refocus_moved cv bottom top new_idx m = Ok m' /\ step_ok [] m0 m' /\ monitor_ok m'
    /\ focused_on w m' /\ previous_workspace_id m' = previous_workspace_id m.
Proof.
  intros Hc Hr Hcv Hl Hf Hw Hwin Ho. unfold refocus_moved.
  rewrite <- bind_assoc, grow_then by done. set (tp := ewaf m && top).
  destruct (grow_spec bottom tp m Hc Hr) as (m1 & t & b & -> & Hg). cbn [mbind res_bind mret res_ret].
  pose proof (lookup_lt_Some _ _ _ Hw) as Hlt. pose proof (grown_len _ _ _ _ _ _ Hg) as Hlen.
  pose proof (frame_ewaf _ _ (gr_frame _ _ _ _ _ _ Hg)) as Hew.
  assert (Hat : workspaces m1 !! (flag tp + new_idx)%nat = Some w) by (by rewrite (grown_lookup _ _ _ _ _ _ _ Hg)).
  destruct (activate_spec cv (flag tp + new_idx) m1) as (m2 & -> & Ha); [apply Hg|done|by eapply lookup_lt_Some|].
  cbn [mbind res_bind]. pose proof (ac_ws _ _ _ _ Ha) as Hws. pose proof (ac_options _ _ _ _ Ha) as Ho2.
  assert (Ho1 : options m1 = options m) by (by destruct (gr_frame _ _ _ _ _ _ Hg) as (-> & _)).
  set (m3 := set_previous (previous_workspace_id m1) m2).
  change (set_previous (previous_workspace_id m1) (set_switch None m2)) with (set_switch None m3).
  destruct (finish m3 m0 []) as (m' & -> & Hst & Hd).
  - apply set_previous_core, Ha.
  - cbn. rewrite Hws. by apply (grown_last _ _ _ _ _ _ Hg).
  - cbn. unfold ewaf; cbn. rewrite Ho2, Hws. change (ewaf m1 = true -> first_empty (workspaces m1)). rewrite Hew.
    intros He. apply (grown_first _ _ _ _ _ _ Hg). unfold tp. rewrite He. cbn. by apply Hf.
  - unfold windows at 1; cbn. rewrite Hws. change (windows m1 ≡ₚ windows m0). by rewrite (gr_wins _ _ _ _ _ _ Hg).
  - cbn. by rewrite Ho2, Ho1.
  - exists m'. split_and!; [done..|apply Hd| |].
    + destruct (cd_active _ _ Hd) as [Hk|(_ & H1 & x & Hx & Hex)]; cbn in *; rewrite Hws, (ac_active _ _ _ _ Ha) in *.
      * left. by rewrite Hk.
      * right. split; [done|]. congruence.
    + rewrite (cd_prev _ _ Hd). cbn. apply (gr_prev _ _ _ _ _ _ Hg).
Qed.

Lemma perm_set_workspaces m wss :
  mon_core m -> wss ≡ₚ workspaces m -> mon_core (set_workspaces wss m) /\ windows (set_workspaces wss m) ≡ₚ windows m.
Proof.
  intros Hc Hp. split; [apply perm_core; [done..|apply (mc_active _ Hc)]|]. unfold windows; cbn. by rewrite Hp.
Qed.

(** What a move of the active workspace [w] guarantees. *)
Definition move_done w m m' : Prop :=
  step_ok [] m m' /\ (monitor_ok m -> monitor_ok m') /\ (m' = m \/ focused_on w m')
  /\ previous_workspace_id m' = previous_workspace_id m.

Lemma split_two wss i x y :
  wss !! i = Some x -> wss !! S i = Some y -> exists l1 l2, wss = l1 ++ x :: y :: l2 /\ length l1 = i.
Proof.
  intros Hx Hy. exists (take i wss), (drop (S (S i)) wss).
  pose proof (lookup_lt_Some _ _ _ Hx). split; [|rewrite length_take; lia].
  rewrite <- (take_drop_middle wss i x Hx) at 1. f_equal. f_equal.
  by rewrite (drop_S wss y (S i)).
Qed.

Lemma swap_spec cv l1 x y l2 (bottom : bool) wss' new_idx m w :
  semi_ok m -> room m 2 -> cv_ok cv -> workspaces m = l1 ++ x :: y :: l2 -> wss' = l1 ++ y :: x :: l2 ->
  bottom = bool_decide (l2 = []) -> wss' !! new_idx = Some w ->
  exists m', refocus_moved cv bottom (bool_decide (l1 = [])) new_idx (set_workspaces wss' m) = Ok m'
    /\ move_done w m m'.
Proof.
  intros [Hc Hl Hf] Hr Hcv Hws Hwss' Hbot Hw.
  assert (Hp : wss' ≡ₚ workspaces m) by (rewrite Hwss', Hws; solve_Permutation).
  destruct (perm_set_workspaces m wss' Hc Hp) as [Hc1 Hw1].
  destruct (refocus_spec cv bottom (bool_decide (l1 = [])) new_idx (set_workspaces wss' m) m w)
    as (m' & -> & Hst & Hok & Hfo & Hpr); try done.
  - unfold room, len in *; cbn. by rewrite Hp.
  - rewrite Hbot. intros Hn%bool_decide_eq_false. cbn. eapply last_empty_ext; [|done].
    rewrite Hws, Hwss', !last_app. destruct l2 as [|z l2]; [done|]. cbn. by destruct l2.
  - intros He Hn%bool_decide_eq_false. cbn. eapply first_empty_ext; [|by apply Hf].
    rewrite Hws, Hwss'. by destruct l1.
  - exists m'. split; [done|]. split_and!; auto.
Qed.

Lemma move_workspace_down_spec cv m w :
  semi_ok m -> room m 2 -> cv_ok cv -> workspaces m !! active_workspace_idx m = Some w ->
  exists m', move_workspace_down cv m = Ok m' /\ move_done w m m'.
Proof.
  intros Hs Hr Hcv Hw. unfold move_workspace_down. rewrite usub_len by done. cbn [mbind res_bind].
  pose proof (len_pos m Hs) as Hpos. pose proof (active_lt m Hs) as Ha.
  case_bool_decide as Heq; [exists m; split; [done|]; split_and!; auto; by apply step_refl|].
  set (a := active_workspace_idx m) in *.
  assert (Hn : ((a + 1) `min` (len m - 1) = S a)%nat) by lia. rewrite Hn in *.
  destruct (lookup_lt_is_Some_2 (workspaces m) (S a)) as [y Hy]; [unfold len in *; lia|].
  destruct (split_two _ _ _ _ Hw Hy) as (l1 & l2 & Hws & Hl1).
  destruct (vec_swap_adjacent l1 l2 w y) as [Hsw _]. rewrite Hws, <- Hl1, Hsw. cbn [mbind res_bind].
  rewrite (bool_decide_ext (length l1 = 0%nat) (l1 = [])) by (by destruct l1).
  apply (swap_spec cv l1 w y l2); try done.
  - apply bool_decide_ext. unfold len in *. rewrite Hws, length_app in *. cbn in *. destruct l2; cbn in *; split; (lia || done).
  - rewrite lookup_app_r by lia. by replace (S (length l1) - length l1)%nat with 1%nat by lia.
Qed.

Lemma move_workspace_up_spec cv m w :
  semi_ok m -> room m 2 -> cv_ok cv -> workspaces m !! active_workspace_idx m = Some w ->
  exists m', move_workspace_up cv m = Ok m' /\ move_done w m m'.
Proof.
  intros Hs Hr Hcv Hw. unfold move_workspace_up.
  pose proof (len_pos m Hs) as Hpos. pose proof (active_lt m Hs) as Ha.
  case_bool_decide as Heq; [exists m; split; [done|]; split_and!; auto; by apply step_refl|].
  set (a := active_workspace_idx m) in *. destruct a as [|a'] eqn:Ea; [lia|]. cbn [Nat.sub]. rewrite Nat.sub_0_r.
  destruct (lookup_lt_is_Some_2 (workspaces m) a') as [y Hy]; [unfold len in *; lia|].
  destruct (split_two _ _ _ _ Hy Hw) as (l1 & l2 & Hws & Hl1).
  destruct (vec_swap_adjacent l1 l2 y w) as [_ Hsw]. rewrite Hws, <- Hl1, Hsw. cbn [mbind res_bind].
  rewrite usub_len by done. cbn [mbind res_bind].
  rewrite (bool_decide_ext (length l1 = 0%nat) (l1 = [])) by (by destruct l1).
  apply (swap_spec cv l1 y w l2); try done.
  - apply bool_decide_ext. unfold len in *. rewrite Hws, length_app in *. cbn in *. destruct l2; cbn in *; split; (lia || done).
  - by rewrite lookup_app_r, Nat.sub_diag by lia.
Qed.

Lemma reinsert_perm wss old new w :
  wss !! old = Some w -> insert_at new w (delete old wss) ≡ₚ wss.
Proof. intros Hw. rewrite insert_at_perm. symmetry. by apply delete_perm. Qed.

(** Both branches of [move_workspace_to_idx] grow the list the same way. *)
Lemma to_idx_grow old new m :
  mon_core m -> room m 2 -> (old < len m)%nat -> (new < len m)%nat -> old <> new ->
  (if (old <? new)%nat then
     m ← (if bool_decide (new = len m - 1)%nat then add_workspace_bottom m else Ok m);
     if ewaf m && bool_decide (old = 0%nat) then m ← add_workspace_top m; mret (S new, m) else mret (new, m)
   else
     m ← (if bool_decide (old = len m - 1)%nat then add_workspace_bottom m else Ok m);
     if ewaf m && bool_decide (new = 0%nat) then m ← add_workspace_top m; mret (S new, m) else mret (new, m))
  = (let top := ewaf m && bool_decide (old `min` new = 0)%nat in
     m' ← grow (bool_decide (S (old `max` new) = len m)) top m; mret ((flag top + new)%nat, m')).
Proof.
  intros Hc Hr Ho Hn Hne. cbv zeta. destruct (Nat.ltb_spec old new).
  - rewrite grow_then by done. rewrite (bool_decide_ext (new = len m - 1)%nat (S (old `max` new) = len m)) by lia.
    by rewrite (bool_decide_ext (old = 0%nat) (old `min` new = 0)%nat) by lia.
  - rewrite grow_then by done. rewrite (bool_decide_ext (old = len m - 1)%nat (S (old `max` new) = len m)) by lia.
    by rewrite (bool_decide_ext (new = 0%nat) (old `min` new = 0)%nat) by lia.
Qed.

Lemma move_workspace_to_idx_keeps old new m :
  semi_ok m -> room m 2 -> keeps m (move_workspace_to_idx old new m).
Proof.
  intros Hs Hr. pose proof Hs as [Hc Hl Hf]. unfold move_workspace_to_idx.
  destruct (Nat.leb_spec (len m) old) as [|Hold]; [by apply keeps_refl|].
  rewrite usub_len by done. cbn [mbind res_bind]. pose proof (len_pos m Hs) as Hpos.
  set (n := (new `min` (len m - 1))%nat). case_bool_decide as Hne; [by apply keeps_refl|].
  destruct (lookup_lt_is_Some_2 (workspaces m) old Hold) as [w Hw]. rewrite (vec_remove_ok _ w) by done. cbn [mbind res_bind].
  assert (Hld : length (delete old (workspaces m)) = (len m - 1)%nat) by (apply length_delete; eauto).
  assert (Hn : (n <= len m - 1)%nat) by (unfold n; lia). clearbody n.
  rewrite vec_insert_ok by lia. cbn [mbind res_bind]. set (wss1 := insert_at n w (delete old (workspaces m))).
  pose proof (reinsert_perm (workspaces m) old n w Hw) as Hp. fold wss1 in Hp.
  destruct (perm_set_workspaces m wss1 Hc Hp) as [Hc1 Hw1]. set (m1 := set_workspaces wss1 m) in *.
  assert (Hlen1 : len m1 = len m) by (unfold len; cbn; by rewrite Hp).
  assert (Hr1 : room m1 2) by (unfold room; by rewrite Hlen1).
  pose proof (to_idx_grow old n m1 Hc1 Hr1) as Hg0. rewrite Hlen1 in Hg0.
  rewrite Hg0 by lia. clear Hg0. cbv zeta. change (ewaf m1) with (ewaf m).
  set (top := ewaf m && bool_decide (old `min` n = 0)%nat). set (bottom := bool_decide (S (old `max` n) = len m)).
  destruct (grow_spec bottom top m1 Hc1 Hr1) as (m2 & t & b & -> & Hg). cbn [mbind res_bind mret res_ret].
  pose proof (grown_len _ _ _ _ _ _ Hg) as Hlen2. rewrite Hlen1 in Hlen2.
  pose proof (gr_active _ _ _ _ _ _ Hg) as Hact. cbn in Hact.
  pose proof (frame_ewaf _ _ (gr_frame _ _ _ _ _ _ Hg)) as Hew. pose proof (active_lt m Hs) as Ham.
  match goal with |- context [set_active ?a m2] => set (act := a) end.
  assert (Hacl : (act < len m2)%nat).
  { unfold act. rewrite Hact, Hlen2. case_bool_decide; [lia|].
    destruct (Nat.leb_spec (flag top + n) (flag top + active_workspace_idx m)),
      (Nat.ltb_spec (flag top + active_workspace_idx m) old),
      (Nat.leb_spec (flag top + active_workspace_idx m) (flag top + n)),
      (Nat.ltb_spec old (flag top + active_workspace_idx m)); cbn [andb]; lia. }
  destruct (finish (set_active act m2) m []) as (m' & -> & Hst & _).
  - apply set_active_core; [apply Hg|done].
  - cbn. apply (grown_last _ _ _ _ _ _ Hg). unfold bottom. intros Hb%bool_decide_eq_false. cbn.
    eapply last_empty_ext; [|exact Hl]. unfold wss1. rewrite last_insert_at by lia. apply last_delete. unfold len in *. lia.
  - change (ewaf m2 = true -> first_empty (workspaces m2)). rewrite Hew. intros He. change (ewaf m = true) in He.
    apply (grown_first _ _ _ _ _ _ Hg). unfold top. rewrite He. cbn. intros Hz%bool_decide_eq_false.
    eapply first_empty_ext; [|by apply Hf]. unfold wss1. rewrite head_insert_at by lia. apply head_delete. lia.
  - change (windows m2 ≡ₚ windows m). by rewrite (gr_wins _ _ _ _ _ _ Hg).
  - cbn. by destruct (gr_frame _ _ _ _ _ _ Hg) as (-> & _).
  - by exists m'.
Qed.

(** ** Animations *)
Lemma semi_set_switch s m : semi_ok m -> switch_ok (len m) s -> semi_ok (set_switch s m).
Proof. intros [Hc Hl Hf] Hs. constructor; [by apply set_switch_core|done|done]. Qed.

(** Replacing a switch in progress by another one. *)
Lemma switch_step s s' m :
  semi_ok m -> workspace_switch m = Some s -> switch_ok (len m) (Some s') -> step_ok [] m (set_switch (Some s') m).
Proof. intros Hs He Ho. split_and!; [by apply semi_set_switch|done..]. Qed.

Lemma advance_gesture_ok cv now g n :
  gesture_ok n g -> cv_ok cv -> exists g', advance_gesture cv now g = Ok g' /\ gesture_ok n g'.
Proof.
  intros (Hc & Ht & Ha) Hcv. unfold advance_gesture.
  destruct (match Switch.dnd_last_event_time g with Some t => _ | None => _ end) as [lt nz].
  assert (Hd : exists o, match Switch.g_animation g with
      | Some a => done_ ← Animation.is_done cv a; mret (if done_ : bool then None else Some a)
      | None => mret None end = Ok o /\ forall a, o = Some a -> anim_total a).
  { destruct (Switch.g_animation g) as [a|]; [|by exists None].
    destruct (anim_total_done a cv) as [[] ->]; [by apply Ha|done| |]; cbn; eexists; (split; [done|]); [done|].
    intros ? [= <-]. by apply Ha. }
  destruct Hd as (o & -> & Ho). cbn. eexists. split; [done|]. by split_and!.
Qed.

Lemma advance_animations_keeps cv now m :
  semi_ok m -> cv_ok cv -> keeps m (advance_animations cv now m).
Proof.
  intros Hs Hcv. unfold advance_animations. pose proof Hs as [Hc Hl Hf].
  match goal with |- exists m', mbind _ ?r = Ok m' /\ _ => assert (Hk : keeps m r) end.
  { pose proof (mc_switch _ Hc) as Hsw. destruct (workspace_switch m) as [[a|g]|] eqn:Es; [| |by apply keeps_refl].
    - destruct (anim_total_done a cv Hsw Hcv) as [d ->]. cbn [mbind res_bind]. destruct d; [|by apply keeps_refl].
      destruct (finish m m []) as (m' & -> & Hst & _); [done|done|intros He; by apply Hf|done|done|]. by exists m'.
    - destruct (advance_gesture_ok cv now g _ Hsw Hcv) as (g' & -> & Hg'). cbn. eexists. split; [done|].
      by eapply switch_step. }
  destruct Hk as (m1 & -> & Hst). cbn [mbind res_bind]. pose proof (so_core _ (proj1 Hst)) as Hc1.
  destruct (for_each_spec same_ws (ws_advance_animations cv) (workspaces m1)) as (wss & -> & HF);
    [apply (mc_ws _ Hc1)|intros; by apply ws_advance_spec|]. cbn [mbind res_bind].
  eexists. split; [done|]. eapply (step_trans [] [] m m1); [done|]. apply same_step; [apply Hst|done].
Qed.

(** ** Configuration *)

(** The part of [update_config] that adapts the list to the new setting [e]. *)
Definition adapt (e : bool) m : res Monitor :=
  if negb (Bool.eqb (ewaf m) e) && (1 <? len m)%nat then
    if e then add_workspace_top m
    else match workspace_switch m with
         | None =>
             if bool_decide (active_workspace_idx m = 0%nat) then mret m
             else
               '(_, wss) ← vec_remove 0 (workspaces m);
               mret (set_lists wss (active_workspace_idx m - 1)%nat m)
         | Some _ => mret m
         end
  else mret m.

Definition clean_for (e : bool) m : Prop :=
  workspace_switch m = None ->
  forall i w, workspaces m !! i = Some w -> (S i < len m)%nat -> (e = true -> i <> 0%nat) ->
    i <> active_workspace_idx m -> has_windows_or_name w = true.

Record adapted (e : bool) m m1 : Prop := {
  ad_core : mon_core m1;
  ad_last : last_empty (workspaces m1);
  ad_first : e = true -> first_empty (workspaces m1) /\ len m1 <> 2%nat;
  ad_clean : clean_for e m1;
  ad_wins : windows m1 ≡ₚ windows m
}.

Lemma adapt_on m :
  monitor_ok m -> room m 2 -> ewaf m = false -> (1 < len m)%nat ->
  exists m1, add_workspace_top m = Ok m1 /\ adapted true m m1.
Proof.
  intros [Hc Hl Hf Hcl] Hr He Hlt. destruct (grow_spec false true m Hc Hr) as (m1 & t & b & Hg1 & Hg).
  exists m1. split; [done|]. pose proof (grown_len _ _ _ _ _ _ Hg) as Hlen. cbn in Hlen.
  constructor; [apply Hg|by apply (grown_last _ _ _ _ _ _ Hg)| | |apply Hg].
  - intros _. split; [by apply (grown_first _ _ _ _ _ _ Hg)|lia].
  - intros Hs i w Hi Hil Hi0 Ha. specialize (Hi0 eq_refl). destruct i as [|i]; [done|].
    rewrite (gr_active _ _ _ _ _ _ Hg) in Ha. cbn in Ha.
    change (S i) with (flag true + i)%nat in Hi. rewrite (grown_lookup _ _ _ _ _ _ i Hg) in Hi by lia.
    apply (Hcl (proj1 (proj2 (proj2 (proj2 (proj2 (gr_frame _ _ _ _ _ _ Hg))))) Hs) i w); [done|lia|by rewrite He|lia].
Qed.

Lemma adapt_off m :
  monitor_ok m -> ewaf m = true -> workspace_switch m = None -> active_workspace_idx m <> 0%nat -> (1 < len m)%nat ->
  exists r, vec_remove 0 (workspaces m) = Ok r
    /\ adapted false m (set_lists r.2 (active_workspace_idx m - 1)%nat m).
Proof.
  intros [Hc Hl Hf Hcl] He Hs Ha Hlt. destruct (Hf He) as [Hfe Hl2].
  destruct (lookup_lt_is_Some_2 (workspaces m) 0) as [w0 Hw0]; [unfold len in Hlt; lia|].
  eexists. split; [by apply (vec_remove_ok 0 w0)|]. cbn [snd].
  pose proof (mc_active _ Hc) as Ham.
  destruct (delete_core m 0 w0 (active_workspace_idx m - 1) Hc Hw0) as [Hcd Hwd]; [lia|].
  set (m1 := set_lists _ _ m).
  assert (Hm1 : set_switch None m1 = m1) by (unfold set_switch, m1; cbn; by rewrite <- Hs).
  rewrite <- Hm1. constructor; [exact Hcd| |done| |].
  - cbn. eapply last_empty_ext; [|exact Hl]. by apply last_delete.
  - intros _ i w Hi Hil _ Hia. cbn in *. rewrite lookup_delete_at_ge in Hi by lia.
    assert (Hld : length (delete 0%nat (workspaces m)) = (len m - 1)%nat) by (apply length_delete; eauto).
    unfold len in Hil; cbn in Hil. apply (Hcl Hs (S i) w Hi); [lia|lia|lia].
  - rewrite Hwd, (empty_wins w0); [done|]. by eapply first_is_empty.
Qed.

Lemma adapt_spec e m : monitor_ok m -> room m 2 -> exists m1, adapt e m = Ok m1 /\ adapted e m m1.
Proof.
  intros Hok Hr. pose proof Hok as [Hc Hl Hf Hcl]. unfold adapt.
  destruct (Bool.eqb (ewaf m) e) eqn:Ee; cbn [negb andb].
  { apply Bool.eqb_prop in Ee. exists m. split; [done|]. constructor; try done; [by rewrite <- Ee|].
    intros Hs i w. rewrite <- Ee. by apply Hcl. }
  destruct (Nat.ltb_spec 1 (len m)) as [Hlt|Hle].
  - destruct e, (ewaf m) eqn:Ew; try done; [by apply adapt_on|].
    destruct (workspace_switch m) as [s|] eqn:Es.
    { exists m. split; [done|]. constructor; try done. intros Hs. congruence. }
    case_bool_decide as Ha.
    { exists m. split; [done|]. constructor; try done. intros Hs i w Hi Hil _ Hia. apply (Hcl Hs i w); try done.
      intros _ ->. congruence. }
    destruct (adapt_off m) as (wss & -> & Had); try done. destruct wss. cbn. by eexists.
  - exists m. split; [done|]. pose proof (last_nonempty _ Hl) as Hpos. fold (len m) in Hpos.
    constructor; try done.
    + intros _. split; [|lia]. destruct Hl as (w & Hw & Hew). exists w. split; [|done].
      unfold len in *. destruct (workspaces m) as [|x [|? ?]]; cbn in *; [lia|done|lia].
    + intros _ i w Hi Hil. lia.
Qed.

(** [adapt] does not look at the overrides. *)
Definition set_lc lc m : Monitor := set_options (base_options m) (options m) lc m.

Lemma adapt_set_lc e lc m : adapt e (set_lc lc m) = (m1 ← adapt e m; Ok (set_lc lc m1)).
Proof.
  unfold adapt. change (ewaf (set_lc lc m)) with (ewaf m). change (len (set_lc lc m)) with (len m).
  destruct (negb _ && _); [|done]. destruct e.
  - unfold add_workspace_top, add_workspace_at, new_workspace, vec_insert. cbn.
    destruct (decide _); [|done]. cbn. destruct (workspace_switch m) as [s|]; [|done].
    destruct (fleb _ _); [|done]. by destruct (Switch.offset 1 s).
  - cbn. destruct (workspace_switch m); [done|]. case_bool_decide; [done|].
    unfold vec_remove. by destruct (workspaces m !! 0%nat).
Qed.

Lemma update_config_spec cv base lc m :
  monitor_ok m -> room m 2 -> cv_ok cv -> opts_ok base -> part_ok lc ->
  exists m', update_config cv base (set_lc lc m) = Ok m' /\ monitor_ok m' /\ windows m' ≡ₚ windows m
    /\ options m' = with_merged_layout lc base.
Proof.
  intros Hok Hr Hcv Hbase Hpart. unfold update_config. change (layout_config (set_lc lc m)) with lc.
  set (opts := with_merged_layout lc base). assert (Hopts : opts_ok opts) by by apply merged_opts_ok.
  match goal with |- context [mbind _ ?r] =>
    change r with (adapt (empty_workspace_above_first opts) (set_lc lc m)) end.
  destruct (adapt_spec (empty_workspace_above_first opts) m Hok Hr) as (m1 & Ha & [Hc1 Hl1 Hf1 Hcl1 Hw1]).
  rewrite adapt_set_lc, Ha. cbn [mbind res_bind]. change (workspaces (set_lc lc m1)) with (workspaces m1).
  destruct (for_each_spec same_ws (ws_update_config cv opts) (workspaces m1)) as (wss & -> & HF);
    [apply (mc_ws _ Hc1)|intros; by apply ws_update_config_spec|]. cbn [mbind res_bind mret res_ret].
  pose proof (same_core _ _ Hc1 (same_moved _ _ HF)) as Hc2. pose proof (Forall2_length _ _ _ HF) as Hlen.
  eexists. split; [done|]. split_and!; [|unfold windows; cbn; by rewrite (moved_wins _ _ (same_moved _ _ HF))|done].
  constructor; cbn.
  - destruct Hc2. by constructor.
  - by eapply same_last.
  - intros He. destruct (Hf1 He). unfold len; cbn. rewrite <- Hlen. split; [by eapply same_first|done].
  - intros Hs i w' Hi Hlt Hne Hia. cbn in *. destruct (moved_lookup _ _ _ _ (same_moved _ _ HF) Hi) as (w & Hw & ->).
    apply (Hcl1 Hs i w); try done. unfold len in Hlt |- *; cbn in Hlt. lia.
Qed.

Lemma set_lc_id m : set_lc (layout_config m) m = m.
Proof. by destruct m. Qed.

Lemma update_layout_config_spec cv lc m :
  monitor_ok m -> room m 2 -> cv_ok cv -> part_ok lc ->
  exists b m', update_layout_config cv lc m = Ok (b, m') /\ monitor_ok m' /\ windows m' ≡ₚ windows m.
Proof.
  intros Hok Hr Hcv Hpart. unfold update_layout_config. destruct (layout_part_eqb _ _); [by exists false, m|].
  fold (set_lc lc m). pose proof (mo_core _ Hok) as Hc.
  destruct (update_config_spec cv (base_options m) lc m) as (m' & -> & Hok' & Hw & _); [done..|apply (mc_base _ Hc)|done|].
  cbn. by exists true, m'.
Qed.

(** ** The overview *)
Lemma set_overview_keeps cv p m :
  semi_ok m -> cv_ok cv -> overview_ok p -> keeps m (set_overview_progress cv p m).
Proof.
  intros Hs Hcv Hp. pose proof Hs as [Hc Hl Hf]. unfold set_overview_progress.
  destruct (render_idx_ok cv m Hc Hcv) as [x ->]. cbn [mbind res_bind].
  set (m1 := set_overview p m).
  assert (Hst : step_ok [] m m1).
  { split_and!; [|done..]. constructor; [|done..]. destruct Hc. by constructor. }
  pose proof (so_core _ (proj1 Hst)) as Hc1.
  destruct (render_idx_ok cv m1 Hc1 Hcv) as [y ->]. cbn [mbind res_bind].
  destruct (fneb x y); [|by exists m1]. pose proof (mc_switch _ Hc1) as Hsw.
  destruct (workspace_switch m1) as [[a|g]|] eqn:Es; [|by exists m1..].
  destruct (anim_total_restarted a cv x (Animation.to a) f0 Hsw Hcv) as (b & -> & Hb).
  cbn. eexists. split; [done|]. eapply (step_trans [] [] m m1); [done|]. eapply switch_step; [apply Hst|done|].
  exact Hb.
Qed.

(** ** Gestures *)
Lemma gesture_step g m :
  semi_ok m -> gesture_ok (len m) g -> step_ok [] m (set_switch (Some (Switch.SwitchGesture g)) m).
Proof. intros Hs Hg. split_and!; [by apply semi_set_switch|done..]. Qed.

Lemma new_gesture_ok n c cur tp cl dnd : (c < n)%nat -> gesture_ok n (new_gesture c cur tp cl dnd).
Proof. intros Hc. split_and!; cbn; [done| |done]. repeat split; try constructor. done. Qed.

Lemma gesture_begin_keeps cv tp m : semi_ok m -> cv_ok cv -> keeps m (workspace_switch_gesture_begin cv tp m).
Proof.
  intros Hs Hcv. unfold workspace_switch_gesture_begin. destruct (render_idx_ok cv m (so_core _ Hs) Hcv) as [x ->].
  cbn [mbind res_bind]. eexists. split; [done|]. apply gesture_step; [done|]. apply new_gesture_ok. by apply active_lt.
Qed.

Lemma dnd_begin_keeps cv now m : semi_ok m -> cv_ok cv -> keeps m (dnd_scroll_gesture_begin cv now m).
Proof.
  intros Hs Hcv. unfold dnd_scroll_gesture_begin. cbv zeta.
  set (already := match workspace_switch m with Some (Switch.SwitchGesture g) => Switch.is_dnd g | _ => false end).
  destruct already; [by apply keeps_refl|]. destruct (negb _); [by apply keeps_refl|]. destruct (render_idx_ok cv m (so_core _ Hs) Hcv) as [x ->].
  cbn [mbind res_bind]. eexists. split; [done|]. apply gesture_step; [done|]. apply new_gesture_ok. by apply active_lt.
Qed.

Lemma overview_zoom_ok cv m : mon_core m -> cv_ok cv -> exists z, overview_zoom cv m = Ok z.
Proof.
  intros Hc Hcv. unfold overview_zoom, overview_value, compute_overview_zoom. pose proof (mc_overview _ Hc) as Ho.
  destruct (fclamp_ok (opt_overview_zoom (options m)) (lit 1 10000) (lit 75 100)) as [y Hy]; [by vm_compute|].
  destruct (overview_progress m) as [[a|v]|]; cbn [mbind res_bind mret res_ret]; [|rewrite Hy; by eexists..].
  destruct (anim_total_value a cv Ho Hcv) as [x ->]. cbn [mbind res_bind mret res_ret]. rewrite Hy. by eexists.
Qed.

Lemma min_max_ok n g :
  gesture_ok n g -> Z.of_nat n < 2 ^ 53 ->
  exists lo hi, Switch.min_max n g = Ok (of_nat lo, of_nat hi) /\ (lo <= hi)%nat /\ (hi < n)%nat
    /\ (Switch.is_clamped g = true -> (hi <= S (Switch.center_idx g))%nat).
Proof.
  intros (Hc & _ & _) Hn. unfold Switch.min_max, usub. rewrite decide_True by lia. cbn [mbind res_bind].
  destruct (Switch.is_clamped g).
  - eexists _, _. split; [done|]. lia.
  - exists 0%nat, (n - 1)%nat. split; [done|]. split_and!; [lia|lia|done].
Qed.

Definition ts_ok (ts : Duration) : Prop := 0 <= ts /\ ts + SwipeTracker.HISTORY_LIMIT <= DURATION_MAX.

Lemma push_gesture d ts g n :
  gesture_ok n g -> ts_ok ts -> exists t, SwipeTracker.push d ts (Switch.tracker g) = Ok t /\ SwipeTracker.tracker_ok t.
Proof.
  intros (_ & Ht & _) [H0 H1]. destruct (push_ok d ts (Switch.tracker g) Ht H0 H1) as (t & H & Hok & _). by exists t.
Qed.

Lemma moved_ok n s c t d z g :
  gesture_ok n g -> SwipeTracker.tracker_ok t -> gesture_ok n (moved s c t d z g).
Proof. intros (? & ? & ?) ?. by split_and!. Qed.

Lemma gesture_update_keeps cv dy ts tp m :
  semi_ok m -> room m 0 -> cv_ok cv -> ts_ok ts ->
  exists o m', workspace_switch_gesture_update cv dy ts tp m = Ok (o, m') /\ step_ok [] m m'.
Proof.
  intros Hs Hr%room_len Hcv Hts. pose proof (so_core _ Hs) as Hc. unfold workspace_switch_gesture_update.
  assert (Hid : exists o m', mret (None, m) = Ok (o : option bool, m') /\ step_ok [] m m')
    by (exists None, m; split; [done|by apply step_refl]).
  pose proof (mc_switch _ Hc) as Hsw. destruct (workspace_switch m) as [[a|g]|]; [done| |done].
  destruct (negb _ || _); [done|]. destruct (overview_zoom_ok cv m Hc Hcv) as [z ->]. cbn [mbind res_bind]. cbv zeta.
  match goal with |- context [SwipeTracker.push ?d _ _] => destruct (push_gesture d ts g _ Hsw Hts) as (t & -> & Ht) end.
  cbn [mbind res_bind]. destruct (min_max_ok _ _ Hsw Hr) as (lo & hi & -> & Hle & Hhi & Hcl). cbn [mbind res_bind].
  match goal with |- context [RubberBand.clamp _ _ _ ?x] =>
    destruct (clamp_index x lo hi Hle) as (y & Hy & _); [lia|] end.
  unfold RubberBand.clamp. rewrite Hy. cbn [mbind res_bind mret res_ret].
  eexists _, _. split; [done|]. apply gesture_step; [done|by apply moved_ok].
Qed.

(** The working area has a non-negative height. *)
Definition area_ok m : Prop :=
  fleb f0 (snd (snd (working_area m))) = true /\ fleb f0 (snd (snd (working_area m)) / of_Z 2)%F = true.

Lemma dnd_scroll_keeps cv now pos speed m :
  semi_ok m -> room m 0 -> cv_ok cv -> ts_ok now -> area_ok m ->
  exists b m', dnd_scroll_gesture_scroll cv now pos speed m = Ok (b, m') /\ step_ok [] m m'.
Proof.
  intros Hs Hr%room_len Hcv Hts [Ha1 Ha2]. pose proof (so_core _ Hs) as Hc. unfold dnd_scroll_gesture_scroll.
  destruct (overview_zoom_ok cv m Hc Hcv) as [z ->]. cbn [mbind res_bind].
  assert (Hid : exists b m', mret (false, m) = Ok (b : bool, m') /\ step_ok [] m m')
    by (exists false, m; split; [done|by apply step_refl]).
  pose proof (mc_switch _ Hc) as Hsw. destruct (workspace_switch m) as [[a|g]|]; [done| |done].
  destruct (Switch.dnd_last_event_time g) as [lt|]; [|done].
  assert (Hd : exists d, dnd_delta z pos speed m = Ok d).
  { unfold dnd_delta. destruct (fclamp_ok (snd pos - snd (fst (working_area m)))%F f0 _ Ha1) as [y ->].
    cbn [mbind res_bind]. destruct (fclamp_ok (dnd_trigger_height (options m)) f0 _ Ha2) as [y' ->]. by eexists. }
  destruct Hd as [d ->]. cbn [mbind res_bind]. cbv zeta. pose proof Hsw as (Hctr & Htr & Han).
  destruct (feqb d f0); [eexists _, _; split; [done|]; apply gesture_step; [done|by apply moved_ok]|].
  destruct (_ <? _); [eexists _, _; split; [done|]; apply gesture_step; [done|by apply moved_ok]|].
  match goal with |- context [SwipeTracker.push ?dd _ _] => destruct (push_gesture dd now g _ Hsw Hts) as (t & -> & Ht) end.
  cbn [mbind res_bind]. destruct (min_max_ok _ _ Hsw Hr) as (lo & hi & -> & Hle & Hhi & Hcl). cbn [mbind res_bind].
  match goal with |- context [fclamp ?x _ _] => destruct (clamp_index x lo hi Hle) as (y & -> & _); [lia|] end.
  cbn [mbind res_bind mret res_ret]. eexists _, _. split; [done|]. apply gesture_step; [done|by apply moved_ok].
Qed.

Lemma clamp_derivative_ok r lo hi x :
  fleb lo hi = true -> exists d, RubberBand.clamp_derivative r lo hi x = Ok d.
Proof.
  intros Hle. unfold RubberBand.clamp_derivative. destruct (_ && _); [by eexists|].
  destruct (fclamp_ok x lo hi Hle) as [y ->]. by eexists.
Qed.

Lemma gesture_end_keeps cv now tp m :
  semi_ok m -> room m 0 -> cv_ok cv -> ts_ok now ->
  exists b m', workspace_switch_gesture_end cv now tp m = Ok (b, m') /\ step_ok [] m m'
    /\ workspaces m' = workspaces m
    /\ forall g, workspace_switch m = Some (Switch.SwitchGesture g) -> tp = None \/ tp = Some (Switch.is_touchpad g) ->
         b = true /\ (Switch.is_clamped g = true -> (active_workspace_idx m' <= S (Switch.center_idx g))%nat).
Proof.
  intros Hs Hr%room_len Hcv Hts. pose proof (so_core _ Hs) as Hc. unfold workspace_switch_gesture_end.
  pose proof (mc_switch _ Hc) as Hsw. destruct (workspace_switch m) as [[a|g]|];
    [by exists false, m; split_and!; try done; apply step_refl| |by exists false, m; split_and!; try done; apply step_refl].
  destruct (match tp with Some x => negb (Bool.eqb (Switch.is_touchpad g) x) | None => false end) eqn:Etp.
  { exists false, m. split_and!; try done. intros ? [= <-] [->| ->]; [done|].
    by rewrite Bool.eqb_reflx in Etp. }
  destruct (overview_zoom_ok cv m Hc Hcv) as [z ->]. cbn [mbind res_bind].
  destruct (push_gesture f0 now g _ Hsw Hts) as (t & -> & Ht). cbn [mbind res_bind].
  destruct (velocity_ok t Ht) as [v ->]. destruct (projected_end_pos_ok t Ht) as [p ->]. cbn [mbind res_bind].
  destruct (min_max_ok _ _ Hsw Hr) as (lo & hi & -> & Hle & Hhi & Hcl). cbn [mbind res_bind].
  match goal with |- context [fclamp ?x _ _] => destruct (clamp_index x lo hi Hle) as (y & -> & _ & Hy); [lia|] end.
  cbn [mbind res_bind]. cbv zeta.
  match goal with |- context [RubberBand.clamp_derivative ?r ?l ?h ?x] =>
    destruct (clamp_derivative_ok r l h x) as [d ->]; [apply fleb_of_nat; lia|] end.
  cbn [mbind res_bind]. set (k := as_usize (fround y)) in *.
  destruct (active_lookup m Hs) as [w Hw]. unfold active_workspace, index. rewrite Hw. cbn [unwrap mbind res_bind].
  match goal with |- context [mbind _ (if _ then mret m else mret ?m2)] =>
    set (m1 := if bool_decide (active_workspace_idx m = k) then m else m2);
    replace (if bool_decide (active_workspace_idx m = k) then mret m else mret m2) with (Ok m1)
      by (unfold m1; by case_bool_decide) end.
  cbn [mbind res_bind].
  assert (Hs1 : semi_ok m1 /\ workspaces m1 = workspaces m /\ options m1 = options m).
  { unfold m1. case_bool_decide; split_and!; try done. destruct Hs as [? ? ?]. constructor; [by apply set_previous_core|done..]. }
  destruct Hs1 as (Hs1 & Hws1 & Ho1). rewrite Ho1.
  match goal with |- context [Animation.new cv ?f ?t2 ?vel ?c] =>
    destruct (op_switch _ (mc_config _ Hc) cv f t2 vel Hcv) as (a & -> & Ha) end.
  cbn [mbind res_bind mret res_ret]. eexists _, _. split; [done|]. split; [|split].
  2: exact Hws1.
  2: { intros ? [= <-] _. split; [done|]. intros Hg. specialize (Hcl Hg). cbn. lia. }
  split_and!; [|done|unfold windows; cbn; by rewrite Hws1|done].
  apply semi_set_switch; [|done]. destruct Hs1 as [Hc1 Hl1 Hf1]. constructor; [|done..].
  apply set_active_core; [done|]. unfold len. rewrite Hws1. unfold len in Hhi. lia.
Qed.

Lemma dnd_end_keeps cv now m :
  semi_ok m -> room m 0 -> cv_ok cv -> ts_ok now -> keeps m (dnd_scroll_gesture_end cv now m).
Proof.
  intros Hs Hr Hcv Hts. unfold dnd_scroll_gesture_end.
  destruct (gesture_end_keeps cv now None m Hs Hr Hcv Hts) as (b & m' & He & Hst & _).
  destruct (workspace_switch m) as [[a|g]|]; [by apply keeps_refl| |by apply keeps_refl].
  destruct (Switch.is_dnd g); [|by apply keeps_refl]. rewrite He. by exists m'.
Qed.
End ops.
