(* ===== verification/MonitorThms.v ===== *)
(** * Theorems about monitors

    Runs of a monitor as sequences of operations, the invariant of every
    reachable state, the behaviour of individual operations, and a small concrete
    workspace for examples. *)

From stdpp Require Import base numbers option list strings relations.
From Stdlib Require Import ZArith Lia.
From S2P Require Import Prelude.
From S2P Require Import F64.
From S2P Require Import Duration.
From S2P Require Import Clock.
From S2P Require Import Gesture.
From S2P Require Import Animation.
From S2P Require Import AnimTotal.
From S2P Require Import OutputName.
From S2P Require Import LayoutTypes.
From S2P Require Import Interface.
From S2P Require Tile.
From S2P Require ScrollingThms.
From S2P Require Import Monitor.
From S2P Require Import MonitorInv.
From S2P Require Import MonitorOps.
From S2P Require Import MonitorOps2.

Local Open Scope Z_scope.
#[local] Arguments Nat.ltb : simpl never.
#[local] Arguments Nat.leb : simpl never.
Import Monitor.

Section runs.
Context {WO : WorkspaceOps} {LM : Libm} {KF : Keyframe} {WL : WorkspaceLaws} {SM : Smithay} {HM : Home}.
Implicit Types (m : Monitor) (w : WS) (wss : list WS) (i idx : nat) (cv : ClockView).

(** ** Operations *)
Inductive MonOp :=
| OpActivate (idx : nat)
| OpAddTile (t : Tile) (target : MonitorAddWindowTarget Win) (a : ActivateWindow) (allow : bool)
    (width : ColumnWidth) (is_full_width is_floating : bool)
| OpAddColumn (idx : nat) (c : Column) (activate : bool)
| OpAddTileToColumn (idx col : nat) (tile_idx : option nat) (t : Tile) (activate allow : bool)
| OpUnname (id : Z)
| OpRemoveWorkspace (idx : nat)
| OpInsertWorkspace (w : WS) (idx : nat) (activate : bool)
| OpAppendWorkspaces (wss : list WS)
| OpMoveDownOrToWorkspaceDown | OpMoveUpOrToWorkspaceUp
| OpFocusWindowOrWorkspaceDown | OpFocusWindowOrWorkspaceUp
| OpMoveToWorkspaceUp (focus : bool) | OpMoveToWorkspaceDown (focus : bool)
| OpMoveToWorkspace (window : option Win) (idx : nat) (a : ActivateWindow)
| OpMoveColumnToWorkspaceUp (activate : bool) | OpMoveColumnToWorkspaceDown (activate : bool)
| OpMoveColumnToWorkspace (idx : nat) (activate : bool)
| OpSwitchUp | OpSwitchDown | OpSwitch (idx : nat) | OpSwitchAutoBackAndForth (idx : nat) | OpSwitchPrevious
| OpAdvanceAnimations (now : Duration)
| OpUpdateConfig (base : Options) | OpUpdateLayoutConfig (lc : option LayoutPart)
| OpMoveWorkspaceDown | OpMoveWorkspaceUp | OpMoveWorkspaceToIdx (old new : nat)
| OpSetOverviewProgress (p : option OverviewProgress)
| OpGestureBegin (is_touchpad : bool)
| OpGestureUpdate (delta_y : f64) (timestamp : Duration) (is_touchpad : bool)
| OpGestureEnd (now : Duration) (is_touchpad : option bool)
| OpDndBegin (now : Duration) | OpDndScroll (now : Duration) (pos : f64 * f64) (speed : f64) | OpDndEnd (now : Duration).

Definition plain (r : res Monitor) : res (list WS * Monitor) := m ← r; mret ([], m).
Definition paired {A} (r : res (A * Monitor)) : res (list WS * Monitor) := '(_, m) ← r; mret ([], m).

(** Runs an operation; the workspaces it hands out come with the new state. *)
Definition run_op cv (op : MonOp) m : res (list WS * Monitor) :=
  match op with
  | OpActivate idx => plain (activate_workspace cv idx m)
  | OpAddTile t tg a al wd fw fl => plain (add_tile cv t tg a al wd fw fl m)
  | OpAddColumn idx c a => plain (add_column cv idx c a m)
  | OpAddTileToColumn idx c i t a al => plain (add_tile_to_column cv idx c i t a al m)
  | OpUnname id => paired (unname_workspace id m)
  | OpRemoveWorkspace idx => '(w, m) ← remove_workspace_by_idx cv idx m; mret ([w], m)
  | OpInsertWorkspace w idx a => plain (insert_workspace cv w idx a m)
  | OpAppendWorkspaces wss => plain (append_workspaces cv wss m)
  | OpMoveDownOrToWorkspaceDown => plain (move_down_or_to_workspace_down cv m)
  | OpMoveUpOrToWorkspaceUp => plain (move_up_or_to_workspace_up cv m)
  | OpFocusWindowOrWorkspaceDown => plain (focus_window_or_workspace_down cv m)
  | OpFocusWindowOrWorkspaceUp => plain (focus_window_or_workspace_up cv m)
  | OpMoveToWorkspaceUp f => plain (move_to_workspace_up cv f m)
  | OpMoveToWorkspaceDown f => plain (move_to_workspace_down cv f m)
  | OpMoveToWorkspace x idx a => plain (move_to_workspace cv x idx a m)
  | OpMoveColumnToWorkspaceUp a => plain (move_column_to_workspace_up cv a m)
  | OpMoveColumnToWorkspaceDown a => plain (move_column_to_workspace_down cv a m)
  | OpMoveColumnToWorkspace idx a => plain (move_column_to_workspace cv idx a m)
  | OpSwitchUp => plain (switch_workspace_up cv m)
  | OpSwitchDown => plain (switch_workspace_down cv m)
  | OpSwitch idx => plain (switch_workspace cv idx m)
  | OpSwitchAutoBackAndForth idx => plain (switch_workspace_auto_back_and_forth cv idx m)
  | OpSwitchPrevious => plain (switch_workspace_previous cv m)
  | OpAdvanceAnimations now => plain (advance_animations cv now m)
  | OpUpdateConfig base => plain (update_config cv base m)
  | OpUpdateLayoutConfig lc => paired (update_layout_config cv lc m)
  | OpMoveWorkspaceDown => plain (move_workspace_down cv m)
  | OpMoveWorkspaceUp => plain (move_workspace_up cv m)
  | OpMoveWorkspaceToIdx old new => plain (move_workspace_to_idx old new m)
  | OpSetOverviewProgress p => plain (set_overview_progress cv p m)
  | OpGestureBegin tp => plain (workspace_switch_gesture_begin cv tp m)
  | OpGestureUpdate dy ts tp => paired (workspace_switch_gesture_update cv dy ts tp m)
  | OpGestureEnd now tp => paired (workspace_switch_gesture_end cv now tp m)
  | OpDndBegin now => plain (dnd_scroll_gesture_begin cv now m)
  | OpDndScroll now pos speed => paired (dnd_scroll_gesture_scroll cv now pos speed m)
  | OpDndEnd now => plain (dnd_scroll_gesture_end cv now m)
  end.

(** What callers guarantee: indices and windows exist, new windows and
    workspaces are new, and there is room for two more workspaces. *)
Definition op_pre (op : MonOp) m : Prop :=
  room m 2 /\
  match op with
  | OpActivate idx | OpRemoveWorkspace idx => (idx < len m)%nat
  | OpAddTile t tg _ _ _ _ _ => tile_ok t /\ mon_target_ok tg m /\ tile_win t ∉ windows m
  | OpAddColumn idx c _ => (idx < len m)%nat /\ column_ok c /\ column_wins c <> [] /\ NoDup (column_wins c ++ windows m)
  | OpAddTileToColumn idx c i t _ _ =>
      tile_ok t /\ (tile_win t ∉ windows m) /\ exists w n, workspaces m !! idx = Some w /\ ws_columns w !! c = Some n /\ (default n i <= n)%nat
  | OpInsertWorkspace w idx _ => (idx <= len m)%nat /\ insertable w m
  | OpAppendWorkspaces wss => room m (2 + length wss) /\ appendable wss m
  | OpMoveToWorkspace (Some x) _ _ => x ∈ windows m
  | OpUpdateConfig base => opts_ok base
  | OpUpdateLayoutConfig lc => part_ok lc
  | OpSetOverviewProgress p => overview_ok p
  | OpGestureUpdate _ ts _ | OpGestureEnd ts _ | OpDndEnd ts => ts_ok ts
  | OpDndScroll ts _ _ => ts_ok ts /\ area_ok m
  | _ => True
  end.

(** The windows an operation brings in. *)
Definition op_ins (op : MonOp) : list Win :=
  match op with
  | OpAddTile t _ _ _ _ _ _ | OpAddTileToColumn _ _ _ t _ _ => [tile_win t]
  | OpAddColumn _ c _ => column_wins c
  | OpInsertWorkspace w _ _ => ws_windows w
  | OpAppendWorkspaces wss => wss ≫= ws_windows
  | _ => []
  end.

Definition op_done (ins : list Win) m (outs : list WS) m' : Prop :=
  monitor_ok m' /\ ins ++ windows m ≡ₚ (outs ≫= ws_windows) ++ windows m'.

Lemma step_op_done ins m m' : monitor_ok m -> step_ok ins m m' -> op_done ins m [] m'.
Proof.
  intros Hok (Hs & Hcl & Hw & _). split; [|by rewrite Hw]. apply monitor_ok_semi. split; [done|]. apply Hcl, Hok.
Qed.

Lemma plain_done ins m r :
  monitor_ok m -> (exists m', r = Ok m' /\ step_ok ins m m') ->
  exists outs m', plain r = Ok (outs, m') /\ op_done ins m outs m'.
Proof. intros Hok (m' & -> & Hst). exists [], m'. split; [done|by apply step_op_done]. Qed.

Lemma paired_done {A} ins m (r : res (A * Monitor)) :
  monitor_ok m -> (exists a m', r = Ok (a, m') /\ step_ok ins m m') ->
  exists outs m', paired r = Ok (outs, m') /\ op_done ins m outs m'.
Proof. intros Hok (a & m' & -> & Hst). exists [], m'. split; [done|by apply step_op_done]. Qed.

Lemma room_weaken m j k : (j <= k)%nat -> room m k -> room m j.
Proof. intros Hjk (? & ? & ?). unfold room. lia. Qed.

Lemma column_moves_keep cv j (a : bool) fl m :
  semi_ok m -> room m 2 -> cv_ok cv -> (j < len m)%nat ->
  (exists m', fl m = Ok m' /\ step_ok [] m m') -> exists m', move_active_column_to cv j a fl m = Ok m' /\ step_ok [] m m'.
Proof. apply move_active_column_keeps. Qed.

Lemma run_op_ok cv op m :
  monitor_ok m -> cv_ok cv -> op_pre op m ->
  exists outs m', run_op cv op m = Ok (outs, m') /\ op_done (op_ins op) m outs m'.
Proof.
  intros Hok Hcv [Hr Hp]. pose proof (proj1 (monitor_ok_semi m) Hok) as [Hs Hcl].
  pose proof (room_weaken m 0 2 ltac:(lia) Hr) as Hr0. pose proof (len_pos m Hs) as Hpos. pose proof (active_lt m Hs) as Hact.
  assert (Hroom : forall m', len m' = len m -> id_counter m' = id_counter m -> room m' 2)
    by (intros m' Hl Hc; unfold room; by rewrite Hl, Hc).
  assert (Hroom0 : forall m', len m' = len m -> id_counter m' = id_counter m -> room m' 0)
    by (intros m' Hl Hc; apply (room_weaken m' 0 2); [lia|by apply Hroom]).
  destruct op; cbn [run_op op_ins];
    (* the configuration changes the options, the rest only the state *)
    lazymatch goal with
    | |- context [update_config] => idtac
    | |- context [update_layout_config] => idtac
    | |- context [plain] => apply plain_done; [done|]
    | |- context [paired] => apply paired_done; [done|]
    | _ => idtac
    end.
  - by apply activate_step.
  - destruct Hp as (? & ? & ?). by apply add_tile_spec.
  - destruct Hp as (? & ? & ? & ?). by apply add_column_spec.
  - destruct Hp as (? & ? & w & n & ? & ? & ?). by eapply add_tile_to_column_spec.
  - by apply unname_keeps.
  - destruct (remove_workspace_spec cv idx m Hs Hr Hcv Hp) as (w & w' & m' & -> & _ & _ & Hok' & Hw & _ & _).
    cbn. exists [w'], m'. split; [done|]. split; [done|]. cbn. by rewrite app_nil_r.
  - destruct Hp. by apply insert_workspace_spec.
  - destruct Hp. by apply append_workspaces_spec.
  - apply on_active_keeps; [done|intros; by apply ws_move_down_spec|intros; apply move_down_keeps; auto].
  - apply on_active_keeps; [done|intros; by apply ws_move_up_spec|intros; apply move_up_keeps; auto].
  - apply on_active_keeps; [done|intros; by apply ws_focus_down_spec|intros; apply switch_down_keeps; auto].
  - apply on_active_keeps; [done|intros; by apply ws_focus_up_spec|intros; apply switch_up_keeps; auto].
  - by apply move_up_keeps.
  - by apply move_down_keeps.
  - apply move_to_workspace_keeps; try done. intros x ->. done.
  - apply column_moves_keep; [done..|lia|by apply move_up_keeps].
  - unfold move_column_to_workspace_down. rewrite usub_len by done. cbn [mbind res_bind].
    apply column_moves_keep; [done..|lia|by apply move_down_keeps].
  - unfold move_column_to_workspace. rewrite usub_len by done. cbn [mbind res_bind].
    apply column_moves_keep; [done..|lia|by apply move_to_workspace_keeps].
  - by apply switch_up_keeps.
  - by apply switch_down_keeps.
  - by apply switch_keeps.
  - by apply switch_back_keeps.
  - by apply switch_previous_keeps.
  - by apply advance_animations_keeps.
  - destruct (update_config_spec cv base (layout_config m) m Hok Hr Hcv Hp (mc_part _ (so_core _ Hs))) as (m' & He & Hok' & Hw & _).
    rewrite set_lc_id in He. cbn. rewrite He. exists [], m'. split; [done|]. split; [done|by symmetry].
  - destruct (update_layout_config_spec cv lc m Hok Hr Hcv Hp) as (b & m' & -> & Hok' & Hw).
    exists [], m'. split; [done|]. split; [done|by symmetry].
  - destruct (active_lookup m Hs) as [w Hw]. destruct (move_workspace_down_spec cv m w) as (m' & -> & Hst & _); try done. by exists m'.
  - destruct (active_lookup m Hs) as [w Hw]. destruct (move_workspace_up_spec cv m w) as (m' & -> & Hst & _); try done. by exists m'.
  - by apply move_workspace_to_idx_keeps.
  - by apply set_overview_keeps.
  - by apply gesture_begin_keeps.
  - by apply gesture_update_keeps.
  - destruct (gesture_end_keeps cv now is_touchpad m Hs Hr0 Hcv Hp) as (b & m' & He & Hst & _). by exists b, m'.
  - by apply dnd_begin_keeps.
  - destruct Hp. by apply dnd_scroll_keeps.
  - by apply dnd_end_keeps.
Qed.

(** ** Construction *)
Lemma prepare_spec cv o opts act idx a wss :
  cv_ok cv -> opts_ok opts ->
  Forall ws_ok wss -> Forall (fun w => has_windows_or_name w = true) wss ->
  exists wss' a', prepare cv o opts act idx a wss = Ok (wss', a') /\ Forall2 moved_ws wss wss'
    /\ (a' = a \/ (idx <= a' < idx + length wss)%nat).
Proof.
  intros Hcv Hopts. revert idx a. induction wss as [|w wss IH]; intros idx a Hok Hh; [exists [], a; auto|].
  inversion Hok as [|? ? Hok1 Hok2]; inversion Hh as [|? ? Hh1 Hh2]; subst. cbn [prepare]. rewrite Hh1. cbn [rassert mbind res_bind].
  destruct (ws_set_output_spec cv (Some o) w Hcv Hok1) as (w1 & -> & Hb1 & _). cbn [mbind res_bind].
  destruct (ws_update_config_spec cv opts w1 Hcv Hopts (turns_ok _ _ _ Hb1)) as (w2 & -> & Hb2 & _). cbn [mbind res_bind].
  destruct (IH (S idx) (if bool_decide (Some (ws_id w2) = act) then idx else a) Hok2 Hh2) as (wss' & a' & -> & HF & Ha).
  cbn. exists (w2 :: wss'), a'. split_and!; [done| |].
  - constructor; [|done]. by eapply turns_same.
  - case_bool_decide; lia.
Qed.

Record new_pre (o : Output) wss (base : Options) (lc : option LayoutPart) (counter : Z) : Prop := {
  np_home : output_id o = home;
  np_ok : Forall ws_ok wss;
  np_named : Forall (fun w => has_windows_or_name w = true) wss;
  np_ids : NoDup (ws_id <$> wss);
  np_fresh : Forall (fun w => ws_id w < counter) wss;
  np_wins : NoDup (wss ≫= ws_windows);
  np_counter : 0 <= counter /\ counter + 2 < 2 ^ 64;
  np_config : opts_ok base;
  np_part : part_ok lc
}.

Lemma moved_hwn wss wss' :
  Forall2 moved_ws wss wss' -> Forall (fun w => has_windows_or_name w = true) wss ->
  Forall (fun w => has_windows_or_name w = true) wss'.
Proof.
  induction 1 as [|w w' wss wss' Hb _ IH]; intros HF; [done|]. inversion HF; subst.
  constructor; [by rewrite (turns_same_hwn _ _ Hb)|auto].
Qed.

(** A list [top ++ wss ++ [e]] with empty ends and a non-empty middle. *)
Lemma sandwich_ok m top wss e :
  mon_core m -> workspaces m = top ++ wss ++ [e] -> spare e ->
  Forall (fun w => has_windows_or_name w = true) wss -> Forall spare top ->
  length top = flag (ewaf m && negb (bool_decide (wss = []))) ->
  monitor_ok m.
Proof.
  intros Hc Hws He Hmid Htop Hlt.
  assert (Hlen : (len m = length top + length wss + 1)%nat) by (unfold len; rewrite Hws, !length_app; cbn; lia).
  constructor; [done| | |].
  - exists e. split; [|done]. by rewrite Hws, app_assoc, last_snoc.
  - intros Hew. rewrite Hew in Hlt. cbn in Hlt. rewrite Hlen, Hws. case_bool_decide as Hn; cbn in Hlt.
    + subst wss. destruct top; [|done]. split; [by exists e|done].
    + destruct top as [|x [|? ?]]; try done. split; [exists x; split; [done|by inversion Htop]|].
      destruct wss; [done|cbn; lia].
  - intros _ i w Hi Hil Hne _. rewrite Hws in Hi.
    destruct (decide (i < length top)%nat) as [Hit|Hit].
    + exfalso. destruct (ewaf m) eqn:Ew; cbn in Hlt; [specialize (Hne eq_refl)|lia].
      destruct (negb _); cbn in Hlt; lia.
    + rewrite lookup_app_r, lookup_app_l in Hi by lia. by eapply Forall_lookup_1 in Hi; [|exact Hmid].
Qed.

Lemma new_spec cv o sc vs wa wss act base lc counter :
  cv_ok cv -> new_pre o wss base lc counter ->
  exists m, new cv o sc vs wa wss act base lc counter = Ok m /\ monitor_ok m /\ windows m ≡ₚ wss ≫= ws_windows.
Proof.
  intros Hcv [Hhome Hok Hn Hids Hfresh Hnd [Hc0 Hc2] Hcfg Hpart]. unfold new. set (opts := with_merged_layout lc base).
  assert (Hopts : opts_ok opts) by by apply merged_opts_ok.
  destruct (prepare_spec cv o opts act 0 0 wss Hcv Hopts Hok Hn) as (wss' & a & -> & HF & Ha). cbn [mbind res_bind].
  pose proof (moved_ids _ _ HF) as Hids'. pose proof (moved_wins _ _ HF) as Hw'. pose proof (moved_oks _ _ HF) as Hok'.
  pose proof (moved_fresh _ _ _ HF Hfresh) as Hfresh'. pose proof (moved_hwn _ _ HF Hn) as Hn'.
  pose proof (Forall2_length _ _ _ HF) as Hlen.
  set (b := empty_workspace_above_first opts && negb (bool_decide (wss' = []))).
  set (top := if b then [ws_new counter o opts] else []).
  set (c1 := counter + Z.of_nat (flag b)).
  assert (Hif : (if b then let '(i, counter0) := id_next counter in (ws_new i o opts :: wss', S a, counter0) else (wss', a, counter))
    = (top ++ wss', (flag b + a)%nat, c1)).
  { unfold top, c1. destruct b; cbn; [rewrite Z.mod_small by lia; done|by rewrite Z.add_0_r]. }
  rewrite Hif. unfold id_next. rewrite Z.mod_small by (unfold c1; destruct b; cbn; lia).
  eexists. split; [done|].
  assert (Htop : Forall spare top /\ length top = flag b).
  { unfold top. destruct b; (split; [|done]); [by apply Forall_singleton, ws_new_spare|constructor]. }
  assert (Hwins : ((top ++ wss') ++ [ws_new c1 o opts]) ≫= ws_windows ≡ₚ wss ≫= ws_windows).
  { rewrite !bind_app, (wins_empty top) by apply spare_empty, Htop. cbn.
    destruct (ws_new_spec c1 o opts) as (_ & _ & -> & _). by rewrite !app_nil_r. }
  split; [|done]. eapply (sandwich_ok _ top wss'); cbn; [|by rewrite <- app_assoc|by apply ws_new_spare|done|apply Htop|apply Htop].
  assert (Htid : Forall (fun w => counter <= ws_id w < c1) top).
  { unfold top, c1. destruct b; [|done]. constructor; [|done]. destruct (ws_new_spec counter o opts) as (-> & _). cbn. lia. }
  assert (Hc1 : counter <= c1) by (unfold c1; destruct b; cbn; lia).
  destruct (ws_new_spec c1 o opts) as (Hidl & _ & _ & Hokl & _). specialize (Hokl Hopts).
  constructor; cbn.
  - done.
  - unfold len; cbn. rewrite !length_app. cbn. rewrite (proj2 Htop). lia.
  - rewrite !fmap_app, Hids'. rewrite Forall_forall in Htid, Hfresh. apply NoDup_app. split_and!.
    + apply NoDup_app. split_and!; [unfold top; destruct b; [apply NoDup_singleton|apply NoDup_nil_2]| |done].
      intros x (u & -> & Hu)%list_elem_of_fmap (v & Heq & Hv)%list_elem_of_fmap.
      specialize (Htid u Hu). specialize (Hfresh v Hv). lia.
    + intros x Hx Hin. cbn in Hin. apply list_elem_of_singleton in Hin as ->. rewrite Hidl in Hx.
      apply elem_of_app in Hx as [(u & Heq & Hu)%list_elem_of_fmap|(v & Heq & Hv)%list_elem_of_fmap];
        [specialize (Htid u Hu)|specialize (Hfresh v Hv)]; lia.
    + apply NoDup_singleton.
  - rewrite !Forall_app. split_and!.
    + eapply Forall_impl; [exact Htid|]. cbn. lia.
    + eapply Forall_impl; [exact Hfresh'|]. cbn. lia.
    + constructor; [lia|done].
  - rewrite !Forall_app. split_and!; [|done|by constructor].
    unfold top. destruct b; [|done]. constructor; [|done]. destruct (ws_new_spec counter o opts) as (_ & _ & _ & H & _). by apply H.
  - unfold windows; cbn. by rewrite Hwins.
  - done.
  - done.
  - done.
  - done.
  - done.
  - done.
Qed.

(** ** Reachable monitors *)
Inductive mon_reachable : Monitor -> Prop :=
| reach_new cv o sc vs wa wss act base lc counter m :
    cv_ok cv -> new_pre o wss base lc counter -> new cv o sc vs wa wss act base lc counter = Ok m -> mon_reachable m
| reach_op cv op m outs m' :
    mon_reachable m -> cv_ok cv -> op_pre op m -> run_op cv op m = Ok (outs, m') -> mon_reachable m'.

Lemma reachable_ok m : mon_reachable m -> monitor_ok m.
Proof.
  induction 1 as [cv o sc vs wa wss act base lc counter m Hcv Hp Hn|cv op m outs m' _ IH Hcv Hp Hr].
  - destruct (new_spec cv o sc vs wa wss act base lc counter Hcv Hp) as (m' & He & Hok & _). congruence.
  - destruct (run_op_ok cv op m IH Hcv Hp) as (outs' & m2 & He & Hok & _). congruence.
Qed.

(** C26: on a monitor reached from [Monitor::new] by any sequence of operations,
    every further operation runs without panicking, its result satisfies the
    structural invariant [monitor_ok] (an empty unnamed workspace at the end, and
    on top when configured; no other empty workspace except the active one while
    no switch is in progress; the active index in range; the options merged;
    unique ids and windows), and no window is lost or duplicated: what was there and
    what came in is exactly what was handed out and what is there now. *)
Theorem monitor_ops_safe cv op m :
  mon_reachable m -> cv_ok cv -> op_pre op m ->
  exists outs m', run_op cv op m = Ok (outs, m') /\ monitor_ok m'
    /\ op_ins op ++ windows m ≡ₚ (outs ≫= ws_windows) ++ windows m'.
Proof. intros Hm Hcv Hp. apply run_op_ok; [by apply reachable_ok|done|done]. Qed.

(** A new monitor satisfies the invariant and has exactly the windows of
    the workspaces it was given. *)
Theorem monitor_new_ok cv o sc vs wa wss act base lc counter :
  cv_ok cv -> new_pre o wss base lc counter ->
  exists m, new cv o sc vs wa wss act base lc counter = Ok m /\ monitor_ok m /\ windows m ≡ₚ wss ≫= ws_windows.
Proof. apply new_spec. Qed.

(** C29: while no switch is in progress, cleaning up a monitor in which only empty
    workspaces may be out of place keeps every workspace with windows or a name, in
    order, and keeps the active workspace active (unless it was empty and everything
    collapsed to the single empty workspace); the result satisfies the invariant:
    no other workspace is left empty but the fixed ones. *)
Theorem clean_up_correct m :
  semi_ok m -> workspace_switch m = None ->
  exists m', clean_up_workspaces m = Ok m' /\ monitor_ok m' /\ active_kept m m'
    /\ List.filter has_windows_or_name (workspaces m') = List.filter has_windows_or_name (workspaces m).
Proof.
  intros [Hc Hl Hf] Hs. destruct (clean_up_spec m Hc Hs Hl) as (m' & He & Hd); [intros He; by apply Hf|].
  exists m'. split_and!; [done|apply Hd..].
Qed.

(** C30: moving the active workspace down or up the stack keeps the focus on it
    (or changes nothing at the ends), and does not touch the previously focused
    workspace. *)
Theorem move_workspace_keeps_focus cv m w :
  monitor_ok m -> room m 2 -> cv_ok cv -> workspaces m !! active_workspace_idx m = Some w ->
  (exists m', move_workspace_down cv m = Ok m' /\ move_done w m m')
  /\ (exists m', move_workspace_up cv m = Ok m' /\ move_done w m m').
Proof.
  intros Hok Hr Hcv Hw. pose proof (proj1 (monitor_ok_semi m) Hok) as [Hs _].
  split; [by apply move_workspace_down_spec|by apply move_workspace_up_spec].
Qed.

(** After switching to another workspace, switching to the previous one
    comes back: the same workspaces, the same active index. *)
Theorem switch_back_and_forth cv idx m :
  monitor_ok m -> cv_ok cv -> (idx < len m)%nat -> idx <> active_workspace_idx m ->
  exists m1 m2, switch_workspace cv idx m = Ok m1 /\ active_workspace_idx m1 = idx
    /\ switch_workspace_previous cv m1 = Ok m2
    /\ active_workspace_idx m2 = active_workspace_idx m /\ workspaces m2 = workspaces m.
Proof.
  intros Hok Hcv Hi Hne. pose proof (mo_core _ Hok) as Hc. pose proof (mc_active _ Hc) as Ha.
  assert (Hus : forall m', len m' = len m -> usub (len m') 1 = Ok (len m - 1)%nat)
    by (intros m' ->; unfold usub; by rewrite decide_True by lia).
  destruct (activate_spec cv idx m Hc Hcv Hi) as (m1 & He1 & [Hws1 Ha1 Hp1 _ _ Hc1 _]).
  exists m1. unfold switch_workspace at 1. rewrite (Hus m eq_refl). cbn [mbind res_bind].
  rewrite Nat.min_l, He1 by lia.
  assert (Hl1 : len m1 = len m) by (unfold len; by rewrite Hws1).
  destruct (lookup_lt_is_Some_2 (workspaces m) _ Ha) as [w Hw].
  rewrite bool_decide_false, Hw in Hp1 by done. cbn in Hp1.
  destruct (activate_spec cv (active_workspace_idx m) m1 Hc1 Hcv) as (m2 & He2 & [Hws2 Ha2 _ _ _ _ _]); [lia|].
  exists m2. split_and!; [done..| |done|congruence].
  unfold switch_workspace_previous, previous_workspace_idx. rewrite Hp1. cbn [mbind option_bind].
  rewrite (find_ids m1 (active_workspace_idx m) w) by (done || by rewrite Hws1).
  unfold switch_workspace. rewrite (Hus m1 Hl1). cbn [mbind res_bind]. by rewrite Nat.min_l by lia.
Qed.

(** C33: a workspace switch gesture that is limited to one workspace never ends
    outside the list, nor past the workspace after the one where it started, for
    every touchpad or mouse movement (NaN and infinities included), and leaves
    the workspaces as they are. *)
Theorem clamped_gesture_ends_nearby cv now tp m g :
  monitor_ok m -> room m 0 -> cv_ok cv -> ts_ok now ->
  workspace_switch m = Some (Switch.SwitchGesture g) -> Switch.is_clamped g = true ->
  tp = None \/ tp = Some (Switch.is_touchpad g) ->
  exists m', workspace_switch_gesture_end cv now tp m = Ok (true, m')
    /\ (active_workspace_idx m' < len m')%nat
    /\ (active_workspace_idx m' <= S (Switch.center_idx g))%nat
    /\ workspaces m' = workspaces m.
Proof.
  intros Hok Hr Hcv Hts Hg Hcl Htp. pose proof (proj1 (monitor_ok_semi m) Hok) as [Hs _].
  destruct (gesture_end_keeps cv now tp m Hs Hr Hcv Hts) as (b & m' & He & Hst & Hws & Hb).
  destruct (Hb g Hg Htp) as [-> Ha]. exists m'. split_and!; [done|apply active_lt, Hst|by apply Ha|done].
Qed.

(** ** [move_workspace_to_idx] *)
Lemma to_idx_zero m old w :
  monitor_ok m -> room m 2 -> ewaf m = true -> active_workspace_idx m = old -> (0 < old)%nat -> (S old < len m)%nat ->
  workspaces m !! old = Some w -> has_windows_or_name w = true ->
  exists m', move_workspace_to_idx old 0 m = Ok m' /\ monitor_ok m'
    /\ workspaces m' !! active_workspace_idx m' = workspaces m !! (old - 1)%nat.
Proof.
  intros Hok Hr Hew Hact Hold Hlt Hw Hh. pose proof (proj1 (monitor_ok_semi m) Hok) as [Hs _].
  pose proof Hs as [Hc Hl Hf]. unfold move_workspace_to_idx.
  destruct (Nat.leb_spec (len m) old); [lia|]. rewrite usub_len by done. cbn [mbind res_bind].
  rewrite Nat.min_0_l, bool_decide_false by lia. rewrite (vec_remove_ok _ w) by done. cbn [mbind res_bind].
  rewrite vec_insert_ok by lia. cbn [mbind res_bind]. set (wss1 := insert_at 0 w (delete old (workspaces m))).
  pose proof (reinsert_perm (workspaces m) old 0 w Hw) as Hp. fold wss1 in Hp.
  destruct (perm_set_workspaces m wss1 Hc Hp) as [Hc1 Hw1]. set (m1 := set_workspaces wss1 m) in *.
  assert (Hlen1 : len m1 = len m) by (unfold len; cbn; by rewrite Hp).
  destruct (Nat.ltb_spec old 0); [lia|]. rewrite (bool_decide_false (old = len m - 1)%nat) by lia. cbn [mbind res_bind].
  change (ewaf m1) with (ewaf m). rewrite Hew, bool_decide_true by done. cbn [andb].
  destruct (grow_spec false true m1 Hc1) as (m2 & t & b & Hgr & Hg); [unfold room; by rewrite Hlen1|].
  unfold grow in Hgr. cbn [mbind res_bind] in Hgr. rewrite Hgr. cbn [mbind res_bind mret res_ret].
  pose proof (gr_active _ _ _ _ _ _ Hg) as Ha2. cbn in Ha2. rewrite Ha2, Hact.
  rewrite bool_decide_false by lia. destruct (Nat.ltb_spec (S old) old); [lia|]. rewrite andb_false_r.
  destruct (Nat.leb_spec (S old) 1); [lia|]. cbn [andb].
  pose proof (grown_len _ _ _ _ _ _ Hg) as Hlen2. rewrite Hlen1 in Hlen2. cbn [flag] in Hlen2.
  assert (Hfirst : first_empty (workspaces m2)) by (by apply (grown_first _ _ _ _ _ _ Hg)).
  destruct (finish (set_active (S old) m2) m []) as (m' & -> & Hst & Hd).
  - apply set_active_core; [apply Hg|lia].
  - cbn. apply (grown_last _ _ _ _ _ _ Hg). intros _. cbn. eapply last_empty_ext; [|exact Hl].
    assert (Hld : length (delete old (workspaces m)) = (len m - 1)%nat) by (apply length_delete; eauto).
    unfold wss1. rewrite last_insert_at by lia. by apply last_delete.
  - done.
  - change (windows m2 ≡ₚ windows m). by rewrite (gr_wins _ _ _ _ _ _ Hg).
  - cbn. by destruct (gr_frame _ _ _ _ _ _ Hg) as (-> & _).
  - exists m'. split_and!; [done|apply Hd|].
    assert (Hat : workspaces m2 !! S old = workspaces m !! (old - 1)%nat).
    { change (S old) with (flag true + old)%nat. rewrite (grown_lookup _ _ _ _ _ _ old Hg) by lia. cbn.
      replace old with (S (old - 1)) at 1 by lia. unfold wss1. rewrite lookup_insert_at_gt by lia.
      apply lookup_delete_at_lt. lia. }
    destruct (cd_active _ _ Hd) as [Hk|(_ & Hone & _)]; cbn in *; [by rewrite Hk|].
    (* the moved workspace is not empty, so more than one workspace is left *)
    exfalso. pose proof (cd_kept _ _ Hd) as Hkept. cbn in Hkept. rewrite (gr_ws _ _ _ _ _ _ Hg) in Hkept.
    unfold len in Hone. destruct (workspaces m') as [|e [|? ?]] eqn:Em'; try done.
    destruct (mo_last _ (cd_ok _ _ Hd)) as (x & Hx & [Hex _]). rewrite Em' in Hx. injection Hx as <-.
    cbn [List.filter] in Hkept. rewrite Hex in Hkept. symmetry in Hkept.
    rewrite !List.filter_app in Hkept. apply app_eq_nil in Hkept as [_ Hkept].
    apply app_eq_nil in Hkept as [Hkept _]. change (workspaces m1) with wss1 in Hkept.
    unfold wss1, insert_at in Hkept. rewrite take_0, drop_0 in Hkept. cbn in Hkept. by rewrite Hh in Hkept.
Qed.

(** C32 (finding): moving the focused workspace to the top with
    [empty_workspace_above_first] set loses its focus: the focus ends up on the
    workspace that was above it, although the source means to refocus the moved
    workspace if it was focused. *)
Theorem move_to_top_loses_focus m old w :
  monitor_ok m -> room m 2 -> ewaf m = true -> active_workspace_idx m = old -> (0 < old)%nat -> (S old < len m)%nat ->
  workspaces m !! old = Some w -> has_windows_or_name w = true ->
  exists m' w', move_workspace_to_idx old 0 m = Ok m' /\ monitor_ok m'
    /\ workspaces m' !! active_workspace_idx m' = Some w'
    /\ workspaces m !! (old - 1)%nat = Some w' /\ ws_id w' <> ws_id w.
Proof.
  intros Hok Hr Hew Hact Hold Hlt Hw Hh.
  destruct (to_idx_zero m old w) as (m' & He & Hok' & Hat); try done.
  destruct (lookup_lt_is_Some_2 (workspaces m) (old - 1)) as [w' Hw']; [unfold len in Hlt; lia|].
  exists m', w'. split_and!; try done; [by rewrite Hat|]. intros Hid.
  assert (old - 1 = old)%nat; [|lia].
  eapply (NoDup_lookup _ _ _ _ (mc_ids _ (mo_core _ Hok))); rewrite list_lookup_fmap, ?Hw, ?Hw'; cbn; [by rewrite Hid|done].
Qed.

(** Where the workspace at [a] is after the one at [old] moved to [n]. *)
Definition follow (old n a : nat) : nat :=
  if bool_decide (a = old) then n
  else if (n <=? a)%nat && (a <? old)%nat then S a
  else if (a <=? n)%nat && (old <? a)%nat then (a - 1)%nat
  else a.

Lemma follow_spec wss old n w a :
  wss !! old = Some w -> (n < length wss)%nat -> (a < length wss)%nat ->
  insert_at n w (delete old wss) !! follow old n a = wss !! a.
Proof.
  intros Hw Hn Ha. pose proof (lookup_lt_Some _ _ _ Hw) as Hold.
  assert (Hld : length (delete old wss) = (length wss - 1)%nat) by (apply length_delete; eauto).
  unfold follow. case_bool_decide as Heq; [subst; by rewrite lookup_insert_at_eq by lia|].
  destruct (Nat.leb_spec n a), (Nat.ltb_spec a old), (Nat.leb_spec a n), (Nat.ltb_spec old a); cbn [andb]; try lia.
  - rewrite lookup_insert_at_gt, lookup_delete_at_lt by lia. done.
  - rewrite lookup_insert_at_gt, lookup_delete_at_lt by lia. done.
  - rewrite lookup_insert_at_lt, lookup_delete_at_ge by lia. f_equal. lia.
  - destruct a as [|a]; [lia|]. rewrite lookup_insert_at_gt, lookup_delete_at_ge by lia. done.
  - rewrite lookup_insert_at_lt, lookup_delete_at_lt by lia. done.
  - rewrite lookup_insert_at_lt, lookup_delete_at_ge by lia. f_equal. lia.
Qed.

(** Without [empty_workspace_above_first], moving any workspace to any index
    keeps the focus on the workspace that had it. *)
Theorem move_workspace_to_idx_keeps_focus m old new :
  monitor_ok m -> room m 2 -> ewaf m = false ->
  exists m', move_workspace_to_idx old new m = Ok m' /\ monitor_ok m'
    /\ workspaces m' !! active_workspace_idx m' = workspaces m !! active_workspace_idx m.
Proof.
  intros Hok Hr Hew. pose proof (proj1 (monitor_ok_semi m) Hok) as [Hs _].
  pose proof Hs as [Hc Hl Hf]. unfold move_workspace_to_idx.
  destruct (Nat.leb_spec (len m) old) as [|Hold]; [by exists m|].
  rewrite usub_len by done. cbn [mbind res_bind]. pose proof (len_pos m Hs) as Hpos.
  set (n := (new `min` (len m - 1))%nat). case_bool_decide as Hne; [by exists m|].
  destruct (lookup_lt_is_Some_2 (workspaces m) old Hold) as [w Hw]. rewrite (vec_remove_ok _ w) by done. cbn [mbind res_bind].
  assert (Hld : length (delete old (workspaces m)) = (len m - 1)%nat) by (apply length_delete; eauto).
  assert (Hn : (n <= len m - 1)%nat) by (unfold n; lia). clearbody n.
  rewrite vec_insert_ok by lia. cbn [mbind res_bind]. set (wss1 := insert_at n w (delete old (workspaces m))).
  pose proof (reinsert_perm (workspaces m) old n w Hw) as Hp. fold wss1 in Hp.
  destruct (perm_set_workspaces m wss1 Hc Hp) as [Hc1 Hw1]. set (m1 := set_workspaces wss1 m) in *.
  assert (Hlen1 : len m1 = len m) by (unfold len; cbn; by rewrite Hp).
  assert (Hr1 : room m1 2) by (unfold room; by rewrite Hlen1).
  pose proof (to_idx_grow old n m1 Hc1 Hr1) as Hg0. rewrite Hlen1 in Hg0.
  rewrite Hg0 by lia. clear Hg0. cbv zeta. change (ewaf m1) with (ewaf m). rewrite Hew. cbn [andb].
  set (bottom := bool_decide (S (old `max` n) = len m)).
  destruct (grow_spec bottom false m1 Hc1 Hr1) as (m2 & t & b & -> & Hg). cbn [mbind res_bind mret res_ret flag Nat.add].
  pose proof (gr_active _ _ _ _ _ _ Hg) as Hact. cbn in Hact. rewrite Hact.
  fold (follow old n (active_workspace_idx m)). pose proof (active_lt m Hs) as Ham.
  pose proof (follow_spec (workspaces m) old n w (active_workspace_idx m) Hw ltac:(unfold len in *; lia) Ham) as Hat.
  fold wss1 in Hat. set (act := follow old n (active_workspace_idx m)) in *.
  destruct (lookup_lt_is_Some_2 (workspaces m) _ Ham) as [u Hu]. rewrite Hu in Hat.
  assert (Hacl : (act < len m1)%nat) by (by eapply lookup_lt_Some).
  pose proof (grown_lookup _ _ _ _ _ _ act Hg Hacl) as Hat2. cbn in Hat2. rewrite Hat in Hat2.
  destruct (finish (set_active act m2) m []) as (m' & -> & Hst & Hd).
  - apply set_active_core; [apply Hg|by eapply lookup_lt_Some].
  - cbn. apply (grown_last _ _ _ _ _ _ Hg). unfold bottom. intros Hb%bool_decide_eq_false. cbn.
    eapply last_empty_ext; [|exact Hl]. unfold wss1. rewrite last_insert_at by lia. apply last_delete. unfold len in *. lia.
  - change (ewaf m2 = true -> first_empty (workspaces m2)). rewrite (frame_ewaf _ _ (gr_frame _ _ _ _ _ _ Hg)).
    change (ewaf m1) with (ewaf m). by rewrite Hew.
  - change (windows m2 ≡ₚ windows m). by rewrite (gr_wins _ _ _ _ _ _ Hg).
  - cbn. by destruct (gr_frame _ _ _ _ _ _ Hg) as (-> & _).
  - exists m'. split_and!; [done|apply Hd|]. destruct (cd_active _ _ Hd) as [Hk|(He & _)]; cbn in *.
    + by rewrite Hk, Hat2.
    + exfalso. assert (Hem : ewaf m2 = true) by exact He. rewrite (frame_ewaf _ _ (gr_frame _ _ _ _ _ _ Hg)) in Hem.
      change (ewaf m1) with (ewaf m) in Hem. congruence.
Qed.
End runs.

(** ** A small workspace for concrete runs

    A workspace that is a list of numbered windows, the first one active, every
    window a column of its own. *)
Record SimpleWs := { sw_id : Z; sw_name : option string; sw_orig : string; sw_wins : list Z }.
Definition sw_with (w : SimpleWs) (l : list Z) : SimpleWs :=
  {| sw_id := sw_id w; sw_name := sw_name w; sw_orig := sw_orig w; sw_wins := l |}.

(** Outputs are their connectors. *)
Definition simple_output (o : string) : OutputName := {| connector := o; make := None; model := None; serial := None |}.

Definition simple_removed (x : Z) : RemovedTile Z :=
  {| rt_tile := x; rt_width := Proportion f1; rt_is_full_width := false; rt_is_floating := false |}.

#[export] Instance simple_ops : WorkspaceOps := {|
  WS := SimpleWs; Tile := Z; Column := list Z; Win := Z; Window := Z; window_id := fun x => x; Output := string; output_name := simple_output;
  tile_win := fun t => t; column_wins := fun c => c;
  ws_new := fun i o _ => {| sw_id := i; sw_name := None; sw_orig := o; sw_wins := [] |};
  ws_id := sw_id; ws_name := sw_name; ws_windows := sw_wins;
  ws_active_window := fun w => Ok (head (sw_wins w));
  ws_floating_is_active := fun _ => false;
  ws_original_output := sw_orig;
  ws_columns := fun w => (fun _ => 1%nat) <$> sw_wins w;
  ws_unname := fun w => {| sw_id := sw_id w; sw_name := None; sw_orig := sw_orig w; sw_wins := sw_wins w |};
  ws_set_original_output := fun o w => {| sw_id := sw_id w; sw_name := sw_name w; sw_orig := o; sw_wins := sw_wins w |};
  ws_set_output := fun _ _ w => Ok w;
  ws_update_config := fun _ _ w => Ok w;
  ws_advance_animations := fun _ w => Ok w;
  ws_make_tile := fun x _ => x;
  ws_add_tile := fun _ t _ _ _ _ _ w => Ok (sw_with w (t :: sw_wins w));
  ws_add_tile_to_column := fun _ _ _ t _ w => Ok (sw_with w (t :: sw_wins w));
  ws_add_column := fun _ c _ w => Ok (sw_with w (c ++ sw_wins w));
  ws_remove_tile := fun _ x w => Ok (simple_removed x, sw_with w (List.remove Z.eq_dec x (sw_wins w)));
  ws_remove_active_tile := fun _ w =>
    Ok match sw_wins w with [] => None | x :: l => Some (simple_removed x, sw_with w l) end;
  ws_remove_active_column := fun _ w =>
    Ok match sw_wins w with [] => None | x :: l => Some ([x], sw_with w l) end;
  ws_move_down := fun _ w => Ok (false, w);
  ws_move_up := fun _ w => Ok (false, w);
  ws_focus_down := fun _ w => Ok (false, w);
  ws_focus_up := fun _ w => Ok (false, w)
|}.

Lemma remove_perm x l : x ∈ l -> NoDup l -> l ≡ₚ x :: List.remove Z.eq_dec x l.
Proof.
  intros Hx Hnd. induction l as [|y l IH]; [by apply elem_of_nil in Hx|]. apply NoDup_cons in Hnd as [Hy Hnd].
  cbn. destruct (Z.eq_dec x y) as [->|Hne].
  - f_equiv. by rewrite List.notin_remove by (by rewrite <- list_elem_of_In).
  - apply elem_of_cons in Hx as [?|Hx]; [done|]. rewrite IH at 1 by done. apply Permutation_swap.
Qed.

#[export] Instance simple_laws `{!Libm, !Keyframe} : WorkspaceLaws.
Proof.
  assert (Hsame : forall w : SimpleWs, NoDup (sw_wins w) ->
    ws_becomes (fun v => NoDup (sw_wins v)) w (sw_wins w) w) by (intros; by split_and!).
  refine {| ws_ok := fun w => NoDup (sw_wins w); window_ok := fun _ => True; tile_ok := fun _ => True; column_ok := fun _ => True |};
    cbn; try done; try (intros; by eexists; eauto); try (intros; by eexists _, _; eauto).
  - intros w w' Ho. destruct Ho; cbn in *; simplify_eq; try done; by destruct (sw_wins w); simplify_eq.
  - intros i o opts. split_and!; [done..|intros _; apply NoDup_nil_2|done].
  - intros w c n _ Hl Heq. by rewrite Heq in Hl.
  - intros cv o w _ Hw. exists w. split; [done|]. split; [by apply Hsame|by left].
  - intros cv t tg a cw fw fl w _ Hw _ _ Ht. eexists. split; [done|]. split; [split_and!; [done..|]|done]. by apply NoDup_cons.
  - intros cv c i t a w n _ Hw _ Ht _ _. eexists. split; [done|]. split; [split_and!; [done..|]|done]. by apply NoDup_cons.
  - intros cv x w _ Hw Hx. pose proof (remove_perm x (sw_wins w) Hx Hw) as Hp.
    eexists _, _, _. split; [done|]. split; [done|]. split; [done|]. split; [exact Hp|]. split; [split_and!; [done..|]|done].
    cbn. rewrite Hp in Hw. by apply NoDup_cons in Hw as [_ ?].
  - intros cv w _ Hw. eexists. split; [done|]. destruct (sw_wins w) as [|x l] eqn:Ew; [done|]. split; [done|]. exists l. split; [done|].
    split; [split_and!; [done..|]|done]. by apply NoDup_cons in Hw as [_ ?].
  - intros cv w _ Hw. eexists. split; [done|]. destruct (sw_wins w) as [|x l] eqn:Ew; [done|]. split; [done|]. exists l. split; [done|].
    split; [done|]. split; [split_and!; [done..|]|done]. by apply NoDup_cons in Hw as [_ ?].
Defined.

(** ** Concrete runs *)
#[local] Existing Instance libm0.
#[local] Existing Instance keyframe0.
#[local] Instance smithay0 : Smithay := {| physical_ceil := fun _ x => x |}.

Definition easing0 : Config.Animation :=
  {| Config.off := false; Config.kind := Config.Easing {| Config.duration_ms := 250; Config.curve := Config.Linear |} |}.
Definition layout_options0 (ew : bool) : LayoutOptions :=
  let o := ScrollingThms.options0 in
  {| Tile.empty_workspace_above_first := ew; Tile.gaps := Tile.gaps o; Tile.struts := Tile.struts o; Tile.opt_border := Tile.opt_border o;
     Tile.opt_tab_indicator := Tile.opt_tab_indicator o; Tile.center_focused_column := Tile.center_focused_column o;
     Tile.always_center_single_column := Tile.always_center_single_column o; Tile.default_column_display := Tile.default_column_display o;
     Tile.preset_column_widths := Tile.preset_column_widths o; Tile.preset_window_heights := Tile.preset_window_heights o;
     Tile.default_column_width := Tile.default_column_width o; Tile.window_movement := Tile.window_movement o;
     Tile.horizontal_view_movement := Tile.horizontal_view_movement o; Tile.window_resize := Tile.window_resize o;
     Tile.window_open := Tile.window_open o; Tile.dnd_view_trigger_width := Tile.dnd_view_trigger_width o;
     Tile.dnd_view_delay_ms := Tile.dnd_view_delay_ms o; Tile.dnd_view_max_speed := Tile.dnd_view_max_speed o;
     Tile.disable_resize_throttling := Tile.disable_resize_throttling o; Tile.disable_transactions := Tile.disable_transactions o;
     Tile.deactivate_unfocused_windows := Tile.deactivate_unfocused_windows o |}.
Definition options0 (ew : bool) : Options :=
  {| opt_layout := layout_options0 ew; workspace_switch_anim := easing0; overview_open_close_anim := easing0; opt_overview_zoom := lit 1 2;
     dnd_trigger_height := of_Z 50; dnd_delay_ms := 100; dnd_max_speed := of_Z 1500 |}.
#[local] Instance home0 : Home := "DP-1"%string.
Definition ws0 (i : Z) : SimpleWs := {| sw_id := i; sw_name := None; sw_orig := "DP-1"; sw_wins := [i * 10] |}.
Definition empty0 (i : Z) : SimpleWs := {| sw_id := i; sw_name := None; sw_orig := "DP-1"; sw_wins := [] |}.

(** A monitor with the workspaces 1 and 2, the second one active. *)
Definition mon0 (ew : bool) : Monitor :=
  {| output := "DP-1"%string; scale := f1; view_size := (of_Z 1920, of_Z 1080);
     working_area := ((f0, f0), (of_Z 1920, of_Z 1080));
     workspaces := if ew then [empty0 5; ws0 1; ws0 2; empty0 6] else [ws0 1; ws0 2; empty0 5];
     active_workspace_idx := if ew then 2 else 1;
     previous_workspace_id := None; workspace_switch := None; overview_open := false; overview_progress := None;
     base_options := options0 ew; options := options0 ew; layout_config := None;
     id_counter := if ew then 7 else 6 |}.

Lemma mon_options0_ok ew : opts_ok (options0 ew).
Proof.
  constructor; [|apply easing_config_total; right; by eexists..]. destruct ScrollingThms.options0_ok. by constructor.
Qed.
Lemma new_pre0 ew : new_pre "DP-1"%string [ws0 1; ws0 2] (options0 ew) None 5.
Proof.
  constructor.
  - done.
  - rewrite !Forall_cons. split_and!; [apply NoDup_singleton..|constructor].
  - by repeat constructor.
  - repeat constructor; cbn; set_solver.
  - by repeat constructor.
  - repeat constructor; cbn; set_solver.
  - by vm_compute.
  - apply mon_options0_ok.
  - done.
Qed.

Lemma cv_at_ok : cv_ok (cv_at 5).
Proof. by vm_compute. Qed.

Lemma mon0_new ew :
  new (cv_at 5) ("DP-1"%string : Output) f1 (of_Z 1920, of_Z 1080) ((f0, f0), (of_Z 1920, of_Z 1080)) [ws0 1; ws0 2] (Some 2) (options0 ew) None 5
  = Ok (mon0 ew).
Proof. by destruct ew; vm_compute. Qed.

Lemma mon0_reachable ew : mon_reachable (mon0 ew).
Proof. eapply reach_new; [apply cv_at_ok|apply (new_pre0 ew)|apply (mon0_new ew)]. Qed.

Lemma mon0_ok ew : monitor_ok (mon0 ew).
Proof. apply reachable_ok, mon0_reachable. Qed.

Lemma room0 ew : room (mon0 ew) 2.
Proof. by destruct ew; vm_compute. Qed.

Lemma monitor_ops_safe_witness :
  exists outs m', run_op (cv_at 5) (OpMoveToWorkspaceUp true) (mon0 true) = Ok (outs, m') /\ monitor_ok m'
    /\ [] ++ windows (mon0 true) ≡ₚ (outs ≫= ws_windows) ++ windows m'.
Proof.
  apply (monitor_ops_safe (cv_at 5) (OpMoveToWorkspaceUp true) (mon0 true)).
  - apply mon0_reachable.
  - apply cv_at_ok.
  - split; [apply room0|exact I].
Defined.

Lemma monitor_new_ok_witness :
  exists m, new (cv_at 5) ("DP-1"%string : Output) f1 (of_Z 1920, of_Z 1080) ((f0, f0), (of_Z 1920, of_Z 1080)) [ws0 1; ws0 2] (Some 2)
    (options0 true) None 5 = Ok m /\ monitor_ok m /\ windows m ≡ₚ [10; 20].
Proof.
  apply (monitor_new_ok (WO := simple_ops) (cv_at 5) "DP-1"%string f1 (of_Z 1920, of_Z 1080) ((f0, f0), (of_Z 1920, of_Z 1080)) [ws0 1; ws0 2]
    (Some 2) (options0 true) None 5 cv_at_ok (new_pre0 true)).
Defined.

(** An empty workspace has been left behind between the two. *)
Definition dirty0 : Monitor := set_lists [ws0 1; empty0 3; ws0 2; empty0 5] 2 (mon0 false).
Lemma dirty0_semi : semi_ok dirty0.
Proof.
  pose proof (mon0_ok false) as Hok. constructor; [|by eexists|done].
  apply set_lists_core; [apply Hok|cbn; lia|..|exact I].
  - repeat constructor; cbn; set_solver.
  - by repeat constructor.
  - rewrite !Forall_cons. split_and!; [apply NoDup_singleton|constructor|apply NoDup_singleton|constructor|constructor].
  - repeat constructor; cbn; set_solver.
Qed.
Lemma clean_up_correct_witness :
  exists m', clean_up_workspaces dirty0 = Ok m' /\ monitor_ok m' /\ active_kept dirty0 m'
    /\ List.filter has_windows_or_name (workspaces m') = List.filter has_windows_or_name (workspaces dirty0).
Proof. apply (clean_up_correct dirty0); [exact dirty0_semi|reflexivity]. Defined.
Example clean_up_example :
  (m ← clean_up_workspaces dirty0; Ok (sw_id <$> workspaces m, active_workspace_idx m)) = Ok ([1; 2; 5], 1%nat).
Proof. by vm_compute. Qed.

Lemma move_workspace_keeps_focus_witness :
  (exists m', move_workspace_down (cv_at 5) (mon0 true) = Ok m' /\ move_done (ws0 2) (mon0 true) m')
  /\ (exists m', move_workspace_up (cv_at 5) (mon0 true) = Ok m' /\ move_done (ws0 2) (mon0 true) m').
Proof.
  apply (move_workspace_keeps_focus (cv_at 5) (mon0 true) (ws0 2));
    [apply mon0_ok|apply room0|apply cv_at_ok|reflexivity].
Defined.

Lemma switch_back_and_forth_witness :
  exists m1 m2, switch_workspace (cv_at 5) 0 (mon0 false) = Ok m1 /\ active_workspace_idx m1 = 0%nat
    /\ switch_workspace_previous (cv_at 5) m1 = Ok m2
    /\ active_workspace_idx m2 = 1%nat /\ workspaces m2 = workspaces (mon0 false).
Proof.
  apply (switch_back_and_forth (cv_at 5) 0 (mon0 false)); [apply mon0_ok|apply cv_at_ok|vm_compute; lia|vm_compute; lia].
Defined.

Lemma move_to_top_loses_focus_witness :
  exists m' w', move_workspace_to_idx 2 0 (mon0 true) = Ok m' /\ monitor_ok m'
    /\ workspaces m' !! active_workspace_idx m' = Some w'
    /\ workspaces (mon0 true) !! 1%nat = Some w' /\ ws_id w' <> 2.
Proof.
  apply (move_to_top_loses_focus (mon0 true) 2 (ws0 2));
    [apply mon0_ok|apply room0|reflexivity|reflexivity|lia|vm_compute; lia|reflexivity|reflexivity].
Defined.

Lemma move_workspace_to_idx_keeps_focus_witness :
  exists m', move_workspace_to_idx 0 1 (mon0 false) = Ok m' /\ monitor_ok m'
    /\ workspaces m' !! active_workspace_idx m' = Some (ws0 2).
Proof.
  apply (move_workspace_to_idx_keeps_focus (mon0 false) 0 1); [apply mon0_ok|apply room0|reflexivity].
Defined.

(** The monitor above during a touchpad gesture. *)
Definition gesture0 : Switch.WorkspaceSwitchGesture := new_gesture 1 f1 true true None.
Definition mon1 : Monitor := set_switch (Some (Switch.SwitchGesture gesture0)) (mon0 false).

Lemma mon1_ok : monitor_ok mon1.
Proof.
  destruct (run_op_ok (cv_at 5) (OpGestureBegin true) (mon0 false)) as (outs & m' & He & Hok & _);
    [apply mon0_ok|apply cv_at_ok|split; [apply room0|exact I]|].
  assert (Hm : run_op (cv_at 5) (OpGestureBegin true) (mon0 false) = Ok ([], mon1)) by (by vm_compute).
  rewrite Hm in He. by injection He as _ <-.
Qed.

Lemma clamped_gesture_ends_nearby_witness :
  exists m', workspace_switch_gesture_end (cv_at 5) 5 (Some true) mon1 = Ok (true, m')
    /\ (active_workspace_idx m' < len m')%nat /\ (active_workspace_idx m' <= 2)%nat /\ workspaces m' = workspaces mon1.
Proof.
  apply (clamped_gesture_ends_nearby (cv_at 5) 5 (Some true) mon1 gesture0);
    [apply mon1_ok|by vm_compute|apply cv_at_ok|by vm_compute|reflexivity|reflexivity|by right].
Defined.
