(* ===== verification/MonitorGeometry.v ===== *)
(** * Where the workspaces of a monitor are drawn (src/layout/monitor.rs)

    The workspaces of a monitor one below the other, scaled down in the overview;
    the workspace under a point, and where a window dropped at a point would go. *)

From stdpp Require Import base numbers option list strings.
From Stdlib Require Import ZArith Lia.
From S2P Require Import Prelude.
From S2P Require Import Runs.
From S2P Require Import F64.
From S2P Require Import Clock.
From S2P Require Import Animation.
From S2P Require Import AnimTotal.
From S2P Require Import LayoutTypes.
From S2P Require Import Tile.
From S2P Require Import TileGeometry.
From S2P Require Import Interface.
From S2P Require Import Monitor.
From S2P Require Import MonitorInv.
From S2P Require Import MonitorOps2.

(** Smithay's rectangles. *)
Class Rectangles := { rect_intersects : Rect -> Rect -> bool; rect_contains : Rect -> Point -> bool }.

Inductive InsertWorkspace := Existing (id : Z) | NewAt (i : nat).

Module MonitorGeometry.
Section ops.
Context {WO : WorkspaceOps} {SM : Smithay} {GE : Geometry} {RE : Rectangles} {LM : Libm} {KF : Keyframe}.
Abbreviation Mon := Monitor.Monitor.
Implicit Types (cv : ClockView) (m : Mon).

Definition workspace_size (zoom : f64) m : Size :=
  (Monitor.physical_ceil (Monitor.scale m) ((Monitor.view_size m).1 * zoom)%F,
   Monitor.physical_ceil (Monitor.scale m) ((Monitor.view_size m).2 * zoom)%F).

(** One more than there are workspaces. *)
Definition workspaces_render_geo cv m : res (list Rect) :=
  zoom ← Monitor.overview_zoom cv m;
  let ws_size := workspace_size zoom m in
  let height := (ws_size.2 + Monitor.workspace_gap zoom m)%F in
  let static := round_size (Monitor.scale m) (downscale (of_Z 2) (pair_sub (Monitor.view_size m) ws_size)) in
  idx ← Monitor.workspace_render_idx cv m;
  let first := round_logical_in_physical (Monitor.scale m) (- idx * height)%F in
  mret ((fun i => (pair_add (f0, (first + of_nat i * height)%F) static, ws_size)) <$> seq 0 (S (Monitor.len m))).

Definition output_geo m : Rect := ((f0, f0), Monitor.view_size m).
(** Those that are on the screen, with their indices. *)
Definition workspaces_with_render_geo_idx cv m : res (list ((nat * WS) * Rect)) :=
  geo ← workspaces_render_geo cv m;
  mret (List.filter (fun wg => rect_intersects wg.2 (output_geo m)) (zip (imap pair (Monitor.workspaces m)) geo)).
Definition workspaces_with_render_geo cv m : res (list (WS * Rect)) :=
  gs ← workspaces_with_render_geo_idx cv m; mret ((fun wg => (wg.1.2, wg.2)) <$> (gs : list ((nat * WS) * Rect))).

Definition workspace_under cv (pos : Point) m : res (option (WS * Rect)) :=
  gs ← workspaces_with_render_geo cv m;
  mret (find (fun wg => rect_contains ((f0, wg.2.1.2), ((Monitor.view_size m).1, wg.2.2.2)) pos) gs).
Definition workspace_under_narrow cv (pos : Point) m : res (option WS) :=
  gs ← workspaces_with_render_geo cv m;
  mret (fst <$> find (fun wg : WS * Rect => rect_contains wg.2 pos) gs).

(** Whether a point is at the height of a rectangle. *)
Definition spans (pos : Point) (geo : Rect) : bool := fleb geo.1.2 pos.2 && fltb pos.2 (geo.1.2 + geo.2.2)%F.
Definition dummy : Rect := ((f0, f0), (f0, f0)).
Fixpoint insert_below (pos : Point) (last_idx : nat) (last : Rect) (gs : list ((nat * WS) * Rect)) : InsertWorkspace * Rect :=
  match gs with
  | [] => (NewAt (last_idx + 1), dummy)
  | ((idx, w), geo) :: gs =>
      let gap_loc := (last.1.1, (last.1.2 + last.2.2)%F) in
      let gap := (gap_loc, (geo.2.1, (geo.1.2 - gap_loc.2)%F)) in
      if spans pos gap then (NewAt idx, dummy)
      else if spans pos geo then (Existing (ws_id w), geo)
      else insert_below pos idx geo gs
  end.
Definition insert_position cv (pos : Point) m : res (InsertWorkspace * Rect) :=
  gs ← workspaces_with_render_geo_idx cv m;
  match gs with
  | [] => Panic
  | ((idx, w), geo) :: gs =>
      mret (if fltb pos.2 geo.1.2 then (NewAt idx, dummy)
            else if spans pos geo then (Existing (ws_id w), geo)
            else insert_below pos idx geo gs)
  end.
End ops.
End MonitorGeometry.
Import MonitorGeometry.

Section ok.
Context {WO : WorkspaceOps} {LM : Libm} {KF : Keyframe} {WL : WorkspaceLaws} {SM : Smithay} {GE : Geometry} {RE : Rectangles} {HM : Home}.
Implicit Types (cv : ClockView) (m : Monitor.Monitor).

Lemma render_geo_ok cv m :
  mon_core m -> cv_ok cv -> exists gs, workspaces_render_geo cv m = Ok gs /\ length gs = S (Monitor.len m).
Proof.
  intros Hc Hcv. unfold workspaces_render_geo. destruct (overview_zoom_ok cv m Hc Hcv) as [z ->]. cbn [mbind res_bind].
  destruct (render_idx_ok cv m Hc Hcv) as [i ->]. cbn [mbind res_bind]. eexists. split; [done|]. by rewrite length_fmap, length_seq.
Qed.

(** What is on the screen are workspaces of the monitor. *)
Lemma with_geo_ok cv m :
  mon_core m -> cv_ok cv ->
  exists gs, workspaces_with_render_geo_idx cv m = Ok gs
    /\ forall i w geo, ((i, w), geo) ∈ gs -> Monitor.workspaces m !! i = Some w.
Proof.
  intros Hc Hcv. unfold workspaces_with_render_geo_idx. destruct (render_geo_ok cv m Hc Hcv) as (gs & -> & Hl). cbn [mbind res_bind].
  eexists. split; [done|]. intros i w geo Hin%list_elem_of_In%filter_In. destruct Hin as [Hin%list_elem_of_In _].
  apply list_elem_of_lookup in Hin as [k Hk]. apply lookup_zip_Some in Hk as [Hk _]. rewrite list_lookup_imap in Hk.
  destruct (Monitor.workspaces m !! k) as [v|] eqn:Ev; [|done]. by injection Hk as <- <-.
Qed.

(** Where a window would be dropped: on a workspace of the monitor, or at a place
    between two of them, if any is on the screen. *)
Definition insert_ok m (p : InsertWorkspace) : Prop :=
  match p with
  | Existing id => exists i w, Monitor.workspaces m !! i = Some w /\ ws_id w = id
  | NewAt i => (i <= Monitor.len m)%nat
  end.
Definition visible cv m : Prop := workspaces_with_render_geo_idx cv m <> Ok [].

Lemma insert_below_ok m pos k last gs :
  (k < Monitor.len m)%nat -> (forall i w geo, ((i, w), geo) ∈ gs -> Monitor.workspaces m !! i = Some w) ->
  insert_ok m (insert_below pos k last gs).1.
Proof.
  revert k last. induction gs as [|[[i w] geo] gs IH]; intros k last Hk Hgs; cbn [insert_below].
  - cbn. lia.
  - pose proof (Hgs i w geo ltac:(left)) as Hw. pose proof (lookup_lt_Some _ _ _ Hw) as Hi.
    destruct (spans pos _); [cbn; unfold Monitor.len; lia|]. destruct (spans pos geo); [by exists i, w|].
    apply IH; [done|]. intros j v g Hin. apply (Hgs j v g). by right.
Qed.
Lemma insert_position_ok cv pos m :
  mon_core m -> cv_ok cv -> visible cv m -> exists p geo, insert_position cv pos m = Ok (p, geo) /\ insert_ok m p.
Proof.
  intros Hc Hcv Hv. unfold insert_position, visible in *. destruct (with_geo_ok cv m Hc Hcv) as (gs & He & Hgs). rewrite He in *.
  cbn [mbind res_bind]. destruct gs as [|[[i w] geo] gs]; [done|]. pose proof (Hgs i w geo ltac:(left)) as Hw.
  pose proof (lookup_lt_Some _ _ _ Hw) as Hi. destruct (fltb _ _); [eexists _, _; split; [done|]; cbn; unfold Monitor.len; lia|].
  destruct (spans pos geo); [eexists _, _; split; [done|]; by exists i, w|].
  destruct (insert_below pos i geo gs) as [p g] eqn:E. exists p, g. split; [done|].
  change p with ((p, g).1). rewrite <-E. apply insert_below_ok; [done|]. intros j v g' Hin. apply (Hgs j v g'). by right.
Qed.
End ok.
