(* ===== verification/Layout.v ===== *)
(** * The layout of all monitors (src/layout/mod.rs)

    A layout is a non-empty set of monitors with a primary and an active one, or,
    with no outputs connected, a list of workspaces.  Workspaces remember the
    output they belong to: when an output goes away its workspaces move to the
    primary monitor, and when it comes back they return.

    The counter of workspace ids is global in the source; here it is a field of
    the layout, handed to a monitor ([set_counter]) before an operation and read
    back after it.  Workspaces are used through [WorkspaceOps] and [LayoutOps].
    A window in an interactive move is part of the state; the moves themselves are
    in [LayoutDrag].  Rendering and dragging of things other than windows are left
    out. *)

From stdpp Require Import base numbers option list strings gmap.
From Stdlib Require Import ZArith Lia.
From S2P Require Import Prelude.
From S2P Require Import F64.
From S2P Require Import Duration.
From S2P Require Import Clock.
From S2P Require Import Gesture.
From S2P Require Import Animation.
From S2P Require Import OutputName.
From S2P Require Import LayoutTypes.
From S2P Require Import Interface.
From S2P Require Import Monitor.

Local Open Scope Z_scope.

(** What the layout uses of outputs, tiles and workspaces besides [WorkspaceOps]. *)
Class LayoutOps `{!WorkspaceOps} := {
  PresetSize : Type;
  SizeChange : Type;
  size_change_from : PresetSize -> SizeChange;
  output_scale : Output -> f64;
  output_size : Output -> f64 * f64;
  output_working_area : Output -> (f64 * f64) * (f64 * f64);
  tile_stop_move_animations : Tile -> Tile;
  tile_update_config : Output -> Options -> Tile -> Tile;
  ws_new_with_config : Z -> Output -> WorkspaceConfig -> Options -> WS;
  ws_new_with_config_no_outputs : Z -> option WorkspaceConfig -> Options -> WS;
  ws_set_name : string -> WS -> WS;
  ws_resolve_scrolling_width : Window -> option PresetSize -> WS -> ColumnWidth;
  ws_set_window_height : ClockView -> Win -> SizeChange -> WS -> res WS;
  ws_activate_window : ClockView -> Win -> WS -> res (bool * WS);
  ws_activate_window_without_raising : ClockView -> Win -> WS -> res (bool * WS);
  (** Puts a tile that was being dragged back in its place. *)
  ws_release_tile : ClockView -> Win -> WS -> res WS;
  ws_dnd_scroll_gesture_end : ClockView -> WS -> res WS
}.

Module Layout.
Section ops.
Context {WO : WorkspaceOps} {LO : LayoutOps} {LM : Libm} {KF : Keyframe} {SM : Smithay}.
Implicit Types (cv : ClockView) (now : Duration).

Record InteractiveMoveData := {
  im_tile : Tile;
  im_output : Output;
  im_pointer_pos_within_output : f64 * f64;
  im_width : ColumnWidth;
  im_is_full_width : bool;
  im_is_floating : bool;
  im_pointer_ratio_within_window : f64 * f64;
  im_output_config : option LayoutPart;
  im_workspace_config : option (Z * LayoutPart)
}.

Inductive InteractiveMoveState :=
| Starting (window_id : Win) (pointer_delta pointer_ratio_within_window : f64 * f64)
| Moving (m : InteractiveMoveData).

Record OverviewGesture := { og_tracker : SwipeTracker.SwipeTracker; og_start : f64; og_value : f64 }.
Inductive OverviewProgress :=
| ProgressAnimation (a : Animation.Animation)
| ProgressGesture (g : OverviewGesture).

Inductive MonitorSet :=
| Normal (monitors : list Monitor.Monitor) (primary_idx active_monitor_idx : nat)
| NoOutputs (workspaces : list WS).

Inductive AddWindowTarget :=
| AddAuto
| AddOutput (o : Output)
| AddWorkspace (id : Z)
| AddNextTo (w : Win).

Inductive WorkspaceReference :=
| RefId (id : Z)
| RefIndex (index : Z)
| RefName (name : string).

Record Layout := {
  monitor_set : MonitorSet;
  last_active_workspace_id : gmap string Z;
  interactive_move : option InteractiveMoveState;
  overview_open : bool;
  overview_progress : option OverviewProgress;
  options : Options;
  id_counter : Z
}.

Definition set_monitor_set (s : MonitorSet) (c : Z) (l : Layout) : Layout :=
  {| monitor_set := s; last_active_workspace_id := last_active_workspace_id l;
     interactive_move := interactive_move l; overview_open := overview_open l;
     overview_progress := overview_progress l; options := options l; id_counter := c |}.
Definition set_last_active (t : gmap string Z) (l : Layout) : Layout :=
  {| monitor_set := monitor_set l; last_active_workspace_id := t;
     interactive_move := interactive_move l; overview_open := overview_open l;
     overview_progress := overview_progress l; options := options l; id_counter := id_counter l |}.
Definition set_interactive_move (m : option InteractiveMoveState) (l : Layout) : Layout :=
  {| monitor_set := monitor_set l; last_active_workspace_id := last_active_workspace_id l;
     interactive_move := m; overview_open := overview_open l;
     overview_progress := overview_progress l; options := options l; id_counter := id_counter l |}.
Definition set_overview (b : bool) (p : option OverviewProgress) (l : Layout) : Layout :=
  {| monitor_set := monitor_set l; last_active_workspace_id := last_active_workspace_id l;
     interactive_move := interactive_move l; overview_open := b;
     overview_progress := p; options := options l; id_counter := id_counter l |}.
Definition set_options (o : Options) (l : Layout) : Layout :=
  {| monitor_set := monitor_set l; last_active_workspace_id := last_active_workspace_id l;
     interactive_move := interactive_move l; overview_open := overview_open l;
     overview_progress := overview_progress l; options := o; id_counter := id_counter l |}.

Definition with_options (o : Options) (counter : Z) : Layout :=
  {| monitor_set := NoOutputs []; last_active_workspace_id := ∅; interactive_move := None;
     overview_open := false; overview_progress := None; options := o; id_counter := counter |}.

(** One workspace per [workspace] block of the configuration. *)
Fixpoint config_workspaces (configs : list WorkspaceConfig) (o : Options) (counter : Z) : list WS * Z :=
  match configs with
  | [] => ([], counter)
  | c :: configs =>
      let '(i, counter) := id_next counter in
      let '(wss, counter) := config_workspaces configs o counter in
      (ws_new_with_config_no_outputs i (Some c) o :: wss, counter)
  end.
Definition with_options_and_workspaces (configs : list WorkspaceConfig) (o : Options) (counter : Z) : Layout :=
  let '(wss, counter) := config_workspaces configs o counter in
  set_monitor_set (NoOutputs wss) counter (with_options o counter).

(** ** Running operations of monitors *)
Definition on_monitor {A} (i : nat) (f : Monitor.Monitor -> res (A * Monitor.Monitor)) (mons : list Monitor.Monitor) (c : Z)
    : res (A * list Monitor.Monitor * Z) :=
  m ← index mons i;
  '(a, m) ← f (Monitor.set_counter c m);
  mret (a, <[i := m]> mons, Monitor.id_counter m).

Definition lift_op (f : Monitor.Monitor -> res Monitor.Monitor) (m : Monitor.Monitor) : res (unit * Monitor.Monitor) :=
  m ← f m; mret (tt, m).

Fixpoint each_monitor (f : Monitor.Monitor -> res Monitor.Monitor) (mons : list Monitor.Monitor) (c : Z)
    : res (list Monitor.Monitor * Z) :=
  match mons with
  | [] => Ok ([], c)
  | m :: mons =>
      m ← f (Monitor.set_counter c m);
      '(mons, c) ← each_monitor f mons (Monitor.id_counter m);
      mret (m :: mons, c)
  end.

(** A loop over the monitors that stops at the first one for which [f] returns
    a result; [i] is the index of the first monitor of the list. *)
Fixpoint first_monitor {A} (f : Monitor.Monitor -> res (option A * Monitor.Monitor)) (i : nat)
    (mons : list Monitor.Monitor) (c : Z) : res (option (nat * A) * list Monitor.Monitor * Z) :=
  match mons with
  | [] => Ok (None, [], c)
  | m :: mons =>
      '(o, m) ← f (Monitor.set_counter c m);
      match o with
      | Some a => mret (Some (i, a), m :: mons, Monitor.id_counter m)
      | None =>
          '(o, mons, c) ← first_monitor f (S i) mons (Monitor.id_counter m);
          mret (o, m :: mons, c)
      end
  end.

(** An operation on the active monitor; nothing happens without outputs. *)
Definition on_active_monitor (f : Monitor.Monitor -> res Monitor.Monitor) (l : Layout) : res Layout :=
  match monitor_set l with
  | Normal mons primary active =>
      '(_, mons, c) ← on_monitor active (lift_op f) mons (id_counter l);
      mret (set_monitor_set (Normal mons primary active) c l)
  | NoOutputs _ => mret l
  end.

Definition each_workspace (f : WS -> res WS) (l : Layout) : res Layout :=
  match monitor_set l with
  | Normal mons primary active =>
      '(mons, c) ← each_monitor (fun m => wss ← for_each f (Monitor.workspaces m); mret (Monitor.set_workspaces wss m))
                     mons (id_counter l);
      mret (set_monitor_set (Normal mons primary active) c l)
  | NoOutputs wss => wss ← for_each f wss; mret (set_monitor_set (NoOutputs wss) (id_counter l) l)
  end.

(** ** Queries *)
Definition monitor_progress (p : option OverviewProgress) : option Monitor.OverviewProgress :=
  match p with
  | Some (ProgressAnimation a) => Some (OverviewAnimation a)
  | Some (ProgressGesture g) => Some (OverviewValue (og_value g))
  | None => None
  end.

Definition workspaces (l : Layout) : list WS :=
  match monitor_set l with
  | Normal mons _ _ => mons ≫= Monitor.workspaces
  | NoOutputs wss => wss
  end.

Definition moving_windows (l : Layout) : list Win :=
  match interactive_move l with Some (Moving m) => [tile_win (im_tile m)] | _ => [] end.

Definition windows (l : Layout) : list Win := moving_windows l ++ (workspaces l ≫= ws_windows).

Definition is_moving (x : Win) (l : Layout) : bool :=
  match interactive_move l with Some (Moving m) => bool_decide (tile_win (im_tile m) = x) | _ => false end.

Definition named (name : string) (w : WS) : bool :=
  match ws_name w with Some n => eq_ignore_ascii_case n name | None => false end.

Definition find_workspace_by_name (name : string) (l : Layout) : option WS :=
  i ← position (named name) (workspaces l); workspaces l !! i.

(** The id of the workspace a reference stands for. *)
Definition find_workspace_by_ref (r : WorkspaceReference) (l : Layout) : res (option Z) :=
  match r with
  | RefIndex index =>
      match monitor_set l with
      | Normal mons _ active =>
          m ← Prelude.index mons active;
          mret (ws_id <$> Monitor.workspaces m !! Z.to_nat (index - 1))
      | NoOutputs _ => mret None
      end
  | RefName name => mret (ws_id <$> find_workspace_by_name name l)
  | RefId id => mret (i ← position (fun w => ws_id w =? id) (workspaces l); ws_id <$> workspaces l !! i)
  end.

Definition active_workspace (l : Layout) : res (option WS) :=
  match monitor_set l with
  | Normal mons _ active => m ← index mons active; w ← Monitor.active_workspace m; mret (Some w)
  | NoOutputs _ => mret None
  end.

(** ** Connecting and disconnecting outputs *)

(** One round of the loop that takes the workspaces of the new output [o] off
    the primary monitor. *)
Definition reclaim_step (o : Output) (st : Monitor.Monitor * list WS * bool) (i : nat)
    : res (Monitor.Monitor * list WS * bool) :=
  let '(primary, wss, stopped) := st in
  w ← index (Monitor.workspaces primary) i;
  if output_matches (ws_original_output w) o then
    '(w, rest) ← vec_remove i (Monitor.workspaces primary);
    let stopped := match Monitor.workspace_switch primary with Some _ => true | None => stopped end in
    let wss := if has_windows_or_name w then wss ++ [w] else wss in
    let active := Monitor.active_workspace_idx primary in
    let active :=
      if (i <=? active)%nat && negb (Monitor.ewaf primary && bool_decide (active = 1%nat))
      then (active - 1)%nat else active in
    mret (Monitor.set_switch None (Monitor.set_lists rest active primary), wss, stopped)
  else mret (primary, wss, stopped).

Definition reclaim (o : Output) (primary : Monitor.Monitor) : res (list WS * Monitor.Monitor) :=
  '(primary, wss, stopped) ←
    foldl (fun st i => st ← st; reclaim_step o st i) (Ok (primary, [], false)) (reverse (seq 0 (Monitor.len primary)));
  primary ← (if stopped || (Monitor.ewaf primary && bool_decide (Monitor.len primary = 2%nat))
             then Monitor.clean_up_workspaces primary else Ok primary);
  mret (reverse wss, primary).

Definition set_overview_open (b : bool) (m : Monitor.Monitor) : Monitor.Monitor :=
  {| Monitor.output := Monitor.output m; Monitor.scale := Monitor.scale m; Monitor.view_size := Monitor.view_size m;
     Monitor.working_area := Monitor.working_area m; Monitor.workspaces := Monitor.workspaces m;
     Monitor.active_workspace_idx := Monitor.active_workspace_idx m;
     Monitor.previous_workspace_id := Monitor.previous_workspace_id m;
     Monitor.workspace_switch := Monitor.workspace_switch m; Monitor.overview_open := b;
     Monitor.overview_progress := Monitor.overview_progress m; Monitor.base_options := Monitor.base_options m;
     Monitor.options := Monitor.options m; Monitor.layout_config := Monitor.layout_config m;
     Monitor.id_counter := Monitor.id_counter m |}.

(** A monitor for the new output with the given workspaces. *)
Definition new_monitor cv (o : Output) (wss : list WS) (lc : option LayoutPart) (l : Layout)
    : res (Monitor.Monitor * Layout) :=
  let name := connector (output_name o) in
  m ← Monitor.new cv o (output_scale o) (output_size o) (output_working_area o) wss (last_active_workspace_id l !! name)
        (options l) lc (id_counter l);
  m ← Monitor.set_overview_progress cv (monitor_progress (overview_progress l)) (set_overview_open (overview_open l) m);
  mret (m, set_last_active (delete name (last_active_workspace_id l)) l).

Definition add_output cv (o : Output) (lc : option LayoutPart) (l : Layout) : res Layout :=
  match monitor_set l with
  | Normal mons primary active =>
      '(wss, mons, c) ← on_monitor primary (reclaim o) mons (id_counter l);
      '(m, l) ← new_monitor cv o wss lc (set_monitor_set (monitor_set l) c l);
      mret (set_monitor_set (Normal (mons ++ [m]) primary active) (Monitor.id_counter m) l)
  | NoOutputs wss =>
      '(m, l) ← new_monitor cv o wss lc l;
      mret (set_monitor_set (Normal [m] 0 0) (Monitor.id_counter m) l)
  end.

Definition monitor_idx (o : Output) (mons : list Monitor.Monitor) : option nat :=
  position (fun m => bool_decide (Monitor.output m = o)) mons.

Definition remove_output cv (o : Output) (l : Layout) : res Layout :=
  match monitor_set l with
  | Normal mons primary active =>
      idx ← unwrap (monitor_idx o mons);
      '(m, mons) ← vec_remove idx mons;
      w ← Monitor.active_workspace m;
      let l := set_last_active (<[connector (output_name (Monitor.output m)) := ws_id w]> (last_active_workspace_id l)) l in
      wss ← Monitor.into_workspaces cv m;
      match mons with
      | [] =>
          wss ← for_each (ws_update_config cv (options l)) wss;
          mret (set_monitor_set (NoOutputs wss) (id_counter l) l)
      | _ =>
          let primary := if (idx <=? primary)%nat then (primary - 1)%nat else primary in
          let active := if (idx <=? active)%nat then (active - 1)%nat else active in
          '(_, mons, c) ← on_monitor primary (lift_op (Monitor.append_workspaces cv wss)) mons (id_counter l);
          mret (set_monitor_set (Normal mons primary active) c l)
      end
  | NoOutputs _ => Panic
  end.

(** ** Adding and removing windows *)
Definition on_outputs (mons : list Monitor.Monitor) (o : Output) : res nat := unwrap (monitor_idx o mons).
Definition monitor_with_window (x : Win) (mons : list Monitor.Monitor) : option nat :=
  position (fun m => existsb (has_window x) (Monitor.workspaces m)) mons.

(** The monitor a new window goes to, and where on it. *)
Definition resolve_add_target (target : AddWindowTarget) (mons : list Monitor.Monitor) (active : nat) (l : Layout)
    : res (nat * MonitorAddWindowTarget Win) :=
  match target with
  | AddAuto => mret (active, MonAuto)
  | AddOutput o => i ← on_outputs mons o; mret (i, MonAuto)
  | AddWorkspace id =>
      i ← unwrap (position (fun m => existsb (fun w => ws_id w =? id) (Monitor.workspaces m)) mons);
      mret (i, MonWorkspace id None)
  | AddNextTo x =>
      match interactive_move l with
      | Some (Moving mv) =>
          if bool_decide (tile_win (im_tile mv) = x) then mret (default active (monitor_idx (im_output mv) mons), MonAuto)
          else i ← unwrap (monitor_with_window x mons); mret (i, MonNextTo x)
      | _ => i ← unwrap (monitor_with_window x mons); mret (i, MonNextTo x)
      end
  end.

(** The default height of a new scrolling window. *)
Definition apply_height cv (x : Win) (height : option PresetSize) (is_floating : bool) (w : WS) : res WS :=
  match height with
  | Some h => if is_floating then mret w else ws_set_window_height cv x (size_change_from h) w
  | None => mret w
  end.

Definition add_window_to_monitor cv (x : Window) (target : MonitorAddWindowTarget Win) (width height : option PresetSize)
    (is_full_width is_floating : bool) (activate : ActivateWindow) (m : Monitor.Monitor) : res Monitor.Monitor :=
  '(ws_idx, _) ← Monitor.resolve_add_window_target target m;
  w ← index (Monitor.workspaces m) ws_idx;
  let scrolling_width := ws_resolve_scrolling_width x width w in
  m ← Monitor.add_window cv x target activate scrolling_width is_full_width is_floating m;
  if negb is_floating && match height with Some _ => true | None => false end then
    idx ← unwrap (position (has_window (window_id x)) (Monitor.workspaces m));
    Monitor.update_ws idx (apply_height cv (window_id x) height is_floating) m
  else mret m.

Definition resolve_without_outputs (target : AddWindowTarget) (wss : list WS) (l : Layout)
    : res (nat * WorkspaceAddWindowTarget Win * list WS * Z) :=
  let push := match wss with
              | [] => let '(i, c) := id_next (id_counter l) in ([ws_new_with_config_no_outputs i None (options l)], c)
              | _ => (wss, id_counter l)
              end in
  match target with
  | AddAuto => mret (0%nat, Auto, push.1, push.2)
  | AddOutput _ => Panic
  | AddWorkspace id =>
      i ← unwrap (position (fun w => ws_id w =? id) wss); mret (i, Auto, wss, id_counter l)
  | AddNextTo x =>
      if is_moving x l then mret (0%nat, Auto, push.1, push.2)
      else i ← unwrap (position (has_window x) wss); mret (i, NextTo x, wss, id_counter l)
  end.

Definition add_window cv (x : Window) (target : AddWindowTarget) (width height : option PresetSize)
    (is_full_width is_floating : bool) (activate : ActivateWindow) (l : Layout) : res (option Output * Layout) :=
  match monitor_set l with
  | Normal mons primary active =>
      '(mon_idx, target) ← resolve_add_target target mons active l;
      '(o, mons, c) ← on_monitor mon_idx (fun m =>
          m ← add_window_to_monitor cv x target width height is_full_width is_floating activate m;
          mret (Monitor.output m, m)) mons (id_counter l);
      let active := if map_smart false activate then mon_idx else active in
      mret (Some o, set_monitor_set (Normal mons primary active) c l)
  | NoOutputs wss =>
      '(ws_idx, target, wss, c) ← resolve_without_outputs target wss l;
      w ← index wss ws_idx;
      let scrolling_width := ws_resolve_scrolling_width x width w in
      w ← ws_add_tile cv (ws_make_tile x w) target activate scrolling_width is_full_width is_floating w;
      w ← apply_height cv (window_id x) height is_floating w;
      mret (None, set_monitor_set (NoOutputs (<[ws_idx := w]> wss)) c l)
  end.

(** Takes a window off a monitor that has it. *)
Definition remove_from_monitor cv (x : Win) (m : Monitor.Monitor) : res (RemovedTile Tile * Monitor.Monitor) :=
  idx ← unwrap (position (has_window x) (Monitor.workspaces m));
  w ← index (Monitor.workspaces m) idx;
  '(r, w) ← ws_remove_tile cv x w;
  let m := Monitor.set_workspaces (<[idx := w]> (Monitor.workspaces m)) m in
  last ← usub (Monitor.len m) 1;
  let idle := match Monitor.workspace_switch m with None => true | Some _ => false end in
  let active := Monitor.active_workspace_idx m in
  m ← (if negb (has_windows_or_name w) && negb (bool_decide (idx = active)) && negb (bool_decide (idx = last)) && idle then
         '(_, wss) ← vec_remove idx (Monitor.workspaces m);
         mret (Monitor.set_lists wss (if (idx <? active)%nat then active - 1 else active)%nat m)
       else mret m);
  m ← (if Monitor.ewaf m && bool_decide (Monitor.len m = 2%nat) && idle then
         w0 ← index (Monitor.workspaces m) 0;
         _ ← rassert (negb (has_windows_or_name w0));
         w1 ← index (Monitor.workspaces m) 1;
         _ ← rassert (negb (has_windows_or_name w1));
         '(_, wss) ← vec_remove 1 (Monitor.workspaces m);
         mret (Monitor.set_lists wss 0 m)
       else mret m);
  mret (r, m).

Definition dnd_scroll_gesture_end cv now (l : Layout) : res Layout :=
  match monitor_set l with
  | Normal mons primary active =>
      '(mons, c) ← each_monitor (Monitor.dnd_scroll_gesture_end cv now) mons (id_counter l);
      mret (set_monitor_set (Normal mons primary active) c l)
  | NoOutputs _ => mret l
  end.

(** [interactive_move_end] while the window has not left the layout yet. *)
Definition cancel_starting_move cv now (x : Win) (l : Layout) : res Layout :=
  l ← dnd_scroll_gesture_end cv now (set_interactive_move None l);
  each_workspace (fun w =>
    w ← (if has_window x w then ws_release_tile cv x w else mret w);
    active ← ws_active_window w;
    let was_active := bool_decide (active = Some x) in
    w ← ws_dnd_scroll_gesture_end cv w;
    if was_active then '(_, w) ← ws_activate_window cv x w; mret w else mret w) l.

(** Removes a window that is on a workspace. *)
Definition remove_placed cv (x : Win) (l : Layout) : res (option (RemovedTile Tile) * Layout) :=
  match monitor_set l with
  | Normal mons primary active =>
      match monitor_with_window x mons with
      | Some i =>
          '(r, mons, c) ← on_monitor i (remove_from_monitor cv x) mons (id_counter l);
          mret (Some r, set_monitor_set (Normal mons primary active) c l)
      | None => mret (None, l)
      end
  | NoOutputs wss =>
      match position (has_window x) wss with
      | Some i =>
          w ← index wss i;
          '(r, w) ← ws_remove_tile cv x w;
          wss ← (if has_windows_or_name w then mret (<[i := w]> wss) else '(_, wss) ← vec_remove i wss; mret wss);
          mret (Some r, set_monitor_set (NoOutputs wss) (id_counter l) l)
      | None => mret (None, l)
      end
  end.

Definition remove_window cv now (x : Win) (l : Layout) : res (option (RemovedTile Tile) * Layout) :=
  match interactive_move l with
  | Some (Starting y _ _) =>
      if bool_decide (y = x) then l ← cancel_starting_move cv now x l; remove_placed cv x l else remove_placed cv x l
  | Some (Moving mv) =>
      if bool_decide (tile_win (im_tile mv) = x) then
        l ← dnd_scroll_gesture_end cv now (set_interactive_move None l);
        l ← each_workspace (ws_dnd_scroll_gesture_end cv) l;
        mret (Some {| rt_tile := im_tile mv; rt_width := im_width mv; rt_is_full_width := im_is_full_width mv;
                      rt_is_floating := false |}, l)
      else remove_placed cv x l
  | None => remove_placed cv x l
  end.

(** ** Activation *)

(** On one monitor: the first workspace that has the window activates it, and is
    switched to unless a swipe is already between it and another one. *)
Fixpoint activate_in (f : WS -> res (bool * WS)) (idx : nat) (wss : list WS) : res (option nat * list WS) :=
  match wss with
  | [] => Ok (None, [])
  | w :: wss =>
      '(b, w) ← f w;
      if b : bool then mret (Some idx, w :: wss)
      else '(o, wss) ← activate_in f (S idx) wss; mret (o, w :: wss)
  end.

Definition activate_on_monitor cv (f : WS -> res (bool * WS)) (m : Monitor.Monitor) : res (option unit * Monitor.Monitor) :=
  '(o, wss) ← activate_in f 0 (Monitor.workspaces m);
  let m := Monitor.set_workspaces wss m in
  match o with
  | None => mret (None, m)
  | Some idx =>
      let between := match Monitor.workspace_switch m with
                     | Some (Switch.SwitchGesture g) =>
                         feqb (ffloor (Switch.g_current_idx g)) (of_nat idx)
                         || feqb (fceil (Switch.g_current_idx g)) (of_nat idx)
                     | _ => false
                     end in
      m ← (if between then mret m else Monitor.switch_workspace cv idx m);
      mret (Some tt, m)
  end.

Definition activate_with cv (f : Win -> WS -> res (bool * WS)) (x : Win) (l : Layout) : res Layout :=
  if is_moving x l then mret l
  else
    match monitor_set l with
    | Normal mons primary active =>
        '(o, mons, c) ← first_monitor (activate_on_monitor cv (f x)) 0 mons (id_counter l);
        mret (set_monitor_set (Normal mons primary (default active (option_map fst o))) c l)
    | NoOutputs _ => mret l
    end.
Definition activate_window cv : Win -> Layout -> res Layout := activate_with cv (ws_activate_window cv).
Definition activate_window_without_raising cv : Win -> Layout -> res Layout :=
  activate_with cv (ws_activate_window_without_raising cv).

Definition focus_output (o : Output) (l : Layout) : Layout :=
  match monitor_set l with
  | Normal mons primary active =>
      set_monitor_set (Normal mons primary (default active (monitor_idx o mons))) (id_counter l) l
  | NoOutputs _ => l
  end.

(** ** Moving between outputs *)
Definition add_column_by_idx cv (monitor_idx workspace_idx : nat) (c : Column) (activate : bool) (l : Layout) : res Layout :=
  match monitor_set l with
  | Normal mons primary active =>
      '(_, mons, k) ← on_monitor monitor_idx (lift_op (Monitor.add_column cv workspace_idx c activate)) mons (id_counter l);
      mret (set_monitor_set (Normal mons primary (if activate then monitor_idx else active)) k l)
  | NoOutputs _ => Panic
  end.

(** Where the window to move is: its monitor and workspace. *)
Definition move_source (window : option Win) (mons : list Monitor.Monitor) (active : nat) : res (nat * nat) :=
  match window with
  | Some x =>
      i ← unwrap (monitor_with_window x mons);
      m ← index mons i;
      j ← unwrap (position (has_window x) (Monitor.workspaces m));
      mret (i, j)
  | None => m ← index mons active; mret (active, Monitor.active_workspace_idx m)
  end.

Definition guards_move (window : option Win) (l : Layout) : bool :=
  match interactive_move l with
  | Some (Moving mv) =>
      match window with None => true | Some x => bool_decide (tile_win (im_tile mv) = x) end
  | _ => false
  end.

Definition move_to_output cv (window : option Win) (o : Output) (target_ws_idx : option nat) (activate : ActivateWindow)
    (l : Layout) : res Layout :=
  if guards_move window l then mret l
  else
    match monitor_set l with
    | NoOutputs _ => mret l
    | Normal mons primary active =>
        new_idx ← unwrap (monitor_idx o mons);
        '(mon_idx, ws_idx) ← move_source window mons active;
        new_mon ← index mons new_idx;
        let workspace_idx := default (Monitor.active_workspace_idx new_mon) target_ws_idx in
        if bool_decide (mon_idx = new_idx) && bool_decide (ws_idx = workspace_idx) then mret l
        else if (Monitor.len new_mon <=? workspace_idx)%nat then mret l
        else
          target_ws ← index (Monitor.workspaces new_mon) workspace_idx;
          let id := ws_id target_ws in
          mon ← index mons mon_idx;
          active_ws ← Monitor.active_workspace mon;
          smart ← match activate, window with
                  | Smart, Some x =>
                      if bool_decide (mon_idx = active) then o ← ws_active_window active_ws; mret (bool_decide (o = Some x)) else mret false
                  | _, _ => mret true
                  end;
          let activate := if map_smart smart activate then Yes else No in
          w ← index (Monitor.workspaces mon) ws_idx;
          removed ← match window with
                    | Some x => rw ← ws_remove_tile cv x w; mret (Some rw)
                    | None => ws_remove_active_tile cv w
                    end;
          match removed with
          | None => mret l
          | Some (r, w) =>
              let mons := <[mon_idx := Monitor.set_workspaces (<[ws_idx := w]> (Monitor.workspaces mon)) mon]> mons in
              '(_, mons, c) ← on_monitor new_idx (lift_op (Monitor.add_tile cv (tile_stop_move_animations (rt_tile r))
                  (MonWorkspace id None) activate true (rt_width r) (rt_is_full_width r) (rt_is_floating r)))
                  mons (id_counter l);
              let active := if map_smart false activate then new_idx else active in
              '(_, mons, c) ← on_monitor mon_idx (lift_op Monitor.clean_up_if_idle) mons c;
              mret (set_monitor_set (Normal mons primary active) c l)
          end
    end.

Definition move_column_to_output cv (o : Output) (target_ws_idx : option nat) (activate : bool) (l : Layout) : res Layout :=
  match monitor_set l with
  | NoOutputs _ => mret l
  | Normal mons primary active =>
      new_idx ← unwrap (monitor_idx o mons);
      current ← index mons active;
      w ← Monitor.active_workspace current;
      if ws_floating_is_active w then move_to_output cv None o None Smart l
      else
        removed ← ws_remove_active_column cv w;
        match removed with
        | None => mret l
        | Some (c, w) =>
            let current := Monitor.set_workspaces
              (<[Monitor.active_workspace_idx current := w]> (Monitor.workspaces current)) current in
            let mons := <[active := current]> mons in
            new_mon ← index mons new_idx;
            last ← usub (Monitor.len new_mon) 1;
            let workspace_idx := (default (Monitor.active_workspace_idx new_mon) target_ws_idx `min` last)%nat in
            add_column_by_idx cv new_idx workspace_idx c activate
              (set_monitor_set (Normal mons primary active) (id_counter l) l)
        end
  end.

Definition move_workspace_to_output_by_id cv (old_idx : nat) (old_output : option Output) (new_output : Output) (l : Layout)
    : res (bool * Layout) :=
  match monitor_set l with
  | NoOutputs _ => mret (false, l)
  | Normal mons primary active =>
      current_idx ← match old_output with Some o => unwrap (monitor_idx o mons) | None => mret active end;
      target_idx ← unwrap (monitor_idx new_output mons);
      current ← index mons current_idx;
      if (Monitor.len current <=? old_idx)%nat then mret (false, l)
      else if bool_decide (current_idx = target_idx) then
        '(_, mons, c) ← on_monitor current_idx (lift_op (Monitor.update_ws old_idx (fun w =>
            mret (ws_set_original_output (Monitor.output current) w)))) mons (id_counter l);
        mret (false, set_monitor_set (Normal mons primary active) c l)
      else
        let activate := bool_decide (current_idx = active) && bool_decide (old_idx = Monitor.active_workspace_idx current) in
        '(w, mons, c) ← on_monitor current_idx (Monitor.remove_workspace_by_idx cv old_idx) mons (id_counter l);
        let w := ws_set_original_output new_output w in
        target ← index mons target_idx;
        '(_, mons, c) ← on_monitor target_idx (lift_op (Monitor.insert_workspace cv w
            (Monitor.active_workspace_idx target + 1) activate)) mons c;
        mret (activate, set_monitor_set (Normal mons primary (if activate then target_idx else active)) c l)
  end.

Definition move_workspace_to_output cv (o : Output) (l : Layout) : res (bool * Layout) :=
  match monitor_set l with
  | NoOutputs _ => mret (false, l)
  | Normal mons _ active =>
      m ← index mons active;
      move_workspace_to_output_by_id cv (Monitor.active_workspace_idx m) None o l
  end.

(** ** Named workspaces *)
Definition unname_workspace_by_id (id : Z) (l : Layout) : res Layout :=
  match monitor_set l with
  | Normal mons primary active =>
      '(_, mons, c) ← first_monitor (fun m =>
          '(b, m) ← Monitor.unname_workspace id m; mret (if b : bool then Some tt else None, m)) 0 mons (id_counter l);
      mret (set_monitor_set (Normal mons primary active) c l)
  | NoOutputs wss =>
      match position (fun w => ws_id w =? id) wss with
      | Some i =>
          w ← index wss i;
          let w := ws_unname w in
          wss ← (if has_windows w then mret (<[i := w]> wss) else '(_, wss) ← vec_remove i wss; mret wss);
          mret (set_monitor_set (NoOutputs wss) (id_counter l) l)
      | None => mret l
      end
  end.
Definition unname_workspace_by_ref (r : WorkspaceReference) (l : Layout) : res Layout :=
  o ← find_workspace_by_ref r l;
  match o with Some id => unname_workspace_by_id id l | None => mret l end.
Definition unname_workspace (name : string) : Layout -> res Layout := unname_workspace_by_ref (RefName name).

Definition referenced (r : option WorkspaceReference) (l : Layout) : res (option Z) :=
  match r with
  | Some r => find_workspace_by_ref r l
  | None => o ← active_workspace l; Ok (ws_id <$> (o : option WS))
  end.

(** The workspaces a named or renamed one needs around it, on monitor [m]. *)
Definition ensure_empty_for (id : Z) (m : Monitor.Monitor) : res Monitor.Monitor :=
  let has_id o := match o with Some w => ws_id w =? id | None => false end in
  m ← (if Monitor.ewaf m && has_id (head (Monitor.workspaces m)) then Monitor.add_workspace_top m else mret m);
  if has_id (last (Monitor.workspaces m)) then Monitor.add_workspace_bottom m else mret m.

Definition set_workspace_name (name : string) (r : option WorkspaceReference) (l : Layout) : res Layout :=
  match find_workspace_by_name name l with
  | Some _ => mret l
  | None =>
      o ← referenced r l;
      match o with
      | None => mret l
      | Some id =>
          l ← each_workspace (fun w => mret (if ws_id w =? id then ws_set_name name w else w)) l;
          on_active_monitor (ensure_empty_for id) l
      end
  end.

Definition unset_workspace_name (r : option WorkspaceReference) (l : Layout) : res Layout :=
  o ← referenced r l;
  match o with Some id => unname_workspace_by_id id l | None => mret l end.

Definition ensure_named_workspace cv (config : WorkspaceConfig) (l : Layout) : res Layout :=
  match find_workspace_by_name (wc_name config) l with
  | Some _ => mret l
  | None =>
      let '(i, c) := id_next (id_counter l) in
      match monitor_set l with
      | Normal mons primary active =>
          let mon_idx := match wc_open_on_output config with
                         | Some name => default primary (position (fun m => matches (output_name (Monitor.output m)) name) mons)
                         | None => active
                         end in
          m ← index mons mon_idx;
          let w := ws_new_with_config i (Monitor.output m) config (options l) in
          '(_, mons, c) ← on_monitor mon_idx (lift_op (Monitor.insert_workspace cv w 0 false)) mons c;
          mret (set_monitor_set (Normal mons primary active) c l)
      | NoOutputs wss =>
          let w := ws_new_with_config_no_outputs i (Some config) (options l) in
          wss ← vec_insert 0 w wss;
          mret (set_monitor_set (NoOutputs wss) c l)
      end
  end.

(** ** Operations on one monitor *)

Definition move_down_or_to_workspace_down cv : Layout -> res Layout :=
  on_active_monitor (Monitor.move_down_or_to_workspace_down cv).
Definition move_up_or_to_workspace_up cv : Layout -> res Layout :=
  on_active_monitor (Monitor.move_up_or_to_workspace_up cv).
Definition focus_window_or_workspace_down cv : Layout -> res Layout :=
  on_active_monitor (Monitor.focus_window_or_workspace_down cv).
Definition focus_window_or_workspace_up cv : Layout -> res Layout :=
  on_active_monitor (Monitor.focus_window_or_workspace_up cv).
Definition move_to_workspace_up cv (focus : bool) : Layout -> res Layout :=
  on_active_monitor (Monitor.move_to_workspace_up cv focus).
Definition move_to_workspace_down cv (focus : bool) : Layout -> res Layout :=
  on_active_monitor (Monitor.move_to_workspace_down cv focus).
Definition move_column_to_workspace_up cv (activate : bool) : Layout -> res Layout :=
  on_active_monitor (Monitor.move_column_to_workspace_up cv activate).
Definition move_column_to_workspace_down cv (activate : bool) : Layout -> res Layout :=
  on_active_monitor (Monitor.move_column_to_workspace_down cv activate).
Definition move_column_to_workspace cv (idx : nat) (activate : bool) : Layout -> res Layout :=
  on_active_monitor (Monitor.move_column_to_workspace cv idx activate).
Definition switch_workspace_up cv : Layout -> res Layout :=
  on_active_monitor (Monitor.switch_workspace_up cv).
Definition switch_workspace_down cv : Layout -> res Layout :=
  on_active_monitor (Monitor.switch_workspace_down cv).
Definition switch_workspace cv (idx : nat) : Layout -> res Layout :=
  on_active_monitor (Monitor.switch_workspace cv idx).
Definition switch_workspace_auto_back_and_forth cv (idx : nat) : Layout -> res Layout :=
  on_active_monitor (Monitor.switch_workspace_auto_back_and_forth cv idx).
Definition switch_workspace_previous cv : Layout -> res Layout :=
  on_active_monitor (Monitor.switch_workspace_previous cv).
Definition move_workspace_down cv : Layout -> res Layout :=
  on_active_monitor (Monitor.move_workspace_down cv).
Definition move_workspace_up cv : Layout -> res Layout :=
  on_active_monitor (Monitor.move_workspace_up cv).

(** The actions that only concern the active monitor. *)
Inductive ActiveOp :=
| MoveDownOrToWorkspaceDown | MoveUpOrToWorkspaceUp
| FocusWindowOrWorkspaceDown | FocusWindowOrWorkspaceUp
| MoveToWorkspaceUp (focus : bool) | MoveToWorkspaceDown (focus : bool)
| MoveColumnToWorkspaceUp (activate : bool) | MoveColumnToWorkspaceDown (activate : bool)
| MoveColumnToWorkspace (idx : nat) (activate : bool)
| SwitchWorkspaceUp | SwitchWorkspaceDown | SwitchWorkspace (idx : nat)
| SwitchWorkspaceAutoBackAndForth (idx : nat) | SwitchWorkspacePrevious
| MoveWorkspaceDown | MoveWorkspaceUp.

Definition active_op cv (op : ActiveOp) : Layout -> res Layout :=
  match op with
  | MoveDownOrToWorkspaceDown => move_down_or_to_workspace_down cv
  | MoveUpOrToWorkspaceUp => move_up_or_to_workspace_up cv
  | FocusWindowOrWorkspaceDown => focus_window_or_workspace_down cv
  | FocusWindowOrWorkspaceUp => focus_window_or_workspace_up cv
  | MoveToWorkspaceUp focus => move_to_workspace_up cv focus
  | MoveToWorkspaceDown focus => move_to_workspace_down cv focus
  | MoveColumnToWorkspaceUp activate => move_column_to_workspace_up cv activate
  | MoveColumnToWorkspaceDown activate => move_column_to_workspace_down cv activate
  | MoveColumnToWorkspace idx activate => move_column_to_workspace cv idx activate
  | SwitchWorkspaceUp => switch_workspace_up cv
  | SwitchWorkspaceDown => switch_workspace_down cv
  | SwitchWorkspace idx => switch_workspace cv idx
  | SwitchWorkspaceAutoBackAndForth idx => switch_workspace_auto_back_and_forth cv idx
  | SwitchWorkspacePrevious => switch_workspace_previous cv
  | MoveWorkspaceDown => move_workspace_down cv
  | MoveWorkspaceUp => move_workspace_up cv
  end.

Definition move_to_workspace cv (window : option Win) (idx : nat) (activate : ActivateWindow) (l : Layout) : res Layout :=
  if guards_move window l then mret l
  else
    match monitor_set l with
    | NoOutputs _ => mret l
    | Normal mons primary active =>
        i ← match window with
            | Some x => unwrap (position (fun m => existsb (has_window x) (Monitor.workspaces m)) mons)
            | None => mret active
            end;
        '(_, mons, c) ← on_monitor i (lift_op (Monitor.move_to_workspace cv window idx activate)) mons (id_counter l);
        mret (set_monitor_set (Normal mons primary active) c l)
    end.

(** [reference] is an output, if any, and the index of a workspace on it. *)
Definition move_workspace_to_idx (reference : option (option Output * nat)) (new_idx : nat) (l : Layout) : res Layout :=
  match monitor_set l with
  | NoOutputs _ => mret l
  | Normal mons primary active =>
      active_mon ← index mons active;
      let target := match reference with
                    | Some (Some o, old_idx) => i ← monitor_idx o mons; Some (i, old_idx)
                    | Some (None, old_idx) => Some (active, old_idx)
                    | None => Some (active, Monitor.active_workspace_idx active_mon)
                    end in
      match target with
      | None => mret l
      | Some (i, old_idx) =>
          '(_, mons, c) ← on_monitor i (lift_op (Monitor.move_workspace_to_idx old_idx new_idx)) mons (id_counter l);
          mret (set_monitor_set (Normal mons primary active) c l)
      end
  end.

(** ** Gestures across monitors *)
Definition workspace_switch_gesture_begin cv now (o : Output) (touchpad : bool) (l : Layout) : res Layout :=
  match monitor_set l with
  | NoOutputs _ => Panic
  | Normal mons primary active =>
      '(mons, c) ← each_monitor (fun m =>
          if bool_decide (Monitor.output m = o) then Monitor.workspace_switch_gesture_begin cv touchpad m
          else '(_, m) ← Monitor.workspace_switch_gesture_end cv now None m; mret m) mons (id_counter l);
      mret (set_monitor_set (Normal mons primary active) c l)
  end.

(** Returns the output to redraw, if the gesture belongs to one. *)
Definition workspace_switch_gesture_update cv (delta_y : f64) (timestamp : Duration) (touchpad : bool) (l : Layout)
    : res (option (option Output) * Layout) :=
  match monitor_set l with
  | NoOutputs _ => mret (None, l)
  | Normal mons primary active =>
      '(o, mons, c) ← first_monitor (fun m =>
          '(refresh, m) ← Monitor.workspace_switch_gesture_update cv delta_y timestamp touchpad m;
          mret (option_map (fun b : bool => if b then Some (Monitor.output m) else None) refresh, m)) 0 mons (id_counter l);
      mret (option_map snd o, set_monitor_set (Normal mons primary active) c l)
  end.

Definition workspace_switch_gesture_end cv now (touchpad : option bool) (l : Layout) : res (option Output * Layout) :=
  match monitor_set l with
  | NoOutputs _ => mret (None, l)
  | Normal mons primary active =>
      '(o, mons, c) ← first_monitor (fun m =>
          '(b, m) ← Monitor.workspace_switch_gesture_end cv now touchpad m;
          mret (if b : bool then Some (Monitor.output m) else None, m)) 0 mons (id_counter l);
      mret (option_map snd o, set_monitor_set (Normal mons primary active) c l)
  end.

(** ** The overview *)
Definition OVERVIEW_GESTURE_MOVEMENT : f64 := of_Z 300.
Definition OVERVIEW_GESTURE_RUBBER_BAND : RubberBand.RubberBand :=
  {| RubberBand.stiffness := lit 1 2; RubberBand.limit := lit 5 100 |}.

Definition set_monitors_overview_state cv (l : Layout) : res Layout :=
  match monitor_set l with
  | NoOutputs _ => mret l
  | Normal mons primary active =>
      '(mons, c) ← each_monitor (fun m =>
          Monitor.set_overview_progress cv (monitor_progress (overview_progress l)) (set_overview_open (overview_open l) m))
          mons (id_counter l);
      mret (set_monitor_set (Normal mons primary active) c l)
  end.

Definition progress_value cv (p : option OverviewProgress) : res f64 :=
  match p with
  | None => mret f0
  | Some (ProgressAnimation a) => Animation.value cv a
  | Some (ProgressGesture g) => mret (og_value g)
  end.

Definition toggle_overview cv (l : Layout) : res Layout :=
  let opened := negb (overview_open l) in
  from ← progress_value cv (overview_progress l);
  a ← Animation.new cv from (if opened then f1 else f0) f0 (overview_open_close_anim (options l));
  set_monitors_overview_state cv (set_overview opened (Some (ProgressAnimation a)) l).

Definition open_overview cv (l : Layout) : res (bool * Layout) :=
  if overview_open l then mret (false, l) else l ← toggle_overview cv l; mret (true, l).
Definition close_overview cv (l : Layout) : res (bool * Layout) :=
  if overview_open l then l ← toggle_overview cv l; mret (true, l) else mret (false, l).
Definition toggle_overview_to_workspace cv (ws_idx : nat) (l : Layout) : res Layout :=
  l ← on_active_monitor (Monitor.activate_workspace_with_anim_config cv ws_idx (Some (overview_open_close_anim (options l)))) l;
  toggle_overview cv l.

Definition overview_gesture_begin cv (l : Layout) : res Layout :=
  v ← progress_value cv (overview_progress l);
  let g := {| og_tracker := SwipeTracker.new; og_start := v; og_value := v |} in
  set_monitors_overview_state cv (set_overview true (Some (ProgressGesture g)) l).

Definition overview_gesture_update cv (delta_y : f64) (timestamp : Duration) (l : Layout) : res (option bool * Layout) :=
  match overview_progress l with
  | Some (ProgressGesture g) =>
      t ← SwipeTracker.push delta_y timestamp (og_tracker g);
      let pos := (SwipeTracker.pos t / OVERVIEW_GESTURE_MOVEMENT)%F in
      new_value ← RubberBand.clamp OVERVIEW_GESTURE_RUBBER_BAND f0 f1 (og_start g + pos)%F;
      if feqb (og_value g) new_value then
        mret (Some false, set_overview (overview_open l)
          (Some (ProgressGesture {| og_tracker := t; og_start := og_start g; og_value := og_value g |})) l)
      else
        l ← set_monitors_overview_state cv (set_overview (overview_open l)
          (Some (ProgressGesture {| og_tracker := t; og_start := og_start g; og_value := new_value |})) l);
        mret (Some true, l)
  | _ => mret (None, l)
  end.

Definition overview_gesture_end cv now (l : Layout) : res (bool * Layout) :=
  match overview_progress l with
  | Some (ProgressGesture g) =>
      t ← SwipeTracker.push f0 now (og_tracker g);
      v ← SwipeTracker.velocity t;
      let velocity := (v / OVERVIEW_GESTURE_MOVEMENT)%F in
      let current_pos := (SwipeTracker.pos t / OVERVIEW_GESTURE_MOVEMENT)%F in
      p ← SwipeTracker.projected_end_pos t;
      let pos := (p / OVERVIEW_GESTURE_MOVEMENT)%F in
      new_value ← fclamp (og_start g + pos)%F f0 f1;
      let new_value := fround new_value in
      d ← RubberBand.clamp_derivative OVERVIEW_GESTURE_RUBBER_BAND f0 f1 (og_start g + current_pos)%F;
      a ← Animation.new cv (og_value g) new_value (velocity * d)%F (overview_open_close_anim (options l));
      l ← set_monitors_overview_state cv (set_overview (feqb new_value f1) (Some (ProgressAnimation a)) l);
      mret (true, l)
  | _ => mret (false, l)
  end.

(** ** Configuration *)
Definition update_options cv (o : Options) (l : Layout) : res Layout :=
  let move := match interactive_move l with
              | Some (Moving mv) =>
                  let opts := with_merged_layout (snd <$> im_workspace_config mv)
                                (with_merged_layout (im_output_config mv) o) in
                  Some (Moving {| im_tile := tile_update_config (im_output mv) opts (im_tile mv); im_output := im_output mv;
                                  im_pointer_pos_within_output := im_pointer_pos_within_output mv; im_width := im_width mv;
                                  im_is_full_width := im_is_full_width mv; im_is_floating := im_is_floating mv;
                                  im_pointer_ratio_within_window := im_pointer_ratio_within_window mv;
                                  im_output_config := im_output_config mv; im_workspace_config := im_workspace_config mv |})
              | m => m
              end in
  let l := set_interactive_move move l in
  l ← match monitor_set l with
      | Normal mons primary active =>
          '(mons, c) ← each_monitor (Monitor.update_config cv o) mons (id_counter l);
          mret (set_monitor_set (Normal mons primary active) c l)
      | NoOutputs wss =>
          wss ← for_each (ws_update_config cv o) wss;
          mret (set_monitor_set (NoOutputs wss) (id_counter l) l)
      end;
  mret (set_options o l).
End ops.
End Layout.
