(* ===== verification/LayoutInv.v ===== *)
(** * The invariant of layouts

    Every monitor satisfies its own invariant with the global counter, outputs
    do not match each other's names, and ids and windows are unique across
    monitors.  Operations on one monitor and loops over all of them preserve it.

    Of [Layout::verify_invariants] (src/layout/mod.rs) it has: the primary and the active
    index in range; monitors with the options and the overview flag of the layout; ids of
    workspaces that are unique; without outputs no empty unnamed workspaces; a grabbed
    window that exists, and a held one in order.  It leaves out that names of workspaces
    are unique, which monitor a workspace belongs on, the value of the overview progress
    and the options of workspaces without outputs being those of the layout, the options,
    alpha animation and rounding of a held tile, and that at most one workspace has a view
    gesture; the clock is shared by construction. *)

From stdpp Require Import base numbers option list strings gmap.
From Stdlib Require Import ZArith Lia.
From S2P Require Import Prelude.
From S2P Require Import F64.
From S2P Require Import Duration.
From S2P Require Import Clock.
From S2P Require Import Gesture.
From S2P Require Import Animation.
From S2P Require Import AnimTotal.
From S2P Require Import OutputName.
From S2P Require Import LayoutTypes.
From S2P Require Import Interface.
From S2P Require Import Monitor.
From S2P Require Import MonitorIds.
From S2P Require Import MonitorInv.
From S2P Require Import MonitorOps.
From S2P Require Import MonitorOps2.
From S2P Require Import Layout.

Local Open Scope Z_scope.

(** What the layout relies on in its workspaces. *)
Class LayoutLaws `{!WorkspaceOps, !Libm, !Keyframe, !WorkspaceLaws, !LayoutOps} := {
  tile_stop_spec t : tile_win (tile_stop_move_animations t) = tile_win t;
  tile_stop_ok t : tile_ok t -> tile_ok (tile_stop_move_animations t);
  tile_update_spec o opts t : tile_win (tile_update_config o opts t) = tile_win t;
  tile_update_ok o opts t : opts_ok opts -> tile_ok t -> tile_ok (tile_update_config o opts t);
  ws_new_with_config_spec i o c opts :
    let w := ws_new_with_config i o c opts in
    ws_id w = i /\ ws_name w = Some (wc_name c) /\ ws_windows w = [] /\ (opts_ok opts -> part_ok (wc_layout c) -> ws_ok w);
  ws_new_no_outputs_spec i c opts :
    let w := ws_new_with_config_no_outputs i c opts in
    ws_id w = i /\ ws_name w = wc_name <$> c /\ ws_windows w = [] /\ (opts_ok opts -> part_ok (c ≫= wc_layout) -> ws_ok w);
  ws_set_name_spec n w : ws_ok w ->
    ws_id (ws_set_name n w) = ws_id w /\ ws_name (ws_set_name n w) = Some n
    /\ ws_windows (ws_set_name n w) = ws_windows w /\ ws_ok (ws_set_name n w)
    /\ ws_original_output (ws_set_name n w) = ws_original_output w;
  ws_set_window_height_spec cv x h w : cv_ok cv -> ws_ok w -> x ∈ ws_windows w ->
    exists w', ws_set_window_height cv x h w = Ok w' /\ ws_becomes ws_ok w (ws_windows w) w';
  ws_activate_window_spec cv x w : cv_ok cv -> ws_ok w ->
    exists w', ws_activate_window cv x w = Ok (has_window x w, w') /\ ws_becomes ws_ok w (ws_windows w) w';
  ws_activate_window_without_raising_spec cv x w : cv_ok cv -> ws_ok w ->
    exists w', ws_activate_window_without_raising cv x w = Ok (has_window x w, w') /\ ws_becomes ws_ok w (ws_windows w) w';
  ws_release_tile_spec cv x w : cv_ok cv -> ws_ok w -> x ∈ ws_windows w ->
    exists w', ws_release_tile cv x w = Ok w' /\ ws_becomes ws_ok w (ws_windows w) w';
  (** A gesture of a workspace can end if its arithmetic does not give NaN. *)
  ws_gesture_ok : ClockView -> WS -> Prop;
  ws_dnd_end_spec cv w : cv_ok cv -> ws_ok w -> ws_gesture_ok cv w ->
    exists w', ws_dnd_scroll_gesture_end cv w = Ok w' /\ ws_becomes ws_ok w (ws_windows w) w'
}.

Section inv.
Context {WO : WorkspaceOps} {LM : Libm} {KF : Keyframe} {WL : WorkspaceLaws} {LO : LayoutOps} {LL : LayoutLaws}.
Context {SM : Smithay}.
Abbreviation Mon := Monitor.Monitor.
Implicit Types (N : list Z) (m : Mon) (mons : list Mon) (w : WS) (wss : list WS) (c : Z) (cv : ClockView).

Definition mon_ids m : list Z := ws_id <$> Monitor.workspaces m.

Definition home_of m : Home := output_id (Monitor.output m).

(** The invariant of one monitor, with the counter at [c], but for cleanliness. *)
Definition mon_semi (c : Z) m : Prop := semi_ok (HM := home_of m) (Monitor.set_counter c m).

(** No output is matched by the name of another one. *)
Definition distinct mons : Prop :=
  forall i j mi mj, mons !! i = Some mi -> mons !! j = Some mj -> i <> j ->
    output_matches (output_id (Monitor.output mi)) (Monitor.output mj) = false.

Record mons_ok (c : Z) mons : Prop := {
  ms_semi : Forall (mon_semi c) mons;
  ms_distinct : distinct mons;
  ms_ids : NoDup (mons ≫= mon_ids);
  ms_nonneg : Forall (Z.le 0) (mons ≫= mon_ids);
  ms_wins : NoDup (mons ≫= Monitor.windows)
}.

(** ** Monitors and the counter *)
Lemma set_counter_id m : Monitor.set_counter (Monitor.id_counter m) m = m.
Proof. by destruct m. Qed.

Lemma mon_semi_mono c c' m : c <= c' -> mon_semi c m -> mon_semi c' m.
Proof.
  intros Hc [Hcore Hl Hf]. constructor; [|done..]. destruct Hcore. constructor; cbn in *; try done.
  eapply Forall_impl; [exact mc_fresh|]. cbn. lia.
Qed.

Lemma mon_semi_fresh c m x : mon_semi c m -> x ∈ mon_ids m -> x < c.
Proof.
  intros [Hcore _ _] (w & -> & Hw)%list_elem_of_fmap. pose proof (mc_fresh _ Hcore) as HF.
  rewrite Forall_forall in HF. by apply HF.
Qed.

Lemma mon_semi_ids c m : mon_semi c m -> NoDup (mon_ids m).
Proof. intros [Hcore _ _]. apply (mc_ids _ Hcore). Qed.

(** Distinct ids below the counter leave room for more workspaces. *)
Lemma nodup_bound (l : list Z) c : NoDup l -> (forall x, x ∈ l -> 0 <= x < c) -> Z.of_nat (length l) <= Z.max 0 c.
Proof.
  intros Hnd Hl. assert (Hs : l ⊆+ seqZ 0 c).
  { apply NoDup_submseteq; [done|]. intros x Hx. apply elem_of_seqZ. specialize (Hl x Hx). lia. }
  apply submseteq_length in Hs. rewrite length_seqZ in Hs. lia.
Qed.

Lemma mons_fresh c mons x : mons_ok c mons -> x ∈ (mons ≫= mon_ids) -> 0 <= x < c.
Proof.
  intros [Hok _ _ Hpos _] Hx. split; [rewrite Forall_forall in Hpos; by apply Hpos|].
  apply list_elem_of_bind in Hx as (m & Hx & Hm). eapply mon_semi_fresh; [|done].
  eapply Forall_forall; [exact Hok|done].
Qed.

Lemma mons_count c mons : mons_ok c mons -> Z.of_nat (length (mons ≫= mon_ids)) <= Z.max 0 c.
Proof. intros Hok. apply nodup_bound; [apply Hok|]. intros x. by apply mons_fresh. Qed.

Lemma mons_room c mons m k :
  mons_ok c mons -> m ∈ mons -> 0 <= c -> c + Z.of_nat k < 2 ^ 53 -> room (Monitor.set_counter c m) k.
Proof.
  intros Hok Hm Hc Hk. unfold room. change (Monitor.id_counter (Monitor.set_counter c m)) with c.
  assert (Hlen : Z.of_nat (Monitor.len m) <= c).
  { pose proof (mons_count c mons Hok) as Hn. unfold Monitor.len.
    apply list_elem_of_split in Hm as (l1 & l2 & ->). rewrite bind_app in Hn. cbn in Hn. rewrite !length_app in Hn.
    assert (length (mon_ids m) = length (Monitor.workspaces m)) by apply length_fmap. lia. }
  change (Monitor.len (Monitor.set_counter c m)) with (Monitor.len m). lia.
Qed.

(** ** What operations do to a monitor *)

(** [m'] keeps the output of [m]; its ids are those of [m], those in [N], or
    new. *)
Record ids_from (N : list Z) (k : nat) m m' : Prop := {
  if_output : Monitor.output m' = Monitor.output m;
  if_counter : 0 <= Monitor.id_counter m -> Monitor.id_counter m + Z.of_nat k < 2 ^ 64 ->
    Monitor.id_counter m <= Monitor.id_counter m' <= Monitor.id_counter m + Z.of_nat k;
  if_ids : 0 <= Monitor.id_counter m -> Monitor.id_counter m + Z.of_nat k < 2 ^ 64 ->
    forall x, x ∈ mon_ids m' -> x ∈ N \/ x ∈ mon_ids m \/ Monitor.id_counter m <= x
}.

Lemma evolves_ids N k m m' : evolves N k m m' -> ids_from N k m m'.
Proof. by intros []. Qed.

(** [m] became [m'], taking in the windows [ins] and workspaces with the ids
    [N] and giving out the windows [outs]. *)
Record works (N : list Z) (k : nat) (ins outs : list Win) m m' : Prop := {
  wk_semi : semi_ok (HM := home_of m) m';
  wk_clean : clean m -> clean m';
  wk_ids : ids_from N k m m';
  wk_wins : ins ++ Monitor.windows m ≡ₚ outs ++ Monitor.windows m'
}.

Lemma step_works N k ins m m' :
  step_ok (HM := home_of m) ins m m' -> evolves N k m m' -> works N k ins [] m m'.
Proof. intros (Hs & Hcl & Hw & _) Hev. constructor; [done..|by apply evolves_ids|by rewrite Hw]. Qed.

(** ** Replacing one monitor *)
Lemma mons_split (i : nat) mons m m' :
  mons !! i = Some m -> <[i := m']> mons ≡ₚ m' :: delete i mons /\ mons ≡ₚ m :: delete i mons.
Proof.
  intros Hi. split; [|by apply delete_perm]. assert (Hlt : (i < length mons)%nat) by (by eapply lookup_lt_Some).
  rewrite (delete_perm i m' (<[i := m']> mons)) by (by apply list_lookup_insert_eq).
  by rewrite !delete_take_drop, take_insert_ge, drop_insert_lt by lia.
Qed.

Lemma mons_wins_at (i : nat) mons m :
  mons !! i = Some m -> mons ≫= Monitor.windows ≡ₚ Monitor.windows m ++ (delete i mons ≫= Monitor.windows).
Proof. intros Hi. rewrite (delete_perm i m mons Hi) at 1. done. Qed.

Lemma mons_wins_replace (i : nat) mons m m' :
  mons !! i = Some m ->
  <[i := m']> mons ≫= Monitor.windows ≡ₚ Monitor.windows m' ++ (delete i mons ≫= Monitor.windows).
Proof. intros Hi. by rewrite (proj1 (mons_split i mons m m' Hi)). Qed.

Lemma distinct_replace (i : nat) mons m m' :
  mons !! i = Some m -> Monitor.output m' = Monitor.output m -> distinct mons -> distinct (<[i := m']> mons).
Proof.
  intros Hi Ho Hd.
  assert (Hout : forall j mj, <[i := m']> mons !! j = Some mj ->
    exists mj0, mons !! j = Some mj0 /\ Monitor.output mj = Monitor.output mj0).
  { intros j mj [(<- & <- & _)|[? ?]]%list_lookup_insert_Some; [by exists m|by exists mj]. }
  intros a b ma mb (ma0 & Ha & ->)%Hout (mb0 & Hb & ->)%Hout Hab. by apply (Hd a b).
Qed.

Lemma replace_ok c c' (i : nat) mons m m' N :
  mons_ok c mons -> mons !! i = Some m -> 0 <= c <= c' -> mon_semi c' m' ->
  Monitor.output m' = Monitor.output m ->
  (forall x, x ∈ mon_ids m' -> x ∈ N \/ x ∈ mon_ids m \/ c <= x) ->
  (forall x, x ∈ N -> 0 <= x /\ x ∉ (mons ≫= mon_ids)) ->
  NoDup (Monitor.windows m' ++ (delete i mons ≫= Monitor.windows)) ->
  mons_ok c' (<[i := m']> mons).
Proof.
  intros [Hok Hd Hids Hpos Hw] Hi Hc Hm' Ho Hsub HN Hnd. destruct (mons_split i mons m m' Hi) as [Hp Hp0].
  rewrite Hp0 in Hok, Hids, Hpos. cbn in Hids, Hpos. apply Forall_cons in Hok as [_ Hok].
  apply NoDup_app in Hids as (_ & Hdis & Hrest). apply Forall_app in Hpos as [Hpm Hpos]. rewrite Forall_forall in Hpm.
  constructor; [rewrite Hp|by eapply distinct_replace|rewrite Hp; cbn..|by rewrite Hp].
  - constructor; [done|]. eapply Forall_impl; [exact Hok|]. intros x. apply mon_semi_mono. lia.
  - apply NoDup_app. split_and!; [by eapply mon_semi_ids| |done]. intros x Hx Hin.
    destruct (Hsub x Hx) as [HxN|[Hxm|Hxc]].
    + apply (HN x HxN). rewrite Hp0. cbn. apply elem_of_app. by right.
    + by apply (Hdis x).
    + apply list_elem_of_bind in Hin as (y & Hxy & Hy). rewrite Forall_forall in Hok.
      pose proof (mon_semi_fresh c y x (Hok y Hy) Hxy). lia.
  - apply Forall_app. split; [|done]. apply Forall_forall. intros x Hx.
    destruct (Hsub x Hx) as [HxN|[Hxm|Hxc]]; [by apply HN|by apply Hpm|lia].
Qed.

(** One monitor changes. *)
Lemma works_replace N k ins outs (i : nat) c mons m m' :
  mons_ok c mons -> mons !! i = Some m -> 0 <= c -> c + Z.of_nat k < 2 ^ 64 ->
  works N k ins outs (Monitor.set_counter c m) m' ->
  (forall x, x ∈ N -> 0 <= x /\ x ∉ (mons ≫= mon_ids)) -> NoDup (ins ++ (mons ≫= Monitor.windows)) ->
  mons_ok (Monitor.id_counter m') (<[i := m']> mons)
  /\ c <= Monitor.id_counter m' <= c + Z.of_nat k
  /\ ins ++ (mons ≫= Monitor.windows) ≡ₚ outs ++ (<[i := m']> mons ≫= Monitor.windows).
Proof.
  intros Hok Hi Hc Hk [Hm' Hcl [Ho Hcnt Hids] Hw] HN Hnd. cbn in Ho, Hcnt, Hids.
  assert (Hall : ins ++ (mons ≫= Monitor.windows) ≡ₚ outs ++ (<[i := m']> mons ≫= Monitor.windows)).
  { rewrite (mons_wins_replace i mons m) by done. rewrite (mons_wins_at i mons m) by done.
    rewrite !app_assoc. f_equiv. exact Hw. }
  split_and!; [|apply Hcnt; lia|apply Hcnt; lia|done].
  eapply (replace_ok c _ i mons m m' N); try done; [split; [done|apply Hcnt; lia]| | |].
  - unfold mon_semi, home_of. rewrite set_counter_id, Ho. exact Hm'.
  - intros x Hx. by apply Hids.
  - rewrite Hall, (mons_wins_replace i mons m) in Hnd by done. by apply NoDup_app in Hnd as (_ & _ & ?).
Qed.

Lemma on_monitor_spec {A} N k ins outs (f : Mon -> res (A * Mon)) (i : nat) c mons m a m' :
  mons_ok c mons -> mons !! i = Some m -> 0 <= c -> c + Z.of_nat k < 2 ^ 64 ->
  f (Monitor.set_counter c m) = Ok (a, m') -> works N k ins outs (Monitor.set_counter c m) m' ->
  (forall x, x ∈ N -> 0 <= x /\ x ∉ (mons ≫= mon_ids)) -> NoDup (ins ++ (mons ≫= Monitor.windows)) ->
  Layout.on_monitor i f mons c = Ok (a, <[i := m']> mons, Monitor.id_counter m')
  /\ mons_ok (Monitor.id_counter m') (<[i := m']> mons) /\ c <= Monitor.id_counter m' <= c + Z.of_nat k
  /\ ins ++ (mons ≫= Monitor.windows) ≡ₚ outs ++ (<[i := m']> mons ≫= Monitor.windows)
  /\ (Forall clean mons -> Forall clean (<[i := m']> mons)).
Proof.
  intros Hok Hi Hc Hk He Hwk HN Hnd. destruct (works_replace N k ins outs i c mons m m') as (? & ? & ?); try done.
  split_and!; try done; try lia.
  - unfold Layout.on_monitor, index. rewrite Hi. cbn. by rewrite He.
  - intros Hcl. apply Forall_insert; [done|]. apply (wk_clean _ _ _ _ _ _ Hwk). exact (Forall_lookup_1 _ _ _ _ Hcl Hi).
Qed.

(** ** Loops over the monitors *)
Definition loop_pre {A} (k : nat) c (rest : list Mon) (Q : Mon -> Mon -> Prop) (f : Mon -> res (A * Mon)) : Prop :=
  forall c' m, m ∈ rest -> c <= c' <= c + Z.of_nat (k * length rest) -> mon_semi c' m -> clean m ->
    room (Monitor.set_counter c' m) 2 ->
    exists a m', f (Monitor.set_counter c' m) = Ok (a, m') /\ works [] k [] [] (Monitor.set_counter c' m) m' /\ Q m m'.

Record loop_post (k : nat) c (rest : list Mon) (done : list Mon) c' (rest' : list Mon) : Prop := {
  lp_ok : mons_ok c' (done ++ rest');
  lp_clean : Forall clean (done ++ rest');
  lp_counter : c <= c' <= c + Z.of_nat (k * length rest);
  lp_wins : rest' ≫= Monitor.windows ≡ₚ rest ≫= Monitor.windows
}.

(** The first round of a loop. *)
Lemma loop_step {A} k c done m rest Q (f : Mon -> res (A * Mon)) :
  mons_ok c (done ++ m :: rest) -> Forall clean (done ++ m :: rest) -> 0 <= c ->
  c + Z.of_nat (k * S (length rest)) + 2 < 2 ^ 53 -> loop_pre k c (m :: rest) Q f ->
  exists a m', f (Monitor.set_counter c m) = Ok (a, m') /\ Q m m' /\ mons_ok (Monitor.id_counter m') ((done ++ [m']) ++ rest)
    /\ Forall clean ((done ++ [m']) ++ rest) /\ c <= Monitor.id_counter m' <= c + Z.of_nat k
    /\ loop_pre k (Monitor.id_counter m') rest Q f /\ Monitor.windows m' ≡ₚ Monitor.windows m.
Proof.
  intros Hok Hcl Hc Hk Hf. assert (Hi : (done ++ m :: rest) !! length done = Some m) by (by apply list_lookup_middle).
  assert (Hm : m ∈ done ++ m :: rest) by (apply elem_of_app; right; left).
  destruct (Hf c m) as (a & m' & He & Hwk & HQ); [by left|cbn; lia| | | |].
  { exact (Forall_lookup_1 _ _ _ _ (ms_semi _ _ Hok) Hi). }
  { exact (Forall_lookup_1 _ _ _ _ Hcl Hi). }
  { eapply mons_room; [done..|lia]. }
  destruct (works_replace [] k [] [] (length done) c (done ++ m :: rest) m m') as (Hok' & Hcnt & _); try done;
    [lia|intros x Hx; by inversion Hx|apply Hok|].
  rewrite insert_app_r_alt, Nat.sub_diag in Hok' by lia. cbn in Hok'.
  exists a, m'. rewrite <- app_assoc. cbn [app]. split_and!; try done; try lia.
  - apply Forall_app in Hcl as [? (? & ?)%Forall_cons]. apply Forall_app. split; [done|].
    constructor; [|done]. by apply (wk_clean _ _ _ _ _ _ Hwk).
  - intros c' x Hx Hc'. apply Hf; [by right|]. cbn. lia.
  - symmetry. apply (wk_wins _ _ _ _ _ _ Hwk).
Qed.

Lemma loop_post_cons k c c1 c' done m m' rest rest' :
  loop_post k c1 rest (done ++ [m']) c' rest' -> c <= c1 <= c + Z.of_nat k ->
  Monitor.windows m' ≡ₚ Monitor.windows m -> loop_post k c (m :: rest) done c' (m' :: rest').
Proof.
  intros [Hok Hcl Hcnt Hw] Hc1 Hw1. rewrite <- app_assoc in Hok, Hcl. constructor; try done.
  - cbn. lia.
  - cbn. by rewrite Hw, Hw1.
Qed.

Lemma each_monitor_spec k c done rest Q f :
  mons_ok c (done ++ rest) -> Forall clean (done ++ rest) -> 0 <= c ->
  c + Z.of_nat (k * length rest) + 2 < 2 ^ 53 -> loop_pre k c rest Q (Layout.lift_op f) ->
  exists rest' c', Layout.each_monitor f rest c = Ok (rest', c') /\ loop_post k c rest done c' rest' /\ Forall2 Q rest rest'.
Proof.
  revert c done. induction rest as [|m rest IH]; intros c done Hok Hcl Hc Hk Hf.
  { exists [], c. split_and!; [done| |constructor]. constructor; [done..|cbn; lia|done]. }
  destruct (loop_step k c done m rest Q (Layout.lift_op f)) as (a & m' & He & HQ & Hok' & Hcl' & Hcnt & Hf' & Hw); try done.
  destruct (IH (Monitor.id_counter m') (done ++ [m'])) as (rest' & c' & Hr & Hp & HF); try done; [lia|cbn in Hk; lia|].
  cbn. unfold Layout.lift_op in He. destruct (f (Monitor.set_counter c m)) as [m1|]; [|done]. cbn in He.
  injection He as _ ->. cbn. rewrite Hr. cbn. exists (m' :: rest'), c'. split_and!; [done| |by constructor].
  by eapply loop_post_cons.
Qed.

Lemma first_monitor_spec {A} c done rest Q (f : Mon -> res (option A * Mon)) (i : nat) :
  mons_ok c (done ++ rest) -> Forall clean (done ++ rest) -> 0 <= c -> c + 2 < 2 ^ 53 -> loop_pre 0 c rest Q f ->
  (forall m, Q m m) ->
  exists o rest' c', Layout.first_monitor f i rest c = Ok (o, rest', c') /\ loop_post 0 c rest done c' rest'
    /\ Forall2 Q rest rest' /\ (forall j a, o = Some (j, a) -> (i <= j < i + length rest)%nat).
Proof.
  revert c done i. induction rest as [|m rest IH]; intros c done i Hok Hcl Hc Hk Hf HQr.
  { exists None, [], c. split_and!; [done| |constructor|done]. constructor; [done..|cbn; lia|done]. }
  destruct (loop_step 0 c done m rest Q f) as (o & m' & He & HQ & Hok' & Hcl' & Hcnt & Hf' & Hw); try done; [lia|].
  cbn. rewrite He. cbn. destruct o as [a|].
  - exists (Some (i, a)), (m' :: rest), (Monitor.id_counter m'). split_and!; [done| | |].
    + apply (loop_post_cons 0 c (Monitor.id_counter m') _ done m m' rest rest); [|done..]. by constructor; [| |cbn; lia|].
    + constructor; [done|]. clear -HQr. induction rest; by constructor.
    + intros j b [= -> _]. lia.
  - destruct (IH (Monitor.id_counter m') (done ++ [m']) (S i)) as (o & rest' & c' & Hr & Hp & HF & Ho); try done; [lia..|].
    rewrite Hr. cbn. exists o, (m' :: rest'), c'. split_and!; [done| |by constructor|].
    + by eapply loop_post_cons.
    + intros j b Hj. specialize (Ho j b Hj). lia.
Qed.

(** ** The invariant of the layout *)
Implicit Types (l : Layout.Layout).

Definition progress_ok (p : option Layout.OverviewProgress) : Prop :=
  match p with
  | Some (Layout.ProgressAnimation a) => anim_total a
  | Some (Layout.ProgressGesture g) => SwipeTracker.tracker_ok (Layout.og_tracker g)
  | None => True
  end.

(** What a monitor copies from the layout. *)
Definition synced l m : Prop :=
  Monitor.base_options m = Layout.options l /\ Monitor.overview_open m = Layout.overview_open l.
Definition syncs m m' : Prop :=
  Monitor.base_options m' = Monitor.base_options m /\ Monitor.overview_open m' = Monitor.overview_open m.

Record normal_ok l c mons (p a : nat) : Prop := {
  no_mons : mons_ok c mons;
  no_clean : Forall clean mons;
  no_primary : (p < length mons)%nat;
  no_active : (a < length mons)%nat;
  no_synced : Forall (synced l) mons
}.

Record unplugged_ok c wss : Prop := {
  un_ok : Forall ws_ok wss;
  un_named : Forall (fun w => has_windows_or_name w = true) wss;
  un_ids : NoDup (ws_id <$> wss);
  un_fresh : Forall (fun w => 0 <= ws_id w < c) wss
}.

(** A tile that is being dragged can be put down. *)
Record moving_ok (mv : Layout.InteractiveMoveData) : Prop := {
  mv_tile : tile_ok (Layout.im_tile mv);
  mv_output : part_ok (Layout.im_output_config mv);
  mv_workspace : part_ok (snd <$> Layout.im_workspace_config mv)
}.

Record layout_ok l : Prop := {
  lo_counter : 0 <= Layout.id_counter l;
  lo_options : opts_ok (Layout.options l);
  lo_moving : forall mv, Layout.interactive_move l = Some (Layout.Moving mv) -> moving_ok mv;
  lo_progress : progress_ok (Layout.overview_progress l);
  lo_wins : NoDup (Layout.windows l);
  lo_starting : forall x d r, Layout.interactive_move l = Some (Layout.Starting x d r) -> x ∈ Layout.windows l;
  lo_set : match Layout.monitor_set l with
           | Layout.Normal mons p a => normal_ok l (Layout.id_counter l) mons p a
           | Layout.NoOutputs wss => unplugged_ok (Layout.id_counter l) wss
           end
}.

(** Room for the workspaces of any operation. *)
Definition roomy l : Prop := Layout.id_counter l < 2 ^ 51.

(** An operation turned [l] into [l'], taking in the windows [ins] and giving out
    [outs]. *)
Definition layout_step (ins outs : list Win) l l' : Prop :=
  layout_ok l' /\ ins ++ Layout.windows l ≡ₚ outs ++ Layout.windows l'.

Lemma step_same l : layout_ok l -> layout_step [] [] l l.
Proof. by split. Qed.

Lemma layout_step_trans ins outs l1 l2 l3 :
  layout_step [] [] l1 l2 -> layout_step ins outs l2 l3 -> layout_step ins outs l1 l3.
Proof. intros [_ H1] [H2 H3]. split; [done|]. cbn in H1. by rewrite H1. Qed.

Lemma mons_windows mons : (mons ≫= Monitor.workspaces) ≫= ws_windows = mons ≫= Monitor.windows.
Proof. induction mons as [|m mons IH]; [done|]. cbn. by rewrite bind_app, IH. Qed.

Lemma windows_normal l mons p a :
  Layout.monitor_set l = Layout.Normal mons p a ->
  Layout.windows l = Layout.moving_windows l ++ (mons ≫= Monitor.windows).
Proof. intros Hs. unfold Layout.windows, Layout.workspaces. by rewrite Hs, mons_windows. Qed.

Lemma windows_unplugged l wss :
  Layout.monitor_set l = Layout.NoOutputs wss -> Layout.windows l = Layout.moving_windows l ++ (wss ≫= ws_windows).
Proof. intros Hs. unfold Layout.windows, Layout.workspaces. by rewrite Hs. Qed.

Lemma normal_ins l mons p a ins :
  Layout.monitor_set l = Layout.Normal mons p a -> NoDup (ins ++ Layout.windows l) ->
  NoDup (ins ++ (mons ≫= Monitor.windows)).
Proof.
  intros Hs. rewrite (windows_normal l mons p a Hs). rewrite (Permutation_app_comm (Layout.moving_windows l)), app_assoc.
  by intros (? & _ & _)%NoDup_app.
Qed.

(** The new set of monitors holds the windows of the old one and [ins], less
    [outs]; the rest of the layout is kept. *)
Lemma set_step l ins outs s c :
  layout_ok l -> NoDup (ins ++ Layout.windows l) ->
  (outs <> [] -> forall x d r, Layout.interactive_move l = Some (Layout.Starting x d r) -> x ∉ outs) ->
  Layout.id_counter l <= c ->
  match s with
  | Layout.Normal mons p a => normal_ok l c mons p a
  | Layout.NoOutputs wss => unplugged_ok c wss
  end ->
  ins ++ (Layout.workspaces l ≫= ws_windows)
    ≡ₚ outs ++ (Layout.workspaces (Layout.set_monitor_set s c l) ≫= ws_windows) ->
  layout_step ins outs l (Layout.set_monitor_set s c l).
Proof.
  intros [] Hnd Hst Hc Hs Hw.
  assert (Hall : ins ++ Layout.windows l ≡ₚ outs ++ Layout.windows (Layout.set_monitor_set s c l)).
  { unfold Layout.windows. change (Layout.moving_windows (Layout.set_monitor_set s c l)) with (Layout.moving_windows l).
    rewrite !(Permutation_app_comm (Layout.moving_windows l)), !app_assoc. f_equiv. exact Hw. }
  split; [|done]. constructor; cbn -[Layout.windows]; try done.
  - lia.
  - rewrite Hall in Hnd. by apply NoDup_app in Hnd as (_ & _ & ?).
  - intros x d r Hx. assert (Hin : x ∈ outs ++ Layout.windows (Layout.set_monitor_set s c l)).
    { rewrite <- Hall. apply elem_of_app. right. by eapply lo_starting0. }
    apply elem_of_app in Hin as [Hin|Hin]; [|done]. exfalso. eapply Hst; [|done..]. by intros ->; inversion Hin.
  - destruct s; [|done]. destruct Hs. by constructor.
Qed.

Lemma evolves_syncs N k m m' : evolves N k m m' -> syncs m m'.
Proof. by intros []. Qed.

(** An operation on monitor [i]. *)
Lemma layout_on_monitor_outs {A} l mons (p a i : nat) m (f : Mon -> res (A * Mon)) (N : list Z) k ins outs (r : A) m' :
  layout_ok l -> Layout.monitor_set l = Layout.Normal mons p a -> mons !! i = Some m -> (k <= 4)%nat -> roomy l ->
  f (Monitor.set_counter (Layout.id_counter l) m) = Ok (r, m') ->
  works N k ins outs (Monitor.set_counter (Layout.id_counter l) m) m' ->
  syncs (Monitor.set_counter (Layout.id_counter l) m) m' ->
  (forall x, x ∈ N -> 0 <= x /\ x ∉ (mons ≫= mon_ids)) -> NoDup (ins ++ Layout.windows l) ->
  (outs <> [] -> forall x d r, Layout.interactive_move l = Some (Layout.Starting x d r) -> x ∉ outs) ->
  Layout.on_monitor i f mons (Layout.id_counter l) = Ok (r, <[i := m']> mons, Monitor.id_counter m')
  /\ Monitor.id_counter m' <= Layout.id_counter l + Z.of_nat k
  /\ forall a', (a' < length mons)%nat ->
    layout_step ins outs l (Layout.set_monitor_set (Layout.Normal (<[i := m']> mons) p a') (Monitor.id_counter m') l).
Proof.
  intros Hok Hs Hi Hk Hr He Hwk [Hsy1 Hsy2] HN Hnd Hst. pose proof (lo_set l Hok) as Hn. rewrite Hs in Hn. destruct Hn.
  pose proof (lo_counter l Hok) as Hc. unfold roomy in Hr.
  destruct (on_monitor_spec N k ins outs f i (Layout.id_counter l) mons m r m') as (Hon & Hms & Hcnt & Hw & Hcl); try done;
    [lia|by eapply normal_ins|].
  split_and!; [done|lia|]. intros a' Ha'. apply set_step; try done; [lia| |].
  - constructor; try done; [auto|by rewrite length_insert..|]. apply Forall_insert; [done|].
    destruct (Forall_lookup_1 _ _ _ _ no_synced0 Hi) as [H1 H2]. unfold synced. by rewrite Hsy1, Hsy2.
  - unfold Layout.workspaces. cbn. rewrite Hs, !mons_windows. done.
Qed.

Lemma layout_on_monitor {A} l mons (p a i : nat) m (f : Mon -> res (A * Mon)) k ins (r : A) m' :
  layout_ok l -> Layout.monitor_set l = Layout.Normal mons p a -> mons !! i = Some m -> (k <= 4)%nat -> roomy l ->
  f (Monitor.set_counter (Layout.id_counter l) m) = Ok (r, m') ->
  step_ok (HM := home_of m) ins (Monitor.set_counter (Layout.id_counter l) m) m' ->
  evolves [] k (Monitor.set_counter (Layout.id_counter l) m) m' -> NoDup (ins ++ Layout.windows l) ->
  Layout.on_monitor i f mons (Layout.id_counter l) = Ok (r, <[i := m']> mons, Monitor.id_counter m')
  /\ Monitor.id_counter m' <= Layout.id_counter l + Z.of_nat k
  /\ forall a', (a' < length mons)%nat ->
    layout_step ins [] l (Layout.set_monitor_set (Layout.Normal (<[i := m']> mons) p a') (Monitor.id_counter m') l).
Proof.
  intros Hok Hs Hi Hk Hr He Hst Hev Hnd. eapply (layout_on_monitor_outs _ _ _ _ _ m _ []); try done.
  - by apply step_works.
  - by eapply evolves_syncs.
  - intros x Hx. by inversion Hx.
Qed.

Lemma normal_lookup l mons p a (i : nat) m :
  layout_ok l -> roomy l -> Layout.monitor_set l = Layout.Normal mons p a -> mons !! i = Some m ->
  let m := Monitor.set_counter (Layout.id_counter l) m in semi_ok (HM := home_of m) m /\ clean m /\ room m 4.
Proof.
  intros Hok Hr Hs Hi. pose proof (lo_set l Hok) as Hn. rewrite Hs in Hn. destruct Hn. cbn.
  split_and!; [exact (Forall_lookup_1 _ _ _ _ (ms_semi _ _ no_mons0) Hi)|exact (Forall_lookup_1 _ _ _ _ no_clean0 Hi)|].
  eapply mons_room; [done|by eapply list_elem_of_lookup_2|apply Hok|]. unfold roomy in Hr. lia.
Qed.

(** Operations on the active monitor. *)
Lemma on_active_step (f : Mon -> res Mon) l :
  layout_ok l -> roomy l ->
  (forall m, semi_ok (HM := home_of m) m -> clean m -> room m 2 ->
    exists m', f m = Ok m' /\ step_ok (HM := home_of m) [] m m') ->
  (forall m m', f m = Ok m' -> evolves [] 2 m m') ->
  exists l', Layout.on_active_monitor f l = Ok l' /\ layout_step [] [] l l'.
Proof.
  intros Hok Hr Hf Hev. unfold Layout.on_active_monitor.
  destruct (Layout.monitor_set l) as [mons p a|wss] eqn:Es; [|exists l; split; [done|by apply step_same]].
  pose proof (lo_set l Hok) as Hn. rewrite Es in Hn. destruct (lookup_lt_is_Some_2 mons a (no_active _ _ _ _ _ Hn)) as [m Hm].
  destruct (normal_lookup l mons p a a m) as (Hs & Hcl & Hrm); try done.
  destruct (Hf _ Hs Hcl) as (m' & He & Hst); [unfold room in *; lia|]. pose proof (Hev _ _ He) as Hv.
  destruct (layout_on_monitor l mons p a a m (Layout.lift_op f) 2 [] tt m') as (Hon & _ & Hl); try done; [lia|..].
  - unfold Layout.lift_op. by rewrite He.
  - apply Hok.
  - rewrite Hon. cbn. eexists. split; [done|]. apply Hl, Hn.
Qed.
End inv.
