(* ===== verification/LayoutHotplug.v ===== *)
(** * Connecting and disconnecting outputs

    [add_output] and [remove_output] of src/layout/mod.rs preserve the layout's
    invariant and its windows, and undo each other. *)

From stdpp Require Import base numbers option list strings gmap.
From Stdlib Require Import ZArith Lia.
From S2P Require Import Prelude.
From S2P Require Import F64.
From S2P Require Import Duration.
From S2P Require Import Clock.
From S2P Require Import Gesture.
From S2P Require Import Animation.
From S2P Require Import AnimTotal.
From S2P Require Import OutputName.
From S2P Require Import LayoutTypes.
From S2P Require Import Interface.
From S2P Require Import Monitor.
From S2P Require Import MonitorIds.
From S2P Require Import MonitorInv.
From S2P Require Import MonitorOps.
From S2P Require Import MonitorOps2.
From S2P Require Import MonitorThms.
From S2P Require Import Layout.
From S2P Require Import LayoutInv.

Local Open Scope Z_scope.
#[local] Arguments Nat.ltb : simpl never.
#[local] Arguments Nat.leb : simpl never.

Section hotplug.
Context {WO : WorkspaceOps} {LM : Libm} {KF : Keyframe} {WL : WorkspaceLaws} {LO : LayoutOps} {LL : LayoutLaws}.
Context {SM : Smithay}.
Abbreviation Mon := Monitor.Monitor.
Implicit Types (m : Mon) (mons : list Mon) (w : WS) (wss : list WS) (c : Z) (cv : ClockView) (l : Layout.Layout).

(** ** Removing a monitor *)
Lemma distinct_delete (i : nat) mons : distinct mons -> distinct (delete i mons).
Proof.
  intros Hd. assert (Hat : forall j m, delete i mons !! j = Some m ->
    exists j', mons !! j' = Some m /\ j' = (if decide (j < i)%nat then j else S j)).
  { intros j m Hj. destruct (decide (j < i)%nat); [rewrite lookup_delete_at_lt in Hj by lia; eauto|].
    rewrite lookup_delete_at_ge in Hj by lia. eauto. }
  intros a b ma mb (a' & Ha & Ea)%Hat (b' & Hb & Eb)%Hat Hab. apply (Hd a' b'); try done.
  destruct (decide (a < i)%nat), (decide (b < i)%nat); lia.
Qed.

Lemma mons_delete c (i : nat) mons m :
  mons_ok c mons -> mons !! i = Some m ->
  mons_ok c (delete i mons) /\ (forall x, x ∈ mon_ids m -> x ∉ (delete i mons ≫= mon_ids))
  /\ NoDup (Monitor.windows m ++ (delete i mons ≫= Monitor.windows)).
Proof.
  intros [Hs Hd Hids Hpos Hw] Hi. pose proof (delete_perm i m mons Hi) as Hp.
  rewrite Hp in Hs, Hids, Hpos, Hw. cbn in Hids, Hpos, Hw.
  apply Forall_cons in Hs as [_ Hs]. apply Forall_app in Hpos as [_ Hpos].
  apply NoDup_app in Hids as (_ & Hdis & Hids). pose proof Hw as (_ & _ & Hwd)%NoDup_app.
  split_and!; [|done..]. constructor; try done. by apply distinct_delete.
Qed.

Lemma filter_wins wss : List.filter has_windows_or_name wss ≫= ws_windows = wss ≫= ws_windows.
Proof.
  induction wss as [|w wss IH]; [done|]. cbn. destruct (has_windows_or_name w) eqn:E; cbn; rewrite IH; [done|].
  by rewrite (empty_wins w E).
Qed.

Lemma filter_elem (f : WS -> bool) wss w : w ∈ List.filter f wss <-> w ∈ wss /\ f w = true.
Proof. rewrite !list_elem_of_In. apply List.filter_In. Qed.

Lemma filter_ids (f : WS -> bool) wss : NoDup (ws_id <$> wss) -> NoDup (ws_id <$> List.filter f wss).
Proof.
  induction wss as [|w wss IH]; [done|]. cbn. intros [Hn Hnd]%NoDup_cons. destruct (f w); [|auto]. cbn.
  apply NoDup_cons. split; [|auto]. intros (x & Heq & [Hx _]%filter_elem)%list_elem_of_fmap. apply Hn.
  rewrite Heq. by apply list_elem_of_fmap_2.
Qed.

(** What a removed monitor leaves behind. *)
Lemma into_workspaces_spec cv c m :
  cv_ok cv -> mon_semi c m ->
  exists wss, Monitor.into_workspaces cv m = Ok wss
    /\ Forall2 same_ws (List.filter has_windows_or_name (Monitor.workspaces m)) wss
    /\ (forall c', c <= c' -> (forall x, x ∈ mon_ids m -> 0 <= x) -> unplugged_ok c' wss)
    /\ (forall x, x ∈ (ws_id <$> wss) -> x ∈ mon_ids m)
    /\ wss ≫= ws_windows ≡ₚ Monitor.windows m.
Proof.
  intros Hcv [Hc _ _]. pose proof Hc as []. cbn in *. unfold Monitor.into_workspaces.
  assert (Hin : forall w, w ∈ List.filter has_windows_or_name (Monitor.workspaces m) -> w ∈ Monitor.workspaces m)
    by (by intros w [? _]%filter_elem).
  destruct (for_each_spec same_ws (ws_set_output cv None) (List.filter has_windows_or_name (Monitor.workspaces m)))
    as (wss & He & HF).
  - apply Forall_forall. intros w Hw%Hin. rewrite Forall_forall in mc_ws. auto.
  - intros w Hw. destruct (ws_set_output_spec cv None w Hcv Hw) as (w' & -> & Ht & [Ho|(? & [=] & _)]). by exists w'.
  - pose proof (moved_ids _ _ (same_moved _ _ HF)) as Hids. exists wss.
    assert (Hsub : forall x, x ∈ (ws_id <$> wss) -> x ∈ mon_ids m).
    { rewrite Hids. intros x (w & -> & Hw%Hin)%list_elem_of_fmap. by apply list_elem_of_fmap_2. }
    split_and!; [done..| |done|].
    + intros c' Hc' Hpos. constructor.
      * by eapply moved_oks, same_moved.
      * eapply moved_hwn; [by eapply same_moved|]. apply Forall_forall. by intros w [_ ?]%filter_elem.
      * rewrite Hids. by apply filter_ids.
      * apply Forall_forall. intros w Hw. assert (Hx : ws_id w ∈ mon_ids m) by (by apply Hsub, list_elem_of_fmap_2).
        split; [by apply Hpos|]. unfold mon_ids in Hx. apply list_elem_of_fmap in Hx as (v & -> & Hv).
        rewrite Forall_forall in mc_fresh. specialize (mc_fresh v Hv). cbn in mc_fresh. lia.
    + rewrite (moved_wins _ _ (same_moved _ _ HF)), filter_wins. done.
Qed.
Lemma unplugged_moved c wss wss' : unplugged_ok c wss -> Forall2 moved_ws wss wss' -> unplugged_ok c wss'.
Proof.
  intros [Hok Hn Hids Hf] HF. constructor; [by eapply moved_oks|by eapply moved_hwn|by rewrite (moved_ids _ _ HF)|].
  clear -HF Hf. induction HF as [|w w' wss wss' Hb _ IH]; [done|]. inversion Hf; subst.
  constructor; [by rewrite (turns_id _ _ _ Hb)|auto].
Qed.

Lemma last_active_ok t l : layout_ok l -> layout_ok (Layout.set_last_active t l).
Proof.
  intros []. constructor; try done. cbn. destruct (Layout.monitor_set l); [|done]. destruct lo_set. by constructor.
Qed.

Lemma monitor_idx_lookup o mons i :
  Layout.monitor_idx o mons = Some i -> exists m, mons !! i = Some m /\ Monitor.output m = o.
Proof.
  intros (m & Hm & Ho & _)%position_Some. exists m. split; [done|]. by apply bool_decide_eq_true in Ho.
Qed.

Lemma forall_delete {A} (P : A -> Prop) (i : nat) (xs : list A) : Forall P xs -> Forall P (delete i xs).
Proof.
  intros HF. apply Forall_forall. intros x Hx. rewrite Forall_forall in HF. apply HF.
  rewrite delete_take_drop in Hx. rewrite <- (take_drop i xs). apply elem_of_app in Hx as [Hx|Hx]; apply elem_of_app;
    [by left|]. right. apply list_elem_of_lookup in Hx as [j Hj]. rewrite lookup_drop in Hj.
  apply (list_elem_of_lookup_2 _ (S j)). rewrite lookup_drop. by rewrite <- Hj, Nat.add_succ_comm.
Qed.

Lemma unplugged_count c wss : 0 <= c -> unplugged_ok c wss -> Z.of_nat (length wss) <= c.
Proof.
  intros Hc [_ _ Hids Hf]. rewrite <- (length_fmap ws_id).
  rewrite <- (Z.max_r 0 c) by done. apply nodup_bound; [done|].
  intros x (w & -> & Hw)%list_elem_of_fmap. rewrite Forall_forall in Hf. by apply Hf.
Qed.

(** The workspaces of the removed monitor join monitor [i]. *)
Lemma append_to_primary cv l c mons wss (i : nat) m :
  cv_ok cv -> mons_ok c mons -> Forall clean mons -> mons !! i = Some m -> 0 <= c < 2 ^ 51 -> unplugged_ok c wss ->
  (forall x, x ∈ (ws_id <$> wss) -> x ∉ (mons ≫= mon_ids)) ->
  NoDup ((wss ≫= ws_windows) ++ (mons ≫= Monitor.windows)) -> Forall (synced l) mons ->
  exists m', Layout.on_monitor i (Layout.lift_op (Monitor.append_workspaces cv wss)) mons c
      = Ok (tt, <[i := m']> mons, Monitor.id_counter m')
    /\ Monitor.append_workspaces cv wss (Monitor.set_counter c m) = Ok m'
    /\ mons_ok (Monitor.id_counter m') (<[i := m']> mons) /\ Forall clean (<[i := m']> mons)
    /\ Forall (synced l) (<[i := m']> mons) /\ c <= Monitor.id_counter m' <= c + 1
    /\ (<[i := m']> mons) ≫= Monitor.windows ≡ₚ (wss ≫= ws_windows) ++ (mons ≫= Monitor.windows).
Proof.
  intros Hcv Hok Hcl Hi Hc Hun Hnew Hnd Hsy. pose proof (unplugged_count c wss ltac:(lia) Hun) as Hlen.
  pose proof (Forall_lookup_1 _ _ _ _ (ms_semi _ _ Hok) Hi) as Hs. pose proof (list_elem_of_lookup_2 _ _ _ Hi) as Hm.
  destruct (append_workspaces_spec (HM := home_of m) cv wss (Monitor.set_counter c m)) as (m' & He & Hst); [done| |done| |].
  - eapply mons_room; [done..|lia|]. lia.
  - destruct Hun. constructor; try done.
    + rewrite fmap_app. apply NoDup_app. split_and!; [done| |exact (mon_semi_ids c m Hs)].
      intros x Hx Hin. apply (Hnew x Hx), list_elem_of_bind. by exists m.
    + eapply Forall_impl; [done|]. cbn. lia.
    + cbn. rewrite (mons_wins_at i mons m Hi), app_assoc in Hnd. by apply NoDup_app in Hnd as (? & _ & _).
  - pose proof (append_workspaces_ev _ _ _ _ He) as Hev.
    destruct (on_monitor_spec (ws_id <$> wss) 1 (wss ≫= ws_windows) [] (Layout.lift_op (Monitor.append_workspaces cv wss))
      i c mons m tt m') as (Hon & Hok' & Hcnt & Hw & Hcl'); try done; [lia|lia|unfold Layout.lift_op; by rewrite He| | |].
    + by apply step_works.
    + intros x Hx. split; [|by apply Hnew]. apply list_elem_of_fmap in Hx as (w & -> & Hw).
      destruct Hun as [_ _ _ Hf]. rewrite Forall_forall in Hf. by apply Hf.
    + exists m'. split_and!; try done; [auto| |lia|lia].
      apply Forall_insert; [done|]. destruct (Forall_lookup_1 _ _ _ _ Hsy Hi) as [H1 H2].
      destruct (evolves_syncs _ _ _ _ Hev) as [G1 G2]. unfold synced. by rewrite G1, G2.
Qed.

(** The indices of the primary and active monitors after monitor [i] went away. *)
Definition shift_idx (i j : nat) : nat := if (i <=? j)%nat then (j - 1)%nat else j.

Section remove.
Context (cv : ClockView) (o : Output) (l : Layout.Layout) (mons : list Mon) (p a i : nat) (m : Mon).
Hypothesis Hcv : cv_ok cv.
Hypothesis Hok : layout_ok l.
Hypothesis Hr : roomy l.
Hypothesis Hs : Layout.monitor_set l = Layout.Normal mons p a.
Hypothesis Hidx : Layout.monitor_idx o mons = Some i.
Hypothesis Hi : mons !! i = Some m.

(** The layout remembers the active workspace of the monitor. *)
Definition remembers w : Layout.Layout :=
  Layout.set_last_active (<[connector (output_name (Monitor.output m)) := ws_id w]> (Layout.last_active_workspace_id l)) l.

Lemma remembers_ok w : layout_ok (remembers w) /\ Layout.workspaces (remembers w) ≫= ws_windows = mons ≫= Monitor.windows.
Proof. split; [by apply last_active_ok|]. unfold Layout.workspaces, remembers. cbn. by rewrite Hs, mons_windows. Qed.

Lemma leaves :
  exists w wss, Monitor.workspaces m !! Monitor.active_workspace_idx m = Some w /\ Monitor.into_workspaces cv m = Ok wss
    /\ Forall2 same_ws (List.filter has_windows_or_name (Monitor.workspaces m)) wss
    /\ unplugged_ok (Layout.id_counter l) wss /\ wss ≫= ws_windows ≡ₚ Monitor.windows m
    /\ mons_ok (Layout.id_counter l) (delete i mons)
    /\ (forall x, x ∈ (ws_id <$> wss) -> x ∉ (delete i mons ≫= mon_ids))
    /\ NoDup ((wss ≫= ws_windows) ++ (delete i mons ≫= Monitor.windows)).
Proof.
  pose proof (lo_set l Hok) as Hn. rewrite Hs in Hn. destruct Hn as [Hms Hcl Hp Ha Hsy].
  pose proof (Forall_lookup_1 _ _ _ _ (ms_semi _ _ Hms) Hi) as Hsemi.
  destruct (mons_delete _ _ _ _ Hms Hi) as (Hms' & Hdis & Hnd).
  destruct (into_workspaces_spec cv _ _ Hcv Hsemi) as (wss & Hinto & HF & Hun & Hids & Hwins).
  destruct (active_lookup (HM := home_of m) _ Hsemi) as [w Hact].
  exists w, wss. split_and!; try done; [|by intros x Hx; apply Hdis, Hids|by rewrite Hwins].
  apply Hun; [lia|]. intros x Hx. apply (mons_fresh _ mons x Hms), list_elem_of_bind. exists m.
  split; [done|by eapply list_elem_of_lookup_2].
Qed.

(** The last monitor goes away. *)
Lemma remove_last :
  delete i mons = [] -> exists l', Layout.remove_output cv o l = Ok l' /\ layout_step [] [] l l'.
Proof.
  intros Ed. destruct leaves as (w & wss & Hact & Hinto & _ & Hun & Hwins & _).
  pose proof (mons_wins_at i mons m Hi) as Hw. rewrite Ed in Hw.
  unfold Layout.remove_output. rewrite Hs, Hidx. cbn [unwrap mbind res_bind]. rewrite (vec_remove_ok _ m) by done.
  cbn [mbind res_bind]. unfold Monitor.active_workspace, index. rewrite Hact. cbn [unwrap mbind res_bind].
  rewrite Hinto, Ed. cbn [mbind res_bind]. fold (remembers w). destruct (remembers_ok w) as [Hok1 Hwl].
  destruct (for_each_spec same_ws (ws_update_config cv (Layout.options (remembers w))) wss) as (wss' & -> & HF');
    [apply Hun|intros; apply ws_update_config_spec; [done|apply Hok1|done]|]. cbn. eexists. split; [done|].
  change (layout_step [] [] (remembers w)
    (Layout.set_monitor_set (Layout.NoOutputs wss') (Layout.id_counter (remembers w)) (remembers w))).
  apply set_step; [done|apply Hok1|done|lia| |].
  - eapply unplugged_moved; [exact Hun|by apply same_moved].
  - cbn [app]. rewrite Hwl. unfold Layout.workspaces; cbn [Layout.monitor_set Layout.set_monitor_set].
    rewrite (moved_wins _ _ (same_moved _ _ HF')), Hwins, Hw. cbn. by rewrite app_nil_r.
Qed.

(** Another monitor becomes or stays the primary one and takes the workspaces. *)
Lemma remove_other :
  delete i mons <> [] ->
  exists w wss mp m', let p' := shift_idx i p in
    let l' := Layout.set_monitor_set (Layout.Normal (<[p' := m']> (delete i mons)) p' (shift_idx i a))
                (Monitor.id_counter m') (remembers w) in
    Layout.remove_output cv o l = Ok l' /\ layout_step [] [] l l' /\ Monitor.id_counter m' <= Layout.id_counter l + 1
    /\ Monitor.workspaces m !! Monitor.active_workspace_idx m = Some w
    /\ Monitor.into_workspaces cv m = Ok wss
    /\ Forall2 same_ws (List.filter has_windows_or_name (Monitor.workspaces m)) wss
    /\ delete i mons !! p' = Some mp
    /\ Monitor.append_workspaces cv wss (Monitor.set_counter (Layout.id_counter l) mp) = Ok m'.
Proof.
  intros Hne. destruct leaves as (w & wss & Hact & Hinto & HF & Hun & Hwins & Hms' & Hids & Hnd).
  pose proof (mons_wins_at i mons m Hi) as Hw. pose proof (lo_set l Hok) as Hn. rewrite Hs in Hn.
  destruct Hn as [Hms Hcl Hp Ha Hsy]. pose proof (lo_counter l Hok) as Hc. destruct (remembers_ok w) as [Hok1 Hwl].
  assert (Hdl : (length (delete i mons) = length mons - 1)%nat) by (apply length_delete; eauto).
  assert (Hlen : (0 < length (delete i mons))%nat) by (destruct (delete i mons); [done|cbn; lia]).
  assert (Hsh : forall j, (j < length mons)%nat -> (shift_idx i j < length (delete i mons))%nat)
    by (intros j Hj; unfold shift_idx; pose proof (lookup_lt_Some _ _ _ Hi); destruct (Nat.leb_spec i j); lia).
  destruct (lookup_lt_is_Some_2 _ _ (Hsh p Hp)) as [mp Hmp].
  destruct (append_to_primary cv l (Layout.id_counter l) (delete i mons) wss (shift_idx i p) mp)
    as (m' & Hon & Happ & Hok' & Hcl' & Hsy' & Hcnt & Hw'); try done; [by apply forall_delete..|].
  exists w, wss, mp, m'. cbv zeta. split_and!; try done; [| |lia].
  - unfold Layout.remove_output. rewrite Hs, Hidx. cbn [unwrap mbind res_bind]. rewrite (vec_remove_ok _ m) by done.
    cbn [mbind res_bind]. unfold Monitor.active_workspace, index. rewrite Hact. cbn [unwrap mbind res_bind].
    rewrite Hinto. cbn [mbind res_bind]. fold (remembers w). fold (shift_idx i p) (shift_idx i a).
    destruct (delete i mons); [done|]. change (Layout.id_counter (remembers w)) with (Layout.id_counter l). by rewrite Hon.
  - change (layout_step [] [] (remembers w) (Layout.set_monitor_set (Layout.Normal
      (<[shift_idx i p := m']> (delete i mons)) (shift_idx i p) (shift_idx i a)) (Monitor.id_counter m') (remembers w))).
    apply set_step; [done|apply Hok1|done|cbn; lia| |].
    + constructor; try done; rewrite length_insert; auto.
    + cbn [app]. rewrite Hwl. unfold Layout.workspaces; cbn [Layout.monitor_set Layout.set_monitor_set].
      by rewrite mons_windows, Hw', Hwins, Hw.
Qed.
End remove.

Lemma remove_output_spec cv o l mons p a i :
  cv_ok cv -> layout_ok l -> roomy l -> Layout.monitor_set l = Layout.Normal mons p a -> Layout.monitor_idx o mons = Some i ->
  exists l', Layout.remove_output cv o l = Ok l' /\ layout_step [] [] l l'.
Proof.
  intros Hcv Hok Hr Hs Hidx. destruct (monitor_idx_lookup _ _ _ Hidx) as (m & Hi & _).
  destruct (decide (delete i mons = [])); [by eapply remove_last|].
  destruct (remove_other cv o l mons p a i m) as (w & wss & mp & m' & Hrm); try done. cbv zeta in Hrm.
  destruct Hrm as (-> & Hst & _). by eexists.
Qed.

(** ** Taking back the workspaces of a returning output *)
Section reclaim.
Context {HM : Home}.

Definition mine (o : Output) w : bool := output_matches (ws_original_output w) o.
Definition not_mine (o : Output) w : bool := negb (mine o w).
Definition mine_kept (o : Output) w : bool := mine o w && has_windows_or_name w.

(** The state of the loop before it looks at index [k - 1]. *)
Record reclaiming (o : Output) (p0 : Mon) (k : nat) (p : Mon) (wss : list WS) (stopped : bool) : Prop := {
  rc_core : mon_core p;
  rc_last : last_empty (Monitor.workspaces p);
  rc_first : Monitor.ewaf p = true -> first_empty (Monitor.workspaces p);
  rc_ws : Monitor.workspaces p = take k (Monitor.workspaces p0) ++ List.filter (not_mine o) (drop k (Monitor.workspaces p0));
  rc_wss : wss = reverse (List.filter (mine_kept o) (drop k (Monitor.workspaces p0)));
  rc_stop : stopped = true -> Monitor.workspace_switch p = None;
  rc_clean : stopped = false -> clean p;
  rc_two : stopped = false -> Monitor.len p = Monitor.len p0 \/ Monitor.workspace_switch p = None;
  rc_options : Monitor.options p = Monitor.options p0;
  rc_ev : evolves [] 0 p0 p
}.

Definition falls_back (p : Mon) (k : nat) : nat :=
  if (k <=? Monitor.active_workspace_idx p)%nat
     && negb (Monitor.ewaf p && bool_decide (Monitor.active_workspace_idx p = 1%nat))
  then (Monitor.active_workspace_idx p - 1)%nat else Monitor.active_workspace_idx p.

(** Taking workspace [k] away keeps the rest clean. *)
Lemma take_away_clean p k w :
  clean p -> Monitor.workspace_switch p = None -> (S k < Monitor.len p)%nat -> (Monitor.ewaf p = true -> k <> 0%nat) ->
  Monitor.workspaces p !! k = Some w ->
  clean (Monitor.set_switch None (Monitor.set_lists (delete k (Monitor.workspaces p)) (falls_back p k) p)).
Proof.
  intros Hcl Hs Hk Hk0 Hw _ i v Hi Hil Hi0 Ha. cbn in Hi, Ha.
  change (Monitor.ewaf p = true -> i <> 0%nat) in Hi0.
  assert (Hlen : length (delete k (Monitor.workspaces p)) = (Monitor.len p - 1)%nat) by (apply length_delete; eauto).
  unfold Monitor.len in Hil; cbn in Hil. rewrite Hlen in Hil.
  assert (Hj : Monitor.workspaces p !! (if decide (i < k)%nat then i else S i) = Some v).
  { destruct (decide (i < k)%nat); [by rewrite lookup_delete_at_lt in Hi by lia|].
    by rewrite lookup_delete_at_ge in Hi by lia. }
  apply (Hcl Hs _ v Hj); unfold falls_back in Ha.
  - destruct (decide (i < k)%nat); lia.
  - intros He. specialize (Hi0 He). destruct (decide (i < k)%nat); lia.
  - destruct (Monitor.ewaf p); [specialize (Hi0 eq_refl); specialize (Hk0 eq_refl)|];
      destruct (decide (i < k)%nat), (Nat.leb_spec k (Monitor.active_workspace_idx p)); cbn [andb negb] in Ha;
      try case_bool_decide; cbn in Ha; lia.
Qed.

Lemma falls_back_lt p k :
  (Monitor.active_workspace_idx p < Monitor.len p)%nat -> (S k < Monitor.len p)%nat ->
  (Monitor.ewaf p = true -> k <> 0%nat) -> (S (falls_back p k) < Monitor.len p)%nat.
Proof.
  intros Ha Hk Hk0. unfold falls_back.
  destruct (Monitor.ewaf p); [specialize (Hk0 eq_refl)|];
    destruct (Nat.leb_spec k (Monitor.active_workspace_idx p)); cbn [andb negb];
    try case_bool_decide; cbn [negb]; lia.
Qed.

Lemma take_snoc {A} (xs : list A) k x : xs !! k = Some x -> take (S k) xs = take k xs ++ [x].
Proof. intros H. by apply take_S_r. Qed.

Lemma reclaim_step_spec o p0 k p wss stopped :
  output_matches home o = false -> reclaiming o p0 (S k) p wss stopped -> (S k <= Monitor.len p0)%nat ->
  exists p' wss' stopped', Layout.reclaim_step o (p, wss, stopped) k = Ok (p', wss', stopped')
    /\ reclaiming o p0 k p' wss' stopped'.
Proof.
  intros Hho Hrc Hk. destruct (lookup_lt_is_Some_2 (Monitor.workspaces p0) k) as [w Hw]; [unfold Monitor.len in Hk; lia|].
  pose proof (rc_ws _ _ _ _ _ _ Hrc) as Hws. rewrite (take_snoc _ k w), <- app_assoc in Hws by done. cbn in Hws.
  assert (Hlt : length (take k (Monitor.workspaces p0)) = k) by (rewrite length_take; unfold Monitor.len in Hk; lia).
  assert (Hpk : Monitor.workspaces p !! k = Some w) by (rewrite Hws, lookup_app_r by lia; by rewrite Hlt, Nat.sub_diag).
  pose proof (drop_S _ _ _ Hw) as Hdrop. pose proof (rc_wss _ _ _ _ _ _ Hrc) as Hwss.
  unfold Layout.reclaim_step, index. rewrite Hpk. cbn [unwrap mbind res_bind]. fold (mine o w).
  assert (Hnm : not_mine o w = negb (mine o w)) by done.
  assert (Hmk : mine_kept o w = mine o w && has_windows_or_name w) by done.
  destruct (mine o w) eqn:Em.
  2:{ exists p, wss, stopped. split; [done|]. destruct Hrc. constructor; try done.
      - rewrite Hws, Hdrop. cbn. by rewrite Hnm.
      - rewrite Hwss, Hdrop. cbn. by rewrite Hmk. }
  assert (Hsp : ~ spare w) by (intros [_ Ho]; unfold mine in Em; rewrite Ho in Em; congruence).
  assert (Hkl : (S k < Monitor.len p)%nat).
  { pose proof (lookup_lt_Some _ _ _ Hpk) as Hkp. unfold Monitor.len.
    destruct (decide (S k = Monitor.len p)) as [He|]; [|unfold Monitor.len in *; lia].
    exfalso. apply Hsp. by apply (last_is_empty p k); [apply Hrc| |]. }
  assert (Hk0 : Monitor.ewaf p = true -> k <> 0%nat).
  { intros He ->. apply Hsp, (first_is_empty p); [by apply Hrc|done]. }
  pose proof (mc_active _ (rc_core _ _ _ _ _ _ Hrc)) as Hact.
  destruct (delete_core p k w (falls_back p k) (rc_core _ _ _ _ _ _ Hrc) Hpk) as [Hc' _]; [by apply falls_back_lt|].
  rewrite (vec_remove_ok _ w) by done. cbn [mbind res_bind]. fold (falls_back p k).
  eexists _, _, _. split; [done|].
  assert (Hdel : delete k (Monitor.workspaces p) = take k (Monitor.workspaces p0)
    ++ List.filter (not_mine o) (drop (S k) (Monitor.workspaces p0)))
    by (rewrite Hws; rewrite <- Hlt at 1; by rewrite delete_middle).
  constructor; try done.
  - cbn. eapply last_empty_ext; [by apply last_delete|apply Hrc].
  - cbn. intros He. change (Monitor.ewaf p = true) in He. eapply first_empty_ext; [apply head_delete|by apply Hrc].
    specialize (Hk0 He). lia.
  - cbn. rewrite Hdel, Hdrop. cbn. by rewrite Hnm.
  - rewrite Hwss, Hdrop. cbn [List.filter]. rewrite Hmk. cbn [andb].
    destruct (has_windows_or_name w); [by rewrite reverse_cons|done].
  - intros Hst. destruct (Monitor.workspace_switch p) eqn:Es; [done|]. eapply take_away_clean; try done.
    by apply Hrc.
  - intros _. by right.
  - apply Hrc.
  - eapply (evolves_seq [] 0 0); [apply Hrc| |done]. apply evolves_sub; try done. cbn. intros x. apply delete_ids.
Qed.

Lemma reclaim_loop_spec o p0 k p wss stopped :
  output_matches home o = false -> reclaiming o p0 k p wss stopped -> (k <= Monitor.len p0)%nat ->
  exists p' wss' stopped',
    foldl (fun st i => st ← st; Layout.reclaim_step o st i) (Ok (p, wss, stopped)) (reverse (seq 0 k)) = Ok (p', wss', stopped')
    /\ reclaiming o p0 0 p' wss' stopped'.
Proof.
  intros Hho. revert p wss stopped. induction k as [|k IH]; intros p wss stopped Hrc Hk; [by exists p, wss, stopped|].
  rewrite seq_S, reverse_snoc. cbn [foldl mbind res_bind Nat.add].
  destruct (reclaim_step_spec o p0 k p wss stopped) as (p' & wss' & st' & -> & Hrc'); try done. apply IH; [done|lia].
Qed.

Lemma reclaim_start o p : semi_ok p -> clean p -> reclaiming o p (Monitor.len p) p [] false.
Proof.
  intros [Hc Hl Hf] Hcl. constructor; try done; [intros He; apply (Hf He)| | |by left|apply evolves_refl];
    unfold Monitor.len; rewrite drop_ge by lia; [|done]. cbn. by rewrite app_nil_r, take_ge by lia.
Qed.

(** What is left on the primary monitor, and what is taken off it. *)
Lemma reclaim_spec o p :
  semi_ok p -> clean p -> output_matches home o = false -> 0 <= Monitor.id_counter p < 2 ^ 64 ->
  exists p', Layout.reclaim o p = Ok (List.filter (mine_kept o) (Monitor.workspaces p), p')
    /\ semi_ok p' /\ clean p' /\ evolves [] 0 p p'
    /\ (forall x, x ∈ mon_ids p' -> x ∈ (ws_id <$> List.filter (not_mine o) (Monitor.workspaces p)))
    /\ Monitor.windows p' ≡ₚ List.filter (not_mine o) (Monitor.workspaces p) ≫= ws_windows.
Proof.
  intros Hs Hcl Hho Hcnt.
  destruct (reclaim_loop_spec o p (Monitor.len p) p [] false) as (p1 & wss & stopped & He & Hrc); [done|by apply reclaim_start|done|].
  unfold Layout.reclaim. rewrite He. cbn [mbind res_bind].
  pose proof (rc_ws _ _ _ _ _ _ Hrc) as Hws. pose proof (rc_wss _ _ _ _ _ _ Hrc) as ->.
  rewrite take_0, drop_0 in Hws. cbn [app] in Hws. rewrite drop_0, reverse_involutive.
  assert (Hewaf : Monitor.ewaf p1 = Monitor.ewaf p) by (unfold Monitor.ewaf; by rewrite (rc_options _ _ _ _ _ _ Hrc)).
  assert (Hall : forall p', semi_ok p' -> clean p' -> evolves [] 0 p1 p' -> Monitor.windows p' ≡ₚ Monitor.windows p1 ->
    exists q, Ok (List.filter (mine_kept o) (Monitor.workspaces p), p') = Ok (List.filter (mine_kept o) (Monitor.workspaces p), q)
    /\ semi_ok q /\ clean q /\ evolves [] 0 p q
    /\ (forall x, x ∈ mon_ids q -> x ∈ (ws_id <$> List.filter (not_mine o) (Monitor.workspaces p)))
    /\ Monitor.windows q ≡ₚ List.filter (not_mine o) (Monitor.workspaces p) ≫= ws_windows).
  { intros p' Hs' Hcl' Hev Hw'. exists p'.
    assert (Hev' : evolves [] 0 p p') by (eapply (evolves_seq [] 0 0); [apply Hrc|done|done]).
    split_and!; [done..| |by rewrite Hw', <- Hws].
    intros x Hx. rewrite <- Hws. destruct (ev_counter _ _ _ _ (rc_ev _ _ _ _ _ _ Hrc)) as [Hc1 Hc2]; [lia..|].
    destruct (ev_ids _ _ _ _ Hev ltac:(lia) ltac:(lia) x Hx) as [Hn|[?|Hge]]; [by inversion Hn|done|].
    apply list_elem_of_fmap in Hx as (w & -> & Hw). pose proof (mc_fresh _ (so_core _ Hs')) as Hf.
    rewrite Forall_forall in Hf. specialize (Hf w Hw). cbn in Hf.
    destruct (ev_counter _ _ _ _ Hev); lia. }
  destruct (stopped || (Monitor.ewaf p1 && bool_decide (Monitor.len p1 = 2%nat))) eqn:Est.
  - assert (Hnone : Monitor.workspace_switch p1 = None).
    { destruct stopped; [by apply Hrc|]. cbn in Est. apply andb_true_iff in Est as [Hew H2%bool_decide_eq_true].
      destruct (rc_two _ _ _ _ _ _ Hrc eq_refl) as [Hsame|?]; [|done]. exfalso. rewrite Hewaf in Hew.
      destruct (so_first _ Hs Hew) as [_ Hne]. congruence. }
    destruct (clean_up_spec p1) as (p' & Hcu & Hd); [apply Hrc|done|apply Hrc|apply Hrc|]. rewrite Hcu. cbn.
    pose proof (cd_ok _ _ Hd) as [? ?]%monitor_ok_semi. apply Hall; [done..|by apply clean_up_ev|apply Hd].
  - apply orb_false_iff in Est as [-> Hnt]. cbn. apply Hall; [|by apply Hrc|apply evolves_refl|done].
    constructor; [apply Hrc..|]. intros Hew. split; [by apply Hrc|]. rewrite Hew in Hnt. cbn in Hnt.
    by apply bool_decide_eq_false in Hnt.
Qed.
End reclaim.

(** ** A monitor for a new output *)
Lemma new_shape cv o sc vs wa wss act base lc c m :
  Monitor.new cv o sc vs wa wss act base lc c = Ok m -> 0 <= c -> c + 2 < 2 ^ 64 ->
  exists wss' top a e, Monitor.prepare cv o (with_merged_layout lc base) act 0 0 wss = Ok (wss', a)
    /\ Monitor.workspaces m = top ++ wss' ++ [e] /\ Monitor.active_workspace_idx m = (length top + a)%nat
    /\ (forall w, w ∈ top ++ [e] -> c <= ws_id w)
    /\ Monitor.output m = o /\ Monitor.base_options m = base /\ c <= Monitor.id_counter m <= c + 2
    /\ Monitor.layout_config m = lc /\ (forall w, w ∈ top ++ [e] -> has_windows_or_name w = false).
Proof.
  intros He Hc0 Hc2. unfold Monitor.new in He. set (opts := with_merged_layout lc base) in *.
  bind He as [[wss' a]|] eqn Ep. set (b := empty_workspace_above_first opts && negb (bool_decide (wss' = []))) in *.
  assert (Hun : forall k, has_windows_or_name (ws_new k o opts) = false)
    by (intros k; by destruct (ws_new_spare (HM := output_id o) k o opts eq_refl)).
  exists wss'. unfold id_next in He. destruct b; cbn in He; injection He as <-; cbn.
  - exists [ws_new c o opts], a, (ws_new ((c + 1) mod 2 ^ 64) o opts). rewrite !Z.mod_small by lia.
    split_and!; try done; try lia; intros w [->|[->|Hn]%elem_of_cons]%elem_of_cons; try done; try (by inversion Hn);
      destruct (ws_new_spec c o opts) as (? & _), (ws_new_spec (c + 1) o opts) as (? & _); lia.
  - exists [], a, (ws_new c o opts). rewrite !Z.mod_small by lia. split_and!; try done; try lia.
    + intros w [->|Hn]%elem_of_cons; [|by inversion Hn]. destruct (ws_new_spec c o opts) as (? & _). lia.
    + intros w [->|Hn]%elem_of_cons; [done|by inversion Hn].
Qed.

Lemma set_overview_open_semi {HM : Home} b m : semi_ok m -> semi_ok (Layout.set_overview_open b m).
Proof. intros [[] ? ?]. constructor; [by constructor|done..]. Qed.

Lemma monitor_progress_ok p : progress_ok p -> overview_ok (Layout.monitor_progress p).
Proof. by destruct p as [[a|g]|]. Qed.

(** The monitor [m] is ready to join a layout whose counter was [c]. *)
Record joins l (o : Output) wss c m : Prop := {
  jn_semi : semi_ok (HM := output_id o) m;
  jn_clean : clean m;
  jn_output : Monitor.output m = o;
  jn_counter : c <= Monitor.id_counter m <= c + 2;
  jn_ids : forall x, x ∈ mon_ids m -> x ∈ (ws_id <$> wss) \/ c <= x;
  jn_wins : Monitor.windows m ≡ₚ wss ≫= ws_windows;
  jn_synced : synced l m
}.

Lemma overview_progress_keeps cv p m m' :
  Monitor.set_overview_progress cv p m = Ok m' ->
  Monitor.workspaces m' = Monitor.workspaces m /\ Monitor.active_workspace_idx m' = Monitor.active_workspace_idx m.
Proof.
  intros He. unfold Monitor.set_overview_progress in He. bind He as [x|] eqn E1. bind He as [y|] eqn E2.
  destruct (fneb x y); [|by injection He as <-]. cbn in He.
  destruct (Monitor.workspace_switch m) as [[a|g]|]; [bind He as [b|] eqn E3; by injection He as <-|by injection He as <-..].
Qed.

Lemma new_monitor_spec cv o wss lc l :
  layout_ok l -> roomy l -> cv_ok cv -> part_ok lc -> unplugged_ok (Layout.id_counter l) wss -> NoDup (wss ≫= ws_windows) ->
  exists m0 m, Layout.new_monitor cv o wss lc l
      = Ok (m, Layout.set_last_active (delete (connector (output_name o)) (Layout.last_active_workspace_id l)) l)
    /\ joins l o wss (Layout.id_counter l) m
    /\ Monitor.new cv o (output_scale o) (output_size o) (output_working_area o) wss
         (Layout.last_active_workspace_id l !! connector (output_name o)) (Layout.options l) lc (Layout.id_counter l) = Ok m0
    /\ Monitor.workspaces m = Monitor.workspaces m0 /\ Monitor.active_workspace_idx m = Monitor.active_workspace_idx m0.
Proof.
  intros Hok Hr Hcv Hpart Hun Hnd. pose proof (lo_counter l Hok) as Hc. unfold roomy in Hr.
  unfold Layout.new_monitor. set (act := Layout.last_active_workspace_id l !! _).
  destruct (new_spec (HM := output_id o) cv o (output_scale o) (output_size o) (output_working_area o) wss act
    (Layout.options l) lc (Layout.id_counter l)) as (m0 & He & Hm0 & Hw0); [done| |].
  { destruct Hun. constructor; try done; [|lia|apply Hok]. eapply Forall_impl; [done|]. cbn. lia. }
  destruct (new_shape _ _ _ _ _ _ _ _ _ _ _ He) as (wss' & top & a & e & Hp & Hws & _ & Hnew & Ho & Hb & Hcnt & _); [lia..|].
  rewrite He. cbn [mbind res_bind]. apply (monitor_ok_semi (HM := output_id o)) in Hm0 as [Hs0 Hcl0].
  destruct (set_overview_keeps (HM := output_id o) cv (Layout.monitor_progress (Layout.overview_progress l))
    (Layout.set_overview_open (Layout.overview_open l) m0)) as (m & Hov & Hst); [by apply set_overview_open_semi|done| |].
  { apply monitor_progress_ok, Hok. }
  rewrite Hov. cbn. exists m0, m. destruct (overview_progress_keeps _ _ _ _ Hov) as [Hkw Hka].
  pose proof (set_overview_ev _ _ _ _ Hov) as []. cbn in *. destruct Hst as (Hs & Hcl & Hw & _).
  split_and!; try done. constructor; try done.
  - by apply Hcl.
  - congruence.
  - destruct ev_counter; lia.
  - intros x Hx. unfold mon_ids in Hx. rewrite Hkw, Hws in Hx.
    apply list_elem_of_fmap in Hx as (w & -> & Hx). rewrite !elem_of_app in Hx. destruct Hx as [Hx|[Hx|Hx]];
      [right; apply Hnew, elem_of_app; by left| |right; apply Hnew, elem_of_app; by right].
    left. destruct Hun. destruct (prepare_spec cv o (with_merged_layout lc (Layout.options l)) act 0 0 wss)
      as (wss1 & a1 & Hp1 & HF & _); [done|apply merged_opts_ok; [done|apply Hok]|done..|].
    rewrite Hp in Hp1. injection Hp1 as <- <-. rewrite <- (moved_ids _ _ HF). by apply list_elem_of_fmap_2.
  - cbn in Hw. rewrite Hw. exact Hw0.
  - split; congruence.
Qed.

(** A monitor joins the others. *)
Lemma join_ok l c mons m o wss :
  mons_ok c mons -> 0 <= c -> joins l o wss c m ->
  (forall m', m' ∈ mons -> output_matches (output_id (Monitor.output m')) o = false
                        /\ output_matches (output_id o) (Monitor.output m') = false) ->
  (forall x, x ∈ (ws_id <$> wss) -> 0 <= x /\ x ∉ (mons ≫= mon_ids)) ->
  NoDup ((mons ≫= Monitor.windows) ++ (wss ≫= ws_windows)) ->
  mons_ok (Monitor.id_counter m) (mons ++ [m]).
Proof.
  intros Hok Hc0 [Hs Hcl Ho Hcnt Hids Hw Hsy] Hnew Hx Hnd. pose proof Hok as [Hsm Hd Hi Hp Hwm].
  assert (Hself : mon_semi (Monitor.id_counter m) m) by (unfold mon_semi, home_of; by rewrite set_counter_id, Ho).
  assert (Hmid : forall x, x ∈ mon_ids m -> 0 <= x /\ x ∉ (mons ≫= mon_ids)).
  { intros x [Hin|Hge]%Hids; [by apply Hx|]. split; [lia|]. intros Hin%(mons_fresh c); [lia|done]. }
  constructor.
  - apply Forall_app. split; [|by constructor]. eapply Forall_impl; [exact Hsm|]. intros y. apply mon_semi_mono. lia.
  - intros i j mi mj Hmi Hmj Hij. rewrite lookup_snoc_Some in Hmi, Hmj.
    destruct Hmi as [[_ Hmi]|[-> <-]], Hmj as [[_ Hmj]|[-> <-]]; [by eapply Hd|..|done]; rewrite Ho;
      apply Hnew; by eapply list_elem_of_lookup_2.
  - rewrite bind_app. cbn. rewrite app_nil_r. apply NoDup_app. split_and!; [done| |by eapply mon_semi_ids].
    intros x Hin Hm. by apply (Hmid x Hm).
  - rewrite bind_app. cbn. rewrite app_nil_r. apply Forall_app. split; [done|]. apply Forall_forall. intros x Hm. by apply Hmid.
  - rewrite bind_app. cbn. by rewrite app_nil_r, Hw.
Qed.

(** ** Adding an output *)

(** No connected output has a name that matches the new one's, in either
    direction (the backend unnames outputs that would). *)
Definition fresh_output (o : Output) l : Prop :=
  match Layout.monitor_set l with
  | Layout.Normal mons _ _ =>
      forall m, m ∈ mons -> output_matches (output_id (Monitor.output m)) o = false
                        /\ output_matches (output_id o) (Monitor.output m) = false
  | Layout.NoOutputs _ => True
  end.

Lemma split_wins o wss :
  wss ≫= ws_windows
    ≡ₚ (List.filter (mine_kept o) wss ≫= ws_windows) ++ (List.filter (not_mine o) wss ≫= ws_windows).
Proof.
  induction wss as [|w wss IH]; [done|]. cbn. unfold mine_kept at 1, not_mine at 1. rewrite IH.
  destruct (mine o w); cbn; [|solve_Permutation].
  destruct (has_windows_or_name w) eqn:E; cbn; [by rewrite app_assoc|by rewrite (empty_wins w E)].
Qed.

Lemma split_ids o wss x :
  NoDup (ws_id <$> wss) -> x ∈ (ws_id <$> List.filter (mine_kept o) wss) ->
  x ∉ (ws_id <$> List.filter (not_mine o) wss).
Proof.
  intros Hnd (v & -> & [Hv Hmv]%filter_elem)%list_elem_of_fmap (w & Heq & [Hw Hmw]%filter_elem)%list_elem_of_fmap.
  apply list_elem_of_lookup in Hv as [i Hi], Hw as [j Hj].
  assert (i = j) as ->.
  { eapply (NoDup_lookup (ws_id <$> wss)); [done|by rewrite list_lookup_fmap, Hi|]. rewrite list_lookup_fmap, Hj. cbn. congruence. }
  assert (v = w) as -> by congruence. unfold mine_kept, not_mine in *. by destruct (mine o w).
Qed.

(** The primary monitor gives up the workspaces of [o]. *)
Lemma reclaim_mons o l c mons (p : nat) m :
  mons_ok c mons -> Forall clean mons -> Forall (synced l) mons -> mons !! p = Some m -> 0 <= c < 2 ^ 51 ->
  output_matches (output_id (Monitor.output m)) o = false ->
  let wss := List.filter (mine_kept o) (Monitor.workspaces m) in
  exists m', Layout.on_monitor p (Layout.reclaim o) mons c = Ok (wss, <[p := m']> mons, Monitor.id_counter m')
    /\ mons_ok c (<[p := m']> mons) /\ Monitor.id_counter m' = c /\ Forall clean (<[p := m']> mons)
    /\ Forall (synced l) (<[p := m']> mons) /\ Monitor.output m' = Monitor.output m /\ unplugged_ok c wss
    /\ (forall x, x ∈ (ws_id <$> wss) -> 0 <= x /\ x ∉ (<[p := m']> mons ≫= mon_ids))
    /\ mons ≫= Monitor.windows ≡ₚ (wss ≫= ws_windows) ++ (<[p := m']> mons ≫= Monitor.windows).
Proof.
  intros Hok Hcl Hsy Hp Hc Hho wss. pose proof (Forall_lookup_1 _ _ _ _ (ms_semi _ _ Hok) Hp) as Hs.
  pose proof (Forall_lookup_1 _ _ _ _ Hcl Hp) as Hclm.
  destruct (reclaim_spec (HM := home_of m) o (Monitor.set_counter c m)) as (m' & He & Hs' & Hcl' & Hev & Hids & Hw); try done.
  { cbn. lia. }
  destruct (on_monitor_spec [] 0 [] (wss ≫= ws_windows) (Layout.reclaim o) p c mons m wss m')
    as (Hon & Hok' & Hcnt & Hw' & Hcls); try done; [lia|lia| |intros x Hx; by inversion Hx|apply Hok|].
  { constructor; [done|done|by apply evolves_ids|]. cbn [app]. rewrite Hw. apply (split_wins o). }
  assert (Hcc : Monitor.id_counter m' = c) by lia. rewrite Hcc in Hok'.
  assert (Hin : forall x, x ∈ (ws_id <$> wss) -> x ∈ mon_ids m).
  { intros x (w & -> & [Hx _]%filter_elem)%list_elem_of_fmap. by apply list_elem_of_fmap_2. }
  assert (Hfresh : forall x, x ∈ mon_ids m -> 0 <= x < c).
  { intros x Hx. apply (mons_fresh _ mons x Hok), list_elem_of_bind. exists m. split; [done|by eapply list_elem_of_lookup_2]. }
  exists m'. split_and!; [done|done|done|auto| |by apply Hev| | |done].
  - apply Forall_insert; [done|]. destruct (Forall_lookup_1 _ _ _ _ Hsy Hp). destruct (evolves_syncs _ _ _ _ Hev) as [G1 G2].
    unfold synced. by rewrite G1, G2.
  - pose proof (so_core _ Hs) as []. cbn in *. constructor.
    + apply Forall_forall. intros w [Hx _]%filter_elem. rewrite Forall_forall in mc_ws. auto.
    + apply Forall_forall. intros w [_ Hx]%filter_elem. unfold mine_kept in Hx. by apply andb_true_iff in Hx as [_ ?].
    + by apply filter_ids.
    + apply Forall_forall. intros w Hx. by apply Hfresh, Hin, list_elem_of_fmap_2.
  - intros x Hx. split; [by apply Hfresh, Hin|]. rewrite (proj1 (mons_split p mons m m' Hp)). cbn.
    intros [Hm|Hd]%elem_of_app.
    + apply Hids in Hm. revert Hm. apply split_ids; [|done]. exact (mon_semi_ids _ _ Hs).
    + destruct (mons_delete _ _ _ _ Hok Hp) as (_ & Hdis & _). by apply (Hdis x (Hin x Hx)).
Qed.

(** A new output beside others. *)
Lemma add_beside cv o lc l mons p a :
  layout_ok l -> roomy l -> cv_ok cv -> part_ok lc -> fresh_output o l -> Layout.monitor_set l = Layout.Normal mons p a ->
  exists m m' m0 mn l', Layout.add_output cv o lc l = Ok l' /\ layout_step [] [] l l' /\ mons !! p = Some m
    /\ Layout.monitor_set l' = Layout.Normal (<[p := m']> mons ++ [mn]) p a
    /\ Monitor.new cv o (output_scale o) (output_size o) (output_working_area o)
         (List.filter (mine_kept o) (Monitor.workspaces m)) (Layout.last_active_workspace_id l !! connector (output_name o))
         (Layout.options l) lc (Layout.id_counter l) = Ok m0
    /\ Monitor.workspaces mn = Monitor.workspaces m0 /\ Monitor.active_workspace_idx mn = Monitor.active_workspace_idx m0
    /\ Monitor.output mn = o.
Proof.
  intros Hok Hr Hcv Hpart Hfresh Es. pose proof (lo_set l Hok) as Hset. pose proof (lo_counter l Hok) as Hc.
  unfold Layout.add_output. unfold fresh_output in Hfresh. rewrite Es in *.
  destruct Hset as [Hms Hcl Hp Ha Hsy]. destruct (lookup_lt_is_Some_2 mons p Hp) as [m Hm].
  destruct (reclaim_mons o l (Layout.id_counter l) mons p m) as (m' & -> & Hok' & Hcc & Hcl' & Hsy' & Ho & Hun & Hids & Hw);
    try done; [by eapply Hfresh, list_elem_of_lookup_2|].
  cbn [mbind res_bind]. rewrite Hcc. set (mons' := <[p := m']> mons) in *. set (wss := List.filter _ _) in *.
  set (l1 := Layout.set_monitor_set (Layout.Normal mons p a) (Layout.id_counter l) l).
  assert (El : l1 = l) by (unfold l1; destruct l; cbn in *; by rewrite Es). rewrite El.
  assert (Hndw : NoDup ((wss ≫= ws_windows) ++ (mons' ≫= Monitor.windows))) by (rewrite <- Hw; apply Hms).
  destruct (new_monitor_spec cv o wss lc l) as (m0 & mn & -> & Hj & Hnew & Hnw & Hna); try done;
    [by apply NoDup_app in Hndw as (? & _)|].
  cbn. set (l2 := Layout.set_last_active _ l).
  exists m, m', m0, mn, (Layout.set_monitor_set (Layout.Normal (mons' ++ [mn]) p a) (Monitor.id_counter mn) l2).
  split_and!; try done; [|apply Hj].
  change (layout_step [] [] l2 (Layout.set_monitor_set (Layout.Normal (mons' ++ [mn]) p a) (Monitor.id_counter mn) l2)).
  assert (Hlen : length mons' = length mons) by apply length_insert.
  apply set_step; [by apply last_active_ok|apply Hok|done|destruct Hj; cbn; lia| |].
  - constructor; [|apply Forall_app; split; [done|constructor; [apply Hj|done]]|rewrite length_app; lia..
      |apply Forall_app; split; [done|constructor; [apply Hj|done]]].
    eapply (join_ok l (Layout.id_counter l)); try done; [|by rewrite Permutation_app_comm].
    intros x Hx. unfold mons' in Hx. apply list_elem_of_lookup in Hx as [j Hj'].
    apply list_lookup_insert_Some in Hj' as [(<- & <- & _)|[_ Hj']]; [rewrite Ho|]; by eapply Hfresh, list_elem_of_lookup_2.
  - unfold Layout.workspaces. cbn. rewrite Es, !mons_windows, bind_app. cbn. rewrite app_nil_r, (jn_wins _ _ _ _ _ Hj).
    rewrite Hw. apply Permutation_app_comm.
Qed.

(** The first output. *)
Lemma add_first cv o lc l wss :
  layout_ok l -> roomy l -> cv_ok cv -> part_ok lc -> Layout.monitor_set l = Layout.NoOutputs wss ->
  exists l', Layout.add_output cv o lc l = Ok l' /\ layout_step [] [] l l'.
Proof.
  intros Hok Hr Hcv Hpart Es. pose proof (lo_set l Hok) as Hset. pose proof (lo_counter l Hok) as Hc.
  pose proof (lo_wins l Hok) as Hnd. unfold Layout.add_output. rewrite Es in *.
  rewrite (windows_unplugged l wss Es) in Hnd. apply NoDup_app in Hnd as (_ & _ & Hndw).
  destruct (new_monitor_spec cv o wss lc l) as (m0 & mn & -> & Hj & _); try done. cbn. eexists. split; [done|].
  set (l2 := Layout.set_last_active _ l).
  change (layout_step [] [] l2 (Layout.set_monitor_set (Layout.Normal [mn] 0 0) (Monitor.id_counter mn) l2)).
  apply set_step; [by apply last_active_ok|apply Hok|done|destruct Hj; cbn; lia| |].
  - constructor; [|constructor; [apply Hj|done]|cbn; lia..|constructor; [apply Hj|done]].
    eapply (join_ok l (Layout.id_counter l) []); try done.
    + constructor; cbn; try constructor. intros i j mi mj Hi. by rewrite lookup_nil in Hi.
    + intros m Hn. by inversion Hn.
    + intros x (w & -> & Hx)%list_elem_of_fmap. destruct Hset as [_ _ _ Hf]. rewrite Forall_forall in Hf.
      split; [by apply Hf|]. intros Hn. by inversion Hn.
  - unfold Layout.workspaces. cbn. rewrite Es. rewrite app_nil_r. symmetry. exact (jn_wins _ _ _ _ _ Hj).
Qed.

Lemma add_output_spec cv o lc l :
  layout_ok l -> roomy l -> cv_ok cv -> part_ok lc -> fresh_output o l ->
  exists l', Layout.add_output cv o lc l = Ok l' /\ layout_step [] [] l l'.
Proof.
  intros Hok Hr Hcv Hpart Hf. destruct (Layout.monitor_set l) as [mons p a|wss] eqn:Es; [|by eapply add_first].
  destruct (add_beside cv o lc l mons p a) as (? & ? & ? & ? & l' & ? & ? & _); try done. by exists l'.
Qed.
End hotplug.

(** * Unplugging an output and plugging it back

    What [remove_output] and [add_output] do together: the output gets back its
    workspaces, in order, with the same one active. *)
Local Open Scope Z_scope.
#[local] Arguments Nat.ltb : simpl never.
#[local] Arguments Nat.leb : simpl never.

Section replug.
Context {WO : WorkspaceOps} {LM : Libm} {KF : Keyframe} {WL : WorkspaceLaws} {LO : LayoutOps} {LL : LayoutLaws}.
Context {SM : Smithay}.
Abbreviation Mon := Monitor.Monitor.
Implicit Types (m : Mon) (mons : list Mon) (w : WS) (wss : list WS) (c : Z) (cv : ClockView) (l : Layout.Layout).
Abbreviation kept wss := (List.filter has_windows_or_name wss).

(** ** Cleaning up keeps the workspaces in use *)
Lemma kept_all wss : Forall (fun w => has_windows_or_name w = true) wss -> kept wss = wss.
Proof. induction 1 as [|w wss Hw _ IH]; cbn; [done|]. by rewrite Hw, IH. Qed.

Lemma kept_delete (i : nat) wss w : wss !! i = Some w -> has_windows_or_name w = false -> kept (delete i wss) = kept wss.
Proof.
  intros Hi Hw. rewrite delete_take_drop. rewrite <- (take_drop_middle _ _ _ Hi) at 3.
  rewrite !List.filter_app. cbn. by rewrite Hw.
Qed.

Lemma kept_insert (i : nat) wss w : has_windows_or_name w = false -> kept (insert_at i w wss) = kept wss.
Proof.
  intros Hw. unfold insert_at. rewrite List.filter_app. cbn. rewrite Hw, <- List.filter_app. by rewrite take_drop.
Qed.

Lemma new_unused i o opts : has_windows_or_name (ws_new i o opts) = false.
Proof. by destruct (ws_new_spare (HM := output_id o) i o opts eq_refl). Qed.

Lemma clean_step_kept m idx m' :
  Monitor.clean_step m idx = Ok m' -> kept (Monitor.workspaces m') = kept (Monitor.workspaces m).
Proof.
  unfold Monitor.clean_step, vec_remove. intros H. case_bool_decide; [by injection H as <-|]. bind H as [w|] eqn E.
  apply index_Some in E. destruct (has_windows_or_name w) eqn:Ew; [by injection H as <-|].
  rewrite E in H. cbn in H. injection H as <-. cbn. by eapply kept_delete.
Qed.

Lemma clean_loop_kept js m m' :
  foldl (fun (r : res Mon) idx => m ← r; Monitor.clean_step m idx) (Ok m) js = Ok m' ->
  kept (Monitor.workspaces m') = kept (Monitor.workspaces m).
Proof.
  revert m. induction js as [|idx js IH]; cbn; intros m H; [by injection H as <-|].
  cbn [mbind res_bind] in H. destruct (Monitor.clean_step m idx) as [m1|] eqn:E.
  - rewrite <- (clean_step_kept _ _ _ E). by apply IH.
  - exfalso. clear -H. induction js as [|i js IH]; cbn in H; [done|]. by apply IH.
Qed.

Lemma clean_up_kept m m' :
  Monitor.clean_up_workspaces m = Ok m' -> kept (Monitor.workspaces m') = kept (Monitor.workspaces m).
Proof.
  unfold Monitor.clean_up_workspaces. intros H. bind H as [[]|] eqn E1. bind H as [n|] eqn E2. bind H as [m1|] eqn E3.
  apply clean_loop_kept in E3. rewrite <- E3. destruct (Monitor.ewaf m1 && _); [|by injection H as <-].
  bind H as [w0|] eqn E4. bind H as [[]|] eqn E5. bind H as [w1|] eqn E6. bind H as [[]|] eqn E7.
  apply index_Some in E6. rewrite (vec_remove_ok _ w1) in H by done. cbn in H. injection H as <-. cbn.
  apply (kept_delete 1 _ w1); [done|]. by destruct (has_windows_or_name w1).
Qed.

Lemma add_workspace_kept idx m m' :
  Monitor.add_workspace_at idx m = Ok m' -> kept (Monitor.workspaces m') = kept (Monitor.workspaces m).
Proof.
  unfold Monitor.add_workspace_at, Monitor.new_workspace, vec_insert. cbn. intros H.
  destruct (decide _); [|done]. cbn in H.
  destruct (Monitor.workspace_switch m) as [s|]; [destruct (fleb _ _); [bind H as [s'|] eqn E|]|];
    injection H as <-; cbn; apply kept_insert, new_unused.
Qed.

(** ** Workspaces that go to another monitor *)

(** [w'] is [w], on monitor [o] for the time being. *)
Definition hosted (o : Output) w w' : Prop :=
  moved_ws w w' /\ (output_matches (ws_original_output w) o = false -> ws_original_output w' = ws_original_output w).

Lemma append_kept cv wss m m' :
  cv_ok cv -> opts_ok (Monitor.options m) -> Monitor.append_workspaces cv wss m = Ok m' -> Forall ws_ok wss -> Forall (fun w => has_windows_or_name w = true) wss ->
  last_empty (HM := home_of m) (Monitor.workspaces m) ->
  exists wss', kept (Monitor.workspaces m') = kept (Monitor.workspaces m) ++ wss' /\ Forall2 (hosted (Monitor.output m)) wss wss'.
Proof.
  intros Hcv Hopts H Hok Hn (e & He & [Hee _]). unfold Monitor.append_workspaces in H. destruct wss as [|w0 wss0] eqn:Ew.
  { injection H as <-. exists []. by rewrite app_nil_r. }
  rewrite <- Ew in *. clear Ew w0 wss0.
  destruct (for_each_spec (hosted (Monitor.output m))
    (fun w => w ← ws_set_output cv (Some (Monitor.output m)) w; ws_update_config cv (Monitor.options m) w) wss) as (wss' & Ef & HF); [done| |].
  { intros w Hw. destruct (set_output_update_config cv (Some (Monitor.output m)) (Monitor.options m) w Hcv Hopts Hw) as (w' & -> & Ht & Ho).
    exists w'. split; [done|]. split; [done|]. intros Hm. destruct Ho as [?|(o' & [= <-] & ? & _)]; [done|congruence]. }
  rewrite Ef in H. cbn [mbind res_bind] in H. bind H as [n|] eqn E2. bind H as [[e' rest]|] eqn E3.
  bind H as [x|] eqn E4. bind H as [m1|] eqn E5. bind H as [n1|] eqn E6. apply clean_up_kept in H.
  exists wss'. split; [|done].
  assert (Hn' : Forall (fun w => has_windows_or_name w = true) wss').
  { eapply moved_hwn; [|exact Hn]. eapply Forall2_impl; [exact HF|]. by intros ? ? []. }
  rewrite H. transitivity (kept (Monitor.workspaces m1)); [by case_bool_decide|].
  transitivity (kept (rest ++ wss' ++ [e'])); [destruct (_ && _); [by apply add_workspace_kept in E5|by injection E5 as <-]|].
  unfold usub in E2. destruct (decide _); [|done]. injection E2 as <-.
  rewrite last_lookup in He. unfold vec_remove, Monitor.len in E3. rewrite Nat.sub_1_r, He in E3. injection E3 as <- <-.
  rewrite !List.filter_app, (kept_delete _ _ e), (kept_all wss') by done. cbn. rewrite Hee. by rewrite app_nil_r.
Qed.

(** ** The active workspace of a new monitor *)
Lemma prepare_active cv o opts id idx a wss wss' a' (k : nat) w :
  cv_ok cv -> opts_ok opts -> Monitor.prepare cv o opts (Some id) idx a wss = Ok (wss', a') -> Forall ws_ok wss -> NoDup (ws_id <$> wss) ->
  wss !! k = Some w -> ws_id w = id -> a' = (idx + k)%nat.
Proof.
  intros Hcv Hopts. assert (Hkeep : forall wss wss' idx a a', Monitor.prepare cv o opts (Some id) idx a wss = Ok (wss', a') -> Forall ws_ok wss ->
    id ∉ (ws_id <$> wss) -> a' = a).
  { clear -Hcv Hopts. intros wss. induction wss as [|v wss IH]; intros wss' idx a a' H Hok Hin; cbn in H; [by injection H as _ <-|].
    bind H as [[]|] eqn E1. apply Forall_cons in Hok as [Hv Hok].
    destruct (ws_set_output_spec cv (Some o) v Hcv Hv) as (v1 & F1 & Ht1 & _). rewrite F1 in H. cbn [mbind res_bind] in H.
    destruct (ws_update_config_spec cv opts v1 Hcv Hopts (turns_ok _ _ _ Ht1)) as (v2 & F2 & Ht2 & _). rewrite F2 in H. cbn [mbind res_bind] in H.
    bind H as [[wss1 a1]|] eqn E2. injection H as _ <-. cbn in Hin. apply not_elem_of_cons in Hin as [Hne Hin].
    apply IH in E2; [|done..]. rewrite E2, bool_decide_eq_false_2; [done|]. intros [= Heq]. apply Hne.
    by rewrite <- Heq, (turns_id _ _ _ Ht2), (turns_id _ _ _ Ht1). }
  revert wss' idx a a' k. induction wss as [|v wss IH]; intros wss' idx a a' k H Hok Hnd Hk Hid; [done|]. cbn in H.
  bind H as [[]|] eqn E1. apply Forall_cons in Hok as [Hv Hok]. cbn in Hnd. apply NoDup_cons in Hnd as [Hin Hnd].
  destruct (ws_set_output_spec cv (Some o) v Hcv Hv) as (v1 & F1 & Ht1 & _). rewrite F1 in H. cbn [mbind res_bind] in H.
  destruct (ws_update_config_spec cv opts v1 Hcv Hopts (turns_ok _ _ _ Ht1)) as (v2 & F2 & Ht2 & _). rewrite F2 in H. cbn [mbind res_bind] in H.
  bind H as [[wss1 a1]|] eqn E2. injection H as _ <-.
  destruct k as [|k]; cbn in Hk.
  - injection Hk as <-. apply Hkeep in E2; [|done|by rewrite <- Hid].
    rewrite E2, bool_decide_eq_true_2; [lia|]. f_equal. by rewrite (turns_id _ _ _ Ht2), (turns_id _ _ _ Ht1).
  - rewrite (IH _ _ _ _ _ E2 Hok Hnd Hk Hid). lia.
Qed.

(** ** The round trip *)
Lemma delete_other (i : nat) mons m : m ∈ delete i mons -> exists j, j <> i /\ mons !! j = Some m.
Proof.
  intros [j Hj]%list_elem_of_lookup. destruct (decide (j < i)%nat).
  - rewrite lookup_delete_at_lt in Hj by lia. exists j. split; [lia|done].
  - rewrite lookup_delete_at_ge in Hj by lia. exists (S j). split; [lia|done].
Qed.

Lemma filter_mine_kept o wss : List.filter (mine_kept o) wss = List.filter (mine o) (kept wss).
Proof.
  induction wss as [|w wss IH]; [done|]. cbn. unfold mine_kept at 1. destruct (has_windows_or_name w); cbn; [|by rewrite andb_false_r].
  rewrite andb_true_r, IH. done.
Qed.

Lemma filter_all (f : WS -> bool) wss : (forall w, w ∈ wss -> f w = true) -> List.filter f wss = wss.
Proof.
  induction wss as [|w wss IH]; [done|]. intros Hf. cbn. rewrite Hf by left. f_equal. apply IH. intros v Hv. apply Hf. by right.
Qed.
Lemma filter_no (f : WS -> bool) wss : (forall w, w ∈ wss -> f w = false) -> List.filter f wss = [].
Proof.
  induction wss as [|w wss IH]; [done|]. intros Hf. cbn. rewrite Hf by left. apply IH. intros v Hv. apply Hf. by right.
Qed.

Lemma moved_trans wss1 wss2 wss3 : Forall2 moved_ws wss1 wss2 -> Forall2 moved_ws wss2 wss3 -> Forall2 moved_ws wss1 wss3.
Proof.
  intros H. revert wss3. induction H as [|x y xs ys Hxy _ IH]; intros wss3 G; inversion G; subst; constructor; [|by apply IH].
  by eapply turns_same.
Qed.

(** The workspaces that come back to [o] from the monitor that hosted them. *)
Lemma hosted_back o oh wss1 wss2 :
  Forall2 same_ws wss1 wss2 -> (forall w, w ∈ wss1 -> ws_original_output w = output_id o) ->
  output_matches (output_id o) oh = false ->
  forall wss3, Forall2 (hosted oh) wss2 wss3 ->
  (forall w, w ∈ wss3 -> mine o w = true) /\ Forall2 moved_ws wss1 wss3.
Proof.
  intros H Ho Hm. induction H as [|x y xs ys [Hxy Hxo] Hrest IH]; intros wss3 G; inversion G as [|? z ? zs [Hyz Hyo]]; subst.
  { split; [intros w Hn; by inversion Hn|constructor]. }
  destruct (IH ltac:(intros; apply Ho; by right) zs) as [Hin HF]; [done|]. split; [|constructor; [by eapply turns_same|done]].
  intros w [->|Hw]%elem_of_cons; [|by apply Hin]. unfold mine, output_matches.
  rewrite Hyo, Hxo, (Ho x) by (try left; by rewrite Hxo, (Ho x) by left). apply matches_own.
Qed.

(** The monitor made for [o] out of the workspaces [wss]. *)
Lemma new_brings_back cv o sc vs wa wss act base lc c m :
  cv_ok cv -> opts_ok base -> part_ok lc -> Monitor.new cv o sc vs wa wss act base lc c = Ok m -> 0 <= c -> c + 2 < 2 ^ 64 -> Forall ws_ok wss ->
  Forall (fun w => has_windows_or_name w = true) wss -> NoDup (ws_id <$> wss) ->
  Monitor.output m = o /\ Forall2 moved_ws wss (kept (Monitor.workspaces m))
  /\ (forall w, w ∈ wss -> act = Some (ws_id w) ->
      exists w', Monitor.workspaces m !! Monitor.active_workspace_idx m = Some w' /\ ws_id w' = ws_id w).
Proof.
  intros Hcv Hbase Hpart Hnew Hc Hc2 Hok Hn Hnd. pose proof (merged_opts_ok lc base Hpart Hbase) as Hopts.
  destruct (new_shape _ _ _ _ _ _ _ _ _ _ _ Hnew Hc Hc2) as (wss' & top & a & e & Hp & Hws & Hact & _ & Ho & _ & _ & _ & Hem).
  destruct (prepare_spec cv o (with_merged_layout lc base) act 0 0 wss Hcv Hopts Hok Hn) as (wss1 & a1 & Hp1 & HF & _).
  rewrite Hp in Hp1. injection Hp1 as <- <-. split_and!; [done| |].
  - rewrite Hws, !List.filter_app, (filter_no _ top), (kept_all wss'), (filter_no _ [e]), app_nil_r; [done|..].
    + intros w Hw. apply Hem, elem_of_app. by right.
    + by eapply moved_hwn.
    + intros w Hw. apply Hem, elem_of_app. by left.
  - intros w [k Hk]%list_elem_of_lookup ->. pose proof (prepare_active _ _ _ _ _ _ _ _ _ _ _ Hcv Hopts Hp Hok Hnd Hk eq_refl) as ->.
    destruct (Forall2_lookup_l _ _ _ _ _ HF Hk) as (w' & Hw' & Ht). exists w'. split; [|by apply turns_id in Ht].
    rewrite Hact, Hws, lookup_app_r, lookup_app_l by (try apply lookup_lt_Some in Hw'; lia).
    by replace (length top + (0 + k) - length top)%nat with k by lia.
Qed.

(** [o]'s workspaces are on its own monitor, and only there. *)
Definition at_home (o : Output) (i : nat) mons m : Prop :=
  (forall w, w ∈ kept (Monitor.workspaces m) -> ws_original_output w = output_id o)
  /\ (forall m' w, m' ∈ delete i mons -> w ∈ kept (Monitor.workspaces m') -> output_matches (ws_original_output w) o = false).

Lemma replug_spec cv o lc l mons p a i m :
  layout_ok l -> Layout.id_counter l + 1 < 2 ^ 51 -> cv_ok cv -> part_ok lc -> Layout.monitor_set l = Layout.Normal mons p a ->
  Layout.monitor_idx o mons = Some i -> mons !! i = Some m -> delete i mons <> [] -> at_home o i mons m ->
  exists l1 l2 mons' p' a' m', Layout.remove_output cv o l = Ok l1 /\ Layout.add_output cv o lc l1 = Ok l2
    /\ Layout.monitor_set l2 = Layout.Normal (mons' ++ [m']) p' a' /\ Monitor.output m' = o
    /\ Forall2 moved_ws (kept (Monitor.workspaces m)) (kept (Monitor.workspaces m'))
    /\ (forall w, Monitor.workspaces m !! Monitor.active_workspace_idx m = Some w -> has_windows_or_name w = true ->
        exists w', Monitor.workspaces m' !! Monitor.active_workspace_idx m' = Some w' /\ ws_id w' = ws_id w)
    /\ layout_step [] [] l l2.
Proof.
  intros Hok Hr Hcv Hpart Hs Hidx Hi Hne [Hown Hothers].
  destruct (remove_other cv o l mons p a i m) as (w & wss & mp & m1 & Hrm); try done; [unfold roomy; lia|]. cbv zeta in Hrm.
  destruct Hrm as (Hre & Hst1 & Hcnt & Hact & Hinto & HF & Hmp & Happ). set (l1 := Layout.set_monitor_set _ _ _) in *.
  pose proof (lo_set l Hok) as Hn. rewrite Hs in Hn. destruct Hn as [Hms _ _ _ _]. pose proof (ms_distinct _ _ Hms) as Hd.
  destruct (monitor_idx_lookup _ _ _ Hidx) as (m0 & Hi0 & Ho). assert (m0 = m) as -> by congruence.
  pose proof (append_workspaces_ev _ _ _ _ Happ) as Hev. pose proof (list_elem_of_lookup_2 _ _ _ Hmp) as Hmpin.
  assert (Hdis : forall x, x ∈ delete i mons -> output_matches (output_id (Monitor.output x)) o = false
    /\ output_matches (output_id o) (Monitor.output x) = false).
  { intros x (j & Hj & Hx)%delete_other. rewrite <- Ho. split; by eapply Hd. }
  assert (Hfresh : fresh_output o l1).
  { cbn. intros x [j Hj]%list_elem_of_lookup. apply list_lookup_insert_Some in Hj as [(_ & <- & _)|[_ Hj]].
    - rewrite (ev_output _ _ _ _ Hev). exact (Hdis mp Hmpin).
    - by eapply Hdis, list_elem_of_lookup_2. }
  destruct (add_beside cv o lc l1 (<[shift_idx i p := m1]> (delete i mons)) (shift_idx i p) (shift_idx i a))
    as (mh & m2 & mn0 & mn & l2 & Ha & Hst2 & Hmh & Hset & Hnew & Hnw & Hna & Hno); try done; [apply Hst1|unfold roomy; cbn; lia|].
  rewrite list_lookup_insert_eq in Hmh by (by eapply lookup_lt_Some). injection Hmh as <-.
  assert (Hsp : mon_semi (Layout.id_counter l) mp).
  { destruct (mons_delete _ _ _ _ Hms Hi) as (Hms' & _). exact (Forall_lookup_1 _ _ _ _ (ms_semi _ _ Hms') Hmp). }
  pose proof (so_last _ Hsp) as Hl. pose proof (mc_config _ (so_core _ Hsp)) as Hopts.
  destruct (leaves cv l mons p a i m) as (? & wss0 & _ & Hinto0 & _ & Hun & _); try done.
  assert (wss0 = wss) as -> by congruence. destruct Hun as [Hwok Hwn Hwids Hwf].
  destruct (append_kept _ _ _ _ Hcv Hopts Happ) as (wss' & Hkept & Hhost); [done..|]. cbn in Hkept, Hhost.
  destruct (hosted_back o (Monitor.output mp) (kept (Monitor.workspaces m)) wss HF Hown) with (wss3 := wss') as [Hmine Hmoved];
    [by apply Hdis|done|].
  assert (Hwss : List.filter (mine_kept o) (Monitor.workspaces m1) = wss').
  { rewrite filter_mine_kept, Hkept, List.filter_app, (filter_all _ wss'), (filter_no _ (kept _)); [done| |done].
    intros v Hv. by eapply Hothers. }
  rewrite Hwss in Hnew.
  assert (Hn' : Forall (fun w => has_windows_or_name w = true) (kept (Monitor.workspaces m)))
    by (apply Forall_forall; by intros v [_ ?]%filter_elem).
  pose proof (mon_semi_ids _ _ (Forall_lookup_1 _ _ _ _ (ms_semi _ _ Hms) Hi)) as Hids.
  pose proof (lo_counter l1 (proj1 Hst1)) as Hc1. cbn in Hc1.
  destruct (new_brings_back _ _ _ _ _ _ _ _ _ _ _ Hcv (lo_options l1 (proj1 Hst1)) Hpart Hnew) as (Hon & HFn & Hactn); [done|cbn; lia| | | |].
  - by eapply moved_oks.
  - by eapply moved_hwn.
  - rewrite (moved_ids _ _ Hmoved). by apply filter_ids.
  - exists l1, l2, (<[shift_idx i p := m2]> (<[shift_idx i p := m1]> (delete i mons))), (shift_idx i p), (shift_idx i a), mn.
    split_and!; try done; [by rewrite Hnw; eapply moved_trans| |by eapply layout_step_trans].
    rewrite Hnw, Hna. intros w0 Hw0 Hwn0. assert (w0 = w) as -> by congruence.
    assert (Hin : w ∈ kept (Monitor.workspaces m)) by (apply filter_elem; split; [by eapply list_elem_of_lookup_2|done]).
    apply list_elem_of_lookup in Hin as [k Hk]. destruct (Forall2_lookup_l _ _ _ _ _ Hmoved Hk) as (v & Hv & Ht).
    destruct (Hactn v) as (w' & Hw' & Hid); [by eapply list_elem_of_lookup_2| |].
    + cbn. rewrite Ho, lookup_insert_eq. f_equal. symmetry. by apply turns_id in Ht.
    + exists w'. split; [done|]. by rewrite Hid, (turns_id _ _ _ Ht).
Qed.
End replug.
