(* ===== verification/LayoutWindows.v ===== *)
(** * Windows coming and going

    [add_window], [remove_window] and the activation of windows in
    src/layout/mod.rs preserve the layout's invariant and account for every
    window. *)

From stdpp Require Import base numbers option list strings gmap.
From Stdlib Require Import ZArith Lia.
From S2P Require Import Prelude.
From S2P Require Import F64.
From S2P Require Import Duration.
From S2P Require Import Clock.
From S2P Require Import Gesture.
From S2P Require Import Animation.
From S2P Require Import AnimTotal.
From S2P Require Import OutputName.
From S2P Require Import LayoutTypes.
From S2P Require Import Interface.
From S2P Require Import Monitor.
From S2P Require Import MonitorIds.
From S2P Require Import MonitorInv.
From S2P Require Import MonitorOps.
From S2P Require Import MonitorOps2.
From S2P Require Import MonitorThms.
From S2P Require Import Layout.
From S2P Require Import LayoutInv.
From S2P Require Import LayoutHotplug.

Local Open Scope Z_scope.
#[local] Arguments Nat.ltb : simpl never.
#[local] Arguments Nat.leb : simpl never.

Section windows.
Context {WO : WorkspaceOps} {LM : Libm} {KF : Keyframe} {WL : WorkspaceLaws} {LO : LayoutOps} {LL : LayoutLaws}.
Context {SM : Smithay}.
Abbreviation Mon := Monitor.Monitor.
Implicit Types (m : Mon) (mons : list Mon) (w : WS) (wss : list WS) (c : Z) (cv : ClockView) (l : Layout.Layout).
Implicit Types (x y : Win) (n : Window).

(** ** Finding windows *)
Lemma has_window_true x w : has_window x w = true <-> x ∈ ws_windows w.
Proof. unfold has_window. apply bool_decide_eq_true. Qed.

Lemma position_found {A} (f : A -> bool) (xs : list A) (y : A) :
  y ∈ xs -> f y = true -> exists i z, position f xs = Some i /\ xs !! i = Some z /\ f z = true.
Proof.
  intros Hy Hf. destruct (position f xs) as [i|] eqn:E.
  - destruct (position_Some _ _ _ E) as (z & Hz & Hfz & _). by exists i, z.
  - rewrite position_None in E. specialize (E y Hy). congruence.
Qed.

Lemma window_at x wss :
  x ∈ (wss ≫= ws_windows) -> exists i w, position (has_window x) wss = Some i /\ wss !! i = Some w /\ x ∈ ws_windows w.
Proof.
  intros (w & Hx & Hw)%list_elem_of_bind.
  destruct (position_found (has_window x) wss w) as (i & v & ? & ? & Hv); [done|by apply has_window_true|].
  exists i, v. by rewrite has_window_true in Hv.
Qed.

Lemma monitor_has x m : existsb (has_window x) (Monitor.workspaces m) = true <-> x ∈ Monitor.windows m.
Proof.
  rewrite existsb_exists. unfold Monitor.windows. rewrite list_elem_of_bind. split.
  - intros (w & Hin & Hw). exists w. split; [by apply has_window_true|by apply list_elem_of_In].
  - intros (w & Hx & Hw). exists w. split; [by apply list_elem_of_In|by apply has_window_true].
Qed.

Lemma monitor_with_window_ok x mons :
  x ∈ (mons ≫= Monitor.windows) ->
  exists i m, Layout.monitor_with_window x mons = Some i /\ mons !! i = Some m /\ x ∈ Monitor.windows m.
Proof.
  intros (m & Hx & Hm)%list_elem_of_bind.
  destruct (position_found (fun m => existsb (has_window x) (Monitor.workspaces m)) mons m) as (i & v & ? & ? & Hv);
    [done|by apply monitor_has|].
  exists i, v. by rewrite monitor_has in Hv.
Qed.

Lemma monitor_with_window_None x mons :
  Layout.monitor_with_window x mons = None -> x ∉ (mons ≫= Monitor.windows).
Proof. intros Hn Hx. destruct (monitor_with_window_ok x mons Hx) as (i & m & Hs & _). congruence. Qed.

(** ** Changing one workspace of a monitor *)
Lemma same_refl w : ws_ok w -> same_ws w w.
Proof. intros. by split. Qed.

Lemma same_trans w1 w2 w3 : same_ws w1 w2 -> same_ws w2 w3 -> same_ws w1 w3.
Proof. intros [H1 E1] [H2 E2]. split; [by eapply turns_same|congruence]. Qed.

Lemma same_insert wss (i : nat) w w' :
  Forall ws_ok wss -> wss !! i = Some w -> same_ws w w' -> Forall2 same_ws wss (<[i := w']> wss).
Proof.
  intros Hok Hi Hs. rewrite <- (list_insert_id wss i w Hi) at 1. apply Forall2_insert; [|done].
  clear -Hok. induction Hok; constructor; [by apply same_refl|done].
Qed.

Lemma update_same {HM : Home} m (i : nat) w w' :
  semi_ok m -> Monitor.workspaces m !! i = Some w -> same_ws w w' ->
  let m' := Monitor.set_workspaces (<[i := w']> (Monitor.workspaces m)) m in
  step_ok [] m m' /\ evolves [] 0 m m'.
Proof.
  intros Hs Hi Hw. cbv zeta. split; [apply same_step; [done|]; eapply same_insert; [apply Hs|done..]|].
  apply evolves_sub; try done. cbn. intros k. rewrite (replace_ids _ _ w); [done..|]. apply Hw.
Qed.

(** ** Adding a window *)
Lemma apply_height_ok cv x h fl w :
  cv_ok cv -> ws_ok w -> x ∈ ws_windows w -> exists w', Layout.apply_height cv x h fl w = Ok w' /\ same_ws w w'.
Proof.
  intros Hcv Hok Hx. unfold Layout.apply_height.
  destruct h as [h|]; [destruct fl|]; [exists w; split; [done|by apply same_refl]| |exists w; split; [done|by apply same_refl]].
  by apply ws_set_window_height_spec.
Qed.

Lemma add_window_to_monitor_spec {HM : Home} cv n tg width height fw fl a m :
  semi_ok m -> room m 2 -> cv_ok cv -> mon_target_ok tg m -> window_ok n -> window_id n ∉ Monitor.windows m ->
  exists m', Layout.add_window_to_monitor cv n tg width height fw fl a m = Ok m' /\ step_ok [window_id n] m m' /\ evolves [] 2 m m'.
Proof.
  intros Hs Hr Hcv Htg Hn Hx. unfold Layout.add_window_to_monitor.
  destruct (resolve_ok tg m Hs Htg) as (idx & t & w & -> & Hw & _). cbn [mbind res_bind]. unfold index at 1. rewrite Hw.
  cbn [unwrap mbind res_bind].
  destruct (lookup_lt_is_Some_2 (Monitor.workspaces m) 0) as [w0 Hw0]; [pose proof (len_pos m Hs); unfold Monitor.len in *; lia|].
  unfold Monitor.add_window at 1, index at 1. rewrite Hw0. cbn [unwrap mbind res_bind].
  set (width' := ws_resolve_scrolling_width n width w).
  destruct (add_tile_spec cv (ws_make_tile n w0) tg a true width' fw fl m) as (m1 & He & Hst); try done;
    [apply ws_make_tile_ok; [by eapply lookup_ws_ok|done]|by rewrite ws_make_tile_spec|]. rewrite ws_make_tile_spec in Hst. rewrite He. cbn [mbind res_bind].
  pose proof (add_tile_ev _ _ _ _ _ _ _ _ _ _ He) as Hev.
  destruct (negb fl && _); [|by exists m1].
  assert (Hx1 : window_id n ∈ (Monitor.workspaces m1 ≫= ws_windows)).
  { change (window_id n ∈ Monitor.windows m1). destruct Hst as (_ & _ & -> & _). left. }
  destruct (window_at _ _ Hx1) as (j & v & -> & Hv & Hxv). cbn [unwrap mbind res_bind].
  destruct (apply_height_ok cv (window_id n) height fl v) as (v' & Hh & Hsame); [done|by eapply lookup_ws_ok; [apply Hst|]|done|].
  rewrite (update_ws_ok j _ m1 v v') by done.
  destruct (update_same m1 j v v') as [Hst2 Hev2]; [apply Hst|done..|].
  eexists. split; [done|]. split; [by apply (step_trans [window_id n] [] m m1)|]. by eapply (evolves_seq [] 2 0).
Qed.

(** What the caller of [add_window] guarantees. *)
Definition add_target_ok (target : Layout.AddWindowTarget) l : Prop :=
  match target, Layout.monitor_set l with
  | Layout.AddAuto, _ => True
  | Layout.AddOutput o, Layout.Normal mons _ _ => is_Some (Layout.monitor_idx o mons)
  | Layout.AddOutput _, Layout.NoOutputs _ => False
  | Layout.AddWorkspace id, _ => id ∈ (ws_id <$> Layout.workspaces l)
  | Layout.AddNextTo x, _ => x ∈ Layout.windows l
  end.

Lemma moving_or_placed l mons p a y :
  Layout.monitor_set l = Layout.Normal mons p a -> y ∈ Layout.windows l ->
  Layout.moving_windows l = [y] \/ y ∈ (mons ≫= Monitor.windows).
Proof.
  intros Hs. rewrite (windows_normal l mons p a Hs). intros [Hm|Hm]%elem_of_app; [left|by right].
  unfold Layout.moving_windows in *. destruct (Layout.interactive_move l) as [[]|]; try by inversion Hm.
  apply list_elem_of_singleton in Hm as ->. done.
Qed.

Lemma resolve_add_target_ok target l mons p a :
  layout_ok l -> Layout.monitor_set l = Layout.Normal mons p a -> add_target_ok target l ->
  exists i t m, Layout.resolve_add_target target mons a l = Ok (i, t) /\ mons !! i = Some m
    /\ mon_target_ok t (Monitor.set_counter (Layout.id_counter l) m).
Proof.
  intros Hok Hs Ht. pose proof (lo_set l Hok) as Hn. rewrite Hs in Hn. pose proof (no_active _ _ _ _ _ Hn) as Ha.
  destruct (lookup_lt_is_Some_2 mons a Ha) as [ma Hma].
  unfold add_target_ok in Ht. rewrite Hs in Ht. unfold Layout.resolve_add_target. destruct target as [|o|id|x].
  - by exists a, MonAuto, ma.
  - destruct Ht as [i Hi]. unfold Layout.on_outputs. rewrite Hi. destruct (monitor_idx_lookup _ _ _ Hi) as (m & Hm & _).
    by exists i, MonAuto, m.
  - unfold Layout.workspaces in Ht. rewrite Hs in Ht. apply list_elem_of_fmap in Ht as (w & -> & Hw).
    apply list_elem_of_bind in Hw as (m & Hw & Hm).
    destruct (position_found (fun m => existsb (fun v => ws_id v =? ws_id w) (Monitor.workspaces m)) mons m)
      as (i & m' & -> & Hm' & Hex); [done| |].
    { apply existsb_exists. exists w. split; [by apply list_elem_of_In|apply Z.eqb_refl]. }
    exists i, (MonWorkspace (ws_id w) None), m'. split_and!; [done..|]. apply existsb_exists in Hex as (v & Hv & Hid%Z.eqb_eq).
    exists v. split_and!; [by apply list_elem_of_In|done..].
  - assert (Hplaced : x ∈ (mons ≫= Monitor.windows) -> exists i t m,
      (i ← unwrap (Layout.monitor_with_window x mons); mret (i, MonNextTo x)) = Ok (i, t) /\ mons !! i = Some m
      /\ mon_target_ok t (Monitor.set_counter (Layout.id_counter l) m)).
    { intros Hx. destruct (monitor_with_window_ok x mons Hx) as (i & m & -> & Hm & Hxm). by exists i, (MonNextTo x), m. }
    destruct (moving_or_placed l mons p a x Hs Ht) as [Hmv|Hpl]; unfold Layout.moving_windows in *.
    + destruct (Layout.interactive_move l) as [[|mv]|]; try done. injection Hmv as Hmv.
      rewrite bool_decide_eq_true_2 by done. unfold Layout.monitor_idx.
      destruct (position _ mons) as [i|] eqn:E; [|by exists a, MonAuto, ma].
      apply position_Some in E as (m & Hm & _). by exists i, MonAuto, m.
    + destruct (Layout.interactive_move l) as [[|mv]|]; try by apply Hplaced.
      case_bool_decide; [|by apply Hplaced]. unfold Layout.monitor_idx.
      destruct (position _ mons) as [i|] eqn:E; [|by exists a, MonAuto, ma].
      apply position_Some in E as (m & Hm & _). by exists i, MonAuto, m.
Qed.

Lemma add_window_connected cv n target width height fw fl act l mons p a :
  layout_ok l -> roomy l -> cv_ok cv -> Layout.monitor_set l = Layout.Normal mons p a -> add_target_ok target l ->
  window_ok n -> window_id n ∉ Layout.windows l ->
  exists o l', Layout.add_window cv n target width height fw fl act l = Ok (o, l') /\ layout_step [window_id n] [] l l'.
Proof.
  intros Hok Hr Hcv Hs Ht Hno Hx. unfold Layout.add_window. rewrite Hs.
  destruct (resolve_add_target_ok target l mons p a Hok Hs Ht) as (i & t & m & -> & Hi & Htm). cbn [mbind res_bind].
  destruct (normal_lookup l mons p a i m) as (Hsemi & Hcl & Hrm); try done.
  assert (Hnd : NoDup ([window_id n] ++ Layout.windows l)) by (apply NoDup_cons; split; [done|apply Hok]).
  destruct (add_window_to_monitor_spec (HM := home_of (Monitor.set_counter (Layout.id_counter l) m)) cv n t width height fw fl act
    (Monitor.set_counter (Layout.id_counter l) m)) as (m' & He & Hst & Hev); try done.
  { unfold room in *; lia. }
  { intros Hin. apply Hx. rewrite (windows_normal l mons p a Hs). apply elem_of_app. right. apply list_elem_of_bind.
    exists m. split; [done|by eapply list_elem_of_lookup_2]. }
  destruct (layout_on_monitor l mons p a i m (fun m => m ← Layout.add_window_to_monitor cv n t width height fw fl act m;
    mret (Monitor.output m, m)) 2 [window_id n] (Monitor.output m') m') as (Hon & _ & Hl); try done; [lia|by rewrite He|].
  rewrite Hon. cbn. eexists _, _. split; [done|]. apply Hl. pose proof (lo_set l Hok) as Hn. rewrite Hs in Hn.
  destruct (map_smart false act); [by eapply lookup_lt_Some|apply Hn].
Qed.

(** Without outputs, the workspace to add to may have to be made first: [wss'] is
    [wss] or that one workspace, and [w] the workspace at [i]. *)
Record placeable l wss (i : nat) (t : WorkspaceAddWindowTarget Win) wss' c' w : Prop := {
  pl_at : wss' !! i = Some w;
  pl_target : target_ok t w;
  pl_ok : Forall ws_ok wss';
  pl_ids : NoDup (ws_id <$> wss');
  pl_fresh : Forall (fun v => 0 <= ws_id v < c') wss';
  pl_counter : Layout.id_counter l <= c';
  pl_wins : wss' ≫= ws_windows = wss ≫= ws_windows;
  pl_named : forall j v, wss' !! j = Some v -> j <> i -> has_windows_or_name v = true
}.

Lemma place_old l wss (i : nat) t w :
  unplugged_ok (Layout.id_counter l) wss -> wss !! i = Some w -> target_ok t w ->
  placeable l wss i t wss (Layout.id_counter l) w.
Proof. intros [Hok Hn Hids Hf] Hi Ht. constructor; try done. intros j v Hj _. exact (Forall_lookup_1 _ _ _ _ Hn Hj). Qed.

Lemma place_first l wss :
  layout_ok l -> roomy l -> unplugged_ok (Layout.id_counter l) wss ->
  let push := match wss with
              | [] => let '(i, c) := id_next (Layout.id_counter l) in ([ws_new_with_config_no_outputs i None (Layout.options l)], c)
              | _ => (wss, Layout.id_counter l)
              end in
  exists w, placeable l wss 0 Auto push.1 push.2 w.
Proof.
  intros Hok Hr Hu. pose proof (lo_counter l Hok). unfold roomy in Hr. destruct wss as [|w wss]; [|exists w; by apply place_old].
  unfold id_next. cbn. destruct (ws_new_no_outputs_spec (Layout.id_counter l) None (Layout.options l)) as (Hid & _ & Hw & Hk).
  rewrite Z.mod_small by lia. eexists. constructor; [done..| | | |lia|cbn; by rewrite Hw|].
  - constructor; [apply Hk; [apply Hok|done]|done].
  - apply NoDup_singleton.
  - constructor; [lia|done].
  - intros [|j] v Hj; [done|by inversion Hj].
Qed.

Lemma resolve_without_ok target wss l :
  layout_ok l -> roomy l -> Layout.monitor_set l = Layout.NoOutputs wss -> add_target_ok target l ->
  exists i t wss' c' w, Layout.resolve_without_outputs target wss l = Ok (i, t, wss', c') /\ placeable l wss i t wss' c' w.
Proof.
  intros Hok Hr Hs Ht. pose proof (lo_set l Hok) as Hu. rewrite Hs in Hu.
  destruct (place_first l wss Hok Hr Hu) as [w0 Hw0].
  unfold Layout.resolve_without_outputs, add_target_ok in *. rewrite Hs in Ht. unfold Layout.workspaces in Ht. rewrite ?Hs in Ht.
  destruct target as [|o|id|x]; [by eexists _, _, _, _, w0|done| |].
  - apply list_elem_of_fmap in Ht as (w & -> & Hw).
    destruct (position_found (fun v => ws_id v =? ws_id w) wss w) as (i & v & -> & Hv & _); [done|apply Z.eqb_refl|].
    eexists _, _, _, _, v. split; [done|by apply place_old].
  - destruct (Layout.is_moving x l) eqn:Em; [by eexists _, _, _, _, w0|].
    rewrite (windows_unplugged l wss Hs) in Ht. apply elem_of_app in Ht as [Ht|Ht].
    + exfalso. unfold Layout.moving_windows, Layout.is_moving in *. destruct (Layout.interactive_move l) as [[|mv]|];
        try by inversion Ht. apply list_elem_of_singleton in Ht as ->. by apply bool_decide_eq_false in Em.
    + destruct (window_at _ _ Ht) as (i & w & -> & Hw & Hx). eexists _, _, _, _, w. split; [done|by apply place_old].
Qed.

(** A window joins the workspace found for it. *)
Lemma placed_step l wss i t wss' c' w x w' :
  layout_ok l -> Layout.monitor_set l = Layout.NoOutputs wss -> placeable l wss i t wss' c' w -> x ∉ Layout.windows l ->
  ws_turns ws_ok w (x :: ws_windows w) w' ->
  layout_step [x] [] l (Layout.set_monitor_set (Layout.NoOutputs (<[i := w']> wss')) c' l).
Proof.
  intros Hok Hs [Hi Htw Hwok Hids Hf Hc Hw Hn] Hx Ht.
  assert (Hnd : NoDup ([x] ++ Layout.windows l)) by (apply NoDup_cons; split; [done|apply Hok]).
  apply set_step; try done.
  - constructor.
    + apply Forall_insert; [done|by apply turns_ok in Ht].
    + apply Forall_lookup. intros j v Hj. apply list_lookup_insert_Some in Hj as [(_ & <- & _)|[Hne Hj]];
        [by eapply turns_add_hwn|]. by eapply Hn.
    + rewrite (insert_id _ _ w); [done|done|by apply turns_id in Ht].
    + apply Forall_insert; [done|]. rewrite (turns_id _ _ _ Ht). exact (Forall_lookup_1 _ _ _ _ Hf Hi).
  - unfold Layout.workspaces. cbn. rewrite Hs, <- Hw, (wins_insert _ i w) by done. rewrite (turns_wins _ _ _ Ht).
    by rewrite (wins_at wss' i w Hi).
Qed.

Lemma add_window_unplugged cv n target width height fw fl act l wss :
  layout_ok l -> roomy l -> cv_ok cv -> Layout.monitor_set l = Layout.NoOutputs wss -> add_target_ok target l ->
  window_ok n -> window_id n ∉ Layout.windows l ->
  exists l', Layout.add_window cv n target width height fw fl act l = Ok (None, l') /\ layout_step [window_id n] [] l l'.
Proof.
  intros Hok Hr Hcv Hs Ht Hno Hx. unfold Layout.add_window. rewrite Hs.
  destruct (resolve_without_ok target wss l Hok Hr Hs Ht) as (i & t & wss' & c' & w & -> & [Hi Htw Hwok Hids Hf Hc Hw Hn]).
  cbn [mbind res_bind]. unfold index. rewrite Hi. cbn [unwrap mbind res_bind].
  assert (Hxw : window_id n ∉ (wss' ≫= ws_windows)).
  { rewrite Hw. intros Hin. apply Hx. rewrite (windows_unplugged l wss Hs). apply elem_of_app. by right. }
  pose proof (Forall_lookup_1 _ _ _ _ Hwok Hi) as Hwi.
  destruct (ws_add_tile_spec cv (ws_make_tile n w) t act (ws_resolve_scrolling_width n width w) fw fl w) as (w1 & -> & [Ht1 _]);
    [done..|by apply ws_make_tile_ok|done| |].
  { rewrite ws_make_tile_spec. intros Hin. apply Hxw, list_elem_of_bind. exists w. split; [done|by eapply list_elem_of_lookup_2]. }
  rewrite ws_make_tile_spec in Ht1. cbn [mbind res_bind].
  destruct (apply_height_ok cv (window_id n) height fl w1) as (w2 & -> & [Ht2 _]);
    [done|by apply turns_ok in Ht1|rewrite (turns_wins _ _ _ Ht1); left|].
  pose proof (turns_same _ _ _ _ Ht1 Ht2) as Ht3. cbn. eexists. split; [done|].
  apply (placed_step l wss i t _ _ w); try done.
Qed.

(** ** Removing a window *)

(** With an empty workspace above the first, two empty ones become one. *)
Definition merge_pair m : res Mon :=
  if Monitor.ewaf m && bool_decide (Monitor.len m = 2%nat)
     && match Monitor.workspace_switch m with None => true | Some _ => false end then
    w0 ← index (Monitor.workspaces m) 0;
    _ ← rassert (negb (has_windows_or_name w0));
    w1 ← index (Monitor.workspaces m) 1;
    _ ← rassert (negb (has_windows_or_name w1));
    '(_, wss) ← vec_remove 1 (Monitor.workspaces m);
    mret (Monitor.set_lists wss 0 m)
  else mret m.

Lemma merge_pair_spec {HM : Home} m :
  mon_core m -> Monitor.workspace_switch m = None -> last_empty (Monitor.workspaces m) ->
  (Monitor.ewaf m = true -> first_empty (Monitor.workspaces m)) -> clean m ->
  exists m', merge_pair m = Ok m' /\ semi_ok m' /\ clean m' /\ Monitor.windows m' ≡ₚ Monitor.windows m /\ evolves [] 0 m m'.
Proof.
  intros Hc Hs Hl Hf Hcl. unfold merge_pair. rewrite Hs, andb_true_r.
  destruct (Monitor.ewaf m && bool_decide (Monitor.len m = 2%nat)) eqn:E2.
  2:{ exists m. split_and!; try done; [|apply evolves_refl]. constructor; try done. intros He. split; [by apply Hf|].
      rewrite He in E2. cbn in E2. by apply bool_decide_eq_false in E2. }
  apply andb_true_iff in E2 as [He E2%bool_decide_eq_true]. destruct (Hf He) as (x0 & Hx0 & [H0 Ho0]). destruct Hl as (x1 & Hx1 & [H1 _]).
  unfold Monitor.len in E2. destruct (Monitor.workspaces m) as [|w0 [|w1 [|? ?]]] eqn:Ews; try done.
  injection Hx0 as ->. injection Hx1 as ->. cbn. rewrite H0, H1. cbn. eexists. split; [done|].
  destruct (delete_core m 1 x1 0 Hc) as [Hcore Hw]; [by rewrite Ews|unfold Monitor.len; rewrite Ews; cbn; lia|].
  rewrite Ews in Hcore, Hw. cbn in Hcore, Hw. rewrite (empty_wins x1 H1) in Hw. cbn in Hw.
  set (m1 := Monitor.set_lists [x0] 0 m). assert (Hm1 : Monitor.set_switch None m1 = m1) by (unfold m1, Monitor.set_switch; cbn; by rewrite <- Hs).
  fold m1 in Hcore. rewrite Hm1 in Hcore. split_and!; [constructor; [done|by exists x0|intros _; split; [by exists x0|done]]| |by rewrite Hw|].
  - intros _ i w Hi Hlt. unfold Monitor.len in Hlt; cbn in Hlt. lia.
  - apply evolves_sub; try done. cbn. rewrite Ews. cbn. intros k [->|Hn]%elem_of_cons; [left|by inversion Hn].
Qed.

Lemma remove_from_monitor_eq cv x m :
  Layout.remove_from_monitor cv x m =
    (idx ← unwrap (position (has_window x) (Monitor.workspaces m));
     w ← index (Monitor.workspaces m) idx;
     '(r, w) ← ws_remove_tile cv x w;
     let m := Monitor.set_workspaces (<[idx := w]> (Monitor.workspaces m)) m in
     last ← usub (Monitor.len m) 1;
     m ← (if negb (has_windows_or_name w) && negb (bool_decide (idx = Monitor.active_workspace_idx m))
             && negb (bool_decide (idx = last)) && match Monitor.workspace_switch m with None => true | Some _ => false end then
            '(_, wss) ← vec_remove idx (Monitor.workspaces m);
            mret (Monitor.set_lists wss (if (idx <? Monitor.active_workspace_idx m)%nat
                                         then Monitor.active_workspace_idx m - 1 else Monitor.active_workspace_idx m)%nat m)
          else mret m);
     m ← merge_pair m;
     mret (r, m)).
Proof.
  unfold Layout.remove_from_monitor, merge_pair. destruct (position _ _) as [idx|]; [|done]. cbn [unwrap mbind res_bind].
  destruct (index _ idx) as [w|]; [|done]. cbn [mbind res_bind]. destruct (ws_remove_tile cv x w) as [[r w']|]; [|done].
  cbn [mbind res_bind]. destruct (usub _ 1) as [n|]; [|done]. cbn [mbind res_bind].
  destruct (_ && _ && _ && _); [|done]. destruct (vec_remove _ _) as [[v wss]|]; done.
Qed.

(** The workspace that lost its last window goes, unless it is active. *)
Lemma drop_emptied {HM : Home} m (idx : nat) w w' :
  semi_ok m -> clean m -> Monitor.workspaces m !! idx = Some w -> ~ is_empty w -> is_empty w' ->
  Monitor.workspace_switch m = None -> idx <> Monitor.active_workspace_idx m ->
  let m1 := Monitor.set_workspaces (<[idx := w']> (Monitor.workspaces m)) m in
  semi_ok m1 ->
  let m2 := Monitor.set_lists (delete idx (Monitor.workspaces m1))
    (if (idx <? Monitor.active_workspace_idx m1)%nat then Monitor.active_workspace_idx m1 - 1 else Monitor.active_workspace_idx m1)%nat m1 in
  exists m', merge_pair m2 = Ok m' /\ semi_ok m' /\ clean m' /\ Monitor.windows m' ≡ₚ Monitor.windows m1 /\ evolves [] 0 m1 m'.
Proof.
  intros Hs Hcl Hi Hne He Hsw Ha m1 Hs1 m2. pose proof (lookup_lt_Some _ _ _ Hi) as Hil.
  assert (Hlen1 : length (Monitor.workspaces m1) = Monitor.len m) by (cbn; apply length_insert).
  assert (Hlast : (S idx < Monitor.len m)%nat).
  { destruct (decide (S idx = Monitor.len m)) as [Hl|]; [|unfold Monitor.len in *; lia]. exfalso. apply Hne.
    by apply (last_is_empty m idx); [apply Hs|..]. }
  assert (Hfirst : Monitor.ewaf m = true -> idx <> 0%nat).
  { intros Hw ->. apply Hne. apply (first_is_empty m); [by apply Hs|done]. }
  assert (Hw1 : Monitor.workspaces m1 !! idx = Some w') by (cbn; by apply list_lookup_insert_eq).
  destruct (remove_empty_cleaned m1 idx w') as [Hc2 Hl2 Hh2 _ _ Hsub Hw2 _ _ _ _]; try done;
    [apply Hs1|unfold Monitor.len; rewrite Hlen1; lia|]. fold m2 in Hc2, Hl2, Hh2, Hsub, Hw2.
  destruct (merge_pair_spec m2) as (m' & Hm & Hs' & Hcl' & Hw' & Hev); [done|done|by eapply last_empty_ext, Hs1| | |].
  - intros Hw. eapply first_empty_ext; [apply Hh2; specialize (Hfirst Hw); lia|by apply Hs1].
  - intros _ j v Hj Hjl Hj0 Hja. cbn in Hj, Hja, Hj0. change (Monitor.ewaf m = true -> j <> 0%nat) in Hj0.
    unfold Monitor.len in Hjl; cbn in Hjl. rewrite length_delete in Hjl by eauto. rewrite length_insert in Hjl.
    assert (Hj' : Monitor.workspaces m !! (if decide (j < idx)%nat then j else S j) = Some v).
    { destruct (decide (j < idx)%nat); [rewrite lookup_delete_at_lt in Hj by lia|rewrite lookup_delete_at_ge in Hj by lia];
        by rewrite list_lookup_insert_ne in Hj by lia. }
    apply (Hcl Hsw _ v Hj'); [destruct (decide (j < idx)%nat); unfold Monitor.len; lia| |].
    + intros Hw. specialize (Hj0 Hw). destruct (decide (j < idx)%nat); lia.
    + destruct (Nat.ltb_spec idx (Monitor.active_workspace_idx m)), (decide (j < idx)%nat); lia.
  - exists m'. split_and!; try done; [by rewrite Hw'|]. eapply (evolves_seq [] 0 0); [|done|done].
    apply evolves_sub; try done. cbn. apply delete_ids.
Qed.

Lemma remove_from_monitor_spec {HM : Home} cv x m :
  cv_ok cv -> semi_ok m -> clean m -> x ∈ Monitor.windows m ->
  exists r m', Layout.remove_from_monitor cv x m = Ok (r, m') /\ tile_win (rt_tile r) = x /\ tile_ok (rt_tile r) /\ semi_ok m' /\ clean m'
    /\ Monitor.windows m ≡ₚ x :: Monitor.windows m' /\ evolves [] 0 m m'.
Proof.
  intros Hcv Hs Hcl Hx. rewrite remove_from_monitor_eq. destruct (window_at _ _ Hx) as (idx & w & -> & Hi & Hxw).
  cbn [unwrap mbind res_bind]. unfold index at 1. rewrite Hi. cbn [unwrap mbind res_bind].
  destruct (ws_remove_tile_spec cv x w) as (r & w' & rest & Hrm & Hr & Htok & Hw & [Ht _]); [done|by eapply lookup_ws_ok|done|].
  rewrite Hrm. cbn [mbind res_bind]. set (m1 := Monitor.set_workspaces _ m). cbv zeta.
  destruct (take_out m idx w w' [x] rest) as (Hs1 & Hcl1 & Hw1); try done. fold m1 in Hs1, Hcl1, Hw1.
  assert (Hev1 : evolves [] 0 m m1) by (eapply set_ws_ev; [done|by eapply op_remove_tile]).
  rewrite usub_len by done. cbn [mbind res_bind].
  assert (Hnw : ~ is_empty w) by (intros He%empty_wins; rewrite He in Hxw; by inversion Hxw).
  destruct (negb _ && _ && _ && _) eqn:E.
  - rewrite !andb_true_iff, !negb_true_iff in E. destruct E as (((He & Ha%bool_decide_eq_false) & _) & Hsw).
    assert (Hsw' : Monitor.workspace_switch m = None) by (cbn in Hsw; by destruct (Monitor.workspace_switch m)).
    rewrite (vec_remove_ok _ w') by (cbn; apply list_lookup_insert_eq; by eapply lookup_lt_Some). cbn [mbind res_bind].
    destruct (drop_emptied m idx w w') as (m' & Hm & Hs' & Hcl' & Hw' & Hev); try done.
    fold m1 in Hm. exists r, m'. split_and!; try done; [unfold mret, res_ret; cbn [mbind res_bind]; by rewrite Hm|by rewrite Hw'|].
    by eapply (evolves_seq [] 0 0).
  - cbn [mbind res_bind].
    assert (Hc1 : clean m1).
    { destruct (decide (idx = Monitor.active_workspace_idx m)) as [Ha|Ha]; [by apply Hcl1|].
      destruct (has_windows_or_name w') eqn:Ew; [apply (replace_clean m idx w); auto|].
      intros Hsw. exfalso. rewrite !andb_false_iff, !negb_false_iff in E. rewrite Hsw in E.
      destruct E as [[[E|E]|E]|E]; [done|by apply bool_decide_eq_true in E| |done]. apply bool_decide_eq_true in E.
      apply Hnw. apply (last_is_empty m idx); [apply Hs|done|]. unfold Monitor.len in *. cbn in E. rewrite length_insert in E.
      pose proof (lookup_lt_Some _ _ _ Hi). lia. }
    assert (Hm : merge_pair m1 = Ok m1).
    { unfold merge_pair. destruct (Monitor.ewaf m1) eqn:Ew; [|done]. destruct (so_first _ Hs1 Ew) as [_ H2].
      by rewrite bool_decide_eq_false_2. }
    unfold mret, res_ret. cbn [mbind res_bind]. rewrite Hm. by exists r, m1.
Qed.

(** ** Loops over the whole layout *)
Lemma syncs_forall l mons mons' : Forall (synced l) mons -> Forall2 syncs mons mons' -> Forall (synced l) mons'.
Proof.
  intros Hf HF. induction HF as [|m m' mons mons' [H1 H2] _ IH]; [done|]. apply Forall_cons in Hf as [[G1 G2] Hf].
  constructor; [|auto]. unfold synced. by rewrite H1, H2.
Qed.

(** An operation that every monitor survives, and that keeps its windows. *)
Definition harmless {A} (f : Mon -> res (A * Mon)) : Prop :=
  forall m, semi_ok (HM := home_of m) m -> clean m -> room m 2 ->
    exists a m', f m = Ok (a, m') /\ step_ok (HM := home_of m) [] m m' /\ evolves [] 0 m m'.

(** The same for the monitors [mons], whatever the counter they are handed. *)
Definition harmless_in {A} mons (f : Mon -> res (A * Mon)) : Prop :=
  forall c m, m ∈ mons -> let m1 := Monitor.set_counter c m in semi_ok (HM := home_of m) m1 -> clean m1 -> room m1 2 ->
    exists a m', f m1 = Ok (a, m') /\ step_ok (HM := home_of m) [] m1 m' /\ evolves [] 0 m1 m'.
Lemma harmless_everywhere {A} mons (f : Mon -> res (A * Mon)) : harmless f -> harmless_in mons f.
Proof. intros Hf c m _ m1 Hs. by apply (Hf m1). Qed.

Lemma harmless_pre {A} (f : Mon -> res (A * Mon)) c mons : harmless_in mons f -> loop_pre 0 c mons syncs f.
Proof.
  intros Hf c' m Hm _ Hs Hcl Hr. destruct (Hf c' m Hm Hs Hcl Hr) as (a & m' & He & Hst & Hev).
  exists a, m'. split_and!; [done|by apply step_works|]. by eapply (evolves_syncs _ _ _ _ Hev).
Qed.

Lemma loop_layout l mons p a mons' c' (a' : nat) :
  layout_ok l -> Layout.monitor_set l = Layout.Normal mons p a -> loop_post 0 (Layout.id_counter l) mons [] c' mons' ->
  Forall2 syncs mons mons' -> (a' < length mons)%nat ->
  layout_step [] [] l (Layout.set_monitor_set (Layout.Normal mons' p a') c' l).
Proof.
  intros Hok Hs [Hms Hcl Hcnt Hw] HF Ha. cbn in Hcnt. pose proof (lo_set l Hok) as Hn. rewrite Hs in Hn. destruct Hn.
  pose proof (Forall2_length _ _ _ HF) as Hlen.
  apply set_step; [done|apply Hok|done|lia| |].
  - constructor; [done|done|lia|lia|by eapply syncs_forall].
  - unfold Layout.workspaces. cbn. by rewrite Hs, !mons_windows, Hw.
Qed.

Lemma each_step f l mons p a :
  layout_ok l -> roomy l -> Layout.monitor_set l = Layout.Normal mons p a -> harmless_in mons (Layout.lift_op f) ->
  exists mons' c', Layout.each_monitor f mons (Layout.id_counter l) = Ok (mons', c') /\ c' = Layout.id_counter l
    /\ layout_step [] [] l (Layout.set_monitor_set (Layout.Normal mons' p a) c' l).
Proof.
  intros Hok Hr Hs Hf. pose proof (lo_set l Hok) as Hn. rewrite Hs in Hn. destruct Hn. unfold roomy in Hr.
  pose proof (lo_counter l Hok).
  destruct (each_monitor_spec 0 (Layout.id_counter l) [] mons syncs f) as (mons' & c' & He & Hp & HF); try done;
    [cbn; lia|by apply harmless_pre|].
  exists mons', c'. pose proof (lp_counter _ _ _ _ _ _ Hp). split_and!; [done|cbn in *; lia|]. by eapply loop_layout.
Qed.

Lemma first_step_in {A} (f : Mon -> res (option A * Mon)) l mons p a :
  layout_ok l -> roomy l -> Layout.monitor_set l = Layout.Normal mons p a -> harmless_in mons f ->
  exists o mons' c', Layout.first_monitor f 0 mons (Layout.id_counter l) = Ok (o, mons', c') /\ c' = Layout.id_counter l
    /\ (forall j r, o = Some (j, r) -> (j < length mons)%nat)
    /\ forall a', (a' < length mons)%nat -> layout_step [] [] l (Layout.set_monitor_set (Layout.Normal mons' p a') c' l).
Proof.
  intros Hok Hr Hs Hf. pose proof (lo_set l Hok) as Hn. rewrite Hs in Hn. destruct Hn. unfold roomy in Hr.
  pose proof (lo_counter l Hok).
  destruct (first_monitor_spec (Layout.id_counter l) [] mons syncs f 0) as (o & mons' & c' & He & Hp & HF & Ho); try done;
    [lia|by apply harmless_pre|].
  exists o, mons', c'. pose proof (lp_counter _ _ _ _ _ _ Hp).
  split_and!; [done|cbn in *; lia| |intros a' Ha'; by eapply loop_layout].
  intros j r Hj. specialize (Ho j r Hj). lia.
Qed.
Lemma first_step {A} (f : Mon -> res (option A * Mon)) l mons p a :
  layout_ok l -> roomy l -> Layout.monitor_set l = Layout.Normal mons p a -> harmless f ->
  exists o mons' c', Layout.first_monitor f 0 mons (Layout.id_counter l) = Ok (o, mons', c') /\ c' = Layout.id_counter l
    /\ (forall j r, o = Some (j, r) -> (j < length mons)%nat)
    /\ forall a', (a' < length mons)%nat -> layout_step [] [] l (Layout.set_monitor_set (Layout.Normal mons' p a') c' l).
Proof. intros Hok Hr Hs Hf. apply (first_step_in f l mons p a); try done. by apply harmless_everywhere. Qed.

Lemma lift_harmless f :
  (forall m, semi_ok (HM := home_of m) m -> clean m -> room m 2 ->
    exists m', f m = Ok m' /\ step_ok (HM := home_of m) [] m m' /\ evolves [] 0 m m') -> harmless (Layout.lift_op f).
Proof.
  intros Hf m Hs Hcl Hr. destruct (Hf m Hs Hcl Hr) as (m' & He & Hst & Hev). exists tt, m'. unfold Layout.lift_op. by rewrite He.
Qed.

Lemma same_list {HM : Home} m wss :
  semi_ok m -> Forall2 same_ws (Monitor.workspaces m) wss ->
  step_ok [] m (Monitor.set_workspaces wss m) /\ evolves [] 0 m (Monitor.set_workspaces wss m).
Proof.
  intros Hs HF. split; [by apply same_step|]. apply evolves_sub; try done. cbn. by rewrite (moved_ids _ _ (same_moved _ _ HF)).
Qed.
Lemma same_list_harmless mons (f : Mon -> res (list WS)) :
  (forall c m, m ∈ mons -> let m1 := Monitor.set_counter c m in semi_ok (HM := home_of m) m1 ->
    exists wss, f m1 = Ok wss /\ Forall2 same_ws (Monitor.workspaces m) wss) ->
  harmless_in mons (Layout.lift_op (fun m => wss ← f m; mret (Monitor.set_workspaces wss m))).
Proof.
  intros Hf c m0 Hm m Hs _ _. destruct (Hf c m0 Hm Hs) as (wss & He & HF). unfold Layout.lift_op. fold m in He. rewrite He. cbn.
  eexists _, _. split; [done|]. by apply same_list.
Qed.

Lemma for_each_ws_harmless f mons :
  (forall w, w ∈ (mons ≫= Monitor.workspaces) -> ws_ok w -> exists w', f w = Ok w' /\ same_ws w w') ->
  harmless_in mons (Layout.lift_op (fun m => wss ← for_each f (Monitor.workspaces m); mret (Monitor.set_workspaces wss m))).
Proof.
  intros Hf. apply same_list_harmless. intros c m0 Hm m Hs. apply for_each_in, Forall_forall.
  intros w Hw. apply Hf; [apply list_elem_of_bind; by exists m0|]. exact (proj1 (Forall_forall _ _) (mc_ws _ (so_core _ Hs)) w Hw).
Qed.

Lemma each_workspace_spec f l :
  layout_ok l -> roomy l -> (forall w, w ∈ Layout.workspaces l -> ws_ok w -> exists w', f w = Ok w' /\ same_ws w w') ->
  exists l', Layout.each_workspace f l = Ok l' /\ layout_step [] [] l l' /\ Layout.interactive_move l' = Layout.interactive_move l
    /\ Layout.id_counter l' = Layout.id_counter l.
Proof.
  intros Hok Hr Hf. unfold Layout.each_workspace, Layout.workspaces in *. pose proof (lo_set l Hok) as Hn.
  destruct (Layout.monitor_set l) as [mons p a|wss] eqn:Es.
  - destruct (each_step (fun m => wss ← for_each f (Monitor.workspaces m); mret (Monitor.set_workspaces wss m)) l mons p a)
      as (mons' & c' & He & Hc & Hst); try done; [by apply for_each_ws_harmless|].
    rewrite He. cbn. by eexists.
  - destruct (for_each_in same_ws f wss) as (wss' & -> & HF).
    { apply Forall_forall. intros w Hw. apply Hf; [done|]. exact (proj1 (Forall_forall _ _) (un_ok _ _ Hn) w Hw). }
    cbn. eexists. split_and!; [done| |done|done].
    apply set_step; [done|apply Hok|done|lia|by eapply unplugged_moved, same_moved|].
    unfold Layout.workspaces. cbn. rewrite Es. by rewrite (moved_wins _ _ (same_moved _ _ HF)).
Qed.

Lemma each_monitor_workspaces f mons c mons' c' :
  (forall m m', f m = Ok m' -> Monitor.workspaces m' = Monitor.workspaces m) ->
  Layout.each_monitor f mons c = Ok (mons', c') -> mons' ≫= Monitor.workspaces = mons ≫= Monitor.workspaces.
Proof.
  intros Hf. revert c mons' c'. induction mons as [|m mons IH]; intros c mons' c' H; cbn in H; [by injection H as <- _|].
  bind H as [m'|] eqn E1. bind H as [[rest c1]|] eqn E2. injection H as <- _. cbn. by rewrite (Hf _ _ E1), (IH _ _ _ E2).
Qed.
Lemma dnd_end_workspaces cv now m m' :
  Monitor.dnd_scroll_gesture_end cv now m = Ok m' -> Monitor.workspaces m' = Monitor.workspaces m.
Proof.
  unfold Monitor.dnd_scroll_gesture_end, Monitor.workspace_switch_gesture_end. intros H.
  destruct (Monitor.workspace_switch m) as [[a|g]|]; [by injection H as <-| |by injection H as <-].
  destruct (Switch.is_dnd g); [|by injection H as <-]. bind H as [[b m1]|] eqn E. injection H as <-.
  bind E as [zoom|] eqn E1. bind E as [t|] eqn E2. bind E as [v|] eqn E3. bind E as [q|] eqn E4. bind E as [[lo hi]|] eqn E5.
  bind E as [n|] eqn E6. bind E as [d|] eqn E7. bind E as [m2|] eqn E8. bind E as [an|] eqn E9. injection E as _ <-. cbn.
  case_bool_decide; [by injection E8 as <-|]. bind E8 as [w|] eqn E10. by injection E8 as <-.
Qed.

Lemma dnd_end_spec cv now l :
  layout_ok l -> roomy l -> cv_ok cv -> ts_ok now ->
  exists l', Layout.dnd_scroll_gesture_end cv now l = Ok l' /\ layout_step [] [] l l'
    /\ Layout.interactive_move l' = Layout.interactive_move l /\ Layout.id_counter l' = Layout.id_counter l
    /\ Layout.workspaces l' = Layout.workspaces l.
Proof.
  intros Hok Hr Hcv Hts. unfold Layout.dnd_scroll_gesture_end, Layout.workspaces.
  destruct (Layout.monitor_set l) as [mons p a|wss] eqn:Es; [|exists l; rewrite Es; split_and!; try done; by apply step_same].
  destruct (each_step (Monitor.dnd_scroll_gesture_end cv now) l mons p a) as (mons' & c' & He & -> & Hst); try done.
  - apply harmless_everywhere, lift_harmless. intros m Hs _ Hrm. destruct (dnd_end_keeps (HM := home_of m) cv now m) as (m' & He & Hst); try done.
    { unfold room in *. lia. }
    exists m'. split_and!; try done. by eapply dnd_end_ev.
  - rewrite He. cbn. eexists. split_and!; try done. eapply each_monitor_workspaces; [|exact He]. intros m m'. apply dnd_end_workspaces.
Qed.

(** Dropping the interactive move. *)
Lemma drop_move_step l : layout_ok l -> layout_step [] (Layout.moving_windows l) l (Layout.set_interactive_move None l).
Proof.
  intros []. split; [|done]. constructor; try done.
  - unfold Layout.windows in lo_wins. by apply NoDup_app in lo_wins as (_ & _ & ?).
  - cbn. destruct (Layout.monitor_set l); [|done]. destruct lo_set. by constructor.
Qed.

(** The gestures of the workspaces can end, once the tile of [x] is put back. *)
Definition can_release cv x l : Prop :=
  forall w w', w ∈ Layout.workspaces l -> (if has_window x w then ws_release_tile cv x w else mret w) = Ok w' -> ws_gesture_ok cv w'.
Definition can_settle cv l : Prop := forall w, w ∈ Layout.workspaces l -> ws_gesture_ok cv w.

Lemma cancel_starting_spec cv now x l :
  layout_ok l -> roomy l -> cv_ok cv -> ts_ok now -> Layout.moving_windows l = [] -> can_release cv x l ->
  exists l', Layout.cancel_starting_move cv now x l = Ok l' /\ layout_step [] [] l l' /\ Layout.interactive_move l' = None
    /\ Layout.id_counter l' = Layout.id_counter l.
Proof.
  intros Hok Hr Hcv Hts Hmv Hrel. pose proof (drop_move_step l Hok) as Hst0. rewrite Hmv in Hst0. unfold Layout.cancel_starting_move.
  destruct (dnd_end_spec cv now (Layout.set_interactive_move None l)) as (l1 & -> & Hst1 & Him1 & Hc1 & Hws1); try done; [apply Hst0|].
  cbn [mbind res_bind]. match goal with |- context [Layout.each_workspace ?f l1] => destruct (each_workspace_spec f l1) as (l2 & -> & Hst2 & Him2 & Hc2) end.
  - apply Hst1.
  - unfold roomy. by rewrite Hc1.
  - intros w Hin Hw. rewrite Hws1 in Hin.
    assert (Hw1 : exists w1, (if has_window x w then ws_release_tile cv x w else mret w) = Ok w1 /\ same_ws w w1).
    { destruct (has_window x w) eqn:E; [|exists w; split; [done|by apply same_refl]].
      apply has_window_true in E. by apply ws_release_tile_spec. }
    destruct Hw1 as (w1 & He1 & Hs1). pose proof (Hrel w w1 Hin He1) as Hg1. rewrite He1. cbn [mbind res_bind].
    destruct (ws_active_window_spec w1) as [act ->]; [apply Hs1|]. cbn [mbind res_bind].
    destruct (ws_dnd_end_spec cv w1) as (w2 & -> & Hs2); [done|apply Hs1|done|]. cbn [mbind res_bind].
    pose proof (same_trans _ _ _ Hs1 Hs2) as Hs12.
    destruct (bool_decide _); [|by exists w2].
    destruct (ws_activate_window_spec cv x w2) as (w3 & -> & Hs3); [done|apply Hs2|]. cbn. exists w3. split; [done|].
    by eapply same_trans.
  - exists l2. split_and!; [done| |by rewrite Him2, Him1|by rewrite Hc2, Hc1].
    eapply layout_step_trans; [exact Hst0|]. by eapply layout_step_trans.
Qed.

(** What removing [x] returns and leaves. *)
Definition removed x l (r : option (RemovedTile Tile)) l' : Prop :=
  match r with
  | Some r => tile_win (rt_tile r) = x /\ tile_ok (rt_tile r) /\ layout_step [] [x] l l'
  | None => (x ∉ Layout.windows l) /\ layout_step [] [] l l'
  end.

Lemma remove_unplugged cv x l wss :
  cv_ok cv -> layout_ok l -> Layout.monitor_set l = Layout.NoOutputs wss -> x ∉ Layout.moving_windows l ->
  (forall y d r, Layout.interactive_move l = Some (Layout.Starting y d r) -> y <> x) ->
  exists r l', Layout.remove_placed cv x l = Ok (r, l') /\ removed x l r l'.
Proof.
  intros Hcv Hok Es Hmv Hst. pose proof (lo_set l Hok) as Hu. rewrite Es in Hu. unfold Layout.remove_placed. rewrite Es.
  destruct (position (has_window x) wss) as [i|] eqn:E.
  2:{ exists None, l. split; [done|]. split; [|by apply step_same]. rewrite (windows_unplugged l wss Es).
      intros [?|(w & Hx & Hw)%list_elem_of_bind]%elem_of_app; [done|]. rewrite position_None in E. specialize (E w Hw).
      by rewrite (proj2 (has_window_true x w) Hx) in E. }
  destruct (position_Some _ _ _ E) as (w & Hi & Hx%has_window_true & _). unfold index. rewrite Hi. cbn [unwrap mbind res_bind].
  pose proof Hu as [Hwok Hn Hids Hf].
  destruct (ws_remove_tile_spec cv x w) as (r & w' & rest & -> & Hr & Htok & Hw & [Ht _]);
    [done|exact (Forall_lookup_1 _ _ _ _ Hwok Hi)|done|]. cbn [mbind res_bind].
  set (wss' := if has_windows_or_name w' then <[i := w']> wss else delete i wss).
  assert (Hres : (if has_windows_or_name w' then mret (<[i := w']> wss) else '(_, wss) ← vec_remove i wss; mret wss) = Ok wss')
    by (unfold wss'; destruct (has_windows_or_name w'); [done|by rewrite (vec_remove_ok _ w)]).
  rewrite Hres. cbn. exists (Some r). eexists. split; [done|]. split; [done|]. split; [done|].
  apply set_step; [done|apply Hok|intros _ y d s Hy; specialize (Hst y d s Hy); rewrite list_elem_of_singleton; done|lia| |].
  - unfold wss'. destruct (has_windows_or_name w') eqn:Ew.
    + constructor; [by apply Forall_insert; [|apply turns_ok in Ht]|by apply Forall_insert| |].
      * rewrite (insert_id _ _ w); [done|done|by apply turns_id in Ht].
      * apply Forall_insert; [done|]. rewrite (turns_id _ _ _ Ht). exact (Forall_lookup_1 _ _ _ _ Hf Hi).
    + constructor; [by apply forall_delete|by apply forall_delete| |by apply forall_delete].
      rewrite (delete_perm i w wss Hi) in Hids. by apply NoDup_cons in Hids as [_ ?].
  - unfold Layout.workspaces. cbn [Layout.monitor_set Layout.set_monitor_set app]. rewrite Es, (wins_at wss i w Hi), Hw. cbn.
    f_equiv. unfold wss'. destruct (has_windows_or_name w') eqn:Ew; [by rewrite (wins_insert _ _ w), (turns_wins _ _ _ Ht) by done|].
    rewrite <- (turns_wins _ _ _ Ht), (empty_wins w' Ew). done.
Qed.

Lemma remove_connected cv x l mons p a :
  cv_ok cv -> layout_ok l -> roomy l -> Layout.monitor_set l = Layout.Normal mons p a -> x ∉ Layout.moving_windows l ->
  (forall y d r, Layout.interactive_move l = Some (Layout.Starting y d r) -> y <> x) ->
  exists r l', Layout.remove_placed cv x l = Ok (r, l') /\ removed x l r l'.
Proof.
  intros Hcv Hok Hr Es Hmv Hst. unfold Layout.remove_placed. rewrite Es.
  destruct (Layout.monitor_with_window x mons) as [i|] eqn:E.
  2:{ exists None, l. split; [done|]. split; [|by apply step_same]. rewrite (windows_normal l mons p a Es).
      intros [?|Hin]%elem_of_app; [done|]. by apply (monitor_with_window_None x mons). }
  destruct (position_Some _ _ _ E) as (m & Hi & Hx%monitor_has & _).
  destruct (normal_lookup l mons p a i m) as (Hsemi & Hcl & Hrm); try done.
  destruct (remove_from_monitor_spec (HM := home_of m) cv x (Monitor.set_counter (Layout.id_counter l) m))
    as (r & m' & He & Hrt & Htok & Hs' & Hcl' & Hw & Hev); try done.
  destruct (layout_on_monitor_outs l mons p a i m (Layout.remove_from_monitor cv x) [] 0 [] [x] r m') as (Hon & _ & Hl); try done.
  - lia.
  - constructor; [done|done|by apply evolves_ids|]. cbn in Hw |- *. done.
  - by eapply (evolves_syncs _ _ _ _ Hev).
  - intros y Hy. by inversion Hy.
  - apply Hok.
  - intros _ y d s Hy. specialize (Hst y d s Hy). by rewrite list_elem_of_singleton.
  - rewrite Hon. cbn. exists (Some r). eexists. split; [done|]. split; [done|]. split; [done|]. apply Hl.
    pose proof (lo_set l Hok) as Hn. rewrite Es in Hn. apply Hn.
Qed.

Lemma remove_placed_spec cv x l :
  cv_ok cv -> layout_ok l -> roomy l -> x ∉ Layout.moving_windows l ->
  (forall y d r, Layout.interactive_move l = Some (Layout.Starting y d r) -> y <> x) ->
  exists r l', Layout.remove_placed cv x l = Ok (r, l') /\ removed x l r l'.
Proof.
  intros. destruct (Layout.monitor_set l) as [mons p a|wss] eqn:Es; [by eapply remove_connected|by eapply remove_unplugged].
Qed.

(** Removing the window that is being moved ends the gestures under way. *)
Definition remove_pre cv x l : Prop :=
  match Layout.interactive_move l with
  | Some (Layout.Starting y _ _) => y = x -> can_release cv x l
  | Some (Layout.Moving mv) => tile_win (Layout.im_tile mv) = x -> can_settle cv l
  | None => True
  end.

Lemma remove_window_spec cv now x l :
  layout_ok l -> roomy l -> cv_ok cv -> ts_ok now -> remove_pre cv x l ->
  exists r l', Layout.remove_window cv now x l = Ok (r, l') /\ removed x l r l'.
Proof.
  intros Hok Hr Hcv Hts Hpre. unfold Layout.remove_window. unfold remove_pre in Hpre.
  destruct (Layout.interactive_move l) as [[y d s|mv]|] eqn:Em.
  - assert (Hmv : Layout.moving_windows l = []) by (unfold Layout.moving_windows; by rewrite Em).
    case_bool_decide as Hy.
    + destruct (cancel_starting_spec cv now x l) as (l1 & -> & Hst1 & Him & Hc); try done; [by apply Hpre|]. cbn [mbind res_bind].
      destruct (remove_placed_spec cv x l1) as (r & l2 & -> & Hrm); [done|apply Hst1|unfold roomy; by rewrite Hc| | |].
      * unfold Layout.moving_windows. rewrite Him. intros Hn. by inversion Hn.
      * rewrite Him. done.
      * exists r, l2. split; [done|]. destruct r as [r|].
        { destruct Hrm as (Hx & Htok & Hst2). split_and!; [done..|by eapply layout_step_trans]. }
        destruct Hrm as [Hx Hst2]. split; [|by eapply layout_step_trans].
        intros Hin. apply Hx. destruct Hst1 as [_ Hw]. cbn in Hw. by rewrite <- Hw.
    + apply remove_placed_spec; [done..|rewrite Hmv; intros Hn; by inversion Hn|]. rewrite Em. by intros ? ? ? [= <- _ _].
  - case_bool_decide as Hx.
    + pose proof (drop_move_step l Hok) as Hst0. unfold Layout.moving_windows in Hst0. rewrite Em, Hx in Hst0.
      destruct (dnd_end_spec cv now (Layout.set_interactive_move None l)) as (l1 & -> & Hst1 & Him1 & Hc1 & Hws1); try done; [apply Hst0|].
      cbn [mbind res_bind]. destruct (each_workspace_spec (ws_dnd_scroll_gesture_end cv) l1) as (l2 & -> & Hst2 & _);
        [apply Hst1|unfold roomy; by rewrite Hc1|intros w Hin Hw; rewrite Hws1 in Hin; apply ws_dnd_end_spec; [done..|by apply Hpre]|].
      cbn. eexists (Some _), l2. split; [done|]. split; [done|]. split; [by apply (mv_tile _ (lo_moving l Hok mv Em))|]. split; [apply Hst2|].
      destruct Hst0 as [_ H0], Hst1 as [_ H1], Hst2 as [_ H2]. cbn in H0, H1, H2 |- *. by rewrite H0, H1, H2.
    + apply remove_placed_spec; [done..| |by rewrite Em]. unfold Layout.moving_windows. rewrite Em, list_elem_of_singleton. congruence.
  - apply remove_placed_spec; [done..| |by rewrite Em]. unfold Layout.moving_windows. rewrite Em. intros Hn. by inversion Hn.
Qed.

(** ** Activating windows *)
Definition ws_harmless (f : WS -> res (bool * WS)) : Prop :=
  forall w, ws_ok w -> exists b w', f w = Ok (b, w') /\ same_ws w w'.

Lemma activate_in_spec f k wss :
  ws_harmless f -> Forall ws_ok wss ->
  exists o wss', Layout.activate_in f k wss = Ok (o, wss') /\ Forall2 same_ws wss wss'
    /\ (forall j, o = Some j -> (k <= j < k + length wss)%nat).
Proof.
  intros Hf Hok. revert k. induction Hok as [|w wss Hw Hok IH]; intros k; [by exists None, []|]. cbn.
  destruct (Hf w Hw) as (b & w' & -> & Hs). cbn [mbind res_bind]. destruct b.
  - exists (Some k), (w' :: wss). split_and!; [done| |intros j [= <-]; lia]. constructor; [done|].
    clear -Hok. induction Hok; constructor; [by apply same_refl|done].
  - destruct (IH (S k)) as (o & wss' & -> & HF & Ho). cbn. exists o, (w' :: wss').
    split_and!; [done|by constructor|]. intros j Hj. specialize (Ho j Hj). lia.
Qed.

Lemma activate_harmless cv f : cv_ok cv -> ws_harmless f -> harmless (Layout.activate_on_monitor cv f).
Proof.
  intros Hcv Hf m Hs Hcl Hr. unfold Layout.activate_on_monitor.
  destruct (activate_in_spec f 0 (Monitor.workspaces m) Hf) as (o & wss & -> & HF & _); [apply Hs|]. cbn [mbind res_bind].
  set (m1 := Monitor.set_workspaces wss m).
  assert (Hst1 : step_ok (HM := home_of m) [] m m1) by (by apply same_step).
  assert (Hev1 : evolves [] 0 m m1) by (apply evolves_sub; try done; cbn; by rewrite (moved_ids _ _ (same_moved _ _ HF))).
  destruct o as [idx|]; [|by exists None, m1].
  match goal with |- context [if ?b then _ else _] => destruct b end.
  - by exists (Some tt), m1.
  - destruct (switch_keeps (HM := home_of m) cv idx m1) as (m2 & He & Hst2); [apply Hst1|done|].
    rewrite He. cbn. exists (Some tt), m2. split_and!; [done|by apply (step_trans [] [] m m1)|].
    eapply (evolves_seq [] 0 0); [done|by eapply switch_ev|done].
Qed.

Lemma activate_with_spec cv f x l :
  layout_ok l -> roomy l -> cv_ok cv -> ws_harmless (f x) ->
  exists l', Layout.activate_with cv f x l = Ok l' /\ layout_step [] [] l l'.
Proof.
  intros Hok Hr Hcv Hf. unfold Layout.activate_with. destruct (Layout.is_moving x l); [exists l; split; [done|by apply step_same]|].
  destruct (Layout.monitor_set l) as [mons p a|wss] eqn:Es; [|exists l; split; [done|by apply step_same]].
  destruct (first_step (Layout.activate_on_monitor cv (f x)) l mons p a) as (o & mons' & c' & -> & _ & Ho & Hst); try done;
    [by apply activate_harmless|].
  cbn. eexists. split; [done|]. apply Hst. pose proof (lo_set l Hok) as Hn. rewrite Es in Hn.
  destruct o as [[j r]|]; cbn; [by eapply Ho|apply Hn].
Qed.

Lemma activate_window_ok cv x l :
  layout_ok l -> roomy l -> cv_ok cv -> exists l', Layout.activate_window cv x l = Ok l' /\ layout_step [] [] l l'.
Proof.
  intros ? ? Hcv. apply activate_with_spec; try done. intros w Hw.
  destruct (ws_activate_window_spec cv x w Hcv Hw) as (w' & -> & ?). by eexists _, w'.
Qed.

Lemma activate_window_without_raising_ok cv x l :
  layout_ok l -> roomy l -> cv_ok cv ->
  exists l', Layout.activate_window_without_raising cv x l = Ok l' /\ layout_step [] [] l l'.
Proof.
  intros ? ? Hcv. apply activate_with_spec; try done. intros w Hw.
  destruct (ws_activate_window_without_raising_spec cv x w Hcv Hw) as (w' & -> & ?). by eexists _, w'.
Qed.

Lemma focus_output_step o l : layout_ok l -> layout_step [] [] l (Layout.focus_output o l).
Proof.
  intros Hok. unfold Layout.focus_output. destruct (Layout.monitor_set l) as [mons p a|wss] eqn:Es; [|by apply step_same].
  pose proof (lo_set l Hok) as Hn. rewrite Es in Hn. destruct Hn.
  apply set_step; [done|apply Hok|done|lia| |unfold Layout.workspaces; cbn; by rewrite Es].
  constructor; try done. destruct (Layout.monitor_idx o mons) as [i|] eqn:E; [|done]. cbn.
  destruct (monitor_idx_lookup _ _ _ E) as (m & Hm & _). by eapply lookup_lt_Some.
Qed.
End windows.
