(* ===== verification/LayoutMoves.v ===== *)
(** * Moving windows and workspaces

    The operations of src/layout/mod.rs that move windows, columns and
    workspaces within and between monitors preserve the layout's invariant and
    lose no window. *)

From stdpp Require Import base numbers option list strings gmap.
From Stdlib Require Import ZArith Lia.
From S2P Require Import Prelude.
From S2P Require Import F64.
From S2P Require Import Duration.
From S2P Require Import Clock.
From S2P Require Import Gesture.
From S2P Require Import Animation.
From S2P Require Import AnimTotal.
From S2P Require Import OutputName.
From S2P Require Import LayoutTypes.
From S2P Require Import Interface.
From S2P Require Import Monitor.
From S2P Require Import MonitorIds.
From S2P Require Import MonitorInv.
From S2P Require Import MonitorOps.
From S2P Require Import MonitorOps2.
From S2P Require Import MonitorThms.
From S2P Require Import Layout.
From S2P Require Import LayoutInv.
From S2P Require Import LayoutHotplug.
From S2P Require Import LayoutWindows.

Local Open Scope Z_scope.
#[local] Arguments Nat.ltb : simpl never.
#[local] Arguments Nat.leb : simpl never.

Section moves.
Context {WO : WorkspaceOps} {LM : Libm} {KF : Keyframe} {WL : WorkspaceLaws} {LO : LayoutOps} {LL : LayoutLaws}.
Context {SM : Smithay}.
Abbreviation Mon := Monitor.Monitor.
Implicit Types (m : Mon) (mons : list Mon) (w : WS) (wss : list WS) (c : Z) (cv : ClockView) (l : Layout.Layout).
Implicit Types (x y : Win).

(** ** Several steps on the monitors of one layout *)

(** The monitors between the steps of an operation: monitor [i] may need
    cleaning up. *)
Record between l (i : nat) c mons : Prop := {
  bt_ok : mons_ok c mons;
  bt_counter : Layout.id_counter l <= c < 2 ^ 51 + 16;
  bt_synced : Forall (synced l) mons;
  bt_clean : forall j m, mons !! j = Some m -> j <> i -> clean m
}.

Lemma between_start l mons p a i :
  layout_ok l -> roomy l -> Layout.monitor_set l = Layout.Normal mons p a -> between l i (Layout.id_counter l) mons.
Proof.
  intros Hok Hr Hs. pose proof (lo_set l Hok) as Hn. rewrite Hs in Hn. destruct Hn. unfold roomy in Hr.
  constructor; [done|lia|done|]. intros j m Hj _. exact (Forall_lookup_1 _ _ _ _ no_clean Hj).
Qed.

Lemma between_room l i c mons (j : nat) m :
  layout_ok l -> between l i c mons -> mons !! j = Some m -> room (Monitor.set_counter c m) 2.
Proof.
  intros Hok [Hms Hc _ _] Hj. pose proof (lo_counter l Hok).
  eapply mons_room; [done|by eapply list_elem_of_lookup_2|lia|lia].
Qed.

(** One step on monitor [j]. *)
Lemma between_works {A} l i c mons (j : nat) m (f : Mon -> res (A * Mon)) N k ins outs r m' :
  layout_ok l -> between l i c mons -> mons !! j = Some m -> (k <= 2)%nat -> c + Z.of_nat k < 2 ^ 51 + 16 ->
  f (Monitor.set_counter c m) = Ok (r, m') -> works N k ins outs (Monitor.set_counter c m) m' ->
  syncs (Monitor.set_counter c m) m' -> (forall z, z ∈ N -> 0 <= z /\ z ∉ (mons ≫= mon_ids)) ->
  NoDup (ins ++ (mons ≫= Monitor.windows)) ->
  Layout.on_monitor j f mons c = Ok (r, <[j := m']> mons, Monitor.id_counter m')
  /\ between l i (Monitor.id_counter m') (<[j := m']> mons) /\ c <= Monitor.id_counter m' <= c + Z.of_nat k
  /\ ins ++ (mons ≫= Monitor.windows) ≡ₚ outs ++ ((<[j := m']> mons) ≫= Monitor.windows).
Proof.
  intros Hok [Hms Hc Hsy Hcl] Hj Hk Hck He Hwk [G1 G2] HN Hnd. pose proof (lo_counter l Hok).
  destruct (on_monitor_spec N k ins outs f j c mons m r m') as (Hon & Hok' & Hcnt & Hw & _); try done; [lia|lia|].
  split_and!; try done; [|lia|lia]. constructor; [done|lia| |].
  - apply Forall_insert; [done|]. destruct (Forall_lookup_1 _ _ _ _ Hsy Hj). unfold synced. by rewrite G1, G2.
  - intros a ma Ha Hne. apply list_lookup_insert_Some in Ha as [(<- & <- & _)|[_ Ha]]; [|by eapply Hcl].
    apply (wk_clean _ _ _ _ _ _ Hwk). by eapply (Hcl j m).
Qed.

Lemma between_step {A} l i c mons (j : nat) m (f : Mon -> res (A * Mon)) N k ins r m' :
  layout_ok l -> between l i c mons -> mons !! j = Some m -> (k <= 2)%nat -> c + Z.of_nat k < 2 ^ 51 + 16 ->
  f (Monitor.set_counter c m) = Ok (r, m') -> step_ok (HM := home_of m) ins (Monitor.set_counter c m) m' ->
  evolves N k (Monitor.set_counter c m) m' -> (forall z, z ∈ N -> 0 <= z /\ z ∉ (mons ≫= mon_ids)) ->
  NoDup (ins ++ (mons ≫= Monitor.windows)) ->
  Layout.on_monitor j f mons c = Ok (r, <[j := m']> mons, Monitor.id_counter m')
  /\ between l i (Monitor.id_counter m') (<[j := m']> mons) /\ c <= Monitor.id_counter m' <= c + Z.of_nat k
  /\ (<[j := m']> mons) ≫= Monitor.windows ≡ₚ ins ++ (mons ≫= Monitor.windows).
Proof.
  intros Hok Hb Hj Hk Hck He Hst Hev HN Hnd.
  destruct (between_works l i c mons j m f N k ins [] r m') as (? & ? & ? & ?); try done; [by apply step_works|by eapply evolves_syncs].
Qed.

(** When monitor [i] is clean too, no exception is needed. *)
Lemma between_all l i c mons :
  between l i c mons -> (forall m, mons !! i = Some m -> clean m) -> between l (length mons) c mons.
Proof.
  intros [Hms Hc Hsy Hcl] Hi. constructor; try done. intros j m Hj _. destruct (decide (j = i)) as [->|]; [auto|by eapply Hcl].
Qed.

(** The windows [outs] leave workspace [k] of monitor [i]. *)
Lemma between_take l i c mons m (k : nat) w w' outs rest :
  layout_ok l -> between l i c mons -> mons !! i = Some m -> Monitor.workspaces m !! k = Some w ->
  ws_windows w ≡ₚ outs ++ rest -> outs <> [] -> ws_turns ws_ok w rest w' ->
  let m' := Monitor.set_workspaces (<[k := w']> (Monitor.workspaces m)) m in
  between l i c (<[i := m']> mons) /\ mons ≫= Monitor.windows ≡ₚ outs ++ ((<[i := m']> mons) ≫= Monitor.windows)
  /\ (k = Monitor.active_workspace_idx m -> clean m -> clean m').
Proof.
  intros Hok [Hms Hc Hsy Hcl] Hi Hk Hw Hne Ht m'. pose proof (lo_counter l Hok).
  pose proof (Forall_lookup_1 _ _ _ _ (ms_semi _ _ Hms) Hi) as Hs.
  destruct (take_out (HM := home_of m) (Monitor.set_counter c m) k w w' outs rest) as (Hs' & Hclm & Hwm); try done.
  assert (Hall : mons ≫= Monitor.windows ≡ₚ outs ++ ((<[i := m']> mons) ≫= Monitor.windows)).
  { rewrite (mons_wins_replace i mons m), (mons_wins_at i mons m) by done. rewrite app_assoc. f_equiv. exact Hwm. }
  split_and!; [|done|exact Hclm]. constructor; [|done| |].
  - eapply (replace_ok c c i mons m m' []); try done; [lia| |intros z Hz; by inversion Hz|].
    + intros z Hz. right; left. unfold mon_ids in *. cbn in Hz. by rewrite (replace_ids _ _ w) in Hz by (done || by apply turns_id in Ht).
    + pose proof (ms_wins _ _ Hms) as Hnd. rewrite Hall, (mons_wins_replace i mons m) in Hnd by done.
      by apply NoDup_app in Hnd as (_ & _ & ?).
  - apply Forall_insert; [done|]. exact (Forall_lookup_1 _ _ _ _ Hsy Hi).
  - intros j mj Hj Hji. rewrite list_lookup_insert_ne in Hj by done. by eapply Hcl.
Qed.

(** The end of an operation, monitor [i] being clean again. *)
Lemma between_end l mons0 p a i c mons (a' : nat) ins :
  layout_ok l -> Layout.monitor_set l = Layout.Normal mons0 p a -> between l i c mons ->
  (forall m, mons !! i = Some m -> clean m) -> length mons = length mons0 -> (a' < length mons)%nat ->
  mons ≫= Monitor.windows ≡ₚ ins ++ (mons0 ≫= Monitor.windows) -> NoDup (ins ++ Layout.windows l) ->
  layout_step ins [] l (Layout.set_monitor_set (Layout.Normal mons p a') c l).
Proof.
  intros Hok Hs [Hms Hc Hsy Hcl] Hcli Hlen Ha Hw Hnd. pose proof (lo_set l Hok) as Hn. rewrite Hs in Hn. destruct Hn.
  apply set_step; [done|done|done|lia| |unfold Layout.workspaces; cbn; by rewrite Hs, !mons_windows].
  constructor; [done| |lia|done|done]. apply Forall_lookup. intros j m Hj. destruct (decide (j = i)) as [->|]; [auto|by eapply Hcl].
Qed.

(** ** Moving a window to another output *)

(** The window to move, if one is named, is in the layout. *)
Definition window_known (window : option Win) l : Prop := forall x, window = Some x -> x ∈ Layout.windows l.

Definition connected (o : Output) l : Prop :=
  match Layout.monitor_set l with
  | Layout.Normal mons _ _ => is_Some (Layout.monitor_idx o mons)
  | Layout.NoOutputs _ => True
  end.

Lemma move_source_ok window l mons p a :
  layout_ok l -> Layout.monitor_set l = Layout.Normal mons p a -> window_known window l -> Layout.guards_move window l = false ->
  exists i j m w, Layout.move_source window mons a = Ok (i, j) /\ mons !! i = Some m /\ Monitor.workspaces m !! j = Some w
    /\ (forall x, window = Some x -> x ∈ ws_windows w).
Proof.
  intros Hok Hs Hwin Hg. pose proof (lo_set l Hok) as Hn. rewrite Hs in Hn. destruct Hn.
  destruct window as [x|]; unfold Layout.move_source.
  - specialize (Hwin x eq_refl). destruct (moving_or_placed l mons p a x Hs Hwin) as [Hmv|Hpl].
    + exfalso. unfold Layout.moving_windows, Layout.guards_move in *. destruct (Layout.interactive_move l) as [[|mv]|]; try done.
      injection Hmv as Hmv. by rewrite bool_decide_eq_true_2 in Hg.
    + destruct (monitor_with_window_ok x mons Hpl) as (i & m & -> & Hi & Hx). cbn [unwrap mbind res_bind].
      unfold index. rewrite Hi. cbn [unwrap mbind res_bind]. destruct (window_at x _ Hx) as (j & w & -> & Hj & Hxw).
      cbn. exists i, j, m, w. split_and!; try done. by intros y [= <-].
  - destruct (lookup_lt_is_Some_2 mons a no_active) as [m Hm]. unfold index. rewrite Hm. cbn [unwrap mbind res_bind].
    pose proof (Forall_lookup_1 _ _ _ _ (ms_semi _ _ no_mons) Hm) as Hsemi.
    destruct (active_lookup (HM := home_of m) _ Hsemi) as [w Hw]. by exists a, (Monitor.active_workspace_idx m), m, w.
Qed.

(** What taking the tile out of its workspace gives. *)
Lemma take_tile_ok cv (window : option Win) w :
  cv_ok cv -> ws_ok w -> (forall x, window = Some x -> x ∈ ws_windows w) ->
  exists o, (match window with
             | Some x => rw ← ws_remove_tile cv x w; mret (Some rw)
             | None => ws_remove_active_tile cv w
             end) = Ok o
    /\ match o with
       | None => True
       | Some (r, w') => tile_ok (rt_tile r) /\ exists rest, ws_windows w ≡ₚ [tile_win (rt_tile r)] ++ rest /\ ws_turns ws_ok w rest w'
       end.
Proof.
  intros Hcv Hok Hx. destruct window as [x|].
  - destruct (ws_remove_tile_spec cv x w) as (r & w' & rest & -> & Hr & Hto & Hw & [Ht _]); [done|done|by apply Hx|].
    exists (Some (r, w')). split; [done|]. split; [done|]. exists rest. by rewrite Hr.
  - destruct (ws_remove_active_tile_spec cv w Hcv Hok) as ([[r w']|] & -> & Ho); [|by exists None].
    exists (Some (r, w')). split; [done|]. destruct Ho as (Hto & rest & Hw & [Ht _]). split; [done|]. by exists rest.
Qed.

(** The tile goes from workspace [j] of monitor [i] to the workspace [tw] of
    monitor [n], and monitor [i] is cleaned up. *)
Lemma transfer_tile cv l mons p a (i j n k : nat) mi w mn tw (r : RemovedTile Tile) w' rest act :
  layout_ok l -> roomy l -> cv_ok cv -> Layout.monitor_set l = Layout.Normal mons p a ->
  mons !! i = Some mi -> Monitor.workspaces mi !! j = Some w -> mons !! n = Some mn -> Monitor.workspaces mn !! k = Some tw ->
  tile_ok (rt_tile r) -> ws_windows w ≡ₚ [tile_win (rt_tile r)] ++ rest -> ws_turns ws_ok w rest w' ->
  let mons1 := <[i := Monitor.set_workspaces (<[j := w']> (Monitor.workspaces mi)) mi]> mons in
  exists mons2 c2 mons3 c3,
    Layout.on_monitor n (Layout.lift_op (Monitor.add_tile cv (tile_stop_move_animations (rt_tile r)) (MonWorkspace (ws_id tw) None)
        act true (rt_width r) (rt_is_full_width r) (rt_is_floating r))) mons1 (Layout.id_counter l) = Ok (tt, mons2, c2)
    /\ Layout.on_monitor i (Layout.lift_op Monitor.clean_up_if_idle) mons2 c2 = Ok (tt, mons3, c3)
    /\ forall a', (a' < length mons)%nat -> layout_step [] [] l (Layout.set_monitor_set (Layout.Normal mons3 p a') c3 l).
Proof.
  intros Hok Hr Hcv Hs Hi Hj Hn Hk Hto Hw Ht mons1. set (mi' := Monitor.set_workspaces _ mi) in *.
  pose proof (between_start l mons p a i Hok Hr Hs) as Hb0.
  destruct (between_take l i _ mons mi j w w' [tile_win (rt_tile r)] rest Hok Hb0) as (Hb1 & Hw1 & _); try done. fold mi' mons1 in Hb1, Hw1.
  assert (Hil : (i < length mons)%nat) by (by eapply lookup_lt_Some).
  (* the target is still there *)
  assert (Hn1 : exists mn1, mons1 !! n = Some mn1
    /\ mon_target_ok (MonWorkspace (ws_id tw) None) (Monitor.set_counter (Layout.id_counter l) mn1)).
  { unfold mons1. destruct (decide (i = n)) as [<-|Hne].
    - rewrite list_lookup_insert_eq by done. exists mi'. split; [done|]. assert (mn = mi) as -> by congruence.
      apply (target_after (Monitor.set_counter (Layout.id_counter l) mi) j w' k tw w); [done|by apply turns_id in Ht|done].
    - rewrite list_lookup_insert_ne by done. exists mn. split; [done|]. exists tw. split_and!; [by eapply list_elem_of_lookup_2|done..]. }
  destruct Hn1 as (mn1 & Hn1 & Htg). set (t := tile_stop_move_animations (rt_tile r)).
  assert (Htw : tile_win t = tile_win (rt_tile r)) by apply tile_stop_spec.
  assert (Hnd1 : NoDup ([tile_win t] ++ (mons1 ≫= Monitor.windows))).
  { rewrite Htw, <- Hw1. apply Hb0. }
  destruct (add_tile_spec (HM := home_of mn1) cv t (MonWorkspace (ws_id tw) None) act true (rt_width r) (rt_is_full_width r)
    (rt_is_floating r) (Monitor.set_counter (Layout.id_counter l) mn1)) as (m2 & He & Hst); try done.
  { exact (Forall_lookup_1 _ _ _ _ (ms_semi _ _ (bt_ok _ _ _ _ Hb1)) Hn1). }
  { by eapply between_room. }
  { by apply tile_stop_ok. }
  { apply NoDup_cons in Hnd1 as [Hnin _]. intros Hin. apply Hnin, list_elem_of_bind. exists mn1.
    split; [done|by eapply list_elem_of_lookup_2]. }
  unfold roomy in Hr.
  match goal with |- context [Layout.on_monitor n ?g mons1 _] =>
    destruct (between_step l i _ mons1 n mn1 g [] 2 [tile_win t] tt m2 Hok Hb1 Hn1) as (Hon2 & Hb2 & Hc2 & Hw2) end;
    [lia|lia|unfold Layout.lift_op; by rewrite He|done|by eapply add_tile_ev|intros z Hz; by inversion Hz|done|].
  set (mons2 := <[n := m2]> mons1) in *.
  assert (Hl2 : length mons2 = length mons) by (unfold mons2, mons1; by rewrite !length_insert).
  destruct (lookup_lt_is_Some_2 mons2 i) as [mi2 Hi2]; [lia|].
  destruct (clean_up_if_idle_spec (HM := home_of mi2) (Monitor.set_counter (Monitor.id_counter m2) mi2)) as (m3 & He3 & Hok3 & Hw3 & Ho3).
  { exact (Forall_lookup_1 _ _ _ _ (ms_semi _ _ (bt_ok _ _ _ _ Hb2)) Hi2). }
  destruct (between_step l i _ mons2 i mi2 (Layout.lift_op Monitor.clean_up_if_idle) [] 0 [] tt m3 Hok Hb2 Hi2)
    as (Hon3 & Hb3 & Hc3 & Hw3'); [lia|lia|unfold Layout.lift_op; by rewrite He3|by apply clean_step_ok|by apply clean_up_if_idle_ev
      |intros z Hz; by inversion Hz|apply Hb2|].
  exists mons2, (Monitor.id_counter m2), (<[i := m3]> mons2), (Monitor.id_counter m3). split_and!; [done..|].
  intros a' Ha'. eapply (between_end l mons p a i); try done.
  - intros m Hm. rewrite list_lookup_insert_eq in Hm by lia. injection Hm as <-.
    by apply (monitor_ok_semi (HM := home_of mi2)) in Hok3 as [_ ?].
  - by rewrite length_insert.
  - rewrite length_insert. lia.
  - cbn [app]. rewrite Hw3'. cbn [app]. rewrite Hw2, Htw. by symmetry.
  - apply Hok.
Qed.

Lemma move_to_output_spec cv window o target act l :
  layout_ok l -> roomy l -> cv_ok cv -> connected o l -> window_known window l ->
  exists l', Layout.move_to_output cv window o target act l = Ok l' /\ layout_step [] [] l l'.
Proof.
  intros Hok Hr Hcv Hcon Hwin. unfold Layout.move_to_output.
  assert (Hsame : exists l', mret l = Ok l' /\ layout_step [] [] l l') by (exists l; split; [done|by apply step_same]).
  destruct (Layout.guards_move window l) eqn:Eg; [done|].
  unfold connected in Hcon. pose proof (lo_set l Hok) as Hset. destruct (Layout.monitor_set l) as [mons p a|wss] eqn:Es; [|done].
  destruct Hset. destruct Hcon as [n Hnidx]. destruct (monitor_idx_lookup _ _ _ Hnidx) as (mn & Hn & _).
  rewrite Hnidx. cbn [unwrap mbind res_bind].
  destruct (move_source_ok window l mons p a Hok Es Hwin Eg) as (i & j & mi & w & -> & Hi & Hj & Hxw). cbn [mbind res_bind].
  rewrite (index_ok _ _ _ Hn). cbn [unwrap mbind res_bind]. set (k := default _ target).
  destruct (bool_decide (i = n) && bool_decide (j = k)); [done|].
  destruct (Nat.leb_spec (Monitor.len mn) k) as [Hle|Hlt]; [done|].
  destruct (lookup_lt_is_Some_2 (Monitor.workspaces mn) k Hlt) as [tw Hk]. rewrite (index_ok _ _ _ Hk). cbn [unwrap mbind res_bind].
  rewrite (index_ok _ _ _ Hi). cbn [unwrap mbind res_bind].
  pose proof (Forall_lookup_1 _ _ _ _ (ms_semi _ _ no_mons) Hi) as Hsemi.
  destruct (active_lookup (HM := home_of mi) _ Hsemi) as [aw Haw]. unfold Monitor.active_workspace.
  cbn in Haw. rewrite (index_ok _ _ _ Haw). cbn [unwrap mbind res_bind].
  assert (Hsm : exists b, match act, window with
      | Smart, Some x => if bool_decide (i = a) then o ← ws_active_window aw; mret (bool_decide (o = Some x)) else mret false
      | _, _ => mret true
      end = Ok b).
  { destruct act, window; try by eexists. case_bool_decide; [|by eexists].
    destruct (ws_active_window_spec aw) as [? ->]; [exact (lookup_ws_ok (HM := home_of mi) _ _ _ Hsemi Haw)|by eexists]. }
  destruct Hsm as [sm ->]. cbn [mbind res_bind]. rewrite (index_ok _ _ _ Hj). cbn [unwrap mbind res_bind].
  destruct (take_tile_ok cv window w) as (rem & -> & Hrem); [done|exact (lookup_ws_ok (HM := home_of mi) _ _ _ Hsemi Hj)|done|].
  cbn [mbind res_bind]. destruct rem as [[r w']|]; [|done]. destruct Hrem as (Hto & rest & Hw & Ht).
  match goal with |- context [Monitor.add_tile cv _ _ ?act' true _ _ _] =>
    destruct (transfer_tile cv l mons p a i j n k mi w mn tw r w' rest act') as (mons2 & c2 & mons3 & c3 & -> & Hon & Hl) end; try done.
  cbn [mbind res_bind]. rewrite Hon. cbn. eexists. split; [done|]. apply Hl.
  match goal with |- context [if ?b then n else a] => destruct b end; [by eapply lookup_lt_Some|done].
Qed.

(** ** Moving a column to another output *)
Lemma move_column_to_output_spec cv o target (act : bool) l :
  layout_ok l -> roomy l -> cv_ok cv -> connected o l ->
  exists l', Layout.move_column_to_output cv o target act l = Ok l' /\ layout_step [] [] l l'.
Proof.
  intros Hok Hr Hcv Hcon. unfold Layout.move_column_to_output.
  assert (Hsame : exists l', mret l = Ok l' /\ layout_step [] [] l l') by (exists l; split; [done|by apply step_same]).
  assert (Hfl : exists l', Layout.move_to_output cv None o None Smart l = Ok l' /\ layout_step [] [] l l')
    by (by apply move_to_output_spec).
  unfold connected in Hcon. pose proof (lo_set l Hok) as Hset. destruct (Layout.monitor_set l) as [mons p a|wss] eqn:Es; [|done].
  pose proof (between_start l mons p a a Hok Hr Es) as Hb0.
  destruct Hset as [Hms Hcl Hp Ha Hsy]. destruct Hcon as [n Hnidx]. rewrite Hnidx. cbn [unwrap mbind res_bind].
  destruct (monitor_idx_lookup _ _ _ Hnidx) as (mn0 & Hn0 & _).
  destruct (lookup_lt_is_Some_2 mons a Ha) as [ma Hma]. rewrite (index_ok _ _ _ Hma). cbn [mbind res_bind].
  pose proof (Forall_lookup_1 _ _ _ _ (ms_semi _ _ Hms) Hma) as Hsemi.
  destruct (active_lookup (HM := home_of ma) _ Hsemi) as [w Hw]. cbn in Hw.
  unfold Monitor.active_workspace. rewrite (index_ok _ _ _ Hw). cbn [mbind res_bind].
  destruct (ws_floating_is_active w); [done|].
  destruct (ws_remove_active_column_spec cv w) as (rem & -> & Hrem); [done|exact (lookup_ws_ok (HM := home_of ma) _ _ _ Hsemi Hw)|].
  cbn [mbind res_bind]. destruct rem as [[col w']|]; [|done]. destruct Hrem as (Hco & rest & Hww & Hne & [Ht _]).
  set (ma' := Monitor.set_workspaces _ ma). set (mons1 := <[a := ma']> mons).
  destruct (between_take l a _ mons ma (Monitor.active_workspace_idx ma) w w' (column_wins col) rest Hok Hb0) as (Hb1 & Hw1 & Hcl1); try done.
  fold ma' mons1 in Hb1, Hw1, Hcl1.
  assert (Hb : between l (length mons1) (Layout.id_counter l) mons1).
  { apply (between_all l a); [done|]. intros m Hm. unfold mons1 in Hm. rewrite list_lookup_insert_eq in Hm by done.
    injection Hm as <-. apply Hcl1; [done|]. exact (Forall_lookup_1 _ _ _ _ Hcl Hma). }
  assert (Hlen1 : length mons1 = length mons) by apply length_insert.
  destruct (lookup_lt_is_Some_2 mons1 n) as [mn Hn]; [rewrite Hlen1; by eapply lookup_lt_Some|].
  rewrite (index_ok _ _ _ Hn). cbn [mbind res_bind].
  pose proof (Forall_lookup_1 _ _ _ _ (ms_semi _ _ (bt_ok _ _ _ _ Hb)) Hn) as Hsn.
  change (Monitor.len mn) with (Monitor.len (Monitor.set_counter (Layout.id_counter l) mn)).
  rewrite (usub_len (HM := home_of mn)) by done. cbn [mbind res_bind]. set (k := (_ `min` _)%nat).
  assert (Hkl : (k < Monitor.len (Monitor.set_counter (Layout.id_counter l) mn))%nat)
    by (pose proof (len_pos (HM := home_of mn) _ Hsn); unfold k; lia).
  assert (Hnd : NoDup (column_wins col ++ (mons1 ≫= Monitor.windows))) by (rewrite <- Hw1; apply Hms).
  destruct (add_column_spec (HM := home_of mn) cv k col act (Monitor.set_counter (Layout.id_counter l) mn)) as (m2 & He & Hst); try done.
  { by eapply between_room. }
  { cbn. rewrite (mons_wins_at n mons1 mn Hn), app_assoc in Hnd. by apply NoDup_app in Hnd as (? & _). }
  unfold roomy in Hr. unfold Layout.add_column_by_idx. cbn [Layout.monitor_set Layout.set_monitor_set Layout.id_counter].
  destruct (between_step l (length mons1) _ mons1 n mn (Layout.lift_op (Monitor.add_column cv k col act)) [] 2 (column_wins col) tt m2 Hok Hb Hn)
    as (Hon & Hb2 & Hc2 & Hw2); [lia|lia|unfold Layout.lift_op; by rewrite He|done|by eapply add_column_ev|intros z Hz; by inversion Hz|done|].
  rewrite Hon. cbn. eexists. split; [done|].
  match goal with |- layout_step [] [] l ?l2 =>
    change (layout_step [] [] l (Layout.set_monitor_set (Layout.monitor_set l2) (Monitor.id_counter m2) l)) end.
  cbn [Layout.monitor_set Layout.set_monitor_set].
  eapply (between_end l mons p a (length mons1)); try done.
  - intros m Hm. rewrite lookup_ge_None_2 in Hm; [done|]. by rewrite length_insert.
  - by rewrite length_insert.
  - rewrite length_insert. destruct act; [by eapply lookup_lt_Some|lia].
  - cbn [app]. rewrite Hw2. by symmetry.
  - apply Hok.
Qed.

(** ** Operations on one monitor *)

(** What [run_op_ok] and the identifiers of an operation give the layout. *)
Lemma run_works {A} cv op m (f : Mon -> res (A * Mon)) k :
  semi_ok (HM := home_of m) m -> clean m -> cv_ok cv -> op_pre op m ->
  (forall outs m', run_op cv op m = Ok (outs, m') -> outs = [] /\ exists r, f m = Ok (r, m')) ->
  (forall r m', f m = Ok (r, m') -> evolves [] k m m') ->
  exists r m', f m = Ok (r, m') /\ works [] k (op_ins op) [] m m' /\ syncs m m'.
Proof.
  intros Hs Hcl Hcv Hpre Hf Hev.
  destruct (run_op_ok (HM := home_of m) cv op m) as (outs & m' & He & Hok' & Hw); [by apply monitor_ok_semi|done|done|].
  destruct (Hf _ _ He) as (-> & r & Hr). pose proof (Hev _ _ Hr) as Hv. exists r, m'. split_and!; [done| |by eapply evolves_syncs].
  apply (monitor_ok_semi (HM := home_of m)) in Hok' as [? ?]. constructor; [done|done|by apply evolves_ids|done].
Qed.

Lemma plain_lift (f : Mon -> res Mon) m outs m' :
  plain (f m) = Ok (outs, m') -> outs = [] /\ exists r, Layout.lift_op f m = Ok (r, m').
Proof.
  unfold plain, Layout.lift_op. intros H. destruct (f m) as [m1|]; [|done]. cbn in *. injection H as <- <-. split; [done|by exists tt].
Qed.

Lemma lift_ev (f : Mon -> res Mon) k :
  (forall m m', f m = Ok m' -> evolves [] k m m') -> forall m r m', Layout.lift_op f m = Ok (r, m') -> evolves [] k m m'.
Proof. intros Hf m r m' H. unfold Layout.lift_op in H. bind H as [m1|] eqn E. injection H as _ <-. auto. Qed.

(** A plain operation on monitor [i]. *)
Lemma on_monitor_run cv op l mons p a (i : nat) m (f : Mon -> res Mon) :
  layout_ok l -> roomy l -> cv_ok cv -> Layout.monitor_set l = Layout.Normal mons p a -> mons !! i = Some m ->
  (forall m, run_op cv op m = plain (f m)) -> (forall m m', f m = Ok m' -> evolves [] 2 m m') -> op_ins op = [] ->
  (room (Monitor.set_counter (Layout.id_counter l) m) 2 ->
    op_pre op (Monitor.set_counter (Layout.id_counter l) m)) ->
  exists mons' c', Layout.on_monitor i (Layout.lift_op f) mons (Layout.id_counter l) = Ok (tt, mons', c')
    /\ forall a', (a' < length mons)%nat -> layout_step [] [] l (Layout.set_monitor_set (Layout.Normal mons' p a') c' l).
Proof.
  intros Hok Hr Hcv Hs Hi Hrun Hev Hins Hpre. destruct (normal_lookup l mons p a i m) as (Hsemi & Hcl & Hrm); try done.
  destruct (run_works cv op (Monitor.set_counter (Layout.id_counter l) m) (Layout.lift_op f) 2) as (r & m' & He & Hwk & Hsy); try done.
  - apply Hpre. unfold room in *. lia.
  - intros outs m'. rewrite Hrun. apply plain_lift.
  - intros r m'. by apply lift_ev.
  - rewrite Hins in Hwk. destruct r.
    destruct (layout_on_monitor_outs l mons p a i m (Layout.lift_op f) [] 2 [] [] tt m') as (Hon & _ & Hl); try done;
      [lia|intros z Hz; by inversion Hz|apply Hok|]. by eexists _, _.
Qed.

Lemma on_active_run cv op l (f : Mon -> res Mon) :
  layout_ok l -> roomy l -> cv_ok cv -> (forall m, run_op cv op m = plain (f m)) ->
  (forall m m', f m = Ok m' -> evolves [] 2 m m') -> op_ins op = [] ->
  (forall m, room m 2 -> op_pre op m) ->
  exists l', Layout.on_active_monitor f l = Ok l' /\ layout_step [] [] l l'.
Proof.
  intros Hok Hr Hcv Hrun Hev Hins Hpre. unfold Layout.on_active_monitor. pose proof (lo_set l Hok) as Hset.
  destruct (Layout.monitor_set l) as [mons p a|wss] eqn:Es; [|exists l; split; [done|by apply step_same]]. destruct Hset.
  destruct (lookup_lt_is_Some_2 mons a no_active) as [m Hm].
  destruct (on_monitor_run cv op l mons p a a m f) as (mons' & c' & -> & Hl); try done; [by apply (Hpre (Monitor.set_counter _ m))|].
  cbn. eexists. split; [done|]. by apply Hl.
Qed.

(** The operation of the monitor behind an action. *)
Definition mon_op (op : Layout.ActiveOp) : MonOp :=
  match op with
  | Layout.MoveDownOrToWorkspaceDown => OpMoveDownOrToWorkspaceDown
  | Layout.MoveUpOrToWorkspaceUp => OpMoveUpOrToWorkspaceUp
  | Layout.FocusWindowOrWorkspaceDown => OpFocusWindowOrWorkspaceDown
  | Layout.FocusWindowOrWorkspaceUp => OpFocusWindowOrWorkspaceUp
  | Layout.MoveToWorkspaceUp f => OpMoveToWorkspaceUp f
  | Layout.MoveToWorkspaceDown f => OpMoveToWorkspaceDown f
  | Layout.MoveColumnToWorkspaceUp a => OpMoveColumnToWorkspaceUp a
  | Layout.MoveColumnToWorkspaceDown a => OpMoveColumnToWorkspaceDown a
  | Layout.MoveColumnToWorkspace i a => OpMoveColumnToWorkspace i a
  | Layout.SwitchWorkspaceUp => OpSwitchUp
  | Layout.SwitchWorkspaceDown => OpSwitchDown
  | Layout.SwitchWorkspace i => OpSwitch i
  | Layout.SwitchWorkspaceAutoBackAndForth i => OpSwitchAutoBackAndForth i
  | Layout.SwitchWorkspacePrevious => OpSwitchPrevious
  | Layout.MoveWorkspaceDown => OpMoveWorkspaceDown
  | Layout.MoveWorkspaceUp => OpMoveWorkspaceUp
  end.

Lemma zero_ev m m' : evolves [] 0 m m' -> evolves [] 2 m m'.
Proof. apply weaken_ev. lia. Qed.

Definition active_run cv (op : Layout.ActiveOp) : Mon -> res Mon :=
  match op with
  | Layout.MoveDownOrToWorkspaceDown => Monitor.move_down_or_to_workspace_down cv
  | Layout.MoveUpOrToWorkspaceUp => Monitor.move_up_or_to_workspace_up cv
  | Layout.FocusWindowOrWorkspaceDown => Monitor.focus_window_or_workspace_down cv
  | Layout.FocusWindowOrWorkspaceUp => Monitor.focus_window_or_workspace_up cv
  | Layout.MoveToWorkspaceUp focus => Monitor.move_to_workspace_up cv focus
  | Layout.MoveToWorkspaceDown focus => Monitor.move_to_workspace_down cv focus
  | Layout.MoveColumnToWorkspaceUp activate => Monitor.move_column_to_workspace_up cv activate
  | Layout.MoveColumnToWorkspaceDown activate => Monitor.move_column_to_workspace_down cv activate
  | Layout.MoveColumnToWorkspace idx activate => Monitor.move_column_to_workspace cv idx activate
  | Layout.SwitchWorkspaceUp => Monitor.switch_workspace_up cv
  | Layout.SwitchWorkspaceDown => Monitor.switch_workspace_down cv
  | Layout.SwitchWorkspace idx => Monitor.switch_workspace cv idx
  | Layout.SwitchWorkspaceAutoBackAndForth idx => Monitor.switch_workspace_auto_back_and_forth cv idx
  | Layout.SwitchWorkspacePrevious => Monitor.switch_workspace_previous cv
  | Layout.MoveWorkspaceDown => Monitor.move_workspace_down cv
  | Layout.MoveWorkspaceUp => Monitor.move_workspace_up cv
  end.

Lemma active_op_on cv op l : Layout.active_op cv op l = Layout.on_active_monitor (active_run cv op) l.
Proof. by destruct op. Qed.

Lemma active_op_spec cv op l :
  layout_ok l -> roomy l -> cv_ok cv -> exists l', Layout.active_op cv op l = Ok l' /\ layout_step [] [] l l'.
Proof.
  intros Hok Hr Hcv. rewrite active_op_on. apply (on_active_run cv (mon_op op)); try done.
  - by destruct op.
  - intros m m'. destruct op; intros He; cbn [active_run] in He.
    + eapply on_active_ev; [|intros ? ?; apply move_down_ev|exact He]. intros; by eapply op_move_down.
    + eapply on_active_ev; [|intros ? ?; apply move_up_ev|exact He]. intros; by eapply op_move_up.
    + eapply on_active_ev; [|intros ? ? ?; by eapply zero_ev, switch_down_ev|exact He]. intros; by eapply op_focus_down.
    + eapply on_active_ev; [|intros ? ? ?; by eapply zero_ev, switch_up_ev|exact He]. intros; by eapply op_focus_up.
    + by eapply move_up_ev.
    + by eapply move_down_ev.
    + by eapply move_column_up_ev.
    + by eapply move_column_down_ev.
    + by eapply move_column_ev.
    + by eapply zero_ev, switch_up_ev.
    + by eapply zero_ev, switch_down_ev.
    + by eapply zero_ev, switch_ev.
    + by eapply zero_ev, switch_back_ev.
    + by eapply zero_ev, switch_previous_ev.
    + by eapply move_workspace_down_ev.
    + by eapply move_workspace_up_ev.
  - by destruct op.
  - intros m Hm. by destruct op.
Qed.

Lemma move_to_workspace_spec cv window idx act l :
  layout_ok l -> roomy l -> cv_ok cv -> window_known window l ->
  exists l', Layout.move_to_workspace cv window idx act l = Ok l' /\ layout_step [] [] l l'.
Proof.
  intros Hok Hr Hcv Hwin. unfold Layout.move_to_workspace.
  assert (Hsame : exists l', mret l = Ok l' /\ layout_step [] [] l l') by (exists l; split; [done|by apply step_same]).
  destruct (Layout.guards_move window l) eqn:Eg; [done|]. pose proof (lo_set l Hok) as Hset.
  destruct (Layout.monitor_set l) as [mons p a|wss] eqn:Es; [|done]. destruct Hset.
  assert (Hi : exists i m, match window with
      | Some x => unwrap (position (fun m => existsb (has_window x) (Monitor.workspaces m)) mons)
      | None => mret a
      end = Ok i /\ mons !! i = Some m /\ match window with Some x => x ∈ Monitor.windows m | None => True end).
  { destruct window as [x|].
    - destruct (moving_or_placed l mons p a x Es (Hwin x eq_refl)) as [Hmv|Hpl].
      + exfalso. unfold Layout.moving_windows, Layout.guards_move in *. destruct (Layout.interactive_move l) as [[|mv]|]; try done.
        injection Hmv as Hmv. by rewrite bool_decide_eq_true_2 in Eg.
      + destruct (monitor_with_window_ok x mons Hpl) as (i & m & Hp & Hm & Hx). exists i, m.
        unfold Layout.monitor_with_window in Hp. by rewrite Hp.
    - destruct (lookup_lt_is_Some_2 mons a no_active) as [m Hm]. by exists a, m. }
  destruct Hi as (i & m & -> & Hm & Hx). cbn [mbind res_bind].
  destruct (on_monitor_run cv (OpMoveToWorkspace window idx act) l mons p a i m (Monitor.move_to_workspace cv window idx act))
    as (mons' & c' & -> & Hl); try done.
  - intros m1 m2. apply move_to_workspace_ev.
  - cbn. eexists. split; [done|]. by apply Hl.
Qed.

Lemma move_workspace_to_idx_spec cv reference new_idx l :
  layout_ok l -> roomy l -> cv_ok cv ->
  exists l', Layout.move_workspace_to_idx reference new_idx l = Ok l' /\ layout_step [] [] l l'.
Proof.
  intros Hok Hr Hcv. unfold Layout.move_workspace_to_idx.
  assert (Hsame : exists l', mret l = Ok l' /\ layout_step [] [] l l') by (exists l; split; [done|by apply step_same]).
  pose proof (lo_set l Hok) as Hset. destruct (Layout.monitor_set l) as [mons p a|wss] eqn:Es; [|done]. destruct Hset.
  destruct (lookup_lt_is_Some_2 mons a no_active) as [ma Hma]. rewrite (index_ok _ _ _ Hma). cbn [mbind res_bind].
  set (target := match reference with Some _ => _ | None => _ end).
  assert (Ht : forall i j, target = Some (i, j) -> is_Some (mons !! i)).
  { intros i j. unfold target. destruct reference as [[[o|] k]|].
    - destruct (Layout.monitor_idx o mons) as [n|] eqn:E; [|done]. cbn. intros [= <- _].
      destruct (monitor_idx_lookup _ _ _ E) as (m & Hm & _). by eexists.
    - intros [= <- _]. by eexists.
    - intros [= <- _]. by eexists. }
  destruct target as [[i j]|]; [|done]. destruct (Ht i j eq_refl) as [m Hm].
  destruct (on_monitor_run cv (OpMoveWorkspaceToIdx j new_idx) l mons p a i m (Monitor.move_workspace_to_idx j new_idx))
    as (mons' & c' & -> & Hl); try done.
  - intros m1 m2. apply move_workspace_to_idx_ev.
  - cbn. eexists. split; [done|]. by apply Hl.
Qed.

(** ** Moving a workspace to another output *)
Lemma set_original_step {HM : Home} m (idx : nat) w :
  semi_ok m -> Monitor.workspaces m !! idx = Some w ->
  let m' := Monitor.set_workspaces (<[idx := ws_set_original_output (Monitor.output m) w]> (Monitor.workspaces m)) m in
  step_ok [] m m' /\ evolves [] 0 m m'.
Proof.
  intros Hs Hi m'. destruct (ws_set_original_output_spec (Monitor.output m) w) as [Ht Ho]; [by eapply lookup_ws_ok|].
  assert (Hw : <[idx := ws_set_original_output (Monitor.output m) w]> (Monitor.workspaces m) ≫= ws_windows ≡ₚ Monitor.windows m).
  { rewrite (wins_replace m idx w) by done. unfold Monitor.windows. by rewrite (wins_at (Monitor.workspaces m) idx w) by done. }
  split; [|eapply set_ws_ev; [done|constructor]]. split_and!; [|..|done|done].
  - apply (replace_semi m idx w); [done..|by apply turns_id in Ht|by apply turns_ok in Ht|rewrite Hw; apply Hs|].
    intros [He _]. split; [unfold is_empty; by rewrite (turns_same_hwn _ _ Ht)|]. rewrite Ho. apply Hs.
  - intros Hcl. apply (replace_clean m idx w); [done..|]. left. by rewrite (turns_same_hwn _ _ Ht).
Qed.

(** A workspace leaves monitor [i] for monitor [n]. *)
Lemma transfer_workspace cv l mons p a (i n idx : nat) mi mn (o : Output) (act : bool) :
  layout_ok l -> roomy l -> cv_ok cv -> Layout.monitor_set l = Layout.Normal mons p a ->
  mons !! i = Some mi -> mons !! n = Some mn -> i <> n -> (idx < Monitor.len mi)%nat ->
  exists w mons1 c1 mn1 mons2 c2,
    Layout.on_monitor i (Monitor.remove_workspace_by_idx cv idx) mons (Layout.id_counter l) = Ok (w, mons1, c1)
    /\ mons1 !! n = Some mn1
    /\ Layout.on_monitor n (Layout.lift_op (Monitor.insert_workspace cv (ws_set_original_output o w)
         (Monitor.active_workspace_idx mn1 + 1) act)) mons1 c1 = Ok (tt, mons2, c2)
    /\ forall a', (a' < length mons)%nat -> layout_step [] [] l (Layout.set_monitor_set (Layout.Normal mons2 p a') c2 l).
Proof.
  intros Hok Hr Hcv Hs Hi Hn Hin Hidx.
  pose proof (between_start l mons p a (length mons) Hok Hr Hs) as Hb0. pose proof (lo_counter l Hok) as Hc.
  pose proof (Forall_lookup_1 _ _ _ _ (ms_semi _ _ (bt_ok _ _ _ _ Hb0)) Hi) as Hsi. unfold roomy in Hr.
  destruct (remove_workspace_spec (HM := home_of mi) cv idx (Monitor.set_counter (Layout.id_counter l) mi))
    as (w0 & w & m1 & He1 & Hw0 & Ht & Hok1 & Hw1 & _ & Hid1); [done|by eapply between_room|done|done|]. cbn in Hw0.
  pose proof (remove_workspace_ev _ _ _ _ _ He1) as Hev1. apply (monitor_ok_semi (HM := home_of mi)) in Hok1 as [Hs1 Hcl1].
  destruct (between_works l (length mons) _ mons i mi (Monitor.remove_workspace_by_idx cv idx) [] 2 [] (ws_windows w) w m1 Hok Hb0 Hi)
    as (Hon1 & Hb1 & Hc1 & Hwm1); [lia|lia|done| |by eapply evolves_syncs|intros z Hz; by inversion Hz|apply Hb0|].
  { constructor; [done|done|by apply evolves_ids|done]. }
  set (mons1 := <[i := m1]> mons) in *. set (c1 := Monitor.id_counter m1) in *. cbn [app] in Hwm1.
  assert (Hn1 : mons1 !! n = Some mn) by (unfold mons1; by rewrite list_lookup_insert_ne).
  pose proof (Forall_lookup_1 _ _ _ _ (ms_semi _ _ (bt_ok _ _ _ _ Hb1)) Hn1) as Hsn.
  (* the workspace is new to every other monitor *)
  destruct (ws_set_original_output_spec o w) as [Ht2 _]; [by apply turns_ok in Ht|]. set (w2 := ws_set_original_output o w) in *.
  assert (Hid2 : ws_id w2 = ws_id w0) by (by rewrite (turns_id _ _ _ Ht2), (turns_id _ _ _ Ht)).
  assert (Hidm : ws_id w0 ∈ mon_ids mi) by (by eapply list_elem_of_fmap_2, list_elem_of_lookup_2).
  assert (Hnew : ws_id w2 ∉ (mons1 ≫= mon_ids)).
  { rewrite Hid2. unfold mons1. rewrite (proj1 (mons_split i mons mi m1 Hi)). cbn. intros [Hm|Hd]%elem_of_app.
    - rewrite (turns_id _ _ _ Ht) in Hid1. by apply Hid1.
    - destruct (mons_delete _ _ _ _ (bt_ok _ _ _ _ Hb0) Hi) as (_ & Hdis & _). by apply (Hdis _ Hidm). }
  assert (Hfr : 0 <= ws_id w2 < Layout.id_counter l).
  { rewrite Hid2. apply (mons_fresh _ mons _ (bt_ok _ _ _ _ Hb0)), list_elem_of_bind. exists mi.
    split; [done|by eapply list_elem_of_lookup_2]. }
  assert (Hnd : NoDup (ws_windows w2 ++ (mons1 ≫= Monitor.windows))).
  { rewrite (turns_wins _ _ _ Ht2), <- Hwm1. apply Hb0. }
  destruct (insert_workspace_spec (HM := home_of mn) cv w2 (Monitor.active_workspace_idx mn + 1) act (Monitor.set_counter c1 mn))
    as (m2 & He2 & Hst2); [done|by eapply between_room|done| | |].
  { pose proof (active_lt (HM := home_of mn) _ Hsn) as Hal. unfold Monitor.len in *. cbn in Hal |- *. lia. }
  { split_and!; [by apply turns_ok in Ht2|cbn; lia| |].
    - intros Hin2. apply Hnew, list_elem_of_bind. exists mn. split; [done|by eapply list_elem_of_lookup_2].
    - rewrite (mons_wins_at n mons1 mn Hn1), app_assoc in Hnd. by apply NoDup_app in Hnd as (? & _). }
  destruct (between_step l (length mons) c1 mons1 n mn (Layout.lift_op (Monitor.insert_workspace cv w2 (Monitor.active_workspace_idx mn + 1) act))
    [ws_id w2] 1 (ws_windows w2) tt m2 Hok Hb1 Hn1) as (Hon2 & Hb2 & Hc2 & Hwm2);
    [lia|lia|unfold Layout.lift_op; by rewrite He2|done|by eapply insert_workspace_ev| |done|].
  { intros z [->|Hz]%elem_of_cons; [split; [lia|done]|by inversion Hz]. }
  exists w, mons1, c1, mn, (<[n := m2]> mons1), (Monitor.id_counter m2). split_and!; [done..|]. intros a' Ha'.
  assert (Hlen : length (<[n := m2]> mons1) = length mons) by (unfold mons1; by rewrite !length_insert).
  eapply (between_end l mons p a (length mons)); try done; [|by rewrite Hlen| |apply Hok].
  - intros m Hm. by rewrite lookup_ge_None_2 in Hm by lia.
  - cbn [app]. rewrite Hwm2, (turns_wins _ _ _ Ht2). by symmetry.
Qed.

Lemma move_workspace_to_output_by_id_spec cv old_idx old_output new_output l :
  layout_ok l -> roomy l -> cv_ok cv -> connected new_output l -> (forall o, old_output = Some o -> connected o l) ->
  exists b l', Layout.move_workspace_to_output_by_id cv old_idx old_output new_output l = Ok (b, l') /\ layout_step [] [] l l'.
Proof.
  intros Hok Hr Hcv Hnew Hold. unfold Layout.move_workspace_to_output_by_id.
  assert (Hsame : exists b l', mret (false, l) = Ok (b, l') /\ layout_step [] [] l l') by (exists false, l; split; [done|by apply step_same]).
  unfold connected in *. pose proof (lo_set l Hok) as Hset. destruct (Layout.monitor_set l) as [mons p a|wss] eqn:Es; [|done].
  destruct Hset. destruct Hnew as [n Hnidx]. destruct (monitor_idx_lookup _ _ _ Hnidx) as (mn & Hn & _).
  assert (Hi : exists i mi, match old_output with Some o => unwrap (Layout.monitor_idx o mons) | None => mret a end = Ok i /\ mons !! i = Some mi).
  { destruct old_output as [o|].
    - destruct (Hold o eq_refl) as [i Hi]. destruct (monitor_idx_lookup _ _ _ Hi) as (mi & Hmi & _). exists i, mi. by rewrite Hi.
    - destruct (lookup_lt_is_Some_2 mons a no_active) as [mi Hmi]. by exists a, mi. }
  destruct Hi as (i & mi & -> & Hi). rewrite Hnidx. cbn [unwrap mbind res_bind]. rewrite (index_ok _ _ _ Hi). cbn [mbind res_bind].
  destruct (Nat.leb_spec (Monitor.len mi) old_idx) as [|Hlt]; [done|]. case_bool_decide as Hin.
  - destruct (normal_lookup l mons p a i mi) as (Hsemi & _ & _); try done.
    destruct (lookup_lt_is_Some_2 (Monitor.workspaces mi) old_idx Hlt) as [w Hw].
    destruct (set_original_step (HM := home_of mi) (Monitor.set_counter (Layout.id_counter l) mi) old_idx w) as [Hst Hev]; try done.
    match goal with |- context [Layout.on_monitor i ?f mons _] =>
      destruct (layout_on_monitor l mons p a i mi f 0 [] tt (Monitor.set_workspaces (<[old_idx := ws_set_original_output (Monitor.output mi) w]>
        (Monitor.workspaces mi)) (Monitor.set_counter (Layout.id_counter l) mi))) as (Hon & _ & Hl) end; try done; [lia| |apply Hok|].
    { unfold Layout.lift_op. by rewrite (update_ws_ok _ _ _ w (ws_set_original_output (Monitor.output mi) w)). }
    rewrite Hon. cbn. eexists _, _. split; [done|]. by apply Hl.
  - match goal with |- context [if ?b then n else a] => set (act := b) end.
    destruct (transfer_workspace cv l mons p a i n old_idx mi mn new_output act)
      as (w & mons1 & c1 & mn1 & mons2 & c2 & -> & Hn1 & Hon & Hl); try done.
    cbn [mbind res_bind]. rewrite (index_ok _ _ _ Hn1). cbn [mbind res_bind]. rewrite Hon. cbn. eexists _, _. split; [done|].
    apply Hl. destruct act; [by eapply lookup_lt_Some|done].
Qed.

Lemma move_workspace_to_output_spec cv o l :
  layout_ok l -> roomy l -> cv_ok cv -> connected o l ->
  exists b l', Layout.move_workspace_to_output cv o l = Ok (b, l') /\ layout_step [] [] l l'.
Proof.
  intros Hok Hr Hcv Hcon. unfold Layout.move_workspace_to_output. pose proof (lo_set l Hok) as Hset.
  destruct (Layout.monitor_set l) as [mons p a|wss] eqn:Es; [|exists false, l; split; [done|by apply step_same]]. destruct Hset.
  destruct (lookup_lt_is_Some_2 mons a no_active) as [m Hm]. rewrite (index_ok _ _ _ Hm). cbn [mbind res_bind].
  by apply move_workspace_to_output_by_id_spec.
Qed.
End moves.
