(* ===== verification/LayoutRest.v ===== *)
(** * Names, gestures, the overview and the configuration

    The remaining operations of src/layout/mod.rs: naming workspaces, workspace
    switch gestures, the overview and reloading the options. *)

From stdpp Require Import base numbers option list strings gmap.
From Stdlib Require Import ZArith Lia.
From S2P Require Import Prelude.
From S2P Require Import F64.
From S2P Require Import Duration.
From S2P Require Import Clock.
From S2P Require Import Gesture.
From S2P Require Import Animation.
From S2P Require Import AnimTotal.
From S2P Require Import OutputName.
From S2P Require Import LayoutTypes.
From S2P Require Import Interface.
From S2P Require Import Monitor.
From S2P Require Import MonitorIds.
From S2P Require Import MonitorInv.
From S2P Require Import MonitorOps.
From S2P Require Import MonitorOps2.
From S2P Require Import MonitorThms.
From S2P Require Import Layout.
From S2P Require Import LayoutInv.
From S2P Require Import LayoutHotplug.
From S2P Require Import LayoutWindows.
From S2P Require Import LayoutMoves.

Local Open Scope Z_scope.
#[local] Arguments Nat.ltb : simpl never.
#[local] Arguments Nat.leb : simpl never.

Section rest.
Context {WO : WorkspaceOps} {LM : Libm} {KF : Keyframe} {WL : WorkspaceLaws} {LO : LayoutOps} {LL : LayoutLaws}.
Context {SM : Smithay}.
Abbreviation Mon := Monitor.Monitor.
Implicit Types (m : Mon) (mons : list Mon) (w : WS) (wss : list WS) (c : Z) (cv : ClockView) (l : Layout.Layout).

(** ** Names *)
Lemma find_by_ref_ok r l : layout_ok l -> exists o, Layout.find_workspace_by_ref r l = Ok o.
Proof.
  intros Hok. unfold Layout.find_workspace_by_ref. pose proof (lo_set l Hok) as Hset. destruct r; [by eexists| |by eexists].
  destruct (Layout.monitor_set l) as [mons p a|wss]; [|by eexists]. destruct Hset.
  destruct (lookup_lt_is_Some_2 mons a no_active) as [m Hm]. rewrite (index_ok _ _ _ Hm). by eexists.
Qed.

Lemma referenced_ok r l : layout_ok l -> exists o, Layout.referenced r l = Ok o.
Proof.
  intros Hok. unfold Layout.referenced. destruct r as [r|]; [by apply find_by_ref_ok|]. unfold Layout.active_workspace.
  pose proof (lo_set l Hok) as Hset. destruct (Layout.monitor_set l) as [mons p a|wss]; [|by eexists]. destruct Hset.
  destruct (lookup_lt_is_Some_2 mons a no_active) as [m Hm]. rewrite (index_ok _ _ _ Hm). cbn [mbind res_bind].
  destruct (active_lookup (HM := home_of m) _ (Forall_lookup_1 _ _ _ _ (ms_semi _ _ no_mons) Hm)) as [w Hw]. cbn in Hw.
  unfold Monitor.active_workspace. rewrite (index_ok _ _ _ Hw). by eexists.
Qed.

Lemma unname_by_id_spec id l :
  layout_ok l -> roomy l -> exists l', Layout.unname_workspace_by_id id l = Ok l' /\ layout_step [] [] l l'.
Proof.
  intros Hok Hr. unfold Layout.unname_workspace_by_id. pose proof (lo_set l Hok) as Hset.
  destruct (Layout.monitor_set l) as [mons p a|wss] eqn:Es.
  - match goal with |- context [Layout.first_monitor ?f 0 mons _] =>
      destruct (first_step f l mons p a) as (o & mons' & c' & -> & _ & _ & Hl) end; try done.
    + intros m Hs _ _. destruct (unname_keeps (HM := home_of m) id m Hs) as (b & m' & He & Hst). rewrite He. cbn.
      eexists _, m'. split_and!; [done|done|by eapply unname_ev].
    + cbn. eexists. split; [done|]. apply Hl, Hset.
  - destruct (position _ wss) as [i|] eqn:E; [|exists l; split; [done|by apply step_same]].
    destruct (position_Some _ _ _ E) as (w & Hi & _). rewrite (index_ok _ _ _ Hi). cbn [mbind res_bind].
    pose proof Hset as [Hwok Hn Hids Hf]. destruct (ws_unname_spec w) as (Hid & _ & Hw & Hk & _); [exact (Forall_lookup_1 _ _ _ _ Hwok Hi)|].
    set (wss' := if has_windows (ws_unname w) then <[i := ws_unname w]> wss else delete i wss).
    assert (Hres : (if has_windows (ws_unname w) then mret (<[i := ws_unname w]> wss) else '(_, wss) ← vec_remove i wss; mret wss) = Ok wss')
      by (unfold wss'; destruct (has_windows (ws_unname w)); [done|by rewrite (vec_remove_ok _ w)]).
    rewrite Hres. cbn. eexists. split; [done|]. apply set_step; [done|apply Hok|done|lia| |].
    + unfold wss'. destruct (has_windows (ws_unname w)) eqn:Ew.
      * constructor; [by apply Forall_insert|apply Forall_insert; [done|]; unfold has_windows_or_name; by rewrite Ew| |].
        -- by rewrite (insert_id _ _ w).
        -- apply Forall_insert; [done|]. rewrite Hid. exact (Forall_lookup_1 _ _ _ _ Hf Hi).
      * constructor; [by apply forall_delete|by apply forall_delete| |by apply forall_delete].
        rewrite (delete_perm i w wss Hi) in Hids. by apply NoDup_cons in Hids as [_ ?].
    + unfold Layout.workspaces. cbn [Layout.monitor_set Layout.set_monitor_set app]. rewrite Es, (wins_at wss i w Hi).
      unfold wss'. destruct (has_windows (ws_unname w)) eqn:Ew; [by rewrite (wins_insert _ _ w), Hw by done|].
      unfold has_windows in Ew. rewrite Hw in Ew. by destruct (ws_windows w).
Qed.

Lemma unname_by_ref_spec r l :
  layout_ok l -> roomy l -> exists l', Layout.unname_workspace_by_ref r l = Ok l' /\ layout_step [] [] l l'.
Proof.
  intros Hok Hr. unfold Layout.unname_workspace_by_ref. destruct (find_by_ref_ok r l Hok) as [[id|] ->]; cbn [mbind res_bind];
    [by apply unname_by_id_spec|]. exists l. split; [done|by apply step_same].
Qed.

Lemma unset_name_spec r l :
  layout_ok l -> roomy l -> exists l', Layout.unset_workspace_name r l = Ok l' /\ layout_step [] [] l l'.
Proof.
  intros Hok Hr. unfold Layout.unset_workspace_name. destruct (referenced_ok r l Hok) as [[id|] ->]; cbn [mbind res_bind];
    [by apply unname_by_id_spec|]. exists l. split; [done|by apply step_same].
Qed.

Lemma mons_ok_mono c c' mons : c <= c' -> mons_ok c mons -> mons_ok c' mons.
Proof.
  intros Hc []. constructor; try done. eapply Forall_impl; [done|]. intros m. by apply mon_semi_mono.
Qed.

Lemma ensure_named_spec cv config l :
  layout_ok l -> roomy l -> cv_ok cv -> part_ok (wc_layout config) ->
  exists l', Layout.ensure_named_workspace cv config l = Ok l' /\ layout_step [] [] l l'.
Proof.
  intros Hok Hr Hcv Hpart. unfold Layout.ensure_named_workspace. unfold roomy in Hr.
  destruct (Layout.find_workspace_by_name _ l); [exists l; split; [done|by apply step_same]|].
  pose proof (lo_counter l Hok) as Hc. unfold id_next. rewrite Z.mod_small by lia. pose proof (lo_set l Hok) as Hset.
  destruct (Layout.monitor_set l) as [mons p a|wss] eqn:Es.
  - pose proof (between_start l mons p a (length mons) Hok Hr Es) as Hb0. destruct Hset as [Hms Hcl Hp Ha Hsy].
    set (i := match wc_open_on_output config with Some _ => _ | None => _ end).
    assert (Hi : (i < length mons)%nat).
    { unfold i. destruct (wc_open_on_output config); [|done]. destruct (position _ mons) as [j|] eqn:E; [|done].
      destruct (position_Some _ _ _ E) as (m & Hm & _). by eapply lookup_lt_Some. }
    destruct (lookup_lt_is_Some_2 mons i Hi) as [m Hm]. rewrite (index_ok _ _ _ Hm). cbn [mbind res_bind].
    destruct (ws_new_with_config_spec (Layout.id_counter l) (Monitor.output m) config (Layout.options l)) as (Hid & Hn & Hw & Hk). specialize (Hk (lo_options l Hok) Hpart).
    set (w := ws_new_with_config _ _ _ _) in *.
    assert (Hb : between l (length mons) (Layout.id_counter l + 1) mons).
    { destruct Hb0. constructor; try done; [|lia]. eapply mons_ok_mono; [|done]. lia. }
    assert (Hnew : ws_id w ∉ (mons ≫= mon_ids)) by (rewrite Hid; intros Hin%(mons_fresh _ _ _ Hms); lia).
    destruct (insert_workspace_spec (HM := home_of m) cv w 0 false (Monitor.set_counter (Layout.id_counter l + 1) m)) as (m' & He & Hst).
    { exact (Forall_lookup_1 _ _ _ _ (ms_semi _ _ (bt_ok _ _ _ _ Hb)) Hm). }
    { by eapply between_room. }
    { done. }
    { lia. }
    { split_and!; [done|cbn; lia| |].
      - intros Hin. apply Hnew, list_elem_of_bind. exists m. split; [done|by eapply list_elem_of_lookup_2].
      - rewrite Hw. exact (mc_wins _ (so_core _ (Forall_lookup_1 _ _ _ _ (ms_semi _ _ Hms) Hm))). }
    destruct (between_step l (length mons) _ mons i m (Layout.lift_op (Monitor.insert_workspace cv w 0 false)) [ws_id w] 1 (ws_windows w) tt m'
      Hok Hb Hm) as (Hon & Hb2 & Hc2 & Hw2); [lia|lia|unfold Layout.lift_op; by rewrite He|done|by eapply insert_workspace_ev| | |].
    { intros z [->|Hz]%elem_of_cons; [split; [lia|done]|by inversion Hz]. }
    { rewrite Hw. apply Hms. }
    rewrite Hon. cbn. eexists. split; [done|].
    eapply (between_end l mons p a (length mons)); try done; try (by rewrite length_insert); [|by rewrite Hw2, Hw|apply Hok].
    intros v Hv. by rewrite lookup_ge_None_2 in Hv by (rewrite length_insert; lia).
  - destruct (ws_new_no_outputs_spec (Layout.id_counter l) (Some config) (Layout.options l)) as (Hid & Hn & Hw & Hk). specialize (Hk (lo_options l Hok) Hpart).
    set (w := ws_new_with_config_no_outputs _ _ _) in *. rewrite vec_insert_ok by lia. cbn. eexists. split; [done|].
    destruct Hset as [Hwok Hnm Hids Hf]. apply set_step; [done|apply Hok|done|lia| |].
    + unfold insert_at. cbn. rewrite drop_0. constructor; [by constructor|constructor; [|done]| |].
      * unfold has_windows_or_name. rewrite Hn. by rewrite orb_true_r.
      * cbn. apply NoDup_cons. split; [|done]. rewrite Hid. intros (v & Hv & Hin)%list_elem_of_fmap.
        rewrite Forall_forall in Hf. specialize (Hf v Hin). lia.
      * constructor; [lia|]. eapply Forall_impl; [exact Hf|]. cbn. lia.
    + unfold Layout.workspaces. cbn [Layout.monitor_set Layout.set_monitor_set app]. rewrite Es, insert_at_perm. cbn. by rewrite Hw.
Qed.

(** ** Workspace switch gestures *)
Lemma room_zero m : room m 2 -> room m 0.
Proof. unfold room. lia. Qed.

Lemma gesture_begin_spec cv now o tp l mons p a :
  layout_ok l -> roomy l -> cv_ok cv -> ts_ok now -> Layout.monitor_set l = Layout.Normal mons p a ->
  exists l', Layout.workspace_switch_gesture_begin cv now o tp l = Ok l' /\ layout_step [] [] l l'.
Proof.
  intros Hok Hr Hcv Hts Es. unfold Layout.workspace_switch_gesture_begin. rewrite Es.
  match goal with |- context [Layout.each_monitor ?f mons _] =>
    destruct (each_step f l mons p a) as (mons' & c' & -> & _ & Hst) end; try done; [|cbn; by eexists].
  apply harmless_everywhere, lift_harmless. intros m Hs _ Hrm%room_zero. destruct (bool_decide _).
  - destruct (gesture_begin_keeps (HM := home_of m) cv tp m Hs Hcv) as (m' & He & Hst). exists m'.
    split_and!; [done..|by eapply gesture_begin_ev].
  - destruct (gesture_end_keeps (HM := home_of m) cv now None m Hs Hrm Hcv Hts) as (b & m' & He & Hst & _). rewrite He. exists m'.
    split_and!; [done..|by eapply gesture_end_ev].
Qed.

Lemma gesture_update_spec cv dy ts tp l :
  layout_ok l -> roomy l -> cv_ok cv -> ts_ok ts ->
  exists r l', Layout.workspace_switch_gesture_update cv dy ts tp l = Ok (r, l') /\ layout_step [] [] l l'.
Proof.
  intros Hok Hr Hcv Hts. unfold Layout.workspace_switch_gesture_update. pose proof (lo_set l Hok) as Hset.
  destruct (Layout.monitor_set l) as [mons p a|wss] eqn:Es; [|exists None, l; split; [done|by apply step_same]].
  match goal with |- context [Layout.first_monitor ?f 0 mons _] =>
    destruct (first_step f l mons p a) as (o & mons' & c' & -> & _ & _ & Hl) end; try done;
    [|cbn; eexists _, _; split; [done|]; apply Hl, Hset].
  intros m Hs _ Hrm%room_zero. destruct (gesture_update_keeps (HM := home_of m) cv dy ts tp m Hs Hrm Hcv Hts) as (o & m' & He & Hst).
  rewrite He. cbn. eexists _, m'. split_and!; [done..|by eapply gesture_update_ev].
Qed.

Lemma gesture_end_spec cv now tp l :
  layout_ok l -> roomy l -> cv_ok cv -> ts_ok now ->
  exists r l', Layout.workspace_switch_gesture_end cv now tp l = Ok (r, l') /\ layout_step [] [] l l'.
Proof.
  intros Hok Hr Hcv Hts. unfold Layout.workspace_switch_gesture_end. pose proof (lo_set l Hok) as Hset.
  destruct (Layout.monitor_set l) as [mons p a|wss] eqn:Es; [|exists None, l; split; [done|by apply step_same]].
  match goal with |- context [Layout.first_monitor ?f 0 mons _] =>
    destruct (first_step f l mons p a) as (o & mons' & c' & -> & _ & _ & Hl) end; try done;
    [|cbn; eexists _, _; split; [done|]; apply Hl, Hset].
  intros m Hs _ Hrm%room_zero. destruct (gesture_end_keeps (HM := home_of m) cv now tp m Hs Hrm Hcv Hts) as (b & m' & He & Hst & _).
  rewrite He. cbn. eexists _, m'. split_and!; [done..|by eapply gesture_end_ev].
Qed.

(** ** Layout-wide settings *)

(** [l'] is [l] with other options, overview or move state, and monitors. *)
Lemma rebuild l l' mons mons' p a :
  layout_ok l -> Layout.monitor_set l = Layout.Normal mons p a -> Layout.monitor_set l' = Layout.Normal mons' p a ->
  opts_ok (Layout.options l') -> (forall mv, Layout.interactive_move l' = Some (Layout.Moving mv) -> moving_ok mv) ->
  progress_ok (Layout.overview_progress l') -> Layout.moving_windows l' = Layout.moving_windows l ->
  (forall x d r, Layout.interactive_move l' = Some (Layout.Starting x d r) -> Layout.interactive_move l = Some (Layout.Starting x d r)) ->
  0 <= Layout.id_counter l' -> mons_ok (Layout.id_counter l') mons' -> Forall clean mons' -> length mons' = length mons ->
  Forall (synced l') mons' -> mons' ≫= Monitor.windows ≡ₚ mons ≫= Monitor.windows ->
  layout_step [] [] l l'.
Proof.
  intros Hok Hs Hs' Hsa Hoa Hp Hmv Hst Hc Hms Hcl Hlen Hsy Hw. pose proof (lo_set l Hok) as Hn. rewrite Hs in Hn. destruct Hn.
  assert (Hall : Layout.windows l' ≡ₚ Layout.windows l)
    by (by rewrite (windows_normal l mons p a Hs), (windows_normal l' mons' p a Hs'), Hmv, Hw).
  split; [|by symmetry]. constructor; try done.
  - rewrite Hall. apply Hok.
  - intros x d r Hx. rewrite Hall. eapply Hok. by apply Hst.
  - rewrite Hs'. constructor; [done|done|lia|lia|done].
Qed.

Lemma rebuild_unplugged l l' wss wss' :
  layout_ok l -> Layout.monitor_set l = Layout.NoOutputs wss -> Layout.monitor_set l' = Layout.NoOutputs wss' ->
  opts_ok (Layout.options l') -> (forall mv, Layout.interactive_move l' = Some (Layout.Moving mv) -> moving_ok mv) ->
  progress_ok (Layout.overview_progress l') -> Layout.moving_windows l' = Layout.moving_windows l ->
  (forall x d r, Layout.interactive_move l' = Some (Layout.Starting x d r) -> Layout.interactive_move l = Some (Layout.Starting x d r)) ->
  Layout.id_counter l' = Layout.id_counter l -> Forall2 same_ws wss wss' -> layout_step [] [] l l'.
Proof.
  intros Hok Hs Hs' Hsa Hoa Hp Hmv Hst Hc HF. pose proof (lo_set l Hok) as Hn. rewrite Hs in Hn.
  assert (Hall : Layout.windows l' ≡ₚ Layout.windows l).
  { by rewrite (windows_unplugged l wss Hs), (windows_unplugged l' wss' Hs'), Hmv, (moved_wins _ _ (same_moved _ _ HF)). }
  split; [|by symmetry]. constructor; try done.
  - rewrite Hc. apply Hok.
  - rewrite Hall. apply Hok.
  - intros x d r Hx. rewrite Hall. eapply Hok. by apply Hst.
  - rewrite Hs', Hc. by eapply unplugged_moved, same_moved.
Qed.

(** ** The overview *)
Definition shows (b : bool) m m' : Prop :=
  Monitor.base_options m' = Monitor.base_options m /\ Monitor.overview_open m' = b.

Lemma overview_pre cv b p c mons :
  cv_ok cv -> progress_ok p ->
  loop_pre 0 c mons (shows b) (Layout.lift_op (fun m =>
    Monitor.set_overview_progress cv (Layout.monitor_progress p) (Layout.set_overview_open b m))).
Proof.
  intros Hcv Hp c' m _ _ Hs Hcl Hr.
  destruct (set_overview_keeps (HM := home_of m) cv (Layout.monitor_progress p) (Layout.set_overview_open b (Monitor.set_counter c' m)))
    as (m' & He & Hst & Hclm & Hw & _); [by apply set_overview_open_semi|done|by apply monitor_progress_ok|].
  pose proof (set_overview_ev _ _ _ _ He) as []. exists tt, m'. unfold Layout.lift_op. rewrite He. split_and!; [done| |by split].
  constructor; [exact Hst|exact Hclm|by constructor|by rewrite Hw].
Qed.

Lemma set_monitors_spec cv b p l :
  layout_ok l -> roomy l -> cv_ok cv -> progress_ok p ->
  exists l', Layout.set_monitors_overview_state cv (Layout.set_overview b p l) = Ok l' /\ layout_step [] [] l l'.
Proof.
  intros Hok Hr Hcv Hp. unfold Layout.set_monitors_overview_state. cbn [Layout.monitor_set Layout.set_overview Layout.overview_progress
    Layout.overview_open Layout.id_counter]. pose proof (lo_set l Hok) as Hset. unfold roomy in Hr. pose proof (lo_counter l Hok) as Hc.
  destruct (Layout.monitor_set l) as [mons pr a|wss] eqn:Es.
  - destruct Hset. match goal with |- context [Layout.each_monitor ?f mons _] =>
      destruct (each_monitor_spec 0 (Layout.id_counter l) [] mons (shows b) f) as (mons' & c' & -> & [Hms Hcl Hcnt Hw] & HF) end;
      try done; [cbn; lia|by apply overview_pre|].
    cbn. eexists. split; [done|]. cbn in Hcnt. eapply (rebuild l _ mons mons' pr a); try done; try apply Hok; cbn.
    + lia.
    + by rewrite (Forall2_length _ _ _ HF).
    + clear -no_synced HF. induction HF as [|m m' mons mons' [H1 H2] _ IH]; [done|]. apply Forall_cons in no_synced as [[G1 _] Hf].
      constructor; [|auto]. split; cbn; congruence.
  - cbn. eexists. split; [done|]. eapply (rebuild_unplugged l _ wss wss); try done; try apply Hok.
    destruct Hset as [Hwok _ _ _]. clear -Hwok. induction Hwok; constructor; [by apply same_refl|done].
Qed.

Lemma progress_value_ok cv p : progress_ok p -> cv_ok cv -> exists v, Layout.progress_value cv p = Ok v.
Proof. intros Hp Hcv. destruct p as [[an|g]|]; [by apply anim_total_value|by eexists..]. Qed.

Lemma toggle_overview_spec cv l :
  layout_ok l -> roomy l -> cv_ok cv -> exists l', Layout.toggle_overview cv l = Ok l' /\ layout_step [] [] l l'.
Proof.
  intros Hok Hr Hcv. unfold Layout.toggle_overview. destruct (progress_value_ok cv (Layout.overview_progress l)) as [v ->]; [apply Hok|done|].
  cbn [mbind res_bind]. match goal with |- context [Animation.new cv ?f ?t ?v0 ?cfg] =>
    destruct (op_overview _ (lo_options l Hok) cv f t v0 Hcv) as (an & -> & Han) end. cbn [mbind res_bind]. by apply set_monitors_spec.
Qed.

Lemma open_overview_spec cv l :
  layout_ok l -> roomy l -> cv_ok cv -> exists b l', Layout.open_overview cv l = Ok (b, l') /\ layout_step [] [] l l'.
Proof.
  intros Hok Hr Hcv. unfold Layout.open_overview. destruct (Layout.overview_open l); [exists false, l; split; [done|by apply step_same]|].
  destruct (toggle_overview_spec cv l) as (l' & -> & Hst); try done. by exists true, l'.
Qed.
Lemma close_overview_spec cv l :
  layout_ok l -> roomy l -> cv_ok cv -> exists b l', Layout.close_overview cv l = Ok (b, l') /\ layout_step [] [] l l'.
Proof.
  intros Hok Hr Hcv. unfold Layout.close_overview. destruct (Layout.overview_open l); [|exists false, l; split; [done|by apply step_same]].
  destruct (toggle_overview_spec cv l) as (l' & -> & Hst); try done. by exists true, l'.
Qed.

Lemma overview_gesture_begin_spec cv l :
  layout_ok l -> roomy l -> cv_ok cv -> exists l', Layout.overview_gesture_begin cv l = Ok l' /\ layout_step [] [] l l'.
Proof.
  intros Hok Hr Hcv. unfold Layout.overview_gesture_begin.
  destruct (progress_value_ok cv (Layout.overview_progress l)) as [v ->]; [apply Hok|done|]. cbn [mbind res_bind].
  apply set_monitors_spec; try done. cbn. repeat split; try constructor. done.
Qed.

Lemma overview_gesture_update_spec cv dy ts l :
  layout_ok l -> roomy l -> cv_ok cv -> ts_ok ts ->
  exists r l', Layout.overview_gesture_update cv dy ts l = Ok (r, l') /\ layout_step [] [] l l'.
Proof.
  intros Hok Hr Hcv [Ht0 Ht1]. unfold Layout.overview_gesture_update. pose proof (lo_progress l Hok) as Hp.
  assert (Hsame : exists r l', mret (None, l) = Ok (r : option bool, l') /\ layout_step [] [] l l')
    by (exists None, l; split; [done|by apply step_same]).
  destruct (Layout.overview_progress l) as [[an|g]|] eqn:Ep; [done| |done]. cbn in Hp.
  destruct (push_ok dy ts (Layout.og_tracker g) Hp Ht0 Ht1) as (t & -> & Ht & _). cbn [mbind res_bind].
  unfold RubberBand.clamp. match goal with |- context [fclamp ?x ?lo ?hi] => destruct (fclamp_ok x lo hi) as [y ->]; [by vm_compute|] end.
  cbn [mbind res_bind mret res_ret]. destruct (feqb _ _).
  - eexists _, _. split; [done|]. pose proof (lo_set l Hok) as Hset. destruct (Layout.monitor_set l) as [mons pr a|wss] eqn:Es.
    + destruct Hset. eapply (rebuild l _ mons mons pr a); try done; apply Hok.
    + eapply (rebuild_unplugged l _ wss wss); try done; try apply Hok.
      destruct Hset as [Hwok _ _ _]. clear -Hwok. induction Hwok; constructor; [by apply same_refl|done].
  - match goal with |- context [Layout.set_overview ?b ?p l] => destruct (set_monitors_spec cv b p l) as (l' & -> & Hst) end; try done.
    by eexists _, l'.
Qed.

Lemma overview_gesture_end_spec cv now l :
  layout_ok l -> roomy l -> cv_ok cv -> ts_ok now ->
  exists b l', Layout.overview_gesture_end cv now l = Ok (b, l') /\ layout_step [] [] l l'.
Proof.
  intros Hok Hr Hcv [Ht0 Ht1]. unfold Layout.overview_gesture_end. pose proof (lo_progress l Hok) as Hp.
  assert (Hsame : exists b l', mret (false, l) = Ok (b, l') /\ layout_step [] [] l l')
    by (exists false, l; split; [done|by apply step_same]).
  destruct (Layout.overview_progress l) as [[an|g]|] eqn:Ep; [done| |done]. cbn in Hp.
  destruct (push_ok f0 now (Layout.og_tracker g) Hp Ht0 Ht1) as (t & -> & Ht & _). cbn [mbind res_bind].
  destruct (velocity_ok t Ht) as [v ->]. cbn [mbind res_bind]. destruct (projected_end_pos_ok t Ht) as [q ->]. cbn [mbind res_bind].
  match goal with |- context [fclamp ?x ?lo ?hi] => destruct (fclamp_ok x lo hi) as [y ->]; [by vm_compute|] end. cbn [mbind res_bind].
  match goal with |- context [RubberBand.clamp_derivative ?r ?lo ?hi ?x] => destruct (clamp_derivative_ok r lo hi x) as [d ->]; [by vm_compute|] end.
  cbn [mbind res_bind]. match goal with |- context [Animation.new cv ?f ?t2 ?v0 ?cfg] =>
    destruct (op_overview _ (lo_options l Hok) cv f t2 v0 Hcv) as (an & -> & Han) end. cbn [mbind res_bind].
  match goal with |- context [Layout.set_overview ?b ?p l] => destruct (set_monitors_spec cv b p l) as (l' & -> & Hst) end; try done.
  by eexists _, l'.
Qed.

(** [ws_idx] is a workspace of the active monitor. *)
Definition active_has (ws_idx : nat) l : Prop :=
  match Layout.monitor_set l with
  | Layout.Normal mons _ a => exists m, mons !! a = Some m /\ (ws_idx < Monitor.len m)%nat
  | Layout.NoOutputs _ => True
  end.

Lemma toggle_to_workspace_spec cv ws_idx l :
  layout_ok l -> roomy l -> cv_ok cv -> active_has ws_idx l ->
  exists l', Layout.toggle_overview_to_workspace cv ws_idx l = Ok l' /\ layout_step [] [] l l'.
Proof.
  intros Hok Hr Hcv Hidx. unfold Layout.toggle_overview_to_workspace, Layout.on_active_monitor. unfold active_has in Hidx.
  pose proof (lo_set l Hok) as Hset. destruct (Layout.monitor_set l) as [mons p a|wss] eqn:Es; [|by apply toggle_overview_spec].
  destruct Hset. destruct Hidx as (m & Hm & Hlt). destruct (normal_lookup l mons p a a m) as (Hs & Hcl & Hrm); try done.
  destruct (activate_anim_spec (HM := home_of m) cv ws_idx (Some (overview_open_close_anim (Layout.options l)))
    (Monitor.set_counter (Layout.id_counter l) m)) as (m' & He & Ha); [apply Hs|done|done|apply op_overview, Hok|].
  destruct (activated_semi (HM := home_of m) _ _ _ _ Hs Ha) as (Hs' & Hcl' & Hw).
  destruct (layout_on_monitor l mons p a a m (Layout.lift_op (Monitor.activate_workspace_with_anim_config cv ws_idx
    (Some (overview_open_close_anim (Layout.options l))))) 0 [] tt m') as (Hon & Hc & Hl); try done.
  - lia.
  - unfold Layout.lift_op. by rewrite He.
  - split_and!; [done..|by rewrite Hw|apply Ha].
  - by eapply activate_ev.
  - apply Hok.
  - rewrite Hon. cbn [mbind res_bind mret res_ret]. specialize (Hl a no_active).
    match goal with |- context [Layout.toggle_overview cv ?l1] => destruct (toggle_overview_spec cv l1) as (l2 & -> & Hst) end;
      [apply Hl|unfold roomy in *; cbn; lia|done|].
    exists l2. split; [done|]. by eapply layout_step_trans.
Qed.

(** ** Reloading the options *)
Definition reloaded (o : Options) m m' : Prop :=
  Monitor.base_options m' = o /\ Monitor.overview_open m' = Monitor.overview_open m.

Lemma update_config_ids cv o m m' :
  Monitor.update_config cv o m = Ok m' -> ids_from [] 1 m m' /\ reloaded o m m'.
Proof.
  intros H. unfold Monitor.update_config in H.
  assert (Hx : forall m1 wss, evolves [] 1 m m1 ->
    for_each (ws_update_config cv (with_merged_layout (Monitor.layout_config m) o)) (Monitor.workspaces m1) = Ok wss ->
    let m2 := Monitor.set_options o (with_merged_layout (Monitor.layout_config m) o) (Monitor.layout_config m1)
                (Monitor.set_workspaces wss m1) in ids_from [] 1 m m2 /\ reloaded o m m2).
  { intros m1 wss [] Hw. apply for_each_ids in Hw; [|intros w w' Hw'; apply ws_id_stable; by eapply op_update_config].
    split; [|by split]. constructor; cbn; try done. intros H1 H2 x. unfold mon_ids. cbn. rewrite Hw. by apply ev_ids. }
  bind H as [m1|] eqn E1. bind H as [wss|] eqn E2. injection H as <-. apply Hx; [|done].
  destruct (negb _ && _); [|injection E1 as <-; apply evolves_refl].
  destruct (empty_workspace_above_first _); [by eapply add_workspace_at_ev|].
  destruct (Monitor.workspace_switch m); [injection E1 as <-; apply evolves_refl|].
  case_bool_decide; [injection E1 as <-; apply evolves_refl|]. bind E1 as [[w rest]|] eqn E3. injection E1 as <-.
  unfold vec_remove in E3. destruct (Monitor.workspaces m !! 0%nat); [|done]. injection E3 as _ <-.
  apply evolves_sub; try done. cbn. apply delete_ids.
Qed.

Lemma mons_length c mons : mons_ok c mons -> 0 <= c -> Z.of_nat (length mons) <= c.
Proof.
  intros Hok Hc. pose proof (mons_count c mons Hok) as Hn. destruct Hok as [Hs _ _ _ _].
  assert (Hle : (length mons <= length (mons ≫= mon_ids))%nat); [|lia]. clear -Hs.
  induction Hs as [|m mons Hm _ IH]; [done|]. cbn. rewrite length_app. unfold mon_ids at 1. rewrite length_fmap.
  pose proof (len_pos (HM := home_of m) _ Hm) as Hl. unfold Monitor.len in Hl. cbn in Hl. lia.
Qed.

Lemma update_options_spec cv o l :
  layout_ok l -> roomy l -> cv_ok cv -> opts_ok o ->
  exists l', Layout.update_options cv o l = Ok l' /\ layout_step [] [] l l'.
Proof.
  intros Hok Hr Hcv Ho. unfold Layout.update_options. set (move := match Layout.interactive_move l with Some _ => _ | None => _ end).
  assert (Hmv : (match move with Some (Layout.Moving mv) => [tile_win (Layout.im_tile mv)] | _ => [] end) = Layout.moving_windows l).
  { unfold move, Layout.moving_windows. destruct (Layout.interactive_move l) as [[|mv]|]; try done. cbn. by rewrite tile_update_spec. }
  assert (Hst : forall x d r, move = Some (Layout.Starting x d r) -> Layout.interactive_move l = Some (Layout.Starting x d r))
    by (unfold move; by destruct (Layout.interactive_move l) as [[]|]).
  assert (Hmok : forall mv, move = Some (Layout.Moving mv) -> moving_ok mv).
  { unfold move. destruct (Layout.interactive_move l) as [[|mv]|] eqn:Em; try done. intros mv1 Hmv1. injection Hmv1 as Hmv1. subst mv1.
    destruct (lo_moving l Hok mv Em). constructor; cbn; try done. apply tile_update_ok; [|done]. apply merged_opts_ok; [done|by apply merged_opts_ok]. }
  cbn [Layout.monitor_set Layout.set_interactive_move Layout.id_counter]. pose proof (lo_set l Hok) as Hset.
  unfold roomy in Hr. pose proof (lo_counter l Hok) as Hc. destruct (Layout.monitor_set l) as [mons p a|wss] eqn:Es.
  - destruct Hset. pose proof (mons_length _ _ no_mons Hc) as Hlen.
    destruct (each_monitor_spec 1 (Layout.id_counter l) [] mons (reloaded o) (Monitor.update_config cv o))
      as (mons' & c' & -> & [Hms Hcl Hcnt Hw] & HF); try done; [lia| |].
    { intros c' m _ _ Hs Hcl Hrm.
      destruct (update_config_spec (HM := home_of m) cv o (Monitor.layout_config m) (Monitor.set_counter c' m)) as (m' & He & Hok' & Hw & _);
        [by apply monitor_ok_semi|done|done|done|apply Hs|].
      change (set_lc _ _) with (set_lc (Monitor.layout_config (Monitor.set_counter c' m)) (Monitor.set_counter c' m)) in He.
      rewrite set_lc_id in He.
      destruct (update_config_ids _ _ _ _ He) as [Hids Hre]. exists tt, m'. unfold Layout.lift_op. rewrite He. split_and!; [done| |exact Hre].
      apply (monitor_ok_semi (HM := home_of m)) in Hok' as [? ?]. constructor; [done..|by rewrite Hw]. }
    cbn. eexists. split; [done|]. eapply (rebuild l _ mons mons' p a); try done; try apply Hok; cbn.
    + lia.
    + by rewrite (Forall2_length _ _ _ HF).
    + clear -no_synced HF. induction HF as [|m m' mons mons' [H1 H2] _ IH]; [done|]. apply Forall_cons in no_synced as [[_ G2] Hf].
      constructor; [|auto]. split; cbn; congruence.
  - destruct (for_each_spec same_ws (ws_update_config cv o) wss) as (wss' & -> & HF); [apply Hset|intros; by apply ws_update_config_spec|].
    cbn. eexists. split; [done|]. eapply (rebuild_unplugged l _ wss wss'); try done; apply Hok.
Qed.
End rest.
