(* ===== verification/LayoutNames.v ===== *)
(** * Naming workspaces

    [Layout::set_workspace_name] (src/layout/mod.rs): a workspace gets a name through
    every monitor, and the empty workspaces that calls for are added on the active one. *)

From stdpp Require Import base numbers option list strings gmap.
From Stdlib Require Import ZArith Lia.
From S2P Require Import Prelude.
From S2P Require Import F64.
From S2P Require Import Duration.
From S2P Require Import Clock.
From S2P Require Import Gesture.
From S2P Require Import Animation.
From S2P Require Import AnimTotal.
From S2P Require Import OutputName.
From S2P Require Import LayoutTypes.
From S2P Require Import Interface.
From S2P Require Import Monitor.
From S2P Require Import MonitorIds.
From S2P Require Import MonitorInv.
From S2P Require Import MonitorOps.
From S2P Require Import MonitorOps2.
From S2P Require Import MonitorThms.
From S2P Require Import Layout.
From S2P Require Import LayoutInv.
From S2P Require Import LayoutHotplug.
From S2P Require Import LayoutWindows.
From S2P Require Import LayoutMoves.
From S2P Require Import LayoutRest.

Local Open Scope Z_scope.
#[local] Arguments Nat.ltb : simpl never.
#[local] Arguments Nat.leb : simpl never.

Section names.
Context {WO : WorkspaceOps} {LM : Libm} {KF : Keyframe} {WL : WorkspaceLaws} {LO : LayoutOps} {LL : LayoutLaws}.
Context {SM : Smithay}.
Abbreviation Mon := Monitor.Monitor.
Abbreviation wins l := (l ≫= ws_windows).
Implicit Types (m : Mon) (mons : list Mon) (w : WS) (wss : list WS) (c id : Z) (cv : ClockView) (l : Layout.Layout) (name : string).

(** ** Renaming through every monitor *)
Definition renamed (name : string) (id : Z) w : WS := if ws_id w =? id then ws_set_name name w else w.

Lemma for_each_pure {A} (g : A -> A) (xs : list A) : for_each (fun x => mret (g x)) xs = Ok (g <$> xs).
Proof. induction xs as [|x xs IH]; [done|]. cbn. by rewrite IH. Qed.

Lemma each_monitor_pure (g : WS -> WS) mons c :
  Layout.each_monitor (fun m => wss ← for_each (fun w => mret (g w)) (Monitor.workspaces m); mret (Monitor.set_workspaces wss m))
    mons c = Ok ((fun m => Monitor.set_workspaces (g <$> Monitor.workspaces m) (Monitor.set_counter c m)) <$> mons, c).
Proof.
  induction mons as [|m mons IH]; [done|]. cbn [Layout.each_monitor fmap list_fmap].
  change (Monitor.workspaces (Monitor.set_counter c m)) with (Monitor.workspaces m). rewrite for_each_pure.
  cbn. by rewrite IH.
Qed.

Lemma renamed_id name id w : ws_ok w -> ws_id (renamed name id w) = ws_id w.
Proof. intros Hw. unfold renamed. destruct (_ =? _); [|done]. by apply ws_set_name_spec. Qed.

Lemma ensure_empty_elsewhere id m : (forall w, w ∈ Monitor.workspaces m -> ws_id w <> id) -> Layout.ensure_empty_for id m = Ok m.
Proof.
  intros Hid. unfold Layout.ensure_empty_for.
  assert (Hh : match head (Monitor.workspaces m) with Some w => ws_id w =? id | None => false end = false).
  { destruct (Monitor.workspaces m) as [|w wss]; [done|]. apply Z.eqb_neq, Hid. left. }
  assert (Hl : match last (Monitor.workspaces m) with Some w => ws_id w =? id | None => false end = false).
  { destruct (last _) as [w|] eqn:Hl; [|done]. apply last_Some_elem_of in Hl. by apply Z.eqb_neq, Hid. }
  rewrite Hh, andb_false_r. cbn. by rewrite Hl.
Qed.

Lemma delete_elem (i j : nat) mons m : mons !! j = Some m -> j <> i -> m ∈ delete i mons.
Proof.
  intros Hj Hne. apply list_elem_of_lookup. destruct (decide (j < i)%nat) as [Hl|Hl].
  - exists j. by rewrite list_lookup_delete_lt.
  - exists (j - 1)%nat. rewrite list_lookup_delete_ge by lia. by replace (S (j - 1)) with j by lia.
Qed.

(** ** On one monitor *)
Definition rename_all name id m : Mon := Monitor.set_workspaces (renamed name id <$> Monitor.workspaces m) m.

Lemma renamed_elsewhere name id wss : (forall w, w ∈ wss -> ws_id w <> id) -> renamed name id <$> wss = wss.
Proof.
  induction wss as [|w wss IH]; [done|]. intros H. cbn. rewrite IH by (intros v Hv; apply H; by right). f_equal.
  unfold renamed. by rewrite (proj2 (Z.eqb_neq _ _)) by (apply H; left).
Qed.
Lemma rename_all_elsewhere name id m : (forall w, w ∈ Monitor.workspaces m -> ws_id w <> id) -> rename_all name id m = m.
Proof. intros H. unfold rename_all. rewrite renamed_elsewhere by done. by destruct m. Qed.
Lemma renamed_at name wss i w :
  NoDup (ws_id <$> wss) -> wss !! i = Some w -> renamed name (ws_id w) <$> wss = <[i := ws_set_name name w]> wss.
Proof.
  revert i. induction wss as [|v wss IH]; intros i Hn Hi; [done|]. rewrite fmap_cons, NoDup_cons in Hn. destruct Hn as [Hv Hn].
  destruct i as [|i]; cbn in Hi.
  - injection Hi as ->. cbn. unfold renamed at 1. rewrite Z.eqb_refl. f_equal. apply renamed_elsewhere.
    intros u Hu He. apply Hv. rewrite <-He. by apply list_elem_of_fmap_2.
  - cbn. rewrite (IH i Hn Hi). f_equal. unfold renamed. rewrite (proj2 (Z.eqb_neq _ _)); [done|]. intros He. apply Hv. rewrite He.
    apply list_elem_of_fmap_2. by eapply list_elem_of_lookup_2.
Qed.

Lemma id_at wss i w v j :
  NoDup (ws_id <$> wss) -> wss !! i = Some w -> wss !! j = Some v -> (ws_id v =? ws_id w) = bool_decide (j = i).
Proof.
  intros Hn Hi Hj. case_bool_decide as E; [subst j; rewrite Hi in Hj; injection Hj as ->; apply Z.eqb_refl|].
  apply Z.eqb_neq. intros He. apply E. apply (NoDup_lookup (ws_id <$> wss) j i (ws_id w)); [done| |]; rewrite list_lookup_fmap.
  - by rewrite Hj, <-He.
  - by rewrite Hi.
Qed.
Lemma has_head wss i w :
  NoDup (ws_id <$> wss) -> wss !! i = Some w ->
  match head wss with Some v => ws_id v =? ws_id w | None => false end = bool_decide (i = 0%nat).
Proof.
  intros Hn Hi. destruct wss as [|v wss]; [done|]. cbn [head]. rewrite (id_at (v :: wss) i w v 0) by done. by apply bool_decide_ext.
Qed.
Lemma has_last wss i w :
  NoDup (ws_id <$> wss) -> wss !! i = Some w ->
  match last wss with Some v => ws_id v =? ws_id w | None => false end = bool_decide (S i = length wss).
Proof.
  intros Hn Hi. pose proof (lookup_lt_Some _ _ _ Hi) as Hlt. destruct (last wss) as [v|] eqn:E.
  - rewrite last_lookup in E. rewrite (id_at wss i w v (pred (length wss))) by done. apply bool_decide_ext. lia.
  - apply last_None in E. rewrite E in Hlt. cbn in Hlt. lia.
Qed.

Section monitor.
Context {HM : Home}.
(** The workspace that is named is on this monitor: it gets what it needs around it. *)
Lemma name_monitor name m (i : nat) w :
  semi_ok m -> room m 2 -> Monitor.workspaces m !! i = Some w ->
  exists m', Layout.ensure_empty_for (ws_id w) (rename_all name (ws_id w) m) = Ok m' /\ step_ok [] m m' /\ evolves [] 2 m m'.
Proof.
  intros Hs Hr Hi. pose proof (so_core _ Hs) as Hc. pose proof (mc_ids _ Hc) as Hids.
  destruct (ws_set_name_spec name w) as (Hid & Hnm & Hwi & Hok & _); [by eapply lookup_ws_ok|]. set (w' := ws_set_name name w) in *.
  unfold rename_all. rewrite (renamed_at name _ i w Hids Hi). fold w'. set (m1 := Monitor.set_workspaces (<[i := w']> (Monitor.workspaces m)) m).
  assert (Hwins : wins (<[i := w']> (Monitor.workspaces m)) ≡ₚ Monitor.windows m).
  { rewrite (wins_insert _ _ w) by done. unfold Monitor.windows. by rewrite (wins_at (Monitor.workspaces m) i w), Hwi by done. }
  assert (Hnd : NoDup (wins (<[i := w']> (Monitor.workspaces m)))) by (rewrite Hwins; apply (mc_wins _ Hc)).
  assert (Hc1 : mon_core m1) by (by apply (set_ws_core m i w)).
  assert (Hlen1 : Monitor.len m1 = Monitor.len m) by (unfold Monitor.len; cbn; by rewrite length_insert).
  assert (Hi1 : Monitor.workspaces m1 !! i = Some w') by (apply list_lookup_insert_eq; by eapply lookup_lt_Some).
  set (top := Monitor.ewaf m && bool_decide (i = 0%nat)). set (bottom := bool_decide (S i = Monitor.len m)).
  destruct (grow_top_first_spec bottom top m1) as (m' & t & b & He & Hg); [done|unfold room; by rewrite Hlen1|].
  assert (Heq : Layout.ensure_empty_for (ws_id w) m1 = grow_top_first bottom top m1).
  { unfold Layout.ensure_empty_for, grow_top_first, mret, res_ret. rewrite <-Hid, (has_head _ i w') by (done || apply (mc_ids _ Hc1)).
    change (Monitor.ewaf m1) with (Monitor.ewaf m). fold top. destruct (grow_top_first_spec false top m1) as (m2 & t2 & b2 & He2 & Hg2);
      [done|unfold room; by rewrite Hlen1|]. unfold grow_top_first in He2.
    destruct (if top then Monitor.add_workspace_top m1 else Ok m1) as [m3|]; [|done]. cbn [mbind res_bind] in *. injection He2 as ->.
    assert (Hl : match last (Monitor.workspaces m2) with Some v => ws_id v =? ws_id w' | None => false end = bottom).
    { rewrite (gr_ws _ _ _ _ _ _ Hg2). destruct (gr_bot _ _ _ _ _ _ Hg2) as [_ Hb2]. destruct b2; [|done]. rewrite app_nil_r, last_app.
      unfold bottom. rewrite <-Hlen1. unfold Monitor.len. rewrite <-(has_last (Monitor.workspaces m1) i w'); [|apply (mc_ids _ Hc1)|done].
      destruct (last (Monitor.workspaces m1)) eqn:El; [done|]. apply last_None in El. by rewrite El in Hi1. }
    by rewrite Hl. }
  exists m'. rewrite Heq. split; [done|].
  destruct (settle_grown m i w w' bottom top m' t b) as (H1 & H2 & H3 & _ & H4); try done.
  { unfold has_windows_or_name. by rewrite Hnm, orb_true_r. }
  split.
  - split_and!; [done|intros Hcl; by apply H2, clean_clean_but|by rewrite H3, Hwins|done].
  - apply (evolves_seq [] 0 2 2 m m1); [| |lia].
    + apply evolves_sub; try done. intros x. unfold m1. cbn. by rewrite (replace_ids _ _ w).
    + unfold grow_top_first in He. bind He as [m2|] eqn E. apply (evolves_seq [] 1 1 2 m1 m2); [| |lia].
      * by apply (maybe_add_ev top 0).
      * by apply (maybe_add_ev bottom (Monitor.len m2)).
Qed.
(** Away from the ends nothing is needed. *)
Lemma name_inside name m (i : nat) w :
  semi_ok m -> Monitor.workspaces m !! i = Some w -> S i <> Monitor.len m -> (Monitor.ewaf m = true -> i <> 0%nat) ->
  Layout.ensure_empty_for (ws_id w) (rename_all name (ws_id w) m) = Ok (rename_all name (ws_id w) m).
Proof.
  intros Hs Hi Hl Hf. pose proof (so_core _ Hs) as Hc. pose proof (mc_ids _ Hc) as Hids.
  destruct (ws_set_name_spec name w) as (Hid & _); [by eapply lookup_ws_ok|].
  unfold rename_all. rewrite (renamed_at name _ i w Hids Hi). set (m1 := Monitor.set_workspaces _ m).
  assert (Hn1 : NoDup (ws_id <$> Monitor.workspaces m1)) by (unfold m1; cbn; by rewrite list_fmap_insert, Hid, list_insert_id
    by (by rewrite list_lookup_fmap, Hi)).
  assert (Hi1 : Monitor.workspaces m1 !! i = Some (ws_set_name name w)) by (apply list_lookup_insert_eq; by eapply lookup_lt_Some).
  assert (Ht : Monitor.ewaf m && bool_decide (i = 0%nat) = false).
  { destruct (Monitor.ewaf m) eqn:E; [|done]. by rewrite (bool_decide_eq_false_2 _ (Hf eq_refl)). }
  assert (Hb : bool_decide (S i = length (Monitor.workspaces m1)) = false).
  { apply bool_decide_eq_false_2. unfold m1. cbn. by rewrite length_insert. }
  unfold Layout.ensure_empty_for. rewrite <-Hid, (has_head _ i _ Hn1 Hi1). change (Monitor.ewaf m1) with (Monitor.ewaf m). rewrite Ht.
  unfold mret, res_ret. cbn [mbind res_bind]. pose proof (has_last _ i _ Hn1 Hi1) as Hlast. rewrite Hb in Hlast. by rewrite Hlast.
Qed.
End monitor.

(** ** On the layout *)

(** A workspace that is the last one of its monitor, or the first one where there has to
    be an empty one, can be named if it is on the active monitor. *)
Definition ends_active id l : Prop :=
  match Layout.monitor_set l with
  | Layout.Normal mons _ a =>
      forall i m, mons !! i = Some m -> i <> a ->
        (forall w, last (Monitor.workspaces m) = Some w -> ws_id w <> id)
        /\ (Monitor.ewaf m = true -> forall w, head (Monitor.workspaces m) = Some w -> ws_id w <> id)
  | Layout.NoOutputs _ => True
  end.
Definition name_pre name r l : Prop :=
  Layout.find_workspace_by_name name l = None -> forall id, Layout.referenced r l = Ok (Some id) -> ends_active id l.

Lemma unplugged_named name id l wss :
  layout_ok l -> Layout.monitor_set l = Layout.NoOutputs wss ->
  layout_step [] [] l (Layout.set_monitor_set (Layout.NoOutputs (renamed name id <$> wss)) (Layout.id_counter l) l).
Proof.
  intros Hok Es. pose proof (lo_set l Hok) as Hn. rewrite Es in Hn. destruct Hn as [Hw Hn Hids Hf].
  assert (Hr : forall w, w ∈ wss -> ws_id (renamed name id w) = ws_id w /\ ws_windows (renamed name id w) = ws_windows w
    /\ ws_ok (renamed name id w) /\ has_windows_or_name (renamed name id w) = true).
  { intros w Hin. pose proof (proj1 (Forall_forall _ _) Hw w Hin) as Hwok. pose proof (proj1 (Forall_forall _ _) Hn w Hin) as Hwn. cbn in Hwn.
    unfold renamed. destruct (ws_id w =? id); [|done]. destruct (ws_set_name_spec name w Hwok) as (H1 & H2 & H3 & H4 & _).
    split_and!; [done..|]. unfold has_windows_or_name. by rewrite H2, orb_true_r. }
  assert (Hi : ws_id <$> (renamed name id <$> wss) = ws_id <$> wss).
  { rewrite <-list_fmap_compose. apply list_fmap_ext. intros i w Hi. apply Hr. by eapply list_elem_of_lookup_2. }
  apply set_step; [done|apply Hok|done|lia| |].
  - constructor; [| |by rewrite Hi|].
    + apply Forall_fmap, Forall_forall. intros w Hin. by apply Hr.
    + apply Forall_fmap, Forall_forall. intros w Hin. by apply Hr.
    + apply Forall_fmap, Forall_forall. intros w Hin. cbn. rewrite (proj1 (Hr w Hin)). exact (proj1 (Forall_forall _ _) Hf w Hin).
  - unfold Layout.workspaces. cbn. rewrite Es. clear -Hr. induction wss as [|w wss IH]; [done|]. cbn.
    rewrite (proj1 (proj2 (Hr w ltac:(left)))). by rewrite <-IH by (intros v Hv; apply Hr; by right).
Qed.

Lemma active_unchanged id l mons p a :
  Layout.monitor_set l = Layout.Normal mons p a -> (a < length mons)%nat ->
  (forall m, mons !! a = Some m -> Monitor.set_counter (Layout.id_counter l) m = m /\ Layout.ensure_empty_for id m = Ok m) ->
  (forall m, mons !! a = Some m -> Monitor.id_counter m = Layout.id_counter l) ->
  Layout.on_active_monitor (Layout.ensure_empty_for id) l = Ok (Layout.set_monitor_set (Layout.Normal mons p a) (Layout.id_counter l) l).
Proof.
  intros Es Ha H Hc. unfold Layout.on_active_monitor, Layout.on_monitor. rewrite Es. destruct (lookup_lt_is_Some_2 mons a Ha) as [m Hm].
  rewrite (index_ok _ _ _ Hm). cbn [mbind res_bind]. unfold Layout.lift_op. destruct (H m Hm) as [-> ->]. cbn.
  by rewrite list_insert_id, (Hc m Hm).
Qed.

Lemma set_set s1 s2 c1 c2 l : Layout.set_monitor_set s2 c2 (Layout.set_monitor_set s1 c1 l) = Layout.set_monitor_set s2 c2 l.
Proof. done. Qed.

Lemma normal_named name id l mons p a :
  layout_ok l -> roomy l -> Layout.monitor_set l = Layout.Normal mons p a -> ends_active id l ->
  (forall i m, mons !! i = Some m -> Monitor.set_counter (Layout.id_counter l) m = m) ->
  exists l', Layout.on_active_monitor (Layout.ensure_empty_for id) (Layout.set_monitor_set (Layout.Normal (rename_all name id <$> mons) p a) (Layout.id_counter l) l) = Ok l'
    /\ layout_step [] [] l l'.
Proof.
  intros Hok Hr Es Hends Hcnt. set (c := Layout.id_counter l). pose proof (lo_set l Hok) as Hn. rewrite Es in Hn. destruct Hn as [Hms _ _ Ha _].
  assert (Hcm : forall i m, mons !! i = Some m -> Monitor.id_counter m = c).
  { intros i m Hi. by rewrite <-(Hcnt i m Hi). }
  destruct (decide (id ∈ (mons ≫= mon_ids))) as [Hin|Hno].
  2:{ assert (He : rename_all name id <$> mons = mons).
      { rewrite <-(list_fmap_id mons) at 2. apply list_fmap_ext. intros i m Hi. apply rename_all_elsewhere. intros w Hw He. apply Hno.
        apply list_elem_of_bind. exists m. split; [rewrite <-He; by apply list_elem_of_fmap_2|by eapply list_elem_of_lookup_2]. }
      rewrite He. eexists. split.
      - eapply active_unchanged; [done|done| |intros m Hm; by eapply Hcm]. intros m Hm. split; [by eapply Hcnt|]. apply ensure_empty_elsewhere. intros w Hw E. apply Hno.
        apply list_elem_of_bind. exists m. split; [rewrite <-E; by apply list_elem_of_fmap_2|by eapply list_elem_of_lookup_2].
      - rewrite set_set. replace (Layout.set_monitor_set _ _ _) with l; [by apply step_same|]. unfold c. rewrite <-Es. by destruct l. }
  apply list_elem_of_bind in Hin as (mk & Hin & Hmk). apply list_elem_of_lookup in Hmk as [k Hk].
  apply list_elem_of_fmap in Hin as (w & -> & Hw). apply list_elem_of_lookup in Hw as [j Hj].
  destruct (normal_lookup l mons p a k mk Hok Hr Es Hk) as (Hsemi & Hcl & Hrm). cbv zeta in *. rewrite (Hcnt k mk Hk) in *.
  destruct (mons_delete _ _ _ _ Hms Hk) as (_ & Hdis & _).
  assert (Hother : forall i m v, mons !! i = Some m -> i <> k -> v ∈ Monitor.workspaces m -> ws_id v <> ws_id w).
  { intros i m v Hi Hne Hv He. apply (Hdis (ws_id w)); [apply list_elem_of_fmap_2; by eapply list_elem_of_lookup_2|].
    apply list_elem_of_bind. exists m. split; [rewrite <-He; by apply list_elem_of_fmap_2|by eapply delete_elem]. }
  assert (Hmap : rename_all name (ws_id w) <$> mons = <[k := rename_all name (ws_id w) mk]> mons).
  { apply list_eq. intros i. rewrite list_lookup_fmap. destruct (decide (i = k)) as [->|Hne].
    - rewrite Hk. symmetry. apply list_lookup_insert_eq. by eapply lookup_lt_Some.
    - rewrite list_lookup_insert_ne by done. destruct (mons !! i) as [m|] eqn:Hi; [|done]. cbn. f_equal. apply rename_all_elsewhere.
      intros v Hv. by eapply Hother. }
  rewrite Hmap. destruct (name_monitor (HM := home_of mk) name mk j w Hsemi) as (m' & He & Hst & Hev); [unfold room in *; lia|done|].
  destruct (layout_on_monitor l mons p a k mk (Layout.lift_op (fun m => Layout.ensure_empty_for (ws_id w) (rename_all name (ws_id w) m))) 2 [] tt m')
    as (_ & _ & Hl); [done|done|done|lia|done|..|apply Hok|].
  { rewrite (Hcnt k mk Hk). unfold Layout.lift_op. by rewrite He. }
  { by rewrite (Hcnt k mk Hk). }
  { by rewrite (Hcnt k mk Hk). }
  destruct (decide (k = a)) as [->|Hka].
  - eexists. split; [|apply (Hl a Ha)]. unfold Layout.on_active_monitor, Layout.on_monitor. cbn [Layout.monitor_set Layout.set_monitor_set].
    assert (Hat : <[a := rename_all name (ws_id w) mk]> mons !! a = Some (rename_all name (ws_id w) mk)) by by apply list_lookup_insert_eq.
    rewrite (index_ok _ _ _ Hat). cbn [mbind res_bind]. unfold Layout.lift_op.
    replace (Monitor.set_counter _ (rename_all name (ws_id w) mk)) with (rename_all name (ws_id w) mk);
      [|symmetry; exact (f_equal (rename_all name (ws_id w)) (Hcnt a mk Hk))].
    rewrite He. cbn. by rewrite list_insert_insert_eq.
  - unfold ends_active in Hends. rewrite Es in Hends. destruct (Hends k mk Hk Hka) as [Hlast Hhead].
    rewrite (name_inside (HM := home_of mk) name mk j w Hsemi Hj) in He.
    2:{ intros Hl'. apply (Hlast w); [|done]. rewrite last_lookup. replace (pred _) with j; [done|]. unfold Monitor.len in Hl'. lia. }
    2:{ intros Hew ->. apply (Hhead Hew w); [|done]. by rewrite head_lookup. }
    injection He as <-. eexists. split.
    + eapply active_unchanged; [done|by rewrite length_insert|..]; cbn [Layout.id_counter Layout.set_monitor_set].
      * intros m Hm. rewrite list_lookup_insert_ne in Hm by done. split; [by eapply Hcnt|]. apply ensure_empty_elsewhere. intros v Hv. by eapply Hother.
      * intros m Hm. rewrite list_lookup_insert_ne in Hm by done. by eapply Hcm.
    + rewrite set_set. specialize (Hl a Ha). cbn in Hl. by rewrite (Hcm k mk Hk) in Hl.
Qed.

Lemma set_name_spec name r l :
  layout_ok l -> roomy l -> name_pre name r l -> exists l', Layout.set_workspace_name name r l = Ok l' /\ layout_step [] [] l l'.
Proof.
  intros Hok Hr Hp. unfold Layout.set_workspace_name. unfold name_pre in Hp.
  destruct (Layout.find_workspace_by_name name l); [exists l; split; [done|by apply step_same]|]. specialize (Hp eq_refl).
  destruct (referenced_ok r l Hok) as [[id|] Hid]; rewrite Hid; cbn [mbind res_bind]; [|exists l; split; [done|by apply step_same]].
  specialize (Hp id Hid). change (fun w => mret (if ws_id w =? id then ws_set_name name w else w)) with (fun v => mret (M := res) (renamed name id v)).
  destruct (Layout.monitor_set l) as [mons p a|wss] eqn:Es.
  - destruct (each_workspace_spec (fun w => mret w) l Hok Hr) as (l0 & He0 & Hst0 & _ & Hc0).
    { intros w _ Hw. exists w. split; [done|]. by apply same_refl. }
    unfold Layout.each_workspace in *. rewrite Es in He0 |- *. rewrite each_monitor_pure. rewrite (each_monitor_pure (fun w => w)) in He0. cbn [mbind res_bind] in He0 |- *.
    injection He0 as He0. set (c := Layout.id_counter l) in *. set (mons0 := (fun m => Monitor.set_workspaces ((fun w => w) <$> Monitor.workspaces m) (Monitor.set_counter c m)) <$> mons) in *.
    assert (Es0 : Layout.monitor_set l0 = Layout.Normal mons0 p a) by by rewrite <-He0.
    assert (Hm0 : forall i m, mons0 !! i = Some m -> exists m1, mons !! i = Some m1 /\ m = Monitor.set_counter c m1).
    { intros i m Hi. unfold mons0 in Hi. rewrite list_lookup_fmap in Hi. destruct (mons !! i) as [m1|]; [|done]. injection Hi as <-.
      exists m1. split; [done|]. rewrite list_fmap_id. by destruct m1. }
    destruct (normal_named name id l0 mons0 p a) as (l' & He & Hst); [apply Hst0|unfold roomy; by rewrite Hc0|done| | |].
    + unfold ends_active in *. rewrite Es0. rewrite Es in Hp. intros i m Hi Hne. destruct (Hm0 i m Hi) as (m1 & Hi1 & ->). exact (Hp i m1 Hi1 Hne).
    + intros i m Hi. destruct (Hm0 i m Hi) as (m1 & _ & ->). by rewrite Hc0.
    + exists l'. split; [|by eapply layout_step_trans]. rewrite <-He, <-He0. cbn [Layout.id_counter Layout.set_monitor_set]. rewrite set_set. unfold mret, res_ret. cbn [mbind res_bind]. do 3 f_equal.
      unfold mons0. rewrite <-list_fmap_compose. apply list_fmap_ext. intros i m _. unfold rename_all. cbn. by rewrite list_fmap_id.
  - unfold Layout.each_workspace. rewrite Es, for_each_pure. cbn [mbind res_bind]. eexists. split; [done|]. by apply unplugged_named.
Qed.
End names.
