(* ===== verification/LayoutThms.v ===== *)
(** * What layouts promise

    The operations of the layout as one type, the layouts they reach, and the
    theorems about them: no operation panics, each keeps the invariant and no
    window is lost or duplicated; a monitor that comes back gets its workspaces
    back. *)

From stdpp Require Import base numbers option list strings gmap.
From Stdlib Require Import ZArith Lia.
From S2P Require Import Prelude.
From S2P Require Import F64.
From S2P Require Import Duration.
From S2P Require Import Clock.
From S2P Require Import Gesture.
From S2P Require Import Animation.
From S2P Require Import AnimTotal.
From S2P Require Import OutputName.
From S2P Require Import LayoutTypes.
From S2P Require Import Interface.
From S2P Require Import Monitor.
From S2P Require Import MonitorIds.
From S2P Require Import MonitorInv.
From S2P Require Import MonitorOps.
From S2P Require Import MonitorOps2.
From S2P Require Import MonitorThms.
From S2P Require Import Layout.
From S2P Require Import LayoutInv.
From S2P Require Import LayoutHotplug.
From S2P Require Import LayoutWindows.
From S2P Require Import LayoutMoves.
From S2P Require Import LayoutRest.
From S2P Require Import LayoutNames.

Local Open Scope Z_scope.

Section thms.
Context {WO : WorkspaceOps} {LM : Libm} {KF : Keyframe} {WL : WorkspaceLaws} {LO : LayoutOps} {LL : LayoutLaws}.
Context {SM : Smithay}.
Abbreviation Mon := Monitor.Monitor.
Abbreviation kept wss := (List.filter has_windows_or_name wss).
Implicit Types (l : Layout.Layout) (mons : list Mon) (m : Mon) (w : WS) (wss : list WS) (c : Z) (cv : ClockView) (now : Duration).

(** ** The operations as one type *)
Inductive LayoutOp :=
| OpAddOutput (o : Output) (lc : option LayoutPart)
| OpRemoveOutput (o : Output)
| OpAddWindow (x : Window) (target : Layout.AddWindowTarget) (width height : option PresetSize)
    (full_width floating : bool) (act : ActivateWindow)
| OpRemoveWindow (x : Win)
| OpActivateWindow (x : Win)
| OpActivateWindowWithoutRaising (x : Win)
| OpFocusOutput (o : Output)
| OpActive (op : Layout.ActiveOp)
| OpMoveToWorkspace (window : option Win) (idx : nat) (act : ActivateWindow)
| OpMoveToOutput (window : option Win) (o : Output) (target : option nat) (act : ActivateWindow)
| OpMoveColumnToOutput (o : Output) (target : option nat) (act : bool)
| OpMoveWorkspaceToIdx (reference : option (option Output * nat)) (idx : nat)
| OpMoveWorkspaceToOutput (o : Output)
| OpMoveWorkspaceToOutputById (old_idx : nat) (old_output : option Output) (new_output : Output)
| OpEnsureNamedWorkspace (config : WorkspaceConfig)
| OpSetWorkspaceName (name : string) (r : option Layout.WorkspaceReference)
| OpUnsetWorkspaceName (r : option Layout.WorkspaceReference)
| OpUnnameWorkspaceByRef (r : Layout.WorkspaceReference)
| OpLayoutGestureBegin (o : Output) (touchpad : bool)
| OpLayoutGestureUpdate (delta_y : f64) (ts : Duration) (touchpad : bool)
| OpLayoutGestureEnd (touchpad : option bool)
| OpToggleOverview
| OpOpenOverview
| OpCloseOverview
| OpToggleOverviewToWorkspace (idx : nat)
| OpOverviewGestureBegin
| OpOverviewGestureUpdate (delta_y : f64) (ts : Duration)
| OpOverviewGestureEnd
| OpDndEnd
| OpUpdateOptions (o : Options).

Definition gives {A} (r : res (A * Layout.Layout)) : res (list Win * Layout.Layout) := '(_, l) ← r; mret ([], l).
Definition changes (r : res Layout.Layout) : res (list Win * Layout.Layout) := l ← r; mret ([], l).

(** What the operation returns is left out but for the window taken away. *)
Definition run_layout_op cv now (op : LayoutOp) l : res (list Win * Layout.Layout) :=
  match op with
  | OpAddOutput o lc => changes (Layout.add_output cv o lc l)
  | OpRemoveOutput o => changes (Layout.remove_output cv o l)
  | OpAddWindow x t wd h fw fl a => gives (Layout.add_window cv x t wd h fw fl a l)
  | OpRemoveWindow x =>
      '(r, l') ← Layout.remove_window cv now x l;
      mret (match r with Some r => [tile_win (rt_tile r)] | None => [] end, l')
  | OpActivateWindow x => changes (Layout.activate_window cv x l)
  | OpActivateWindowWithoutRaising x => changes (Layout.activate_window_without_raising cv x l)
  | OpFocusOutput o => mret ([], Layout.focus_output o l)
  | OpActive op => changes (Layout.active_op cv op l)
  | OpMoveToWorkspace x i a => changes (Layout.move_to_workspace cv x i a l)
  | OpMoveToOutput x o t a => changes (Layout.move_to_output cv x o t a l)
  | OpMoveColumnToOutput o t a => changes (Layout.move_column_to_output cv o t a l)
  | OpMoveWorkspaceToIdx r i => changes (Layout.move_workspace_to_idx r i l)
  | OpMoveWorkspaceToOutput o => gives (Layout.move_workspace_to_output cv o l)
  | OpMoveWorkspaceToOutputById i o o' => gives (Layout.move_workspace_to_output_by_id cv i o o' l)
  | OpEnsureNamedWorkspace config => changes (Layout.ensure_named_workspace cv config l)
  | OpSetWorkspaceName name r => changes (Layout.set_workspace_name name r l)
  | OpUnsetWorkspaceName r => changes (Layout.unset_workspace_name r l)
  | OpUnnameWorkspaceByRef r => changes (Layout.unname_workspace_by_ref r l)
  | OpLayoutGestureBegin o tp => changes (Layout.workspace_switch_gesture_begin cv now o tp l)
  | OpLayoutGestureUpdate dy ts tp => gives (Layout.workspace_switch_gesture_update cv dy ts tp l)
  | OpLayoutGestureEnd tp => gives (Layout.workspace_switch_gesture_end cv now tp l)
  | OpToggleOverview => changes (Layout.toggle_overview cv l)
  | OpOpenOverview => gives (Layout.open_overview cv l)
  | OpCloseOverview => gives (Layout.close_overview cv l)
  | OpToggleOverviewToWorkspace i => changes (Layout.toggle_overview_to_workspace cv i l)
  | OpOverviewGestureBegin => changes (Layout.overview_gesture_begin cv l)
  | OpOverviewGestureUpdate dy ts => gives (Layout.overview_gesture_update cv dy ts l)
  | OpOverviewGestureEnd => gives (Layout.overview_gesture_end cv now l)
  | OpDndEnd => changes (Layout.dnd_scroll_gesture_end cv now l)
  | OpUpdateOptions o => changes (Layout.update_options cv o l)
  end.

Definition has_outputs l : Prop :=
  match Layout.monitor_set l with Layout.Normal _ _ _ => True | Layout.NoOutputs _ => False end.

(** The conditions of the operations: outputs and windows that are named exist, those
    that are added do not, options are as the configuration allows them; the workspace
    that gets a name is not at the end of a monitor that is not active ([name_pre]; what
    happens then is [set_name_elsewhere_breaks]). *)
Definition layout_op_pre cv (op : LayoutOp) l : Prop :=
  match op with
  | OpAddOutput o lc => fresh_output o l /\ part_ok lc
  | OpRemoveOutput o => has_outputs l /\ connected o l
  | OpAddWindow x t _ _ _ _ _ => add_target_ok t l /\ window_ok x /\ (window_id x ∉ Layout.windows l)
  | OpRemoveWindow x => remove_pre cv x l
  | OpMoveToWorkspace x _ _ => window_known x l
  | OpMoveToOutput x o _ _ => connected o l /\ window_known x l
  | OpMoveColumnToOutput o _ _ => connected o l
  | OpMoveWorkspaceToOutput o => connected o l
  | OpMoveWorkspaceToOutputById _ o o' => connected o' l /\ forall o0, o = Some o0 -> connected o0 l
  | OpLayoutGestureBegin _ _ => has_outputs l
  | OpLayoutGestureUpdate _ ts _ => ts_ok ts
  | OpOverviewGestureUpdate _ ts => ts_ok ts
  | OpToggleOverviewToWorkspace i => active_has i l
  | OpEnsureNamedWorkspace config => part_ok (wc_layout config)
  | OpSetWorkspaceName name r => name_pre name r l
  | OpUpdateOptions o => opts_ok o
  | _ => True
  end.

Definition layout_op_ins (op : LayoutOp) : list Win := match op with OpAddWindow x _ _ _ _ _ _ => [window_id x] | _ => [] end.

Lemma changes_ok (r : res Layout.Layout) l :
  (exists l', r = Ok l' /\ layout_step [] [] l l') ->
  exists outs l', changes r = Ok (outs, l') /\ layout_step [] outs l l'.
Proof. intros (l' & -> & Hs). by exists [], l'. Qed.

Lemma gives_ok {A} (r : res (A * Layout.Layout)) ins l :
  (exists a l', r = Ok (a, l') /\ layout_step ins [] l l') ->
  exists outs l', gives r = Ok (outs, l') /\ layout_step ins outs l l'.
Proof. intros (a & l' & -> & Hs). by exists [], l'. Qed.

Lemma connected_idx o l mons p a :
  connected o l -> Layout.monitor_set l = Layout.Normal mons p a -> exists i, Layout.monitor_idx o mons = Some i.
Proof. intros Hc Hs. unfold connected in Hc. rewrite Hs in Hc. by destruct Hc as [i Hi]; exists i. Qed.

Lemma add_window_ok cv x target width height fw fl act l :
  layout_ok l -> roomy l -> cv_ok cv -> add_target_ok target l -> window_ok x -> window_id x ∉ Layout.windows l ->
  exists o l', Layout.add_window cv x target width height fw fl act l = Ok (o, l') /\ layout_step [window_id x] [] l l'.
Proof.
  intros Hok Hr Hcv Ht Hno Hx. destruct (Layout.monitor_set l) as [mons p a|wss] eqn:Hs.
  - by eapply add_window_connected.
  - destruct (add_window_unplugged cv x target width height fw fl act l wss) as (l' & ? & ?); try done. by eexists _, l'.
Qed.

Lemma run_layout_op_ok cv now op l :
  layout_ok l -> roomy l -> cv_ok cv -> ts_ok now -> layout_op_pre cv op l ->
  exists outs l', run_layout_op cv now op l = Ok (outs, l') /\ layout_step (layout_op_ins op) outs l l'.
Proof.
  intros Hok Hr Hcv Hnow Hp. destruct op; cbn [run_layout_op layout_op_ins layout_op_pre] in *;
    try apply changes_ok; try apply gives_ok.
  - destruct Hp. by apply add_output_spec.
  - destruct Hp as [Hh Hc]. unfold has_outputs in Hh. destruct (Layout.monitor_set l) as [mons p a|wss] eqn:Hs; [|done].
    destruct (connected_idx _ _ _ _ _ Hc Hs) as [i Hi]. by eapply remove_output_spec.
  - destruct Hp as (? & ? & ?). by apply add_window_ok.
  - destruct (remove_window_spec cv now x l) as (r & l' & -> & Hrm); try done. cbn. unfold mret, res_ret.
    destruct r as [r|]; cbn in Hrm; [destruct Hrm as (He & _ & Hs); rewrite He|destruct Hrm as [_ Hs]]; by eexists _, l'.
  - by apply activate_window_ok.
  - by apply activate_window_without_raising_ok.
  - eexists _, _. split; [done|]. by apply focus_output_step.
  - by apply active_op_spec.
  - by apply move_to_workspace_spec.
  - destruct Hp. by apply move_to_output_spec.
  - by apply move_column_to_output_spec.
  - by eapply move_workspace_to_idx_spec.
  - by apply move_workspace_to_output_spec.
  - destruct Hp. by apply move_workspace_to_output_by_id_spec.
  - by apply ensure_named_spec.
  - by apply set_name_spec.
  - by apply unset_name_spec.
  - by apply unname_by_ref_spec.
  - unfold has_outputs in Hp. destruct (Layout.monitor_set l) as [mons p a|wss] eqn:Hs; [|done].
    by eapply gesture_begin_spec.
  - by apply gesture_update_spec.
  - by apply gesture_end_spec.
  - by apply toggle_overview_spec.
  - by apply open_overview_spec.
  - by apply close_overview_spec.
  - by apply toggle_to_workspace_spec.
  - by apply overview_gesture_begin_spec.
  - by apply overview_gesture_update_spec.
  - by apply overview_gesture_end_spec.
  - destruct (dnd_end_spec cv now l) as (l' & ? & ? & _); try done. by exists l'.
  - by apply update_options_spec.
Qed.

(** ** The first layout *)
Lemma config_workspaces_spec configs o c :
  0 <= c -> c + Z.of_nat (length configs) < 2 ^ 64 -> opts_ok o -> Forall (fun cfg => part_ok (wc_layout cfg)) configs ->
  let r := Layout.config_workspaces configs o c in
  unplugged_ok r.2 r.1 /\ r.2 = c + Z.of_nat (length configs) /\ (r.1 ≫= ws_windows) = []
  /\ forall x, x ∈ (ws_id <$> r.1) -> c <= x.
Proof.
  revert c. induction configs as [|cfg configs IH]; intros c Hc Hb Ho Hcf; cbn.
  - split_and!; [constructor; try constructor|lia|done|intros x Hx; by apply elem_of_nil in Hx].
  - cbn in Hb. rewrite Z.mod_small by lia. specialize (IH (c + 1)).
    destruct (Layout.config_workspaces configs o (c + 1)) as [wss c'] eqn:Hw. cbn in *.
    apply Forall_cons in Hcf as [Hcfg Hcf].
    destruct IH as ([Hwok Hn Hids Hf] & Hc' & Hwins & Hge); [lia|lia|done|done|].
    destruct (ws_new_no_outputs_spec c (Some cfg) o) as (Hid & Hname & Hnw & Hok0).
    split_and!.
    + constructor.
      * constructor; [by apply Hok0|done].
      * constructor; [|done]. unfold has_windows_or_name. by rewrite Hname, orb_true_r.
      * cbn. constructor; [|done]. rewrite Hid. intros Hx. specialize (Hge _ Hx). lia.
      * constructor; [rewrite Hid; lia|]. done.
    + lia.
    + by rewrite Hnw, Hwins.
    + intros x. rewrite Hid, elem_of_cons. intros [->|Hx]; [lia|]. specialize (Hge _ Hx). lia.
Qed.

Definition start_ok (configs : list WorkspaceConfig) (o : Options) (c : Z) : Prop :=
  0 <= c /\ c + Z.of_nat (length configs) < 2 ^ 51
  /\ opts_ok o /\ Forall (fun cfg => part_ok (wc_layout cfg)) configs.

Lemma start_layout_ok configs o c :
  start_ok configs o c ->
  layout_ok (Layout.with_options_and_workspaces configs o c)
  /\ Layout.windows (Layout.with_options_and_workspaces configs o c) = [].
Proof.
  intros (Hc & Hb & Ha & Ha'). unfold Layout.with_options_and_workspaces.
  pose proof (config_workspaces_spec configs o c) as Hw. cbv zeta in Hw.
  destruct (Layout.config_workspaces configs o c) as [wss c'] eqn:He. cbn in Hw.
  destruct Hw as (Hu & -> & Hwins & _); [lia|lia|done|done|].
  assert (Hw : Layout.windows (Layout.set_monitor_set (Layout.NoOutputs wss) (c + Z.of_nat (length configs))
    (Layout.with_options o (c + Z.of_nat (length configs)))) = []) by done.
  split; [|done]. constructor; try done; [cbn; lia|]. rewrite Hw. constructor.
Qed.

(** Layouts the compositor can get to. *)
Inductive layout_reachable : Layout.Layout -> Prop :=
| layout_start configs o c :
    start_ok configs o c -> layout_reachable (Layout.with_options_and_workspaces configs o c)
| layout_op cv now op l outs l' :
    layout_reachable l -> roomy l -> cv_ok cv -> ts_ok now -> layout_op_pre cv op l ->
    run_layout_op cv now op l = Ok (outs, l') -> layout_reachable l'.

Lemma layout_reachable_ok l : layout_reachable l -> layout_ok l.
Proof.
  induction 1 as [configs o c Hs|cv now op l outs l' _ IH Hr Hcv Hnow Hp He]; [by apply start_layout_ok|].
  destruct (run_layout_op_ok cv now op l) as (outs0 & l0 & He0 & [Hok _]); try done.
  rewrite He in He0. by injection He0 as _ <-.
Qed.

Lemma find_by_id id l : id ∈ (ws_id <$> Layout.workspaces l) -> Layout.find_workspace_by_ref (Layout.RefId id) l = Ok (Some id).
Proof.
  intros (w & -> & Hw)%list_elem_of_fmap. cbn.
  destruct (position_found (fun v => ws_id v =? ws_id w) (Layout.workspaces l) w) as (i & z & -> & Hz & He);
    [done|apply Z.eqb_refl|]. cbn. rewrite Hz. cbn. by apply Z.eqb_eq in He as ->.
Qed.

(** ** The theorems *)

(** Whatever the compositor does with its outputs, windows and workspaces,
    from the start on: the next operation does not panic under the conditions of
    [layout_op_pre]; the layout satisfies [layout_ok] afterwards (every monitor clean,
    with the empty workspaces it needs and its indices in range; ids unique and below the
    counter; primary and active indices valid; no two monitors matching each
    other's name), and exactly the windows added and removed come and go. *)
Theorem layout_ops_safe cv now op l :
  layout_reachable l -> roomy l -> cv_ok cv -> ts_ok now -> layout_op_pre cv op l ->
  exists outs l', run_layout_op cv now op l = Ok (outs, l') /\ layout_ok l'
    /\ layout_op_ins op ++ Layout.windows l ≡ₚ outs ++ Layout.windows l'.
Proof. intros Hl. intros. apply run_layout_op_ok; [by apply layout_reachable_ok|done..]. Qed.

(** C10: unplugging a monitor and plugging it back in while others remain brings
    its workspaces back to it, with their windows and names and in their order,
    and its active workspace is active again if it was kept; nothing else is
    lost.  For outputs whose workspaces are all their own and that own none of
    the others. *)
Theorem replug_restores cv o lc l mons p a i m :
  layout_reachable l -> Layout.id_counter l + 1 < 2 ^ 51 -> cv_ok cv -> part_ok lc -> Layout.monitor_set l = Layout.Normal mons p a ->
  Layout.monitor_idx o mons = Some i -> mons !! i = Some m -> delete i mons <> [] -> at_home o i mons m ->
  exists l1 l2 mons' p' a' m', Layout.remove_output cv o l = Ok l1 /\ Layout.add_output cv o lc l1 = Ok l2
    /\ Layout.monitor_set l2 = Layout.Normal (mons' ++ [m']) p' a' /\ Monitor.output m' = o
    /\ Forall2 moved_ws (kept (Monitor.workspaces m)) (kept (Monitor.workspaces m'))
    /\ (forall w, Monitor.workspaces m !! Monitor.active_workspace_idx m = Some w -> has_windows_or_name w = true ->
        exists w', Monitor.workspaces m' !! Monitor.active_workspace_idx m' = Some w' /\ ws_id w' = ws_id w)
    /\ layout_ok l2 /\ Layout.windows l ≡ₚ Layout.windows l2.
Proof. intros Hl. intros. eapply replug_spec; try done. by apply layout_reachable_ok. Qed.

(** C31: naming the last, empty workspace of a monitor that is not the active one
    leaves that monitor without its empty workspace at the end: the layout
    breaks its own invariant, since the workspaces a new name calls for are only
    ever added on the active monitor. *)
Theorem set_name_elsewhere_breaks name l mons p a i m w :
  layout_reachable l -> Layout.monitor_set l = Layout.Normal mons p a -> i <> a -> mons !! i = Some m ->
  last (Monitor.workspaces m) = Some w -> Layout.find_workspace_by_name name l = None ->
  exists l', Layout.set_workspace_name name (Some (Layout.RefId (ws_id w))) l = Ok l' /\ ~ layout_ok l'.
Proof.
  intros Hreach Hs Hne Hi Hlast Hname. pose proof (layout_reachable_ok _ Hreach) as Hok.
  pose proof (lo_set l Hok) as Hn. rewrite Hs in Hn. destruct Hn as [Hms _ _ Ha _].
  pose proof (last_Some_elem_of _ _ Hlast) as Hw.
  destruct (lookup_lt_is_Some_2 mons a Ha) as [ma Hma].
  unfold Layout.set_workspace_name. rewrite Hname. cbn [Layout.referenced].
  rewrite find_by_id; cycle 1.
  { unfold Layout.workspaces. rewrite Hs. apply list_elem_of_fmap_2, list_elem_of_bind. exists m.
    split; [done|by eapply list_elem_of_lookup_2]. }
  cbn. unfold Layout.each_workspace. rewrite Hs.
  change (fun w0 => mret (if ws_id w0 =? ws_id w then ws_set_name name w0 else w0)) with (fun v => mret (M := res) (renamed name (ws_id w) v)).
  rewrite each_monitor_pure. cbn. unfold Layout.on_active_monitor, Layout.on_monitor. cbn.
  set (g := fun m0 => Monitor.set_workspaces _ _).
  rewrite (index_ok a (g ma) (g <$> mons)) by (by rewrite list_lookup_fmap, Hma). cbn.
  unfold Layout.lift_op. rewrite ensure_empty_elsewhere; cycle 1.
  { cbn. intros v (u & -> & Hu)%list_elem_of_fmap.
    pose proof (mc_ws _ (so_core _ (Forall_lookup_1 _ _ _ _ (ms_semi _ _ Hms) Hma))) as HF. cbn in HF.
    rewrite renamed_id by (by eapply Forall_forall). intros He.
    destruct (mons_delete _ _ _ _ Hms Hi) as (_ & Hdis & _).
    apply (Hdis (ws_id w)); [by apply list_elem_of_fmap_2|]. apply list_elem_of_bind. exists ma.
    split; [rewrite <- He; by apply list_elem_of_fmap_2|by eapply delete_elem]. }
  eexists. split; [done|]. intros Hok'. pose proof (lo_set _ Hok') as Hn. cbn in Hn. destruct Hn as [Hms' _ _ _ _].
  assert (Hi' : <[a := Monitor.set_counter (Layout.id_counter l) (g ma)]> (g <$> mons) !! i = Some (g m)).
  { rewrite list_lookup_insert_ne by done. by rewrite list_lookup_fmap, Hi. }
  destruct (so_last _ (Forall_lookup_1 _ _ _ _ (ms_semi _ _ Hms') Hi')) as (v & Hv & Hsp & _).
  cbn in Hv. rewrite fmap_last, Hlast in Hv. injection Hv as <-.
  unfold is_empty, has_windows_or_name, renamed in Hsp. rewrite Z.eqb_refl in Hsp.
  pose proof (mc_ws _ (so_core _ (Forall_lookup_1 _ _ _ _ (ms_semi _ _ Hms) Hi))) as HF. cbn in HF.
  destruct (ws_set_name_spec name w) as (_ & Hnm & _); [by eapply Forall_forall|].
  rewrite Hnm, orb_true_r in Hsp. done.
Qed.
End thms.

(** ** Concrete layouts *)
#[export] Instance simple_layout_ops : LayoutOps := {|
  PresetSize := Z; SizeChange := Z; size_change_from := fun s => s;
  output_scale := fun _ => f1;
  output_size := fun _ => (of_Z 1920, of_Z 1080);
  output_working_area := fun _ => ((f0, f0), (of_Z 1920, of_Z 1080));
  tile_stop_move_animations := fun t => t;
  tile_update_config := fun _ _ t => t;
  ws_new_with_config := fun i o c _ => {| sw_id := i; sw_name := Some (wc_name c); sw_orig := output_id o; sw_wins := [] |};
  ws_new_with_config_no_outputs := fun i c _ =>
    {| sw_id := i; sw_name := wc_name <$> c; sw_orig := default EmptyString (c ≫= wc_open_on_output); sw_wins := [] |};
  ws_set_name := fun n w => {| sw_id := sw_id w; sw_name := Some n; sw_orig := sw_orig w; sw_wins := sw_wins w |};
  ws_resolve_scrolling_width := fun _ _ _ => Proportion f1;
  ws_set_window_height := fun _ _ _ w => Ok w;
  ws_activate_window := fun _ x w => Ok (has_window x w, w);
  ws_activate_window_without_raising := fun _ x w => Ok (has_window x w, w);
  ws_release_tile := fun _ _ w => Ok w;
  ws_dnd_scroll_gesture_end := fun _ w => Ok w
|}.

#[export] Instance simple_layout_laws `{!Libm, !Keyframe} : @LayoutLaws simple_ops _ _ simple_laws simple_layout_ops.
Proof.
  assert (Hsame : forall w : SimpleWs, NoDup (sw_wins w) ->
    ws_becomes (fun v => NoDup (sw_wins v)) w (sw_wins w) w) by (intros; by split_and!).
  refine {| ws_gesture_ok := fun _ _ => True |}; cbn; try done; try (intros; by eexists; eauto); intros; split_and!; try done; intros; apply NoDup_nil_2.
Defined.

#[local] Existing Instance libm0.
#[local] Existing Instance keyframe0.
#[local] Existing Instance smithay0.

(** The layout after an operation at a fixed time. *)
Definition after (op : LayoutOp) (l : Layout.Layout) : Layout.Layout :=
  match run_layout_op (cv_at 5) 5 op l with Ok (_, l') => l' | _ => l end.

Lemma ts_ok5 : ts_ok 5.
Proof. by vm_compute. Qed.

Lemma after_reachable op l : layout_reachable l -> roomy l -> layout_op_pre (cv_at 5) op l -> layout_reachable (after op l).
Proof.
  intros Hl Hr Hp. destruct (run_layout_op_ok (cv_at 5) 5 op l) as (outs & l' & He & _);
    [by apply layout_reachable_ok|done|apply cv_at_ok|apply ts_ok5|done|].
  unfold after. rewrite He. by eapply layout_op; [| | apply cv_at_ok|apply ts_ok5| |].
Qed.

(** Two monitors, the first one active, with a window on each. *)
Definition add_at (x : Z) (o : string) : LayoutOp := OpAddWindow x (Layout.AddOutput (o : Output)) None None false false No.
Definition start0 : Layout.Layout := Layout.with_options_and_workspaces [] (options0 false) 1.
Definition layout1 : Layout.Layout := after (OpAddOutput ("DP-1"%string : Output) None) start0.
Definition layout2 : Layout.Layout := after (OpAddOutput ("DP-2"%string : Output) None) layout1.
Definition layout3 : Layout.Layout := after (add_at 10 "DP-1") layout2.
Definition layout4 : Layout.Layout := after (add_at 20 "DP-2") layout3.

(** Preconditions by evaluation. *)
Definition fresh_outputb {WO : WorkspaceOps} (o : Output) (l : Layout.Layout) : bool :=
  match Layout.monitor_set l with
  | Layout.Normal mons _ _ =>
      forallb (fun m => negb (output_matches (output_id (Monitor.output m)) o)
                        && negb (output_matches (output_id o) (Monitor.output m))) mons
  | Layout.NoOutputs _ => true
  end.

Lemma fresh_outputb_ok {WO : WorkspaceOps} (o : Output) (l : Layout.Layout) : fresh_outputb o l = true -> fresh_output o l.
Proof.
  unfold fresh_outputb, fresh_output. destruct (Layout.monitor_set l) as [mons p a|wss]; [|done].
  rewrite forallb_forall. intros H m Hm%list_elem_of_In. specialize (H m Hm).
  by apply andb_prop in H as [?%negb_true_iff ?%negb_true_iff].
Qed.

Definition connectedb (o : Output) (l : Layout.Layout) : bool :=
  match Layout.monitor_set l with
  | Layout.Normal mons _ _ => match Layout.monitor_idx o mons with Some _ => true | None => false end
  | Layout.NoOutputs _ => false
  end.

Lemma add_pre x o l :
  connectedb o l = true -> bool_decide (x ∈ Layout.windows l) = false -> layout_op_pre (cv_at 5) (add_at x o) l.
Proof.
  intros Hc Hx%bool_decide_eq_false. split; [|done]. unfold connectedb in Hc. cbn.
  destruct (Layout.monitor_set l) as [mons p a|wss]; [|done]. by destruct (Layout.monitor_idx o mons) eqn:E; [eexists|].
Qed.

Lemma start0_reachable : layout_reachable start0.
Proof.
  apply layout_start. split_and!; [lia|by vm_compute|apply mon_options0_ok|constructor].
Qed.

Lemma layout2_reachable : layout_reachable layout2.
Proof.
  apply after_reachable; [apply after_reachable; [apply start0_reachable|vm_compute; reflexivity|done]|vm_compute; reflexivity|].
  split; [|done]. apply fresh_outputb_ok. vm_compute. reflexivity.
Qed.

Lemma layout4_reachable : layout_reachable layout4.
Proof.
  apply after_reachable; [apply after_reachable; [apply layout2_reachable|vm_compute; reflexivity|]|vm_compute; reflexivity|];
    apply add_pre; vm_compute; reflexivity.
Qed.

Definition monitors_of (l : Layout.Layout) : list Monitor.Monitor :=
  match Layout.monitor_set l with Layout.Normal mons _ _ => mons | Layout.NoOutputs _ => [] end.
Definition mons4 : list Monitor.Monitor := monitors_of layout4.
Definition dp2 : Monitor.Monitor := default (mon0 false) (mons4 !! 1%nat).

Definition at_homeb (o : Output) (i : nat) (mons : list Monitor.Monitor) (m : Monitor.Monitor) : bool :=
  forallb (fun w => bool_decide (ws_original_output w = output_id o)) (List.filter has_windows_or_name (Monitor.workspaces m))
  && forallb (fun m' => forallb (fun w => negb (output_matches (ws_original_output w) o))
       (List.filter has_windows_or_name (Monitor.workspaces m'))) (delete i mons).

Lemma at_homeb_ok o i mons m : at_homeb o i mons m = true -> at_home o i mons m.
Proof.
  intros [H1 H2]%andb_prop. rewrite forallb_forall in H1, H2. split.
  - intros w Hw%list_elem_of_In. by apply H1, bool_decide_eq_true in Hw.
  - intros m' w Hm%list_elem_of_In Hw%list_elem_of_In. apply H2 in Hm. rewrite forallb_forall in Hm.
    by apply Hm, negb_true_iff in Hw.
Qed.

Definition dp2_name : Output := "DP-2"%string.

Lemma layout_ops_safe_witness :
  exists outs l', run_layout_op (cv_at 5) 5 (OpRemoveWindow (WO := simple_ops) 20) layout4 = Ok (outs, l') /\ layout_ok l'
    /\ [] ++ Layout.windows layout4 ≡ₚ outs ++ Layout.windows l'.
Proof.
  apply (layout_ops_safe (cv_at 5) 5 (OpRemoveWindow (WO := simple_ops) 20) layout4);
    [apply layout4_reachable|vm_compute; reflexivity|apply cv_at_ok|apply ts_ok5|exact I].
Defined.

Lemma replug_restores_witness :
  exists l1 l2 mons' p' a' m', Layout.remove_output (cv_at 5) dp2_name layout4 = Ok l1
    /\ Layout.add_output (cv_at 5) dp2_name None l1 = Ok l2
    /\ Layout.monitor_set l2 = Layout.Normal (mons' ++ [m']) p' a' /\ Monitor.output m' = dp2_name
    /\ Forall2 moved_ws (List.filter has_windows_or_name (Monitor.workspaces dp2))
         (List.filter has_windows_or_name (Monitor.workspaces m'))
    /\ (forall w, Monitor.workspaces dp2 !! Monitor.active_workspace_idx dp2 = Some w -> has_windows_or_name w = true ->
        exists w', Monitor.workspaces m' !! Monitor.active_workspace_idx m' = Some w' /\ ws_id w' = ws_id w)
    /\ layout_ok l2 /\ Layout.windows layout4 ≡ₚ Layout.windows l2.
Proof.
  apply (replug_restores (cv_at 5) dp2_name None layout4 mons4 0 0 1 dp2);
    [apply layout4_reachable|vm_compute; reflexivity|apply cv_at_ok|done|vm_compute; reflexivity|vm_compute; reflexivity
    |vm_compute; reflexivity|vm_compute; discriminate|apply at_homeb_ok; vm_compute; reflexivity].
Defined.

Definition last2 : SimpleWs := default (empty0 0) (last (Monitor.workspaces dp2)).

Lemma set_name_elsewhere_breaks_witness :
  exists l', Layout.set_workspace_name "chat" (Some (Layout.RefId (sw_id last2))) layout4 = Ok l' /\ ~ layout_ok l'.
Proof.
  apply (set_name_elsewhere_breaks "chat" layout4 mons4 0 0 1 dp2 last2);
    [apply layout4_reachable|vm_compute; reflexivity|lia|vm_compute; reflexivity|vm_compute; reflexivity|vm_compute; reflexivity].
Defined.
