(* ===== verification/LayoutReal.v ===== *)
(** * Layouts over real workspaces

    The workspaces of [Workspace], with their scrolling and floating layouts, are
    workspaces as monitors and layouts use them: they implement [WorkspaceOps] and
    [LayoutOps] and satisfy the laws the theorems on monitors and layouts rely on.
    The parents of windows and the state of the outputs are those of one moment:
    [kin] and [st] are parameters. *)

From stdpp Require Import base numbers option list strings gmap.
From Stdlib Require Import ZArith Lia SpecFloat.
From S2P Require Import Prelude.
From S2P Require Import Runs.
From S2P Require Import F64.
From S2P Require Import Duration.
From S2P Require Import Clock.
From S2P Require Import Gesture.
From S2P Require Import Animation.
From S2P Require Import AnimTotal.
From S2P Require Import OutputName.
From S2P Require Import LayoutTypes.
From S2P Require Import Tile.
From S2P Require Import TileInv.
From S2P Require Import Floating.
From S2P Require Import FloatingStack.
From S2P Require Import FloatingInv.
From S2P Require Import FloatingOps.
From S2P Require Import FloatingThms.
From S2P Require Import Column.
From S2P Require Import ColumnInv.
From S2P Require Import Scrolling.
From S2P Require Import ScrollingSpec.
From S2P Require Import ScrollingInv.
From S2P Require Import ScrollingTiles.
From S2P Require Import ScrollingViews.
From S2P Require Import ScrollingThms.
From S2P Require Import Workspace.
From S2P Require Import WorkspaceInv.
From S2P Require Import WorkspaceSpec.
From S2P Require Import WorkspaceOps.
From S2P Require Import WorkspaceTiling.
From S2P Require Import WorkspaceRoutes.
From S2P Require Import WorkspaceThms.
From S2P Require Import WorkspaceLabels.
From S2P Require Import Interface.
From S2P Require Import Monitor.
From S2P Require Import MonitorInv.
From S2P Require Import MonitorThms.
From S2P Require Import Layout.
From S2P Require Import LayoutInv.
From S2P Require Import LayoutWindows.
From S2P Require Import LayoutThms.

Abbreviation real_ok := WorkspaceInv.ws_ok.

Section ops.
Context {LE : LayoutElement} {GE : Geometry} {LM : Libm} {KF : Keyframe} {OU : Outputs}.
Implicit Types (cv : ClockView) (w : Workspace.Workspace) (t : Tile.Tile) (x : Id).
Context (kin : Id -> Id -> bool) (st : WOutput -> OutputState).

(** A tile that was held back while its move was starting goes to its place. *)
Definition put_back cv t : res Tile.Tile :=
  Tile.animate_move_from cv (Tile.interactive_move_offset t) (Tile.set_interactive_move_offset (f0, f0) t).
Definition update_tile_of x (f : Tile.Tile -> res Tile.Tile) w : res Workspace.Workspace :=
  if existsb (Column.has_id x) (ScrollingSpace.tiles (Workspace.scrolling w)) then Workspace.update_scrolling_tile x f w
  else
    match FloatingSpace.idx_of x (Workspace.floating w) with
    | Some i => Workspace.on_floating (FloatingSpace.update_tile i f) w
    | None => mret w
    end.
Definition release_tile cv x : Workspace.Workspace -> res Workspace.Workspace := update_tile_of x (put_back cv).

Definition real_ops : WorkspaceOps := {|
  WS := Workspace.Workspace; Interface.Tile := Tile.Tile; Interface.Column := Column.Column; Win := Id; Window := W; window_id := win_id;
  Output := WOutput; output_name := woutput_name; output_eq_dec := woutput_eq_dec;
  tile_win := Tile.id; column_wins := ids;
  ws_new := fun i o opts => Workspace.new st o (opt_layout opts) i;
  ws_id := Workspace.id; ws_name := Workspace.name;
  ws_windows := fun w => Tile.id <$> Workspace.tiles w;
  ws_active_window := Workspace.active_window;
  ws_floating_is_active := Workspace.is_active_floating;
  ws_original_output := Workspace.original_output;
  ws_columns := fun w => (fun c => length (Column.tiles c)) <$> ScrollingSpace.columns (Workspace.scrolling w);
  ws_unname := Workspace.unname;
  ws_set_original_output := fun o => Workspace.set_original_output (output_id_new o);
  ws_set_output := fun cv => Workspace.set_current_output cv st;
  ws_update_config := fun cv opts => Workspace.update_config cv (opt_layout opts);
  ws_advance_animations := Workspace.advance_animations;
  ws_make_tile := Workspace.make_tile;
  ws_add_tile := fun cv => Workspace.add_tile cv kin;
  ws_add_tile_to_column := Workspace.add_tile_to_column;
  ws_add_column := Workspace.add_column;
  ws_remove_tile := fun cv x => Workspace.remove_tile cv x new_transaction;
  ws_remove_active_tile := fun cv => Workspace.remove_active_tile cv new_transaction;
  ws_remove_active_column := Workspace.remove_active_column;
  ws_move_down := Workspace.move_down; ws_move_up := Workspace.move_up;
  ws_focus_down := fun cv => Workspace.focus_down cv kin; ws_focus_up := fun cv => Workspace.focus_up cv kin
|}.

Definition real_layout_ops : @LayoutOps real_ops := {|
  Layout.PresetSize := Tile.PresetSize; Layout.SizeChange := Column.SizeChange; Layout.size_change_from := Column.size_change_from;
  output_scale := fun o : @Output real_ops => fractional_scale (current_scale (st o));
  Layout.output_size := fun o : @Output real_ops => Workspace.output_size (st o);
  output_working_area := fun o : @Output real_ops => non_exclusive_zone (st o);
  tile_stop_move_animations := Tile.stop_move_animations : @Interface.Tile real_ops -> @Interface.Tile real_ops;
  tile_update_config := fun (o : @Output real_ops) opts (t : @Interface.Tile real_ops) =>
    let sc := fractional_scale (current_scale (st o)) in
    Tile.update_config (Workspace.output_size (st o)) sc (adjusted_for_scale sc (opt_layout opts)) t;
  ws_new_with_config := fun i (o : @Output real_ops) c opts => Workspace.new_with_config st o (Some c) (opt_layout opts) i;
  ws_new_with_config_no_outputs := fun i c opts => Workspace.new_with_config_no_outputs c (opt_layout opts) i;
  ws_set_name := fun n => Workspace.set_name (Some n);
  ws_resolve_scrolling_width := Workspace.resolve_scrolling_width;
  ws_set_window_height := fun _ x => Workspace.set_window_height (Some x);
  ws_activate_window := fun cv => Workspace.activate_window cv kin;
  ws_activate_window_without_raising := fun cv => Workspace.activate_window_without_raising cv;
  ws_release_tile := release_tile;
  ws_dnd_scroll_gesture_end := Workspace.dnd_scroll_gesture_end
|}.
End ops.

Section laws.
Context {LE : LayoutElement} {LEL : LayoutElementLaws} {GE : Geometry} {GL : GeometryLaws} {LM : Libm} {KF : Keyframe} {OU : Outputs}.
Implicit Types (cv : ClockView) (w : Workspace.Workspace) (t : Tile.Tile) (x : Id).
Context (kin : Id -> Id -> bool) (Hac : acyclic kin) (st : WOutput -> OutputState) (Hst : outputs_ok st).
Abbreviation wins w := (Tile.id <$> Workspace.tiles w).
Abbreviation run cv := (w_run kin cv st).

(** [w'] has the windows [l] and the same label as [w]. *)
Definition turned w (l : list Id) w' : Prop := label w' = label w /\ wins w' ≡ₚ l /\ real_ok kin w'.

Lemma turned_becomes w l w' : turned w l w' -> @ws_becomes (real_ops kin st) (real_ok kin) w l w'.
Proof. by intros ([= ? ? ?] & ? & ?). Qed.

Lemma op_runs cv op w :
  cv_ok cv -> real_ok kin w -> w_pre cv st op w ->
  exists w', run cv op w = Ok w' /\ real_ok kin w' /\ w_came op ++ wins w ≡ₚ w_gone op (view w) ++ wins w'.
Proof.
  intros Hcv Hw Hp. apply runs_ok. finish run_ws_op_both; [done..|]. intros w' _ (H1 & _ & _ & H2). by rewrite <-!tiles_windows in H2.
Qed.

(** An operation that keeps the windows and the label. *)
Lemma plain_turns cv op w (m : res Workspace.Workspace) :
  cv_ok cv -> real_ok kin w -> w_pre cv st op w -> run cv op w = m -> keeps m w -> w_came op = [] -> w_gone op (view w) = [] ->
  exists w', m = Ok w' /\ turned w (wins w) w'.
Proof.
  intros Hcv Hw Hp <- Hk Hc Hg. destruct (op_runs cv op w) as (w' & He & Hok & Hl); try done. exists w'. split; [done|].
  rewrite Hc, Hg in Hl. split; [by apply Hk|]. by split.
Qed.
Lemma pair_turns {A} cv op w (m : res (A * Workspace.Workspace)) :
  cv_ok cv -> real_ok kin w -> w_pre cv st op w -> run cv op w = Workspace.second m -> keeps_snd m w -> w_came op = [] ->
  w_gone op (view w) = [] -> exists a w', m = Ok (a, w') /\ turned w (wins w) w'.
Proof.
  intros Hcv Hw Hp He Hk Hc Hg. destruct (op_runs cv op w) as (w' & Hr & Hok & Hl); try done. rewrite He in Hr.
  destruct m as [[a w1]|] eqn:Em; [|done]. injection Hr as ->. exists a, w'. split; [done|]. rewrite Hc, Hg in Hl.
  split; [|by split]. exact (Hk (a, w') eq_refl).
Qed.

(** [w] with another label is as good. *)
Lemma relabel_ok w w' :
  real_ok kin w -> Workspace.scrolling w' = Workspace.scrolling w -> Workspace.floating w' = Workspace.floating w ->
  Workspace.floating_is_active w' = Workspace.floating_is_active w -> Workspace.scale w' = Workspace.scale w ->
  Workspace.view_size w' = Workspace.view_size w -> Workspace.working_area w' = Workspace.working_area w ->
  Workspace.base_options w' = Workspace.base_options w -> Workspace.options w' = Workspace.options w ->
  Workspace.layout_config w' = Workspace.layout_config w -> real_ok kin w'.
Proof.
  intros [[Ha Hs Hf He Hfe] Hv] E1 E2 E3 E4 E5 E6 E7 E8 E9. split.
  - constructor; [destruct Ha; constructor; by rewrite ?E4, ?E7, ?E8, ?E9|..]; unfold scrolling_env, floating_env;
      by rewrite ?E1, ?E2, ?E4, ?E5, ?E6, ?E8.
  - unfold view. by rewrite E1, E2, E3.
Qed.
Lemma unname_ok w : real_ok kin w -> real_ok kin (Workspace.unname w).
Proof. intros Hw. by apply (relabel_ok w). Qed.
Lemma set_name_ok n w : real_ok kin w -> real_ok kin (Workspace.set_name n w).
Proof. intros Hw. by apply (relabel_ok w). Qed.
Lemma set_original_ok o w : real_ok kin w -> real_ok kin (Workspace.set_original_output o w).
Proof. intros Hw. by apply (relabel_ok w). Qed.

Lemma new_workspace_ok o (config : option WorkspaceConfig) base i :
  options_ok base -> part_ok (config ≫= wc_layout) -> real_ok kin (Workspace.new_with_config st o config base i).
Proof. intros Hb Hp. apply make_ok; [apply Hst|done|done]. Qed.
Lemma new_no_outputs_ok (config : option WorkspaceConfig) base i :
  options_ok base -> part_ok (config ≫= wc_layout) -> real_ok kin (Workspace.new_with_config_no_outputs config base i).
Proof. intros Hb Hp. apply make_ok; [by vm_compute|done|done]. Qed.
(** ** Setting an output and options *)
Lemma set_output_turns cv o w :
  cv_ok cv -> real_ok kin w ->
  exists w', Workspace.set_current_output cv st o w = Ok w' /\ Workspace.id w' = Workspace.id w /\ Workspace.name w' = Workspace.name w
    /\ wins w' ≡ₚ wins w /\ real_ok kin w'
    /\ (Workspace.original_output w' = Workspace.original_output w
        \/ exists o', o = Some o' /\ output_id_matches (Workspace.original_output w) o' = true
            /\ Workspace.original_output w' = output_id_new o').
Proof.
  intros Hcv Hw. destruct (op_runs cv (WSetOutput o) w) as (w' & He & Hok & Hl); try done.
  exists w'. split; [done|]. destruct (set_current_output_label cv st o w w' He) as (H1 & H2 & H3). by split_and!.
Qed.
Lemma update_config_turns cv base w :
  cv_ok cv -> options_ok base -> real_ok kin w -> exists w', Workspace.update_config cv base w = Ok w' /\ turned w (wins w) w'.
Proof. intros Hcv Hb Hw. by apply (plain_turns cv (WUpdateConfig base)); [..|apply update_config_keeps| |]. Qed.
Lemma advance_turns cv w : cv_ok cv -> real_ok kin w -> exists w', Workspace.advance_animations cv w = Ok w' /\ turned w (wins w) w'.
Proof. intros Hcv Hw. by apply (plain_turns cv WAdvanceAnimations); [..|apply advance_keeps| |]. Qed.

(** ** Focus and moves *)
Lemma active_pre cv (f : FloatOp) (op : ScrollOp) w :
  f_pre f (Workspace.floating w) -> ScrollingThms.op_pre cv op (Workspace.scrolling w) -> r_pre cv (r_active f op (view w)) w.
Proof. unfold r_active. by destruct (v_floats (view w)). Qed.

Lemma move_down_turns cv w : cv_ok cv -> real_ok kin w -> exists b w', Workspace.move_down cv w = Ok (b, w') /\ turned w (wins w) w'.
Proof.
  intros Hcv Hw. apply (pair_turns cv WMoveDown); [done..|by apply active_pre|done|apply move_down_labels|done|done].
Qed.
Lemma move_up_turns cv w : cv_ok cv -> real_ok kin w -> exists b w', Workspace.move_up cv w = Ok (b, w') /\ turned w (wins w) w'.
Proof.
  intros Hcv Hw. apply (pair_turns cv WMoveUp); [done..|by apply active_pre|done|apply move_up_labels|done|done].
Qed.
Lemma focus_down_turns cv w : cv_ok cv -> real_ok kin w -> exists b w', Workspace.focus_down cv kin w = Ok (b, w') /\ turned w (wins w) w'.
Proof.
  intros Hcv Hw. apply (pair_turns cv WFocusDown); [done..|by apply active_pre|done|apply focus_down_keeps|done|done].
Qed.
Lemma focus_up_turns cv w : cv_ok cv -> real_ok kin w -> exists b w', Workspace.focus_up cv kin w = Ok (b, w') /\ turned w (wins w) w'.
Proof.
  intros Hcv Hw. apply (pair_turns cv WFocusUp); [done..|by apply active_pre|done|apply focus_up_keeps|done|done].
Qed.

Lemma height_turns cv x ch w :
  cv_ok cv -> real_ok kin w -> x ∈ wins w -> exists w', Workspace.set_window_height (Some x) ch w = Ok w' /\ turned w (wins w) w'.
Proof.
  intros Hcv Hw Hx. apply (plain_turns cv (WSetWindowHeight (Some x) ch)); [done..| |done|apply set_window_height_keeps|done|done].
  rewrite tiles_windows in Hx. unfold w_pre. cbn [route]. unfold r_window, v_on_floating. case_bool_decide as Hf.
  - intros y [= <-]. exact Hf.
  - apply elem_of_app in Hx as [Hx|?]; [|done]. intros y [= <-]. exact Hx.
Qed.

Lemma activate_turns cv x w :
  cv_ok cv -> real_ok kin w ->
  exists w', Workspace.activate_window cv kin x w = Ok (bool_decide (x ∈ wins w), w') /\ turned w (wins w) w'.
Proof.
  intros Hcv Hw. destruct (pair_turns cv (WActivate x) w (Workspace.activate_window cv kin x w)) as (b & w' & He & Ht); try done;
    [apply activate_window_keeps|]. exists w'. split; [|done].
  destruct (proj1 (runs_ok _ _) (activate_window_to kin Hac cv Hcv x w (proj1 Hw))) as ([b' w1] & He' & -> & _).
  rewrite He in He'. injection He' as -> ->. by rewrite tiles_windows, He.
Qed.
Lemma activate_without_raising_turns cv x w :
  cv_ok cv -> real_ok kin w ->
  exists w', Workspace.activate_window_without_raising cv x w = Ok (bool_decide (x ∈ wins w), w') /\ turned w (wins w) w'.
Proof.
  intros Hcv Hw. destruct (pair_turns cv (WActivateWithoutRaising x) w (Workspace.activate_window_without_raising cv x w))
    as (b & w' & He & Ht); try done; [apply activate_without_raising_keeps|]. exists w'. split; [|done].
  destruct (proj1 (runs_ok _ _) (activate_without_raising_to kin cv Hcv x w (proj1 Hw))) as ([b' w1] & He' & -> & _).
  rewrite He in He'. injection He' as -> ->. by rewrite tiles_windows, He.
Qed.

(** ** Tiles and columns coming and going *)
Lemma add_tile_turns cv t target a width full fl w :
  cv_ok cv -> real_ok kin w -> tile_incoming t -> WorkspaceOps.add_target_ok target w -> (Tile.id t ∉ wins w) ->
  exists w', Workspace.add_tile cv kin t target a width full fl w = Ok w' /\ turned w (Tile.id t :: wins w) w'.
Proof.
  intros Hcv Hw Ht Htg Hx. destruct (op_runs cv (WAddTile t target a width full fl) w) as (w' & He & Hok & Hl); try done.
  { by rewrite tiles_windows in Hx. }
  exists w'. split; [done|]. split; [by apply (add_tile_keeps cv kin t target a width full fl)|]. by split.
Qed.
Lemma add_tile_to_column_turns cv i j t a w c :
  cv_ok cv -> real_ok kin w -> tile_incoming t -> (Tile.id t ∉ wins w) ->
  ScrollingSpace.columns (Workspace.scrolling w) !! i = Some c -> (forall k, j = Some k -> k <= length (Column.tiles c)) ->
  exists w', Workspace.add_tile_to_column cv i j t a w = Ok w' /\ turned w (Tile.id t :: wins w) w'.
Proof.
  intros Hcv Hw Ht Hx Hc Hj. destruct (op_runs cv (WAddTileToColumn i j t a) w) as (w' & He & Hok & Hl); try done.
  { rewrite tiles_windows in Hx. split_and!; [done..|by exists c]. }
  exists w'. split; [done|]. split; [by apply (add_tile_to_column_keeps cv i j t a)|]. by split.
Qed.
Definition column_ready (c : Column.Column) : Prop := exists E, env_ok E /\ col_ok E c.
Lemma add_column_turns cv c a w :
  cv_ok cv -> real_ok kin w -> column_ready c -> NoDup (ids c ++ wins w) ->
  exists w', Workspace.add_column cv c a w = Ok w' /\ turned w (ids c ++ wins w) w'.
Proof.
  intros Hcv Hw Hc Hnd. destruct (op_runs cv (WAddColumn c a) w) as (w' & He & Hok & Hl); try done.
  { rewrite tiles_windows in Hnd. apply NoDup_app in Hnd as (? & ? & _). by split_and!. }
  exists w'. split; [done|]. split; [by apply (add_column_keeps cv c a)|]. by split.
Qed.

Lemma remove_tile_turns cv x w :
  cv_ok cv -> real_ok kin w -> x ∈ wins w ->
  exists r w', Workspace.remove_tile cv x new_transaction w = Ok (r, w') /\ tile_incoming (rt_tile r) /\ Tile.id (rt_tile r) = x
    /\ wins w ≡ₚ x :: wins w' /\ turned w (wins w') w'.
Proof.
  intros Hcv Hw Hx. assert (Hxv : x ∈ v_windows (view w)) by by rewrite tiles_windows in Hx.
  destruct (proj1 (runs_ok _ _) (remove_tile_runs_to kin cv Hcv x new_transaction w (proj1 Hw) Hxv)) as ([r w'] & He & [Hr Hid] & _).
  destruct (op_runs cv (WRemoveTile x new_transaction) w) as (w1 & He1 & Hok & Hl); try done.
  cbn [w_run] in He1. rewrite He in He1. injection He1 as <-. exists r, w'. split_and!; try done.
  split; [exact (remove_tile_keeps _ _ _ _ _ He)|by split].
Qed.
Lemma remove_active_tile_turns cv w :
  cv_ok cv -> real_ok kin w ->
  exists o, Workspace.remove_active_tile cv new_transaction w = Ok o /\
    match o with
    | Some (r, w') => tile_incoming (rt_tile r) /\ wins w ≡ₚ Tile.id (rt_tile r) :: wins w' /\ turned w (wins w') w'
    | None => True
    end.
Proof.
  intros Hcv Hw.
  destruct (proj1 (runs_ok _ _) (remove_active_tile_runs_to kin cv Hcv new_transaction w (proj1 Hw))) as ([[r w']|] & He & Ho); [|by exists None].
  destruct Ho as (Hr & Hf & _). destruct (op_runs cv (WRemoveActiveTile new_transaction) w) as (w1 & He1 & Hok & Hl); try done.
  cbn [w_run] in He1. unfold w_removal in He1. rewrite He in He1. injection He1 as <-. cbn [w_gone] in Hl. rewrite Hf in Hl.
  exists (Some (r, w')). split_and!; try done. split; [exact (remove_active_tile_keeps _ _ _ _ He)|by split].
Qed.
Lemma remove_active_column_turns cv w :
  cv_ok cv -> real_ok kin w ->
  exists o, Workspace.remove_active_column cv w = Ok o /\
    match o with
    | Some (c, w') => column_ready c /\ wins w ≡ₚ ids c ++ wins w' /\ ids c <> [] /\ turned w (wins w') w'
    | None => True
    end.
Proof.
  intros Hcv Hw. pose proof Hw as [Hb _].
  destruct (proj1 (runs_ok _ _) (remove_active_column_runs_to kin cv Hcv w (proj1 Hw))) as ([[c w']|] & He & Ho); [|by exists None].
  destruct Ho as (Hc & Hcol & _). destruct (op_runs cv WRemoveActiveColumn w) as (w1 & He1 & Hok & Hl); try done.
  cbn [w_run] in He1. unfold w_removal in He1. rewrite He in He1. injection He1 as <-. cbn [w_gone] in Hl.
  assert (Hf : v_floats (view w) = false).
  { unfold Workspace.remove_active_column in He. rewrite is_active_view in He. destruct (v_floats (view w)); [|done]. by injection He. }
  rewrite Hf, Hcol in Hl. exists (Some (c, w')). split_and!; try done.
  - exists (env (Workspace.scrolling w)). split; [apply Hb|done].
  - destruct Hc as [Hm _]. apply col_nonempty in Hm. unfold ids. by destruct (Column.tiles c).
  - split; [exact (remove_active_column_keeps _ _ _ He)|by split].
Qed.

(** ** Dragged tiles *)
Lemma unseen_put_back cv : cv_ok cv -> unseen (put_back cv).
Proof.
  intros Hcv o vs sc t Ho Ht. unfold put_back. set (t1 := Tile.set_interactive_move_offset _ t).
  assert (Ht1 : kept o vs sc t t1) by (destruct Ht; split; [by constructor|done]).
  finish (unseen_move cv Hcv (Tile.interactive_move_offset t)); [exact Ho|apply Ht1|]. intros t2 _ [H1 H2].
  split; [done|]. etransitivity; [apply Ht1|done].
Qed.

Lemma update_tile_keeps x f w : keeps (update_tile_of x f w) w.
Proof.
  unfold update_tile_of. destruct (existsb _ _); [apply on_scrolling_keeps|].
  destruct (FloatingSpace.idx_of _ _); [apply on_floating_keeps|by apply if_ok_ret].
Qed.
Lemma update_tile_turns x f w :
  real_ok kin w -> x ∈ wins w -> unseen f -> exists w', update_tile_of x f w = Ok w' /\ turned w (wins w) w'.
Proof.
  intros Hw Hx Hf. assert (Hr : runs (update_tile_of x f w) (wto kin w (eq (view w)))).
  { unfold update_tile_of. rewrite existsb_id, scrolling_windows. case_bool_decide as Hs.
    - apply update_scrolling_tile_to; [apply Hw|done|exact Hf].
    - destruct (FloatingSpace.idx_of x (Workspace.floating w)) as [i|] eqn:Ei; [|returns; by apply wto_refl; [apply Hw|]].
      destruct (idx_of_Some _ _ _ Ei) as (t & Ht & _). pose proof (wo_floating _ _ (proj1 Hw)) as Hfo.
      apply (on_floating_to kin _ w (eq (v_pile (view w)))); [apply Hw| |intros p <-; by destruct (view w)].
      pose proof (lookup_floats _ i t (proj1 Hfo) Ht) as Hfl.
      finish update_tile_to; [exact Hfo|exact Ht| |by intros s _ (H1 & H2 & H3)].
      finish Hf; [apply (fo_options _ (proj1 Hfo))|apply Hfl|]. intros t2 _ H.
      by apply (kept_alike (fenv (Workspace.floating w))). }
  destruct (proj1 (runs_ok _ _) Hr) as (w' & He & Hb & _ & Hv). exists w'. split; [done|].
  split; [by apply (update_tile_keeps x f)|]. split; [by rewrite !tiles_windows, <-Hv|]. split; [done|]. rewrite <-Hv. apply Hw.
Qed.
Lemma release_turns cv x w :
  cv_ok cv -> real_ok kin w -> x ∈ wins w -> exists w', release_tile cv x w = Ok w' /\ turned w (wins w) w'.
Proof. intros Hcv Hw Hx. by apply update_tile_turns, unseen_put_back. Qed.

Lemma incoming_stop t : tile_incoming t -> tile_incoming (Tile.stop_move_animations t).
Proof.
  intros (o & vs & sc & Ho & Ht & Hsy). exists o, vs, sc. pose proof (stop_move_kept o vs sc _ Ht) as [H1 H2].
  split_and!; [done|done|by eapply synced_kept].
Qed.
Lemma incoming_config vs sc o t :
  TileInv.options_ok o -> F64Sign.positive_finite sc = true -> tile_incoming t -> tile_incoming (Tile.update_config vs sc o t).
Proof. intros Ho Hsc (o1 & vs1 & sc1 & _ & Ht & Hsy). exists o, vs, sc. split_and!; [done|by eapply update_config_ok|done]. Qed.
Lemma incoming_made win w : real_ok kin w -> win_ok win -> tile_incoming (Workspace.make_tile win w).
Proof.
  intros Hw Hwin. pose proof (around_options _ _ (proj1 Hw)) as Ho.
  exists (Workspace.options w), (Workspace.view_size w), (fractional_scale (Workspace.scale w)). split; [done|]. by apply new_tile_ok.
Qed.

(** What ending a gesture takes: the clock and the snapping points are numbers. *)
Definition gesture_ok cv w : Prop := time_ok (cv_now_unadjusted cv) /\ gesture_finite cv (Workspace.scrolling w).
Lemma dnd_end_turns cv w :
  cv_ok cv -> real_ok kin w -> gesture_ok cv w -> exists w', Workspace.dnd_scroll_gesture_end cv w = Ok w' /\ turned w (wins w) w'.
Proof. intros Hcv Hw Hg. by apply (plain_turns cv WDndEnd); [..|apply dnd_end_labels| |]. Qed.

(** ** The interface *)
Lemma real_id_stable w w' : @ws_op (real_ops kin st) w w' -> Workspace.id w' = Workspace.id w.
Proof.
  assert (Hk : forall m, keeps m w -> m = Ok w' -> Workspace.id w' = Workspace.id w) by (intros m Hm He; by injection (Hm _ He)).
  assert (Hs : forall A (m : res (A * Workspace.Workspace)) a, keeps_snd m w -> m = Ok (a, w') -> Workspace.id w' = Workspace.id w)
    by (intros A m a Hm He; by injection (Hm _ He)).
  assert (Ho : forall A (m : res (option (A * Workspace.Workspace))) a, keeps_opt m w -> m = Ok (Some (a, w')) -> Workspace.id w' = Workspace.id w)
    by (intros A m a Hm He; by injection (Hm _ He)).
  intros Hop. destruct Hop as [|o|cv o w' He|cv opts w' He|cv w' He|cv t tg a cw fw fl w' He|cv c i t a w' He|cv c a w' He|cv x r w' He
    |cv r w' He|cv c w' He|cv b w' He|cv b w' He|cv b w' He|cv b w' He]; try (cbn in He); cbn; try done.
  - by apply (set_current_output_label cv st o w w' He).
  - by eapply Hk; [apply update_config_keeps|].
  - by eapply Hk; [apply advance_keeps|].
  - by eapply Hk; [apply add_tile_keeps|].
  - by eapply Hk; [apply add_tile_to_column_keeps|].
  - by eapply Hk; [apply add_column_keeps|].
  - by eapply Hs; [apply remove_tile_keeps|].
  - by eapply Ho; [apply remove_active_tile_keeps|].
  - by eapply Ho; [apply remove_active_column_keeps|].
  - by eapply Hs; [apply move_down_labels|].
  - by eapply Hs; [apply move_up_labels|].
  - by eapply Hs; [apply focus_down_keeps|].
  - by eapply Hs; [apply focus_up_keeps|].
Qed.

Lemma target_ok_real target w : @target_ok (real_ops kin st) target w -> WorkspaceOps.add_target_ok target w.
Proof.
  destruct target as [|i|x]; [done| |]; cbn; intros H.
  - rewrite length_fmap in H. unfold grid. cbn. by rewrite length_fmap.
  - by rewrite tiles_windows in H.
Qed.
Lemma columns_have_windows w i n : real_ok kin w -> @ws_columns (real_ops kin st) w !! i = Some n -> wins w <> [].
Proof.
  intros [Hb _]. cbn. rewrite list_lookup_fmap. intros (c & Hc & _)%fmap_Some Hw. rewrite tiles_windows in Hw.
  apply app_eq_nil in Hw as [Hg _]. apply (grid_no_windows w (wo_scrolling _ _ Hb)) in Hg.
  change (v_grid (view w)) with (grid (Workspace.scrolling w)) in Hg. rewrite grid_empty in Hg. unfold ScrollingSpace.is_empty in Hg.
  by destruct (ScrollingSpace.columns (Workspace.scrolling w)).
Qed.

#[local] Hint Resolve turned_becomes : core.

Definition real_laws : @WorkspaceLaws (real_ops kin st) LM KF.
Proof.
  refine (@Build_WorkspaceLaws (real_ops kin st) LM KF (real_ok kin) win_ok tile_incoming column_ready real_id_stable
    _ _ _ _ columns_have_windows _ _ _ _ _ _ _ _ _ _ _ _ _ _ _); cbn -[Workspace.tiles].
  - intros i o opts. split_and!; [done..| |done]. intros Ho. by apply new_workspace_ok; [apply Ho|].
  - done.
  - intros x w Hw Hx. by apply incoming_made.
  - intros w Hw. destruct (proj1 (runs_ok _ _) (active_window_runs kin w (proj1 Hw))) as (o & He & _). by exists o.
  - intros w Hw. split_and!; try done. by apply unname_ok.
  - intros o w Hw. split; [|done]. do 3 (split; [done|]). by apply set_original_ok.
  - intros cv o w Hcv Hw. destruct (set_output_turns cv o w) as (w' & He & H1 & H2 & H3 & H4 & H5); try done.
    exists w'. split; [done|]. by split.
  - intros cv o w Hcv Ho Hw. destruct (update_config_turns cv (opt_layout o) w) as (w' & ? & ?); [done|apply Ho|done|]. eauto.
  - intros cv w Hcv Hw. destruct (advance_turns cv w) as (w' & ? & ?); eauto.
  - intros cv t tg a width full fl w Hcv Hw Ht Htg Hx.
    destruct (add_tile_turns cv t tg a width full fl w) as (w' & ? & ?); eauto using target_ok_real.
  - intros cv i j t a w n Hcv Hw Ht Hx Hc Hn. rewrite list_lookup_fmap in Hc. apply fmap_Some in Hc as (c & Hc & ->).
    destruct (add_tile_to_column_turns cv i j t a w c) as (w' & ? & ?); eauto. by intros k ->.
  - intros cv c a w Hcv Hw Hc Hnd _. destruct (add_column_turns cv c a w) as (w' & ? & ?); eauto.
  - intros cv x w Hcv Hw Hx. destruct (remove_tile_turns cv x w) as (r & w' & ? & ? & ? & ? & ?); [done..|].
    exists r, w', (wins w'). split_and!; auto; by apply turned_becomes.
  - intros cv w Hcv Hw. destruct (remove_active_tile_turns cv w) as (o & He & Ho); [done..|]. exists o. split; [done|].
    destruct o as [[r w']|]; [|done]. destruct Ho as (? & ? & ?). eauto 6.
  - intros cv w Hcv Hw. destruct (remove_active_column_turns cv w) as (o & He & Ho); [done..|]. exists o. split; [done|].
    destruct o as [[c w']|]; [|done]. destruct Ho as (? & ? & ? & ?). split; [done|]. exists (wins w'). auto.
  - intros cv w Hcv Hw. destruct (move_down_turns cv w) as (b & w' & ? & ?); eauto.
  - intros cv w Hcv Hw. destruct (move_up_turns cv w) as (b & w' & ? & ?); eauto.
  - intros cv w Hcv Hw. destruct (focus_down_turns cv w) as (b & w' & ? & ?); eauto.
  - intros cv w Hcv Hw. destruct (focus_up_turns cv w) as (b & w' & ? & ?); eauto.
Defined.

Definition real_layout_laws : @LayoutLaws (real_ops kin st) LM KF real_laws (real_layout_ops kin st).
Proof.
  refine (@Build_LayoutLaws (real_ops kin st) LM KF real_laws (real_layout_ops kin st) _ _ _ _ _ _ _ _ _ _ _ gesture_ok _);
    cbn -[Workspace.tiles].
  - done.
  - intros t. apply incoming_stop.
  - done.
  - intros o opts t Ho Ht. apply incoming_config; [|apply Hst|done]. apply WorkspaceInv.adjusted_ok; [apply Hst|apply Ho].
  - intros i o c opts. split_and!; try done. intros Ho Hp. by apply new_workspace_ok; [apply Ho|].
  - intros i c opts. split_and!; try done. intros Ho Hp. by apply new_no_outputs_ok; [apply Ho|].
  - intros n w Hw. split_and!; try done. by apply set_name_ok.
  - intros cv x h w Hcv Hw Hx. destruct (height_turns cv x h w) as (w' & ? & ?); eauto.
  - intros cv x w Hcv Hw. destruct (activate_turns cv x w) as (w' & ? & ?); eauto.
  - intros cv x w Hcv Hw. destruct (activate_without_raising_turns cv x w) as (w' & ? & ?); eauto.
  - intros cv x w Hcv Hw Hx. destruct (release_turns cv x w) as (w' & ? & ?); eauto.
  - intros cv w Hcv Hw Hg. destruct (dnd_end_turns cv w) as (w' & ? & ?); eauto.
Defined.
End laws.
