(* ===== verification/LayoutActions.v ===== *)
(** * Actions on the workspaces of a layout

    The functions of [Layout] (src/layout/mod.rs) that pass an action on to a
    workspace: the active one, or the one that has a given window, unless the
    window is being moved around; moving or focusing across outputs; gestures that
    scroll a workspace.  Over the workspaces of [LayoutReal].  What a function
    returns is kept where its callers use it.

    Windowed fullscreen is a pretence between the window and its client: what it has to
    do with the layout, [set_fullscreen], is in [LayoutFrame]. *)

From stdpp Require Import base numbers option list strings gmap.
From Stdlib Require Import ZArith Lia SpecFloat.
From S2P Require Import Prelude.
From S2P Require Import F64.
From S2P Require Import Duration.
From S2P Require Import Clock.
From S2P Require Import Animation.
From S2P Require Import OutputName.
From S2P Require Import LayoutTypes.
From S2P Require Import Tile.
From S2P Require Import Floating.
From S2P Require Import Column.
From S2P Require Import Scrolling.
From S2P Require Import Workspace.
From S2P Require Import WorkspaceRoutes.
From S2P Require Import Interface.
From S2P Require Import Monitor.
From S2P Require Import Layout.
From S2P Require Import LayoutReal.

Module Actions.
Section ops.
Context {LE : LayoutElement} {GE : Geometry} {LM : Libm} {KF : Keyframe} {OU : Outputs} {SM : Smithay}.
Context (kin : Id -> Id -> bool) (st : WOutput -> OutputState).
Abbreviation WOps := (real_ops kin st).
#[local] Hint Extern 0 WorkspaceOps => exact (real_ops kin st) : typeclass_instances.
#[local] Hint Extern 0 LayoutOps => exact (real_layout_ops kin st) : typeclass_instances.
Abbreviation Lay := Layout.Layout.
Abbreviation Mon := Monitor.Monitor.
Implicit Types (cv : ClockView) (w : Workspace.Workspace) (t : Tile.Tile) (x : Id) (o : WOutput) (l : Lay) (m : Mon).

(** ** The workspace an action is for *)
Inductive Place := OnMonitor (i j : nat) | Unplugged (j : nat).

Definition update_at {A} (j : nat) (f : Workspace.Workspace -> res (A * Workspace.Workspace)) (wss : list Workspace.Workspace)
    : res (A * list Workspace.Workspace) :=
  w ← index wss j; '(a, w) ← f w; mret (a, <[j := w]> wss).
Definition on_place {A} (p : Place) (f : Workspace.Workspace -> res (A * Workspace.Workspace)) l : res (A * Lay) :=
  match p, Layout.monitor_set l with
  | OnMonitor i j, Layout.Normal mons primary active =>
      '(a, mons, c) ← Layout.on_monitor i (fun m => '(a, wss) ← update_at j f (Monitor.workspaces m); mret (a, Monitor.set_workspaces wss m))
                        mons (Layout.id_counter l);
      mret (a, Layout.set_monitor_set (Layout.Normal mons primary active) c l)
  | Unplugged j, Layout.NoOutputs wss =>
      '(a, wss) ← update_at j f wss; mret (a, Layout.set_monitor_set (Layout.NoOutputs wss) (Layout.id_counter l) l)
  | _, _ => Panic
  end.

(** The active workspace and the first workspace with the window. *)
Definition active_place l : res (option Place) :=
  match Layout.monitor_set l with
  | Layout.Normal mons _ active => m ← index mons active; mret (Some (OnMonitor active (Monitor.active_workspace_idx m)))
  | Layout.NoOutputs _ => mret None
  end.
Definition has_window x w : bool := Interface.has_window x w.
Definition window_place x l : option Place :=
  match Layout.monitor_set l with
  | Layout.Normal mons _ _ =>
      i ← Layout.monitor_with_window x mons;
      m ← mons !! i;
      j ← position (has_window x) (Monitor.workspaces m); Some (OnMonitor i j)
  | Layout.NoOutputs wss => j ← position (has_window x) wss; Some (Unplugged j)
  end.
Definition is_moving x l : bool := Layout.is_moving x l.

Definition plainly (f : Workspace.Workspace -> res Workspace.Workspace) w : res (unit * Workspace.Workspace) := w ← f w; mret (tt, w).
Definition on_active_returns {A} (f : Workspace.Workspace -> res (A * Workspace.Workspace)) l : res (option A * Lay) :=
  p ← active_place l;
  match p with
  | Some p => '(a, l) ← on_place p f l; mret (Some a, l)
  | None => mret (None, l)
  end.
Definition drop {A} (r : res (A * Lay)) : res Lay := '(_, l) ← r; mret l.
Definition on_active (f : Workspace.Workspace -> res Workspace.Workspace) l : res Lay := drop (on_active_returns (plainly f) l).
(** For a window, or the active one; nothing is done to a window being moved. *)
Definition on_target (window : option Id) (f : Workspace.Workspace -> res Workspace.Workspace) l : res Lay :=
  if Layout.guards_move window l then mret l
  else
    match window with
    | Some x => p ← unwrap (window_place x l); drop (on_place p (plainly f) l)
    | None => on_active f l
    end.
(** For a window that may be gone. *)
Definition on_found_any x (f : Workspace.Workspace -> res (bool * Workspace.Workspace)) l : res (bool * Lay) :=
  match window_place x l with Some p => on_place p f l | None => mret (false, l) end.
Definition on_found_returns x (f : Workspace.Workspace -> res (bool * Workspace.Workspace)) l : res (bool * Lay) :=
  if is_moving x l then mret (false, l) else on_found_any x f l.
Definition on_found x (f : Workspace.Workspace -> res Workspace.Workspace) : Lay -> res Lay :=
  fun l => drop (on_found_returns x (fun w => w ← f w; mret (true, w)) l).

(** ** Actions of one workspace *)
Definition move_left cv : Lay -> res Lay := on_active (fun w => Workspace.second (Workspace.move_left cv w)).
Definition move_right cv : Lay -> res Lay := on_active (fun w => Workspace.second (Workspace.move_right cv w)).
Definition move_column_to_first cv : Lay -> res Lay := on_active (fun w => Workspace.move_column_to_first cv w).
Definition move_column_to_last cv : Lay -> res Lay := on_active (fun w => Workspace.move_column_to_last cv w).
Definition move_column_to_index cv (i : nat) : Lay -> res Lay := on_active (fun w => Workspace.move_column_to_index cv i w).
Definition move_down cv : Lay -> res Lay := on_active (fun w => Workspace.second (Workspace.move_down cv w)).
Definition move_up cv : Lay -> res Lay := on_active (fun w => Workspace.second (Workspace.move_up cv w)).
Definition consume_or_expel_window_left cv (window : option Id) : Lay -> res Lay :=
  on_target window (fun w => Workspace.consume_or_expel_window_left cv window w).
Definition consume_or_expel_window_right cv (window : option Id) : Lay -> res Lay :=
  on_target window (fun w => Workspace.consume_or_expel_window_right cv window w).
Definition focus_left cv : Lay -> res Lay := on_active (fun w => Workspace.second (Workspace.focus_left cv kin w)).
Definition focus_right cv : Lay -> res Lay := on_active (fun w => Workspace.second (Workspace.focus_right cv kin w)).
Definition focus_column_first cv : Lay -> res Lay := on_active (fun w => Workspace.focus_column_first cv kin w).
Definition focus_column_last cv : Lay -> res Lay := on_active (fun w => Workspace.focus_column_last cv kin w).
Definition focus_column_right_or_first cv : Lay -> res Lay := on_active (fun w => Workspace.focus_column_right_or_first cv kin w).
Definition focus_column_left_or_last cv : Lay -> res Lay := on_active (fun w => Workspace.focus_column_left_or_last cv kin w).
Definition focus_column cv (i : nat) : Lay -> res Lay := on_active (fun w => Workspace.focus_column cv i w).
Definition focus_window_in_column (i : Z) : Lay -> res Lay := on_active (fun w => Workspace.focus_window_in_column i w).
Definition focus_down cv : Lay -> res Lay := on_active (fun w => Workspace.second (Workspace.focus_down cv kin w)).
Definition focus_up cv : Lay -> res Lay := on_active (fun w => Workspace.second (Workspace.focus_up cv kin w)).
Definition focus_down_or_left cv : Lay -> res Lay := on_active (fun w => Workspace.focus_down_or_left cv kin w).
Definition focus_down_or_right cv : Lay -> res Lay := on_active (fun w => Workspace.focus_down_or_right cv kin w).
Definition focus_up_or_left cv : Lay -> res Lay := on_active (fun w => Workspace.focus_up_or_left cv kin w).
Definition focus_up_or_right cv : Lay -> res Lay := on_active (fun w => Workspace.focus_up_or_right cv kin w).
Definition focus_window_top : Lay -> res Lay := on_active (fun w => Workspace.focus_window_top kin w).
Definition focus_window_bottom : Lay -> res Lay := on_active (fun w => Workspace.focus_window_bottom kin w).
Definition focus_window_down_or_top cv : Lay -> res Lay := on_active (fun w => Workspace.focus_window_down_or_top cv kin w).
Definition focus_window_up_or_bottom cv : Lay -> res Lay := on_active (fun w => Workspace.focus_window_up_or_bottom cv kin w).
Definition consume_into_column cv : Lay -> res Lay := on_active (fun w => Workspace.consume_into_column cv w).
Definition expel_from_column cv : Lay -> res Lay := on_active (fun w => Workspace.expel_from_column cv w).
Definition swap_window_in_direction cv (d : ScrollDirection) : Lay -> res Lay := on_active (fun w => Workspace.swap_window_in_direction cv d w).
Definition toggle_column_tabbed_display cv : Lay -> res Lay := on_active (fun w => Workspace.toggle_column_tabbed_display cv w).
Definition set_column_display cv (d : ColumnDisplay) : Lay -> res Lay := on_active (fun w => Workspace.set_column_display cv d w).
Definition center_column cv : Lay -> res Lay := on_active (fun w => Workspace.center_column cv w).
Definition center_window cv (window : option Id) : Lay -> res Lay := on_target window (fun w => Workspace.center_window cv window w).
Definition center_visible_columns cv : Lay -> res Lay := on_active (fun w => Workspace.center_visible_columns cv w).
Definition toggle_width (forwards : bool) : Lay -> res Lay := on_active (fun w => Workspace.toggle_width forwards w).
Definition toggle_window_width (window : option Id) (forwards : bool) : Lay -> res Lay :=
  on_target window (fun w => Workspace.toggle_window_width window forwards w).
Definition toggle_window_height (window : option Id) (forwards : bool) : Lay -> res Lay :=
  on_target window (fun w => Workspace.toggle_window_height window forwards w).
Definition toggle_full_width : Lay -> res Lay := on_active (fun w => Workspace.toggle_full_width w).
Definition set_column_width (change : Column.SizeChange) : Lay -> res Lay := on_active (fun w => Workspace.set_column_width change w).
Definition set_window_width (window : option Id) (change : Column.SizeChange) : Lay -> res Lay :=
  on_target window (fun w => Workspace.set_window_width window change w).
Definition set_window_height (window : option Id) (change : Column.SizeChange) : Lay -> res Lay :=
  on_target window (fun w => Workspace.set_window_height window change w).
Definition reset_window_height (window : option Id) : Lay -> res Lay := on_target window (fun w => Workspace.reset_window_height window w).
Definition expand_column_to_available_width cv : Lay -> res Lay := on_active (fun w => Workspace.expand_column_to_available_width cv w).
Definition focus_floating : Lay -> res Lay := on_active (fun w => mret (Workspace.focus_floating w)).
Definition focus_tiling : Lay -> res Lay := on_active (fun w => mret (Workspace.focus_tiling w)).
Definition switch_focus_floating_tiling : Lay -> res Lay := on_active (fun w => mret (Workspace.switch_focus_floating_tiling w)).
Definition move_floating_window cv (window : option Id) (x y : PositionChange) (animate : bool) : Lay -> res Lay :=
  on_target window (fun w => Workspace.move_floating_window cv window x y animate w).
Definition toggle_fullscreen cv x : Lay -> res Lay := on_found x (fun w => Workspace.toggle_fullscreen cv kin x w).
Definition set_maximized cv x (b : bool) : Lay -> res Lay := on_found x (fun w => Workspace.set_maximized cv kin x b w).
Definition toggle_maximized cv x : Lay -> res Lay := on_found x (fun w => Workspace.toggle_maximized cv kin x w).
Definition interactive_resize_begin cv x (edges : ResizeEdge) : Lay -> res (bool * Lay) :=
  on_found_any x (fun w => Workspace.interactive_resize_begin cv x edges w).
Definition interactive_resize_update x (delta : Point) : Lay -> res (bool * Lay) :=
  on_found_returns x (fun w => Workspace.interactive_resize_update x delta w).
Definition interactive_resize_end cv x : Lay -> res Lay := on_found x (fun w => Workspace.interactive_resize_end cv (Some x) w).

(** [WsOp] of an action and the workspace it is for. *)
Inductive Target := Active | Target_ (window : option Id) | Found (x : Id).
Inductive Action :=
| AMoveLeft | AMoveRight | AMoveColumnToFirst | AMoveColumnToLast | AMoveColumnToIndex (i : nat) | AMoveDown | AMoveUp | AConsumeOrExpelWindowLeft
(window : option Id) | AConsumeOrExpelWindowRight (window : option Id) | AFocusLeft | AFocusRight | AFocusColumnFirst | AFocusColumnLast |
AFocusColumnRightOrFirst | AFocusColumnLeftOrLast | AFocusColumn (i : nat) | AFocusWindowInColumn (i : Z) | AFocusDown | AFocusUp | AFocusDownOrLeft |
AFocusDownOrRight | AFocusUpOrLeft | AFocusUpOrRight | AFocusWindowTop | AFocusWindowBottom | AFocusWindowDownOrTop | AFocusWindowUpOrBottom |
AConsumeIntoColumn | AExpelFromColumn | ASwapWindowInDirection (d : ScrollDirection) | AToggleColumnTabbedDisplay | ASetColumnDisplay (d :
ColumnDisplay) | ACenterColumn | ACenterWindow (window : option Id) | ACenterVisibleColumns | AToggleWidth (forwards : bool) | AToggleWindowWidth
(window : option Id) (forwards : bool) | AToggleWindowHeight (window : option Id) (forwards : bool) | AToggleFullWidth | ASetColumnWidth (change :
Column.SizeChange) | ASetWindowWidth (window : option Id) (change : Column.SizeChange) | ASetWindowHeight (window : option Id) (change :
Column.SizeChange) | AResetWindowHeight (window : option Id) | AExpandColumnToAvailableWidth | AFocusFloating | AFocusTiling |
ASwitchFocusFloatingTiling | AMoveFloatingWindow (window : option Id) (a b : PositionChange) (animate : bool) | AToggleFullscreen (x : Id) |
ASetMaximized (x : Id) (b : bool) | AToggleMaximized (x : Id) | AInteractiveResizeBegin (x : Id) (edges : ResizeEdge) | AInteractiveResizeUpdate (x :
Id) (delta : Point) | AInteractiveResizeEnd (x : Id).

Definition run_action cv (a : Action) : Lay -> res Lay :=
  match a with
  | AMoveLeft => move_left cv
  | AMoveRight => move_right cv
  | AMoveColumnToFirst => move_column_to_first cv
  | AMoveColumnToLast => move_column_to_last cv
  | AMoveColumnToIndex i => move_column_to_index cv i
  | AMoveDown => move_down cv
  | AMoveUp => move_up cv
  | AConsumeOrExpelWindowLeft window => consume_or_expel_window_left cv window
  | AConsumeOrExpelWindowRight window => consume_or_expel_window_right cv window
  | AFocusLeft => focus_left cv
  | AFocusRight => focus_right cv
  | AFocusColumnFirst => focus_column_first cv
  | AFocusColumnLast => focus_column_last cv
  | AFocusColumnRightOrFirst => focus_column_right_or_first cv
  | AFocusColumnLeftOrLast => focus_column_left_or_last cv
  | AFocusColumn i => focus_column cv i
  | AFocusWindowInColumn i => focus_window_in_column i
  | AFocusDown => focus_down cv
  | AFocusUp => focus_up cv
  | AFocusDownOrLeft => focus_down_or_left cv
  | AFocusDownOrRight => focus_down_or_right cv
  | AFocusUpOrLeft => focus_up_or_left cv
  | AFocusUpOrRight => focus_up_or_right cv
  | AFocusWindowTop => focus_window_top
  | AFocusWindowBottom => focus_window_bottom
  | AFocusWindowDownOrTop => focus_window_down_or_top cv
  | AFocusWindowUpOrBottom => focus_window_up_or_bottom cv
  | AConsumeIntoColumn => consume_into_column cv
  | AExpelFromColumn => expel_from_column cv
  | ASwapWindowInDirection d => swap_window_in_direction cv d
  | AToggleColumnTabbedDisplay => toggle_column_tabbed_display cv
  | ASetColumnDisplay d => set_column_display cv d
  | ACenterColumn => center_column cv
  | ACenterWindow window => center_window cv window
  | ACenterVisibleColumns => center_visible_columns cv
  | AToggleWidth forwards => toggle_width forwards
  | AToggleWindowWidth window forwards => toggle_window_width window forwards
  | AToggleWindowHeight window forwards => toggle_window_height window forwards
  | AToggleFullWidth => toggle_full_width
  | ASetColumnWidth change => set_column_width change
  | ASetWindowWidth window change => set_window_width window change
  | ASetWindowHeight window change => set_window_height window change
  | AResetWindowHeight window => reset_window_height window
  | AExpandColumnToAvailableWidth => expand_column_to_available_width cv
  | AFocusFloating => focus_floating
  | AFocusTiling => focus_tiling
  | ASwitchFocusFloatingTiling => switch_focus_floating_tiling
  | AMoveFloatingWindow window a b animate => move_floating_window cv window a b animate
  | AToggleFullscreen x => toggle_fullscreen cv x
  | ASetMaximized x b => set_maximized cv x b
  | AToggleMaximized x => toggle_maximized cv x
  | AInteractiveResizeBegin x edges => fun l => drop (interactive_resize_begin cv x edges l)
  | AInteractiveResizeUpdate x delta => fun l => drop (interactive_resize_update x delta l)
  | AInteractiveResizeEnd x => interactive_resize_end cv x
  end.
Definition action_op (a : Action) : WsOp :=
  match a with
  | AMoveLeft => WMoveLeft
  | AMoveRight => WMoveRight
  | AMoveColumnToFirst => WMoveColumnToFirst
  | AMoveColumnToLast => WMoveColumnToLast
  | AMoveColumnToIndex i => WMoveColumnToIndex i
  | AMoveDown => WMoveDown
  | AMoveUp => WMoveUp
  | AConsumeOrExpelWindowLeft window => WConsumeOrExpelLeft window
  | AConsumeOrExpelWindowRight window => WConsumeOrExpelRight window
  | AFocusLeft => WFocusLeft
  | AFocusRight => WFocusRight
  | AFocusColumnFirst => WFocusColumnFirst
  | AFocusColumnLast => WFocusColumnLast
  | AFocusColumnRightOrFirst => WFocusColumnRightOrFirst
  | AFocusColumnLeftOrLast => WFocusColumnLeftOrLast
  | AFocusColumn i => WFocusColumn i
  | AFocusWindowInColumn i => WFocusWindowInColumn i
  | AFocusDown => WFocusDown
  | AFocusUp => WFocusUp
  | AFocusDownOrLeft => WFocusDownOrLeft
  | AFocusDownOrRight => WFocusDownOrRight
  | AFocusUpOrLeft => WFocusUpOrLeft
  | AFocusUpOrRight => WFocusUpOrRight
  | AFocusWindowTop => WFocusWindowTop
  | AFocusWindowBottom => WFocusWindowBottom
  | AFocusWindowDownOrTop => WFocusWindowDownOrTop
  | AFocusWindowUpOrBottom => WFocusWindowUpOrBottom
  | AConsumeIntoColumn => WConsumeIntoColumn
  | AExpelFromColumn => WExpelFromColumn
  | ASwapWindowInDirection d => WSwap d
  | AToggleColumnTabbedDisplay => WToggleTabbed
  | ASetColumnDisplay d => WSetDisplay d
  | ACenterColumn => WCenterColumn
  | ACenterWindow window => WCenterWindow window
  | ACenterVisibleColumns => WCenterVisible
  | AToggleWidth forwards => WToggleWidth forwards
  | AToggleWindowWidth window forwards => WToggleWindowWidth window forwards
  | AToggleWindowHeight window forwards => WToggleWindowHeight window forwards
  | AToggleFullWidth => WToggleFullWidth
  | ASetColumnWidth change => WSetColumnWidth change
  | ASetWindowWidth window change => WSetWindowWidth window change
  | ASetWindowHeight window change => WSetWindowHeight window change
  | AResetWindowHeight window => WResetHeight window
  | AExpandColumnToAvailableWidth => WExpandColumn
  | AFocusFloating => WFocusFloating
  | AFocusTiling => WFocusTiling
  | ASwitchFocusFloatingTiling => WSwitchFocus
  | AMoveFloatingWindow window a b animate => WMoveFloating window a b animate
  | AToggleFullscreen x => WToggleFullscreen x
  | ASetMaximized x b => WSetMaximized x b
  | AToggleMaximized x => WToggleMaximized x
  | AInteractiveResizeBegin x edges => WResizeBegin x edges
  | AInteractiveResizeUpdate x delta => WResizeUpdate x delta
  | AInteractiveResizeEnd x => WResizeEnd (Some x)
  end.
Definition action_target (a : Action) : Target :=
  match a with
  | AConsumeOrExpelWindowLeft window
  | AConsumeOrExpelWindowRight window
  | ACenterWindow window
  | AToggleWindowWidth window _
  | AToggleWindowHeight window _
  | ASetWindowWidth window _
  | ASetWindowHeight window _
  | AResetWindowHeight window
  | AMoveFloatingWindow window _ _ _ => Target_ window
  | AToggleFullscreen x
  | ASetMaximized x _
  | AToggleMaximized x
  | AInteractiveResizeBegin x _
  | AInteractiveResizeUpdate x _
  | AInteractiveResizeEnd x => Found x
  | _ => Active
  end.

(** ** Across outputs *)

(** Tries the workspace first; [true] if the output had to do. *)
Definition or_output (f : Workspace.Workspace -> res (bool * Workspace.Workspace)) (other : Lay -> res Lay) l : res (bool * Lay) :=
  '(b, l) ← on_active_returns f l;
  match b with
  | Some true => mret (false, l)
  | _ => l ← other l; mret (true, l)
  end.
Definition to_output o l : res Lay := mret (Layout.focus_output o l).
Definition focus_window_up_or_output cv o : Lay -> res (bool * Lay) := or_output (Workspace.focus_up cv kin) (to_output o).
Definition focus_window_down_or_output cv o : Lay -> res (bool * Lay) := or_output (Workspace.focus_down cv kin) (to_output o).
Definition focus_column_left_or_output cv o : Lay -> res (bool * Lay) := or_output (Workspace.focus_left cv kin) (to_output o).
Definition focus_column_right_or_output cv o : Lay -> res (bool * Lay) := or_output (Workspace.focus_right cv kin) (to_output o).
Definition column_to_output cv o l : res Lay := Layout.move_column_to_output cv o None true l.
Definition move_column_left_or_to_output cv o : Lay -> res (bool * Lay) := or_output (Workspace.move_left cv) (column_to_output cv o).
Definition move_column_right_or_to_output cv o : Lay -> res (bool * Lay) := or_output (Workspace.move_right cv) (column_to_output cv o).

(** ** Between the layouts of a workspace *)
Definition INTERACTIVE_MOVE_ALPHA : f64 := lit 75 100.
Definition with_tile (t : Tile.Tile) (floating : bool) (mv : Layout.InteractiveMoveData) : Layout.InteractiveMoveData :=
  Layout.Build_InteractiveMoveData t (Layout.im_output mv) (Layout.im_pointer_pos_within_output mv) (Layout.im_width mv)
    (Layout.im_is_full_width mv) floating (Layout.im_pointer_ratio_within_window mv) (Layout.im_output_config mv)
    (Layout.im_workspace_config mv).
Definition end_workspace_gestures cv : Lay -> res Lay := Layout.each_workspace (Workspace.dnd_scroll_gesture_end cv).

(** The window being moved is to float, or no longer. *)
Definition moved_floating_size t : Z * Z :=
  let win := Tile.window t in
  let size := match Tile.floating_window_size t with Some z => z | None => default (0, 0)%Z (win_expected_size win) end in
  (ensure_min_max_size_maybe_zero size.1 (win_min_size win).1 (win_max_size win).1,
   ensure_min_max_size_maybe_zero size.2 (win_min_size win).2 (win_max_size win).2).
Definition toggle_moved cv (mv : Layout.InteractiveMoveData) l : res Lay :=
  let floating := negb (Layout.im_is_floating mv) in
  let t : Tile.Tile := Layout.im_tile mv in
  let config := window_movement (opt_layout (Layout.options l)) in
  let moving t := Layout.set_interactive_move (Some (Layout.Moving (with_tile t floating mv))) l in
  if floating then
    t ← Tile.animate_alpha cv INTERACTIVE_MOVE_ALPHA f1 config (FloatingSpace.request_once (moved_floating_size t) true t);
    end_workspace_gestures cv (moving t)
  else
    t ← Tile.animate_alpha cv f1 INTERACTIVE_MOVE_ALPHA config t;
    mret (moving (Tile.hold_alpha_animation_after_done t)).
Definition moved_target (window : option Id) l : option Layout.InteractiveMoveData :=
  match Layout.interactive_move l with
  | Some (Layout.Moving mv) => if Layout.guards_move window l then Some mv else None
  | _ => None
  end.
Definition toggle_window_floating cv (window : option Id) l : res Lay :=
  match moved_target window l with
  | Some mv => toggle_moved cv mv l
  | None => on_target window (Workspace.toggle_window_floating cv kin window) l
  end.
Definition set_window_floating cv (window : option Id) (floating : bool) l : res Lay :=
  match moved_target window l with
  | Some mv => if Bool.eqb (Layout.im_is_floating mv) floating then mret l else toggle_window_floating cv window l
  | None => on_target window (fun w => Workspace.set_window_floating cv kin window floating w) l
  end.

(** ** Gestures that scroll a workspace *)
Definition overview_zoom cv l : res f64 :=
  progress ← match Layout.overview_progress l with
             | Some p => v ← Layout.progress_value cv (Some p); mret (Some v)
             | None => mret None
             end;
  compute_overview_zoom (Layout.options l) progress.

(** A loop over workspaces that stops at the first one for which [f] returns a result. *)
Fixpoint first_ws {A} (f : Workspace.Workspace -> res (option A * Workspace.Workspace)) (wss : list Workspace.Workspace)
    : res (option A * list Workspace.Workspace) :=
  match wss with
  | [] => Ok (None, [])
  | w :: wss =>
      '(a, w) ← f w;
      match a with
      | Some a => mret (Some a, w :: wss)
      | None => '(a, wss) ← first_ws f wss; mret (a, w :: wss)
      end
  end.
Definition on_first_ws {A} (f : Workspace.Workspace -> res (option A * Workspace.Workspace)) m : res (option (A * WOutput) * Mon) :=
  '(a, wss) ← first_ws f (Monitor.workspaces m);
  mret (option_map (fun a => (a, Monitor.output m)) a, Monitor.set_workspaces wss m).

Definition view_offset_gesture_begin cv o (workspace_idx : option nat) (touchpad : bool) l : res Lay :=
  match Layout.monitor_set l with
  | Layout.NoOutputs _ => Panic
  | Layout.Normal mons primary active =>
      '(mons, c) ← Layout.each_monitor (fun m =>
          wss ← iter_mut (fun idx w =>
              if negb (bool_decide (Monitor.output m = o)) || negb (bool_decide (idx = default (Monitor.active_workspace_idx m) workspace_idx))
              then Workspace.second (Workspace.view_offset_gesture_end cv None w)
              else Workspace.view_offset_gesture_begin cv touchpad w) 0 (Monitor.workspaces m);
          mret (Monitor.set_workspaces wss m)) mons (Layout.id_counter l);
      mret (Layout.set_monitor_set (Layout.Normal mons primary active) c l)
  end.
(** Returns the output to redraw, if the gesture belongs to a workspace of one. *)
Definition view_offset_gesture_update cv (delta_x : f64) (ts : Duration) (touchpad : bool) l : res (option (option WOutput) * Lay) :=
  zoom ← overview_zoom cv l;
  match Layout.monitor_set l with
  | Layout.NoOutputs _ => mret (None, l)
  | Layout.Normal mons primary active =>
      '(a, mons, c) ← Layout.first_monitor (on_first_ws (Workspace.view_offset_gesture_update (delta_x / zoom)%F ts touchpad)) 0 mons
                        (Layout.id_counter l);
      mret (option_map (fun '(_, (b, o)) => if b : bool then Some o else None) a,
            Layout.set_monitor_set (Layout.Normal mons primary active) c l)
  end.
Definition view_offset_gesture_end cv (touchpad : option bool) l : res (option WOutput * Lay) :=
  match Layout.monitor_set l with
  | Layout.NoOutputs _ => mret (None, l)
  | Layout.Normal mons primary active =>
      '(a, mons, c) ← Layout.first_monitor (on_first_ws (fun w =>
          '(b, w) ← Workspace.view_offset_gesture_end cv touchpad w; mret (if b : bool then Some tt else None, w))) 0 mons
          (Layout.id_counter l);
      mret (option_map (fun '(_, (_, o)) => o) a, Layout.set_monitor_set (Layout.Normal mons primary active) c l)
  end.

(** ** Queries *)
Definition active_focus l : res (option (Win * Output)) :=
  match Layout.monitor_set l with
  | Layout.NoOutputs _ => mret None
  | Layout.Normal mons _ active =>
      m ← index mons active;
      w ← Monitor.active_workspace m;
      a ← ws_active_window w;
      mret (match a with Some x => Some (x, Monitor.output m) | None => None end)
  end.
Definition focus_with_output l : res (option (Win * Output)) :=
  match Layout.interactive_move l with
  | Some (Layout.Moving mv) => Ok (Some (tile_win (Layout.im_tile mv), Layout.im_output mv))
  | _ => active_focus l
  end.
Definition focus l : res (option Win) := o ← focus_with_output l; mret (option_map fst o).
Definition active_output l : res (option Output) :=
  match Layout.monitor_set l with
  | Layout.NoOutputs _ => mret None
  | Layout.Normal mons _ active => m ← index mons active; mret (Some (Monitor.output m))
  end.
End ops.
End Actions.
