(* ===== verification/LayoutPlaces.v ===== *)
(** * Changing one workspace of a layout

    An action on a workspace changes that workspace and nothing else: [put] is the
    layout with another workspace at a place.  If the new workspace has the same
    windows, id, name and output, the layout stays in order. *)

From stdpp Require Import base numbers option list strings gmap.
From Stdlib Require Import ZArith Lia SpecFloat.
From S2P Require Import Prelude.
From S2P Require Import F64.
From S2P Require Import Duration.
From S2P Require Import Clock.
From S2P Require Import Animation.
From S2P Require Import OutputName.
From S2P Require Import LayoutTypes.
From S2P Require Import Tile.
From S2P Require Import TileInv.
From S2P Require Import FloatingStack.
From S2P Require Import Workspace.
From S2P Require Import WorkspaceOps.
From S2P Require Import Interface.
From S2P Require Import Monitor.
From S2P Require Import MonitorIds.
From S2P Require Import MonitorInv.
From S2P Require Import MonitorOps.
From S2P Require Import MonitorOps2.
From S2P Require Import MonitorThms.
From S2P Require Import Layout.
From S2P Require Import LayoutInv.
From S2P Require Import LayoutHotplug.
From S2P Require Import LayoutWindows.
From S2P Require Import LayoutMoves.
From S2P Require Import LayoutThms.
From S2P Require Import LayoutReal.
From S2P Require Import LayoutActions.

Section places.
Context {LE : LayoutElement} {LEL : LayoutElementLaws} {GE : Geometry} {GL : GeometryLaws} {LM : Libm} {KF : Keyframe} {OU : Outputs}
  {SM : Smithay}.
Context (kin : Id -> Id -> bool) (Hac : acyclic kin) (st : WOutput -> OutputState) (Hst : outputs_ok st).
#[local] Hint Extern 0 WorkspaceOps => exact (real_ops kin st) : typeclass_instances.
#[local] Hint Extern 0 LayoutOps => exact (real_layout_ops kin st) : typeclass_instances.
#[local] Hint Extern 0 WorkspaceLaws => exact (real_laws kin Hac st Hst) : typeclass_instances.
#[local] Hint Extern 0 LayoutLaws => exact (real_layout_laws kin Hac st Hst) : typeclass_instances.
Abbreviation Lay := Layout.Layout.
Abbreviation Mon := Monitor.Monitor.
Implicit Types (w : WS) (x : Win) (l : Lay) (m : Mon).
Import Actions.

(** The workspace at a place, and the layout with another one there. *)
Definition at_place (p : Place) l w : Prop :=
  match p, Layout.monitor_set l with
  | OnMonitor i j, Layout.Normal mons _ _ => exists m : Mon, mons !! i = Some m /\ Monitor.workspaces m !! j = Some w
  | Unplugged j, Layout.NoOutputs wss => wss !! j = Some w
  | _, _ => False
  end.
Definition put (p : Place) w l : Lay :=
  match p, Layout.monitor_set l with
  | OnMonitor i j, Layout.Normal mons primary active =>
      let change m := Monitor.set_workspaces (<[j := w]> (Monitor.workspaces m)) (Monitor.set_counter (Layout.id_counter l) m) in
      Layout.set_monitor_set (Layout.Normal (alter change i mons) primary active) (Layout.id_counter l) l
  | Unplugged j, Layout.NoOutputs wss => Layout.set_monitor_set (Layout.NoOutputs (<[j := w]> wss)) (Layout.id_counter l) l
  | _, _ => l
  end.

Lemma put_counter p w l : Layout.id_counter (put p w l) = Layout.id_counter l.
Proof. unfold put. by destruct p, (Layout.monitor_set l). Qed.
Lemma put_roomy p w l : roomy l -> roomy (put p w l).
Proof. unfold roomy. by rewrite put_counter. Qed.
Lemma put_move p w l : Layout.interactive_move (put p w l) = Layout.interactive_move l.
Proof. unfold put. by destruct p, (Layout.monitor_set l). Qed.

Lemma at_workspaces p l w : at_place p l w -> w ∈ Layout.workspaces l.
Proof.
  unfold at_place, Layout.workspaces. destruct p as [i j|j], (Layout.monitor_set l) as [mons pr a|wss]; try done.
  - intros (m & Hm & Hw). apply list_elem_of_bind. exists m. split; by eapply list_elem_of_lookup_2.
  - intros Hw. by eapply list_elem_of_lookup_2.
Qed.

Lemma alter_insert {A} (f : A -> A) (i : nat) (xs : list A) y : xs !! i = Some y -> alter f i xs = <[i := f y]> xs.
Proof.
  intros Hi. apply list_eq. intros k. destruct (decide (k = i)) as [->|Hne].
  - rewrite list_lookup_insert_eq by (by eapply lookup_lt_Some). transitivity (f <$> xs !! i); [apply list_lookup_alter_eq|by rewrite Hi].
  - rewrite list_lookup_insert_ne by done. by apply list_lookup_alter_ne.
Qed.

Lemma on_place_spec {A} p (f : WS -> res (A * WS)) l w a w' :
  layout_ok l -> roomy l -> at_place p l w -> f w = Ok (a, w') -> same_ws w w' ->
  on_place kin st p f l = Ok (a, put p w' l) /\ layout_step [] [] l (put p w' l).
Proof.
  intros Hok Hr Hp Hf Hs. unfold at_place in Hp. unfold on_place, put, update_at.
  pose proof (lo_set l Hok) as Hset. destruct p as [i j|j], (Layout.monitor_set l) as [mons pr ac|wss] eqn:Es; try done.
  - destruct Hp as (m & Hm & Hw). destruct (normal_lookup l mons pr ac i m) as (Hsemi & Hcl & Hrm); try done.
    destruct (update_same (HM := home_of m) (Monitor.set_counter (Layout.id_counter l) m) j w w') as [Hst' Hev]; try done.
    match goal with |- context [Layout.on_monitor i ?g mons _] =>
      destruct (layout_on_monitor l mons pr ac i m g 0 [] a (Monitor.set_workspaces (<[j := w']> (Monitor.workspaces m))
        (Monitor.set_counter (Layout.id_counter l) m))) as (Hon & _ & Hl) end; try done; [lia| |apply Hok|].
    + cbn. rewrite (index_ok j w) by done. cbn. rewrite Hf. done.
    + rewrite Hon. cbn. rewrite (alter_insert _ i mons m Hm). split; [done|]. apply Hl, Hset.
  - rewrite (index_ok j w) by done. cbn. rewrite Hf. cbn. split; [done|]. destruct Hset as [Hwok Hn Hids Hfr].
    destruct Hs as [Ht Ho]. apply set_step; [done|apply Hok|done|lia| |].
    + constructor.
      * apply Forall_insert; [done|by apply turns_ok in Ht].
      * apply Forall_insert; [done|]. rewrite (turns_same_hwn _ _ Ht). exact (Forall_lookup_1 _ _ _ _ Hn Hp).
      * rewrite (insert_id _ _ w); [done|done|by apply turns_id in Ht].
      * apply Forall_insert; [done|]. rewrite (turns_id _ _ _ Ht). exact (Forall_lookup_1 _ _ _ _ Hfr Hp).
    + unfold Layout.workspaces. cbn [Layout.monitor_set Layout.set_monitor_set app]. rewrite Es, (wins_insert _ _ w) by done.
      by rewrite (wins_at wss j w Hp), (turns_wins _ _ _ Ht).
Qed.

(** The place of the active workspace, and of a window. *)
Lemma active_place_spec l :
  layout_ok l -> match Layout.monitor_set l with
                 | Layout.Normal _ _ _ => exists p w, active_place kin st l = Ok (Some p) /\ at_place p l w
                 | Layout.NoOutputs _ => active_place kin st l = Ok None
                 end.
Proof.
  intros Hok. unfold active_place, at_place. pose proof (lo_set l Hok) as Hset. destruct (Layout.monitor_set l) as [mons p a|wss] eqn:Es; [|done].
  destruct Hset. destruct (lookup_lt_is_Some_2 mons a no_active) as [m Hm]. rewrite (index_ok _ _ _ Hm). cbn.
  destruct (active_lookup (HM := home_of m) _ (Forall_lookup_1 _ _ _ _ (ms_semi _ _ no_mons) Hm)) as [w Hw]. cbn in Hw.
  eexists _, w. split; [done|]. by exists m.
Qed.

Lemma position_has x wss : position (has_window kin st x) wss = position (Interface.has_window x) wss.
Proof. done. Qed.

Lemma window_place_spec x l :
  match window_place kin st x l with
  | Some p => exists w, at_place p l w /\ x ∈ ws_windows w
  | None => x ∉ (Layout.workspaces l ≫= ws_windows)
  end.
Proof.
  unfold window_place, at_place, Layout.workspaces. destruct (Layout.monitor_set l) as [mons p a|wss] eqn:Es.
  - destruct (Layout.monitor_with_window x mons) as [i|] eqn:Ei; cbn; [|exact (eq_rect_r (fun ys => x ∉ ys) (monitor_with_window_None x mons Ei) (mons_windows mons))].
    destruct (position_Some _ _ _ Ei) as (m & Hm & Hx%monitor_has & _). rewrite Hm. cbn.
    destruct (window_at x _ Hx) as (j & w & Hj & Hw & Hxw). rewrite position_has, Hj. cbn. exists w. split; [by exists m|done].
  - rewrite position_has. destruct (position (Interface.has_window x) wss) as [j|] eqn:Ej; cbn.
    + destruct (position_Some _ _ _ Ej) as (w & Hw & Hx%has_window_true & _). by exists w.
    + intros Hx. destruct (window_at x wss Hx) as (i & w & Hi & _). congruence.
Qed.
End places.
