(* ===== verification/OrOutput.v ===== *)
(** * Whether a workspace did anything

    Moving the focus, or a column, left or right, up or down on a workspace
    (src/layout/workspace.rs) tells whether it did: then the focus is on another window,
    or the columns are in another order; otherwise the workspace is as it was. *)

From stdpp Require Import base numbers option list strings gmap.
From Stdlib Require Import ZArith Lia SpecFloat.
From S2P Require Import Prelude.
From S2P Require Import Runs.
From S2P Require Import F64.
From S2P Require Import Duration.
From S2P Require Import Clock.
From S2P Require Import Animation.
From S2P Require Import AnimTotal.
From S2P Require Import OutputName.
From S2P Require Import LayoutTypes.
From S2P Require Import Tile.
From S2P Require Import TileInv.
From S2P Require Import Floating.
From S2P Require Import FloatingStack.
From S2P Require Import FloatingInv.
From S2P Require Import Column.
From S2P Require Import ColumnInv.
From S2P Require Import Scrolling.
From S2P Require Import ScrollingSpec.
From S2P Require Import ScrollingInv.
From S2P Require Import ScrollingMoves.
From S2P Require Import ScrollingConsume.
From S2P Require Import ScrollingGrid.
From S2P Require Import ScrollingThms.
From S2P Require Import FloatingOps.
From S2P Require Import FloatingThms.
From S2P Require Import Workspace.
From S2P Require Import WorkspaceInv.
From S2P Require Import WorkspaceSpec.
From S2P Require Import WorkspaceOps.
From S2P Require Import WorkspaceTiling.
From S2P Require Import WorkspaceRoutes.
From S2P Require Import WorkspaceThms.
From S2P Require Import LayoutRest.
(** ** Lists of columns *)
Section grids.
Context {LE : LayoutElement}.
Implicit Types (g : Grid Id).

Lemma active_here g c : g_cols g !! g_active g = Some c -> focused g = c.1 !! c.2.
Proof. unfold focused, active_of. by intros ->. Qed.
Lemma grid_active g : grid_ok g -> g_active g < length (g_cols g) -> exists c x, g_cols g !! g_active g = Some c /\ c.1 !! c.2 = Some x.
Proof.
  intros [_ Hc] Ha. destruct (lookup_lt_is_Some_2 (g_cols g) (g_active g) Ha) as [c Hi]. pose proof (proj1 (Forall_lookup _ _) Hc _ c Hi) as Hlt.
  destruct (lookup_lt_is_Some_2 c.1 c.2 Hlt) as [x Hx]. by exists c, x.
Qed.
(** Another column. *)
Lemma activate_focus i g :
  grid_ok g -> NoDup (g_windows g) -> g_active g < length (g_cols g) -> i < length (g_cols g) -> i <> g_active g -> focused (g_activate i g) <> focused g.
Proof.
  intros Hg Hn Ha Hi Hne. destruct (grid_active g Hg Ha) as (c & x & Hc & Hx). rewrite (active_here g c Hc), Hx. unfold g_activate.
  rewrite bool_decide_eq_false_2 by congruence. unfold focused, active_of. cbn. intros Hf.
  destruct (g_cols g !! i) as [d|] eqn:Ed; [|done]. cbn in Hf. apply Hne.
  apply (nodup_bind fst (g_cols g) i (g_active g) d c x Hn Ed Hc); by eapply list_elem_of_lookup_2.
Qed.
(** Another window of the column. *)
Lemma refocus_focus f g c :
  grid_ok g -> NoDup (g_windows g) -> g_cols g !! g_active g = Some c -> f (length c.1) c.2 <> c.2 -> focused (on_active_col (col_focus f) g) <> focused g.
Proof.
  intros Hg Hn Hc Hf. destruct (grid_active g Hg) as (c' & x & Hc' & Hx); [by eapply lookup_lt_Some|]. rewrite Hc in Hc'. injection Hc' as <-.
  rewrite (active_here g c Hc), Hx, (active_here _ (col_focus f c)); [|by cbn; rewrite list_lookup_alter_eq, Hc]. cbn. intros Hy. apply Hf.
  apply list_elem_of_lookup_2 in Hc. apply (elem_of_Permutation (g_cols g)) in Hc as [rest Hp]. unfold g_windows in Hn. rewrite Hp in Hn. cbn in Hn.
  apply NoDup_app in Hn as (Hn & _). by eapply NoDup_lookup.
Qed.
(** A column at another place. *)
Lemma moved_cols k g :
  grid_ok g -> NoDup (g_windows g) -> g_active g < length (g_cols g) -> k < length (g_cols g) -> k <> g_active g -> g_cols (g_move_column_to k g) <> g_cols g.
Proof.
  intros Hg Hn Ha Hk Hne He. destruct (grid_active g Hg Ha) as (c & x & Hc & Hx). unfold g_move_column_to in He. rewrite Hc, bool_decide_eq_false_2 in He by congruence.
  cbn in He. assert (Hkc : g_cols g !! k = Some c).
  { rewrite <-He. apply lookup_insert_at_eq. pose proof (length_delete (g_cols g) (g_active g)) as Hl. rewrite Hl; [lia|done]. }
  apply Hne. apply (nodup_bind fst (g_cols g) k (g_active g) c c x Hn Hkc Hc); by eapply list_elem_of_lookup_2.
Qed.
End grids.

(** ** Workspaces *)
Inductive OrOutput := OrFocusUp | OrFocusDown | OrFocusLeft | OrFocusRight | OrMoveLeft | OrMoveRight.
Section workspaces.
Context {LE : LayoutElement} {LEL : LayoutElementLaws} {GE : Geometry} {GL : GeometryLaws} {LM : Libm} {KF : Keyframe} {OU : Outputs}.
Context (cv : ClockView) (Hcv : cv_ok cv) (kin : Id -> Id -> bool) (Hac : acyclic kin).
Implicit Types (w : Workspace.Workspace).

Definition or_workspace (a : OrOutput) : Workspace.Workspace -> res (bool * Workspace.Workspace) :=
  match a with
  | OrFocusUp => Workspace.focus_up cv kin | OrFocusDown => Workspace.focus_down cv kin
  | OrFocusLeft => Workspace.focus_left cv kin | OrFocusRight => Workspace.focus_right cv kin
  | OrMoveLeft => Workspace.move_left cv | OrMoveRight => Workspace.move_right cv
  end.
(** What it is to have done it: another window has the focus; a column, or a floating
    window, has moved. *)
Definition or_did (a : OrOutput) (v v' : View) : Prop :=
  match a with
  | OrMoveLeft | OrMoveRight => v_floats v = true \/ g_cols (v_grid v') <> g_cols (v_grid v)
  | _ => v_focused v' <> v_focused v
  end.

(** Otherwise the workspace is as it was. *)
Lemma same_scrolling w : Workspace.set_scrolling (Workspace.scrolling w) w = w.
Proof. by destruct w. Qed.
Lemma same_floating w : Workspace.set_floating (Workspace.floating w) w = w.
Proof. by destruct w. Qed.
Lemma scrolling_returns_false f w w' :
  Workspace.scrolling_returns f w = Ok (false, w') -> (forall s', f (Workspace.scrolling w) = Ok (false, s') -> s' = Workspace.scrolling w) -> w' = w.
Proof. unfold Workspace.scrolling_returns. intros H Hf. bind H as [[b s]|] eqn E. injection H as -> <-. rewrite (Hf s eq_refl). apply same_scrolling. Qed.
Lemma floating_returns_false f w w' :
  Workspace.floating_returns f w = Ok (false, w') -> (forall s', f (Workspace.floating w) = Ok (false, s') -> s' = Workspace.floating w) -> w' = w.
Proof. unfold Workspace.floating_returns. intros H Hf. bind H as [[b s]|] eqn E. injection H as -> <-. rewrite (Hf s eq_refl). apply same_floating. Qed.

Lemma directional_false f s s' : FloatingSpace.focus_directional kin f s = Ok (false, s') -> s' = s.
Proof.
  unfold FloatingSpace.focus_directional. destruct (FloatingSpace.active_window_id s); [|by intros [= <-]]. intros H.
  bind H as [n|] eqn E1. bind H as [d|] eqn E2. cbv zeta in H. unfold FloatingSpace.activate_found in H.
  destruct (min_by _ _) as [[t y]|]; [|by injection H as <-]. bind H as [[b s1]|] eqn E3. done.
Qed.
Lemma on_active_false op s s' :
  (forall c c', op c = Ok (false, c') -> c' = c) -> ScrollingSpace.on_active op s = Ok (false, s') -> s' = s.
Proof.
  intros Hop. unfold ScrollingSpace.on_active, ScrollingSpace.with_column. destruct (ScrollingSpace.is_empty s); [by intros [= <-]|]. intros H.
  bind H as [c|] eqn E1. bind H as [[b c']|] eqn E2. injection H as -> <-. rewrite (Hop c c' E2). unfold index, unwrap in E1.
  destruct (ScrollingSpace.columns s !! _) as [c1|] eqn:Ec; [|done]. injection E1 as ->. rewrite list_insert_id by done. by destruct s.
Qed.
Lemma activate_idx_false i c c' : Column.activate_idx i c = Ok (false, c') -> c' = c.
Proof. unfold Column.activate_idx. case_bool_decide; [by intros [= <-]|]. intros Hx. bind Hx as [t|] eqn E. done. Qed.
Lemma or_nothing a w w' : or_workspace a w = Ok (false, w') -> w' = w.
Proof.
  destruct a; cbn [or_workspace]; unfold Workspace.focus_up, Workspace.focus_down, Workspace.focus_left, Workspace.focus_right, Workspace.move_left, Workspace.move_right;
    (destruct (Workspace.is_active_floating w);
      [first [intros H; eapply floating_returns_false; [exact H|intros s'; apply directional_false]|intros H; bind H as [w1|] eqn E; done]
      |intros H; eapply scrolling_returns_false; [exact H|intros s']]).
  - apply on_active_false. intros c c'. apply activate_idx_false.
  - apply on_active_false. intros c c' Hd. unfold Column.focus_down in Hd. bind Hd as [n|] eqn E. by apply activate_idx_false in Hd.
  - unfold ScrollingSpace.focus_left. case_bool_decide; [by intros [= <-]|]. intros Hx. bind Hx as [s1|] eqn E. done.
  - unfold ScrollingSpace.focus_right. destruct (_ <=? _); [by intros [= <-]|]. intros Hx. bind Hx as [s1|] eqn E. done.
  - unfold ScrollingSpace.move_left. case_bool_decide; [by intros [= <-]|]. intros Hx. bind Hx as [s1|] eqn E. done.
  - unfold ScrollingSpace.move_right. destruct (_ <=? _); [by intros [= <-]|]. intros Hx. bind Hx as [s1|] eqn E. done.
Qed.

(** Something was done: floating windows. *)
Lemma directional_true f s s' :
  floating_ok kin s -> FloatingSpace.focus_directional kin f s = Ok (true, s') ->
  FloatingSpace.active_window_id s' <> FloatingSpace.active_window_id s.
Proof.
  intros Hs. unfold FloatingSpace.focus_directional. destruct (FloatingSpace.active_window_id s) as [x|]; [|done]. intros H.
  bind H as [n|] eqn E1. bind H as [d|] eqn E2. cbv zeta in H. unfold FloatingSpace.activate_found in H.
  destruct (min_by _ _) as [[t y]|] eqn:Em; [|done]. bind H as [[b s1]|] eqn E3. injection H as <-.
  apply min_by_in, list_elem_of_filter in Em as [_ Em]. apply list_elem_of_fmap in Em as ([u e] & [= -> _] & Em).
  apply list_elem_of_filter in Em as [Hne Em]. apply elem_of_zip_l in Em. cbn in Hne.
  destruct (proj1 (runs_ok _ _) (f_activate_to kin Hac (Tile.id u) s Hs)) as ([b1 s2] & He & _ & _ & _ & Hp). rewrite E3 in He. injection He as <- <-.
  assert (Hx : Tile.id u ∈ FloatingInv.ids s) by by apply list_elem_of_fmap_2.
  destruct (index_of_in _ _ Hx) as (k & Hk & _). unfold p_activate in Hp. cbn [p_ids pile] in Hp. rewrite Hk in Hp. injection Hp as _ Ha. rewrite Ha. congruence.
Qed.

(** Tiled windows. *)
Section tiled.
Context (s : ScrollingSpace.ScrollingSpace) (Hs : space_ok s) (Hn : NoDup (g_windows (grid s))).

Lemma tiled_grid : grid_ok (grid s).
Proof. by apply space_grid_ok. Qed.
Lemma focus_left_true s' : ScrollingSpace.focus_left cv s = Ok (true, s') -> focused (grid s') <> focused (grid s).
Proof.
  intros He. pose proof (focus_left_runs cv Hcv s Hs) as Hr. rewrite He in Hr. destruct Hr as [Hb (_ & _ & ->)]. symmetry in Hb.
  apply negb_true_iff, bool_decide_eq_false_1 in Hb. unfold g_focus_left. change (g_active (grid s)) with (ScrollingSpace.active_column_idx s).
  rewrite bool_decide_eq_false_2 by done. pose proof (so_le _ (proj1 (proj1 Hs))) as Hle.
  pose proof tiled_grid as Hg. destruct (proj1 Hg) as [Hlt|[_ H0]]; [|by destruct Hb]. change (g_active (grid s)) with (ScrollingSpace.active_column_idx s) in Hlt.
  apply activate_focus; try done; cbn; cbn in Hlt; lia.
Qed.
Lemma focus_right_true s' : ScrollingSpace.focus_right cv s = Ok (true, s') -> focused (grid s') <> focused (grid s).
Proof.
  intros He. pose proof (focus_right_runs cv Hcv s Hs) as Hr. rewrite He in Hr. destruct Hr as [Hb (_ & _ & ->)]. symmetry in Hb.
  apply negb_true_iff in Hb. unfold g_focus_right. rewrite grid_length. change (g_active (grid s)) with (ScrollingSpace.active_column_idx s).
  rewrite Hb. apply Nat.leb_gt in Hb. apply activate_focus; [apply tiled_grid|done|rewrite grid_length; change (g_active (grid s)) with (ScrollingSpace.active_column_idx s); lia
    |rewrite grid_length; lia|change (g_active (grid s)) with (ScrollingSpace.active_column_idx s); lia].
Qed.
Lemma on_active_true f op s' :
  refocuses s f op -> ScrollingSpace.on_active op s = Ok (true, s') -> focused (grid s') <> focused (grid s).
Proof.
  intros Hop He. unfold ScrollingSpace.on_active in He. destruct (ScrollingSpace.is_empty s) eqn:Em; [done|].
  destruct (active_ok_lookup s Hs Em) as [c Hc]. pose proof (with_column_runs _ op f s c Hs Hc Hop) as Hr. rewrite He in Hr.
  destruct Hr as [Hb (_ & _ & ->)]. symmetry in Hb. apply negb_true_iff, bool_decide_eq_false_1 in Hb.
  apply (refocus_focus f (grid s) (gcol c)); [apply tiled_grid|done| |].
  - change (g_active (grid s)) with (ScrollingSpace.active_column_idx s). by rewrite grid_lookup, Hc.
  - cbn. by rewrite length_ids.
Qed.
Lemma move_true k s' :
  k < length (ScrollingSpace.columns s) -> k <> ScrollingSpace.active_column_idx s -> ScrollingSpace.move_column_to cv k s = Ok s' ->
  g_cols (grid s') <> g_cols (grid s).
Proof.
  intros Hk Hne He. assert (Hr : runs (ScrollingSpace.move_column_to cv k s) (to s (g_move_column_to k (grid s)))).
  { apply move_column_to_runs; [exact Hcv|done| |done]. intros Hem. unfold ScrollingSpace.is_empty in Hem. destruct (ScrollingSpace.columns s); [cbn in Hk; lia|done]. }
  rewrite He in Hr. destruct Hr as (_ & _ & ->). pose proof tiled_grid as Hg. destruct (proj1 Hg) as [Hlt|[H0 _]].
  - apply moved_cols; try done. by rewrite grid_length.
  - apply (f_equal length) in H0. rewrite grid_length in H0. cbn in H0. lia.
Qed.
Lemma move_left_true s' : ScrollingSpace.move_left cv s = Ok (true, s') -> g_cols (grid s') <> g_cols (grid s).
Proof.
  unfold ScrollingSpace.move_left. case_bool_decide as E; [done|]. intros H. bind H as [s1|] eqn E1. injection H as <-.
  apply move_true in E1; [done| |lia]. pose proof tiled_grid as Hg. destruct (proj1 Hg) as [Hlt|[_ H0]]; [|by destruct E].
  rewrite grid_length in Hlt. change (g_active (grid s)) with (ScrollingSpace.active_column_idx s) in Hlt. lia.
Qed.
Lemma move_right_true s' : ScrollingSpace.move_right cv s = Ok (true, s') -> g_cols (grid s') <> g_cols (grid s).
Proof.
  unfold ScrollingSpace.move_right. destruct (_ <=? _) eqn:E; [done|]. apply Nat.leb_gt in E. intros H. bind H as [s1|] eqn E1. injection H as <-.
  apply move_true in E1; [done|lia|lia].
Qed.
End tiled.

(** Of the workspace. *)
Lemma scrolling_did f w w' :
  Workspace.is_active_floating w = false -> Workspace.scrolling_returns f w = Ok (true, w') ->
  exists s', f (Workspace.scrolling w) = Ok (true, s') /\ v_grid (view w') = grid s' /\ v_focused (view w') = focused (grid s')
    /\ v_focused (view w) = focused (grid (Workspace.scrolling w)).
Proof.
  unfold Workspace.scrolling_returns. intros Ha H. bind H as [[b s]|] eqn E. injection H as -> <-. exists s. split; [done|].
  unfold v_focused. rewrite is_active_view in Ha. change (v_floats (view (Workspace.set_scrolling s w))) with (v_floats (view w)). by rewrite Ha.
Qed.
Lemma floating_did f w w' :
  Workspace.is_active_floating w = true -> Workspace.floating_returns f w = Ok (true, w') ->
  exists s', f (Workspace.floating w) = Ok (true, s') /\ v_focused (view w') = FloatingSpace.active_window_id s'
    /\ v_focused (view w) = FloatingSpace.active_window_id (Workspace.floating w).
Proof.
  unfold Workspace.floating_returns. intros Ha H. bind H as [[b s]|] eqn E. injection H as -> <-. exists s. split; [done|].
  unfold v_focused. rewrite is_active_view in Ha. change (v_floats (view (Workspace.set_floating s w))) with (v_floats (view w)). by rewrite Ha.
Qed.
Lemma or_something a w w' : WorkspaceInv.ws_ok kin w -> or_workspace a w = Ok (true, w') -> or_did a (view w) (view w').
Proof.
  intros [Hw [Hnd _]]. pose proof (wo_scrolling _ _ Hw) as Hs. pose proof (proj1 (proj1 (NoDup_app _ _) Hnd)) as Hn.
  destruct a; cbn [or_workspace or_did]; unfold Workspace.focus_up, Workspace.focus_down, Workspace.focus_left, Workspace.focus_right, Workspace.move_left, Workspace.move_right;
    destruct (Workspace.is_active_floating w) eqn:Ea; intros H; try (left; exact Ea).
  1, 3, 5, 7: destruct (floating_did _ _ _ Ea H) as (s' & He & -> & ->); apply directional_true in He; [exact He|apply Hw].
  all: destruct (scrolling_did _ _ _ Ea H) as (s' & He & Hg & Hf & Hf0).
  - rewrite Hf, Hf0. apply (on_active_true _ Hs Hn up Column.focus_up); [by apply up_refocuses|exact He].
  - rewrite Hf, Hf0. apply (on_active_true _ Hs Hn down Column.focus_down); [by apply down_refocuses|exact He].
  - rewrite Hf, Hf0. by apply focus_left_true.
  - rewrite Hf, Hf0. by apply focus_right_true.
  - right. rewrite Hg. by apply move_left_true.
  - right. rewrite Hg. by apply move_right_true.
Qed.
End workspaces.
