(* ===== verification/LayoutActionsThms.v ===== *)
(** * What actions do to a layout

    Every action of [LayoutActions] returns, keeps the layout in order, and does to
    one workspace what the operation of that workspace promises. *)

From stdpp Require Import base numbers option list strings gmap.
From Stdlib Require Import ZArith Lia SpecFloat.
From S2P Require Import Prelude.
From S2P Require Import Runs.
From S2P Require Import F64.
From S2P Require Import Duration.
From S2P Require Import Clock.
From S2P Require Import Animation.
From S2P Require Import AnimTotal.
From S2P Require Import OutputName.
From S2P Require Import LayoutTypes.
From S2P Require Import Tile.
From S2P Require Import TileInv.
From S2P Require Import Floating.
From S2P Require Import FloatingStack.
From S2P Require Import FloatingInv.
From S2P Require Import Scrolling.
From S2P Require Import ScrollingSpec.
From S2P Require Import ScrollingMoves.
From S2P Require Import ScrollingThms.
From S2P Require Import FloatingOps.
From S2P Require Import FloatingThms.
From S2P Require Import Workspace.
From S2P Require Import WorkspaceInv.
From S2P Require Import WorkspaceOps.
From S2P Require Import WorkspaceTiling.
From S2P Require Import WorkspaceRoutes.
From S2P Require Import WorkspaceThms.
From S2P Require Import WorkspaceLabels.
From S2P Require Import Interface.
From S2P Require Import Monitor.
From S2P Require Import MonitorIds.
From S2P Require Import MonitorInv.
From S2P Require Import MonitorOps.
From S2P Require Import MonitorOps2.
From S2P Require Import MonitorThms.
From S2P Require Import Layout.
From S2P Require Import LayoutInv.
From S2P Require Import LayoutHotplug.
From S2P Require Import LayoutWindows.
From S2P Require Import LayoutMoves.
From S2P Require Import LayoutThms.
From S2P Require Import LayoutReal.
From S2P Require Import OrOutput.
From S2P Require Import LayoutActions.
From S2P Require Import LayoutPlaces.
From S2P Require Import ColumnInv.
From S2P Require Import LayoutRest.

Section actions.
Context {LE : LayoutElement} {LEL : LayoutElementLaws} {GE : Geometry} {GL : GeometryLaws} {LM : Libm} {KF : Keyframe} {OU : Outputs}
  {SM : Smithay}.
Context (kin : Id -> Id -> bool) (Hac : acyclic kin) (st : WOutput -> OutputState) (Hst : outputs_ok st).
#[local] Hint Extern 0 WorkspaceOps => exact (real_ops kin st) : typeclass_instances.
#[local] Hint Extern 0 LayoutOps => exact (real_layout_ops kin st) : typeclass_instances.
#[local] Hint Extern 0 WorkspaceLaws => exact (real_laws kin Hac st Hst) : typeclass_instances.
#[local] Hint Extern 0 LayoutLaws => exact (real_layout_laws kin Hac st Hst) : typeclass_instances.
Abbreviation Lay := Layout.Layout.
Abbreviation Mon := Monitor.Monitor.
Implicit Types (cv : ClockView) (w : WS) (x : Win) (l : Lay) (m : Mon).
Import Actions.


(** ** Preconditions

    An action needs the window it names, if any, to be on the workspace. *)
Definition target_names (g : Target) : option Id := match g with Active => None | Target_ window => window | Found x => Some x end.
Definition action_names (a : Action) : option Id := target_names (action_target a).

Lemma on_floating_false (x : Id) (v : View) : v_on_floating (Some x) v = false -> x ∈ v_windows v -> x ∈ g_windows (v_grid v).
Proof. unfold v_on_floating. intros H%bool_decide_eq_false_1 [Hx|Hx]%elem_of_app; done. Qed.
Lemma on_floating_true (x : Id) (v : View) : v_on_floating (Some x) v = true -> x ∈ p_ids (v_pile v).
Proof. unfold v_on_floating. by intros H%bool_decide_eq_true_1. Qed.

Lemma r_window_pre (cv : ClockView) (window : option Id) (f : FloatOp) (s : ScrollOp) (w : Workspace.Workspace) :
  WorkspaceRoutes.named window w ->
  (names window (Workspace.floating w) -> f_pre f (Workspace.floating w)) ->
  (source_ok window (Workspace.scrolling w) -> ScrollingThms.op_pre cv s (Workspace.scrolling w)) ->
  r_pre cv (r_window window f s (view w)) w.
Proof.
  intros Hn Hf Hs. unfold r_window. destruct (v_on_floating window (view w)) eqn:E; cbn [r_pre].
  - apply Hf. intros x ->. by apply on_floating_true in E.
  - apply Hs. intros x ->. apply on_floating_false in E; [done|by apply Hn].
Qed.

Lemma r_window_tiled_pre (cv : ClockView) (window : option Id) (s : ScrollOp) (w : Workspace.Workspace) :
  WorkspaceRoutes.named window w -> (source_ok window (Workspace.scrolling w) -> ScrollingThms.op_pre cv s (Workspace.scrolling w)) ->
  r_pre cv (r_window_tiled window s (view w)) w.
Proof.
  intros Hn Hs. unfold r_window_tiled. destruct (v_on_floating window (view w)) eqn:E; [done|].
  apply Hs. intros x ->. apply on_floating_false in E; [done|by apply Hn].
Qed.

Lemma action_pre cv a (w : Workspace.Workspace) : WorkspaceRoutes.named (action_names a) w -> w_pre cv st (action_op a) w.
Proof.
  intros Hn. destruct a; try done; unfold w_pre; cbn [route action_op];
    try (unfold r_active, r_tiled; by destruct (v_floats _));
    try (by apply r_window_tiled_pre);
    try (apply r_window_pre; [exact Hn|by intros Hx; try apply Hx|by intros Hx; try apply Hx]);
    by apply Hn.
Qed.

(** ** Where an action goes *)
Definition place_of (g : Target) l : res (option Place) :=
  match g with
  | Active => active_place kin st l
  | Target_ window =>
      if Layout.guards_move window l then mret None
      else match window with Some x => p ← unwrap (window_place kin st x l); mret (Some p) | None => active_place kin st l end
  | Found x => mret (if is_moving kin st x l then None else window_place kin st x l)
  end.
Definition at_optional (p : option Place) (f : Workspace.Workspace -> res Workspace.Workspace) l : res Lay :=
  match p with Some p => drop kin st (on_place kin st p (plainly f) l) | None => mret l end.

Lemma drop_second {A} p (f : Workspace.Workspace -> res (A * Workspace.Workspace)) l :
  drop kin st (on_place kin st p (plainly (fun w => Workspace.second (f w))) l) = drop kin st (on_place kin st p f l).
Proof.
  unfold drop, on_place, plainly, Workspace.second. destruct p as [i j|j], (Layout.monitor_set l) as [mons ? ?|wss]; try done;
    unfold Layout.on_monitor, update_at, index; cbn;
    repeat match goal with |- context [unwrap ?o] => destruct o; [|done]; cbn end; match goal with |- context [f ?v] => by destruct (f v) as [[]|] end.
Qed.

Lemma on_active_eq f l : on_active kin st f l = (p ← active_place kin st l; at_optional p f l).
Proof.
  unfold on_active, on_active_returns, at_optional, drop. destruct (active_place kin st l) as [[p|]|]; try done.
  cbn. by destruct (on_place _ _ _ _ _) as [[]|].
Qed.
Lemma on_target_eq (window : option Win) f l :
  on_target kin st window f l
  = (p ← (if Layout.guards_move window l then mret None
          else match window with Some x => p ← unwrap (window_place kin st x l); mret (Some p) | None => active_place kin st l end);
     at_optional p f l).
Proof.
  unfold on_target. destruct (Layout.guards_move window l); [done|]. destruct window as [x|]; [|apply on_active_eq].
  by destruct (window_place kin st x l).
Qed.
Lemma drop_found x (f : Workspace.Workspace -> res (bool * Workspace.Workspace)) l :
  drop kin st (on_found_any kin st x f l) = at_optional (window_place kin st x l) (fun w => Workspace.second (f w)) l.
Proof. unfold on_found_any, at_optional. destruct (window_place kin st x l) as [p|]; [|done]. symmetry. apply drop_second. Qed.
Lemma drop_found_returns x (f : Workspace.Workspace -> res (bool * Workspace.Workspace)) l :
  drop kin st (on_found_returns kin st x f l)
  = at_optional (if is_moving kin st x l then None else window_place kin st x l) (fun w => Workspace.second (f w)) l.
Proof. unfold on_found_returns. destruct (is_moving kin st x l); [done|]. apply drop_found. Qed.
Lemma second_ret f (w : Workspace.Workspace) : Workspace.second (w ← f w; mret (true, w)) = f w.
Proof. unfold Workspace.second. by destruct (f w). Qed.
Lemma at_optional_ext p f g l : (forall w : Workspace.Workspace, f w = g w) -> at_optional p f l = at_optional p g l.
Proof.
  intros H. destruct p as [[i j|j]|]; [| |done]; unfold at_optional, drop, on_place, plainly, update_at, Layout.on_monitor, index;
    destruct (Layout.monitor_set l) as [mons ? ?|wss]; try done; cbn;
    repeat match goal with |- context [unwrap ?o] => destruct o; [|done]; cbn end; by rewrite H.
Qed.
Lemma on_found_eq x f l :
  on_found kin st x f l = at_optional (if is_moving kin st x l then None else window_place kin st x l) f l.
Proof. unfold on_found. rewrite drop_found_returns. apply at_optional_ext. intros w. apply second_ret. Qed.

(** A window being moved is on no workspace. *)
Lemma moving_nowhere x l : layout_ok l -> is_moving kin st x l = true -> window_place kin st x l = None.
Proof.
  intros Hok Hm. pose proof (window_place_spec kin st x l) as Hw. destruct (window_place kin st x l) as [p|]; [|done].
  destruct Hw as (w & Hp%at_workspaces & Hx). exfalso. pose proof (lo_wins l Hok) as Hnd. unfold Layout.windows in Hnd.
  apply NoDup_app in Hnd as (_ & Hd & _). apply (Hd x).
  - unfold is_moving, Layout.is_moving, Layout.moving_windows in *. destruct (Layout.interactive_move l) as [[|mv]|]; try done.
    apply bool_decide_eq_true_1 in Hm as <-. left.
  - apply list_elem_of_bind. by exists w.
Qed.

Lemma run_action_eq cv a l :
  layout_ok l -> run_action kin st cv a l = (p ← place_of (action_target a) l; at_optional p (w_run kin cv st (action_op a)) l).
Proof.
  intros Hok. destruct a; try exact (on_active_eq _ l); try exact (on_target_eq _ _ l); try exact (on_found_eq _ _ l).
  - cbn [run_action]. unfold interactive_resize_begin. rewrite drop_found. unfold place_of, mret, res_ret. cbn.
    destruct (is_moving kin st x l) eqn:E; [|done]. by rewrite moving_nowhere.
  - apply drop_found_returns.
Qed.

(** ** One action *)
Definition target_known (g : Target) l : Prop := match g with Target_ (Some x) => (x : Id) ∈ (Layout.windows l : list Id) | _ => True end.
Definition found_at (g : Target) (p : option Place) l : Prop :=
  match p with Some p => exists w, at_place kin st p l w /\ WorkspaceRoutes.named (target_names g) w | None => True end.

Lemma place_of_ok g l : layout_ok l -> target_known g l -> exists p, place_of g l = Ok p /\ found_at g p l.
Proof.
  intros Hok Hk. unfold place_of, found_at, target_known, WorkspaceRoutes.named, target_names in *.
  assert (Hact : exists p, active_place kin st l = Ok p /\ match p with Some p => exists w, at_place kin st p l w | None => True end).
  { pose proof (active_place_spec kin Hac st Hst l Hok) as Ha. destruct (Layout.monitor_set l); [destruct Ha as (p & w & -> & Hp); exists (Some p); split; [done|by exists w]|by exists None]. }
  destruct g as [|[x|]|x].
  - destruct Hact as (p & -> & Hp). exists p. split; [done|]. destruct p as [p|]; [|done]. destruct Hp as [w Hp]. by exists w.
  - match goal with |- context [if ?b then _ else _] => destruct b eqn:Eg end; [by exists None|].
    pose proof (window_place_spec kin st x l) as Hw. destruct (window_place kin st x l) as [p|]; cbn.
    + destruct Hw as (w & Hp & Hx). exists (Some p). split; [done|]. exists w. split; [done|]. intros y [= <-].
      exact (eq_rect _ (fun ys => x ∈ ys) Hx _ (tiles_windows w)).
    + exfalso. apply elem_of_app in Hk as [Hm|?]; [|done].
      unfold Layout.moving_windows, Layout.guards_move in *. destruct (Layout.interactive_move l) as [[|mv]|]; try by apply elem_of_nil in Hm.
      apply list_elem_of_singleton in Hm. by rewrite bool_decide_eq_true_2 in Eg.
  - match goal with |- context [if ?b then _ else _] => destruct b; [by exists None|] end.
    destruct Hact as (p & -> & Hp). exists p. split; [done|]. destruct p as [p|]; [|done]. destruct Hp as [w Hp]. by exists w.
  - eexists. split; [done|]. destruct (is_moving kin st x l); [done|].
    pose proof (window_place_spec kin st x l) as Hw. destruct (window_place kin st x l) as [p|]; [|done].
    destruct Hw as (w & Hp & Hx). exists w. split; [done|]. intros y [= <-].
    exact (eq_rect _ (fun ys => x ∈ ys) Hx _ (tiles_windows w)).
Qed.

Lemma at_place_ok p l w : layout_ok l -> at_place kin st p l w -> ws_ok w.
Proof.
  intros Hok Hp. unfold at_place in Hp. pose proof (lo_set l Hok) as Hset.
  destruct p as [i j|j], (Layout.monitor_set l) as [mons pr ac|wss]; try done.
  - destruct Hp as (m & Hm & Hw). destruct Hset. pose proof (Forall_lookup_1 _ _ _ _ (ms_semi _ _ no_mons) Hm) as Hs.
    by eapply lookup_ws_ok.
  - destruct Hset. by eapply Forall_lookup_1.
Qed.

(** What an operation did that keeps the windows of its workspace. *)
Definition op_done (op : WsOp) l (p : option Place) l' : Prop :=
  match p with
  | Some p => exists w w', at_place kin st p l w /\ l' = put kin st p w' l /\ at_place kin st p l' w'
      /\ WorkspaceInv.ws_ok kin w' /\ w_spec kin op (view w) (view w') /\ around w' = around w
  | None => l' = l
  end.

Lemma put_at p l w w' : at_place kin st p l w -> at_place kin st p (put kin st p w' l) w'.
Proof.
  unfold at_place, put. destruct p as [i j|j], (Layout.monitor_set l) as [mons pr ac|wss] eqn:Es; try done; rewrite ?Es; try done.
  - intros (m & Hm & Hw). cbn. eexists. split; [rewrite list_lookup_alter_eq, Hm; done|]. cbn.
    apply list_lookup_insert_eq. by eapply lookup_lt_Some.
  - intros Hw. cbn. apply list_lookup_insert_eq. by eapply lookup_lt_Some.
Qed.

Lemma op_same_ok cv op (w : Workspace.Workspace) :
  cv_ok cv -> real_ok kin w -> w_pre cv st op w -> w_came op = [] -> w_gone op (view w) = [] ->
  (forall w', w_around st op w w' -> around w' = around w) ->
  exists w', w_run kin cv st op w = Ok w' /\ same_ws (w : WS) w'
    /\ WorkspaceInv.ws_ok kin w' /\ w_spec kin op (view w) (view w') /\ around w' = around w.
Proof.
  intros Hcv Hw Hpre Hc Hg Har.
  destruct (proj1 (runs_ok _ _) (run_ws_op_both kin cv st op w Hac Hcv Hw Hpre)) as (w' & He & H1 & H2 & H3%Har & H4).
  exists w'. rewrite Hc, Hg, <-!tiles_windows in H4. split; [done|]. split; [|done].
  unfold around in H3. injection H3 as ? ? ? ? ? ? ? ? ? ? ?. split_and!; try done; by symmetry.
Qed.

Lemma op_at_ok cv op p l w :
  layout_ok l -> roomy l -> cv_ok cv -> at_place kin st p l w -> w_pre cv st op w -> w_came op = [] -> w_gone op (view w) = [] ->
  (forall w', w_around st op w w' -> around w' = around w) ->
  exists w', w_run kin cv st op w = Ok w' /\ layout_step [] [] l (put kin st p w' l)
    /\ on_place kin st p (plainly (w_run kin cv st op)) l = Ok (tt, put kin st p w' l)
    /\ WorkspaceInv.ws_ok kin w' /\ w_spec kin op (view w) (view w') /\ around w' = around w.
Proof.
  intros Hok Hr Hcv Hp Hpre Hc Hg Har. pose proof (at_place_ok p l w Hok Hp) as Hw.
  destruct (op_same_ok cv op w) as (w' & He & Hs & H); try done. exists w'.
  destruct (on_place_spec kin Hac st Hst p (plainly (w_run kin cv st op)) l w tt w') as [Ho Hl]; try done.
  unfold plainly. by rewrite He.
Qed.

(** An operation for a window or the active one, at the place found for it. *)
Definition calm (op : WsOp) : Prop :=
  w_came op = [] /\ (forall v, w_gone op v = []) /\ forall w w', w_around st op w w' -> around w' = around w.
Definition found_for (op : WsOp) cv (p : option Place) l : Prop :=
  match p with Some p => exists w, at_place kin st p l w /\ w_pre cv st op w | None => True end.

Lemma at_optional_ok cv op p l :
  layout_ok l -> roomy l -> cv_ok cv -> calm op -> found_for op cv p l ->
  exists l', at_optional p (w_run kin cv st op) l = Ok l' /\ layout_step [] [] l l' /\ op_done op l p l'.
Proof.
  intros Hok Hr Hcv (Hc & Hg & Ha) Hf. destruct p as [p|]; [|exists l; split; [done|]; split; [by apply step_same|done]].
  destruct Hf as (w & Hp & Hpre). destruct (op_at_ok cv op p l w) as (w' & He & Hst' & Hon & H1 & H2 & H3); try done.
  { intros w'. apply Ha. }
  exists (put kin st p w' l). unfold at_optional, drop. rewrite Hon. split; [done|]. split; [done|].
  exists w, w'. split_and!; try done. by eapply put_at.
Qed.

Lemma action_calm a : calm (action_op a).
Proof. split_and!; [by destruct a|by destruct a|]. intros w w'. by destruct a. Qed.

(** The operation [op] of the workspace meant by [g]. *)
Lemma on_target_ok cv g op l :
  layout_ok l -> roomy l -> cv_ok cv -> calm op -> target_known g l ->
  (forall w : Workspace.Workspace, WorkspaceRoutes.named (target_names g) w -> w_pre cv st op w) ->
  exists p l', place_of g l = Ok p /\ (p ← place_of g l; at_optional p (w_run kin cv st op) l) = Ok l'
    /\ layout_step [] [] l l' /\ op_done op l p l'.
Proof.
  intros Hok Hr Hcv Hc Hk Hpre. destruct (place_of_ok g l) as (p & Hp & Hf); try done. rewrite Hp. cbn [mbind res_bind].
  destruct (at_optional_ok cv op p l) as (l' & He & Hs & Hd); try done; [|by exists p, l'].
  destruct p as [p|]; [|done]. destruct Hf as (w & Hw & Hn). exists w. split; [done|]. by apply Hpre.
Qed.

Lemma run_action_ok cv a l :
  layout_ok l -> roomy l -> cv_ok cv -> target_known (action_target a) l ->
  exists p l', place_of (action_target a) l = Ok p /\ run_action kin st cv a l = Ok l' /\ layout_step [] [] l l'
    /\ op_done (action_op a) l p l'.
Proof.
  intros Hok Hr Hcv Hk. rewrite run_action_eq by done. apply on_target_ok; try done; [apply action_calm|]. intros w. apply action_pre.
Qed.

(** ** Between the layouts, for a window being moved *)
Lemma moving_tile_ok mv l : layout_ok l -> Layout.interactive_move l = Some (Layout.Moving mv) -> ScrollingTiles.tile_incoming (Layout.im_tile mv).
Proof. intros Hok Hm. exact (mv_tile (WL := real_laws kin Hac st Hst) mv (lo_moving l Hok mv Hm)). Qed.

Lemma requested_incoming size animate (t : Tile.Tile) :
  ScrollingTiles.tile_incoming t ->
  ScrollingTiles.tile_incoming (FloatingSpace.request_once size animate t) /\ Tile.id (FloatingSpace.request_once size animate t) = Tile.id t.
Proof.
  intros (o & vs & sc & Ho & Ht & Hsy). destruct (TileInv.request_once_asked _ _ _ t size animate Ht) as (Hok & [Hi Hs _] & Hp & Hsy').
  split; [|done]. exists o, vs, sc. split_and!; [done..|by apply Hsy'].
Qed.
Lemma animated_incoming cv (f g : f64) c (t : Tile.Tile) :
  cv_ok cv -> config_total c -> ScrollingTiles.tile_incoming t ->
  exists t', Tile.animate_alpha cv f g c t = Ok t' /\ ScrollingTiles.tile_incoming t' /\ Tile.id t' = Tile.id t.
Proof.
  intros Hcv Hc (o & vs & sc & Ho & Ht & Hsy).
  destruct (proj1 (runs_ok _ _) (TileInv.animate_alpha_runs o vs sc cv Hcv f g c t Ht Hc)) as (t' & He & Hok & Hk).
  exists t'. split; [done|]. split; [exists o, vs, sc; split_and!; [done..|by eapply TileInv.synced_kept]|by apply Hk].
Qed.
Lemma held_incoming (t : Tile.Tile) : ScrollingTiles.tile_incoming t -> ScrollingTiles.tile_incoming (Tile.hold_alpha_animation_after_done t).
Proof.
  intros (o & vs & sc & Ho & Ht & Hsy). exists o, vs, sc. unfold Tile.hold_alpha_animation_after_done.
  destruct (Tile.alpha_animation t) as [a|] eqn:Ea; [|done]. split_and!; [done| |done]. pose proof (TileInv.to_alpha _ _ _ _ Ht) as Hal.
  rewrite Ea in Hal. destruct Ht. constructor; try done. intros b [= <-]. exact (Hal a eq_refl).
Qed.

(** The moved window floats, or no longer: the layout has the same windows. *)
Lemma move_again_step mv mv' l :
  layout_ok l -> Layout.interactive_move l = Some (Layout.Moving mv) -> moving_ok mv' ->
  tile_win (Layout.im_tile mv') = tile_win (Layout.im_tile mv) ->
  layout_step [] [] l (Layout.set_interactive_move (Some (Layout.Moving mv')) l).
Proof.
  intros Hok Hm Hmv Hw.
  assert (Hws : Layout.windows (Layout.set_interactive_move (Some (Layout.Moving mv')) l) = Layout.windows l).
  { change ([tile_win (Layout.im_tile mv')] ++ (Layout.workspaces l ≫= ws_windows) = Layout.windows l). rewrite Hw.
    unfold Layout.windows, Layout.moving_windows. by rewrite Hm. }
  split; [|by rewrite Hws]. destruct Hok. constructor; try done.
  - intros mv0 [= <-]. done.
  - by rewrite Hws.
  - cbn. destruct (Layout.monitor_set l); [destruct lo_set; by constructor|done].
Qed.

Lemma with_tile_ok (t : Tile.Tile) b mv :
  moving_ok mv -> ScrollingTiles.tile_incoming t -> moving_ok (with_tile kin st t b mv).
Proof. intros [] Ht. by constructor. Qed.

Lemma toggle_moved_ok cv mv l :
  layout_ok l -> roomy l -> cv_ok cv -> Layout.interactive_move l = Some (Layout.Moving mv) -> can_settle cv l ->
  exists l', toggle_moved kin st cv mv l = Ok l' /\ layout_step [] [] l l'
    /\ exists mv', Layout.interactive_move l' = Some (Layout.Moving mv') /\ Layout.im_is_floating mv' = negb (Layout.im_is_floating mv).
Proof.
  intros Hok Hr Hcv Hm Hset. pose proof (moving_tile_ok mv l Hok Hm) as Ht. pose proof (lo_moving l Hok mv Hm) as Hmv.
  assert (Hc : config_total (window_movement (opt_layout (Layout.options l)))) by apply (TileInv.oo_movement _ (op_layout _ (lo_options l Hok))).
  unfold toggle_moved. cbv zeta. destruct (negb (Layout.im_is_floating mv)).
  - destruct (requested_incoming (moved_floating_size (Layout.im_tile mv)) true (Layout.im_tile mv) Ht) as [Hrq Hid].
    destruct (animated_incoming cv INTERACTIVE_MOVE_ALPHA f1 _ _ Hcv Hc Hrq) as (t & -> & Hti & Hid'). cbn [mbind res_bind].
    match goal with |- context [end_workspace_gestures _ _ _ ?l1] => assert (Hst1 : layout_step [] [] l l1) end.
    { apply (move_again_step mv); [done|done|by apply with_tile_ok|]. cbn. congruence. }
    change (end_workspace_gestures kin st cv) with (Layout.each_workspace (ws_dnd_scroll_gesture_end cv)).
    match goal with |- context [Layout.each_workspace _ ?l1] => destruct (each_workspace_spec (ws_dnd_scroll_gesture_end cv) l1) as (l2 & -> & Hst2 & Him & _) end.
    + apply Hst1.
    + done.
    + intros w Hin Hw. destruct (ws_dnd_end_spec cv w) as (w' & Hw' & Hs); [done|done|by apply Hset|]. by exists w'.
    + exists l2. split; [done|]. split; [by eapply layout_step_trans|]. rewrite Him. by eexists.
  - destruct (animated_incoming cv f1 INTERACTIVE_MOVE_ALPHA _ _ Hcv Hc Ht) as (t & -> & Hti & Hid'). cbn [mbind res_bind].
    eexists. split; [done|]. split; [|by eexists]. apply (move_again_step mv); [done|done|by apply with_tile_ok; [|apply held_incoming]|].
    cbn. unfold Tile.hold_alpha_animation_after_done, Tile.id in *. by destruct (Tile.alpha_animation t).
Qed.

(** What changes is either the window being moved, or its workspace. *)
Definition floating_changed op (window : option Id) (mv : option Layout.InteractiveMoveData) l l' : Prop :=
  match mv with
  | Some mv => exists mv', Layout.interactive_move l' = Some (Layout.Moving mv') /\ Layout.im_is_floating mv' = negb (Layout.im_is_floating mv)
  | None => exists p, place_of (Target_ window) l = Ok p /\ op_done op l p l'
  end.

Lemma toggle_floating_ok cv (window : option Id) l :
  layout_ok l -> roomy l -> cv_ok cv -> target_known (Target_ window) l -> (forall mv, moved_target kin st window l = Some mv -> can_settle cv l) ->
  exists l', toggle_window_floating kin st cv window l = Ok l' /\ layout_step [] [] l l'
    /\ floating_changed (WToggleFloating window) window (moved_target kin st window l) l l'.
Proof.
  intros Hok Hr Hcv Hk Hset. unfold toggle_window_floating, floating_changed. destruct (moved_target kin st window l) as [mv|] eqn:Em.
  - apply toggle_moved_ok; [done..| |by apply (Hset mv)]. unfold moved_target in Em. destruct (Layout.interactive_move l) as [[|mv0]|]; try done.
    destruct (Layout.guards_move _ _); congruence.
  - rewrite on_target_eq. destruct (on_target_ok cv (Target_ window) (WToggleFloating window) l) as (p & l' & Hp & He & Hs & Hd); try done.
    exists l'. split; [exact He|]. split; [done|by exists p].
Qed.

Lemma set_floating_ok cv (window : option Id) (b : bool) l :
  layout_ok l -> roomy l -> cv_ok cv -> target_known (Target_ window) l -> (forall mv, moved_target kin st window l = Some mv -> can_settle cv l) ->
  exists l', set_window_floating kin st cv window b l = Ok l' /\ layout_step [] [] l l'
    /\ match moved_target kin st window l with
       | Some mv => exists mv', Layout.interactive_move l' = Some (Layout.Moving mv') /\ Layout.im_is_floating mv' = b
       | None => floating_changed (WSetFloating window b) window None l l'
       end.
Proof.
  intros Hok Hr Hcv Hk Hset. pose proof (toggle_floating_ok cv window l Hok Hr Hcv Hk Hset) as Ht. unfold set_window_floating.
  destruct (moved_target kin st window l) as [mv|] eqn:Em.
  - destruct (Bool.eqb (Layout.im_is_floating mv) b) eqn:E.
    + apply Bool.eqb_prop in E. exists l. split; [done|]. split; [by apply step_same|]. exists mv. split; [|done].
      unfold moved_target in Em. destruct (Layout.interactive_move l) as [[|mv0]|]; try done. destruct (Layout.guards_move _ _); congruence.
    + destruct Ht as (l' & He & Hs & mv' & Hm & Hf). exists l'. split; [done|]. split; [done|]. exists mv'. split; [done|].
      rewrite Hf. by destruct (Layout.im_is_floating mv), b.
  - rewrite on_target_eq. destruct (on_target_ok cv (Target_ window) (WSetFloating window b) l) as (p & l' & Hp & He & Hs & Hd); try done.
    exists l'. split; [exact He|]. split; [done|by exists p].
Qed.

(** ** Across outputs *)
Lemma position_alter {A} (f : A -> bool) (g : A -> A) (i : nat) (xs : list A) :
  (forall y, f (g y) = f y) -> position f (alter g i xs) = position f xs.
Proof.
  intros Hg. revert i. induction xs as [|x xs IH]; intros [|i]; try done; cbn.
  - by rewrite Hg.
  - destruct (f x); [done|]. f_equal. apply IH.
Qed.

Lemma put_connected p w l o : connected o (put kin st p w l) <-> connected o l.
Proof.
  unfold connected, put, Layout.monitor_idx. destruct p as [i j|j], (Layout.monitor_set l) as [mons pr ac|wss] eqn:Es; cbn; rewrite ?Es; try done.
  by rewrite position_alter.
Qed.

(** The workspace in front is tried first.  [b]: it did nothing and is as it was, and
    the output has to do.  Otherwise it did what its operation promises, and that was
    something, and the output has no part in it. *)
Definition or_op (a : OrOutput) : WsOp :=
  match a with
  | OrFocusUp => WFocusUp | OrFocusDown => WFocusDown | OrFocusLeft => WFocusLeft | OrFocusRight => WFocusRight
  | OrMoveLeft => WMoveLeft | OrMoveRight => WMoveRight
  end.
Definition or_done (a : OrOutput) (other : Lay -> res Lay) l (b : bool) l' : Prop :=
  exists p, place_of Active l = Ok p /\
    match p with
    | None => b = true /\ other l = Ok l'
    | Some p => exists w, at_place kin st p l w /\
        if b then other (put kin st p w l) = Ok l'
        else exists w', l' = put kin st p w' l /\ at_place kin st p l' w' /\ WorkspaceInv.ws_ok kin w' /\ w_spec kin (or_op a) (view w) (view w')
          /\ around w' = around w /\ or_did a (view w) (view w')
    end.

Lemma or_output_ok cv a other l :
  layout_ok l -> roomy l -> cv_ok cv ->
  (forall l1, layout_ok l1 -> roomy l1 -> (forall o, connected o l -> connected o l1) -> exists l', other l1 = Ok l' /\ layout_step [] [] l1 l') ->
  exists b l', or_output kin st (or_workspace cv kin a) other l = Ok (b, l') /\ layout_step [] [] l l' /\ or_done a other l b l'.
Proof.
  intros Hok Hr Hcv Hother. pose proof (active_place_spec kin Hac st Hst l Hok) as Ha. unfold or_output, or_done, on_active_returns, place_of.
  destruct (Layout.monitor_set l) as [mons pr ac|wss] eqn:Es.
  2:{ rewrite Ha. unfold mret, res_ret. cbn [mbind res_bind]. destruct (Hother l) as (l2 & Ho & Hs2); [done|done|done|]. rewrite Ho. eexists true, _.
      split; [done|]. split; [done|]. by exists None. }
  destruct Ha as (p & w & -> & Hp). cbn [mbind res_bind]. set (f := or_workspace cv kin a).
  assert (Hf : Workspace.second (f w) = w_run kin cv st (or_op a) w) by by destruct a.
  assert (Hpre : w_pre cv st (or_op a) w) by (destruct a; unfold w_pre; cbn [route or_op]; unfold r_active; by destruct (v_floats _)).
  assert (Hc : calm (or_op a)) by by destruct a. destruct Hc as (Hc & Hg & Har).
  destruct (op_same_ok cv (or_op a) w) as (w' & He & Hs & H1 & H2 & H3); try done; [by eapply at_place_ok|intros w'; apply Har|].
  rewrite <-Hf in He. unfold Workspace.second in He. destruct (f w) as [[b w1]|] eqn:Efw; [|done]. injection He as ->.
  destruct (on_place_spec kin Hac st Hst p f l w b w') as [-> Hl]; try done. unfold mret, res_ret. cbn [mbind res_bind]. destruct b.
  - eexists false, _. split; [done|]. split; [exact Hl|]. exists (Some p). split; [done|]. exists w. split; [done|]. exists w'.
    split_and!; try done; [by eapply put_at|]. apply (or_something cv Hcv kin Hac a w w'); [by eapply at_place_ok|exact Efw].
  - apply (or_nothing cv kin) in Efw as ->. destruct (Hother (put kin st p w l)) as (l2 & Ho & Hs2); [apply Hl|by apply put_roomy|intros o; by rewrite put_connected|].
    rewrite Ho. eexists true, _. split; [done|]. split; [by eapply layout_step_trans|]. exists (Some p). split; [done|]. by exists w.
Qed.

Definition run_or cv (a : OrOutput) o : Lay -> res (bool * Lay) :=
  match a with
  | OrFocusUp => focus_window_up_or_output kin st cv o
  | OrFocusDown => focus_window_down_or_output kin st cv o
  | OrFocusLeft => focus_column_left_or_output kin st cv o
  | OrFocusRight => focus_column_right_or_output kin st cv o
  | OrMoveLeft => move_column_left_or_to_output kin st cv o
  | OrMoveRight => move_column_right_or_to_output kin st cv o
  end.
Definition or_other cv (a : OrOutput) o : Lay -> res Lay :=
  match a with OrMoveLeft | OrMoveRight => column_to_output kin st cv o | _ => to_output kin st o end.

Lemma run_or_ok cv a o l :
  layout_ok l -> roomy l -> cv_ok cv -> connected o l ->
  exists b l', run_or cv a o l = Ok (b, l') /\ layout_step [] [] l l' /\ or_done a (or_other cv a o) l b l'.
Proof.
  intros Hok Hr Hcv Hcon. replace (run_or cv a o l) with (or_output kin st (or_workspace cv kin a) (or_other cv a o) l) by by destruct a.
  apply or_output_ok; [done..|]. intros l1 H1 H2 H3. assert (Hfocus : exists l', to_output kin st o l1 = Ok l' /\ layout_step [] [] l1 l').
  { eexists. split; [done|]. by apply focus_output_step. }
  assert (Hmove : exists l', column_to_output kin st cv o l1 = Ok l' /\ layout_step [] [] l1 l').
  { apply move_column_to_output_spec; auto. }
  by destruct a.
Qed.
End actions.

(** * Gestures that scroll a workspace

    The touchpad gestures of src/layout/mod.rs that scroll the columns of one
    workspace return and keep the layout in order. *)
Section gestures.
Context {LE : LayoutElement} {LEL : LayoutElementLaws} {GE : Geometry} {GL : GeometryLaws} {LM : Libm} {KF : Keyframe} {OU : Outputs}
  {SM : Smithay}.
Context (kin : Id -> Id -> bool) (Hac : acyclic kin) (st : WOutput -> OutputState) (Hst : outputs_ok st).
#[local] Hint Extern 0 WorkspaceOps => exact (real_ops kin st) : typeclass_instances.
#[local] Hint Extern 0 LayoutOps => exact (real_layout_ops kin st) : typeclass_instances.
#[local] Hint Extern 0 WorkspaceLaws => exact (real_laws kin Hac st Hst) : typeclass_instances.
#[local] Hint Extern 0 LayoutLaws => exact (real_layout_laws kin Hac st Hst) : typeclass_instances.
Abbreviation Lay := Layout.Layout.
Abbreviation Mon := Monitor.Monitor.
Implicit Types (cv : ClockView) (w : WS) (x : Win) (l : Lay) (m : Mon).
Import Actions.


(** ** Workspaces one after the other *)
Definition tame {A} (f : Workspace.Workspace -> res (A * Workspace.Workspace)) w : Prop :=
  exists a w', f w = Ok (a, w') /\ same_ws w w'.

Lemma first_ws_ok {A} (f : Workspace.Workspace -> res (option A * Workspace.Workspace)) (wss : list WS) :
  Forall ws_ok wss -> Forall (tame f) wss -> exists o (wss' : list WS), first_ws f wss = Ok (o, wss') /\ Forall2 same_ws wss wss'.
Proof.
  intros Hok. induction 1 as [|w wss (o & w' & He & Hs) _ IH]; [by exists None, []|]. cbn. rewrite He. cbn.
  apply Forall_cons in Hok as [Hw Hwss]. destruct o as [o|].
  - eexists _, _. split; [done|]. constructor; [done|]. clear -Hwss. induction Hwss; constructor; [by apply same_refl|done].
  - destruct (IH Hwss) as (o & wss' & -> & HF). eexists _, _. split; [done|]. by constructor.
Qed.

Lemma op_tame {A} cv op (f : Workspace.Workspace -> res (A * Workspace.Workspace)) w :
  cv_ok cv -> real_ok kin w -> calm kin st op -> w_pre cv st op w -> Workspace.second (f w) = w_run kin cv st op w -> tame f w.
Proof.
  intros Hcv Hw (Hc & Hg & Ha) Hp Hf. destruct (op_same_ok kin Hac st Hst cv op w) as (w' & He & Hs & _); try done; [intros w'; apply Ha|].
  rewrite <-Hf in He. unfold Workspace.second in He. destruct (f w) as [[a w1]|] eqn:E; [|done]. injection He as ->. by exists a, w'.
Qed.

Lemma tame_second {A} (f : Workspace.Workspace -> res (A * Workspace.Workspace)) w :
  tame f w -> exists w', Workspace.second (f w) = Ok w' /\ same_ws w w'.
Proof. intros (a & w' & -> & Hs). by exists w'. Qed.

Lemma gesture_end_tame cv tp w : cv_ok cv -> real_ok kin w -> gesture_ok cv w -> tame (Workspace.view_offset_gesture_end cv tp) w.
Proof. intros Hcv Hw Hg. by apply (op_tame cv (WGestureEnd tp)). Qed.
Lemma gesture_update_tame cv dx ts tp w :
  cv_ok cv -> real_ok kin w -> ScrollingViews.time_ok ts -> tame (Workspace.view_offset_gesture_update dx ts tp) w.
Proof. intros Hcv Hw Hts. by apply (op_tame cv (WGestureUpdate dx ts tp)). Qed.
Lemma gesture_begin_same cv tp (w : Workspace.Workspace) :
  cv_ok cv -> real_ok kin w -> exists w', Workspace.view_offset_gesture_begin cv tp w = Ok w' /\ same_ws (w : WS) w'.
Proof.
  intros Hcv Hw. destruct (op_same_ok kin Hac st Hst cv (WGestureBegin tp) w) as (w' & He & Hs & _); try done. by exists w'.
Qed.

(** ** The gestures *)
Lemma placed_workspace mons m w l p a :
  Layout.monitor_set l = Layout.Normal mons p a -> m ∈ mons -> w ∈ Monitor.workspaces m -> w ∈ Layout.workspaces l.
Proof. intros Es Hm Hw. unfold Layout.workspaces. rewrite Es. apply list_elem_of_bind. by exists m. Qed.
Lemma workspace_in_order {HM : Home} m w : semi_ok m -> w ∈ Monitor.workspaces m -> ws_ok w.
Proof. intros Hs. exact (proj1 (Forall_forall _ _) (mc_ws _ (so_core _ Hs)) w). Qed.

Lemma iter_mut_same (f : nat -> Workspace.Workspace -> res Workspace.Workspace) k (wss : list WS) :
  (forall i w, w ∈ wss -> exists w', f i w = Ok w' /\ same_ws (w : WS) w') -> exists wss' : list WS, Column.iter_mut f k wss = Ok wss' /\ Forall2 same_ws wss wss'.
Proof.
  revert k. induction wss as [|w wss IH]; intros k Hf; [by exists []|]. cbn.
  destruct (Hf k w) as (w' & -> & Hs); [left|]. cbn.
  destruct (IH (S k)) as (wss' & -> & HF); [intros i v Hv; apply Hf; by right|]. exists (w' :: wss'). split; [done|]. by constructor.
Qed.

Lemma view_gesture_begin_ok cv o idx tp l :
  layout_ok l -> roomy l -> cv_ok cv -> has_outputs l -> can_settle cv l ->
  exists l', view_offset_gesture_begin kin st cv o idx tp l = Ok l' /\ layout_step [] [] l l'.
Proof.
  intros Hok Hr Hcv Hh Hset. unfold view_offset_gesture_begin, has_outputs in *.
  destruct (Layout.monitor_set l) as [mons p a|wss] eqn:Es; [|done]. pose proof (lo_set l Hok) as Hn. rewrite Es in Hn.
  match goal with |- context [Layout.each_monitor ?f mons _] =>
    destruct (each_step f l mons p a) as (mons' & c' & He & _ & Hl) end; try done.
  - apply same_list_harmless. intros c m Hm m1 Hs. apply iter_mut_same. intros i w Hw.
    pose proof (workspace_in_order (HM := home_of m) m1 w Hs Hw) as Hwok. destruct (_ || _).
    + apply tame_second, gesture_end_tame; [done..|]. apply Hset. by eapply placed_workspace.
    + by apply gesture_begin_same.
  - rewrite He. cbn. eexists. split; [done|]. exact Hl.
Qed.

Lemma on_first_harmless {A} mons (f : Workspace.Workspace -> res (option A * Workspace.Workspace)) :
  (forall m w, m ∈ mons -> w ∈ Monitor.workspaces m -> ws_ok w -> tame f w) -> harmless_in mons (on_first_ws kin st f).
Proof.
  intros Hf c m Hm m1 Hs _ _. destruct (first_ws_ok f (Monitor.workspaces m1)) as (o & wss & He & HF).
  - apply Hs.
  - apply Forall_forall. intros w Hw. apply (Hf m w Hm Hw). by apply (workspace_in_order (HM := home_of m) m1).
  - unfold on_first_ws. rewrite He. cbn. eexists _, _. split; [done|]. by apply (same_list (HM := home_of m)).
Qed.

Lemma zoom_ok cv l : layout_ok l -> cv_ok cv -> exists z, overview_zoom kin st cv l = Ok z.
Proof.
  intros Hok Hcv. unfold overview_zoom, compute_overview_zoom.
  assert (Hp : exists p, (match Layout.overview_progress l with Some p => v ← Layout.progress_value cv (Some p); mret (Some v) | None => mret None end) = Ok p).
  { destruct (Layout.overview_progress l) as [p|] eqn:Eo; [|by eexists].
    destruct (progress_value_ok cv (Some p)) as [v ->]; [rewrite <-Eo; apply Hok|done|by eexists]. }
  destruct Hp as [p ->]. cbn [mbind res_bind].
  destruct (fclamp_ok (opt_overview_zoom (Layout.options l)) (lit 1 10000) (lit 75 100)) as [y ->]; [by vm_compute|]. by eexists.
Qed.

Lemma view_gesture_update_ok cv dx ts tp l :
  layout_ok l -> roomy l -> cv_ok cv -> ScrollingViews.time_ok ts ->
  exists r l', view_offset_gesture_update kin st cv dx ts tp l = Ok (r, l') /\ layout_step [] [] l l'.
Proof.
  intros Hok Hr Hcv Hts. unfold view_offset_gesture_update. destruct (zoom_ok cv l Hok Hcv) as [y ->]. cbn [mbind res_bind].
  pose proof (lo_set l Hok) as Hset. destruct (Layout.monitor_set l) as [mons pr a|wss] eqn:Es; [|eexists _, l; split; [done|by apply step_same]].
  match goal with |- context [Layout.first_monitor ?f 0 mons _] =>
    destruct (first_step_in f l mons pr a) as (o & mons' & c' & -> & _ & _ & Hl) end; try done;
    [|cbn; eexists _, _; split; [done|]; apply Hl, Hset].
  apply on_first_harmless. intros m w _ _ Hw. by apply (gesture_update_tame cv).
Qed.

Lemma view_gesture_end_ok cv tp l :
  layout_ok l -> roomy l -> cv_ok cv -> can_settle cv l ->
  exists r l', view_offset_gesture_end kin st cv tp l = Ok (r, l') /\ layout_step [] [] l l'.
Proof.
  intros Hok Hr Hcv Hset. unfold view_offset_gesture_end. pose proof (lo_set l Hok) as Hn.
  destruct (Layout.monitor_set l) as [mons pr a|wss] eqn:Es; [|eexists _, l; split; [done|by apply step_same]].
  match goal with |- context [Layout.first_monitor ?f 0 mons _] =>
    destruct (first_step_in f l mons pr a) as (o & mons' & c' & -> & _ & _ & Hl) end; try done;
    [|cbn; eexists _, _; split; [done|]; apply Hl, Hn].
  apply on_first_harmless. intros m w Hm Hin Hw.
  destruct (gesture_end_tame cv tp w) as (b & w' & He & Hs); [done|done|apply Hset; by eapply placed_workspace|].
  unfold tame. rewrite He. by eexists _, w'.
Qed.
End gestures.
