(* ===== verification/LayoutDrag.v ===== *)
(** * Dragging a window around

    Interactive moves of src/layout/mod.rs: a window that is grabbed follows the
    pointer like a rubber band; dragged far enough it leaves the layout and is held
    by the pointer; let go, it goes to the workspace, the place between workspaces
    or the place in a workspace that the pointer is at. *)

From stdpp Require Import base numbers option list strings gmap.
From Stdlib Require Import ZArith Lia SpecFloat.
From S2P Require Import Prelude.
From S2P Require Import F64.
From S2P Require Import Duration.
From S2P Require Import Clock.
From S2P Require Import Gesture.
From S2P Require Import Animation.
From S2P Require Import OutputName.
From S2P Require Import LayoutTypes.
From S2P Require Import Tile.
From S2P Require Import TileGeometry.
From S2P Require Import Floating.
From S2P Require Import Column.
From S2P Require Import Scrolling.
From S2P Require Import Workspace.
From S2P Require Import Interface.
From S2P Require Import Monitor.
From S2P Require Import MonitorGeometry.
From S2P Require Import Layout.
From S2P Require Import LayoutReal.
From S2P Require Import LayoutActions.

Module Drag.
Section ops.
Context {LE : LayoutElement} {GE : Geometry} {LM : Libm} {KF : Keyframe} {OU : Outputs} {SM : Smithay} {RE : Rectangles}.
Context (kin : Id -> Id -> bool) (st : WOutput -> OutputState).
#[local] Hint Extern 0 WorkspaceOps => exact (real_ops kin st) : typeclass_instances.
#[local] Hint Extern 0 LayoutOps => exact (real_layout_ops kin st) : typeclass_instances.
Abbreviation Lay := Layout.Layout.
Abbreviation Mon := Monitor.Monitor.
Abbreviation MoveData := Layout.InteractiveMoveData.
Implicit Types (cv : ClockView) (now : Duration) (w : Workspace.Workspace) (t : Tile.Tile) (x : Id) (o : WOutput) (l : Lay) (m : Mon) (mv : MoveData).
Import Actions.

Definition INTERACTIVE_MOVE_START_THRESHOLD : f64 := (of_Z 256 * of_Z 256)%F.

(** ** Where things are *)
Definition monitors l : list Mon := match Layout.monitor_set l with Layout.Normal mons _ _ => mons | Layout.NoOutputs _ => [] end.
Definition monitor_for_output o l : option Mon := find (fun m => bool_decide (Monitor.output m = o)) (monitors l).

(** The monitor and workspace, on the screen, that have a window. *)
Fixpoint find_visible cv x (mons : list Mon) : res (option (Mon * Workspace.Workspace * Rect)) :=
  match mons with
  | [] => Ok None
  | m :: mons =>
      gs ← MonitorGeometry.workspaces_with_render_geo cv m;
      match find (fun wg : Workspace.Workspace * Rect => has_window kin st x wg.1) gs with
      | Some (w, geo) => mret (Some (m, w, geo))
      | None => find_visible cv x mons
      end
  end.
Definition render_tile cv x w : res (Tile.Tile * Point) :=
  ps ← Workspace.tiles_with_render_positions cv w;
  y ← unwrap (find (fun y : Tile.Tile * Point * bool => Column.has_id x y.1.1) ps);
  mret y.1.

(** The tile held by the pointer. *)
Definition tile_render_location cv (zoom : f64) mv : res Point :=
  let t : Tile.Tile := Layout.im_tile mv in
  let scale := fractional_scale (current_scale (st (Layout.im_output mv))) in
  let size := Tile.window_size t in
  let ratio := Layout.im_pointer_ratio_within_window mv in
  let pointer := ((size.1 * ratio.1)%F, (size.2 * ratio.2)%F) in
  loc ← TileGeometry.window_loc cv t;
  offset ← Tile.render_offset cv t;
  mret (round_size scale (pair_sub (Layout.im_pointer_pos_within_output mv) (upscale zoom (pair_sub (pair_add pointer loc) offset)))).

(** ** Grabbing a window *)
Definition begin_monitor_gestures cv now l : res Lay :=
  match Layout.monitor_set l with
  | Layout.Normal mons primary active =>
      '(mons, c) ← Layout.each_monitor (Monitor.dnd_scroll_gesture_begin cv now) mons (Layout.id_counter l);
      mret (Layout.set_monitor_set (Layout.Normal mons primary active) c l)
  | Layout.NoOutputs _ => mret l
  end.
Definition begin_workspace_gestures cv : Lay -> res Lay := Layout.each_workspace (Workspace.dnd_scroll_gesture_begin cv).

Definition pointer_ratio cv x (geo : Rect) (zoom : f64) (start_pos : Point) w : res (f64 * f64) :=
  '(t, tile_offset) ← render_tile cv x w;
  window_offset ← TileGeometry.window_loc cv t;
  let tile_pos := pair_add geo.1 (upscale zoom tile_offset) in
  let offset := pair_sub (pair_sub start_pos tile_pos) (upscale zoom window_offset) in
  let size := upscale zoom (Tile.window_size t) in
  rx ← fclamp (offset.1 / size.1)%F f0 f1;
  ry ← fclamp (offset.2 / size.2)%F f0 f1;
  mret (rx, ry).

Definition interactive_move_begin cv now x o (start_pos : Point) l : res (bool * Lay) :=
  match Layout.interactive_move l with
  | Some _ => mret (false, l)
  | None =>
      v ← find_visible cv x (monitors l);
      match v with
      | None => mret (false, l)
      | Some (m, w, geo) =>
          if negb (bool_decide (Monitor.output m = o)) then mret (false, l)
          else
            zoom ← Monitor.overview_zoom cv m;
            ratio ← pointer_ratio cv x geo zoom start_pos w;
            let is_floating := Workspace.is_floating x w in
            l ← begin_monitor_gestures cv now (Layout.set_interactive_move (Some (Layout.Starting x (f0, f0) ratio)) l);
            l ← (if is_floating then mret l else begin_workspace_gestures cv l);
            mret (true, l)
      end
  end.

(** ** Moving the pointer *)

(** The tile of a window that is grabbed moves towards the pointer; returns whether the
    window floats and the configuration of its workspace. *)
Definition stretch x (offset : Point) w : res ((bool * option (Z * LayoutPart)) * Workspace.Workspace) :=
  w' ← update_tile_of x (fun t => mret (Tile.set_interactive_move_offset offset t)) w;
  mret ((Workspace.is_floating x w, (fun c => (Workspace.id w, c)) <$> Workspace.layout_config w), w').

(** Where the window is, if that is on output [o]. *)
Definition position_on cv x o l : res (option (Point * f64)) :=
  v ← find_visible cv x (monitors l);
  match v with
  | Some (m, w, geo) =>
      if bool_decide (Monitor.output m = o) then
        '(_, tile_offset) ← render_tile cv x w;
        zoom ← Monitor.overview_zoom cv m;
        mret (Some (pair_add geo.1 (upscale zoom tile_offset), zoom))
      else mret None
  | None => mret None
  end.

(** Takes the window out of the layout, neither fullscreen nor maximized. *)
Definition take_window cv now x l : res (RemovedTile Tile.Tile * Lay) :=
  p ← unwrap (window_place kin st x l);
  l ← drop kin st (on_place kin st p (plainly (Workspace.set_fullscreen cv kin x false)) l);
  l ← drop kin st (on_place kin st p (plainly (Workspace.set_maximized cv kin x false)) l);
  '(r, l) ← Layout.remove_window cv now x l;
  r ← unwrap r;
  mret (r, l).

Definition moved_config o (oc : option LayoutPart) (wc : option (Z * LayoutPart)) l t : Tile.Tile :=
  @Layout.tile_update_config _ (real_layout_ops kin st) o
    (with_merged_layout (snd <$> wc) (with_merged_layout oc (Layout.options l))) t.

Definition movement_config l : Config.Animation := window_movement (opt_layout (Layout.options l)).
Definition held_by cv (r : RemovedTile Tile.Tile) l : res (Tile.Tile * Lay) :=
  let t : Tile.Tile := rt_tile r in
  if rt_is_floating r then l ← end_workspace_gestures kin st cv l; mret (t, l)
  else t ← Tile.animate_alpha cv f1 INTERACTIVE_MOVE_ALPHA (movement_config l) t; mret (Tile.hold_alpha_animation_after_done t, l).

Definition picked_tile o (oc : option LayoutPart) (wc : option (Z * LayoutPart)) l (r : RemovedTile Tile.Tile) : RemovedTile Tile.Tile :=
  {| rt_tile := moved_config o oc wc l (Tile.set_interactive_move_offset (f0, f0) (Tile.stop_move_animations (rt_tile r)));
     rt_width := rt_width r; rt_is_full_width := rt_is_full_width r; rt_is_floating := rt_is_floating r |}.

Definition pick_up cv now x o (pointer : Point) (ratio : f64 * f64) (wc : option (Z * LayoutPart)) l : res Lay :=
  let oc := m ← monitor_for_output o l; Monitor.layout_config m in
  tile_pos ← position_on cv x o l;
  '(r, l) ← take_window cv now x (Layout.set_interactive_move None l);
  '(t, l) ← held_by cv (picked_tile o oc wc l r) l;
  let mv := Layout.Build_InteractiveMoveData (t : @Interface.Tile (real_ops kin st)) o pointer (rt_width r) (rt_is_full_width r) (rt_is_floating r)
              ratio oc wc in
  t ← match tile_pos with
      | Some (pos, zoom) =>
          new_pos ← tile_render_location cv zoom mv;
          Tile.animate_move_from cv (downscale zoom (pair_sub pos new_pos)) t
      | None => mret t
      end;
  mret (Layout.set_interactive_move (Some (Layout.Moving (with_tile kin st t (rt_is_floating r) mv))) l).

Definition START_RUBBER_BAND : RubberBand.RubberBand := {| RubberBand.stiffness := f1; RubberBand.limit := lit 5 10 |}.
Definition sq_dist (d : Point) : f64 := (d.1 * d.1 + d.2 * d.2)%F.
Definition stretched x (pointer_delta : Point) l : res ((bool * option (Z * LayoutPart)) * Lay) :=
  let factor := RubberBand.band START_RUBBER_BAND (sq_dist pointer_delta / INTERACTIVE_MOVE_START_THRESHOLD)%F in
  p ← unwrap (window_place kin st x l);
  on_place kin st p (stretch x (upscale factor pointer_delta)) l.
Definition update_starting cv now x (pointer_delta : Point) (ratio : f64 * f64) (delta : Point) o (pointer : Point) l : res Lay :=
  zoom ← overview_zoom kin st cv l;
  let pointer_delta := pair_add pointer_delta (downscale zoom delta) in
  '((is_floating, wc), l) ← stretched x pointer_delta l;
  let l := Layout.set_interactive_move (Some (Layout.Starting x pointer_delta ratio)) l in
  if negb is_floating && fltb (sq_dist pointer_delta) INTERACTIVE_MOVE_START_THRESHOLD then mret l
  else pick_up cv now x o pointer ratio wc l.

(** The workspace the pointer was over, if any. *)
Definition hovered_workspace cv o (pointer : Point) l : res (option Z) :=
  match monitor_for_output o l with
  | Some m =>
      '(p, _) ← MonitorGeometry.insert_position cv pointer m;
      mret (match p with Existing id => Some id | NewAt _ => None end)
  | None => mret None
  end.
Definition update_moving cv mv o (pointer : Point) l : res Lay :=
  ws_id ← hovered_workspace cv o (Layout.im_pointer_pos_within_output mv) l;
  let left := match Layout.im_workspace_config mv with Some (id, _) => negb (bool_decide (Some id = ws_id)) | None => false end in
  let wc := if left then None else Layout.im_workspace_config mv in
  let switched := negb (bool_decide (o = Layout.im_output mv)) in
  let l := if switched then Layout.focus_output o l else l in
  let oc := if switched then m ← monitor_for_output o l; Monitor.layout_config m else Layout.im_output_config mv in
  let t := if left || switched then moved_config o oc wc l (Layout.im_tile mv) else Layout.im_tile mv in
  mret (Layout.set_interactive_move (Some (Layout.Moving
    (Layout.Build_InteractiveMoveData t o pointer (Layout.im_width mv) (Layout.im_is_full_width mv) (Layout.im_is_floating mv)
       (Layout.im_pointer_ratio_within_window mv) oc wc))) l).

Definition interactive_move_update cv now x (delta : Point) o (pointer : Point) l : res (bool * Lay) :=
  match Layout.interactive_move l with
  | None => mret (false, l)
  | Some (Layout.Starting y pointer_delta ratio) =>
      if bool_decide (y = x) then l ← update_starting cv now x pointer_delta ratio delta o pointer l; mret (true, l)
      else mret (false, l)
  | Some (Layout.Moving mv) =>
      if bool_decide (tile_win (Layout.im_tile mv) = x) then l ← update_moving cv mv o pointer l; mret (true, l)
      else mret (false, l)
  end.

(** ** Letting go *)

(** The monitor, workspace and position the window goes to, where that workspace is
    drawn, and how much smaller. *)
Record Landing := { la_monitor : nat; la_workspace : InsertWorkspace; la_position : InsertPosition; la_offset : option Point; la_zoom : f64 }.

Definition ws_position (id : Z) m : res nat := unwrap (position (fun v => Interface.ws_id v =? id)%Z (Monitor.workspaces m)).
Definition drop_position cv mv (pos : Point) w : res InsertPosition :=
  if Layout.im_is_floating mv then mret InFloating else ScrollingSpace.insert_position cv pos (Workspace.scrolling w).
Definition landing cv mv (mons : list Mon) (active : nat) : res Landing :=
  let pointer := Layout.im_pointer_pos_within_output mv in
  match Layout.monitor_idx (Layout.im_output mv) mons with
  | Some i =>
      m ← index mons i;
      zoom ← Monitor.overview_zoom cv m;
      '(p, geo) ← MonitorGeometry.insert_position cv pointer m;
      match p with
      | Existing id =>
          j ← ws_position id m;
          w ← index (Monitor.workspaces m : list Workspace.Workspace) j;
          position ← drop_position cv mv (downscale zoom (pair_sub pointer geo.1)) w;
          mret {| la_monitor := i; la_workspace := p; la_position := position; la_offset := Some geo.1; la_zoom := zoom |}
      | NewAt _ =>
          mret {| la_monitor := i; la_workspace := p; la_position := if Layout.im_is_floating mv then InFloating else NewColumn 0;
                  la_offset := None; la_zoom := zoom |}
      end
  | None =>
      m ← index mons active;
      zoom ← Monitor.overview_zoom cv m;
      w ← index (Monitor.workspaces m : list Workspace.Workspace) 0;
      geos ← MonitorGeometry.workspaces_render_geo cv m;
      geo ← unwrap (head geos);
      position ← drop_position cv mv (f0, f0) w;
      mret {| la_monitor := active; la_workspace := Existing (Workspace.id w); la_position := position; la_offset := Some geo.1; la_zoom := zoom |}
  end.

(** The workspace to drop on: there, at an end, or new. *)
Definition landing_workspace (p : InsertWorkspace) m : res (nat * Mon) :=
  match p with
  | Existing id => j ← ws_position id m; mret (j, m)
  | NewAt k =>
      if Monitor.ewaf m && (k =? 0)%nat then mret (0%nat, m)
      else
        last ← usub (Monitor.len m) 1;
        if (last <=? k)%nat then mret (last, m) else m ← Monitor.add_workspace_at k m; mret (k, m)
  end.

(** A floating tile lands under the pointer, or where it chooses on a new workspace. *)
Definition landed_tile cv mv (la : Landing) w : res Tile.Tile :=
  loc ← tile_render_location cv (la_zoom la) mv;
  let t : Tile.Tile := Tile.set_floating_pos None (Layout.im_tile mv) in
  let t := match la_workspace la, la_offset la with
           | Existing _, Some offset =>
               Tile.set_floating_pos (Some (FloatingSpace.logical_to_size_frac (downscale (la_zoom la) (pair_sub loc offset)) (Workspace.floating w))) t
           | _, _ => t
           end in
  mret (match win_expected_size (Tile.window t) with Some size => Tile.set_floating_window_size (Some size) t | None => t end).

Definition drop_tile cv mv (la : Landing) (allow : bool) (j : nat) m : res Mon :=
  w ← index (Monitor.workspaces m : list Workspace.Workspace) j;
  let add (t : Tile.Tile) column floating :=
    Monitor.add_tile cv (t : @Interface.Tile (real_ops kin st)) (MonWorkspace (Workspace.id w) column) Yes allow
      (Layout.im_width mv) (Layout.im_is_full_width mv) floating m in
  match la_position la with
  | NewColumn column => add (Layout.im_tile mv) (Some column) false
  | InColumn column i => Monitor.add_tile_to_column cv j column (Some i) (Layout.im_tile mv) true allow m
  | InFloating => t ← landed_tile cv mv la w; add t None true
  end.

(** The tile goes from [loc] to its place. *)
Definition animate_landing cv x (zoom : f64) (loc : Point) m : res Mon :=
  geos ← MonitorGeometry.workspaces_render_geo cv m;
  j ← unwrap (position (has_window kin st x) (Monitor.workspaces m));
  w ← index (Monitor.workspaces m : list Workspace.Workspace) j;
  geo ← index geos j;
  w ← Workspace.update_positioned_tile cv x (fun offset t =>
        Tile.animate_move_from cv (downscale zoom (pair_sub loc (pair_add geo.1 (upscale zoom offset)))) t) w;
  mret (Monitor.set_workspaces (<[j := w]> (Monitor.workspaces m)) m).

Definition land cv mv (la : Landing) (allow : bool) m : res Mon :=
  loc ← tile_render_location cv (la_zoom la) mv;
  '(j, m) ← landing_workspace (la_workspace la) m;
  m ← drop_tile cv mv la allow j m;
  animate_landing cv (tile_win (Layout.im_tile mv)) (la_zoom la) loc m.

Definition put_down cv mv l : res Lay :=
  match Layout.monitor_set l with
  | Layout.Normal mons primary active =>
      la ← landing cv mv mons active;
      '(_, mons, c) ← Layout.on_monitor (la_monitor la) (Layout.lift_op (land cv mv la (negb (Layout.overview_open l)))) mons (Layout.id_counter l);
      mret (Layout.set_monitor_set (Layout.Normal mons primary active) c l)
  | Layout.NoOutputs wss =>
      let '(wss, c) := match wss with
                       | [] => let '(i, c) := id_next (Layout.id_counter l) in ([ws_new_with_config_no_outputs i None (Layout.options l)], c)
                       | _ => (wss, Layout.id_counter l)
                       end in
      w ← index wss 0;
      w ← ws_add_tile cv (Layout.im_tile mv) Auto Yes (Layout.im_width mv) (Layout.im_is_full_width mv) (Layout.im_is_floating mv) w;
      mret (Layout.set_monitor_set (Layout.NoOutputs (<[0%nat := w]> wss)) c l)
  end.

(** The gestures of the move end, and the tile is opaque again. *)
Definition release cv now mv l : res (MoveData * Lay) :=
  l ← Layout.dnd_scroll_gesture_end cv now (Layout.set_interactive_move None l);
  if Layout.im_is_floating mv then mret (mv, l)
  else
    l ← end_workspace_gestures kin st cv l;
    t ← Tile.animate_alpha cv INTERACTIVE_MOVE_ALPHA f1 (movement_config l) (Layout.im_tile mv);
    mret (with_tile kin st t (Layout.im_is_floating mv) mv, l).

Definition interactive_move_end cv now x l : res Lay :=
  match Layout.interactive_move l with
  | None => mret l
  | Some (Layout.Starting y _ _) => if bool_decide (y = x) then Layout.cancel_starting_move cv now x l else mret l
  | Some (Layout.Moving mv) =>
      if bool_decide (tile_win (Layout.im_tile mv) = x) then '(mv, l) ← release cv now mv l; put_down cv mv l
      else mret l
  end.
End ops.
End Drag.
