(* ===== verification/LayoutDragThms.v ===== *)
(** * What dragging a window does

    Grabbing, dragging and dropping a window ([LayoutDrag]) return and keep the layout
    in order: the window is always in the layout or held by the pointer. *)

From stdpp Require Import base numbers option list strings gmap.
From Stdlib Require Import ZArith Lia SpecFloat.
From S2P Require Import Prelude.
From S2P Require Import Runs.
From S2P Require Import F64.
From S2P Require Import Duration.
From S2P Require Import Clock.
From S2P Require Import Animation.
From S2P Require Import AnimTotal.
From S2P Require Import OutputName.
From S2P Require Import LayoutTypes.
From S2P Require Import Tile.
From S2P Require Import TileInv.
From S2P Require Import TileGeometry.
From S2P Require Import Floating.
From S2P Require Import FloatingStack.
From S2P Require Import FloatingInv.
From S2P Require Import Column.
From S2P Require Import ColumnInv.
From S2P Require Import Scrolling.
From S2P Require Import ScrollingSpec.
From S2P Require Import ScrollingInv.
From S2P Require Import ScrollingMoves.
From S2P Require Import ScrollingTiles.
From S2P Require Import ScrollingViews.
From S2P Require Import Positions.
From S2P Require Import ScrollingThms.
From S2P Require Import FloatingOps.
From S2P Require Import FloatingThms.
From S2P Require Import Workspace.
From S2P Require Import WorkspaceInv.
From S2P Require Import WorkspaceOps.
From S2P Require Import WorkspaceTiling.
From S2P Require Import WorkspaceRoutes.
From S2P Require Import WorkspaceThms.
From S2P Require Import WorkspaceLabels.
From S2P Require Import Interface.
From S2P Require Import Monitor.
From S2P Require Import MonitorIds.
From S2P Require Import MonitorInv.
From S2P Require Import MonitorOps.
From S2P Require Import MonitorOps2.
From S2P Require Import MonitorThms.
From S2P Require Import MonitorGeometry.
From S2P Require Import Layout.
From S2P Require Import LayoutInv.
From S2P Require Import LayoutHotplug.
From S2P Require Import LayoutWindows.
From S2P Require Import LayoutMoves.
From S2P Require Import LayoutRest.
From S2P Require Import LayoutThms.
From S2P Require Import LayoutReal.
From S2P Require Import LayoutActions.
From S2P Require Import LayoutPlaces.
From S2P Require Import LayoutActionsThms.
From S2P Require Import LayoutDrag.

Section drag.
Context {LE : LayoutElement} {LEL : LayoutElementLaws} {GE : Geometry} {GL : GeometryLaws} {LM : Libm} {KF : Keyframe} {OU : Outputs}
  {SM : Smithay} {RE : Rectangles}.
Context (kin : Id -> Id -> bool) (Hac : acyclic kin) (st : WOutput -> OutputState) (Hst : outputs_ok st).
#[local] Hint Extern 0 WorkspaceOps => exact (real_ops kin st) : typeclass_instances.
#[local] Hint Extern 0 LayoutOps => exact (real_layout_ops kin st) : typeclass_instances.
#[local] Hint Extern 0 WorkspaceLaws => exact (real_laws kin Hac st Hst) : typeclass_instances.
#[local] Hint Extern 0 LayoutLaws => exact (real_layout_laws kin Hac st Hst) : typeclass_instances.
Abbreviation Lay := Layout.Layout.
Abbreviation Mon := Monitor.Monitor.
Implicit Types (cv : ClockView) (w : WS) (x : Win) (l : Lay) (m : Mon).
Import Actions.
Import Drag.

(** ** Where things are *)
Lemma monitors_core l m :
  layout_ok l -> m ∈ monitors kin st l -> mon_core (HM := home_of m) (Monitor.set_counter (Layout.id_counter l) m).
Proof.
  intros Hok Hm. unfold monitors in Hm. pose proof (lo_set l Hok) as Hset. destruct (Layout.monitor_set l) as [mons p a|wss]; [|by apply elem_of_nil in Hm].
  destruct Hset. apply (so_core _ (proj1 (Forall_forall _ _) (ms_semi _ _ no_mons) m Hm)).
Qed.
Lemma monitors_workspace l m w : layout_ok l -> m ∈ monitors kin st l -> w ∈ Monitor.workspaces m -> ws_ok w /\ w ∈ Layout.workspaces l.
Proof.
  intros Hok Hm Hw. split; [exact (proj1 (Forall_forall _ _) (mc_ws _ (monitors_core l m Hok Hm)) w Hw)|].
  unfold monitors, Layout.workspaces in *. destruct (Layout.monitor_set l); [|by apply elem_of_nil in Hm]. apply list_elem_of_bind. by exists m.
Qed.

Lemma shown_ok cv (m : Mon) c :
  mon_core (HM := home_of m) (Monitor.set_counter c m) -> cv_ok cv ->
  exists gs, MonitorGeometry.workspaces_with_render_geo cv m = Ok gs /\ forall w geo, (w, geo) ∈ gs -> w ∈ Monitor.workspaces m.
Proof.
  intros Hc Hcv. destruct (with_geo_ok (HM := home_of m) cv _ Hc Hcv) as (gs & He & Hgs). unfold MonitorGeometry.workspaces_with_render_geo.
  change (MonitorGeometry.workspaces_with_render_geo_idx cv (Monitor.set_counter c m)) with (MonitorGeometry.workspaces_with_render_geo_idx cv m) in He.
  rewrite He. cbn [mbind res_bind]. eexists. split; [done|]. intros w geo Hin. apply list_elem_of_fmap in Hin as ([[i v] g] & [= -> ->] & Hin).
  apply Hgs in Hin. by eapply list_elem_of_lookup_2.
Qed.

Definition found_ok (mons : list Mon) x (v : option (Mon * Workspace.Workspace * Rect)) : Prop :=
  match v with Some (m, w, _) => m ∈ mons /\ (w : WS) ∈ Monitor.workspaces m /\ x ∈ ws_windows (w : WS) | None => True end.
Lemma find_visible_ok cv x c (mons : list Mon) :
  (forall m, m ∈ mons -> mon_core (HM := home_of m) (Monitor.set_counter c m)) -> cv_ok cv ->
  exists v, find_visible kin st cv x mons = Ok v /\ found_ok mons x v.
Proof.
  intros Hc Hcv. induction mons as [|m mons IH]; [by exists None|]. cbn [find_visible].
  destruct (shown_ok cv m c) as (gs & -> & Hgs); [apply Hc; left|done|]. cbn [mbind res_bind].
  match goal with |- context [find ?f gs] => destruct (find f gs) as [[w geo]|] eqn:Ef end.
  - apply find_some in Ef as [Hin%list_elem_of_In Hx%has_window_true]. exists (Some (m, w, geo)). split; [done|]. split_and!; [left|by eapply Hgs|done].
  - destruct IH as (v & -> & Hv); [intros m' Hm'; apply Hc; by right|]. exists v. split; [done|]. destruct v as [[[m' w] geo]|]; [|done].
    destruct Hv as (? & ? & ?). split_and!; [by right|done|done].
Qed.

Lemma in_floating (w : Workspace.Workspace) t :
  ws_base kin w -> t ∈ FloatingSpace.tiles (Workspace.floating w) -> exists o vs sc, TileInv.tile_ok o vs sc t.
Proof.
  intros Hw Ht. apply list_elem_of_lookup in Ht as [i Ht]. pose proof (lookup_floats _ i t (proj1 (wo_floating _ _ Hw)) Ht) as Hf.
  do 3 eexists. apply Hf.
Qed.
Lemma in_scrolling (w : Workspace.Workspace) t :
  ws_base kin w -> t ∈ ScrollingSpace.tiles (Workspace.scrolling w) -> exists o vs sc, TileInv.tile_ok o vs sc t.
Proof.
  intros Hw Ht. unfold ScrollingSpace.tiles in Ht. apply list_elem_of_bind in Ht as (c & Ht & Hc). apply list_elem_of_lookup in Hc as [i Hc].
  pose proof (space_col _ i c (wo_scrolling _ _ Hw) Hc) as Hok. pose proof (cb_tiles _ _ (cm_base _ _ (proj1 Hok))) as HF.
  rewrite Forall_forall in HF. do 3 eexists. by apply HF.
Qed.

(** Every window of a workspace has a tile that is drawn somewhere. *)
Lemma render_tile_ok cv x (w : Workspace.Workspace) :
  cv_ok cv -> real_ok kin w -> x ∈ ws_windows (w : WS) -> exists t p, render_tile cv x w = Ok (t, p) /\ exists o vs sc, TileInv.tile_ok o vs sc t.
Proof.
  intros Hcv [Hw _] Hx.
  assert (H : runs (Workspace.tiles_with_render_positions cv w) (fun ps => (forall y, y ∈ ps -> exists o vs sc, TileInv.tile_ok o vs sc y.1.1)
    /\ x ∈ ((fun y : Tile.Tile * Point * bool => Tile.id y.1.1) <$> ps))).
  { unfold Workspace.tiles_with_render_positions. runs (floating_positions_runs cv Hcv kin); [apply Hw|]. intros fl _ Hfl.
    eapply runs_bind with (R := fun _ => True).
    { unfold Workspace.is_floating_visible. runs (above_top_runs (LE := LE)); [apply Hw|]. intros b _ _. by returns. }
    intros vis _ _. runs (render_positions_runs cv Hcv); [apply Hw|]. intros sc _ Hsc. returns. split.
    - intros y [Hy|Hy]%elem_of_app.
      + apply list_elem_of_fmap in Hy as (tp & -> & Hy). cbn. apply (in_floating w); [done|]. rewrite <-Hfl. by apply list_elem_of_fmap_2.
      + apply (in_scrolling w); [done|]. rewrite <-Hsc. by apply (list_elem_of_fmap_2 (fun y : Tile.Tile * Point * bool => y.1.1)).
    - change (x ∈ (Tile.id <$> Workspace.tiles w)) in Hx. rewrite tiles_windows in Hx. rewrite fmap_app. apply elem_of_app.
      apply elem_of_app in Hx as [Hx|Hx].
      + right. rewrite (positions_ids _ _ Hsc). by rewrite windows_tiles.
      + left. rewrite <-list_fmap_compose. cbn in Hx |- *. unfold FloatingInv.ids in Hx. rewrite <-Hfl, <-list_fmap_compose in Hx. exact Hx. }
  apply runs_ok in H as (ps & He & Hps & Hin). unfold render_tile. rewrite He. cbn [mbind res_bind].
  match goal with |- context [find ?f ps] => destruct (find f ps) as [y|] eqn:Ef end.
  - apply find_some in Ef as [Hy%list_elem_of_In _]. destruct y as [[t p] b]. exists t, p. split; [done|]. by apply (Hps _ Hy).
  - exfalso. apply list_elem_of_fmap in Hin as (y & -> & Hy). pose proof (find_none _ _ Ef y (proj1 (list_elem_of_In _ _) Hy)) as H.
    unfold Column.has_id in H. by rewrite bool_decide_eq_true_2 in H.
Qed.

Lemma held_location_ok cv zoom (mv : @Layout.InteractiveMoveData (real_ops kin st)) :
  cv_ok cv -> tile_incoming (Layout.im_tile mv) -> exists p, tile_render_location kin st cv zoom mv = Ok p.
Proof.
  intros Hcv (o & vs & sc & _ & Ht & _). unfold tile_render_location.
  destruct (proj1 (runs_ok _ _) (window_loc_runs o vs sc cv Hcv _ Ht)) as (loc & -> & _). cbn [mbind res_bind].
  destruct (proj1 (runs_ok _ _) (render_offset_runs o vs sc cv Hcv _ Ht)) as (off & -> & _). by eexists.
Qed.

(** ** Grabbing a window *)
Lemma start_move_step x d r l :
  layout_ok l -> Layout.moving_windows l = [] -> x ∈ Layout.windows l ->
  layout_step [] [] l (Layout.set_interactive_move (Some (Layout.Starting x d r)) l).
Proof.
  intros [] Hm Hx.
  assert (Hw : Layout.windows (Layout.set_interactive_move (Some (Layout.Starting x d r)) l) = Layout.windows l)
    by (unfold Layout.windows; by rewrite Hm).
  split; [|by rewrite Hw]. constructor; try done.
  - by rewrite Hw.
  - intros y d' r' [= <- _ _]. by rewrite Hw.
  - cbn. destruct (Layout.monitor_set l); [destruct lo_set; by constructor|done].
Qed.

Lemma begin_monitors_ok cv now l :
  layout_ok l -> roomy l -> cv_ok cv ->
  exists l', begin_monitor_gestures kin st cv now l = Ok l' /\ layout_step [] [] l l'
    /\ Layout.interactive_move l' = Layout.interactive_move l /\ Layout.id_counter l' = Layout.id_counter l.
Proof.
  intros Hok Hr Hcv. unfold begin_monitor_gestures.
  destruct (Layout.monitor_set l) as [mons p a|wss] eqn:Es; [|exists l; split_and!; try done; by apply step_same].
  destruct (each_step (Monitor.dnd_scroll_gesture_begin cv now) l mons p a) as (mons' & c' & He & -> & Hs); try done.
  - apply harmless_everywhere, lift_harmless. intros m Hm _ _. destruct (dnd_begin_keeps (HM := home_of m) cv now m) as (m' & He & Hs); try done.
    exists m'. split_and!; try done. by eapply dnd_begin_ev.
  - rewrite He. cbn. by eexists.
Qed.
Lemma begin_workspaces_ok cv l :
  layout_ok l -> roomy l -> cv_ok cv ->
  exists l', begin_workspace_gestures kin st cv l = Ok l' /\ layout_step [] [] l l'
    /\ Layout.interactive_move l' = Layout.interactive_move l /\ Layout.id_counter l' = Layout.id_counter l.
Proof.
  intros Hok Hr Hcv. apply each_workspace_spec; [done..|]. intros w _ Hw.
  destruct (op_same_ok kin Hac st Hst cv WDndBegin w) as (w' & He & Hs & _); try done. by exists w'.
Qed.

Lemma pointer_ratio_ok cv x geo zoom p (w : Workspace.Workspace) :
  cv_ok cv -> real_ok kin w -> x ∈ ws_windows (w : WS) -> exists r, pointer_ratio cv x geo zoom p w = Ok r.
Proof.
  intros Hcv Hw Hx. unfold pointer_ratio. destruct (render_tile_ok cv x w Hcv Hw Hx) as (t & off & -> & o & vs & sc & Ht). cbn [mbind res_bind].
  destruct (proj1 (runs_ok _ _) (window_loc_runs o vs sc cv Hcv _ Ht)) as (loc & -> & _). cbn [mbind res_bind]. cbv zeta.
  match goal with |- context [fclamp ?a f0 f1] => destruct (fclamp_ok a f0 f1) as [rx ->]; [by vm_compute|] end. cbn [mbind res_bind].
  match goal with |- context [fclamp ?a f0 f1] => destruct (fclamp_ok a f0 f1) as [ry ->]; [by vm_compute|] end. by eexists.
Qed.

Lemma mon_zoom_ok cv (m : Mon) c : mon_core (HM := home_of m) (Monitor.set_counter c m) -> cv_ok cv -> exists z, Monitor.overview_zoom cv m = Ok z.
Proof. intros Hc Hcv. exact (overview_zoom_ok (HM := home_of m) cv _ Hc Hcv). Qed.

(** What grabbing a window came to. *)
Definition grabbed x l (b : bool) l' : Prop :=
  if b then Layout.interactive_move l = None /\ exists r, Layout.interactive_move l' = Some (Layout.Starting x (f0, f0) r) else l' = l.
Lemma move_begin_ok cv now x o p l :
  layout_ok l -> roomy l -> cv_ok cv ->
  exists b l', interactive_move_begin kin st cv now x o p l = Ok (b, l') /\ layout_step [] [] l l' /\ grabbed x l b l'.
Proof.
  intros Hok Hr Hcv. unfold interactive_move_begin.
  assert (Hno : exists b l', mret (false, l) = Ok (b, l') /\ layout_step [] [] l l' /\ grabbed x l b l') by (exists false, l; split_and!; [done|by apply step_same|done]).
  destruct (Layout.interactive_move l) eqn:Em; [done|].
  destruct (find_visible_ok cv x (Layout.id_counter l) (monitors kin st l)) as (v & -> & Hv); [intros m Hm; by apply monitors_core|done|].
  cbn [mbind res_bind]. destruct v as [[[m w] geo]|]; [|done]. destruct (negb _); [done|]. destruct Hv as (Hm & Hw & Hx).
  destruct (monitors_workspace l m w) as [Hwok Hin]; [done..|].
  destruct (mon_zoom_ok cv m (Layout.id_counter l)) as [z ->]; [by apply monitors_core|done|]. cbn [mbind res_bind].
  destruct (pointer_ratio_ok cv x geo z p w) as [r ->]; [done..|]. cbn [mbind res_bind]. cbv zeta.
  assert (Hmv : Layout.moving_windows l = []) by (unfold Layout.moving_windows; by rewrite Em).
  assert (Hxl : x ∈ Layout.windows l) by (unfold Layout.windows; apply elem_of_app; right; apply list_elem_of_bind; by exists w).
  pose proof (start_move_step x (f0, f0) r l Hok Hmv Hxl) as Hs1.
  destruct (begin_monitors_ok cv now _ (proj1 Hs1)) as (l2 & -> & Hs2 & Hm2 & Hc2); [done..|]. cbn [mbind res_bind].
  assert (Hl3 : exists l3, (if Workspace.is_floating x w then mret l2 else begin_workspace_gestures kin st cv l2) = Ok l3 /\ layout_step [] [] l2 l3
    /\ Layout.interactive_move l3 = Layout.interactive_move l2).
  { destruct (Workspace.is_floating x w); [exists l2; split_and!; [done|by apply step_same, Hs2|done]|].
    destruct (begin_workspaces_ok cv l2) as (l3 & -> & H3 & H4 & _); [apply Hs2|unfold roomy; by rewrite Hc2|done|]. by exists l3. }
  destruct Hl3 as (l3 & -> & Hs3 & Hm3). cbn [mbind res_bind]. exists true, l3. split; [done|]. split.
  - eapply layout_step_trans; [exact Hs1|]. by eapply layout_step_trans.
  - split; [done|]. exists r. by rewrite Hm3, Hm2.
Qed.

(** ** Dragging *)
Lemma unseen_stretch p : unseen (fun t => mret (Tile.set_interactive_move_offset p t)).
Proof. intros o vs sc t Ho []. returns. split; [by constructor|done]. Qed.
Lemma stretch_ok x p (w : Workspace.Workspace) :
  real_ok kin w -> x ∈ ws_windows (w : WS) ->
  exists r w', stretch x p w = Ok (r, w') /\ same_ws (w : WS) w' /\ part_ok (snd <$> r.2).
Proof.
  intros Hw Hx. destruct (update_tile_turns kin x _ w Hw Hx (unseen_stretch p)) as (w' & He & Ht). unfold stretch. rewrite He. cbn [mbind res_bind].
  eexists _, w'. split; [done|]. split; [exact (turned_becomes kin st _ _ _ Ht)|]. cbn.
  pose proof (ar_part _ (wo_around _ _ (proj1 Hw))) as Hp. by destruct (Workspace.layout_config w).
Qed.

Lemma placed_window x l :
  Layout.moving_windows l = [] -> x ∈ Layout.windows l ->
  exists p w, window_place kin st x l = Some p /\ at_place kin st p l w /\ x ∈ ws_windows w.
Proof.
  intros Hm Hx. unfold Layout.windows in Hx. rewrite Hm in Hx. pose proof (window_place_spec kin st x l) as Hp.
  destruct (window_place kin st x l) as [p|]; [|done]. destruct Hp as (w & ? & ?). by exists p, w.
Qed.

Lemma stretched_ok x d l :
  layout_ok l -> roomy l -> Layout.moving_windows l = [] -> x ∈ Layout.windows l ->
  exists fl wc l', stretched kin st x d l = Ok ((fl, wc), l') /\ layout_step [] [] l l' /\ part_ok (snd <$> wc)
    /\ Layout.interactive_move l' = Layout.interactive_move l /\ Layout.id_counter l' = Layout.id_counter l.
Proof.
  intros Hok Hr Hm Hx. unfold stretched. destruct (placed_window x l Hm Hx) as (p & w & -> & Hp & Hxw). cbn [unwrap mbind res_bind]. cbv zeta.
  match goal with |- context [stretch x ?q] => destruct (stretch_ok x q w) as ([fl wc] & w' & He & Hs & Hpt); [by eapply at_place_ok|done|] end.
  destruct (on_place_spec kin Hac st Hst p (stretch x _) l w _ w' Hok Hr Hp He Hs) as [Hon Hl]. rewrite Hon.
  exists fl, wc. eexists. split; [done|]. split_and!; [done|done|by apply put_move|by apply put_counter].
Qed.

(** ** Picking up *)
Lemma remove_from_monitor_counter cv x (m m' : Mon) r : Layout.remove_from_monitor cv x m = Ok (r, m') -> Monitor.id_counter m' = Monitor.id_counter m.
Proof.
  unfold Layout.remove_from_monitor. intros H. bind H as [idx|] eqn E1. bind H as [w|] eqn E2. bind H as [[r' w']|] eqn E3.
  bind H as [la|] eqn E4. bind H as [m1|] eqn E5. bind H as [m2|] eqn E6. injection H as _ <-.
  assert (H1 : Monitor.id_counter m1 = Monitor.id_counter m).
  { match type of E5 with (if ?b then _ else _) = _ => destruct b end; [|by injection E5 as <-]. bind E5 as [[w0 wss]|] eqn E7. by injection E5 as <-. }
  rewrite <-H1. match type of E6 with (if ?b then _ else _) = _ => destruct b end; [|by injection E6 as <-]. bind E6 as [w0|] eqn E7. bind E6 as [u0|] eqn E8. bind E6 as [w1|] eqn E9. bind E6 as [u1|] eqn E10.
  bind E6 as [[w2 wss]|] eqn E11. by injection E6 as <-.
Qed.
Lemma remove_placed_frame cv x l r l' :
  Layout.remove_placed cv x l = Ok (r, l') ->
  Layout.interactive_move l' = Layout.interactive_move l /\ Layout.id_counter l' = Layout.id_counter l.
Proof.
  unfold Layout.remove_placed. intros H. destruct (Layout.monitor_set l) as [mons p a|wss].
  - destruct (Layout.monitor_with_window x mons) as [i|]; [|by injection H as _ <-].
    bind H as [[[r' mons'] c']|] eqn E. injection H as _ <-. split; [done|]. unfold Layout.on_monitor in E.
    bind E as [m|] eqn E1. bind E as [[r2 m']|] eqn E2. injection E as _ _ <-. cbn. by rewrite (remove_from_monitor_counter _ _ _ _ _ E2).
  - destruct (position _ wss) as [i|]; [|by injection H as _ <-]. bind H as [w|] eqn E1. bind H as [[r' w']|] eqn E2. bind H as [wss'|] eqn E3.
    by injection H as _ <-.
Qed.

Definition unset_op (full : bool) x : WsOp := if full then WSetFullscreen x false else WSetMaximized x false.
Lemma unset_ok cv full x p l w :
  layout_ok l -> roomy l -> cv_ok cv -> at_place kin st p l w -> x ∈ ws_windows w ->
  exists l' w', drop kin st (on_place kin st p (plainly (w_run kin cv st (unset_op full x))) l) = Ok l' /\ layout_step [] [] l l'
    /\ at_place kin st p l' w' /\ x ∈ ws_windows w' /\ Layout.interactive_move l' = Layout.interactive_move l
    /\ Layout.id_counter l' = Layout.id_counter l.
Proof.
  intros Hok Hr Hcv Hp Hx. assert (Hpre : w_pre cv st (unset_op full x) w).
  { change (x ∈ (Tile.id <$> Workspace.tiles w)) in Hx. rewrite tiles_windows in Hx. by destruct full. }
  destruct (op_same_ok kin Hac st Hst cv (unset_op full x) w) as (w' & He & Hs & _); try done;
    [by eapply at_place_ok|by destruct full|by destruct full|by intros w'; destruct full|].
  destruct (on_place_spec kin Hac st Hst p (plainly (w_run kin cv st (unset_op full x))) l w tt w') as [Hon Hl]; try done; [unfold plainly; by rewrite He|].
  unfold drop. rewrite Hon. eexists _, w'. split; [done|]. split_and!; [done|by eapply put_at| |by apply put_move|by apply put_counter].
  destruct Hs as [Ht _]. by rewrite (turns_wins _ _ _ Ht).
Qed.

Lemma take_window_ok cv now x l :
  layout_ok l -> roomy l -> cv_ok cv -> ts_ok now -> Layout.interactive_move l = None -> x ∈ Layout.windows l ->
  exists r l', take_window kin st cv now x l = Ok (r, l') /\ tile_incoming (rt_tile r) /\ Tile.id (rt_tile r) = x
    /\ layout_step [] [x] l l' /\ Layout.interactive_move l' = None /\ Layout.id_counter l' = Layout.id_counter l.
Proof.
  intros Hok Hr Hcv Hts Hm Hx. unfold take_window.
  destruct (placed_window x l) as (p & w & -> & Hp & Hxw); [unfold Layout.moving_windows; by rewrite Hm|done|]. cbn [unwrap mbind res_bind].
  destruct (unset_ok cv true x p l w) as (l1 & w1 & He1 & Hs1 & Hp1 & Hx1 & Hm1 & Hc1); try done. match goal with |- context [drop kin st ?e] => change (drop kin st e = Ok l1) in He1; rewrite He1 end. cbn [mbind res_bind].
  destruct (unset_ok cv false x p l1 w1) as (l2 & w2 & He2 & Hs2 & Hp2 & Hx2 & Hm2 & Hc2); try done; [apply Hs1|unfold roomy; by rewrite Hc1|].
  match goal with |- context [drop kin st ?e] => change (drop kin st e = Ok l2) in He2; rewrite He2 end. cbn [mbind res_bind]. pose proof (layout_step_trans _ _ _ _ _ Hs1 Hs2) as Hs12.
  rewrite Hm1, Hm in Hm2. rewrite Hc1 in Hc2.
  destruct (remove_window_spec cv now x l2) as (r & l3 & He3 & Hrm); [apply Hs2|unfold roomy; by rewrite Hc2|done|done|unfold remove_pre; by rewrite Hm2|].
  assert (Hf : Layout.interactive_move l3 = None /\ Layout.id_counter l3 = Layout.id_counter l).
  { unfold Layout.remove_window in He3. rewrite Hm2 in He3. apply remove_placed_frame in He3 as [-> ->]. by rewrite Hc2. }
  rewrite He3. cbn [mbind res_bind]. destruct r as [r|].
  - destruct Hrm as (Hid & Hti & Hs3). exists r, l3. split_and!; try done; try apply Hf. by eapply layout_step_trans.
  - exfalso. apply (proj1 Hrm). unfold Layout.windows. apply elem_of_app. right. apply list_elem_of_bind. exists w2. split; [done|by eapply at_workspaces].
Qed.

Lemma moved_config_ok o oc wc l t :
  layout_ok l -> part_ok oc -> part_ok (snd <$> wc) -> tile_incoming t ->
  tile_incoming (moved_config kin st o oc wc l t) /\ Tile.id (moved_config kin st o oc wc l t) = Tile.id t.
Proof.
  intros Hok Hoc Hwc Ht. split; [|done].
  apply (tile_update_ok (LayoutLaws := real_layout_laws kin Hac st Hst) o (with_merged_layout (snd <$> wc) (with_merged_layout oc (Layout.options l))) t); [|done].
  apply merged_opts_ok; [done|]. apply merged_opts_ok; [done|apply Hok].
Qed.

Lemma monitor_for_ok o l m : monitor_for_output kin st o l = Some m -> m ∈ monitors kin st l /\ Monitor.output m = o.
Proof. unfold monitor_for_output. intros [Hm%list_elem_of_In Ho%bool_decide_eq_true_1]%find_some. by split. Qed.
Lemma output_config_ok o l : layout_ok l -> part_ok (m ← monitor_for_output kin st o l; Monitor.layout_config m).
Proof.
  intros Hok. destruct (monitor_for_output kin st o l) as [m|] eqn:E; [|done]. apply monitor_for_ok in E as [Hm _].
  exact (mc_part _ (monitors_core l m Hok Hm)).
Qed.

Lemma position_on_ok cv x o l : layout_ok l -> cv_ok cv -> exists r, position_on kin st cv x o l = Ok r.
Proof.
  intros Hok Hcv. unfold position_on.
  destruct (find_visible_ok cv x (Layout.id_counter l) (monitors kin st l)) as (v & -> & Hv); [intros m Hm; by apply monitors_core|done|].
  cbn [mbind res_bind]. destruct v as [[[m w] geo]|]; [|by eexists]. destruct (bool_decide _); [|by eexists]. destruct Hv as (Hm & Hw & Hx).
  destruct (monitors_workspace l m w) as [Hwok Hin]; [done..|]. destruct (render_tile_ok cv x w) as (t & p & -> & _); [done..|]. cbn [mbind res_bind].
  destruct (mon_zoom_ok cv m (Layout.id_counter l)) as [z ->]; [by apply monitors_core|done|]. by eexists.
Qed.

Lemma drag_config_total l : layout_ok l -> config_total (movement_config kin st l).
Proof. intros Hok. apply (TileInv.oo_movement _ (op_layout _ (lo_options l Hok))). Qed.

Lemma end_gestures_ok cv l :
  layout_ok l -> roomy l -> cv_ok cv -> can_settle cv l ->
  exists l', end_workspace_gestures kin st cv l = Ok l' /\ layout_step [] [] l l' /\ Layout.interactive_move l' = Layout.interactive_move l
    /\ Layout.id_counter l' = Layout.id_counter l.
Proof.
  intros Hok Hr Hcv Hset. apply each_workspace_spec; [done..|]. intros w Hin Hw.
  destruct (ws_dnd_end_spec cv w) as (w' & He & Hs); [done|done|by apply Hset|]. by exists w'.
Qed.

Lemma held_by_ok cv (r : RemovedTile Tile.Tile) l :
  layout_ok l -> roomy l -> cv_ok cv -> tile_incoming (rt_tile r) -> (rt_is_floating r = true -> can_settle cv l) ->
  exists t l', held_by kin st cv r l = Ok (t, l') /\ tile_incoming t /\ Tile.id t = Tile.id (rt_tile r) /\ layout_step [] [] l l'
    /\ Layout.interactive_move l' = Layout.interactive_move l.
Proof.
  intros Hok Hr Hcv Ht Hset. unfold held_by. cbv zeta. destruct (rt_is_floating r).
  - destruct (end_gestures_ok cv l) as (l' & -> & Hs & Hm & _); [done..|by apply Hset|]. cbn [mbind res_bind]. by eexists _, l'.
  - destruct (animated_incoming cv f1 INTERACTIVE_MOVE_ALPHA _ _ Hcv (drag_config_total l Hok) Ht) as (t & -> & Hti & Hid). cbn [mbind res_bind].
    eexists _, l. split; [done|]. split_and!; [by apply held_incoming| |by apply step_same|done]. rewrite <-Hid.
    unfold Tile.hold_alpha_animation_after_done. by destruct (Tile.alpha_animation t).
Qed.

(** The pointer holds the window that left the layout. *)
Lemma hold_step mv x l l1 :
  layout_ok l -> layout_step [] [x] l l1 -> Layout.interactive_move l1 = None -> moving_ok mv -> tile_win (Layout.im_tile mv) = x ->
  layout_step [] [] l (Layout.set_interactive_move (Some (Layout.Moving mv)) l1).
Proof.
  intros Hok [Hok1 Hw] Hm Hmv Hx.
  assert (Hws : Layout.windows (Layout.set_interactive_move (Some (Layout.Moving mv)) l1) = x :: Layout.windows l1).
  { unfold Layout.windows, Layout.moving_windows at 2. rewrite Hm. by rewrite <-Hx. }
  split; [|by rewrite Hws]. destruct Hok1. constructor; try done.
  - by intros mv' [= <-].
  - rewrite Hws. change (NoDup ([x] ++ Layout.windows l1)). rewrite <-Hw. apply Hok.
  - cbn. destruct (Layout.monitor_set l1); [destruct lo_set; by constructor|done].
Qed.

Definition picked_up x o l' : Prop :=
  exists mv, Layout.interactive_move l' = Some (Layout.Moving mv) /\ tile_win (Layout.im_tile mv) = x /\ Layout.im_output mv = o.
(** The gestures that were scrolling can end, if the window floats. *)
Definition lift_pre cv now x l : Prop :=
  forall r l', take_window kin st cv now x (Layout.set_interactive_move None l) = Ok (r, l') -> rt_is_floating r = true -> can_settle cv l'.

Lemma pick_up_ok cv now x o p ratio wc l :
  layout_ok l -> roomy l -> cv_ok cv -> ts_ok now -> Layout.moving_windows l = [] -> x ∈ Layout.windows l -> part_ok (snd <$> wc) ->
  lift_pre cv now x l ->
  exists l', pick_up kin st cv now x o p ratio wc l = Ok l' /\ layout_step [] [] l l' /\ picked_up x o l'.
Proof.
  intros Hok Hr Hcv Hts Hmv Hx Hwc Hset. unfold pick_up. cbv zeta. set (oc := m ← monitor_for_output kin st o l; Monitor.layout_config m).
  assert (Hoc : part_ok oc) by by apply output_config_ok.
  destruct (position_on_ok cv x o l) as [tp ->]; [done..|]. cbn [mbind res_bind].
  pose proof (drop_move_step l Hok) as Hs0. rewrite Hmv in Hs0.
  destruct (take_window_ok cv now x (Layout.set_interactive_move None l)) as (r & l1 & He & Hti & Hid & Hs1 & Hm1 & Hc1); try done; [apply Hs0| |].
  { destruct Hs0 as [_ Hw]. cbn in Hw. by rewrite <-Hw. }
  pose proof (Hset r l1 He) as Hset1. rewrite He. cbn [mbind res_bind].
  destruct (moved_config_ok o oc wc l1 (Tile.set_interactive_move_offset (f0, f0) (Tile.stop_move_animations (rt_tile r)))) as [Hp1 Hp2]; [apply Hs1|done|done| |].
  { destruct (incoming_stop _ Hti) as (o1 & vs & sc & H1 & H2 & H3). exists o1, vs, sc. split_and!; [done|destruct H2; by constructor|done]. }
  destruct (held_by_ok cv (picked_tile kin st o oc wc l1 r) l1) as (t & l2 & -> & Ht & Hid2 & Hs2 & Hm2); [apply Hs1|unfold roomy; by rewrite Hc1|done|exact Hp1|done|].
  cbn [mbind res_bind]. cbn [picked_tile rt_tile] in Hid2. rewrite Hp2 in Hid2. change (Tile.id t = Tile.id (rt_tile r)) in Hid2.
  match goal with |- context [tile_render_location _ _ _ _ ?m] => set (mv := m) end.
  match goal with |- context [mbind _ ?e] => assert (Hnew : exists t', e = Ok t' /\ tile_incoming t' /\ Tile.id t' = Tile.id t) end.
  { destruct tp as [[pos zoom]|]; [|by exists t]. destruct (held_location_ok cv zoom mv Hcv Ht) as [np ->]. cbn [mbind res_bind].
    destruct Ht as (o1 & vs & sc & H1 & H2 & H3).
    destruct (proj1 (runs_ok _ _) (unseen_move cv Hcv (downscale zoom (pair_sub pos np)) o1 vs sc t H1 H2)) as (t' & -> & Hk & Hk').
    exists t'. split; [done|]. split; [exists o1, vs, sc; split_and!; [done..|by eapply synced_kept]|apply Hk']. }
  destruct Hnew as (t' & -> & Ht' & Hid'). cbn [mbind res_bind]. eexists. split; [done|]. split.
  - eapply layout_step_trans; [exact Hs0|]. apply (hold_step _ x); [apply Hs0| |by rewrite Hm2| |by etransitivity; [exact Hid'|congruence]].
    + destruct Hs1 as [_ H1], Hs2 as [H2 H2']. split; [done|]. cbn in H2' |- *. cbn in H1. by rewrite H1, H2'.
    + by constructor.
  - eexists. split; [done|]. split; [|done]. etransitivity; [exact Hid'|congruence].
Qed.

(** ** Moving the pointer *)
Definition drag_pre cv now x delta o l : Prop :=
  match Layout.interactive_move l with
  | Some (Layout.Starting _ d r) =>
      forall zoom fw l1, overview_zoom kin st cv l = Ok zoom -> stretched kin st x (pair_add d (downscale zoom delta)) l = Ok (fw, l1) ->
      lift_pre cv now x (Layout.set_interactive_move (Some (Layout.Starting x (pair_add d (downscale zoom delta)) r)) l1)
  | Some (Layout.Moving _) => forall m, monitor_for_output kin st o l = Some m -> visible cv m
  | None => True
  end.
(** The window stays grabbed, or is held. *)
Definition still_grabbed x l' : Prop := exists d r, Layout.interactive_move l' = Some (Layout.Starting x d r).

Lemma update_starting_ok cv now x d r delta o p l :
  layout_ok l -> roomy l -> cv_ok cv -> ts_ok now -> Layout.interactive_move l = Some (Layout.Starting x d r) ->
  (forall zoom fw l1, overview_zoom kin st cv l = Ok zoom -> stretched kin st x (pair_add d (downscale zoom delta)) l = Ok (fw, l1) ->
    lift_pre cv now x (Layout.set_interactive_move (Some (Layout.Starting x (pair_add d (downscale zoom delta)) r)) l1)) ->
  exists l', update_starting kin st cv now x d r delta o p l = Ok l' /\ layout_step [] [] l l' /\ (still_grabbed x l' \/ picked_up x o l').
Proof.
  intros Hok Hr Hcv Hts Hm Hset. unfold update_starting. destruct (zoom_ok kin Hac st Hst cv l Hok Hcv) as [z Hz]. rewrite Hz. cbn [mbind res_bind]. cbv zeta.
  specialize (fun fw l1 => Hset z fw l1 Hz). set (d' := pair_add d (downscale z delta)) in *.
  assert (Hmv : Layout.moving_windows l = []) by (unfold Layout.moving_windows; by rewrite Hm).
  pose proof (lo_starting l Hok x d r Hm) as Hx.
  destruct (stretched_ok x d' l) as (fl & wc & l1 & He & Hs1 & Hwc & Hm1 & Hc1); try done. specialize (Hset _ _ He). rewrite He. cbn [mbind res_bind].
  assert (Hmv1 : Layout.moving_windows l1 = []) by (unfold Layout.moving_windows; by rewrite Hm1, Hm).
  pose proof Hs1 as [Hok1 Hw1]. cbn in Hw1. rewrite Hw1 in Hx.
  pose proof (start_move_step x d' r l1 Hok1 Hmv1 Hx) as Hs2. set (l2 := Layout.set_interactive_move _ l1) in *.
  pose proof (layout_step_trans _ _ _ _ _ Hs1 Hs2) as Hs. destruct (_ && _); [exists l2; split_and!; [done|done|]; left; by exists d', r|].
  destruct (pick_up_ok cv now x o p r wc l2) as (l3 & -> & Hs3 & Hp); try done; [apply Hs|unfold roomy in *; change (Layout.id_counter l2) with (Layout.id_counter l1); by rewrite Hc1| |].
  { pose proof (proj2 Hs2 : Layout.windows l1 ≡ₚ Layout.windows l2) as Hw2. by rewrite <-Hw2. }
  exists l3. split_and!; [done|by eapply layout_step_trans|by right].
Qed.

Lemma focus_output_move o l : Layout.interactive_move (Layout.focus_output o l) = Layout.interactive_move l.
Proof. unfold Layout.focus_output. by destruct (Layout.monitor_set l). Qed.

Lemma hovered_ok cv o p l :
  layout_ok l -> cv_ok cv -> (forall m, monitor_for_output kin st o l = Some m -> visible cv m) -> exists r, hovered_workspace kin st cv o p l = Ok r.
Proof.
  intros Hok Hcv Hv. unfold hovered_workspace. destruct (monitor_for_output kin st o l) as [m|] eqn:E; [|by eexists].
  destruct (monitor_for_ok _ _ _ E) as [Hm _]. pose proof (monitors_core l m Hok Hm) as Hc.
  destruct (insert_position_ok (HM := home_of m) cv p _ Hc Hcv (Hv m eq_refl)) as (pl & geo & He & _).
  change (MonitorGeometry.insert_position cv p m = Ok (pl, geo)) in He. rewrite He. by eexists.
Qed.

Lemma update_moving_ok cv mv o p l :
  layout_ok l -> cv_ok cv -> Layout.interactive_move l = Some (Layout.Moving mv) ->
  (forall m, monitor_for_output kin st o l = Some m -> visible cv m) ->
  exists l', update_moving kin st cv mv o p l = Ok l' /\ layout_step [] [] l l' /\ picked_up (tile_win (Layout.im_tile mv)) o l'.
Proof.
  intros Hok Hcv Hm Hv. unfold update_moving.
  destruct (hovered_ok cv o (Layout.im_pointer_pos_within_output mv) l) as [id ->]; [done..|]. cbn [mbind res_bind]. cbv zeta.
  pose proof (lo_moving l Hok mv Hm) as [Hti Hoc Hwc].
  match goal with |- context [if ?b then None else Layout.im_workspace_config mv] => set (left := b) end.
  set (wc := if left then None else Layout.im_workspace_config mv). set (switched := negb _).
  assert (Hwc' : part_ok (snd <$> wc)) by (unfold wc; by destruct left).
  set (l1 := if switched then _ else l).
  assert (Hs1 : layout_step [] [] l l1) by (unfold l1; destruct switched; [by apply focus_output_step|by apply step_same]).
  assert (Hm1 : Layout.interactive_move l1 = Some (Layout.Moving mv)) by (unfold l1; destruct switched; by rewrite ?focus_output_move).
  set (oc := if switched then _ else Layout.im_output_config mv).
  assert (Hoc' : part_ok oc) by (unfold oc; destruct switched; [apply output_config_ok, Hs1|done]).
  destruct (moved_config_ok o oc wc l1 (Layout.im_tile mv)) as [H1 H2]; [apply Hs1|done..|].
  match goal with |- context [Layout.Moving ?m] => set (mv' := m) end.
  assert (Hid : tile_win (Layout.im_tile mv') = tile_win (Layout.im_tile mv)) by (unfold mv'; cbn; by destruct (left || switched)).
  eexists. split; [done|]. split.
  - eapply layout_step_trans; [exact Hs1|]. apply (move_again_step kin Hac st Hst mv); [apply Hs1|done| |done].
    constructor; [unfold mv'; cbn; by destruct (left || switched)|done|done].
  - exists mv'. by split_and!.
Qed.

Definition dragged x o l (b : bool) l' : Prop :=
  match Layout.interactive_move l with
  | Some (Layout.Starting y _ _) => if bool_decide (y = x) then b = true /\ (still_grabbed x l' \/ picked_up x o l') else b = false /\ l' = l
  | Some (Layout.Moving mv) => if bool_decide (tile_win (Layout.im_tile mv) = x) then b = true /\ picked_up x o l' else b = false /\ l' = l
  | None => b = false /\ l' = l
  end.
Lemma move_update_ok cv now x delta o p l :
  layout_ok l -> roomy l -> cv_ok cv -> ts_ok now -> drag_pre cv now x delta o l ->
  exists b l', interactive_move_update kin st cv now x delta o p l = Ok (b, l') /\ layout_step [] [] l l' /\ dragged x o l b l'.
Proof.
  intros Hok Hr Hcv Hts Hp. unfold interactive_move_update, dragged, drag_pre in *.
  assert (Hno : exists b l', mret (false, l) = Ok (b, l') /\ layout_step [] [] l l' /\ b = false /\ l' = l)
    by (exists false, l; split_and!; [done|by apply step_same|done|done]).
  destruct (Layout.interactive_move l) as [[y d r|mv]|] eqn:Em; [| |done].
  - case_bool_decide as Hy; [|done]. subst y. destruct (update_starting_ok cv now x d r delta o p l) as (l' & -> & Hs & Hd); try done. by exists true, l'.
  - case_bool_decide as Hy; [|done]. subst x. destruct (update_moving_ok cv mv o p l) as (l' & -> & Hs & Hd); try done. by exists true, l'.
Qed.
End drag.
