(* ===== verification/LayoutDrop.v ===== *)
(** * What dropping a window does

    A window that is let go ([Drag.interactive_move_end]) joins the layout again: on
    the workspace, new or not, and at the place there that the pointer is at. *)

From stdpp Require Import base numbers option list strings gmap.
From Stdlib Require Import ZArith Lia SpecFloat.
From S2P Require Import Prelude.
From S2P Require Import Runs.
From S2P Require Import F64.
From S2P Require Import Duration.
From S2P Require Import Clock.
From S2P Require Import Animation.
From S2P Require Import AnimTotal.
From S2P Require Import OutputName.
From S2P Require Import LayoutTypes.
From S2P Require Import Tile.
From S2P Require Import TileInv.
From S2P Require Import TileGeometry.
From S2P Require Import Floating.
From S2P Require Import FloatingStack.
From S2P Require Import FloatingInv.
From S2P Require Import Column.
From S2P Require Import ColumnInv.
From S2P Require Import Scrolling.
From S2P Require Import ScrollingSpec.
From S2P Require Import ScrollingInv.
From S2P Require Import ScrollingMoves.
From S2P Require Import ScrollingTiles.
From S2P Require Import ScrollingViews.
From S2P Require Import Positions.
From S2P Require Import ScrollingThms.
From S2P Require Import FloatingOps.
From S2P Require Import FloatingThms.
From S2P Require Import Workspace.
From S2P Require Import WorkspaceInv.
From S2P Require Import WorkspaceOps.
From S2P Require Import WorkspaceTiling.
From S2P Require Import WorkspaceRoutes.
From S2P Require Import WorkspaceThms.
From S2P Require Import WorkspaceLabels.
From S2P Require Import Interface.
From S2P Require Import Monitor.
From S2P Require Import MonitorIds.
From S2P Require Import MonitorInv.
From S2P Require Import MonitorOps.
From S2P Require Import MonitorOps2.
From S2P Require Import MonitorThms.
From S2P Require Import MonitorGeometry.
From S2P Require Import Layout.
From S2P Require Import LayoutInv.
From S2P Require Import LayoutHotplug.
From S2P Require Import LayoutWindows.
From S2P Require Import LayoutMoves.
From S2P Require Import LayoutRest.
From S2P Require Import LayoutThms.
From S2P Require Import LayoutReal.
From S2P Require Import LayoutActions.
From S2P Require Import LayoutPlaces.
From S2P Require Import LayoutActionsThms.
From S2P Require Import LayoutDrag.
From S2P Require Import LayoutDragThms.

Section drop.
Context {LE : LayoutElement} {LEL : LayoutElementLaws} {GE : Geometry} {GL : GeometryLaws} {LM : Libm} {KF : Keyframe} {OU : Outputs}
  {SM : Smithay} {RE : Rectangles}.
Context (kin : Id -> Id -> bool) (Hac : acyclic kin) (st : WOutput -> OutputState) (Hst : outputs_ok st).
#[local] Hint Extern 0 WorkspaceOps => exact (real_ops kin st) : typeclass_instances.
#[local] Hint Extern 0 LayoutOps => exact (real_layout_ops kin st) : typeclass_instances.
#[local] Hint Extern 0 WorkspaceLaws => exact (real_laws kin Hac st Hst) : typeclass_instances.
#[local] Hint Extern 0 LayoutLaws => exact (real_layout_laws kin Hac st Hst) : typeclass_instances.
Abbreviation Lay := Layout.Layout.
Abbreviation Mon := Monitor.Monitor.
Implicit Types (cv : ClockView) (w : WS) (x : Win) (l : Lay) (m : Mon).
Import Actions.
Import Drag.

(** ** The workspace to drop on *)
Lemma ws_position_ok (m : Mon) w :
  w ∈ Monitor.workspaces m -> exists j v, ws_position kin st (ws_id w) m = Ok j /\ Monitor.workspaces m !! j = Some v /\ ws_id v = ws_id w.
Proof.
  intros Hw. unfold ws_position.
  destruct (position_found (fun v => ws_id v =? ws_id w)%Z (Monitor.workspaces m) w) as (j & v & -> & Hv & He%Z.eqb_eq); [done|apply Z.eqb_refl|].
  by exists j, v.
Qed.

(** The workspace [w] of [m'], at [j], is there to drop on; if it is a new one in the
    middle, it must not stay empty. *)
Record landed (p : InsertWorkspace) (m : Mon) (j : nat) (m' : Mon) w : Prop := {
  ld_semi : semi_ok (HM := home_of m) m';
  ld_clean : clean m -> clean_but j m';
  ld_wins : Monitor.windows m' ≡ₚ Monitor.windows m;
  ld_options : Monitor.options m' = Monitor.options m;
  ld_at : Monitor.workspaces m' !! j = Some w;
  ld_room : room m' 2;
  ld_ev : evolves [] 1 m m';
  ld_same : match p with Existing id => m' = m /\ ws_id w = id | NewAt _ => True end
}.
Lemma landed_here p (m : Mon) j w :
  semi_ok (HM := home_of m) m -> room m 3 -> Monitor.workspaces m !! j = Some w ->
  match p with Existing id => ws_id w = id | NewAt _ => True end -> landed p m j m w.
Proof.
  intros Hs Hr Hj Hp. constructor; try done; [apply clean_clean_but|unfold room in *; lia|apply evolves_refl|by destruct p].
Qed.

Lemma new_workspace_landed (m : Mon) k :
  semi_ok (HM := home_of m) m -> room m 3 -> (k < Monitor.len m - 1)%nat -> (Monitor.ewaf m = true -> k <> 0%nat) ->
  exists m' w, Monitor.add_workspace_at k m = Ok m' /\ landed (NewAt k) m k m' w.
Proof.
  intros [Hc Hl Hf] Hr Hk He.
  destruct (add_workspace_at_spec (HM := home_of m) m k) as (m' & w & Hadd & Hsp & Hid & Hws & Ha & Hp & Hcnt & Hfr & Hc' & Hw); [done|lia|unfold room in *; lia|].
  exists m', w. split; [done|]. assert (Hlen : Monitor.len m' = S (Monitor.len m)) by (unfold Monitor.len in *; rewrite Hws, length_insert_at; lia).
  pose proof (frame_ewaf _ _ Hfr) as Hew. destruct Hfr as (Ho & _ & _ & _ & Hsw). constructor; try done.
  - constructor; [done| |].
    + rewrite Hws. eapply last_empty_ext; [|exact Hl]. apply last_insert_at. unfold Monitor.len in *. lia.
    + rewrite Hew. intros Hm. destruct (Hf Hm) as [H1 H2]. split; [|rewrite Hlen; unfold Monitor.len in *; specialize (He Hm); lia].
      rewrite Hws. eapply first_empty_ext; [|exact H1]. apply head_insert_at. specialize (He Hm). unfold Monitor.len in *. lia.
  - intros Hcl Hs i v Hi Hlt Hz Hact Hne. rewrite Hew in Hz. rewrite Hlen in Hlt. apply Hsw in Hs. rewrite Ha in Hact.
    assert (Hkl : (k <= length (Monitor.workspaces m))%nat) by (unfold Monitor.len in *; lia). rewrite Hws in Hi.
    destruct (decide (i < k)%nat) as [Hik|Hik].
    + rewrite lookup_insert_at_lt in Hi by lia. apply (Hcl Hs i v Hi); [lia|done|]. destruct (Nat.leb_spec k (Monitor.active_workspace_idx m)); lia.
    + destruct i as [|i]; [lia|]. rewrite lookup_insert_at_gt in Hi by lia. apply (Hcl Hs i v Hi); [lia| |].
      * intros Hm. specialize (He Hm). lia.
      * destruct (Nat.leb_spec k (Monitor.active_workspace_idx m)); lia.
  - rewrite Hws. apply lookup_insert_at_eq. unfold Monitor.len in *. lia.
  - unfold room in *. rewrite Hcnt, Hlen. lia.
  - by eapply add_workspace_at_ev.
Qed.

Lemma landing_workspace_ok p (m : Mon) :
  semi_ok (HM := home_of m) m -> room m 3 -> insert_ok m p -> exists j m' w, landing_workspace kin st p m = Ok (j, m') /\ landed p m j m' w.
Proof.
  intros Hs Hr Hp. destruct p as [id|k]; unfold landing_workspace; unfold insert_ok in Hp.
  - destruct Hp as (i & w & Hi & <-). destruct (ws_position_ok m w) as (j & v & -> & Hj & Hv); [by eapply list_elem_of_lookup_2|].
    exists j, m, v. split; [done|by apply landed_here].
  - pose proof (len_pos (HM := home_of m) m Hs) as Hpos. destruct (Monitor.ewaf m && (k =? 0)%nat) eqn:Ez.
    + destruct (lookup_lt_is_Some_2 (Monitor.workspaces m) 0 Hpos) as [w Hw]. exists 0%nat, m, w. split; [done|by apply landed_here].
    + rewrite (usub_len (HM := home_of m)) by done. cbn [mbind res_bind]. destruct (Nat.leb_spec (Monitor.len m - 1) k) as [Hle|Hlt].
      * destruct (lookup_lt_is_Some_2 (Monitor.workspaces m) (Monitor.len m - 1)) as [w Hw]; [unfold Monitor.len in *; lia|].
        exists (Monitor.len m - 1)%nat, m, w. split; [done|by apply landed_here].
      * destruct (new_workspace_landed m k) as (m' & w & -> & Hl); [done..|lia| |by exists k, m', w].
        intros He ->. by rewrite He in Ez.
Qed.

(** ** Dropping on it *)
Definition drop_ok (w : Workspace.Workspace) (pos : InsertPosition) : Prop :=
  match pos with InFloating => True | _ => position_ok (Workspace.scrolling w) pos end.

(** [m] with the window [x], on the workspace [id]; [C] makes the result clean. *)
Definition joined x (C : Prop) (id : Z) (m m' : Mon) : Prop :=
  semi_ok (HM := home_of m) m' /\ (C -> clean m') /\ Monitor.windows m' ≡ₚ x :: Monitor.windows m /\ Monitor.options m' = Monitor.options m
  /\ evolves [] 2 m m' /\ on_workspace id x m'.

Lemma add_at_ok cv (t : @Interface.Tile (real_ops kin st)) column width fw fl allow (m : Mon) j w (C : Prop) :
  semi_ok (HM := home_of m) m -> room m 2 -> cv_ok cv -> tile_ok t -> Monitor.workspaces m !! j = Some w ->
  match column with Some c => c <= length (ws_columns w) | None => True end -> (tile_win t ∉ Monitor.windows m) -> (C -> clean_but j m) ->
  exists m', Monitor.add_tile cv t (MonWorkspace (ws_id w) column) Yes allow width fw fl m = Ok m'
    /\ joined (tile_win t) C (ws_id w) m m'.
Proof.
  intros Hs Hr Hcv Ht Hj Hcol Hx Hcl.
  assert (Hres : exists tg, Monitor.resolve_add_window_target (MonWorkspace (ws_id w) column) m = Ok (j, tg) /\ target_ok tg w).
  { unfold Monitor.resolve_add_window_target. rewrite (find_ids (HM := home_of m) m j w); [|apply Hs|done]. destruct column as [c|]; by eexists. }
  destruct Hres as (tg & Hres & Htg).
  destruct (add_tile_resolved (HM := home_of m) cv t (MonWorkspace (ws_id w) column) Yes allow width fw fl m j tg w) as (m' & He & Hst' & Hc' & Hon); try done.
  exists m'. split; [done|]. destruct Hst' as (H1 & _ & H2 & H3). split_and!; [done|auto|exact H2|exact H3|by eapply add_tile_ev|done].
Qed.

Lemma landed_tile_ok cv (mv : @Layout.InteractiveMoveData (real_ops kin st)) la w :
  cv_ok cv -> tile_incoming (Layout.im_tile mv) ->
  exists t, landed_tile kin st cv mv la w = Ok t /\ tile_incoming t /\ Tile.id t = Tile.id (Layout.im_tile mv).
Proof.
  intros Hcv Ht. unfold landed_tile. destruct (held_location_ok kin st cv (la_zoom la) mv Hcv Ht) as [p ->]. cbn [mbind res_bind]. cbv zeta.
  eexists. split; [done|]. destruct Ht as (o & vs & sc & Ho & Ht & Hsy).
  match goal with |- context [match win_expected_size (Tile.window ?t1) with _ => _ end] => set (t2 := t1) end.
  assert (H2 : TileInv.tile_ok o vs sc t2 /\ Tile.window t2 = Tile.window (Layout.im_tile mv) /\ TileInv.synced t2).
  { unfold t2. destruct (la_workspace la), (la_offset la); (split; [destruct Ht; by constructor|by split]). }
  clearbody t2. destruct H2 as (H2 & H3 & H4). destruct (win_expected_size _).
  - split; [|unfold Tile.id; cbn; by rewrite H3]. exists o, vs, sc. split_and!; [done|destruct H2; by constructor|done].
  - split; [|unfold Tile.id; by rewrite H3]. by exists o, vs, sc.
Qed.

Lemma drop_tile_ok cv (mv : @Layout.InteractiveMoveData (real_ops kin st)) la allow j (m : Mon) w (C : Prop) :
  semi_ok (HM := home_of m) m -> room m 2 -> cv_ok cv -> tile_incoming (Layout.im_tile mv) -> Monitor.workspaces m !! j = Some w ->
  drop_ok w (la_position la) -> (tile_win (Layout.im_tile mv) ∉ Monitor.windows m) -> (C -> clean_but j m) ->
  (forall i k, la_position la = InColumn i k -> C -> clean m) ->
  exists m', drop_tile kin st cv mv la allow j m = Ok m' /\ joined (tile_win (Layout.im_tile mv)) C (ws_id w) m m'.
Proof.
  intros Hs Hr Hcv Ht Hj Hd Hx Hcl Hin. unfold drop_tile. rewrite (index_ok j (w : Workspace.Workspace)) by done. cbn [mbind res_bind]. cbv zeta.
  destruct (la_position la) as [c|c i|] eqn:Ep; cbn [drop_ok position_ok] in Hd.
  - apply (add_at_ok cv (Layout.im_tile mv) (Some c) _ _ _ _ m j w C); try done. cbn. by rewrite length_fmap.
  - destruct Hd as (col & Hc & Hi).
    destruct (add_tile_to_column_at (HM := home_of m) cv j c (Some i) (Layout.im_tile mv) true allow m w (length (Column.tiles col)))
      as (m' & He & (Hst' & H1 & H2 & H3) & Hon); try done; [cbn; rewrite list_lookup_fmap; by rewrite Hc|].
    exists m'. split; [done|]. split_and!; [done|intros HC; by eapply H1, Hin|exact H2|exact H3|by eapply add_tile_to_column_ev|done].
  - destruct (landed_tile_ok cv mv la w Hcv Ht) as (t & -> & Hti & Hid). cbn [mbind res_bind].
    change (tile_win (Layout.im_tile mv)) with (Tile.id (Layout.im_tile mv)) in *. rewrite <-Hid in *.
    by apply (add_at_ok cv t None _ _ _ _ m j w C).
Qed.

Lemma animate_landing_ok cv x zoom loc (m : Mon) :
  semi_ok (HM := home_of m) m -> cv_ok cv -> x ∈ Monitor.windows m ->
  exists m', animate_landing kin st cv x zoom loc m = Ok m' /\ step_ok (HM := home_of m) [] m m' /\ evolves [] 0 m m'
    /\ forall id, on_workspace id x m -> on_workspace id x m'.
Proof.
  intros Hs Hcv Hx. unfold animate_landing.
  destruct (render_geo_ok (HM := home_of m) cv m (so_core _ Hs) Hcv) as (gs & -> & Hl). cbn [mbind res_bind].
  destruct (window_at x (Monitor.workspaces m) Hx) as (j & w & Hj & Hw & Hxw). rewrite position_has, Hj. cbn [unwrap mbind res_bind].
  rewrite (index_ok j (w : Workspace.Workspace)) by done. cbn [mbind res_bind].
  destruct (lookup_lt_is_Some_2 gs j) as [geo Hg]; [rewrite Hl; apply lookup_lt_Some in Hw; unfold Monitor.len; lia|].
  rewrite (index_ok _ _ _ Hg). cbn [mbind res_bind].
  match goal with |- context [Workspace.update_positioned_tile cv x ?f w] => set (g := f) end.
  pose proof (lookup_ws_ok (HM := home_of m) m j w Hs Hw : real_ok kin w) as Hwok.
  change (x ∈ (Tile.id <$> Workspace.tiles w)) in Hxw. rewrite tiles_windows in Hxw.
  destruct (proj1 (runs_ok _ _) (update_positioned_to kin cv Hcv x g w (proj1 Hwok) Hxw (fun p => unseen_move cv Hcv _)))
    as (w' & He & Hb & _ & Hv). rewrite He. cbn [mbind res_bind]. eexists. split; [done|].
  assert (Ht : turned kin w (Tile.id <$> Workspace.tiles w) w').
  { split; [by apply (positioned_keeps cv x g)|]. split; [by rewrite !tiles_windows, <-Hv|]. split; [done|]. rewrite <-Hv. apply Hwok. }
  assert (Hsame : same_ws w w') by exact (turned_becomes kin st _ _ _ Ht). destruct (update_same (HM := home_of m) m j w w' Hs Hw Hsame) as [H1 H2].
  split_and!; [exact H1|exact H2|]. intros id (v & Hv1 & Hid & Hxv). apply list_elem_of_lookup in Hv1 as [k Hk]. destruct (decide (k = j)) as [->|Hne].
  - rewrite Hw in Hk. injection Hk as <-. exists w'. split_and!; [|by rewrite <-Hid; apply Hsame|by rewrite (turns_wins _ _ _ (proj1 Hsame))].
    apply (list_elem_of_lookup_2 _ j), list_lookup_insert_eq. by eapply lookup_lt_Some.
  - exists v. split_and!; [|done|done]. apply (list_elem_of_lookup_2 _ k). cbn. by rewrite list_lookup_insert_ne.
Qed.

Definition place_ok (la : Landing) (m : Mon) : Prop :=
  insert_ok m (la_workspace la) /\
  match la_workspace la with
  | Existing id => forall w : WS, w ∈ Monitor.workspaces m -> ws_id w = id -> drop_ok w (la_position la)
  | NewAt _ => la_position la = InFloating \/ la_position la = NewColumn 0
  end.

Lemma land_ok cv (mv : @Layout.InteractiveMoveData (real_ops kin st)) la allow (m : Mon) :
  semi_ok (HM := home_of m) m -> room m 3 -> cv_ok cv -> tile_incoming (Layout.im_tile mv) -> place_ok la m ->
  (tile_win (Layout.im_tile mv) ∉ Monitor.windows m) ->
  exists m', land kin st cv mv la allow m = Ok m' /\ step_ok (HM := home_of m) [tile_win (Layout.im_tile mv)] m m' /\ evolves [] 3 m m'
    /\ exists id, on_workspace id (tile_win (Layout.im_tile mv)) m' /\ match la_workspace la with Existing id' => id = id' | NewAt _ => True end.
Proof.
  intros Hs Hr Hcv Ht [Hp Hpos] Hx. unfold land. destruct (held_location_ok kin st cv (la_zoom la) mv Hcv Ht) as [loc ->]. cbn [mbind res_bind].
  destruct (landing_workspace_ok (la_workspace la) m Hs Hr Hp) as (j & m1 & w & -> & [H1 H2 H3 H4 H5 H6 H7 H8]). cbn [mbind res_bind].
  pose proof (ev_output _ _ _ _ H7) as Ho. assert (Hh : home_of m1 = home_of m) by (unfold home_of; by rewrite Ho).
  destruct (drop_tile_ok cv mv la allow j m1 w (clean m)) as (m2 & -> & Hj1 & Hj2 & Hj3 & Hj4 & Hj5 & Hj6); try done.
  - by rewrite Hh.
  - destruct (la_workspace la); [destruct H8 as [-> H8]; apply Hpos; [by eapply list_elem_of_lookup_2|done]|].
    destruct Hpos as [ -> | -> ]; [done|]. cbn. lia.
  - by rewrite H3.
  - intros i k Hi Hm. destruct (la_workspace la); [by destruct H8 as [-> _]|]. destruct Hpos; congruence.
  - cbn [mbind res_bind]. rewrite Hh in Hj1. pose proof (ev_output _ _ _ _ Hj5) as Ho2.
    assert (Hh2 : home_of m2 = home_of m) by (unfold home_of; by rewrite Ho2, Ho).
    destruct (animate_landing_ok cv (tile_win (Layout.im_tile mv)) (la_zoom la) loc m2) as (m3 & -> & Hs3 & Hev3 & Hon3); [by rewrite Hh2|done|rewrite Hj3; left|].
    exists m3. split; [done|]. rewrite Hh2 in Hs3. destruct Hs3 as (G1 & G2 & G3 & G4). split_and!.
    + split_and!; [done|auto|by rewrite G3, Hj3, H3|by rewrite G4, Hj4, H4].
    + eapply (evolves_seq [] 1 2); [exact H7| |lia]. eapply (evolves_seq [] 2 0); [exact Hj5|exact Hev3|lia].
    + exists (ws_id w). split; [by apply Hon3|]. destruct (la_workspace la); [by destruct H8|done].
Qed.

(** ** Where the window goes *)
Abbreviation MoveData := (@Layout.InteractiveMoveData (real_ops kin st)).
(** The arithmetic of the pointer gives numbers, if the window is to be tiled. *)
Definition pointer_ok cv (mv : MoveData) pos (w : Workspace.Workspace) : Prop :=
  Layout.im_is_floating mv = false -> pointer_finite cv pos (Workspace.scrolling w).
Definition landing_pre cv (mv : MoveData) l : Prop :=
  match Layout.monitor_set l with
  | Layout.Normal mons _ active =>
      let pointer := Layout.im_pointer_pos_within_output mv in
      match Layout.monitor_idx (Layout.im_output mv) mons with
      | Some i => forall m, mons !! i = Some m -> visible cv m
          /\ forall id geo zoom w, MonitorGeometry.insert_position cv pointer m = Ok (Existing id, geo) -> Monitor.overview_zoom cv m = Ok zoom ->
             w ∈ Monitor.workspaces m -> ws_id w = id -> pointer_ok cv mv (downscale zoom (pair_sub pointer geo.1)) w
      | None => forall m w, mons !! active = Some m -> Monitor.workspaces m !! 0%nat = Some w -> pointer_ok cv mv (f0, f0) w
      end
  | Layout.NoOutputs _ => True
  end.

Lemma drop_position_ok cv (mv : MoveData) pos (w : Workspace.Workspace) :
  cv_ok cv -> real_ok kin w -> pointer_ok cv mv pos w -> exists p, drop_position kin st cv mv pos w = Ok p /\ drop_ok w p.
Proof.
  intros Hcv [Hw _] Hp. unfold drop_position, pointer_ok in *. destruct (Layout.im_is_floating mv); [by exists InFloating|].
  destruct (proj1 (runs_ok _ _) (insert_position_runs cv Hcv pos _ (wo_scrolling _ _ Hw) (Hp eq_refl))) as (p & He & Hok).
  exists p. split; [exact He|]. unfold drop_ok. by destruct p.
Qed.

Lemma same_id_same (m : Mon) v w :
  mon_core (HM := home_of m) m -> v ∈ Monitor.workspaces m -> w ∈ Monitor.workspaces m -> ws_id v = ws_id w -> v = w.
Proof.
  intros Hc [i Hi]%list_elem_of_lookup [j Hj]%list_elem_of_lookup He.
  pose proof (find_ids (HM := home_of m) m i v Hc Hi) as Hf. rewrite He, (find_ids (HM := home_of m) m j w Hc Hj) in Hf. injection Hf as ->. congruence.
Qed.

Lemma landing_at_ok cv (mv : MoveData) (mons : list Mon) i active c (m : Mon) :
  mons !! i = Some m -> Layout.monitor_idx (Layout.im_output mv) mons = Some i ->
  mon_core (HM := home_of m) (Monitor.set_counter c m) -> cv_ok cv -> visible cv m ->
  (forall id geo zoom w, MonitorGeometry.insert_position cv (Layout.im_pointer_pos_within_output mv) m = Ok (Existing id, geo) ->
     Monitor.overview_zoom cv m = Ok zoom -> w ∈ Monitor.workspaces m -> ws_id w = id ->
     pointer_ok cv mv (downscale zoom (pair_sub (Layout.im_pointer_pos_within_output mv) geo.1)) w) ->
  exists la, landing kin st cv mv mons active = Ok la /\ la_monitor la = i /\ place_ok la (Monitor.set_counter c m).
Proof.
  intros Hm Hi Hc Hcv Hv Hp. unfold landing. rewrite Hi, (index_ok _ _ _ Hm). cbn [mbind res_bind].
  destruct (mon_zoom_ok kin Hac st Hst cv m c Hc Hcv) as [z Hz]. rewrite Hz. cbn [mbind res_bind].
  destruct (insert_position_ok (HM := home_of m) cv (Layout.im_pointer_pos_within_output mv) _ Hc Hcv Hv) as (p & geo & He & Hin).
  change (MonitorGeometry.insert_position cv (Layout.im_pointer_pos_within_output mv) m = Ok (p, geo)) in He. rewrite He. cbn [mbind res_bind].
  destruct p as [id|k].
  - pose proof Hin as Hin'. destruct Hin as (i0 & w & Hw%list_elem_of_lookup_2 & Hid). change (w ∈ Monitor.workspaces m) in Hw.
    destruct (ws_position_ok m w Hw) as (j & v & Hj & Hvj & Hvid). rewrite Hid in Hj, Hvid. rewrite Hj. cbn [mbind res_bind].
    rewrite (index_ok j (v : Workspace.Workspace)) by done. cbn [mbind res_bind]. pose proof (list_elem_of_lookup_2 _ _ _ Hvj) as Hvin.
    destruct (drop_position_ok cv mv (downscale z (pair_sub (Layout.im_pointer_pos_within_output mv) geo.1)) v) as (pos & -> & Hpos); [done| |by eapply Hp|].
    { exact (proj1 (Forall_forall _ _) (mc_ws _ Hc) v Hvin). }
    cbn [mbind res_bind]. eexists. split; [done|]. split; [done|]. split; [done|]. cbn. intros u Hu Hu'.
    rewrite (same_id_same (Monitor.set_counter c m) u v Hc Hu Hvin); [done|]. transitivity id; [exact Hu'|symmetry; exact Hvid].
  - eexists. split; [done|]. split; [done|]. split; [done|]. cbn. destruct (Layout.im_is_floating mv); auto.
Qed.

Lemma landing_away_ok cv (mv : MoveData) (mons : list Mon) active c (m : Mon) :
  mons !! active = Some m -> Layout.monitor_idx (Layout.im_output mv) mons = None -> semi_ok (HM := home_of m) (Monitor.set_counter c m) -> cv_ok cv ->
  (forall w, Monitor.workspaces m !! 0%nat = Some w -> pointer_ok cv mv (f0, f0) w) ->
  exists la, landing kin st cv mv mons active = Ok la /\ la_monitor la = active /\ place_ok la (Monitor.set_counter c m).
Proof.
  intros Hm Hi Hs Hcv Hp. unfold landing. rewrite Hi, (index_ok _ _ _ Hm). cbn [mbind res_bind]. pose proof (so_core _ Hs) as Hc.
  destruct (mon_zoom_ok kin Hac st Hst cv m c Hc Hcv) as [z ->]. cbn [mbind res_bind].
  destruct (lookup_lt_is_Some_2 (Monitor.workspaces m) 0 (len_pos (HM := home_of m) _ Hs)) as [w Hw].
  rewrite (index_ok 0 (w : Workspace.Workspace)) by done. cbn [mbind res_bind]. pose proof (list_elem_of_lookup_2 _ _ _ Hw) as Hin.
  destruct (render_geo_ok (HM := home_of m) cv _ Hc Hcv) as (gs & He & Hl).
  change (MonitorGeometry.workspaces_render_geo cv m = Ok gs) in He. rewrite He. cbn [mbind res_bind].
  destruct gs as [|geo gs]; [by rewrite length_nil in Hl|]. cbn [head unwrap mbind res_bind].
  destruct (drop_position_ok cv mv (f0, f0) w) as (pos & -> & Hpos); [done|exact (proj1 (Forall_forall _ _) (mc_ws _ Hc) w Hin)|by apply Hp|].
  cbn [mbind res_bind]. eexists. split; [done|]. split; [done|]. split; [by exists 0%nat, w|]. cbn. intros u Hu Hu'.
  by rewrite (same_id_same (Monitor.set_counter c m) u w Hc Hu Hin Hu').
Qed.

(** ** Letting go *)

(** The window is on the workspace it landed on: the one the pointer was at, or one
    that was empty. *)
Definition came_down cv (mv : MoveData) l l' : Prop :=
  match Layout.monitor_set l, Layout.monitor_set l' with
  | Layout.Normal mons p a, Layout.Normal mons' p' a' => p' = p /\ a' = a
      /\ exists la m', landing kin st cv mv mons a = Ok la /\ mons' !! la_monitor la = Some m'
      /\ exists id, on_workspace id (tile_win (Layout.im_tile mv)) m' /\ match la_workspace la with Existing id' => id = id' | NewAt _ => True end
  | Layout.NoOutputs _, Layout.NoOutputs wss' => exists w, head wss' = Some w /\ tile_win (Layout.im_tile mv) ∈ ws_windows w
  | _, _ => False
  end.
Lemma put_down_ok cv (mv : MoveData) l :
  layout_ok l -> roomy l -> cv_ok cv -> tile_incoming (Layout.im_tile mv) -> (tile_win (Layout.im_tile mv) ∉ Layout.windows l) -> landing_pre cv mv l ->
  exists l', put_down kin st cv mv l = Ok l' /\ layout_step [tile_win (Layout.im_tile mv)] [] l l'
    /\ Layout.interactive_move l' = Layout.interactive_move l /\ came_down cv mv l l'.
Proof.
  intros Hok Hr Hcv Ht Hx Hp. unfold put_down, landing_pre, came_down in *. pose proof (lo_set l Hok) as Hset. destruct (Layout.monitor_set l) as [mons p a|wss] eqn:Es.
  - destruct (lookup_lt_is_Some_2 mons a (no_active _ _ _ _ _ Hset)) as [ma Hma].
    assert (Hla : exists la m, landing kin st cv mv mons a = Ok la /\ mons !! la_monitor la = Some m /\ place_ok la (Monitor.set_counter (Layout.id_counter l) m)).
    { destruct (Layout.monitor_idx (Layout.im_output mv) mons) as [i|] eqn:Ei.
      - destruct (monitor_idx_lookup _ _ _ Ei) as (m & Hm & _). destruct (normal_lookup l mons p a i m) as (Hs & _); try done.
        destruct (Hp m Hm) as [Hv Hpt]. destruct (landing_at_ok cv mv mons i a (Layout.id_counter l) m) as (la & He & <- & Hpl); try done; [apply Hs|]. by exists la, m.
      - destruct (normal_lookup l mons p a a ma) as (Hs & _); try done.
        destruct (landing_away_ok cv mv mons a (Layout.id_counter l) ma) as (la & He & Hia & Hpl); try done; [by intros w; apply Hp|].
        exists la, ma. by rewrite Hia. }
    destruct Hla as (la & m & Hla & Hm & Hpl). rewrite Hla. cbn [mbind res_bind]. destruct (normal_lookup l mons p a (la_monitor la) m) as (Hs & Hcl & Hrm); try done.
    set (m1 := Monitor.set_counter (Layout.id_counter l) m) in *.
    destruct (land_ok cv mv la (negb (Layout.overview_open l)) m1) as (m' & He & Hst' & Hev & Hon'); try done; [unfold room in *; lia| |].
    { intros Hin. apply Hx. rewrite (windows_normal l mons p a Es). apply elem_of_app. right. apply list_elem_of_bind. exists m. split; [done|by eapply list_elem_of_lookup_2]. }
    destruct (layout_on_monitor l mons p a (la_monitor la) m (Layout.lift_op (land kin st cv mv la (negb (Layout.overview_open l)))) 3 [tile_win (Layout.im_tile mv)] tt m')
      as (Hon & _ & Hl); try done; [lia|unfold Layout.lift_op; fold m1; by rewrite He|apply NoDup_cons; split; [done|apply Hok]|].
    rewrite Hon. cbn [mbind res_bind]. eexists. split; [done|]. split; [apply Hl, Hset|]. split; [done|]. cbn. split; [done|]. split; [done|].
    exists la, m'. split_and!; [done| |exact Hon']. apply list_lookup_insert_eq. by eapply lookup_lt_Some.
  - destruct (place_first l wss Hok Hr Hset) as [w Hw]. cbv zeta in Hw.
    set (push := match wss with [] => _ | _ => _ end) in *. destruct push as [wss' c']. cbn [fst snd] in Hw.
    pose proof (pl_at _ _ _ _ _ _ _ Hw) as Hw0. rewrite (index_ok _ _ _ Hw0). cbn [mbind res_bind].
    destruct (ws_add_tile_spec cv (Layout.im_tile mv) Auto Yes (Layout.im_width mv) (Layout.im_is_full_width mv) (Layout.im_is_floating mv) w)
      as (w' & -> & [Htn _]); [done|exact (Forall_lookup_1 _ _ _ _ (pl_ok _ _ _ _ _ _ _ Hw) Hw0)|done|done| |].
    { intros Hin. apply Hx. rewrite (windows_unplugged l wss Es), <-(pl_wins _ _ _ _ _ _ _ Hw). apply elem_of_app. right.
      apply list_elem_of_bind. exists w. split; [done|by eapply list_elem_of_lookup_2]. }
    cbn [mbind res_bind]. eexists. split; [done|]. split; [by apply (placed_step l wss 0 Auto wss' c' w)|]. split; [done|]. cbn.
    exists w'. split; [by destruct wss'|]. rewrite (turns_wins _ _ _ Htn). left.
Qed.

Lemma release_ok cv now (mv : MoveData) l :
  layout_ok l -> roomy l -> cv_ok cv -> ts_ok now -> Layout.interactive_move l = Some (Layout.Moving mv) ->
  (Layout.im_is_floating mv = false -> can_settle cv l) ->
  exists mv' l', release kin st cv now mv l = Ok (mv', l') /\ tile_incoming (Layout.im_tile mv')
    /\ tile_win (Layout.im_tile mv') = tile_win (Layout.im_tile mv) /\ layout_step [] [tile_win (Layout.im_tile mv)] l l'
    /\ Layout.interactive_move l' = None /\ Layout.id_counter l' = Layout.id_counter l.
Proof.
  intros Hok Hr Hcv Hts Hm Hset. unfold release. pose proof (drop_move_step l Hok) as Hs0. unfold Layout.moving_windows in Hs0. rewrite Hm in Hs0.
  pose proof (moving_tile_ok kin Hac st Hst mv l Hok Hm) as Ht.
  destruct (dnd_end_spec cv now (Layout.set_interactive_move None l)) as (l1 & -> & Hs1 & Hm1 & Hc1 & Hw1); try done; [apply Hs0|]. cbn [mbind res_bind].
  pose proof Hs1 as [Hok1 Hws1]. pose proof Hs0 as [_ Hws0].
  assert (Hs01 : layout_step [] [tile_win (Layout.im_tile mv)] l l1) by (split; [done|]; rewrite <-Hws1; exact Hws0).
  destruct (Layout.im_is_floating mv) eqn:Ef; [by exists mv, l1|].
  destruct (end_gestures_ok kin Hac st Hst cv l1) as (l2 & -> & Hs2 & Hm2 & Hc2); [done|unfold roomy; by rewrite Hc1|done| |].
  { intros w Hin. rewrite Hw1 in Hin. by apply Hset. }
  cbn [mbind res_bind].
  destruct (animated_incoming cv INTERACTIVE_MOVE_ALPHA f1 _ _ Hcv (drag_config_total kin Hac st Hst l2 (proj1 Hs2)) Ht) as (t & -> & Hti & Hid). cbn [mbind res_bind].
  eexists _, l2. split; [done|]. split_and!; [done|exact Hid| |by rewrite Hm2, Hm1|by rewrite Hc2, Hc1].
  destruct Hs2 as [H2 Hws2]. split; [done|]. etransitivity; [exact (proj2 Hs01)|]. apply Permutation_app_head. exact Hws2.
Qed.

Definition let_go_pre cv now x l : Prop :=
  match Layout.interactive_move l with
  | Some (Layout.Starting y _ _) => y = x -> can_release cv x l
  | Some (Layout.Moving mv) => tile_win (Layout.im_tile mv) = x ->
      (Layout.im_is_floating mv = false -> can_settle cv l) /\ forall mv' l', release kin st cv now mv l = Ok (mv', l') -> landing_pre cv mv' l'
  | None => True
  end.
(** The window being moved, if any. *)
Definition moved_window l : option Win :=
  match Layout.interactive_move l with
  | Some (Layout.Starting y _ _) => Some y
  | Some (Layout.Moving mv) => Some (tile_win (Layout.im_tile mv))
  | None => None
  end.

Definition dropped cv now x l l' : Prop :=
  match Layout.interactive_move l with
  | Some (Layout.Moving mv) => exists mv' l1, release kin st cv now mv l = Ok (mv', l1) /\ tile_win (Layout.im_tile mv') = x /\ came_down cv mv' l1 l'
  | _ => exists w, w ∈ Layout.workspaces l' /\ x ∈ ws_windows w
  end.
Lemma move_end_ok cv now x l :
  layout_ok l -> roomy l -> cv_ok cv -> ts_ok now -> let_go_pre cv now x l ->
  exists l', interactive_move_end kin st cv now x l = Ok l' /\ layout_step [] [] l l'
    /\ if bool_decide (moved_window l = Some x) then Layout.interactive_move l' = None /\ dropped cv now x l l' else l' = l.
Proof.
  intros Hok Hr Hcv Hts Hp. unfold interactive_move_end, let_go_pre, moved_window, dropped in *.
  assert (Hno : exists l', mret l = Ok l' /\ layout_step [] [] l l' /\ l' = l) by (exists l; split_and!; [done|by apply step_same|done]).
  destruct (Layout.interactive_move l) as [[y d r|mv]|] eqn:Em; [| |by rewrite bool_decide_eq_false_2].
  - destruct (decide (y = x)) as [->|Hne]; [|by rewrite !bool_decide_eq_false_2 by congruence]. rewrite !bool_decide_eq_true_2 by done.
    destruct (cancel_starting_spec cv now x l) as (l' & -> & Hs & Hm & _); try done; [unfold Layout.moving_windows; by rewrite Em|by apply Hp|].
    exists l'. split; [done|]. split; [done|]. split; [done|]. pose proof (lo_starting l Hok x d r Em) as Hx. destruct Hs as [_ Hw]. cbn in Hw. rewrite Hw in Hx.
    unfold Layout.windows, Layout.moving_windows in Hx. rewrite Hm in Hx. cbn in Hx. apply list_elem_of_bind in Hx as (w & ? & ?). by exists w.
  - destruct (decide (tile_win (Layout.im_tile mv) = x)) as [<-|Hne]; [|by rewrite !bool_decide_eq_false_2 by congruence].
    rewrite !bool_decide_eq_true_2 by done. destruct (Hp eq_refl) as [Hset Hl].
    destruct (release_ok cv now mv l) as (mv' & l1 & He & Hti & Hid & Hs1 & Hm1 & Hc1); try done. specialize (Hl _ _ He). rewrite He. cbn [mbind res_bind].
    destruct (put_down_ok cv mv' l1) as (l2 & -> & Hs2 & Hm2 & Hcd); [apply Hs1|unfold roomy; by rewrite Hc1|done|done| |done|].
    + rewrite Hid. destruct Hs1 as [_ Hw]. pose proof (lo_wins l Hok) as Hnd. cbn in Hw. rewrite Hw in Hnd. by apply NoDup_cons in Hnd as [? _].
    + exists l2. split; [done|]. rewrite Hm2, Hm1. split; [|split; [done|]; by exists mv', l1]. destruct Hs2 as [H2 Hw2], Hs1 as [_ Hw1]. split; [done|]. rewrite Hid in Hw2.
      etransitivity; [exact Hw1|exact Hw2].
Qed.
End drop.
