(* ===== verification/HitTest.v ===== *)
(** * What is under the pointer

    Hit testing from tiles (layout/tile.rs, tab_indicator.rs) over the columns,
    floating windows, workspaces and monitors (scrolling.rs, workspace.rs,
    monitor.rs) to the layout (layout/mod.rs).  The loops are as lazy as in the
    source: the first tile in drawing order that is hit ends them. *)

From stdpp Require Import base numbers option list strings gmap.
From Stdlib Require Import ZArith Lia SpecFloat.
From S2P Require Import Prelude.
From S2P Require Import Runs.
From S2P Require Import F64.
From S2P Require Import Duration.
From S2P Require Import Clock.
From S2P Require Import Animation.
From S2P Require Import AnimTotal.
From S2P Require Import OutputName.
From S2P Require Import LayoutTypes.
From S2P Require Import Tile.
From S2P Require Import TileInv.
From S2P Require Import TileGeometry.
From S2P Require Import Floating.
From S2P Require Import FloatingStack.
From S2P Require Import FloatingInv.
From S2P Require Import Column.
From S2P Require Import ColumnInv.
From S2P Require Import Scrolling.
From S2P Require Import ScrollingSpec.
From S2P Require Import ScrollingInv.
From S2P Require Import ScrollingMoves.
From S2P Require Import ScrollingTiles.
From S2P Require Import ScrollingViews.
From S2P Require Import Positions.
From S2P Require Import ScrollingThms.
From S2P Require Import FloatingOps.
From S2P Require Import FloatingThms.
From S2P Require Import Workspace.
From S2P Require Import WorkspaceInv.
From S2P Require Import WorkspaceOps.
From S2P Require Import WorkspaceTiling.
From S2P Require Import WorkspaceRoutes.
From S2P Require Import WorkspaceThms.
From S2P Require Import WorkspaceLabels.
From S2P Require Import Interface.
From S2P Require Import Monitor.
From S2P Require Import MonitorIds.
From S2P Require Import MonitorInv.
From S2P Require Import MonitorOps.
From S2P Require Import MonitorOps2.
From S2P Require Import MonitorThms.
From S2P Require Import MonitorGeometry.
From S2P Require Import Layout.
From S2P Require Import LayoutInv.
From S2P Require Import LayoutHotplug.
From S2P Require Import LayoutWindows.
From S2P Require Import LayoutMoves.
From S2P Require Import LayoutRest.
From S2P Require Import LayoutThms.
From S2P Require Import LayoutReal.
From S2P Require Import LayoutActions.
From S2P Require Import LayoutPlaces.
From S2P Require Import LayoutActionsThms.
From S2P Require Import LayoutDrag.
From S2P Require Import LayoutDragThms.

(** What hit testing asks of windows besides [LayoutElement]. *)
Class HitRegions `{LE : !LayoutElement} := {
  win_buf_loc : W -> Z * Z;
  win_is_in_input_region : W -> Point -> bool;
  baba_is_float : W -> bool
}.

Inductive HitType := Input (win_pos : Point) | Activate (is_tab_indicator : bool).
Definition offset_win_pos (offset : Point) (h : HitType) : HitType :=
  match h with Input p => Input (pair_add p offset) | Activate b => Activate b end.
Definition to_activate (h : HitType) : HitType := match h with Input _ => Activate false | Activate b => Activate b end.

Fixpoint find_map {A B} (f : A -> res (option B)) (xs : list A) : res (option B) :=
  match xs with
  | [] => Ok None
  | x :: xs => r ← f x; match r with Some y => mret (Some y) | None => find_map f xs end
  end.

(** ** The tab indicator *)
Module Tabs.
Section ops.
Context {LM : Libm} {KF : Keyframe} {RE : Rectangles}.

(** The rectangles of [n] tabs from [loc]; the first [ones] of them are a pixel longer. *)
Fixpoint rects_from (horizontal : bool) (width px_per_tab pixel gaps : f64) (n ones : nat) (loc : Point) : list Rect :=
  match n with
  | O => []
  | S n =>
      let px := match ones with O => px_per_tab | S _ => (px_per_tab + pixel)%F end in
      let next := if horizontal then ((loc.1 + (px + gaps))%F, loc.2) else (loc.1, (loc.2 + (px + gaps))%F) in
      (loc, if horizontal then (px, width) else (width, px)) :: rects_from horizontal width px_per_tab pixel gaps n (pred ones) next
  end.
Definition tab_rects (cv : ClockView) (area : Rect) (count : nat) (scale : f64) (t : TabIndicator.TabIndicator) : res (list Rect) :=
  let c := TabIndicator.config t in
  progress ← match TabIndicator.open_anim t with Some a => v ← Animation.value cv a; mret (fmax v f0) | None => mret f1 end;
  let width := round_logical_in_physical_max1 scale (ti_width c) in
  let gap := fcopysign (round_logical_in_physical_max1 scale (fabs (ti_gap c))) (ti_gap c) in
  let gaps_between := round_logical_in_physical_max1 scale (gaps_between_tabs c) in
  let horizontal := match ti_position c with TabLeft | TabRight => false | TabTop | TabBottom => true end in
  let side := if horizontal then area.2.1 else area.2.2 in
  prop ← fclamp (default (lit 1 2) (ti_length c)) f0 (of_Z 2);
  let min_length := round_logical_in_physical scale (side * prop)%F in
  let pixel := (f1 / scale)%F in
  let count' := of_nat count in
  let shortest_length := (count' * (pixel + gaps_between) - gaps_between)%F in
  let length := fmax min_length shortest_length in
  let px_per_tab := ((length + gaps_between) / count' - gaps_between)%F in
  let px_per_tab := (px_per_tab * progress)%F in
  let gaps_between := round_logical_in_physical scale (gaps_between_tabs c * progress)%F in
  let length := (count' * (px_per_tab + gaps_between) - gaps_between)%F in
  let px_per_tab := floor_logical_in_physical_max1 scale px_per_tab in
  let floored_length := (count' * (px_per_tab + gaps_between) - gaps_between)%F in
  let ones_left := as_usize (fround ((length - floored_length) / pixel)%F) in
  let along := round_logical_in_physical scale ((side - length) / of_Z 2)%F in
  let before := (- gap - width)%F in
  let loc := match ti_position c with
             | TabLeft => (before, along)
             | TabRight => ((area.2.1 + gap)%F, along)
             | TabTop => (along, before)
             | TabBottom => (along, (area.2.2 + gap)%F)
             end in
  mret (rects_from horizontal width px_per_tab pixel gaps_between count ones_left (pair_add loc area.1)).

Definition hit (cv : ClockView) (area : Rect) (tab_count : nat) (scale : f64) (point : Point) (t : TabIndicator.TabIndicator)
    : res (option nat) :=
  let c := TabIndicator.config t in
  if ti_off c || (hide_when_single_tab c && (tab_count =? 1)%nat) then mret None
  else rects ← tab_rects cv area tab_count scale t; mret (position (fun r => rect_contains r point) rects).
End ops.
End Tabs.

Module Hit.
Section ops.
Context {LE : LayoutElement} {GE : Geometry} {LM : Libm} {KF : Keyframe} {OU : Outputs} {RE : Rectangles} {HR : HitRegions}.
Implicit Types (cv : ClockView) (t : Tile.Tile) (s : ScrollingSpace.ScrollingSpace) (c : Column.Column) (w : Workspace.Workspace).

(** ** Tiles *)
Definition TAU : f64 := lit 6283185307179586 (10 ^ 15).
Definition baba_is_float_offset (now : Duration) (view_height : f64) : f64 :=
  let amplitude := (view_height / of_Z 96)%F in
  (amplitude * (fsin (TAU * as_secs_f64 now / lit 36 10) - f1))%F.
Definition bob_offset cv t : Point :=
  if baba_is_float (Tile.window t) then (f0, round_logical_in_physical (Tile.scale t) (baba_is_float_offset (cv_now cv) (Tile.view_size t).2))
  else (f0, f0).
Definition buf_loc cv t : res Point :=
  loc ← TileGeometry.window_loc cv t; mret (pair_add (pair_add (f0, f0) loc) (to_f64 (win_buf_loc (Tile.window t)))).
Definition is_in_input_region cv (point : Point) t : res bool :=
  loc ← TileGeometry.window_loc cv t; mret (win_is_in_input_region (Tile.window t) (pair_sub point loc)).
Definition is_in_activation_region (point : Point) t : bool := rect_contains ((f0, f0), Tile.tile_size t) point.
Definition hit cv (point : Point) t : res (option HitType) :=
  let offset := bob_offset cv t in
  let point := pair_sub point offset in
  b ← is_in_input_region cv point t;
  if b : bool then p ← buf_loc cv t; mret (Some (Input (pair_add p offset)))
  else mret (if is_in_activation_region point t then Some (Activate false) else None).
Definition hit_tile cv t (tile_pos point : Point) : res (option (W * HitType)) :=
  h ← hit cv (pair_sub point tile_pos) t; mret (option_map (fun h => (Tile.window t, offset_win_pos tile_pos h)) h).

(** ** The scrolling layout *)
Definition tab_indicator_area cv c : res Rect :=
  let max_height := foldl (fun h t => fmax h (Tile.tile_size t).2) f0 (Column.tiles c) in
  t ← index (Column.tiles c) (Column.active_tile_idx c);
  size ← TileGeometry.animated_tile_size cv t;
  mret (Column.tiles_origin c, (size.1, max_height)).
Definition tabs_hit cv (pos col_pos : Point) (scale : f64) c : res (option (W * HitType)) :=
  if Column.tabbed c && is_normal (Column.sizing_mode c) then
    area ← tab_indicator_area cv c;
    i ← Tabs.hit cv area (length (Column.tiles c)) scale (pair_sub pos col_pos) (Column.tab_indicator c);
    match i with
    | Some i => t ← index (Column.tiles c) i; mret (Some (Tile.window t, Activate true))
    | None => mret None
    end
  else mret None.
(** A tile at its position in the view, if it is to be seen. *)
Definition shown_hit cv (pos : Point) (tp : Tile.Tile * Point * bool) : res (option (W * HitType)) :=
  if tp.2 then hit_tile cv tp.1.1 tp.1.2 pos else mret None.
Definition placed_tiles cv (col_pos : Point) (scale : f64) c : res (list (Tile.Tile * Point * bool)) :=
  ts ← ScrollingPositions.tiles_in_render_order c;
  mapM (fun tov : Tile.Tile * Point * bool =>
    o ← Tile.render_offset cv tov.1.1;
    mret (tov.1.1, round_size scale (pair_add (pair_add col_pos tov.1.2) o), tov.2)) ts.
Definition column_hit cv (pos view_off : Point) (scale : f64) (cx : Column.Column * f64) : res (option (W * HitType)) :=
  r ← Tile.move_offset cv (Column.move_animation cx.1);
  let col_pos := pair_add (pair_add view_off (cx.2, f0)) (r, f0) in
  tab ← tabs_hit cv pos (round_size scale col_pos) scale cx.1;
  match tab with
  | Some h => mret (Some h)
  | None => ts ← placed_tiles cv col_pos scale cx.1; find_map (shown_hit cv pos) ts
  end.
Definition scrolling_window_under cv (pos : Point) s : res (option (W * HitType)) :=
  v ← ScrollingSpace.view_pos cv s;
  cs ← ScrollingPositions.columns_in_render_order s;
  find_map (column_hit cv pos ((- v)%F, f0) (ScrollingSpace.scale s)) cs.

(** ** Workspaces *)
Definition window_under cv (pos : Point) w : res (option (W * HitType)) :=
  visible ← Workspace.is_floating_visible w;
  fl ← (if visible : bool then
          ps ← FloatingPositions.tiles_with_render_positions cv true (Workspace.floating w);
          find_map (fun tp : Tile.Tile * Point => hit_tile cv tp.1 tp.2 pos) ps
        else mret None);
  match fl with
  | Some h => mret (Some h)
  | None => scrolling_window_under cv pos (Workspace.scrolling w)
  end.
(** The third of a tile a point is in, in each direction. *)
Definition edges_at (pos : Point) (size : Size) : ResizeEdge :=
  let third x := (x / of_Z 3)%F in
  let two_thirds x := (of_Z 2 * x / of_Z 3)%F in
  let left := fltb pos.1 (third size.1) in
  let top := fltb pos.2 (third size.2) in
  {| edge_top := top; edge_bottom := negb top && fltb (two_thirds size.2) pos.2;
     edge_left := left; edge_right := negb left && fltb (two_thirds size.1) pos.1 |}.
Definition resize_edges_under cv (pos : Point) w : res (option ResizeEdge) :=
  ps ← Workspace.tiles_with_render_positions cv w;
  find_map (fun tp : Tile.Tile * Point * bool =>
    if tp.2 then
      let pos_within_tile := pair_sub pos tp.1.2 in
      h ← hit cv pos_within_tile tp.1.1;
      mret (match h with Some _ => Some (edges_at pos_within_tile (Tile.tile_size tp.1.1)) | None => None end)
    else mret None) ps.
End ops.

(** ** Monitors and the layout *)
Section layout.
Context {LE : LayoutElement} {GE : Geometry} {LM : Libm} {KF : Keyframe} {OU : Outputs} {SM : Smithay} {RE : Rectangles} {HR : HitRegions}.
Context (kin : Id -> Id -> bool) (st : WOutput -> OutputState).
#[local] Hint Extern 0 WorkspaceOps => exact (real_ops kin st) : typeclass_instances.
#[local] Hint Extern 0 LayoutOps => exact (real_layout_ops kin st) : typeclass_instances.
Abbreviation Lay := Layout.Layout.
Abbreviation Mon := Monitor.Monitor.
Implicit Types (cv : ClockView) (o : WOutput) (l : Lay) (m : Mon).
Import Actions.
Import Drag.

Definition in_overview m : bool := match Monitor.overview_progress m with Some _ => true | None => false end.
Definition monitor_window_under cv (pos : Point) m : res (option (W * HitType)) :=
  u ← MonitorGeometry.workspace_under cv pos m;
  match u with
  | None => mret None
  | Some (w, geo) =>
      if in_overview m then
        zoom ← Monitor.overview_zoom cv m;
        h ← window_under cv (downscale zoom (pair_sub pos geo.1)) w;
        mret (option_map (fun wh => (wh.1, to_activate wh.2)) h)
      else
        h ← window_under cv (pair_sub pos geo.1) w;
        mret (option_map (fun wh => (wh.1, offset_win_pos geo.1 wh.2)) h)
  end.
Definition monitor_resize_edges_under cv (pos : Point) m : res (option ResizeEdge) :=
  if in_overview m then mret None
  else
    u ← MonitorGeometry.workspace_under cv pos m;
    match u with
    | None => mret None
    | Some (w, geo) => resize_edges_under cv (pair_sub pos geo.1) w
    end.

Definition interactive_moved_window_under cv o (pos : Point) l : res (option (W * HitType)) :=
  match Layout.interactive_move l with
  | Some (Layout.Moving mv) =>
      if bool_decide (Layout.im_output mv = o) then
        match Layout.overview_progress l with
        | Some _ =>
            zoom ← overview_zoom kin st cv l;
            tile_pos ← tile_render_location kin st cv zoom mv;
            h ← hit_tile cv (Layout.im_tile mv) (f0, f0) (downscale zoom (pair_sub pos tile_pos));
            mret (option_map (fun wh => (wh.1, to_activate wh.2)) h)
        | None =>
            tile_pos ← tile_render_location kin st cv f1 mv;
            hit_tile cv (Layout.im_tile mv) tile_pos pos
        end
      else mret None
  | _ => mret None
  end.
Definition layout_window_under cv o (pos : Point) l : res (option (W * HitType)) :=
  match monitor_for_output kin st o l with Some m => monitor_window_under cv pos m | None => mret None end.
Definition layout_resize_edges_under cv o (pos : Point) l : res (option ResizeEdge) :=
  match monitor_for_output kin st o l with Some m => monitor_resize_edges_under cv pos m | None => mret None end.
Definition layout_workspace_under cv (extended_bounds : bool) o (pos : Point) l : res (option Workspace.Workspace) :=
  h ← interactive_moved_window_under cv o pos l;
  match h with
  | Some _ => mret None
  | None =>
      match monitor_for_output kin st o l with
      | Some m =>
          if extended_bounds then u ← MonitorGeometry.workspace_under cv pos m; mret (option_map fst u)
          else MonitorGeometry.workspace_under_narrow cv pos m
      | None => mret None
      end
  end.
End layout.
End Hit.
Import Hit.

(** ** Hit testing is total and finds windows that are there *)
Lemma find_map_runs {A B} (f : A -> res (option B)) (R : A -> B -> Prop) (N : A -> Prop) xs :
  (forall x, x ∈ xs -> runs (f x) (fun r => match r with Some y => R x y | None => N x end)) ->
  runs (find_map f xs) (fun r => match r with Some y => exists x, x ∈ xs /\ R x y | None => forall x, x ∈ xs -> N x end).
Proof.
  induction xs as [|x xs IH]; intros H; cbn [find_map].
  { returns. intros y Hy. by apply elem_of_nil in Hy. }
  eapply runs_bind; [apply H; left|]. intros [y|] _ Hy; [returns; exists x; split; [left|done]|].
  finish IH; [intros z Hz; apply H; by right|]. intros [y|] _ Hr; [destruct Hr as (z & Hz & Hr); exists z; split; [by right|done]|].
  intros z [->|Hz]%elem_of_cons; [done|by apply Hr].
Qed.
Lemma mapM_inv {A B} (f : A -> res B) xs ys : mapM f xs = Ok ys -> Forall2 (fun x y => f x = Ok y) xs ys.
Proof.
  revert ys. induction xs as [|x xs IH]; intros ys; cbn [mapM].
  { intros [= <-]. constructor. }
  destruct (f x) as [y|] eqn:Ef; cbn [mbind res_bind]; [|done]. destruct (mapM f xs) as [zs|]; cbn [mbind res_bind]; [|done].
  intros [= <-]. constructor; [done|by apply IH].
Qed.

Section ok.
Context {LE : LayoutElement} {LEL : LayoutElementLaws} {GE : Geometry} {GL : GeometryLaws} {LM : Libm} {KF : Keyframe} {OU : Outputs}
  {RE : Rectangles} {HR : HitRegions}.
Context (cv : ClockView) (Hcv : cv_ok cv).
Implicit Types (t : Tile.Tile) (c : Column.Column).

Definition sound t : Prop := exists o vs sc, TileInv.tile_ok o vs sc t.
Definition missed (pos : Point) (y : Tile.Tile * Point * bool) : Prop := y.2 = true -> hit cv (pair_sub pos y.1.2) y.1.1 = Ok None.
(** A hit is on a window of the tiles [ts]. *)
Definition on_tile (ts : list Tile.Tile) (r : W * HitType) : Prop := exists t, t ∈ ts /\ r.1 = Tile.window t.

Lemma hit_runs p t : sound t -> runs (hit cv p t) (fun _ => True).
Proof.
  intros (o & vs & sc & Ht). unfold hit, is_in_input_region, buf_loc. eapply runs_bind with (R := fun _ => True).
  { runs window_loc_runs; [exact Hcv|exact Ht|]. intros l _ _. by returns. }
  intros [] _ _; [|by returns]. eapply runs_bind with (R := fun _ => True); [|intros q _ _; by returns].
  runs window_loc_runs; [exact Hcv|exact Ht|]. intros l _ _. by returns.
Qed.
Lemma hit_tile_runs t tile_pos p :
  sound t -> runs (hit_tile cv t tile_pos p) (fun r => match r with Some x => x.1 = Tile.window t | None => hit cv (pair_sub p tile_pos) t = Ok None end).
Proof. intros Ht. unfold hit_tile. runs hit_runs; [exact Ht|]. intros [h|] He _; by returns. Qed.
Lemma shown_hit_runs pos y :
  sound y.1.1 -> runs (shown_hit cv pos y) (fun r => match r with Some x => x.1 = Tile.window y.1.1 | None => missed pos y end).
Proof.
  intros Hy. unfold shown_hit, missed. destruct y.2; [|by returns]. finish hit_tile_runs; [exact Hy|]. by intros [x|] _ Hr.
Qed.

(** *** Tabs *)
Lemma rects_from_length h width px pixel gaps n ones loc : length (Tabs.rects_from h width px pixel gaps n ones loc) = n.
Proof. revert ones loc. induction n as [|n IH]; intros ones loc; cbn; [done|]. by rewrite IH. Qed.
Lemma tab_hit_runs area n scale p ti :
  opt_total (fun a => a) (TabIndicator.open_anim ti) -> runs (Tabs.hit cv area n scale p ti) (fun r => forall i, r = Some i -> i < n).
Proof.
  intros Hti. unfold Tabs.hit. cbv zeta. apply runs_if; intros _; [by returns|]. unfold Tabs.tab_rects. cbv zeta.
  eapply runs_bind with (R := fun rs => length rs = n).
  - eapply runs_bind with (R := fun _ => True).
    { destruct (TabIndicator.open_anim ti) as [a|]; [|by returns]. runs (value_runs cv Hcv); [by apply Hti|]. intros v _ _. by returns. }
    intros progress _ _. runs clamp_runs; [by vm_compute|]. intros q _ _. returns. apply rects_from_length.
  - intros rs _ Hl. returns. intros i (y & Hy & _)%position_Some. apply lookup_lt_Some in Hy. lia.
Qed.
Lemma tabs_hit_runs E pos col_pos scale c :
  col_ok E c -> runs (tabs_hit cv pos col_pos scale c) (fun r => match r with Some x => on_tile (Column.tiles c) x | None => True end).
Proof.
  intros Hc. pose proof (cm_base _ _ (proj1 Hc)) as Hb. unfold tabs_hit. apply runs_if; intros _; [|by returns].
  eapply runs_bind with (R := fun _ => True).
  { unfold tab_indicator_area. cbv zeta. runs runs_index; [apply (cm_active _ _ (proj1 Hc))|]. intros t _ Ht.
    pose proof (Forall_lookup_1 _ _ _ _ (cb_tiles _ _ Hb) Ht) as Hok. unfold TileGeometry.animated_tile_size.
    runs animated_runs; [exact Hcv|exact Hok|]. intros z _ _. by returns. }
  intros area _ _. runs tab_hit_runs; [apply Hb|]. intros [i|] _ Hi; [|by returns].
  runs runs_index; [by apply Hi|]. intros t _ Ht. returns. exists t. split; [by eapply list_elem_of_lookup_2|done].
Qed.

(** *** The scrolling layout *)
Lemma placed_tiles_runs E p scale c :
  env_ok E -> col_ok E c -> runs (placed_tiles cv p scale c) (fun ts => forall y, y ∈ ts -> y.1.1 ∈ Column.tiles c /\ sound y.1.1).
Proof.
  intros HE Hc. unfold placed_tiles. pose proof (tiles_in_render_order_runs E c HE (proj1 Hc)) as Ht. runs Ht. intros ts _ Hts.
  assert (Hin : forall x, x ∈ ts -> x.1.1 ∈ Column.tiles c /\ TileInv.tile_ok (e_options E) (e_view_size E) (e_scale E) x.1.1).
  { intros x Hx. assert (H : x.1.1 ∈ Column.tiles c) by (rewrite <-Hts; by apply (list_elem_of_fmap_2 (fun x : Tile.Tile * Point * bool => x.1.1))).
    split; [done|]. pose proof (cb_tiles _ _ (cm_base _ _ (proj1 Hc))) as HF. rewrite Forall_forall in HF. by apply HF. }
  finish (runs_mapM _ (fun (x y : Tile.Tile * Point * bool) => y.1.1 = x.1.1)).
  - intros x Hx. runs render_offset_runs; [exact Hcv|by apply Hin|]. intros o _ _. by returns.
  - intros ys _ HF y Hy. apply list_elem_of_lookup in Hy as [i Hy]. destruct (Forall2_lookup_r _ _ _ _ _ HF Hy) as (x & Hx & ->).
    apply list_elem_of_lookup_2 in Hx. destruct (Hin x Hx) as [H1 H2]. split; [done|]. by do 3 eexists.
Qed.

Definition col_at (view_off : Point) (cx : Column.Column * f64) (r : f64) : Point := pair_add (pair_add view_off (cx.2, f0)) (r, f0).
Lemma column_hit_runs E pos view_off scale cx :
  env_ok E -> col_ok E cx.1 ->
  runs (column_hit cv pos view_off scale cx) (fun r =>
    match r with
    | Some x => on_tile (Column.tiles cx.1) x
    | None => forall r ts y, Tile.move_offset cv (Column.move_animation cx.1) = Ok r ->
        placed_tiles cv (col_at view_off cx r) scale cx.1 = Ok ts -> y ∈ ts -> missed pos y
    end).
Proof.
  intros HE Hc. unfold column_hit. runs move_offset_runs; [exact Hcv|apply (cb_move _ _ (cm_base _ _ (proj1 Hc)))|]. intros r Hr _. cbv zeta.
  runs tabs_hit_runs; [exact Hc|]. intros [x|] _ Htab; [by returns|].
  runs placed_tiles_runs; [exact HE|exact Hc|]. intros ts Hts Hin.
  finish (find_map_runs _ (fun y x => on_tile (Column.tiles cx.1) x) (missed pos)).
  - intros y Hy. destruct (Hin y Hy) as [H1 H2]. finish shown_hit_runs; [exact H2|]. intros [x|] _ Hx; [by exists y.1.1|done].
  - intros [x|] _ Hx; [by destruct Hx as (_ & _ & Hx)|]. intros r' ts' y Hr' Hts' Hy. rewrite Hr in Hr'. injection Hr' as <-.
    unfold col_at in Hts'. rewrite Hts in Hts'. injection Hts' as <-. by apply Hx.
Qed.
Lemma scrolling_under_runs pos s :
  space_ok s -> runs (scrolling_window_under cv pos s) (fun r =>
    match r with
    | Some x => on_tile (ScrollingSpace.tiles s) x
    | None => forall ps y, ScrollingPositions.tiles_with_render_positions cv true s = Ok ps -> y ∈ ps -> missed pos y
    end).
Proof.
  intros Hs. pose proof (so_env _ (proj1 (proj1 Hs))) as HE. unfold scrolling_window_under. runs (view_pos_runs cv Hcv); [exact Hs|]. intros v Hv _.
  runs columns_in_render_order_runs; [exact Hs|]. intros cs Hcs Hp.
  assert (Hall : forall cx, cx ∈ cs -> cx.1 ∈ ScrollingSpace.columns s /\ col_ok (env s) cx.1).
  { intros cx Hin. assert (Hc : cx.1 ∈ ScrollingSpace.columns s) by (rewrite <-Hp; by apply (list_elem_of_fmap_2 fst)). split; [done|].
    apply list_elem_of_lookup in Hc as [i Hi]. by eapply space_col. }
  finish find_map_runs; [intros cx Hcx; apply (column_hit_runs (env s)); [exact HE|by apply Hall]|]. cbv beta. intros [x|] _ Hx.
  - destruct Hx as (cx & Hcx & t & Ht & Hw). exists t. split; [|done]. unfold ScrollingSpace.tiles. apply list_elem_of_bind. exists cx.1. split; [done|by apply Hall].
  - intros ps y Hps Hy. unfold ScrollingPositions.tiles_with_render_positions in Hps. rewrite Hv, Hcs in Hps. cbn [mbind res_bind] in Hps.
    match type of Hps with mapM ?f cs ≫= _ = _ => destruct (mapM f cs) as [ls|] eqn:Hls end; [|done]. cbn [mbind res_bind mret res_ret] in Hps. injection Hps as <-.
    apply list_elem_of_In, in_concat in Hy as (k & Hk & Hy). apply list_elem_of_In, list_elem_of_lookup in Hk as [i Hk]. apply list_elem_of_In in Hy.
    destruct (Forall2_lookup_r _ _ _ _ _ (mapM_inv _ _ _ Hls) Hk) as (cx & Hcx & Hf). cbv beta in Hf.
    apply list_elem_of_lookup_2 in Hcx. destruct (Tile.move_offset cv (Column.move_animation cx.1)) as [r|] eqn:Hr; [|done].
    exact (Hx cx Hcx r k y Hr Hf Hy).
Qed.

(** *** Workspaces *)
Section workspaces.
Context (kin : Id -> Id -> bool).
Implicit Types (w : Workspace.Workspace).

Lemma floating_visible_runs w : ws_base kin w -> runs (Workspace.is_floating_visible w) (fun _ => True).
Proof. intros Hw. unfold Workspace.is_floating_visible. runs (above_top_runs (LE := LE)); [apply Hw|]. intros b _ _. by returns. Qed.
Lemma on_tiles_id w x : on_tile (Workspace.tiles w) x -> win_id x.1 ∈ v_windows (view w).
Proof. intros (t & Ht & ->). rewrite <-tiles_windows. by apply (list_elem_of_fmap_2 Tile.id). Qed.

Lemma window_under_runs pos w :
  ws_base kin w -> runs (window_under cv pos w) (fun r =>
    match r with
    | Some x => on_tile (Workspace.tiles w) x
    | None => forall ps y, Workspace.tiles_with_render_positions cv w = Ok ps -> y ∈ ps -> missed pos y
    end).
Proof.
  intros Hw. unfold window_under. runs floating_visible_runs; [exact Hw|]. intros vis Hvis _.
  eapply runs_bind with (R := fun r => match r with
    | Some x => on_tile (Workspace.tiles w) x
    | None => forall ps y, FloatingPositions.tiles_with_render_positions cv true (Workspace.floating w) = Ok ps -> y ∈ ps -> missed pos (y, vis)
    end).
  - destruct vis; [|by returns]. runs (floating_positions_runs cv Hcv kin); [apply Hw|]. intros ps Hps Hts.
    assert (Hin : forall y, y ∈ ps -> y.1 ∈ FloatingSpace.tiles (Workspace.floating w)) by (intros y Hy; rewrite <-Hts; by apply (list_elem_of_fmap_2 fst)).
    finish (find_map_runs _ (fun y x => x.1 = Tile.window y.1) (fun y => missed pos (y, true))).
    + intros y Hy. finish hit_tile_runs; [apply (in_floating kin w); [exact Hw|by apply Hin]|]. intros [x|] _ Hx; [done|intros _; exact Hx].
    + intros [x|] _ Hx.
      * destruct Hx as (y & Hy & Hx). exists y.1. split; [|done]. apply elem_of_app. right. by apply Hin.
      * intros ps' y Hps' Hy. rewrite Hps in Hps'. injection Hps' as <-. by apply Hx.
  - intros [x|] _ Hfl; [by returns|]. finish scrolling_under_runs; [apply Hw|]. intros [x|] _ Hx.
    + destruct Hx as (t & Ht & Hx). exists t. split; [|done]. apply elem_of_app. by left.
    + intros ps y Hps Hy. unfold Workspace.tiles_with_render_positions in Hps.
      destruct (FloatingPositions.tiles_with_render_positions cv true (Workspace.floating w)) as [fl|]; [|done]. cbn [mbind res_bind] in Hps.
      rewrite Hvis in Hps. cbn [mbind res_bind] in Hps.
      destruct (ScrollingPositions.tiles_with_render_positions cv true (Workspace.scrolling w)) as [sc|]; [|done].
      injection Hps as <-. apply elem_of_app in Hy as [Hy|Hy]; [|by apply (Hx sc)].
      apply list_elem_of_fmap in Hy as (tp & -> & Hy). by apply (Hfl fl).
Qed.

(** Every position is that of a tile of the workspace. *)
Lemma positions_sound_runs w :
  ws_base kin w -> runs (Workspace.tiles_with_render_positions cv w) (fun ps => forall y, y ∈ ps -> sound y.1.1).
Proof.
  intros Hw. unfold Workspace.tiles_with_render_positions. runs (floating_positions_runs cv Hcv kin); [apply Hw|]. intros fl _ Hfl.
  runs floating_visible_runs; [exact Hw|]. intros vis _ _. runs (render_positions_runs cv Hcv); [apply Hw|]. intros sc _ Hsc. returns.
  intros y [Hy|Hy]%elem_of_app.
  - apply list_elem_of_fmap in Hy as (tp & -> & Hy). cbn. apply (in_floating kin w); [done|]. rewrite <-Hfl. by apply list_elem_of_fmap_2.
  - apply (in_scrolling kin w); [done|]. rewrite <-Hsc. by apply (list_elem_of_fmap_2 (fun y : Tile.Tile * Point * bool => y.1.1)).
Qed.
(** Where a tile can be grabbed by an edge there is a window to hit. *)
Lemma edges_runs pos w :
  ws_base kin w -> runs (resize_edges_under cv pos w) (fun r => r <> None -> exists x, window_under cv pos w = Ok (Some x)).
Proof.
  intros Hw. unfold resize_edges_under. runs positions_sound_runs; [exact Hw|]. intros ps Hps Hs.
  finish (find_map_runs _ (fun y _ => y.2 = true /\ hit cv (pair_sub pos y.1.2) y.1.1 <> Ok None) (fun _ => True)).
  - intros y Hy. destruct y.2; [|by returns]. cbv zeta. runs hit_runs; [by apply Hs|]. intros [h|] Hh _; returns; [|done]. split; [done|]. by rewrite Hh.
  - intros [e|] _ He; [|done]. intros _. destruct He as (y & Hy & Hv & Hh).
    destruct (proj1 (runs_ok _ _) (window_under_runs pos w Hw)) as ([x|] & Hx & Hr); [by exists x|]. destruct Hh. by apply (Hr ps y).
Qed.
End workspaces.
End ok.

Section layout_ok.
Context {LE : LayoutElement} {LEL : LayoutElementLaws} {GE : Geometry} {GL : GeometryLaws} {LM : Libm} {KF : Keyframe} {OU : Outputs}
  {SM : Smithay} {RE : Rectangles} {HR : HitRegions}.
Context (kin : Id -> Id -> bool) (Hac : acyclic kin) (st : WOutput -> OutputState) (Hst : outputs_ok st).
#[local] Hint Extern 0 WorkspaceOps => exact (real_ops kin st) : typeclass_instances.
#[local] Hint Extern 0 LayoutOps => exact (real_layout_ops kin st) : typeclass_instances.
#[local] Hint Extern 0 WorkspaceLaws => exact (real_laws kin Hac st Hst) : typeclass_instances.
#[local] Hint Extern 0 LayoutLaws => exact (real_layout_laws kin Hac st Hst) : typeclass_instances.
Abbreviation Lay := Layout.Layout.
Abbreviation Mon := Monitor.Monitor.
Implicit Types (cv : ClockView) (w : WS) (o : WOutput) (l : Lay) (m : Mon).
Import Actions.
Import Drag.

Lemma workspace_under_ok cv pos m c :
  mon_core (HM := home_of m) (Monitor.set_counter c m) -> cv_ok cv ->
  exists u, MonitorGeometry.workspace_under cv pos m = Ok u /\ forall w geo, u = Some (w, geo) -> w ∈ Monitor.workspaces m.
Proof.
  intros Hc Hcv. unfold MonitorGeometry.workspace_under. destruct (shown_ok kin Hac st Hst cv m c Hc Hcv) as (gs & -> & Hgs). cbn [mbind res_bind].
  eexists. split; [done|]. intros w geo [Hin _]%find_some. apply (Hgs w geo). by apply list_elem_of_In.
Qed.
Lemma under_narrow_ok cv pos m c :
  mon_core (HM := home_of m) (Monitor.set_counter c m) -> cv_ok cv ->
  exists u, MonitorGeometry.workspace_under_narrow cv pos m = Ok u /\ forall w, u = Some w -> w ∈ Monitor.workspaces m.
Proof.
  intros Hc Hcv. unfold MonitorGeometry.workspace_under_narrow. destruct (shown_ok kin Hac st Hst cv m c Hc Hcv) as (gs & -> & Hgs). cbn [mbind res_bind].
  eexists. split; [done|]. intros w Hu. match type of Hu with fst <$> ?r = _ => destruct r as [[v geo]|] eqn:Ef end; [|done].
  injection Hu as <-. apply find_some in Ef as [Hin _]. apply (Hgs v geo). by apply list_elem_of_In.
Qed.
Lemma monitor_for_in o l m : monitor_for_output kin st o l = Some m -> m ∈ monitors kin st l.
Proof. intros [Hin _]%find_some. by apply list_elem_of_In. Qed.

(** A window that is hit is on the workspace under the pointer; in the overview it gets
    no input. *)
Definition hit_window cv pos m (x : W * HitType) : Prop :=
  exists w geo, MonitorGeometry.workspace_under cv pos m = Ok (Some (w, geo)) /\ w ∈ Monitor.workspaces m /\ win_id x.1 ∈ ws_windows w
    /\ (in_overview kin st m = true -> exists b, x.2 = Activate b).
Lemma monitor_under_ok cv pos l m :
  layout_ok l -> cv_ok cv -> m ∈ monitors kin st l ->
  exists r, monitor_window_under kin st cv pos m = Ok r /\ match r with Some x => hit_window cv pos m x | None => True end.
Proof.
  intros Hok Hcv Hm. pose proof (monitors_core kin Hac st Hst l m Hok Hm) as Hc. unfold monitor_window_under.
  destruct (workspace_under_ok cv pos m _ Hc Hcv) as (u & He & Hu). rewrite He. cbn [mbind res_bind]. destruct u as [[w geo]|]; [|by eexists].
  pose proof (Hu w geo eq_refl) as Hin. destruct (monitors_workspace kin Hac st Hst l m w Hok Hm Hin) as [[Hw _] _].
  assert (Hid : forall x, on_tile (Workspace.tiles w) x -> win_id x.1 ∈ ws_windows w).
  { intros x Hx. change (win_id x.1 ∈ (Tile.id <$> Workspace.tiles w)). rewrite tiles_windows. by apply on_tiles_id. }
  destruct (in_overview kin st m) eqn:Eo.
  - destruct (mon_zoom_ok kin Hac st Hst cv m _ Hc Hcv) as [z ->]. cbn [mbind res_bind].
    destruct (proj1 (runs_ok _ _) (window_under_runs cv Hcv kin (downscale z (pair_sub pos geo.1)) w Hw)) as (r & -> & Hr). cbn [mbind res_bind].
    eexists. split; [done|]. destruct r as [[x h]|]; [|done]. exists w, geo. split_and!; [done|done|by apply (Hid (x, h))|].
    intros _. destruct h; by eexists.
  - destruct (proj1 (runs_ok _ _) (window_under_runs cv Hcv kin (pair_sub pos geo.1) w Hw)) as (r & -> & Hr). cbn [mbind res_bind].
    eexists. split; [done|]. destruct r as [[x h]|]; [|done]. exists w, geo. split_and!; [done|done|by apply (Hid (x, h))|congruence].
Qed.
Lemma monitor_edges_ok cv pos l m :
  layout_ok l -> cv_ok cv -> m ∈ monitors kin st l ->
  exists r, monitor_resize_edges_under kin st cv pos m = Ok r /\ (r <> None -> exists x, monitor_window_under kin st cv pos m = Ok (Some x)).
Proof.
  intros Hok Hcv Hm. pose proof (monitors_core kin Hac st Hst l m Hok Hm) as Hc. unfold monitor_resize_edges_under, monitor_window_under.
  destruct (in_overview kin st m); [by eexists|]. destruct (workspace_under_ok cv pos m _ Hc Hcv) as (u & -> & Hu). cbn [mbind res_bind].
  destruct u as [[w geo]|]; [|by eexists]. destruct (monitors_workspace kin Hac st Hst l m w Hok Hm (Hu w geo eq_refl)) as [[Hw _] _].
  destruct (proj1 (runs_ok _ _) (edges_runs cv Hcv kin (pair_sub pos geo.1) w Hw)) as (r & -> & Hr). exists r. split; [done|].
  intros Hn. destruct (Hr Hn) as [x ->]. by eexists.
Qed.

Lemma moved_under_ok cv o pos l :
  layout_ok l -> cv_ok cv ->
  exists r, interactive_moved_window_under kin st cv o pos l = Ok r
    /\ match r with Some x => Layout.moving_windows l = [win_id x.1] | None => True end.
Proof.
  intros Hok Hcv. unfold interactive_moved_window_under. destruct (Layout.interactive_move l) as [[y d r|mv]|] eqn:Em; [by eexists| |by eexists].
  destruct (bool_decide _); [|by eexists]. pose proof (mv_tile _ (lo_moving l Hok mv Em)) as Ht.
  assert (Hs : sound (Layout.im_tile mv : Tile.Tile)) by (destruct Ht as (a & b & c & _ & Ht & _); by exists a, b, c).
  assert (Hhit : forall p q, exists r, hit_tile cv (Layout.im_tile mv) p q = Ok r /\ forall x, r = Some x -> x.1 = Tile.window (Layout.im_tile mv : Tile.Tile)).
  { intros p q. destruct (proj1 (runs_ok _ _) (hit_tile_runs cv Hcv _ p q Hs)) as (r & -> & Hr). exists r. split; [done|]. by intros x ->. }
  assert (Hmv : forall x : W * HitType, x.1 = Tile.window (Layout.im_tile mv : Tile.Tile) -> Layout.moving_windows l = [win_id x.1]).
  { intros x ->. unfold Layout.moving_windows. by rewrite Em. }
  destruct (Layout.overview_progress l).
  - destruct (zoom_ok kin Hac st Hst cv l Hok Hcv) as [z ->]. cbn [mbind res_bind].
    destruct (held_location_ok kin st cv z mv Hcv Ht) as [tp ->]. cbn [mbind res_bind].
    destruct (Hhit (f0, f0) (downscale z (pair_sub pos tp))) as (r & -> & Hr). cbn [mbind res_bind]. eexists. split; [done|].
    destruct r as [[x h]|]; [|done]. cbn. by apply (Hmv (x, h)), Hr.
  - destruct (held_location_ok kin st cv f1 mv Hcv Ht) as [tp ->]. cbn [mbind res_bind].
    destruct (Hhit tp pos) as (r & -> & Hr). eexists. split; [done|]. destruct r as [x|]; [|done]. by apply Hmv, Hr.
Qed.
Lemma layout_workspace_under_ok cv b o pos l :
  layout_ok l -> cv_ok cv ->
  exists r, layout_workspace_under kin st cv b o pos l = Ok r /\ forall w, r = Some w -> (w : WS) ∈ Layout.workspaces l.
Proof.
  intros Hok Hcv. unfold layout_workspace_under. destruct (moved_under_ok cv o pos l Hok Hcv) as (r & -> & _). cbn [mbind res_bind].
  destruct r; [by eexists|]. destruct (monitor_for_output kin st o l) as [m|] eqn:Em; [|by eexists]. pose proof (monitor_for_in o l m Em) as Hm.
  pose proof (monitors_core kin Hac st Hst l m Hok Hm) as Hc. destruct b.
  - destruct (workspace_under_ok cv pos m _ Hc Hcv) as (u & -> & Hu). cbn [mbind res_bind]. eexists. split; [done|].
    intros w Hw. destruct u as [[v geo]|]; [|done]. injection Hw as <-. by apply (monitors_workspace kin Hac st Hst l m v Hok Hm), (Hu v geo).
  - destruct (under_narrow_ok cv pos m _ Hc Hcv) as (u & -> & Hu). eexists. split; [done|].
    intros w ->. by apply (monitors_workspace kin Hac st Hst l m w Hok Hm), Hu.
Qed.
End layout_ok.
