(* ===== verification/LayoutFrame.v ===== *)
(** * Frames, refreshes and drags

    What the event loop does to the layout all the time (layout/mod.rs, with the
    [refresh] of workspace.rs, scrolling.rs and floating.rs): animations advance, the
    view scrolls while something is dragged to an edge, a workspace under a drag that is
    held still is switched to; windows are told their state and gestures that are over
    are ended; clients commit.

    [dnd], the drag and drop operation, is a field of the layout in the source; no
    operation outside this file touches it, and it is passed along here. *)

From stdpp Require Import base numbers option list strings gmap.
From Stdlib Require Import ZArith Lia SpecFloat.
From S2P Require Import Prelude.
From S2P Require Import Runs.
From S2P Require Import F64.
From S2P Require Import Duration.
From S2P Require Import Clock.
From S2P Require Import Animation.
From S2P Require Import AnimTotal.
From S2P Require Import OutputName.
From S2P Require Import LayoutTypes.
From S2P Require Import Tile.
From S2P Require Import TileInv.
From S2P Require Import TileGeometry.
From S2P Require Import Floating.
From S2P Require Import FloatingStack.
From S2P Require Import FloatingInv.
From S2P Require Import Column.
From S2P Require Import ColumnInv.
From S2P Require Import Scrolling.
From S2P Require Import ScrollingSpec.
From S2P Require Import ScrollingInv.
From S2P Require Import ScrollingMoves.
From S2P Require Import ScrollingTiles.
From S2P Require Import ScrollingViews.
From S2P Require Import Positions.
From S2P Require Import ScrollingThms.
From S2P Require Import FloatingOps.
From S2P Require Import FloatingThms.
From S2P Require Import Workspace.
From S2P Require Import WorkspaceInv.
From S2P Require Import WorkspaceOps.
From S2P Require Import WorkspaceTiling.
From S2P Require Import WorkspaceRoutes.
From S2P Require Import WorkspaceThms.
From S2P Require Import WorkspaceLabels.
From S2P Require Import Interface.
From S2P Require Import Monitor.
From S2P Require Import MonitorIds.
From S2P Require Import MonitorInv.
From S2P Require Import MonitorOps.
From S2P Require Import MonitorOps2.
From S2P Require Import MonitorThms.
From S2P Require Import MonitorGeometry.
From S2P Require Import Layout.
From S2P Require Import LayoutInv.
From S2P Require Import LayoutHotplug.
From S2P Require Import LayoutWindows.
From S2P Require Import LayoutMoves.
From S2P Require Import LayoutRest.
From S2P Require Import LayoutThms.
From S2P Require Import LayoutReal.
From S2P Require Import LayoutActions.
From S2P Require Import LayoutPlaces.
From S2P Require Import LayoutActionsThms.
From S2P Require Import LayoutDrag.
From S2P Require Import LayoutDragThms.
From S2P Require Import HitTest.

(** ** What windows are told

    The part of [LayoutElement] that [refresh] uses. *)
Inductive ConfigureIntent := NotNeeded | Throttled | CanSend | ShouldSend.
Class WindowState `{LE : !LayoutElement} := {
  set_active_in_column : bool -> W -> W;
  set_floating : bool -> W -> W;
  set_activated : bool -> W -> W;
  set_bounds : Z * Z -> W -> W;
  configure_intent : W -> ConfigureIntent;
  send_pending_configure : W -> W;
  win_refresh : W -> W;
  is_pending_windowed_fullscreen : W -> bool;
  request_windowed_fullscreen : bool -> W -> W
}.

(** A window that has been told something: the layout sees the same window. *)
Definition told `{!LayoutElement} (w w' : W) : Prop := win_same w w' /\ win_pending_sizing_mode w' = win_pending_sizing_mode w.
(** Windowed fullscreen is a pretence between the window and its client: to the layout
    a window that asks for it is not fullscreen. *)
Class WindowStateLaws `{LE : !LayoutElement} `{!WindowState} := {
  set_active_in_column_told b w : told w (set_active_in_column b w);
  set_floating_told b w : told w (set_floating b w);
  set_activated_told b w : told w (set_activated b w);
  set_bounds_told b w : told w (set_bounds b w);
  set_interactive_resize_told e w : told w (set_interactive_resize e w);
  send_pending_configure_told w : told w (send_pending_configure w);
  win_refresh_told w : told w (win_refresh w);
  end_windowed_told w : is_pending_windowed_fullscreen w = true -> told w (request_windowed_fullscreen false w)
}.

Record Told := {
  in_column : bool;
  floats : bool;
  activated : bool;
  resizing : option ResizeEdge;
  bounds : Z * Z
}.
Definition tell `{!LayoutElement} `{!WindowState} (x : Told) (w : W) : W :=
  set_bounds (bounds x) (set_interactive_resize (resizing x) (set_activated (activated x)
    (set_floating (floats x) (set_active_in_column (in_column x) w)))).
Definition may_send (i : ConfigureIntent) : bool := match i with CanSend | ShouldSend => true | _ => false end.
Definition configured `{!LayoutElement} `{!WindowState} (i : ConfigureIntent) (w : W) : W :=
  win_refresh (if may_send i then send_pending_configure w else w).

Module Frame.
Section spaces.
Context {LE : LayoutElement} {GE : Geometry} {LM : Libm} {KF : Keyframe} {OU : Outputs} {WSt : WindowState}.
Implicit Types (cv : ClockView) (t : Tile.Tile).

Definition on_window (f : W -> W) t : Tile.Tile := Tile.set_window (f (Tile.window t)) t.

(** ** Refreshing windows *)
Definition merge_intent (i j : ConfigureIntent) : ConfigureIntent :=
  match i, j with
  | _, ShouldSend => ShouldSend
  | NotNeeded, j => j
  | CanSend, Throttled => Throttled
  | i, _ => i
  end.
(** How the windows of a column may be configured together. *)
Definition column_intent (o : LayoutOptions) (individual : bool) (c : Column.Column) : ConfigureIntent :=
  if disable_resize_throttling o then CanSend
  else if individual then CanSend
  else foldl (fun i t => merge_intent i (configure_intent (Tile.window t))) NotNeeded (Column.tiles c).
Definition column_told (s : ScrollingSpace.ScrollingSpace) (is_active is_focused : bool) (col_idx tile_idx : nat) (c : Column.Column) (w : W) : Told :=
  let active_in_column := bool_decide (Column.active_tile_idx c = tile_idx) in
  let active := is_active && bool_decide (ScrollingSpace.active_column_idx s = col_idx) in
  let o := ScrollingSpace.options s in
  {| in_column := active_in_column; floats := false;
     activated := if deactivate_unfocused_windows o then active && (active_in_column && is_focused)
                  else active && (active_in_column || Column.tabbed c);
     resizing := match ScrollingSpace.interactive_resize s with
                 | Some r => if Column.contains (resize_window r) c then Some (resize_edges r) else None
                 | None => None
                 end;
     bounds := ScrollingPositions.compute_toplevel_bounds (border_merged_with (rule_border (win_rules w)) (opt_border o))
                 (ScrollingSpace.working_area s).2 (Column.extra_size c) (gaps o) |}.
Definition refresh_column (s : ScrollingSpace.ScrollingSpace) (is_active is_focused : bool) (col_idx : nat) (c : Column.Column) : Column.Column :=
  let individual := disable_transactions (ScrollingSpace.options s) || Column.tabbed c in
  let intent := column_intent (ScrollingSpace.options s) individual c in
  Column.set_tiles (imap (fun tile_idx => on_window (fun w =>
    let w := tell (column_told s is_active is_focused col_idx tile_idx c w) w in
    configured (if individual then configure_intent w else intent) w)) (Column.tiles c)) c.
Definition refresh_scrolling (is_active is_focused : bool) (s : ScrollingSpace.ScrollingSpace) : ScrollingSpace.ScrollingSpace :=
  ScrollingSpace.set_columns (imap (refresh_column s is_active is_focused) (ScrollingSpace.columns s)) s.

Definition floating_told (s : FloatingSpace.FloatingSpace) (is_active is_focused : bool) (w : W) : Told :=
  let active := is_active && bool_decide (FloatingSpace.active_window_id s = Some (win_id w)) in
  let o := FloatingSpace.options s in
  {| in_column := true; floats := true;
     activated := if deactivate_unfocused_windows o then active && is_focused else active;
     resizing := match FloatingSpace.interactive_resize s with
                 | Some r => if bool_decide (resize_window r = win_id w) then Some (resize_edges r) else None
                 | None => None
                 end;
     bounds := Floating.compute_toplevel_bounds (border_merged_with (rule_border (win_rules w)) (opt_border o)) (FloatingSpace.working_area s).2 |}.
Definition refresh_floating (is_active is_focused : bool) (s : FloatingSpace.FloatingSpace) : FloatingSpace.FloatingSpace :=
  FloatingSpace.set_tiles ((on_window (fun w =>
    let w := tell (floating_told s is_active is_focused w) w in
    configured (if disable_resize_throttling (FloatingSpace.options s) then CanSend else configure_intent w) w)) <$> FloatingSpace.tiles s) s.

Definition refresh_workspace (is_active is_focused : bool) (w : Workspace.Workspace) : Workspace.Workspace :=
  let fl := Workspace.is_active_floating w in
  Workspace.set_floating (refresh_floating (is_active && fl) is_focused (Workspace.floating w))
    (Workspace.set_scrolling (refresh_scrolling (is_active && negb fl) is_focused (Workspace.scrolling w)) w).

(** Changing every window. *)
Definition map_windows (f : W -> W) (w : Workspace.Workspace) : Workspace.Workspace :=
  let s := Workspace.scrolling w in
  let fl := Workspace.floating w in
  Workspace.set_floating (FloatingSpace.set_tiles (on_window f <$> FloatingSpace.tiles fl) fl)
    (Workspace.set_scrolling (ScrollingSpace.set_columns
      ((fun c => Column.set_tiles (on_window f <$> Column.tiles c) c) <$> ScrollingSpace.columns s) s) w).
End spaces.

Section layout.
Context {LE : LayoutElement} {GE : Geometry} {LM : Libm} {KF : Keyframe} {OU : Outputs} {SM : Smithay} {RE : Rectangles} {HR : HitRegions}
  {WSt : WindowState}.
Context (kin : Id -> Id -> bool) (st : WOutput -> OutputState).
#[local] Hint Extern 0 WorkspaceOps => exact (real_ops kin st) : typeclass_instances.
#[local] Hint Extern 0 LayoutOps => exact (real_layout_ops kin st) : typeclass_instances.
Abbreviation Lay := Layout.Layout.
Abbreviation Mon := Monitor.Monitor.
Abbreviation MoveData := Layout.InteractiveMoveData.
Implicit Types (cv : ClockView) (now : Duration) (w : Workspace.Workspace) (t : Tile.Tile) (x : Id) (o : WOutput) (l : Lay) (m : Mon) (mv : MoveData).
Import Actions.
Import Drag.
Import Hit.

(** ** Drag and drop *)
Inductive DndHoldTarget := HoldWindow (x : Id) | HoldWorkspace (id : Z).
#[export] Instance DndHoldTarget_eq_dec : EqDecision DndHoldTarget.
Proof using LE. solve_decision. Defined.
Record DndHold := { hold_start : Duration; hold_target : DndHoldTarget }.
Record DndData := { dnd_output : WOutput; dnd_pointer : Point; dnd_hold : option DndHold }.
Definition set_hold (h : option DndHold) (d : DndData) : DndData := {| dnd_output := dnd_output d; dnd_pointer := dnd_pointer d; dnd_hold := h |}.

Definition dnd_update cv now o (pointer : Point) (dnd : option DndData) l : res (DndData * Lay) :=
  l ← match dnd with
      | None => l ← begin_monitor_gestures kin st cv now l; begin_workspace_gestures kin st cv l
      | Some _ => mret l
      end;
  mret ({| dnd_output := o; dnd_pointer := pointer; dnd_hold := None |}, l).
Definition dnd_end cv now (dnd : option DndData) l : res Lay :=
  match dnd with
  | None => mret l
  | Some _ => l ← Layout.dnd_scroll_gesture_end cv now l; end_workspace_gestures kin st cv l
  end.

(** ** Advancing animations *)

(** What is dragged where, and whether the view scrolls for it. *)
Definition dragged_at (dnd : option DndData) l : option (WOutput * Point * bool) :=
  match dnd, Layout.interactive_move l with
  | Some d, _ => Some (dnd_output d, dnd_pointer d, true)
  | None, Some (Layout.Moving mv) => Some (Layout.im_output mv, Layout.im_pointer_pos_within_output mv, negb (Layout.im_is_floating mv))
  | None, _ => None
  end.
Definition advance_moved cv l : res Lay :=
  match Layout.interactive_move l with
  | Some (Layout.Moving mv) =>
      t ← Tile.advance_animations cv (Layout.im_tile mv);
      mret (Layout.set_interactive_move (Some (Layout.Moving (with_tile kin st t (Layout.im_is_floating mv) mv))) l)
  | _ => mret l
  end.

(** The monitor and the workspace under the pointer scroll at their edges. *)
Definition scroll_under cv (pos : Point) (speed : f64) m : res (bool * Mon) :=
  u ← MonitorGeometry.workspace_under cv pos m;
  match u with
  | Some wg =>
      j ← ws_position kin st (Interface.ws_id wg.1) m;
      '(b, wss) ← update_at j (Workspace.dnd_scroll_gesture_scroll cv (pair_sub pos (f0, wg.2.1.2)) speed) (Monitor.workspaces m);
      mret (b, Monitor.set_workspaces wss m)
  | None => mret (false, m)
  end.
Definition scroll_monitor cv now (pos : Point) (is_scrolling : bool) m : res (bool * Mon) :=
  zoom ← Monitor.overview_zoom cv m;
  let speed := (f1 / zoom)%F in
  '(b, m) ← Monitor.dnd_scroll_gesture_scroll cv now pos speed m;
  '(b', m) ← (if is_scrolling then scroll_under cv pos speed m else mret (false, m));
  mret (b || b', m).

(** The drag is held over something that can be switched to. *)
Definition target_under cv (pos : Point) m : res (option DndHoldTarget) :=
  h ← monitor_window_under kin st cv pos m;
  match h with
  | Some (win, _) => mret (Some (HoldWindow (win_id win)))
  | None => u ← MonitorGeometry.workspace_under_narrow cv pos m; mret (option_map (fun w => HoldWorkspace (Interface.ws_id w)) u)
  end.
Definition held_over now (target : DndHoldTarget) (h : option DndHold) : DndHold :=
  {| hold_start := match h with Some h => if bool_decide (hold_target h = target) then hold_start h else now | None => now end;
     hold_target := target |}.
Definition HOLD_DELAY : Duration := from_millis 750.
Definition switch_to_target cv now (target : DndHoldTarget) (config : option Config.Animation) m : res Mon :=
  '(j, m) ← match target with
            | HoldWindow x =>
                '(j, wss) ← Layout.activate_in (Workspace.activate_window cv kin x) 0 (Monitor.workspaces m);
                j ← unwrap j;
                mret (j, Monitor.set_workspaces wss m)
            | HoldWorkspace id => j ← ws_position kin st id m; mret (j, m)
            end;
  m ← Monitor.dnd_scroll_gesture_end cv now m;
  Monitor.activate_workspace_with_anim_config cv j config m.
Definition close_if_open cv (is_open : bool) l : res Lay := if is_open then '(_, l) ← Layout.close_overview cv l; mret l else mret l.
Definition hold cv now o (pos : Point) (i : nat) (d : DndData) l : res (DndData * Lay) :=
  match Layout.monitor_set l with
  | Layout.Normal mons primary active =>
      m ← index mons i;
      target ← target_under cv pos m;
      match target with
      | None => mret (set_hold None d, l)
      | Some target =>
          let h := held_over now target (dnd_hold d) in
          if (HOLD_DELAY <=? saturating_sub now (hold_start h))%Z then
            let config := if Layout.overview_open l then Some (overview_open_close_anim (Layout.options l)) else None in
            '(_, mons, c) ← Layout.on_monitor i (Layout.lift_op (switch_to_target cv now (hold_target h) config)) mons (Layout.id_counter l);
            let is_open := Layout.overview_open l in
            l ← close_if_open cv is_open (Layout.focus_output o (Layout.set_monitor_set (Layout.Normal mons primary active) c l));
            mret (set_hold None d, l)
          else mret (set_hold (Some h) d, l)
      end
  | Layout.NoOutputs _ => mret (d, l)
  end.
Definition scroll_dragged cv now (dnd : option DndData) o (pos : Point) (is_scrolling : bool) l : res (option DndData * Lay) :=
  match Layout.monitor_set l with
  | Layout.NoOutputs _ => mret (dnd, l)
  | Layout.Normal mons primary active =>
      match Layout.monitor_idx o mons with
      | None => mret (dnd, l)
      | Some i =>
          '(scrolled, mons, c) ← Layout.on_monitor i (scroll_monitor cv now pos is_scrolling) mons (Layout.id_counter l);
          let l := Layout.set_monitor_set (Layout.Normal mons primary active) c l in
          match dnd with
          | None => mret (None, l)
          | Some d =>
              if scrolled : bool then mret (Some (set_hold None d), l)
              else '(d, l) ← hold cv now o pos i d l; mret (Some d, l)
          end
      end
  end.

(** The overview has closed. *)
Definition finish_overview cv l : res Lay :=
  match Layout.overview_open l, Layout.overview_progress l with
  | false, Some (Layout.ProgressAnimation a) =>
      b ← Animation.is_done cv a; mret (if b : bool then Layout.set_overview false None l else l)
  | _, _ => mret l
  end.
Definition advance_monitors cv now l : res Lay :=
  match Layout.monitor_set l with
  | Layout.Normal mons primary active =>
      '(mons, c) ← Layout.each_monitor (fun m =>
          m ← Monitor.set_overview_progress cv (Layout.monitor_progress (Layout.overview_progress l)) m;
          Monitor.advance_animations cv now m) mons (Layout.id_counter l);
      mret (Layout.set_monitor_set (Layout.Normal mons primary active) c l)
  | Layout.NoOutputs wss =>
      wss ← for_each (Workspace.advance_animations cv) wss;
      mret (Layout.set_monitor_set (Layout.NoOutputs wss) (Layout.id_counter l) l)
  end.
Definition advance_animations cv now (dnd : option DndData) l : res (option DndData * Lay) :=
  let drag := dragged_at dnd l in
  l ← advance_moved cv l;
  '(dnd, l) ← match drag with
              | Some (o, pos, is_scrolling) => scroll_dragged cv now dnd o pos is_scrolling l
              | None => mret (dnd, l)
              end;
  l ← finish_overview cv l;
  l ← advance_monitors cv now l;
  mret (dnd, l).
(** ** Refreshing *)
Definition refresh_moved mv : MoveData :=
  let t : Tile.Tile := Layout.im_tile mv in
  let size := Workspace.output_size (st (Layout.im_output mv)) in
  let told := {| in_column := true; floats := Layout.im_is_floating mv; activated := true; resizing := None; bounds := (i32_round size.1, i32_round size.2) |} in
  with_tile kin st (on_window (fun win => win_refresh (send_pending_configure (tell told win))) t) (Layout.im_is_floating mv) mv.
(** Whether something is dragged, and whether the view is locked for it. *)
Definition locks_view (dnd : option DndData) l : res (option bool) :=
  match dnd, Layout.interactive_move l with
  | Some _, _ => mret (Some true)
  | None, Some (Layout.Moving mv) => mret (Some (negb (Layout.im_is_floating mv)))
  | None, Some (Layout.Starting x _ _) =>
      w ← unwrap (find (has_window kin st x) (Layout.workspaces l)); mret (Some (negb (Workspace.is_floating x w)))
  | None, None => mret None
  end.
Definition settle_workspace cv (lock : option bool) (overview_open : bool) (active : bool) w : res Workspace.Workspace :=
  match lock with
  | Some true => Workspace.dnd_scroll_gesture_begin cv w
  | Some false => Workspace.dnd_scroll_gesture_end cv w
  | None => if negb overview_open && negb active then Workspace.second (Workspace.view_offset_gesture_end cv None w) else mret w
  end.
Definition scroll_with_drag cv now (lock : option bool) (overview_open : bool) m : res Mon :=
  if match lock with Some _ => overview_open | None => false end then Monitor.dnd_scroll_gesture_begin cv now m
  else if negb overview_open then Monitor.dnd_scroll_gesture_end cv now m else mret m.
Definition refresh_workspaces cv (lock : option bool) (overview_open is_active : bool) m : res Mon :=
  wss ← iter_mut (fun idx w =>
      let active := bool_decide (idx = Monitor.active_workspace_idx m) in
      settle_workspace cv lock overview_open active (refresh_workspace is_active (is_active && active) w)) 0 (Monitor.workspaces m);
  mret (Monitor.set_workspaces wss m).
Definition refresh_monitor cv now (lock : option bool) (overview_open is_active : bool) m : res Mon :=
  m ← scroll_with_drag cv now lock overview_open m;
  refresh_workspaces cv lock overview_open is_active m.
(** The monitors in turn, with their indices. *)
Fixpoint each_monitor_idx (f : nat -> Mon -> res Mon) (i : nat) (mons : list Mon) (c : Z) : res (list Mon * Z) :=
  match mons with
  | [] => Ok ([], c)
  | m :: mons =>
      m ← f i (Monitor.set_counter c m);
      '(mons, c) ← each_monitor_idx f (S i) mons (Monitor.id_counter m);
      mret (m :: mons, c)
  end.
Definition is_moving_now l : bool := match Layout.interactive_move l with Some (Layout.Moving _) => true | _ => false end.
Definition refresh cv now (is_active : bool) (dnd : option DndData) l : res Lay :=
  lock ← locks_view dnd l;
  let l := match Layout.interactive_move l with
           | Some (Layout.Moving mv) => Layout.set_interactive_move (Some (Layout.Moving (refresh_moved mv))) l
           | _ => l
           end in
  match Layout.monitor_set l with
  | Layout.Normal mons primary active =>
      '(mons, c) ← each_monitor_idx (fun i =>
          refresh_monitor cv now lock (Layout.overview_open l) (is_active && bool_decide (i = active) && negb (is_moving_now l))) 0 mons (Layout.id_counter l);
      mret (Layout.set_monitor_set (Layout.Normal mons primary active) c l)
  | Layout.NoOutputs wss =>
      wss ← for_each (fun w => Workspace.second (Workspace.view_offset_gesture_end cv None (refresh_workspace false false w))) wss;
      mret (Layout.set_monitor_set (Layout.NoOutputs wss) (Layout.id_counter l) l)
  end.

(** ** Windows *)

(** A commit: [win] is the window as its client has changed it. *)
Definition update_window cv x (win : W) (serial : option Z) l : res Lay :=
  let placed := match window_place kin st x l with
                | Some p => drop kin st (on_place kin st p (plainly (w_commit cv x win serial)) l)
                | None => mret l
                end in
  match Layout.interactive_move l with
  | Some (Layout.Moving mv) =>
      if bool_decide (tile_win (Layout.im_tile mv) = x) then
        let win := match serial with Some n => on_commit n win | None => win end in
        t ← Tile.update_window cv (Tile.set_window win (Layout.im_tile mv));
        mret (Layout.set_interactive_move (Some (Layout.Moving (with_tile kin st t (Layout.im_is_floating mv) mv))) l)
      else placed
  | _ => placed
  end.

(** Every window, dragged ones too. *)
Definition moved_windows l : list W := match Layout.interactive_move l with Some (Layout.Moving mv) => [Tile.window (Layout.im_tile mv : Tile.Tile)] | _ => [] end.
Definition all_windows l : list W := moved_windows l ++ (Layout.workspaces l ≫= (fun w : Workspace.Workspace => Tile.window <$> Workspace.tiles w)).
Definition with_windows_mut (f : W -> W) l : res Lay :=
  let l := match Layout.interactive_move l with
           | Some (Layout.Moving mv) =>
               Layout.set_interactive_move (Some (Layout.Moving (with_tile kin st (on_window f (Layout.im_tile mv)) (Layout.im_is_floating mv) mv))) l
           | _ => l
           end in
  let change (w : Workspace.Workspace) : res Workspace.Workspace := mret (map_windows f w) in
  Layout.each_workspace change l.
Definition set_fullscreen cv x (is_fullscreen : bool) l : res Lay :=
  let windowed (win : W) := bool_decide (win_id win = x) && is_pending_windowed_fullscreen win in
  if negb is_fullscreen && existsb windowed (all_windows l) then
    with_windows_mut (fun win => if windowed win then request_windowed_fullscreen false win else win) l
  else on_found kin st x (Workspace.set_fullscreen cv kin x is_fullscreen) l.

(** The first workspace for which [f] returns [true]. *)
Definition first_workspace (f : Workspace.Workspace -> res (bool * Workspace.Workspace)) l : res (bool * Lay) :=
  let g (w : Workspace.Workspace) : res (option unit * Workspace.Workspace) := '(b, w) ← f w; mret (if b : bool then Some tt else None, w) in
  match Layout.monitor_set l with
  | Layout.NoOutputs wss =>
      '(a, wss) ← first_ws g wss; mret (bool_decide (a = Some tt), Layout.set_monitor_set (Layout.NoOutputs wss) (Layout.id_counter l) l)
  | Layout.Normal mons primary active =>
      '(a, mons, c) ← Layout.first_monitor (on_first_ws kin st g) 0 mons (Layout.id_counter l);
      mret (match a with Some _ => true | None => false end, Layout.set_monitor_set (Layout.Normal mons primary active) c l)
  end.
Definition descendants_added x : Lay -> res (bool * Lay) := first_workspace (Workspace.descendants_added kin x).
Definition start_open_animation_for_window cv x l : res Lay :=
  if is_moving kin st x l then mret l else drop kin st (first_workspace (Workspace.start_open_animation cv x) l).

(** ** Queries *)
Definition scroll_amount_to_activate x l : res f64 :=
  if is_moving kin st x l then mret f0
  else match find (has_window kin st x) (monitors kin st l ≫= Monitor.workspaces) with
       | Some w => Workspace.scroll_amount_to_activate x w
       | None => mret f0
       end.
Definition window_idx x m : res nat := unwrap (position (has_window kin st x) (Monitor.workspaces m)).
Definition should_trigger_focus_follows_mouse_on x l : res bool :=
  if is_moving kin st x l then mret true
  else match Layout.monitor_set l with
       | Layout.NoOutputs _ => mret true
       | Layout.Normal mons _ _ =>
           i ← unwrap (Layout.monitor_with_window x mons);
           m ← index mons i;
           j ← window_idx x m;
           mret (match Monitor.workspace_switch m with
                 | Some (Switch.SwitchGesture _) => true
                 | _ => (j =? Monitor.active_workspace_idx m)%nat
                 end)
       end.
End layout.
End Frame.
