(* ===== verification/LayoutFrameThms.v ===== *)
(** * Frames, refreshes and drags: what they keep

    Telling windows their state changes nothing that the layout sees; animations
    advance, gestures begin and end, drags are held and windows commit on layouts that
    stay in order. *)

From stdpp Require Import base numbers option list strings gmap.
From Stdlib Require Import ZArith Lia SpecFloat.
From S2P Require Import Prelude.
From S2P Require Import Runs.
From S2P Require Import F64.
From S2P Require Import Duration.
From S2P Require Import Clock.
From S2P Require Import Animation.
From S2P Require Import AnimTotal.
From S2P Require Import OutputName.
From S2P Require Import LayoutTypes.
From S2P Require Import Tile.
From S2P Require Import TileInv.
From S2P Require Import TileGeometry.
From S2P Require Import Floating.
From S2P Require Import FloatingStack.
From S2P Require Import FloatingInv.
From S2P Require Import Column.
From S2P Require Import ColumnInv.
From S2P Require Import Scrolling.
From S2P Require Import ScrollingSpec.
From S2P Require Import ScrollingGrid.
From S2P Require Import ScrollingInv.
From S2P Require Import ScrollingOps.
From S2P Require Import ScrollingMoves.
From S2P Require Import ScrollingTiles.
From S2P Require Import ScrollingViews.
From S2P Require Import Positions.
From S2P Require Import ScrollingThms.
From S2P Require Import FloatingOps.
From S2P Require Import FloatingThms.
From S2P Require Import Workspace.
From S2P Require Import WorkspaceInv.
From S2P Require Import WorkspaceSpec.
From S2P Require Import WorkspaceOps.
From S2P Require Import WorkspaceTiling.
From S2P Require Import WorkspaceRoutes.
From S2P Require Import WorkspaceThms.
From S2P Require Import WorkspaceLabels.
From S2P Require Import Interface.
From S2P Require Import Monitor.
From S2P Require Import MonitorIds.
From S2P Require Import MonitorInv.
From S2P Require Import MonitorOps.
From S2P Require Import MonitorOps2.
From S2P Require Import MonitorThms.
From S2P Require Import MonitorGeometry.
From S2P Require Import Layout.
From S2P Require Import LayoutInv.
From S2P Require Import LayoutHotplug.
From S2P Require Import LayoutWindows.
From S2P Require Import LayoutMoves.
From S2P Require Import LayoutRest.
From S2P Require Import LayoutThms.
From S2P Require Import LayoutReal.
From S2P Require Import LayoutActions.
From S2P Require Import LayoutPlaces.
From S2P Require Import LayoutActionsThms.
From S2P Require Import LayoutDrag.
From S2P Require Import LayoutDragThms.
From S2P Require Import HitTest.
From S2P Require Import LayoutDrop.
From S2P Require Import LayoutFrame.

Lemma Forall2_imap {A} (R : A -> A -> Prop) (f : nat -> A -> A) xs : (forall i x, R x (f i x)) -> Forall2 R xs (imap f xs).
Proof. revert f. induction xs as [|x xs IH]; intros f Hf; cbn; constructor; [done|]. apply (IH (f ∘ S)). intros i. apply Hf. Qed.
Lemma Forall2_map {A} (R : A -> A -> Prop) (f : A -> A) xs : (forall x, R x (f x)) -> Forall2 R xs (f <$> xs).
Proof. intros Hf. induction xs; cbn; by constructor. Qed.

(** ** Telling windows their state *)
Section told.
Context {LE : LayoutElement} {GE : Geometry} {GL : GeometryLaws} {LM : Libm} {KF : Keyframe} {OU : Outputs} {WSt : WindowState} {WSL : WindowStateLaws}.

#[export] Instance told_preorder : PreOrder told.
Proof.
  split; [intros w; by split; [split|]|]. intros a b c [[? ? ? ?] ?] [[? ? ? ?] ?]. split; [split|]; congruence.
Qed.
Lemma tell_told x w : told w (tell x w).
Proof.
  unfold tell. etransitivity; [apply set_active_in_column_told|]. etransitivity; [apply set_floating_told|].
  etransitivity; [apply set_activated_told|]. etransitivity; [apply set_interactive_resize_told|]. apply set_bounds_told.
Qed.
Lemma configured_told i w : told w (configured i w).
Proof. unfold configured. etransitivity; [|apply win_refresh_told]. destruct (may_send i); [apply send_pending_configure_told|done]. Qed.

(** A tile whose window was told something. *)
Definition retold (t t' : Tile.Tile) : Prop := exists w, told (Tile.window t) w /\ t' = Tile.set_window w t.
Lemma on_window_retold f (t : Tile.Tile) : (forall w, told w (f w)) -> retold t (Frame.on_window f t).
Proof. intros Hf. by exists (f (Tile.window t)). Qed.
Definition column_retold (c c' : Column.Column) : Prop := exists ts, Forall2 retold (Column.tiles c) ts /\ c' = Column.set_tiles ts c.
Definition retold_workspace (w w' : Workspace.Workspace) : Prop :=
  exists cs ts, Forall2 column_retold (ScrollingSpace.columns (Workspace.scrolling w)) cs
    /\ Forall2 retold (FloatingSpace.tiles (Workspace.floating w)) ts
    /\ w' = Workspace.set_floating (FloatingSpace.set_tiles ts (Workspace.floating w))
              (Workspace.set_scrolling (ScrollingSpace.set_columns cs (Workspace.scrolling w)) w).

Lemma refresh_retold a f w : retold_workspace w (Frame.refresh_workspace a f w).
Proof.
  eexists _, _. split; [|split; [|done]].
  - apply Forall2_imap. intros i c. eexists. split; [|done]. apply Forall2_imap. intros j t. apply on_window_retold. intros win.
    etransitivity; [apply tell_told|apply configured_told].
  - apply Forall2_map. intros t. apply on_window_retold. intros win. etransitivity; [apply tell_told|apply configured_told].
Qed.
Lemma map_windows_retold f w : (forall win, told win (f win)) -> retold_workspace w (Frame.map_windows f w).
Proof.
  intros Hf. eexists _, _. split; [|split; [|done]].
  - apply Forall2_map. intros c. eexists. split; [|done]. apply Forall2_map. intros t. by apply on_window_retold.
  - apply Forall2_map. intros t. by apply on_window_retold.
Qed.

(** The layout sees no difference. *)
Lemma retold_asked o vs sc t t' : TileInv.tile_ok o vs sc t -> retold t t' -> TileInv.asked o vs sc (TileInv.pending t) t t'.
Proof.
  intros Ht (w & [Hw Hp] & ->). destruct (with_window_same o vs sc t w Ht Hw) as (H1 & H2 & H3). split_and!; try done.
Qed.
Lemma retold_column E c c' : col_ok E c -> column_retold c c' -> col_ok E c' /\ col_same c c'.
Proof.
  intros [Hc Hs] (ts & HF & ->). pose proof (cm_base _ _ Hc) as Hb. pose proof (cm_pending _ _ Hc) as Hpend. pose proof (cb_tiles _ _ Hb) as Hti.
  assert (HA : Forall2 (TileInv.asked (e_options E) (e_view_size E) (e_scale E) (Column.pending_sizing_mode c)) (Column.tiles c) ts).
  { clear -HF Hpend Hti. revert Hpend Hti. generalize (Column.pending_sizing_mode c). intros m.
    induction HF as [|t t' l l' Ht _ IH]; intros H1 H2; constructor; inversion_clear H1 as [|?? Hp ?]; inversion_clear H2; [|by apply IH].
    rewrite <-Hp. by apply retold_asked. }
  destruct (set_tiles_asked E c ts Hb (cm_active _ _ Hc) HA) as [Hm Hsame]. split; [|done]. split; [done|].
  unfold single. cbn. rewrite <-(Forall2_length _ _ _ HF). exact Hs.
Qed.
Lemma retold_floating kin s ts :
  floating_ok kin s -> Forall2 retold (FloatingSpace.tiles s) ts -> fto kin s (pile s) (FloatingSpace.set_tiles ts s).
Proof.
  intros Hs HF. apply retile_to; [done|]. pose proof (fo_tiles s (proj1 Hs)) as HT. clear -HF HT WSL. revert HT. generalize (fenv s). intros E HT.
  induction HF as [|t t' l l' Ht _ IH]; constructor; inversion_clear HT as [|?? Hf ?]; [|by apply IH].
  apply asked_alike; [done|]. destruct Hf as (Hok & _ & <-). by apply retold_asked.
Qed.

Lemma retold_view kin w w' : ws_base kin w -> retold_workspace w w' -> wto kin w (eq (view w)) w'.
Proof.
  intros Hw (cs & ts & HC & HT & ->).
  assert (H1 : wto kin w (eq (view w)) (Workspace.set_scrolling (ScrollingSpace.set_columns cs (Workspace.scrolling w)) w)).
  { pose proof (wo_scrolling _ _ Hw) as Hs. destruct (cols_same_to (Workspace.scrolling w) cs Hs) as (H1 & H2 & H3).
    - apply Forall2_same_length_lookup_2; [by eapply Forall2_length|]. intros i c c' Hc Hc'.
      apply retold_column; [exact (space_col _ i c Hs Hc)|exact (Forall2_lookup_lr _ _ _ _ _ _ HC Hc Hc')].
    - eapply wto_mono; [by apply set_scrolling_to|]. intros v <-. rewrite H3. done. }
  eapply wto_trans; [apply H1|].
  destruct (retold_floating kin (Workspace.floating w) ts (wo_floating _ _ Hw) HT) as (H2 & H3 & H4).
  eapply wto_mono; [apply set_floating_to; [apply H1|exact H2|exact H3]|]. intros v <-. rewrite H4. destruct H1 as (_ & _ & ->). done.
Qed.
End told.

Section frame.
Context {LE : LayoutElement} {LEL : LayoutElementLaws} {GE : Geometry} {GL : GeometryLaws} {LM : Libm} {KF : Keyframe} {OU : Outputs}
  {SM : Smithay} {RE : Rectangles} {HR : HitRegions} {WSt : WindowState} {WSL : WindowStateLaws}.
Context (kin : Id -> Id -> bool) (Hac : acyclic kin) (st : WOutput -> OutputState) (Hst : outputs_ok st).
#[local] Hint Extern 0 WorkspaceOps => exact (real_ops kin st) : typeclass_instances.
#[local] Hint Extern 0 LayoutOps => exact (real_layout_ops kin st) : typeclass_instances.
#[local] Hint Extern 0 WorkspaceLaws => exact (real_laws kin Hac st Hst) : typeclass_instances.
#[local] Hint Extern 0 LayoutLaws => exact (real_layout_laws kin Hac st Hst) : typeclass_instances.
Abbreviation Lay := Layout.Layout.
Abbreviation Mon := Monitor.Monitor.
Implicit Types (cv : ClockView) (w : WS) (x : Win) (l : Lay) (m : Mon).
Import Actions.
Import Drag.
Import Frame.

Lemma retold_same (w w' : Workspace.Workspace) : real_ok kin w -> retold_workspace w w' -> same_ws (w : WS) w' /\ view w' = view w.
Proof.
  intros [Hw Hv] Hr. destruct (retold_view kin w w' Hw Hr) as (Hb & Ha & He). split; [|done].
  apply (turned_becomes kin st). split; [by destruct Hr as (cs & ts & _ & _ & ->)|]. split; [|split; [done|by rewrite <-He]].
  change ((Tile.id <$> Workspace.tiles w') ≡ₚ (Tile.id <$> Workspace.tiles w)). by rewrite !tiles_windows, He.
Qed.

(** ** Refreshing *)

(** Gestures can end where they have to. *)
Definition can_settle_told cv l : Prop := forall w (a f : bool), w ∈ Layout.workspaces l -> LayoutReal.gesture_ok cv (refresh_workspace a f w).

Lemma settle_ok cv lock oo a (w : Workspace.Workspace) :
  cv_ok cv -> real_ok kin w -> LayoutReal.gesture_ok cv w -> exists w', settle_workspace cv lock oo a w = Ok w' /\ same_ws (w : WS) w'.
Proof.
  intros Hcv Hw Hg. unfold settle_workspace. destruct lock as [[]|].
  - destruct (op_same_ok kin Hac st Hst cv WDndBegin w) as (w' & He & Hs & _); try done. by exists w'.
  - destruct (dnd_end_turns kin Hac st cv w) as (w' & He & Ht); [done..|]. exists w'. split; [done|]. by apply (turned_becomes kin st).
  - destruct (_ && _); [|exists w; split; [done|by apply same_refl]]. by apply (tame_second kin Hac st Hst), (gesture_end_tame kin Hac st Hst).
Qed.
Lemma refresh_one_ok cv lock oo b a f (w : Workspace.Workspace) :
  cv_ok cv -> real_ok kin w -> LayoutReal.gesture_ok cv (refresh_workspace a f w) ->
  exists w', settle_workspace cv lock oo b (refresh_workspace a f w) = Ok w' /\ same_ws (w : WS) w'.
Proof.
  intros Hcv Hw Hg. destruct (retold_same w _ Hw (refresh_retold a f w)) as [Hs _].
  destruct (settle_ok cv lock oo b (refresh_workspace a f w)) as (w' & He & Hs'); [done|apply Hs|done|]. exists w'. split; [done|]. by eapply same_trans.
Qed.

(** The monitors in turn, with their indices. *)
Lemma each_monitor_idx_spec (c : Z) done rest f (i : nat) :
  mons_ok c (done ++ rest) -> Forall clean (done ++ rest) -> (0 <= c)%Z -> (c + 2 < 2 ^ 53)%Z ->
  (forall i, loop_pre 0 c rest syncs (Layout.lift_op (f i))) ->
  exists rest' c', each_monitor_idx kin st f i rest c = Ok (rest', c') /\ loop_post 0 c rest done c' rest' /\ Forall2 syncs rest rest'.
Proof.
  revert c done i. induction rest as [|m rest IH]; intros c done i Hok Hcl Hc Hk Hf.
  { exists [], c. split_and!; [done| |constructor]. constructor; [done..|cbn; lia|done]. }
  destruct (loop_step 0 c done m rest syncs (Layout.lift_op (f i))) as (a & m' & He & HQ & Hok' & Hcl' & Hcnt & _ & Hw); try done; [lia|].
  assert (Hf' : forall j, loop_pre 0 (Monitor.id_counter m') rest syncs (Layout.lift_op (f j))).
  { intros j. destruct (loop_step 0 c done m rest syncs (Layout.lift_op (f j))) as (a2 & m2 & _ & _ & _ & _ & Hc2 & Hf2 & _); try done; [lia|].
    cbn in Hcnt, Hc2. by replace (Monitor.id_counter m') with (Monitor.id_counter m2) by lia. }
  destruct (IH (Monitor.id_counter m') (done ++ [m']) (S i)) as (rest' & c' & Hr & Hp & HF); try done; [cbn in Hcnt; lia..|].
  cbn. unfold Layout.lift_op in He. destruct (f i (Monitor.set_counter c m)) as [m1|]; [|done]. cbn in He.
  injection He as _ ->. cbn. rewrite Hr. cbn. exists (m' :: rest'), c'. split_and!; [done| |by constructor].
  by eapply loop_post_cons.
Qed.
Lemma each_step_idx f l mons p a :
  layout_ok l -> roomy l -> Layout.monitor_set l = Layout.Normal mons p a -> (forall i, harmless_in mons (Layout.lift_op (f i))) ->
  exists mons' c', each_monitor_idx kin st f 0 mons (Layout.id_counter l) = Ok (mons', c')
    /\ layout_step [] [] l (Layout.set_monitor_set (Layout.Normal mons' p a) c' l).
Proof.
  intros Hok Hr Hs Hf. pose proof (lo_set l Hok) as Hn. rewrite Hs in Hn. destruct Hn. unfold roomy in Hr.
  pose proof (lo_counter l Hok).
  destruct (each_monitor_idx_spec (Layout.id_counter l) [] mons f 0) as (mons' & c' & He & Hp & HF); try done; [lia| |].
  { intros i. by apply harmless_pre. }
  exists mons', c'. split; [done|]. by eapply loop_layout.
Qed.

Lemma scroll_with_drag_ok {HM : Home} cv now lock oo m :
  semi_ok m -> room m 2 -> cv_ok cv -> ts_ok now ->
  exists m', scroll_with_drag kin st cv now lock oo m = Ok m' /\ step_ok [] m m' /\ evolves [] 0 m m' /\ Monitor.workspaces m' = Monitor.workspaces m.
Proof.
  intros Hs Hr Hcv Hnow. unfold scroll_with_drag.
  assert (Hno : exists m', mret m = Ok m' /\ step_ok [] m m' /\ evolves [] 0 m m' /\ Monitor.workspaces m' = Monitor.workspaces m)
    by (exists m; split_and!; [done|by apply step_refl|apply evolves_refl|done]).
  match goal with |- context [if ?b then _ else _] => destruct b end; [|destruct (negb oo); [|done]].
  - destruct (dnd_begin_keeps cv now m) as (m' & He & H); [done..|]. exists m'. split_and!; [done|done|by eapply dnd_begin_ev|].
    revert He. unfold Monitor.dnd_scroll_gesture_begin. cbv zeta. match goal with |- context [if ?b then _ else _] => destruct b end; [by intros [= <-]|].
    destruct (negb _); [by intros [= <-]|]. destruct (Monitor.workspace_render_idx cv m); cbn; [|done]. by intros [= <-].
  - destruct (MonitorOps2.dnd_end_keeps cv now m) as (m' & He & H); [done|unfold room in *; lia|done..|].
    exists m'. split_and!; [done|done|by eapply dnd_end_ev|by eapply dnd_end_workspaces].
Qed.

Lemma refresh_monitor_harmless cv now lock oo a mons :
  cv_ok cv -> ts_ok now ->
  (forall w (a f : bool), w ∈ (mons ≫= Monitor.workspaces) -> LayoutReal.gesture_ok cv (refresh_workspace a f w)) ->
  harmless_in mons (Layout.lift_op (refresh_monitor kin st cv now lock oo a)).
Proof.
  intros Hcv Hnow Hg c m Hm m1 Hs Hcl Hr. unfold Layout.lift_op, refresh_monitor.
  destruct (scroll_with_drag_ok (HM := home_of m) cv now lock oo m1) as (m2 & -> & H1 & H2 & Hw); [done..|]. cbn [mbind res_bind].
  unfold refresh_workspaces.
  match goal with |- context [Column.iter_mut ?f 0 _] => destruct (iter_mut_same kin Hac st Hst f 0 (Monitor.workspaces m2)) as (wss & -> & HF) end.
  - intros i w Hin. pose proof (proj1 (Forall_forall _ _) (mc_ws _ (so_core _ (proj1 H1))) w Hin) as Hok.
    apply refresh_one_ok; [done|exact Hok|]. apply Hg. rewrite Hw in Hin. apply list_elem_of_bind. by exists m.
  - cbn [mbind res_bind]. eexists _, _. split; [done|].
    destruct (same_list (HM := home_of m) m2 wss (proj1 H1) HF) as [H3 H4]. split.
    + by apply (step_trans [] [] m1 m2).
    + by apply (evolves_seq [] 0 0 0 m1 m2).
Qed.

(** ** The window that is being moved *)
Lemma retold_incoming t t' : tile_incoming t -> retold t t' -> tile_incoming t' /\ Tile.id t' = Tile.id t.
Proof.
  intros (o & vs & sc & Ho & Ht & Hsy) Hr. destruct (retold_asked _ _ _ _ _ Ht Hr) as (Hok & [Hi Hs _] & _ & Hsy').
  split; [|done]. exists o, vs, sc. by split_and!; [| |apply Hsy'].
Qed.
(** The moved window with another tile. *)
Lemma moved_tile_step mv t b l :
  layout_ok l -> Layout.interactive_move l = Some (Layout.Moving mv) -> tile_incoming t -> Tile.id t = Tile.id (Layout.im_tile mv) ->
  layout_step [] [] l (Layout.set_interactive_move (Some (Layout.Moving (with_tile kin st t b mv))) l).
Proof.
  intros Hok Hm Ht Hid. apply (move_again_step kin Hac st Hst mv); [done|done| |done]. apply with_tile_ok; [|done]. by apply (lo_moving l Hok).
Qed.
Lemma retold_move_step mv t b l :
  layout_ok l -> Layout.interactive_move l = Some (Layout.Moving mv) -> retold (Layout.im_tile mv) t ->
  layout_step [] [] l (Layout.set_interactive_move (Some (Layout.Moving (with_tile kin st t b mv))) l).
Proof.
  intros Hok Hm Hr. destruct (retold_incoming _ t (moving_tile_ok kin Hac st Hst mv l Hok Hm) Hr) as [Ht Hid]. by apply moved_tile_step.
Qed.

Lemma locks_view_ok dnd l : layout_ok l -> exists lock, locks_view kin st dnd l = Ok lock.
Proof.
  intros Hok. unfold locks_view. destruct dnd; [by eexists|]. destruct (Layout.interactive_move l) as [[x d r|mv]|] eqn:Em; [|by eexists|by eexists].
  pose proof (lo_starting l Hok x d r Em) as Hx. unfold Layout.windows, Layout.moving_windows in Hx. rewrite Em in Hx. cbn [app] in Hx.
  apply list_elem_of_bind in Hx as (w & Hx & Hw). destruct (find (has_window kin st x) (Layout.workspaces l)) as [v|] eqn:Ef; [by eexists|].
  exfalso. pose proof (find_none _ _ Ef w (proj1 (list_elem_of_In _ _) Hw)) as H. apply has_window_true in Hx.
  change (Interface.has_window x w = false) in H. congruence.
Qed.

Lemma refresh_ok cv now (is_active : bool) dnd l :
  layout_ok l -> roomy l -> cv_ok cv -> ts_ok now -> can_settle_told cv l ->
  exists l', refresh kin st cv now is_active dnd l = Ok l' /\ layout_step [] [] l l'.
Proof.
  intros Hok Hr Hcv Hnow Hset. unfold refresh. destruct (locks_view_ok dnd l Hok) as [lock ->]. cbn [mbind res_bind]. cbv zeta.
  match goal with |- context [Layout.monitor_set ?v] => set (l1 := v) end.
  assert (H1 : layout_step [] [] l l1 /\ Layout.monitor_set l1 = Layout.monitor_set l /\ Layout.id_counter l1 = Layout.id_counter l).
  { unfold l1. destruct (Layout.interactive_move l) as [[x d r|mv]|] eqn:Em; [split; [by apply step_same|done]| |split; [by apply step_same|done]].
    split; [|done]. apply (retold_move_step mv); [done..|]. apply on_window_retold. intros win. etransitivity; [apply tell_told|].
    etransitivity; [apply send_pending_configure_told|apply win_refresh_told]. }
  destruct H1 as (Hs1 & Em & Ec). clearbody l1.
  assert (Hr1 : roomy l1) by (unfold roomy; by rewrite Ec).
  assert (Hset1 : can_settle_told cv l1) by (unfold can_settle_told, Layout.workspaces in *; by rewrite Em).
  cut (exists l', match Layout.monitor_set l1 with
    | Layout.Normal mons primary active =>
      '(mons, c) ← each_monitor_idx kin st (fun i => refresh_monitor kin st cv now lock (Layout.overview_open l1)
          (is_active && bool_decide (i = active) && negb (is_moving_now kin st l1))) 0 mons (Layout.id_counter l1);
      mret (Layout.set_monitor_set (Layout.Normal mons primary active) c l1)
    | Layout.NoOutputs wss =>
      wss ← for_each (fun w => Workspace.second (Workspace.view_offset_gesture_end cv None (refresh_workspace false false w))) wss;
      mret (Layout.set_monitor_set (Layout.NoOutputs wss) (Layout.id_counter l1) l1)
    end = Ok l' /\ layout_step [] [] l1 l').
  { intros (l' & He & Hs). exists l'. split; [exact He|]. by eapply layout_step_trans. }
  pose proof (lo_set l1 (proj1 Hs1)) as Hn. unfold can_settle_told, Layout.workspaces in Hset1.
  destruct (Layout.monitor_set l1) as [mons p a|wss] eqn:Es.
  - match goal with |- context [each_monitor_idx _ _ ?f 0 mons _] => destruct (each_step_idx f l1 mons p a) as (mons' & c' & -> & Hs) end; try done; [apply Hs1| |].
    + intros i. by apply refresh_monitor_harmless.
    + cbn [mbind res_bind]. by eexists.
  - match goal with |- context [for_each ?f wss] => destruct (for_each_in same_ws f wss) as (wss' & -> & HF) end.
    { apply Forall_forall. intros w Hw. pose proof (proj1 (Forall_forall _ _) (un_ok _ _ Hn) w Hw) as Hwok.
      destruct (retold_same w _ Hwok (refresh_retold false false w)) as [Hs _].
      destruct (tame_second kin Hac st Hst (Workspace.view_offset_gesture_end cv None) (refresh_workspace false false w)) as (w' & He & Hs').
      { apply (gesture_end_tame kin Hac st Hst); [done|apply Hs|by apply Hset1]. }
      exists w'. split; [done|]. by eapply same_trans. }
    cbn [mbind res_bind]. eexists. split; [done|]. apply set_step; [apply Hs1|apply Hs1|done|lia|by eapply unplugged_moved, same_moved|].
    unfold Layout.workspaces. cbn. rewrite Es. by rewrite (moved_wins _ _ (same_moved _ _ HF)).
Qed.

(** ** Drag and drop *)
Lemma dnd_update_ok cv now o p dnd l :
  layout_ok l -> roomy l -> cv_ok cv ->
  exists d l', dnd_update kin st cv now o p dnd l = Ok (d, l') /\ layout_step [] [] l l'.
Proof.
  intros Hok Hr Hcv. unfold dnd_update. destruct dnd as [d|]; [eexists _, l; split; [done|by apply step_same]|].
  destruct (begin_monitors_ok kin Hac st Hst cv now l) as (l1 & -> & H1 & _ & Hc); [done..|]. cbn [mbind res_bind].
  destruct (begin_workspaces_ok kin Hac st Hst cv l1) as (l2 & -> & H2 & _); [apply H1|unfold roomy; by rewrite Hc|done|].
  eexists _, l2. split; [done|]. by eapply layout_step_trans.
Qed.
Lemma frame_dnd_end_ok cv now dnd l :
  layout_ok l -> roomy l -> cv_ok cv -> ts_ok now -> (dnd <> None -> can_settle cv l) ->
  exists l', dnd_end kin st cv now dnd l = Ok l' /\ layout_step [] [] l l'.
Proof.
  intros Hok Hr Hcv Hnow Hset. unfold dnd_end. destruct dnd as [d|]; [|exists l; split; [done|by apply step_same]].
  destruct (dnd_end_spec cv now l) as (l1 & -> & H1 & _ & Hc & Hw); [done..|]. cbn [mbind res_bind].
  destruct (end_gestures_ok kin Hac st Hst cv l1) as (l2 & -> & H2 & _); [apply H1|unfold roomy; by rewrite Hc|done| |].
  - unfold can_settle. rewrite Hw. by apply Hset.
  - exists l2. split; [done|]. by eapply layout_step_trans.
Qed.

(** ** Scrolling while something is dragged *)
Definition ws_scrolls cv (w : Workspace.Workspace) : Prop := w_pre cv st (WDndScroll (f0, f0) f0) w.
Definition scroll_pre cv l : Prop :=
  (forall m, m ∈ monitors kin st l -> area_ok m) /\ forall w, w ∈ Layout.workspaces l -> ws_scrolls cv w.

Lemma set_counter_same m : Monitor.set_counter (Monitor.id_counter m) m = m.
Proof. by destruct m. Qed.
Lemma core_here m : semi_ok (HM := home_of m) m -> mon_core (HM := home_of m) (Monitor.set_counter (Monitor.id_counter m) m).
Proof. rewrite set_counter_same. apply so_core. Qed.

Lemma dnd_scroll_workspaces cv now pos speed m b m' :
  Monitor.dnd_scroll_gesture_scroll cv now pos speed m = Ok (b, m') -> Monitor.workspaces m' = Monitor.workspaces m.
Proof.
  unfold Monitor.dnd_scroll_gesture_scroll. intros H. bind H as [z|] eqn E1. destruct (Monitor.workspace_switch m) as [[a|g]|]; [by injection H as _ <-| |by injection H as _ <-].
  destruct (Switch.dnd_last_event_time g) as [lt|]; [|by injection H as _ <-]. bind H as [d|] eqn E2. cbv zeta in H.
  match type of H with (if ?c then _ else _) = _ => destruct c end; [by injection H as _ <-|].
  match type of H with (if ?c then _ else _) = _ => destruct c end; [by injection H as _ <-|].
  bind H as [t|] eqn E3. bind H as [[lo hi]|] eqn E4. bind H as [n|] eqn E5. by injection H as _ <-.
Qed.

Lemma ws_position_in w m : w ∈ Monitor.workspaces m -> exists j v, ws_position kin st (Interface.ws_id w) m = Ok j /\ Monitor.workspaces m !! j = Some v.
Proof.
  intros Hin. unfold ws_position.
  match goal with |- context [position ?p ?l] => destruct (position p l) as [j|] eqn:Ej end.
  - destruct (position_Some _ _ _ Ej) as (v & Hv & _). by exists j, v.
  - rewrite position_None in Ej. specialize (Ej w Hin). by rewrite Z.eqb_refl in Ej.
Qed.

Lemma scroll_under_ok cv pos speed m :
  semi_ok (HM := home_of m) m -> cv_ok cv -> (forall w, w ∈ Monitor.workspaces m -> ws_scrolls cv w) ->
  exists b m', scroll_under kin st cv pos speed m = Ok (b, m') /\ step_ok (HM := home_of m) [] m m' /\ evolves [] 0 m m'.
Proof.
  intros Hs Hcv Hp. unfold scroll_under. pose proof (core_here m Hs) as Hc.
  destruct (workspace_under_ok kin Hac st Hst cv pos m _ Hc Hcv) as (u & -> & Hu). cbn [mbind res_bind].
  destruct u as [[w geo]|]; [|exists false, m; split_and!; [done|by apply (step_refl (HM := home_of m))|apply evolves_refl]].
  destruct (ws_position_in w m (Hu w geo eq_refl)) as (j & v & Hj & Hv). cbn [fst]. rewrite Hj. cbn [mbind res_bind].
  pose proof (Forall_lookup_1 _ _ _ _ (mc_ws _ (so_core _ Hs)) Hv) as Hvok.
  destruct (op_tame kin Hac st Hst cv (WDndScroll (pair_sub pos (f0, geo.1.2)) speed)
    (Workspace.dnd_scroll_gesture_scroll cv (pair_sub pos (f0, geo.1.2)) speed) v) as (b & v' & He & Hsame); try done.
  { apply Hp. by eapply list_elem_of_lookup_2. }
  unfold update_at. rewrite (@index_ok Workspace.Workspace _ _ _ Hv). cbn [mbind res_bind snd]. rewrite He. cbn [mbind res_bind].
  eexists _, _. split; [done|]. exact (update_same (HM := home_of m) m j v v' Hs Hv Hsame).
Qed.

Lemma scroll_monitor_ok cv now pos b m :
  semi_ok (HM := home_of m) m -> room m 2 -> cv_ok cv -> ts_ok now -> area_ok m -> (forall w, w ∈ Monitor.workspaces m -> ws_scrolls cv w) ->
  exists r m', scroll_monitor kin st cv now pos b m = Ok (r, m') /\ step_ok (HM := home_of m) [] m m' /\ evolves [] 0 m m'.
Proof.
  intros Hs Hr Hcv Hnow Ha Hp. unfold scroll_monitor. destruct (mon_zoom_ok kin Hac st Hst cv m _ (core_here m Hs) Hcv) as [z ->]. cbn [mbind res_bind]. cbv zeta.
  destruct (dnd_scroll_keeps (HM := home_of m) cv now pos (f1 / z)%F m) as (r & m1 & He & H1); try done; [unfold room in *; lia|].
  pose proof (dnd_scroll_ev _ _ _ _ _ _ _ He) as Hev. pose proof (dnd_scroll_workspaces _ _ _ _ _ _ _ He) as Hw. rewrite He. cbn [mbind res_bind].
  assert (Hh : home_of m1 = home_of m) by (unfold home_of; by rewrite (ev_output _ _ _ _ Hev)).
  destruct b; [|eexists _, m1; by split_and!].
  destruct (scroll_under_ok cv pos (f1 / z)%F m1) as (r' & m2 & -> & H2 & Hev2); [rewrite Hh; apply H1|done|by rewrite Hw|].
  rewrite Hh in H2. cbn [mbind res_bind]. eexists _, m2. split; [done|]. split; [by apply (step_trans (HM := home_of m) [] [] m m1)|].
  by apply (evolves_seq [] 0 0 0 m m1).
Qed.

(** ** Holding a drag over something *)
Lemma activate_in_finds cv (x : Win) k (wss : list WS) :
  cv_ok cv -> Forall ws_ok wss -> x ∈ (wss ≫= ws_windows) ->
  exists j wss', Layout.activate_in (Workspace.activate_window cv kin x) k wss = Ok (Some j, wss') /\ Forall2 same_ws wss wss' /\ k <= j < k + length wss.
Proof.
  intros Hcv Hok. revert k. induction Hok as [|w wss Hw Hok IH]; intros k Hx; [by apply elem_of_nil in Hx|]. cbn.
  destruct (activate_turns kin Hac st cv x w Hcv Hw) as (w' & -> & Ht). cbn [mbind res_bind].
  assert (Hs : same_ws (w : WS) w') by by apply (turned_becomes kin st).
  case_bool_decide as Hb.
  - exists k, (w' :: wss). split; [done|]. split; [|cbn; lia]. constructor; [done|]. clear -Hok. induction Hok; constructor; [by apply same_refl|done].
  - destruct (IH (S k)) as (j & wss' & -> & HF & Hj); [by apply elem_of_app in Hx as [Hx|Hx]|]. cbn. exists j, (w' :: wss').
    split; [done|]. split; [by constructor|cbn in Hj |- *; lia].
Qed.

(** What the target is on this monitor. *)
Definition target_on (t : DndHoldTarget) m : Prop :=
  match t with
  | HoldWindow x => (x : Win) ∈ (Monitor.workspaces m ≫= ws_windows)
  | HoldWorkspace id => exists w, w ∈ Monitor.workspaces m /\ Interface.ws_id w = id
  end.
Lemma target_under_ok cv pos l m :
  layout_ok l -> cv_ok cv -> m ∈ monitors kin st l ->
  exists r, target_under kin st cv pos m = Ok r /\ match r with Some t => target_on t m | None => True end.
Proof.
  intros Hok Hcv Hm. unfold target_under. destruct (monitor_under_ok kin Hac st Hst cv pos l m Hok Hcv Hm) as (h & -> & Hh). cbn [mbind res_bind].
  destruct h as [[win ht]|].
  - eexists. split; [done|]. destruct Hh as (w & geo & _ & Hin & Hx & _). apply list_elem_of_bind. by exists w.
  - destruct (under_narrow_ok kin Hac st Hst cv pos m _ (monitors_core kin Hac st Hst l m Hok Hm) Hcv) as (u & -> & Hu). cbn [mbind res_bind].
    eexists. split; [done|]. destruct u as [w|]; [|done]. cbn. exists w. split; [by apply Hu|done].
Qed.

Lemma switch_to_target_ok {HM : Home} cv now t config m :
  semi_ok m -> clean m -> room m 2 -> cv_ok cv -> ts_ok now -> (forall c, config = Some c -> config_total c) -> target_on t m ->
  exists m', switch_to_target kin st cv now t config m = Ok m' /\ step_ok [] m m' /\ evolves [] 0 m m'.
Proof.
  intros Hs Hcl Hr Hcv Hnow Hconf Ht. unfold switch_to_target.
  assert (H1 : exists j m1, (match t with
      | HoldWindow x => '(j, wss) ← Layout.activate_in (Workspace.activate_window cv kin x) 0 (Monitor.workspaces m);
                        j ← unwrap j; mret (j, Monitor.set_workspaces wss m)
      | HoldWorkspace id => j ← ws_position kin st id m; mret (j, m)
      end) = Ok (j, m1) /\ step_ok [] m m1 /\ evolves [] 0 m m1 /\ j < Monitor.len m1 /\ Monitor.len m1 = Monitor.len m
      /\ Monitor.id_counter m1 = Monitor.id_counter m).
  { destruct t as [x|id].
    - destruct (activate_in_finds cv x 0 (Monitor.workspaces m)) as (j & wss & -> & HF & Hj); [done|apply (mc_ws _ (so_core _ Hs))|done|].
      cbn [unwrap mbind res_bind]. eexists j, _. split; [done|]. destruct (same_list m wss Hs HF) as [H1 H2].
      pose proof (Forall2_length _ _ _ HF) as Hl. unfold Monitor.len. cbn in Hj, Hl |- *.
      split_and!; [done|done|lia|by symmetry|done].
    - destruct Ht as (w & Hin & <-). destruct (ws_position_in w m Hin) as (j & v & -> & Hv). cbn [mbind res_bind]. exists j, m.
      split_and!; [done|by apply step_refl|apply evolves_refl|by eapply lookup_lt_Some|done|done]. }
  destruct H1 as (j & m1 & -> & Hs1 & Hev1 & Hj & Hl & Hc). cbn [mbind res_bind].
  destruct (MonitorOps2.dnd_end_keeps cv now m1) as (m2 & He2 & Hs2); [apply Hs1|unfold room in *; rewrite Hc, Hl; lia|done|done|].
  pose proof (dnd_end_ev _ _ _ _ He2) as Hev2. pose proof (dnd_end_workspaces _ _ _ _ He2) as Hw2. rewrite He2. cbn [mbind res_bind].
  destruct (activate_anim_spec cv j config m2) as (m3 & He3 & Ha); [apply (so_core _ (proj1 Hs2))|done|unfold Monitor.len in *; by rewrite Hw2| |].
  { destruct config as [c|]; [by apply Hconf|]. apply (mc_config _ (so_core _ (proj1 Hs2))). }
  rewrite He3. exists m3. split; [done|]. pose proof (activate_ev _ _ _ _ _ He3) as Hev3.
  destruct (activated_semi _ _ _ _ (proj1 Hs2) Ha) as (Hs3 & Hcl3 & Hw3). split.
  - apply (step_trans [] [] m m2); [by apply (step_trans [] [] m m1)|]. split_and!; [done|done|by rewrite Hw3|apply Ha].
  - apply (evolves_seq [] 0 0 0 m m2); [by apply (evolves_seq [] 0 0 0 m m1)|done|done].
Qed.

(** One monitor of the layout changes. *)
Lemma on_monitor_step {A} l mons p a i m (f : Mon -> res (A * Mon)) :
  layout_ok l -> roomy l -> Layout.monitor_set l = Layout.Normal mons p a -> mons !! i = Some m ->
  (forall m1, m1 = Monitor.set_counter (Layout.id_counter l) m -> semi_ok (HM := home_of m) m1 -> clean m1 -> room m1 2 ->
    exists r m', f m1 = Ok (r, m') /\ step_ok (HM := home_of m) [] m1 m' /\ evolves [] 0 m1 m') ->
  exists r mons' c, Layout.on_monitor i f mons (Layout.id_counter l) = Ok (r, mons', c) /\ i < length mons'
    /\ layout_step [] [] l (Layout.set_monitor_set (Layout.Normal mons' p a) c l)
    /\ roomy (Layout.set_monitor_set (Layout.Normal mons' p a) c l).
Proof.
  intros Hok Hr Es Hi Hf. destruct (normal_lookup l mons p a i m) as (Hs & Hcl & Hrm); try done.
  destruct (Hf _ eq_refl Hs Hcl) as (r & m' & He & Hs' & Hev); [unfold room in *; lia|].
  destruct (layout_on_monitor l mons p a i m f 0 [] r m') as (Hon & Hc & Hl); try done; [lia|apply Hok|].
  exists r, (<[i := m']> mons), (Monitor.id_counter m'). split; [done|]. split; [rewrite length_insert; by eapply lookup_lt_Some|].
  pose proof (lo_set l Hok) as Hn. rewrite Es in Hn. split; [by apply Hl, Hn|]. unfold roomy in *. cbn. lia.
Qed.

(** The counter stays where it is when no monitor gets workspaces. *)
Definition counts (f : Mon -> res Mon) : Prop :=
  forall m m', f m = Ok m' -> (0 <= Monitor.id_counter m < 2 ^ 64)%Z -> Monitor.id_counter m' = Monitor.id_counter m.
Lemma evolves_counts f : (forall m m', f m = Ok m' -> evolves [] 0 m m') -> counts f.
Proof. intros Hf m m' H Hc. pose proof (ev_counter _ _ _ _ (Hf _ _ H)). lia. Qed.
Lemma each_monitor_counter f (mons : list Mon) (c : Z) mons' (c' : Z) :
  counts f -> (0 <= c < 2 ^ 64)%Z -> Layout.each_monitor f mons c = Ok (mons', c') -> c' = c.
Proof.
  intros Hf. revert c mons' c'. induction mons as [|m mons IH]; intros c mons' c' Hc H; cbn in H; [by injection H as _ <-|].
  bind H as [m'|] eqn E1. bind H as [[rest c1]|] eqn E2. injection H as _ <-.
  pose proof (Hf _ _ E1 Hc) as Hm. cbn in Hm. rewrite Hm in E2. by apply (IH c rest c1).
Qed.
Lemma overview_counts b cv p : counts (fun m => Monitor.set_overview_progress cv p (Layout.set_overview_open b m)).
Proof. intros m m' H Hc. pose proof (ev_counter _ _ _ _ (set_overview_ev _ _ _ _ H)) as Hev. cbn in Hev. lia. Qed.
Lemma close_overview_room cv l b l' : layout_ok l -> roomy l -> Layout.close_overview cv l = Ok (b, l') -> roomy l'.
Proof.
  intros Hok Hr. unfold Layout.close_overview. destruct (Layout.overview_open l); [|by intros [= _ <-]]. intros H. bind H as [l1|] eqn E. injection H as _ <-.
  unfold Layout.toggle_overview in E. bind E as [v|] eqn E1. bind E as [an|] eqn E2. unfold Layout.set_monitors_overview_state in E. cbn in E.
  destruct (Layout.monitor_set l) as [mons p a|wss]; [|by injection E as <-]. bind E as [[mons' c']|] eqn E3. injection E as <-.
  pose proof (lo_counter l Hok) as Hc. unfold roomy in *. cbn.
  assert (Hb : (0 <= Layout.id_counter l < 2 ^ 64)%Z) by lia. by rewrite (each_monitor_counter _ _ _ _ _ (overview_counts _ cv _) Hb E3).
Qed.

Lemma hold_ok cv now (o : WOutput) pos (i : nat) d l :
  layout_ok l -> roomy l -> cv_ok cv -> ts_ok now -> i < length (monitors kin st l) ->
  exists d' l', hold kin st cv now o pos i d l = Ok (d', l') /\ layout_step [] [] l l' /\ roomy l'.
Proof.
  intros Hok Hr Hcv Hnow Hi. unfold hold. pose proof (monitors_core kin Hac st Hst l) as Hcore.
  assert (Hno : forall d : DndData, exists d' l', mret (d, l) = Ok (d', l') /\ layout_step [] [] l l' /\ roomy l')
    by (intros d0; exists d0, l; split_and!; [done|by apply step_same|done]).
  destruct (Layout.monitor_set l) as [mons p a|wss] eqn:Es; [|done].
  assert (Hmons : monitors kin st l = mons) by (unfold monitors; by rewrite Es). rewrite Hmons in Hi.
  destruct (lookup_lt_is_Some_2 mons i Hi) as [m Hm]. rewrite (index_ok _ _ _ Hm). cbn [mbind res_bind].
  assert (Hin : m ∈ monitors kin st l) by (rewrite Hmons; by eapply list_elem_of_lookup_2).
  destruct (target_under_ok cv pos l m Hok Hcv Hin) as (t & -> & Ht). cbn [mbind res_bind]. destruct t as [t|]; [|done]. cbv zeta.
  match goal with |- context [if ?b then _ else _] => destruct b end; [|done].
  match goal with |- context [Layout.on_monitor i ?f mons _] => destruct (on_monitor_step l mons p a i m f) as (r & mons' & c & -> & _ & H1 & Hr1) end; try done.
  { intros m1 Hm1 Hs Hcl Hrm. unfold Layout.lift_op.
    match goal with |- context [switch_to_target _ _ _ _ ?t2 ?cfg _] => destruct (switch_to_target_ok (HM := home_of m) cv now t2 cfg m1) as (m' & -> & H1 & H2) end; try done.
    - destruct (Layout.overview_open l); [|done]. intros c [= <-]. apply (op_overview _ (lo_options l Hok)).
    - by rewrite Hm1.
    - cbn. by exists tt, m'. }
  cbn [mbind res_bind]. set (l1 := Layout.set_monitor_set _ c l) in *.
  pose proof (fun q => focus_output_step q l1 (proj1 H1)) as H2. specialize (H2 o).
  assert (Hr2 : forall q, roomy (Layout.focus_output q l1)) by (intros q; unfold l1, Layout.focus_output, roomy in *; cbn; done). specialize (Hr2 o).
  match goal with |- context [close_if_open _ _ _ _ ?v] => set (l2 := v) in * end. clearbody l2. pose proof (layout_step_trans _ _ _ _ _ H1 H2) as H12.
  unfold close_if_open. destruct (Layout.overview_open l); [|eexists _, l2; by split_and!].
  destruct (close_overview_spec cv l2) as (b & l3 & He & H3); [apply H2|done|done|]. rewrite He. cbn [mbind res_bind].
  eexists _, l3. split; [done|]. split; [by eapply layout_step_trans|]. by apply (close_overview_room cv l2 b), He; [apply H2|].
Qed.

Lemma scroll_dragged_ok cv now dnd o pos b l :
  layout_ok l -> roomy l -> cv_ok cv -> ts_ok now -> scroll_pre cv l ->
  exists d l', scroll_dragged kin st cv now dnd o pos b l = Ok (d, l') /\ layout_step [] [] l l' /\ roomy l'.
Proof.
  intros Hok Hr Hcv Hnow [Ha Hp]. unfold scroll_dragged. unfold monitors, Layout.workspaces in Ha, Hp.
  assert (Hno : exists d l', mret (dnd, l) = Ok (d, l') /\ layout_step [] [] l l' /\ roomy l') by (exists dnd, l; split_and!; [done|by apply step_same|done]).
  destruct (Layout.monitor_set l) as [mons p a|wss] eqn:Es; [|done]. destruct (Layout.monitor_idx _ mons) as [i|] eqn:Ei; [|done].
  destruct (monitor_idx_lookup _ _ _ Ei) as (m & Hm & _). pose proof (list_elem_of_lookup_2 _ _ _ Hm) as Hin.
  match goal with |- context [Layout.on_monitor i ?f mons _] => destruct (on_monitor_step l mons p a i m f) as (r & mons' & c & -> & Hi & H1 & Hr1) end; try done.
  { intros m1 -> Hs _ Hrm. apply (scroll_monitor_ok cv now pos b (Monitor.set_counter (Layout.id_counter l) m)); try done; [exact (Ha m Hin)|].
    intros w Hw. apply Hp. apply list_elem_of_bind. by exists m. }
  cbn [mbind res_bind]. set (l1 := Layout.set_monitor_set _ c l) in *. destruct dnd as [d|]; [|by exists None, l1].
  destruct r; [by eexists _, l1|].
  destruct (hold_ok cv now o pos i d l1) as (d' & l2 & -> & H2 & Hr2); [apply H1|done|done|done|done|]. cbn [mbind res_bind].
  eexists _, l2. split; [done|]. split; [by eapply layout_step_trans|done].
Qed.

(** ** A frame *)
Lemma advance_moved_ok cv l :
  layout_ok l -> cv_ok cv ->
  exists l', advance_moved kin st cv l = Ok l' /\ layout_step [] [] l l' /\ Layout.monitor_set l' = Layout.monitor_set l
    /\ Layout.id_counter l' = Layout.id_counter l.
Proof.
  intros Hok Hcv. unfold advance_moved.
  destruct (Layout.interactive_move l) as [[x d r|mv]|] eqn:Em; [by exists l; split_and!; try apply step_same| |by exists l; split_and!; try apply step_same].
  destruct (moving_tile_ok kin Hac st Hst mv l Hok Em) as (o & vs & sc & Ho & Ht & Hsy).
  destruct (proj1 (runs_ok _ _) (TileInv.advance_animations_runs o vs sc cv Hcv _ Ht)) as (t & He & Hk). rewrite He. cbn [mbind res_bind].
  eexists. split; [done|]. split; [|done]. apply moved_tile_step; [done|done| |apply Hk].
  exists o, vs, sc. split; [done|]. split; [apply Hk|]. by eapply synced_kept, Hsy; apply Hk.
Qed.

Lemma set_progress_step l : layout_ok l -> layout_step [] [] l (Layout.set_overview (Layout.overview_open l) None l).
Proof.
  intros Hok. pose proof (lo_set l Hok) as Hset. destruct (Layout.monitor_set l) as [mons pr a|wss] eqn:Es.
  - destruct Hset. eapply (rebuild l _ mons mons pr a); try done; apply Hok.
  - eapply (rebuild_unplugged l _ wss wss); try done; try apply Hok.
    destruct Hset as [Hwok _ _ _]. clear -Hwok. induction Hwok; constructor; [by apply same_refl|done].
Qed.
Lemma finish_overview_ok cv l :
  layout_ok l -> cv_ok cv -> exists l', finish_overview kin st cv l = Ok l' /\ layout_step [] [] l l' /\ Layout.id_counter l' = Layout.id_counter l.
Proof.
  intros Hok Hcv. pose proof (set_progress_step l Hok) as Hs. pose proof (lo_progress l Hok) as Hp. unfold finish_overview.
  assert (Hno : exists l', mret l = Ok l' /\ layout_step [] [] l l' /\ Layout.id_counter l' = Layout.id_counter l) by (exists l; split_and!; [done|by apply step_same|done]).
  destruct (Layout.overview_open l); [done|]. destruct (Layout.overview_progress l) as [[an|g]|]; [|done..].
  destruct (anim_total_done an cv Hp Hcv) as [d ->]. cbn [mbind res_bind]. destruct d; [|done]. eexists. by split_and!.
Qed.

Lemma advance_monitors_ok cv now l :
  layout_ok l -> roomy l -> cv_ok cv -> exists l', advance_monitors kin st cv now l = Ok l' /\ layout_step [] [] l l'.
Proof.
  intros Hok Hr Hcv. unfold advance_monitors. pose proof (lo_set l Hok) as Hn. destruct (Layout.monitor_set l) as [mons p a|wss] eqn:Es.
  - match goal with |- context [Layout.each_monitor ?f mons _] => destruct (each_step f l mons p a) as (mons' & c' & -> & _ & Hs) end; try done.
    + apply harmless_everywhere, lift_harmless. intros m Hs Hcl Hrm.
      destruct (set_overview_keeps (HM := home_of m) cv (Layout.monitor_progress (Layout.overview_progress l)) m) as (m1 & He1 & H1);
        [done|done|apply monitor_progress_ok, Hok|]. rewrite He1. cbn [mbind res_bind].
      destruct (MonitorOps2.advance_animations_keeps (HM := home_of m) cv now m1) as (m2 & He2 & H2); [apply H1|done|]. exists m2.
      split; [done|]. split; [by apply (step_trans (HM := home_of m) [] [] m m1)|].
      apply (evolves_seq [] 0 0 0 m m1); [by eapply set_overview_ev|by eapply advance_animations_ev|done].
    + cbn [mbind res_bind]. eexists. split; [done|]. exact Hs.
  - assert (H : exists wss', for_each (Workspace.advance_animations cv) wss = Ok wss' /\ Forall2 same_ws wss wss').
    { apply (for_each_in same_ws (ws_advance_animations cv) wss), Forall_forall. intros w Hw. destruct (advance_turns kin Hac st cv w Hcv (proj1 (Forall_forall _ _) (un_ok _ _ Hn) w Hw)) as (w' & He & Ht).
      exists w'. split; [exact He|]. by apply (turned_becomes kin st). }
    destruct H as (wss' & He & HF). rewrite He. cbn [mbind res_bind]. eexists. split; [done|]. apply set_step; [done|apply Hok|done|lia|by eapply unplugged_moved, same_moved|].
    unfold Layout.workspaces. cbn. rewrite Es. by rewrite (moved_wins _ _ (same_moved _ _ HF)).
Qed.

(** What a frame takes: where something is dragged the arithmetic of scrolling gives
    numbers. *)
Definition frame_pre cv (dnd : option DndData) l : Prop := dragged_at kin st dnd l <> None -> scroll_pre cv l.
Lemma advance_animations_ok cv now dnd l :
  layout_ok l -> roomy l -> cv_ok cv -> ts_ok now -> frame_pre cv dnd l ->
  exists d l', advance_animations kin st cv now dnd l = Ok (d, l') /\ layout_step [] [] l l'.
Proof.
  intros Hok Hr Hcv Hnow Hp. unfold advance_animations. cbv zeta.
  destruct (advance_moved_ok cv l Hok Hcv) as (l1 & -> & H1 & Es & Ec). cbn [mbind res_bind].
  assert (Hr1 : roomy l1) by (unfold roomy; by rewrite Ec).
  assert (H2 : exists d l2, (match dragged_at kin st dnd l with
      | Some (o, pos, is_scrolling) => scroll_dragged kin st cv now dnd o pos is_scrolling l1
      | None => mret (dnd, l1)
      end) = Ok (d, l2) /\ layout_step [] [] l1 l2 /\ roomy l2).
  { destruct (dragged_at kin st dnd l) as [[[o pos] b]|] eqn:Ed; [|exists dnd, l1; split_and!; [done|by apply step_same, H1|done]].
    apply scroll_dragged_ok; [apply H1|done..|]. unfold scroll_pre, monitors, Layout.workspaces in *. rewrite Es. apply Hp. by rewrite Ed. }
  destruct H2 as (d & l2 & He2 & H2 & Hr2). rewrite He2.
  cbn [mbind res_bind]. destruct (finish_overview_ok cv l2) as (l3 & -> & H3 & Ec3); [apply H2|done|]. cbn [mbind res_bind].
  destruct (advance_monitors_ok cv now l3) as (l4 & -> & H4); [apply H3|unfold roomy; by rewrite Ec3|done|]. cbn [mbind res_bind].
  exists d, l4. split; [done|]. eapply layout_step_trans; [exact H1|]. eapply layout_step_trans; [exact H2|]. by eapply layout_step_trans.
Qed.

(** ** Windows *)

(** A client changes neither the identity of its window nor what the window has been
    asked for; the scale of a tile is a positive number. *)
Definition update_pre x (win : W) l : Prop :=
  (forall mv, Layout.interactive_move l = Some (Layout.Moving mv) -> tile_win (Layout.im_tile mv) = x ->
     commit_ok (Layout.im_tile mv : Tile.Tile) win /\ F64Sign.positive_finite (Tile.scale (Layout.im_tile mv)) = true)
  /\ forall p w, window_place kin st x l = Some p -> at_place kin st p l w -> commit_pre x win w.

Lemma committed_incoming cv (t : Tile.Tile) win (serial : option Z) :
  cv_ok cv -> tile_incoming t -> commit_ok t win -> F64Sign.positive_finite (Tile.scale t) = true ->
  exists t', Tile.update_window cv (Tile.set_window (match serial with Some n => on_commit n win | None => win end) t) = Ok t'
    /\ tile_incoming t' /\ Tile.id t' = Tile.id t.
Proof.
  intros Hcv (o & vs & sc & Ho & Ht & Hsy) Hc Hsc. rewrite (TileInv.to_scale _ _ _ _ Ht) in Hsc. destruct (commit_ok_serial t win serial Hc) as (Hi & Hw & Hp). 
  set (win1 := match serial with Some n => on_commit n win | None => win end) in *. clearbody win1.
  assert (Ht1 : TileInv.tile_ok o vs sc (Tile.set_window win1 t)) by (destruct Ht; by constructor).
  destruct (proj1 (runs_ok _ _) (TileInv.tile_update_window_runs o vs sc Ho cv Hcv _ Hsc Ht1)) as (t' & -> & H1 & H2 & H3 & _).
  exists t'. split; [done|]. split; [by exists o, vs, sc|]. by rewrite H3.
Qed.
Lemma update_window_ok cv x win serial l :
  layout_ok l -> roomy l -> cv_ok cv -> update_pre x win l ->
  exists l', update_window kin st cv x win serial l = Ok l' /\ layout_step [] [] l l'.
Proof.
  intros Hok Hr Hcv [Hmv Hpl]. unfold update_window. cbv zeta.
  assert (Hp : exists l', (match window_place kin st x l with
    | Some p => drop kin st (on_place kin st p (plainly (w_commit cv x win serial)) l) | None => mret l end) = Ok l' /\ layout_step [] [] l l').
  { pose proof (window_place_spec kin st x l) as Hw. destruct (window_place kin st x l) as [p|]; [|exists l; split; [done|by apply step_same]].
    destruct Hw as (w & Hp & _). destruct (op_at_ok kin Hac st Hst cv (WCommit x win serial) p l w) as (w' & _ & Hs & He & _); try done; [by eapply Hpl|].
    assert (He' : on_place kin st p (plainly (w_commit cv x win serial)) l = Ok (tt, put kin st p w' l)) by exact He.
    unfold drop. rewrite He'. by eexists. }
  destruct (Layout.interactive_move l) as [[y d r|mv]|] eqn:Em; [exact Hp| |exact Hp]. case_bool_decide as Hid; [|exact Hp].
  destruct (Hmv mv eq_refl Hid) as [Hc Hsc].
  destruct (committed_incoming cv (Layout.im_tile mv) win serial Hcv (moving_tile_ok kin Hac st Hst mv l Hok Em) Hc Hsc) as (t & He & Ht & Hti).
  rewrite He. cbn [mbind res_bind]. eexists. split; [done|]. by apply moved_tile_step.
Qed.

Lemma with_windows_ok f l :
  layout_ok l -> roomy l -> (forall win, told win (f win)) -> exists l', with_windows_mut kin st f l = Ok l' /\ layout_step [] [] l l'.
Proof.
  intros Hok Hr Hf. unfold with_windows_mut. cbv zeta. match goal with |- context [Layout.each_workspace _ ?v] => set (l1 := v) end.
  assert (H1 : layout_step [] [] l l1 /\ Layout.id_counter l1 = Layout.id_counter l).
  { unfold l1. destruct (Layout.interactive_move l) as [[y d r|mv]|] eqn:Em; [split; [by apply step_same|done]| |split; [by apply step_same|done]].
    split; [|done]. apply (retold_move_step mv); [done..|]. by apply on_window_retold. }
  destruct H1 as [H1 Hc]. clearbody l1.
  match goal with |- exists l', ?e = Ok l' /\ _ => assert (H2 : exists l2, e = Ok l2 /\ layout_step [] [] l1 l2
    /\ Layout.interactive_move l2 = Layout.interactive_move l1 /\ Layout.id_counter l2 = Layout.id_counter l1) end.
  { apply each_workspace_spec; [apply H1|unfold roomy; by rewrite Hc|]. intros w _ Hw. eexists. split; [done|].
    apply retold_same; [exact Hw|]. by apply map_windows_retold. }
  destruct H2 as (l2 & He & H2 & _). exists l2. split; [exact He|]. by eapply layout_step_trans.
Qed.

(** Whether [x] only pretends to be fullscreen. *)
Definition windowed x l : bool := existsb (fun win : W => bool_decide (win_id win = x) && is_pending_windowed_fullscreen win) (all_windows kin st l).
(** Leaving windowed fullscreen is between the window and its client; otherwise the
    workspace with the window does it. *)
Definition fullscreen_set x b l l' : Prop :=
  if negb b && windowed x l then True
  else exists p, place_of kin st (Found x) l = Ok p /\ op_done kin st (WSetFullscreen x b) l p l'.
Lemma set_fullscreen_ok cv x b l :
  layout_ok l -> roomy l -> cv_ok cv ->
  exists l', set_fullscreen kin st cv x b l = Ok l' /\ layout_step [] [] l l' /\ fullscreen_set x b l l'.
Proof.
  intros Hok Hr Hcv. unfold set_fullscreen, fullscreen_set. cbv zeta. fold (windowed x l). destruct (negb b && windowed x l).
  - match goal with |- context [with_windows_mut _ _ ?f l] => destruct (with_windows_ok f l) as (l' & -> & Hs) end; try done; [|by exists l'].
    intros win. destruct (bool_decide _); [|done]. cbn [andb]. destruct (is_pending_windowed_fullscreen win) eqn:E; [|done]. by apply end_windowed_told.
  - rewrite on_found_eq. destruct (on_target_ok kin Hac st Hst cv (Found x) (WSetFullscreen x b) l) as (p & l' & Hp & He & Hs & Hd); try done.
    + intros w Hn. by apply Hn.
    + exists l'. split; [exact He|]. split; [done|by exists p].
Qed.

Lemma first_workspace_ok (f : Workspace.Workspace -> res (bool * Workspace.Workspace)) l :
  layout_ok l -> roomy l -> (forall w, ws_ok w -> tame kin Hac st Hst f w) -> exists b l', first_workspace kin st f l = Ok (b, l') /\ layout_step [] [] l l'.
Proof.
  intros Hok Hr Hf. unfold first_workspace. cbv zeta. match goal with |- context [first_ws ?h _] => set (g := h) end.
  assert (Hg : forall w, ws_ok w -> tame kin Hac st Hst g w).
  { intros w Hw. destruct (Hf w Hw) as (b & w' & He & Hs). unfold g, tame. rewrite He. by eexists _, w'. }
  pose proof (lo_set l Hok) as Hn. destruct (Layout.monitor_set l) as [mons pr a|wss] eqn:Es.
  - destruct (first_step_in (on_first_ws kin st g) l mons pr a) as (o & mons' & c' & -> & _ & _ & Hl); try done.
    + apply (on_first_harmless kin Hac st Hst). intros m w _ _. apply Hg.
    + cbn [mbind res_bind]. eexists _, _. split; [done|]. apply Hl, Hn.
  - destruct (first_ws_ok kin Hac st Hst g wss) as (o & wss' & -> & HF); [apply Hn| |].
    { apply Forall_forall. intros w Hw. apply Hg. exact (proj1 (Forall_forall _ _) (un_ok _ _ Hn) w Hw). }
    cbn [mbind res_bind]. eexists _, _. split; [done|]. apply set_step; [done|apply Hok|done|lia|by eapply unplugged_moved, same_moved|].
    unfold Layout.workspaces. cbn. rewrite Es. by rewrite (moved_wins _ _ (same_moved _ _ HF)).
Qed.
Lemma descendants_added_ok cv x l :
  layout_ok l -> roomy l -> cv_ok cv -> exists b l', descendants_added kin st x l = Ok (b, l') /\ layout_step [] [] l l'.
Proof. intros Hok Hr Hcv. apply first_workspace_ok; [done..|]. intros w Hw. by apply (op_tame kin Hac st Hst cv (WDescendantsAdded x)). Qed.
Lemma start_open_ok cv x l :
  layout_ok l -> roomy l -> cv_ok cv -> exists l', start_open_animation_for_window kin st cv x l = Ok l' /\ layout_step [] [] l l'.
Proof.
  intros Hok Hr Hcv. unfold start_open_animation_for_window. match goal with |- context [if ?b then _ else _] => destruct b end; [exists l; split; [done|by apply step_same]|].
  destruct (first_workspace_ok (Workspace.start_open_animation cv x) l) as (b & l' & He & Hs); [done..| |].
  - intros w Hw. by apply (op_tame kin Hac st Hst cv (WStartOpenAnimation x)).
  - unfold drop. rewrite He. by exists l'.
Qed.

(** ** Queries *)
Lemma amount_ok x (w : Workspace.Workspace) : real_ok kin w -> x ∈ ws_windows (w : WS) -> exists r, Workspace.scroll_amount_to_activate x w = Ok r.
Proof.
  intros [Hw _] Hx. change (x ∈ (Tile.id <$> Workspace.tiles w)) in Hx. rewrite tiles_windows in Hx. unfold Workspace.scroll_amount_to_activate.
  rewrite floating_contains. case_bool_decide as Hf; [by eexists|]. apply elem_of_app in Hx as [Hx|?]; [|done].
  destruct (proj1 (runs_ok _ _) (scroll_amount_runs x _ (wo_scrolling _ _ Hw) Hx)) as (r & Hr & _). by exists r.
Qed.
Lemma scroll_amount_ok x l : layout_ok l -> exists r, scroll_amount_to_activate kin st x l = Ok r.
Proof.
  intros Hok. unfold scroll_amount_to_activate. match goal with |- context [if ?b then _ else _] => destruct b end; [by eexists|].
  match goal with |- context [find ?f ?ws] => destruct (find f ws) as [w|] eqn:Ef end; [|by eexists].
  apply find_some in Ef as [Hin%list_elem_of_In Hx%has_window_true]. apply list_elem_of_bind in Hin as (m & Hin & Hm).
  destruct (monitors_workspace kin Hac st Hst l m w Hok Hm Hin) as [Hw _]. by apply amount_ok.
Qed.
Lemma focus_follows_ok x l :
  layout_ok l -> (x : Win) ∈ Layout.windows l -> exists b, should_trigger_focus_follows_mouse_on kin st x l = Ok b.
Proof.
  intros Hok Hx. unfold should_trigger_focus_follows_mouse_on, is_moving, Layout.is_moving, Layout.windows, Layout.workspaces, Layout.moving_windows in *.
  match goal with |- context [if ?b then _ else _] => destruct b eqn:Em end; [by eexists|].
  assert (Hp : x ∈ (Layout.workspaces l ≫= ws_windows)).
  { apply elem_of_app in Hx as [Hx|Hx]; [|exact Hx]. exfalso. destruct (Layout.interactive_move l) as [[|mv]|]; try by apply elem_of_nil in Hx.
    apply list_elem_of_singleton in Hx. by rewrite bool_decide_eq_true_2 in Em. }
  unfold Layout.workspaces in Hp. destruct (Layout.monitor_set l) as [mons p a|wss]; [|by eexists].
  rewrite mons_windows in Hp. destruct (monitor_with_window_ok x mons Hp) as (i & m & Hi & Hm & Hxm). rewrite Hi. cbn [unwrap mbind res_bind].
  rewrite (index_ok _ _ _ Hm). cbn [mbind res_bind]. unfold window_idx. rewrite position_has.
  destruct (window_at x _ Hxm) as (j & w & Hj & _). rewrite Hj. cbn [unwrap mbind res_bind]. by eexists.
Qed.
End frame.

(** ** Focus and activation *)
Lemma windows_unique {A} (cols : list (list A * nat)) i j i' j' c c' x :
  NoDup (cols ≫= fst) -> cols !! i = Some c -> c.1 !! j = Some x -> cols !! i' = Some c' -> c'.1 !! j' = Some x -> i = i' /\ j = j'.
Proof.
  revert i i'. induction cols as [|d cols IH]; intros i i' Hn Hi Hj Hi' Hj'; [done|]. cbn in Hn. apply NoDup_app in Hn as (H1 & H2 & H3).
  assert (Hin : forall k e y l, cols !! k = Some e -> e.1 !! l = Some y -> y ∈ (cols ≫= fst)).
  { intros k e y l Hk Hl. apply list_elem_of_bind. exists e. split; by eapply list_elem_of_lookup_2. }
  destruct i as [|i], i' as [|i']; cbn in Hi, Hi'.
  - injection Hi as ->. injection Hi' as ->. split; [done|]. by apply (NoDup_lookup c'.1 j j' x).
  - injection Hi as ->. exfalso. apply (H2 x); [by eapply list_elem_of_lookup_2|exact (Hin _ _ _ _ Hi' Hj')].
  - injection Hi' as ->. exfalso. apply (H2 x); [by eapply list_elem_of_lookup_2|exact (Hin _ _ _ _ Hi Hj)].
  - destruct (IH i i' H3 Hi Hj Hi' Hj') as [-> ->]. done.
Qed.

Section activation.
Context {LE : LayoutElement} {GE : Geometry} {GL : GeometryLaws} {LM : Libm} {KF : Keyframe} {OU : Outputs} {WSt : WindowState}.
Context (kin : Id -> Id -> bool).
Implicit Types (w : Workspace.Workspace).
Import Frame.

(** With [deactivate_unfocused_windows] a window is told that it is activated exactly
    when it has the focus. *)
Definition unfocused_deactivated w : Prop :=
  deactivate_unfocused_windows (ScrollingSpace.options (Workspace.scrolling w)) = true
  /\ deactivate_unfocused_windows (FloatingSpace.options (Workspace.floating w)) = true.
Definition has_focus (w : Workspace.Workspace) (x : Id) : bool := bool_decide (v_focused (view w) = Some x).

Lemma column_activated w a f i j c t :
  WorkspaceInv.ws_ok kin w -> unfocused_deactivated w -> ScrollingSpace.columns (Workspace.scrolling w) !! i = Some c -> Column.tiles c !! j = Some t ->
  activated (column_told (Workspace.scrolling w) (a && negb (Workspace.is_active_floating w)) f i j c (Tile.window t)) = a && f && has_focus w (Tile.id t).
Proof.
  intros [Hw [Hnd _]] [Hd _] Hc Ht. unfold has_focus, v_focused. rewrite is_active_view. cbn [column_told activated]. rewrite Hd.
  pose proof (proj1 (NoDup_app _ _) Hnd) as (Hg & Hdis & _).
  assert (Hcol : g_cols (v_grid (view w)) !! i = Some (gcol c)) by (cbn; rewrite list_lookup_fmap, Hc; done).
  assert (Hx : (gcol c).1 !! j = Some (Tile.id t)) by (cbn; unfold ids; by rewrite list_lookup_fmap, Ht).
  assert (Hin : Tile.id t ∈ g_windows (v_grid (view w))).
  { apply list_elem_of_bind. exists (gcol c). split; by eapply list_elem_of_lookup_2. }
  destruct (v_floats (view w)) eqn:Ef; cbn [negb].
  - rewrite (bool_decide_eq_false_2 (p_active _ = _)), !andb_false_r; [done|]. intros Hp. apply (Hdis _ Hin).
    pose proof (sane_pile _ (ws_sane kin w Hw)) as Hs. by rewrite Hp in Hs.
  - rewrite andb_true_r. assert (He : bool_decide (focused (v_grid (view w)) = Some (Tile.id t))
      = bool_decide (ScrollingSpace.active_column_idx (Workspace.scrolling w) = i) && bool_decide (Column.active_tile_idx c = j)).
    { case_bool_decide as Hf.
      - unfold focused, active_of in Hf. destruct (g_cols (v_grid (view w)) !! g_active (v_grid (view w))) as [d|] eqn:Ed; [|done]. cbn [mbind option_bind] in Hf.
        destruct (windows_unique _ _ _ _ _ _ _ _ Hg Hcol Hx Ed Hf) as [Hi Hj]. rewrite <-Hi, Hcol in Ed. injection Ed as <-.
        by rewrite !bool_decide_eq_true_2.
      - symmetry. apply andb_false_iff. case_bool_decide as Hi; [right|by left]. apply bool_decide_eq_false_2. intros Hj. apply Hf.
        unfold focused, active_of. change (g_active (v_grid (view w))) with (ScrollingSpace.active_column_idx (Workspace.scrolling w)).
        rewrite Hi, Hcol. cbn [mbind option_bind]. change (gcol c).2 with (Column.active_tile_idx c). by rewrite Hj. }
    rewrite He. destruct a, f; cbn; try done; by rewrite ?andb_false_r, ?andb_true_r.
Qed.
Lemma floating_activated w a f t :
  WorkspaceInv.ws_ok kin w -> unfocused_deactivated w -> t ∈ FloatingSpace.tiles (Workspace.floating w) ->
  activated (floating_told (Workspace.floating w) (a && Workspace.is_active_floating w) f (Tile.window t)) = a && f && has_focus w (Tile.id t).
Proof.
  intros [Hw [Hnd _]] [_ Hd] Ht. unfold has_focus, v_focused. rewrite is_active_view. cbn [floating_told activated]. rewrite Hd.
  pose proof (proj1 (NoDup_app _ _) Hnd) as (Hg & Hdis & _).
  assert (Hin : Tile.id t ∈ p_ids (v_pile (view w))) by by apply list_elem_of_fmap_2.
  destruct (v_floats (view w)) eqn:Ef.
  - change (p_active (v_pile (view w))) with (FloatingSpace.active_window_id (Workspace.floating w)). unfold Tile.id.
    destruct a, f; cbn; try done; by rewrite ?andb_false_r, ?andb_true_r.
  - rewrite (bool_decide_eq_false_2 (focused _ = _)), !andb_false_r; [done|]. intros Hf. apply (Hdis (Tile.id t)); [|done].
    unfold focused, active_of in Hf. destruct (g_cols (v_grid (view w)) !! g_active (v_grid (view w))) as [d|] eqn:Ed; [|done].
    apply list_elem_of_bind. exists d. split; [|by eapply list_elem_of_lookup_2]. by apply (list_elem_of_lookup_2 _ d.2).
Qed.
End activation.
