(* ===== verification/Activation.v ===== *)
(** * Who is told to be activated

    After a [refresh] (src/layout/mod.rs) the windows that have been told that they are
    activated, and the focus of the layout: the refresh of every workspace, of every
    monitor and of the layout, with [deactivate_unfocused_windows]. *)

From stdpp Require Import base numbers option list strings gmap.
From Stdlib Require Import ZArith Lia SpecFloat.
From S2P Require Import Prelude.
From S2P Require Import Runs.
From S2P Require Import F64.
From S2P Require Import Duration.
From S2P Require Import Clock.
From S2P Require Import Animation.
From S2P Require Import AnimTotal.
From S2P Require Import OutputName.
From S2P Require Import LayoutTypes.
From S2P Require Import Tile.
From S2P Require Import TileInv.
From S2P Require Import TileGeometry.
From S2P Require Import Floating.
From S2P Require Import FloatingStack.
From S2P Require Import FloatingInv.
From S2P Require Import Column.
From S2P Require Import ColumnInv.
From S2P Require Import Scrolling.
From S2P Require Import ScrollingSpec.
From S2P Require Import ScrollingGrid.
From S2P Require Import ScrollingInv.
From S2P Require Import ScrollingOps.
From S2P Require Import ScrollingMoves.
From S2P Require Import ScrollingTiles.
From S2P Require Import ScrollingViews.
From S2P Require Import Positions.
From S2P Require Import ScrollingThms.
From S2P Require Import FloatingOps.
From S2P Require Import FloatingThms.
From S2P Require Import Workspace.
From S2P Require Import WorkspaceInv.
From S2P Require Import WorkspaceSpec.
From S2P Require Import WorkspaceOps.
From S2P Require Import WorkspaceTiling.
From S2P Require Import WorkspaceRoutes.
From S2P Require Import WorkspaceThms.
From S2P Require Import WorkspaceLabels.
From S2P Require Import Interface.
From S2P Require Import Monitor.
From S2P Require Import MonitorIds.
From S2P Require Import MonitorInv.
From S2P Require Import MonitorOps.
From S2P Require Import MonitorOps2.
From S2P Require Import MonitorThms.
From S2P Require Import MonitorGeometry.
From S2P Require Import Layout.
From S2P Require Import LayoutInv.
From S2P Require Import LayoutHotplug.
From S2P Require Import LayoutWindows.
From S2P Require Import LayoutMoves.
From S2P Require Import LayoutRest.
From S2P Require Import LayoutThms.
From S2P Require Import LayoutReal.
From S2P Require Import LayoutActions.
From S2P Require Import LayoutPlaces.
From S2P Require Import LayoutActionsThms.
From S2P Require Import LayoutDrag.
From S2P Require Import LayoutDragThms.
From S2P Require Import HitTest.
From S2P Require Import LayoutDrop.
From S2P Require Import LayoutFrame.
From S2P Require Import LayoutFrameThms.

(** What a window was last told of its activation; only [set_activated] changes it. *)
Class Activation `{LE : !LayoutElement} `{!WindowState} := {
  win_activated : W -> bool;
  set_activated_sets b w : win_activated (set_activated b w) = b;
  set_bounds_activated b w : win_activated (set_bounds b w) = win_activated w;
  set_interactive_resize_activated e w : win_activated (set_interactive_resize e w) = win_activated w;
  send_pending_configure_activated w : win_activated (send_pending_configure w) = win_activated w;
  win_refresh_activated w : win_activated (win_refresh w) = win_activated w
}.

(** ** What ending and beginning gestures keeps *)
Section gestures.
Context {LE : LayoutElement} {GE : Geometry} {LM : Libm} {KF : Keyframe}.
Implicit Types (cv : ClockView) (s : ScrollingSpace.ScrollingSpace).
Import ScrollingSpace.

Lemma animate_columns cv x i p s s' :
  animate_view_offset_to_column cv x i p s = Ok s' -> columns s' = columns s /\ active_column_idx s' = active_column_idx s.
Proof.
  unfold animate_view_offset_to_column, animate_view_offset_to_column_with_config, animate_view_offset_with_config. intros H.
  bind H as [o|] eqn E. bind H as [a|] eqn E1. bind H as [b|] eqn E2. bind H as [v|] eqn E3. by injection H as <-.
Qed.
Lemma gesture_end_columns cv tp s b s' : view_offset_gesture_end cv tp s = Ok (b, s') -> columns s' = columns s.
Proof.
  unfold view_offset_gesture_end. destruct (view_offset s) as [| |g]; [by intros [= _ <-]..|].
  match goal with |- context [if ?b then _ else _] => destruct b end; [by intros [= _ <-]|]. intros H.
  bind H as [t|] eqn E1. bind H as [v|] eqn E2. cbv zeta in H. destruct (is_empty s); [by injection H as _ <-|].
  bind H as [p|] eqn E3. bind H as [snaps|] eqn E4. bind H as [u|] eqn E5. bind H as [x|] eqn E6. bind H as [u'|] eqn E7.
  bind H as [snap|] eqn E8. bind H as [i|] eqn E9. bind H as [y|] eqn E10. bind H as [a|] eqn E11. bind H as [s1|] eqn E12. injection H as _ <-.
  apply animate_columns in E12 as [-> _]. cbn. by destruct (bool_decide _).
Qed.
Lemma dnd_begin_grid cv s s' : dnd_scroll_gesture_begin cv s = Ok s' -> columns s' = columns s /\ grid s' = grid s.
Proof.
  unfold dnd_scroll_gesture_begin. destruct (ViewOffset.is_dnd_scroll _); [by intros [= <-]|]. intros H. bind H as [v|] eqn E. by injection H as <-.
Qed.
Lemma dnd_end_columns cv s s' : dnd_scroll_gesture_end cv s = Ok s' -> columns s' = columns s.
Proof.
  unfold dnd_scroll_gesture_end. destruct (view_offset s) as [| |g] eqn:Ev; [by intros [= <-]..|]. destruct (_ && _).
  - cbv zeta. destruct (is_empty _); [by intros [= <-]|]. intros H. by apply animate_columns in H as [-> _].
  - intros H. bind H as [[b s1]|] eqn E. injection H as <-. by apply gesture_end_columns in E.
Qed.
End gestures.

(** ** One workspace *)
Section workspace.
Context {LE : LayoutElement} {GE : Geometry} {GL : GeometryLaws} {LM : Libm} {KF : Keyframe} {OU : Outputs} {WSt : WindowState} {WSL : WindowStateLaws}
  {AC : Activation}.
Context (kin : Id -> Id -> bool).
Implicit Types (cv : ClockView) (w : Workspace.Workspace).
Import Frame.

Lemma told_activation i x win : win_activated (configured i (tell x win)) = activated x.
Proof.
  unfold configured. rewrite win_refresh_activated. assert (H : win_activated (tell x win) = activated x).
  { unfold tell. by rewrite set_bounds_activated, set_interactive_resize_activated, set_activated_sets. }
  destruct (may_send i); by rewrite ?send_pending_configure_activated.
Qed.

(** Every window of a workspace that has been refreshed knows whether it is activated. *)
Definition all_told (a : bool) w : Prop :=
  forall t, t ∈ Workspace.tiles w -> win_activated (Tile.window t) = a && has_focus w (Tile.id t).

Lemma refreshed_told a f w :
  WorkspaceInv.ws_ok kin w -> unfocused_deactivated w -> all_told (a && f) (refresh_workspace a f w).
Proof.
  intros Hok Hd t Ht. pose proof (retold_view kin w _ (proj1 Hok) (refresh_retold a f w)) as (_ & _ & Hv). unfold has_focus. rewrite <-Hv. fold (has_focus w (Tile.id t)).
  apply elem_of_app in Ht as [Ht|Ht].
  - apply list_elem_of_bind in Ht as (c' & Ht & Hc). apply list_elem_of_lookup in Hc as [i Hc]. apply list_elem_of_lookup in Ht as [j Ht].
    change (imap (refresh_column (Workspace.scrolling w) (a && negb (Workspace.is_active_floating w)) f) (ScrollingSpace.columns (Workspace.scrolling w)) !! i = Some c') in Hc.
    rewrite list_lookup_imap in Hc. destruct (ScrollingSpace.columns (Workspace.scrolling w) !! i) as [c|] eqn:Ec; [|done]. injection Hc as <-.
    cbn [refresh_column Column.tiles Column.set_tiles] in Ht. rewrite list_lookup_imap in Ht. destruct (Column.tiles c !! j) as [t0|] eqn:Et; [|done]. injection Ht as <-.
    assert (Hid : forall f, (forall win, told win (f win)) -> Tile.id (on_window f t0) = Tile.id t0) by (intros g Hg; apply (Hg (Tile.window t0))).
    rewrite Hid by (intros win; etransitivity; [apply tell_told|apply configured_told]).
    rewrite <-(column_activated kin w a f i j c t0 Hok Hd Ec Et). apply told_activation.
  - change (t ∈ (FloatingSpace.tiles (refresh_floating (a && Workspace.is_active_floating w) f (Workspace.floating w)))) in Ht.
    apply list_elem_of_fmap in Ht as (t0 & -> & Ht).
    assert (Hid : forall f, (forall win, told win (f win)) -> Tile.id (on_window f t0) = Tile.id t0) by (intros g Hg; apply (Hg (Tile.window t0))).
    rewrite Hid by (intros win; etransitivity; [apply tell_told|apply configured_told]).
    rewrite <-(floating_activated kin w a f t0 Hok Hd Ht). apply told_activation.
Qed.

(** Ending or beginning gestures leaves the windows; only where the view is let go of
    may the focus move. *)
Lemma settle_keeps cv lock oo active w w' :
  settle_workspace cv lock oo active w = Ok w' ->
  Workspace.tiles w' = Workspace.tiles w /\ (lock = Some true \/ lock = None /\ active = true -> view w' = view w).
Proof.
  unfold settle_workspace, Workspace.tiles, ScrollingSpace.tiles. destruct lock as [[]|]; intros H.
  - unfold Workspace.dnd_scroll_gesture_begin, Workspace.on_scrolling in H. bind H as [s|] eqn E. injection H as <-. apply dnd_begin_grid in E as [E1 E2].
    cbn. rewrite E1. split; [done|]. intros _. unfold view. cbn. by rewrite E2.
  - unfold Workspace.dnd_scroll_gesture_end, Workspace.on_scrolling in H. bind H as [s|] eqn E. injection H as <-. apply dnd_end_columns in E. cbn. rewrite E.
    split; [done|]. by intros [|[]].
  - destruct (negb oo && negb active) eqn:Ea; [|by injection H as <-]. apply andb_true_iff in Ea as [_ ->%negb_true_iff].
    unfold Workspace.second, Workspace.view_offset_gesture_end, Workspace.scrolling_returns in H. bind H as [[b w1]|] eqn E. injection H as <-.
    bind E as [[b1 s]|] eqn E1. injection E as _ <-. apply gesture_end_columns in E1. cbn. rewrite E1. split; [done|]. by intros [|[]].
Qed.
Lemma settled_told cv lock oo a active w w' :
  WorkspaceInv.ws_ok kin w -> unfocused_deactivated w -> (lock = Some false -> a = false) ->
  settle_workspace cv lock oo active (refresh_workspace a (a && active) w) = Ok w' -> all_told (a && active) w'.
Proof.
  intros Hok Hd Hl He. destruct (settle_keeps _ _ _ _ _ _ He) as [Ht Hv]. intros t. rewrite Ht. intros Hin.
  rewrite (refreshed_told a (a && active) w Hok Hd t Hin). destruct a; [|done]. destruct active; [|done]. cbn. unfold has_focus.
  rewrite Hv; [done|]. destruct lock as [[]|]; [by left|by specialize (Hl eq_refl)|by right].
Qed.
End workspace.

(** ** Every workspace of the layout *)
Lemma for_each_lookup {A} (f : A -> res A) (xs ys : list A) i y :
  for_each f xs = Ok ys -> ys !! i = Some y -> exists x, xs !! i = Some x /\ f x = Ok y.
Proof.
  revert ys i. induction xs as [|x xs IH]; cbn; intros ys i H Hi; [by injection H as <-|].
  bind H as [z|] eqn E. bind H as [zs|] eqn E'. injection H as <-. destruct i as [|i]; [injection Hi as <-; by exists x|]. by apply (IH zs).
Qed.

Section layout.
Context {LE : LayoutElement} {LEL : LayoutElementLaws} {GE : Geometry} {GL : GeometryLaws} {LM : Libm} {KF : Keyframe} {OU : Outputs}
  {SM : Smithay} {RE : Rectangles} {HR : HitRegions} {WSt : WindowState} {WSL : WindowStateLaws} {AC : Activation}.
Context (kin : Id -> Id -> bool) (Hac : acyclic kin) (st : WOutput -> OutputState) (Hst : outputs_ok st).
#[local] Hint Extern 0 WorkspaceOps => exact (real_ops kin st) : typeclass_instances.
#[local] Hint Extern 0 LayoutOps => exact (real_layout_ops kin st) : typeclass_instances.
#[local] Hint Extern 0 WorkspaceLaws => exact (real_laws kin Hac st Hst) : typeclass_instances.
#[local] Hint Extern 0 LayoutLaws => exact (real_layout_laws kin Hac st Hst) : typeclass_instances.
Abbreviation Lay := Layout.Layout.
Abbreviation Mon := Monitor.Monitor.
Implicit Types (cv : ClockView) (w : WS) (l : Lay) (m : Mon).
Import Actions.
Import Drag.
Import Frame.

Lemma scroll_workspaces cv now lock oo m m' :
  scroll_with_drag kin st cv now lock oo m = Ok m' -> Monitor.workspaces m' = Monitor.workspaces m.
Proof.
  unfold scroll_with_drag. match goal with |- context [if ?b then _ else _] => destruct b end.
  - unfold Monitor.dnd_scroll_gesture_begin. cbv zeta. match goal with |- context [if ?b then _ else _] => destruct b end; [by intros [= <-]|].
    destruct (negb _); [by intros [= <-]|]. destruct (Monitor.workspace_render_idx cv m); cbn; [|done]. by intros [= <-].
  - destruct (negb oo); [apply dnd_end_workspaces|by intros [= <-]].
Qed.

(** The workspaces of a monitor: the one in front may have the focus. *)
Definition monitor_told (a : bool) m : Prop :=
  forall j w, Monitor.workspaces m !! j = Some w -> all_told (a && bool_decide (j = Monitor.active_workspace_idx m)) w.
Definition tellable (w : Workspace.Workspace) : Prop := WorkspaceInv.ws_ok kin w /\ unfocused_deactivated w.

Lemma monitor_refreshed cv now lock oo a m m' :
  (forall w, w ∈ Monitor.workspaces m -> tellable w) -> (lock = Some false -> a = false) ->
  refresh_monitor kin st cv now lock oo a m = Ok m' -> monitor_told a m'.
Proof.
  intros Hw Hl H. unfold refresh_monitor in H. bind H as [m1|] eqn E1. apply scroll_workspaces in E1. unfold refresh_workspaces in H.
  bind H as [wss|] eqn E2. injection H as <-. intros j w Hj. cbn in Hj |- *.
  destruct (iter_mut_lookup _ _ _ _ _ _ E2 Hj) as (w0 & Hw0 & He). cbv beta zeta in He. rewrite E1 in Hw0.
  destruct (Hw w0) as [Hok Hd]; [by eapply list_elem_of_lookup_2|].
  rewrite Nat.add_0_l in He. by eapply (settled_told kin); [exact Hok|exact Hd|exact Hl|exact He].
Qed.

Lemma each_refreshed (f : nat -> Mon -> res Mon) i mons c mons' c' k m' :
  each_monitor_idx kin st f i mons c = Ok (mons', c') -> mons' !! k = Some m' ->
  exists m c0, mons !! k = Some m /\ f (i + k)%nat (Monitor.set_counter c0 m) = Ok m'.
Proof.
  revert i c mons' k. induction mons as [|m mons IH]; cbn; intros i c mons' k H Hk; [by injection H as <- _|].
  bind H as [m1|] eqn E1. bind H as [[ms c1]|] eqn E2. injection H as <- <-. destruct k as [|k].
  - injection Hk as <-. exists m, c. split; [done|]. by rewrite Nat.add_0_r.
  - destruct (IH _ _ _ k E2 Hk) as (m2 & c0 & Hm & He). exists m2, c0. split; [done|]. by rewrite <-plus_n_Sm.
Qed.

(** Every window that is in place: [b] is whether the focus may be with one of them. *)
Definition layout_told (b : bool) l : Prop :=
  match Layout.monitor_set l with
  | Layout.Normal mons _ active => forall i m, mons !! i = Some m -> monitor_told (b && bool_decide (i = active)) m
  | Layout.NoOutputs wss => forall w, w ∈ wss -> all_told false w
  end.
(** The window that is grabbed, but not moved yet, is in the tiling layout.  (The view
    gesture on the workspaces is ended for a floating one, after the windows have been
    told, and that may move the focus.) *)
Definition grabbed_tiled (dnd : option DndData) l : Prop :=
  match dnd, Layout.interactive_move l with
  | None, Some (Layout.Starting x _ _) => forall w, w ∈ Layout.workspaces l -> Workspace.is_floating x w = false
  | _, _ => True
  end.
Lemma locks_tiled dnd l : grabbed_tiled dnd l -> locks_view kin st dnd l = Ok (Some false) -> is_moving_now kin st l = true.
Proof.
  unfold grabbed_tiled, locks_view, is_moving_now. destruct dnd; [done|]. destruct (Layout.interactive_move l) as [[x d r|mv]|]; [|done|done].
  intros Hg H. destruct (find _ _) as [w|] eqn:Ef; [|done]. cbn in H. apply find_some in Ef as [Hin%list_elem_of_In _]. by rewrite (Hg w Hin) in H.
Qed.
Definition moved_activated l : Prop :=
  forall mv, Layout.interactive_move l = Some (Layout.Moving mv) -> win_activated (Tile.window (Layout.im_tile mv : Tile.Tile)) = true.

Lemma refresh_told cv now (is_active : bool) dnd l l' :
  (forall w, w ∈ Layout.workspaces l -> tellable w) -> grabbed_tiled dnd l -> refresh kin st cv now is_active dnd l = Ok l' ->
  layout_told (is_active && negb (is_moving_now kin st l')) l' /\ moved_activated l'.
Proof.
  intros Hw Hg H. pose proof (locks_tiled dnd l Hg) as Hl. unfold refresh in H. destruct (locks_view kin st dnd l) as [lock|]; [|done].
  cbn [mbind res_bind] in H. cbv zeta in H.
  match type of H with context [Layout.monitor_set ?v] => set (l1 := v) in * end.
  assert (H1 : Layout.monitor_set l1 = Layout.monitor_set l /\ is_moving_now kin st l1 = is_moving_now kin st l /\ moved_activated l1).
  { unfold l1, is_moving_now, moved_activated. destruct (Layout.interactive_move l) as [[x d r|mv]|] eqn:Em; rewrite ?Em; [by split_and!| |by split_and!].
    split_and!; [done..|]. intros mv' [= <-]. cbn. rewrite win_refresh_activated, send_pending_configure_activated. unfold tell.
    by rewrite set_bounds_activated, set_interactive_resize_activated, set_activated_sets. }
  destruct H1 as (Em & Emv & Ha). clearbody l1. unfold Layout.workspaces in Hw. rewrite <-Em in Hw. rewrite <-Emv in Hl.
  destruct (Layout.monitor_set l1) as [mons p a|wss].
  - bind H as [[mons' c']|] eqn E. injection H as <-. split; [|exact Ha]. intros i m' Hi. cbn [Layout.set_monitor_set] in *.
    destruct (each_refreshed _ _ _ _ _ _ _ _ E Hi) as (m & c0 & Hm & He). rewrite Nat.add_0_l in He.
    replace (is_active && negb (is_moving_now kin st (Layout.set_monitor_set (Layout.Normal mons' p a) c' l1)) && bool_decide (i = a))
      with (is_active && bool_decide (i = a) && negb (is_moving_now kin st l1))
      by (change (is_moving_now kin st (Layout.set_monitor_set _ _ l1)) with (is_moving_now kin st l1); by destruct is_active, (bool_decide _), (is_moving_now _ _ _)).
    eapply monitor_refreshed; [| |exact He].
    + intros w Hin. apply Hw. apply list_elem_of_bind. exists m. split; [exact Hin|by eapply list_elem_of_lookup_2].
    + intros ->. rewrite (Hl eq_refl). apply andb_false_r.
  - bind H as [wss'|] eqn E. injection H as <-. split; [|exact Ha]. intros w Hin. cbn in Hin. apply list_elem_of_lookup in Hin as [i Hi].
    destruct (for_each_lookup _ _ _ _ _ E Hi) as (w0 & Hw0 & He). destruct (Hw w0) as [Hok Hd]; [by eapply list_elem_of_lookup_2|].
    apply (settled_told kin cv None false false false w0 w Hok Hd); [done|exact He].
Qed.

Lemma layout_ok_workspace l w : layout_ok l -> w ∈ Layout.workspaces l -> ws_ok w.
Proof.
  intros Hok Hw. unfold Layout.workspaces in Hw. pose proof (lo_set l Hok) as Hset. destruct (Layout.monitor_set l) as [mons p a|wss].
  - apply list_elem_of_bind in Hw as (m & Hw & Hm). destruct Hset. pose proof (proj1 (Forall_forall _ _) (ms_semi _ _ no_mons) m Hm) as Hs.
    apply list_elem_of_lookup in Hw as [i Hi]. by eapply lookup_ws_ok.
  - destruct Hset. exact (proj1 (Forall_forall _ _) un_ok w Hw).
Qed.
Lemma active_window_in (w : Workspace.Workspace) :
  WorkspaceInv.ws_ok kin w ->
  exists r, Workspace.active_window w = Ok r
    /\ match r with Some x => x ∈ (Tile.id <$> Workspace.tiles w) | None => (Tile.id <$> Workspace.tiles w) = [] end.
Proof.
  intros [Hw Hv]. destruct (proj1 (runs_ok _ _) (active_window_runs kin w Hw)) as (o & He & ->). exists (WorkspaceSpec.v_focused (view w)).
  split; [done|]. rewrite tiles_windows. pose proof (ws_sane kin w Hw) as Hs.
  destruct (decide (v_windows (view w) = [])) as [Hn|Hn].
  - destruct (WorkspaceSpec.v_focused (view w)) as [x|] eqn:E; [|done]. by destruct (WorkspaceSpec.no_window_focused _ x Hs E).
  - by destruct (WorkspaceSpec.v_focused_in (view w) Hs (proj2 Hv) Hn) as (x & -> & Hx).
Qed.

(** The workspace in front, if an output is connected. *)
Lemma active_workspace_in l :
  layout_ok l ->
  match Layout.monitor_set l with
  | Layout.Normal mons _ active => exists m (w : Workspace.Workspace), mons !! active = Some m
      /\ Monitor.workspaces m !! Monitor.active_workspace_idx m = Some (w : WS) /\ WorkspaceInv.ws_ok kin w /\ (w : WS) ∈ Layout.workspaces l
  | Layout.NoOutputs _ => True
  end.
Proof.
  intros Hl. pose proof (active_place_spec kin Hac st Hst l Hl) as Ha. unfold active_place, at_place in Ha.
  destruct (Layout.monitor_set l) as [mons p a|wss] eqn:Es; [|done]. destruct Ha as (pl & w & He & Hp).
  unfold index in He. destruct (mons !! a) as [m|] eqn:Em; [|done]. injection He as <-. destruct Hp as (m' & [= <-]%(eq_trans (eq_sym Em)) & Hw).
  exists m, w. assert (Hin : w ∈ Layout.workspaces l).
  { apply (at_workspaces kin st (OnMonitor a (Monitor.active_workspace_idx m))). unfold at_place. rewrite Es. by exists m. }
  split_and!; try done. by apply layout_ok_workspace with l.
Qed.

(** A window is at one place. *)
Lemma nodup_bind_elem {A B} (f : A -> list B) (l : list A) i a : l !! i = Some a -> NoDup (l ≫= f) -> NoDup (f a).
Proof.
  revert i. induction l as [|b l IH]; intros i Hi Hn; [done|]. cbn in Hn. apply NoDup_app in Hn as (H1 & _ & H2).
  destruct i as [|i]; [by injection Hi as <-|]. by apply (IH i).
Qed.
Lemma placed_once l mons p a i i' m m' j j' w w' (x : Win) :
  layout_ok l -> Layout.monitor_set l = Layout.Normal mons p a -> mons !! i = Some m -> mons !! i' = Some m' ->
  Monitor.workspaces m !! j = Some w -> Monitor.workspaces m' !! j' = Some w' -> x ∈ ws_windows w -> x ∈ ws_windows w' -> i = i' /\ j = j'.
Proof.
  intros Hok Es Hi Hi' Hj Hj' Hx Hx'. pose proof (lo_wins l Hok) as Hn. rewrite (windows_normal _ _ _ _ Es) in Hn. apply NoDup_app in Hn as (_ & _ & Hn).
  assert (Hin : forall m j w, Monitor.workspaces m !! j = Some w -> x ∈ ws_windows w -> x ∈ Monitor.windows m).
  { intros m0 j0 w0 Hw Hxw. apply list_elem_of_bind. exists w0. split; [done|by eapply list_elem_of_lookup_2]. }
  assert (Hii : i = i') by exact (nodup_bind Monitor.windows mons i i' m m' x Hn Hi Hi' (Hin _ _ _ Hj Hx) (Hin _ _ _ Hj' Hx')). subst i'.
  split; [done|]. rewrite Hi in Hi'. injection Hi' as <-. apply (nodup_bind_elem Monitor.windows mons i m Hi) in Hn.
  exact (nodup_bind ws_windows (Monitor.workspaces m) j j' w w' x Hn Hj Hj' Hx Hx').
Qed.

Lemma active_focus_told (b : bool) l :
  layout_ok l -> layout_told b l ->
  exists f, active_focus kin st l = Ok f
    /\ forall w t, w ∈ Layout.workspaces l -> t ∈ Workspace.tiles w -> win_activated (Tile.window t) = b && bool_decide (option_map fst f = Some (Tile.id t : Win)).
Proof.
  intros Hok Ht. pose proof (active_workspace_in l Hok) as Ha.
  assert (Hin : forall w t, t ∈ Workspace.tiles w -> (Tile.id t : Win) ∈ ws_windows w) by (intros w t; apply list_elem_of_fmap_2).
  unfold active_focus, layout_told, Layout.workspaces in *. destruct (Layout.monitor_set l) as [mons p a|wss] eqn:Es.
  2:{ eexists. split; [done|]. intros w t Hw Htw. cbn. rewrite (Ht w Hw t Htw). by rewrite andb_false_r. }
  destruct Ha as (m & wa & Ema & Ewa & Hwa & _). rewrite (index_ok _ _ _ Ema). cbn [mbind res_bind].
  rewrite (index_ok _ _ _ Ewa : Monitor.active_workspace m = Ok _). cbn [mbind res_bind].
  change (@ws_active_window (real_ops kin st) wa) with (Workspace.active_window wa). destruct (active_window_in wa Hwa) as (r & Hr & Hrin).
  pose proof (active_window_runs kin wa (proj1 Hwa)) as Hrun. apply runs_ok in Hrun as (r' & Hr' & ->). rewrite Hr in Hr'. injection Hr' as ->.
  rewrite Hr. cbn [mbind res_bind]. eexists. split; [done|]. intros w t Hw Htw.
  apply list_elem_of_bind in Hw as (m' & Hw & Hmm). apply list_elem_of_lookup in Hw as [j Hj]. apply list_elem_of_lookup in Hmm as [i Hi].
  rewrite (Ht i m' Hi j w Hj t Htw), <-!andb_assoc. f_equal.
  replace (option_map fst _) with (WorkspaceSpec.v_focused (view wa) : option Win) by by destruct (WorkspaceSpec.v_focused (view wa)).
  destruct (decide (i = a /\ j = Monitor.active_workspace_idx m')) as [[-> ->]|Hne].
  - rewrite Ema in Hi. injection Hi as <-. rewrite Ewa in Hj. injection Hj as <-. rewrite (bool_decide_eq_true_2 (a = a)), (bool_decide_eq_true_2 (Monitor.active_workspace_idx m = _)) by done. cbn [andb]. unfold has_focus. by apply bool_decide_ext.
  - transitivity false; [|symmetry; apply bool_decide_eq_false_2; intros Hf].
    + apply andb_false_iff. destruct (decide (i = a)) as [->|]; [right|by left; apply bool_decide_eq_false_2].
      apply andb_false_iff. left. apply bool_decide_eq_false_2. intros ->. by apply Hne.
    + rewrite Hf in Hrin. apply Hne. destruct (placed_once l mons p a i a m' m j (Monitor.active_workspace_idx m) w wa (Tile.id t)) as [-> ->]; try done; [by apply Hin|].
      split; [done|]. rewrite Ema in Hi. by injection Hi as <-.
Qed.
(** The windows that have been told that they are activated, and the focus. *)
Lemma focus_activated (b : bool) l :
  layout_ok l -> layout_told (b && negb (is_moving_now kin st l)) l -> moved_activated l ->
  exists f, focus kin st l = Ok f
    /\ (forall w t, w ∈ Layout.workspaces l -> t ∈ Workspace.tiles w ->
          win_activated (Tile.window t) = b && bool_decide (f = Some (Tile.id t : Win)))
    /\ forall mv, Layout.interactive_move l = Some (Layout.Moving mv) ->
          f = Some (tile_win (Layout.im_tile mv)) /\ win_activated (Tile.window (Layout.im_tile mv : Tile.Tile)) = true.
Proof.
  intros Hok Ht Hm. assert (Hin : forall w t, t ∈ Workspace.tiles w -> (Tile.id t : Win) ∈ ws_windows w) by (intros w t; apply list_elem_of_fmap_2).
  destruct (is_moving_now kin st l) eqn:Emv; unfold focus, focus_with_output; unfold is_moving_now in Emv.
  - destruct (Layout.interactive_move l) as [[|mv]|] eqn:Em; [done| |done]. eexists. split; [done|]. split.
    2:{ intros mv' [= <-]. split; [done|]. by apply Hm. }
    intros w t Hw Htw. rewrite bool_decide_eq_false_2.
    2:{ cbn. intros [= He]. pose proof (lo_wins l Hok) as Hn. unfold Layout.windows, Layout.moving_windows in Hn. rewrite Em in Hn.
        apply NoDup_app in Hn as (_ & Hn & _). apply (Hn (Tile.id t)); [rewrite <-He; by left|]. apply list_elem_of_bind. exists w. split; [by apply Hin|done]. }
    rewrite andb_false_r. rewrite andb_false_r in Ht. unfold layout_told, Layout.workspaces in *. destruct (Layout.monitor_set l) as [mons p a|wss].
    + apply list_elem_of_bind in Hw as (m & Hw & Hmm). apply list_elem_of_lookup in Hw as [j Hj]. apply list_elem_of_lookup in Hmm as [i Hi].
      exact (Ht i m Hi j w Hj t Htw).
    + exact (Ht w Hw t Htw).
  - rewrite andb_true_r in Ht.
    assert (Hno : forall mv, Layout.interactive_move l <> Some (Layout.Moving mv)) by (intros mv E; by rewrite E in Emv).
    destruct (active_focus_told b l Hok Ht) as (f & He & Hf). exists (option_map fst f). split_and!; [|exact Hf|].
    + destruct (Layout.interactive_move l) as [[|mv]|]; [by rewrite He|by destruct (Hno mv)|by rewrite He].
    + intros mv E. by destruct (Hno mv).
Qed.
End layout.
