(* ===== verification/LayoutWhole.v ===== *)
(** * The layout as a whole

    Layouts of workspaces as [Workspace] has them, under every operation on
    outputs, workspaces, windows, gestures and the contents of workspaces: what all
    components together promise. *)

From stdpp Require Import base numbers option list strings gmap.
From Stdlib Require Import ZArith Lia SpecFloat.
From S2P Require Import Prelude.
From S2P Require Import Runs.
From S2P Require Import F64.
From S2P Require Import Duration.
From S2P Require Import Clock.
From S2P Require Import Gesture.
From S2P Require Import Animation.
From S2P Require Import AnimTotal.
From S2P Require Import OutputName.
From S2P Require Import LayoutTypes.
From S2P Require Import Tile.
From S2P Require Import TileInv.
From S2P Require Import TileGeometry.
From S2P Require Import Floating.
From S2P Require Import FloatingStack.
From S2P Require Import FloatingInv.
From S2P Require Import Column.
From S2P Require Import ColumnInv.
From S2P Require Import Scrolling.
From S2P Require Import ScrollingSpec.
From S2P Require Import ScrollingMoves.
From S2P Require Import ScrollingThms.
From S2P Require Import FloatingOps.
From S2P Require Import FloatingThms.
From S2P Require Import Workspace.
From S2P Require Import WorkspaceInv.
From S2P Require Import WorkspaceOps.
From S2P Require Import WorkspaceTiling.
From S2P Require Import WorkspaceRoutes.
From S2P Require Import WorkspaceThms.
From S2P Require Import WorkspaceLabels.
From S2P Require Import Interface.
From S2P Require Import Monitor.
From S2P Require Import MonitorIds.
From S2P Require Import MonitorInv.
From S2P Require Import MonitorOps.
From S2P Require Import MonitorOps2.
From S2P Require Import MonitorThms.
From S2P Require Import Layout.
From S2P Require Import LayoutInv.
From S2P Require Import LayoutHotplug.
From S2P Require Import LayoutWindows.
From S2P Require Import LayoutMoves.
From S2P Require Import LayoutRest.
From S2P Require Import LayoutThms.
From S2P Require Import LayoutReal.
From S2P Require Import LayoutActions.
From S2P Require Import LayoutPlaces.
From S2P Require Import OrOutput.
From S2P Require Import LayoutActionsThms.
From S2P Require Import MonitorGeometry.
From S2P Require Import ScrollingViews.
From S2P Require Import LayoutDrag.
From S2P Require Import LayoutDragThms.
From S2P Require Import LayoutDrop.
From S2P Require Import HitTest.
From S2P Require Import LayoutFrame.
From S2P Require Import LayoutFrameThms.
From S2P Require Import Activation.

Section whole.
Context {LE : LayoutElement} {LEL : LayoutElementLaws} {GE : Geometry} {GL : GeometryLaws} {LM : Libm} {KF : Keyframe} {OU : Outputs}
  {SM : Smithay} {RE : Rectangles} {HR : HitRegions} {WSt : WindowState} {WSL : WindowStateLaws} {AC : Activation}.
Context (kin : Id -> Id -> bool) (Hac : acyclic kin) (st : WOutput -> OutputState) (Hst : outputs_ok st).
#[local] Hint Extern 0 WorkspaceOps => exact (real_ops kin st) : typeclass_instances.
#[local] Hint Extern 0 LayoutOps => exact (real_layout_ops kin st) : typeclass_instances.
#[local] Hint Extern 0 WorkspaceLaws => exact (real_laws kin Hac st Hst) : typeclass_instances.
#[local] Hint Extern 0 LayoutLaws => exact (real_layout_laws kin Hac st Hst) : typeclass_instances.
Abbreviation Lay := Layout.Layout.
Abbreviation Mon := Monitor.Monitor.
Implicit Types (cv : ClockView) (w : WS) (x : Win) (l : Lay) (m : Mon).
Import Actions.
Import Drag.
Abbreviation DndData := Frame.DndData.

Abbreviation RealOp := (@LayoutOp (real_ops kin st) (real_layout_ops kin st)).

(** ** Everything that happens to a layout

    The drag and drop operation that some steps depend on may be any. *)
Inductive Step :=
| SOp (op : RealOp)
| SAction (a : Action)
| SOr (a : OrOutput) (o : WOutput)
| SToggleFloating (window : option Id)
| SSetFloating (window : option Id) (b : bool)
| SViewBegin (o : WOutput) (idx : option nat) (touchpad : bool)
| SViewUpdate (dx : f64) (ts : Duration) (touchpad : bool)
| SViewEnd (touchpad : option bool)
| SMoveBegin (x : Id) (o : WOutput) (p : Point)
| SMoveUpdate (x : Id) (delta : Point) (o : WOutput) (p : Point)
| SMoveEnd (x : Id)
| SAdvance (dnd : option DndData)
| SRefresh (is_active : bool) (dnd : option DndData)
| SDndUpdate (o : WOutput) (p : Point) (dnd : option DndData)
| SDndEnd (dnd : option DndData)
| SCommit (x : Id) (win : W) (serial : option Z)
| SSetFullscreen (x : Id) (b : bool)
| SDescendantsAdded (x : Id)
| SOpenAnimation (x : Id).

Definition run_step cv now (s : Step) l : res (list Win * Lay) :=
  match s with
  | SOp op => run_layout_op cv now op l
  | SAction a => changes (run_action kin st cv a l)
  | SOr a o => gives (run_or kin st cv a o l)
  | SToggleFloating window => changes (toggle_window_floating kin st cv window l)
  | SSetFloating window b => changes (set_window_floating kin st cv window b l)
  | SViewBegin o idx tp => changes (view_offset_gesture_begin kin st cv o idx tp l)
  | SViewUpdate dx ts tp => gives (view_offset_gesture_update kin st cv dx ts tp l)
  | SViewEnd tp => gives (view_offset_gesture_end kin st cv tp l)
  | SMoveBegin x o p => gives (interactive_move_begin kin st cv now x o p l)
  | SMoveUpdate x delta o p => gives (interactive_move_update kin st cv now x delta o p l)
  | SMoveEnd x => changes (interactive_move_end kin st cv now x l)
  | SAdvance dnd => gives (Frame.advance_animations kin st cv now dnd l)
  | SRefresh is_active dnd => changes (Frame.refresh kin st cv now is_active dnd l)
  | SDndUpdate o p dnd => gives (Frame.dnd_update kin st cv now o p dnd l)
  | SDndEnd dnd => changes (Frame.dnd_end kin st cv now dnd l)
  | SCommit x win serial => changes (Frame.update_window kin st cv x win serial l)
  | SSetFullscreen x b => changes (Frame.set_fullscreen kin st cv x b l)
  | SDescendantsAdded x => gives (Frame.descendants_added kin st x l)
  | SOpenAnimation x => changes (Frame.start_open_animation_for_window kin st cv x l)
  end.

(** The conditions under which steps are taken: those of [layout_op_pre]; windows that
    are named exist, and the speeds of gestures that end are finite.  For a drag also: the
    monitor that the pointer is on shows a workspace and the arithmetic of positions
    there gives numbers ([drag_pre], [let_go_pre], [frame_pre]).  These two are not
    checked by the code, which panics without them ([insert_position] in
    src/layout/monitor.rs and in src/layout/scrolling.rs unwrap). *)
Definition floats_pre cv (window : option Id) l : Prop :=
  target_known kin st (Target_ window) l /\ forall mv, moved_target kin st window l = Some mv -> can_settle cv l.
Definition step_pre cv now (s : Step) l : Prop :=
  match s with
  | SOp op => layout_op_pre cv op l
  | SAction a => target_known kin st (action_target a) l
  | SOr _ o => connected o l
  | SToggleFloating window | SSetFloating window _ => floats_pre cv window l
  | SViewBegin _ _ _ => has_outputs l /\ can_settle cv l
  | SViewUpdate _ ts _ => ScrollingViews.time_ok ts
  | SViewEnd _ => can_settle cv l
  | SMoveBegin _ _ _ => True
  | SMoveUpdate x delta o _ => drag_pre kin Hac st Hst cv now x delta o l
  | SMoveEnd x => let_go_pre kin Hac st Hst cv now x l
  | SAdvance dnd => frame_pre kin st cv dnd l
  | SRefresh _ _ => can_settle_told kin st cv l
  | SDndUpdate _ _ _ | SSetFullscreen _ _ | SDescendantsAdded _ | SOpenAnimation _ => True
  | SDndEnd dnd => dnd <> None -> can_settle cv l
  | SCommit x win _ => update_pre kin st x win l
  end.
Definition step_ins (s : Step) : list Win := match s with SOp op => layout_op_ins op | _ => [] end.

Lemma run_step_ok cv now s l :
  layout_ok l -> roomy l -> cv_ok cv -> ts_ok now -> step_pre cv now s l ->
  exists outs l', run_step cv now s l = Ok (outs, l') /\ layout_step (step_ins s) outs l l'.
Proof.
  intros Hok Hr Hcv Hnow Hp. destruct s; cbn [run_step step_ins step_pre] in *; try apply changes_ok; try apply gives_ok.
  - by apply run_layout_op_ok.
  - destruct (run_action_ok kin Hac st Hst cv a l) as (p & l' & _ & ? & ? & _); try done. by exists l'.
  - destruct (run_or_ok kin Hac st Hst cv a o l) as (b & l' & ? & ? & _); try done. by exists b, l'.
  - destruct Hp. destruct (toggle_floating_ok kin Hac st Hst cv window l) as (l' & ? & ? & _); try done. by exists l'.
  - destruct Hp. destruct (set_floating_ok kin Hac st Hst cv window b l) as (l' & ? & ? & _); try done. by exists l'.
  - destruct Hp. by apply view_gesture_begin_ok.
  - by apply view_gesture_update_ok.
  - by apply view_gesture_end_ok.
  - destruct (move_begin_ok kin Hac st Hst cv now x o p l) as (b & l' & ? & ? & _); try done. by exists b, l'.
  - destruct (move_update_ok kin Hac st Hst cv now x delta o p l) as (b & l' & ? & ? & _); try done. by exists b, l'.
  - destruct (move_end_ok kin Hac st Hst cv now x l) as (l' & ? & ? & _); try done. by exists l'.
  - by apply advance_animations_ok.
  - by apply refresh_ok.
  - by apply dnd_update_ok.
  - by apply frame_dnd_end_ok.
  - by apply update_window_ok.
  - destruct (set_fullscreen_ok kin Hac st Hst cv x b l) as (l' & ? & ? & _); try done. by exists l'.
  - by apply (descendants_added_ok kin Hac st Hst cv).
  - by apply start_open_ok.
Qed.

(** ** The layouts there are *)
Inductive reachable : Lay -> Prop :=
| reach_start configs o c : start_ok configs o c -> reachable (Layout.with_options_and_workspaces configs o c)
| reach_step cv now s l outs l' :
    reachable l -> roomy l -> cv_ok cv -> ts_ok now -> step_pre cv now s l -> run_step cv now s l = Ok (outs, l') -> reachable l'.

Lemma whole_ok l : reachable l -> layout_ok l.
Proof.
  induction 1 as [configs o c Hs|cv now s l outs l' _ IH Hr Hcv Hnow Hp He]; [by apply start_layout_ok|].
  destruct (run_step_ok cv now s l) as (outs0 & l0 & He0 & [Hok _]); try done. rewrite He in He0. by injection He0 as _ <-.
Qed.
(** ** Properties *)

(** C1: no step panics on a layout that can be reached, under the conditions of
    [step_pre]: windows are accounted for and unique, and every workspace that results is
    in order, down to its columns, tiles and stacks of floating windows. *)
Theorem layout_steps_safe cv now s l :
  reachable l -> roomy l -> cv_ok cv -> ts_ok now -> step_pre cv now s l ->
  exists outs l', run_step cv now s l = Ok (outs, l')
    /\ step_ins s ++ Layout.windows l ≡ₚ outs ++ Layout.windows l' /\ NoDup (Layout.windows l')
    /\ forall w, w ∈ Layout.workspaces l' -> WorkspaceInv.ws_ok kin w.
Proof.
  intros Hl Hr Hcv Hnow Hp. destruct (run_step_ok cv now s l) as (outs & l' & He & Hok & Hw); try done; [by apply whole_ok|].
  exists outs, l'. split_and!; [done|done|apply Hok|]. intros w. by apply (layout_ok_workspace kin Hac st Hst l').
Qed.

(** C2: an action does to one workspace what its operation promises there, and leaves
    everything else as it is: [put] replaces that workspace only. *)
Theorem layout_actions_refine cv a l :
  reachable l -> roomy l -> cv_ok cv -> target_known kin st (action_target a) l ->
  exists p l', place_of kin st (action_target a) l = Ok p /\ run_action kin st cv a l = Ok l'
    /\ op_done kin st (action_op a) l p l' /\ Layout.windows l ≡ₚ Layout.windows l'.
Proof.
  intros Hl Hr Hcv Hk. destruct (run_action_ok kin Hac st Hst cv a l) as (p & l' & Hp & He & [_ Hw] & Hd); try done; [by apply whole_ok|].
  exists p, l'. by split_and!.
Qed.

(** C8: moving the focus or a column on the workspace in front, or else across outputs.
    The result tells which it was: [false] if the workspace did it, and then another
    window of it has the focus, or its columns are in another order (a floating window
    always moves); [true] if it had nothing to do: it is as it was, and the output is
    focused, or gets the column.  No window is lost either way. *)
Theorem or_output_refines cv a o l :
  reachable l -> roomy l -> cv_ok cv -> connected o l ->
  exists b l', run_or kin st cv a o l = Ok (b, l') /\ or_done kin st a (or_other kin st cv a o) l b l'
    /\ Layout.windows l ≡ₚ Layout.windows l'.
Proof.
  intros Hl Hr Hcv Hk. destruct (run_or_ok kin Hac st Hst cv a o l) as (b & l' & He & [_ Hw] & Hd); try done; [by apply whole_ok|].
  exists b, l'. by split_and!.
Qed.

(** C9: a window that is being moved floats as asked; any other changes layouts on its
    workspace. *)
Theorem set_floating_spec cv (window : option Id) b l :
  reachable l -> roomy l -> cv_ok cv -> floats_pre cv window l ->
  exists l', set_window_floating kin st cv window b l = Ok l' /\ Layout.windows l ≡ₚ Layout.windows l'
    /\ match moved_target kin st window l with
       | Some _ => exists mv, Layout.interactive_move l' = Some (Layout.Moving mv) /\ Layout.im_is_floating mv = b
       | None => exists p, place_of kin st (Target_ window) l = Ok p /\ op_done kin st (WSetFloating window b) l p l'
       end.
Proof.
  intros Hl Hr Hcv [Hk Hset]. destruct (set_floating_ok kin Hac st Hst cv window b l) as (l' & He & [_ Hw] & Hd); try done; [by apply whole_ok|].
  exists l'. by split_and!.
Qed.

(** The windows of the workspace in front. *)
Definition active_windows l : list Win :=
  match Layout.monitor_set l with
  | Layout.Normal mons _ active =>
      default [] (m ← mons !! active; w ← Monitor.workspaces m !! Monitor.active_workspace_idx m; Some (ws_windows w))
  | Layout.NoOutputs _ => []
  end.
(** C3: the window with the keyboard focus, and its output: the one being moved, or one
    of the active workspace of the active monitor, if it has any. *)
Theorem focus_spec l :
  reachable l ->
  exists r, focus_with_output kin st l = Ok r /\ focus kin st l = Ok (option_map fst r)
    /\ match r with
       | Some (x, o) => Layout.moving_windows l = [x] \/ x ∈ active_windows l /\ active_output kin st l = Ok (Some o)
       | None => Layout.moving_windows l = [] /\ active_windows l = []
       end.
Proof.
  intros Hl%whole_ok. unfold focus.
  assert (Hact : exists r, active_focus kin st l = Ok r
    /\ match r with Some (x, o) => x ∈ active_windows l /\ active_output kin st l = Ok (Some o) | None => active_windows l = [] end).
  { unfold active_focus, active_windows, active_output. pose proof (active_workspace_in kin Hac st Hst l Hl) as Ha.
    destruct (Layout.monitor_set l) as [mons p a|wss] eqn:Es; [|by exists None]. destruct Ha as (m & w & Hm & Hw & Hok & _).
    destruct (active_window_in kin w Hok) as (r & Hr & Hin). rewrite (index_ok _ _ _ Hm). cbn [mbind res_bind].
    rewrite (index_ok _ _ _ Hw : Monitor.active_workspace m = Ok _). rewrite Hm. cbn [mbind res_bind option_bind]. rewrite Hw.
    change (@ws_active_window (real_ops kin st) w) with (Workspace.active_window w). rewrite Hr. cbn [mbind res_bind option_bind default].
    eexists. split; [done|]. destruct r as [x|]; [by split|]. exact Hin. }
  destruct Hact as (r & He & Hr). unfold focus_with_output, Layout.moving_windows.
  destruct (Layout.interactive_move l) as [[x d rt|mv]|]; [| |]; rewrite ?He; eexists; (split; [done|]); (split; [done|]).
  - destruct r as [[y o]|]; [by right|done].
  - by left.
  - destruct r as [[y o]|]; [by right|done].
Qed.

(** C5: moving the pointer while a window is grabbed, if [drag_pre]: while the window is
    held, the monitor that the pointer is on shows a workspace; where a floating window
    leaves its workspace, the arithmetic that ends the view gestures gives numbers.  The
    window stays grabbed, or it is held by the pointer over the given output; it is
    never lost. *)
Theorem drag_spec cv now x delta o p l :
  reachable l -> roomy l -> cv_ok cv -> ts_ok now -> drag_pre kin Hac st Hst cv now x delta o l ->
  exists b l', interactive_move_update kin st cv now x delta o p l = Ok (b, l') /\ dragged kin st x o l b l'
    /\ Layout.windows l ≡ₚ Layout.windows l'.
Proof.
  intros Hl Hr Hcv Hnow Hp. destruct (move_update_ok kin Hac st Hst cv now x delta o p l) as (b & l' & He & [_ Hw] & Hd); try done; [by apply whole_ok|].
  exists b, l'. by split_and!.
Qed.

(** C4: letting go of the window being moved, if [let_go_pre]: the monitor that the
    pointer is on shows a workspace, and the arithmetic of gestures and positions gives
    numbers.  It ends the move, and the window is where it landed: on the workspace the
    pointer was at, on an empty one, or on the first one of the active monitor; letting
    go of any other window does nothing. *)
Theorem drop_spec cv now x l :
  reachable l -> roomy l -> cv_ok cv -> ts_ok now -> let_go_pre kin Hac st Hst cv now x l ->
  exists l', interactive_move_end kin st cv now x l = Ok l' /\ Layout.windows l ≡ₚ Layout.windows l'
    /\ if bool_decide (moved_window kin st l = Some x) then Layout.interactive_move l' = None /\ dropped kin st cv now x l l' else l' = l.
Proof.
  intros Hl Hr Hcv Hnow Hp. destruct (move_end_ok kin Hac st Hst cv now x l) as (l' & He & [_ Hw] & Hd); try done; [by apply whole_ok|].
  exists l'. by split_and!.
Qed.

(** C6: what is under the pointer: hit testing finds a window of the workspace there,
    which the layout has; in the overview it gets no input; where a window can be resized
    by an edge, a window is hit; and the workspace under the pointer is one of the
    layout's. *)
Theorem pointer_spec cv (o : WOutput) pos b l :
  reachable l -> cv_ok cv ->
  exists r e u, Hit.layout_window_under kin st cv o pos l = Ok r /\ Hit.layout_resize_edges_under kin st cv o pos l = Ok e
    /\ Hit.layout_workspace_under kin st cv b o pos l = Ok u /\ (forall w, u = Some w -> (w : WS) ∈ Layout.workspaces l)
    /\ match r with
       | Some x => (win_id x.1 : Win) ∈ Layout.windows l /\ exists m, monitor_for_output kin st o l = Some m /\ hit_window kin st cv pos m x
       | None => e = None
       end.
Proof.
  intros Hl%whole_ok Hcv. destruct (layout_workspace_under_ok kin Hac st Hst cv b o pos l Hl Hcv) as (u & Hu & Hin).
  unfold Hit.layout_window_under, Hit.layout_resize_edges_under.
  destruct (monitor_for_output kin st o l) as [m|] eqn:Em; [|by exists None, None, u]. pose proof (monitor_for_in kin st o l m Em) as Hm.
  destruct (monitor_under_ok kin Hac st Hst cv pos l m Hl Hcv Hm) as (r & Hr & Hx). destruct (monitor_edges_ok kin Hac st Hst cv pos l m Hl Hcv Hm) as (e & He & Hex).
  exists r, e, u. split_and!; [done..|]. destruct r as [x|].
  - split; [|by exists m]. destruct Hx as (w & geo & _ & Hw & Hxw & _). destruct (monitors_workspace kin Hac st Hst l m w Hl Hm Hw) as [_ Hwl].
    unfold Layout.windows. apply elem_of_app. right. apply list_elem_of_bind. by exists w.
  - destruct e as [e|]; [|done]. destruct (Hex ltac:(done)) as [x Hx']. congruence.
Qed.

(** C7: with [deactivate_unfocused_windows], after a refresh a window knows that it is
    activated if and only if it is the one with the keyboard focus, and the layout is
    active; the window that is being moved has the focus and is always activated.  Not
    while a floating window is grabbed that is not moved yet ([grabbed_tiled]). *)
Theorem refresh_activates_focus cv now (is_active : bool) dnd l :
  reachable l -> roomy l -> cv_ok cv -> ts_ok now -> can_settle_told kin st cv l ->
  (forall w, w ∈ Layout.workspaces l -> unfocused_deactivated w) -> grabbed_tiled kin st dnd l ->
  exists l' f, Frame.refresh kin st cv now is_active dnd l = Ok l' /\ focus kin st l' = Ok f /\ Layout.windows l ≡ₚ Layout.windows l'
    /\ (forall w t, w ∈ Layout.workspaces l' -> t ∈ Workspace.tiles w ->
          win_activated (Tile.window t) = is_active && bool_decide (f = Some (Tile.id t : Win)))
    /\ (forall mv, Layout.interactive_move l' = Some (Layout.Moving mv) ->
          f = Some (tile_win (Layout.im_tile mv)) /\ win_activated (Tile.window (Layout.im_tile mv : Tile.Tile)) = true).
Proof.
  intros Hl%whole_ok Hr Hcv Hnow Hset Hd Hg. destruct (refresh_ok kin Hac st Hst cv now is_active dnd l) as (l' & He & Hok & Hw); try done.
  destruct (refresh_told kin st cv now is_active dnd l l') as [Ht Hm]; [|done|done|].
  { intros w Hin. split; [by apply (layout_ok_workspace kin Hac st Hst l w)|by apply Hd]. }
  destruct (focus_activated kin Hac st Hst is_active l' Hok Ht Hm) as (f & Hf & Hin & Hmv). exists l', f. by split_and!.
Qed.
End whole.

(** ** Conditions on arithmetic, decided *)
Section decide.
Context {LE : LayoutElement} {GE : Geometry} {LM : Libm} {KF : Keyframe}.
Import ScrollingSpace.
Definition gesture_finiteb (cv : ClockView) (s : ScrollingSpace) : bool :=
  match view_offset s with
  | ViewOffset.InGesture g =>
      match snapping_points s, SwipeTracker.push f0 (cv_now_unadjusted cv) (ViewOffset.tracker g), column_x (active_column_idx s) s with
      | Ok snaps, Ok t, Ok x =>
          match SwipeTracker.projected_end_pos t with
          | Ok p => forallb (fun y => negb (is_nan (snap_pos y))
              && negb (is_nan (fabs (snap_pos y - (x + (p * norm_factor g s + ViewOffset.delta_from_tracker g)))%F))) snaps
          | Panic => true
          end
      | _, _, _ => true
      end
  | _ => true
  end.
Lemma gesture_finiteb_ok cv s : gesture_finiteb cv s = true -> gesture_finite cv s.
Proof.
  unfold gesture_finiteb, gesture_finite. destruct (view_offset s) as [| |g]; try done. intros H snaps t p x Hs Ht Hp Hx. rewrite Hs, Ht, Hx, Hp in H.
  apply Forall_forall. intros y Hy. apply list_elem_of_In in Hy.
  pose proof (proj1 (forallb_forall _ _) H y Hy) as Hb. apply andb_true_iff in Hb as [?%negb_true_iff ?%negb_true_iff]. by split.
Qed.
Definition pointer_finiteb (cv : ClockView) (pos : Point) (s : ScrollingSpace) : bool :=
  match view_pos cv s with
  | Ok v => forallb (fun y => negb (is_nan (fabs (y - (pos.1 + v + gaps (options s) / of_Z 2))%F))) (column_xs s)
  | Panic => true
  end
  && forallb (fun c => match Column.tile_offsets c with
                       | Ok os => forallb (fun o : Point => negb (is_nan (fabs (o.2 - (pos.2 + gaps (options s) / of_Z 2))%F))) os
                       | Panic => true
                       end) (columns s).
Lemma pointer_finiteb_ok cv pos s : pointer_finiteb cv pos s = true -> pointer_finite cv pos s.
Proof.
  intros [H1 H2]%andb_true_iff. split.
  - intros v Hv. rewrite Hv in H1. apply Forall_forall. intros y Hy%list_elem_of_In. by apply negb_true_iff, (proj1 (forallb_forall _ _) H1 y).
  - intros c os Hc%list_elem_of_In Ho. pose proof (proj1 (forallb_forall _ _) H2 c Hc) as H. cbv beta in H. rewrite Ho in H.
    apply Forall_forall. intros y Hy%list_elem_of_In. by apply negb_true_iff, (proj1 (forallb_forall _ _) H y).
Qed.
End decide.

(** ** The theorems at a concrete run

    Two monitors; the first has two tiled windows and a floating one. *)
#[local] Existing Instance window0.
#[local] Existing Instance window0_laws.
#[local] Existing Instance geometry0.
#[local] Existing Instance geometry0_laws.
#[local] Existing Instance libm0.
#[local] Existing Instance keyframe0.
#[local] Existing Instance smithay0.
#[local] Instance rectangles0 : Rectangles := {|
  rect_intersects a b := fltb a.1.1 (b.1.1 + b.2.1)%F && fltb b.1.1 (a.1.1 + a.2.1)%F
                         && fltb a.1.2 (b.1.2 + b.2.2)%F && fltb b.1.2 (a.1.2 + a.2.2)%F;
  rect_contains r p := fleb r.1.1 p.1 && fltb p.1 (r.1.1 + r.2.1)%F && fleb r.1.2 p.2 && fltb p.2 (r.1.2 + r.2.2)%F |}.
#[local] Instance regions0 : HitRegions := {|
  win_buf_loc := fun _ => (0, 0)%Z;
  win_is_in_input_region := fun w p => fleb f0 p.1 && fltb p.1 (of_Z (size0 w).1) && fleb f0 p.2 && fltb p.2 (of_Z (size0 w).2);
  baba_is_float := fun _ => false |}.
(** Clients that know whether they are activated and take no notice of the rest. *)
Definition activate0 (b : bool) (w : Win0) : Win0 :=
  {| id0 := id0 w; size0 := size0 w; mode0 := mode0 w; pending0 := pending0 w; requested0 := requested0 w; active0 := b |}.
#[local] Instance state0 : WindowState := {|
  set_active_in_column := fun _ w => w; set_floating := fun _ w => w; set_activated := activate0; set_bounds := fun _ w => w;
  configure_intent := fun _ => CanSend; send_pending_configure := fun w => w; win_refresh := fun w => w;
  is_pending_windowed_fullscreen := fun _ => false; request_windowed_fullscreen := fun _ w => w |}.
#[local] Instance state0_laws : WindowStateLaws.
Proof. by split. Qed.
#[local] Instance activation0 : Activation.
Proof. by refine {| win_activated := active0 |}. Defined.
#[local] Hint Extern 0 WorkspaceOps => exact (real_ops kin0 output_state0) : typeclass_instances.
#[local] Hint Extern 0 LayoutOps => exact (real_layout_ops kin0 output_state0) : typeclass_instances.
Import Actions.
Abbreviation Lay0 := (@Layout.Layout (real_ops kin0 output_state0)).
Abbreviation Step0 := (Step kin0 output_state0).

Definition step_after (s : Step0) (l : Lay0) : Lay0 := match run_step kin0 output_state0 (cv_at 5%Z) 5%Z s l with Ok (_, l') => l' | Panic => l end.
Abbreviation safe0 := (layout_ok (WL := real_laws kin0 kin0_acyclic output_state0 outputs0_ok)).
Abbreviation reachable0 := (reachable kin0 kin0_acyclic output_state0 outputs0_ok).

Definition real_start : Lay0 := Layout.with_options_and_workspaces [] (MonitorThms.options0 false) 1.
Lemma real_start_reachable : reachable0 real_start.
Proof. apply reach_start. split_and!; [lia|by vm_compute|apply mon_options0_ok|constructor]. Qed.

Lemma step_after_reachable (s : Step0) l :
  reachable0 l -> roomy l -> step_pre kin0 kin0_acyclic output_state0 outputs0_ok (cv_at 5%Z) 5%Z s l -> reachable0 (step_after s l).
Proof.
  intros Hl Hr Hp. destruct (run_step_ok kin0 kin0_acyclic output_state0 outputs0_ok (cv_at 5%Z) 5%Z s l) as (outs & l' & He & _);
    [by apply whole_ok|done|exact clock5_ok|by vm_compute|done|].
  unfold step_after. rewrite He. by eapply reach_step; [| |exact clock5_ok|apply ts_ok5| |].
Qed.

Definition add_output0 (o : nat) : Step0 := SOp kin0 output_state0 (OpAddOutput (o : @Output (real_ops kin0 output_state0)) None).
Definition add_window0 (i : nat) (floats : bool) : Step0 :=
  SOp kin0 output_state0 (OpAddWindow (win0 i : @Window (real_ops kin0 output_state0)) Layout.AddAuto None None false floats Yes).
Definition two_outputs : Lay0 := step_after (add_output0 1) (step_after (add_output0 0) real_start).
Definition three_windows : Lay0 := step_after (add_window0 3 true) (step_after (add_window0 2 false) (step_after (add_window0 1 false) two_outputs)).
Example three_windows_list : (Layout.windows three_windows : list nat) = [1; 2; 3].
Proof. by vm_compute. Qed.

Lemma add_output0_pre o (l : Lay0) :
  fresh_outputb o l = true -> step_pre kin0 kin0_acyclic output_state0 outputs0_ok (cv_at 5%Z) 5%Z (add_output0 o) l.
Proof. intros Hf. split; [|done]. by apply fresh_outputb_ok. Qed.
Lemma add_window0_pre (i : nat) floats (l : Lay0) :
  bool_decide ((i : @Id window0) ∈ (Layout.windows l : list (@Id window0))) = false ->
  step_pre kin0 kin0_acyclic output_state0 outputs0_ok (cv_at 5%Z) 5%Z (add_window0 i floats) l.
Proof. intros Hi%bool_decide_eq_false_1. split_and!; [done|by split|done]. Qed.

Lemma three_windows_reachable : reachable0 three_windows.
Proof.
  unfold three_windows, two_outputs.
  do 3 (apply step_after_reachable; [|by vm_compute|by apply add_window0_pre; vm_compute]).
  do 2 (apply step_after_reachable; [|by vm_compute|by apply add_output0_pre; vm_compute]). apply real_start_reachable.
Qed.

Lemma three_has (x : nat) :
  bool_decide ((x : @Id window0) ∈ (Layout.windows three_windows : list (@Id window0))) = true ->
  (x : @Id window0) ∈ (Layout.windows three_windows : list (@Id window0)).
Proof. apply bool_decide_eq_true_1. Qed.

Definition toggle2 : Step0 := SToggleFloating kin0 output_state0 (Some 2).
Lemma none_moved : match moved_target kin0 output_state0 (Some 2) three_windows with Some _ => true | None => false end = false.
Proof. by vm_compute. Qed.
Lemma toggle2_known : floats_pre kin0 kin0_acyclic output_state0 outputs0_ok (cv_at 5%Z) (Some 2) three_windows.
Proof. split; [apply three_has; by vm_compute|]. intros mv Hm. pose proof none_moved as Hn. rewrite Hm in Hn. discriminate Hn. Qed.

Example layout_steps_safe_witness :
  exists outs l', run_step kin0 output_state0 (cv_at 5%Z) 5%Z toggle2 three_windows = Ok (outs, l')
    /\ [] ++ Layout.windows three_windows ≡ₚ outs ++ Layout.windows l' /\ NoDup (Layout.windows l')
    /\ forall w, w ∈ Layout.workspaces l' -> WorkspaceInv.ws_ok kin0 w.
Proof.
  apply (layout_steps_safe kin0 kin0_acyclic output_state0 outputs0_ok (cv_at 5%Z) 5%Z toggle2 three_windows);
    [exact three_windows_reachable|by vm_compute|exact clock5_ok|apply ts_ok5|exact toggle2_known].
Defined.

(** The second window joins the column of the first. *)
Definition consume2 : Action := AConsumeOrExpelWindowLeft (Some 2).
Example layout_actions_refine_witness :
  exists p l', place_of kin0 output_state0 (action_target consume2) three_windows = Ok p
    /\ run_action kin0 output_state0 (cv_at 5%Z) consume2 three_windows = Ok l'
    /\ op_done kin0 output_state0 (action_op consume2) three_windows p l' /\ Layout.windows three_windows ≡ₚ Layout.windows l'.
Proof.
  apply (layout_actions_refine kin0 kin0_acyclic output_state0 outputs0_ok (cv_at 5%Z) consume2 three_windows);
    [exact three_windows_reachable|by vm_compute|exact clock5_ok|apply three_has; by vm_compute].
Defined.

Example or_output_refines_witness :
  exists b l', run_or kin0 output_state0 (cv_at 5%Z) OrMoveLeft 1%nat three_windows = Ok (b, l')
    /\ or_done kin0 output_state0 OrMoveLeft (or_other kin0 output_state0 (cv_at 5%Z) OrMoveLeft 1%nat) three_windows b l'
    /\ Layout.windows three_windows ≡ₚ Layout.windows l'.
Proof.
  apply (or_output_refines kin0 kin0_acyclic output_state0 outputs0_ok (cv_at 5%Z) OrMoveLeft 1%nat three_windows);
    [exact three_windows_reachable|by vm_compute|exact clock5_ok|by vm_compute; eexists].
Defined.

Example set_floating_spec_witness :
  exists l', set_window_floating kin0 output_state0 (cv_at 5%Z) (Some 2) true three_windows = Ok l' /\ Layout.windows three_windows ≡ₚ Layout.windows l'
    /\ match moved_target kin0 output_state0 (Some 2) three_windows with
       | Some _ => exists mv, Layout.interactive_move l' = Some (Layout.Moving mv) /\ Layout.im_is_floating mv = true
       | None => exists p, place_of kin0 output_state0 (Target_ (Some 2)) three_windows = Ok p
           /\ op_done kin0 output_state0 (WSetFloating (Some 2) true) three_windows p l'
       end.
Proof.
  apply (set_floating_spec kin0 kin0_acyclic output_state0 outputs0_ok (cv_at 5%Z) (Some 2) true three_windows);
    [exact three_windows_reachable|by vm_compute|exact clock5_ok|exact toggle2_known].
Defined.

Example focus_spec_witness :
  exists r, focus_with_output kin0 output_state0 three_windows = Ok r /\ focus kin0 output_state0 three_windows = Ok (option_map fst r)
    /\ match r with
       | Some (x, o) => Layout.moving_windows three_windows = [x]
           \/ x ∈ active_windows kin0 output_state0 three_windows /\ active_output kin0 output_state0 three_windows = Ok (Some o)
       | None => Layout.moving_windows three_windows = [] /\ active_windows kin0 output_state0 three_windows = []
       end.
Proof. apply (focus_spec kin0 kin0_acyclic output_state0 outputs0_ok three_windows three_windows_reachable). Defined.
Example focus_example : focus kin0 output_state0 three_windows = Ok (Some (3 : @Id window0)).
Proof. by vm_compute. Qed.

(** ** Dragging a window into the column of another one *)
Import Drag.
Abbreviation cv5 := (cv_at 5%Z).
Definition begin1 : Step0 := SMoveBegin kin0 output_state0 1 0 (of_Z 300, of_Z 300).
Definition delta1 : Point := (of_Z 400, of_Z 100).
Definition point1 : Point := (of_Z 700, of_Z 400).
Definition drag1 : Step0 := SMoveUpdate kin0 output_state0 1 delta1 0 point1.
Definition grabbed_one : Lay0 := step_after begin1 three_windows.
Definition held_one : Lay0 := step_after drag1 grabbed_one.

Lemma grabbed_one_reachable : reachable0 grabbed_one.
Proof. by apply step_after_reachable; [exact three_windows_reachable|by vm_compute|]. Qed.

(** The window that leaves the layout does not float. *)
Definition lifts_tiled (x : nat) (delta : Point) (l : Lay0) : bool :=
  match Layout.interactive_move l, overview_zoom kin0 output_state0 cv5 l with
  | Some (Layout.Starting _ d r), Ok zoom =>
      let d := pair_add d (downscale zoom delta) in
      match stretched kin0 output_state0 x d l with
      | Ok (_, l1) =>
          match take_window kin0 output_state0 cv5 5%Z x (Layout.set_interactive_move None (Layout.set_interactive_move (Some (Layout.Starting x d r)) l1)) with
          | Ok (r, _) => negb (rt_is_floating r)
          | Panic => false
          end
      | Panic => false
      end
  | _, _ => false
  end.
Lemma lifts_tiled_ok (x : nat) delta o l :
  lifts_tiled x delta l = true -> drag_pre kin0 kin0_acyclic output_state0 outputs0_ok cv5 5%Z x delta o l.
Proof.
  unfold lifts_tiled, drag_pre. destruct (Layout.interactive_move l) as [[y d r|mv]|]; [|done|done]. intros H zoom fw l1 Hz Hs rt l2 Ht Hf.
  rewrite Hz, Hs in H. rewrite Ht, Hf in H. done.
Qed.
Lemma drag1_pre : drag_pre kin0 kin0_acyclic output_state0 outputs0_ok cv5 5%Z 1 delta1 0 grabbed_one.
Proof. apply lifts_tiled_ok. by vm_compute. Qed.
Lemma held_one_reachable : reachable0 held_one.
Proof. apply step_after_reachable; [exact grabbed_one_reachable|by vm_compute|exact drag1_pre]. Qed.
Example held_one_moving : (Layout.moving_windows held_one : list nat) = [1].
Proof. by vm_compute. Qed.

Example drag_spec_witness :
  exists b l', interactive_move_update kin0 output_state0 cv5 5%Z 1 delta1 0 point1 grabbed_one = Ok (b, l')
    /\ dragged kin0 output_state0 1 0 grabbed_one b l' /\ Layout.windows grabbed_one ≡ₚ Layout.windows l'.
Proof.
  apply (drag_spec kin0 kin0_acyclic output_state0 outputs0_ok cv5 5%Z 1 delta1 0 point1 grabbed_one);
    [exact grabbed_one_reachable|by vm_compute|exact clock5_ok|apply ts_ok5|exact drag1_pre].
Defined.

(** Where the pointer is, the arithmetic gives numbers. *)
Definition lands (mv : @Layout.InteractiveMoveData (real_ops kin0 output_state0)) (l : Lay0) : bool :=
  match Layout.monitor_set l with
  | Layout.Normal mons _ _ =>
      let pointer := Layout.im_pointer_pos_within_output mv in
      match m ← Layout.monitor_idx (Layout.im_output mv) mons; mons !! m with
      | Some m =>
          match MonitorGeometry.workspaces_with_render_geo_idx cv5 m with Ok (_ :: _) => true | _ => false end
          && match MonitorGeometry.insert_position cv5 pointer m, Monitor.overview_zoom cv5 m with
             | Ok (Existing _, geo), Ok zoom =>
                 forallb (fun w : Workspace.Workspace => pointer_finiteb cv5 (downscale zoom (pair_sub pointer geo.1)) (Workspace.scrolling w)) (Monitor.workspaces m)
             | Ok (NewAt _, _), _ => true
             | _, _ => false
             end
      | None => false
      end
  | Layout.NoOutputs _ => true
  end.
Lemma lands_ok mv l : lands mv l = true -> landing_pre kin0 output_state0 cv5 mv l.
Proof.
  unfold lands, landing_pre. destruct (Layout.monitor_set l) as [mons p a|]; [|done]. cbv zeta.
  destruct (Layout.monitor_idx _ mons) as [i|]; [|done]. intros H m Hm. cbn [mbind option_bind] in H. rewrite Hm in H. apply andb_true_iff in H as [H1 H2]. split.
  - intros Hv. unfold visible in *. by rewrite Hv in H1.
  - intros id geo zoom w Hi Hz Hw _ _. rewrite Hi, Hz in H2. apply list_elem_of_In in Hw. by apply pointer_finiteb_ok, (proj1 (forallb_forall _ _) H2 w).
Qed.

(** The gestures of the workspaces can end, and then the window lands. *)
Definition settles_and_lands (l : Lay0) : bool :=
  forallb (fun w : Workspace.Workspace => gesture_finiteb cv5 (Workspace.scrolling w)) (Layout.workspaces l)
  && match Layout.interactive_move l with
     | Some (Layout.Moving mv) => match release kin0 output_state0 cv5 5%Z mv l with Ok (mv', l') => lands mv' l' | Panic => false end
     | _ => false
     end.
Lemma settles_and_lands_ok (x : nat) l : settles_and_lands l = true -> let_go_pre kin0 kin0_acyclic output_state0 outputs0_ok cv5 5%Z x l.
Proof.
  unfold settles_and_lands, let_go_pre. intros [H1 H2]%andb_true_iff. destruct (Layout.interactive_move l) as [[y d r|mv]|]; [done| |done]. intros _. split.
  - intros _ w Hw%list_elem_of_In. split; [by vm_compute|]. by apply gesture_finiteb_ok, (proj1 (forallb_forall _ _) H1 w).
  - intros mv' l' Hr. rewrite Hr in H2. by apply lands_ok.
Qed.
Lemma end1_pre : let_go_pre kin0 kin0_acyclic output_state0 outputs0_ok cv5 5%Z 1 held_one.
Proof. apply settles_and_lands_ok. by vm_compute. Qed.

Example drop_spec_witness :
  exists l', interactive_move_end kin0 output_state0 cv5 5%Z 1 held_one = Ok l' /\ Layout.windows held_one ≡ₚ Layout.windows l'
    /\ if bool_decide (moved_window kin0 output_state0 held_one = Some (1 : @Win (real_ops kin0 output_state0)))
       then Layout.interactive_move l' = None /\ dropped kin0 output_state0 cv5 5%Z 1 held_one l' else l' = held_one.
Proof.
  apply (drop_spec kin0 kin0_acyclic output_state0 outputs0_ok cv5 5%Z 1 held_one);
    [exact held_one_reachable|by vm_compute|exact clock5_ok|apply ts_ok5|exact end1_pre].
Defined.
(** It joined the column of the second window, below it. *)
Definition columns_of (l : Lay0) : list (list (list nat)) :=
  (fun w : Workspace.Workspace => (fun c => Tile.id <$> Column.tiles c) <$> ScrollingSpace.columns (Workspace.scrolling w)) <$> (Layout.workspaces l).
Example drop_example :
  columns_of three_windows = [[[1]; [2]]; []; []] /\ columns_of held_one = [[[2]]; []; []]
  /\ columns_of (step_after (SMoveEnd kin0 output_state0 1) held_one) = [[[2; 1]]; []; []].
Proof. split_and!; by vm_compute. Qed.

(** ** A frame, and what is under the pointer *)
Definition frame0 : Step0 := SRefresh kin0 output_state0 true None.
Definition no_gesture (w : Workspace.Workspace) : bool := match ScrollingSpace.view_offset (Workspace.scrolling w) with ViewOffset.InGesture _ => false | _ => true end.
Lemma told_finite w a f : no_gesture w = true -> LayoutReal.gesture_ok cv5 (Frame.refresh_workspace a f w).
Proof.
  unfold no_gesture. intros Hv. split; [by vm_compute|]. unfold gesture_finite. change (ScrollingSpace.view_offset (Workspace.scrolling (Frame.refresh_workspace a f w)))
    with (ScrollingSpace.view_offset (Workspace.scrolling w)). by destruct (ScrollingSpace.view_offset (Workspace.scrolling w)).
Qed.
Lemma frame0_pre : step_pre kin0 kin0_acyclic output_state0 outputs0_ok cv5 5%Z frame0 three_windows.
Proof.
  intros w a f Hw%list_elem_of_In. apply told_finite. revert w Hw. apply forallb_forall. by vm_compute.
Qed.
Lemma frame0_reachable : reachable0 (step_after frame0 three_windows).
Proof. apply step_after_reachable; [exact three_windows_reachable|by vm_compute|exact frame0_pre]. Qed.

Example pointer_spec_witness :
  exists r e u, Hit.layout_window_under kin0 output_state0 cv5 0 (of_Z 300, of_Z 300) three_windows = Ok r
    /\ Hit.layout_resize_edges_under kin0 output_state0 cv5 0 (of_Z 300, of_Z 300) three_windows = Ok e
    /\ Hit.layout_workspace_under kin0 output_state0 cv5 true 0 (of_Z 300, of_Z 300) three_windows = Ok u
    /\ (forall w, u = Some w -> (w : @WS (real_ops kin0 output_state0)) ∈ Layout.workspaces three_windows)
    /\ match r with
       | Some x => (win_id x.1 : @Win (real_ops kin0 output_state0)) ∈ Layout.windows three_windows
           /\ exists m, monitor_for_output kin0 output_state0 0 three_windows = Some m /\ hit_window kin0 output_state0 cv5 (of_Z 300, of_Z 300) m x
       | None => e = None
       end.
Proof.
  apply (pointer_spec kin0 kin0_acyclic output_state0 outputs0_ok cv5 0 (of_Z 300, of_Z 300) true three_windows);
    [exact three_windows_reachable|exact clock5_ok].
Defined.
Definition hit_id (r : res (option (Win0 * HitType))) : option nat := match r with Ok (Some (w, _)) => Some (id0 w) | _ => None end.
Example pointer_example :
  hit_id (Hit.layout_window_under kin0 output_state0 cv5 0 (of_Z 300, of_Z 300) three_windows) = Some 1.
Proof. by vm_compute. Qed.

Definition deactivatedb (w : Workspace.Workspace) : bool :=
  deactivate_unfocused_windows (ScrollingSpace.options (Workspace.scrolling w)) && deactivate_unfocused_windows (FloatingSpace.options (Workspace.floating w)).
Lemma all_deactivated (w : @WS (real_ops kin0 output_state0)) : w ∈ Layout.workspaces three_windows -> unfocused_deactivated w.
Proof.
  intros Hw%list_elem_of_In. apply andb_true_iff. change (deactivatedb w = true). revert w Hw. apply forallb_forall. by vm_compute.
Qed.
Example refresh_activates_focus_witness :
  exists l' f, Frame.refresh kin0 output_state0 cv5 5%Z true None three_windows = Ok l' /\ focus kin0 output_state0 l' = Ok f
    /\ Layout.windows three_windows ≡ₚ Layout.windows l'
    /\ (forall w t, w ∈ Layout.workspaces l' -> t ∈ Workspace.tiles w ->
          win_activated (Tile.window t) = true && bool_decide (f = Some (Tile.id t : @Win (real_ops kin0 output_state0))))
    /\ (forall mv, Layout.interactive_move l' = Some (Layout.Moving mv) ->
          f = Some (tile_win (Layout.im_tile mv)) /\ win_activated (Tile.window (Layout.im_tile mv : Tile.Tile)) = true).
Proof.
  apply (refresh_activates_focus kin0 kin0_acyclic output_state0 outputs0_ok cv5 5%Z true None three_windows);
    [exact three_windows_reachable|by vm_compute|exact clock5_ok|apply ts_ok5|exact frame0_pre|exact all_deactivated|exact I].
Defined.
(** Two windows are tiled, and the third, a floating one, has the focus. *)
Definition activated_of (l : Lay0) : list (list (nat * bool)) :=
  (fun w : Workspace.Workspace => (fun t : Tile.Tile => (id0 (Tile.window t), active0 (Tile.window t))) <$> Workspace.tiles w) <$> (Layout.workspaces l).
Example refresh_example : activated_of (step_after frame0 three_windows) = [[(1, false); (2, false); (3, true)]; []; []].
Proof. by vm_compute. Qed.

