(* ===== verification/IpcTypes.v ===== *)
(** * IPC data (niri-ipc/src/lib.rs)

    The objects the compositor describes to IPC clients, the events of the
    event stream, and the order in which a hash map is iterated. *)

From stdpp Require Import base numbers option list gmap strings.
From Stdlib Require Import ZArith.
From S2P Require Import Prelude.
From S2P Require Import F64.
From S2P Require Import Duration.

Local Open Scope Z_scope.

(** [std::collections::HashMap] iterates in an unspecified order: the order is
    a parameter, any enumeration of the entries. *)
Class HashOrder := {
  iter : forall {A : Type}, gmap Z A -> list (Z * A);
  iter_perm : forall {A : Type} (m : gmap Z A), iter m ≡ₚ map_to_list m
}.

Record Timestamp := { ts_secs : Z; ts_nanos : Z }.
#[export] Instance Timestamp_eq_dec : EqDecision Timestamp.
Proof. solve_decision. Defined.

Definition timestamp_from (d : Duration) : Timestamp :=
  {| ts_secs := as_secs d; ts_nanos := subsec_nanos d |}.
(** [Duration::new(secs, nanos)] carries the nanoseconds into the seconds. *)
Definition duration_from (t : Timestamp) : res Duration :=
  if decide (ts_secs t + ts_nanos t / NANOS < 2 ^ 64)
  then Ok (ts_secs t * NANOS + ts_nanos t) else Panic.

Module WindowLayout.
Record WindowLayout := {
  pos_in_scrolling_layout : option (Z * Z);
  tile_size : f64 * f64;
  window_size : Z * Z;
  tile_pos_in_workspace_view : option (f64 * f64);
  window_offset_in_tile : f64 * f64
}.

Definition pair_eqb (a b : f64 * f64) : bool := feqb a.1 b.1 && feqb a.2 b.2.
(** The derived [PartialEq]: floats compare as floats. *)
Definition eqb (a b : WindowLayout) : bool :=
  bool_decide (pos_in_scrolling_layout a = pos_in_scrolling_layout b)
  && pair_eqb (tile_size a) (tile_size b)
  && bool_decide (window_size a = window_size b)
  && match tile_pos_in_workspace_view a, tile_pos_in_workspace_view b with
     | Some p, Some q => pair_eqb p q
     | None, None => true
     | _, _ => false
     end
  && pair_eqb (window_offset_in_tile a) (window_offset_in_tile b).
End WindowLayout.

Module Window.
Record Window := {
  id : Z;
  title : option string;
  app_id : option string;
  pid : option Z;
  workspace_id : option Z;
  is_focused : bool;
  is_floating : bool;
  is_urgent : bool;
  layout : WindowLayout.WindowLayout;
  focus_timestamp : option Timestamp
}.
Definition set_is_focused (b : bool) (w : Window) : Window :=
  {| id := id w; title := title w; app_id := app_id w; pid := pid w; workspace_id := workspace_id w;
     is_focused := b; is_floating := is_floating w; is_urgent := is_urgent w; layout := layout w;
     focus_timestamp := focus_timestamp w |}.
Definition set_is_urgent (b : bool) (w : Window) : Window :=
  {| id := id w; title := title w; app_id := app_id w; pid := pid w; workspace_id := workspace_id w;
     is_focused := is_focused w; is_floating := is_floating w; is_urgent := b; layout := layout w;
     focus_timestamp := focus_timestamp w |}.
Definition set_layout (l : WindowLayout.WindowLayout) (w : Window) : Window :=
  {| id := id w; title := title w; app_id := app_id w; pid := pid w; workspace_id := workspace_id w;
     is_focused := is_focused w; is_floating := is_floating w; is_urgent := is_urgent w; layout := l;
     focus_timestamp := focus_timestamp w |}.
Definition set_focus_timestamp (t : option Timestamp) (w : Window) : Window :=
  {| id := id w; title := title w; app_id := app_id w; pid := pid w; workspace_id := workspace_id w;
     is_focused := is_focused w; is_floating := is_floating w; is_urgent := is_urgent w; layout := layout w;
     focus_timestamp := t |}.
End Window.

Module Workspace.
Record Workspace := {
  id : Z;
  idx : Z;
  name : option string;
  output : option string;
  is_urgent : bool;
  is_active : bool;
  is_focused : bool;
  active_window_id : option Z
}.
Definition set_is_urgent (b : bool) (w : Workspace) : Workspace :=
  {| id := id w; idx := idx w; name := name w; output := output w; is_urgent := b;
     is_active := is_active w; is_focused := is_focused w; active_window_id := active_window_id w |}.
Definition set_is_active (b : bool) (w : Workspace) : Workspace :=
  {| id := id w; idx := idx w; name := name w; output := output w; is_urgent := is_urgent w;
     is_active := b; is_focused := is_focused w; active_window_id := active_window_id w |}.
Definition set_is_focused (b : bool) (w : Workspace) : Workspace :=
  {| id := id w; idx := idx w; name := name w; output := output w; is_urgent := is_urgent w;
     is_active := is_active w; is_focused := b; active_window_id := active_window_id w |}.
Definition set_active_window_id (i : option Z) (w : Workspace) : Workspace :=
  {| id := id w; idx := idx w; name := name w; output := output w; is_urgent := is_urgent w;
     is_active := is_active w; is_focused := is_focused w; active_window_id := i |}.
End Workspace.

Record KeyboardLayouts := { names : list string; current_idx : Z }.

Inductive Event :=
| WorkspacesChanged (workspaces : list Workspace.Workspace)
| WorkspaceUrgencyChanged (id : Z) (urgent : bool)
| WorkspaceActivated (id : Z) (focused : bool)
| WorkspaceActiveWindowChanged (workspace_id : Z) (active_window_id : option Z)
| WindowsChanged (windows : list Window.Window)
| WindowOpenedOrChanged (window : Window.Window)
| WindowClosed (id : Z)
| WindowFocusChanged (id : option Z)
| WindowFocusTimestampChanged (id : Z) (focus_timestamp : option Timestamp)
| WindowUrgencyChanged (id : Z) (urgent : bool)
| WindowLayoutsChanged (changes : list (Z * WindowLayout.WindowLayout))
| KeyboardLayoutsChanged (keyboard_layouts : KeyboardLayouts)
| KeyboardLayoutSwitched (idx : Z)
| OverviewOpenedOrClosed (is_open : bool)
| ConfigLoaded (failed : bool)
| ScreenshotCaptured (path : option string).
