(* ===== verification/IpcState.v ===== *)
(** * The event stream state (niri-ipc/src/state.rs)

    The state an event stream client keeps and the server mirrors: five parts,
    each with the events that replicate it and the effect of an event on it.
    [apply] returns the new state and the event when the part ignores it; the
    [expect]s of the source are panics. *)

From stdpp Require Import base numbers option list gmap strings.
From Stdlib Require Import ZArith.
From S2P Require Import Prelude.
From S2P Require Import IpcTypes.

Local Open Scope Z_scope.

(** The trait [EventStreamStatePart]. *)
Class EventStreamStatePart (S : Type) := {
  replicate : S -> list Event;
  apply : Event -> S -> res (S * option Event)
}.

Record WorkspacesState := { workspaces : gmap Z Workspace.Workspace }.
Record WindowsState := { windows : gmap Z Window.Window }.
Record KeyboardLayoutsState := { keyboard_layouts : option KeyboardLayouts }.
Record OverviewState := { is_open : bool }.
Record ConfigState := { failed : bool }.
Record EventStreamState := {
  st_workspaces : WorkspacesState;
  st_windows : WindowsState;
  st_keyboard_layouts : KeyboardLayoutsState;
  st_overview : OverviewState;
  st_config : ConfigState
}.

(** [EventStreamState::default()] *)
Definition default_state : EventStreamState :=
  {| st_workspaces := {| workspaces := ∅ |}; st_windows := {| windows := ∅ |};
     st_keyboard_layouts := {| keyboard_layouts := None |};
     st_overview := {| is_open := false |}; st_config := {| failed := false |} |}.

(** [into_iter().map(|x| (x.id, x)).collect()]: a later entry replaces an
    earlier one with the same id. *)
Definition collect {A} (id : A -> Z) (l : list A) : gmap Z A :=
  foldl (fun m x => <[id x := x]> m) ∅ l.

Section parts.
Context {HO : HashOrder}.

(** ** Workspaces *)
Definition workspaces_replicate (s : WorkspacesState) : list Event :=
  [WorkspacesChanged (iter (workspaces s)).*2].

Definition workspaces_apply (e : Event) (s : WorkspacesState) : res (WorkspacesState * option Event) :=
  match e with
  | WorkspacesChanged wss =>
      Ok ({| workspaces := collect Workspace.id wss |}, None)
  | WorkspaceUrgencyChanged id urgent =>
      Ok ({| workspaces := (fun ws => if Workspace.id ws =? id then Workspace.set_is_urgent urgent ws else ws)
                           <$> workspaces s |}, None)
  | WorkspaceActivated id focused =>
      ws ← unwrap (workspaces s !! id);
      let output := Workspace.output ws in
      Ok ({| workspaces :=
               (fun ws =>
                  let got_activated := Workspace.id ws =? id in
                  let ws := if bool_decide (Workspace.output ws = output)
                            then Workspace.set_is_active got_activated ws else ws in
                  if focused then Workspace.set_is_focused got_activated ws else ws)
               <$> workspaces s |}, None)
  | WorkspaceActiveWindowChanged workspace_id active_window_id =>
      ws ← unwrap (workspaces s !! workspace_id);
      Ok ({| workspaces := <[workspace_id := Workspace.set_active_window_id active_window_id ws]> (workspaces s) |}, None)
  | e => Ok (s, Some e)
  end.

#[export] Instance workspaces_part : EventStreamStatePart WorkspacesState :=
  {| replicate := workspaces_replicate; apply := workspaces_apply |}.

(** ** Windows *)
Definition windows_replicate (s : WindowsState) : list Event :=
  [WindowsChanged (iter (windows s)).*2].

(** [for win in values_mut() { if win.id == id { f(win); break; } }] *)
Definition update_first (id : Z) (f : Window.Window -> Window.Window) (m : gmap Z Window.Window)
    : gmap Z Window.Window :=
  match list_find (fun kw : Z * Window.Window => Window.id kw.2 = id) (iter m) with
  | Some (_, (k, w)) => <[k := f w]> m
  | None => m
  end.

Fixpoint apply_layouts (changes : list (Z * WindowLayout.WindowLayout)) (m : gmap Z Window.Window)
    : res (gmap Z Window.Window) :=
  match changes with
  | [] => Ok m
  | (id, update) :: changes =>
      win ← unwrap (m !! id);
      apply_layouts changes (<[id := Window.set_layout update win]> m)
  end.

Definition windows_apply (e : Event) (s : WindowsState) : res (WindowsState * option Event) :=
  match e with
  | WindowsChanged ws => Ok ({| windows := collect Window.id ws |}, None)
  | WindowOpenedOrChanged window =>
      let m := <[Window.id window := window]> (windows s) in
      let m := if Window.is_focused window
               then (fun win => if negb (Window.id win =? Window.id window)
                                then Window.set_is_focused false win else win) <$> m
               else m in
      Ok ({| windows := m |}, None)
  | WindowClosed id =>
      _ ← unwrap (windows s !! id);
      Ok ({| windows := delete id (windows s) |}, None)
  | WindowFocusChanged id =>
      Ok ({| windows := (fun win => Window.set_is_focused (bool_decide (Some (Window.id win) = id)) win)
                        <$> windows s |}, None)
  | WindowFocusTimestampChanged id focus_timestamp =>
      Ok ({| windows := update_first id (Window.set_focus_timestamp focus_timestamp) (windows s) |}, None)
  | WindowUrgencyChanged id urgent =>
      Ok ({| windows := update_first id (Window.set_is_urgent urgent) (windows s) |}, None)
  | WindowLayoutsChanged changes =>
      m ← apply_layouts changes (windows s);
      Ok ({| windows := m |}, None)
  | e => Ok (s, Some e)
  end.

#[export] Instance windows_part : EventStreamStatePart WindowsState :=
  {| replicate := windows_replicate; apply := windows_apply |}.

(** ** Keyboard layouts, overview, config *)
Definition keyboard_layouts_replicate (s : KeyboardLayoutsState) : list Event :=
  match keyboard_layouts s with Some k => [KeyboardLayoutsChanged k] | None => [] end.

Definition keyboard_layouts_apply (e : Event) (s : KeyboardLayoutsState)
    : res (KeyboardLayoutsState * option Event) :=
  match e with
  | KeyboardLayoutsChanged k => Ok ({| keyboard_layouts := Some k |}, None)
  | KeyboardLayoutSwitched idx =>
      kb ← unwrap (keyboard_layouts s);
      Ok ({| keyboard_layouts := Some {| names := names kb; current_idx := idx |} |}, None)
  | e => Ok (s, Some e)
  end.

#[export] Instance keyboard_layouts_part : EventStreamStatePart KeyboardLayoutsState :=
  {| replicate := keyboard_layouts_replicate; apply := keyboard_layouts_apply |}.

Definition overview_replicate (s : OverviewState) : list Event := [OverviewOpenedOrClosed (is_open s)].
Definition overview_apply (e : Event) (s : OverviewState) : res (OverviewState * option Event) :=
  match e with
  | OverviewOpenedOrClosed b => Ok ({| is_open := b |}, None)
  | e => Ok (s, Some e)
  end.
#[export] Instance overview_part : EventStreamStatePart OverviewState :=
  {| replicate := overview_replicate; apply := overview_apply |}.

Definition config_replicate (s : ConfigState) : list Event := [ConfigLoaded (failed s)].
Definition config_apply (e : Event) (s : ConfigState) : res (ConfigState * option Event) :=
  match e with
  | ConfigLoaded b => Ok ({| failed := b |}, None)
  | e => Ok (s, Some e)
  end.
#[export] Instance config_part : EventStreamStatePart ConfigState :=
  {| replicate := config_replicate; apply := config_apply |}.

(** ** The full state *)
Definition state_replicate (s : EventStreamState) : list Event :=
  replicate (st_workspaces s) ++ replicate (st_windows s) ++ replicate (st_keyboard_layouts s)
  ++ replicate (st_overview s) ++ replicate (st_config s).

(** The [?] after each part stops at the part that consumed the event. *)
Definition state_apply (e : Event) (s : EventStreamState) : res (EventStreamState * option Event) :=
  '(ws, o) ← apply e (st_workspaces s);
  let s := {| st_workspaces := ws; st_windows := st_windows s; st_keyboard_layouts := st_keyboard_layouts s;
              st_overview := st_overview s; st_config := st_config s |} in
  match o with None => Ok (s, None) | Some e =>
  '(wn, o) ← apply e (st_windows s);
  let s := {| st_workspaces := st_workspaces s; st_windows := wn; st_keyboard_layouts := st_keyboard_layouts s;
              st_overview := st_overview s; st_config := st_config s |} in
  match o with None => Ok (s, None) | Some e =>
  '(kb, o) ← apply e (st_keyboard_layouts s);
  let s := {| st_workspaces := st_workspaces s; st_windows := st_windows s; st_keyboard_layouts := kb;
              st_overview := st_overview s; st_config := st_config s |} in
  match o with None => Ok (s, None) | Some e =>
  '(ov, o) ← apply e (st_overview s);
  let s := {| st_workspaces := st_workspaces s; st_windows := st_windows s; st_keyboard_layouts := st_keyboard_layouts s;
              st_overview := ov; st_config := st_config s |} in
  match o with None => Ok (s, None) | Some e =>
  '(cf, o) ← apply e (st_config s);
  let s := {| st_workspaces := st_workspaces s; st_windows := st_windows s; st_keyboard_layouts := st_keyboard_layouts s;
              st_overview := st_overview s; st_config := cf |} in
  match o with None => Ok (s, None) | Some e => Ok (s, Some e)
  end end end end end.

#[export] Instance state_part : EventStreamStatePart EventStreamState :=
  {| replicate := state_replicate; apply := state_apply |}.

(** A client that passes every event to [apply]. *)
Fixpoint apply_all {S} `{!EventStreamStatePart S} (es : list Event) (s : S) : res S :=
  match es with
  | [] => Ok s
  | e :: es => '(s, _) ← apply e s; apply_all es s
  end.

(** ** Well-formed states: every entry is stored under its own id. *)
Definition keyed {A} (id : A -> Z) (m : gmap Z A) : Prop := map_Forall (fun k x => id x = k) m.
Definition state_ok (s : EventStreamState) : Prop :=
  keyed Workspace.id (workspaces (st_workspaces s)) /\ keyed Window.id (windows (st_windows s)).
End parts.

(** ** Lemmas *)
Section collect.
Context {HO : HashOrder} {A : Type} (id : A -> Z).
Implicit Types (m : gmap Z A) (l : list A).

Lemma collect_snoc l x : collect id (l ++ [x]) = <[id x := x]> (collect id l).
Proof. unfold collect. by rewrite foldl_app. Qed.

Lemma collect_lookup_Some l k x :
  NoDup (id <$> l) -> (collect id l !! k = Some x <-> x ∈ l /\ id x = k).
Proof.
  induction l as [|y l IH] using rev_ind; intros Hnd.
  - unfold collect; cbn. rewrite lookup_empty. split; [done|].
    intros [H%elem_of_nil _]. done.
  - rewrite fmap_app in Hnd. apply NoDup_app in Hnd as (Hnd & Hdisj & _).
    rewrite collect_snoc, lookup_insert_Some, IH, elem_of_app, list_elem_of_singleton by done.
    split; [naive_solver|]. intros [[Hx| ->] <-].
    + right. split_and!; auto. intros Heq. apply (Hdisj (id x)).
      * by apply list_elem_of_fmap_2.
      * rewrite <- Heq. by left.
    + by left.
Qed.

Lemma collect_keyed l : keyed id (collect id l).
Proof.
  induction l as [|y l IH] using rev_ind; [by apply map_Forall_empty|].
  rewrite collect_snoc. by apply map_Forall_insert_2.
Qed.

Lemma elem_of_iter m k x : (k, x) ∈ iter m <-> m !! k = Some x.
Proof. by rewrite iter_perm, elem_of_map_to_list. Qed.

Lemma NoDup_iter m : NoDup (iter m).*1.
Proof. rewrite iter_perm. apply NoDup_fst_map_to_list. Qed.

Lemma keyed_iter_ids m : keyed id m -> id <$> (iter m).*2 = (iter m).*1.
Proof.
  intros Hk. rewrite <- list_fmap_compose. apply list_fmap_ext.
  intros i [k x] Hin. apply list_elem_of_lookup_2, elem_of_iter in Hin. by apply Hk in Hin.
Qed.

(** Collecting the values of a map rebuilds the map, in any iteration order. *)
Lemma collect_iter m : keyed id m -> collect id (iter m).*2 = m.
Proof.
  intros Hk. apply map_eq_iff. intros k. apply option_eq. intros x.
  rewrite collect_lookup_Some by (rewrite keyed_iter_ids by done; apply NoDup_iter).
  split.
  - intros [Hin <-]. apply list_elem_of_fmap in Hin as ([k' y] & -> & Hin).
    apply elem_of_iter in Hin. pose proof (Hk _ _ Hin) as Heq. cbn in *. by rewrite Heq.
  - intros Hx. pose proof (Hk _ _ Hx) as Heq. split; [|done].
    apply list_elem_of_fmap. exists (k, x). by rewrite elem_of_iter.
Qed.

Lemma keyed_fmap m f : (forall x, id (f x) = id x) -> keyed id m -> keyed id (f <$> m).
Proof.
  intros Hf Hk k x. rewrite lookup_fmap_Some. intros (y & <- & Hy). rewrite Hf. by apply Hk.
Qed.

Lemma keyed_insert m k x : id x = k -> keyed id m -> keyed id (<[k := x]> m).
Proof. intros. by apply map_Forall_insert_2. Qed.

Lemma keyed_delete m k : keyed id m -> keyed id (delete k m).
Proof. intros. by apply map_Forall_delete. Qed.
End collect.

Section windows.
Context {HO : HashOrder}.
Implicit Types (m : gmap Z Window.Window).

(** The loop that breaks at the first match updates the entry of that id. *)
Lemma update_first_alter id f m :
  keyed Window.id m -> update_first id f m = alter f id m.
Proof.
  intros Hk. unfold update_first.
  destruct (list_find _ (iter m)) as [[i [k w]]|] eqn:E.
  - apply list_find_Some in E as (Hi & Hid & _). cbn in Hid.
    apply list_elem_of_lookup_2, elem_of_iter in Hi.
    pose proof (Hk _ _ Hi) as Hkw. cbn in Hkw. subst.
    apply map_eq_iff. intros j. rewrite lookup_insert, lookup_alter.
    case_decide as Hj; [|done]. subst. by rewrite Hi.
  - symmetry. apply list_find_None in E. apply map_eq_iff. intros j.
    rewrite lookup_alter. case_decide as Hj; [|done]. subst.
    destruct (m !! j) as [w|] eqn:Ej; [|done]. exfalso.
    rewrite Forall_forall in E. apply (E (j, w)); [by apply elem_of_iter|].
    by apply Hk in Ej.
Qed.

Lemma apply_layouts_keyed changes m m' :
  keyed Window.id m -> apply_layouts changes m = Ok m' -> keyed Window.id m'.
Proof.
  revert m. induction changes as [|[id u] cs IH]; intros m Hk; cbn; [by intros [= <-]|].
  destruct (m !! id) as [w|] eqn:E; cbn; [|done]. apply IH.
  apply keyed_insert; [|done]. by apply Hk in E.
Qed.

Lemma windows_apply_keyed e s s' o :
  keyed Window.id (windows s) -> windows_apply e s = Ok (s', o) -> keyed Window.id (windows s').
Proof.
  intros Hk. destruct e; cbn; intros H; res_inv; try done; cbn.
  - apply collect_keyed.
  - destruct (Window.is_focused window).
    + apply keyed_fmap; [intros x; by destruct (negb _)|]. by apply keyed_insert.
    + by apply keyed_insert.
  - by apply keyed_delete.
  - by apply keyed_fmap.
  - rewrite update_first_alter by done.
    intros k x. rewrite lookup_alter_Some. intros [(-> & y & Hy & ->)|[_ Hx]]; [by apply Hk in Hy|by apply Hk].
  - rewrite update_first_alter by done.
    intros k x. rewrite lookup_alter_Some. intros [(-> & y & Hy & ->)|[_ Hx]]; [by apply Hk in Hy|by apply Hk].
  - by eapply apply_layouts_keyed.
Qed.

Lemma workspaces_apply_keyed e s s' o :
  keyed Workspace.id (workspaces s) -> workspaces_apply e s = Ok (s', o) ->
  keyed Workspace.id (workspaces s').
Proof.
  intros Hk. destruct e; cbn; intros H; res_inv; try done; cbn.
  - apply collect_keyed.
  - apply keyed_fmap; [|done]. intros x. by destruct (_ =? _).
  - apply keyed_fmap; [|done]. intros x. by destruct (bool_decide _), focused.
  - apply keyed_insert; [|done]. unfold unwrap in E.
    destruct (workspaces s !! _) as [w|] eqn:Ew; [|done]. injection E as <-. by apply Hk in Ew.
Qed.
End windows.

(** ** Theorems *)
Section theorems.
Context {HO : HashOrder}.

Lemma apply_all_app {S} `{!EventStreamStatePart S} es es' (s : S) :
  apply_all (es ++ es') s = (s ← apply_all es s; apply_all es' s).
Proof.
  revert s. induction es as [|e es IH]; intros s; cbn; [done|].
  destruct (apply e s) as [[s' o]|]; cbn; [apply IH|done].
Qed.

Lemma replicate_rebuilds s : state_ok s -> apply_all (replicate s) default_state = Ok s.
Proof.
  intros [Hws Hwn]. destruct s as [[ws] [wn] [kb] [ov] [cf]]; cbn in Hws, Hwn.
  cbn [replicate state_part]. unfold state_replicate; cbn.
  rewrite (collect_iter Workspace.id) by done. rewrite !(collect_iter Window.id) by done.
  unfold keyboard_layouts_replicate; destruct kb; cbn; done.
Qed.

(** C35: the events of [replicate], applied in order to the default state,
    rebuild exactly the state they were taken from, whatever the hash map
    iteration orders; this is how a new event stream client starts out. *)
Theorem replicate_apply_roundtrip s :
  state_ok s -> apply_all (replicate s) default_state = Ok s.
Proof. apply replicate_rebuilds. Qed.

Lemma apply_consumed e s s' o :
  state_ok s -> apply e s = Ok (s', o) ->
  state_ok s' /\ o = match e with ScreenshotCaptured _ => Some e | _ => None end.
Proof.
  intros [Hws Hwn]. cbn [apply state_part]. unfold state_apply. intros H.
  destruct (apply e (st_workspaces s)) as [[ws o1]|] eqn:E1; cbn [mbind res_bind] in H; [|done].
  pose proof (workspaces_apply_keyed _ _ _ _ Hws E1) as Hws'.
  destruct (apply e (st_windows s)) as [[wn o2]|] eqn:E2;
    [pose proof (windows_apply_keyed _ _ _ _ Hwn E2) as Hwn'|].
  all: unfold state_ok; destruct e; cbn in E1, E2, H; simplify_eq/=; res_inv; simplify_eq/=; auto.
  all: try (rewrite E2 in H; cbn in H; simplify_eq/=; auto).
Qed.

Lemma apply_ok_state e s s' o : state_ok s -> apply e s = Ok (s', o) -> state_ok s'.
Proof. intros Hs He. by destruct (apply_consumed e s s' o). Qed.

(** C36: a state whose entries are stored under their own ids stays so under
    every event that does not panic, and the only event the full state hands
    back unused is [ScreenshotCaptured]: every other event is consumed by a
    part. *)
Theorem apply_state_ok e s s' o :
  state_ok s -> apply e s = Ok (s', o) ->
  state_ok s' /\ o = match e with ScreenshotCaptured _ => Some e | _ => None end.
Proof. apply apply_consumed. Qed.
End theorems.

(** ** Concrete instances *)
Definition hash_order0 : HashOrder :=
  {| iter := fun A m => map_to_list m; iter_perm := fun A m => Permutation_refl _ |}.

Definition ws0 (i : Z) (active focused : bool) : Workspace.Workspace :=
  {| Workspace.id := i; Workspace.idx := i; Workspace.name := None; Workspace.output := Some "DP-1"%string;
     Workspace.is_urgent := false; Workspace.is_active := active; Workspace.is_focused := focused;
     Workspace.active_window_id := None |}.

Definition state0 : EventStreamState :=
  {| st_workspaces := {| workspaces := {[1 := ws0 1 true true; 2 := ws0 2 false false]} |};
     st_windows := {| windows := ∅ |};
     st_keyboard_layouts := {| keyboard_layouts := Some {| names := ["us"%string]; current_idx := 0 |} |};
     st_overview := {| is_open := true |}; st_config := {| failed := false |} |}.

Lemma state0_ok : state_ok state0.
Proof.
  split; cbn; [|by apply map_Forall_empty].
  apply map_Forall_insert_2; [done|]. by apply map_Forall_singleton.
Qed.

Lemma replicate_apply_roundtrip_witness :
  @apply_all _ (@state_part hash_order0) (@replicate _ (@state_part hash_order0) state0) default_state
  = Ok state0.
Proof. apply (@replicate_apply_roundtrip hash_order0). apply state0_ok. Defined.

Lemma apply_state_ok_witness :
  exists s', @apply _ (@state_part hash_order0) (WorkspaceActivated 2 true) state0 = Ok (s', None)
    /\ state_ok s'.
Proof.
  eexists. split; [vm_compute; reflexivity|].
  refine (proj1 (@apply_state_ok hash_order0 (WorkspaceActivated 2 true) state0 _ None state0_ok _)).
  vm_compute; reflexivity.
Defined.
