(* ===== verification/IpcServer.v ===== *)
(** * The IPC server's event streams (src/ipc/server.rs)

    The server keeps a copy of the event stream state, compares it with the
    layout after every event loop cycle, and sends the difference as events:
    to its own copy through [apply] and to every connected client through a
    bounded channel.  What the server reads of the layout is the record
    [LayoutView]: the iterators [Layout::workspaces] and [Layout::with_windows]
    as lists, and the active workspace. *)

From stdpp Require Import base numbers option list gmap strings.
From Stdlib Require Import ZArith.
From S2P Require Import Prelude.
From S2P Require Import F64.
From S2P Require Import Duration.
From S2P Require Import IpcTypes.
From S2P Require Import IpcState.

Local Open Scope Z_scope.

(** ** What is read of the layout *)
Record MonitorView := { mv_output_name : string; mv_active_workspace_idx : nat }.
Record WorkspaceView := {
  wv_mon : option MonitorView;
  wv_idx : nat;
  wv_id : Z;
  wv_name : option string;
  wv_active_window : option Z;
  wv_is_urgent : bool
}.
Record WindowView := {
  nv_id : Z;
  nv_title : option string;
  nv_app_id : option string;
  nv_pid : option Z;
  nv_workspace_id : option Z;
  nv_is_focused : bool;
  nv_is_floating : bool;
  nv_is_urgent : bool;
  nv_layout : WindowLayout.WindowLayout;
  nv_focus_timestamp : option Duration
}.
Record LayoutView := {
  lv_workspaces : list WorkspaceView;
  lv_active_workspace : option Z;
  lv_windows : list WindowView;
  lv_is_overview_open : bool
}.

(** [u8::try_from(ws_idx + 1).unwrap_or(u8::MAX)] *)
Definition ipc_idx (ws_idx : nat) : Z := Z.min (Z.of_nat ws_idx + 1) 255.

Definition is_active_on (ws : WorkspaceView) : bool :=
  match wv_mon ws with
  | Some mon => bool_decide (mv_active_workspace_idx mon = wv_idx ws)
  | None => false
  end.

Definition make_ipc_workspace (focused_ws_id : option Z) (ws : WorkspaceView) : Workspace.Workspace :=
  {| Workspace.id := wv_id ws;
     Workspace.idx := ipc_idx (wv_idx ws);
     Workspace.name := wv_name ws;
     Workspace.output := mv_output_name <$> wv_mon ws;
     Workspace.is_urgent := wv_is_urgent ws;
     Workspace.is_active := is_active_on ws;
     Workspace.is_focused := bool_decide (Some (wv_id ws) = focused_ws_id);
     Workspace.active_window_id := wv_active_window ws |}.

Definition make_ipc_window (w : WindowView) : Window.Window :=
  {| Window.id := nv_id w;
     Window.title := nv_title w;
     Window.app_id := nv_app_id w;
     Window.pid := nv_pid w;
     Window.workspace_id := nv_workspace_id w;
     Window.is_focused := nv_is_focused w;
     Window.is_floating := nv_is_floating w;
     Window.is_urgent := nv_is_urgent w;
     Window.layout := nv_layout w;
     Window.focus_timestamp := timestamp_from <$> nv_focus_timestamp w |}.

(** ** Workspaces *)

(** Changes of one workspace that have no event of their own. *)
Definition ws_needs_full (ipc_ws : Workspace.Workspace) (ws : WorkspaceView) : bool :=
  negb (Workspace.idx ipc_ws =? ipc_idx (wv_idx ws))
  || negb (bool_decide (Workspace.name ipc_ws = wv_name ws))
  || negb (bool_decide (Workspace.output ipc_ws = mv_output_name <$> wv_mon ws)).

(** The events for the changes of one workspace, in order. *)
Definition ws_events (focused_ws_id : option Z) (ipc_ws : Workspace.Workspace) (ws : WorkspaceView) : list Event :=
  let id := wv_id ws in
  (if bool_decide (Workspace.active_window_id ipc_ws = wv_active_window ws) then []
   else [WorkspaceActiveWindowChanged id (wv_active_window ws)])
  ++ (if Bool.eqb (wv_is_urgent ws) (Workspace.is_urgent ipc_ws) then []
      else [WorkspaceUrgencyChanged id (wv_is_urgent ws)])
  ++ (let is_focused := bool_decide (Some id = focused_ws_id) in
      if is_focused && negb (Workspace.is_focused ipc_ws) then [WorkspaceActivated id true]
      else if is_active_on ws && negb (Workspace.is_active ipc_ws) then [WorkspaceActivated id false]
      else []).

(** The loop over the workspaces: [None] when it breaks because the whole list
    has to be sent. *)
Fixpoint ws_loop (focused_ws_id : option Z) (m : gmap Z Workspace.Workspace) (wss : list WorkspaceView)
    : option (list Event) :=
  match wss with
  | [] => Some []
  | ws :: wss =>
      match m !! wv_id ws with
      | None => None
      | Some ipc_ws =>
          if ws_needs_full ipc_ws ws then None
          else es ← ws_loop focused_ws_id m wss; Some (ws_events focused_ws_id ipc_ws ws ++ es)
      end
  end.

(** The events of [ipc_refresh_workspaces]. *)
Definition refresh_workspaces_events (m : gmap Z Workspace.Workspace) (l : LayoutView) : list Event :=
  let focused_ws_id := lv_active_workspace l in
  let full := [WorkspacesChanged (make_ipc_workspace focused_ws_id <$> lv_workspaces l)] in
  match ws_loop focused_ws_id m (lv_workspaces l) with
  | None => full
  | Some events =>
      (* Workspaces of the state that are no longer in the layout. *)
      if bool_decide (map_Exists (fun id _ => id ∉ wv_id <$> lv_workspaces l) m) then full else events
  end.

(** ** Windows *)
Section windows.
Context {HO : HashOrder}.

Definition win_changed (ipc_win : Window.Window) (w : WindowView) : bool :=
  negb (bool_decide (Window.workspace_id ipc_win = nv_workspace_id w))
  || negb (Bool.eqb (Window.is_floating ipc_win) (nv_is_floating w))
  || negb (bool_decide (Window.title ipc_win = nv_title w))
  || negb (bool_decide (Window.app_id ipc_win = nv_app_id w)).

(** One window: its events, and its entry for the layout batch. *)
Definition win_events (m : gmap Z Window.Window) (w : WindowView)
    : list Event * list (Z * WindowLayout.WindowLayout) :=
  let id := nv_id w in
  match m !! id with
  | None => ([WindowOpenedOrChanged (make_ipc_window w)], [])
  | Some ipc_win =>
      if win_changed ipc_win w then ([WindowOpenedOrChanged (make_ipc_window w)], [])
      else
        ((if nv_is_focused w && negb (Window.is_focused ipc_win) then [WindowFocusChanged (Some id)] else [])
         ++ (let focus_timestamp := timestamp_from <$> nv_focus_timestamp w in
             if bool_decide (focus_timestamp = Window.focus_timestamp ipc_win) then []
             else [WindowFocusTimestampChanged id focus_timestamp])
         ++ (if Bool.eqb (nv_is_urgent w) (Window.is_urgent ipc_win) then []
             else [WindowUrgencyChanged id (nv_is_urgent w)]),
         if WindowLayout.eqb (Window.layout ipc_win) (nv_layout w) then [] else [(id, nv_layout w)])
  end.

(** The events of [ipc_refresh_windows]. *)
Definition refresh_windows_events (m : gmap Z Window.Window) (l : LayoutView) : list Event :=
  let ws := lv_windows l in
  let per_window := win_events m <$> ws in
  let batch := concat per_window.*2 in
  let seen := nv_id <$> ws in
  concat per_window.*1
  ++ (match batch with [] => [] | _ => [WindowLayoutsChanged batch] end)
  ++ (iter m ≫= fun kw => if bool_decide (kw.1 ∈ seen) then [] else [WindowClosed kw.1])
  ++ (if negb (existsb nv_is_focused ws) && existsb (fun kw => Window.is_focused kw.2) (iter m)
      then [WindowFocusChanged None] else []).

(** ** Event streams *)
Definition EVENT_STREAM_BUFFER_SIZE : nat := 64.

(** The sending half of a client's bounded channel: the events not yet read,
    whether the receiver is gone, and the client it belongs to. *)
Record EventStreamSender := { client : Z; queue : list Event; closed : bool }.

Record IpcServer := {
  event_streams : list EventStreamSender;
  event_stream_state : EventStreamState
}.

Definition new_server : IpcServer := {| event_streams := []; event_stream_state := default_state |}.

(** [try_send]: [None] when the channel is closed or full. *)
Definition try_send (e : Event) (s : EventStreamSender) : option EventStreamSender :=
  if closed s then None
  else if decide (length (queue s) < EVENT_STREAM_BUFFER_SIZE)%nat
  then Some {| client := client s; queue := queue s ++ [e]; closed := false |}
  else None.

(** [swap_remove]: the last element takes the place of the removed one. *)
Definition swap_remove {A} (i : nat) (l : list A) : list A :=
  match last l with
  | Some x => if decide (S i = length l) then removelast l else removelast (<[i := x]> l)
  | None => l
  end.

Definition failed_indices (e : Event) (ss : list EventStreamSender) : list nat :=
  List.filter (fun i => match ss !! i with
                        | Some s => match try_send e s with None => true | Some _ => false end
                        | None => false
                        end)
    (seq 0 (length ss)).

Definition send_event (e : Event) (ss : list EventStreamSender) : list EventStreamSender :=
  let to_remove := failed_indices e ss in
  let ss := (fun s => default s (try_send e s)) <$> ss in
  foldl (fun ss i => swap_remove i ss) ss (reverse to_remove).

(** A part of the state: the source borrows the part and applies the event to
    it alone. *)
Record Part (P : Type) := {
  get_part : EventStreamState -> P;
  set_part : P -> EventStreamState -> EventStreamState
}.
Arguments get_part {P}.
Arguments set_part {P}.

Definition workspaces_of : Part WorkspacesState :=
  {| get_part := st_workspaces;
     set_part := fun p s => {| st_workspaces := p; st_windows := st_windows s;
       st_keyboard_layouts := st_keyboard_layouts s; st_overview := st_overview s; st_config := st_config s |} |}.
Definition windows_of : Part WindowsState :=
  {| get_part := st_windows;
     set_part := fun p s => {| st_workspaces := st_workspaces s; st_windows := p;
       st_keyboard_layouts := st_keyboard_layouts s; st_overview := st_overview s; st_config := st_config s |} |}.
Definition keyboard_layouts_of : Part KeyboardLayoutsState :=
  {| get_part := st_keyboard_layouts;
     set_part := fun p s => {| st_workspaces := st_workspaces s; st_windows := st_windows s;
       st_keyboard_layouts := p; st_overview := st_overview s; st_config := st_config s |} |}.
Definition overview_of : Part OverviewState :=
  {| get_part := st_overview;
     set_part := fun p s => {| st_workspaces := st_workspaces s; st_windows := st_windows s;
       st_keyboard_layouts := st_keyboard_layouts s; st_overview := p; st_config := st_config s |} |}.
Definition whole : Part EventStreamState := {| get_part := fun s => s; set_part := fun p _ => p |}.

(** [state.apply(event.clone()); server.send_event(event);] for each event *)
Fixpoint emit {P} `{!EventStreamStatePart P} (pt : Part P) (es : list Event) (srv : IpcServer) : res IpcServer :=
  match es with
  | [] => Ok srv
  | e :: es =>
      '(p, _) ← apply e (get_part pt (event_stream_state srv));
      emit pt es {| event_streams := send_event e (event_streams srv);
                    event_stream_state := set_part pt p (event_stream_state srv) |}
  end.

Definition ipc_refresh_workspaces (l : LayoutView) (srv : IpcServer) : res IpcServer :=
  emit workspaces_of
    (refresh_workspaces_events (workspaces (st_workspaces (event_stream_state srv))) l) srv.

Definition ipc_refresh_windows (l : LayoutView) (srv : IpcServer) : res IpcServer :=
  emit windows_of (refresh_windows_events (windows (st_windows (event_stream_state srv))) l) srv.

Definition ipc_refresh_overview (l : LayoutView) (srv : IpcServer) : res IpcServer :=
  if Bool.eqb (is_open (st_overview (event_stream_state srv))) (lv_is_overview_open l) then Ok srv
  else emit overview_of [OverviewOpenedOrClosed (lv_is_overview_open l)] srv.

Definition ipc_refresh_layout (l : LayoutView) (srv : IpcServer) : res IpcServer :=
  srv ← ipc_refresh_workspaces l srv;
  srv ← ipc_refresh_windows l srv;
  ipc_refresh_overview l srv.

(** [k] is what xkb reports about the keyboard. *)
Definition ipc_keyboard_layouts_changed (k : KeyboardLayouts) (srv : IpcServer) : res IpcServer :=
  emit keyboard_layouts_of [KeyboardLayoutsChanged k] srv.

Definition ipc_refresh_keyboard_layout_index (idx : Z) (srv : IpcServer) : res IpcServer :=
  kb ← unwrap (keyboard_layouts (st_keyboard_layouts (event_stream_state srv)));
  if current_idx kb =? idx then Ok srv else emit keyboard_layouts_of [KeyboardLayoutSwitched idx] srv.

Definition ipc_config_loaded (failed : bool) (srv : IpcServer) : res IpcServer :=
  emit whole [ConfigLoaded failed] srv.

Definition ipc_screenshot_taken (path : option string) (srv : IpcServer) : res IpcServer :=
  emit whole [ScreenshotCaptured path] srv.

(** The [EventStream] request in [handle_client]: the initial burst goes into a
    fresh channel, which must hold it, and the channel joins the list. *)
Definition burst (es : list Event) (s : EventStreamSender) : res EventStreamSender :=
  foldl (fun s e => s ← s; unwrap (try_send e s)) (Ok s) es.

Definition handle_event_stream_request (c : Z) (srv : IpcServer) : res IpcServer :=
  s ← burst (replicate (event_stream_state srv)) {| client := c; queue := []; closed := false |};
  mret {| event_streams := event_streams srv ++ [s]; event_stream_state := event_stream_state srv |}.
End windows.
Arguments get_part {P}.
Arguments set_part {P}.

(** ** What a layout provides *)

(** Facts about the workspaces of a layout: ids are unique; the workspaces of
    an output agree on its active index and have distinct indices; every output
    has its active workspace; the focused workspace is active on its output; and
    without a focused workspace there are no outputs. *)
Record workspaces_ok (l : LayoutView) : Prop := {
  wo_ids : NoDup (wv_id <$> lv_workspaces l);
  wo_unique : forall a b, a ∈ lv_workspaces l -> b ∈ lv_workspaces l ->
    is_active_on a = true -> is_active_on b = true ->
    mv_output_name <$> wv_mon a = mv_output_name <$> wv_mon b -> wv_id a = wv_id b;
  wo_exists : forall a m, a ∈ lv_workspaces l -> wv_mon a = Some m ->
    exists b, b ∈ lv_workspaces l /\ is_active_on b = true
      /\ mv_output_name <$> wv_mon b = Some (mv_output_name m);
  wo_focused : forall id, lv_active_workspace l = Some id ->
    exists a, a ∈ lv_workspaces l /\ wv_id a = id /\ is_active_on a = true;
  wo_unfocused : forall a, lv_active_workspace l = None -> a ∈ lv_workspaces l -> wv_mon a = None
}.

Definition workspaces_snapshot (l : LayoutView) : gmap Z Workspace.Workspace :=
  collect Workspace.id (make_ipc_workspace (lv_active_workspace l) <$> lv_workspaces l).

(** ** Incremental workspace updates *)
Section workspaces.
Context {HO : HashOrder}.
Implicit Types (m : gmap Z Workspace.Workspace) (w : Workspace.Workspace) (ws : WorkspaceView).

(** The effect of an incremental event on one workspace; [out] tells the
    outputs of workspaces. *)
Definition ws_eff (out : Z -> option (option string)) (w : Workspace.Workspace) (e : Event) : Workspace.Workspace :=
  match e with
  | WorkspaceActiveWindowChanged k a =>
      if Workspace.id w =? k then Workspace.set_active_window_id a w else w
  | WorkspaceUrgencyChanged k u =>
      if Workspace.id w =? k then Workspace.set_is_urgent u w else w
  | WorkspaceActivated k f =>
      let w' := if bool_decide (Some (Workspace.output w) = out k)
                then Workspace.set_is_active (Workspace.id w =? k) w else w in
      if f then Workspace.set_is_focused (Workspace.id w =? k) w' else w'
  | _ => w
  end.

Definition ws_local (m : gmap Z Workspace.Workspace) (e : Event) : Prop :=
  match e with
  | WorkspaceActiveWindowChanged k _ | WorkspaceUrgencyChanged k _ | WorkspaceActivated k _ => is_Some (m !! k)
  | _ => False
  end.

Definition outputs m : Z -> option (option string) := fun k => Workspace.output <$> m !! k.

Lemma ws_eff_id out w e : Workspace.id (ws_eff out w e) = Workspace.id w.
Proof. destruct e; cbn; try done; [by destruct (_ =? _)| |by destruct (_ =? _)]. by destruct focused, (bool_decide _). Qed.
Lemma ws_eff_output out w e : Workspace.output (ws_eff out w e) = Workspace.output w.
Proof. destruct e; cbn; try done; [by destruct (_ =? _)| |by destruct (_ =? _)]. by destruct focused, (bool_decide _). Qed.
Lemma ws_eff_static out w e :
  Workspace.idx (ws_eff out w e) = Workspace.idx w /\ Workspace.name (ws_eff out w e) = Workspace.name w.
Proof. destruct e; cbn; try done; [by destruct (_ =? _)| |by destruct (_ =? _)]. by destruct focused, (bool_decide _). Qed.

Lemma workspaces_apply_pointwise m e :
  keyed Workspace.id m -> ws_local m e ->
  workspaces_apply e {| workspaces := m |}
  = Ok ({| workspaces := (fun w => ws_eff (outputs m) w e) <$> m |}, None).
Proof.
  intros Hk Hl. destruct e; cbn in *; try done.
  - destruct Hl as [w0 Hw0]. rewrite Hw0. cbn. do 3 f_equal. apply map_fmap_ext.
    intros i w Hi. unfold outputs. rewrite Hw0. cbn.
    destruct (decide (Workspace.output w = Workspace.output w0));
      [by rewrite !bool_decide_true by congruence|by rewrite !bool_decide_false by congruence].
  - destruct Hl as [w0 Hw0]. rewrite Hw0. cbn. do 3 f_equal. apply map_eq_iff. intros i.
    rewrite lookup_insert, lookup_fmap. case_decide as Hi.
    + subst. rewrite Hw0. cbn. rewrite (Hk _ _ Hw0). by rewrite Z.eqb_refl.
    + destruct (m !! i) as [w|] eqn:Ei; cbn; [|done]. rewrite (Hk _ _ Ei).
      destruct (Z.eqb_spec i workspace_id); [congruence|done].
Qed.

Lemma outputs_fmap m (f : Workspace.Workspace -> Workspace.Workspace) :
  (forall w, Workspace.output (f w) = Workspace.output w) -> forall k, outputs (f <$> m) k = outputs m k.
Proof. intros Hf k. unfold outputs. rewrite lookup_fmap. destruct (m !! k); cbn; [by rewrite Hf|done]. Qed.

Lemma ws_eff_ext out out' w e : (forall k, out k = out' k) -> ws_eff out w e = ws_eff out' w e.
Proof. intros H. destruct e; cbn; try done. by rewrite H. Qed.

Lemma workspaces_apply_all m es :
  keyed Workspace.id m -> Forall (ws_local m) es ->
  apply_all es {| workspaces := m |}
  = Ok {| workspaces := (fun w => foldl (ws_eff (outputs m)) w es) <$> m |}.
Proof.
  revert m. induction es as [|e es IH]; intros m Hk Hl.
  { cbn. by rewrite map_fmap_id. }
  inversion Hl as [|? ? Hl1 Hl2]; subst. cbn [apply_all apply workspaces_part].
  rewrite workspaces_apply_pointwise by done. cbn [mbind res_bind].
  rewrite IH.
  - do 2 f_equal. rewrite <- map_fmap_compose. apply map_fmap_ext. intros i w _. cbn.
    assert (Hext : forall w', foldl (ws_eff (outputs ((fun w => ws_eff (outputs m) w e) <$> m))) w' es
      = foldl (ws_eff (outputs m)) w' es); [|by rewrite Hext].
    clear -HO. induction es as [|e' es IH]; intros w'; cbn; [done|].
    rewrite IH. f_equal. apply ws_eff_ext. apply outputs_fmap. intros; apply ws_eff_output.
  - apply keyed_fmap; [|done]. intros; apply ws_eff_id.
  - eapply Forall_impl; [exact Hl2|]. intros e' He'. destruct e'; cbn in *; try done;
      rewrite lookup_fmap; by apply fmap_is_Some.
Qed.

(** *** What the events of the loop do, field by field *)
Context (m : gmap Z Workspace.Workspace) (foc : option Z).

(** The events generated for one workspace of the layout. *)
Definition evs ws : list Event :=
  match m !! wv_id ws with Some i => ws_events foc i ws | None => [] end.

Abbreviation run_evs w l := (foldl (ws_eff (outputs m)) w (l ≫= evs)).

Lemma ws_loop_Some wss es :
  ws_loop foc m wss = Some es ->
  es = wss ≫= evs
  /\ Forall (fun ws => exists i, m !! wv_id ws = Some i /\ ws_needs_full i ws = false) wss.
Proof.
  revert es. induction wss as [|ws wss IH]; intros es; cbn; [by intros [= <-]|].
  unfold evs at 1. destruct (m !! wv_id ws) as [i|] eqn:Ei; [|done].
  destruct (ws_needs_full i ws) eqn:En; [done|].
  destruct (ws_loop foc m wss) as [es'|]; cbn; [|done]. intros [= <-].
  destruct (IH es' eq_refl) as [-> HF]. split; [done|]. constructor; eauto.
Qed.

Lemma evs_local wss :
  Forall (fun ws => exists i, m !! wv_id ws = Some i /\ ws_needs_full i ws = false) wss ->
  Forall (ws_local m) (wss ≫= evs).
Proof.
  intros HF. apply Forall_bind. eapply Forall_impl; [exact HF|].
  intros ws (i & Hi & _). unfold compose, evs. rewrite Hi. unfold ws_events.
  assert (is_Some (m !! wv_id ws)) by eauto.
  rewrite !Forall_app. split_and!; repeat case_match; repeat constructor; done.
Qed.

Lemma fold_id w es : Workspace.id (foldl (ws_eff (outputs m)) w es) = Workspace.id w.
Proof. revert w. induction es as [|e es IH]; intros w; cbn; [done|]. rewrite IH. apply ws_eff_id. Qed.

Lemma fold_static w es :
  let w' := foldl (ws_eff (outputs m)) w es in
  Workspace.output w' = Workspace.output w /\ Workspace.idx w' = Workspace.idx w
  /\ Workspace.name w' = Workspace.name w.
Proof.
  revert w. induction es as [|e es IH]; intros w; cbn; [done|].
  destruct (IH (ws_eff (outputs m) w e)) as (-> & -> & ->).
  rewrite ws_eff_output. by destruct (ws_eff_static (outputs m) w e) as [-> ->].
Qed.

(** The kind of activation event generated for [ws], if any. *)
Definition act ws : option bool :=
  match m !! wv_id ws with
  | Some i =>
      if bool_decide (Some (wv_id ws) = foc) && negb (Workspace.is_focused i) then Some true
      else if is_active_on ws && negb (Workspace.is_active i) then Some false
      else None
  | None => None
  end.

Lemma evs_fields w ws i :
  m !! wv_id ws = Some i ->
  let w' := foldl (ws_eff (outputs m)) w (evs ws) in
  Workspace.active_window_id w'
    = (if Workspace.id w =? wv_id ws then
         if bool_decide (Workspace.active_window_id i = wv_active_window ws)
         then Workspace.active_window_id w else wv_active_window ws
       else Workspace.active_window_id w)
  /\ Workspace.is_urgent w'
    = (if Workspace.id w =? wv_id ws then
         if Bool.eqb (wv_is_urgent ws) (Workspace.is_urgent i) then Workspace.is_urgent w else wv_is_urgent ws
       else Workspace.is_urgent w)
  /\ Workspace.is_active w'
    = (match act ws with
       | Some _ => if bool_decide (Some (Workspace.output w) = outputs m (wv_id ws))
                   then Workspace.id w =? wv_id ws else Workspace.is_active w
       | None => Workspace.is_active w
       end)
  /\ Workspace.is_focused w'
    = (match act ws with Some true => Workspace.id w =? wv_id ws | _ => Workspace.is_focused w end).
Proof.
  intros Hi. unfold evs, act. rewrite Hi. unfold ws_events.
  destruct (bool_decide (Workspace.active_window_id i = _));
  destruct (Bool.eqb _ _);
  destruct (bool_decide (Some (wv_id ws) = foc) && negb (Workspace.is_focused i));
  try (destruct (is_active_on ws && negb (Workspace.is_active i))); cbn;
  destruct (Workspace.id w =? wv_id ws) eqn:E; cbn; rewrite ?E; cbn;
  try (destruct (bool_decide (Some (Workspace.output w) = _)) eqn:E2); cbn; rewrite ?E, ?E2; cbn; rewrite ?E; done.
Qed.

Abbreviation in_sync_static ws := (exists i, m !! wv_id ws = Some i /\ ws_needs_full i ws = false).

Lemma run_evs_cons w ws l : run_evs w (ws :: l) = run_evs (foldl (ws_eff (outputs m)) w (evs ws)) l.
Proof. cbn. by rewrite foldl_app. Qed.

Lemma run_other l w :
  Forall (fun ws => in_sync_static ws) l -> Workspace.id w ∉ wv_id <$> l ->
  Workspace.active_window_id (run_evs w l) = Workspace.active_window_id w
  /\ Workspace.is_urgent (run_evs w l) = Workspace.is_urgent w.
Proof.
  revert w. induction l as [|ws l IH]; intros w HF Hn; [done|]. rewrite run_evs_cons.
  inversion HF as [|? ? (i & Hi & _) HF2]; subst.
  rewrite fmap_cons, not_elem_of_cons in Hn. destruct Hn as [Hne Hn].
  destruct (evs_fields w ws i Hi) as (Ha & Hu & _).
  rewrite (proj2 (Z.eqb_neq _ _) Hne) in Ha, Hu.
  destruct (IH (foldl (ws_eff (outputs m)) w (evs ws)) HF2) as [-> ->]; [by rewrite fold_id|].
  by rewrite Ha, Hu.
Qed.

Lemma run_self l w ws i :
  NoDup (wv_id <$> l) -> Forall (fun ws => in_sync_static ws) l -> ws ∈ l -> wv_id ws = Workspace.id w ->
  m !! Workspace.id w = Some i ->
  Workspace.active_window_id w = Workspace.active_window_id i -> Workspace.is_urgent w = Workspace.is_urgent i ->
  Workspace.active_window_id (run_evs w l) = wv_active_window ws
  /\ Workspace.is_urgent (run_evs w l) = wv_is_urgent ws.
Proof.
  revert w. induction l as [|a l IH]; intros w Hnd HF Hin Hid Hi Haw Hur; [by apply elem_of_nil in Hin|].
  rewrite run_evs_cons. rewrite fmap_cons, NoDup_cons in Hnd. destruct Hnd as [Hna Hnd].
  inversion HF as [|? ? (j & Hj & _) HF2]; subst.
  destruct (evs_fields w a j Hj) as (Ha & Hu & _).
  apply elem_of_cons in Hin as [->|Hin].
  - destruct (run_other l (foldl (ws_eff (outputs m)) w (evs a)) HF2) as [-> ->];
      [by rewrite fold_id, <- Hid|].
    rewrite Hid in Hj. rewrite Hj in Hi. injection Hi as ->.
    rewrite Hid, Z.eqb_refl in Ha, Hu. rewrite Ha, Hu, Haw, Hur. split.
    + case_bool_decide; done.
    + destruct (Bool.eqb _ _) eqn:E; [|done]. by apply Bool.eqb_prop in E.
  - assert (Hne : Workspace.id w <> wv_id a).
    { intros Heq. apply Hna. rewrite <- Heq, <- Hid. by apply list_elem_of_fmap_2. }
    rewrite (proj2 (Z.eqb_neq _ _) Hne) in Ha, Hu.
    apply IH; rewrite ?fold_id, ?Ha, ?Hu; done.
Qed.

Lemma run_active l w u :
  Forall (fun ws => in_sync_static ws) l ->
  (forall ws, ws ∈ l -> act ws <> None -> outputs m (wv_id ws) = Some (Workspace.output w) ->
     (Workspace.id w =? wv_id ws) = is_active_on u) ->
  Workspace.is_active (run_evs w l) = is_active_on u
  \/ (Workspace.is_active (run_evs w l) = Workspace.is_active w
      /\ forall ws, ws ∈ l -> act ws <> None -> outputs m (wv_id ws) <> Some (Workspace.output w)).
Proof.
  revert w. induction l as [|a l IH]; intros w HF Hact.
  { right. split; [done|]. intros ws Hin. by apply elem_of_nil in Hin. }
  rewrite run_evs_cons. inversion HF as [|? ? (j & Hj & _) HF2]; subst.
  destruct (evs_fields w a j Hj) as (_ & _ & Ha & _).
  destruct (fold_static w (evs a)) as (Ho & _).
  set (w' := foldl (ws_eff (outputs m)) w (evs a)) in *.
  destruct (IH w' HF2) as [Hl|[Hl Hno]].
  { intros ws Hin. rewrite Ho. unfold w'. rewrite fold_id. apply Hact. by right. }
  - by left.
  - rewrite Hl, Ha. rewrite Ho in Hno.
    destruct (act a) as [b|] eqn:Eact.
    + case_bool_decide as Hout.
      * left. apply Hact; [by left|by rewrite Eact|done].
      * right. split; [done|]. intros ws [->|Hin]%elem_of_cons Hws; [congruence|by apply Hno].
    + right. split; [done|]. intros ws [->|Hin]%elem_of_cons Hws; [congruence|by apply Hno].
Qed.

Lemma run_focused l w :
  Forall (fun ws => in_sync_static ws) l ->
  Workspace.is_focused (run_evs w l) = bool_decide (Some (Workspace.id w) = foc)
  \/ (Workspace.is_focused (run_evs w l) = Workspace.is_focused w
      /\ forall ws, ws ∈ l -> act ws <> Some true).
Proof.
  revert w. induction l as [|a l IH]; intros w HF.
  { right. split; [done|]. intros ws Hin. by apply elem_of_nil in Hin. }
  rewrite run_evs_cons. inversion HF as [|? ? (j & Hj & _) HF2]; subst.
  destruct (evs_fields w a j Hj) as (_ & _ & _ & Hf).
  destruct (IH (foldl (ws_eff (outputs m)) w (evs a)) HF2) as [Hl|[Hl Hno]].
  - left. by rewrite fold_id in Hl.
  - rewrite Hl, Hf. destruct (act a) as [[]|] eqn:Eact.
    + left. unfold act in Eact. rewrite Hj in Eact.
      destruct (bool_decide (Some (wv_id a) = foc)) eqn:Efoc; cbn in Eact;
        [|by destruct (_ && _)]. apply bool_decide_eq_true in Efoc.
      destruct (Z.eqb_spec (Workspace.id w) (wv_id a)) as [->|Hne];
        [by rewrite bool_decide_true|rewrite bool_decide_false by congruence; done].
    + right. split; [done|]. intros ws [->|Hin]%elem_of_cons; [congruence|by apply Hno].
    + right. split; [done|]. intros ws [->|Hin]%elem_of_cons; [congruence|by apply Hno].
Qed.
End workspaces.

(** *** The server's copy follows the layout *)
Section workspaces_sync.
Context {HO : HashOrder}.
Implicit Types (l : LayoutView) (ws : WorkspaceView).

Lemma snapshot_lookup l k w :
  workspaces_ok l ->
  workspaces_snapshot l !! k = Some w <->
  exists ws, ws ∈ lv_workspaces l /\ wv_id ws = k /\ w = make_ipc_workspace (lv_active_workspace l) ws.
Proof.
  intros Hok. unfold workspaces_snapshot. rewrite collect_lookup_Some.
  - rewrite list_elem_of_fmap. naive_solver.
  - rewrite <- list_fmap_compose. apply (wo_ids _ Hok).
Qed.

Lemma snapshot_keyed l : keyed Workspace.id (workspaces_snapshot l).
Proof. apply collect_keyed. Qed.

Lemma ids_inj l a b :
  workspaces_ok l -> a ∈ lv_workspaces l -> b ∈ lv_workspaces l -> wv_id a = wv_id b -> a = b.
Proof.
  intros Hok Ha Hb Heq. apply list_elem_of_lookup in Ha as [i Ha], Hb as [j Hb].
  assert (i = j) as ->; [|congruence].
  eapply (NoDup_lookup _ i j); [apply (wo_ids _ Hok)| |];
    rewrite list_lookup_fmap, ?Ha, ?Hb; cbn; [done|by rewrite Heq].
Qed.

Lemma active_mon ws : is_active_on ws = true -> exists mn, wv_mon ws = Some mn.
Proof. unfold is_active_on. destruct (wv_mon ws); eauto; done. Qed.

Lemma needs_full_false i ws :
  ws_needs_full i ws = false ->
  Workspace.idx i = ipc_idx (wv_idx ws) /\ Workspace.name i = wv_name ws
  /\ Workspace.output i = mv_output_name <$> wv_mon ws.
Proof.
  unfold ws_needs_full. rewrite !orb_false_iff, !negb_false_iff, !bool_decide_eq_true.
  rewrite Z.eqb_eq. tauto.
Qed.

Context (l0 l1 : LayoutView) (Hok0 : workspaces_ok l0) (Hok1 : workspaces_ok l1).
Abbreviation m := (workspaces_snapshot l0).
Abbreviation foc := (lv_active_workspace l1).
Context (Hst : Forall (fun ws => exists i, m !! wv_id ws = Some i /\ ws_needs_full i ws = false) (lv_workspaces l1)).

(** A workspace of the new layout that needs no full update, with its
    counterpart in the old one. *)
Lemma counterpart u :
  u ∈ lv_workspaces l1 ->
  exists v, v ∈ lv_workspaces l0 /\ wv_id v = wv_id u
    /\ m !! wv_id u = Some (make_ipc_workspace (lv_active_workspace l0) v)
    /\ ipc_idx (wv_idx v) = ipc_idx (wv_idx u) /\ wv_name v = wv_name u
    /\ mv_output_name <$> wv_mon v = mv_output_name <$> wv_mon u.
Proof.
  intros Hu. rewrite Forall_forall in Hst. destruct (Hst u Hu) as (i & Hi & Hn).
  pose proof Hi as (v & Hv & Hid & ->)%snapshot_lookup; [|done].
  apply needs_full_false in Hn as (H1 & H2 & H3). cbn in *. exists v. done.
Qed.

Lemma act_active ws : ws ∈ lv_workspaces l1 -> act m foc ws <> None -> is_active_on ws = true.
Proof.
  intros Hin. destruct (counterpart ws Hin) as (v & _ & _ & Hm & _). unfold act. rewrite Hm.
  case_bool_decide as Hf; cbn.
  - intros _. destruct (wo_focused _ Hok1 _ (eq_sym Hf)) as (a & Ha & Hid & Hact).
    by rewrite <- (ids_inj l1 a ws).
  - by destruct (is_active_on ws).
Qed.

Lemma sync_active u i :
  u ∈ lv_workspaces l1 -> m !! wv_id u = Some i ->
  Workspace.is_active (foldl (ws_eff (outputs m)) i (lv_workspaces l1 ≫= evs m foc)) = is_active_on u.
Proof.
  intros Hu Hi. destruct (counterpart u Hu) as (v & Hv & Hvid & Hm & _ & _ & Hvo).
  rewrite Hm in Hi. injection Hi as <-.
  set (i := make_ipc_workspace _ v) in *.
  assert (Hio : outputs m (wv_id u) = Some (Workspace.output i)) by (unfold outputs; by rewrite Hm).
  destruct (run_active m foc (lv_workspaces l1) i u Hst) as [->|[-> Hno]]; [|done|].
  - intros ws Hws Hact Hout.
    destruct (counterpart ws Hws) as (v' & Hv' & Hvid' & Hm' & _ & _ & Hvo').
    unfold outputs in Hout. rewrite Hm' in Hout. cbn in Hout. injection Hout as Hout.
    pose proof (act_active ws Hws Hact) as Hwa. cbn. rewrite Hvid.
    destruct (Z.eqb_spec (wv_id u) (wv_id ws)) as [Heq|Hne].
    + by rewrite (ids_inj l1 u ws).
    + destruct (is_active_on u) eqn:Eu; [|done]. exfalso. apply Hne.
      apply (wo_unique _ Hok1); try done. congruence.
  - cbn. destruct (is_active_on u) eqn:Eu, (is_active_on v) eqn:Ev; try done; exfalso.
    + apply (Hno u Hu); [|done]. unfold act. rewrite Hm, Eu. cbn. rewrite Ev. by destruct (_ && _).
    + destruct (active_mon v Ev) as [mv Hmv]. rewrite Hmv in Hvo.
      destruct (wv_mon u) as [mu|] eqn:Emu; [|done].
      destruct (wo_exists _ Hok1 u mu Hu Emu) as (b & Hb & Hba & Hbo).
      destruct (counterpart b Hb) as (v' & Hv' & Hvid' & Hm' & _ & _ & Hvo').
      destruct (is_active_on v') eqn:Ev'.
      * assert (Hidb : wv_id b = wv_id u).
        { rewrite <- Hvid', <- Hvid. apply (wo_unique _ Hok0); try done.
          rewrite Hvo', Hbo, Hmv. by rewrite Hvo. }
        apply (ids_inj l1) in Hidb; try done. congruence.
      * apply (Hno b Hb); [unfold act; rewrite Hm', Hba; cbn; rewrite Ev'; by destruct (_ && _)|].
        unfold outputs. rewrite Hm'. cbn. rewrite Hvo', Hbo, Hmv. by rewrite Hvo.
Qed.

Lemma sync_focused u i :
  u ∈ lv_workspaces l1 -> m !! wv_id u = Some i ->
  Workspace.is_focused (foldl (ws_eff (outputs m)) i (lv_workspaces l1 ≫= evs m foc))
  = bool_decide (Some (wv_id u) = foc).
Proof.
  intros Hu Hi. destruct (counterpart u Hu) as (v & Hv & Hvid & Hm & _ & _ & Hvo).
  rewrite Hm in Hi. injection Hi as <-.
  destruct (run_focused m foc (lv_workspaces l1) (make_ipc_workspace (lv_active_workspace l0) v) Hst)
    as [->|[-> Hno]]; cbn; [by rewrite Hvid|].
  rewrite Hvid. case_bool_decide as H0; case_bool_decide as H1; try done; exfalso.
  - destruct (wo_focused _ Hok0 _ (eq_sym H0)) as (a & Ha & Haid & Haa).
    assert (a = v) as -> by (apply (ids_inj l0); congruence).
    destruct foc as [x|] eqn:Ef.
    + destruct (wo_focused _ Hok1 _ Ef) as (b & Hb & Hbid & _).
      destruct (counterpart b Hb) as (v' & _ & Hvid' & Hm' & _).
      apply (Hno b Hb). unfold act. rewrite Hm', Hbid, (bool_decide_true (Some x = Some x)) by done. cbn.
      rewrite bool_decide_false; [done|]. congruence.
    + rewrite (wo_unfocused _ Hok1 u) in Hvo by done.
      destruct (active_mon _ Haa) as [mv Hmv]. by rewrite Hmv in Hvo.
  - apply (Hno u Hu). unfold act. rewrite Hm, (bool_decide_true (Some (wv_id u) = foc)) by done. cbn.
    rewrite Hvid, bool_decide_false by done. done.
Qed.

(** One entry after the incremental events. *)
Lemma sync_entry u i :
  u ∈ lv_workspaces l1 -> m !! wv_id u = Some i ->
  foldl (ws_eff (outputs m)) i (lv_workspaces l1 ≫= evs m foc) = make_ipc_workspace foc u.
Proof.
  intros Hu Hi. pose proof (sync_active u i Hu Hi) as HA. pose proof (sync_focused u i Hu Hi) as HF.
  destruct (counterpart u Hu) as (v & Hv & Hvid & Hm & H1 & H2 & H3).
  rewrite Hm in Hi. injection Hi as Hi.
  pose proof (fold_id m i (lv_workspaces l1 ≫= evs m foc)) as HI.
  destruct (fold_static m i (lv_workspaces l1 ≫= evs m foc)) as (HO1 & HO2 & HO3).
  destruct (run_self m foc (lv_workspaces l1) i u i (wo_ids _ Hok1) Hst Hu) as [HW HU]; try done.
  { subst i. cbn. by rewrite Hvid. }
  { subst i. cbn. by rewrite Hvid, Hm. }
  set (r := foldl _ i _) in *. clearbody r. destruct r; cbn in *.
  unfold make_ipc_workspace. subst i. cbn in *. f_equal; congruence.
Qed.
End workspaces_sync.

Section workspaces_theorem.
Context {HO : HashOrder}.

Lemma refresh_workspaces_full l m :
  apply_all [WorkspacesChanged (make_ipc_workspace (lv_active_workspace l) <$> lv_workspaces l)] {| workspaces := m |}
  = Ok {| workspaces := workspaces_snapshot l |}.
Proof. done. Qed.

Lemma refresh_workspaces_correct l0 l1 :
  workspaces_ok l0 -> workspaces_ok l1 ->
  apply_all (refresh_workspaces_events (workspaces_snapshot l0) l1) {| workspaces := workspaces_snapshot l0 |}
  = Ok {| workspaces := workspaces_snapshot l1 |}.
Proof.
  intros Hok0 Hok1. unfold refresh_workspaces_events.
  destruct (ws_loop _ _ _) as [es|] eqn:El; [|apply refresh_workspaces_full].
  case_bool_decide as Hex; [apply refresh_workspaces_full|].
  apply ws_loop_Some in El as [-> Hst].
  rewrite workspaces_apply_all; [|apply snapshot_keyed|by apply evs_local].
  do 2 f_equal. apply map_eq_iff. intros k. apply option_eq. intros w.
  rewrite lookup_fmap_Some, (snapshot_lookup l1) by done. split.
  - intros (i & <- & Hi).
    assert (Hin : k ∈ wv_id <$> lv_workspaces l1).
    { destruct (decide (k ∈ wv_id <$> lv_workspaces l1)) as [|Hn]; [done|].
      exfalso. apply Hex. by exists k, i. }
    apply list_elem_of_fmap in Hin as (u & -> & Hu). exists u. split_and!; [done..|].
    by apply sync_entry.
  - intros (u & Hu & <- & ->). rewrite Forall_forall in Hst.
    destruct (Hst u Hu) as (i & Hi & _). exists i. split; [|done].
    apply sync_entry; try done. by rewrite Forall_forall.
Qed.
End workspaces_theorem.

(** ** Window updates *)

(** A layout's windows: ids are unique and at most one window is focused. *)
Record windows_ok (l : LayoutView) : Prop := {
  no_ids : NoDup (nv_id <$> lv_windows l);
  no_focus : forall a b, a ∈ lv_windows l -> b ∈ lv_windows l ->
    nv_is_focused a = true -> nv_is_focused b = true -> nv_id a = nv_id b
}.

(** An entry of the state shows a window of the layout.  The layouts are
    compared with the derived [PartialEq], which identifies the two zeros. *)
Definition win_synced (i : Window.Window) (w : WindowView) : Prop :=
  i = Window.set_layout (Window.layout i) (make_ipc_window w)
  /\ (Window.layout i = nv_layout w \/ WindowLayout.eqb (Window.layout i) (nv_layout w) = true).

Definition windows_synced (m : gmap Z Window.Window) (l : LayoutView) : Prop :=
  (forall k i, m !! k = Some i -> exists w, w ∈ lv_windows l /\ nv_id w = k /\ win_synced i w)
  /\ (forall w, w ∈ lv_windows l -> is_Some (m !! nv_id w)).

Section windows_sync.
Context {HO : HashOrder}.
Implicit Types (m : gmap Z Window.Window) (w : WindowView) (o : option Window.Window) (k : Z).

(** The effect of a per-window event on the entry of one id. *)
Definition win_eff k o (e : Event) : option Window.Window :=
  match e with
  | WindowOpenedOrChanged w =>
      if Window.id w =? k then Some w
      else if Window.is_focused w then Window.set_is_focused false <$> o else o
  | WindowFocusChanged i => Window.set_is_focused (bool_decide (Some k = i)) <$> o
  | WindowFocusTimestampChanged i t => if i =? k then Window.set_focus_timestamp t <$> o else o
  | WindowUrgencyChanged i u => if i =? k then Window.set_is_urgent u <$> o else o
  | _ => o
  end.

Definition win_local (e : Event) : Prop :=
  match e with
  | WindowOpenedOrChanged _ | WindowFocusChanged _ | WindowFocusTimestampChanged _ _ | WindowUrgencyChanged _ _ => True
  | _ => False
  end.

Lemma windows_apply_pointwise m e :
  keyed Window.id m -> win_local e ->
  exists m', windows_apply e {| windows := m |} = Ok ({| windows := m' |}, None)
    /\ keyed Window.id m' /\ forall k, m' !! k = win_eff k (m !! k) e.
Proof.
  intros Hk Hl.
  assert (Hex : exists m', windows_apply e {| windows := m |} = Ok ({| windows := m' |}, None)
    /\ forall k, m' !! k = win_eff k (m !! k) e).
  { destruct e; cbn in *; try done; eexists; (split; [reflexivity|]); intros k.
    - destruct (Window.is_focused window) eqn:Ef.
      + rewrite lookup_fmap, lookup_insert. destruct (Z.eqb_spec (Window.id window) k) as [<-|Hne].
        * rewrite decide_True by done. cbn. by rewrite Z.eqb_refl.
        * rewrite decide_False by done. destruct (m !! k) as [i|] eqn:Ei; cbn; [|done].
          rewrite (Hk _ _ Ei). destruct (Z.eqb_spec k (Window.id window)); [congruence|done].
      + rewrite lookup_insert. destruct (Z.eqb_spec (Window.id window) k);
          [by rewrite decide_True|by rewrite decide_False].
    - rewrite lookup_fmap. destruct (m !! k) as [i|] eqn:Ei; cbn; [|done]. by rewrite (Hk _ _ Ei).
    - rewrite update_first_alter, lookup_alter by done.
      destruct (Z.eqb_spec id k) as [->|]; [by rewrite decide_True|by rewrite decide_False].
    - rewrite update_first_alter, lookup_alter by done.
      destruct (Z.eqb_spec id k) as [->|]; [by rewrite decide_True|by rewrite decide_False]. }
  destruct Hex as (m' & Ha & Hm). exists m'. split_and!; [done| |done].
  by apply (windows_apply_keyed e {| windows := m |} {| windows := m' |} None).
Qed.

Lemma windows_apply_all m es :
  keyed Window.id m -> Forall win_local es ->
  exists m', apply_all es {| windows := m |} = Ok {| windows := m' |}
    /\ keyed Window.id m' /\ forall k, m' !! k = foldl (win_eff k) (m !! k) es.
Proof.
  revert m. induction es as [|e es IH]; intros m Hk Hl; [by exists m|].
  inversion Hl as [|? ? Hl1 Hl2]; subst.
  destruct (windows_apply_pointwise m e Hk Hl1) as (m1 & Ha & Hk1 & Hm1).
  destruct (IH m1 Hk1 Hl2) as (m2 & Ha2 & Hk2 & Hm2). exists m2. split_and!; [|done|].
  - cbn [apply_all apply windows_part]. by rewrite Ha.
  - intros k. by rewrite Hm2, Hm1.
Qed.

Lemma apply_layouts_pointwise cs m :
  keyed Window.id m -> NoDup cs.*1 -> Forall (fun c => is_Some (m !! c.1)) cs ->
  exists m', apply_layouts cs m = Ok m' /\ keyed Window.id m'
    /\ (forall k, k ∉ cs.*1 -> m' !! k = m !! k)
    /\ (forall k u, (k, u) ∈ cs -> m' !! k = Window.set_layout u <$> m !! k).
Proof.
  revert m. induction cs as [|[c u] cs IH]; intros m Hk Hnd Hin.
  { exists m. split_and!; try done. intros k u Hu. by apply elem_of_nil in Hu. }
  rewrite fmap_cons, NoDup_cons in Hnd. destruct Hnd as [Hc Hnd]. cbn in Hc.
  inversion Hin as [|? ? [i Hi] Hin2]; subst. cbn in Hi.
  destruct (IH (<[c := Window.set_layout u i]> m)) as (m' & Ha & Hk' & Hout & Hcs); [|done| |].
  - apply keyed_insert; [|done]. by apply Hk in Hi.
  - eapply Forall_impl; [exact Hin2|]. intros x Hx. apply lookup_insert_is_Some'. by right.
  - exists m'. cbn. rewrite Hi. cbn. split_and!; [done|done| |].
    + intros k Hn. apply not_elem_of_cons in Hn as [Hne Hn]. rewrite Hout by done.
      by rewrite lookup_insert_ne.
    + intros k v [Heq|Hv]%elem_of_cons.
      * injection Heq as -> ->. rewrite Hout by done. by rewrite lookup_insert_eq, Hi.
      * rewrite (Hcs _ _ Hv), lookup_insert_ne; [done|]. intros ->. apply Hc.
        apply list_elem_of_fmap. by exists (k, v).
Qed.

Lemma apply_closes ids m :
  keyed Window.id m -> NoDup ids -> Forall (fun k => is_Some (m !! k)) ids ->
  exists m', apply_all (WindowClosed <$> ids) {| windows := m |} = Ok {| windows := m' |}
    /\ keyed Window.id m' /\ forall k, m' !! k = if bool_decide (k ∈ ids) then None else m !! k.
Proof.
  revert m. induction ids as [|c ids IH]; intros m Hk Hnd Hin; [by exists m|].
  apply NoDup_cons in Hnd as [Hc Hnd]. inversion Hin as [|? ? [i Hi] Hin2]; subst.
  destruct (IH (delete c m)) as (m' & Ha & Hk' & Hm); [by apply keyed_delete|done| |].
  - rewrite Forall_forall in Hin2 |- *. intros x Hx. rewrite lookup_delete_ne; [by apply Hin2|congruence].
  - exists m'. split_and!; [cbn; rewrite Hi; exact Ha|done|].
    intros k. rewrite Hm, lookup_delete. case_bool_decide as H1; case_bool_decide as H2; try done.
    + by destruct H2; right.
    + apply elem_of_cons in H2 as [->|]; [by rewrite decide_True|done].
    + rewrite not_elem_of_cons in H2. rewrite decide_False; [done|]. naive_solver.
Qed.
End windows_sync.

(** *** One refresh *)
Section windows_refresh.
Context {HO : HashOrder} (m : gmap Z Window.Window).
Implicit Types (w : WindowView) (ws : list WindowView) (o : option Window.Window) (k : Z).

Abbreviation we := (fun w => (win_events m w).1).

(** Whether the events of a window give it the focus. *)
Definition sets_focus w : bool :=
  nv_is_focused w && match m !! nv_id w with
                     | None => true
                     | Some i => win_changed i w || negb (Window.is_focused i)
                     end.

Lemma block_other k w o :
  nv_id w <> k ->
  foldl (win_eff k) o (we w) = if sets_focus w then Window.set_is_focused false <$> o else o.
Proof.
  intros Hne. apply Z.eqb_neq in Hne as Hb. unfold win_events, sets_focus.
  destruct (m !! nv_id w) as [i|]; cbn; [|rewrite Hb; by rewrite andb_true_r].
  destruct (win_changed i w); cbn; [rewrite Hb; by rewrite andb_true_r|].
  destruct (nv_is_focused w && negb (Window.is_focused i)), (bool_decide (timestamp_from <$> _ = _)), (Bool.eqb _ _);
    cbn; rewrite ?Hb; try done; by rewrite bool_decide_false by congruence.
Qed.

Lemma set_focus_twice o :
  Window.set_is_focused false <$> (Window.set_is_focused false <$> o) = Window.set_is_focused false <$> o.
Proof. by destruct o. Qed.

Lemma run_others k ws o :
  k ∉ nv_id <$> ws ->
  foldl (win_eff k) o (ws ≫= we)
  = if existsb sets_focus ws then Window.set_is_focused false <$> o else o.
Proof.
  revert o. induction ws as [|w ws IH]; intros o Hn; [done|].
  rewrite fmap_cons, not_elem_of_cons in Hn. destruct Hn as [Hne Hn].
  rewrite bind_cons, foldl_app, block_other, IH by (done || congruence). cbn.
  destruct (sets_focus w), (existsb sets_focus ws); cbn; by rewrite ?set_focus_twice.
Qed.

Lemma block_self_fresh w o :
  (forall i, m !! nv_id w = Some i -> win_changed i w = true) ->
  foldl (win_eff (nv_id w)) o (we w) = Some (make_ipc_window w).
Proof.
  intros H. unfold win_events. destruct (m !! nv_id w) as [i|]; cbn; [rewrite (H i eq_refl); cbn|];
    by rewrite Z.eqb_refl.
Qed.

Lemma changed_false i w :
  win_changed i w = false ->
  Window.workspace_id i = nv_workspace_id w /\ Window.is_floating i = nv_is_floating w
  /\ Window.title i = nv_title w /\ Window.app_id i = nv_app_id w.
Proof.
  unfold win_changed. rewrite !orb_false_iff, !negb_false_iff, !bool_decide_eq_true.
  intros [[[? ?%Bool.eqb_prop] ?] ?]. done.
Qed.

Lemma block_self_known w i j :
  m !! nv_id w = Some i -> win_changed i w = false ->
  Window.id i = nv_id w -> Window.pid i = nv_pid w ->
  j = i \/ j = Window.set_is_focused false i ->
  foldl (win_eff (nv_id w)) (Some j) (we w)
  = Some (Window.set_layout (Window.layout i)
      (Window.set_is_focused (if nv_is_focused w && negb (Window.is_focused i) then true else Window.is_focused j)
         (make_ipc_window w))).
Proof.
  intros Hi Hc Hid Hpid Hj. unfold win_events. rewrite Hi, Hc. cbn.
  apply changed_false in Hc as (H1 & H2 & H3 & H4).
  assert (Window.is_urgent j = Window.is_urgent i
    /\ Window.focus_timestamp j = Window.focus_timestamp i
    /\ j = Window.set_layout (Window.layout i) (Window.set_is_urgent (Window.is_urgent i)
         (Window.set_focus_timestamp (Window.focus_timestamp i)
           (Window.set_is_focused (Window.is_focused j) (make_ipc_window w))))) as (Hu & Ht & Hjeq).
  { destruct Hj as [->| ->]; destruct i; cbn in *; subst; done. }
  rewrite Hjeq. cbn.
  destruct (nv_is_focused w && negb (Window.is_focused i)), (bool_decide (timestamp_from <$> _ = _)) eqn:Hts,
    (Bool.eqb _ _) eqn:Eu; cbn; rewrite ?Z.eqb_refl; cbn; rewrite ?Z.eqb_refl; cbn; rewrite ?bool_decide_true by done;
    try (apply Bool.eqb_prop in Eu; rewrite <- Eu); try (apply bool_decide_eq_true in Hts; rewrite <- Hts); done.
Qed.

Context (l : LayoutView) (Hl : windows_ok l) (Hk : keyed Window.id m)
  (Hfoc : forall k1 k2 i1 i2, m !! k1 = Some i1 -> m !! k2 = Some i2 ->
     Window.is_focused i1 = true -> Window.is_focused i2 = true -> k1 = k2)
  (Hpid : forall w i, w ∈ lv_windows l -> m !! nv_id w = Some i -> Window.pid i = nv_pid w).

Lemma no_focus_rest w ws :
  nv_is_focused w = true -> (forall a, a ∈ ws -> nv_is_focused a = true -> nv_id a = nv_id w) ->
  nv_id w ∉ nv_id <$> ws -> existsb sets_focus ws = false.
Proof.
  intros Hw Ha Hn. apply not_true_iff_false. rewrite existsb_exists. intros (a & Hin & Hs).
  apply list_elem_of_In in Hin. apply andb_true_iff in Hs as [Hs _]. apply Hn.
  rewrite <- (Ha a) by done. by apply list_elem_of_fmap_2.
Qed.

(** Splits the windows of the layout at one of them. *)
Lemma split_at w :
  w ∈ lv_windows l ->
  exists pre post, lv_windows l = pre ++ w :: post
    /\ (nv_id w ∉ nv_id <$> pre) /\ (nv_id w ∉ nv_id <$> post)
    /\ (nv_is_focused w = true -> existsb sets_focus pre = false /\ existsb sets_focus post = false).
Proof.
  intros Hin. apply list_elem_of_split in Hin as (pre & post & Heq).
  exists pre, post. split; [done|]. pose proof (no_ids _ Hl) as Hnd. rewrite Heq in Hnd.
  rewrite fmap_app, fmap_cons in Hnd. apply NoDup_app in Hnd as (_ & Hd & Hnd).
  apply NoDup_cons in Hnd as [Hpost _].
  assert (Hpre : nv_id w ∉ nv_id <$> pre) by (intros Hpre; apply (Hd _ Hpre); by left).
  split_and!; [done..|]. intros Hf. split; apply (no_focus_rest w); try done; intros a Ha Hfa;
    apply (no_focus _ Hl); try done; rewrite Heq; apply elem_of_app; [by left|by right; left|by right; right|by right; left].
Qed.

(** A window that lost the focus to nothing in the events was not focused. *)
Lemma stale_focus w i :
  w ∈ lv_windows l -> m !! nv_id w = Some i -> nv_is_focused w = false ->
  existsb nv_is_focused (lv_windows l) = true
  \/ existsb (fun kw => Window.is_focused kw.2) (iter m) = false ->
  existsb sets_focus (lv_windows l) = false -> Window.is_focused i = false.
Proof.
  intros Hw Hi Hfw Hfk Hns. destruct (Window.is_focused i) eqn:Ei; [|done]. exfalso.
  destruct Hfk as [Hf|Hf].
  - apply existsb_exists in Hf as (f & Hf & Hff). apply not_true_iff_false in Hns. apply Hns.
    apply existsb_exists. exists f. split; [done|]. unfold sets_focus. rewrite Hff. cbn.
    destruct (m !! nv_id f) as [j|] eqn:Ej; [|done]. destruct (win_changed j f); [done|]. cbn.
    destruct (Window.is_focused j) eqn:Efj; [|done]. exfalso.
    assert (w = f); [|congruence]. apply list_elem_of_In in Hf.
    destruct (split_at w Hw) as (pre & post & Heq & Hpre & Hpost & _).
    pose proof (Hfoc _ _ _ _ Hi Ej Ei Efj) as Hid. rewrite Heq in Hf.
    apply elem_of_app in Hf as [Hf|[->|Hf]%elem_of_cons]; [|done|]; exfalso; [apply Hpre|apply Hpost];
      rewrite Hid; by apply list_elem_of_fmap_2.
  - apply not_true_iff_false in Hf. apply Hf. apply existsb_exists. exists (nv_id w, i).
    split; [|done]. apply list_elem_of_In. by apply elem_of_iter.
Qed.

Abbreviation run w := (foldl (win_eff (nv_id w)) (m !! nv_id w) (lv_windows l ≫= we)).
Abbreviation focus_known := (existsb nv_is_focused (lv_windows l) = true
  \/ existsb (fun kw => Window.is_focused kw.2) (iter m) = false).

(** What the per-window events leave for a window that is sent whole. *)
Lemma run_fresh w :
  w ∈ lv_windows l -> (forall i, m !! nv_id w = Some i -> win_changed i w = true) ->
  (win_events m w).2 = []
  /\ exists b, run w = Some (Window.set_is_focused b (make_ipc_window w)) /\ b = nv_is_focused w.
Proof.
  intros Hw Hfr. destruct (split_at w Hw) as (pre & post & Heq & Hpre & Hpost & Hrest).
  split; [unfold win_events; destruct (m !! nv_id w) as [i|]; [by rewrite (Hfr i eq_refl)|done]|].
  exists (if existsb sets_focus post then false else nv_is_focused w).
  rewrite Heq, bind_app, bind_cons, !foldl_app, (run_others _ pre), (run_others _ post) by done.
  rewrite block_self_fresh by done.
  destruct (existsb sets_focus post) eqn:Ep; split; try done.
  destruct (nv_is_focused w) eqn:Ew; [|done]. destruct (Hrest eq_refl). congruence.
Qed.

(** ... and for one whose changes are sent one by one: all but the layout, and
    possibly a stale focus when nothing is focused any more. *)
Lemma run_known w i :
  w ∈ lv_windows l -> m !! nv_id w = Some i -> win_changed i w = false ->
  exists b, run w = Some (Window.set_layout (Window.layout i) (Window.set_is_focused b (make_ipc_window w)))
    /\ (focus_known -> b = nv_is_focused w).
Proof.
  intros Hw Hi Hc. destruct (split_at w Hw) as (pre & post & Heq & Hpre & Hpost & Hrest).
  set (j := if existsb sets_focus pre then Window.set_is_focused false i else i).
  set (b := if nv_is_focused w && negb (Window.is_focused i) then true else Window.is_focused j).
  exists (if existsb sets_focus post then false else b). split.
  { rewrite Heq, bind_app, bind_cons, !foldl_app, (run_others _ pre), (run_others _ post) by done.
    rewrite Hi. replace (if existsb sets_focus pre then _ else _) with (Some j)
      by (unfold j; by destruct (existsb sets_focus pre)).
    rewrite (block_self_known w i j Hi Hc); [|by apply Hk in Hi|by apply Hpid|
      unfold j; destruct (existsb sets_focus pre); auto].
    by destruct (existsb sets_focus post). }
  intros Hfk. destruct (nv_is_focused w) eqn:Ew.
  { destruct (Hrest eq_refl) as [Hr1 Hr2]. unfold b, j. rewrite Hr1, Hr2. cbn. by destruct (Window.is_focused i). }
  unfold b, j. cbn. destruct (existsb sets_focus post) eqn:E2; [done|].
  destruct (existsb sets_focus pre) eqn:E1; [done|].
  apply (stale_focus w i); try done. rewrite Heq, existsb_app. cbn. rewrite E1, E2.
  unfold sets_focus. by rewrite Ew.
Qed.

Lemma run_is_Some w : w ∈ lv_windows l -> is_Some (run w).
Proof.
  intros Hw. destruct (m !! nv_id w) as [i|] eqn:Ei; [destruct (win_changed i w) eqn:Ec|].
  2: { rewrite <- Ei. destruct (run_known w i Hw Ei Ec) as (b & -> & _). eauto. }
  all: rewrite <- Ei; destruct (run_fresh w Hw) as (_ & b & -> & _); [naive_solver|]; eauto.
Qed.

(** *** The batch of layout changes and the closed windows *)
Abbreviation batch := (lv_windows l ≫= (fun w => (win_events m w).2)).

Lemma win_batch w : (win_events m w).2 = [] \/ (win_events m w).2 = [(nv_id w, nv_layout w)].
Proof. unfold win_events. repeat case_match; cbn; auto. Qed.

Lemma batch_sublist (ws : list WindowView) :
  (ws ≫= (fun w => (win_events m w).2)).*1 `sublist_of` nv_id <$> ws.
Proof.
  induction ws as [|w ws IH]; [done|]. rewrite bind_cons, fmap_app, fmap_cons.
  destruct (win_batch w) as [->| ->]; cbn; [by apply sublist_cons|by apply sublist_skip].
Qed.

Lemma elem_of_batch k u :
  (k, u) ∈ batch <-> exists w, w ∈ lv_windows l /\ k = nv_id w /\ u = nv_layout w /\ (win_events m w).2 <> [].
Proof.
  rewrite list_elem_of_bind. split.
  - intros (w & Hin & Hw). exists w. destruct (win_batch w) as [Heq|Heq]; rewrite Heq in Hin |- *.
    + by apply elem_of_nil in Hin.
    + apply list_elem_of_singleton in Hin. naive_solver.
  - intros (w & Hw & -> & -> & Hne). exists w. split; [|done].
    destruct (win_batch w) as [Heq|Heq]; [done|]. rewrite Heq. by left.
Qed.

(** The entry of a window of the layout after the per-window events and the
    layout batch. *)
Lemma window_entry (m1 m2 : gmap Z Window.Window) w :
  (forall k, m1 !! k = foldl (win_eff k) (m !! k) (lv_windows l ≫= we)) ->
  (forall k, k ∉ batch.*1 -> m2 !! k = m1 !! k) ->
  (forall k u, (k, u) ∈ batch -> m2 !! k = Window.set_layout u <$> m1 !! k) ->
  w ∈ lv_windows l ->
  exists y b, m2 !! nv_id w = Some (Window.set_layout y (Window.set_is_focused b (make_ipc_window w)))
    /\ (y = nv_layout w \/ WindowLayout.eqb y (nv_layout w) = true)
    /\ (focus_known -> b = nv_is_focused w).
Proof.
  intros Hm1 Hm2 Hb Hw.
  assert (Hnb : (win_events m w).2 = [] -> nv_id w ∉ batch.*1).
  { intros Hnil Hin. apply list_elem_of_fmap in Hin as ([k u] & Heq & Hin). cbn in Heq. subst k.
    apply elem_of_batch in Hin as (w' & Hw' & Hid & -> & Hne).
    destruct (split_at w Hw) as (pre & post & Heq & Hpre & Hpost & _). rewrite Heq in Hw'.
    apply elem_of_app in Hw' as [Hw'|[->|Hw']%elem_of_cons]; [|done|];
      [apply Hpre|apply Hpost]; rewrite Hid; by apply list_elem_of_fmap_2. }
  destruct (m !! nv_id w) as [i|] eqn:Ei; [destruct (win_changed i w) eqn:Ec|].
  2: { destruct (run_known w i Hw Ei Ec) as (b & Hrun & Hfoc').
    destruct (WindowLayout.eqb (Window.layout i) (nv_layout w)) eqn:El.
    - exists (Window.layout i), b. split_and!; auto. rewrite Hm2, Hm1, <- Hrun; [done|].
      apply Hnb. unfold win_events. by rewrite Ei, Ec, El.
    - exists (nv_layout w), b. split_and!; auto. rewrite (Hb _ (nv_layout w)), Hm1, Hrun; [done|].
      apply elem_of_batch. exists w. split_and!; try done. unfold win_events. by rewrite Ei, Ec, El. }
  all: destruct (run_fresh w Hw) as (Hnil & b & Hrun & Hfoc'); [naive_solver|];
    exists (nv_layout w), b; split_and!; auto; rewrite Hm2, Hm1, Hrun by auto; done.
Qed.

Definition closed_ids : list Z := filter (.∉ nv_id <$> lv_windows l) (iter m).*1.

Lemma closed_events :
  (iter m ≫= fun kw => if bool_decide (kw.1 ∈ nv_id <$> lv_windows l) then [] else [WindowClosed kw.1])
  = WindowClosed <$> closed_ids.
Proof.
  unfold closed_ids. induction (iter m) as [|[k i] ks IH]; [done|]. rewrite bind_cons, IH.
  rewrite fmap_cons, filter_cons. cbn [fst]. case_bool_decide as Hb; [by rewrite decide_False by tauto|by rewrite decide_True].
Qed.

Lemma elem_of_closed k : k ∈ closed_ids <-> is_Some (m !! k) /\ k ∉ nv_id <$> lv_windows l.
Proof.
  unfold closed_ids. rewrite list_elem_of_filter, (list_elem_of_fmap fst). split.
  - intros [Hn ([k' i] & -> & Hin)]. apply elem_of_iter in Hin. cbn. split; [eauto|done].
  - intros [[i Hi] Hn]. split; [done|]. exists (k, i). split; [done|by apply elem_of_iter].
Qed.
End windows_refresh.

Section windows_theorem.
Context {HO : HashOrder}.
Implicit Types (l : LayoutView) (m : gmap Z Window.Window).

Lemma synced_keyed m l : windows_synced m l -> keyed Window.id m.
Proof. intros [H _] k i Hi. destruct (H k i Hi) as (w & _ & <- & -> & _). done. Qed.

Lemma synced_focus m l : windows_ok l -> windows_synced m l ->
  forall k1 k2 i1 i2, m !! k1 = Some i1 -> m !! k2 = Some i2 ->
    Window.is_focused i1 = true -> Window.is_focused i2 = true -> k1 = k2.
Proof.
  intros Hl [H _] k1 k2 i1 i2 H1 H2 F1 F2.
  destruct (H _ _ H1) as (a & Ha & <- & Ea & _), (H _ _ H2) as (b & Hb & <- & Eb & _).
  rewrite Ea in F1. rewrite Eb in F2. by apply (no_focus _ Hl).
Qed.

Lemma synced_pid m l0 l1 : windows_synced m l0 ->
  (forall a b, a ∈ lv_windows l0 -> b ∈ lv_windows l1 -> nv_id a = nv_id b -> nv_pid a = nv_pid b) ->
  forall w i, w ∈ lv_windows l1 -> m !! nv_id w = Some i -> Window.pid i = nv_pid w.
Proof.
  intros [H _] Hp w i Hw Hi. destruct (H _ _ Hi) as (a & Ha & Hid & -> & _). cbn. by apply Hp.
Qed.

Lemma events_local m l : Forall win_local (lv_windows l ≫= fun w => (win_events m w).1).
Proof.
  apply Forall_bind, Forall_true. intros w. unfold compose, win_events.
  repeat case_match; cbn; rewrite ?Forall_app; repeat constructor; repeat case_match; repeat constructor.
Qed.

Lemma windows_refresh_body m l0 l1 :
  windows_ok l0 -> windows_ok l1 -> windows_synced m l0 ->
  (forall a b, a ∈ lv_windows l0 -> b ∈ lv_windows l1 -> nv_id a = nv_id b -> nv_pid a = nv_pid b) ->
  exists m3, apply_all ((lv_windows l1 ≫= fun w => (win_events m w).1)
      ++ (let batch := lv_windows l1 ≫= fun w => (win_events m w).2 in
          match batch with [] => [] | _ => [WindowLayoutsChanged batch] end)
      ++ (WindowClosed <$> closed_ids m l1)) {| windows := m |} = Ok {| windows := m3 |}
    /\ keyed Window.id m3
    /\ (forall k, k ∉ nv_id <$> lv_windows l1 -> m3 !! k = None)
    /\ (forall w, w ∈ lv_windows l1 ->
          exists y b, m3 !! nv_id w = Some (Window.set_layout y (Window.set_is_focused b (make_ipc_window w)))
            /\ (y = nv_layout w \/ WindowLayout.eqb y (nv_layout w) = true)
            /\ (existsb nv_is_focused (lv_windows l1) = true
                \/ existsb (fun kw => Window.is_focused kw.2) (iter m) = false -> b = nv_is_focused w)).
Proof.
  intros Hl0 Hl1 Hs Hp. pose proof (synced_keyed _ _ Hs) as Hk.
  pose proof (synced_focus _ _ Hl0 Hs) as Hfoc. pose proof (synced_pid _ _ _ Hs Hp) as Hpid.
  destruct (windows_apply_all m _ Hk (events_local m l1)) as (m1 & Ha1 & Hk1 & Hm1).
  set (batch := lv_windows l1 ≫= fun w => (win_events m w).2).
  assert (Hbin : forall k, k ∈ batch.*1 -> k ∈ nv_id <$> lv_windows l1).
  { intros k Hin. eapply elem_of_sublist; [done|]. apply batch_sublist. }
  assert (Hin1 : forall w, w ∈ lv_windows l1 -> is_Some (m1 !! nv_id w)).
  { intros w Hw. rewrite Hm1. by apply (run_is_Some m l1). }
  assert (Hlay : exists m2, apply_all (match batch with [] => [] | _ => [WindowLayoutsChanged batch] end)
      {| windows := m1 |} = Ok {| windows := m2 |} /\ keyed Window.id m2
    /\ (forall k, k ∉ batch.*1 -> m2 !! k = m1 !! k)
    /\ (forall k u, (k, u) ∈ batch -> m2 !! k = Window.set_layout u <$> m1 !! k)).
  { destruct (apply_layouts_pointwise batch m1) as (m2 & Ha2 & H2); [done| | |].
    - eapply sublist_NoDup; [apply (no_ids _ Hl1)|]. apply batch_sublist.
    - apply Forall_forall. intros [k u] (w & Hw & -> & _)%elem_of_batch. by apply Hin1.
    - exists m2. split; [|done]. destruct batch; [by cbn in Ha2 |- *; simplify_eq|].
      cbn [apply_all apply windows_part windows_apply]. cbn [windows]. by rewrite Ha2. }
  destruct Hlay as (m2 & Ha2 & Hk2 & Hout & Hin).
  assert (Hother : forall k, k ∉ nv_id <$> lv_windows l1 -> (is_Some (m2 !! k) <-> is_Some (m !! k))).
  { intros k Hn. rewrite Hout by auto. rewrite Hm1, run_others by done.
    destruct (existsb _ _); [by rewrite fmap_is_Some|done]. }
  destruct (apply_closes (closed_ids m l1) m2 Hk2) as (m3 & Ha3 & Hk3 & Hm3).
  { apply NoDup_filter, NoDup_iter. }
  { apply Forall_forall. intros k [Hk' Hn]%elem_of_closed. by apply Hother. }
  exists m3. split_and!; [|done| |].
  - rewrite apply_all_app, Ha1. cbn [mbind res_bind]. rewrite apply_all_app. fold batch. cbv zeta. rewrite Ha2. done.
  - intros k Hn. rewrite Hm3. case_bool_decide as Hc; [done|]. apply eq_None_not_Some.
    rewrite Hother by done. intros Hsome. apply Hc. by apply elem_of_closed.
  - intros w Hw. rewrite Hm3, bool_decide_false; [by apply (window_entry m l1 Hl1 Hk Hfoc Hpid m1)|].
    rewrite elem_of_closed. intros [_ Hn]. apply Hn. by apply list_elem_of_fmap_2.
Qed.

Lemma refresh_windows_correct m l0 l1 :
  windows_ok l0 -> windows_ok l1 -> windows_synced m l0 ->
  (forall a b, a ∈ lv_windows l0 -> b ∈ lv_windows l1 -> nv_id a = nv_id b -> nv_pid a = nv_pid b) ->
  exists m', apply_all (refresh_windows_events m l1) {| windows := m |} = Ok {| windows := m' |}
    /\ windows_synced m' l1.
Proof.
  intros Hl0 Hl1 Hs Hp.
  destruct (windows_refresh_body m l0 l1) as (m3 & Ha & Hk & Hnone & Hsome); [done..|].
  unfold refresh_windows_events. rewrite <- !list_fmap_compose, !concat_fmap_bind, closed_events.
  rewrite !app_assoc, apply_all_app. rewrite <- app_assoc. setoid_rewrite Ha. cbn [mbind res_bind].
  destruct (negb (existsb nv_is_focused (lv_windows l1)) && _) eqn:E.
  - exists ((fun win => Window.set_is_focused (bool_decide (Some (Window.id win) = None)) win) <$> m3).
    split; [done|]. apply andb_true_iff in E as [E _]. apply negb_true_iff in E.
    split.
    + intros k i. rewrite lookup_fmap_Some. intros (i3 & <- & Hi3).
      destruct (decide (k ∈ nv_id <$> lv_windows l1)) as [Hin|Hn]; [|by rewrite Hnone in Hi3].
      apply list_elem_of_fmap in Hin as (w & -> & Hw). exists w. split_and!; [done..|].
      destruct (Hsome w Hw) as (y & b & Hy & Hyl & _). rewrite Hy in Hi3. injection Hi3 as <-.
      split; [|done]. cbn. unfold make_ipc_window, Window.set_layout, Window.set_is_focused. cbn. f_equal.
      destruct (nv_is_focused w) eqn:Ew; [|done]. exfalso. apply not_true_iff_false in E. apply E.
      apply existsb_exists. exists w. split; [by apply list_elem_of_In|done].
    + intros w Hw. destruct (Hsome w Hw) as (y & b & Hy & _). rewrite lookup_fmap, Hy. eauto.
  - exists m3. split; [done|]. assert (Hfk : existsb nv_is_focused (lv_windows l1) = true
        \/ existsb (fun kw => Window.is_focused kw.2) (iter m) = false).
    { destruct (existsb nv_is_focused _); auto. }
    split.
    + intros k i Hi. destruct (decide (k ∈ nv_id <$> lv_windows l1)) as [Hin|Hn]; [|by rewrite Hnone in Hi].
      apply list_elem_of_fmap in Hin as (w & -> & Hw). exists w. split_and!; [done..|].
      destruct (Hsome w Hw) as (y & b & Hy & Hyl & Hb). rewrite Hy in Hi. injection Hi as <-.
      rewrite (Hb Hfk). split; done.
    + intros w Hw. destruct (Hsome w Hw) as (y & b & Hy & _). eauto.
Qed.
End windows_theorem.
