(* ===== verification/IpcStreams.v ===== *)
(** * Event stream clients (src/ipc/server.rs)

    The system of the IPC server and its event stream clients: every client
    applies the events it reads to its own [EventStreamState].  Delivery is
    proved to keep each client that is still connected exactly one queue behind
    the server. *)

From stdpp Require Import base numbers option list gmap strings.
From Stdlib Require Import ZArith.
From S2P Require Import Prelude.
From S2P Require Import IpcTypes.
From S2P Require Import IpcState.
From S2P Require Import IpcServer.

Local Open Scope Z_scope.

(** ** Sending one event *)
Section swap_remove.
Context {A : Type}.
Implicit Types (l : list A).

Lemma swap_remove_middle l1 x l2 :
  exists l2', swap_remove (length l1) (l1 ++ x :: l2) = l1 ++ l2' /\ l2' ≡ₚ l2.
Proof.
  unfold swap_remove. destruct l2 as [|y l2 _] using rev_ind.
  - rewrite last_snoc, decide_True by (rewrite length_app; cbn; lia).
    exists []. split; [|done]. by rewrite removelast_last, app_nil_r.
  - replace (l1 ++ x :: l2 ++ [y]) with ((l1 ++ x :: l2) ++ [y]) by (by rewrite <- app_assoc).
    rewrite last_snoc, decide_False by (rewrite !length_app; cbn; lia).
    exists (y :: l2). rewrite insert_app_l by (rewrite length_app; cbn; lia).
    rewrite removelast_last, insert_app_r_alt by lia.
    replace (length l1 - length l1)%nat with 0%nat by lia. split; [done|].
    apply Permutation_cons_append.
Qed.

(** The elements at the positions [p] accepts. *)
Fixpoint keep (p : nat -> bool) l : list A :=
  match l with
  | [] => []
  | x :: l => (if p 0%nat then [x] else []) ++ keep (fun i => p (S i)) l
  end.

Lemma keep_ext p q l : (forall i, (i < length l)%nat -> p i = q i) -> keep p l = keep q l.
Proof.
  revert p q. induction l as [|x l IH]; intros p q H; [done|]. cbn.
  rewrite (H 0%nat) by (cbn; lia). f_equal. apply IH. intros i Hi. apply H. cbn. lia.
Qed.

Lemma keep_app p l1 l2 : keep p (l1 ++ l2) = keep p l1 ++ keep (fun i => p (length l1 + i)%nat) l2.
Proof. revert p. induction l1 as [|x l1 IH]; intros p; cbn; [done|]. by rewrite IH, app_assoc. Qed.

Lemma keep_all l : keep (fun _ => true) l = l.
Proof. induction l as [|x l IH]; cbn; [done|]. by rewrite IH. Qed.

(** Removing the bad positions from the highest down keeps the good ones. *)
Lemma swap_remove_all (bad : nat -> bool) n l :
  (n <= length l)%nat ->
  foldl (fun l i => swap_remove i l) l (reverse (List.filter bad (seq 0 n)))
  ≡ₚ keep (fun i => bool_decide (n <= i)%nat || negb (bad i)) l.
Proof.
  revert l. induction n as [|n IH]; intros l Hn.
  { cbn. rewrite (keep_ext _ (fun _ => true)), keep_all; done. }
  destruct (lookup_lt_is_Some_2 l n) as [x Hx]; [lia|].
  pose proof (take_drop_middle l n x Hx) as Hl.
  assert (Hlen : length (take n l) = n) by (rewrite length_take; lia).
  assert (Hgen : forall l2, keep (fun i => bool_decide (n <= length (take n l) + i)%nat || negb (bad (length (take n l) + i)%nat)) l2 = l2).
  { intros l2. rewrite (keep_ext _ (fun _ => true)), keep_all; [done|]. intros i _. by rewrite bool_decide_true by lia. }
  rewrite seq_S, List.filter_app, reverse_app. cbn [Nat.add List.filter].
  rewrite <- Hl at 2. rewrite keep_app. cbn [keep].
  rewrite (keep_ext (fun i => bool_decide (S n <= i)%nat || negb (bad i)) (fun i => bool_decide (n <= i)%nat || negb (bad i)) (take n l)).
  2: { intros i Hi. rewrite !bool_decide_false by lia. done. }
  rewrite (keep_ext _ (fun _ => true) (drop (S n) l)), keep_all.
  2: { intros i _. by rewrite bool_decide_true by lia. }
  rewrite Nat.add_0_r, Hlen, bool_decide_false by lia. cbn [orb].
  destruct (bad n) eqn:Eb; cbn [negb app].
  - rewrite foldl_app. cbn [reverse rev_append foldl app].
    destruct (swap_remove_middle (take n l) x (drop (S n) l)) as (l2 & Hs & Hp).
    rewrite Hlen, Hl in Hs. change (reverse [n]) with [n]. cbn [foldl]. rewrite Hs.
    rewrite IH by (rewrite length_app; lia). rewrite keep_app, Hgen. by rewrite Hp.
  - cbn [foldl app]. rewrite IH by lia. rewrite <- Hl at 1. rewrite keep_app, Hgen. done.
Qed.
End swap_remove.

Lemma keep_failed e (ss : list EventStreamSender) :
  keep (fun i => negb match ss !! i with
                      | Some s => match try_send e s with None => true | Some _ => false end
                      | None => false
                      end) ((fun s => default s (try_send e s)) <$> ss)
  = omap (try_send e) ss.
Proof.
  induction ss as [|s ss IH]; [done|]. cbn. destruct (try_send e s) as [s'|] eqn:Es; cbn; by rewrite <- IH.
Qed.

Lemma send_event_perm e ss : send_event e ss ≡ₚ omap (try_send e) ss.
Proof.
  unfold send_event, failed_indices. rewrite swap_remove_all by (by rewrite length_fmap).
  rewrite <- keep_failed. erewrite keep_ext; [reflexivity|]. intros i Hi.
  rewrite length_fmap in Hi. by rewrite bool_decide_false by lia.
Qed.

(** ** Which part consumes an event *)
Definition consumed_by_workspaces (e : Event) : bool :=
  match e with
  | WorkspacesChanged _ | WorkspaceUrgencyChanged _ _ | WorkspaceActivated _ _
  | WorkspaceActiveWindowChanged _ _ => true
  | _ => false
  end.
Definition consumed_by_windows (e : Event) : bool :=
  match e with
  | WindowsChanged _ | WindowOpenedOrChanged _ | WindowClosed _ | WindowFocusChanged _
  | WindowFocusTimestampChanged _ _ | WindowUrgencyChanged _ _ | WindowLayoutsChanged _ => true
  | _ => false
  end.

Section streams.
Context {HO : HashOrder}.
Implicit Types (srv : IpcServer) (st : EventStreamState) (s : EventStreamSender).

(** A part of the state and the events it consumes: the part is a lens, and
    applying such an event to the part is applying it to the whole state. *)
Class PartOf {P} `{!EventStreamStatePart P} (pt : Part P) (evs : Event -> bool) := {
  part_get_set : forall p st, get_part pt (set_part pt p st) = p;
  part_set_get : forall st, set_part pt (get_part pt st) st = st;
  part_set_set : forall p q st, set_part pt p (set_part pt q st) = set_part pt p st;
  part_apply : forall e st, evs e = true ->
    (st ← fst <$> apply e st; Ok (st : EventStreamState))
    = (p ← fst <$> apply e (get_part pt st); Ok (set_part pt p st))
}.

#[local] Instance workspaces_part_of : PartOf workspaces_of consumed_by_workspaces.
Proof.
  constructor; [done|by intros []|done|]. intros e st He. destruct e; try done; cbn; try done;
    destruct (workspaces _ !! _); done.
Qed.
#[local] Instance windows_part_of : PartOf windows_of consumed_by_windows.
Proof.
  constructor; [done|by intros []|done|]. intros e st He. destruct st as [? ? ? ? ?]. destruct e; try done; cbn; try done.
  - by destruct (windows _ !! _).
  - by destruct (apply_layouts _ _).
Qed.
#[local] Instance keyboard_part_of :
  PartOf keyboard_layouts_of (fun e => match e with KeyboardLayoutsChanged _ | KeyboardLayoutSwitched _ => true | _ => false end).
Proof.
  constructor; [done|by intros []|done|]. intros e st He. destruct st as [? ? [k] ? ?]. destruct e; try done; cbn; try done. by destruct k.
Qed.
#[local] Instance overview_part_of :
  PartOf overview_of (fun e => match e with OverviewOpenedOrClosed _ => true | _ => false end).
Proof. constructor; [done|by intros []|done|]. intros e st He. destruct st as [? ? ? ? ?]. by destruct e. Qed.
#[local] Instance whole_part_of : PartOf whole (fun _ => true).
Proof. constructor; [done..|]. intros e st _. cbn. by destruct (state_apply e st) as [[? ?]|]. Qed.

(** The events of a refresh go to the right part. *)
Lemma refresh_workspaces_consumed m l :
  Forall (fun e => consumed_by_workspaces e = true) (refresh_workspaces_events m l).
Proof.
  unfold refresh_workspaces_events. destruct (ws_loop _ _ _) as [es|] eqn:E; [|by repeat constructor].
  case_bool_decide; [by repeat constructor|]. apply ws_loop_Some in E as [-> HF].
  eapply Forall_impl; [by apply evs_local|]. intros e. by destruct e.
Qed.

Lemma refresh_windows_consumed m l :
  Forall (fun e => consumed_by_windows e = true) (refresh_windows_events m l).
Proof.
  unfold refresh_windows_events. rewrite <- !list_fmap_compose, !concat_fmap_bind, closed_events.
  rewrite !Forall_app. split_and!.
  - eapply Forall_impl; [apply events_local|]. intros e. by destruct e.
  - case_match; by repeat constructor.
  - apply Forall_fmap, Forall_true. done.
  - case_match; by repeat constructor.
Qed.

(** ** The system *)
Record World := { server : IpcServer; clients : gmap Z EventStreamState }.

(** A client reads the oldest event of its stream. *)
Definition read (s : EventStreamSender) : option (Event * EventStreamSender) :=
  match queue s with
  | [] => None
  | e :: q => Some (e, {| client := client s; queue := q; closed := closed s |})
  end.

(** The operations of the compositor that send events. *)
Inductive server_op : (IpcServer -> res IpcServer) -> Prop :=
| op_refresh_layout l : server_op (ipc_refresh_layout l)
| op_keyboard_layouts_changed k : server_op (ipc_keyboard_layouts_changed k)
| op_refresh_keyboard_layout_index i : server_op (ipc_refresh_keyboard_layout_index i)
| op_config_loaded b : server_op (ipc_config_loaded b)
| op_screenshot_taken p : server_op (ipc_screenshot_taken p).

Inductive step : World -> World -> Prop :=
| step_server f srv srv' cs :
    server_op f -> f srv = Ok srv' ->
    step {| server := srv; clients := cs |} {| server := srv'; clients := cs |}
| step_connect c srv srv' cs :
    cs !! c = None -> handle_event_stream_request c srv = Ok srv' ->
    step {| server := srv; clients := cs |} {| server := srv'; clients := <[c := default_state]> cs |}
| step_read i s s' e st st' o srv cs :
    event_streams srv !! i = Some s -> read s = Some (e, s') -> cs !! client s = Some st ->
    apply e st = Ok (st', o) ->
    step {| server := srv; clients := cs |}
         {| server := {| event_streams := <[i := s']> (event_streams srv); event_stream_state := event_stream_state srv |};
            clients := <[client s := st']> cs |}
| step_disconnect i s srv cs :
    event_streams srv !! i = Some s ->
    step {| server := srv; clients := cs |}
         {| server := {| event_streams := <[i := {| client := client s; queue := queue s; closed := true |}]> (event_streams srv);
                         event_stream_state := event_stream_state srv |};
            clients := cs |}.

(** Every stream is what separates its client from the server. *)
Definition caught_up (st : EventStreamState) (cs : gmap Z EventStreamState) (s : EventStreamSender) : Prop :=
  exists c, cs !! client s = Some c /\ apply_all (queue s) c = Ok st.
Definition world_ok (w : World) : Prop :=
  state_ok (event_stream_state (server w))
  /\ NoDup (client <$> event_streams (server w))
  /\ Forall (caught_up (event_stream_state (server w)) (clients w)) (event_streams (server w)).

(** ** Delivery keeps clients caught up *)
Lemma try_send_client e s s' : try_send e s = Some s' -> client s' = client s /\ queue s' = queue s ++ [e].
Proof. unfold try_send. repeat case_match; naive_solver. Qed.

Lemma try_send_sublist e ss : client <$> omap (try_send e) ss `sublist_of` client <$> ss.
Proof.
  induction ss as [|s ss IH]; [done|]. cbn. destruct (try_send e s) as [s'|] eqn:Es; cbn.
  - apply try_send_client in Es as [-> _]. by apply sublist_skip.
  - by apply sublist_cons.
Qed.

Lemma send_event_ok e st st' o cs ss :
  apply e st = Ok (st', o) -> NoDup (client <$> ss) -> Forall (caught_up st cs) ss ->
  NoDup (client <$> send_event e ss) /\ Forall (caught_up st' cs) (send_event e ss).
Proof.
  intros He Hnd HF. rewrite send_event_perm. split.
  - eapply sublist_NoDup; [done|apply try_send_sublist].
  - apply Forall_forall. intros s' (s & Hs & Hsend)%list_elem_of_omap.
    rewrite Forall_forall in HF. destruct (HF s Hs) as (c & Hc & Hq).
    apply try_send_client in Hsend as [Hcl Hq']. exists c. rewrite Hcl, Hq'. split; [done|].
    rewrite apply_all_app, Hq. cbn. cbn in He. by rewrite He.
Qed.

Lemma part_apply_ok {P} `{!EventStreamStatePart P} (pt : Part P) evs `{!PartOf pt evs} e st p o :
  evs e = true -> apply e (get_part pt st) = Ok (p, o) -> exists o', apply e st = Ok (set_part pt p st, o').
Proof.
  intros He Hp. pose proof (part_apply e st He) as H. rewrite Hp in H.
  destruct (apply e st) as [[st' o']|]; cbn in H; [|done]. exists o'. by injection H as ->.
Qed.

Lemma emit_ok {P} `{!EventStreamStatePart P} (pt : Part P) evs `{!PartOf pt evs} es srv srv' cs :
  Forall (fun e => evs e = true) es -> emit pt es srv = Ok srv' ->
  world_ok {| server := srv; clients := cs |} -> world_ok {| server := srv'; clients := cs |}.
Proof.
  intros Hes. revert srv. induction Hes as [|e es He Hes IH]; intros srv; cbn [emit]; [by intros [= <-]|].
  intros H (Hst & Hnd & HF). cbn in Hst, Hnd, HF.
  destruct (apply e (get_part pt (event_stream_state srv))) as [[p o]|] eqn:Ep; cbn in H; [|done].
  destruct (part_apply_ok pt evs e _ p o He Ep) as (o' & Ha).
  apply (IH _ H). destruct (send_event_ok _ _ _ _ cs _ Ha Hnd HF) as [Hnd' HF'].
  pose proof (apply_ok_state e _ _ _ Hst Ha) as Hst'. split_and!; done.
Qed.

Lemma server_op_ok f srv srv' cs :
  server_op f -> f srv = Ok srv' ->
  world_ok {| server := srv; clients := cs |} -> world_ok {| server := srv'; clients := cs |}.
Proof.
  intros Hf H Hw. destruct Hf as [l|k|i|b|p].
  - unfold ipc_refresh_layout in H.
    destruct (ipc_refresh_workspaces l srv) as [s1|] eqn:E1; cbn in H; [|done].
    destruct (ipc_refresh_windows l s1) as [s2|] eqn:E2; cbn in H; [|done].
    eapply emit_ok in E1; [|apply _|apply refresh_workspaces_consumed|exact Hw].
    eapply emit_ok in E2; [|apply _|apply refresh_windows_consumed|exact E1].
    unfold ipc_refresh_overview in H. destruct (Bool.eqb _ _); [by simplify_eq|].
    eapply emit_ok in H; [exact H|apply _| |done]. by repeat constructor.
  - eapply emit_ok in H; [exact H|apply _| |done]. by repeat constructor.
  - unfold ipc_refresh_keyboard_layout_index in H. destruct (unwrap _) as [kb|]; cbn [mbind res_bind] in H; [|done].
    destruct (_ =? _); [by simplify_eq|]. eapply emit_ok in H; [exact H|apply _| |done]. by repeat constructor.
  - eapply emit_ok in H; [exact H|apply _| |done]. by repeat constructor.
  - eapply emit_ok in H; [exact H|apply _| |done]. by repeat constructor.
Qed.

(** ** A new client *)
Lemma burst_ok es s :
  closed s = false -> (length (queue s) + length es <= EVENT_STREAM_BUFFER_SIZE)%nat ->
  burst es s = Ok {| client := client s; queue := queue s ++ es; closed := false |}.
Proof.
  unfold burst. revert s. induction es as [|e es IH]; intros s Hc Hlen; cbn [foldl].
  - rewrite app_nil_r. by destruct s; cbn in *; subst.
  - cbn [mbind res_bind]. unfold try_send. rewrite Hc, decide_True by (cbn in Hlen; lia). cbn [unwrap].
    rewrite IH; cbn; [by rewrite <- app_assoc|done|]. rewrite length_app. cbn in *. lia.
Qed.

Lemma replicate_length st : (length (replicate st) <= 5)%nat.
Proof. cbn. unfold state_replicate, keyboard_layouts_replicate; cbn. unfold keyboard_layouts_replicate. by case_match; cbn; lia. Qed.

Lemma connect_result c srv :
  handle_event_stream_request c srv
  = Ok {| event_streams := event_streams srv
            ++ [{| client := c; queue := replicate (event_stream_state srv); closed := false |}];
          event_stream_state := event_stream_state srv |}.
Proof.
  unfold handle_event_stream_request. rewrite burst_ok; [done|done|]. cbn [queue length].
  pose proof (replicate_length (event_stream_state srv)). unfold EVENT_STREAM_BUFFER_SIZE. lia.
Qed.

(** ** Theorems *)
Lemma step_ok w w' : step w w' -> world_ok w -> world_ok w'.
Proof.
  intros Hs Hw. destruct Hs as [f srv srv' cs Hf Heq|c srv srv' cs Hc Heq|i s s' e st st' o srv cs Hi Hr Hst Ha|i s srv cs Hi].
  - by eapply server_op_ok.
  - rewrite connect_result in Heq. injection Heq as <-. destruct Hw as (Hst & Hnd & HF). cbn in *.
    assert (Hfresh : c ∉ client <$> event_streams srv).
    { intros Hin. apply list_elem_of_fmap in Hin as (s & -> & Hs). rewrite Forall_forall in HF.
      destruct (HF s Hs) as (? & ? & _). congruence. }
    split_and!; cbn; [done| |].
    + rewrite fmap_app. apply NoDup_app. split_and!; [done| |apply NoDup_singleton].
      intros x Hx Hin. apply list_elem_of_singleton in Hin as ->. done.
    + apply Forall_app. split; [|constructor; [|done]].
      * rewrite Forall_forall in HF |- *. intros s Hs. destruct (HF s Hs) as (k & Hk & Hq).
        exists k. rewrite lookup_insert_ne; [done|congruence].
      * exists default_state. cbn. rewrite lookup_insert_eq. split; [done|].
        by apply replicate_rebuilds.
  - destruct Hw as (Hok & Hnd & HF). cbn in *. unfold read in Hr.
    destruct (queue s) as [|e' q] eqn:Eq; [done|]. injection Hr as <- <-.
    rewrite Forall_forall in HF. split_and!; cbn; [done| |].
    + rewrite list_fmap_insert. cbn. rewrite list_insert_id; [done|]. by rewrite list_lookup_fmap, Hi.
    + apply Forall_lookup. intros j t Hj. apply list_lookup_insert_Some in Hj as [(-> & <- & _)|[Hne Hj]].
      * exists st'. cbn. rewrite lookup_insert_eq. split; [done|].
        destruct (HF s) as (k & Hk & Hq); [by eapply list_elem_of_lookup_2|].
        rewrite Eq in Hq. rewrite Hst in Hk. injection Hk as <-. cbn in Hq. cbn in Ha. by rewrite Ha in Hq.
      * destruct (HF t) as (k & Hk & Hq); [by eapply list_elem_of_lookup_2|]. exists k.
        rewrite lookup_insert_ne; [done|]. intros Heq. apply Hne. eapply (NoDup_lookup _ i j _ Hnd);
          rewrite list_lookup_fmap; [by rewrite Hi|by rewrite Hj, Heq].
  - destruct Hw as (Hok & Hnd & HF). cbn in *. split_and!; cbn; [done| |].
    + rewrite list_fmap_insert. cbn. rewrite list_insert_id; [done|]. by rewrite list_lookup_fmap, Hi.
    + apply Forall_insert; [done|]. rewrite Forall_forall in HF.
      destruct (HF s) as (k & Hk & Hq); [by eapply list_elem_of_lookup_2|]. by exists k.
Qed.

Lemma steps_ok w w' : rtc step w w' -> world_ok w -> world_ok w'.
Proof. induction 1 as [|? ? ? Hstep _ IH]; [done|]. intros Hw. apply IH. by eapply step_ok. Qed.

Definition world0 : World := {| server := new_server; clients := ∅ |}.

Lemma world0_ok : world_ok world0.
Proof. split_and!; cbn; [split; apply map_Forall_empty|apply NoDup_nil_2|done]. Qed.

(** C27: in every run of the compositor and its event stream clients (refreshes,
    keyboard and config events, new clients, clients reading at their own pace,
    disconnections, clients dropped for being slow), a client that is still
    subscribed never panics on the events waiting for it, and applying them to
    its own state gives exactly the server's current state. *)
Theorem event_streams_in_sync w i s :
  rtc step world0 w -> event_streams (server w) !! i = Some s ->
  exists c, clients w !! client s = Some c
    /\ apply_all (queue s) c = Ok (event_stream_state (server w)).
Proof.
  intros Hr Hi. destruct (steps_ok _ _ Hr world0_ok) as (_ & _ & HF). rewrite Forall_forall in HF. apply HF. by eapply list_elem_of_lookup_2.
Qed.

(** C34: sending an event delivers it, in order, to exactly the streams that
    are open and have room, and drops exactly the others: removing by
    [swap_remove] from the highest failed index down leaves no failed stream
    behind and loses no working one. *)
Theorem send_event_delivers e ss :
  send_event e ss ≡ₚ omap (try_send e) ss
  /\ Forall (fun s => last (queue s) = Some e /\ closed s = false
       /\ (length (queue s) <= EVENT_STREAM_BUFFER_SIZE)%nat) (send_event e ss).
Proof.
  split; [apply send_event_perm|]. rewrite send_event_perm. apply Forall_forall.
  intros s' (s & Hs & Hsend)%list_elem_of_omap. unfold try_send in Hsend.
  destruct (closed s); [done|]. case_decide; [|done]. injection Hsend as <-. cbn.
  rewrite last_snoc, length_app. cbn. split_and!; [done..|lia].
Qed.

(** An [EventStream] request never overflows the fresh channel: the initial
    burst always fits the buffer. *)
Theorem connect_never_panics c srv :
  exists s, handle_event_stream_request c srv
    = Ok {| event_streams := event_streams srv ++ [s]; event_stream_state := event_stream_state srv |}
  /\ queue s = replicate (event_stream_state srv).
Proof. rewrite connect_result. eexists. split; [reflexivity|done]. Qed.

(** ** The server follows the layout *)
Lemma emit_total {P} `{!EventStreamStatePart P} (pt : Part P) evs `{!PartOf pt evs} es srv p :
  apply_all es (get_part pt (event_stream_state srv)) = Ok p ->
  exists srv', emit pt es srv = Ok srv' /\ event_stream_state srv' = set_part pt p (event_stream_state srv).
Proof.
  revert srv. induction es as [|e es IH]; intros srv; cbn [apply_all emit].
  - intros [= <-]. exists srv. split; [done|]. by rewrite part_set_get.
  - destruct (apply e _) as [[q o]|]; cbn [mbind res_bind]; [|done]. intros H.
    destruct (IH {| event_streams := send_event e (event_streams srv);
                    event_stream_state := set_part pt q (event_stream_state srv) |}) as (srv' & He & Hs).
    { cbn. by rewrite part_get_set. }
    exists srv'. split; [done|]. rewrite Hs. cbn. by rewrite part_set_set.
Qed.

(** The state shows a layout. *)
Record layout_shown (st : EventStreamState) (l : LayoutView) : Prop := {
  ls_workspaces_ok : workspaces_ok l;
  ls_windows_ok : windows_ok l;
  ls_workspaces : workspaces (st_workspaces st) = workspaces_snapshot l;
  ls_windows : windows_synced (windows (st_windows st)) l;
  ls_overview : is_open (st_overview st) = lv_is_overview_open l
}.

(** C28: refreshing the IPC state for a new layout never panics, and afterwards
    the server's state shows the new layout: all workspaces, all windows (their
    layouts up to the source's float comparison) and the overview flag; the
    rest of the state is untouched. *)
Theorem refresh_layout_sync srv l0 l1 :
  layout_shown (event_stream_state srv) l0 -> workspaces_ok l1 -> windows_ok l1 ->
  (forall a b, a ∈ lv_windows l0 -> b ∈ lv_windows l1 -> nv_id a = nv_id b -> nv_pid a = nv_pid b) ->
  exists srv', ipc_refresh_layout l1 srv = Ok srv' /\ layout_shown (event_stream_state srv') l1
    /\ st_keyboard_layouts (event_stream_state srv') = st_keyboard_layouts (event_stream_state srv)
    /\ st_config (event_stream_state srv') = st_config (event_stream_state srv).
Proof.
  intros [Hws0 Hwn0 Hws Hwn Hov] Hws1 Hwn1 Hpid. unfold ipc_refresh_layout.
  set (st := event_stream_state srv) in *.
  destruct (emit_total workspaces_of consumed_by_workspaces
    (refresh_workspaces_events (workspaces (st_workspaces st)) l1) srv {| workspaces := workspaces_snapshot l1 |})
    as (s1 & He1 & Hs1).
  { fold st. cbn [get_part workspaces_of]. destruct (st_workspaces st) as [m]. cbn in Hws. subst m.
    by apply refresh_workspaces_correct. }
  unfold ipc_refresh_workspaces. fold st. rewrite He1. cbn [mbind res_bind].
  destruct (refresh_windows_correct (windows (st_windows st)) l0 l1) as (m & Hm & Hms); [done..|].
  destruct (emit_total windows_of consumed_by_windows
    (refresh_windows_events (windows (st_windows st)) l1) s1 {| windows := m |}) as (s2 & He2 & Hs2).
  { rewrite Hs1. cbn. fold st. by destruct (st_windows st). }
  unfold ipc_refresh_windows. rewrite Hs1. cbn [set_part workspaces_of st_windows]. fold st.
  rewrite He2. cbn [mbind res_bind]. unfold ipc_refresh_overview.
  rewrite Hs2, Hs1. cbn [set_part windows_of workspaces_of st_overview]. fold st.
  destruct (Bool.eqb _ _) eqn:Eb.
  - exists s2. rewrite Hs2, Hs1. split_and!; try done. constructor; cbn; try done. by apply Bool.eqb_prop.
  - destruct (emit_total overview_of (fun e => match e with OverviewOpenedOrClosed _ => true | _ => false end)
      [OverviewOpenedOrClosed (lv_is_overview_open l1)] s2 {| is_open := lv_is_overview_open l1 |}) as (s3 & He3 & Hs3);
      [done|].
    exists s3. rewrite Hs3, Hs2, Hs1. split_and!; try done.
Qed.
End streams.

(** ** Concrete runs *)
Definition ws_view (mon : option MonitorView) (idx : nat) (id : Z) : WorkspaceView :=
  {| wv_mon := mon; wv_idx := idx; wv_id := id; wv_name := None; wv_active_window := None; wv_is_urgent := false |}.
Definition lv0 : LayoutView :=
  {| lv_workspaces := []; lv_active_workspace := None; lv_windows := []; lv_is_overview_open := false |}.
Definition mon0 (i : nat) : MonitorView := {| mv_output_name := "DP-1"%string; mv_active_workspace_idx := i |}.
(** One output with two workspaces, the second focused, and one window. *)
Definition lv1 : LayoutView :=
  {| lv_workspaces := [ws_view (Some (mon0 1)) 0 1; ws_view (Some (mon0 1)) 1 2];
     lv_active_workspace := Some 2;
     lv_windows := [{| nv_id := 7; nv_title := None; nv_app_id := None; nv_pid := Some 3; nv_workspace_id := Some 2;
       nv_is_focused := true; nv_is_floating := false; nv_is_urgent := false;
       nv_layout := {| WindowLayout.pos_in_scrolling_layout := None; WindowLayout.tile_size := (F64.f1, F64.f1);
         WindowLayout.window_size := (1, 1); WindowLayout.tile_pos_in_workspace_view := None;
         WindowLayout.window_offset_in_tile := (F64.f0, F64.f0) |};
       nv_focus_timestamp := None |}];
     lv_is_overview_open := true |}.

Lemma lv0_ok : workspaces_ok lv0 /\ windows_ok lv0.
Proof. split; constructor; cbn; try (by constructor); set_solver. Qed.

Lemma lv1_ok : workspaces_ok lv1 /\ windows_ok lv1.
Proof.
  split; constructor; cbn.
  - apply (bool_decide_unpack _). by vm_compute.
  - intros a b Ha Hb. rewrite !elem_of_cons, elem_of_nil in Ha, Hb.
    destruct Ha as [->|[->|[]]], Hb as [->|[->|[]]]; done.
  - intros a mn Ha Hm. exists (ws_view (Some (mon0 1)) 1 2).
    rewrite !elem_of_cons, elem_of_nil in Ha. destruct Ha as [->|[->|[]]]; injection Hm as <-; split_and!; try done;
      apply elem_of_cons; right; by left.
  - intros id [= <-]. exists (ws_view (Some (mon0 1)) 1 2). split_and!; try done. apply elem_of_cons; right; by left.
  - done.
  - apply (bool_decide_unpack _). by vm_compute.
  - intros a b Ha Hb. rewrite elem_of_cons, elem_of_nil in Ha, Hb. naive_solver.
Qed.

Lemma default_shown : layout_shown default_state lv0.
Proof. destruct lv0_ok. constructor; try done. split; cbn; set_solver. Qed.

#[local] Existing Instance hash_order0.

Lemma refresh_layout_sync_witness :
  exists srv', ipc_refresh_layout lv1 new_server = Ok srv' /\ layout_shown (event_stream_state srv') lv1.
Proof.
  destruct lv1_ok as [Hw Hn].
  destruct (refresh_layout_sync new_server lv0 lv1 default_shown Hw Hn) as (srv' & He & Hs & _).
  - cbn. set_solver.
  - by exists srv'.
Defined.

(** A client connects, the config is reloaded, and the client has read two of
    its events. *)
Definition run1 : res World :=
  srv ← handle_event_stream_request 1 new_server;
  srv ← ipc_config_loaded true srv;
  match event_streams srv with
  | [s] =>
      match queue s with
      | e :: q =>
          '(st, _) ← apply e default_state;
          Ok {| server := {| event_streams := [{| client := 1; queue := q; closed := false |}];
                             event_stream_state := event_stream_state srv |};
                clients := {[1 := st]} |}
      | [] => Panic
      end
  | _ => Panic
  end.

Definition world1 : World := match run1 with Ok w => w | Panic => world0 end.

Lemma world1_reachable : rtc step world0 world1.
Proof.
  eapply rtc_l; [eapply (step_connect 1); [done|vm_compute; reflexivity]|].
  eapply rtc_l; [eapply step_server; [apply (op_config_loaded true)|vm_compute; reflexivity]|].
  eapply rtc_l; [eapply (step_read 0); [reflexivity|reflexivity|reflexivity|reflexivity]|].
  vm_compute. apply rtc_refl.
Qed.

Lemma event_streams_in_sync_witness :
  exists s c, event_streams (server world1) !! 0%nat = Some s /\ length (queue s) = 4%nat
    /\ clients world1 !! client s = Some c
    /\ apply_all (queue s) c = Ok (event_stream_state (server world1)).
Proof.
  destruct (event_streams (server world1) !! 0%nat) as [s|] eqn:Es; [|by vm_compute in Es].
  destruct (event_streams_in_sync world1 0 s world1_reachable Es) as (c & Hc & Ha).
  exists s, c. split_and!; try done. vm_compute in Es. injection Es as <-. reflexivity.
Defined.
