(* ===== verification/WindowMru.v ===== *)
(** * The window switcher

    src/ui/mru.rs: the most-recently-used list of windows with its scope and
    app-id filter ([WindowMru]), one preview of it ([Thumbnail]), the animated
    strip of previews on an output ([Inner]) and the state machine of the
    switcher ([WindowMruUi]: open, closing, closed).

    [Env] is what an operation reads of the compositor: the clock, the
    configuration and the outputs' sizes and scales.  Windows are their ids with
    the data the switcher caches.  Textures, render elements and key bindings are
    not modelled; the one texture hit testing looks at is kept as its logical
    size.

    The selected window is always one of those shown, and no operation of the switcher
    panics ([switcher_ok]); stepping goes round the windows that are shown
    ([stepping_visits_every_window]); a change of scope or filter selects the nearest
    window still shown ([set_scope_is]); it opens with every window, the latest focused
    first ([opened_ok]). *)

From stdpp Require Import base numbers option list strings.
From Stdlib Require Import ZArith Lia SpecFloat Sorted.
From S2P Require Import Prelude.
From S2P Require Import Runs.
From S2P Require Import F64.
From S2P Require Import Duration.
From S2P Require Import Clock.
From S2P Require Import Animation.
From S2P Require Import AnimTotal.
From S2P Require Import LayoutTypes.
From S2P Require Import Tile.
From S2P Require Import MonitorGeometry.
Local Open Scope Z_scope.

(** ** Constants and configuration *)
Definition PREVIEW_MIN_SIZE : f64 := of_Z 16.
Definition BORDER : f64 := of_Z 2.
Definition TITLE_GAP : f64 := of_Z 14.
Definition GAP : f64 := of_Z 16.
Definition STRUT : f64 := of_Z 192.

Inductive MruDirection := Forward | Backward.
Inductive MruScope := ScopeAll | ScopeOutput | ScopeWorkspace.
#[export] Instance MruScope_eq_dec : EqDecision MruScope.
Proof. solve_decision. Defined.
Inductive MruFilter := FilterAll | FilterAppId.
#[export] Instance MruFilter_eq_dec : EqDecision MruFilter.
Proof. solve_decision. Defined.
Inductive MruCloseRequest := Cancel | Confirm.
Definition SCOPE_CYCLE : list MruScope := [ScopeAll; ScopeWorkspace; ScopeOutput].

Record MruPreviews := { max_height : f64; max_scale : f64 }.
Record MruConfig := {
  open_delay_ms : Z;
  previews : MruPreviews;
  highlight_padding : f64;
  window_open : Config.Animation;
  window_movement : Config.Animation;
  recent_windows_close : Config.Animation
}.
Record Env (Output : Type) := {
  clock : ClockView;
  config : MruConfig;
  output_size : Output -> Size;
  output_scale : Output -> f64
}.
Arguments clock {Output}.
Arguments config {Output}.
Arguments output_size {Output}.
Arguments output_scale {Output}.

(** ** One preview *)
Module Thumbnail.
Record MoveAnimation := { anim : Animation.Animation; from : f64 }.
Record Thumbnail := {
  id : Z;
  timestamp : option Duration;
  on_current_workspace : bool;
  on_current_output : bool;
  app_id : option string;
  size : Z * Z;
  previews_config : MruPreviews;
  open_animation : option Animation.Animation;
  move_animation : option MoveAnimation;
  title_texture : option Size
}.
(** What the switcher reads of a window. *)
Record Mapped := {
  mapped_id : Z;
  focus_timestamp : option Duration;
  mapped_app_id : option string;
  mapped_size : Z * Z
}.
Definition from_mapped (m : Mapped) (c : MruPreviews) (on_output on_workspace : bool) : Thumbnail :=
  {| id := mapped_id m; timestamp := focus_timestamp m; on_current_workspace := on_workspace;
     on_current_output := on_output; app_id := mapped_app_id m; size := mapped_size m; previews_config := c;
     open_animation := None; move_animation := None; title_texture := None |}.
Definition with_size (s : Z * Z) (t : Thumbnail) : Thumbnail :=
  {| id := id t; timestamp := timestamp t; on_current_workspace := on_current_workspace t;
     on_current_output := on_current_output t; app_id := app_id t; size := s; previews_config := previews_config t;
     open_animation := open_animation t; move_animation := move_animation t; title_texture := title_texture t |}.
Definition with_config (c : MruPreviews) (t : Thumbnail) : Thumbnail :=
  {| id := id t; timestamp := timestamp t; on_current_workspace := on_current_workspace t;
     on_current_output := on_current_output t; app_id := app_id t; size := size t; previews_config := c;
     open_animation := open_animation t; move_animation := move_animation t; title_texture := title_texture t |}.
Definition with_animations (o : option Animation.Animation) (mv : option MoveAnimation) (t : Thumbnail) : Thumbnail :=
  {| id := id t; timestamp := timestamp t; on_current_workspace := on_current_workspace t;
     on_current_output := on_current_output t; app_id := app_id t; size := size t; previews_config := previews_config t;
     open_animation := o; move_animation := mv; title_texture := title_texture t |}.

Section ops.
Context {GE : Geometry} {LM : Libm} {KF : Keyframe}.
Implicit Types (cv : ClockView) (t : Thumbnail).

Definition are_animations_ongoing t : bool := bool_decide (is_Some (open_animation t)) || bool_decide (is_Some (move_animation t)).

Definition take_if {A} (p : A -> res bool) (o : option A) : res (option A) :=
  match o with
  | Some a => d ← p a; mret (if d : bool then None else Some a)
  | None => mret None
  end.
Definition advance_animations cv t : res Thumbnail :=
  o ← take_if (Animation.is_done cv) (open_animation t);
  mv ← take_if (fun a => Animation.is_done cv (anim a)) (move_animation t);
  mret (with_animations o mv t).

Definition render_offset cv t : res f64 :=
  match move_animation t with
  | Some ma => v ← Animation.value cv (anim ma); mret (from ma * v)%F
  | None => mret f0
  end.

Definition animate_move_from_with_config cv (from : f64) (c : Config.Animation) t : res Thumbnail :=
  current_offset ← render_offset cv t;
  a ← match move_animation t with
      | Some ma => Animation.restarted cv f1 f0 f0 (anim ma)
      | None => Animation.new cv f1 f0 f0 c
      end;
  mret (with_animations (open_animation t) (Some {| anim := a; from := (from + current_offset)%F |}) t).

Definition animate_open_with_config cv (c : Config.Animation) t : res Thumbnail :=
  a ← Animation.new cv f0 f1 f0 c; mret (with_animations (Some a) (move_animation t) t).

Definition update_window (m : Mapped) t : Thumbnail := with_size (mapped_size m) t.

Definition preview_size (output_size : Size) (scale : f64) t : Size :=
  let max_height := fmax f1 (max_height (previews_config t)) in
  let max_scale := fmax (lit 1 1000) (max_scale (previews_config t)) in
  let max_height := fmin max_height (output_size.2 * max_scale)%F in
  let output_ratio := (output_size.1 / output_size.2)%F in
  let max_width := (max_height * output_ratio)%F in
  let size := to_f64 (size t) in
  let min_scale := fmin f1 (PREVIEW_MIN_SIZE / fmax size.1 size.2)%F in
  let thumb_scale := fmin (max_width / size.1)%F (max_height / size.2)%F in
  let thumb_scale := fmin max_scale thumb_scale in
  let thumb_scale := fmax min_scale thumb_scale in
  round_size scale ((size.1 * thumb_scale)%F, (size.2 * thumb_scale)%F).
End ops.
End Thumbnail.
Abbreviation Thumb := Thumbnail.Thumbnail.

(** ** The list of windows *)
Module WindowMru.
Record WindowMru := {
  thumbnails : list Thumb;
  current_id : option Z;
  scope : MruScope;
  app_id_filter : option string
}.
Implicit Types (m : WindowMru) (t : Thumb).

Definition with_thumbnails (ts : list Thumb) m : WindowMru :=
  {| thumbnails := ts; current_id := current_id m; scope := scope m; app_id_filter := app_id_filter m |}.
Definition with_current (c : option Z) m : WindowMru :=
  {| thumbnails := thumbnails m; current_id := c; scope := scope m; app_id_filter := app_id_filter m |}.
Definition with_scope (s : MruScope) m : WindowMru :=
  {| thumbnails := thumbnails m; current_id := current_id m; scope := s; app_id_filter := app_id_filter m |}.
Definition with_filter (f : option string) m : WindowMru :=
  {| thumbnails := thumbnails m; current_id := current_id m; scope := scope m; app_id_filter := f |}.

(** [t2.cmp(t1)] is not [Greater]: a window focused before never goes ahead of one
    focused after, one never focused goes last. *)
Definition not_after (t1 t2 : option Duration) : bool :=
  match t1, t2 with _, None => true | None, Some _ => false | Some a, Some b => b <=? a end.
(** The stable [sort_by] on the focus timestamps, the latest first. *)
Fixpoint insert_by_timestamp t (l : list Thumb) : list Thumb :=
  match l with
  | [] => [t]
  | u :: l => if not_after (Thumbnail.timestamp t) (Thumbnail.timestamp u) then t :: u :: l else u :: insert_by_timestamp t l
  end.
Definition sort_by_timestamp : list Thumb -> list Thumb := foldr insert_by_timestamp [].

(** One workspace of [niri.layout.workspaces()]: the output and the active
    workspace index of its monitor, its own index and its windows. *)
Record WorkspaceView (Output : Type) := {
  monitor : option (Output * nat);
  ws_idx : nat;
  windows : list Thumbnail.Mapped
}.
Arguments monitor {Output}.
Arguments ws_idx {Output}.
Arguments windows {Output}.
Definition empty : WindowMru := {| thumbnails := []; current_id := None; scope := ScopeAll; app_id_filter := None |}.
Definition workspace_thumbnails `{EqDecision Output} (output : Output) (c : MruPreviews) (w : WorkspaceView Output) : res (list Thumb) :=
  mon ← unwrap (monitor w);
  let on_output := bool_decide (mon.1 = output) in
  let on_workspace := on_output && (mon.2 =? ws_idx w)%nat in
  mret ((fun w => Thumbnail.from_mapped w c on_output on_workspace) <$> windows w).
Definition new `{EqDecision Output} (active_output : option Output) (c : MruPreviews) (ws : list (WorkspaceView Output)) : res WindowMru :=
  match active_output with
  | None => mret empty
  | Some output =>
      tss ← mapM (workspace_thumbnails output c) ws;
      let thumbnails := sort_by_timestamp (concat tss) in
      mret {| thumbnails := thumbnails; current_id := Thumbnail.id <$> head thumbnails; scope := ScopeAll; app_id_filter := None |}
  end.

Definition matches (s : MruScope) (f : option string) t : bool :=
  let x := match s with
           | ScopeAll => true
           | ScopeOutput => Thumbnail.on_current_output t
           | ScopeWorkspace => Thumbnail.on_current_workspace t
           end in
  if negb x then false
  else match f with Some app_id => bool_decide (Thumbnail.app_id t = Some app_id) | None => true end.
Definition shows m : Thumb -> bool := matches (scope m) (app_id_filter m).

Definition is_empty m : bool := match thumbnails m with [] => true | _ => false end.
(** [WindowMru::thumbnails]: those the scope and the filter let through. *)
Definition shown m : list Thumb := List.filter (shows m) (thumbnails m).
Definition shown_with_idx m : list (nat * Thumb) := List.filter (fun it => shows m it.2) (imap pair (thumbnails m)).
Definition has_id (i : Z) t : bool := Thumbnail.id t =? i.

Definition are_animations_ongoing m : bool := existsb Thumbnail.are_animations_ongoing (thumbnails m).
Definition advance_animations `{!Libm, !Keyframe} (cv : ClockView) m : res WindowMru :=
  ts ← mapM (Thumbnail.advance_animations cv) (thumbnails m); mret (with_thumbnails ts m).

Fixpoint skip_while {A} (p : A -> bool) (l : list A) : list A :=
  match l with x :: l' => if p x then skip_while p l' else l | [] => [] end.

(** The one after [id] in [l], or the first one. *)
Definition next_of (id : Z) (l : list Thumb) : res Z :=
  match skip_while (fun t => negb (has_id id t)) l !! 1%nat with
  | Some next => mret (Thumbnail.id next)
  | None => t ← unwrap (head l); mret (Thumbnail.id t)
  end.
Definition forward m : res WindowMru :=
  match current_id m with
  | None => mret m
  | Some id => n ← next_of id (shown m); mret (with_current (Some n) m)
  end.
Definition backward m : res WindowMru :=
  match current_id m with
  | None => mret m
  | Some id => n ← next_of id (reverse (shown m)); mret (with_current (Some n) m)
  end.
Definition set_current (id : Z) m : WindowMru := if existsb (has_id id) (shown m) then with_current (Some id) m else m.
Definition first_id m : option Z := Thumbnail.id <$> head (shown m).
Definition first m : WindowMru := with_current (first_id m) m.
Definition last m : WindowMru := with_current (Thumbnail.id <$> head (reverse (shown m))) m.

(** The loop of [set_scope] and [set_filter] that follows [first_id]. *)
Fixpoint select_until (current_idx : nat) (id : option Z) (l : list (nat * Thumb)) : option Z :=
  match l with
  | [] => id
  | (idx, t) :: l => if (current_idx <? idx)%nat then id else select_until current_idx (Some (Thumbnail.id t)) l
  end.
Definition reselect (current_idx : nat) m : WindowMru :=
  with_current (select_until current_idx (first_id m) (shown_with_idx m)) m.
Definition find_shown (id : Z) m : res (nat * Thumb) := unwrap (head (List.filter (fun it => has_id id it.2) (shown_with_idx m))).

Definition set_scope (s : MruScope) m : res (option MruScope * WindowMru) :=
  if bool_decide (scope m = s) then mret (None, m)
  else
    let rv := Some (scope m) in
    match current_id m with
    | Some id => it ← find_shown id m; mret (rv, reselect it.1 (with_scope s m))
    | None => mret (rv, first (with_scope s m))
    end.

(** [Some old] when the filter changed, [old] being the filter of before. *)
Definition set_filter (f : MruFilter) m : res (option (option string) * WindowMru) :=
  if bool_decide (bool_decide (is_Some (app_id_filter m)) = bool_decide (f = FilterAppId)) then mret (None, m)
  else
    match current_id m with
    | Some id =>
        it ← find_shown id m;
        match f with
        | FilterAll => old ← unwrap (app_id_filter m); mret (Some (Some old), reselect it.1 (with_filter None m))
        | FilterAppId =>
            match Thumbnail.app_id it.2 with
            | None => mret (None, m)
            | Some current =>
                _ ← rassert (bool_decide (app_id_filter m = None));
                mret (Some None, reselect it.1 (with_filter (Some current) m))
            end
        end
    | None =>
        match f with
        | FilterAll => old ← unwrap (app_id_filter m); mret (Some (Some old), first (with_filter None m))
        | FilterAppId => mret (None, m)
        end
    end.

Definition idx_of (id : Z) m : option nat := position (has_id id) (thumbnails m).
Definition remove_by_idx (idx : nat) m : res (Thumb * WindowMru) :=
  t ← index (thumbnails m) idx;
  let id := Thumbnail.id t in
  m ← (if bool_decide (current_id m = Some id) then forward m else mret m);
  let m := if bool_decide (current_id m = Some id) then with_current None m else m in
  '(t, ts) ← vec_remove idx (thumbnails m);
  mret (t, with_thumbnails ts m).

Fixpoint left_of (current : option Z) (id : Z) (l : list Thumb) : option Thumb :=
  match l with
  | [] => None
  | t :: l => if bool_decide (Some (Thumbnail.id t) = current) then None
              else if has_id id t then Some t else left_of current id l
  end.
Definition thumbnail_left_of_current (id : Z) m : option Thumb := left_of (current_id m) id (shown m).
End WindowMru.
Abbreviation Mru := WindowMru.WindowMru.

(** ** The position of the strip *)
Module ViewPos.
Inductive ViewPos := Static (pos : f64) | Animating (anim : Animation.Animation).
Section ops.
Context {LM : Libm} {KF : Keyframe}.
Implicit Types (v : ViewPos) (cv : ClockView).

Definition current cv v : res f64 := match v with Static pos => mret pos | Animating a => Animation.value cv a end.
Definition target v : f64 := match v with Static pos => pos | Animating a => Animation.to a end.
Definition are_animations_ongoing v : bool := match v with Static _ => false | Animating _ => true end.
Definition advance_animations cv v : res ViewPos :=
  match v with
  | Static _ => mret v
  | Animating a => d ← Animation.is_done cv a; mret (if d : bool then Static (Animation.to a) else v)
  end.
Definition animate_from_with_config cv (from : f64) (c : Config.Animation) v : res ViewPos :=
  cur ← current cv v; a ← Animation.new cv (cur + from)%F (target v) f0 c; mret (Animating a).
Definition offset (delta : f64) v : ViewPos :=
  match v with Static pos => Static (pos + delta)%F | Animating a => Animating (Animation.offset delta a) end.
End ops.
End ViewPos.

Definition compute_view_offset (cur_x working_width new_col_x new_col_width : f64) : f64 :=
  let new_x := new_col_x in
  let new_right_x := (new_col_x + new_col_width)%F in
  if fleb cur_x new_x && fleb new_right_x (cur_x + working_width)%F then (- (new_col_x - cur_x))%F
  else
    let dist_to_left := fabs (cur_x - new_x)%F in
    let dist_to_right := fabs (cur_x + working_width - new_right_x)%F in
    if fleb dist_to_left dist_to_right then f0 else (- (working_width - new_col_width))%F.

(** ** The open switcher *)
Module Inner.
Record Inner (Output : Type) := {
  wmru : Mru;
  view_pos : ViewPos.ViewPos;
  freeze_view : bool;
  open_at : Duration;
  output : Output
}.
Arguments wmru {Output}.
Arguments view_pos {Output}.
Arguments freeze_view {Output}.
Arguments open_at {Output}.
Arguments output {Output}.

Section ops.
Context {GE : Geometry} {RE : Rectangles} {LM : Libm} {KF : Keyframe} {Output : Type}.
Implicit Types (E : Env Output) (i : Inner Output) (t : Thumb).

Definition with_wmru (m : Mru) i : Inner Output :=
  {| wmru := m; view_pos := view_pos i; freeze_view := freeze_view i; open_at := open_at i; output := output i |}.
Definition with_view_pos (v : ViewPos.ViewPos) i : Inner Output :=
  {| wmru := wmru i; view_pos := v; freeze_view := freeze_view i; open_at := open_at i; output := output i |}.
Definition with_freeze_view (b : bool) i : Inner Output :=
  {| wmru := wmru i; view_pos := view_pos i; freeze_view := b; open_at := open_at i; output := output i |}.
Definition scale E i : f64 := output_scale E (output i).
Definition out_size E i : Size := output_size E (output i).
Definition round E i (logical : f64) : f64 := round_logical_in_physical (scale E i) logical.
Definition preview_size E i t : Size := Thumbnail.preview_size (out_size E i) (scale E i) t.
(** The [padding] and [gap] several methods compute. *)
Definition padding E i : f64 := (round E i (highlight_padding (config E)) + round E i BORDER)%F.
Definition gap E i : f64 := (padding E i + round E i GAP + padding E i)%F.

Definition update_config E i : Inner Output :=
  let i := with_freeze_view false i in
  with_wmru (WindowMru.with_thumbnails (Thumbnail.with_config (previews (config E)) <$> WindowMru.thumbnails (wmru i)) (wmru i)) i.

Definition are_animations_ongoing E i : bool :=
  (cv_now_unadjusted (clock E) <? open_at i) || ViewPos.are_animations_ongoing (view_pos i)
  || WindowMru.are_animations_ongoing (wmru i).

(** [Inner::thumbnails]: the shown previews from left to right with their geometry. *)
Fixpoint layout_from E i (x : f64) (ts : list Thumb) : list (Thumb * Rect) :=
  match ts with
  | [] => []
  | t :: ts =>
      let size := preview_size E i t in
      let y := round E i (((out_size E i).2 - size.2) / of_Z 2)%F in
      (t, ((x, y), size)) :: layout_from E i (x + (size.1 + gap E i))%F ts
  end.
Definition thumbnails E i : list (Thumb * Rect) := layout_from E i f0 (WindowMru.shown (wmru i)).

Fixpoint measure (current_id : Z) (working_width : f64) (current_geo : Rect) (strip_width : f64) (l : list (Thumb * Rect)) : Rect * f64 :=
  match l with
  | [] => (current_geo, strip_width)
  | (t, geo) :: l =>
      let current_geo := if Thumbnail.id t =? current_id then geo else current_geo in
      let strip_width := (geo.1.1 + geo.2.1)%F in
      if fneb current_geo.2.1 f0 && fgtb strip_width working_width then (current_geo, strip_width)
      else measure current_id working_width current_geo strip_width l
  end.
Definition compute_view_pos E i : f64 :=
  match WindowMru.current_id (wmru i) with
  | None => f0
  | Some current_id =>
      let output_size := out_size E i in
      let working_x := (STRUT + GAP)%F in
      let working_width := fmax (output_size.1 - working_x * of_Z 2)%F f0 in
      let '(current_geo, strip_width) := measure current_id working_width ((f0, f0), (f0, f0)) f0 (thumbnails E i) in
      if fleb strip_width working_width then (- (output_size.1 - strip_width) / of_Z 2)%F
      else (compute_view_offset (ViewPos.target (view_pos i) + working_x) working_width current_geo.1.1 current_geo.2.1
            + current_geo.1.1 - working_x)%F
  end.

Definition animate_view_pos_from E (from : f64) i : res (Inner Output) :=
  v ← ViewPos.animate_from_with_config (clock E) from (window_movement (config E)) (view_pos i);
  mret (with_view_pos v i).
Definition advance_animations E i : res (Inner Output) :=
  v ← ViewPos.advance_animations (clock E) (view_pos i);
  let i := with_view_pos v i in
  m ← WindowMru.advance_animations (clock E) (wmru i);
  let i := with_wmru m i in
  if freeze_view i then mret i
  else
    let new_view_pos := compute_view_pos E i in
    let delta := (new_view_pos - ViewPos.target (view_pos i))%F in
    let pixel := (f1 / scale E i)%F in
    i ← (if fgtb (fabs delta) pixel then animate_view_pos_from E (- delta)%F i else mret i);
    mret (with_view_pos (ViewPos.offset delta (view_pos i)) i).

(** [layout] is the windows of the layout. *)
Definition update_window E (layout : list Thumbnail.Mapped) (id : Z) i : Inner Output :=
  let left := WindowMru.thumbnail_left_of_current id (wmru i) in
  let prev_size := option_map (preview_size E i) left in
  match WindowMru.idx_of id (wmru i) with
  | None => i
  | Some n =>
      match List.find (fun m => Thumbnail.mapped_id m =? id) layout, WindowMru.thumbnails (wmru i) !! n with
      | Some mapped, Some thumbnail =>
          let thumbnail := Thumbnail.update_window mapped thumbnail in
          let i := with_wmru (WindowMru.with_thumbnails (<[n := thumbnail]> (WindowMru.thumbnails (wmru i))) (wmru i)) i in
          match prev_size with
          | Some prev =>
              let new := preview_size E i thumbnail in
              with_view_pos (ViewPos.offset (new.1 - prev.1)%F (view_pos i)) i
          | None => i
          end
      | _, _ => i
      end
  end.

(** Runs [f] on the elements [p] accepts, up to the one [stop] is true of. *)
Fixpoint update_until (p stop : Thumb -> bool) (f : Thumb -> res Thumb) (l : list Thumb) : res (list Thumb) :=
  match l with
  | [] => mret []
  | t :: l =>
      if p t then if stop t then mret (t :: l) else t ← f t; l ← update_until p stop f l; mret (t :: l)
      else l ← update_until p stop f l; mret (t :: l)
  end.
Definition remove_window E (id : Z) i : res (option Thumb * Inner Output) :=
  match WindowMru.idx_of id (wmru i) with
  | None => mret (None, i)
  | Some idx =>
      let last_visible := head (reverse (WindowMru.shown (wmru i))) in
      let removing_last_visible := match last_visible with Some t => WindowMru.has_id id t | None => false end in
      i ← (if removing_last_visible then mret i
           else
             t ← index (WindowMru.thumbnails (wmru i)) idx;
             let delta := ((preview_size E i t).1 + gap E i)%F in
             let c := window_movement (config E) in
             let shows := WindowMru.shows (wmru i) in
             match WindowMru.thumbnail_left_of_current id (wmru i) with
             | Some _ =>
                 let i := with_view_pos (ViewPos.offset (- delta)%F (view_pos i)) i in
                 ts ← update_until shows (WindowMru.has_id id)
                        (Thumbnail.animate_move_from_with_config (clock E) (- delta)%F c) (WindowMru.thumbnails (wmru i));
                 mret (with_wmru (WindowMru.with_thumbnails ts (wmru i)) i)
             | None =>
                 ts ← update_until shows (WindowMru.has_id id)
                        (Thumbnail.animate_move_from_with_config (clock E) delta c) (reverse (WindowMru.thumbnails (wmru i)));
                 mret (with_wmru (WindowMru.with_thumbnails (reverse ts) (wmru i)) i)
             end);
      '(t, m) ← WindowMru.remove_by_idx idx (wmru i);
      mret (Some t, with_wmru m i)
  end.

(** The two loops over the thumbnails on one side of the current one: those that
    stay move by what came and went before them; [dir] is the sign of the move. *)
Fixpoint shift_side E i (old new : Thumb -> bool) (dir : f64 -> f64) (delta : f64) (l : list Thumb) : res (list Thumb * f64) :=
  match l with
  | [] => mret ([], delta)
  | t :: l =>
      '(t, delta) ← match old t, new t with
                    | true, true => t' ← Thumbnail.animate_move_from_with_config (clock E) (dir delta) (window_movement (config E)) t; mret (t', delta)
                    | true, false => mret (t, (delta + ((preview_size E i t).1 + gap E i))%F)
                    | false, true => mret (t, (delta - ((preview_size E i t).1 + gap E i))%F)
                    | false, false => mret (t, delta)
                    end;
      '(l, delta) ← shift_side E i old new dir delta l;
      mret (t :: l, delta)
  end.
Definition animate_scope_filter_change E (was_empty : bool) (old_scope : MruScope) (old_filter : option (option string)) i : res (Inner Output) :=
  match WindowMru.current_id (wmru i) with
  | None => mret i
  | Some id =>
      idx ← unwrap (WindowMru.idx_of id (wmru i));
      let old := WindowMru.matches old_scope (default (WindowMru.app_id_filter (wmru i)) old_filter) in
      let new := WindowMru.shows (wmru i) in
      ts ← mapM (fun t => if new t && negb (old t) then Thumbnail.animate_open_with_config (clock E) (window_open (config E)) t else mret t)
             (WindowMru.thumbnails (wmru i));
      let i := with_wmru (WindowMru.with_thumbnails ts (wmru i)) i in
      if was_empty then mret (with_view_pos (ViewPos.Static (compute_view_pos E i)) i)
      else
        t ← index ts idx;
        '(after, _) ← shift_side E i old new (fun d => d) f0 (drop (S idx) ts);
        '(before, delta) ← shift_side E i old new fopp f0 (reverse (take idx ts));
        let i := with_wmru (WindowMru.with_thumbnails (reverse before ++ t :: after) (wmru i)) i in
        mret (with_view_pos (ViewPos.offset (- delta)%F (view_pos i)) i)
  end.
Definition set_scope E (s : MruScope) i : res (Inner Output) :=
  let was_empty := bool_decide (WindowMru.current_id (wmru i) = None) in
  '(old, m) ← WindowMru.set_scope s (wmru i);
  let i := with_wmru m i in
  match old with
  | Some old_scope => animate_scope_filter_change E was_empty old_scope None i
  | None => mret i
  end.
Definition set_filter E (f : MruFilter) i : res (Inner Output) :=
  let was_empty := bool_decide (WindowMru.current_id (wmru i) = None) in
  '(old, m) ← WindowMru.set_filter f (wmru i);
  let i := with_wmru m i in
  match old with
  | Some old_filter => animate_scope_filter_change E was_empty (WindowMru.scope m) (Some old_filter) i
  | None => mret i
  end.

(** ** What is in view and under the pointer *)
Definition move_x (dx : f64) (g : Rect) : Rect := ((g.1.1 - dx, g.1.2)%F, g.2).
Fixpoint in_view (view_pos rightmost : f64) (l : list (Thumb * Rect)) : list (Thumb * Rect) :=
  match l with
  | [] => []
  | (t, geo) :: l => if fleb rightmost geo.1.1 then [] else (t, move_x view_pos geo) :: in_view view_pos rightmost l
  end.
Definition thumbnails_in_view_static E i : res (list (Thumb * Rect)) :=
  v ← ViewPos.current (clock E) (view_pos i);
  let view_pos := round E i v in
  let rightmost := (view_pos + (out_size E i).1)%F in
  mret (in_view view_pos rightmost (WindowMru.skip_while (fun tg : Thumb * Rect => fleb (tg.2.1.1 + tg.2.2.1)%F view_pos) (thumbnails E i))).
Definition thumbnails_in_view_render E i : res (list (Thumb * Rect)) :=
  v ← ViewPos.current (clock E) (view_pos i);
  let view_pos := round E i v in
  tgs ← mapM (fun tg : Thumb * Rect =>
    o ← Thumbnail.render_offset (clock E) tg.1;
    let geo := move_x view_pos tg.2 in
    mret (tg.1, ((geo.1.1 + round E i o, geo.1.2)%F, geo.2))) (thumbnails E i);
  mret (List.filter (fun tg : Thumb * Rect => negb (fltb (tg.2.1.1 + tg.2.2.1)%F f0 || fltb (out_size E i).1 tg.2.1.1)) tgs).

(** The box a preview reacts in: the preview with its highlight and its title. *)
Definition hit_box E i (tg : Thumb * Rect) : Rect :=
  let p := padding E i in
  let loc := ((tg.2.1.1 - p)%F, (tg.2.1.2 - p)%F) in
  let size := ((tg.2.2.1 + p * of_Z 2)%F, (tg.2.2.2 + p * of_Z 2)%F) in
  match Thumbnail.title_texture tg.1 with
  | Some title_size =>
      let h := (size.2 + (round E i TITLE_GAP + title_size.2))%F in
      (loc, (size.1, (h - round E i (p / of_Z 2))%F))
  | None => (loc, size)
  end.
Definition thumbnail_under E (pos : Point) i : res (option Z) :=
  tgs ← thumbnails_in_view_static E i;
  mret ((fun tg => Thumbnail.id tg.1) <$> List.find (fun tg => rect_contains (hit_box E i tg) pos) tgs).
End ops.
End Inner.

(** ** The switcher *)
Module WindowMruUi.
Inductive UiState (Output : Type) :=
| Open (inner : Inner.Inner Output)
| Closing (inner : Inner.Inner Output) (anim : Animation.Animation)
| Closed (previous_scope : MruScope).
Arguments Open {Output}.
Arguments Closing {Output}.
Arguments Closed {Output}.

Section ops.
Context {GE : Geometry} {RE : Rectangles} {LM : Libm} {KF : Keyframe} {Output : Type}.
Implicit Types (E : Env Output) (u : UiState Output).

Definition new : UiState Output := Closed ScopeAll.
Definition update_config E u : UiState Output :=
  match u with
  | Open i => Open (Inner.update_config E i)
  | Closing i a => Closing (Inner.update_config E i) a
  | Closed s => Closed s
  end.
Definition is_open u : bool := match u with Open _ => true | _ => false end.
Definition open E (wmru : Mru) (output : Output) u : res (UiState Output) :=
  if is_open u then mret u
  else
    let open_delay := from_millis (open_delay_ms (config E)) in
    open_at ← dadd (cv_now_unadjusted (clock E)) open_delay;
    let inner := {| Inner.wmru := wmru; Inner.view_pos := ViewPos.Static f0; Inner.freeze_view := false;
                    Inner.open_at := open_at; Inner.output := output |} in
    mret (Open (Inner.with_view_pos (ViewPos.Static (Inner.compute_view_pos E inner)) inner)).
Definition close E (r : MruCloseRequest) u : res (option Z * UiState Output) :=
  match u with
  | Open inner =>
      let response := match r with Cancel => None | Confirm => WindowMru.current_id (Inner.wmru inner) end in
      if cv_now_unadjusted (clock E) <? Inner.open_at inner
      then mret (response, Closed (WindowMru.scope (Inner.wmru inner)))
      else
        anim ← Animation.new (clock E) f1 f0 f0 (recent_windows_close (config E));
        mret (response, Closing inner anim)
  | _ => mret (None, u)
  end.

Definition unfrozen (f : Mru -> res Mru) u : res (UiState Output) :=
  match u with
  | Open i =>
      let i := Inner.with_freeze_view false i in
      m ← f (Inner.wmru i); mret (Open (Inner.with_wmru m i))
  | _ => mret u
  end.
Definition advance E (dir : MruDirection) (filter : option MruFilter) u : res (UiState Output) :=
  match u with
  | Open i =>
      let i := Inner.with_freeze_view false i in
      i ← match filter with Some f => Inner.set_filter E f i | None => mret i end;
      m ← match dir with Forward => WindowMru.forward (Inner.wmru i) | Backward => WindowMru.backward (Inner.wmru i) end;
      mret (Open (Inner.with_wmru m i))
  | _ => mret u
  end.
Definition set_scope E (s : MruScope) u : res (UiState Output) :=
  match u with
  | Open i => i ← Inner.set_scope E s (Inner.with_freeze_view false i); mret (Open i)
  | _ => mret u
  end.
(** [SCOPE_CYCLE.into_iter().cycle().skip_while(..).nth(1)]: two rounds of the
    cycle hold everything the endless one can give here. *)
Definition next_scope (s : MruScope) : res MruScope :=
  unwrap (WindowMru.skip_while (fun x => negb (bool_decide (x = s))) (SCOPE_CYCLE ++ SCOPE_CYCLE) !! 1%nat).
Definition cycle_scope E u : res (UiState Output) :=
  match u with
  | Open i => s ← next_scope (WindowMru.scope (Inner.wmru i)); set_scope E s u
  | _ => mret u
  end.
Definition pointer_motion E (pos : Point) u : res (option Z * UiState Output) :=
  match u with
  | Open i =>
      let i := Inner.with_freeze_view true i in
      id ← Inner.thumbnail_under E pos i;
      let i := match id with Some id => Inner.with_wmru (WindowMru.set_current id (Inner.wmru i)) i | None => i end in
      mret (id, Open i)
  | _ => mret (None, u)
  end.
Definition first : UiState Output -> res (UiState Output) := unfrozen (fun m => mret (WindowMru.first m)).
Definition last : UiState Output -> res (UiState Output) := unfrozen (fun m => mret (WindowMru.last m)).
Definition scope u : MruScope :=
  match u with
  | Closed previous_scope => previous_scope
  | Open i | Closing i _ => WindowMru.scope (Inner.wmru i)
  end.
Definition current_window_id u : option Z := match u with Open i => WindowMru.current_id (Inner.wmru i) | _ => None end.
Definition update_window E (layout : list Thumbnail.Mapped) (id : Z) u : UiState Output :=
  match u with Open i => Open (Inner.update_window E layout id i) | _ => u end.
Definition remove_window E (id : Z) u : res (UiState Output) :=
  match u with
  | Open i =>
      '(t, i) ← Inner.remove_window E id i;
      match t with
      | None => mret (Open i)
      | Some _ => if WindowMru.is_empty (Inner.wmru i) then '(_, u) ← close E Cancel (Open i); mret u else mret (Open i)
      end
  | _ => mret u
  end.
Definition are_animations_ongoing E u : bool :=
  match u with Open i => Inner.are_animations_ongoing E i | Closing _ _ => true | Closed _ => false end.
Definition advance_animations E u : res (UiState Output) :=
  match u with
  | Open i => i ← Inner.advance_animations E i; mret (Open i)
  | Closing i a =>
      d ← Animation.is_done (clock E) a;
      if d : bool then mret (Closed (WindowMru.scope (Inner.wmru i)))
      else i ← Inner.advance_animations E i; mret (Closing i a)
  | Closed s => mret u
  end.
Definition output u : option Output := match u with Open i => Some (Inner.output i) | _ => None end.
Definition a11y_scope_text u : string :=
  "Scope " +:+ match scope u with ScopeAll => "all" | ScopeOutput => "output" | ScopeWorkspace => "workspace" end.
End ops.
End WindowMruUi.

(** * What the switcher keeps

    [wf] is the invariant of [WindowMru::verify_invariants]: the selected window is one of
    those shown, and none is selected only when none is shown. *)
Import WindowMru.

Abbreviation ids l := (Thumbnail.id <$> l).
Definition wf (m : Mru) : Prop :=
  NoDup (ids (thumbnails m)) /\ match current_id m with Some c => c ∈ ids (shown m) | None => shown m = [] end.

(** The window [reselect] is meant to find: the nearest one shown at or before
    [i] in the list, else the nearest one after it. *)
Definition nearest (p : Thumb -> bool) (l : list Thumb) (i : nat) : option Thumb :=
  match head (List.filter p (reverse (take (S i) l))) with
  | Some t => Some t
  | None => head (List.filter p (drop (S i) l))
  end.

(** The operations on the list of windows. *)
Inductive MruOp :=
| OpForward | OpBackward | OpSetCurrent (id : Z) | OpFirst | OpLast
| OpSetScope (s : MruScope) | OpSetFilter (f : MruFilter) | OpRemove (idx : nat).
Definition apply_op (o : MruOp) (m : Mru) : res Mru :=
  match o with
  | OpForward => forward m
  | OpBackward => backward m
  | OpSetCurrent id => mret (set_current id m)
  | OpFirst => mret (first m)
  | OpLast => mret (last m)
  | OpSetScope s => r ← set_scope s m; mret r.2
  | OpSetFilter f => r ← set_filter f m; mret r.2
  | OpRemove idx => if (idx <? length (thumbnails m))%nat then r ← remove_by_idx idx m; mret r.2 else mret m
  end.
Fixpoint apply_ops (os : list MruOp) (m : Mru) : res Mru :=
  match os with [] => mret m | o :: os => m ← apply_op o m; apply_ops os m end.
Fixpoint forward_n (n : nat) (m : Mru) : res Mru :=
  match n with O => mret m | S n => m ← forward m; forward_n n m end.

(** ** Lists *)
Section lists.
Context {A : Type}.
Implicit Types (p : A -> bool) (l : list A).

Lemma filter_spec p l x : x ∈ List.filter p l <-> x ∈ l /\ p x = true.
Proof. rewrite !list_elem_of_In. apply List.filter_In. Qed.

Lemma filter_map_nodup {B} (f : A -> B) p l : NoDup (f <$> l) -> NoDup (f <$> List.filter p l).
Proof.
  induction l as [|x l IH]; [done|]. rewrite fmap_cons, NoDup_cons. intros [Hx Hl]. cbn [List.filter].
  destruct (p x); [|by apply IH]. rewrite fmap_cons, NoDup_cons. split; [|by apply IH].
  intros (y & Hy & Hin)%list_elem_of_fmap. apply Hx, list_elem_of_fmap. exists y. split; [done|].
  by apply filter_spec in Hin as [? _].
Qed.

Lemma filter_reverse p l : List.filter p (reverse l) = reverse (List.filter p l).
Proof.
  induction l as [|x l IH]; [done|]. rewrite reverse_cons, List.filter_app, IH. cbn [List.filter].
  destruct (p x); [by rewrite reverse_cons|by rewrite app_nil_r].
Qed.

Lemma head_app l1 l2 : head (l1 ++ l2) = match head l1 with Some x => Some x | None => head l2 end.
Proof. by destruct l1. Qed.

Lemma head_elem l x : head l = Some x -> x ∈ l.
Proof. destruct l; [done|]. intros [= ->]. by apply list_elem_of_here. Qed.

Lemma head_none l : head l = None -> l = [].
Proof. by destruct l. Qed.
End lists.

(** ** Stepping through the windows *)
Section stepping.
Implicit Types (l : list Thumb) (t : Thumb) (m : Mru).

Lemma has_id_true i t : has_id i t = true <-> Thumbnail.id t = i.
Proof. apply Z.eqb_eq. Qed.

Lemma skip_while_id l i t :
  NoDup (ids l) -> l !! i = Some t -> skip_while (fun u => negb (has_id (Thumbnail.id t) u)) l = drop i l.
Proof.
  revert i. induction l as [|u l IH]; intros i Hn Hi; [done|].
  rewrite fmap_cons, NoDup_cons in Hn. destruct Hn as [Hu Hn]. destruct i as [|i]; cbn in Hi.
  - simplify_eq. cbn. unfold has_id. by rewrite Z.eqb_refl.
  - cbn [skip_while drop]. unfold has_id at 1. replace (Thumbnail.id u =? Thumbnail.id t) with false; [by apply IH|].
    symmetry. apply Z.eqb_neq. intros He. apply Hu. rewrite He. apply list_elem_of_fmap. exists t.
    split; [done|]. by eapply list_elem_of_lookup_2.
Qed.

Lemma next_of_spec l i t :
  NoDup (ids l) -> l !! i = Some t ->
  exists u, l !! (S i mod length l)%nat = Some u /\ next_of (Thumbnail.id t) l = Ok (Thumbnail.id u).
Proof.
  intros Hn Hi. pose proof (lookup_lt_Some _ _ _ Hi) as Hlt. unfold next_of. rewrite (skip_while_id l i t Hn Hi), lookup_drop.
  replace (i + 1)%nat with (S i) by lia. destruct (l !! S i) as [u|] eqn:E.
  - apply lookup_lt_Some in E as Hlt'. rewrite Nat.mod_small by done. by exists u.
  - apply lookup_ge_None in E. replace (S i) with (length l) by lia. rewrite Nat.Div0.mod_same.
    destruct l as [|u l]; [done|]. by exists u.
Qed.

Definition cur_at m (i : nat) : Prop := exists t, shown m !! i = Some t /\ current_id m = Some (Thumbnail.id t).

Lemma shown_nodup m : wf m -> NoDup (ids (shown m)).
Proof. intros [Hn _]. by apply filter_map_nodup. Qed.

Lemma cur_at_lt m i : cur_at m i -> (i < length (shown m))%nat.
Proof. intros (t & H & _). by eapply lookup_lt_Some. Qed.

Lemma wf_cur_at m c : wf m -> current_id m = Some c -> exists i, cur_at m i.
Proof.
  intros [_ H] Hc. rewrite Hc in H. apply list_elem_of_fmap in H as (t & -> & H).
  apply list_elem_of_lookup in H as [i Hi]. exists i, t. by split.
Qed.

Lemma wf_shown_cur m t : wf m -> t ∈ shown m -> exists i, cur_at m i.
Proof.
  intros Hwf Ht. destruct (current_id m) as [c|] eqn:E; [by eapply wf_cur_at|].
  destruct Hwf as [_ H]. rewrite E in H. rewrite H in Ht. by apply not_elem_of_nil in Ht.
Qed.

Lemma wf_with_current m t : wf m -> t ∈ shown m -> wf (with_current (Some (Thumbnail.id t)) m).
Proof. intros [Hn _] Ht. split; [done|]. cbn. by apply list_elem_of_fmap_2. Qed.

Lemma forward_at m i :
  wf m -> cur_at m i ->
  exists u, shown m !! (S i mod length (shown m))%nat = Some u /\ forward m = Ok (with_current (Some (Thumbnail.id u)) m).
Proof.
  intros Hwf (t & Hi & Hc). destruct (next_of_spec _ _ _ (shown_nodup _ Hwf) Hi) as (u & Hu & Hn).
  exists u. split; [done|]. unfold forward. rewrite Hc, Hn. done.
Qed.

Lemma backward_at m i :
  wf m -> cur_at m i ->
  exists u, shown m !! ((i + (length (shown m) - 1)) mod length (shown m))%nat = Some u
    /\ backward m = Ok (with_current (Some (Thumbnail.id u)) m).
Proof.
  intros Hwf Hcur. pose proof (cur_at_lt _ _ Hcur) as Hlt. destruct Hcur as (t & Hi & Hc). set (l := shown m) in *.
  assert (Hr : reverse l !! (length l - S i)%nat = Some t) by (rewrite reverse_lookup by lia; by replace (length l - S (length l - S i))%nat with i by lia).
  assert (Hnd : NoDup (ids (reverse l))) by (rewrite fmap_reverse, reverse_Permutation; by apply shown_nodup).
  destruct (next_of_spec _ _ _ Hnd Hr) as (u & Hu & Hn). rewrite length_reverse in Hu. exists u. split.
  - rewrite <- Hu. rewrite reverse_lookup by (apply Nat.mod_upper_bound; lia). f_equal.
    destruct i as [|i].
    + replace (S (length l - 1)) with (length l) by lia. rewrite Nat.Div0.mod_same, Nat.mod_small by lia. lia.
    + rewrite (Nat.mod_small (S (length l - S (S i)))) by lia.
      replace (S i + (length l - 1))%nat with (i + 1 * length l)%nat by lia. rewrite Nat.Div0.mod_add, Nat.mod_small by lia. lia.
  - unfold backward. fold l. rewrite Hc, Hn. done.
Qed.

Lemma cur_at_with m j u : shown m !! j = Some u -> cur_at (with_current (Some (Thumbnail.id u)) m) j.
Proof. intros H. by exists u. Qed.

Lemma with_current_twice m a b : with_current a (with_current b m) = with_current a m.
Proof. done. Qed.

Lemma with_current_same m c : current_id m = c -> with_current c m = m.
Proof. intros <-. by destruct m. Qed.

Lemma forward_n_at n m i :
  wf m -> cur_at m i ->
  exists u, shown m !! ((i + n) mod length (shown m))%nat = Some u /\ forward_n n m = Ok (with_current (Some (Thumbnail.id u)) m).
Proof.
  revert m i. induction n as [|n IH]; intros m i Hwf Hcur; pose proof (cur_at_lt _ _ Hcur) as Hlt.
  - destruct Hcur as (t & Hi & Hc). exists t. rewrite Nat.add_0_r, Nat.mod_small by done. split; [done|].
    cbn. by rewrite with_current_same.
  - destruct (forward_at m i Hwf Hcur) as (u & Hu & Hf). cbn [forward_n]. rewrite Hf. cbn [mbind res_bind].
    destruct (IH (with_current (Some (Thumbnail.id u)) m) (S i mod length (shown m))%nat) as (v & Hv & Hr).
    { apply wf_with_current; [done|]. by eapply list_elem_of_lookup_2. }
    { by apply cur_at_with. }
    exists v. split; [|done]. rewrite <- Hv. change (shown (with_current (Some (Thumbnail.id u)) m)) with (shown m). f_equal.
    replace (i + S n)%nat with (S i + n)%nat by lia. by rewrite Nat.Div0.add_mod_idemp_l.
Qed.

(** The switcher's stepping goes round its windows: from the selected one,
    every shown window is selected after fewer [forward] steps than there are
    windows, as many steps as there are windows lead back to the same state, and
    [backward] and [forward] undo each other. *)
Lemma stepping_visits_every_window m t :
  wf m -> t ∈ shown m ->
  (exists k, (k < length (shown m))%nat /\ forward_n k m = Ok (with_current (Some (Thumbnail.id t)) m))
  /\ forward_n (length (shown m)) m = Ok m
  /\ (m' ← forward m; backward m') = Ok m
  /\ (m' ← backward m; forward m') = Ok m.
Proof.
  intros Hwf Ht. destruct (wf_shown_cur m t Hwf Ht) as [i Hcur]. pose proof (cur_at_lt _ _ Hcur) as Hlt.
  set (n := length (shown m)) in *.
  assert (Hback : forall j u, (j mod n)%nat = i -> shown m !! (j mod n)%nat = Some u -> with_current (Some (Thumbnail.id u)) m = m).
  { intros j u Hj Hu. apply with_current_same. destruct Hcur as (v & Hv & Hc). rewrite Hj in Hu. rewrite Hc. congruence. }
  assert (Hmod : forall j, ((j mod n + (n - 1)) mod n)%nat = ((j + (n - 1)) mod n)%nat) by (intros; apply Nat.Div0.add_mod_idemp_l).
  split_and!.
  - apply list_elem_of_lookup in Ht as [j Hj]. pose proof (lookup_lt_Some _ _ _ Hj) as Hjlt. fold n in Hjlt.
    exists ((j + (n - i)) mod n)%nat. split; [apply Nat.mod_upper_bound; lia|].
    destruct (forward_n_at ((j + (n - i)) mod n) m i Hwf Hcur) as (u & Hu & Hr). fold n in Hu. rewrite Hr.
    rewrite Nat.Div0.add_mod_idemp_r in Hu. replace (i + (j + (n - i)))%nat with (j + 1 * n)%nat in Hu by lia.
    rewrite Nat.Div0.mod_add, Nat.mod_small in Hu by done. congruence.
  - destruct (forward_n_at n m i Hwf Hcur) as (u & Hu & Hr). rewrite Hr. f_equal. eapply Hback, Hu.
    replace (i + n)%nat with (i + 1 * n)%nat by lia. by rewrite Nat.Div0.mod_add, Nat.mod_small.
  - destruct (forward_at m i Hwf Hcur) as (u & Hu & Hf). rewrite Hf. cbn [mbind res_bind].
    destruct (backward_at _ _ (wf_with_current m u Hwf (list_elem_of_lookup_2 _ _ _ Hu)) (cur_at_with m _ u Hu)) as (v & Hv & Hb).
    rewrite Hb. f_equal. rewrite with_current_twice. eapply Hback, Hv. fold n. rewrite Hmod.
    replace (S i + (n - 1))%nat with (i + 1 * n)%nat by lia. by rewrite Nat.Div0.mod_add, Nat.mod_small.
  - destruct (backward_at m i Hwf Hcur) as (u & Hu & Hf). rewrite Hf. cbn [mbind res_bind].
    destruct (forward_at _ _ (wf_with_current m u Hwf (list_elem_of_lookup_2 _ _ _ Hu)) (cur_at_with m _ u Hu)) as (v & Hv & Hb).
    rewrite Hb. f_equal. rewrite with_current_twice. eapply Hback, Hv. fold n.
    replace (S ((i + (n - 1)) mod n))%nat with ((i + (n - 1)) mod n + 1)%nat by lia. rewrite Nat.Div0.add_mod_idemp_l.
    replace (i + (n - 1) + 1)%nat with (i + 1 * n)%nat by lia. by rewrite Nat.Div0.mod_add, Nat.mod_small.
Qed.
End stepping.

(** ** Reselection after a change of scope or filter *)
Section selecting.
Implicit Types (l : list Thumb) (t : Thumb) (m : Mru) (p : Thumb -> bool).

(** The shown previews with their indices, counted from [k]. *)
Definition indexed p (k : nat) l : list (nat * Thumb) :=
  List.filter (fun it => p it.2) (imap (fun i t => (k + i, t)%nat) l).

Lemma indexed_cons p k t l :
  indexed p k (t :: l) = (if p t then [(k, t)] else []) ++ indexed p (S k) l.
Proof.
  unfold indexed. rewrite imap_cons. cbn [List.filter snd]. rewrite Nat.add_0_r.
  assert (He : imap ((fun i t => (k + i, t)%nat) ∘ S) l = imap (fun i t => (S k + i, t)%nat) l)
    by (apply imap_ext; intros i x _; cbn; f_equal; lia).
  rewrite He. by destruct (p t).
Qed.

Lemma shown_indexed m : shown_with_idx m = indexed (shows m) 0 (thumbnails m).
Proof. done. Qed.

Lemma indexed_spec p k l it : it ∈ indexed p k l -> exists i, it.1 = (k + i)%nat /\ l !! i = Some it.2 /\ p it.2 = true.
Proof.
  intros [Hin Hp]%filter_spec. apply elem_of_lookup_imap in Hin as (i & t & -> & Hi). by exists i.
Qed.

Lemma indexed_ids p k l : (indexed p k l).*2 = List.filter p l.
Proof.
  revert k. induction l as [|t l IH]; intros k; [done|]. rewrite indexed_cons, fmap_app, IH. cbn [List.filter].
  by destruct (p t).
Qed.

Lemma select_past p c k o l : (c < k)%nat -> select_until c o (indexed p k l) = o.
Proof.
  revert k. induction l as [|t l IH]; intros k Hk; [done|]. rewrite indexed_cons.
  destruct (p t); cbn [app select_until]; [|apply IH; lia].
  by replace (c <? k)%nat with true by (symmetry; apply Nat.ltb_lt; lia).
Qed.

Lemma select_until_spec p c k o l :
  (k <= S c)%nat ->
  select_until c o (indexed p k l) =
  match head (List.filter p (reverse (take (S c - k) l))) with Some t => Some (Thumbnail.id t) | None => o end.
Proof.
  revert k o. induction l as [|t l IH]; intros k o Hk; [by rewrite take_nil|].
  destruct (decide (k = S c)) as [->|Hne].
  - rewrite Nat.sub_diag. cbn [take]. rewrite select_past by lia. done.
  - replace (S c - k)%nat with (S (S c - S k)) by lia. cbn [take]. rewrite reverse_cons, List.filter_app, head_app, indexed_cons.
    cbn [List.filter]. destruct (p t); cbn [app select_until].
    + replace (c <? k)%nat with false by (symmetry; apply Nat.ltb_ge; lia). rewrite IH by lia. by destruct (head _).
    + rewrite IH by lia. by destruct (head _).
Qed.

Lemma reselect_nearest c m : reselect c m = with_current (Thumbnail.id <$> nearest (shows m) (thumbnails m) c) m.
Proof.
  unfold reselect, nearest. f_equal. rewrite shown_indexed, select_until_spec by lia. rewrite Nat.sub_0_r.
  destruct (head (List.filter (shows m) (reverse (take (S c) (thumbnails m))))) as [t|] eqn:E; [done|].
  unfold first_id, shown. rewrite <- (take_drop (S c) (thumbnails m)) at 1. rewrite List.filter_app, head_app.
  apply head_none in E. rewrite filter_reverse in E. apply (f_equal reverse) in E. rewrite reverse_involutive, reverse_nil in E.
  by rewrite E.
Qed.

Lemma nearest_shown p l c t : nearest p l c = Some t -> t ∈ List.filter p l.
Proof.
  unfold nearest. destruct (head _) as [u|] eqn:E.
  - intros [= ->]. apply head_elem, filter_spec in E as [Hin Hp]. apply filter_spec. split; [|done].
    rewrite elem_of_reverse in Hin. rewrite <- (take_drop (S c) l). apply elem_of_app. by left.
  - intros H. apply head_elem, filter_spec in H as [Hin Hp]. apply filter_spec. split; [|done].
    rewrite <- (take_drop (S c) l). apply elem_of_app. by right.
Qed.

Lemma nearest_none p l c : nearest p l c = None -> List.filter p l = [].
Proof.
  unfold nearest. destruct (head _) as [u|] eqn:E; [done|]. intros H%head_none. apply head_none in E.
  rewrite <- (take_drop (S c) l), List.filter_app, H, app_nil_r. rewrite filter_reverse in E.
  apply (f_equal reverse) in E. by rewrite reverse_involutive, reverse_nil in E.
Qed.

(** [wf] of a state whose list, scope and filter are given and whose selection is found in it. *)
Lemma wf_selected m (o : option Thumb) :
  NoDup (ids (thumbnails m)) ->
  match o with Some t => t ∈ shown m | None => shown m = [] end ->
  wf (with_current (Thumbnail.id <$> o) m).
Proof. intros Hn H. split; [done|]. destruct o as [t|]; [|done]. by apply list_elem_of_fmap_2. Qed.

Lemma reselect_wf c m : NoDup (ids (thumbnails m)) -> wf (reselect c m).
Proof.
  intros Hn. rewrite reselect_nearest. apply wf_selected; [done|].
  destruct (nearest _ _ _) eqn:E; [by eapply nearest_shown|by eapply nearest_none].
Qed.

Lemma first_wf m : NoDup (ids (thumbnails m)) -> wf (first m).
Proof.
  intros Hn. unfold first, first_id. apply wf_selected; [done|].
  destruct (head (shown m)) eqn:E; [by apply head_elem|by apply head_none].
Qed.

Lemma last_wf m : NoDup (ids (thumbnails m)) -> wf (last m).
Proof.
  intros Hn. unfold last. apply wf_selected; [done|].
  destruct (head (reverse (shown m))) eqn:E.
  - apply head_elem in E. by rewrite elem_of_reverse in E.
  - apply head_none, (f_equal reverse) in E. by rewrite reverse_involutive in E.
Qed.

Lemma find_shown_ok m c :
  wf m -> current_id m = Some c ->
  exists i t, find_shown c m = Ok (i, t) /\ thumbnails m !! i = Some t /\ Thumbnail.id t = c /\ shows m t = true.
Proof.
  intros [Hn H] Hc. rewrite Hc in H. unfold shown in H. rewrite <- (indexed_ids _ 0) in H.
  apply list_elem_of_fmap in H as (t & Ht & H). apply list_elem_of_fmap in H as (it & -> & H).
  unfold find_shown. rewrite shown_indexed. destruct (head _) as [[i u]|] eqn:E.
  - apply head_elem, filter_spec in E as [Hin Hid]. apply indexed_spec in Hin as (j & Hj & Hl & Hs). cbn in *. subst j.
    apply Z.eqb_eq in Hid. by exists i, u.
  - apply head_none in E. exfalso. apply (not_elem_of_nil it). rewrite <- E. apply filter_spec. split; [done|].
    apply Z.eqb_eq. congruence.
Qed.

(** What [set_scope] gives. *)
Lemma set_scope_is m s :
  wf m ->
  set_scope s m =
  Ok (if bool_decide (scope m = s) then (None, m)
      else (Some (scope m),
            let m' := with_scope s m in
            with_current (Thumbnail.id <$> match current_id m with
                          | Some c => nearest (shows m') (thumbnails m) (default 0%nat (idx_of c m))
                          | None => head (shown m')
                          end) m')).
Proof.
  intros Hwf. unfold set_scope. destruct (bool_decide (scope m = s)); [done|].
  destruct (current_id m) as [c|] eqn:Hc; [|done].
  destruct (find_shown_ok m c Hwf Hc) as (i & t & Hf & Ht & Hid & _). rewrite Hf. cbn [mbind res_bind fst].
  rewrite reselect_nearest. do 4 f_equal. unfold idx_of.
  destruct (position (has_id c) (thumbnails m)) as [j|] eqn:Hp.
  - cbn. apply position_Some in Hp as (u & Hu & Hhas & _). apply has_id_true in Hhas.
    f_equal. eapply (NoDup_lookup (ids (thumbnails m))); [apply Hwf| |]; rewrite list_lookup_fmap; [rewrite Ht|rewrite Hu]; cbn;
      [done|congruence].
  - exfalso. rewrite position_None in Hp. specialize (Hp t (list_elem_of_lookup_2 _ _ _ Ht)).
    by rewrite (proj2 (has_id_true c t)) in Hp.
Qed.
End selecting.
(** ** The operations on the list *)
Section operations.
Implicit Types (l : list Thumb) (t : Thumb) (m : Mru).

Lemma wf_forward m : wf m -> exists m', forward m = Ok m' /\ wf m' /\ thumbnails m' = thumbnails m /\ shown m' = shown m.
Proof.
  intros Hwf. destruct (current_id m) as [c|] eqn:Hc.
  - destruct (wf_cur_at m c Hwf Hc) as [i Hi]. destruct (forward_at m i Hwf Hi) as (u & Hu & ->). eexists. split; [done|].
    split_and!; [|done..]. apply wf_with_current; [done|]. by eapply list_elem_of_lookup_2.
  - exists m. unfold forward. by rewrite Hc.
Qed.
Lemma wf_backward m : wf m -> exists m', backward m = Ok m' /\ wf m' /\ thumbnails m' = thumbnails m.
Proof.
  intros Hwf. destruct (current_id m) as [c|] eqn:Hc.
  - destruct (wf_cur_at m c Hwf Hc) as [i Hi]. destruct (backward_at m i Hwf Hi) as (u & Hu & ->). eexists. split; [done|].
    split; [|done]. apply wf_with_current; [done|]. by eapply list_elem_of_lookup_2.
  - exists m. unfold backward. by rewrite Hc.
Qed.
Lemma wf_set_current id m : wf m -> wf (set_current id m).
Proof.
  intros Hwf. unfold set_current. destruct (existsb (has_id id) (shown m)) eqn:E; [|done].
  apply existsb_exists in E as (t & Ht%list_elem_of_In & <-%has_id_true). by apply wf_with_current.
Qed.
Lemma wf_set_scope s m : wf m -> exists r m', set_scope s m = Ok (r, m') /\ wf m' /\ thumbnails m' = thumbnails m.
Proof.
  intros Hwf. rewrite set_scope_is by done. case_bool_decide; [by exists None, m|]. eexists _, _. split; [done|]. split; [|done].
  apply wf_selected; [apply Hwf|]. destruct (current_id m) as [c|].
  - destruct (nearest _ _ _) eqn:E; [by eapply nearest_shown|by eapply nearest_none].
  - destruct (head _) eqn:E; [by apply head_elem|by apply head_none].
Qed.
Lemma wf_set_filter f m : wf m -> exists r m', set_filter f m = Ok (r, m') /\ wf m' /\ thumbnails m' = thumbnails m.
Proof.
  intros Hwf. unfold set_filter. case_bool_decide as E; [by exists None, m|].
  destruct (current_id m) as [c|] eqn:Hc.
  - destruct (find_shown_ok m c Hwf Hc) as (i & t & Hf & _). rewrite Hf. cbn [mbind res_bind fst snd]. destruct f.
    + destruct (app_id_filter m) as [a|]; [|by destruct E]. eexists _, _. split; [done|]. split; [|done]. apply reselect_wf, Hwf.
    + destruct (Thumbnail.app_id t) as [a|]; [|by exists None, m]. destruct (app_id_filter m); [by destruct E|].
      eexists _, _. split; [done|]. split; [|done]. apply reselect_wf, Hwf.
  - destruct f; [|by exists None, m]. destruct (app_id_filter m) as [a|]; [|by destruct E].
    eexists _, _. split; [done|]. split; [|done]. apply first_wf, Hwf.
Qed.

(** Taking a preview out: the selection goes on to the next one, and to none only if
    none is left. *)
Lemma thumbs_delete_perm l i t : l !! i = Some t -> l ≡ₚ t :: delete i l.
Proof. apply delete_Permutation. Qed.
Lemma shown_delete m i t :
  thumbnails m !! i = Some t -> shown m ≡ₚ (if shows m t then [t] else []) ++ shown (with_thumbnails (delete i (thumbnails m)) m).
Proof.
  intros Hi. unfold shown at 2. cbn [thumbnails with_thumbnails]. change (shows (with_thumbnails _ m)) with (shows m). unfold shown.
  rewrite <-(take_drop_middle (thumbnails m) i t Hi) at 1. rewrite delete_take_drop, !List.filter_app. cbn [List.filter].
  destruct (shows m t); cbn [app]; [|done]. symmetry. apply Permutation_middle.
Qed.
Lemma wf_deleted m i t :
  NoDup (ids (thumbnails m)) -> thumbnails m !! i = Some t ->
  match current_id m with Some c => c ∈ ids (shown m) /\ c <> Thumbnail.id t | None => forall u, u ∈ shown m -> u = t end ->
  wf (with_thumbnails (delete i (thumbnails m)) m).
Proof.
  intros Hn Hi Hc. pose proof Hn as Hn0. rewrite (thumbs_delete_perm _ _ _ Hi), fmap_cons in Hn. apply NoDup_cons in Hn as [Ht Hn]. split; [done|].
  cbn [current_id with_thumbnails]. pose proof (shown_delete m i t Hi) as Hp. destruct (current_id m) as [c|].
  - destruct Hc as [Hc Hne]. rewrite Hp, fmap_app, elem_of_app in Hc. destruct Hc as [Hc|Hc]; [|done].
    destruct (shows m t); [by apply list_elem_of_singleton in Hc|by apply elem_of_nil in Hc].
  - destruct (shown (with_thumbnails _ m)) as [|u us] eqn:E; [done|]. exfalso.
    assert (Hu : u ∈ shown m) by (rewrite Hp; apply elem_of_app; right; left). apply Ht. rewrite <-(Hc u Hu).
    apply list_elem_of_fmap_2. assert (Hin : u ∈ shown (with_thumbnails (delete i (thumbnails m)) m)) by (rewrite E; left). by apply filter_spec in Hin as [? _].
Qed.
Lemma same_id l t u : NoDup (ids l) -> t ∈ l -> u ∈ l -> Thumbnail.id t = Thumbnail.id u -> t = u.
Proof.
  intros Hn [i Hi]%list_elem_of_lookup [j Hj]%list_elem_of_lookup He. assert (i = j) as ->; [|congruence].
  apply (NoDup_lookup (ids l) _ _ (Thumbnail.id t)); [done|by rewrite list_lookup_fmap, Hi|by rewrite list_lookup_fmap, Hj, He].
Qed.
Lemma remove_is m i t m1 :
  thumbnails m !! i = Some t -> thumbnails m1 = thumbnails m ->
  (if bool_decide (current_id m = Some (Thumbnail.id t)) then forward m else mret m) = Ok m1 ->
  remove_by_idx i m = Ok (t, with_thumbnails (delete i (thumbnails m)) (if bool_decide (current_id m1 = Some (Thumbnail.id t)) then with_current None m1 else m1)).
Proof.
  intros Hi Ht He. unfold remove_by_idx. rewrite (index_ok _ _ _ Hi). cbn [mbind res_bind]. rewrite He. cbn [mbind res_bind].
  set (m2 := if bool_decide (current_id m1 = Some (Thumbnail.id t)) then with_current None m1 else m1).
  assert (Ht2 : thumbnails m2 = thumbnails m) by (unfold m2; destruct (bool_decide (current_id m1 = Some (Thumbnail.id t))); exact Ht).
  rewrite Ht2, (vec_remove_ok i t _ Hi). done.
Qed.
Lemma wf_remove i t m :
  wf m -> thumbnails m !! i = Some t ->
  exists m', remove_by_idx i m = Ok (t, m') /\ wf m' /\ thumbnails m' = delete i (thumbnails m).
Proof.
  intros Hwf Hi. destruct (decide (current_id m = Some (Thumbnail.id t))) as [Hcur|Hcur].
  - destruct (wf_cur_at m _ Hwf Hcur) as [k Hk]. destruct (forward_at m k Hwf Hk) as (u & Hu & He).
    erewrite remove_is; [|done|..|rewrite bool_decide_eq_true_2 by done; exact He]; [|done].
    cbn [current_id with_current]. case_bool_decide as Hid.
    + eexists. split; [done|]. split; [|done]. apply (wf_deleted (with_current None (with_current (Some (Thumbnail.id u)) m)) i t); [apply Hwf|done|].
      intros v Hv. change (v ∈ shown m) in Hv. destruct Hk as (w & Hw & Hcw). rewrite Hcur in Hcw. injection Hcw as Hcw. injection Hid as Hid.
      assert (Hone : (S k mod length (shown m))%nat = k) by (apply (NoDup_lookup (ids (shown m)) _ _ (Thumbnail.id t)); [by apply shown_nodup|rewrite list_lookup_fmap, Hu|rewrite list_lookup_fmap, Hw]; cbn; congruence).
      pose proof (lookup_lt_Some _ _ _ Hw) as Hlt. assert (Hlen : length (shown m) = 1%nat).
      { destruct (decide (S k < length (shown m))%nat); [rewrite Nat.mod_small in Hone by done; lia|]. replace (S k) with (length (shown m)) in Hone by lia.
        rewrite Nat.Div0.mod_same in Hone. lia. }
      apply (same_id (thumbnails m)); [apply Hwf| |by eapply list_elem_of_lookup_2|].
      { by apply filter_spec in Hv as [? _]. }
      destruct (shown m) as [|x [|y xs]]; [by apply not_elem_of_nil in Hv| |done]. apply list_elem_of_singleton in Hv as ->.
      destruct k; [|done]. injection Hw as ->. by rewrite Hcw.
    + eexists. split; [done|]. split; [|done]. apply (wf_deleted (with_current (Some (Thumbnail.id u)) m) i t); [apply Hwf|done|].
      cbn. split; [|congruence]. change (Thumbnail.id u ∈ ids (shown m)). apply list_elem_of_fmap_2. by eapply list_elem_of_lookup_2.
  - erewrite remove_is; [|done|..|rewrite bool_decide_eq_false_2 by done; done]; [|done]. rewrite bool_decide_eq_false_2 by done.
    eexists. split; [done|]. split; [|done]. apply (wf_deleted m i t); [apply Hwf|done|]. destruct Hwf as [_ Hs]. destruct (current_id m) as [c|].
    + split; [done|congruence].
    + rewrite Hs. intros v Hv. by apply not_elem_of_nil in Hv.
Qed.

(** Every operation, and every sequence of them. *)
Lemma apply_wf o m : wf m -> exists m', apply_op o m = Ok m' /\ wf m'.
Proof.
  intros Hwf. destruct o as [| |c| | |s|f|i]; cbn [apply_op].
  - destruct (wf_forward m Hwf) as (m' & ? & ? & _). by exists m'.
  - destruct (wf_backward m Hwf) as (m' & ? & ? & _). by exists m'.
  - eexists. split; [done|]. by apply wf_set_current.
  - eexists. split; [done|]. apply first_wf, Hwf.
  - eexists. split; [done|]. apply last_wf, Hwf.
  - destruct (wf_set_scope s m Hwf) as (r & m' & -> & ? & _). by exists m'.
  - destruct (wf_set_filter f m Hwf) as (r & m' & -> & ? & _). by exists m'.
  - destruct (i <? _)%nat eqn:E; [|by exists m]. apply Nat.ltb_lt, lookup_lt_is_Some_2 in E as [t Ht].
    destruct (wf_remove i t m Hwf Ht) as (m' & -> & ? & _). by exists m'.
Qed.
End operations.

(** ** The whole switcher *)
Section ui.
Context {GE : Geometry} {RE : Rectangles} {LM : Libm} {KF : Keyframe} {Output : Type}.
Implicit Types (E : Env Output) (i : Inner.Inner Output) (u : WindowMruUi.UiState Output) (t : Thumb) (l : list Thumb) (m : Mru).

Definition thumb_ok t : Prop :=
  (forall a, Thumbnail.open_animation t = Some a -> anim_total a)
  /\ (forall ma, Thumbnail.move_animation t = Some ma -> anim_total (Thumbnail.anim ma)).
Definition view_ok (v : ViewPos.ViewPos) : Prop := match v with ViewPos.Static _ => True | ViewPos.Animating a => anim_total a end.
Definition inner_ok i : Prop := wf (Inner.wmru i) /\ Forall thumb_ok (thumbnails (Inner.wmru i)) /\ view_ok (Inner.view_pos i).
Definition ui_ok u : Prop :=
  match u with WindowMruUi.Open i => inner_ok i | WindowMruUi.Closing i a => inner_ok i /\ anim_total a | WindowMruUi.Closed _ => True end.
Record env_ok E : Prop := {
  env_clock : cv_ok (clock E);
  env_movement : config_total (window_movement (config E));
  env_open : config_total (window_open (config E));
  env_close : config_total (recent_windows_close (config E));
  env_delay : 0 <= cv_now_unadjusted (clock E) + from_millis (open_delay_ms (config E)) <= DURATION_MAX
}.

(** What the list looks at of a preview. *)
Definition shape t := (Thumbnail.id t, Thumbnail.on_current_workspace t, Thumbnail.on_current_output t, Thumbnail.app_id t).
Definition reshaped (l l' : list Thumb) : Prop := shape <$> l' = shape <$> l.
Lemma matches_shape s f t t' : shape t' = shape t -> matches s f t' = matches s f t.
Proof. unfold matches. by intros [= _ -> -> ->]. Qed.
Lemma reshaped_ids l l' : reshaped l l' -> ids l' = ids l.
Proof. intros H. apply (f_equal (fmap (fun s => s.1.1.1))) in H. by rewrite <-!list_fmap_compose in H. Qed.
Lemma reshaped_shown s f l l' : reshaped l l' -> ids (List.filter (matches s f) l') = ids (List.filter (matches s f) l).
Proof.
  unfold reshaped. revert l'. induction l as [|t l IH]; intros [|t' l'] H; try done. rewrite !fmap_cons in H. injection H as Ht Ht2 Ht3 Ht4 Hl.
  cbn [List.filter]. rewrite (matches_shape s f t t') by (unfold shape; congruence). destruct (matches s f t); [|by apply IH].
  rewrite !fmap_cons, Ht. f_equal. by apply IH.
Qed.
Lemma wf_reshaped l m : reshaped (thumbnails m) l -> wf m -> wf (with_thumbnails l m).
Proof.
  intros Hr [Hn Hc]. split; [cbn; by rewrite (reshaped_ids _ _ Hr)|]. cbn [current_id with_thumbnails].
  assert (Hs : ids (shown (with_thumbnails l m)) = ids (shown m)) by by apply reshaped_shown. destruct (current_id m); [by rewrite Hs|].
  rewrite Hc in Hs. by apply fmap_nil_inv in Hs.
Qed.

(** Animations of the previews. *)
Lemma config_thumb c t : thumb_ok t -> thumb_ok (Thumbnail.with_config c t).
Proof. done. Qed.
Lemma render_offset_ok E t : env_ok E -> thumb_ok t -> exists x, Thumbnail.render_offset (clock E) t = Ok x.
Proof.
  intros HE [_ Ht]. unfold Thumbnail.render_offset. destruct (Thumbnail.move_animation t) as [ma|]; [|by eexists].
  destruct (anim_total_value (Thumbnail.anim ma) (clock E)) as [v ->]; [by apply Ht|apply HE|]. by eexists.
Qed.
Lemma move_ok E from t :
  env_ok E -> thumb_ok t ->
  exists t', Thumbnail.animate_move_from_with_config (clock E) from (window_movement (config E)) t = Ok t' /\ thumb_ok t' /\ shape t' = shape t.
Proof.
  intros HE Ht. unfold Thumbnail.animate_move_from_with_config. destruct (render_offset_ok E t HE Ht) as [x ->]. cbn [mbind res_bind].
  assert (Ha : exists a, match Thumbnail.move_animation t with
    | Some ma => Animation.restarted (clock E) f1 f0 f0 (Thumbnail.anim ma) | None => Animation.new (clock E) f1 f0 f0 (window_movement (config E)) end = Ok a /\ anim_total a).
  { destruct (Thumbnail.move_animation t) as [ma|] eqn:Em; [apply anim_total_restarted; [by apply Ht|apply HE]|apply (env_movement E HE), HE]. }
  destruct Ha as (a & -> & Ha). eexists. split; [done|]. split; [|done]. split; [apply Ht|]. by intros ma [= <-].
Qed.
Lemma open_ok E t :
  env_ok E -> thumb_ok t ->
  exists t', Thumbnail.animate_open_with_config (clock E) (window_open (config E)) t = Ok t' /\ thumb_ok t' /\ shape t' = shape t.
Proof.
  intros HE Ht. unfold Thumbnail.animate_open_with_config. destruct (env_open E HE (clock E) f0 f1 f0) as (a & -> & Ha); [apply HE|].
  eexists. split; [done|]. split; [|done]. split; [|apply Ht]. by intros b [= <-].
Qed.
Lemma advance_ok E t : env_ok E -> thumb_ok t -> exists t', Thumbnail.advance_animations (clock E) t = Ok t' /\ thumb_ok t' /\ shape t' = shape t.
Proof.
  intros HE [Ho Hm]. unfold Thumbnail.advance_animations.
  assert (H1 : exists o, Thumbnail.take_if (Animation.is_done (clock E)) (Thumbnail.open_animation t) = Ok o /\ forall a, o = Some a -> anim_total a).
  { unfold Thumbnail.take_if. destruct (Thumbnail.open_animation t) as [a|]; [|by eexists].
    destruct (anim_total_done a (clock E)) as [b ->]; [by apply Ho|apply HE|]. eexists. split; [done|]. destruct b; [done|]. intros a' [= <-]. by apply Ho. }
  assert (H2 : exists o, Thumbnail.take_if (fun a => Animation.is_done (clock E) (Thumbnail.anim a)) (Thumbnail.move_animation t) = Ok o
    /\ forall a, o = Some a -> anim_total (Thumbnail.anim a)).
  { unfold Thumbnail.take_if. destruct (Thumbnail.move_animation t) as [a|]; [|by eexists].
    destruct (anim_total_done (Thumbnail.anim a) (clock E)) as [b ->]; [by apply Hm|apply HE|]. eexists. split; [done|]. destruct b; [done|]. intros a' [= <-]. by apply Hm. }
  destruct H1 as (o & -> & H1). cbn [mbind res_bind]. destruct H2 as (mv & -> & H2). eexists. split; [done|]. by split.
Qed.

(** Changing previews one by one. *)
Definition steady (f : Thumb -> res Thumb) : Prop := forall t, thumb_ok t -> exists t', f t = Ok t' /\ thumb_ok t' /\ shape t' = shape t.
Lemma mapM_steady f l : steady f -> Forall thumb_ok l -> exists l', mapM f l = Ok l' /\ Forall thumb_ok l' /\ reshaped l l'.
Proof.
  intros Hf. induction 1 as [|t l Ht _ IH]; [by exists []|]. destruct (Hf t Ht) as (t' & He & Ht' & Hs). destruct IH as (l' & He' & Hl' & Hr).
  exists (t' :: l'). change (mapM f (t :: l)) with (y ← f t; k ← mapM f l; mret (y :: k)). rewrite He. cbn [mbind res_bind]. rewrite He'. split_and!; [done|by constructor|].
  unfold reshaped in *. by rewrite !fmap_cons, Hs, Hr.
Qed.
Lemma until_steady p stop f l : steady f -> Forall thumb_ok l -> exists l', Inner.update_until p stop f l = Ok l' /\ Forall thumb_ok l' /\ reshaped l l'.
Proof.
  intros Hf. unfold reshaped. induction 1 as [|t l Ht Hl (l' & He' & Hl' & Hr)]; [by exists []|]. cbn [Inner.update_until].
  assert (Hk : Forall thumb_ok (t :: l') /\ shape <$> (t :: l') = shape <$> (t :: l)) by (split; [by constructor|by rewrite !fmap_cons, Hr]).
  destruct (p t); [|rewrite He'; by eexists]. destruct (stop t); [eexists; split_and!; [done|by constructor|done]|].
  destruct (Hf t Ht) as (t' & -> & Ht' & Hs). cbn [mbind res_bind]. rewrite He'. eexists. split_and!; [done|by constructor|]. by rewrite !fmap_cons, Hs, Hr.
Qed.

(** The strip of previews. *)
Lemma inner_list l i :
  inner_ok i -> Forall thumb_ok l -> reshaped (thumbnails (Inner.wmru i)) l -> inner_ok (Inner.with_wmru (with_thumbnails l (Inner.wmru i)) i).
Proof. intros (Hw & Ht & Hv) Hl Hr. split_and!; [by apply wf_reshaped|done|done]. Qed.
Lemma inner_view v i : inner_ok i -> view_ok v -> inner_ok (Inner.with_view_pos v i).
Proof. intros (Hw & Ht & _) Hv. by split_and!. Qed.
Lemma inner_freeze b i : inner_ok i -> inner_ok (Inner.with_freeze_view b i).
Proof. done. Qed.
Lemma inner_wmru m i : inner_ok i -> wf m -> thumbnails m = thumbnails (Inner.wmru i) -> inner_ok (Inner.with_wmru m i).
Proof. intros (_ & Ht & Hv) Hw Hm. split_and!; [done|cbn; by rewrite Hm|done]. Qed.
Lemma offset_view d v : view_ok v -> view_ok (ViewPos.offset d v).
Proof. destruct v as [|a]; [done|]. apply anim_total_offset. Qed.
Lemma current_view E v : env_ok E -> view_ok v -> exists x, ViewPos.current (clock E) v = Ok x.
Proof. intros HE. destruct v as [p|a]; [by eexists|]. intros Hv. apply anim_total_value; [done|apply HE]. Qed.

Lemma inner_update_config E i : inner_ok i -> inner_ok (Inner.update_config E i).
Proof.
  intros Hi. apply (inner_list _ (Inner.with_freeze_view false i)); [done| |].
  - apply Forall_fmap. exact (proj1 (proj2 Hi)).
  - unfold reshaped. rewrite <-list_fmap_compose. by apply list_fmap_ext.
Qed.
Lemma inner_animate_view E d i : env_ok E -> inner_ok i -> exists i', Inner.animate_view_pos_from E d i = Ok i' /\ inner_ok i'.
Proof.
  intros HE Hi. unfold Inner.animate_view_pos_from, ViewPos.animate_from_with_config.
  destruct (current_view E (Inner.view_pos i) HE) as [x ->]; [apply Hi|]. cbn [mbind res_bind].
  destruct (env_movement E HE (clock E) (x + d)%F (ViewPos.target (Inner.view_pos i)) f0) as (a & -> & Ha); [apply HE|]. eexists. split; [done|].
  by apply inner_view.
Qed.
Lemma inner_advance E i : env_ok E -> inner_ok i -> exists i', Inner.advance_animations E i = Ok i' /\ inner_ok i'.
Proof.
  intros HE Hi. unfold Inner.advance_animations.
  assert (Hv : exists v, ViewPos.advance_animations (clock E) (Inner.view_pos i) = Ok v /\ view_ok v).
  { destruct Hi as (_ & _ & Hv). unfold ViewPos.advance_animations. destruct (Inner.view_pos i) as [p|a]; [by eexists|].
    destruct (anim_total_done a (clock E)) as [b ->]; [done|apply HE|]. eexists. split; [done|]. by destruct b. }
  destruct Hv as (v & -> & Hv). cbn [mbind res_bind]. cbv zeta. unfold WindowMru.advance_animations.
  destruct (mapM_steady (Thumbnail.advance_animations (clock E)) (thumbnails (Inner.wmru i))) as (l & He & Hl & Hr); [intros t; by apply advance_ok|apply Hi|].
  change (Inner.wmru (Inner.with_view_pos v i)) with (Inner.wmru i). rewrite He. unfold mret, res_ret. cbn [mbind res_bind].
  pose proof (inner_list l (Inner.with_view_pos v i) (inner_view v i Hi Hv) Hl Hr) as Hi1.
  set (i1 := Inner.with_wmru (with_thumbnails l (Inner.wmru i)) (Inner.with_view_pos v i)). change (inner_ok i1) in Hi1. destruct (Inner.freeze_view i1); [by eexists|].
  match goal with |- context [if ?b then Inner.animate_view_pos_from E ?d i1 else _] => assert (H2 : exists i2,
    (if b then Inner.animate_view_pos_from E d i1 else Ok i1) = Ok i2 /\ inner_ok i2) by (destruct b; [by apply inner_animate_view|by eexists]) end.
  destruct H2 as (i2 & -> & Hi2). eexists. split; [done|]. apply inner_view; [done|]. apply offset_view, Hi2.
Qed.
Lemma inner_update_window E layout id i : inner_ok i -> inner_ok (Inner.update_window E layout id i).
Proof.
  intros Hi. unfold Inner.update_window. destruct (idx_of id (Inner.wmru i)) as [n|]; [|done].
  destruct (List.find _ layout) as [mp|]; [|done]. destruct (thumbnails (Inner.wmru i) !! n) as [t|] eqn:Et; [|done]. cbv zeta.
  assert (H1 : inner_ok (Inner.with_wmru (with_thumbnails (<[n := Thumbnail.update_window mp t]> (thumbnails (Inner.wmru i))) (Inner.wmru i)) i)).
  { apply inner_list; [done| |].
    - apply Forall_insert; [apply Hi|]. exact (proj1 (Forall_lookup _ _) (proj1 (proj2 Hi)) n t Et).
    - unfold reshaped. rewrite list_fmap_insert. apply list_insert_id. by rewrite list_lookup_fmap, Et. }
  destruct (option_map _ _); [|done]. apply inner_view; [done|]. apply offset_view, H1.
Qed.
Lemma idx_of_lookup id m n : idx_of id m = Some n -> exists t, thumbnails m !! n = Some t /\ Thumbnail.id t = id.
Proof. intros H. apply position_Some in H as (t & Ht & Hid%has_id_true & _). by exists t. Qed.
Lemma inner_remove_window E id i :
  env_ok E -> inner_ok i -> exists o i', Inner.remove_window E id i = Ok (o, i') /\ inner_ok i'.
Proof.
  intros HE Hi. unfold Inner.remove_window. destruct (idx_of id (Inner.wmru i)) as [n|] eqn:En; [|by exists None, i].
  destruct (idx_of_lookup _ _ _ En) as (t & Ht & _). cbv zeta.
  match goal with |- context [mbind _ (if ?b then mret i else ?e)] => assert (H1 : exists i1, (if b then mret i else e) = Ok i1 /\ inner_ok i1
    /\ reshaped (thumbnails (Inner.wmru i)) (thumbnails (Inner.wmru i1))) end.
  { destruct (match head (reverse (shown (Inner.wmru i))) with Some t => has_id id t | None => false end); [by exists i|].
    rewrite (index_ok _ _ _ Ht). cbn [mbind res_bind]. destruct (thumbnail_left_of_current id (Inner.wmru i)).
    - match goal with |- context [Inner.update_until ?p ?s ?f ?l] => destruct (until_steady p s f l) as (l' & -> & Hl & Hr); [intros v; by apply move_ok|apply Hi|] end.
      eexists. split; [done|]. split; [|exact Hr]. apply (inner_list l' (Inner.with_view_pos _ i)); [|done|done]. apply inner_view; [done|]. apply offset_view, Hi.
    - match goal with |- context [Inner.update_until ?p ?s ?f ?l] => destruct (until_steady p s f l) as (l' & -> & Hl & Hr); [intros v; by apply move_ok| |] end.
      { apply Forall_reverse. apply Hi. }
      assert (Hr' : reshaped (thumbnails (Inner.wmru i)) (reverse l')) by (unfold reshaped in *; rewrite fmap_reverse, Hr, fmap_reverse; apply reverse_involutive).
      eexists. split; [done|]. split; [|exact Hr']. apply inner_list; [done|by apply Forall_reverse|exact Hr']. }
  destruct H1 as (i1 & -> & Hi1 & Hr). cbn [mbind res_bind]. assert (Hlt : (n < length (thumbnails (Inner.wmru i1)))%nat).
  { apply lookup_lt_Some in Ht. apply (f_equal length) in Hr. rewrite !length_fmap in Hr. lia. }
  apply lookup_lt_is_Some_2 in Hlt as [t1 Ht1]. destruct (wf_remove n t1 (Inner.wmru i1)) as (m' & -> & Hw & Hm); [apply Hi1|done|].
  eexists _, _. split; [done|]. split_and!; [done| |apply Hi1]. cbn. rewrite Hm. apply Forall_delete, Hi1.
Qed.

(** A change of what is shown. *)
Lemma shift_steady E old new dir d l i :
  env_ok E -> Forall thumb_ok l -> exists l' d', Inner.shift_side E i old new dir d l = Ok (l', d') /\ Forall thumb_ok l' /\ reshaped l l'.
Proof.
  intros HE Hl. revert d. unfold reshaped. induction Hl as [|t l Ht _ IH]; intros d; [by exists [], d|]. cbn [Inner.shift_side].
  assert (H1 : exists t' d', match old t, new t with
    | true, true => t' ← Thumbnail.animate_move_from_with_config (clock E) (dir d) (window_movement (config E)) t; mret (t', d)
    | true, false => mret (t, (d + ((Inner.preview_size E i t).1 + Inner.gap E i))%F)
    | false, true => mret (t, (d - ((Inner.preview_size E i t).1 + Inner.gap E i))%F)
    | false, false => mret (t, d)
    end = Ok (t', d') /\ thumb_ok t' /\ shape t' = shape t).
  { destruct (old t), (new t); try by eexists _, _. destruct (move_ok E (dir d) t HE Ht) as (t' & -> & ? & ?). by exists t', d. }
  destruct H1 as (t' & d1 & -> & Ht' & Hs). cbn [mbind res_bind]. destruct (IH d1) as (l' & d2 & -> & Hl' & Hr). eexists _, _.
  split_and!; [done|by constructor|]. by rewrite !fmap_cons, Hs, Hr.
Qed.
Lemma inner_change E was_empty s f i :
  env_ok E -> inner_ok i -> exists i', Inner.animate_scope_filter_change E was_empty s f i = Ok i' /\ inner_ok i'.
Proof.
  intros HE Hi. unfold Inner.animate_scope_filter_change. destruct (current_id (Inner.wmru i)) as [c|] eqn:Hc; [|by eexists].
  destruct (find_shown_ok (Inner.wmru i) c (proj1 Hi) Hc) as (k & t & _ & Ht & Hid & _).
  assert (Hx : exists n, idx_of c (Inner.wmru i) = Some n).
  { unfold idx_of. destruct (position (has_id c) (thumbnails (Inner.wmru i))) as [n|] eqn:Hp; [by exists n|]. exfalso.
    rewrite position_None in Hp. specialize (Hp t (list_elem_of_lookup_2 _ _ _ Ht)). by rewrite (proj2 (has_id_true c t)) in Hp. }
  destruct Hx as [n Hn]. destruct (idx_of_lookup _ _ _ Hn) as (t0 & Ht0 & _). rewrite Hn. cbn [unwrap mbind res_bind]. cbv zeta.
  match goal with |- context [mapM ?g ?l] => destruct (mapM_steady g l) as (ts & -> & Hts & Hr); [|apply Hi|] end.
  { intros v Hv. destruct (_ && _); [by apply open_ok|by exists v]. }
  cbn [mbind res_bind]. pose proof (inner_list ts i Hi Hts Hr) as Hi1. set (i1 := Inner.with_wmru _ i) in *.
  destruct was_empty; [eexists; split; [done|by apply inner_view]|].
  assert (Hlt : (n < length ts)%nat) by (apply (f_equal length) in Hr; rewrite !length_fmap in Hr; apply lookup_lt_Some in Ht0; lia).
  apply lookup_lt_is_Some_2 in Hlt as [t1 Ht1]. rewrite (index_ok _ _ _ Ht1). cbn [mbind res_bind].
  match goal with |- context [Inner.shift_side ?e ?j ?o ?w ?g f0 (drop ?a ?b)] =>
    destruct (shift_steady e o w g f0 (drop a b) j HE) as (after & d1 & -> & Ha & Hra); [by apply Forall_drop|] end. cbn [mbind res_bind].
  match goal with |- context [Inner.shift_side ?e ?j ?o ?w ?g f0 (reverse ?b)] =>
    destruct (shift_steady e o w g f0 (reverse b) j HE) as (before & d2 & -> & Hb & Hrb); [by apply Forall_reverse, Forall_take|] end. cbn [mbind res_bind].
  eexists. split; [done|]. apply inner_view; [|apply offset_view, Hi]. apply inner_list; [done| |].
  - apply Forall_app. split; [by apply Forall_reverse|]. constructor; [|done]. exact (proj1 (Forall_lookup _ _) Hts n t1 Ht1).
  - unfold reshaped in *. change (thumbnails (Inner.wmru i1)) with ts. rewrite fmap_app, fmap_reverse, Hrb, fmap_cons, Hra, fmap_reverse, reverse_involutive.
    rewrite <-fmap_cons, <-fmap_app. by rewrite (take_drop_middle ts n t1 Ht1).
Qed.
Lemma inner_set_scope E s i : env_ok E -> inner_ok i -> exists i', Inner.set_scope E s i = Ok i' /\ inner_ok i'.
Proof.
  intros HE Hi. unfold Inner.set_scope. destruct (wf_set_scope s (Inner.wmru i) (proj1 Hi)) as (r & m & -> & Hw & Hm). cbn [mbind res_bind].
  pose proof (inner_wmru m i Hi Hw Hm) as Hi1. destruct r; [by apply inner_change|by eexists].
Qed.
Lemma inner_set_filter E f i : env_ok E -> inner_ok i -> exists i', Inner.set_filter E f i = Ok i' /\ inner_ok i'.
Proof.
  intros HE Hi. unfold Inner.set_filter. destruct (wf_set_filter f (Inner.wmru i) (proj1 Hi)) as (r & m & -> & Hw & Hm). cbn [mbind res_bind].
  pose proof (inner_wmru m i Hi Hw Hm) as Hi1. destruct r; [by apply inner_change|by eexists].
Qed.

(** ** The state machine *)
Inductive UiOp :=
| UOpen (m : Mru) (o : Output) | UClose (r : MruCloseRequest) | UAdvance (dir : MruDirection) (f : option MruFilter)
| USetScope (s : MruScope) | UCycleScope | UPointerMotion (pos : Point) | UFirst | ULast
| UUpdateWindow (layout : list Thumbnail.Mapped) (id : Z) | URemoveWindow (id : Z) | UAdvanceAnimations | UUpdateConfig.
(** [run_ui E op u]: the window to focus, if the operation returns one, and the
    switcher after it. *)
Definition run_ui E (op : UiOp) u : res (option Z * WindowMruUi.UiState Output) :=
  match op with
  | UOpen m o => u ← WindowMruUi.open E m o u; mret (None, u)
  | UClose r => WindowMruUi.close E r u
  | UAdvance dir f => u ← WindowMruUi.advance E dir f u; mret (None, u)
  | USetScope s => u ← WindowMruUi.set_scope E s u; mret (None, u)
  | UCycleScope => u ← WindowMruUi.cycle_scope E u; mret (None, u)
  | UPointerMotion pos => '(_, u) ← WindowMruUi.pointer_motion E pos u; mret (None, u)
  | UFirst => u ← WindowMruUi.first u; mret (None, u)
  | ULast => u ← WindowMruUi.last u; mret (None, u)
  | UUpdateWindow layout id => mret (None, WindowMruUi.update_window E layout id u)
  | URemoveWindow id => u ← WindowMruUi.remove_window E id u; mret (None, u)
  | UAdvanceAnimations => u ← WindowMruUi.advance_animations E u; mret (None, u)
  | UUpdateConfig => mret (None, WindowMruUi.update_config E u)
  end.
Definition ui_pre (op : UiOp) : Prop := match op with UOpen m _ => wf m /\ Forall thumb_ok (thumbnails m) | _ => True end.
(** The window to focus is the selected one, which is shown. *)
Definition focusable (x : option Z) u : Prop :=
  match x with Some c => exists i, u = WindowMruUi.Open i /\ current_id (Inner.wmru i) = Some c /\ c ∈ ids (shown (Inner.wmru i)) | None => True end.

Lemma close_ok E r u : env_ok E -> ui_ok u -> exists x u', WindowMruUi.close E r u = Ok (x, u') /\ ui_ok u' /\ focusable x u.
Proof.
  intros HE Hu. unfold WindowMruUi.close. destruct u as [i|i a|s]; [|by eexists _, _..]. cbv zeta.
  assert (Hf : focusable (match r with Cancel => None | Confirm => current_id (Inner.wmru i) end) (WindowMruUi.Open i)).
  { destruct r; [done|]. unfold focusable. destruct (current_id (Inner.wmru i)) as [c|] eqn:Hc; [|done]. exists i. split_and!; [done..|].
    pose proof (proj2 (proj1 Hu)) as H. by rewrite Hc in H. }
  destruct (_ <? _); [by eexists _, _|]. destruct (env_close E HE (clock E) f1 f0 f0) as (a & -> & Ha); [apply HE|]. by eexists _, _.
Qed.
Lemma under_ok E pos i : env_ok E -> inner_ok i -> exists r, Inner.thumbnail_under E pos i = Ok r.
Proof.
  intros HE Hi. unfold Inner.thumbnail_under, Inner.thumbnails_in_view_static. destruct (current_view E (Inner.view_pos i) HE) as [x ->]; [apply Hi|]. by eexists.
Qed.
Lemma scope_ok E s u : env_ok E -> ui_ok u -> exists u', WindowMruUi.set_scope E s u = Ok u' /\ ui_ok u'.
Proof.
  intros HE Hu. unfold WindowMruUi.set_scope. destruct u as [i|i a|s']; [|by eexists..].
  destruct (inner_set_scope E s (Inner.with_freeze_view false i) HE Hu) as (i1 & -> & Hi1). by eexists.
Qed.
Lemma run_ui_ok E op u :
  env_ok E -> ui_ok u -> ui_pre op -> exists x u', run_ui E op u = Ok (x, u') /\ ui_ok u' /\ focusable x u.
Proof.
  intros HE Hu Hp. assert (Hsilent : forall r : res (WindowMruUi.UiState Output), (exists u', r = Ok u' /\ ui_ok u') ->
    exists x u', (u' ← r; mret (None, u')) = Ok (x, u') /\ ui_ok u' /\ focusable x u) by (intros r (u' & -> & Hu'); by exists None, u').
  destruct op as [m o|r|dir f|s| |pos| | |layout id|id| |]; cbn [run_ui]; try apply Hsilent.
  - unfold WindowMruUi.open. destruct (WindowMruUi.is_open u); [by exists u|]. cbv zeta. rewrite dadd_ok by apply (env_delay E HE). cbn [mbind res_bind].
    eexists. split; [done|]. destruct Hp. by split_and!.
  - by apply close_ok.
  - unfold WindowMruUi.advance. destruct u as [i|i a|s]; [|by eexists..]. cbv zeta.
    assert (H1 : exists i1, match f with Some f => Inner.set_filter E f (Inner.with_freeze_view false i) | None => mret (Inner.with_freeze_view false i) end = Ok i1 /\ inner_ok i1)
      by (destruct f; [by apply inner_set_filter|by eexists]).
    destruct H1 as (i1 & -> & Hi1). cbn [mbind res_bind]. destruct dir.
    + destruct (wf_forward (Inner.wmru i1) (proj1 Hi1)) as (m & -> & Hw & Hm & _). eexists. split; [done|]. by apply inner_wmru.
    + destruct (wf_backward (Inner.wmru i1) (proj1 Hi1)) as (m & -> & Hw & Hm). eexists. split; [done|]. by apply inner_wmru.
  - by apply scope_ok.
  - unfold WindowMruUi.cycle_scope. destruct u as [i|i a|s]; [|by eexists..].
    destruct (WindowMru.scope (Inner.wmru i)); apply scope_ok; done.
  - unfold WindowMruUi.pointer_motion. destruct u as [i|i a|s]; [|by eexists _, _..]. cbv zeta.
    destruct (under_ok E pos (Inner.with_freeze_view true i) HE Hu) as [r ->]. cbn [mbind res_bind]. eexists _, _. split; [done|]. split; [|done].
    destruct r as [c|]; [|done]. apply inner_wmru; [done|by apply wf_set_current, Hu|]. unfold set_current. by destruct (existsb _ _).
  - unfold WindowMruUi.first, WindowMruUi.unfrozen. destruct u as [i|i a|s]; [|by eexists..]. eexists. split; [done|]. apply inner_wmru; [done|apply first_wf, Hu|done].
  - unfold WindowMruUi.last, WindowMruUi.unfrozen. destruct u as [i|i a|s]; [|by eexists..]. eexists. split; [done|]. apply inner_wmru; [done|apply last_wf, Hu|done].
  - eexists _, _. split; [done|]. split; [|done]. destruct u as [i|i a|s]; [by apply inner_update_window|done..].
  - unfold WindowMruUi.remove_window. destruct u as [i|i a|s]; [|by eexists..].
    destruct (inner_remove_window E id i HE Hu) as (o & i1 & -> & Hi1). cbn [mbind res_bind]. destruct o; [|by eexists].
    destruct (is_empty (Inner.wmru i1)); [|by eexists]. destruct (close_ok E Cancel (WindowMruUi.Open i1) HE Hi1) as (x & u' & -> & Hu' & _). by eexists.
  - unfold WindowMruUi.advance_animations. destruct u as [i|i a|s]; [| |by eexists].
    + destruct (inner_advance E i HE Hu) as (i1 & -> & Hi1). by eexists.
    + destruct Hu as [Hi Ha]. destruct (anim_total_done a (clock E)) as [b ->]; [done|apply HE|]. cbn [mbind res_bind]. destruct b; [by eexists|].
      destruct (inner_advance E i HE Hi) as (i1 & -> & Hi1). by eexists.
  - eexists _, _. split; [done|]. split; [|done]. destruct u as [i|i a|s]; [by apply inner_update_config|destruct Hu; split; [by apply inner_update_config|done]|done].
Qed.

(** The switchers there are. *)
Inductive ui_reachable : WindowMruUi.UiState Output -> Prop :=
| ui_new : ui_reachable WindowMruUi.new
| ui_step E op u x u' : ui_reachable u -> env_ok E -> ui_pre op -> run_ui E op u = Ok (x, u') -> ui_reachable u'.
Lemma ui_reachable_ok u : ui_reachable u -> ui_ok u.
Proof.
  induction 1 as [|E op u x u' _ IH HE Hp He]; [done|]. destruct (run_ui_ok E op u HE IH Hp) as (x0 & u0 & He0 & Hu & _).
  rewrite He in He0. by injection He0 as _ ->.
Qed.

(** The switcher never panics, from its creation on, while windows come, change and
    go, and the scope and the filter change what it shows; the selected window is always
    one of those shown, and none is selected only where none is shown; the window that
    closing it gives the focus to was the selected one, shown at that time.  [env_ok]:
    what the clock and the configuration may be. *)
Lemma switcher_ok E op u :
  ui_reachable u -> env_ok E -> ui_pre op ->
  exists x u', run_ui E op u = Ok (x, u') /\ ui_ok u' /\ focusable x u.
Proof. intros Hu%ui_reachable_ok HE Hp. by apply run_ui_ok. Qed.
End ui.

(** ** Opening it *)
Section opening.
Context {LM : Libm} {KF : Keyframe} {Output : Type} `{EqDecision Output}.
Implicit Types (l : list Thumb) (t : Thumb).

Lemma insert_by_perm t l : insert_by_timestamp t l ≡ₚ t :: l.
Proof. induction l as [|u l IH]; [done|]. cbn. destruct (not_after _ _); [done|]. rewrite IH. apply Permutation_swap. Qed.
Lemma sort_perm l : sort_by_timestamp l ≡ₚ l.
Proof. induction l as [|t l IH]; [done|]. cbn. by rewrite insert_by_perm, IH. Qed.

(** The latest focus first. *)
Definition focused_first (t u : Thumb) : Prop := not_after (Thumbnail.timestamp t) (Thumbnail.timestamp u) = true.
Lemma not_after_total a b : not_after a b = false -> not_after b a = true.
Proof. destruct a as [a|], b as [b|]; try done. cbn. intros H%Z.leb_gt. apply Z.leb_le. lia. Qed.
Lemma not_after_trans a b c : not_after a b = true -> not_after b c = true -> not_after a c = true.
Proof. destruct a as [a|], b as [b|], c as [c|]; try done. cbn. rewrite !Z.leb_le. lia. Qed.
Lemma insert_sorted t l : StronglySorted focused_first l -> StronglySorted focused_first (insert_by_timestamp t l).
Proof.
  induction 1 as [|u l Hl IH Hu]; [by repeat constructor|]. cbn. destruct (not_after _ _) eqn:E.
  - constructor; [by constructor|]. constructor; [done|]. eapply Forall_impl; [exact Hu|]. intros v Hv. by eapply not_after_trans.
  - constructor; [done|]. rewrite insert_by_perm. constructor; [by apply not_after_total|done].
Qed.
Lemma sort_sorted l : StronglySorted focused_first (sort_by_timestamp l).
Proof. induction l as [|t l IH]; [constructor|]. by apply insert_sorted. Qed.

(** The switcher is opened with every window, the one focused last being selected. *)
Lemma opened_ok (o : option Output) c (ws : list (WorkspaceView Output)) :
  (forall w, w ∈ ws -> is_Some (monitor w)) -> NoDup (ws ≫= (fun w => Thumbnail.mapped_id <$> windows w)) ->
  exists m, new o c ws = Ok m /\ wf m /\ Forall thumb_ok (thumbnails m) /\ StronglySorted focused_first (thumbnails m)
    /\ (is_Some o -> ids (thumbnails m) ≡ₚ ws ≫= (fun w => Thumbnail.mapped_id <$> windows w)).
Proof.
  intros Hm Hn. unfold new. destruct o as [o|].
  2:{ exists empty. split_and!; [done|split; [constructor|done]|constructor|constructor|by intros []]. }
  assert (Ht : exists tss, mapM (workspace_thumbnails o c) ws = Ok tss /\ ids (concat tss) = (ws ≫= (fun w => Thumbnail.mapped_id <$> windows w))
    /\ Forall thumb_ok (concat tss)).
  { clear Hn. induction ws as [|w ws IH]; [by exists []|]. destruct IH as (tss & He & Hi & Hok); [intros v Hv; apply Hm; by right|].
    destruct (Hm w ltac:(left)) as [mon Hmon].
    assert (Hw : exists f, (forall x, Thumbnail.id (f x) = Thumbnail.mapped_id x) /\ (forall x, thumb_ok (f x)) /\ workspace_thumbnails o c w = Ok (f <$> windows w)).
    { unfold workspace_thumbnails. rewrite Hmon. eexists (fun x => Thumbnail.from_mapped x c _ _). split; [done|]. split; [by split|reflexivity]. }
    destruct Hw as (f & Hf & Hfok & Hw). exists ((f <$> windows w) :: tss).
    change (mapM (workspace_thumbnails o c) (w :: ws)) with (y ← workspace_thumbnails o c w; k ← mapM (workspace_thumbnails o c) ws; mret (y :: k)).
    rewrite Hw. cbn [mbind res_bind]. rewrite He. split; [done|].
    cbn [concat]. rewrite fmap_app, Hi, <-list_fmap_compose. split; [cbn; f_equal; apply list_fmap_ext; intros k x _; apply Hf|]. apply Forall_app. split; [|done].
    apply Forall_fmap, Forall_forall. intros x _. apply Hfok. }
  destruct Ht as (tss & -> & Hi & Hok). cbn [mbind res_bind]. eexists. split; [done|]. cbn [thumbnails].
  assert (Hp : ids (sort_by_timestamp (concat tss)) ≡ₚ ids (concat tss)) by by rewrite sort_perm.
  split_and!; [|by rewrite sort_perm|apply sort_sorted|intros _; by rewrite Hp, Hi].
  assert (Hs : forall l, List.filter (matches ScopeAll None) l = l) by (intros l; induction l as [|t l IH]; [done|]; cbn; by rewrite IH).
  split; [cbn; by rewrite Hp, Hi|]. cbn [current_id]. unfold shown, shows. cbn [scope app_id_filter thumbnails]. rewrite Hs.
  destruct (sort_by_timestamp (concat tss)) as [|t l]; [done|]. by left.
Qed.
End opening.
